(* ===== verification/_CoqProject ===== *)
-Q . S2P
Prelude.v
KMalloc.v
Mem.v
CString.v
Pmm.v
Paging.v
PageCount.v
Elf.v
ElfSpec.v
Sched.v
Unix.v
Vfs.v
Bytes.v
Net.v
Tcp.v
Ufs.v
UfsSpec.v
UfsFile.v
UfsFormat.v
Disk.v
Partition.v
PartitionSpec.v
UfsDisk.v
CcLex.v
CcParse.v
CcPrint.v
CcGen.v
X86.v
CcDirect.v
CcSem.v
CcCorrect.v
CcSim.v
CcCompile.v
CcElf.v
Boot.v
Keyboard.v
Syscall.v
Exec.v
ExecSpec.v
SyscallSpec.v
SyscallFile.v
Printf.v
Scanf.v
PrintfSpec.v
Calendar.v
LibC.v
UMalloc.v
UMallocSpec.v
UserMem.v
