(* ===== verification/Prelude.v ===== *)
(** * UTMS7: a verification library for the kernel, its storage, network, compiler and C library

    UTMS7 is an operating system for x86-64 PCs written in C: a kernel (memory, paging,
    scheduler, loaders, virtual file system, system calls, sockets, network), its native
    file system on partitioned disks, a C library for programs, and a C compiler that runs
    on it.  This library models these parts as executable definitions and proves what they
    do.  File and function names below are those of the sources.

    ** How the code is modelled

    Machine integers are [Z] with the reduction of each width written out ([u8] .. [u64],
    [i32], [i64]).  Each component's state is a record; pointers into it are addresses or
    indices, and following one that is not valid gives [None], so a definition that
    returns [Some] for all good states is a proof that the code stays inside its data.
    Loops are structural or take fuel, and a result [None] for exhausted fuel is shown not
    to occur.  Errors the code reports are the values it returns.  Interrupts are disabled
    around the operations that are modelled as atomic; where the code waits (spins, sleeps,
    blocks) what happens meanwhile is a parameter ([wait], [sleep]) or a step of a run.
    Code outside the sources (devices, the disk behind a device node, other file systems)
    is a parameter, with the behaviour relied on as the laws of a type class.

    ** How the parts fit together

    Where one component relies on another, a class states what is promised, and both sides
    are proved against it: [Allocator] (KMalloc for the files and the network),
    [BlockDevice] (a devfs node for UFS), [Ata] (the disk controller for Disk), [UserSpace]
    (page tables and brk for the heap of programs).  The compositions are theorems of their
    own: UFS on a partition (UfsDisk), system calls on files (SyscallFile), the user heap on
    the kernel (UserMem), compiled programs in the kernel's loader (CcElf).

    ** Files: the kernel

    - Prelude: machine integers, masks, the tactics [zbool], [case_step] and [dlia], the
      hint database [machine], lemmas on lists and options.
    - Bytes: little endian integers and copies in buffers.
    - KMalloc: the kernel heap (kernel/core/memory.c: kmalloc, kfree, kmalloc_aligned).
      The free list is a store of headers; [heap_inv] says the list is sorted, disjoint
      and coalesced.  [heap_allocator] shows that the heap is an [Allocator].
    - Pmm: the physical page allocator (kernel/core/memory.c, the pmm functions).
    - Paging: kernel/arch/x86_64/paging.c; the tables are words of the memory the page
      allocator hands out, and [translate] is the walk of the processor.  PageCount: how
      many pages a mapping takes.
    - Elf: kernel/core/elf.c and binfmt.c, on top of Paging; ElfSpec: what is loaded.
    - Sched: kernel/core/sched.c; the process table with its linked ready and sleep queues,
      the context switch, fork, exec, wait, on top of KMalloc, Paging and Elf.
    - Unix: kernel/core/unix.c; sockets between processes of the scheduler.
    - Vfs: kernel/core/vfs.c; nodes, mounts, path resolution and the file system in memory.
    - Boot: the modules of the boot loader (kernel/core/kernel.c) and the first process.
    - Keyboard: kernel/drivers/input/keyboard.c.
    - Syscall: kernel/core/syscall.c, the handlers and the table over the state [sys] of the
      whole kernel; Exec: [sys_exec].  ExecSpec: user memory and the stack of a new program;
      SyscallSpec: paths, brk, refused pointers; SyscallFile: reading and writing files.
    - Net: net/net.c, arp.c, ip.c, icmp.c, udp.c, dns.c, dhcp.c; packets as bytes.
    - Tcp: net/tcp.c on top of Net.

    ** Files: storage

    - Ufs: kernel/fs/ufs.c, every operation, on a block device ([BlockDevice]); UfsSpec its
      structures, bitmap, blocks and inodes; UfsFile the contents of files; UfsFormat
      formatting and mounting.
    - Disk: the commands of kernel/drivers/storage/ahci.c, the table of disk.c and the block
      devices of kernel/fs/devfs.c; UfsDisk: UFS on a partition of them.
    - Partition: kernel/drivers/storage/mbr.c, gpt.c and udisk.c and the directory of
      devfs.c; PartitionSpec: the boot record as a list of partitions.

    ** Files: the C library

    - Mem, CString: lib/string.c, lib/ctype.c, lib/stdlib.c and include/endian.h, on a byte
      memory (block operations) and on C strings.
    - Printf, Scanf: the formatted output and input of lib/stdio.c; PrintfSpec: the text of
      a format, and reading back.
    - Calendar: the dates of lib/libc.c.  LibC: its environment and [getopt].
    - UMalloc: malloc, calloc, realloc and free of lib/libc.c on any [UserSpace];
      UMallocSpec: they implement a store of objects; UserMem: the kernel as [UserSpace].

    ** Files: the compiler (apps/cc)

    - CcLex, CcParse, CcGen, CcElf: lexer.c, ast.c and parser.c, codegen.c, elf.c.
    - CcPrint: a printer for trees.  CcDirect: the code with all targets computed.
    - X86: the instructions the compiler emits.  CcSem: a reference semantics of the core
      language.  CcCorrect, CcSim, CcCompile: the simulation between the two.

    ** What the theorems show

    - Heap: kmalloc and kfree keep [heap_inv]; allocations are disjoint, aligned and inside
      the region; kfree undoes kmalloc; a run that frees everything ends with the single
      initial block; the sizes and addresses for which the arithmetic wraps.
    - Pages and page tables: an allocated page was free and is zeroed; mapping and
      unmapping change exactly the translation of the page, splitting large pages, and take
      at most three pages for tables.
    - Loader: the pages of a loaded segment hold the bytes of the file and zeroes, and
      nothing else changes.
    - Scheduler: every run keeps the queues well formed; a context switch refines round
      robin with timed wakeups; ready processes run after at most as many preemptions as
      there are processes before them; contexts are restored; fork, wait and wakeup.
    - Files: a directory refines a list of names, a file in memory an array of bytes, and a
      file written through the path interface is read back; path resolution ends and
      depends only on the tree; the longest mount point is chosen.
    - System calls: what a process writes to a descriptor it reads back into its memory; the
      break moves with zeroed pages or stays, for lack of pages; a new program finds its
      arguments on its stack; pointers outside of user memory are refused without effect;
      paths are brought into their lexical normal form.  The keyboard is a bounded queue.
    - UFS: the block allocator, inodes as typed records on the disk; writes and reads of a
      file are stores into and slices of one array of bytes, whatever blocks the allocator
      hands out, without touching other files; a formatted device can be mounted and is
      empty and consistent.
    - Disks: a devfs node is an array of bytes; a write to a file of a UFS leaves all other
      partitions of all disks alone; a created partition is behind the others and disjoint.
    - Network: the Internet checksum, the address cache as a bounded queue, delivery of
      datagrams between two machines, that any received frame is handled; TCP's states
      follow the connection diagram and its receive path is a queue of bytes.
    - C library: strtoul, strcmp, bsearch, strcpy, memmove in both directions; vsnprintf
      writes the text of its format, cut to the buffer; scanf reads back what printf wrote;
      gmtime and mktime are inverse and follow the Gregorian calendar; the heap of programs
      over the kernel's page tables implements disjoint objects that keep their bytes.
    - Compiler: the lexer stays inside its buffers, the parser ends on every source and reads
      back every printed program; back patching gives the code with computed targets; the
      code of a program of the core language computes on the processor what the program
      means, and the kernel's loader puts the file written into memory so that it runs.

    The witnesses at the end of each file apply the theorems to concrete states (a heap of
    4 KiB, two machines on a wire, a formatted disk of 64 blocks, a process with an empty
    heap, a compiled program), and the examples beside them run the code on inputs the
    hypotheses exclude, where it does not do what it should.

    ** Fuel

    List walks in the heap, the process table and the file system take the number of
    elements of the store they walk, which bounds an acyclic list; the list of the user
    heap has at most one block for each header's size between its first block and the
    break.  Path resolution takes the length of the path, symbolic links at most 8; the
    loops of UFS take the number of blocks touched plus two, those of devfs the sectors plus
    three; [fold16] takes the three rounds after which a 32-bit sum has no carry.  The lexer
    takes the length of the source, the parser the characters left plus one; in the
    semantics of programs the fuel bounds the depth, for which the theorem asks 32 bytes
    of stack per level.  The formatter takes the length of the format, the digits of a
    64-bit number are at most 64, the scanner takes the characters left plus two; the years
    of a time are at most its days divided by 365, plus one, and the months 13.  The
    theorems about these functions prove that the result is [Some].  Where the code itself
    may run for ever (a chain of extended boot records, system calls that wait, the tags of
    the boot information) the fuel is an argument.

    ** Not modelled

    Drivers for network cards, graphics, mouse, USB and PCI, the start-up of the AHCI
    controller, the descriptor tables and the consoles: registers and port I/O, whose
    effects are behind the interfaces above.  ACPI, panic and the module loader, which
    links objects into the running kernel.  procfs, which prints the tables of the other
    components; FAT and ext4, read-only formats behind the node operations of Vfs.  The HTTP
    client, a loop over the calls of Tcp.  Of the C library: strtod and atof, the FILE
    functions and the system call stubs, which pass their arguments on, and inflate, which
    reads outside of its tables on every block with codes.  The options and the reading of
    the source in the compiler's main.c; the shell commands of udisk.c.  The shell, editor,
    package manager and other user programs, and the tools of the build host. *)

From Stdlib Require Export ZArith Lia Permutation.
From stdpp Require Export base numbers list gmap.

#[export] Set Default Goal Selector "!".
Global Open Scope Z_scope.

(** ** Machine integers

    A [w]-bit unsigned integer is a [Z] in [0, 2^w); the conversions below are
    C's: reduction modulo [2^w], and for the signed types the two's complement
    representative. *)

Definition u8 (x : Z) : Z := x mod 2 ^ 8.
Definition u16 (x : Z) : Z := x mod 2 ^ 16.
Definition u32 (x : Z) : Z := x mod 2 ^ 32.
Definition u64 (x : Z) : Z := x mod 2 ^ 64.
Definition i32 (x : Z) : Z := (x + 2 ^ 31) mod 2 ^ 32 - 2 ^ 31.
Definition i64 (x : Z) : Z := (x + 2 ^ 63) mod 2 ^ 64 - 2 ^ 63.

(** C's truth value of an integer and the integer of a comparison. *)
Definition nz (x : Z) : bool := negb (x =? 0).
Definition b2z (b : bool) : Z := if b then 1 else 0.

Create HintDb machine.

Lemma u8_range x : 0 <= u8 x < 256.
Proof. unfold u8. apply Z.mod_pos_bound. lia. Qed.
Lemma u16_range x : 0 <= u16 x < 2 ^ 16.
Proof. unfold u16. apply Z.mod_pos_bound. lia. Qed.
Lemma u32_range x : 0 <= u32 x < 2 ^ 32.
Proof. unfold u32. apply Z.mod_pos_bound. lia. Qed.
Lemma u64_range x : 0 <= u64 x < 2 ^ 64.
Proof. unfold u64. apply Z.mod_pos_bound. lia. Qed.
#[export] Hint Resolve u8_range u16_range u32_range u64_range : machine.

Lemma u8_small x : 0 <= x < 256 -> u8 x = x.
Proof. intros. unfold u8. apply Z.mod_small. lia. Qed.
Lemma u16_small x : 0 <= x < 2 ^ 16 -> u16 x = x.
Proof. intros. unfold u16. apply Z.mod_small. lia. Qed.
Lemma u32_small x : 0 <= x < 2 ^ 32 -> u32 x = x.
Proof. intros. unfold u32. apply Z.mod_small. lia. Qed.
Lemma u64_small x : 0 <= x < 2 ^ 64 -> u64 x = x.
Proof. intros. unfold u64. apply Z.mod_small. lia. Qed.
Lemma i32_small x : - 2 ^ 31 <= x < 2 ^ 31 -> i32 x = x.
Proof. intros. unfold i32. rewrite Z.mod_small; lia. Qed.

Lemma i64_small x : - 2 ^ 63 <= x < 2 ^ 63 -> i64 x = x.
Proof. intros. unfold i64. rewrite Z.mod_small; lia. Qed.

Lemma nz_true x : nz x = true <-> x <> 0.
Proof. unfold nz. destruct (Z.eqb_spec x 0); simpl; intuition congruence. Qed.
Lemma nz_false x : nz x = false <-> x = 0.
Proof. unfold nz. destruct (Z.eqb_spec x 0); simpl; intuition congruence. Qed.

(** ** Tactics shared by the components *)

(** Turn the boolean comparisons of the hypotheses and the goal into
    propositions that [lia] reads. *)
Ltac zbool :=
  repeat match goal with
  | H : (_ && _) = true |- _ => apply andb_true_iff in H; destruct H
  | H : (_ || _) = false |- _ => apply orb_false_iff in H; destruct H
  | H : negb _ = true |- _ => apply negb_true_iff in H
  | H : negb _ = false |- _ => apply negb_false_iff in H
  | H : nz _ = true |- _ => apply nz_true in H
  | H : nz _ = false |- _ => apply nz_false in H
  | H : (_ =? _) = true |- _ => apply Z.eqb_eq in H
  | H : (_ =? _) = false |- _ => apply Z.eqb_neq in H
  | H : (_ <? _) = true |- _ => apply Z.ltb_lt in H
  | H : (_ <? _) = false |- _ => apply Z.ltb_ge in H
  | H : (_ <=? _) = true |- _ => apply Z.leb_le in H
  | H : (_ <=? _) = false |- _ => apply Z.leb_gt in H
  end.

(** Case on the innermost [if] or [match] of the goal, keeping the equation. *)
Ltac case_step :=
  match goal with
  | |- context [if ?b then _ else _] =>
      lazymatch b with
      | context [if _ then _ else _] => fail
      | context [match _ with _ => _ end] => fail
      | _ => destruct b eqn:?
      end
  | |- context [match ?x with _ => _ end] =>
      lazymatch x with
      | context [match _ with _ => _ end] => fail
      | _ => destruct x eqn:?
      end
  end.

Ltac case_step_in H :=
  match type of H with
  | context [if ?b then _ else _] =>
      lazymatch b with
      | context [if _ then _ else _] => fail
      | context [match _ with _ => _ end] => fail
      | _ => destruct b eqn:?
      end
  | context [match ?x with _ => _ end] =>
      lazymatch x with
      | context [match _ with _ => _ end] => fail
      | _ => destruct x eqn:?
      end
  end.

(** [lia] with division and remainder turned into equations. *)
Ltac dlia := Z.to_euclidean_division_equations; lia.

(** ** Masks

    [x & ~(2^k - 1)] on a 64-bit value is rounding down to a multiple of [2^k];
    [ALIGN_UP] is rounding up, with the wrap-around of the 64-bit addition. *)

Lemma land_lnot_ones x k :
  0 <= k -> Z.land x (Z.lnot (Z.ones k)) = x - x mod 2 ^ k.
Proof.
  intros Hk.
  assert (Hx : Z.land x (Z.lnot (Z.ones k)) = Z.ldiff x (Z.ones k)) by (apply Z.bits_inj'; intros n Hn;
    rewrite Z.land_spec, Z.ldiff_spec, Z.lnot_spec; auto).
  rewrite Hx, Z.ldiff_ones_r by lia.
  rewrite Z.shiftl_mul_pow2, Z.shiftr_div_pow2 by lia.
  pose proof (Z.div_mod x (2 ^ k) ltac:(apply Z.pow_nonzero; lia)). lia.
Qed.

Lemma land_u64 x m : 0 <= x < 2 ^ 64 -> Z.land x (u64 m) = Z.land x m.
Proof.
  intros Hx. unfold u64. rewrite <- Z.land_ones by lia.
  rewrite (Z.land_comm m), Z.land_assoc, (Z.land_ones x) by lia.
  rewrite (Z.mod_small x) by lia. done.
Qed.

(** The mask [~(2^k - 1)] as a 64-bit constant. *)
Definition mask64 (k : Z) : Z := u64 (Z.lnot (Z.ones k)).

Lemma land_mask64 x k :
  0 <= k -> 0 <= x < 2 ^ 64 -> Z.land x (mask64 k) = x - x mod 2 ^ k.
Proof.
  intros. unfold mask64. rewrite land_u64 by lia. apply land_lnot_ones. lia.
Qed.

(** ** Pairwise relations on lists *)

Section pairwise.
Context {A : Type} (R : A -> A -> Prop).

Fixpoint pairwise (l : list A) : Prop :=
  match l with
  | [] => True
  | x :: l => Forall (R x) l /\ pairwise l
  end.

Lemma pairwise_app l1 l2 :
  pairwise (l1 ++ l2) <->
  pairwise l1 /\ pairwise l2 /\ Forall (fun x => Forall (R x) l2) l1.
Proof.
  induction l1 as [|x l1 IH]; simpl.
  - intuition.
  - rewrite Forall_app, IH, Forall_cons. tauto.
Qed.

Lemma pairwise_perm (Hsym : forall x y, R x y -> R y x) l1 l2 :
  Permutation l1 l2 -> pairwise l1 -> pairwise l2.
Proof.
  intros H.
  induction H as [|x l1 l2 H IH|x y l|l1 l2 l3 _ IH1 _ IH2]; simpl; auto.
  - intros [? ?]. split; [by rewrite <- H|auto].
  - rewrite !Forall_cons. intros [[? ?] [? ?]]. auto.
Qed.

Lemma pairwise_lookup l i j x y :
  pairwise l -> (i < j)%nat -> l !! i = Some x -> l !! j = Some y -> R x y.
Proof.
  revert i j. induction l as [|z l IH]; intros i j Hl Hij Hi Hj;
    [done|destruct Hl as [Hz Hl]; destruct i as [|i], j as [|j]; simplify_eq/=; try lia].
  - rewrite Forall_forall in Hz. apply Hz. by eapply list_elem_of_lookup_2.
  - apply (IH i j); auto; lia.
Qed.
End pairwise.

(** Sum of an integer measure over a list. *)
Definition zsum {A} (f : A -> Z) (l : list A) : Z := foldr (fun x n => f x + n) 0 l.

Lemma zsum_app {A} (f : A -> Z) l1 l2 : zsum f (l1 ++ l2) = zsum f l1 + zsum f l2.
Proof. induction l1; simpl in *; lia. Qed.

Lemma zsum_perm {A} (f : A -> Z) l1 l2 : Permutation l1 l2 -> zsum f l1 = zsum f l2.
Proof. induction 1; simpl in *; lia. Qed.

Lemma zsum_nonneg {A} (f : A -> Z) l : Forall (fun x => 0 <= f x) l -> 0 <= zsum f l.
Proof. induction 1; simpl in *; lia. Qed.

#[export] Instance zsum_proper {A} (f : A -> Z) : Proper (Permutation ==> eq) (zsum f).
Proof. intros l1 l2 H. by apply zsum_perm. Qed.

Lemma filter_ext_elem {A} (P Q : A -> Prop) `{!forall x, Decision (P x), !forall x, Decision (Q x)} (l : list A) :
  (forall x, x ∈ l -> P x <-> Q x) -> filter P l = filter Q l.
Proof.
  induction l as [|x l IH]; intros Heq; [done|]. rewrite !filter_cons.
  destruct (Heq x ltac:(by left)) as [H1 H2]. rewrite IH by (intros y Hy; apply Heq; by right).
  destruct (decide (P x)), (decide (Q x)); tauto.
Qed.

Lemma filter_all {A} (P : A -> Prop) `{!forall x, Decision (P x)} (l : list A) :
  (forall x, x ∈ l -> P x) -> filter P l = l.
Proof.
  induction l as [|x l IH]; intros Hall; [done|]. rewrite filter_cons_True by (apply Hall; by left).
  f_equal. apply IH. intros y Hy. apply Hall. by right.
Qed.
