(* ===== verification/KMalloc.v ===== *)
(** * The kernel heap: [kmalloc]/[kfree] of kernel/core/memory.c

    The heap is a singly linked free list threaded through block headers that
    sit in front of the memory they describe.  The model keeps the headers in a
    store indexed by address ([hdrs]), the pointers as addresses (0 is [NULL])
    and the statics of the file as the other fields of [heap].  A dereference of
    an address that holds no header is [None], as is a loop that runs out of
    fuel; the theorems show that neither happens on a well-formed heap.

    [mem_lock]/[mem_unlock] disable interrupts around the list operations, so
    each operation is one atomic step of the model. *)

From S2P Require Import Prelude.

(** ** Data *)

Record block_header := BlockHeader { bh_size : Z; bh_next : Z; bh_free : Z }.

(** [sizeof(block_header_t)]: two 64-bit words and a byte, padded to 8. *)
Definition sizeof_block_header : Z := 24.

Record heap := Heap {
  hdrs : gmap Z block_header;   (* the headers in memory, by address *)
  cells : gmap Z Z;             (* pointer cells written by kmalloc_aligned *)
  free_list : Z;
  initialized : bool;
  total_memory : Z;
  used_memory : Z }.

Definition heap0 : heap := Heap ∅ ∅ 0 false 0 0.

Definition set_hdr (a : Z) (h : block_header) (s : heap) : heap :=
  Heap (<[a := h]> (hdrs s)) (cells s) (free_list s) (initialized s) (total_memory s) (used_memory s).
Definition set_free_list (p : Z) (s : heap) : heap :=
  Heap (hdrs s) (cells s) p (initialized s) (total_memory s) (used_memory s).
Definition set_used (u : Z) (s : heap) : heap :=
  Heap (hdrs s) (cells s) (free_list s) (initialized s) (total_memory s) u.
Definition set_total (t : Z) (s : heap) : heap :=
  Heap (hdrs s) (cells s) (free_list s) (initialized s) t (used_memory s).
Definition set_initialized (s : heap) : heap :=
  Heap (hdrs s) (cells s) (free_list s) true (total_memory s) (used_memory s).
Definition set_cell (a v : Z) (s : heap) : heap :=
  Heap (hdrs s) (<[a := v]> (cells s)) (free_list s) (initialized s) (total_memory s) (used_memory s).

(** [ALIGN_UP(x, align)] for a power of two [2^k], on [u64]. *)
Definition ALIGN_UP (x k : Z) : Z := Z.land (u64 (x + 2 ^ k - 1)) (mask64 k).

(** Store through [pp], which is [&free_list] ([prev] = 0) or [&prev->next]. *)
Definition set_link (prev v : Z) (s : heap) : option heap :=
  if prev =? 0 then Some (set_free_list v s)
  else h ← hdrs s !! prev; Some (set_hdr prev (BlockHeader (bh_size h) v (bh_free h)) s).

(** ** Initialisation *)

Definition add_free_block (base size : Z) (s : heap) : heap :=
  if size <? sizeof_block_header + 16 then s else
  let aligned_base := ALIGN_UP base 3 in
  let adjusted_size := u64 (size - u64 (aligned_base - base)) in
  if adjusted_size <? sizeof_block_header + 16 then s else
  set_free_list aligned_base
    (set_hdr aligned_base
       (BlockHeader (adjusted_size - sizeof_block_header) (free_list s) 1) s).

(** The merging loop at the end of [memory_init] and [memory_add_region]. *)
Fixpoint coalesce (fuel : nat) (curr : Z) (s : heap) : option heap :=
  match fuel with
  | O => None
  | S fuel =>
      if curr =? 0 then Some s else
      h ← hdrs s !! curr;
      if bh_next h =? 0 then Some s else
      if u64 (curr + sizeof_block_header + bh_size h) =? bh_next h then
        n ← hdrs s !! bh_next h;
        coalesce fuel curr
          (set_hdr curr (BlockHeader (u64 (bh_size h + sizeof_block_header + bh_size n))
                                     (bh_next n) (bh_free h)) s)
      else coalesce fuel (bh_next h) s
  end.

Definition heap_fuel (s : heap) : nat := S (S (size (hdrs s))).

Definition memory_init (mem_start mem_size : Z) (s : heap) : option heap :=
  if initialized s then Some s else
  let s := set_used 0 (set_total 0 (set_free_list 0 s)) in
  let s := if 0 <? mem_size then
             let s := add_free_block mem_start mem_size s in
             set_total (u64 (total_memory s + mem_size)) s
           else s in
  s ← coalesce (heap_fuel s) (free_list s) s;
  Some (set_initialized s).

Definition memory_add_region (base size : Z) (s : heap) : option heap :=
  if negb (initialized s) || (size =? 0) then Some s else
  let s := add_free_block base size s in
  let s := set_total (u64 (total_memory s + size)) s in
  coalesce (heap_fuel s) (free_list s) s.

(** ** Allocation *)

Fixpoint kmalloc_loop (fuel : nat) (size prev curr : Z) (s : heap) : option (Z * heap) :=
  match fuel with
  | O => None
  | S fuel =>
      if curr =? 0 then Some (0, s) else
      h ← hdrs s !! curr;
      if nz (bh_free h) && (size <=? bh_size h) then
        let remaining := u64 (bh_size h - size) in
        let '(h, s) :=
          if sizeof_block_header + 16 <=? remaining then
            let new_block := u64 (curr + sizeof_block_header + size) in
            let h' := BlockHeader size new_block (bh_free h) in
            (h', set_hdr curr h'
                   (set_hdr new_block
                      (BlockHeader (remaining - sizeof_block_header) (bh_next h) 1) s))
          else (h, s) in
        s ← set_link prev (bh_next h) s;
        let s := set_hdr curr (BlockHeader (bh_size h) 0 0) s in
        let s := set_used (u64 (used_memory s + bh_size h + sizeof_block_header)) s in
        Some (u64 (curr + sizeof_block_header), s)
      else kmalloc_loop fuel size curr (bh_next h) s
  end.

Definition kmalloc (size : Z) (s : heap) : option (Z * heap) :=
  if negb (initialized s) || (size =? 0) then Some (0, s) else
  kmalloc_loop (heap_fuel s) (ALIGN_UP size 3) 0 (free_list s) s.

(** ** Release *)

(** [while ( *pp && ( *pp) < block) pp = &( *pp)->next]: the link that will hold
    the block, as the header that owns it, and the block's successor. *)
Fixpoint kfree_find (fuel : nat) (block prev cur : Z) (s : heap) : option (Z * Z) :=
  match fuel with
  | O => None
  | S fuel =>
      if negb (cur =? 0) && (cur <? block) then
        h ← hdrs s !! cur; kfree_find fuel block cur (bh_next h) s
      else Some (prev, cur)
  end.

(** [while (curr && curr != block) { prev = curr; curr = curr->next; }] *)
Fixpoint kfree_prev (fuel : nat) (block prev curr : Z) (s : heap) : option Z :=
  match fuel with
  | O => None
  | S fuel =>
      if negb (curr =? 0) && negb (curr =? block) then
        h ← hdrs s !! curr; kfree_prev fuel block curr (bh_next h) s
      else Some prev
  end.

Definition kfree (ptr : Z) (s : heap) : option heap :=
  if negb (initialized s) || (ptr =? 0) then Some s else
  let block := u64 (ptr - sizeof_block_header) in
  h ← hdrs s !! block;
  if nz (bh_free h) then Some s else
  let s := set_hdr block (BlockHeader (bh_size h) (bh_next h) 1) s in
  let s := set_used (u64 (used_memory s - (bh_size h + sizeof_block_header))) s in
  '(pp, nxt) ← kfree_find (heap_fuel s) block 0 (free_list s) s;
  let s := set_hdr block (BlockHeader (bh_size h) nxt 1) s in
  s ← set_link pp block s;
  s ← (if nz nxt && (u64 (block + sizeof_block_header + bh_size h) =? nxt) then
         n ← hdrs s !! nxt;
         Some (set_hdr block (BlockHeader (u64 (bh_size h + sizeof_block_header + bh_size n))
                                          (bh_next n) 1) s)
       else Some s);
  prev ← kfree_prev (heap_fuel s) block 0 (free_list s) s;
  if prev =? 0 then Some s else
  p ← hdrs s !! prev;
  if u64 (prev + sizeof_block_header + bh_size p) =? block then
    b ← hdrs s !! block;
    Some (set_hdr prev (BlockHeader (u64 (bh_size p + sizeof_block_header + bh_size b))
                                    (bh_next b) (bh_free p)) s)
  else Some s.

Definition memory_used (s : heap) : Z := used_memory s.
Definition memory_free (s : heap) : Z := u64 (total_memory s - used_memory s).

(** ** Aligned allocation

    [~(alignment - 1)] is computed on the 32-bit [alignment] and then
    zero-extended, so the mask clears the upper half of the address too. *)

Definition kmalloc_aligned (size alignment : Z) (s : heap) : option (Z * heap) :=
  let alignment := if alignment <? 8 then 8 else alignment in
  let total_size := u64 (size + alignment + 8) in
  '(ptr, s) ← kmalloc total_size s;
  if ptr =? 0 then Some (0, s) else
  let aligned_ptr := Z.land (u64 (ptr + alignment + 8)) (u32 (Z.lnot (alignment - 1))) in
  Some (aligned_ptr, set_cell (u64 (aligned_ptr - 8)) ptr s).

Definition kfree_aligned (ptr : Z) (s : heap) : option heap :=
  if ptr =? 0 then Some s else
  p ← cells s !! u64 (ptr - 8);
  kfree p s.

(** * Specification: a list of free blocks and a list of allocated blocks *)

(** A block is the address of its header and the size of its payload. *)
Abbreviation blk := (Z * Z)%type.

Definition span (b : blk) : Z := sizeof_block_header + b.2.
Definition bend (b : blk) : Z := b.1 + span b.
Definition sep (b1 b2 : blk) : Prop := bend b1 <= b2.1 \/ bend b2 <= b1.1.
Definition wf_blk (b : blk) : Prop := 0 < b.1 /\ b.1 mod 8 = 0 /\ 0 <= b.2 /\ bend b < 2 ^ 64.

(** First fit, splitting the block when the rest can hold a header and 16 bytes. *)
Definition carve (n : Z) (b : blk) (l : list blk) : blk * list blk :=
  if sizeof_block_header + 16 <=? b.2 - n
  then ((b.1, n), (b.1 + sizeof_block_header + n, b.2 - n - sizeof_block_header) :: l)
  else (b, l).

Fixpoint first_fit (n : Z) (fl : list blk) : option (blk * list blk) :=
  match fl with
  | [] => None
  | b :: l =>
      if n <=? b.2 then Some (carve n b l)
      else '(x, l') ← first_fit n l; Some (x, b :: l')
  end.

(** Sorted insertion followed by merging with the successor, then with the
    predecessor. *)
Definition merge_next (b : blk) (post : list blk) : list blk :=
  match post with
  | c :: post' => if bend b =? c.1 then (b.1, b.2 + span c) :: post' else b :: post
  | [] => [b]
  end.

(** The prefix of the list that lies below the address [a], and the rest. *)
Fixpoint break_at (a : Z) (fl : list blk) : list blk * list blk :=
  match fl with
  | [] => ([], [])
  | q :: l => if q.1 <? a then let '(pre, post) := break_at a l in (q :: pre, post)
              else ([], fl)
  end.

Definition merge_prev (pre : list blk) (l : list blk) : list blk :=
  match last pre, l with
  | Some q, b :: l' =>
      if bend q =? b.1 then removelast pre ++ (q.1, q.2 + span b) :: l' else pre ++ l
  | _, _ => pre ++ l
  end.

Definition insert_free (b : blk) (fl : list blk) : list blk :=
  let '(pre, post) := break_at b.1 fl in merge_prev pre (merge_next b post).

(** The linked list from [p] to [q] through the blocks [l]. *)
Fixpoint chain (H : gmap Z block_header) (p : Z) (l : list blk) (q : Z) : Prop :=
  match l with
  | [] => p = q
  | b :: l => p = b.1 /\ exists n, H !! b.1 = Some (BlockHeader b.2 n 1) /\ chain H n l q
  end.

Definition allocated (H : gmap Z block_header) (b : blk) : Prop :=
  exists n, H !! b.1 = Some (BlockHeader b.2 n 0).

(** The invariant: the free list is a chain through the headers of [fl], the
    allocated blocks [al] have headers marked busy, all the blocks are aligned,
    do not wrap around and do not overlap, and the byte counts add up to the
    memory the heap was given. *)
Record heap_inv (s : heap) (fl al : list blk) (managed : Z) : Prop := {
  inv_init : initialized s = true;
  inv_chain : chain (hdrs s) (free_list s) fl 0;
  inv_alloc : Forall (allocated (hdrs s)) al;
  inv_wf : Forall wf_blk (fl ++ al);
  inv_sep : pairwise sep (fl ++ al);
  inv_used : used_memory s = zsum span al;
  inv_conserve : zsum span fl + zsum span al = managed;
  inv_managed : managed <= total_memory s;
  inv_total : total_memory s < 2 ^ 64 }.

(** ** Lemmas on blocks *)

Lemma sep_sym b1 b2 : sep b1 b2 -> sep b2 b1.
Proof. unfold sep. tauto. Qed.

#[export] Instance pairwise_sep_proper : Proper (Permutation ==> iff) (pairwise sep).
Proof. intros l1 l2 H. split; apply pairwise_perm; auto using sep_sym, Permutation_sym. Qed.

Lemma sep_ne b1 b2 : wf_blk b1 -> wf_blk b2 -> sep b1 b2 -> b1.1 <> b2.1.
Proof. unfold wf_blk, sep, bend, span, sizeof_block_header. lia. Qed.

Lemma sep_notin b l : wf_blk b -> Forall wf_blk l -> Forall (sep b) l -> b.1 ∉ l.*1.
Proof.
  intros Hb Hl Hs Hin. apply list_elem_of_fmap in Hin as (c & Hc & Hin).
  rewrite Forall_forall in Hl, Hs. apply (sep_ne b c); auto.
Qed.

Lemma sep_NoDup l : Forall wf_blk l -> pairwise sep l -> NoDup l.*1.
Proof.
  induction l as [|b l IH]; simpl; [constructor|].
  rewrite Forall_cons. intros [Hb Hl] [Hs Hp]. constructor; auto using sep_notin.
Qed.

(** Replacing a block by two halves, and the converse. *)
Lemma sep_split b1 b2 b c :
  b1.1 = b.1 -> bend b1 = b2.1 -> bend b2 = bend b -> 0 <= span b1 -> 0 <= span b2 ->
  sep b c -> sep b1 c /\ sep b2 c.
Proof. unfold sep, bend, span. lia. Qed.

Lemma sep_join b1 b2 b c :
  b1.1 = b.1 -> bend b1 = b2.1 -> bend b2 = bend b -> 0 < span c ->
  sep b1 c -> sep b2 c -> sep b c.
Proof. unfold sep, bend, span. lia. Qed.

(** ** Lemmas on chains *)

Lemma chain_app H p l1 l2 q :
  chain H p (l1 ++ l2) q <-> exists m, chain H p l1 m /\ chain H m l2 q.
Proof.
  revert p. induction l1 as [|b l1 IH]; intros p; simpl.
  - naive_solver.
  - setoid_rewrite IH. naive_solver.
Qed.

Lemma chain_frame H a h p l q :
  a ∉ l.*1 -> chain H p l q -> chain (<[a := h]> H) p l q.
Proof.
  revert p. induction l as [|b l IH]; intros p Ha; simpl; [done|].
  rewrite fmap_cons, not_elem_of_cons in Ha. destruct Ha as [Hab Ha].
  intros (-> & n & Hb & Hc). split; [done|]. exists n. rewrite lookup_insert_ne by done. auto.
Qed.

Lemma allocated_frame H a h al :
  a ∉ al.*1 -> Forall (allocated H) al -> Forall (allocated (<[a := h]> H)) al.
Proof.
  intros Ha Hal. rewrite Forall_forall in *. intros b Hb.
  destruct (Hal b Hb) as [n Hn]. exists n. rewrite lookup_insert_ne; [done|].
  intros ->. apply Ha, list_elem_of_fmap_2. done.
Qed.

Lemma chain_head H p b l q : chain H p (b :: l) q -> p = b.1.
Proof. by intros [? _]. Qed.

(** The chain's blocks are headers of the store, so its length is bounded by the
    number of headers: the fuel of the loops is enough. *)
Lemma chain_dom H p l q : chain H p l q -> forall a, a ∈ l.*1 -> a ∈ dom H.
Proof.
  revert p. induction l as [|b l IH]; intros p; simpl; [set_solver|].
  intros (-> & n & Hb & Hc) a Ha. apply elem_of_cons in Ha as [->|Ha]; eauto.
  apply elem_of_dom. eauto.
Qed.

Lemma chain_length H p l q : NoDup l.*1 -> chain H p l q -> (length l <= size H)%nat.
Proof.
  intros Hnd Hc. pose proof (chain_dom _ _ _ _ Hc) as Hd.
  rewrite <- (length_fmap fst l), <- size_dom, <- (size_list_to_set (C := gset Z)) by done.
  apply subseteq_size. intros a. rewrite elem_of_list_to_set. auto.
Qed.

(** Writing through the link that follows a chain segment. *)
Definition last_addr (l : list blk) : Z := default 0 (fst <$> last l).

Lemma last_addr_snoc l b : last_addr (l ++ [b]) = b.1.
Proof. unfold last_addr. by rewrite last_snoc. Qed.

Lemma last_addr_nonzero l b : Forall wf_blk (l ++ [b]) -> last_addr (l ++ [b]) <> 0.
Proof.
  rewrite last_addr_snoc, Forall_app, Forall_singleton. unfold wf_blk. lia.
Qed.

(** After [set_link] at the end of the segment [pre], the segment leads to [v]
    and nothing else has changed but the last header of [pre]. *)
Lemma set_link_spec s pre q v :
  Forall wf_blk pre -> NoDup pre.*1 -> chain (hdrs s) (free_list s) pre q ->
  exists s', set_link (last_addr pre) v s = Some s' /\
    chain (hdrs s') (free_list s') pre v /\
    (forall a, a ∉ pre.*1 -> hdrs s' !! a = hdrs s !! a) /\
    dom (hdrs s') = dom (hdrs s) /\
    cells s' = cells s /\
    initialized s' = initialized s /\ total_memory s' = total_memory s /\
    used_memory s' = used_memory s.
Proof.
  intros Hwf Hnd Hc. destruct pre as [|b pre _] using rev_ind.
  - exists (set_free_list v s). unfold set_link, last_addr. simpl. auto 10.
  - rewrite Forall_app, Forall_singleton in Hwf. destruct Hwf as [Hwf Hb].
    rewrite fmap_app in Hnd. apply NoDup_app in Hnd as (Hnd & Hdis & _).
    apply chain_app in Hc as (m & Hpre & -> & n & Hn & ->).
    unfold set_link. rewrite last_addr_snoc.
    rewrite (proj2 (Z.eqb_neq b.1 0)) by (unfold wf_blk in Hb; lia).
    rewrite Hn. simpl. eexists. split; [done|]. simpl.
    split; [|split].
    + apply chain_app. exists b.1. split.
      * apply chain_frame; [|done]. intros Hin. apply (Hdis _ Hin). simpl. set_solver.
      * simpl. split; [done|]. exists v. by rewrite lookup_insert_eq.
    + intros a Ha. rewrite lookup_insert_ne; [done|]. set_solver.
    + rewrite dom_insert_L. split; [|auto].
      assert (b.1 ∈ dom (hdrs s)) by (apply elem_of_dom; eauto). set_solver.
Qed.

Lemma chain_ext H H' p l q :
  (forall a, a ∈ l.*1 -> H' !! a = H !! a) -> chain H p l q -> chain H' p l q.
Proof.
  revert p. induction l as [|b l IH]; intros p He; simpl; [done|].
  intros (-> & n & Hb & Hc). split; [done|]. exists n. rewrite He by set_solver.
  split; [done|]. apply IH; [|done]. intros a Ha. apply He. set_solver.
Qed.

Lemma allocated_ext H H' al :
  (forall a, a ∈ al.*1 -> H' !! a = H !! a) ->
  Forall (allocated H) al -> Forall (allocated H') al.
Proof.
  intros He Hal. rewrite Forall_forall in *. intros b Hb. destruct (Hal b Hb) as [n Hn].
  exists n. rewrite He; [done|]. by apply list_elem_of_fmap_2.
Qed.

(** Singling out one block of a well-formed collection. *)
Lemma focus_block b l l' :
  Permutation l (b :: l') -> Forall wf_blk l -> pairwise sep l ->
  wf_blk b /\ Forall wf_blk l' /\ Forall (sep b) l' /\ pairwise sep l'.
Proof.
  intros Hp Hwf Hs. rewrite Hp in Hwf. rewrite Hp in Hs.
  apply Forall_cons in Hwf as [? ?]. destruct Hs. auto.
Qed.

Lemma sub_sep c b l :
  b.1 <= c.1 -> bend c <= bend b -> Forall (sep b) l -> Forall (sep c) l.
Proof. intros ? ? H. eapply Forall_impl; [exact H|]. unfold sep. intros. lia. Qed.

Lemma sub_notin c b l :
  wf_blk c -> b.1 <= c.1 -> bend c <= bend b -> Forall wf_blk l -> Forall (sep b) l ->
  c.1 ∉ l.*1.
Proof. intros. apply sep_notin; auto. eapply sub_sep; eauto. Qed.

Lemma ALIGN_UP_spec x k :
  0 <= k <= 63 -> 0 <= x -> x + 2 ^ k - 1 < 2 ^ 64 ->
  x <= ALIGN_UP x k < x + 2 ^ k /\ ALIGN_UP x k mod 2 ^ k = 0.
Proof.
  intros Hk Hx Hn. unfold ALIGN_UP.
  assert (0 < 2 ^ k) by (apply Z.pow_pos_nonneg; lia).
  rewrite u64_small by lia. rewrite land_mask64 by lia.
  pose proof (Z.mod_pos_bound (x + 2 ^ k - 1) (2 ^ k) ltac:(lia)).
  split; [lia|]. rewrite Zminus_mod, Zmod_mod, Z.sub_diag. apply Z.mod_0_l. lia.
Qed.

Lemma ALIGN_UP_range x k : 0 <= k -> 0 <= ALIGN_UP x k < 2 ^ 64.
Proof.
  intros. unfold ALIGN_UP. pose proof (u64_range (x + 2 ^ k - 1)).
  rewrite land_mask64 by lia.
  pose proof (Z.mod_pos_bound (u64 (x + 2 ^ k - 1)) (2 ^ k) ltac:(apply Z.pow_pos_nonneg; lia)).
  pose proof (Z.mod_le (u64 (x + 2 ^ k - 1)) (2 ^ k) ltac:(lia) ltac:(apply Z.pow_pos_nonneg; lia)).
  lia.
Qed.

Lemma ALIGN_UP_mult x k : 0 <= k -> ALIGN_UP x k mod 2 ^ k = 0.
Proof.
  intros. unfold ALIGN_UP. rewrite land_mask64 by (try apply u64_range; lia).
  assert (2 ^ k <> 0) by (apply Z.pow_nonzero; lia).
  rewrite Zminus_mod, Zmod_mod, Z.sub_diag. by apply Z.mod_0_l.
Qed.

Ltac blk_lia := unfold wf_blk, sep, bend, span, sizeof_block_header in *; simpl in *; dlia.

(** ** [kmalloc] implements first fit *)

(** What [carve] preserves: well-formedness, separation and the byte count. *)
Lemma carve_inv n b l al :
  0 <= n -> n mod 8 = 0 -> n <= b.2 -> Forall wf_blk (b :: l ++ al) -> pairwise sep (b :: l ++ al) ->
  let '(x, l') := carve n b l in
  Forall wf_blk (x :: l' ++ al) /\ pairwise sep (x :: l' ++ al) /\
  zsum span (x :: l') = zsum span (b :: l) /\ x.1 = b.1 /\ n <= x.2.
Proof.
  intros Hn H8 Hle Hwf Hs. unfold carve. destruct (_ <=? _) eqn:E; zbool; [|auto].
  apply Forall_cons in Hwf as [Hb Hwf]. destruct Hs as [Hs1 Hs2].
  set (x := (b.1, n)). set (y := (_, b.2 - n - _)).
  assert (wf_blk x) by (subst x; blk_lia). assert (wf_blk y) by (subst y; blk_lia).
  split; [simpl; rewrite !Forall_cons; auto|]. split; [|subst x y; simpl; split; [blk_lia|split; [done|lia]]].
  simpl. rewrite Forall_cons. repeat split; auto.
  - subst x y. blk_lia.
  - eapply sub_sep; [| |exact Hs1]; subst x; blk_lia.
  - eapply sub_sep; [| |exact Hs1]; subst y; blk_lia.
Qed.

(** Unlinking the block [b] after the segment [pre]: the chain continues with
    [rest'], whose headers are those of [s1], and every header outside [pre] and
    [b] is the one of [s1]. *)
Lemma unlink_spec s1 pre b q rest' al hb :
  Forall wf_blk (b :: pre ++ rest' ++ al) -> pairwise sep (b :: pre ++ rest' ++ al) ->
  chain (hdrs s1) (free_list s1) pre b.1 -> chain (hdrs s1) q rest' 0 ->
  Forall (allocated (hdrs s1)) al ->
  exists s2, set_link (last_addr pre) q s1 = Some s2 /\
    initialized s2 = initialized s1 /\ total_memory s2 = total_memory s1 /\
    used_memory s2 = used_memory s1 /\
    let s3 := set_hdr b.1 hb s2 in
    chain (hdrs s3) (free_list s3) (pre ++ rest') 0 /\ Forall (allocated (hdrs s3)) al.
Proof.
  intros Hwf Hs Hpre Hrest Hal.
  pose proof (sep_NoDup _ Hwf Hs) as Hnd. simpl in Hnd. rewrite !fmap_app in Hnd.
  apply NoDup_cons in Hnd as [Hb Hnd]. apply NoDup_app in Hnd as (Hndp & Hdis & Hnd).
  apply NoDup_app in Hnd as (_ & Hdis2 & _).
  apply Forall_cons in Hwf as [Hwb Hwf]. apply Forall_app in Hwf as [Hwp _].
  destruct (set_link_spec s1 pre b.1 q Hwp Hndp Hpre) as (s2 & -> & Hc & He & _ & _ & Hi & Ht & Hu).
  exists s2. simpl. split_and!; auto.
  - apply chain_app. exists q. split.
    + apply chain_frame; [set_solver|done].
    + apply chain_frame; [set_solver|]. eapply chain_ext; [|done].
      intros a Ha. apply He. set_solver.
  - apply allocated_frame; [set_solver|]. eapply allocated_ext; [|done].
    intros a Ha. apply He. set_solver.
Qed.

Lemma perm_focus (b : blk) pre rest al :
  Permutation ((pre ++ b :: rest) ++ al) (b :: pre ++ rest ++ al).
Proof. rewrite <- app_assoc. simpl. symmetry. rewrite Permutation_middle. done. Qed.

Lemma span_sum_nonneg l : Forall wf_blk l -> 0 <= zsum span l.
Proof. intros H. apply zsum_nonneg. eapply Forall_impl; [exact H|]. intros. blk_lia. Qed.

(** The header writes [kmalloc] does before unlinking the block. *)
Definition carve_hdrs (n n' : Z) (b : blk) (s : heap) : Z * heap :=
  if sizeof_block_header + 16 <=? b.2 - n then
    (b.1 + sizeof_block_header + n,
     set_hdr b.1 (BlockHeader n (b.1 + sizeof_block_header + n) 1)
       (set_hdr (b.1 + sizeof_block_header + n)
          (BlockHeader (b.2 - n - sizeof_block_header) n' 1) s))
  else (n', s).

Lemma carve_hdrs_spec n n' b s pre rest al :
  0 <= n -> n mod 8 = 0 -> n <= b.2 ->
  Forall wf_blk (b :: pre ++ rest ++ al) -> pairwise sep (b :: pre ++ rest ++ al) ->
  chain (hdrs s) (free_list s) pre b.1 -> chain (hdrs s) n' rest 0 ->
  Forall (allocated (hdrs s)) al ->
  let '(q, s1) := carve_hdrs n n' b s in
  chain (hdrs s1) (free_list s1) pre b.1 /\
  chain (hdrs s1) q (carve n b rest).2 0 /\ Forall (allocated (hdrs s1)) al /\
  initialized s1 = initialized s /\ total_memory s1 = total_memory s /\
  used_memory s1 = used_memory s.
Proof.
  intros Hn H8 Hle Hwf Hs Hpre Hrest Hal. unfold carve_hdrs, carve.
  destruct (_ <=? _) eqn:E; zbool; [|auto 10].
  apply Forall_cons in Hwf as [Hb Hwf]. destruct Hs as [Hsb _].
  assert (b.1 + sizeof_block_header + n ∉ (pre ++ rest ++ al).*1) as Hyn by
    (apply (sub_notin (b.1 + sizeof_block_header + n, b.2 - n - sizeof_block_header) b);
     auto; blk_lia).
  assert (b.1 ∉ (pre ++ rest ++ al).*1) as Hbn by (apply sep_notin; auto).
  rewrite !fmap_app in Hyn, Hbn. simpl.
  assert (b.1 <> b.1 + sizeof_block_header + n) by blk_lia.
  split_and!; auto.
  - apply chain_frame; [set_solver|]. apply chain_frame; [set_solver|done].
  - exists n'. rewrite lookup_insert_ne, lookup_insert_eq by done. split; [done|].
    apply chain_frame; [set_solver|]. apply chain_frame; [set_solver|done].
  - apply allocated_frame; [set_solver|]. apply allocated_frame; [set_solver|done].
Qed.

Lemma kmalloc_fit fuel n s pre b rest al managed :
  heap_inv s (pre ++ b :: rest) al managed -> 0 <= n -> n mod 8 = 0 -> n <= b.2 ->
  let '(x, rest') := carve n b rest in
  exists s', kmalloc_loop (S fuel) n (last_addr pre) b.1 s = Some (x.1 + sizeof_block_header, s') /\
    heap_inv s' (pre ++ rest') (x :: al) managed /\ total_memory s' = total_memory s.
Proof.
  intros [Hi Hc Hal Hwf Hs Hu Hcons Hm Ht] Hn H8 Hle.
  rewrite perm_focus in Hwf. rewrite perm_focus in Hs.
  assert (Hp : forall x l, Permutation (x :: pre ++ l ++ al) (x :: l ++ pre ++ al)) by
    (intros x l; apply Permutation_skip; rewrite !app_assoc, (Permutation_app_comm pre l); done).
  pose proof (carve_inv n b rest (pre ++ al) Hn H8 Hle) as Hcarve.
  rewrite <- Hp in Hcarve. specialize (Hcarve Hwf Hs).
  apply chain_app in Hc as (m & Hpre & -> & n' & Hb & Hrest).
  pose proof (carve_hdrs_spec n n' b s pre rest al Hn H8 Hle Hwf Hs Hpre Hrest Hal) as Hh.
  assert (Hwb : wf_blk b) by (by apply Forall_cons in Hwf as [? _]).
  simpl. rewrite (proj2 (Z.eqb_neq b.1 0)) by blk_lia. rewrite Hb. simpl.
  rewrite (proj2 (Z.leb_le n b.2)) by done. simpl.
  rewrite (u64_small (b.2 - n)), (u64_small (b.1 + sizeof_block_header + n)),
    (u64_small (b.1 + sizeof_block_header)) by blk_lia.
  destruct (carve n b rest) as [x rest'] eqn:Ec.
  destruct Hcarve as (Hwf' & Hs' & Hsum & Hx & Hnx). rewrite <- Hp in Hwf', Hs'.
  destruct (carve_hdrs n n' b s) as [q s1] eqn:Eh. simpl in Hh.
  destruct Hh as (Hpre1 & Hrest1 & Hal1 & Hi1 & Ht1 & Hu1).
  destruct (unlink_spec s1 pre x q rest' al (BlockHeader x.2 0 0)) as
    (s2 & Hl & Hi2 & Ht2 & Hu2 & Hc3 & Hal3); auto; [by rewrite Hx|].
  exists (set_used (used_memory s + x.2 + sizeof_block_header) (set_hdr x.1 (BlockHeader x.2 0 0) s2)).
  assert (Hz : 0 <= zsum span pre /\ 0 <= zsum span rest' /\ 0 <= zsum span al).
  { apply Forall_cons in Hwf' as [_ Hw]. apply Forall_app in Hw as [? Hw].
    apply Forall_app in Hw as [? ?]. auto using span_sum_nonneg. }
  rewrite zsum_app in Hcons. simpl in Hcons, Hsum.
  assert (Hub : 0 <= used_memory s + x.2 + sizeof_block_header < 2 ^ 64) by
    (apply Forall_cons in Hwf' as [? _]; rewrite Hu; blk_lia).
  split; [|split; [split|]]; simpl; auto; try congruence.
  - unfold carve in Ec. unfold carve_hdrs in Eh. destruct (_ <=? _) eqn:E; simplify_eq/=;
      rewrite Hl; simpl; rewrite Hu2; simpl; rewrite u64_small by lia; done.
  - constructor; [|done]. exists 0. by rewrite lookup_insert_eq.
  - by rewrite <- Permutation_middle, <- app_assoc.
  - by rewrite <- Permutation_middle, <- app_assoc.
  - blk_lia.
  - rewrite zsum_app. blk_lia.
Qed.

Lemma kmalloc_loop_spec rest : forall fuel n s pre curr al managed,
  heap_inv s (pre ++ rest) al managed -> 0 <= n -> n mod 8 = 0 ->
  chain (hdrs s) (free_list s) pre curr -> chain (hdrs s) curr rest 0 ->
  (length rest < fuel)%nat ->
  match first_fit n rest with
  | None => kmalloc_loop fuel n (last_addr pre) curr s = Some (0, s)
  | Some (x, rest') =>
      exists s', kmalloc_loop fuel n (last_addr pre) curr s = Some (x.1 + sizeof_block_header, s') /\
        heap_inv s' (pre ++ rest') (x :: al) managed /\ total_memory s' = total_memory s
  end.
Proof.
  induction rest as [|b rest IH]; intros fuel n s pre curr al managed Hinv Hn H8 Hpre Hrest Hfuel;
    (destruct fuel as [|fuel]; [simpl in Hfuel; lia|]).
  - simpl in Hrest. subst. done.
  - pose proof Hrest as (-> & n' & Hb & Hrest'). cbn [first_fit].
    destruct (n <=? b.2) eqn:E; zbool.
    + by apply kmalloc_fit.
    + assert (Hwb : wf_blk b) by
        (destruct Hinv as [_ _ _ Hw]; rewrite perm_focus in Hw; by apply Forall_cons in Hw as [? _]).
      replace (pre ++ b :: rest) with ((pre ++ [b]) ++ rest) in Hinv by (by rewrite <- app_assoc).
      cbn [kmalloc_loop]. rewrite (proj2 (Z.eqb_neq b.1 0)), Hb by blk_lia. simpl.
      rewrite (proj2 (Z.leb_gt n b.2)) by done. simpl.
      rewrite <- (last_addr_snoc pre b).
      specialize (IH fuel n s (pre ++ [b]) n' al managed Hinv Hn H8).
      destruct (first_fit n rest) as [[x rest']|] eqn:Ef; simpl in *.
      * replace (pre ++ b :: rest') with ((pre ++ [b]) ++ rest') by (by rewrite <- app_assoc).
        apply IH; [|done|lia]. apply chain_app. exists b.1. simpl. eauto.
      * apply IH; [|done|lia]. apply chain_app. exists b.1. simpl. eauto.
Qed.

Lemma inv_fuel s fl al managed : heap_inv s fl al managed -> (length fl < heap_fuel s)%nat.
Proof.
  intros H. destruct H as [_ Hc _ Hwf Hs _ _ _ _]. apply Forall_app in Hwf as [Hwf _].
  apply pairwise_app in Hs as [Hs _]. pose proof (sep_NoDup _ Hwf Hs) as Hnd.
  apply (chain_length _ _ _ _ Hnd) in Hc. unfold heap_fuel. lia.
Qed.

(** [kmalloc] is first fit on the free list: it always returns, with [NULL] and
    an unchanged heap exactly when no free block is large enough. *)
Lemma kmalloc_first_fit n s fl al managed :
  heap_inv s fl al managed -> n <> 0 ->
  match first_fit (ALIGN_UP n 3) fl with
  | None => kmalloc n s = Some (0, s)
  | Some (x, fl') =>
      exists s', kmalloc n s = Some (x.1 + sizeof_block_header, s') /\
        heap_inv s' fl' (x :: al) managed /\ total_memory s' = total_memory s
  end.
Proof.
  intros Hinv Hn. unfold kmalloc. rewrite (inv_init _ _ _ _ Hinv). simpl.
  rewrite (proj2 (Z.eqb_neq n 0)) by done.
  apply (kmalloc_loop_spec fl (heap_fuel s) (ALIGN_UP n 3) s [] (free_list s) al managed); auto.
  - apply ALIGN_UP_range. lia.
  - apply (ALIGN_UP_mult n 3). lia.
  - done.
  - apply (inv_chain _ _ _ _ Hinv).
  - by eapply inv_fuel.
Qed.

(** ** [kfree] puts the block back and merges it with its neighbours *)

Lemma break_at_app a fl : (break_at a fl).1 ++ (break_at a fl).2 = fl.
Proof.
  induction fl as [|q l IH]; simpl; [done|]. destruct (_ <? _); [|done].
  destruct (break_at a l). simpl in *. by rewrite IH.
Qed.

(** Merging two blocks that touch and follow each other in the free list. *)
Lemma merge_step s pre x y post al managed :
  heap_inv s (pre ++ x :: y :: post) al managed -> bend x = y.1 ->
  exists n, hdrs s !! x.1 = Some (BlockHeader x.2 y.1 1) /\
    hdrs s !! y.1 = Some (BlockHeader y.2 n 1) /\
    u64 (x.2 + sizeof_block_header + y.2) = x.2 + span y /\
    heap_inv (set_hdr x.1 (BlockHeader (x.2 + span y) n 1) s)
             (pre ++ (x.1, x.2 + span y) :: post) al managed.
Proof.
  intros [Hi Hc Hal Hwf Hs Hu Hcons Hm Ht] Ha.
  apply chain_app in Hc as (m & Hpre & -> & n1 & Hx & -> & n & Hy & Hpost).
  rewrite perm_focus in Hwf. rewrite perm_focus in Hs. simpl in Hwf, Hs.
  rewrite <- (Permutation_middle pre) in Hwf. rewrite <- (Permutation_middle pre) in Hs.
  apply Forall_cons in Hwf as [Hwx Hwf]. apply Forall_cons in Hwf as [Hwy Hwf].
  destruct Hs as [Hsx [Hsy Hs]]. apply Forall_cons in Hsx as [Hxy Hsx].
  set (z := (x.1, x.2 + span y)).
  assert (Hwz : wf_blk z) by (subst z; blk_lia).
  assert (Hsz : Forall (sep z) (pre ++ post ++ al)).
  { rewrite Forall_forall in *. intros c Hcin.
    apply (sep_join x y); auto; try (subst z; blk_lia).
    specialize (Hwf c Hcin). blk_lia. }
  pose proof (sep_notin z _ Hwz Hwf Hsz) as Hzn. rewrite !fmap_app in Hzn.
  exists n. split; [done|]. split; [done|]. split; [rewrite u64_small; blk_lia|].
  split; simpl; auto.
  - apply chain_app. exists x.1. split; [apply chain_frame; [set_solver|done]|].
    split; [done|]. exists n. rewrite lookup_insert_eq. split; [done|].
    apply chain_frame; [set_solver|done].
  - apply allocated_frame; [set_solver|done].
  - rewrite perm_focus. by constructor.
  - rewrite perm_focus. done.
  - rewrite zsum_app in *. simpl in *. subst z. blk_lia.
Qed.

(** The block is marked free and linked at its place: the first loop. *)
Lemma kfree_find_spec a post : forall pre fuel s cur,
  chain (hdrs s) cur post 0 -> Forall wf_blk post ->
  (length post < fuel)%nat ->
  kfree_find fuel a (last_addr pre) cur s =
  Some (last_addr (pre ++ (break_at a post).1), default 0 (fst <$> head (break_at a post).2)).
Proof.
  induction post as [|q post IH]; intros pre fuel s cur Hc Hwf Hf;
    (destruct fuel as [|fuel]; [simpl in Hf; lia|]); simpl.
  - simpl in Hc. subst cur. simpl. by rewrite app_nil_r.
  - destruct Hc as (-> & n & Hq & Hc). apply Forall_cons in Hwf as [Hwq Hwf].
    rewrite (proj2 (Z.eqb_neq q.1 0)) by blk_lia. simpl.
    destruct (q.1 <? a) eqn:E; simpl.
    + rewrite Hq. simpl. rewrite <- (last_addr_snoc pre q).
      rewrite (IH (pre ++ [q]) fuel s n) by (auto; simpl in Hf; lia).
      destruct (break_at a post). simpl. by rewrite <- app_assoc.
    + by rewrite app_nil_r.
Qed.

(** The second loop finds the predecessor of the block. *)
Lemma kfree_prev_spec b post seg : forall pre fuel s cur,
  chain (hdrs s) cur (seg ++ b :: post) 0 -> Forall wf_blk (seg ++ [b]) -> b.1 ∉ seg.*1 ->
  (length seg < fuel)%nat ->
  kfree_prev fuel b.1 (last_addr pre) cur s = Some (last_addr (pre ++ seg)).
Proof.
  induction seg as [|q seg IH]; intros pre fuel s cur Hc Hwf Hb Hf;
    (destruct fuel as [|fuel]; [simpl in Hf; lia|]); simpl.
  - destruct Hc as (-> & _). rewrite Z.eqb_refl, andb_false_r, app_nil_r. done.
  - destruct Hc as (-> & n & Hq & Hc). simpl in Hwf. apply Forall_cons in Hwf as [Hwq Hwf].
    rewrite fmap_cons, not_elem_of_cons in Hb. destruct Hb as [Hbq Hb].
    rewrite (proj2 (Z.eqb_neq q.1 0)) by blk_lia.
    rewrite (proj2 (Z.eqb_neq q.1 b.1)) by done. simpl. rewrite Hq. simpl.
    rewrite <- (last_addr_snoc pre q), (IH (pre ++ [q]) fuel s n) by (auto; simpl in Hf; lia).
    by rewrite <- app_assoc.
Qed.

Lemma kfree_link s s1 pre post al1 b al2 managed :
  heap_inv s (pre ++ post) (al1 ++ b :: al2) managed ->
  hdrs s1 = <[b.1 := BlockHeader b.2 (default 0 (fst <$> head post)) 1]> (hdrs s) ->
  free_list s1 = free_list s -> initialized s1 = true ->
  total_memory s1 = total_memory s -> used_memory s1 = used_memory s - span b ->
  exists s2, set_link (last_addr pre) b.1 s1 = Some s2 /\
    heap_inv s2 (pre ++ b :: post) (al1 ++ al2) managed /\ total_memory s2 = total_memory s.
Proof.
  intros [Hi Hc Hal Hwf Hs Hu Hcons Hm Ht] Hh Hf Hi1 Ht1 Hu1.
  assert (Hp : Permutation ((pre ++ post) ++ al1 ++ b :: al2) ((pre ++ b :: post) ++ al1 ++ al2)).
  { rewrite perm_focus, <- (Permutation_middle al1), <- Permutation_middle.
    by rewrite <- !app_assoc. }
  rewrite Hp in Hwf. rewrite Hp in Hs.
  pose proof (sep_NoDup _ Hwf Hs) as Hnd. rewrite perm_focus in Hnd. simpl in Hnd.
  rewrite !fmap_app in Hnd. apply NoDup_cons in Hnd as [Hb Hnd].
  apply NoDup_app in Hnd as (Hndp & Hdis & _).
  apply Forall_app in Hal as [Hal1 Hal2]. apply Forall_cons in Hal2 as [_ Hal2].
  apply chain_app in Hc as (m & Hpre & Hpost).
  assert (Hwp : Forall wf_blk pre) by (by rewrite <- app_assoc in Hwf; apply Forall_app in Hwf as [? _]).
  assert (Hm' : m = default 0 (fst <$> head post)).
  { destruct post; simpl in Hpost; [done|]. by destruct Hpost as [-> _]. }
  destruct (set_link_spec s1 pre m b.1 Hwp Hndp) as (s2 & -> & Hc2 & He & _ & _ & Hi2 & Ht2 & Hu2).
  { rewrite Hh, Hf. apply chain_frame; [set_solver|done]. }
  exists s2. split; [done|]. split; [split|]; try congruence; auto.
  - apply chain_app. exists b.1. split; [done|]. simpl. split; [done|]. exists m.
    rewrite He, Hh, lookup_insert_eq, <- Hm' by set_solver. split; [done|].
    eapply chain_ext; [|exact Hpost]. intros a Ha.
    rewrite He, Hh, lookup_insert_ne; set_solver.
  - eapply (allocated_ext (hdrs s)); [|apply Forall_app; split; assumption]. intros a Ha. rewrite fmap_app in Ha.
    rewrite He, Hh, lookup_insert_ne; set_solver.
  - rewrite Hu2, Hu1, Hu, !zsum_app. simpl. lia.
  - rewrite !zsum_app in *. simpl in *. lia.
Qed.

Lemma merge_next_app s pre b post al managed :
  heap_inv s (pre ++ b :: post) al managed ->
  exists s', heap_inv s' (pre ++ merge_next b post) al managed /\
    total_memory s' = total_memory s /\ free_list s' = free_list s /\
    (let nxt := default 0 (fst <$> head post) in
     (if nz nxt && (u64 (b.1 + sizeof_block_header + b.2) =? nxt) then
        n ← hdrs s !! nxt;
        Some (set_hdr b.1 (BlockHeader (u64 (b.2 + sizeof_block_header + bh_size n)) (bh_next n) 1) s)
      else Some s) = Some s').
Proof.
  intros Hinv. pose proof Hinv as [_ _ _ Hwf _ _ _ _ _].
  rewrite perm_focus in Hwf. apply Forall_cons in Hwf as [Hwb Hwf].
  unfold merge_next. destruct post as [|c post]; simpl.
  - exists s. auto.
  - assert (Hwc : wf_blk c) by
      (simpl in Hwf; rewrite <- (Permutation_middle pre) in Hwf; by apply Forall_cons in Hwf as [? _]).
    rewrite (proj2 (nz_true c.1)) by blk_lia. simpl.
    rewrite u64_small by blk_lia.
    replace (b.1 + sizeof_block_header + b.2) with (bend b) by (unfold bend, span; lia).
    destruct (bend b =? c.1) eqn:E; zbool; [|by exists s].
    destruct (merge_step s pre b c post al managed Hinv E) as (n & Hb & Hc & Hsz & Hinv').
    eexists. split; [exact Hinv'|]. simpl. rewrite Hc. simpl. by rewrite Hsz.
Qed.

Lemma merge_next_shape b post :
  exists b' l', merge_next b post = b' :: l' /\ b'.1 = b.1.
Proof. unfold merge_next. destruct post as [|c post]; [|destruct (_ =? _)]; simpl; eauto. Qed.

#[local] Arguments kfree_find : simpl never.
#[local] Arguments kfree_prev : simpl never.
#[local] Arguments heap_fuel : simpl never.

Lemma merge_prev_app s pre b l al managed :
  heap_inv s (pre ++ b :: l) al managed ->
  exists s', heap_inv s' (merge_prev pre (b :: l)) al managed /\
    total_memory s' = total_memory s /\
    (prev ← kfree_prev (heap_fuel s) b.1 0 (free_list s) s;
     if prev =? 0 then Some s else
     p ← hdrs s !! prev;
     if u64 (prev + sizeof_block_header + bh_size p) =? b.1 then
       c ← hdrs s !! b.1;
       Some (set_hdr prev (BlockHeader (u64 (bh_size p + sizeof_block_header + bh_size c))
                                       (bh_next c) (bh_free p)) s)
     else Some s) = Some s'.
Proof.
  intros Hinv. pose proof (inv_fuel _ _ _ _ Hinv) as Hfuel. rewrite length_app in Hfuel.
  pose proof Hinv as [_ Hc _ Hwf Hs _ _ _ _].
  rewrite perm_focus in Hwf. rewrite perm_focus in Hs.
  pose proof (sep_NoDup _ Hwf Hs) as Hnd. simpl in Hnd. rewrite fmap_app in Hnd.
  apply NoDup_cons in Hnd as [Hb _].
  apply Forall_cons in Hwf as [Hwb Hwf]. apply Forall_app in Hwf as [Hwp _].
  assert (kfree_prev (heap_fuel s) b.1 0 (free_list s) s = Some (last_addr pre)) as ->.
  { apply (kfree_prev_spec b l pre []); [done| |set_solver|lia]. apply Forall_app. auto. }
  simpl. unfold merge_prev. destruct pre as [|q pre _] using rev_ind.
  - simpl. by exists s.
  - rewrite last_snoc, last_addr_snoc. apply Forall_app in Hwp as [_ Hwq].
    rewrite Forall_singleton in Hwq. rewrite (proj2 (Z.eqb_neq q.1 0)) by (unfold wf_blk in Hwq; lia).
    rewrite <- app_assoc in Hinv, Hc. simpl in Hinv.
    apply chain_app in Hc as (m & _ & -> & nq & Hq & -> & nb & Hb4 & _). rewrite Hq. simpl.
    replace (u64 (q.1 + sizeof_block_header + q.2)) with (bend q) by (rewrite u64_small; blk_lia).
    destruct (bend q =? b.1) eqn:E; zbool.
    + destruct (merge_step s pre q b l al managed Hinv E) as (n & Hq' & Hbn' & Hsz & Hinv').
      rewrite Hbn'. simpl. rewrite Hsz, removelast_last. eauto.
    + exists s. by rewrite <- app_assoc.
Qed.

(** Marking the block free and finding its place. *)
Lemma kfree_mark s fl al1 b al2 managed n0 :
  heap_inv s fl (al1 ++ b :: al2) managed ->
  hdrs s !! b.1 = Some (BlockHeader b.2 n0 0) ->
  let s1 := set_used (used_memory s - span b) (set_hdr b.1 (BlockHeader b.2 n0 1) s) in
  u64 (used_memory s - (b.2 + sizeof_block_header)) = used_memory s - span b /\
  kfree_find (heap_fuel s1) b.1 0 (free_list s) s1 =
    Some (last_addr (break_at b.1 fl).1, default 0 (fst <$> head (break_at b.1 fl).2)).
Proof.
  intros Hinv Hb s1. pose proof Hinv as [Hi Hc _ Hwf Hs Hu Hcons Hm Ht].
  pose proof (inv_fuel _ _ _ _ Hinv) as Hfuel.
  apply Forall_app in Hwf as [Hwfl Hwal]. apply Forall_app in Hwal as [Hw1 Hw2].
  apply Forall_cons in Hw2 as [Hwb Hw2].
  pose proof (span_sum_nonneg _ Hwfl). pose proof (span_sum_nonneg _ Hw1).
  pose proof (span_sum_nonneg _ Hw2). split.
  - rewrite Hu in *. rewrite zsum_app in *. simpl in *. rewrite u64_small; blk_lia.
  - assert (Hbn : b.1 ∉ fl.*1).
    { apply pairwise_app in Hs as (_ & _ & Hx). intros Hin.
      apply list_elem_of_fmap in Hin as (c & Hcb & Hin).
      rewrite Forall_forall in Hx. specialize (Hx c Hin). rewrite Forall_forall in Hx.
      specialize (Hx b ltac:(set_solver)). rewrite Forall_forall in Hwfl.
      by apply (sep_ne c b); auto. }
    assert (Hf1 : heap_fuel s1 = heap_fuel s) by
      (unfold s1, heap_fuel; simpl; rewrite map_size_insert_Some by eauto; done).
    apply (kfree_find_spec b.1 fl []); [|done|lia]. unfold s1. simpl. by apply chain_frame.
Qed.

(** [kfree] of an allocated block returns, and the free list becomes the one of
    the specification. *)
Lemma kfree_insert_free s fl al1 b al2 managed :
  heap_inv s fl (al1 ++ b :: al2) managed ->
  exists s', kfree (b.1 + sizeof_block_header) s = Some s' /\
    heap_inv s' (insert_free b fl) (al1 ++ al2) managed /\ total_memory s' = total_memory s.
Proof.
  intros Hinv. pose proof Hinv as [Hi _ Hal Hwf _ _ _ _ _].
  apply Forall_app in Hal as [_ Hal]. apply Forall_cons in Hal as [(n0 & Hb) _].
  apply Forall_app in Hwf as [_ Hwf]. apply Forall_app in Hwf as [_ Hwf].
  apply Forall_cons in Hwf as [Hwb _].
  destruct (kfree_mark s fl al1 b al2 managed n0 Hinv Hb) as [Hu Hfind].
  unfold kfree. rewrite Hi. simpl. rewrite (proj2 (Z.eqb_neq _ 0)) by blk_lia.
  replace (u64 (b.1 + sizeof_block_header - sizeof_block_header)) with b.1 by
    (rewrite u64_small; blk_lia).
  rewrite Hb. simpl. rewrite Hu, Hfind. simpl. clear Hu Hfind.
  rewrite <- (break_at_app b.1 fl) in Hinv.
  unfold insert_free. destruct (break_at b.1 fl) as [pre post]. simpl in *.
  destruct (kfree_link s (set_hdr b.1 (BlockHeader b.2 (default 0 (fst <$> head post)) 1)
              (set_used (used_memory s - span b) (set_hdr b.1 (BlockHeader b.2 n0 1) s)))
              pre post al1 b al2 managed) as (s2 & Hl & Hinv2 & Ht2); auto.
  { simpl. by rewrite insert_insert_eq. }
  rewrite Hl. simpl.
  destruct (merge_next_app s2 pre b post (al1 ++ al2) managed Hinv2) as (s3 & Hinv3 & Ht3 & Hf3 & Hm3).
  cbv zeta in Hm3. rewrite Hm3. simpl.
  destruct (merge_next_shape b post) as (b' & l' & Emn & Hb'). rewrite Emn in *.
  destruct (merge_prev_app s3 pre b' l' (al1 ++ al2) managed Hinv3) as (s4 & Hinv4 & Ht4 & Hm4).
  rewrite Hb' in Hm4. rewrite Hm4. exists s4. split; [done|]. split; [done|congruence].
Qed.

(** ** Giving memory to the heap *)


(** The merging loop terminates and keeps the invariant. *)
Lemma coalesce_inv fuel : forall rest pre curr s al managed,
  heap_inv s (pre ++ rest) al managed ->
  chain (hdrs s) curr rest 0 -> (length rest < fuel)%nat ->
  exists s' fl', coalesce fuel curr s = Some s' /\ heap_inv s' fl' al managed /\
    total_memory s' = total_memory s.
Proof.
  induction fuel as [|fuel IH]; intros rest pre curr s al managed Hinv Hc Hf; [lia|].
  destruct rest as [|x rest].
  { simpl in Hc. subst curr. exists s, (pre ++ []). done. }
  destruct Hc as (-> & n & Hx & Hc). pose proof Hinv as [_ _ _ Hwf _ _ _ _ _].
  rewrite perm_focus in Hwf. apply Forall_cons in Hwf as [Hwx Hwf].
  cbn [coalesce]. rewrite (proj2 (Z.eqb_neq x.1 0)), Hx by blk_lia. simpl.
  destruct rest as [|y post].
  { simpl in Hc. subst n. exists s, (pre ++ [x]). done. }
  pose proof Hc as (-> & m & Hy & Hpost).
  assert (Hwy : wf_blk y) by
    (simpl in Hwf; rewrite <- (Permutation_middle pre) in Hwf; by apply Forall_cons in Hwf as [? _]).
  rewrite (proj2 (Z.eqb_neq y.1 0)) by blk_lia.
  replace (u64 (x.1 + sizeof_block_header + x.2)) with (bend x) by (rewrite u64_small; blk_lia).
  destruct (bend x =? y.1) eqn:E; zbool.
  - destruct (merge_step s pre x y post al managed Hinv E) as (m' & _ & Hy' & Hsz & Hinv').
    rewrite Hy'. simpl. rewrite Hsz.
    pose proof (inv_chain _ _ _ _ Hinv') as Hc'. apply chain_app in Hc' as (q & _ & Hq).
    pose proof (chain_head _ _ _ _ _ Hq) as ->. simpl in Hf.
    destruct (IH ((x.1, x.2 + span y) :: post) pre x.1 _ al managed Hinv' Hq ltac:(simpl; lia))
      as (s' & fl' & ? & ? & Ht). exists s', fl'. auto.
  - replace (pre ++ x :: y :: post) with ((pre ++ [x]) ++ y :: post) in Hinv by (by rewrite <- app_assoc).
    apply (IH (y :: post) (pre ++ [x]) y.1); auto. simpl in *. lia.
Qed.

(** A region is turned into one block that ends where the region ends. *)
Definition region_block (base size : Z) : blk :=
  (ALIGN_UP base 3, size - (ALIGN_UP base 3 - base) - sizeof_block_header).

Lemma region_block_spec base size :
  0 < base -> 48 <= size -> base + size < 2 ^ 64 ->
  wf_blk (region_block base size) /\ base <= (region_block base size).1 /\
  bend (region_block base size) = base + size /\ 16 <= (region_block base size).2 /\
  forall s, add_free_block base size s =
    set_free_list (region_block base size).1
      (set_hdr (region_block base size).1
         (BlockHeader (region_block base size).2 (free_list s) 1) s).
Proof.
  intros Hb Hs Hn. destruct (ALIGN_UP_spec base 3) as [Hr Hm]; try lia.
  unfold region_block. simpl. split; [blk_lia|]. split; [lia|]. split; [blk_lia|]. split; [blk_lia|].
  intros s. unfold add_free_block. rewrite (proj2 (Z.ltb_ge size _)) by (unfold sizeof_block_header; lia).
  rewrite (u64_small (ALIGN_UP base 3 - base)), u64_small by lia.
  rewrite (proj2 (Z.ltb_ge _ _)) by (unfold sizeof_block_header; lia). done.
Qed.

Lemma memory_init_inv start size s :
  initialized s = false -> 0 < start -> 48 <= size -> start + size < 2 ^ 64 ->
  exists s', memory_init start size s = Some s' /\
    heap_inv s' [region_block start size] [] (start + size - (region_block start size).1) /\
    total_memory s' = size.
Proof.
  intros Hi Hs Hz Hn. destruct (region_block_spec start size Hs Hz Hn) as (Hwf & Hle & Hend & Hmin & Hadd).
  unfold memory_init. rewrite Hi. simpl. rewrite (proj2 (Z.ltb_lt 0 size)) by lia.
  rewrite Hadd. cbn [set_total set_hdr set_free_list set_used free_list total_memory].
  set (b := region_block start size) in *. unfold heap_fuel. cbn [coalesce hdrs].
  rewrite (proj2 (Z.eqb_neq b.1 0)) by blk_lia. simpl. rewrite lookup_insert_eq. simpl.
  eexists. split; [done|]. rewrite u64_small by lia. split; [split|done]; simpl; auto.
  - split; [done|]. exists 0. by rewrite lookup_insert_eq.
  - blk_lia.
  - blk_lia.
  - lia.
Qed.

Lemma memory_add_region_inv base size s fl al managed :
  heap_inv s fl al managed -> 0 < base -> 48 <= size -> base + size < 2 ^ 64 ->
  total_memory s + size < 2 ^ 64 ->
  Forall (fun b => bend b <= base \/ base + size <= b.1) (fl ++ al) ->
  exists s' fl', memory_add_region base size s = Some s' /\
    heap_inv s' fl' al (managed + (base + size - (region_block base size).1)) /\
    total_memory s' = total_memory s + size.
Proof.
  intros Hinv Hb Hz Hn Htot Hdis. pose proof Hinv as [Hi Hc Hal Hwf Hs Hu Hcons Hm Ht].
  destruct (region_block_spec base size Hb Hz Hn) as (Hwx & Hle & Hend & Hmin & Hadd).
  unfold memory_add_region. rewrite Hi, (proj2 (Z.eqb_neq size 0)) by lia. simpl.
  rewrite Hadd. simpl. set (b := region_block base size) in *.
  assert (Hsb : Forall (sep b) (fl ++ al)).
  { eapply Forall_impl; [exact Hdis|]. unfold sep. intros c Hcase. rewrite Hend. blk_lia. }
  pose proof (sep_notin b _ Hwx Hwf Hsb) as Hbn. rewrite fmap_app in Hbn.
  pose proof Hwf as Hwf'. apply Forall_app in Hwf' as [Hw1 Hw2].
  pose proof (span_sum_nonneg _ Hw1). pose proof (span_sum_nonneg _ Hw2).
  rewrite u64_small by lia.
  set (s1 := set_total _ _).
  assert (Hinv1 : heap_inv s1 (b :: fl) al (managed + (base + size - b.1))).
  { split; simpl; auto; try lia.
    - split; [done|]. exists (free_list s). rewrite lookup_insert_eq. split; [done|].
      apply chain_frame; [set_solver|done].
    - apply allocated_frame; [set_solver|done].
    - blk_lia.
    - blk_lia. }
  pose proof (inv_fuel _ _ _ _ Hinv1) as Hf.
  destruct (coalesce_inv (heap_fuel s1) (b :: fl) [] b.1 s1 al _ Hinv1) as (s' & fl' & Hco & Hinv' & Ht');
    [apply (inv_chain _ _ _ _ Hinv1)|done|].
  exists s', fl'. auto.
Qed.

(** ** Normal free lists: sorted by address, with a gap between neighbours *)

Definition normal (fl : list blk) : Prop := pairwise (fun a b => bend a < b.1) fl.

Lemma merge_next_above k b l :
  k < b.1 -> Forall (fun c => k < c.1) l -> Forall (fun c : blk => k < c.1) (merge_next b l).
Proof.
  intros Hb Hl. destruct l as [|c l]; simpl; [auto|].
  apply Forall_cons in Hl as [? ?]. destruct (_ =? _); auto.
Qed.

Lemma insert_free_cons q b l :
  q.1 < b.1 -> bend q <> b.1 -> insert_free b (q :: l) = q :: insert_free b l.
Proof.
  intros Hq He. unfold insert_free. simpl. rewrite (proj2 (Z.ltb_lt _ _)) by done.
  destruct (break_at b.1 l) as [pre post].
  destruct (merge_next_shape b post) as (b' & l' & -> & Hb').
  unfold merge_prev. rewrite last_cons. destruct (last pre) as [r|] eqn:El.
  - destruct (_ =? _); [|done]. destruct pre; [done|]. done.
  - destruct pre; [|by apply last_None in El]. rewrite (proj2 (Z.eqb_neq _ _)) by congruence. done.
Qed.

Lemma insert_free_here b l :
  Forall (fun c => b.1 <= c.1) l -> insert_free b l = merge_next b l.
Proof.
  intros Hl. unfold insert_free. destruct l as [|c l]; [done|]. simpl.
  apply Forall_cons in Hl as [Hc _]. rewrite (proj2 (Z.ltb_ge _ _)) by done. done.
Qed.

Lemma merge_next_normal b l :
  Forall (sep b) l -> Forall wf_blk l -> wf_blk b -> Forall (fun c => b.1 <= c.1) l -> normal l -> normal (merge_next b l).
Proof.
  intros Hs Hwf Hb Hle Hn. destruct l as [|c l]; simpl; [by split|].
  apply Forall_cons in Hs as [Hs Hsl]. apply Forall_cons in Hwf as [Hwc Hwf].
  apply Forall_cons in Hle as [Hle _]. destruct Hn as [Hc Hn].
  assert (bend b <= c.1) by blk_lia.
  destruct (bend b =? c.1) eqn:E; zbool; split; auto.
  - eapply Forall_impl; [exact Hc|]. intros. blk_lia.
  - apply Forall_cons. split; [lia|]. eapply Forall_impl; [exact Hc|]. intros. blk_lia.
  - by split.
Qed.

Lemma insert_free_normal b fl :
  wf_blk b -> Forall wf_blk fl -> Forall (sep b) fl -> normal fl ->
  normal (insert_free b fl) /\
  forall k, k < b.1 -> Forall (fun c => k < c.1) fl -> Forall (fun c => k < c.1) (insert_free b fl).
Proof.
  intros Hb. induction fl as [|q l IH]; intros Hwf Hs Hn.
  { rewrite insert_free_here by done. simpl. split; [by split|auto]. }
  pose proof Hwf as Hwf0. pose proof Hs as Hs0. pose proof Hn as Hn0.
  apply Forall_cons in Hwf as [Hwq Hwf]. apply Forall_cons in Hs as [Hsq Hs]. destruct Hn as [Hq Hn].
  assert (Hql : Forall (fun c => q.1 <= c.1) (q :: l)).
  { apply Forall_cons. split; [lia|]. eapply Forall_impl; [exact Hq|]. intros. blk_lia. }
  destruct (Z.lt_ge_cases q.1 b.1) as [Hlt|Hge].
  - assert (Hle : bend q <= b.1) by blk_lia.
    destruct (decide (bend q = b.1)) as [He|He].
    + (* the block extends its predecessor *)
      assert (Hbl : Forall (fun c => b.1 <= c.1) l) by
        (eapply Forall_impl; [exact Hq|]; intros; blk_lia).
      assert (Hi : insert_free b (q :: l) = merge_prev [q] (merge_next b l)).
      { unfold insert_free. simpl. rewrite (proj2 (Z.ltb_lt _ _)) by done.
        destruct l as [|c l]; [done|]. apply Forall_cons in Hbl as [? _]. simpl.
        rewrite (proj2 (Z.ltb_ge c.1 b.1)) by done. done. }
      pose proof (merge_next_normal b l Hs Hwf Hb Hbl Hn) as Hm. rewrite Hi.
      destruct (merge_next_shape b l) as (b' & l' & Em & Hb'). rewrite Em in *.
      unfold merge_prev. simpl. rewrite (proj2 (Z.eqb_eq _ _)) by congruence. destruct Hm as [Hm1 Hm2].
      split.
      * split; [|done]. eapply Forall_impl; [exact Hm1|]. intros. blk_lia.
      * intros k Hk Hkl. apply Forall_cons in Hkl as [? Hkl].
        pose proof (merge_next_above k b l Hk Hkl) as Hx. rewrite Em in Hx.
        apply Forall_cons in Hx as [_ ?]. by constructor.
    + destruct (IH Hwf Hs Hn) as [IH1 IH2]. rewrite insert_free_cons by done. split.
      * split; [|done]. apply IH2; [lia|done].
      * intros k Hk Hkl. apply Forall_cons in Hkl as [? ?]. constructor; auto.
  - assert (Hbl : Forall (fun c => b.1 <= c.1) (q :: l)) by
      (eapply Forall_impl; [exact Hql|]; intros; simpl in *; lia).
    rewrite insert_free_here by done. split.
    + by apply merge_next_normal.
    + intros. by apply merge_next_above.
Qed.

Lemma first_fit_normal n fl x fl' :
  0 <= n -> Forall wf_blk fl -> normal fl -> first_fit n fl = Some (x, fl') ->
  normal fl' /\ insert_free x fl' = fl /\
  forall k, Forall (fun c => k < c.1) fl -> k < x.1 /\ Forall (fun c => k < c.1) fl'.
Proof.
  intros Hn. revert x fl'. induction fl as [|b l IH]; intros x fl' Hwf Hno Hf; [done|].
  apply Forall_cons in Hwf as [Hb Hwf]. destruct Hno as [Hbl Hno]. simpl in Hf.
  destruct (n <=? b.2) eqn:E; zbool.
  - unfold carve in Hf. destruct (_ <=? _) eqn:E2; zbool; simplify_eq.
    + split; [split|split]; auto.
      * eapply Forall_impl; [exact Hbl|]. intros. blk_lia.
      * rewrite insert_free_here.
        -- simpl. rewrite (proj2 (Z.eqb_eq _ _)) by blk_lia. f_equal. destruct b. blk_lia || (f_equal; blk_lia).
        -- constructor; [blk_lia|]. eapply Forall_impl; [exact Hbl|]. intros. blk_lia.
      * intros k Hk. apply Forall_cons in Hk as [? ?]. split; [done|]. constructor; [blk_lia|done].
    + split; [done|split].
      * rewrite insert_free_here by (eapply Forall_impl; [exact Hbl|]; intros; blk_lia).
        destruct fl' as [|c l']; [done|]. apply Forall_cons in Hbl as [? _]. simpl.
        rewrite (proj2 (Z.eqb_neq _ _)) by lia. done.
      * intros k Hk. by apply Forall_cons in Hk as [? ?].
  - destruct (first_fit n l) as [[y l']|] eqn:Ef; [|done]. simpl in Hf. injection Hf as <- <-.
    destruct (IH y l' Hwf Hno eq_refl) as (IH1 & IH2 & IH3).
    destruct (IH3 _ Hbl) as [Hy Hl']. split; [by split|]. split.
    + rewrite insert_free_cons by blk_lia. by rewrite IH2.
    + intros k Hk. apply Forall_cons in Hk as [? Hk]. destruct (IH3 k Hk). auto.
Qed.

(** ** Runs of the allocator *)

Definition within (lo hi : Z) (b : blk) : Prop := lo <= b.1 /\ bend b <= hi.

Lemma first_fit_within lo hi n fl x fl' :
  0 <= n -> Forall (within lo hi) fl -> first_fit n fl = Some (x, fl') ->
  within lo hi x /\ Forall (within lo hi) fl'.
Proof.
  intros Hn. revert x fl'. induction fl as [|b l IH]; intros x fl' Hw Hf; [done|].
  apply Forall_cons in Hw as [Hb Hw]. simpl in Hf. destruct (n <=? b.2) eqn:E; zbool.
  - unfold carve in Hf. destruct (_ <=? _) eqn:E2; zbool; injection Hf as <- <-; [|done].
    unfold within in *. split; [blk_lia|]. constructor; [blk_lia|done].
  - destruct (first_fit n l) as [[y l']|] eqn:Ef; [|done]. simpl in Hf. injection Hf as <- <-.
    destruct (IH y l' Hw eq_refl). auto.
Qed.

Lemma insert_free_within lo hi b fl :
  within lo hi b -> 0 <= span b -> Forall wf_blk fl -> Forall (within lo hi) fl ->
  Forall (within lo hi) (insert_free b fl).
Proof.
  intros Hb Hsp Hwf Hw. unfold insert_free. pose proof (break_at_app b.1 fl) as Ha.
  destruct (break_at b.1 fl) as [pre post]. simpl in Ha. subst fl.
  apply Forall_app in Hw as [Hpre Hpost]. apply Forall_app in Hwf as [Hwpre Hwpost].
  assert (Hm : Forall (within lo hi) (merge_next b post)).
  { destruct post as [|c post]; simpl; [auto|]. apply Forall_cons in Hpost as [Hc Hpost].
    destruct (_ =? _) eqn:E; zbool; constructor; auto. unfold within in *. blk_lia. }
  destruct (merge_next_shape b post) as (b' & l' & Em & Hb'). rewrite Em in *.
  apply Forall_cons in Hm as [Hbw Hl']. unfold merge_prev.
  destruct pre as [|q pre _] using rev_ind; [by constructor|]. rewrite last_snoc.
  apply Forall_app in Hpre as [Hpre Hq]. rewrite Forall_singleton in Hq.
  apply Forall_app in Hwpre as [_ Hwq]. rewrite Forall_singleton in Hwq.
  destruct (_ =? _) eqn:E; zbool; [rewrite removelast_last|]; repeat (apply Forall_app; split); auto.
  constructor; [|done]. unfold within in *. blk_lia.
Qed.

(** The executions that start with [memory_init] on one region and go on with
    any sequence of [kmalloc]s and of [kfree]s of live blocks; [al] are the
    blocks that are allocated and not yet freed. *)
Inductive heap_run (start size : Z) : heap -> list blk -> Prop :=
| run_init s0 s :
    initialized s0 = false -> memory_init start size s0 = Some s -> heap_run start size s []
| run_kmalloc s al n p s' h :
    heap_run start size s al -> 0 < n < 2 ^ 64 -> kmalloc n s = Some (p, s') -> p <> 0 ->
    hdrs s' !! (p - sizeof_block_header) = Some h ->
    heap_run start size s' ((p - sizeof_block_header, bh_size h) :: al)
| run_kmalloc_null s al n s' :
    heap_run start size s al -> 0 < n < 2 ^ 64 -> kmalloc n s = Some (0, s') -> heap_run start size s' al
| run_kfree s al1 b al2 s' :
    heap_run start size s (al1 ++ b :: al2) ->
    kfree (b.1 + sizeof_block_header) s = Some s' -> heap_run start size s' (al1 ++ al2).

Section runs.
Context (start size : Z).
Hypothesis start_pos : 0 < start.
Hypothesis size_min : 48 <= size.
Hypothesis no_wrap : start + size < 2 ^ 64.

Let lo := (region_block start size).1.
Let hi := start + size.

Definition heap_ok (s : heap) (fl al : list blk) : Prop :=
  heap_inv s fl al (hi - lo) /\ normal fl /\ Forall (within lo hi) (fl ++ al).

Lemma heap_ok_kmalloc s fl al n :
  heap_ok s fl al -> 0 < n < 2 ^ 64 ->
  match first_fit (ALIGN_UP n 3) fl with
  | None => kmalloc n s = Some (0, s)
  | Some (x, fl') =>
      exists s', kmalloc n s = Some (x.1 + sizeof_block_header, s') /\ heap_ok s' fl' (x :: al)
  end.
Proof.
  intros (Hinv & Hn & Hw) Hr. pose proof (kmalloc_first_fit n s fl al (hi - lo) Hinv ltac:(lia)) as H.
  destruct (first_fit _ fl) as [[x fl']|] eqn:Ef; [|done].
  destruct H as (s' & Hk & Hinv' & _). exists s'. split; [done|]. split; [done|].
  pose proof (ALIGN_UP_range n 3 ltac:(lia)). apply Forall_app in Hw as [Hwf Hwa].
  destruct (first_fit_within lo hi (ALIGN_UP n 3) fl x fl') as [Hx Hfl']; auto; [lia|].
  pose proof (inv_wf _ _ _ _ Hinv) as Hwfb. apply Forall_app in Hwfb as [Hwfb _].
  destruct (first_fit_normal (ALIGN_UP n 3) fl x fl') as (Hn' & _); auto; [lia|].
  split; [done|]. apply Forall_app. split; [done|by constructor].
Qed.

Lemma heap_ok_kfree s fl al1 b al2 :
  heap_ok s fl (al1 ++ b :: al2) ->
  exists s', kfree (b.1 + sizeof_block_header) s = Some s' /\
    heap_ok s' (insert_free b fl) (al1 ++ al2).
Proof.
  intros (Hinv & Hn & Hw). destruct (kfree_insert_free _ _ _ _ _ _ Hinv) as (s' & Hk & Hinv' & _).
  exists s'. split; [done|]. split; [done|]. pose proof Hinv as [_ _ _ Hwf Hs _ _ _ _].
  rewrite Permutation_app_comm in Hwf. rewrite Permutation_app_comm in Hs.
  rewrite perm_focus in Hwf. rewrite perm_focus in Hs. destruct Hs as [Hsb _].
  apply Forall_cons in Hwf as [Hwb Hwf]. apply Forall_app in Hwf as [_ Hwf]. apply Forall_app in Hwf as [_ Hwf].
  apply Forall_app in Hsb as [_ Hsb]. apply Forall_app in Hsb as [_ Hsb].
  apply Forall_app in Hw as [Hw1 Hw2]. apply Forall_app in Hw2 as [Hw2 Hw3].
  apply Forall_cons in Hw3 as [Hwb' Hw3]. split.
  - by apply insert_free_normal.
  - repeat (apply Forall_app; split); auto. apply insert_free_within; auto. blk_lia.
Qed.

Lemma heap_run_ok s al : heap_run start size s al -> exists fl, heap_ok s fl al.
Proof.
  induction 1 as [s0 s Hi Hm|s al n p s' h _ [fl Hok] Hr Hk Hp Hh|s al n s' _ [fl Hok] Hr Hk|s al1 b al2 s' _ [fl Hok] Hk].
  - destruct (memory_init_inv start size s0) as (s' & Hm' & Hinv & _); auto.
    rewrite Hm in Hm'. injection Hm' as <-. exists [region_block start size].
    split; [done|]. destruct (region_block_spec start size) as (? & ? & ? & _); auto.
    split; [by split|]. constructor; [|done]. unfold within, lo, hi. lia.
  - pose proof (heap_ok_kmalloc s fl al n Hok Hr) as H.
    destruct (first_fit _ fl) as [[x fl']|]; [|congruence].
    destruct H as (s'' & Hk' & Hok'). rewrite Hk in Hk'. injection Hk' as -> <-.
    replace (x.1 + sizeof_block_header - sizeof_block_header) with x.1 in * by lia.
    pose proof Hok' as ([_ _ Ha _ _ _ _ _ _] & _). apply Forall_cons in Ha as [(m & Hx) _].
    rewrite Hh in Hx. injection Hx as ->. simpl. exists fl'. by destruct x.
  - pose proof (heap_ok_kmalloc s fl al n Hok Hr) as H.
    destruct (first_fit _ fl) as [[x fl']|].
    + destruct H as (s'' & Hk' & Hok'). rewrite Hk in Hk'. injection Hk' as Hz _.
      destruct Hok' as ([_ _ _ Hwf _ _ _ _ _] & _). apply Forall_app in Hwf as [_ Hwf].
      apply Forall_cons in Hwf as [? _]. exfalso. blk_lia.
    + rewrite Hk in H. injection H as ->. eauto.
  - destruct (heap_ok_kfree s fl al1 b al2 Hok) as (s'' & Hk' & Hok').
    rewrite Hk in Hk'. injection Hk' as <-. eauto.
Qed.

(** A normal free list that covers the whole region is a single block. *)
Lemma normal_sum_bound fl a : forall lo,
  normal (a :: fl) -> Forall (within lo hi) (a :: fl) -> Forall wf_blk (a :: fl) ->
  zsum span (a :: fl) + (if fl is [] then 0 else 1) <= hi - lo.
Proof.
  revert a. induction fl as [|b fl IH]; intros a lo' Hn Hw Hwf.
  - apply Forall_cons in Hw as [Hw _]. unfold within in Hw. blk_lia.
  - destruct Hn as [Ha Hn]. apply Forall_cons in Hw as [Hwa Hw]. apply Forall_cons in Hwf as [_ Hwf].
    assert (Hw' : Forall (within (bend a + 1) hi) (b :: fl)).
    { apply Forall_and in Hw as [_ Hw]. apply Forall_and. split; [|done].
      eapply Forall_impl; [exact Ha|]. intros c Hc. simpl in Hc. lia. }
    specialize (IH b (bend a + 1) Hn Hw' Hwf). unfold within in Hwa. cbn [zsum foldr] in *.
    assert (span a <= bend a - lo') by (unfold bend; lia).
    destruct fl; cbn in *; lia.
Qed.

End runs.

(** * Properties *)

Lemma first_fit_None n fl : first_fit n fl = None -> Forall (fun b => b.2 < n) fl.
Proof.
  induction fl as [|b l IH]; simpl; [constructor|]. destruct (n <=? b.2) eqn:E; [done|].
  zbool. destruct (first_fit n l) as [[? ?]|]; [done|]. constructor; auto.
Qed.

Lemma first_fit_size n fl x fl' : first_fit n fl = Some (x, fl') -> n <= x.2.
Proof.
  revert x fl'. induction fl as [|b l IH]; intros x fl' Hf; [done|]. simpl in Hf.
  destruct (n <=? b.2) eqn:E; zbool.
  - unfold carve in Hf. destruct (_ <=? _); injection Hf as <- _; simpl; lia.
  - destruct (first_fit n l) as [[y l']|]; [|done]. simpl in Hf. injection Hf as <- <-. eauto.
Qed.

(** C11. [kmalloc] on a well-formed heap always returns.  Either it returns
    [NULL], leaves the heap as it was, and no free block could hold the request;
    or it returns an 8-aligned pointer to at least [n] bytes that overlap no
    live block, the heap stays well formed with the new block among the live
    ones, and [memory_used] grows by exactly the block and its header. *)
Theorem kmalloc_spec n s fl al managed :
  heap_inv s fl al managed -> 0 < n -> n + 7 < 2 ^ 64 ->
  exists p s', kmalloc n s = Some (p, s') /\
    ((p = 0 /\ s' = s /\ Forall (fun b => b.2 < ALIGN_UP n 3) fl) \/
     (exists b fl', p = b.1 + sizeof_block_header /\ p mod 8 = 0 /\ n <= b.2 /\
        Forall (fun c => p + n <= c.1 \/ bend c <= p - sizeof_block_header) al /\
        heap_inv s' fl' (b :: al) managed /\ memory_used s' = memory_used s + span b)).
Proof.
  intros Hinv Hn Hw. pose proof (kmalloc_first_fit n s fl al managed Hinv ltac:(lia)) as H.
  destruct (first_fit _ fl) as [[b fl']|] eqn:Ef.
  - destruct H as (s' & Hk & Hinv' & _). exists (b.1 + sizeof_block_header), s'. split; [done|].
    right. exists b, fl'. apply first_fit_size in Ef.
    destruct (ALIGN_UP_spec n 3) as [? _]; try lia.
    pose proof Hinv' as [_ _ _ Hwf Hs Hu _ _ _]. apply Forall_app in Hwf as [_ Hwf].
    apply Forall_cons in Hwf as [Hwb _]. apply pairwise_app in Hs as (_ & [Hs _] & _).
    pose proof (inv_used _ _ _ _ Hinv).
    unfold memory_used. simpl in *. split_and!; auto; try blk_lia.
    eapply Forall_impl; [exact Hs|]. intros c Hc. blk_lia.
  - exists 0, s. split; [done|]. left. auto using first_fit_None.
Qed.

(** C12. [kfree] of a live block always returns, the block leaves the live blocks
    and joins the free list (merged with the neighbours it touches, see
    [insert_free]), the other live blocks are untouched, and [memory_used]
    shrinks by exactly the block and its header. *)
Theorem kfree_spec s fl al1 b al2 managed :
  heap_inv s fl (al1 ++ b :: al2) managed ->
  exists s', kfree (b.1 + sizeof_block_header) s = Some s' /\
    heap_inv s' (insert_free b fl) (al1 ++ al2) managed /\
    memory_used s' = memory_used s - span b.
Proof.
  intros Hinv. destruct (kfree_insert_free _ _ _ _ _ _ Hinv) as (s' & Hk & Hinv' & _).
  exists s'. split; [done|]. split; [done|]. unfold memory_used.
  rewrite (inv_used _ _ _ _ Hinv), (inv_used _ _ _ _ Hinv'), !zsum_app. simpl. lia.
Qed.

(** Freeing what has just been allocated undoes the allocation: on a free
    list in normal form (sorted, neighbours merged) [kfree] of the pointer
    [kmalloc] returned gives back exactly the same free list, byte count
    included. *)
Theorem kmalloc_kfree_roundtrip n s fl al managed p s' :
  heap_inv s fl al managed -> normal fl -> 0 < n < 2 ^ 64 ->
  kmalloc n s = Some (p, s') -> p <> 0 ->
  exists s'', kfree p s' = Some s'' /\ heap_inv s'' fl al managed /\
    memory_used s'' = memory_used s.
Proof.
  intros Hinv Hno Hn Hk Hp. pose proof (kmalloc_first_fit n s fl al managed Hinv ltac:(lia)) as H.
  destruct (first_fit _ fl) as [[b fl']|] eqn:Ef; [|congruence].
  destruct H as (s1 & Hk1 & Hinv1 & _). rewrite Hk in Hk1. injection Hk1 as -> <-.
  destruct (kfree_insert_free s' fl' [] b al managed Hinv1) as (s2 & Hf & Hinv2 & _).
  pose proof (inv_wf _ _ _ _ Hinv) as Hwf. apply Forall_app in Hwf as [Hwf _].
  pose proof (ALIGN_UP_range n 3 ltac:(lia)).
  destruct (first_fit_normal (ALIGN_UP n 3) fl b fl' ltac:(lia) Hwf Hno Ef) as (_ & Hi & _).
  rewrite Hi in Hinv2. simpl in Hinv2. exists s2. split; [done|]. split; [done|].
  unfold memory_used. by rewrite (inv_used _ _ _ _ Hinv), (inv_used _ _ _ _ Hinv2).
Qed.

(** C13. In every run of the allocator the live blocks are pairwise disjoint,
    lie inside the region given to [memory_init], and [memory_used] is the sum
    of their sizes with their headers. *)
Theorem heap_run_safe start size s al :
  0 < start -> 48 <= size -> start + size < 2 ^ 64 -> heap_run start size s al ->
  pairwise sep al /\ Forall (within start (start + size)) al /\ memory_used s = zsum span al.
Proof.
  intros Hs Hz Hn Hrun. destruct (heap_run_ok start size Hs Hz Hn s al Hrun) as (fl & Hinv & _ & Hw).
  pose proof Hinv as [_ _ _ _ Hsep Hu _ _ _]. apply pairwise_app in Hsep as (_ & Hsep & _).
  split; [done|]. split; [|done]. apply Forall_app in Hw as [_ Hw].
  destruct (region_block_spec start size Hs Hz Hn) as (_ & ? & _).
  eapply Forall_impl; [exact Hw|]. unfold within. intros. lia.
Qed.

(** C14. No leak and no lasting fragmentation: whatever sequence of [kmalloc]s and
    [kfree]s was run, once every block has been freed the free list is again the
    single block [memory_init] created and nothing is counted as used. *)
Theorem heap_run_full_recovery start size s :
  0 < start -> 48 <= size -> start + size < 2 ^ 64 -> heap_run start size s [] ->
  free_list s = ALIGN_UP start 3 /\
  hdrs s !! free_list s =
    Some (BlockHeader (start + size - ALIGN_UP start 3 - sizeof_block_header) 0 1) /\
  memory_used s = 0.
Proof.
  intros Hs Hz Hn Hrun. destruct (heap_run_ok start size Hs Hz Hn s [] Hrun) as (fl & Hinv & Hno & Hw).
  pose proof Hinv as [_ Hc _ Hwf _ Hu Hcons _ _]. rewrite app_nil_r in Hw, Hwf. simpl in Hcons.
  destruct (region_block_spec start size Hs Hz Hn) as (Hwr & _ & Hend & _).
  assert (Hpos : 0 < start + size - (region_block start size).1) by (rewrite <- Hend; blk_lia).
  destruct fl as [|a fl]; [simpl in *; lia|].
  pose proof (normal_sum_bound start size fl a _ Hno Hw Hwf) as Hb.
  destruct fl as [|b fl]; [|simpl in *; lia].
  apply Forall_cons in Hw as [[Hlo Hhi] _]. simpl in *. destruct Hc as (Hf & n & Ha & ->).
  assert (Ha1 : a.1 = ALIGN_UP start 3) by (unfold bend in Hhi; lia).
  rewrite Hf, Ha, Ha1. split; [done|]. split; [|done].
  do 2 f_equal. unfold span in Hcons. lia.
Qed.

(** [kmalloc] does not check the rounding of its argument: for the seven
    sizes just below [2^64] the rounded size wraps to 0 and the call succeeds
    whenever the free list is not empty, although no block of that size exists. *)
Theorem kmalloc_size_wraps n s b fl al managed :
  2 ^ 64 - 7 <= n < 2 ^ 64 -> heap_inv s (b :: fl) al managed ->
  exists s', kmalloc n s = Some (b.1 + sizeof_block_header, s') /\
    b.1 + sizeof_block_header <> 0 /\ b.2 < n.
Proof.
  intros Hn Hinv. pose proof (kmalloc_first_fit n s (b :: fl) al managed Hinv ltac:(lia)) as H.
  pose proof (inv_wf _ _ _ _ Hinv) as Hwf. simpl in Hwf. apply Forall_cons in Hwf as [Hb _].
  assert (Ha : ALIGN_UP n 3 = 0).
  { unfold ALIGN_UP. replace (u64 (n + 2 ^ 3 - 1)) with (n + 7 - 2 ^ 64) by
      (unfold u64; apply (Zmod_unique _ _ 1); lia).
    rewrite land_mask64 by lia. rewrite Z.mod_small; lia. }
  rewrite Ha in H. simpl in H. rewrite (proj2 (Z.leb_le 0 b.2)) in H by blk_lia.
  destruct (carve 0 b fl) as [x fl'] eqn:Ec. destruct H as (s' & Hk & _).
  assert (x.1 = b.1) as Hx by (unfold carve in Ec; destruct (_ <=? _); by injection Ec as <- _).
  rewrite Hx in Hk. exists s'. split; [done|]. split; blk_lia.
Qed.

(** The mask of [kmalloc_aligned] keeps the low 32 bits only. *)
Lemma land_u32_mask x k :
  0 <= k <= 32 -> Z.land x (u32 (Z.lnot (2 ^ k - 1))) = x mod 2 ^ 32 - x mod 2 ^ k.
Proof.
  intros Hk. unfold u32. rewrite <- (Z.land_ones (Z.lnot _)) by lia.
  rewrite (Z.land_comm (Z.lnot _)), Z.land_assoc, (Z.land_ones x) by lia.
  replace (2 ^ k - 1) with (Z.ones k) by (rewrite Z.ones_equiv; lia).
  rewrite land_lnot_ones by lia. f_equal.
  replace (2 ^ 32) with (2 ^ k * 2 ^ (32 - k)) by (rewrite <- Z.pow_add_r by lia; f_equal; lia).
  rewrite Z.rem_mul_r by (apply Z.pow_nonzero || apply Z.pow_pos_nonneg; lia).
  rewrite Z.mul_comm, Z.mod_add by (apply Z.pow_nonzero; lia).
  apply Zmod_mod.
Qed.

Lemma heap_inv_cell a v s fl al managed :
  heap_inv s fl al managed -> heap_inv (set_cell a v s) fl al managed.
Proof. by intros [? ? ? ? ? ? ? ? ?]; split. Qed.

(** [kmalloc_aligned] in a heap below 4 GiB: for an alignment [2^k] it
    returns [NULL] or a pointer that is a multiple of [2^k] with [size] bytes
    inside a fresh live block, and [kfree_aligned] of that pointer is [kfree] of
    the block. *)
Theorem kmalloc_aligned_spec size k s fl al managed :
  heap_inv s fl al managed -> 3 <= k <= 31 -> 0 < size -> size + 2 ^ k + 16 < 2 ^ 64 ->
  Forall (within 0 (2 ^ 32)) fl ->
  exists q s', kmalloc_aligned size (2 ^ k) s = Some (q, s') /\
    (q = 0 \/ exists b fl', heap_inv s' fl' (b :: al) managed /\ q mod 2 ^ k = 0 /\
       b.1 + sizeof_block_header + 8 <= q /\ q + size <= bend b /\
       kfree_aligned q s' = kfree (b.1 + sizeof_block_header) s').
Proof.
  intros Hinv Hk Hsz Hov Hw. unfold kmalloc_aligned.
  assert (Hp8 : 8 <= 2 ^ k) by (change 8 with (2 ^ 3); apply Z.pow_le_mono_r; lia).
  rewrite (proj2 (Z.ltb_ge (2 ^ k) 8)) by lia. rewrite (u64_small (size + 2 ^ k + 8)) by lia.
  pose proof (kmalloc_first_fit (size + 2 ^ k + 8) s fl al managed Hinv ltac:(lia)) as H.
  destruct (first_fit _ fl) as [[b fl']|] eqn:Ef; [|rewrite H; simpl; eauto].
  destruct H as (s' & -> & Hinv' & _). simpl.
  pose proof (first_fit_size _ _ _ _ Ef) as Hbs.
  destruct (ALIGN_UP_spec (size + 2 ^ k + 8) 3) as [? _]; try lia.
  destruct (first_fit_within 0 (2 ^ 32) (ALIGN_UP (size + 2 ^ k + 8) 3) fl b fl' ltac:(lia) Hw Ef) as [[_ Hbe] _].
  pose proof (inv_wf _ _ _ _ Hinv') as Hwf. apply Forall_app in Hwf as [_ Hwf].
  apply Forall_cons in Hwf as [(Hb0 & _ & _ & Hb1) _].
  rewrite (proj2 (Z.eqb_neq _ 0)) by (unfold sizeof_block_header; lia).
  set (x := b.1 + sizeof_block_header + 2 ^ k + 8).
  assert (Hx : 0 <= x < 2 ^ 32) by (unfold x, bend, span, sizeof_block_header in *; lia).
  rewrite (u64_small x), land_u32_mask, (Z.mod_small x (2 ^ 32)) by lia.
  pose proof (Z.mod_pos_bound x (2 ^ k) ltac:(lia)).
  eexists _, _. split; [done|]. right. exists b, fl'. split; [by apply heap_inv_cell|].
  split; [rewrite Zminus_mod, Zmod_mod, Z.sub_diag; apply Z.mod_0_l; lia|].
  split; [unfold x, sizeof_block_header in *; lia|].
  split; [unfold x, bend, span, sizeof_block_header in *; lia|].
  unfold kfree_aligned. rewrite (proj2 (Z.eqb_neq _ 0)) by (unfold x, sizeof_block_header in *; lia).
  simpl. by rewrite lookup_insert_eq.
Qed.

(** The mask [~(alignment - 1)] is a 32-bit value, so [kmalloc_aligned] drops
    the upper half of the address: in a heap that lies above 4 GiB a successful
    call returns a pointer below the block it allocated, outside the heap. *)
Theorem kmalloc_aligned_truncates size k s fl al managed q s' :
  heap_inv s fl al managed -> 3 <= k <= 31 -> 0 < size -> size + 2 ^ k + 16 < 2 ^ 64 ->
  Forall (fun b => 2 ^ 32 <= b.1) fl ->
  kmalloc_aligned size (2 ^ k) s = Some (q, s') ->
  q < 2 ^ 32 /\
  (memory_used s' <> memory_used s -> exists b fl', heap_inv s' fl' (b :: al) managed /\ q < b.1).
Proof.
  intros Hinv Hk Hsz Hov Hhi Ha. unfold kmalloc_aligned in Ha.
  assert (Hp8 : 8 <= 2 ^ k) by (change 8 with (2 ^ 3); apply Z.pow_le_mono_r; lia).
  rewrite (proj2 (Z.ltb_ge (2 ^ k) 8)) in Ha by lia. rewrite (u64_small (size + 2 ^ k + 8)) in Ha by lia.
  pose proof (kmalloc_first_fit (size + 2 ^ k + 8) s fl al managed Hinv ltac:(lia)) as H.
  destruct (first_fit _ fl) as [[b fl']|] eqn:Ef; [|rewrite H in Ha; simpl in Ha; injection Ha as <- <-; by split].
  destruct H as (s1 & Hk1 & Hinv' & _). rewrite Hk1 in Ha. simpl in Ha.
  pose proof (inv_wf _ _ _ _ Hinv') as Hwf. apply Forall_app in Hwf as [_ Hwf].
  apply Forall_cons in Hwf as [(Hb0 & _) _].
  rewrite (proj2 (Z.eqb_neq _ 0)) in Ha by (unfold sizeof_block_header; lia).
  rewrite land_u32_mask in Ha by lia. injection Ha as <- <-.
  set (x := u64 _).
  pose proof (Z.mod_pos_bound x (2 ^ k) ltac:(lia)). pose proof (Z.mod_pos_bound x (2 ^ 32) ltac:(lia)).
  split; [lia|]. intros _. exists b, fl'. split; [by apply heap_inv_cell|].
  assert (2 ^ 32 - 1 < b.1); [|lia].
  pose proof (inv_wf _ _ _ _ Hinv) as Hwf. apply Forall_app in Hwf as [Hwf _].
  assert (Hgt : Forall (fun c : blk => 2 ^ 32 - 1 < c.1) fl) by
    (eapply Forall_impl; [exact Hhi|]; intros; simpl in *; lia).
  clear -Ef Hgt. revert b fl' Ef. induction fl as [|c l IH]; intros b fl' Ef; [done|].
  apply Forall_cons in Hgt as [Hc Hgt]. simpl in Ef. destruct (_ <=? _).
  - unfold carve in Ef. destruct (_ <=? _); by injection Ef as <- _.
  - destruct (first_fit _ l) as [[y l']|]; [|done]. simpl in Ef. injection Ef as <- <-. eauto.
Qed.

(** ** What the heap promises to its clients

    A client sees the set [L] of the pointers it holds: an allocation always returns,
    with a pointer outside [L] or the null pointer and the heap as it was, and a
    pointer of [L] can be given back. *)

Class Allocator (live : heap -> gset Z -> Prop) : Prop := {
  alloc_ok h L n : live h L -> 0 < n -> n + 7 < 2 ^ 64 ->
    (kmalloc n h = Some (0, h)) \/
    (exists p h', kmalloc n h = Some (p, h') /\ p <> 0 /\ p ∉ L /\ live h' ({[p]} ∪ L));
  free_ok h L p : live h L -> p ∈ L -> exists h', kfree p h = Some h' /\ live h' (L ∖ {[p]});
  live_nonnull h L : live h L -> 0 ∉ L }.

Definition payload (b : blk) : Z := b.1 + sizeof_block_header.

Definition heap_live (h : heap) (L : gset Z) : Prop :=
  exists fl al managed, heap_inv h fl al managed /\ L = list_to_set (payload <$> al).

Lemma payload_fresh x al : wf_blk x -> Forall wf_blk al -> Forall (sep x) al -> payload x ∉ payload <$> al.
Proof.
  intros Hx Hal Hs Hin. apply list_elem_of_fmap in Hin as (b & Hb & Hin).
  rewrite Forall_forall in Hal, Hs. specialize (Hal _ Hin). specialize (Hs _ Hin).
  pose proof (sep_ne _ _ Hx Hal Hs). unfold payload in Hb. lia.
Qed.

Lemma heap_live_free h L p :
  heap_live h L -> p ∈ L -> exists h', kfree p h = Some h' /\ heap_live h' (L ∖ {[p]}).
Proof.
  intros (fl & al & m & Hinv & ->) Hp. apply elem_of_list_to_set, list_elem_of_fmap in Hp as (b & -> & Hb).
  apply list_elem_of_split in Hb as (al1 & al2 & ->).
  destruct (kfree_insert_free _ _ _ _ _ _ Hinv) as (h' & Hk & Hinv' & _). exists h'. split; [done|].
  exists (insert_free b fl), (al1 ++ al2), m. split; [done|].
  pose proof (inv_wf _ _ _ _ Hinv) as Hwf. pose proof (inv_sep _ _ _ _ Hinv) as Hs.
  apply Forall_app in Hwf as [_ Hwf]. apply pairwise_app in Hs as (_ & Hs & _).
  rewrite <- Permutation_middle in Hwf, Hs. apply Forall_cons in Hwf as [Hwb Hwf]. destruct Hs as [Hs _].
  pose proof (payload_fresh _ _ Hwb Hwf Hs) as Hni. rewrite fmap_app in Hni.
  rewrite !fmap_app, fmap_cons, !list_to_set_app_L, list_to_set_cons.
  apply not_elem_of_app in Hni as [H1 H2]. set_solver.
Qed.

#[export] Instance heap_allocator : Allocator heap_live.
Proof.
  split.
  - intros h L n (fl & al & m & Hinv & ->) Hn Hn7.
    pose proof (kmalloc_first_fit n h fl al m Hinv ltac:(lia)) as H.
    destruct (first_fit _ fl) as [[x fl']|] eqn:Ef; [right|by left].
    destruct H as (h' & Hk & Hinv' & _). exists (payload x), h'. split; [done|].
    pose proof (inv_wf _ _ _ _ Hinv') as Hwf. pose proof (inv_sep _ _ _ _ Hinv') as Hs.
    apply Forall_app in Hwf as [_ Hwf]. apply pairwise_app in Hs as (_ & [Hs _] & _).
    apply Forall_cons in Hwf as [Hwx Hwf]. split_and!.
    + unfold payload. blk_lia.
    + rewrite elem_of_list_to_set. by apply payload_fresh.
    + exists fl', (x :: al), m. done.
  - intros h L p. apply heap_live_free.
  - intros h L (fl & al & m & Hinv & ->) Hin.
    apply elem_of_list_to_set, list_elem_of_fmap in Hin as (b & Hb & Hin).
    pose proof (inv_wf _ _ _ _ Hinv) as Hwf. apply Forall_app in Hwf as [_ Hwf].
    rewrite Forall_forall in Hwf. specialize (Hwf _ Hin). unfold payload in Hb. blk_lia.
Qed.

(** ** Witnesses: the heap [memory_init] makes of the 4 KiB at address 4096 *)

Definition demo_heap : heap := default heap0 (memory_init 4096 4096 heap0).

Lemma demo_inv : heap_inv demo_heap [(4096, 4072)] [] 4096.
Proof.
  destruct (memory_init_inv 4096 4096 heap0) as (s & Hm & Hinv & _); try done.
  unfold demo_heap. rewrite Hm. exact Hinv.
Qed.

Definition demo_alloc : heap := (default (0, heap0) (kmalloc 100 demo_heap)).2.

Lemma demo_alloc_inv : heap_inv demo_alloc [(4224, 3944)] [(4096, 104)] 4096.
Proof.
  pose proof (kmalloc_first_fit 100 demo_heap [(4096, 4072)] [] 4096 demo_inv ltac:(lia)) as H.
  vm_compute first_fit in H. destruct H as (s & Hk & Hinv & _).
  unfold demo_alloc. rewrite Hk. exact Hinv.
Qed.

Lemma demo_run : heap_run 4096 4096 demo_heap [].
Proof. apply (run_init _ _ heap0); vm_compute; reflexivity. Qed.

Lemma kmalloc_spec_witness :
  exists p s', kmalloc 100 demo_heap = Some (p, s') /\ p <> 0.
Proof.
  destruct (kmalloc_spec 100 demo_heap [(4096, 4072)] [] 4096 demo_inv ltac:(lia) ltac:(lia))
    as (p & s' & Hk & Hcase). exists p, s'. split; [exact Hk|].
  intros ->. vm_compute in Hk. discriminate Hk.
Defined.

Lemma kfree_spec_witness :
  exists s', kfree 4120 demo_alloc = Some s' /\ memory_used s' = 0.
Proof.
  destruct (kfree_spec demo_alloc [(4224, 3944)] [] (4096, 104) [] 4096 demo_alloc_inv)
    as (s' & Hk & _ & Hu). exists s'. split; [exact Hk|]. rewrite Hu. vm_compute. reflexivity.
Defined.

Lemma kmalloc_kfree_roundtrip_witness :
  exists s'', kfree 4120 demo_alloc = Some s'' /\ heap_inv s'' [(4096, 4072)] [] 4096.
Proof.
  destruct (kmalloc_kfree_roundtrip 100 demo_heap [(4096, 4072)] [] 4096 4120 demo_alloc)
    as (s'' & Hf & Hinv & _).
  - exact demo_inv.
  - split; [constructor|exact I].
  - lia.
  - vm_compute. reflexivity.
  - lia.
  - exists s''. split; [exact Hf|exact Hinv].
Defined.

Lemma heap_run_safe_witness : memory_used demo_heap = 0.
Proof.
  destruct (heap_run_safe 4096 4096 demo_heap [] ltac:(lia) ltac:(lia) ltac:(lia) demo_run)
    as (_ & _ & Hu). exact Hu.
Defined.

Lemma heap_run_full_recovery_witness : free_list demo_heap = 4096.
Proof.
  destruct (heap_run_full_recovery 4096 4096 demo_heap ltac:(lia) ltac:(lia) ltac:(lia) demo_run)
    as (Hf & _). exact Hf.
Defined.

Lemma kmalloc_size_wraps_witness :
  exists s', kmalloc (2 ^ 64 - 1) demo_heap = Some (4120, s').
Proof.
  destruct (kmalloc_size_wraps (2 ^ 64 - 1) demo_heap (4096, 4072) [] [] 4096 ltac:(lia) demo_inv)
    as (s' & Hk & _). exists s'. exact Hk.
Defined.

Definition high_heap : heap := default heap0 (memory_init (2 ^ 33) 4096 heap0).

Lemma kmalloc_aligned_spec_witness :
  exists q s', kmalloc_aligned 100 (2 ^ 6) demo_heap = Some (q, s') /\ q = 4160.
Proof.
  destruct (kmalloc_aligned_spec 100 6 demo_heap [(4096, 4072)] [] 4096 demo_inv
              ltac:(lia) ltac:(lia) ltac:(lia)) as (q & s' & Hk & _).
  - repeat constructor; vm_compute; discriminate.
  - exists q, s'. split; [exact Hk|]. vm_compute in Hk. injection Hk as <- _. reflexivity.
Defined.

Lemma kmalloc_aligned_truncates_witness :
  exists q s', kmalloc_aligned 100 (2 ^ 6) high_heap = Some (q, s') /\ 0 < q < 2 ^ 32.
Proof.
  destruct (memory_init_inv (2 ^ 33) 4096 heap0) as (s & Hm & Hinv & _); try done.
  assert (Hs : high_heap = s) by (unfold high_heap; rewrite Hm; reflexivity). rewrite <- Hs in Hinv.
  destruct (kmalloc_aligned 100 (2 ^ 6) high_heap) as [[q s']|] eqn:Hk;
    [|vm_compute in Hk; discriminate Hk].
  destruct (kmalloc_aligned_truncates 100 6 high_heap _ _ _ q s' Hinv ltac:(lia) ltac:(lia) ltac:(lia))
    as [Hq _]; [repeat constructor; vm_compute; discriminate|exact Hk|].
  exists q, s'. split; [reflexivity|]. split; [|exact Hq].
  vm_compute in Hk. injection Hk as <- _. lia.
Defined.
