(* ===== verification/Mem.v ===== *)
(** * Physical memory and the block operations of lib/string.c

    Memory is a finite map from addresses to bytes; a byte that was never
    written reads as 0, and the theorems hold for every content.  Multi-byte
    accesses are little endian, as on x86-64.  [memcpy], [memset], [memmove],
    [memcmp] and [memchr] are the routines of lib/string.c, with [rep movsb] and
    [rep stosb] written out byte by byte in the direction the flag gives. *)

From S2P Require Import Prelude.

Abbreviation mem := (gmap Z Z).

Definition rd8 (m : mem) (a : Z) : Z := u8 (default 0 (m !! a)).
Definition wr8 (m : mem) (a v : Z) : mem := <[a := u8 v]> m.

(** ** Little-endian words *)

Fixpoint rdle (m : mem) (a : Z) (n : nat) : Z :=
  match n with
  | O => 0
  | S n => rd8 m a + 256 * rdle m (a + 1) n
  end.

Fixpoint wrle (m : mem) (a : Z) (n : nat) (v : Z) : mem :=
  match n with
  | O => m
  | S n => wrle (wr8 m a v) (a + 1) n (v / 256)
  end.

Definition rd64 (m : mem) (a : Z) : Z := rdle m a 8.
Definition wr64 (m : mem) (a v : Z) : mem := wrle m a 8 v.

(** ** lib/string.c *)

(** [rep stosb] *)
Fixpoint memset (m : mem) (s c : Z) (n : nat) : mem :=
  match n with
  | O => m
  | S n => memset (wr8 m s c) (s + 1) c n
  end.

(** [rep movsb] with the direction flag clear. *)
Fixpoint memcpy (m : mem) (dest src : Z) (n : nat) : mem :=
  match n with
  | O => m
  | S n => memcpy (wr8 m dest (rd8 m src)) (dest + 1) (src + 1) n
  end.

(** [std; rep movsb; cld]: the same copy with decreasing addresses. *)
Fixpoint movsb_down (m : mem) (d s : Z) (n : nat) : mem :=
  match n with
  | O => m
  | S n => movsb_down (wr8 m d (rd8 m s)) (d - 1) (s - 1) n
  end.

Definition memmove (m : mem) (dest src : Z) (n : nat) : mem :=
  if dest <? src then memcpy m dest src n else
  if src <? dest then movsb_down m (dest + Z.of_nat n) (src + Z.of_nat n) n
  else m.

Fixpoint memcmp (m : mem) (s1 s2 : Z) (n : nat) : Z :=
  match n with
  | O => 0
  | S n => if negb (rd8 m s1 =? rd8 m s2) then rd8 m s1 - rd8 m s2
           else memcmp m (s1 + 1) (s2 + 1) n
  end.

(** The address of the first byte equal to [c], 0 for [NULL]. *)
Fixpoint memchr (m : mem) (s c : Z) (n : nat) : Z :=
  match n with
  | O => 0
  | S n => if rd8 m s =? u8 c then s else memchr m (s + 1) c n
  end.

(** ** Lemmas on bytes and words *)

Lemma rd8_range m a : 0 <= rd8 m a < 256.
Proof. apply u8_range. Qed.

Lemma u8_u8 x : u8 (u8 x) = u8 x.
Proof. unfold u8. apply Zmod_mod. Qed.

Lemma u8_rd8 m a : u8 (rd8 m a) = rd8 m a.
Proof. apply u8_u8. Qed.

Lemma rd8_wr8 m a v b : rd8 (wr8 m a v) b = if a =? b then u8 v else rd8 m b.
Proof.
  unfold rd8, wr8. destruct (Z.eqb_spec a b) as [->|Hne].
  - rewrite lookup_insert_eq. simpl. apply u8_u8.
  - by rewrite lookup_insert_ne.
Qed.

Lemma rd8_wrle_out m a n v b :
  b < a \/ a + Z.of_nat n <= b -> rd8 (wrle m a n v) b = rd8 m b.
Proof.
  revert m a v. induction n as [|n IH]; intros m a v Hb; simpl; [done|].
  rewrite IH by lia. rewrite rd8_wr8. destruct (Z.eqb_spec a b); [lia|done].
Qed.

Lemma rdle_ext m m' a n :
  (forall x, a <= x < a + Z.of_nat n -> rd8 m' x = rd8 m x) -> rdle m' a n = rdle m a n.
Proof.
  revert a. induction n as [|n IH]; intros a H; simpl; [done|].
  rewrite H by lia. rewrite IH; [done|]. intros. apply H. lia.
Qed.

Lemma rdle_wrle m a n v : rdle (wrle m a n v) a n = v mod 256 ^ Z.of_nat n.
Proof.
  revert m a v. induction n as [|n IH]; intros m a v.
  - simpl. by rewrite Z.mod_1_r.
  - cbn [wrle rdle]. rewrite IH, rd8_wrle_out by lia. rewrite rd8_wr8, Z.eqb_refl.
    rewrite Nat2Z.inj_succ, Z.pow_succ_r, Z.rem_mul_r by lia. done.
Qed.

Lemma rdle_range m a n : 0 <= rdle m a n < 256 ^ Z.of_nat n.
Proof.
  revert a. induction n as [|n IH]; intros a; [simpl; lia|].
  cbn [rdle]. specialize (IH (a + 1)). pose proof (rd8_range m a).
  rewrite Nat2Z.inj_succ, Z.pow_succ_r by lia. lia.
Qed.

Lemma rd64_wr64_eq m a v : rd64 (wr64 m a v) a = u64 v.
Proof. unfold rd64, wr64. by rewrite rdle_wrle. Qed.

Lemma rd64_wr64_ne m a v b : a + 8 <= b \/ b + 8 <= a -> rd64 (wr64 m a v) b = rd64 m b.
Proof. intros H. apply rdle_ext. intros x Hx. apply rd8_wrle_out. lia. Qed.

Lemma rd8_wr64_out m a v b : b < a \/ a + 8 <= b -> rd8 (wr64 m a v) b = rd8 m b.
Proof. intros. apply rd8_wrle_out. lia. Qed.

Lemma rd64_range m a : 0 <= rd64 m a < 2 ^ 64.
Proof. apply (rdle_range m a 8). Qed.
#[export] Hint Resolve rd8_range rd64_range : machine.

Lemma rd64_ext m m' a :
  (forall x, a <= x < a + 8 -> rd8 m' x = rd8 m x) -> rd64 m' a = rd64 m a.
Proof. intros H. apply rdle_ext. intros. apply H. lia. Qed.

Lemma rd64_wr8_ne m a v b : a < b \/ b + 8 <= a -> rd64 (wr8 m a v) b = rd64 m b.
Proof.
  intros H. apply rd64_ext. intros x Hx. rewrite rd8_wr8. destruct (Z.eqb_spec a x); [lia|done].
Qed.

(** ** What the block operations write *)

(** Case analysis on every integer comparison of the goal. *)
Ltac zcases :=
  repeat match goal with
         | |- context [?a <=? ?b] => destruct (Z.leb_spec a b)
         | |- context [?a <? ?b] => destruct (Z.ltb_spec a b)
         | |- context [?a =? ?b] => destruct (Z.eqb_spec a b)
         end; simpl; try lia; auto.

Lemma rd8_memset m s c n x :
  rd8 (memset m s c n) x =
  if (s <=? x) && (x <? s + Z.of_nat n) then u8 c else rd8 m x.
Proof.
  revert m s. induction n as [|n IH]; intros m s.
  - simpl. zcases.
  - cbn [memset]. rewrite IH, rd8_wr8.
    zcases.
Qed.

Lemma rd8_memset_in m s c n x :
  s <= x < s + Z.of_nat n -> rd8 (memset m s c n) x = u8 c.
Proof.
  intros H. rewrite rd8_memset, (proj2 (Z.leb_le _ _)), (proj2 (Z.ltb_lt _ _)) by lia. done.
Qed.

Lemma rd8_memset_out m s c n x :
  x < s \/ s + Z.of_nat n <= x -> rd8 (memset m s c n) x = rd8 m x.
Proof.
  intros H. rewrite rd8_memset. zcases.
Qed.

Lemma rd64_memset_out m s c n a :
  a + 8 <= s \/ s + Z.of_nat n <= a -> rd64 (memset m s c n) a = rd64 m a.
Proof. intros H. apply rd64_ext. intros x Hx. apply rd8_memset_out. lia. Qed.

Lemma rdle_zero m a n :
  (forall x, a <= x < a + Z.of_nat n -> rd8 m x = 0) -> rdle m a n = 0.
Proof.
  revert a. induction n as [|n IH]; intros a H; simpl; [done|].
  rewrite H, IH by (intros; try apply H; lia). done.
Qed.

Lemma rd64_memset_zero m s n a :
  s <= a -> a + 8 <= s + Z.of_nat n -> rd64 (memset m s 0 n) a = 0.
Proof. intros. apply rdle_zero. intros x Hx. by rewrite rd8_memset_in by lia. Qed.

(** A forward copy between ranges that do not overlap, or towards lower
    addresses, moves the source bytes as they were. *)
Lemma rd8_memcpy m dest src n x :
  dest <= src \/ src + Z.of_nat n <= dest ->
  rd8 (memcpy m dest src n) x =
  if (dest <=? x) && (x <? dest + Z.of_nat n) then rd8 m (src + (x - dest)) else rd8 m x.
Proof.
  revert m dest src. induction n as [|n IH]; intros m dest src Hov.
  - simpl. zcases.
  - cbn [memcpy]. rewrite IH by lia. rewrite !rd8_wr8, u8_rd8.
    zcases; f_equal; lia.
Qed.

Lemma rd8_movsb_down m d s n x :
  s <= d ->
  rd8 (movsb_down m d s n) x =
  if (d - Z.of_nat n <? x) && (x <=? d) then rd8 m (s - (d - x)) else rd8 m x.
Proof.
  revert m d s. induction n as [|n IH]; intros m d s Hsd.
  - simpl. zcases.
  - cbn [movsb_down]. rewrite IH by lia. rewrite !rd8_wr8, u8_rd8.
    zcases; f_equal; lia.
Qed.

(** ** Properties *)

(** [memmove] towards lower addresses (or onto itself) is correct for every
    overlap: the destination holds the bytes the source held before the call and
    no other byte changes. *)
Theorem memmove_down_correct m dest src n x :
  dest <= src ->
  rd8 (memmove m dest src n) x =
  if (dest <=? x) && (x <? dest + Z.of_nat n) then rd8 m (src + (x - dest)) else rd8 m x.
Proof.
  intros H. unfold memmove. destruct (dest <? src) eqn:E; zbool.
  - apply rd8_memcpy. lia.
  - assert (src = dest) as -> by lia. rewrite Z.ltb_irrefl.
    replace (dest + (x - dest)) with x by lia. by destruct (_ && _).
Qed.

(** [memmove] towards higher addresses starts its backward copy one byte too
    high: byte 0 of the destination keeps its old value, the bytes after it are
    copied, and the byte just past the destination is overwritten with the byte
    just past the source. *)
Theorem memmove_up_shifted m dest src n x :
  src < dest -> (0 < n)%nat ->
  rd8 (memmove m dest src n) dest = rd8 m dest /\
  (dest < x < dest + Z.of_nat n -> rd8 (memmove m dest src n) x = rd8 m (src + (x - dest))) /\
  rd8 (memmove m dest src n) (dest + Z.of_nat n) = rd8 m (src + Z.of_nat n).
Proof.
  intros H Hn. unfold memmove. rewrite (proj2 (Z.ltb_ge dest src)), (proj2 (Z.ltb_lt src dest)) by lia.
  rewrite !rd8_movsb_down by lia.
  zcases; (split; [|split]); auto; intros; try lia; f_equal; lia.
Qed.

Definition demo_mem : mem := list_to_map (zip (seqZ 100 8) [1; 2; 3; 4; 5; 6; 7; 8]).

Lemma memmove_down_correct_witness :
  rdle (memmove demo_mem 100 102 3) 100 4 = 3 + 256 * (4 + 256 * (5 + 256 * 4)) /\
  rd8 (memmove demo_mem 100 102 3) 101 = 4.
Proof.
  split; [vm_compute; reflexivity|].
  rewrite (memmove_down_correct demo_mem 100 102 3 101 ltac:(lia)). vm_compute. reflexivity.
Defined.

Lemma memmove_up_shifted_witness :
  rd8 (memmove demo_mem 102 100 3) 102 = 3 /\ rd8 (memmove demo_mem 102 100 3) 105 = 4.
Proof.
  destruct (memmove_up_shifted demo_mem 102 100 3 103 ltac:(lia) ltac:(lia)) as (H1 & _ & H2).
  split; [rewrite H1; vm_compute; reflexivity|].
  change (102 + Z.of_nat 3) with 105 in H2. rewrite H2. vm_compute. reflexivity.
Defined.
