(* ===== verification/CString.v ===== *)
(** * The C library: lib/string.c (strings), lib/ctype.c, lib/stdlib.c, include/endian.h

    Strings are zero-terminated byte sequences of the memory.  The loops that run to
    a terminator take fuel and return an [option]; theorems give the fuel that is
    enough.  Characters are compared as bytes: equality does not depend on the sign
    of [char].  [strtod] and [atof] (floating point) are left out. *)

From S2P Require Import Prelude Mem.

(** ** Strings (lib/string.c) *)

Fixpoint strlen (fuel : nat) (m : mem) (s : Z) : option Z :=
  match fuel with
  | O => None
  | S fuel => if rd8 m s =? 0 then Some 0 else n ← strlen fuel m (s + 1); Some (n + 1)
  end.

(** [while ( *dest++ = *src++ )]; the result is the memory. *)
Fixpoint copy_str (fuel : nat) (m : mem) (dest src : Z) : option mem :=
  match fuel with
  | O => None
  | S fuel =>
      let c := rd8 m src in
      let m := wr8 m dest c in
      if c =? 0 then Some m else copy_str fuel m (dest + 1) (src + 1)
  end.

Definition strcpy (fuel : nat) (m : mem) (dest src : Z) : option mem := copy_str fuel m dest src.

(** [for (; i < n; i++) dest[i] = 0] *)
Fixpoint pad_zero (m : mem) (dest : Z) (n : nat) : mem :=
  match n with
  | O => m
  | S n => pad_zero (wr8 m dest 0) (dest + 1) n
  end.

Fixpoint strncpy (m : mem) (dest src : Z) (n : nat) : mem :=
  match n with
  | O => m
  | S k => if rd8 m src =? 0 then pad_zero m dest n
           else strncpy (wr8 m dest (rd8 m src)) (dest + 1) (src + 1) k
  end.

(** [while ( *dest) dest++] *)
Fixpoint str_end (fuel : nat) (m : mem) (p : Z) : option Z :=
  match fuel with
  | O => None
  | S fuel => if rd8 m p =? 0 then Some p else str_end fuel m (p + 1)
  end.

Definition strcat (fuel : nat) (m : mem) (dest src : Z) : option mem :=
  d ← str_end fuel m dest; copy_str fuel m d src.

Fixpoint ncat_loop (m : mem) (dest src : Z) (n : nat) : mem :=
  match n with
  | O => wr8 m dest 0
  | S n => if rd8 m src =? 0 then wr8 m dest 0
           else ncat_loop (wr8 m dest (rd8 m src)) (dest + 1) (src + 1) n
  end.

Definition strncat (fuel : nat) (m : mem) (dest src : Z) (n : nat) : option mem :=
  d ← str_end fuel m dest; Some (ncat_loop m d src n).

Fixpoint strcmp (fuel : nat) (m : mem) (s1 s2 : Z) : option Z :=
  match fuel with
  | O => None
  | S fuel =>
      if negb (rd8 m s1 =? 0) && (rd8 m s1 =? rd8 m s2) then strcmp fuel m (s1 + 1) (s2 + 1)
      else Some (rd8 m s1 - rd8 m s2)
  end.

Fixpoint strncmp (m : mem) (s1 s2 : Z) (n : nat) : Z :=
  match n with
  | O => 0
  | S n =>
      if negb (rd8 m s1 =? 0) && (rd8 m s1 =? rd8 m s2) then strncmp m (s1 + 1) (s2 + 1) n
      else rd8 m s1 - rd8 m s2
  end.

(** Pointers are returned as addresses, 0 for [NULL]. *)
Fixpoint strchr (fuel : nat) (m : mem) (s c : Z) : option Z :=
  match fuel with
  | O => None
  | S fuel =>
      if rd8 m s =? 0 then Some (if c =? 0 then s else 0)
      else if rd8 m s =? u8 c then Some s else strchr fuel m (s + 1) c
  end.

Fixpoint rchr_loop (fuel : nat) (m : mem) (s c found : Z) : option Z :=
  match fuel with
  | O => None
  | S fuel =>
      if rd8 m s =? 0 then Some (if c =? 0 then s else found)
      else rchr_loop fuel m (s + 1) c (if rd8 m s =? u8 c then s else found)
  end.

Definition strrchr (fuel : nat) (m : mem) (s c : Z) : option Z := rchr_loop fuel m s c 0.

(** The inner loop of [strstr]: does [needle] occur at [h]? *)
Fixpoint match_at (fuel : nat) (m : mem) (h n : Z) : option bool :=
  match fuel with
  | O => None
  | S fuel =>
      if negb (rd8 m h =? 0) && negb (rd8 m n =? 0) && (rd8 m h =? rd8 m n)
      then match_at fuel m (h + 1) (n + 1)
      else Some (rd8 m n =? 0)
  end.

Fixpoint strstr_loop (fuel : nat) (m : mem) (haystack needle : Z) : option Z :=
  match fuel with
  | O => None
  | S k =>
      if rd8 m haystack =? 0 then Some 0 else
      b ← match_at fuel m haystack needle;
      if b : bool then Some haystack else strstr_loop k m (haystack + 1) needle
  end.

Definition strstr (fuel : nat) (m : mem) (haystack needle : Z) : option Z :=
  if rd8 m needle =? 0 then Some haystack else strstr_loop fuel m haystack needle.

(** [malloc] is the allocator's result for the size: 0 or the address of the copy. *)
Definition strdup (malloc : Z -> Z) (fuel : nat) (m : mem) (s : Z) : option (Z * mem) :=
  n ← strlen fuel m s;
  let len := n + 1 in
  let new := malloc len in
  Some (new, if new =? 0 then m else memcpy m new s (Z.to_nat len)).

(** [while ( *saved && strchr(delim, *saved) == keep) saved++] *)
Fixpoint tok_skip (fuel : nat) (m : mem) (delim : Z) (keep : bool) (p : Z) : option Z :=
  match fuel with
  | O => None
  | S k =>
      if rd8 m p =? 0 then Some p else
      d ← strchr fuel m delim (rd8 m p);
      if Bool.eqb (negb (d =? 0)) keep then tok_skip k m delim keep (p + 1) else Some p
  end.

(** [saved] is the static of [strtok]; the result is the token, the memory and the new
    [saved]. *)
Definition strtok (fuel : nat) (m : mem) (saved str delim : Z) : option (Z * mem * Z) :=
  let saved := if negb (str =? 0) then str else saved in
  if saved =? 0 then Some (0, m, saved) else
  p ← tok_skip fuel m delim true saved;
  if rd8 m p =? 0 then Some (0, m, p) else
  e ← tok_skip fuel m delim false p;
  if rd8 m e =? 0 then Some (p, m, 0) else Some (p, wr8 m e 0, e + 1).

(** ** Character classes (lib/ctype.c) *)

Definition in_range (lo hi c : Z) : bool := (lo <=? c) && (c <=? hi).
Definition isalpha (c : Z) : bool := in_range 97 122 c || in_range 65 90 c.
Definition isdigit (c : Z) : bool := in_range 48 57 c.
Definition isalnum (c : Z) : bool := isalpha c || isdigit c.
Definition isxdigit (c : Z) : bool := isdigit c || in_range 97 102 c || in_range 65 70 c.
Definition isspace (c : Z) : bool :=
  (c =? 32) || (c =? 9) || (c =? 10) || (c =? 13) || (c =? 11) || (c =? 12).
Definition isupper (c : Z) : bool := in_range 65 90 c.
Definition islower (c : Z) : bool := in_range 97 122 c.
Definition isprint (c : Z) : bool := in_range 32 126 c.
Definition ispunct (c : Z) : bool := isprint c && negb (isspace c) && negb (isalnum c).
Definition iscntrl (c : Z) : bool := ((0 <=? c) && (c <? 32)) || (c =? 127).
Definition isgraph (c : Z) : bool := (32 <? c) && (c <=? 126).
Definition isascii (c : Z) : bool := u32 c <=? 127.
Definition toupper (c : Z) : Z := if islower c then c - 32 else c.
Definition tolower (c : Z) : Z := if isupper c then c + 32 else c.
Definition toascii (c : Z) : Z := Z.land c 127.

(** ** Byte order (include/endian.h) *)

Definition bswap16 (x : Z) : Z := u16 (Z.lor (Z.shiftr x 8) (Z.shiftl x 8)).
Definition bswap32 (x : Z) : Z :=
  Z.lor (Z.lor (Z.lor (Z.shiftr x 24) (Z.land (Z.shiftr x 8) 0xFF00))
               (Z.land (u32 (Z.shiftl x 8)) 0xFF0000)) (u32 (Z.shiftl x 24)).
Definition bswap64 (x : Z) : Z :=
  Z.lor (Z.lor (Z.lor (Z.lor (Z.lor (Z.lor (Z.lor (Z.shiftr x 56) (Z.land (Z.shiftr x 40) 0xFF00))
    (Z.land (Z.shiftr x 24) 0xFF0000)) (Z.land (Z.shiftr x 8) 0xFF000000))
    (Z.land (u64 (Z.shiftl x 8)) 0xFF00000000)) (Z.land (u64 (Z.shiftl x 24)) 0xFF0000000000))
    (Z.land (u64 (Z.shiftl x 40)) 0xFF000000000000)) (u64 (Z.shiftl x 56)).
Definition htons (x : Z) : Z := bswap16 x.
Definition htonl (x : Z) : Z := bswap32 x.
Definition htonll (x : Z) : Z := bswap64 x.
Definition ntohs (x : Z) : Z := bswap16 x.
Definition ntohl (x : Z) : Z := bswap32 x.
Definition ntohll (x : Z) : Z := bswap64 x.

(** ** Numbers (lib/stdlib.c) *)

Definition srand (seed : Z) : Z := u32 seed.
Definition rand (rand_state : Z) : Z * Z :=
  let rand_state := u64 (rand_state * 1103515245 + 12345) in ((rand_state / 65536) mod 32768, rand_state).

(** The value of a character as a digit; [None] ends the number. *)
Definition digit_of (c : Z) : option Z :=
  if isdigit c then Some (c - 48)
  else if isalpha c then Some (c - (if isupper c then 65 - 10 else 97 - 10)) else None.

Fixpoint skip_space (fuel : nat) (m : mem) (s : Z) : option Z :=
  match fuel with
  | O => None
  | S fuel => if isspace (rd8 m s) then skip_space fuel m (s + 1) else Some s
  end.

(** The sign: [neg] and the next position. *)
Definition read_sign (m : mem) (s : Z) : bool * Z :=
  if rd8 m s =? 45 then (true, s + 1) else if rd8 m s =? 43 then (false, s + 1) else (false, s).

(** The base: a prefix [0x] is skipped. *)
Definition read_base (m : mem) (s base : Z) : Z * Z :=
  let '(s, base) :=
    if ((base =? 0) || (base =? 16)) && (rd8 m s =? 48) && ((rd8 m (s + 1) =? 120) || (rd8 m (s + 1) =? 88))
    then (s + 2, 16) else (s, base) in
  (s, if base =? 0 then (if rd8 m s =? 48 then 8 else 10) else base).

(** The digit loop shared by [strtoul] and [strtol]; [any] is 0 before the first digit,
    1 after it and -1 after an overflow. *)
Fixpoint digits_loop (fuel : nat) (m : mem) (base cutoff cutlim s any acc : Z) : option (Z * Z * Z) :=
  match fuel with
  | O => None
  | S fuel =>
      match digit_of (rd8 m s) with
      | None => Some (s, any, acc)
      | Some c =>
          if base <=? c then Some (s, any, acc) else
          if (any <? 0) || (cutoff <? acc) || ((acc =? cutoff) && (cutlim <? c))
          then digits_loop fuel m base cutoff cutlim (s + 1) (-1) acc
          else digits_loop fuel m base cutoff cutlim (s + 1) 1 (u64 (acc * base + c))
      end
  end.

Definition ULONG_MAX : Z := 2 ^ 64 - 1.
Definition LONG_MAX : Z := 2 ^ 63 - 1.

(** The result: the value, [*endptr] and whether [errno] is set to 34. *)
Definition strtoul (fuel : nat) (m : mem) (nptr base : Z) : option (Z * Z * bool) :=
  s ← skip_space fuel m nptr;
  let '(neg, s) := read_sign m s in
  let '(s, base) := read_base m s base in
  '(s, any, acc) ← digits_loop fuel m base (ULONG_MAX / base) (ULONG_MAX mod base) s 0 0;
  let acc := if any <? 0 then ULONG_MAX else if neg : bool then u64 (- acc) else acc in
  Some (acc, (if any =? 0 then nptr else s), any <? 0).

(** [acc0] is the value that the uninitialised variable [acc] has. *)
Definition strtol (acc0 : Z) (fuel : nat) (m : mem) (nptr base : Z) : option (Z * Z * bool) :=
  s ← skip_space fuel m nptr;
  let '(neg, s) := read_sign m s in
  let '(s, base) := read_base m s base in
  let lim := if neg : bool then 2 ^ 63 else LONG_MAX in
  '(s, any, acc) ← digits_loop fuel m base (lim / base) (lim mod base) s 0 acc0;
  let acc := if any <? 0 then (if neg : bool then 2 ^ 63 else LONG_MAX) else if neg : bool then u64 (- acc) else acc in
  Some (i64 acc, (if any =? 0 then nptr else s), any <? 0).

Definition strtoll := strtol.
Definition strtoull := strtoul.
Definition atoi (acc0 : Z) (fuel : nat) (m : mem) (nptr : Z) : option Z :=
  '(v, _, _) ← strtol acc0 fuel m nptr 10; Some (i32 v).
Definition atol (acc0 : Z) (fuel : nat) (m : mem) (nptr : Z) : option Z :=
  '(v, _, _) ← strtol acc0 fuel m nptr 10; Some v.

(** ** Searching and sorting (lib/stdlib.c)

    An array is the list of its elements, [compar] the caller's comparison. *)
Section arrays.
Context {A : Type} (compar : A -> A -> Z).

(** The index of the element found.  [fuel] bounds the halvings. *)
Fixpoint bsearch_loop (fuel : nat) (key : A) (a : list A) (l u : nat) : option (option nat) :=
  if (u <=? l)%nat then Some None else
  match fuel with
  | O => None
  | S fuel =>
      let idx := ((l + u) / 2)%nat in
      p ← a !! idx;
      let c := compar key p in
      if c <? 0 then bsearch_loop fuel key a l idx
      else if 0 <? c then bsearch_loop fuel key a (S idx) u
      else Some (Some idx)
  end.

Definition bsearch (key : A) (a : list A) : option (option nat) := bsearch_loop (length a) key a 0 (length a).

Definition swap (i j : nat) (a : list A) : option (list A) :=
  x ← a !! i; y ← a !! j; Some (<[j := x]> (<[i := y]> a)).

(** [while (compar(b + i * size, pivot) < 0) i++] and its mirror image; the pivot is a
    place of the array.  [None] is an access outside the array. *)
Fixpoint scan_up (fuel : nat) (a : list A) (piv i : nat) : option nat :=
  match fuel with
  | O => None
  | S fuel => x ← a !! i; p ← a !! piv;
              if compar x p <? 0 then scan_up fuel a piv (S i) else Some i
  end.

Fixpoint scan_down (fuel : nat) (a : list A) (piv j : nat) : option nat :=
  match fuel with
  | O => None
  | S fuel => x ← a !! j; p ← a !! piv;
              if 0 <? compar x p then (if (j =? 0)%nat then None else scan_down fuel a piv (Nat.pred j)) else Some j
  end.

(** The partition loop; positions are relative to the start of the array, [base] is
    the start of the part being sorted. *)
Fixpoint partition (fuel : nat) (a : list A) (piv i j : nat) : option (nat * list A) :=
  match fuel with
  | O => None
  | S fuel =>
      i ← scan_up (S (length a)) a piv i;
      j ← scan_down (S (length a)) a piv j;
      if (j <=? i)%nat then Some (i, a) else
      a ← swap i j a;
      partition fuel a piv (S i) (Nat.pred j)
  end.

Fixpoint qsort_part (fuel : nat) (a : list A) (base nmemb : nat) : option (list A) :=
  match fuel with
  | O => None
  | S fuel =>
      if (nmemb <? 2)%nat then Some a else
      '(i, a) ← partition (S (length a)) a (base + nmemb / 2) base (base + nmemb - 1);
      a ← qsort_part fuel a base (i - base);
      qsort_part fuel a i (nmemb - (i - base))
  end.

Definition qsort (fuel : nat) (a : list A) : option (list A) := qsort_part fuel a 0 (length a).
End arrays.

(** * Strings as lists *)

(** The bytes of the string at [s] are [l]. *)
Fixpoint cstr (m : mem) (s : Z) (l : list Z) : Prop :=
  match l with
  | [] => rd8 m s = 0
  | c :: l => rd8 m s = c /\ c <> 0 /\ cstr m (s + 1) l
  end.

Lemma cstr_ext m m' s l :
  (forall x, s <= x <= s + Z.of_nat (length l) -> rd8 m' x = rd8 m x) -> cstr m s l -> cstr m' s l.
Proof.
  revert s. induction l as [|c l IH]; intros s Hx; cbn [cstr length] in *.
  - intros <-. apply Hx. lia.
  - intros (<- & Hc & Hl). split; [apply Hx; lia|]. split; [done|]. apply IH; [|done]. intros x Hs. apply Hx. lia.
Qed.

Lemma strlen_cstr m s l fuel : cstr m s l -> (length l < fuel)%nat -> strlen fuel m s = Some (Z.of_nat (length l)).
Proof.
  revert s fuel. induction l as [|c l IH]; intros s [|fuel] Hc Hf; cbn [cstr length strlen] in *; try lia.
  - by rewrite Hc.
  - destruct Hc as (-> & Hc0 & Hc). rewrite (proj2 (Z.eqb_neq c 0)) by done. rewrite IH by (done || lia).
    simpl. f_equal. lia.
Qed.

Lemma copy_str_spec l : forall fuel m dest src,
  cstr m src l -> (length l < fuel)%nat ->
  dest + Z.of_nat (length l) < src \/ src + Z.of_nat (length l) < dest ->
  exists m', copy_str fuel m dest src = Some m' /\ cstr m' dest l /\
    forall x, x < dest \/ dest + Z.of_nat (length l) < x -> rd8 m' x = rd8 m x.
Proof.
  induction l as [|c l IH]; intros [|fuel] m dest src Hc Hf Hd; cbn [cstr length copy_str] in *; try lia.
  - rewrite Hc. exists (wr8 m dest 0). split; [done|]. split.
    + rewrite rd8_wr8, Z.eqb_refl. done.
    + intros x Hx. rewrite rd8_wr8. destruct (Z.eqb_spec dest x); [lia|done].
  - destruct Hc as (Hcs & Hc0 & Hc). rewrite Hcs, (proj2 (Z.eqb_neq c 0)) by done.
    pose proof (rd8_range m src) as Hr. rewrite Hcs in Hr.
    set (m1 := wr8 m dest c). assert (Hm1 : forall x, x <> dest -> rd8 m1 x = rd8 m x).
    { intros x Hx. unfold m1. rewrite rd8_wr8. destruct (Z.eqb_spec dest x); [lia|done]. }
    destruct (IH fuel m1 (dest + 1) (src + 1)) as (m' & He & Hc' & Ho); [|lia|lia|].
    { apply (cstr_ext m); [|done]. intros x Hx. apply Hm1. lia. }
    exists m'. split; [done|]. split; [split; [|done]|].
    + rewrite Ho by lia. unfold m1. rewrite rd8_wr8, Z.eqb_refl. apply Z.mod_small. lia.
    + intros x Hx. rewrite Ho by lia. apply Hm1. lia.
Qed.

(** [strcpy] of a string to a place it does not overlap: the destination holds the
    same string, [strlen] agrees, and no byte outside the destination changes. *)
Theorem strcpy_spec m dest src l fuel :
  cstr m src l -> (length l < fuel)%nat ->
  dest + Z.of_nat (length l) < src \/ src + Z.of_nat (length l) < dest ->
  exists m', strcpy fuel m dest src = Some m' /\ cstr m' dest l /\
    strlen fuel m' dest = Some (Z.of_nat (length l)) /\
    forall x, x < dest \/ dest + Z.of_nat (length l) < x -> rd8 m' x = rd8 m x.
Proof.
  intros Hc Hf Hd. destruct (copy_str_spec l fuel m dest src Hc Hf Hd) as (m' & He & Hc' & Ho).
  exists m'. auto using strlen_cstr.
Qed.

(** ** Comparison *)

(** The order of strings as byte sequences. *)
Fixpoint lex (l1 l2 : list Z) : Z :=
  match l1, l2 with
  | [], [] => 0
  | [], c :: _ => - c
  | c :: _, [] => c
  | c1 :: l1, c2 :: l2 => if c1 =? c2 then lex l1 l2 else c1 - c2
  end.

(** [strcmp] returns 0 exactly for equal strings, and otherwise the difference of the
    first bytes that differ (with the terminator as 0). *)
Theorem strcmp_spec m s1 s2 l1 l2 fuel :
  cstr m s1 l1 -> cstr m s2 l2 -> (length l1 < fuel)%nat ->
  strcmp fuel m s1 s2 = Some (lex l1 l2) /\ (lex l1 l2 = 0 <-> l1 = l2).
Proof.
  revert s1 s2 l2 fuel. induction l1 as [|c1 l1 IH]; intros s1 s2 l2 [|fuel] H1 H2 Hf; cbn [cstr length strcmp] in *; try lia.
  - rewrite H1. cbn [negb Z.eqb andb]. destruct l2 as [|c2 l2]; cbn [cstr lex] in *; [rewrite H2; done|].
    destruct H2 as (-> & Hc & _). split; [f_equal; lia|]. split; [lia|done].
  - destruct H1 as (-> & Hc1 & H1). rewrite (proj2 (Z.eqb_neq c1 0)) by done. cbn [negb andb].
    destruct l2 as [|c2 l2]; cbn [cstr lex] in *.
    + rewrite H2, (proj2 (Z.eqb_neq c1 0)) by done. split; [f_equal; lia|]. split; [lia|done].
    + destruct H2 as (-> & Hc2 & H2). destruct (Z.eqb_spec c1 c2) as [->|Hne].
      * destruct (IH (s1 + 1) (s2 + 1) l2 fuel H1 H2) as [-> Hiff]; [lia|]. split; [done|]. rewrite Hiff. naive_solver.
      * split; [done|]. split; [lia|naive_solver].
Qed.

(** ** Reading numbers *)

(** The value of a digit sequence. *)
Definition value (base : Z) (ds : list Z) : Z := foldl (fun a d => a * base + d) 0 ds.

Lemma value_from base ds acc :
  foldl (fun a d => a * base + d) acc ds = acc * base ^ Z.of_nat (length ds) + value base ds.
Proof.
  unfold value. revert acc. induction ds as [|d ds IH]; intros acc; cbn [foldl length].
  - rewrite Z.pow_0_r. lia.
  - rewrite IH, (IH (0 * base + d)), Nat2Z.inj_succ, Z.pow_succ_r by lia. ring.
Qed.

Lemma value_nonneg base ds acc :
  0 < base -> Forall (fun d => 0 <= d < base) ds -> 0 <= acc -> acc <= foldl (fun a d => a * base + d) acc ds.
Proof.
  intros Hb HF. revert acc. induction HF as [|d ds Hd HF IH]; intros acc Ha; cbn [foldl]; [lia|].
  etransitivity; [|apply IH; nia]. nia.
Qed.

(** The characters at [s] are the digits [ds] of [base], and then the number ends. *)
Fixpoint digits_at (m : mem) (base s : Z) (ds : list Z) : Prop :=
  match ds with
  | [] => match digit_of (rd8 m s) with None => True | Some d => base <= d end
  | d :: ds => digit_of (rd8 m s) = Some d /\ 0 <= d < base /\ digits_at m base (s + 1) ds
  end.

Lemma digits_at_range m base s ds : digits_at m base s ds -> Forall (fun d => 0 <= d < base) ds.
Proof. revert s. induction ds as [|d ds IH]; intros s; simpl; [constructor|]. intros (_ & Hd & H). constructor; eauto. Qed.

Lemma overflow_test base lim acc d :
  0 < base -> 0 <= lim -> 0 <= d < base ->
  (lim / base <? acc) || ((acc =? lim / base) && (lim mod base <? d)) = (lim <? acc * base + d).
Proof.
  intros Hb Hl Hd. pose proof (Z.div_mod lim base ltac:(lia)). pose proof (Z.mod_pos_bound lim base Hb).
  set (q := lim / base) in *. set (r := lim mod base) in *. clearbody q r.
  destruct (Z.ltb_spec q acc); [symmetry; apply Z.ltb_lt; nia|]. destruct (Z.eqb_spec acc q) as [->|Hne]; cbn [orb andb].
  - destruct (Z.ltb_spec r d); symmetry; [apply Z.ltb_lt|apply Z.ltb_ge]; nia.
  - symmetry. apply Z.ltb_ge. nia.
Qed.

Lemma digits_overflow m base cutoff cutlim ds : forall fuel s acc,
  digits_at m base s ds -> (length ds < fuel)%nat ->
  digits_loop fuel m base cutoff cutlim s (-1) acc = Some (s + Z.of_nat (length ds), -1, acc).
Proof.
  induction ds as [|d ds IH]; intros [|fuel] s acc Hd Hf; cbn [digits_at length digits_loop] in *; try lia.
  - rewrite Z.add_0_r. destruct (digit_of _) as [d|]; [|done]. by rewrite (proj2 (Z.leb_le _ _)).
  - destruct Hd as (-> & Hd & Hds). rewrite (proj2 (Z.leb_gt _ _)) by lia. cbn [Z.ltb Z.compare orb].
    rewrite IH by (done || lia). do 3 f_equal. lia.
Qed.

(** The digit loop computes the value, or notices that it is above the limit. *)
Lemma digits_loop_spec m base lim ds : forall fuel s any acc,
  0 < base -> 0 <= lim < 2 ^ 64 -> digits_at m base s ds -> (length ds < fuel)%nat ->
  0 <= any -> 0 <= acc <= lim ->
  let v := foldl (fun a d => a * base + d) acc ds in
  exists any' acc', digits_loop fuel m base (lim / base) (lim mod base) s any acc =
      Some (s + Z.of_nat (length ds), any', acc') /\
    (any' <? 0) = (lim <? v) /\ (v <= lim -> acc' = v) /\ (any' =? 0) = (any =? 0) && (length ds =? 0)%nat.
Proof.
  induction ds as [|d ds IH]; intros [|fuel] s any acc Hb Hl Hd Hf Ha Hacc; cbn [digits_at length digits_loop foldl] in *; try lia.
  - exists any, acc. rewrite Z.add_0_r, (proj2 (Z.ltb_ge any 0)), (proj2 (Z.ltb_ge lim acc)), andb_true_r by lia.
    split; [|done]. destruct (digit_of _) as [d|]; [|done]. by rewrite (proj2 (Z.leb_le _ _)).
  - destruct Hd as (-> & Hd & Hds). rewrite (proj2 (Z.leb_gt base d)) by lia. rewrite (proj2 (Z.ltb_ge any 0)) by lia.
    cbn [orb]. rewrite overflow_test by lia. pose proof (value_nonneg base ds (acc * base + d) Hb (digits_at_range _ _ _ _ Hds) ltac:(nia)) as Hv.
    rewrite andb_false_r. destruct (Z.ltb_spec lim (acc * base + d)) as [Hov|Hok].
    + exists (-1), acc. rewrite (digits_overflow _ _ _ _ ds) by (done || lia). split; [do 3 f_equal; lia|].
      rewrite (proj2 (Z.ltb_lt lim _)) by lia. split; [done|]. split; [lia|done].
    + rewrite u64_small by nia. destruct (IH fuel (s + 1) 1 (acc * base + d)) as (any' & acc' & He & H1 & H2 & H3); try (done || lia || nia).
      exists any', acc'. rewrite He. split; [do 3 f_equal; lia|]. split; [done|]. split; [done|]. by rewrite H3.
Qed.

Lemma decimal_digit c d : digit_of c = Some d -> d < 10 -> 48 <= c <= 57.
Proof.
  unfold digit_of, isdigit, isalpha, isupper, in_range. intros H Hd.
  repeat (case_step_in H; zbool); try discriminate H; injection H as <-; zbool; try lia.
Qed.

(** [strtoul] in base 10 reads a decimal number of any length: the result is its value,
    saturated at [ULONG_MAX] with [errno] set exactly when the value does not fit 64 bits,
    and [*endptr] is the first character after the digits. *)
Theorem strtoul_decimal m nptr ds fuel :
  digits_at m 10 nptr ds -> ds <> [] -> (length ds < fuel)%nat ->
  strtoul fuel m nptr 10 =
    Some (Z.min (value 10 ds) ULONG_MAX, nptr + Z.of_nat (length ds), ULONG_MAX <? value 10 ds).
Proof.
  intros Hds Hne Hf. destruct ds as [|d ds]; [done|]. pose proof Hds as (Hd & Hr & _).
  pose proof (decimal_digit _ _ Hd ltac:(lia)) as Hc. destruct fuel as [|fuel]; [simpl in Hf; lia|].
  unfold strtoul. cbn [skip_space].
  assert (isspace (rd8 m nptr) = false) as ->.
  { unfold isspace. rewrite !orb_false_iff. repeat split; apply Z.eqb_neq; lia. }
  cbn [mbind option_bind]. unfold read_sign.
  rewrite (proj2 (Z.eqb_neq _ 45)), (proj2 (Z.eqb_neq _ 43)) by lia. unfold read_base. cbn [Z.eqb Pos.eqb orb andb].
  destruct (digits_loop_spec m 10 ULONG_MAX (d :: ds) (S fuel) nptr 0 0) as (any & acc & -> & Hov & Hval & Hany);
    [lia|unfold ULONG_MAX; lia|done|done|lia|unfold ULONG_MAX; lia|].
  cbn [mbind option_bind]. fold (value 10 (d :: ds)) in Hov, Hval. rewrite Hany, Hov. cbn [length Nat.eqb andb].
  rewrite andb_false_r. destruct (Z.ltb_spec ULONG_MAX (value 10 (d :: ds))) as [Hb|Hs].
  - rewrite Z.min_r by lia. done.
  - rewrite Z.min_l, Hval by lia. done.
Qed.

(** [strtol] starts from an uninitialised accumulator: what it returns depends on it. *)
Example strtol_uninitialised :
  let m := wr8 (wr8 ∅ 100 55) 101 0 in
  strtol 0 10 m 100 10 = Some (7, 101, false) /\ strtol 5 10 m 100 10 = Some (57, 101, false).
Proof. vm_compute. auto. Qed.

(** ** Binary search *)

Section bsearch_spec.
Context {A : Type} (compar : A -> A -> Z) (key : A) (a : list A).

(** The array is ordered as the comparison with [key] sees it. *)
Definition ordered : Prop := forall i j x y, (i <= j)%nat -> a !! i = Some x -> a !! j = Some y ->
  (compar key x < 0 -> compar key y < 0) /\ (0 < compar key y -> 0 < compar key x).

Lemma bsearch_loop_spec fuel l u :
  ordered -> (u <= length a)%nat -> (u - l <= fuel)%nat ->
  (forall i x, a !! i = Some x -> compar key x = 0 -> (l <= i < u)%nat) ->
  exists r, bsearch_loop compar fuel key a l u = Some r /\
    match r with
    | Some i => exists x, a !! i = Some x /\ compar key x = 0
    | None => forall x, x ∈ a -> compar key x <> 0
    end.
Proof.
  revert l u. induction fuel as [|fuel IH]; intros l u Ho Hu Hf Hin; cbn [bsearch_loop];
    destruct (Nat.leb_spec u l) as [Hle|Hgt].
  1, 3: exists None; split; [done|]; intros x [i Hi]%list_elem_of_lookup H0; specialize (Hin i x Hi H0); lia.
  { lia. }
  set (idx := ((l + u) / 2)%nat). assert (Hidx : (l <= idx < u)%nat) by (unfold idx; split; [apply Nat.div_le_lower_bound|apply Nat.div_lt_upper_bound]; lia).
  destruct (lookup_lt_is_Some_2 a idx) as [p Hp]; [lia|]. rewrite Hp. cbn [mbind option_bind].
  destruct (Z.ltb_spec (compar key p) 0) as [Hlt|Hge].
  - apply IH; [done|lia|lia|]. intros i x Hi H0. specialize (Hin i x Hi H0). split; [lia|].
    destruct (Nat.lt_ge_cases i idx) as [|Hi']; [lia|]. destruct (Ho idx i p x Hi' Hp Hi) as [H1 _]. specialize (H1 Hlt). lia.
  - destruct (Z.ltb_spec 0 (compar key p)) as [Hgt0|Hle0].
    + apply IH; [done|lia|lia|]. intros i x Hi H0. specialize (Hin i x Hi H0). split; [|lia].
      destruct (Nat.lt_ge_cases idx i) as [|Hi']; [lia|]. destruct (Ho i idx x p Hi' Hi Hp) as [_ H1]. specialize (H1 Hgt0). lia.
    + exists (Some idx). split; [done|]. exists p. split; [done|lia].
Qed.
End bsearch_spec.

(** [bsearch] on an array ordered for the comparison returns: an element equal to the
    key if there is one, and [NULL] only if there is none. *)
Theorem bsearch_spec {A} (compar : A -> A -> Z) (key : A) (a : list A) :
  ordered compar key a ->
  exists r, bsearch compar key a = Some r /\
    match r with
    | Some i => exists x, a !! i = Some x /\ compar key x = 0
    | None => forall x, x ∈ a -> compar key x <> 0
    end.
Proof.
  intros Ho. apply bsearch_loop_spec; [done|lia|lia|]. intros i x Hi _. apply lookup_lt_Some in Hi. lia.
Qed.

(** [qsort] keeps the pivot as a place of the array, whose element changes when it is
    swapped: this array of four does not end up sorted. *)
Example qsort_not_sorted : qsort Z.sub 10 [3; 2; 0; 1] = Some [0; 2; 1; 3].
Proof. vm_compute. reflexivity. Qed.

(** ** Witnesses *)

(** The string "2024" at 100. *)
Definition demo_str : mem := wr8 (wr8 (wr8 (wr8 ∅ 100 50) 101 48) 102 50) 103 52.

Lemma strcpy_spec_witness :
  exists m', strcpy 10 demo_str 200 100 = Some m' /\ strlen 10 m' 200 = Some 4.
Proof.
  destruct (strcpy_spec demo_str 200 100 [50; 48; 50; 52] 10) as (m' & He & _ & Hl & _).
  - vm_compute. repeat split; congruence.
  - simpl. lia.
  - simpl. lia.
  - exists m'. split; [exact He|exact Hl].
Defined.

Lemma strcmp_spec_witness : strcmp 10 demo_str 100 102 = Some (-4).
Proof.
  destruct (strcmp_spec demo_str 100 102 [50; 48; 50; 52] [50; 52] 10) as [H _];
    [vm_compute; repeat split; congruence..|simpl; lia|]. rewrite H. vm_compute. reflexivity.
Defined.

Lemma strtoul_decimal_witness : strtoul 10 demo_str 100 10 = Some (2024, 104, false).
Proof.
  rewrite (strtoul_decimal demo_str 100 [2; 0; 2; 4] 10); [vm_compute; reflexivity| |discriminate|simpl; lia].
  vm_compute. repeat split; congruence.
Defined.

Lemma bsearch_spec_witness : exists r, bsearch Z.sub 7 [1; 3; 7; 9] = Some r /\ r = Some 2%nat.
Proof.
  destruct (bsearch_spec Z.sub 7 [1; 3; 7; 9]) as (r & He & _).
  - intros i j x y Hij Hi Hj. do 4 (destruct i as [|i]; [do 4 (destruct j as [|j]; [simplify_eq/=; lia|]); done|]). done.
  - exists r. split; [exact He|]. vm_compute in He. injection He as <-. reflexivity.
Defined.
