(* ===== verification/Pmm.v ===== *)
(** * The physical page allocator of kernel/core/memory.c

    The allocator keeps one bit per page in a bitmap that lives at the start of
    the region it manages.  The bitmap, the pages it hands out and, later, the
    page tables and program images are all bytes of the one memory [ram]. *)

From S2P Require Import Prelude Mem.

Record phys := Phys {
  ram : mem;
  pmm_bitmap : Z;     (* address of the bitmap, 0 before pmm_init_region *)
  pmm_base : Z;       (* address of page 0 *)
  pmm_total : Z;
  pmm_cursor : Z }.

Definition set_ram (m : mem) (st : phys) : phys :=
  Phys m (pmm_bitmap st) (pmm_base st) (pmm_total st) (pmm_cursor st).
Definition set_cursor (c : Z) (st : phys) : phys :=
  Phys (ram st) (pmm_bitmap st) (pmm_base st) (pmm_total st) c.

Definition PMM_PAGE_SIZE : Z := 4096.
Definition page_size : nat := Z.to_nat PMM_PAGE_SIZE.
#[global] Arguments page_size : simpl never.
#[global] Arguments memset : simpl never.
#[global] Arguments memcpy : simpl never.

Definition pmm_init_region (base size : Z) (st : phys) : phys :=
  if nz (pmm_bitmap st) then st else
  let b := Z.land (u64 (base + PMM_PAGE_SIZE - 1)) (mask64 12) in
  let e := Z.land (u64 (base + size)) (mask64 12) in
  if e <=? b then st else
  let pages := (e - b) / PMM_PAGE_SIZE in
  let bitmap_bytes := (pages + 7) / 8 in
  let bitmap_pages := (bitmap_bytes + PMM_PAGE_SIZE - 1) / PMM_PAGE_SIZE in
  if pages <=? bitmap_pages + 1 then st else
  Phys (memset (ram st) b 0 (Z.to_nat (bitmap_pages * PMM_PAGE_SIZE)))
       b (b + bitmap_pages * PMM_PAGE_SIZE) (pages - bitmap_pages) 0.

(** [pmm_bitmap[idx / 8]] and the bit [1 << (idx % 8)] *)
Definition bitmap_byte (st : phys) (idx : Z) : Z := pmm_bitmap st + idx / 8.
Definition bitmap_bit (idx : Z) : Z := u8 (Z.shiftl 1 (idx mod 8)).

(** The search loop: [n] iterations are left, [i] is the loop counter. *)
Fixpoint pmm_scan (st : phys) (n : nat) (i : Z) : option Z :=
  match n with
  | O => None
  | S n =>
      let idx := u64 (pmm_cursor st + i) mod pmm_total st in
      if Z.land (rd8 (ram st) (bitmap_byte st idx)) (bitmap_bit idx) =? 0
      then Some idx else pmm_scan st n (i + 1)
  end.

Definition pmm_alloc_page (st : phys) : Z * phys :=
  if pmm_bitmap st =? 0 then (0, st) else
  match pmm_scan st (Z.to_nat (pmm_total st)) 0 with
  | None => (0, st)
  | Some idx =>
      let a := bitmap_byte st idx in
      let m := wr8 (ram st) a (Z.lor (rd8 (ram st) a) (bitmap_bit idx)) in
      let st := set_cursor ((idx + 1) mod pmm_total st) (set_ram m st) in
      let p := u64 (pmm_base st + idx * PMM_PAGE_SIZE) in
      (p, if nz p then set_ram (memset (ram st) p 0 page_size) st else st)
  end.

Definition pmm_free_page (ptr : Z) (st : phys) : phys :=
  if (pmm_bitmap st =? 0) || (ptr =? 0) then st else
  if pmm_base st <=? ptr then
    let idx := (ptr - pmm_base st) / PMM_PAGE_SIZE in
    if idx <? pmm_total st then
      let a := bitmap_byte st idx in
      set_ram (wr8 (ram st) a (Z.land (rd8 (ram st) a) (u8 (Z.lnot (bitmap_bit idx))))) st
    else st
  else st.

(** ** Specification: the set of pages in use *)

Definition page_addr (st : phys) (idx : Z) : Z := pmm_base st + idx * PMM_PAGE_SIZE.

Definition used (st : phys) (idx : Z) : bool :=
  Z.testbit (rd8 (ram st) (bitmap_byte st idx)) (idx mod 8).

Definition is_page (st : phys) (idx : Z) : Prop := 0 <= idx < pmm_total st.

(** The bitmap lies below the pages, the pages are aligned and fit the address
    space, the cursor is a page index. *)
Record pmm_inv (st : phys) : Prop := {
  inv_bitmap : 0 < pmm_bitmap st;
  inv_below : pmm_bitmap st + (pmm_total st + 7) / 8 <= pmm_base st;
  inv_align : pmm_base st mod PMM_PAGE_SIZE = 0;
  inv_fits : pmm_base st + pmm_total st * PMM_PAGE_SIZE <= 2 ^ 64;
  inv_cursor : 0 <= pmm_cursor st < pmm_total st }.

(** Two states differ only inside the range [lo, hi). *)
Definition same_outside (m m' : mem) (lo hi : Z) : Prop :=
  forall x, x < lo \/ hi <= x -> rd8 m' x = rd8 m x.

(** ** Bit lemmas *)

Lemma bitmap_bit_pow idx : bitmap_bit idx = 2 ^ (idx mod 8).
Proof.
  unfold bitmap_bit. rewrite Z.shiftl_1_l. apply u8_small.
  pose proof (Z.mod_pos_bound idx 8 ltac:(lia)). split; [apply Z.pow_nonneg; lia|].
  change 256 with (2 ^ 8). apply Z.pow_lt_mono_r; lia.
Qed.

Lemma land_pow2 x k : 0 <= k -> (Z.land x (2 ^ k) =? 0) = negb (Z.testbit x k).
Proof.
  intros Hk. destruct (Z.testbit x k) eqn:E; simpl.
  - apply Z.eqb_neq. intros H. apply (f_equal (fun z => Z.testbit z k)) in H.
    rewrite Z.land_spec, E, Z.pow2_bits_true, Z.bits_0 in H by lia. done.
  - apply Z.eqb_eq, Z.bits_inj'. intros n Hn. rewrite Z.land_spec, Z.bits_0.
    destruct (Z.eq_dec n k) as [->|Hne]; [by rewrite E|].
    rewrite Z.pow2_bits_false by lia. apply andb_false_r.
Qed.

Lemma u8_testbit x k : 0 <= k < 8 -> Z.testbit (u8 x) k = Z.testbit x k.
Proof. intros. unfold u8. apply Z.mod_pow2_bits_low. lia. Qed.

Lemma lor_pow2_testbit x k j : 0 <= k -> 0 <= j < 8 ->
  Z.testbit (u8 (Z.lor x (2 ^ k))) j = Z.testbit x j || (k =? j).
Proof.
  intros Hk Hj. rewrite u8_testbit, Z.lor_spec by lia.
  destruct (Z.eqb_spec k j) as [->|]; [rewrite Z.pow2_bits_true by lia|rewrite Z.pow2_bits_false by lia]; done.
Qed.

Lemma ldiff_pow2_testbit x k j : 0 <= k < 8 -> 0 <= j < 8 ->
  Z.testbit (u8 (Z.land x (u8 (Z.lnot (2 ^ k))))) j = Z.testbit x j && negb (k =? j).
Proof.
  intros Hk Hj. rewrite u8_testbit, Z.land_spec, u8_testbit, Z.lnot_spec by lia.
  destruct (Z.eqb_spec k j) as [->|]; [rewrite Z.pow2_bits_true by lia|rewrite Z.pow2_bits_false by lia]; done.
Qed.

(** Distinct pages have distinct (byte, bit) positions. *)
Lemma bit_pos_inj i j : i / 8 = j / 8 -> i mod 8 = j mod 8 -> i = j.
Proof. intros. rewrite (Z.div_mod i 8), (Z.div_mod j 8) by lia. lia. Qed.

(** Setting or clearing the bit of page [idx] changes [used] at [idx] only. *)
Lemma used_update st st' idx v :
  pmm_bitmap st' = pmm_bitmap st ->
  (forall j, 0 <= j < 8 ->
     Z.testbit (rd8 (ram st') (bitmap_byte st idx)) j =
     if idx mod 8 =? j then v else Z.testbit (rd8 (ram st) (bitmap_byte st idx)) j) ->
  forall j, (j / 8 <> idx / 8 -> rd8 (ram st') (bitmap_byte st j) = rd8 (ram st) (bitmap_byte st j)) ->
  used st' j = if idx =? j then v else used st j.
Proof.
  intros Hb Hbit j Hother. unfold used, bitmap_byte in *. rewrite Hb.
  pose proof (Z.mod_pos_bound j 8 ltac:(lia)).
  destruct (Z.eq_dec (j / 8) (idx / 8)) as [He|Hne].
  - rewrite He, Hbit by lia. destruct (Z.eqb_spec (idx mod 8) (j mod 8)) as [Hm|Hm].
    + rewrite (bit_pos_inj idx j) by lia. by rewrite Z.eqb_refl.
    + destruct (Z.eqb_spec idx j) as [->|]; [lia|]. done.
  - rewrite Hother by done. destruct (Z.eqb_spec idx j) as [->|]; [lia|done].
Qed.

(** ** The search loop *)

Lemma idx_bounds st idx :
  pmm_inv st -> is_page st idx ->
  pmm_bitmap st <= bitmap_byte st idx < pmm_bitmap st + (pmm_total st + 7) / 8 /\
  pmm_base st <= page_addr st idx /\ page_addr st idx + PMM_PAGE_SIZE <= 2 ^ 64.
Proof.
  intros [Hb Hbelow Hal Hfit Hcur] [Hlo Hhi]. unfold bitmap_byte, page_addr, PMM_PAGE_SIZE in *.
  assert (0 <= idx / 8 < (pmm_total st + 7) / 8) by dlia. lia.
Qed.

Lemma scan_index st i :
  pmm_inv st -> 0 <= i < pmm_total st ->
  u64 (pmm_cursor st + i) = pmm_cursor st + i /\
  is_page st ((pmm_cursor st + i) mod pmm_total st).
Proof.
  intros [Hb Hbelow _ Hfit Hcur] Hi. unfold PMM_PAGE_SIZE, is_page in *. split.
  - apply u64_small. assert (0 <= (pmm_total st + 7) / 8) by (apply Z.div_pos; lia). lia.
  - apply Z.mod_pos_bound. lia.
Qed.

Lemma scan_test st idx :
  (Z.land (rd8 (ram st) (bitmap_byte st idx)) (bitmap_bit idx) =? 0) = negb (used st idx).
Proof. rewrite bitmap_bit_pow. apply land_pow2. apply Z.mod_pos_bound. lia. Qed.

Lemma pmm_scan_spec st n : forall i,
  pmm_inv st -> 0 <= i -> i + Z.of_nat n <= pmm_total st ->
  match pmm_scan st n i with
  | Some idx => is_page st idx /\ used st idx = false
  | None => forall k, i <= k < i + Z.of_nat n ->
              used st ((pmm_cursor st + k) mod pmm_total st) = true
  end.
Proof.
  induction n as [|n IH]; intros i Hinv Hi Hn; cbn [pmm_scan]; [lia|].
  destruct (scan_index st i Hinv ltac:(lia)) as [-> Hp]. rewrite scan_test.
  destruct (used st _) eqn:Eu; simpl; [|done].
  specialize (IH (i + 1) Hinv ltac:(lia) ltac:(lia)).
  destruct (pmm_scan st n (i + 1)); [done|]. intros k Hk.
  destruct (Z.eq_dec k i) as [->|]; [done|]. apply IH. lia.
Qed.

Lemma scan_covers st idx :
  pmm_inv st -> is_page st idx ->
  exists k, 0 <= k < pmm_total st /\ (pmm_cursor st + k) mod pmm_total st = idx.
Proof.
  intros Hinv [Hlo Hhi]. pose proof (inv_cursor _ Hinv).
  exists ((idx - pmm_cursor st) mod pmm_total st).
  pose proof (Z.mod_pos_bound (idx - pmm_cursor st) (pmm_total st) ltac:(lia)). split; [lia|].
  rewrite Zplus_mod_idemp_r. replace (pmm_cursor st + (idx - pmm_cursor st)) with idx by lia.
  apply Z.mod_small. lia.
Qed.

(** ** What a successful allocation does *)

Record page_allocated (st : phys) (idx : Z) (st' : phys) : Prop := {
  pa_page : is_page st idx;
  pa_free : used st idx = false;
  pa_used : forall j, is_page st j -> used st' j = (idx =? j) || used st j;
  pa_zero : forall x, page_addr st idx <= x < page_addr st idx + PMM_PAGE_SIZE ->
              rd8 (ram st') x = 0;
  pa_frame : forall x, pmm_base st <= x ->
              x < page_addr st idx \/ page_addr st idx + PMM_PAGE_SIZE <= x ->
              rd8 (ram st') x = rd8 (ram st) x;
  pa_low : forall x, x < pmm_bitmap st -> rd8 (ram st') x = rd8 (ram st) x;
  pa_layout : pmm_bitmap st' = pmm_bitmap st /\ pmm_base st' = pmm_base st /\
              pmm_total st' = pmm_total st;
  pa_inv : pmm_inv st' }.

Lemma mark_page st idx :
  pmm_inv st -> is_page st idx -> used st idx = false ->
  let a := bitmap_byte st idx in
  let m := wr8 (ram st) a (Z.lor (rd8 (ram st) a) (bitmap_bit idx)) in
  page_allocated st idx
    (set_ram (memset m (page_addr st idx) 0 page_size)
       (set_cursor ((idx + 1) mod pmm_total st) st)).
Proof.
  intros Hinv Hp Hfree a m. destruct (idx_bounds st idx Hinv Hp) as (Ha & Hbase & Hend).
  pose proof Hinv as [Hb Hbelow Hal Hfit Hcur]. pose proof (Z.mod_pos_bound idx 8 ltac:(lia)).
  assert (Hps : Z.of_nat page_size = PMM_PAGE_SIZE) by done.
  split; [exact Hp|exact Hfree| | | | |by repeat split|]; cbn [ram set_ram].
  - intros j Hj. destruct (idx_bounds st j Hinv Hj) as (Haj & _ & _).
    rewrite (used_update st _ idx true).
    + by destruct (idx =? j).
    + done.
    + intros k Hk. simpl. rewrite rd8_memset_out by lia. unfold m, a.
      rewrite rd8_wr8, Z.eqb_refl, bitmap_bit_pow, lor_pow2_testbit by lia.
      destruct (_ =? _); [apply orb_true_r|apply orb_false_r].
    + intros Hne. simpl. rewrite rd8_memset_out by lia. unfold m, a, bitmap_byte.
      rewrite rd8_wr8. by rewrite (proj2 (Z.eqb_neq _ _)) by lia.
  - intros x Hx. by rewrite rd8_memset_in by lia.
  - intros x Hx Hout. rewrite rd8_memset_out by lia. unfold m.
    rewrite rd8_wr8, (proj2 (Z.eqb_neq _ _)) by (unfold a; lia). done.
  - intros x Hx. rewrite rd8_memset_out by lia. unfold m.
    rewrite rd8_wr8, (proj2 (Z.eqb_neq _ _)) by (unfold a; lia). done.
  - split; simpl; auto. apply Z.mod_pos_bound. lia.
Qed.

Lemma pmm_alloc_cases st p st' :
  pmm_inv st -> pmm_alloc_page st = (p, st') ->
  (p = 0 /\ st' = st /\ forall idx, is_page st idx -> used st idx = true) \/
  (exists idx, p = page_addr st idx /\ p <> 0 /\ page_allocated st idx st').
Proof.
  intros Hinv Ha. pose proof Hinv as [Hb Hbelow _ _ Hcur]. unfold pmm_alloc_page in Ha.
  rewrite (proj2 (Z.eqb_neq _ 0)) in Ha by lia.
  pose proof (pmm_scan_spec st (Z.to_nat (pmm_total st)) 0 Hinv ltac:(lia) ltac:(lia)) as Hs.
  destruct (pmm_scan st _ 0) as [idx|].
  - destruct Hs as [Hp Hf]. right. exists idx. destruct (idx_bounds st idx Hinv Hp) as (Hbb & Hbase & Hend).
    assert (0 <= (pmm_total st + 7) / 8) by (apply Z.div_pos; lia).
    simpl in Ha. change (pmm_base st + idx * PMM_PAGE_SIZE) with (page_addr st idx) in Ha.
    rewrite u64_small, (proj2 (nz_true _)) in Ha by (unfold PMM_PAGE_SIZE in *; lia).
    injection Ha as <- <-. split; [done|]. split; [lia|]. exact (mark_page st idx Hinv Hp Hf).
  - left. injection Ha as <- <-. split; [done|]. split; [done|]. intros idx Hp.
    destruct (scan_covers st idx Hinv Hp) as (k & Hk & <-). apply Hs. lia.
Qed.

Lemma pmm_free_page_used st idx :
  pmm_inv st -> is_page st idx ->
  let st' := pmm_free_page (page_addr st idx) st in
  (forall j, is_page st j -> used st' j = negb (idx =? j) && used st j) /\
  (forall x, x < pmm_bitmap st \/ pmm_base st <= x -> rd8 (ram st') x = rd8 (ram st) x) /\
  pmm_bitmap st' = pmm_bitmap st /\ pmm_base st' = pmm_base st /\ pmm_total st' = pmm_total st /\
  pmm_inv st'.
Proof.
  intros Hinv Hp. destruct (idx_bounds st idx Hinv Hp) as (Ha & Hbase & Hend).
  pose proof Hinv as [Hb Hbelow Hal Hfit Hcur]. unfold pmm_free_page.
  rewrite (proj2 (Z.eqb_neq _ 0)), (proj2 (Z.eqb_neq (page_addr st idx) 0)),
    (proj2 (Z.leb_le _ _)) by lia. simpl.
  assert ((page_addr st idx - pmm_base st) / PMM_PAGE_SIZE = idx) as ->.
  { unfold page_addr, PMM_PAGE_SIZE. replace (_ - _) with (idx * 4096) by lia. by apply Z.div_mul. }
  rewrite (proj2 (Z.ltb_lt _ _)) by apply Hp. simpl. pose proof (Z.mod_pos_bound idx 8 ltac:(lia)).
  split_and!; auto.
  - intros j Hj. destruct (idx_bounds st j Hinv Hj) as (Haj & _ & _).
    rewrite (used_update st _ idx false); simpl; auto.
    + by destruct (idx =? j).
    + intros k Hk. rewrite rd8_wr8, Z.eqb_refl, bitmap_bit_pow, ldiff_pow2_testbit by lia.
      destruct (_ =? _); [apply andb_false_r|apply andb_true_r].
    + intros Hne. unfold bitmap_byte. rewrite rd8_wr8. by rewrite (proj2 (Z.eqb_neq _ _)) by lia.
  - intros x Hx. rewrite rd8_wr8, (proj2 (Z.eqb_neq _ _)) by lia. done.
  - split; simpl; auto.
Qed.

(** ** Properties *)

(** C15. [pmm_alloc_page] on a well-formed allocator either returns [NULL], and
    then every page is in use and nothing changed, or returns the address of a
    page that was free: the page is now in use and filled with zeroes, every other
    page keeps its status and its content, and the allocator stays well formed. *)
Theorem pmm_alloc_page_spec st p st' :
  pmm_inv st -> pmm_alloc_page st = (p, st') ->
  (p = 0 /\ st' = st /\ forall idx, is_page st idx -> used st idx = true) \/
  (exists idx, p = page_addr st idx /\ p <> 0 /\ page_allocated st idx st').
Proof. apply pmm_alloc_cases. Qed.

(** [pmm_free_page] of a page makes exactly that page free again and leaves the
    contents of all pages alone; with [pmm_alloc_page] it is a round trip: freeing
    the page just allocated restores the status of every page. *)
Theorem pmm_free_page_roundtrip st p st' :
  pmm_inv st -> pmm_alloc_page st = (p, st') -> p <> 0 ->
  pmm_inv (pmm_free_page p st') /\
  (forall j, is_page st j -> used (pmm_free_page p st') j = used st j) /\
  (forall x, pmm_base st <= x -> rd8 (ram (pmm_free_page p st')) x = rd8 (ram st') x).
Proof.
  intros Hinv Ha Hp. destruct (pmm_alloc_cases st p st' Hinv Ha) as [(? & _)|(idx & -> & _ & Hal)]; [done|].
  destruct Hal as [Hpage Hfree Hused _ _ _ (Hb & Hbase & Htot) Hinv'].
  assert (Hpa : page_addr st idx = page_addr st' idx) by (unfold page_addr; by rewrite Hbase).
  assert (Hpg : forall j, is_page st j -> is_page st' j) by (unfold is_page; by rewrite Htot).
  rewrite Hpa. destruct (pmm_free_page_used st' idx Hinv' (Hpg _ Hpage)) as (Hu & Hm & _ & _ & _ & Hi).
  split; [done|]. split.
  - intros j Hj. rewrite Hu, Hused by auto. destruct (Z.eqb_spec idx j) as [->|]; simpl; [by rewrite Hfree|done].
  - intros x Hx. apply Hm. rewrite Hbase. lia.
Qed.

(** [pmm_init_region] on a region that is large enough establishes the
    invariant with every page free, and the bitmap and the pages together lie
    inside the region. *)
Theorem pmm_init_region_establishes base size st :
  pmm_bitmap st = 0 -> 0 < base -> 0 <= size -> base + size + 4096 < 2 ^ 64 -> 5 * 4096 <= size ->
  let st' := pmm_init_region base size st in
  pmm_inv st' /\ (forall idx, is_page st' idx -> used st' idx = false) /\
  base <= pmm_bitmap st' /\ pmm_base st' + pmm_total st' * PMM_PAGE_SIZE <= base + size.
Proof.
  intros Hb Hbase Hsize Hw Hmin. unfold pmm_init_region. rewrite (proj2 (nz_false _)) by done.
  unfold PMM_PAGE_SIZE. rewrite !u64_small, !land_mask64 by lia. change (2 ^ 12) with 4096.
  set (b := base + 4096 - 1 - (base + 4096 - 1) mod 4096).
  set (e := base + size - (base + size) mod 4096).
  assert (Hbr : base <= b < base + 4096 /\ b mod 4096 = 0) by (unfold b; dlia).
  assert (Her : base + size - 4096 < e <= base + size /\ e mod 4096 = 0) by (unfold e; dlia).
  clearbody b e. rewrite (proj2 (Z.leb_gt _ _)) by lia.
  set (pages := (e - b) / 4096). assert (Hpages : (e - b) = 4096 * pages) by (unfold pages; dlia).
  clearbody pages. set (bb := (pages + 7) / 8).
  assert (Hbb : pages <= 8 * bb < pages + 8) by (unfold bb; dlia). clearbody bb.
  set (bp := (bb + 4096 - 1) / 4096).
  assert (Hbp : bb <= 4096 * bp < bb + 4096) by (unfold bp; dlia). clearbody bp.
  rewrite (proj2 (Z.leb_gt _ _)) by lia. simpl.
  assert (Hin : (pages - bp + 7) / 8 <= bp * 4096) by dlia.
  split; [split; simpl; unfold PMM_PAGE_SIZE; try lia|].
  - dlia.
  - split; [|lia]. intros idx [Hlo Hhi]. simpl in Hhi. unfold used, bitmap_byte. simpl.
    rewrite rd8_memset_in by dlia. apply Z.bits_0.
Qed.

(** ** Witnesses: four pages at 8192, their bitmap at 4096 *)

Definition demo_phys : phys := Phys ∅ 4096 8192 4 0.

Lemma demo_phys_inv : pmm_inv demo_phys.
Proof. split; vm_compute; auto; try split; congruence. Qed.

Lemma pmm_alloc_page_spec_witness :
  exists idx, fst (pmm_alloc_page demo_phys) = page_addr demo_phys idx /\
    page_allocated demo_phys idx (snd (pmm_alloc_page demo_phys)).
Proof.
  destruct (pmm_alloc_page_spec demo_phys (fst (pmm_alloc_page demo_phys))
              (snd (pmm_alloc_page demo_phys)) demo_phys_inv) as [(H & _)|(idx & Hp & _ & Ha)].
  - symmetry. apply surjective_pairing.
  - vm_compute in H. discriminate H.
  - exists idx. split; [exact Hp|exact Ha].
Defined.

Lemma pmm_free_page_roundtrip_witness :
  used (pmm_free_page 8192 (snd (pmm_alloc_page demo_phys))) 0 = used demo_phys 0.
Proof.
  destruct (pmm_free_page_roundtrip demo_phys 8192 (snd (pmm_alloc_page demo_phys)) demo_phys_inv)
    as (_ & Hu & _).
  - rewrite (surjective_pairing (pmm_alloc_page demo_phys)). cbn [snd]. apply f_equal2; [|reflexivity].
    vm_compute. reflexivity.
  - lia.
  - apply Hu. split; vm_compute; congruence.
Defined.

Lemma pmm_init_region_establishes_witness :
  pmm_inv (pmm_init_region 4096 32768 (Phys ∅ 0 0 0 0)).
Proof.
  destruct (pmm_init_region_establishes 4096 32768 (Phys ∅ 0 0 0 0)) as (H & _);
    [reflexivity|lia|lia|lia|lia|exact H].
Defined.
