(* ===== verification/Paging.v ===== *)
(** * Four-level page tables: kernel/arch/x86_64/paging.c

    The tables are 4096-byte pages of 512 little-endian 64-bit entries in the
    memory [ram]; the tables of processes come from the physical page allocator,
    those of the kernel from a fixed pool.  [translate] is the page walk of the
    processor, the specification against which the mapping functions are proved.

    [invlpg] and the loads of cr3 have no counterpart: they change the processor's
    caches, not the tables. *)

From S2P Require Import Prelude Mem Pmm.

(** ** Constants and entries *)

Definition PAGE_PRESENT : Z := 1.
Definition PAGE_WRITABLE : Z := 2.
Definition PAGE_USER : Z := 4.
Definition PAGE_HUGE : Z := 128.

Definition PML4_ADDR : Z := 4096.
Definition PD_ADDR : Z := 12288.
Definition PAGE_TABLE_POOL_SIZE : Z := 64.
Definition PAGE_TABLE_POOL_ADDR : Z := 24576.
Definition pool_end : Z := PAGE_TABLE_POOL_ADDR + PAGE_TABLE_POOL_SIZE * 4096.

Definition pml4_idx (virt : Z) : Z := Z.land (Z.shiftr virt 39) 511.
Definition pdpt_idx (virt : Z) : Z := Z.land (Z.shiftr virt 30) 511.
Definition pd_idx (virt : Z) : Z := Z.land (Z.shiftr virt 21) 511.
Definition pt_idx (virt : Z) : Z := Z.land (Z.shiftr virt 12) 511.

(** The address of entry [i] of the table at [t]. *)
Definition slot (t i : Z) : Z := t + 8 * i.

Definition present (e : Z) : bool := negb (Z.land e PAGE_PRESENT =? 0).
Definition huge (e : Z) : bool := negb (Z.land e PAGE_HUGE =? 0).
Definition table_of (e : Z) : Z := Z.land e (mask64 12).

(** ** Mapping a page in a process *)

(** The step repeated at each level: use the table the entry points to, or
    allocate, clear and install a new one.  [None] is the [return -1]. *)
Definition get_table (a : Z) (st : phys) : option Z * phys :=
  if Z.land (rd64 (ram st) a) PAGE_PRESENT =? 0 then
    let '(new_tbl, st) := pmm_alloc_page st in
    if new_tbl =? 0 then (None, st) else
    let m := memset (ram st) new_tbl 0 page_size in
    let m := wr64 m a (Z.lor (Z.lor (Z.lor new_tbl PAGE_PRESENT) PAGE_WRITABLE) PAGE_USER) in
    (Some (table_of (rd64 m a)), set_ram m st)
  else (Some (table_of (rd64 (ram st) a)), st).

(** [for (i = 0; i < 512; i++) new_pt[i] = (huge_phys + i * 4096) | huge_flags] *)
Fixpoint fill_split (m : mem) (new_pt huge_phys huge_flags : Z) (n : nat) : mem :=
  match n with
  | O => m
  | S n =>
      let i := Z.of_nat n in
      wr64 (fill_split m new_pt huge_phys huge_flags n) (slot new_pt i)
        (Z.lor (u64 (huge_phys + i * 4096)) huge_flags)
  end.

(** Replace a present 2 MiB entry by a table of 512 pages that map the same
    range; [false] is the [return -1] of a failed allocation. *)
Definition split_huge (a : Z) (st : phys) : bool * phys :=
  let e := rd64 (ram st) a in
  if present e && huge e then
    let huge_phys := Z.land e (mask64 21) in
    let huge_flags := Z.land e 4095 in
    let '(new_pt, st) := pmm_alloc_page st in
    if new_pt =? 0 then (false, st) else
    let m := fill_split (ram st) new_pt huge_phys huge_flags 512 in
    (true, set_ram (wr64 m a (Z.lor (Z.lor (Z.lor new_pt PAGE_PRESENT) PAGE_WRITABLE)
                                    (Z.land huge_flags PAGE_USER))) st)
  else (true, st).

Definition paging_map_for_process (pml4_ptr phys_addr virt flags : Z) (st : phys) : Z * phys :=
  match get_table (slot pml4_ptr (pml4_idx virt)) st with
  | (None, st) => (-1, st)
  | (Some pdpt, st) =>
      match get_table (slot pdpt (pdpt_idx virt)) st with
      | (None, st) => (-1, st)
      | (Some pd, st) =>
          let a := slot pd (pd_idx virt) in
          if negb (Z.land flags PAGE_HUGE =? 0) then
            let e := rd64 (ram st) a in
            if present e && negb (huge e) then (-1, st) else
            (0, set_ram (wr64 (ram st) a (Z.lor (Z.land phys_addr (mask64 21)) flags)) st)
          else
            match split_huge a st with
            | (false, st) => (-1, st)
            | (true, st) =>
                match get_table a st with
                | (None, st) => (-1, st)
                | (Some pt, st) =>
                    (0, set_ram (wr64 (ram st) (slot pt (pt_idx virt))
                                   (Z.lor (Z.land phys_addr (mask64 12)) flags)) st)
                end
            end
      end
  end.

Definition paging_unmap_for_process (pml4_ptr virt : Z) (st : phys) : Z * phys :=
  let e4 := rd64 (ram st) (slot pml4_ptr (pml4_idx virt)) in
  if Z.land e4 PAGE_PRESENT =? 0 then (-1, st) else
  let e3 := rd64 (ram st) (slot (table_of e4) (pdpt_idx virt)) in
  if Z.land e3 PAGE_PRESENT =? 0 then (-1, st) else
  let a := slot (table_of e3) (pd_idx virt) in
  let e2 := rd64 (ram st) a in
  if Z.land e2 PAGE_PRESENT =? 0 then (-1, st) else
  if negb (Z.land e2 PAGE_HUGE =? 0) then (0, set_ram (wr64 (ram st) a 0) st)
  else (0, set_ram (wr64 (ram st) (slot (table_of e2) (pt_idx virt)) 0) st).

(** ** Kernel tables and address spaces *)

Record paging := Paging {
  ph : phys;
  next_free_table : Z;
  mmio : list (Z * Z);     (* mmio_base[i], mmio_len[i] for i < mmio_count *)
}.

Definition set_ph (p : phys) (k : paging) : paging := Paging p (next_free_table k) (mmio k).

(** [alloc_page_table]: 0 is [NULL]. *)
Definition alloc_page_table (k : paging) : Z * paging :=
  if pool_end <=? next_free_table k then (0, k) else
  let addr := next_free_table k in
  (addr, Paging (set_ram (memset (ram (ph k)) addr 0 page_size) (ph k)) (u64 (addr + 4096)) (mmio k)).

(** [text_start] and [text_end] are the linker's symbols. *)
Fixpoint identity_entries (m : mem) (pt text_start text_end : Z) (n : nat) : mem :=
  match n with
  | O => m
  | S n =>
      let m := identity_entries m pt text_start text_end n in
      let p := Z.of_nat n * 4096 in
      let flags := if (text_start <=? p) && (p <? text_end) then PAGE_PRESENT
                   else Z.lor PAGE_PRESENT PAGE_WRITABLE in
      wr64 m (slot pt (Z.of_nat n)) (Z.lor p flags)
  end.

Definition paging_init (text_start text_end : Z) (k : paging) : Z * paging :=
  if Z.land (rd64 (ram (ph k)) PML4_ADDR) PAGE_PRESENT =? 0 then (-1, k) else
  let '(pt, k) := alloc_page_table k in
  if pt =? 0 then (-1, k) else
  let m := identity_entries (ram (ph k)) pt text_start text_end 512 in
  let m := wr64 m (slot PD_ADDR 0) (Z.lor (Z.lor pt PAGE_PRESENT) PAGE_WRITABLE) in
  (0, set_ph (set_ram m (ph k)) k).

Definition kernel_table (a : Z) (k : paging) : option Z * paging :=
  if Z.land (rd64 (ram (ph k)) a) PAGE_PRESENT =? 0 then
    let '(new_tbl, k) := alloc_page_table k in
    if new_tbl =? 0 then (None, k) else
    let m := wr64 (ram (ph k)) a (Z.lor (Z.lor new_tbl PAGE_PRESENT) PAGE_WRITABLE) in
    (Some (table_of (rd64 m a)), set_ph (set_ram m (ph k)) k)
  else (Some (table_of (rd64 (ram (ph k)) a)), k).

Definition paging_map (phys_addr virt flags : Z) (k : paging) : Z * paging :=
  match kernel_table (slot PML4_ADDR (pml4_idx virt)) k with
  | (None, k) => (-1, k)
  | (Some pdpt, k) =>
      match kernel_table (slot pdpt (pdpt_idx virt)) k with
      | (None, k) => (-1, k)
      | (Some pd, k) =>
          let a := slot pd (pd_idx virt) in
          if negb (Z.land flags PAGE_HUGE =? 0) then
            (0, set_ph (set_ram (wr64 (ram (ph k)) a (Z.lor (Z.land phys_addr (mask64 21)) flags)) (ph k)) k)
          else
            match kernel_table a k with
            | (None, k) => (-1, k)
            | (Some pt, k) =>
                (0, set_ph (set_ram (wr64 (ram (ph k)) (slot pt (pt_idx virt))
                                       (Z.lor (Z.land phys_addr (mask64 12)) flags)) (ph k)) k)
            end
      end
  end.

Definition MMIO_MAX_REGIONS : Z := 16.

Definition mmio_register (base len : Z) (k : paging) : paging :=
  if MMIO_MAX_REGIONS <=? Z.of_nat (length (mmio k)) then k else
  Paging (ph k) (next_free_table k)
    (mmio k ++ [(Z.land base (mask64 12), Z.land (u64 (len + 4095)) (mask64 12))]).

(** Identity-map [n] pages from [off], stopping at the first failure. *)
Fixpoint map_identity (pml4 base flags : Z) (n : nat) (off : Z) (st : phys) : phys :=
  match n with
  | O => st
  | S n =>
      match paging_map_for_process pml4 (u64 (base + off)) (u64 (base + off)) flags st with
      | (0, st) => map_identity pml4 base flags n (off + 4096) st
      | (_, st) => st
      end
  end.

(** [for (off = 0; off < size; off += 4096)] runs this many times. *)
Definition page_count (size : Z) : nat := Z.to_nat ((size + 4095) / 4096).

Fixpoint copy_entries (m : mem) (dst src : Z) (i : Z) (n : nat) : mem :=
  match n with
  | O => m
  | S n => copy_entries (wr64 m (slot dst i) (rd64 m (slot src i))) dst src (i + 1) n
  end.

(** [fb_phys] and [fb_size] are the results of [drm_fb_phys] and [drm_fb_size]. *)
Definition create_address_space (fb_phys fb_size : Z) (k : paging) : Z * paging :=
  let '(new_pml4, st) := pmm_alloc_page (ph k) in
  if new_pml4 =? 0 then (0, set_ph st k) else
  let st := set_ram (copy_entries (ram st) new_pml4 PML4_ADDR 256 256) st in
  let '(pdpt, st) := pmm_alloc_page st in
  if pdpt =? 0 then (0, set_ph (pmm_free_page new_pml4 st) k) else
  let m := wr64 (ram st) (slot new_pml4 0)
             (Z.lor (Z.lor (Z.lor pdpt PAGE_PRESENT) PAGE_WRITABLE) PAGE_USER) in
  let kernel_pdpt := table_of (rd64 m (slot PML4_ADDR 0)) in
  let m := wr64 m (slot pdpt 0) (rd64 m (slot kernel_pdpt 0)) in
  let st := set_ram m st in
  let st := map_identity new_pml4 fb_phys
              (Z.lor (Z.lor PAGE_PRESENT PAGE_WRITABLE) PAGE_USER) (page_count fb_size) 0 st in
  let st := foldl (fun st r => map_identity new_pml4 r.1 (Z.lor PAGE_PRESENT PAGE_WRITABLE)
                                 (page_count r.2) 0 st) st (mmio k) in
  (new_pml4, set_ph st k).

(** The entries of the kernel's mappings, which [copy] and [free] skip. *)
Definition skipped (i j : Z) : bool := (i =? 0) && ((j =? 0) || (j =? 3)).

(** [free_address_space]: the loop bodies, from the inside out. *)
Definition free_pt (pt : Z) (st : phys) : phys :=
  pmm_free_page pt
    (foldl (fun st i =>
              let e := rd64 (ram st) (slot pt i) in
              if present e then pmm_free_page (table_of e) st else st) st (seqZ 0 512)).

Definition free_pd (pd : Z) (st : phys) : phys :=
  pmm_free_page pd
    (foldl (fun st k =>
              let e := rd64 (ram st) (slot pd k) in
              if negb (present e) then st
              else if huge e then st else free_pt (table_of e) st) st (seqZ 0 512)).

Definition free_pdpt (i pdpt : Z) (st : phys) : phys :=
  pmm_free_page pdpt
    (foldl (fun st j =>
              if skipped i j then st else
              let e := rd64 (ram st) (slot pdpt j) in
              if present e then free_pd (table_of e) st else st) st (seqZ 0 512)).

Definition free_address_space (pml4_ptr : Z) (st : phys) : phys :=
  if (pml4_ptr =? 0) || (pml4_ptr =? PML4_ADDR) then st else
  pmm_free_page pml4_ptr
    (foldl (fun st i =>
              let e := rd64 (ram st) (slot pml4_ptr i) in
              if present e then free_pdpt i (table_of e) st else st) st (seqZ 0 256)).

(** [copy_address_space]: the innermost body copies one page; [false] is the
    early [return NULL] after the new space has been freed. *)
Definition copy_page (dst i j k l e : Z) (st : phys) : bool * phys :=
  let old_phys := table_of e in
  let flags := Z.land e 4095 in
  let virt := Z.lor (Z.lor (Z.lor (Z.shiftl i 39) (Z.shiftl j 30)) (Z.shiftl k 21)) (Z.shiftl l 12) in
  let '(new_phys, st) := pmm_alloc_page st in
  if new_phys =? 0 then (false, free_address_space dst st) else
  let st := set_ram (memcpy (ram st) new_phys old_phys page_size) st in
  match paging_map_for_process dst new_phys virt flags st with
  | (0, st) => (true, st)
  | (_, st) => (false, free_address_space dst (pmm_free_page new_phys st))
  end.

(** A loop over the indices of a table that stops at the first failure. *)
Fixpoint loop_entries (f : Z -> phys -> bool * phys) (idxs : list Z) (st : phys) : bool * phys :=
  match idxs with
  | [] => (true, st)
  | i :: idxs => match f i st with
               | (true, st) => loop_entries f idxs st
               | (false, st) => (false, st)
               end
  end.

Definition copy_pt (dst i j k pt : Z) (st : phys) : bool * phys :=
  loop_entries (fun l st =>
    let e := rd64 (ram st) (slot pt l) in
    if present e then copy_page dst i j k l e st else (true, st)) (seqZ 0 512) st.

Definition copy_pd (dst i j pd : Z) (st : phys) : bool * phys :=
  loop_entries (fun k st =>
    let e := rd64 (ram st) (slot pd k) in
    if negb (present e) then (true, st)
    else if huge e then (true, st) else copy_pt dst i j k (table_of e) st) (seqZ 0 512) st.

Definition copy_pdpt (dst i pdpt : Z) (st : phys) : bool * phys :=
  loop_entries (fun j st =>
    if skipped i j then (true, st) else
    let e := rd64 (ram st) (slot pdpt j) in
    if present e then copy_pd dst i j (table_of e) st else (true, st)) (seqZ 0 512) st.

Definition copy_address_space (fb_phys fb_size src_pml4 : Z) (k : paging) : Z * paging :=
  let '(dst_pml4, k) := create_address_space fb_phys fb_size k in
  if dst_pml4 =? 0 then (0, k) else
  match loop_entries (fun i st =>
          let e := rd64 (ram st) (slot src_pml4 i) in
          if present e then copy_pdpt dst_pml4 i (table_of e) st else (true, st))
          (seqZ 0 256) (ph k) with
  | (true, st) => (dst_pml4, set_ph st k)
  | (false, st) => (0, set_ph st k)
  end.

(** * Specification: the page walk *)

(** The table reached from [t] by following the indices of [path] through
    present entries that are not 2 MiB pages. *)
Fixpoint walk_table (m : mem) (t : Z) (path : list Z) : option Z :=
  match path with
  | [] => Some t
  | i :: path =>
      let e := rd64 m (slot t i) in
      if present e && negb (huge e) then walk_table m (table_of e) path else None
  end.

(** The physical address the processor gives to [virt]. *)
Definition translate (m : mem) (pml4 virt : Z) : option Z :=
  pd ← walk_table m pml4 [pml4_idx virt; pdpt_idx virt];
  let e := rd64 m (slot pd (pd_idx virt)) in
  if negb (present e) then None
  else if huge e then Some (Z.land e (mask64 21) + virt mod 2 ^ 21)
  else
    let e := rd64 m (slot (table_of e) (pt_idx virt)) in
    if present e then Some (table_of e + virt mod 2 ^ 12) else None.

Definition is_idx (i : Z) : Prop := 0 <= i < 512.

(** A well-formed address space: the tables reachable from [pml4] are distinct
    aligned pages, none of them is a free page of the allocator or part of its
    bitmap, and the two upper levels hold no large pages. *)
Record as_inv (st : phys) (pml4 : Z) : Prop := {
  as_pmm : pmm_inv st;
  as_page : forall path t, (length path <= 3)%nat -> Forall is_idx path ->
    walk_table (ram st) pml4 path = Some t -> 0 <= t /\ t mod 4096 = 0 /\ t + 4096 <= 2 ^ 64;
  as_live : forall path t, (length path <= 3)%nat -> Forall is_idx path ->
    walk_table (ram st) pml4 path = Some t ->
    (t + 4096 <= pmm_bitmap st \/ pmm_base st <= t) /\
    forall idx, is_page st idx -> t = page_addr st idx -> used st idx = true;
  as_inj : forall path path' t, (length path <= 3)%nat -> (length path' <= 3)%nat ->
    Forall is_idx path -> Forall is_idx path' ->
    walk_table (ram st) pml4 path = Some t -> walk_table (ram st) pml4 path' = Some t -> path = path';
  as_small : forall path t i, (length path < 2)%nat -> Forall is_idx path -> is_idx i ->
    walk_table (ram st) pml4 path = Some t -> present (rd64 (ram st) (slot t i)) = true ->
    huge (rd64 (ram st) (slot t i)) = false }.

#[global] Arguments wr64 : simpl never.
#[global] Arguments rd64 : simpl never.

(** ** Bits of entries *)

Lemma present_testbit e : present e = Z.testbit e 0.
Proof. unfold present, PAGE_PRESENT. change 1 with (2 ^ 0). rewrite land_pow2 by lia. apply negb_involutive. Qed.

Lemma huge_testbit e : huge e = Z.testbit e 7.
Proof. unfold huge, PAGE_HUGE. change 128 with (2 ^ 7). rewrite land_pow2 by lia. apply negb_involutive. Qed.

Lemma not_present e : (Z.land e PAGE_PRESENT =? 0) = negb (present e).
Proof. unfold present. by rewrite negb_involutive. Qed.

Lemma aligned_testbit p n k : 0 <= k < n -> p mod 2 ^ n = 0 -> Z.testbit p k = false.
Proof. intros Hk Hp. rewrite <- (Z.mod_pow2_bits_low p n k), Hp by lia. apply Z.bits_0. Qed.

Lemma small_testbit f n k : 0 <= f < 2 ^ n -> n <= k -> Z.testbit f k = false.
Proof.
  intros Hf Hk. destruct (Z.lt_ge_cases n 0); [rewrite Z.pow_neg_r in Hf; lia|].
  rewrite <- (Z.mod_small f (2 ^ n)) by lia. apply Z.mod_pow2_bits_high. lia.
Qed.

(** An aligned address with flags in its low bits. *)
Lemma lor_flags p f n : 0 <= n -> p mod 2 ^ n = 0 -> 0 <= f < 2 ^ n -> Z.lor p f = p + f.
Proof.
  intros Hn Hp Hf. rewrite Z.add_nocarry_lxor.
  - symmetry. apply Z.lxor_lor. apply Z.bits_inj'. intros k Hk. rewrite Z.land_spec, Z.bits_0.
    destruct (Z.lt_ge_cases k n); [rewrite (aligned_testbit p n) by lia; done|].
    rewrite (small_testbit f n) by lia. apply andb_false_r.
  - apply Z.bits_inj'. intros k Hk. rewrite Z.land_spec, Z.bits_0.
    destruct (Z.lt_ge_cases k n); [rewrite (aligned_testbit p n) by lia; done|].
    rewrite (small_testbit f n) by lia. apply andb_false_r.
Qed.

Lemma table_of_flags p f :
  0 <= p -> p + 4096 <= 2 ^ 64 -> p mod 4096 = 0 -> 0 <= f < 4096 -> table_of (Z.lor p f) = p.
Proof.
  intros Hp Hm Ha Hf. rewrite (lor_flags p f 12) by (exact Ha || lia). unfold table_of.
  rewrite land_mask64 by lia. change (2 ^ 12) with 4096.
  rewrite Z.add_mod, Ha, (Z.mod_small f) by lia. rewrite Z.add_0_l, Z.mod_small by lia. lia.
Qed.

Lemma table_of_spec e : 0 <= e < 2 ^ 64 ->
  0 <= table_of e /\ table_of e mod 4096 = 0 /\ table_of e + 4096 <= 2 ^ 64.
Proof.
  intros He. unfold table_of. rewrite land_mask64 by lia. change (2 ^ 12) with 4096. dlia.
Qed.

Lemma flags_testbit p f k : 0 <= k < 12 -> p mod 4096 = 0 -> Z.testbit (Z.lor p f) k = Z.testbit f k.
Proof. intros Hk Ha. rewrite Z.lor_spec, (aligned_testbit p 12) by (exact Ha || lia). done. Qed.

Lemma entry_flags p f :
  p mod 4096 = 0 -> present (Z.lor p f) = present f /\ huge (Z.lor p f) = huge f.
Proof.
  intros Ha. rewrite !present_testbit, !huge_testbit, !flags_testbit by (done || lia). done.
Qed.

Lemma entry_pwu p :
  Z.lor (Z.lor (Z.lor p PAGE_PRESENT) PAGE_WRITABLE) PAGE_USER = Z.lor p 7.
Proof. by rewrite <- !Z.lor_assoc. Qed.

Lemma idx_range virt s : is_idx (Z.land (Z.shiftr virt s) 511).
Proof.
  unfold is_idx. change 511 with (Z.ones 9). rewrite Z.land_ones by lia.
  apply Z.mod_pos_bound. lia.
Qed.

Lemma idxs_range virt : Forall is_idx [pml4_idx virt; pdpt_idx virt; pd_idx virt; pt_idx virt].
Proof. repeat constructor; apply idx_range. Qed.

(** Slots of distinct aligned tables, or distinct slots of one table, do not
    overlap. *)
Lemma slot_disjoint t i t' i' :
  t mod 4096 = 0 -> t' mod 4096 = 0 -> is_idx i -> is_idx i' -> (t, i) <> (t', i') ->
  slot t i + 8 <= slot t' i' \/ slot t' i' + 8 <= slot t i.
Proof.
  unfold slot, is_idx. intros Ht Ht' Hi Hi' Hne.
  destruct (Z.eq_dec t t') as [->|Htt].
  - assert (i <> i') by congruence. lia.
  - assert (t + 4096 <= t' \/ t' + 4096 <= t) by dlia. lia.
Qed.

(** ** Walks *)

Lemma walk_table_app m t p q :
  walk_table m t (p ++ q) = u ← walk_table m t p; walk_table m u q.
Proof.
  revert t. induction p as [|i p IH]; intros t; simpl; [done|].
  destruct (_ && _); [apply IH|done].
Qed.

Lemma walk_table_snoc m t p i :
  walk_table m t (p ++ [i]) =
  u ← walk_table m t p;
  let e := rd64 m (slot u i) in if present e && negb (huge e) then Some (table_of e) else None.
Proof. apply walk_table_app. Qed.

(** The memories [m] and [m'] have the same entries in the tables reachable from
    [root] in [m], but for the entry at the end of the path [ex]. *)
Definition agree (m m' : mem) (root : Z) (ex : list Z) : Prop :=
  forall path t i, (length path <= 3)%nat -> Forall is_idx path -> is_idx i ->
    walk_table m root path = Some t -> path ++ [i] <> ex ->
    rd64 m' (slot t i) = rd64 m (slot t i).

Lemma walk_agree m m' root ex path :
  agree m m' root ex -> (length path <= 4)%nat -> Forall is_idx path -> ~ ex `prefix_of` path \/ ex = [] ->
  walk_table m' root path = walk_table m root path.
Proof.
  intros Ha. induction path as [|i path IH] using rev_ind; intros Hl Hf Hex; [done|].
  rewrite length_app in Hl. simpl in Hl. apply Forall_app in Hf as [Hf Hi].
  rewrite Forall_singleton in Hi.
  assert (Hex' : ~ ex `prefix_of` path \/ ex = []).
  { destruct Hex as [Hex| ->]; [left|by right]. intros Hp. apply Hex. by apply prefix_app_r. }
  rewrite !walk_table_snoc, IH by (auto; lia).
  destruct (walk_table m root path) as [t|] eqn:Et; [|done]. simpl.
  rewrite (Ha path t i); auto; [lia|].
  intros He. destruct Hex as [Hex| ->]; [by apply Hex; rewrite He|]. by destruct path.
Qed.

Definition path4 (virt : Z) : list Z := [pml4_idx virt; pdpt_idx virt; pd_idx virt; pt_idx virt].

Lemma translate_agree m m' root ex virt :
  agree m m' root ex -> ~ ex `prefix_of` path4 virt \/ ex = [] ->
  translate m' root virt = translate m root virt.
Proof.
  intros Ha Hex. unfold translate. pose proof (idxs_range virt) as Hr.
  apply Forall_cons in Hr as [H4 Hr]. apply Forall_cons in Hr as [H3 Hr].
  apply Forall_cons in Hr as [H2 Hr]. apply Forall_cons in Hr as [H1 _].
  rewrite (walk_agree m m' root ex); auto.
  2:{ destruct Hex as [Hex|]; [left|by right]. intros Hp. apply Hex. etransitivity; [exact Hp|].
      by exists [pd_idx virt; pt_idx virt]. }
  destruct (walk_table m root [pml4_idx virt; pdpt_idx virt]) as [pd|] eqn:Epd; [|done]. cbn [mbind option_bind].
  assert (Hne : forall l, l `prefix_of` path4 virt -> l <> [] -> l <> ex).
  { intros l Hl Hnil ->. destruct Hex; auto. }
  rewrite (Ha [pml4_idx virt; pdpt_idx virt] pd (pd_idx virt)); auto.
  2:{ apply Hne; [|done]. by exists [pt_idx virt]. }
  destruct (present _) eqn:Ep; simpl; [|done]. destruct (huge _) eqn:Eh; [done|].
  rewrite (Ha [pml4_idx virt; pdpt_idx virt; pd_idx virt] (table_of (rd64 m (slot pd (pd_idx virt)))) (pt_idx virt)); auto.
  - change [_; _; _] with ([pml4_idx virt; pdpt_idx virt] ++ [pd_idx virt]).
    rewrite walk_table_snoc, Epd. simpl. by rewrite Ep, Eh.
Qed.

(** ** Preservation of address spaces *)

(** [st'] has the allocator layout of [st] and at least its used pages. *)
Record grows (st st' : phys) : Prop := {
  gr_inv : pmm_inv st';
  gr_bitmap : pmm_bitmap st' = pmm_bitmap st;
  gr_base : pmm_base st' = pmm_base st;
  gr_total : pmm_total st' = pmm_total st;
  gr_used : forall idx, is_page st idx -> used st idx = true -> used st' idx = true }.

(** Bytes that are neither in a table of the address space, nor in the bitmap, nor in a
    free page. *)
Record data_byte (st : phys) (root x : Z) : Prop := {
  db_region : x < pmm_bitmap st \/ pmm_base st <= x;
  db_used : forall idx, is_page st idx -> page_addr st idx <= x < page_addr st idx + 4096 -> used st idx = true;
  db_table : forall path t, (length path <= 3)%nat -> Forall is_idx path -> walk_table (ram st) root path = Some t -> ~ t <= x < t + 4096 }.

(** They are still that, and have not changed. *)
Definition data_kept (st st' : phys) (root : Z) : Prop :=
  forall x, data_byte st root x -> data_byte st' root x /\ rd8 (ram st') x = rd8 (ram st) x.

Lemma data_kept_refl st root : data_kept st st root.
Proof. by intros x Hx. Qed.

Lemma data_kept_trans st1 st2 st3 root : data_kept st1 st2 root -> data_kept st2 st3 root -> data_kept st1 st3 root.
Proof. intros H12 H23 x Hx. destruct (H12 x Hx) as [Hx2 E2]. destruct (H23 x Hx2) as [Hx3 E3]. split; [done|congruence]. Qed.

(** A step that adds at most one table, on a page that was free. *)
Lemma data_kept_step st st' root idx :
  grows st st' -> is_page st idx -> used st idx = false ->
  (forall path t, (length path <= 3)%nat -> Forall is_idx path -> walk_table (ram st') root path = Some t ->
     walk_table (ram st) root path = Some t \/ t = page_addr st idx) ->
  (forall x, data_byte st root x -> ~ page_addr st idx <= x < page_addr st idx + 4096 -> rd8 (ram st') x = rd8 (ram st) x) ->
  data_kept st st' root.
Proof.
  intros [Hi Hb Hba Ht Hu] Hpg Hfree Hw Hm x Hx. pose proof Hx as [Hr Hus Htb].
  assert (Hout : ~ page_addr st idx <= x < page_addr st idx + 4096) by (intros Hin; by rewrite (Hus idx) in Hfree).
  split; [|by apply Hm]. split.
  - by rewrite Hb, Hba.
  - intros j. unfold is_page, page_addr. rewrite Ht, Hba. intros Hj Hxj. by apply Hu, Hus.
  - intros path t Hl Hf Hwt. destruct (Hw path t Hl Hf Hwt) as [H| ->]; [by apply (Htb path)|done].
Qed.

Lemma live_transfer st st' t :
  grows st st' ->
  (t + 4096 <= pmm_bitmap st \/ pmm_base st <= t) /\
  (forall idx, is_page st idx -> t = page_addr st idx -> used st idx = true) ->
  (t + 4096 <= pmm_bitmap st' \/ pmm_base st' <= t) /\
  (forall idx, is_page st' idx -> t = page_addr st' idx -> used st' idx = true).
Proof.
  intros [_ Hb Hba Ht Hu] [H1 H2]. unfold is_page, page_addr in *. rewrite Hb, Hba, Ht.
  split; [done|]. intros idx Hi He. apply Hu; auto.
Qed.

Lemma as_inv_agree st st' root ex :
  as_inv st root -> grows st st' -> agree (ram st) (ram st') root ex ->
  ex = [] \/ length ex = 4%nat \/
    length ex = 3%nat /\ walk_table (ram st) root ex = None /\ walk_table (ram st') root ex = None ->
  as_inv st' root.
Proof.
  intros [Hpmm Hpage Hlive Hinj Hsmall] Hg Ha Hex.
  assert (Hw : forall path, (length path <= 3)%nat -> Forall is_idx path ->
    walk_table (ram st') root path = walk_table (ram st) root path).
  { intros path Hl Hf. destruct (decide (path = ex)) as [->|Hne].
    - destruct Hex as [->|[Hex|(_ & -> & ->)]]; [done|lia|done].
    - apply (walk_agree _ _ _ ex); [done|lia|done|].
      destruct Hex as [->|Hex]; [by right|left]. intros Hp. pose proof (prefix_length _ _ Hp).
      destruct Hex as [Hex|(Hex & _)]; [lia|]. apply Hne. symmetry. apply prefix_length_eq; [done|lia]. }
  assert (Hr : forall path t i, (length path < 2)%nat -> Forall is_idx path -> is_idx i ->
    walk_table (ram st) root path = Some t -> rd64 (ram st') (slot t i) = rd64 (ram st) (slot t i)).
  { intros path t i Hl Hf Hi Ht. apply (Ha path); auto; [lia|].
    intros He. destruct Hex as [->|Hex]; [by destruct path|].
    apply (f_equal length) in He. rewrite length_app in He. simpl in He. destruct Hex as [|(? & _)]; lia. }
  split.
  - apply Hg.
  - intros path t Hl Hf. rewrite Hw by auto. by apply Hpage.
  - intros path t Hl Hf Ht. rewrite Hw in Ht by auto. apply (live_transfer st); [done|]. by apply (Hlive path).
  - intros path path' t Hl Hl' Hf Hf'. rewrite !Hw by auto. by apply Hinj.
  - intros path t i Hl Hf Hi Ht. rewrite Hw in Ht by (auto; lia). rewrite (Hr path) by auto. by apply (Hsmall path).
Qed.

(** Bytes of a reachable table are neither in a free page nor in the bitmap. *)
Lemma alloc_agree st idx st' root :
  as_inv st root -> page_allocated st idx st' -> agree (ram st) (ram st') root [].
Proof.
  intros [Hpmm Hpage Hlive _ _] Hal path t i Hl Hf Hi Ht _.
  destruct (Hpage path t) as (Ht0 & Hta & Ht64); auto.
  destruct (Hlive path t) as [Hreg Hused]; auto.
  destruct Hal as [Hp Hfree _ _ Hframe Hlow _ _].
  assert (Hne : t <> page_addr st idx) by (intros ->; rewrite Hused in Hfree; done).
  assert (Hal : page_addr st idx mod 4096 = 0).
  { unfold page_addr, PMM_PAGE_SIZE. rewrite Z.mod_add by lia. apply (inv_align _ Hpmm). }
  assert (Hdis : t + 4096 <= page_addr st idx \/ page_addr st idx + 4096 <= t) by dlia.
  apply rd64_ext. intros x Hx. unfold slot, is_idx in *.
  destruct Hreg; [apply Hlow; lia|]. apply Hframe; unfold PMM_PAGE_SIZE; lia.
Qed.

Lemma alloc_grows st idx st' : page_allocated st idx st' -> grows st st'.
Proof.
  intros [_ _ Hu _ _ _ (Hb & Hba & Ht) Hinv]. split; auto.
  intros j Hj Hused. rewrite Hu by done. rewrite Hused. apply orb_true_r.
Qed.

(** Writing outside the bitmap keeps the allocator as it is. *)
Lemma set_ram_grows st m :
  pmm_inv st ->
  (forall x, pmm_bitmap st <= x < pmm_base st -> rd8 m x = rd8 (ram st) x) -> grows st (set_ram m st).
Proof.
  intros Hinv Hm. pose proof Hinv as [? ? ? ? ?]. split; auto; [by split|].
  intros idx Hi. unfold used. simpl. destruct (idx_bounds st idx Hinv Hi) as (Hb & _).
  change (bitmap_byte (set_ram m st) idx) with (bitmap_byte st idx). rewrite Hm; [done|lia].
Qed.

(** Installing a table at the end of the path [ex]: the new table is the page
    [idx], which no other path reaches, and its own entries are empty (unless it
    is a last-level table). *)
Lemma install_table st root path0 i0 t0 m' idx v :
  as_inv st root -> (length path0 < 3)%nat -> Forall is_idx path0 -> is_idx i0 ->
  walk_table (ram st) root path0 = Some t0 ->
  walk_table (ram st) root (path0 ++ [i0]) = None ->
  is_page st idx -> used st idx = true ->
  (forall path t, (length path <= 3)%nat -> Forall is_idx path ->
     walk_table (ram st) root path = Some t -> t <> page_addr st idx) ->
  agree (ram st) m' root (path0 ++ [i0]) -> grows st (set_ram m' st) ->
  rd64 m' (slot t0 i0) = v -> present v = true -> huge v = false -> table_of v = page_addr st idx ->
  ((length path0 < 2)%nat -> forall j, is_idx j -> present (rd64 m' (slot (page_addr st idx) j)) = false) ->
  as_inv (set_ram m' st) root /\ walk_table m' root (path0 ++ [i0]) = Some (page_addr st idx) /\
  forall path t, (length path <= 3)%nat -> Forall is_idx path -> walk_table m' root path = Some t ->
    walk_table (ram st) root path = Some t \/ t = page_addr st idx.
Proof.
  intros Has Hl0 Hf0 Hi0 Ht0 Hnone Hpg Hus Hfresh Ha Hg Hv Hpv Hhv Htv Hempty.
  pose proof Has as [Hpmm Hpage Hlive Hinj Hsmall]. set (ex := path0 ++ [i0]) in *.
  assert (Hlex : length ex = S (length path0)) by (unfold ex; rewrite length_app; simpl; lia).
  assert (Hex : walk_table m' root ex = Some (page_addr st idx)).
  { unfold ex. rewrite walk_table_snoc, (walk_agree _ m' _ ex path0 Ha); auto; [|lia|].
    - rewrite Ht0. simpl. rewrite Hv, Hpv, Hhv. simpl. by rewrite Htv.
    - left. intros Hp. apply prefix_length in Hp. lia. }
  assert (Hcase : forall path, (length path <= 3)%nat -> Forall is_idx path ->
    (~ ex `prefix_of` path /\ walk_table m' root path = walk_table (ram st) root path) \/
    (path = ex) \/ walk_table m' root path = None).
  { intros path Hl Hf. destruct (decide (ex `prefix_of` path)) as [[q ->]|Hnp].
    - right. destruct q as [|j q]; [left; by rewrite app_nil_r|right].
      rewrite length_app in Hl. simpl in Hl. apply Forall_app in Hf as [_ Hf]. apply Forall_cons in Hf as [Hj _].
      rewrite walk_table_app, Hex. simpl. rewrite Hempty by (auto; lia). done.
    - left. split; [done|]. apply (walk_agree _ m' _ ex); auto; lia. }
  split; [|split; [done|]].
  2: { intros path t Hl Hf Ht. destruct (Hcase path Hl Hf) as [[_ Hw]|[->|Hw]]; [left; by rewrite <- Hw|right|congruence].
       rewrite Hex in Ht. by injection Ht as <-. }
  split; simpl.
  - apply Hg.
  - intros path t Hl Hf Ht. destruct (Hcase path Hl Hf) as [[_ Hw]|[->|Hw]]; rewrite ?Hw in Ht; [by apply (Hpage path)| |done].
    rewrite Hex in Ht. injection Ht as <-. destruct (idx_bounds st idx Hpmm Hpg) as (_ & Hb & He).
    pose proof (inv_bitmap _ Hpmm). pose proof (inv_below _ Hpmm). pose proof (inv_cursor _ Hpmm).
    assert (0 <= (pmm_total st + 7) / 8) by (apply Z.div_pos; lia).
    split; [lia|]. split; [|exact He]. unfold page_addr, PMM_PAGE_SIZE.
    rewrite Z.mod_add by lia. apply (inv_align _ Hpmm).
  - intros path t Hl Hf Ht. apply (live_transfer st (set_ram m' st)); [done|].
    destruct (Hcase path Hl Hf) as [[_ Hw]|[->|Hw]]; rewrite ?Hw in Ht; [by apply (Hlive path)| |done].
    rewrite Hex in Ht. injection Ht as <-. destruct (idx_bounds st idx Hpmm Hpg) as (_ & Hb & _).
    split; [right; lia|]. intros j Hj He.
    assert (j = idx) as -> by (unfold page_addr, PMM_PAGE_SIZE in He; lia). done.
  - intros path path' t Hl Hl' Hf Hf' Ht Ht'.
    destruct (Hcase path Hl Hf) as [[_ Hw]|[->|Hw]]; rewrite ?Hw in Ht; [| |done];
    destruct (Hcase path' Hl' Hf') as [[_ Hw']|[->|Hw']]; rewrite ?Hw' in Ht'; try done.
    + by apply (Hinj path path' t).
    + rewrite Hex in Ht'. injection Ht' as <-. by destruct (Hfresh path _ Hl Hf Ht).
    + rewrite Hex in Ht. injection Ht as <-. by destruct (Hfresh path' _ Hl' Hf' Ht').
  - intros path t i Hl Hf Hi Ht. destruct (Hcase path ltac:(lia) Hf) as [[_ Hw]|[->|Hw]]; rewrite ?Hw in Ht; [| |done].
    + destruct (decide (path ++ [i] = ex)) as [He|Hne].
      * apply app_inj_2 in He as [-> He]; [|done]. injection He as ->. rewrite Ht0 in Ht. injection Ht as <-.
        by rewrite Hv.
      * rewrite (Ha path t i) by (auto; lia). by apply (Hsmall path).
    + rewrite Hex in Ht. injection Ht as <-. rewrite Hempty by (auto; lia). done.
Qed.

(** ** The step at each level *)

(** A walk that meets an absent entry gives no translation. *)
Lemma translate_blocked m root path t i virt :
  walk_table m root path = Some t -> present (rd64 m (slot t i)) = false ->
  path ++ [i] `prefix_of` path4 virt -> translate m root virt = None.
Proof.
  intros Hw Hp [q Hq]. unfold translate, path4 in *.
  destruct path as [|a [|b [|c [|d path]]]]; simpl in Hq; injection Hq; intros; subst; simpl in *;
    repeat match goal with
    | H : Some _ = Some _ |- _ => injection H as <-
    | H : (if ?b then _ else _) = Some _ |- _ => destruct b eqn:?; [|discriminate H]
    end; simpl; rewrite ?Hp; simpl; auto.
  - apply andb_true_iff in Heqb1 as [Hb1 Hb2]. rewrite Hb1. simpl.
    apply negb_true_iff in Hb2. by rewrite Hb2.
  - by destruct path.
Qed.

Lemma next_prefix ex virt :
  ex `prefix_of` path4 virt -> (length ex < 4)%nat -> exists j, is_idx j /\ ex ++ [j] `prefix_of` path4 virt.
Proof.
  intros [q Hq] Hl. destruct q as [|j q].
  - rewrite app_nil_r in Hq. rewrite <- Hq in Hl. simpl in Hl. lia.
  - exists j. split; [|exists q; by rewrite <- app_assoc].
    pose proof (idxs_range virt) as Hr. fold (path4 virt) in Hr. rewrite Hq in Hr.
    apply Forall_app in Hr as [_ Hr]. by apply Forall_cons in Hr as [? _].
Qed.

(** The page [pmm_alloc_page] returns is not a table of the address space. *)
Lemma alloc_fresh st idx st' root :
  as_inv st root -> page_allocated st idx st' ->
  forall path t, (length path <= 3)%nat -> Forall is_idx path ->
    walk_table (ram st') root path = Some t -> t <> page_addr st' idx.
Proof.
  intros Has Hal path t Hl Hf Ht.
  rewrite (walk_agree _ _ _ [] path (alloc_agree _ _ _ _ Has Hal)) in Ht by (auto; lia).
  destruct (as_live _ _ Has path t) as [_ Hu]; auto. destruct Hal as [Hp Hfree _ _ _ _ (_ & Hb & _) _].
  unfold page_addr. rewrite Hb. intros ->. by rewrite Hu in Hfree.
Qed.

(** Writing an entry of a reachable table. *)
Lemma write_entry_agree st root path0 t0 i0 v :
  as_inv st root -> (length path0 <= 3)%nat -> Forall is_idx path0 -> is_idx i0 ->
  walk_table (ram st) root path0 = Some t0 ->
  agree (ram st) (wr64 (ram st) (slot t0 i0) v) root (path0 ++ [i0]) /\
  grows st (set_ram (wr64 (ram st) (slot t0 i0) v) st).
Proof.
  intros Has Hl0 Hf0 Hi0 Ht0. pose proof Has as [Hpmm Hpage Hlive Hinj _].
  destruct (Hpage path0 t0) as (_ & Ha0 & _); auto. split.
  - intros path t i Hl Hf Hi Ht Hne. apply rd64_wr64_ne.
    destruct (Hpage path t) as (_ & Ha & _); auto. apply slot_disjoint; auto.
    intros He. injection He as -> ->. by rewrite (Hinj path path0 t) in Hne.
  - apply set_ram_grows; [done|]. intros x Hx. apply rd8_wr64_out.
    destruct (Hlive path0 t0) as [Hreg _]; auto. unfold slot, is_idx in *. lia.
Qed.

Lemma agree_trans m1 m2 m3 root ex :
  agree m1 m2 root [] -> agree m2 m3 root ex -> agree m1 m3 root ex.
Proof.
  intros H12 H23 path t i Hl Hf Hi Ht Hne.
  rewrite (H23 path t i); auto.
  - apply (H12 path); auto. by destruct path.
  - rewrite (walk_agree m1 m2 root [] path); auto.
Qed.

Lemma grows_trans st1 st2 st3 : grows st1 st2 -> grows st2 st3 -> grows st1 st3.
Proof.
  intros [_ Hb Hba Ht Hu] [Hi Hb' Hba' Ht' Hu']. split; try congruence; auto.
  intros idx Hidx Hus. apply Hu'; [unfold is_page in *; congruence || by rewrite Ht|auto].
Qed.

Lemma grows_refl st : pmm_inv st -> grows st st.
Proof. by split. Qed.

(** What the steps of a mapping keep: the address space stays well formed, every
    address translates as before, and the tables that were reachable still are. *)
Record keeps (st st' : phys) (root : Z) : Prop := {
  kp_inv : as_inv st' root;
  kp_grows : grows st st';
  kp_translate : forall virt, translate (ram st') root virt = translate (ram st) root virt;
  kp_walk : forall path t, (length path <= 3)%nat -> Forall is_idx path ->
    walk_table (ram st) root path = Some t -> walk_table (ram st') root path = Some t;
  kp_data : data_kept st st' root }.

Lemma keeps_refl st root : as_inv st root -> keeps st st root.
Proof. intros H. split; auto; [apply grows_refl, H|apply data_kept_refl]. Qed.

Lemma keeps_trans st1 st2 st3 root : keeps st1 st2 root -> keeps st2 st3 root -> keeps st1 st3 root.
Proof.
  intros [_ Hg Ht Hw Hd] [Hi Hg' Ht' Hw' Hd']. split; auto; [by eapply grows_trans| |by eapply data_kept_trans].
  intros virt. by rewrite Ht', Ht.
Qed.

Lemma page_addr_aligned st idx :
  pmm_inv st -> is_page st idx ->
  page_addr st idx mod 4096 = 0 /\ 0 < page_addr st idx /\ page_addr st idx + 4096 <= 2 ^ 64.
Proof.
  intros Hinv Hp. destruct (idx_bounds st idx Hinv Hp) as (Hb & Hba & He).
  pose proof (inv_bitmap _ Hinv). pose proof (inv_below _ Hinv). pose proof (inv_cursor _ Hinv).
  assert (0 <= (pmm_total st + 7) / 8) by (apply Z.div_pos; lia).
  split; [|split; [lia|exact He]]. unfold page_addr, PMM_PAGE_SIZE.
  rewrite Z.mod_add by lia. apply (inv_align _ Hinv).
Qed.

(** Clearing a page that is already clear changes nothing. *)
Lemma clear_again st idx st' :
  page_allocated st idx st' ->
  forall x, rd8 (memset (ram st') (page_addr st idx) 0 page_size) x = rd8 (ram st') x.
Proof.
  intros Hal x. rewrite rd8_memset. change (Z.of_nat page_size) with PMM_PAGE_SIZE.
  destruct ((_ <=? _) && _) eqn:E; [|done]. zbool. symmetry. apply (pa_zero _ _ _ Hal). lia.
Qed.

(** A page allocated for the address space [root]; afterwards [m] differs from the
    new state at most inside that page. *)
Lemma alloc_step st idx st1 m root :
  as_inv st root -> page_allocated st idx st1 ->
  (forall x, ~ page_addr st idx <= x < page_addr st idx + 4096 -> rd8 m x = rd8 (ram st1) x) ->
  let st2 := set_ram m st1 in
  as_inv st2 root /\ grows st st2 /\ agree (ram st) m root [] /\
  is_page st2 idx /\ used st2 idx = true /\ page_addr st2 idx = page_addr st idx.
Proof.
  intros Has Hal Hm st2. pose proof (alloc_agree _ _ _ _ Has Hal) as Hag.
  pose proof (alloc_grows _ _ _ Hal) as Hg. pose proof Hal as [Hp Hfree Hu _ _ _ (Hb & Hba & Ht) Hinv1].
  destruct (page_addr_aligned st idx (as_pmm _ _ Has) Hp) as (Hpal & _ & _).
  destruct (idx_bounds st idx (as_pmm _ _ Has) Hp) as (Hbb & Hpb & _).
  assert (Hpa : page_addr st2 idx = page_addr st idx) by (unfold page_addr; simpl; by rewrite Hba).
  assert (Hg2 : grows st st2).
  { apply (grows_trans _ st1); [done|]. apply set_ram_grows; [apply Hg|].
    intros x Hx. apply Hm. rewrite Hba in Hx. lia. }
  assert (Hag2 : agree (ram st) m root []).
  { apply (agree_trans _ (ram st1)); [done|]. intros path t i Hl Hf Hi Hw _.
    rewrite (walk_agree _ _ _ [] path Hag) in Hw by (auto; lia). apply rd64_ext. intros x Hx. apply Hm.
    destruct (as_page _ _ Has path t) as (_ & Ha & _); auto. destruct (as_live _ _ Has path t) as [_ Hlv]; auto.
    assert (t <> page_addr st idx) by (intros ->; rewrite Hlv in Hfree; done).
    assert (t + 4096 <= page_addr st idx \/ page_addr st idx + 4096 <= t) by dlia.
    unfold slot, is_idx in *. lia. }
  split; [by apply (as_inv_agree st st2 root []); auto|]. split; [done|]. split; [done|]. split; [|split; [|done]].
  - unfold is_page in *; simpl; by rewrite Ht.
  - assert (used st2 idx = used st1 idx) as ->.
    { unfold used. simpl. change (bitmap_byte st2 idx) with (bitmap_byte st1 idx). rewrite Hm; [done|].
      assert (bitmap_byte st1 idx = bitmap_byte st idx) as -> by (unfold bitmap_byte; by rewrite Hb).
      pose proof (inv_below _ (as_pmm _ _ Has)). lia. }
    rewrite Hu by done. by rewrite Z.eqb_refl.
Qed.

(** Installing an allocated page, filled by [m], as the table at the end of
    [path0 ++ [i0]]. *)
Lemma install_step st root path0 t0 i0 idx st1 m f :
  as_inv st root -> (length path0 < 3)%nat -> Forall is_idx path0 -> is_idx i0 ->
  walk_table (ram st) root path0 = Some t0 -> walk_table (ram st) root (path0 ++ [i0]) = None ->
  page_allocated st idx st1 ->
  (forall x, ~ page_addr st idx <= x < page_addr st idx + 4096 -> rd8 m x = rd8 (ram st1) x) ->
  0 <= f < 4096 -> present f = true -> huge f = false ->
  ((length path0 < 2)%nat -> forall j, is_idx j -> present (rd64 m (slot (page_addr st idx) j)) = false) ->
  let m3 := wr64 m (slot t0 i0) (Z.lor (page_addr st idx) f) in
  as_inv (set_ram m3 st1) root /\ grows st (set_ram m3 st1) /\ agree (ram st) m3 root (path0 ++ [i0]) /\
  walk_table m3 root (path0 ++ [i0]) = Some (page_addr st idx) /\
  rd64 m3 (slot t0 i0) = Z.lor (page_addr st idx) f /\ table_of (Z.lor (page_addr st idx) f) = page_addr st idx /\
  (forall j, is_idx j -> rd64 m3 (slot (page_addr st idx) j) = rd64 m (slot (page_addr st idx) j)) /\
  data_kept st (set_ram m3 st1) root.
Proof.
  intros Has Hl0 Hf0 Hi0 Ht0 Hnone Hal Hm Hf Hpf Hhf Hempty m3.
  destruct (alloc_step st idx st1 m root Has Hal Hm) as (Has2 & Hg2 & Hag2 & Hpg2 & Hus2 & Hpa2).
  set (st2 := set_ram m st1) in *. set (v := Z.lor (page_addr st idx) f) in *.
  destruct (page_addr_aligned st2 idx (as_pmm _ _ Has2) Hpg2) as (Hpal & Hp1 & Hp2).
  rewrite Hpa2 in Hpal, Hp1, Hp2.
  assert (Hv : 0 <= v < 2 ^ 64) by (unfold v; rewrite (lor_flags _ f 12) by (exact Hpal || lia); lia).
  assert (Hw2 : forall path, (length path <= 4)%nat -> Forall is_idx path ->
    walk_table (ram st2) root path = walk_table (ram st) root path).
  { intros path Hl Hfp. apply (walk_agree _ _ _ [] path Hag2); auto. }
  assert (Ht2 : walk_table (ram st2) root path0 = Some t0) by (rewrite Hw2; auto; lia).
  destruct (write_entry_agree st2 root path0 t0 i0 v Has2 ltac:(lia) Hf0 Hi0 Ht2) as [Hag3 Hg3].
  assert (Hfresh : forall path t, (length path <= 3)%nat -> Forall is_idx path ->
    walk_table (ram st2) root path = Some t -> t <> page_addr st idx).
  { intros path t Hl Hfp Hw ->. rewrite Hw2 in Hw by (auto; lia).
    destruct (as_live _ _ Has path _ Hl Hfp Hw) as [_ Hu]. pose proof (pa_free _ _ _ Hal) as Hfr.
    rewrite Hu in Hfr; [done|apply (pa_page _ _ _ Hal)|done]. }
  change m3 with (wr64 (ram st2) (slot t0 i0) v) in *.
  change (set_ram m3 st1) with (set_ram (wr64 (ram st2) (slot t0 i0) v) st2). clearbody m3.
  assert (Hrd : rd64 (wr64 (ram st2) (slot t0 i0) v) (slot t0 i0) = v) by (rewrite rd64_wr64_eq; by apply u64_small).
  assert (Hsame : forall j, is_idx j ->
    rd64 (wr64 (ram st2) (slot t0 i0) v) (slot (page_addr st idx) j) = rd64 m (slot (page_addr st idx) j)).
  { intros j Hj. apply rd64_wr64_ne. destruct (as_page _ _ Has2 path0 t0) as (_ & Ha0 & _); auto; [lia|].
    apply slot_disjoint; auto. intros [= He _]. apply (Hfresh path0 t0); auto; lia. }
  assert (Htv : table_of v = page_addr st idx) by (apply table_of_flags; auto; lia).
  destruct (install_table st2 root path0 i0 t0 (wr64 (ram st2) (slot t0 i0) v) idx v) as (Has3 & Hex & Htabs);
    rewrite ?Hpa2; auto.
  - rewrite Hw2; auto; [rewrite length_app; simpl; lia|]. apply Forall_app. by rewrite Forall_singleton.
  - unfold v. by destruct (entry_flags (page_addr st idx) f Hpal) as [-> _].
  - unfold v. by destruct (entry_flags (page_addr st idx) f Hpal) as [_ ->].
  - intros Hl j Hj. rewrite Hsame by done. auto.
  - rewrite Hpa2 in Hex. split; [done|]. split; [by apply (grows_trans _ st2)|].
    split; [by apply (agree_trans _ (ram st2))|]. split; [done|]. split; [done|]. split; [done|]. split; [done|].
    apply (data_kept_step _ _ _ idx); [by apply (grows_trans _ st2)|apply (pa_page _ _ _ Hal)|apply (pa_free _ _ _ Hal)| |].
    + intros path t Hl Hfp Hw. rewrite <- (Hw2 path) by (auto; lia). rewrite <- Hpa2. by apply Htabs.
    + intros x Hx Hout. cbn [ram set_ram]. pose proof (db_table _ _ _ Hx path0 t0 ltac:(lia) Hf0 Ht0) as Hnt.
      rewrite rd8_wr64_out by (unfold slot, is_idx in *; lia). change (ram st2) with m. rewrite Hm by done.
      destruct (db_region _ _ _ Hx) as [Hr|Hr]; [by apply (pa_low _ _ _ Hal)|apply (pa_frame _ _ _ Hal); [done|unfold PMM_PAGE_SIZE; lia]].
Qed.

(** The state of [install_step] keeps every translation that the entry at the end
    of its path does not decide, and the walks. *)
Lemma keeps_install st st' root path0 t0 i0 :
  as_inv st' root -> grows st st' -> (length path0 < 3)%nat ->
  agree (ram st) (ram st') root (path0 ++ [i0]) ->
  walk_table (ram st) root (path0 ++ [i0]) = None -> walk_table (ram st) root path0 = Some t0 ->
  (forall virt, path0 ++ [i0] `prefix_of` path4 virt ->
     translate (ram st') root virt = translate (ram st) root virt) ->
  data_kept st st' root ->
  keeps st st' root.
Proof.
  intros Has Hg Hl0 Hag Hnone Ht0 Htr Hd. split; auto.
  - intros virt. destruct (decide (path0 ++ [i0] `prefix_of` path4 virt)) as [Hpre|Hn]; [auto|].
    by apply (translate_agree _ _ _ _ _ Hag); left.
  - intros path t Hl Hf Hw. rewrite (walk_agree _ _ _ _ path Hag); auto.
    left. intros [q ->]. by rewrite walk_table_app, Hnone in Hw.
Qed.

Lemma get_table_spec st root path0 t0 i0 r st' :
  as_inv st root -> (length path0 < 3)%nat -> Forall is_idx path0 -> is_idx i0 ->
  walk_table (ram st) root path0 = Some t0 ->
  (present (rd64 (ram st) (slot t0 i0)) = true -> huge (rd64 (ram st) (slot t0 i0)) = false) ->
  get_table (slot t0 i0) st = (r, st') ->
  keeps st st' root /\
  forall t, r = Some t -> walk_table (ram st') root (path0 ++ [i0]) = Some t.
Proof.
  intros Has Hl0 Hf0 Hi0 Ht0 Hsm Hget. unfold get_table in Hget. rewrite not_present in Hget.
  destruct (present _) eqn:Ep; simpl in Hget.
  { injection Hget as <- <-. split; [by apply keeps_refl|]. intros t [= <-].
    rewrite walk_table_snoc, Ht0. simpl. by rewrite Ep, Hsm. }
  assert (Hnone : walk_table (ram st) root (path0 ++ [i0]) = None).
  { rewrite walk_table_snoc, Ht0. simpl. by rewrite Ep. }
  destruct (pmm_alloc_page st) as [p st1] eqn:Ea.
  destruct (pmm_alloc_cases st p st1 (as_pmm _ _ Has) Ea) as [(-> & -> & _)|(idx & -> & Hp0 & Hal)].
  { simpl in Hget. injection Hget as <- <-. split; [by apply keeps_refl|done]. }
  rewrite (proj2 (Z.eqb_neq _ 0)) in Hget by done. rewrite entry_pwu in Hget.
  pose proof (clear_again _ _ _ Hal) as Hclr.
  set (m2 := memset (ram st1) (page_addr st idx) 0 page_size) in *. clearbody m2.
  assert (Hzero : forall j, is_idx j -> rd64 m2 (slot (page_addr st idx) j) = 0).
  { intros j Hj. apply rdle_zero. intros x Hx. rewrite Hclr. apply (pa_zero _ _ _ Hal).
    unfold slot, is_idx, PMM_PAGE_SIZE in *. lia. }
  destruct (install_step st root path0 t0 i0 idx st1 m2 7) as (Has3 & Hg3 & Hag & Hex & Hrd & Htv & Hsame & Hdk);
    auto; [lia|intros _ j Hj; by rewrite Hzero|].
  injection Hget as <- <-. split.
  - apply (keeps_install _ _ _ path0 t0 i0); auto. intros virt Hpre.
    rewrite (translate_blocked (ram st) root path0 t0 i0 virt) by done.
    destruct (next_prefix _ _ Hpre) as (j & Hj & Hpre'); [rewrite length_app; simpl; lia|].
    eapply (translate_blocked _ root _ _ j); [exact Hex| |done]. cbn [ram set_ram]. by rewrite Hsame, Hzero.
  - intros t [= <-]. cbn [ram set_ram]. by rewrite Hex, Hrd, Htv.
Qed.

(** ** Splitting a large page *)

Lemma fill_split_out m pt hp hf n x :
  ~ pt <= x < pt + 8 * Z.of_nat n -> rd8 (fill_split m pt hp hf n) x = rd8 m x.
Proof.
  induction n as [|n IH]; intros Hx; cbn [fill_split]; [done|].
  rewrite rd8_wr64_out by (unfold slot; lia). apply IH. lia.
Qed.

Lemma fill_split_in m pt hp hf n j :
  0 <= j < Z.of_nat n ->
  rd64 (fill_split m pt hp hf n) (slot pt j) = u64 (Z.lor (u64 (hp + j * 4096)) hf).
Proof.
  induction n as [|n IH]; intros Hj; [lia|]. cbn [fill_split].
  destruct (Z.eq_dec j (Z.of_nat n)) as [->|Hne].
  - apply rd64_wr64_eq.
  - rewrite rd64_wr64_ne by (unfold slot; lia). apply IH. lia.
Qed.

(** The offset in a 2 MiB page: the index of the 4 KiB page and the offset in it. *)
Lemma large_offset virt : virt mod 2 ^ 21 = pt_idx virt * 4096 + virt mod 2 ^ 12.
Proof.
  unfold pt_idx. change 511 with (Z.ones 9). rewrite Z.land_ones, Z.shiftr_div_pow2 by lia.
  change (2 ^ 21) with (4096 * 512). change (2 ^ 12) with 4096. change (2 ^ 9) with 512.
  rewrite Z.rem_mul_r by lia. lia.
Qed.

(** The entries that replace the large page [e] map what it mapped. *)
Lemma split_entry e j :
  0 <= e < 2 ^ 64 -> is_idx j ->
  let v := u64 (Z.lor (u64 (Z.land e (mask64 21) + j * 4096)) (Z.land e 4095)) in
  present v = present e /\ table_of v = Z.land e (mask64 21) + j * 4096.
Proof.
  intros He Hj. rewrite land_mask64 by lia. change 4095 with (Z.ones 12). rewrite (Z.land_ones e) by lia.
  set (p := e - e mod 2 ^ 21 + j * 4096).
  assert (Hp : 0 <= p /\ p + 4096 <= 2 ^ 64 /\ p mod 4096 = 0).
  { unfold p, is_idx in *. change (2 ^ 21) with 2097152. dlia. }
  rewrite (u64_small p) by lia. pose proof (Z.mod_pos_bound e (2 ^ 12) ltac:(lia)) as Hf.
  assert (Hv : u64 (Z.lor p (e mod 2 ^ 12)) = Z.lor p (e mod 2 ^ 12)).
  { apply u64_small. rewrite (lor_flags p _ 12) by (lia || apply Hp). lia. }
  cbv zeta. rewrite Hv. split.
  - destruct (entry_flags p (e mod 2 ^ 12)) as [-> _]; [apply Hp|]. rewrite !present_testbit.
    apply Z.mod_pow2_bits_low. lia.
  - apply table_of_flags; lia || apply Hp.
Qed.

Lemma split_flags hf :
  let f := Z.lor (Z.lor PAGE_PRESENT PAGE_WRITABLE) (Z.land hf PAGE_USER) in
  0 <= f < 4096 /\ present f = true /\ huge f = false.
Proof.
  change PAGE_USER with (2 ^ 2). assert (Z.land hf (2 ^ 2) = 0 \/ Z.land hf (2 ^ 2) = 4) as [->| ->]; [|by cbv..].
  destruct (Z.testbit hf 2) eqn:E; [right|left]; apply Z.bits_inj'; intros n Hn;
    rewrite Z.land_spec, Z.pow2_bits_eqb by lia.
  - change 4 with (2 ^ 2). rewrite Z.pow2_bits_eqb by lia. destruct (Z.eqb_spec 2 n) as [<-|]; [by rewrite E|apply andb_false_r].
  - rewrite Z.bits_0. destruct (Z.eqb_spec 2 n) as [<-|]; [by rewrite E|apply andb_false_r].
Qed.

#[global] Arguments fill_split : simpl never.

Lemma split_huge_spec st root path0 t0 i0 b st' :
  as_inv st root -> length path0 = 2%nat -> Forall is_idx path0 -> is_idx i0 ->
  walk_table (ram st) root path0 = Some t0 ->
  split_huge (slot t0 i0) st = (b, st') ->
  keeps st st' root /\
  (b = true -> present (rd64 (ram st') (slot t0 i0)) = true -> huge (rd64 (ram st') (slot t0 i0)) = false).
Proof.
  intros Has Hl0 Hf0 Hi0 Ht0 Hsp. unfold split_huge in Hsp. pose proof (rd64_range (ram st) (slot t0 i0)) as Her.
  destruct (present _ && huge _) eqn:Ep; simpl in Hsp.
  2:{ injection Hsp as <- <-. split; [by apply keeps_refl|]. intros _ Hp. by rewrite Hp in Ep. }
  apply andb_true_iff in Ep as [Ep Eh].
  assert (Hnone : walk_table (ram st) root (path0 ++ [i0]) = None).
  { rewrite walk_table_snoc, Ht0. simpl. by rewrite Ep, Eh. }
  destruct (pmm_alloc_page st) as [p st1] eqn:Ea.
  destruct (pmm_alloc_cases st p st1 (as_pmm _ _ Has) Ea) as [(-> & -> & _)|(idx & -> & Hp0 & Hal)].
  { simpl in Hsp. injection Hsp as <- <-. split; [by apply keeps_refl|done]. }
  rewrite (proj2 (Z.eqb_neq _ 0)) in Hsp by done. set (e := rd64 (ram st) (slot t0 i0)) in *.
  rewrite <- !Z.lor_assoc, (Z.lor_assoc PAGE_PRESENT) in Hsp.
  set (f := Z.lor (Z.lor PAGE_PRESENT _) _) in Hsp. destruct (split_flags (Z.land e 4095)) as (Hf & Hpf & Hhf).
  fold f in Hf, Hpf, Hhf. clearbody f.
  pose proof (fill_split_out (ram st1) (page_addr st idx) (Z.land e (mask64 21)) (Z.land e 4095) 512) as Hout.
  pose proof (fill_split_in (ram st1) (page_addr st idx) (Z.land e (mask64 21)) (Z.land e 4095) 512) as Hin.
  set (m2 := fill_split _ _ _ _ 512) in *. clearbody m2.
  destruct (install_step st root path0 t0 i0 idx st1 m2 f) as (Has3 & Hg3 & Hag & Hex & Hrd & Htv & Hsame & Hdk);
    auto; [lia|lia|].
  destruct (page_addr_aligned st idx (as_pmm _ _ Has) (pa_page _ _ _ Hal)) as (Hpal & _ & _).
  destruct (entry_flags (page_addr st idx) f Hpal) as [Hpv Hhv].
  injection Hsp as <- <-. split.
  - apply (keeps_install _ (set_ram (wr64 m2 (slot t0 i0) (Z.lor (page_addr st idx) f)) st1) _ path0 t0 i0 Has3 Hg3 ltac:(lia) Hag Hnone Ht0); [|exact Hdk].
    cbn [ram set_ram]. intros virt [q Hq].
    unfold path4 in Hq. destruct path0 as [|i4 [|i3 [|? ?]]]; try discriminate Hl0. injection Hq as <- <- <- <-.
    unfold translate. rewrite (walk_agree _ _ _ _ _ Hag), Ht0; auto.
    2:{ left. intros Hpre. apply prefix_length in Hpre. simpl in Hpre. lia. }
    cbn [mbind option_bind]. cbv zeta. fold e. rewrite Hrd, Hpv, Hhv, Htv, Hpf, Hhf, Ep, Eh. cbn [negb].
    rewrite Hsame, Hin by apply idx_range.
    destruct (split_entry e (pt_idx virt) Her ltac:(apply idx_range)) as [-> ->]. rewrite Ep, large_offset. f_equal. lia.
  - intros _ _. cbn [ram set_ram]. by rewrite Hrd, Hhv.
Qed.

(** ** The mapping functions against the page walk *)

(** [virt] and [v] are in the same 4 KiB (2 MiB) page of the 48-bit space. *)
Definition same_page (virt v : Z) : bool := (virt / 2 ^ 12) mod 2 ^ 36 =? (v / 2 ^ 12) mod 2 ^ 36.
Definition same_large (virt v : Z) : bool := (virt / 2 ^ 21) mod 2 ^ 27 =? (v / 2 ^ 21) mod 2 ^ 27.

Lemma idx_div virt s : 0 <= s -> Z.land (Z.shiftr virt s) 511 = (virt / 2 ^ s) mod 512.
Proof. intros. change 511 with (Z.ones 9). by rewrite Z.land_ones, Z.shiftr_div_pow2 by lia. Qed.

Lemma digit_eq x y M :
  0 < M -> x mod (512 * M) = y mod (512 * M) <-> x mod 512 = y mod 512 /\ (x / 512) mod M = (y / 512) mod M.
Proof.
  intros HM. rewrite !Z.rem_mul_r by lia.
  pose proof (Z.mod_pos_bound x 512 ltac:(lia)). pose proof (Z.mod_pos_bound y 512 ltac:(lia)). lia.
Qed.

Lemma same_large_spec virt v :
  same_large virt v = true <->
  pml4_idx virt = pml4_idx v /\ pdpt_idx virt = pdpt_idx v /\ pd_idx virt = pd_idx v.
Proof.
  unfold same_large, pml4_idx, pdpt_idx, pd_idx. rewrite Z.eqb_eq, !idx_div by lia.
  change (2 ^ 27) with (512 * (512 * 512)). rewrite !digit_eq by lia. rewrite !Z.div_div by lia.
  change (2 ^ 21 * 512) with (2 ^ 30). change (2 ^ 30 * 512) with (2 ^ 39). change (2 ^ 21 * (512 * 512)) with (2 ^ 39). tauto.
Qed.

Lemma same_page_spec virt v : same_page virt v = true <-> path4 virt = path4 v.
Proof.
  assert (Hl : same_page virt v = true <-> same_large virt v = true /\ pt_idx virt = pt_idx v).
  { unfold same_page, same_large, pt_idx. rewrite !Z.eqb_eq, !idx_div by lia.
    change (2 ^ 36) with (512 * 2 ^ 27). rewrite digit_eq, !Z.div_div by lia. 
    change (2 ^ 12 * 512) with (2 ^ 21). tauto. }
  rewrite Hl, same_large_spec. unfold path4. split; [intros [(-> & -> & ->) ->]; done|].
  intros H. by injection H as -> -> -> ->.
Qed.

(** Writing an entry of a last-level table touches no other byte. *)
Lemma write_leaf_data st root virt t v :
  as_inv st root -> walk_table (ram st) root [pml4_idx virt; pdpt_idx virt; pd_idx virt] = Some t ->
  data_kept st (set_ram (wr64 (ram st) (slot t (pt_idx virt)) v) st) root.
Proof.
  intros Has Hw. pose proof (idxs_range virt) as Hr. apply (Forall_app _ [_; _; _] [_]) in Hr as [Hr Hi]. rewrite Forall_singleton in Hi.
  destruct (write_entry_agree st root [pml4_idx virt; pdpt_idx virt; pd_idx virt] t (pt_idx virt) v Has (le_n 3) Hr Hi Hw) as [Hag [_ Hb Hba Ht Hu]].
  intros x Hx. pose proof Hx as [Hreg Hus Htb]. split.
  - split; [done|intros idx Hp Hin; by apply Hu, Hus|]. intros path t' Hl Hf Hwt. apply (Htb path); [done..|].
    rewrite <- Hwt. symmetry. apply (walk_agree _ _ _ _ path Hag); [lia|done|]. left. intros Hp. apply prefix_length in Hp. rewrite length_app in Hp. simpl in Hp. lia.
  - apply rd8_wr64_out. pose proof (Htb [pml4_idx virt; pdpt_idx virt; pd_idx virt] t (le_n 3) Hr Hw). unfold slot, is_idx in *. lia.
Qed.

Lemma leaf_grows st root virt t v :
  as_inv st root -> walk_table (ram st) root [pml4_idx virt; pdpt_idx virt; pd_idx virt] = Some t ->
  grows st (set_ram (wr64 (ram st) (slot t (pt_idx virt)) v) st).
Proof.
  intros Has Hw. pose proof (idxs_range virt) as Hr. apply (Forall_app _ [_; _; _] [_]) in Hr as [Hr Hi]. rewrite Forall_singleton in Hi.
  by apply (write_entry_agree st root [pml4_idx virt; pdpt_idx virt; pd_idx virt]).
Qed.

(** Writing an entry of a last-level table. *)
Lemma write_leaf st root virt t v :
  as_inv st root -> walk_table (ram st) root [pml4_idx virt; pdpt_idx virt; pd_idx virt] = Some t ->
  0 <= v < 2 ^ 64 ->
  let st' := set_ram (wr64 (ram st) (slot t (pt_idx virt)) v) st in
  as_inv st' root /\
  forall w, translate (ram st') root w =
    if same_page virt w then (if present v then Some (table_of v + w mod 2 ^ 12) else None)
    else translate (ram st) root w.
Proof.
  intros Has Hw Hv. pose proof (idxs_range virt) as Hr. apply (Forall_app _ [_; _; _] [_]) in Hr as [Hr Hi].
  rewrite Forall_singleton in Hi.
  destruct (write_entry_agree st root [pml4_idx virt; pdpt_idx virt; pd_idx virt] t (pt_idx virt) v Has (le_n 3) Hr Hi Hw)
    as [Hag Hg].
  split; [by eapply (as_inv_agree st); [done..|right; left]|]. intros w. cbn [ram set_ram].
  destruct (same_page virt w) eqn:E.
  - apply same_page_spec in E. unfold path4 in E. injection E as E4 E3 E2 E1.
    change [pml4_idx virt; pdpt_idx virt; pd_idx virt] with ([pml4_idx virt; pdpt_idx virt] ++ [pd_idx virt]) in *.
    pose proof Hw as Hw2. rewrite walk_table_snoc in Hw2.
    destruct (walk_table (ram st) root [_; _]) as [pd|] eqn:Epd; [|done]. cbn [mbind option_bind] in Hw2.
    destruct (present _ && negb _) eqn:Ep in Hw2; [|done]. injection Hw2 as <-.
    apply andb_true_iff in Ep as [Ep Eh]. apply negb_true_iff in Eh.
    unfold translate. rewrite <- E4, <- E3, <- E2, <- E1. rewrite (walk_agree _ _ _ _ _ Hag), Epd; auto.
    + cbn [mbind option_bind]. rewrite (Hag [pml4_idx virt; pdpt_idx virt] pd (pd_idx virt)); auto.
      2:{ apply (Forall_app _ [_;_] [_]) in Hr as [? _]. done. } 2: apply idx_range.
      rewrite Ep, Eh. cbn [negb]. rewrite rd64_wr64_eq, u64_small by done. done.
    + apply (Forall_app _ [_;_] [_]) in Hr as [? _]. done.
    + left. intros Hp. apply prefix_length in Hp. simpl in Hp. lia.
  - apply (translate_agree _ _ _ _ _ Hag). left. intros Hp.
    apply prefix_length_eq in Hp; [|simpl; lia]. assert (same_page virt w = true); [|congruence].
    by apply same_page_spec.
Qed.

(** The two upper levels of [paging_map_for_process]. *)
Lemma upper_levels st root virt r1 st1 :
  as_inv st root -> get_table (slot root (pml4_idx virt)) st = (r1, st1) ->
  keeps st st1 root /\
  forall pdpt, r1 = Some pdpt -> forall r2 st2,
    get_table (slot pdpt (pdpt_idx virt)) st1 = (r2, st2) ->
    keeps st st2 root /\
    forall pd, r2 = Some pd -> walk_table (ram st2) root [pml4_idx virt; pdpt_idx virt] = Some pd.
Proof.
  intros Has H1. pose proof (idx_range virt 39 : is_idx (pml4_idx virt)) as Hi4.
  pose proof (idx_range virt 30 : is_idx (pdpt_idx virt)) as Hi3.
  destruct (get_table_spec st root [] root (pml4_idx virt) r1 st1 Has ltac:(simpl; lia) (Forall_nil_2 _) Hi4 eq_refl
    (as_small _ _ Has [] root _ ltac:(simpl; lia) (Forall_nil_2 _) Hi4 eq_refl) H1) as [K1 W1].
  split; [done|]. intros pdpt -> r2 st2 H2. specialize (W1 pdpt eq_refl). pose proof (kp_inv _ _ _ K1) as Has1.
  assert (Hf : Forall is_idx [pml4_idx virt]) by (by rewrite Forall_singleton).
  destruct (get_table_spec st1 root [pml4_idx virt] pdpt (pdpt_idx virt) r2 st2 Has1 ltac:(simpl; lia) Hf Hi3 W1
    (as_small _ _ Has1 [pml4_idx virt] pdpt _ ltac:(simpl; lia) Hf Hi3 W1) H2) as [K2 W2].
  split; [by apply (keeps_trans _ st1)|done].
Qed.

Lemma idx2 virt : Forall is_idx [pml4_idx virt; pdpt_idx virt].
Proof. pose proof (idxs_range virt) as H. apply (Forall_app _ [_; _] [_; _]) in H. apply H. Qed.

(** The contract of [paging_map_for_process] for small pages. *)
Lemma paging_map_small st root phys_addr virt flags r st' :
  as_inv st root -> 0 <= phys_addr < 2 ^ 64 ->
  0 <= flags < 4096 -> present flags = true -> huge flags = false ->
  paging_map_for_process root phys_addr virt flags st = (r, st') ->
  as_inv st' root /\ grows st st' /\ data_kept st st' root /\
  ((r = -1 /\ forall w, translate (ram st') root w = translate (ram st) root w) \/
   (r = 0 /\ forall w, translate (ram st') root w =
      if same_page virt w then Some (table_of phys_addr + w mod 2 ^ 12) else translate (ram st) root w)).
Proof.
  intros Has Hph Hfl Hpf Hhf Hmap. unfold paging_map_for_process in Hmap. fold (huge flags) in Hmap. rewrite Hhf in Hmap.
  assert (Hk : forall s, keeps st s root ->
    (as_inv s root /\ grows st s /\ data_kept st s root) /\ (-1 = -1 /\ forall w, translate (ram s) root w = translate (ram st) root w)).
  { intros s [? ? ? ? ?]. auto. }
  destruct (get_table _ st) as [r1 st1] eqn:E1. destruct (upper_levels st root virt r1 st1 Has E1) as [K1 W1].
  destruct r1 as [pdpt|]; [|injection Hmap as <- <-; destruct (Hk st1 K1) as [(? & ? & ?) ?]; auto].
  destruct (get_table _ st1) as [r2 st2] eqn:E2. destruct (W1 pdpt eq_refl r2 st2 E2) as [K2 W2].
  destruct r2 as [pd|]; [|injection Hmap as <- <-; destruct (Hk st2 K2) as [(? & ? & ?) ?]; auto].
  specialize (W2 pd eq_refl). pose proof (idx2 virt) as Hi2. pose proof (idx_range virt 21 : is_idx (pd_idx virt)) as Hi.
  destruct (split_huge _ st2) as [b st3] eqn:E3.
  destruct (split_huge_spec st2 root [pml4_idx virt; pdpt_idx virt] pd _ b st3 (kp_inv _ _ _ K2) eq_refl Hi2 Hi W2 E3) as [K3 S3].
  pose proof (keeps_trans _ _ _ _ K2 K3) as K3'.
  destruct b; [|injection Hmap as <- <-; destruct (Hk st3 K3') as [(? & ? & ?) ?]; auto].
  pose proof (kp_walk _ _ _ K3 [pml4_idx virt; pdpt_idx virt] _ (le_S _ _ (le_n 2)) Hi2 W2) as W3.
  destruct (get_table _ st3) as [r4 st4] eqn:E4.
  destruct (get_table_spec st3 root [pml4_idx virt; pdpt_idx virt] pd _ r4 st4 (kp_inv _ _ _ K3) (le_n 3) Hi2 Hi W3 (S3 eq_refl) E4) as [K4 W4].
  pose proof (keeps_trans _ _ _ _ K3' K4) as K4'.
  destruct r4 as [pt|]; injection Hmap as <- <-; [|destruct (Hk st4 K4') as [(? & ? & ?) ?]; auto].
  specialize (W4 pt eq_refl). destruct (table_of_spec phys_addr Hph) as (Hp0 & Hpa & Hp64).
  change (Z.land phys_addr (mask64 12)) with (table_of phys_addr).
  destruct (write_leaf st4 root virt pt (Z.lor (table_of phys_addr) flags) (kp_inv _ _ _ K4) W4) as [Has5 Htr].
  { rewrite (lor_flags _ flags 12) by (exact Hpa || lia). lia. }
  split; [done|]. split; [apply (grows_trans _ st4); [apply K4'|apply (leaf_grows st4 root virt); [apply K4|done]]|].
  split; [apply (data_kept_trans _ st4); [apply K4'|apply write_leaf_data; [apply K4|done]]|]. right. split; [done|]. intros w. rewrite Htr, (kp_translate _ _ _ K4').
  destruct (entry_flags (table_of phys_addr) flags Hpa) as [-> _]. rewrite Hpf, table_of_flags by lia. done.
Qed.

(** Writing a directory entry that holds no table and gets none. *)
Lemma write_large st root virt pd v :
  as_inv st root -> walk_table (ram st) root [pml4_idx virt; pdpt_idx virt] = Some pd ->
  let a := slot pd (pd_idx virt) in
  present (rd64 (ram st) a) && negb (huge (rd64 (ram st) a)) = false ->
  0 <= v < 2 ^ 64 -> present v && negb (huge v) = false ->
  let st' := set_ram (wr64 (ram st) a v) st in
  as_inv st' root /\
  forall w, translate (ram st') root w =
    if same_large virt w then (if present v then Some (Z.land v (mask64 21) + w mod 2 ^ 21) else None)
    else translate (ram st) root w.
Proof.
  intros Has Hw a Hold Hv Hnew st'. pose proof (idx2 virt) as Hr.
  pose proof (idx_range virt 21 : is_idx (pd_idx virt)) as Hi.
  destruct (write_entry_agree st root [pml4_idx virt; pdpt_idx virt] pd (pd_idx virt) v Has (le_S _ _ (le_n 2)) Hr Hi Hw)
    as [Hag Hg]. fold a in Hag, Hg.
  assert (Hw' : walk_table (ram st') root [pml4_idx virt; pdpt_idx virt] = Some pd).
  { cbn [ram set_ram st']. rewrite (walk_agree _ _ _ _ _ Hag), Hw; auto.
    left. intros Hp. apply prefix_length in Hp. simpl in Hp. lia. }
  assert (Hrd : rd64 (ram st') a = v) by (cbn [ram set_ram st']; rewrite rd64_wr64_eq; by apply u64_small).
  split.
  - eapply (as_inv_agree st); [done..|]. right; right. rewrite !walk_table_snoc, Hw'. rewrite Hw.
    cbn [mbind option_bind]. fold a. by rewrite Hold, Hrd, Hnew.
  - intros w. destruct (same_large virt w) eqn:E.
    + apply same_large_spec in E as (E4 & E3 & E2). unfold translate. rewrite <- E4, <- E3, <- E2, Hw'.
      cbn [mbind option_bind]. fold a. rewrite Hrd. destruct (present v); [|done]. by destruct (huge v).
    + apply (translate_agree _ _ _ _ _ Hag). left. intros [q Hq]. unfold path4 in Hq. injection Hq as E4 E3 E2 _.
      assert (same_large virt w = true); [|congruence]. by apply same_large_spec.
Qed.

(** C16. Mapping a 4 KiB page in a well-formed address space: the space stays well
    formed, pages in use stay in use, and no byte outside of tables and free pages
    changes; on success (0) the page of [virt] translates to the page of
    [phys_addr] and every other address translates as before, also when a 2 MiB
    page had to be split; on failure (-1) no translation has changed. *)
Theorem paging_map_for_process_spec st root phys_addr virt flags r st' :
  as_inv st root -> 0 <= phys_addr < 2 ^ 64 ->
  0 <= flags < 4096 -> present flags = true -> huge flags = false ->
  paging_map_for_process root phys_addr virt flags st = (r, st') ->
  as_inv st' root /\ grows st st' /\ data_kept st st' root /\
  ((r = -1 /\ forall w, translate (ram st') root w = translate (ram st) root w) \/
   (r = 0 /\ forall w, translate (ram st') root w =
      if same_page virt w then Some (table_of phys_addr + w mod 2 ^ 12) else translate (ram st) root w)).
Proof. apply paging_map_small. Qed.

(** Unmapping: -1 means the address had no table and nothing changed; otherwise
    the page of [virt] (the whole 2 MiB when it is mapped by a large page) has no
    translation any more, every other address translates as before, and the space
    stays well formed. *)
Theorem paging_unmap_for_process_spec st root virt r st' :
  as_inv st root -> paging_unmap_for_process root virt st = (r, st') ->
  as_inv st' root /\
  ((r = -1 /\ st' = st /\ translate (ram st) root virt = None) \/
   (r = 0 /\ exists pd, walk_table (ram st) root [pml4_idx virt; pdpt_idx virt] = Some pd /\
      forall w, translate (ram st') root w =
        if (if huge (rd64 (ram st) (slot pd (pd_idx virt))) then same_large else same_page) virt w
        then None else translate (ram st) root w)).
Proof.
  intros Has Hun. unfold paging_unmap_for_process in Hun. rewrite !not_present in Hun.
  fold (huge (rd64 (ram st) (slot (table_of (rd64 (ram st) (slot (table_of (rd64 (ram st) (slot root (pml4_idx virt))))
    (pdpt_idx virt)))) (pd_idx virt)))) in Hun.
  set (e4 := rd64 (ram st) (slot root (pml4_idx virt))) in *.
  set (e3 := rd64 (ram st) (slot (table_of e4) (pdpt_idx virt))) in *.
  set (a := slot (table_of e3) (pd_idx virt)) in *. set (e2 := rd64 (ram st) a) in *.
  pose proof (idx_range virt 39 : is_idx (pml4_idx virt)) as Hi4.
  pose proof (idx_range virt 30 : is_idx (pdpt_idx virt)) as Hi3.
  pose proof (as_small _ _ Has [] root (pml4_idx virt) ltac:(simpl; lia) (Forall_nil_2 _) Hi4 eq_refl) as S4. fold e4 in S4.
  destruct (present e4) eqn:P4; simpl in Hun.
  2:{ injection Hun as <- <-. split; [done|]. left. unfold translate. simpl. fold e4. by rewrite P4. }
  assert (W1 : walk_table (ram st) root [pml4_idx virt] = Some (table_of e4)).
  { simpl. fold e4. by rewrite P4, S4. }
  pose proof (as_small _ _ Has [pml4_idx virt] _ (pdpt_idx virt) ltac:(simpl; lia)
    ltac:(by rewrite Forall_singleton) Hi3 W1) as S3. fold e3 in S3.
  destruct (present e3) eqn:P3; simpl in Hun.
  2:{ injection Hun as <- <-. split; [done|]. left. unfold translate. simpl. fold e4. rewrite P4, S4 by done.
      simpl. fold e3. by rewrite P3. }
  assert (W2 : walk_table (ram st) root [pml4_idx virt; pdpt_idx virt] = Some (table_of e3)).
  { simpl. fold e4. rewrite P4, S4 by done. simpl. fold e3. by rewrite P3, S3. }
  destruct (present e2) eqn:P2; simpl in Hun.
  2:{ injection Hun as <- <-. split; [done|]. left. unfold translate. rewrite W2. simpl. fold a e2. by rewrite P2. }
  destruct (huge e2) eqn:H2; simpl in Hun; injection Hun as <- <-.
  - destruct (write_large st root virt (table_of e3) 0 Has W2) as [Has' Htr]; [|lia|done|].
    + fold a e2. by rewrite P2, H2.
    + split; [done|]. right. split; [done|]. exists (table_of e3). fold a e2. rewrite H2.
      split; [done|]. intros w. by rewrite Htr.
  - destruct (write_leaf st root virt (table_of e2) 0 Has) as [Has' Htr]; [|lia|].
    + change [_; _; _] with ([pml4_idx virt; pdpt_idx virt] ++ [pd_idx virt]). rewrite walk_table_snoc, W2.
      simpl. fold a e2. by rewrite P2, H2.
    + split; [done|]. right. split; [done|]. exists (table_of e3). fold a e2. rewrite H2.
      split; [done|]. intros w. by rewrite Htr.
Qed.

(** Mapping a 2 MiB page: refused (-1), with no translation changed, when a
    table of small pages is in the way; otherwise the 2 MiB range of [virt] maps
    to that of [phys_addr] and nothing else changes. *)
Theorem paging_map_large_spec st root phys_addr virt flags r st' :
  as_inv st root -> 0 <= phys_addr < 2 ^ 64 ->
  0 <= flags < 4096 -> present flags = true -> huge flags = true ->
  paging_map_for_process root phys_addr virt flags st = (r, st') ->
  as_inv st' root /\
  ((r = -1 /\ forall w, translate (ram st') root w = translate (ram st) root w) \/
   (r = 0 /\ forall w, translate (ram st') root w =
      if same_large virt w then Some (Z.land phys_addr (mask64 21) + w mod 2 ^ 21)
      else translate (ram st) root w)).
Proof.
  intros Has Hph Hfl Hpf Hhf Hmap. unfold paging_map_for_process in Hmap. fold (huge flags) in Hmap. rewrite Hhf in Hmap.
  assert (Hk : forall s, keeps st s root ->
    as_inv s root /\ (-1 = -1 /\ forall w, translate (ram s) root w = translate (ram st) root w)).
  { intros s [? ? ? ?]. auto. }
  destruct (get_table _ st) as [r1 st1] eqn:E1. destruct (upper_levels st root virt r1 st1 Has E1) as [K1 W1].
  destruct r1 as [pdpt|]; [|injection Hmap as <- <-; destruct (Hk st1 K1); auto].
  destruct (get_table _ st1) as [r2 st2] eqn:E2. destruct (W1 pdpt eq_refl r2 st2 E2) as [K2 W2].
  destruct r2 as [pd|]; [|injection Hmap as <- <-; destruct (Hk st2 K2); auto].
  specialize (W2 pd eq_refl). cbv zeta in Hmap.
  destruct (present _ && _) eqn:Ep; injection Hmap as <- <-; [destruct (Hk st2 K2); auto|].
  rewrite land_mask64 by lia. set (p := phys_addr - phys_addr mod 2 ^ 21).
  assert (Hp : 0 <= p /\ p + 2 ^ 21 <= 2 ^ 64 /\ p mod 2 ^ 21 = 0).
  { unfold p. change (2 ^ 21) with 2097152. dlia. }
  assert (Hpa : p mod 4096 = 0) by (destruct Hp as (_ & _ & Hp); change (2 ^ 21) with 2097152 in Hp; dlia).
  clearbody p. destruct (entry_flags p flags Hpa) as [Epv Ehv].
  assert (Hv : Z.lor p flags = p + flags) by (apply (lor_flags p flags 12); [lia|exact Hpa|lia]).
  destruct (write_large st2 root virt pd (Z.lor p flags) (kp_inv _ _ _ K2) W2 Ep) as [Has3 Htr];
    [rewrite Hv; lia|by rewrite Epv, Ehv, Hhf, andb_false_r|].
  split; [done|]. right. split; [done|]. intros w. rewrite Htr, (kp_translate _ _ _ K2), Epv, Hpf.
  rewrite land_mask64 by (rewrite ?Hv; lia). rewrite Hv, Z.add_mod, (proj2 (proj2 Hp)) by lia.
  rewrite Z.add_0_l, Z.mod_mod, (Z.mod_small flags) by lia. destruct (same_large virt w); [|done]. f_equal. lia.
Qed.

(** ** An empty address space, and the witnesses *)

(** A page in use whose bytes are all zero is an empty, well-formed address space:
    this is what [pmm_alloc_page] hands out. *)
Lemma empty_as_inv st idx :
  pmm_inv st -> is_page st idx -> used st idx = true ->
  (forall x, page_addr st idx <= x < page_addr st idx + 4096 -> rd8 (ram st) x = 0) ->
  as_inv st (page_addr st idx) /\ forall v, translate (ram st) (page_addr st idx) v = None.
Proof.
  intros Hinv Hp Hu Hz. set (root := page_addr st idx) in *.
  assert (He : forall i, is_idx i -> rd64 (ram st) (slot root i) = 0).
  { intros i Hi. apply rdle_zero. intros x Hx. apply Hz. unfold slot, is_idx in *. lia. }
  assert (Hw : forall path t, Forall is_idx path -> walk_table (ram st) root path = Some t -> path = [] /\ t = root).
  { intros [|i path] t Hf Ht; [by injection Ht as <-|]. apply Forall_cons in Hf as [Hi _].
    simpl in Ht. by rewrite He in Ht. }
  destruct (page_addr_aligned st idx Hinv Hp) as (Ha & H0 & H64). destruct (idx_bounds st idx Hinv Hp) as (_ & Hb & _).
  split; [split; auto|].
  - intros path t _ Hf Ht. destruct (Hw path t Hf Ht) as [_ ->]. unfold root. lia.
  - intros path t _ Hf Ht. destruct (Hw path t Hf Ht) as [_ ->]. split; [by right|].
    intros j Hj Hej. unfold root, page_addr, PMM_PAGE_SIZE in Hej. by assert (j = idx) as -> by lia.
  - intros path path' t _ _ Hf Hf' Ht Ht'. destruct (Hw _ _ Hf Ht) as [-> _], (Hw _ _ Hf' Ht') as [-> _]. done.
  - intros path t i _ Hf Hi Ht. destruct (Hw path t Hf Ht) as [_ ->]. by rewrite He.
  - intros v. apply (translate_blocked _ _ [] root (pml4_idx v)); [done| |].
    + by rewrite He by apply idx_range.
    + by exists [pdpt_idx v; pd_idx v; pt_idx v].
Qed.

(** Eight pages at 8192, the first in use as an empty page table. *)
Definition demo_space : phys := Phys {[4096 := 1]} 4096 8192 8 1.

Lemma demo_space_inv : as_inv demo_space 8192.
Proof.
  apply (empty_as_inv demo_space 0); [split; vm_compute; auto; try split; congruence|
    split; vm_compute; congruence|reflexivity|].
  intros x Hx. unfold rd8, demo_space, ram. rewrite lookup_singleton_ne; [reflexivity|].
  unfold page_addr, demo_space, pmm_base, PMM_PAGE_SIZE in Hx. lia.
Qed.

Definition demo_map : Z * phys := paging_map_for_process 8192 20480 1234567890 7 demo_space.

Lemma demo_map_eq : paging_map_for_process 8192 20480 1234567890 7 demo_space = (fst demo_map, snd demo_map).
Proof. unfold demo_map. apply surjective_pairing. Qed.

Lemma demo_map_fst : fst demo_map = 0.
Proof. vm_compute. reflexivity. Qed.

Lemma demo_map_inv : as_inv (snd demo_map) 8192.
Proof.
  apply (paging_map_small demo_space 8192 20480 1234567890 7 (fst demo_map) (snd demo_map)
    demo_space_inv ltac:(lia) ltac:(lia) eq_refl eq_refl demo_map_eq).
Qed.

Lemma paging_map_for_process_spec_witness :
  fst demo_map = 0 /\
  translate (ram (snd demo_map)) 8192 1234567890 = Some (20480 + 1234567890 mod 2 ^ 12).
Proof.
  destruct (paging_map_for_process_spec demo_space 8192 20480 1234567890 7 (fst demo_map) (snd demo_map)
    demo_space_inv ltac:(lia) ltac:(lia) eq_refl eq_refl demo_map_eq) as (_ & _ & _ & [[H _]|[H Htr]]).
  - rewrite demo_map_fst in H. discriminate H.
  - split; [exact H|]. rewrite Htr. vm_compute. reflexivity.
Defined.

Definition demo_unmap : Z * phys := paging_unmap_for_process 8192 1234567890 (snd demo_map).

Lemma paging_unmap_for_process_spec_witness :
  fst demo_unmap = 0 /\ translate (ram (snd demo_unmap)) 8192 1234567890 = None.
Proof.
  assert (E : paging_unmap_for_process 8192 1234567890 (snd demo_map) = (fst demo_unmap, snd demo_unmap))
    by (unfold demo_unmap; apply surjective_pairing).
  assert (E0 : fst demo_unmap = 0) by (vm_compute; reflexivity).
  destruct (paging_unmap_for_process_spec (snd demo_map) 8192 1234567890 (fst demo_unmap) (snd demo_unmap)
    demo_map_inv E) as [_ [(H & _)|(H & pd & _ & Htr)]].
  - rewrite E0 in H. discriminate H.
  - split; [exact H|]. rewrite Htr. destruct (huge _); vm_compute; reflexivity.
Defined.

Definition demo_large : Z * phys := paging_map_for_process 8192 6291456 1234567890 135 demo_space.

Lemma paging_map_large_spec_witness :
  fst demo_large = 0 /\
  translate (ram (snd demo_large)) 8192 1234567891 = Some (6291456 + 1234567891 mod 2 ^ 21).
Proof.
  assert (E : paging_map_for_process 8192 6291456 1234567890 135 demo_space = (fst demo_large, snd demo_large))
    by (unfold demo_large; apply surjective_pairing).
  assert (E0 : fst demo_large = 0) by (vm_compute; reflexivity).
  destruct (paging_map_large_spec demo_space 8192 6291456 1234567890 135 (fst demo_large) (snd demo_large)
    demo_space_inv ltac:(lia) ltac:(lia) eq_refl eq_refl E) as [_ [[H _]|[H Htr]]].
  - rewrite E0 in H. discriminate H.
  - split; [exact H|]. rewrite Htr. vm_compute. reflexivity.
Defined.
