(* ===== verification/PageCount.v ===== *)
(** * How many pages a mapping takes

    The pages of the allocator that are free, as a number, and the bound that a mapping of
    a small page takes at most three of them for its tables.  With it "no page is left" says
    how few pages there were before an operation that fails. *)

From S2P Require Import Prelude Mem Pmm Paging.

(** No page of the allocator is free. *)
Definition all_used (p : phys) : Prop := forall idx, is_page p idx -> used p idx = true.

Lemma get_table_failed a p q : pmm_inv p -> get_table a p = (None, q) -> q = p /\ all_used p.
Proof.
  intros Hp. unfold get_table. destruct (_ =? 0); [|done]. destruct (pmm_alloc_page p) as [t p1] eqn:E.
  destruct (Z.eqb_spec t 0) as [->|]; [|done]. intros [= <-].
  destruct (pmm_alloc_cases p 0 p1 Hp E) as [(_ & -> & Hu)|(? & _ & ? & _)]; done.
Qed.

Lemma split_huge_failed a p q : pmm_inv p -> split_huge a p = (false, q) -> q = p /\ all_used p.
Proof.
  intros Hp. unfold split_huge. destruct (_ && _); [|done]. destruct (pmm_alloc_page p) as [t p1] eqn:E.
  destruct (Z.eqb_spec t 0) as [->|]; [|done]. intros [= <-].
  destruct (pmm_alloc_cases p 0 p1 Hp E) as [(_ & -> & Hu)|(? & _ & ? & _)]; done.
Qed.

(** A small page is not mapped only when there is no page for a table. *)
Lemma map_failed st root phys virt flags st' :
  as_inv st root -> huge flags = false -> paging_map_for_process root phys virt flags st = (-1, st') -> all_used st'.
Proof.
  intros Ha Hh Hm. unfold paging_map_for_process in Hm. fold (huge flags) in Hm. rewrite Hh in Hm.
  destruct (get_table _ st) as [r1 st1] eqn:E1. destruct (upper_levels st root virt r1 st1 Ha E1) as [K1 W1].
  destruct r1 as [pdpt|]; [|by destruct (get_table_failed _ _ _ (as_pmm _ _ Ha) E1) as [-> Hu]; injection Hm as ->].
  destruct (get_table _ st1) as [r2 st2] eqn:E2. destruct (W1 pdpt eq_refl r2 st2 E2) as [K2 W2].
  pose proof (as_pmm _ _ (kp_inv _ _ _ K1)) as P1. pose proof (as_pmm _ _ (kp_inv _ _ _ K2)) as P2.
  destruct r2 as [pd|]; [|by destruct (get_table_failed _ _ _ P1 E2) as [-> Hu]; injection Hm as ->].
  specialize (W2 pd eq_refl). destruct (split_huge _ st2) as [b st3] eqn:E3.
  destruct (split_huge_spec st2 root [pml4_idx virt; pdpt_idx virt] pd _ b st3 (kp_inv _ _ _ K2) eq_refl (idx2 virt) (idx_range virt 21 : is_idx (pd_idx virt)) W2 E3) as [K3 _].
  destruct b; [|by destruct (split_huge_failed _ _ _ P2 E3) as [-> Hu]; injection Hm as ->].
  destruct (get_table _ st3) as [r4 st4] eqn:E4.
  destruct r4 as [pt|]; [done|]. by destruct (get_table_failed _ _ _ (as_pmm _ _ (kp_inv _ _ _ K3)) E4) as [-> Hu]; injection Hm as ->.
Qed.

(** ** Counting *)

Definition free_pages (p : phys) : nat := length (filter (fun idx => used p idx = false) (seqZ 0 (pmm_total p))).

Lemma filter_length_one {A} `{!EqDecision A} (P Q : A -> Prop) `{!forall x, Decision (P x), !forall x, Decision (Q x)} x l :
  NoDup l -> (forall y, y ∈ l -> y <> x -> P y -> Q y) -> (length (filter P l) <= S (length (filter Q l)))%nat.
Proof.
  induction 1 as [|y l Hy Hl IH]; intros HPQ; [cbn; lia|]. rewrite !filter_cons.
  assert (Hrest : forall z, z ∈ l -> z <> x -> P z -> Q z) by (intros z Hz; apply HPQ; by right).
  destruct (decide (y = x)) as [->|Hne].
  - assert (Hle : (length (filter P l) <= length (filter Q l))%nat).
    { clear IH HPQ Hl. revert Hy Hrest. induction l as [|z l IH]; intros Hy Hrest; [done|]. rewrite !filter_cons.
      assert (Hzx : z <> x) by (intros ->; apply Hy; by left).
      specialize (IH ltac:(intros ?; apply Hy; by right) ltac:(intros; apply Hrest; [by right|done..])).
      pose proof (Hrest z ltac:(by left) Hzx). destruct (decide (P z)), (decide (Q z)); cbn [length]; (tauto || lia). }
    destruct (decide (P x)), (decide (Q x)); cbn [length]; lia.
  - specialize (IH Hrest). pose proof (HPQ y ltac:(by left) Hne). destruct (decide (P y)), (decide (Q y)); cbn [length]; (tauto || lia).
Qed.

Lemma filter_seq_ext (f g : Z -> bool) a n : (forall i, a <= i < a + n -> f i = g i) ->
  filter (fun i => f i = false) (seqZ a n) = filter (fun i => g i = false) (seqZ a n).
Proof.
  intros Hfg. assert (Hl : Forall (fun i => f i = g i) (seqZ a n)) by (apply Forall_forall; intros i Hi; apply Hfg, elem_of_seqZ; done).
  induction Hl as [|i l Hi Hl IH]; [done|]. rewrite !filter_cons, IH, Hi. done.
Qed.

(** [st'] has the same pages, of which at most [k] more are used. *)
Record spends (k : nat) (st st' : phys) : Prop := {
  sp_total : pmm_total st' = pmm_total st;
  sp_free : (free_pages st <= free_pages st' + k)%nat }.

Lemma spends_refl st : spends 0 st st.
Proof. split; [done|lia]. Qed.

Lemma spends_trans k1 k2 k st1 st2 st3 : spends k1 st1 st2 -> spends k2 st2 st3 -> (k1 + k2 <= k)%nat -> spends k st1 st3.
Proof. intros [T1 F1] [T2 F2] Hk. split; [congruence|lia]. Qed.

Lemma spends_le k k' st st' : spends k st st' -> (k <= k')%nat -> spends k' st st'.
Proof. intros [T F] Hk. split; [done|lia]. Qed.

Lemma all_used_free p : all_used p -> free_pages p = 0%nat.
Proof.
  intros Hu. unfold free_pages. destruct (filter _ _) as [|i l] eqn:E; [done|].
  assert (Hi : i ∈ filter (fun idx => used p idx = false) (seqZ 0 (pmm_total p))) by (rewrite E; by left).
  apply list_elem_of_filter in Hi as [Hf Hi]. apply elem_of_seqZ in Hi. rewrite Hu in Hf; [done|]. unfold is_page. lia.
Qed.

Lemma spends_used k st st' : spends k st st' -> all_used st' -> (free_pages st <= k)%nat.
Proof. intros [_ F] Hu. rewrite (all_used_free st' Hu) in F. lia. Qed.

Lemma alloc_spends st idx st' : page_allocated st idx st' -> spends 1 st st'.
Proof.
  intros [_ _ Hu _ _ _ (_ & _ & Ht) _]. split; [done|]. unfold free_pages. rewrite Ht.
  rewrite Nat.add_1_r. apply (filter_length_one _ _ idx); [apply NoDup_seqZ|]. intros j Hj Hne Hf. apply elem_of_seqZ in Hj.
  rewrite Hu by (unfold is_page; lia). by rewrite (proj2 (Z.eqb_neq _ _)).
Qed.

(** Bytes outside of the bitmap do not matter. *)
Lemma set_ram_spends st m : pmm_inv st ->
  (forall x, pmm_bitmap st <= x < pmm_base st -> rd8 m x = rd8 (ram st) x) -> spends 0 st (set_ram m st).
Proof.
  intros Hinv Hm. split; [done|]. rewrite Nat.add_0_r. unfold free_pages. cbn [pmm_total set_ram].
  apply Nat.eq_le_incl. f_equal. apply filter_seq_ext. intros i Hi.
  destruct (idx_bounds st i Hinv ltac:(unfold is_page; lia)) as (Hb & _). unfold used. cbn [ram set_ram].
  change (bitmap_byte (set_ram m st) i) with (bitmap_byte st i). pose proof (inv_below _ Hinv). by rewrite Hm by lia.
Qed.

(** ** The steps of a mapping *)

(** Storing an entry of a table of [st] in a state with the same layout. *)
Lemma entry_spends st root path0 t0 i0 v st1 m :
  as_inv st root -> (length path0 <= 3)%nat -> Forall is_idx path0 -> is_idx i0 -> walk_table (ram st) root path0 = Some t0 ->
  pmm_inv st1 -> pmm_bitmap st1 = pmm_bitmap st -> pmm_base st1 = pmm_base st ->
  (forall x, pmm_bitmap st <= x < pmm_base st -> rd8 m x = rd8 (ram st1) x) -> spends 0 st1 (set_ram (wr64 m (slot t0 i0) v) st1).
Proof.
  intros Has Hl Hf Hi Ht H1 Hb Hba Hm. apply set_ram_spends; [done|]. rewrite Hb, Hba. intros x Hx.
  destruct (as_live _ _ Has path0 t0 Hl Hf Ht) as [Hreg _]. rewrite rd8_wr64_out by (unfold slot, is_idx in *; lia). by apply Hm.
Qed.

Lemma get_table_spends st root path0 t0 i0 r st' :
  as_inv st root -> (length path0 <= 3)%nat -> Forall is_idx path0 -> is_idx i0 -> walk_table (ram st) root path0 = Some t0 ->
  get_table (slot t0 i0) st = (r, st') ->
  spends (if present (rd64 (ram st) (slot t0 i0)) then 0 else 1) st st'.
Proof.
  intros Has Hl Hf Hi Ht Hget. unfold get_table in Hget. rewrite not_present in Hget. destruct (present _) eqn:Ep; cbn [negb] in Hget.
  { injection Hget as _ <-. apply spends_refl. }
  destruct (pmm_alloc_page st) as [p st1] eqn:Ea. pose proof Has as [Hpmm _ _ _ _].
  destruct (pmm_alloc_cases st p st1 Hpmm Ea) as [(-> & -> & _)|(idx & -> & Hp0 & Hal)].
  { injection Hget as _ <-. eapply spends_le; [apply spends_refl|lia]. }
  rewrite (proj2 (Z.eqb_neq _ 0)) in Hget by done. injection Hget as _ <-. pose proof (pa_layout _ _ _ Hal) as (Hb & Hba & _).
  eapply spends_trans; [exact (alloc_spends _ _ _ Hal)| |apply le_n].
  apply (entry_spends st root path0 t0 i0); [done|lia|done|done|done|apply Hal|done|done|]. intros x Hx. by apply (clear_again st idx).
Qed.

Lemma split_huge_spends st root path0 t0 i0 b st' :
  as_inv st root -> (length path0 <= 3)%nat -> Forall is_idx path0 -> is_idx i0 -> walk_table (ram st) root path0 = Some t0 ->
  split_huge (slot t0 i0) st = (b, st') ->
  spends 0 st st' /\ st' = st \/ spends 1 st st' /\ present (rd64 (ram st') (slot t0 i0)) = true.
Proof.
  intros Has Hl Hf Hi Ht Hsp. unfold split_huge in Hsp. destruct (_ && _); [|injection Hsp as _ <-; left; split; [apply spends_refl|done]].
  destruct (pmm_alloc_page st) as [p st1] eqn:Ea. pose proof Has as [Hpmm _ _ _ _].
  destruct (pmm_alloc_cases st p st1 Hpmm Ea) as [(-> & -> & _)|(idx & -> & Hp0 & Hal)].
  { injection Hsp as _ <-. left. split; [apply spends_refl|done]. }
  rewrite (proj2 (Z.eqb_neq _ 0)) in Hsp by done. injection Hsp as _ <-. pose proof (pa_layout _ _ _ Hal) as (Hb & Hba & _). right. split.
  - eapply spends_trans; [exact (alloc_spends _ _ _ Hal)| |apply le_n].
    apply (entry_spends st root path0 t0 i0); [done|lia|done|done|done|apply Hal|done|done|]. intros x Hx. apply fill_split_out.
    destruct (idx_bounds st idx Hpmm (pa_page _ _ _ Hal)) as (_ & Hbase & _). lia.
  - cbn [ram set_ram]. rewrite rd64_wr64_eq, present_testbit. unfold u64. rewrite Z.mod_pow2_bits_low by lia.
    rewrite !Z.lor_spec. change (Z.testbit PAGE_PRESENT 0) with true. by rewrite orb_true_r.
Qed.

(** A small page takes at most three pages for tables. *)
Lemma map_spends st root phys virt flags r st' :
  as_inv st root -> huge flags = false -> paging_map_for_process root phys virt flags st = (r, st') -> spends 3 st st'.
Proof.
  intros Ha Hh Hm. unfold paging_map_for_process in Hm. fold (huge flags) in Hm. rewrite Hh in Hm.
  assert (I4 : is_idx (pml4_idx virt)) by apply idx_range. assert (I3 : is_idx (pdpt_idx virt)) by apply idx_range.
  assert (I2 : is_idx (pd_idx virt)) by apply idx_range. assert (F1 : Forall is_idx [pml4_idx virt]) by by apply Forall_singleton.
  pose proof (idx2 virt) as F2.
  destruct (get_table _ st) as [r1 st1] eqn:E1. destruct (upper_levels st root virt r1 st1 Ha E1) as [K1 W1].
  pose proof (get_table_spends st root [] root (pml4_idx virt) r1 st1 Ha (Nat.le_0_l _) (Forall_nil_2 _) I4 eq_refl E1) as S1.
  apply (spends_le _ 1) in S1; [|destruct (present _); lia].
  destruct r1 as [pdpt|]; [|injection Hm as _ <-; eapply spends_le; [exact S1|lia]].
  destruct (get_table _ st1) as [r2 st2] eqn:E2. destruct (W1 pdpt eq_refl r2 st2 E2) as [K2 W2].
  assert (Hw1 : walk_table (ram st1) root [pml4_idx virt] = Some pdpt).
  { by apply (get_table_spec st root [] root (pml4_idx virt) (Some pdpt) st1 Ha ltac:(cbn; lia) (Forall_nil_2 _) I4 eq_refl
      (as_small _ _ Ha [] root _ ltac:(cbn; lia) (Forall_nil_2 _) I4 eq_refl) E1). }
  assert (S2 : spends 2 st st2).
  { pose proof (get_table_spends st1 root [pml4_idx virt] pdpt (pdpt_idx virt) r2 st2 (kp_inv _ _ _ K1) ltac:(cbn; lia) F1 I3 Hw1 E2) as S2.
    eapply spends_trans; [exact S1|exact S2|destruct (present _); lia]. }
  destruct r2 as [pd|]; [|injection Hm as _ <-; eapply spends_le; [exact S2|lia]].
  specialize (W2 pd eq_refl). destruct (split_huge _ st2) as [b st3] eqn:E3.
  destruct (split_huge_spec st2 root [pml4_idx virt; pdpt_idx virt] pd _ b st3 (kp_inv _ _ _ K2) eq_refl F2 I2 W2 E3) as [K3 _].
  pose proof (split_huge_spends st2 root [pml4_idx virt; pdpt_idx virt] pd _ b st3 (kp_inv _ _ _ K2) ltac:(cbn; lia) F2 I2 W2 E3) as S3.
  pose proof (kp_walk _ _ _ K3 [pml4_idx virt; pdpt_idx virt] _ (le_S _ _ (le_n 2)) F2 W2) as W3.
  destruct b; [|injection Hm as _ <-; destruct S3 as [[S3 _]|[S3 _]]; (eapply spends_trans; [exact S2|exact S3|lia])].
  destruct (get_table _ st3) as [r4 st4] eqn:E4.
  pose proof (get_table_spends st3 root [pml4_idx virt; pdpt_idx virt] pd _ r4 st4 (kp_inv _ _ _ K3) ltac:(cbn; lia) F2 I2 W3 E4) as S4.
  assert (S34 : spends 3 st st4).
  { destruct S3 as [[_ ->]|[S3 Hp]]; [eapply spends_trans; [exact S2|exact S4|destruct (present _); lia]|].
    rewrite Hp in S4. eapply spends_trans; [exact (spends_trans _ _ 3 _ _ _ S2 S3 ltac:(lia))|exact S4|lia]. }
  destruct r4 as [pt|]; injection Hm as _ <-; [|done]. eapply spends_trans; [exact S34| |apply Nat.le_refl].
  destruct (split_huge_spec st2 root [pml4_idx virt; pdpt_idx virt] pd _ true st3 (kp_inv _ _ _ K2) eq_refl F2 I2 W2 E3) as [_ H3].
  destruct (get_table_spec st3 root [pml4_idx virt; pdpt_idx virt] pd _ (Some pt) st4 (kp_inv _ _ _ K3) (le_n 3) F2 I2 W3 (H3 eq_refl) E4) as [K4 W4].
  pose proof (idxs_range virt) as Hr. apply (Forall_app _ [_; _; _] [_]) in Hr as [Hr Hi]. rewrite Forall_singleton in Hi.
  exact (entry_spends st4 root [pml4_idx virt; pdpt_idx virt; pd_idx virt] pt (pt_idx virt) _ st4 _ (kp_inv _ _ _ K4) (le_n 3) Hr Hi (W4 pt eq_refl)
    (as_pmm _ _ (kp_inv _ _ _ K4)) eq_refl eq_refl ltac:(done)).
Qed.
