(* ===== verification/Elf.v ===== *)
(** * Program loading: kernel/core/elf.c and kernel/core/binfmt.c

    The file to load is a range of the memory [ram] that starts at the address
    [data]; its headers are read from there at the offsets of the packed structs of
    elf.h.  The loaders allocate pages, map them in the address space [pml4] and
    fill them through their physical addresses.  A program header is read once for
    its segment: the file is not in a page that the loaders fill. *)

From stdpp Require Import strings.
From S2P Require Import Prelude Mem Pmm Paging.

(** ** Headers (elf.h) *)

Definition ELF_MAGIC : Z := 0x464C457F.
Definition ET_EXEC : Z := 2.
Definition ET_DYN : Z := 3.
Definition PT_LOAD : Z := 1.

Definition hdr_type (m : mem) (data : Z) : Z := rdle m (data + 16) 2.
Definition hdr_machine (m : mem) (data : Z) : Z := rdle m (data + 18) 2.
Definition hdr_entry (m : mem) (data : Z) : Z := rd64 m (data + 24).
Definition hdr_phoff (m : mem) (data : Z) : Z := rd64 m (data + 32).
Definition hdr_phentsize (m : mem) (data : Z) : Z := rdle m (data + 54) 2.
Definition hdr_phnum (m : mem) (data : Z) : Z := rdle m (data + 56) 2.

Record elf64_phdr := Phdr {
  ph_type : Z; ph_flags : Z; ph_offset : Z; ph_vaddr : Z;
  ph_paddr : Z; ph_filesz : Z; ph_memsz : Z; ph_align : Z }.

Definition read_phdr (m : mem) (a : Z) : elf64_phdr :=
  Phdr (rdle m a 4) (rdle m (a + 4) 4) (rd64 m (a + 8)) (rd64 m (a + 16))
       (rd64 m (a + 24)) (rd64 m (a + 32)) (rd64 m (a + 40)) (rd64 m (a + 48)).

(** [(elf64_phdr_t* )(data + hdr->phoff + i * hdr->phentsize)] *)
Definition phdr (m : mem) (data i : Z) : elf64_phdr :=
  read_phdr m (u64 (data + hdr_phoff m data + i * hdr_phentsize m data)).

Definition elf_check_header (m : mem) (hdr : Z) : Z :=
  if negb (rdle m hdr 4 =? ELF_MAGIC) then -1 else
  if negb (rd8 m (hdr + 4) =? 2) then -1 else
  if negb (rd8 m (hdr + 5) =? 1) then -1 else
  if negb (hdr_type m hdr =? ET_EXEC) && negb (hdr_type m hdr =? ET_DYN) then -1 else
  if negb (hdr_machine m hdr =? 0x3E) then -1 else 0.

(** ** Loading a segment *)

Definition user_rw : Z := Z.lor (Z.lor PAGE_PRESENT PAGE_WRITABLE) PAGE_USER.

(** The part of the page at [virt] that the file has bytes for. *)
Definition page_window (vaddr filesz virt : Z) : Z * Z :=
  let seg_end := u64 (vaddr + filesz) in
  let pg_end := u64 (virt + 4096) in
  ((if virt <? vaddr then vaddr else virt), (if seg_end <? pg_end then seg_end else pg_end)).

(** One iteration of the page loop; [false] is [return 0]. *)
Definition load_page (pml4 data : Z) (ph : elf64_phdr) (vaddr virt : Z) (st : phys) : bool * phys :=
  let '(phys, st) := pmm_alloc_page st in
  if phys =? 0 then (false, st) else
  match paging_map_for_process pml4 phys virt user_rw st with
  | (0, st) =>
      let m := memset (ram st) phys 0 page_size in
      let '(pg_start, pg_end) := page_window vaddr (ph_filesz ph) virt in
      let m := if pg_start <? pg_end then
                 let copy_size := pg_end - pg_start in
                 let file_off := u64 (ph_offset ph + (pg_start - vaddr)) in
                 let dest_off := pg_start - virt in
                 memcpy m (u64 (phys + dest_off)) (u64 (data + file_off)) (Z.to_nat copy_size)
               else m in
      (true, set_ram m st)
  | (_, st) => (false, pmm_free_page phys st)
  end.

(** [for (j = 0; j < num_pages; j++)] from [virt] on *)
Fixpoint load_pages (pml4 data : Z) (ph : elf64_phdr) (vaddr virt : Z) (n : nat) (st : phys) : bool * phys :=
  match n with
  | O => (true, st)
  | S n => match load_page pml4 data ph vaddr virt st with
           | (true, st) => load_pages pml4 data ph vaddr (u64 (virt + 4096)) n st
           | (false, st) => (false, st)
           end
  end.

(** The first loop: the lowest address of the loadable segments. *)
Definition min_vaddr (m : mem) (data : Z) : Z :=
  let v := foldl (fun v i => let ph := phdr m data i in
                    if (ph_type ph =? PT_LOAD) && (ph_vaddr ph <? v) then ph_vaddr ph else v)
             (2 ^ 64 - 1) (seqZ 0 (hdr_phnum m data)) in
  if v =? 2 ^ 64 - 1 then 0 else v.

(** The body of the second loop: [None] is [return 0]; the first component is
    [max_vaddr]. *)
Definition load_segment (pml4 data base i : Z) (max_vaddr : Z) (st : phys) : option Z * phys :=
  let ph := phdr (ram st) data i in
  if negb (ph_type ph =? PT_LOAD) then (Some max_vaddr, st) else
  if ph_memsz ph =? 0 then (Some max_vaddr, st) else
  let vaddr := u64 (ph_vaddr ph + base) in
  if vaddr <? 0x10000 then (None, st) else
  let end_vaddr := u64 (vaddr + ph_memsz ph) in
  let max_vaddr := if max_vaddr <? end_vaddr then end_vaddr else max_vaddr in
  let start_page := Z.land vaddr (mask64 12) in
  let end_page := Z.land (u64 (vaddr + ph_memsz ph + 4095)) (mask64 12) in
  let num_pages := u64 (end_page - start_page) / 4096 in
  match load_pages pml4 data ph vaddr start_page (Z.to_nat num_pages) st with
  | (true, st) => (Some max_vaddr, st)
  | (false, st) => (None, st)
  end.

Fixpoint load_segments (pml4 data base : Z) (idxs : list Z) (max_vaddr : Z) (st : phys) : option Z * phys :=
  match idxs with
  | [] => (Some max_vaddr, st)
  | i :: idxs =>
      match load_segment pml4 data base i max_vaddr st with
      | (Some max_vaddr, st) => load_segments pml4 data base idxs max_vaddr st
      | (None, st) => (None, st)
      end
  end.

(** The entry point (0 is the failure) and [*out_max_vaddr], which a failure leaves
    as it was. *)
Definition elf_load (data size pml4 : Z) (out : Z) (st : phys) : Z * Z * phys :=
  if negb (elf_check_header (ram st) data =? 0) then (0, out, st) else
  let base := u64 (0x40000000 - min_vaddr (ram st) data) in
  match load_segments pml4 data base (seqZ 0 (hdr_phnum (ram st) data)) 0 st with
  | (None, st) => (0, out, st)
  | (Some max_vaddr, st) =>
      (u64 (hdr_entry (ram st) data + base), Z.land (u64 (max_vaddr + 4095)) (mask64 12), st)
  end.

(** ** The binary formats (binfmt.c) *)

Definition RAW_LOAD_BASE : Z := 0x40000000.

Definition elf_probe (m : mem) (data size : Z) : bool :=
  if size <? 64 then false else
  if negb (rdle m data 4 =? ELF_MAGIC) then false else
  if negb (rd8 m (data + 4) =? 2) then false else
  if negb (rd8 m (data + 5) =? 1) then false else true.

Definition raw_probe (m : mem) (data size : Z) : bool := 0 <? size.

(** The page loop of [raw_load]; [size] is 32 bits wide, [i * 4096] 64. *)
Fixpoint raw_pages (pml4 data size : Z) (n : nat) (i : Z) (st : phys) : bool * phys :=
  match n with
  | O => (true, st)
  | S n =>
      let '(phys, st) := pmm_alloc_page st in
      if phys =? 0 then (false, st) else
      match paging_map_for_process pml4 phys (RAW_LOAD_BASE + i * 4096) user_rw st with
      | (0, st) =>
          let chunk := u64 (size - i * 4096) in
          let chunk := if 4096 <? chunk then 4096 else chunk in
          let m := memset (ram st) phys 0 page_size in
          let m := memcpy m phys (u64 (data + i * 4096)) (Z.to_nat chunk) in
          raw_pages pml4 data size n (i + 1) (set_ram m st)
      | (_, st) => (false, pmm_free_page phys st)
      end
  end.

Definition raw_load (data size pml4 : Z) (out : Z) (st : phys) : Z * Z * phys :=
  let pages := u32 (size + 4095) / 4096 in
  if pages =? 0 then (0, out, st) else
  match raw_pages pml4 data size (Z.to_nat pages) 0 st with
  | (false, st) => (0, out, st)
  | (true, st) => (RAW_LOAD_BASE, RAW_LOAD_BASE + pages * 4096, st)
  end.

(** A registered format; the list [formats] has the last registered first. *)
Record binfmt := Binfmt {
  fmt_name : string;
  fmt_probe : mem -> Z -> Z -> bool;
  fmt_load : Z -> Z -> Z -> Z -> phys -> Z * Z * phys }.

Definition elf_format : binfmt := Binfmt "elf64"%string elf_probe elf_load.
Definition raw_format : binfmt := Binfmt "raw"%string raw_probe raw_load.

(** [None] is a null pointer or a format without its functions. *)
Definition binfmt_register (fmt : option binfmt) (formats : list binfmt) : Z * list binfmt :=
  match fmt with None => (-1, formats) | Some f => (0, f :: formats) end.

(** The formats after [binfmt_init_builtin], on top of those registered before. *)
Definition binfmt_init_builtin (ready : bool) (formats : list binfmt) : bool * list binfmt :=
  if ready then (ready, formats)
  else
    let '(_, formats) := binfmt_register (Some raw_format) formats in
    let '(_, formats) := binfmt_register (Some elf_format) formats in
    (true, formats).

Fixpoint binfmt_find (m : mem) (data size : Z) (fs : list binfmt) : option binfmt :=
  match fs with
  | [] => None
  | f :: fs => if fmt_probe f m data size then Some f else binfmt_find m data size fs
  end.

(** The statics [binfmt_ready] and [formats]. *)
Definition binfmt_state : Type := bool * list binfmt.

Definition binfmt_load (b : binfmt_state) (data size pml4 : Z) (out : Z) (st : phys) :
    Z * Z * phys * binfmt_state :=
  if (data =? 0) || (size =? 0) then (0, out, st, b) else
  let b := binfmt_init_builtin b.1 b.2 in
  match binfmt_find (ram st) data size b.2 with
  | Some f => let '(entry, out, st) := fmt_load f data size pml4 out st in (entry, out, st, b)
  | None => (0, out, st, b)
  end.

Definition binfmt_name (b : binfmt_state) (m : mem) (data size : Z) : string * binfmt_state :=
  if (data =? 0) || (size =? 0) then ("none"%string, b) else
  let b := binfmt_init_builtin b.1 b.2 in
  match binfmt_find m data size b.2 with Some f => (fmt_name f, b) | None => ("none"%string, b) end.

(** ** Replacing the image of the current process (elf.c) *)

Definition user_stack_top : Z := 0x4000000000.

(** The loop that maps the 64 pages of the user stack; on a failure the address
    space is freed. *)
Fixpoint map_stack (pml4 : Z) (i : Z) (n : nat) (st : phys) : bool * phys :=
  match n with
  | O => (true, st)
  | S n =>
      let '(phys, st) := pmm_alloc_page st in
      if phys =? 0 then (false, free_address_space pml4 st) else
      match paging_map_for_process pml4 phys (user_stack_top - (64 - i) * 4096) user_rw st with
      | (0, st) => map_stack pml4 (i + 1) n st
      | (_, st) => (false, free_address_space pml4 (pmm_free_page phys st))
      end
  end.

(** The fields of [process_t] that [elf_load_current] writes. *)
Record image := Image {
  im_cr3 : Z; im_rip : Z; im_heap_start : Z; im_heap_end : Z; im_rsp : Z }.

Definition elf_load_current (fb_phys fb_size data size : Z) (p : image) (k : paging) : Z * image * paging :=
  let '(pml4, k) := create_address_space fb_phys fb_size k in
  if pml4 =? 0 then (-1, p, k) else
  let '(entry, max_vaddr, st) := elf_load data size pml4 0 (ph k) in
  if entry =? 0 then (-1, p, set_ph (free_address_space pml4 st) k) else
  match map_stack pml4 0 64 st with
  | (false, st) => (-1, p, set_ph st k)
  | (true, st) =>
      let old_as := im_cr3 p in
      let p := Image pml4 entry max_vaddr max_vaddr user_stack_top in
      let st := if negb (old_as =? 0) && negb (old_as =? 0x1000) then free_address_space old_as st else st in
      (0, p, set_ph st k)
  end.
