(* ===== verification/ElfSpec.v ===== *)
(** * What the ELF loader does

    The pages of a loaded segment hold the bytes of the file and zeroes, at the addresses
    the program header says; everything else in the address space, and every byte of memory
    that was in use, stays as it was.  Where segments share a page the last one has it. *)

From S2P Require Import Prelude Mem Pmm Paging Elf.

(** ** Allocating and filling pages *)

Lemma rd8_memcpy_out n : forall m dest src x, ~ dest <= x < dest + Z.of_nat n -> rd8 (memcpy m dest src n) x = rd8 m x.
Proof.
  induction n as [|n IH]; intros m dest src x Hx; [done|]. change (memcpy m dest src (S n)) with (memcpy (wr8 m dest (rd8 m src)) (dest + 1) (src + 1) n). rewrite IH by lia. rewrite rd8_wr8. by rewrite (proj2 (Z.eqb_neq _ _)) by lia.
Qed.

Lemma alloc_data st idx st1 root :
  as_inv st root -> page_allocated st idx st1 ->
  as_inv st1 root /\ grows st st1 /\ data_kept st st1 root /\
  (forall w, translate (ram st1) root w = translate (ram st) root w) /\
  (forall x, page_addr st idx <= x < page_addr st idx + 4096 -> data_byte st1 root x).
Proof.
  intros Has Hal. pose proof (alloc_agree _ _ _ _ Has Hal) as Hag. pose proof (alloc_grows _ _ _ Hal) as Hg.
  assert (Has1 : as_inv st1 root) by (apply (as_inv_agree st st1 root []); auto).
  assert (Hw : forall path, (length path <= 3)%nat -> Forall is_idx path -> walk_table (ram st1) root path = walk_table (ram st) root path).
  { intros path Hl Hf. apply (walk_agree _ _ _ [] path Hag); auto; lia. }
  split; [done|]. split; [done|]. split; [|split].
  - apply (data_kept_step _ _ _ idx); [done|apply (pa_page _ _ _ Hal)|apply (pa_free _ _ _ Hal)| |].
    + intros path t Hl Hf Ht. left. by rewrite <- Hw.
    + intros x Hx Hout. destruct (db_region _ _ _ Hx) as [Hr|Hr]; [by apply (pa_low _ _ _ Hal)|apply (pa_frame _ _ _ Hal); [done|unfold PMM_PAGE_SIZE; lia]].
  - intros w. apply (translate_agree _ _ _ _ _ Hag). by right.
  - intros x Hx. destruct (pa_layout _ _ _ Hal) as (Hb & Hba & Ht). destruct (idx_bounds st idx (as_pmm _ _ Has) (pa_page _ _ _ Hal)) as (_ & Hlo & _).
    split.
    + right. lia.
    + intros j Hj. unfold is_page, page_addr in *. rewrite Ht in Hj. rewrite Hba. intros Hxj. rewrite (pa_used _ _ _ Hal) by done.
      replace idx with j by (unfold PMM_PAGE_SIZE in *; lia). by rewrite Z.eqb_refl.
    + intros path t Hl Hf Hwt. rewrite Hw in Hwt by done. destruct (as_page _ _ Has path t Hl Hf Hwt) as (_ & Ha & _).
      destruct (as_live _ _ Has path t Hl Hf Hwt) as [_ Hlv].
      assert (t <> page_addr st idx). { intros ->. pose proof (pa_free _ _ _ Hal) as Hfr. rewrite Hlv in Hfr; [done|apply (pa_page _ _ _ Hal)|done]. }
      destruct (page_addr_aligned st idx (as_pmm _ _ Has) (pa_page _ _ _ Hal)) as (Hpal & _ & _). dlia.
Qed.

(** Writing data bytes changes nothing about the address space. *)
Lemma fill_data st root m :
  as_inv st root -> (forall x, ~ data_byte st root x -> rd8 m x = rd8 (ram st) x) ->
  as_inv (set_ram m st) root /\ grows st (set_ram m st) /\
  (forall w, translate m root w = translate (ram st) root w) /\
  (forall x, data_byte st root x -> data_byte (set_ram m st) root x).
Proof.
  intros Has Hm.
  assert (Hg : grows st (set_ram m st)).
  { apply set_ram_grows; [apply Has|]. intros x Hx. apply Hm. intros [Hr _ _]. lia. }
  assert (Hag : agree (ram st) m root []).
  { intros path t i Hl Hf Hi Hw _. apply rd64_ext. intros x Hx. apply Hm. intros [_ _ Ht]. apply (Ht path t); auto. unfold slot, is_idx in *. lia. }
  split; [by apply (as_inv_agree st _ root []); auto|]. split; [done|]. split.
  - intros w. apply (translate_agree _ _ _ _ _ Hag). by right.
  - intros x [Hr Hu Ht]. split; [done| |].
    + intros idx Hp Hx. destruct Hg as [_ _ _ _ Hgu]. by apply Hgu, Hu.
    + intros path t Hl Hf Hw. apply (Ht path); auto. rewrite <- Hw. symmetry. apply (walk_agree _ _ _ [] path Hag); auto; lia.
Qed.

(** ** One page *)

Section segment.
(** The address space, the file of [size] bytes at [data], the segment's header and where it
    goes. *)
Context (root data size : Z) (ph : elf64_phdr) (vaddr : Z).

(** The byte of the segment at [w]: of the file, or 0. *)
Definition seg_byte (m : mem) (w : Z) : Z :=
  if (vaddr <=? w) && (w <? vaddr + ph_filesz ph) then rd8 m (data + ph_offset ph + (w - vaddr)) else 0.

Definition in_file (st : phys) : Prop := forall i, 0 <= i < size -> data_byte st root (data + i).

Record seg_ok : Prop := {
  so_data : 0 <= data /\ data + size <= 2 ^ 64;
  so_file : 0 <= ph_offset ph /\ 0 <= ph_filesz ph /\ ph_offset ph + ph_filesz ph <= size;
  so_addr : 0 <= vaddr /\ vaddr + ph_filesz ph < 2 ^ 48 }.
Context (Hok : seg_ok).

(** The page at [virt] after [load_page]. *)
Definition page_loaded (st : phys) (virt : Z) (st' : phys) (p : Z) : Prop :=
  (forall w, translate (ram st') root w = if same_page virt w then Some (p + w mod 2 ^ 12) else translate (ram st) root w) /\
  forall k, 0 <= k < 4096 -> data_byte st' root (p + k) /\ rd8 (ram st') (p + k) = seg_byte (ram st) (virt + k).

Record loaded_frame (st st' : phys) : Prop := {
  lf_inv : as_inv st' root;
  lf_grows : grows st st';
  lf_data : data_kept st st' root }.

Lemma lf_trans st1 st2 st3 : loaded_frame st1 st2 -> loaded_frame st2 st3 -> loaded_frame st1 st3.
Proof. intros [_ G1 D1] [I2 G2 D2]. split; [done|by eapply grows_trans|by eapply data_kept_trans]. Qed.

(** The memory after [load_page] has filled the page [p]. *)
Definition filled (m : mem) (p virt : Z) : mem :=
  let '(pg_start, pg_end) := page_window vaddr (ph_filesz ph) virt in
  let z := memset m p 0 page_size in
  if pg_start <? pg_end then
    memcpy z (u64 (p + (pg_start - virt))) (u64 (data + u64 (ph_offset ph + (pg_start - vaddr)))) (Z.to_nat (pg_end - pg_start))
  else z.

(** The content of the page: zeroes, and the part of the file. *)
Lemma window_byte m p virt k :
  0 <= virt -> virt + 4096 <= 2 ^ 48 -> 0 <= p -> p + 4096 <= 2 ^ 64 -> 0 <= k < 4096 ->
  (forall i, 0 <= i < size -> ~ p <= data + i < p + 4096) ->
  rd8 (filled m p virt) (p + k) = seg_byte m (virt + k).
Proof.
  intros Hv Hv48 Hp Hp64 Hk Hdis. destruct Hok as [[Hd Hd64] (Ho & Hfs & Hfe) [Ha Ha48]]. unfold filled, page_window.
  rewrite (u64_small (vaddr + ph_filesz ph)), (u64_small (virt + 4096)) by lia. set (s := if virt <? vaddr then vaddr else virt).
  set (e := if vaddr + ph_filesz ph <? virt + 4096 then vaddr + ph_filesz ph else virt + 4096). cbv zeta.
  assert (Hs : s = Z.max virt vaddr) by (subst s; destruct (Z.ltb_spec virt vaddr); lia).
  assert (He : e = Z.min (vaddr + ph_filesz ph) (virt + 4096)) by (subst e; destruct (Z.ltb_spec (vaddr + ph_filesz ph) (virt + 4096)); lia).
  clearbody s e. unfold seg_byte. destruct (Z.ltb_spec s e) as [Hse|Hse].
  - rewrite (u64_small (ph_offset ph + (s - vaddr))) by lia. rewrite (u64_small (p + (s - virt))), (u64_small (data + _)) by lia.
    assert (Hsrc : p + 4096 <= data + (ph_offset ph + (s - vaddr)) \/ data + (ph_offset ph + (s - vaddr)) + (e - s) <= p).
    { pose proof (Hdis (ph_offset ph + (s - vaddr)) ltac:(lia)). pose proof (Hdis (p - data)). lia. }
    rewrite rd8_memcpy by lia. rewrite Z2Nat.id by lia.
    destruct (Z.leb_spec (p + (s - virt)) (p + k)) as [H1|H1]; [destruct (Z.ltb_spec (p + k) (p + (s - virt) + (e - s))) as [H2|H2]|]; cbn [andb].
    + rewrite rd8_memset_out by (change (Z.of_nat page_size) with 4096; lia).
      rewrite (proj2 (andb_true_iff _ _)) by lia. f_equal. lia.
    + rewrite rd8_memset_in by (change (Z.of_nat page_size) with 4096; lia). rewrite (proj2 (andb_false_iff _ _)); [done|lia].
    + rewrite rd8_memset_in by (change (Z.of_nat page_size) with 4096; lia). rewrite (proj2 (andb_false_iff _ _)); [done|lia].
  - rewrite rd8_memset_in by (change (Z.of_nat page_size) with 4096; lia). rewrite (proj2 (andb_false_iff _ _)); [done|lia].
Qed.

(** The bytes that filling a page does not touch. *)
Lemma window_out m p virt x :
  0 <= virt -> virt + 4096 <= 2 ^ 48 -> 0 <= p -> p + 4096 <= 2 ^ 64 -> ~ p <= x < p + 4096 ->
  rd8 (filled m p virt) x = rd8 m x.
Proof.
  intros Hv Hv48 Hp Hp64 Hx. destruct Hok as [_ (_ & Hfs & _) [Ha Ha48]]. unfold filled, page_window.
  rewrite (u64_small (vaddr + ph_filesz ph)), (u64_small (virt + 4096)) by lia. set (s := if virt <? vaddr then vaddr else virt).
  set (e := if vaddr + ph_filesz ph <? virt + 4096 then vaddr + ph_filesz ph else virt + 4096).
  assert (Hs : s = Z.max virt vaddr) by (subst s; destruct (Z.ltb_spec virt vaddr); lia).
  assert (He : e = Z.min (vaddr + ph_filesz ph) (virt + 4096)) by (subst e; destruct (Z.ltb_spec (vaddr + ph_filesz ph) (virt + 4096)); lia).
  clearbody s e. destruct (Z.ltb_spec s e) as [Hse|Hse]; [rewrite (u64_small (p + (s - virt))), rd8_memcpy_out by lia|];
    by rewrite rd8_memset_out by (change (Z.of_nat page_size) with 4096; lia).
Qed.

Lemma user_rw_flags : 0 <= user_rw < 4096 /\ present user_rw = true /\ huge user_rw = false.
Proof. by vm_compute. Qed.

Lemma load_page_spec st virt st' :
  as_inv st root -> in_file st -> 0 <= virt -> virt mod 4096 = 0 -> virt + 4096 <= 2 ^ 48 ->
  load_page root data ph vaddr virt st = (true, st') -> loaded_frame st st' /\ exists p, page_loaded st virt st' p.
Proof.
  intros Has Hfile Hv Hal48 Hv48 Hload. unfold load_page in Hload. destruct (pmm_alloc_page st) as [p st1] eqn:Ea.
  destruct (pmm_alloc_cases st p st1 (as_pmm _ _ Has) Ea) as [(-> & _)|(idx & -> & Hp0 & Hal)]; [done|].
  rewrite (proj2 (Z.eqb_neq _ 0)) in Hload by done. set (p := page_addr st idx) in *.
  destruct (alloc_data st idx st1 root Has Hal) as (Has1 & G1 & D1 & T1 & P1). fold p in P1.
  destruct (page_addr_aligned st idx (as_pmm _ _ Has) (pa_page _ _ _ Hal)) as (Hpal & Hpos & Hp64). fold p in Hpal, Hpos, Hp64.
  destruct (paging_map_for_process root p virt user_rw st1) as [r st2] eqn:Em. destruct user_rw_flags as (Hf1 & Hf2 & Hf3).
  destruct (paging_map_small st1 root p virt user_rw r st2 Has1 ltac:(lia) Hf1 Hf2 Hf3 Em) as (Has2 & G2 & D2 & [[-> T2]|[-> T2]]); [done|].
  assert (st' = set_ram (filled (ram st2) p virt) st2) as -> by (unfold filled; destruct (page_window _ _ _); by injection Hload as <-). clear Hload.
  assert (Hpd : forall x, p <= x < p + 4096 -> data_byte st2 root x) by (intros x Hx; by apply D2, P1).
  destruct (fill_data st2 root (filled (ram st2) p virt) Has2) as (Has3 & G3 & T3 & D3).
  { intros x Hx. apply window_out; try lia. intros Hin. by apply Hx, Hpd. }
  assert (Hnp : forall x, data_byte st root x -> ~ p <= x < p + 4096).
  { intros x Hx Hin. pose proof (db_used _ _ _ Hx idx (pa_page _ _ _ Hal) Hin) as Hu. by rewrite (pa_free _ _ _ Hal) in Hu. }
  assert (D12 : data_kept st st2 root) by (by eapply data_kept_trans).
  split; [split; [done|eapply grows_trans; [exact G1|by eapply grows_trans]|]|].
  - intros x Hx. destruct (D12 x Hx) as [Hx2 E2]. split; [by apply D3|]. cbn [ram set_ram]. rewrite window_out by (try lia; by apply Hnp). done.
  - exists p. split.
    + intros w. cbn [ram set_ram]. rewrite T3, T2, T1. replace (table_of p) with p; [done|].
      unfold table_of. rewrite land_mask64 by lia. change (2 ^ 12) with 4096. lia.
    + intros k Hk. split; [apply D3, Hpd; lia|]. cbn [ram set_ram]. rewrite window_byte; try lia.
      * unfold seg_byte. destruct (_ && _) eqn:E; [|done]. destruct Hok as [_ Hfo _].
        replace (data + ph_offset ph + (virt + k - vaddr)) with (data + (ph_offset ph + (virt + k - vaddr))) by lia.
        apply D12, Hfile. zbool. lia.
      * intros i Hi. by apply Hnp, Hfile.
Qed.

(** ** The page loop *)

Lemma same_page_range virt w :
  0 <= virt < 2 ^ 48 -> virt mod 4096 = 0 -> 0 <= w < 2 ^ 48 -> same_page virt w = (virt <=? w) && (w <? virt + 4096).
Proof.
  intros Hv Ha Hw. unfold same_page. change (2 ^ 12) with 4096. rewrite !Z.mod_small by dlia.
  destruct (Z.eqb_spec (virt / 4096) (w / 4096)) as [E|E]; symmetry; [apply andb_true_iff; dlia|apply andb_false_iff; dlia].
Qed.

(** The pages of [st'] in the range of [n] pages from [virt] have the segment's bytes. *)
Definition pages_loaded (st : phys) (virt : Z) (n : nat) (st' : phys) : Prop :=
  forall w, 0 <= w < 2 ^ 48 ->
  if (virt <=? w) && (w <? virt + 4096 * Z.of_nat n) then
    exists pa, translate (ram st') root w = Some pa /\ data_byte st' root pa /\ rd8 (ram st') pa = seg_byte (ram st) w
  else translate (ram st') root w = translate (ram st) root w.

Lemma seg_byte_kept st st' w : in_file st -> data_kept st st' root -> seg_byte (ram st') w = seg_byte (ram st) w.
Proof.
  intros Hf Hd. unfold seg_byte. destruct (_ && _) eqn:E; [|done]. destruct Hok as [_ Hfo _].
  replace (data + ph_offset ph + (w - vaddr)) with (data + (ph_offset ph + (w - vaddr))) by lia. apply Hd, Hf. zbool. lia.
Qed.

Lemma load_pages_spec n : forall st virt st',
  as_inv st root -> in_file st -> 0 <= virt -> virt mod 4096 = 0 -> virt + 4096 * Z.of_nat n <= 2 ^ 48 ->
  load_pages root data ph vaddr virt n st = (true, st') -> loaded_frame st st' /\ pages_loaded st virt n st'.
Proof.
  induction n as [|n IH]; intros st virt st' Has Hf Hv Ha H48 Hl; cbn [load_pages] in Hl.
  { injection Hl as <-. split; [split; [done|apply grows_refl, Has|apply data_kept_refl]|]. intros w Hw.
    destruct (Z.leb_spec virt w), (Z.ltb_spec w (virt + 4096 * Z.of_nat 0)); cbn [andb]; [lia|done..]. }
  destruct (load_page root data ph vaddr virt st) as [[] st1] eqn:E1; [|done].
  destruct (load_page_spec st virt st1) as (F1 & p & Htr & Hby); try done; [lia|].
  rewrite u64_small in Hl by lia. destruct (IH st1 (virt + 4096) st') as [F2 P2]; try done; [apply F1|intros i Hi; by apply F1, Hf|lia|dlia|lia|].
  split; [by eapply lf_trans|]. intros w Hw. specialize (P2 w Hw). rewrite (seg_byte_kept st st1) in P2 by (done || apply F1). rewrite Htr, same_page_range in P2 by lia.
  destruct (Z.leb_spec virt w) as [H1|H1]; cbn [andb] in P2 |- *.
  - destruct (Z.ltb_spec w (virt + 4096)) as [H2|H2].
    + rewrite (proj2 (Z.leb_gt (virt + 4096) w)) in P2 by lia. rewrite (proj2 (Z.ltb_lt w (virt + 4096 * Z.of_nat (S n)))) by lia. cbn [andb] in P2.
      exists (p + w mod 2 ^ 12). destruct (Hby (w - virt) ltac:(lia)) as [Hd Hb]. replace (w mod 2 ^ 12) with (w - virt) in * by (change (2 ^ 12) with 4096; dlia).
      split; [done|]. destruct (lf_data _ _ F2 _ Hd) as [Hd2 Eb]. split; [done|]. rewrite Eb, Hb. f_equal. lia.
    + rewrite (proj2 (Z.leb_le (virt + 4096) w)) in P2 by lia. cbn [andb] in P2. replace (virt + 4096 + 4096 * Z.of_nat n) with (virt + 4096 * Z.of_nat (S n)) in P2 by lia. done.
  - rewrite (proj2 (Z.leb_gt (virt + 4096) w)) in P2 by lia. done.
Qed.
End segment.

(** ** Segments *)

Section file.
Context (root data size base : Z).

(** Where a segment goes, and its pages. *)
Definition seg_vaddr (ph : elf64_phdr) : Z := u64 (ph_vaddr ph + base).
Definition loadable (ph : elf64_phdr) : bool := (ph_type ph =? PT_LOAD) && negb (ph_memsz ph =? 0).
Definition first_page (ph : elf64_phdr) : Z := seg_vaddr ph - seg_vaddr ph mod 4096.
Definition page_number (ph : elf64_phdr) : Z := (seg_vaddr ph + ph_memsz ph + 4095) / 4096 - seg_vaddr ph / 4096.
Definition covers (ph : elf64_phdr) (w : Z) : bool :=
  loadable ph && ((first_page ph <=? w) && (w <? first_page ph + 4096 * page_number ph)).

Definition phdr_ok (ph : elf64_phdr) : Prop :=
  loadable ph = true -> seg_ok data size ph (seg_vaddr ph) /\ 0 <= ph_memsz ph /\ seg_vaddr ph + ph_memsz ph + 4096 <= 2 ^ 48.

(** The address [w] has the byte [b], in memory that is in use. *)
Definition holds_byte (st : phys) (w b : Z) : Prop :=
  exists pa, translate (ram st) root w = Some pa /\ data_byte st root pa /\ rd8 (ram st) pa = b.

Definition top (ph : elf64_phdr) (m : Z) : Z := if loadable ph then Z.max m (seg_vaddr ph + ph_memsz ph) else m.

Lemma load_segment_spec st i mx r st' :
  let ph := phdr (ram st) data i in
  as_inv st root -> in_file root data size st -> phdr_ok ph ->
  load_segment root data base i mx st = (Some r, st') ->
  loaded_frame root st st' /\ r = top ph mx /\
  forall w, 0 <= w < 2 ^ 48 ->
    if covers ph w then holds_byte st' w (seg_byte data ph (seg_vaddr ph) (ram st) w) else translate (ram st') root w = translate (ram st) root w.
Proof.
  intros ph Has Hf Hok Hl. unfold load_segment in Hl. fold ph in Hl. unfold phdr_ok, covers, top in *. unfold loadable in *.
  assert (Hskip : loaded_frame root st st) by (split; [done|apply grows_refl, Has|apply data_kept_refl]).
  destruct (ph_type ph =? PT_LOAD); cbn [negb andb] in *; [|injection Hl as <- <-; done].
  destruct (ph_memsz ph =? 0) eqn:E0; cbn [negb] in *; [injection Hl as <- <-; done|]. destruct (Hok eq_refl) as (Hs & Hm & Hend). pose proof Hs as [_ (_ & Hfs & _) [Hv Hv48]].
  fold (seg_vaddr ph) in Hl. set (v := seg_vaddr ph) in *. rewrite (u64_small (v + ph_memsz ph)), (u64_small (v + ph_memsz ph + 4095)) in Hl by lia.
  destruct (v <? 65536); [done|]. rewrite !land_mask64 in Hl by lia. change (2 ^ 12) with 4096 in Hl. unfold first_page, page_number. fold v.
  assert (Hn : u64 (v + ph_memsz ph + 4095 - (v + ph_memsz ph + 4095) mod 4096 - (v - v mod 4096)) / 4096 = (v + ph_memsz ph + 4095) / 4096 - v / 4096).
  { rewrite u64_small by dlia. dlia. }
  rewrite Hn in Hl. set (n := (v + ph_memsz ph + 4095) / 4096 - v / 4096) in *.
  assert (Hn0 : 0 <= n /\ v - v mod 4096 + 4096 * n <= 2 ^ 48) by (subst n; dlia). clearbody n.
  destruct (load_pages root data ph v (v - v mod 4096) (Z.to_nat n) st) as [[] st1] eqn:El; [|done].
  apply pair_equal_spec in Hl as [Hr <-]. apply (inj Some) in Hr as <-.
  destruct (load_pages_spec root data size ph v Hs (Z.to_nat n) st (v - v mod 4096) st1) as [F P]; try done; [dlia|dlia|rewrite Z2Nat.id by lia; lia|].
  split; [done|]. split; [destruct (Z.ltb_spec mx (v + ph_memsz ph)); lia|]. intros w Hw. specialize (P w Hw). rewrite Z2Nat.id in P by lia. exact P.
Qed.

(** ** The file *)

Definition same_file (m m' : mem) : Prop := forall x, data <= x < data + size -> rd8 m' x = rd8 m x.

(** The headers are inside of the file, and the segments inside of the file and of the
    lower half of the address space. *)
Record elf_file_ok (m : mem) : Prop := {
  fo_data : 0 <= data /\ data + size < 2 ^ 64 /\ 64 <= size;
  fo_headers : 56 <= hdr_phentsize m data /\ hdr_phoff m data + hdr_phnum m data * hdr_phentsize m data <= size;
  fo_segments : forall i, 0 <= i < hdr_phnum m data -> phdr_ok (phdr m data i) }.

Lemma header_same m m' k n : elf_file_ok m -> same_file m m' -> 0 <= k -> k + Z.of_nat n <= 64 -> rdle m' (data + k) n = rdle m (data + k) n.
Proof. intros Hok Hs Hk Hn. apply rdle_ext. intros x Hx. apply Hs. pose proof (fo_data _ Hok). lia. Qed.

Lemma headers_same m m' : elf_file_ok m -> same_file m m' ->
  hdr_phoff m' data = hdr_phoff m data /\ hdr_phentsize m' data = hdr_phentsize m data /\ hdr_phnum m' data = hdr_phnum m data.
Proof.
  intros Hok Hs. split; [apply (header_same m m' 32 8)|split; [apply (header_same m m' 54 2)|apply (header_same m m' 56 2)]]; first [exact Hok|exact Hs|lia].
Qed.

Lemma phdr_same m m' i : elf_file_ok m -> same_file m m' -> 0 <= i < hdr_phnum m data -> phdr m' data i = phdr m data i.
Proof.
  intros Hok Hs Hi. unfold phdr. destruct (headers_same m m' Hok Hs) as (-> & -> & _). destruct (fo_data _ Hok) as (Hd & Hd64 & _).
  destruct (fo_headers _ Hok) as [He Hp]. pose proof (rd64_range m (data + 32)) as Ho. fold (hdr_phoff m data) in Ho.
  assert (Hb : 0 <= i * hdr_phentsize m data /\ (i + 1) * hdr_phentsize m data <= hdr_phnum m data * hdr_phentsize m data) by nia.
  set (a := data + hdr_phoff m data + i * hdr_phentsize m data) in *. rewrite u64_small by lia.
  assert (Hr : forall k n, 0 <= k -> k + Z.of_nat n <= 56 -> rdle m' (a + k) n = rdle m (a + k) n).
  { intros k n Hk Hn. apply rdle_ext. intros x Hx. apply Hs. subst a. lia. }
  unfold read_phdr, rd64. clearbody a. f_equal; [rewrite <- (Z.add_0_r a); apply Hr; lia|apply Hr; lia..].
Qed.

(** The segment that has the address [w]: the last one, where segments share a page. *)
Definition holder (m : mem) (idxs : list Z) (w : Z) : option Z := last (filter (fun i => covers (phdr m data i) w = true) idxs).

(** [w] has the byte of its segment, or is as it was before. *)
Definition holds (m : mem) (idxs : list Z) (st st' : phys) (w : Z) : Prop :=
  match holder m idxs w with
  | Some i => let ph := phdr m data i in holds_byte st' w (seg_byte data ph (seg_vaddr ph) m w)
  | None => translate (ram st') root w = translate (ram st) root w
  end.

Lemma kept_file st st' : in_file root data size st -> data_kept st st' root -> same_file (ram st) (ram st') /\ in_file root data size st'.
Proof.
  intros Hf Hd. split; [|intros i Hi; by apply Hd, Hf]. intros x Hx. replace x with (data + (x - data)) by lia. apply Hd, Hf. lia.
Qed.

Lemma holds_byte_kept st st' w b :
  data_kept st st' root -> translate (ram st') root w = translate (ram st) root w -> holds_byte st w b -> holds_byte st' w b.
Proof. intros Hd Ht (pa & Hp & Hb & E). exists pa. rewrite Ht. destruct (Hd pa Hb) as [Hb' E']. split; [done|]. split; [done|congruence]. Qed.

Lemma seg_byte_same ph m m' w : seg_ok data size ph (seg_vaddr ph) -> same_file m m' ->
  seg_byte data ph (seg_vaddr ph) m' w = seg_byte data ph (seg_vaddr ph) m w.
Proof.
  intros [_ Hfo _] Hs. unfold seg_byte. destruct (_ && _) eqn:E; [|done]. apply Hs. zbool. lia.
Qed.

Definition tops (m : mem) (idxs : list Z) (mx : Z) : Z := foldl (fun mx i => top (phdr m data i) mx) mx idxs.

Lemma load_segments_spec m idxs : forall st mx r st',
  as_inv st root -> in_file root data size st -> elf_file_ok m -> same_file m (ram st) -> Forall (fun i => 0 <= i < hdr_phnum m data) idxs ->
  load_segments root data base idxs mx st = (Some r, st') ->
  loaded_frame root st st' /\ r = tops m idxs mx /\ forall w, 0 <= w < 2 ^ 48 -> holds m idxs st st' w.
Proof.
  induction idxs as [|i idxs IH]; intros st mx r st' Has Hf Hok Hs Hi Hl; cbn [load_segments] in Hl.
  { injection Hl as <- <-. split; [split; [done|apply grows_refl, Has|apply data_kept_refl]|done]. }
  apply Forall_cons in Hi as [Hi1 Hi]. destruct (load_segment root data base i mx st) as [[mx1|] st1] eqn:E1; [|done].
  pose proof (phdr_same m (ram st) i Hok Hs Hi1) as Eph. pose proof (fo_segments _ Hok i Hi1) as Hph.
  destruct (load_segment_spec st i mx mx1 st1 Has Hf) as (F1 & -> & P1); [by rewrite Eph|done|]. rewrite Eph in P1, Hl.
  destruct (kept_file st st1 Hf (lf_data _ _ _ F1)) as [Hs1 Hf1].
  destruct (IH st1 (top (phdr m data i) mx) r st') as (F2 & -> & P2); try done; [apply F1|intros x Hx; by rewrite Hs1, Hs|].
  split; [by eapply lf_trans|]. split; [done|]. intros w Hw. specialize (P1 w Hw). specialize (P2 w Hw). unfold holds, holder in *.
  rewrite filter_cons. set (rest := filter _ idxs) in *. destruct (last rest) as [j|] eqn:Ej.
  - assert (El : forall x, last (x :: rest) = Some j) by (intros x; by rewrite last_cons, Ej). destruct (decide _); [by rewrite El|by rewrite Ej].
  - destruct (decide _) as [Hc|Hc].
    + rewrite last_cons, Ej. rewrite Hc in P1. apply (holds_byte_kept st1); [apply F2|done|]. cbv zeta.
      rewrite <- (seg_byte_same (phdr m data i) m (ram st)); [done|by apply Hph; unfold covers in Hc; zbool|done].
    + rewrite Ej. destruct (covers (phdr m data i) w); [done|]. by rewrite P2.
Qed.

(** ** The loader *)

Lemma elf_load_ok (st : phys) (out entry out' : Z) (st' : phys) :
  as_inv st root -> in_file root data size st -> base = u64 (0x40000000 - min_vaddr (ram st) data) -> elf_file_ok (ram st) ->
  elf_load data size root out st = (entry, out', st') -> entry <> 0 ->
  let idxs := seqZ 0 (hdr_phnum (ram st) data) in
  elf_check_header (ram st) data = 0 /\ entry = u64 (hdr_entry (ram st) data + base) /\
  out' = Z.land (u64 (tops (ram st) idxs 0 + 4095)) (mask64 12) /\ loaded_frame root st st' /\
  forall w, 0 <= w < 2 ^ 48 -> holds (ram st) idxs st st' w.
Proof.
  intros Has Hf Hb Hok Hl He idxs. unfold elf_load in Hl. destruct (elf_check_header (ram st) data =? 0) eqn:Ec; cbn [negb] in Hl; [|by injection Hl as <-].
  rewrite <- Hb in Hl. fold idxs in Hl. destruct (load_segments root data base idxs 0 st) as [[mx|] st1] eqn:El; [|by injection Hl as <-].
  destruct (load_segments_spec (ram st) idxs st 0 mx st1) as (F & -> & P); try done.
  { apply Forall_forall. intros i Hi. apply elem_of_seqZ in Hi. lia. }
  destruct (kept_file st st1 Hf (lf_data _ _ _ F)) as [Hs1 _].
  assert (Ee : hdr_entry (ram st1) data = hdr_entry (ram st) data) by (apply (header_same (ram st) (ram st1) 24 8); done || lia).
  rewrite Ee in Hl. apply pair_equal_spec in Hl as [Hl <-]. apply pair_equal_spec in Hl as [<- <-]. zbool. done.
Qed.

(** C8. Loading an ELF file whose headers and segments lie inside of it: when the loader
    does not fail, it returns the entry point and the end of the image, and in the address
    space every page of a segment holds the bytes of the file and zeroes (those of the last
    segment, where segments share a page); every other address translates as before, and
    all memory that was in use and was not a table, the file included, is unchanged. *)
Theorem elf_load_spec (st : phys) (out entry out' : Z) (st' : phys) :
  as_inv st root -> in_file root data size st -> base = u64 (0x40000000 - min_vaddr (ram st) data) -> elf_file_ok (ram st) ->
  elf_load data size root out st = (entry, out', st') -> entry <> 0 ->
  let idxs := seqZ 0 (hdr_phnum (ram st) data) in
  elf_check_header (ram st) data = 0 /\ entry = u64 (hdr_entry (ram st) data + base) /\
  out' = Z.land (u64 (tops (ram st) idxs 0 + 4095)) (mask64 12) /\ loaded_frame root st st' /\
  forall w, 0 <= w < 2 ^ 48 -> holds (ram st) idxs st st' w.
Proof. apply elf_load_ok. Qed.
End file.

(** ** Example

    A file at address 64, and sixteen pages at 8192, the first in use as an empty page
    table. *)

Fixpoint put_bytes (m : mem) (a : Z) (l : list Z) : mem :=
  match l with
  | [] => m
  | b :: l => put_bytes (wr8 m a b) (a + 1) l
  end.

Lemma put_out l : forall m a x, x < a \/ a + Z.of_nat (length l) <= x -> rd8 (put_bytes m a l) x = rd8 m x.
Proof.
  induction l as [|b l IH]; intros m a x Hx; [done|]. cbn [put_bytes length] in *. rewrite IH by lia. rewrite rd8_wr8. by rewrite (proj2 (Z.eqb_neq _ _)) by lia.
Qed.

Lemma put_at l : forall m a i b, l !! i = Some b -> rd8 (put_bytes m a l) (a + Z.of_nat i) = u8 b.
Proof.
  induction l as [|c l IH]; intros m a i b Hi; [done|]. cbn [put_bytes]. destruct i as [|i].
  - injection Hi as ->. rewrite put_out by lia. rewrite rd8_wr8. by rewrite (proj2 (Z.eqb_eq _ _)) by lia.
  - replace (a + Z.of_nat (S i)) with (a + 1 + Z.of_nat i) by lia. by apply IH.
Qed.

Definition file_space (l : list Z) : phys := Phys (put_bytes {[4096 := 1]} 64 l) 4096 8192 16 1.

Lemma file_space_ok l : (length l <= 4000)%nat ->
  as_inv (file_space l) 8192 /\ in_file 8192 64 (Z.of_nat (length l)) (file_space l).
Proof.
  intros Hl. assert (Hz : forall x, 8192 <= x -> rd8 (ram (file_space l)) x = 0).
  { intros x Hx. cbn [ram file_space]. rewrite put_out by lia. unfold rd8. rewrite lookup_singleton_ne; [done|lia]. }
  assert (Hinv : as_inv (file_space l) 8192).
  { apply (empty_as_inv (file_space l) 0).
    - split; vm_compute; auto; try split; congruence.
    - split; vm_compute; congruence.
    - unfold used. change (bitmap_byte (file_space l) 0) with 4096. cbn [ram file_space]. rewrite put_out by lia. reflexivity.
    - intros x Hx. apply Hz. unfold page_addr in Hx. cbn [file_space pmm_base] in Hx. lia. }
  split; [done|]. intros i Hi. split.
  - left. cbn [file_space pmm_bitmap]. lia.
  - intros idx [Hp _] Hx. unfold page_addr, PMM_PAGE_SIZE in Hx. cbn [file_space pmm_base] in Hx. lia.
  - intros path t _ Hf Ht. assert (t = 8192) as ->; [|lia]. destruct path as [|j path]; [by injection Ht|]. apply Forall_cons in Hf as [Hj _].
    cbn [walk_table] in Ht. replace (rd64 (ram (file_space l)) (slot 8192 j)) with 0 in Ht; [done|]. symmetry. apply rdle_zero. intros x Hx. apply Hz. unfold slot, is_idx in *. lia.
Qed.

(** A segment of 5000 bytes at 0x400ffe, which is moved to 0x40000000: three bytes of the
    file, and zeroes. *)
Definition demo_elf : list Z :=
  [0x7F; 69; 76; 70; 2; 1; 1] ++ replicate 9 0 ++ [2; 0; 0x3E; 0; 1; 0; 0; 0] ++ [0xFE; 0x0F; 0x40; 0; 0; 0; 0; 0] ++ [64; 0; 0; 0; 0; 0; 0; 0] ++
  replicate 14 0 ++ [56; 0; 1; 0] ++ replicate 6 0 ++
  [1; 0; 0; 0; 5; 0; 0; 0] ++ [120; 0; 0; 0; 0; 0; 0; 0] ++ [0xFE; 0x0F; 0x40; 0; 0; 0; 0; 0] ++ replicate 8 0 ++
  [3; 0; 0; 0; 0; 0; 0; 0] ++ [0x88; 0x13; 0; 0; 0; 0; 0; 0] ++ replicate 8 0 ++ [65; 66; 67].

Definition demo_base : Z := u64 (0x40000000 - min_vaddr (ram (file_space demo_elf)) 64).
Definition demo_elf_load : Z * Z * phys := elf_load 64 123 8192 0 (file_space demo_elf).

Lemma demo_elf_ok : elf_file_ok 64 123 demo_base (ram (file_space demo_elf)).
Proof.
  split; [lia|vm_compute; split; discriminate|]. change (hdr_phnum _ 64) with 1. intros i Hi _. replace i with 0 by lia.
  split; [split; vm_compute; repeat split; discriminate|vm_compute; split; discriminate].
Qed.

Lemma elf_load_spec_witness :
  fst demo_elf_load = (0x40000000, 0x40002000) /\ holds_byte 8192 (snd demo_elf_load) 0x40000001 66 /\ holds_byte 8192 (snd demo_elf_load) 0x40001387 0.
Proof.
  destruct (file_space_ok demo_elf) as [Hi Hf]; [apply Nat.leb_le; vm_compute; reflexivity|].
  assert (Hfst : fst demo_elf_load = (0x40000000, 0x40002000)) by (vm_compute; reflexivity).
  assert (Hl : elf_load 64 123 8192 0 (file_space demo_elf) = (0x40000000, 0x40002000, snd demo_elf_load)).
  { rewrite <- Hfst. apply surjective_pairing. }
  destruct (elf_load_spec 8192 64 123 demo_base (file_space demo_elf) 0 0x40000000 0x40002000 (snd demo_elf_load) Hi Hf eq_refl demo_elf_ok Hl)
    as (_ & _ & _ & _ & H); [discriminate|]. split; [exact Hfst|].
  assert (Hw : forall w b, 0 <= w < 2 ^ 48 -> holder 64 demo_base (ram (file_space demo_elf)) (seqZ 0 1) w = Some 0 ->
    seg_byte 64 (phdr (ram (file_space demo_elf)) 64 0) (seg_vaddr demo_base (phdr (ram (file_space demo_elf)) 64 0)) (ram (file_space demo_elf)) w = b ->
    holds_byte 8192 (snd demo_elf_load) w b).
  { intros w b Hw Eh Eb. specialize (H w Hw). replace (hdr_phnum (ram (file_space demo_elf)) 64) with 1 in H by (vm_compute; reflexivity).
    unfold holds in H. rewrite Eh in H. cbv zeta in H. by rewrite Eb in H. }
  split; [apply (Hw 0x40000001)|apply (Hw 0x40001387)]; first [lia|vm_compute; reflexivity].
Defined.
