(* ===== verification/Sched.v ===== *)
(** * The scheduler: kernel/core/sched.c

    The process table is a list of [MAX_PROCESSES] records; a [process_t*] is an
    index of the table, the [next] fields of the records link the ready and the
    sleep queue as in the code.  Operations that follow the links return an
    [option]: [None] is a walk that does not end or a null pointer that is
    followed.  Theorems show that neither happens in well-formed states.

    The context switch changes registers of the processor; the ones the code names
    (the FPU state, cr3, the stack of the TSS) are fields of the state. *)

From Stdlib Require Import Sorted.
From S2P Require Import Prelude Mem Pmm Paging KMalloc Elf.

(** ** Data (sched.h) *)

Inductive pstate :=
  | PROC_UNUSED | PROC_READY | PROC_RUNNING | PROC_SLEEPING | PROC_BLOCKED | PROC_ZOMBIE.

#[export] Instance pstate_eq_dec : EqDecision pstate.
Proof. solve_decision. Defined.

Definition is_state (a b : pstate) : bool := bool_decide (a = b).

Lemma is_state_spec a b : reflect (a = b) (is_state a b).
Proof. apply bool_decide_reflect. Qed.

Record fd_entry := FdEntry { fd_used : Z; fd_type : Z; fd_data : Z; fd_pos : Z; fd_flags : Z }.

Definition fd_zero : fd_entry := FdEntry 0 0 0 0 0.

(** [name] and [chroot_path] are the characters before the terminating zero,
    [waiting_for] is the address of the channel, [fpu_context] the bytes of the
    [fxsave] area. *)
Record process := Process {
  pid : Z;
  ppid : Z;
  name : list Z;
  state : pstate;
  kstack : Z;
  kstack_top : Z;
  cr3 : Z;
  ticks_left : Z;
  sleep_until : Z;
  exit_code : Z;
  waiting_for : Z;
  next : option nat;
  heap_start : Z;
  heap_end : Z;
  fds : list fd_entry;
  user_rip : Z;
  user_rsp : Z;
  irq_mask : Z;
  irq_pending : Z;
  chroot_path : list Z;
  fpu_context : list Z }.

Definition set_pid (v : Z) (r : process) : process :=
    Process v (ppid r) (name r) (state r) (kstack r) (kstack_top r) (cr3 r) (ticks_left r)
    (sleep_until r) (exit_code r) (waiting_for r) (next r) (heap_start r) (heap_end r) (fds r)
    (user_rip r) (user_rsp r) (irq_mask r) (irq_pending r) (chroot_path r) (fpu_context r).
Definition set_ppid (v : Z) (r : process) : process :=
    Process (pid r) v (name r) (state r) (kstack r) (kstack_top r) (cr3 r) (ticks_left r)
    (sleep_until r) (exit_code r) (waiting_for r) (next r) (heap_start r) (heap_end r) (fds r)
    (user_rip r) (user_rsp r) (irq_mask r) (irq_pending r) (chroot_path r) (fpu_context r).
Definition set_name (v : list Z) (r : process) : process :=
    Process (pid r) (ppid r) v (state r) (kstack r) (kstack_top r) (cr3 r) (ticks_left r)
    (sleep_until r) (exit_code r) (waiting_for r) (next r) (heap_start r) (heap_end r) (fds r)
    (user_rip r) (user_rsp r) (irq_mask r) (irq_pending r) (chroot_path r) (fpu_context r).
Definition set_state (v : pstate) (r : process) : process :=
    Process (pid r) (ppid r) (name r) v (kstack r) (kstack_top r) (cr3 r) (ticks_left r)
    (sleep_until r) (exit_code r) (waiting_for r) (next r) (heap_start r) (heap_end r) (fds r)
    (user_rip r) (user_rsp r) (irq_mask r) (irq_pending r) (chroot_path r) (fpu_context r).
Definition set_kstack (v : Z) (r : process) : process :=
    Process (pid r) (ppid r) (name r) (state r) v (kstack_top r) (cr3 r) (ticks_left r)
    (sleep_until r) (exit_code r) (waiting_for r) (next r) (heap_start r) (heap_end r) (fds r)
    (user_rip r) (user_rsp r) (irq_mask r) (irq_pending r) (chroot_path r) (fpu_context r).
Definition set_kstack_top (v : Z) (r : process) : process :=
    Process (pid r) (ppid r) (name r) (state r) (kstack r) v (cr3 r) (ticks_left r) (sleep_until
    r) (exit_code r) (waiting_for r) (next r) (heap_start r) (heap_end r) (fds r) (user_rip r)
    (user_rsp r) (irq_mask r) (irq_pending r) (chroot_path r) (fpu_context r).
Definition set_cr3 (v : Z) (r : process) : process :=
    Process (pid r) (ppid r) (name r) (state r) (kstack r) (kstack_top r) v (ticks_left r)
    (sleep_until r) (exit_code r) (waiting_for r) (next r) (heap_start r) (heap_end r) (fds r)
    (user_rip r) (user_rsp r) (irq_mask r) (irq_pending r) (chroot_path r) (fpu_context r).
Definition set_ticks_left (v : Z) (r : process) : process :=
    Process (pid r) (ppid r) (name r) (state r) (kstack r) (kstack_top r) (cr3 r) v (sleep_until
    r) (exit_code r) (waiting_for r) (next r) (heap_start r) (heap_end r) (fds r) (user_rip r)
    (user_rsp r) (irq_mask r) (irq_pending r) (chroot_path r) (fpu_context r).
Definition set_sleep_until (v : Z) (r : process) : process :=
    Process (pid r) (ppid r) (name r) (state r) (kstack r) (kstack_top r) (cr3 r) (ticks_left r)
    v (exit_code r) (waiting_for r) (next r) (heap_start r) (heap_end r) (fds r) (user_rip r)
    (user_rsp r) (irq_mask r) (irq_pending r) (chroot_path r) (fpu_context r).
Definition set_exit_code (v : Z) (r : process) : process :=
    Process (pid r) (ppid r) (name r) (state r) (kstack r) (kstack_top r) (cr3 r) (ticks_left r)
    (sleep_until r) v (waiting_for r) (next r) (heap_start r) (heap_end r) (fds r) (user_rip r)
    (user_rsp r) (irq_mask r) (irq_pending r) (chroot_path r) (fpu_context r).
Definition set_waiting_for (v : Z) (r : process) : process :=
    Process (pid r) (ppid r) (name r) (state r) (kstack r) (kstack_top r) (cr3 r) (ticks_left r)
    (sleep_until r) (exit_code r) v (next r) (heap_start r) (heap_end r) (fds r) (user_rip r)
    (user_rsp r) (irq_mask r) (irq_pending r) (chroot_path r) (fpu_context r).
Definition set_next (v : option nat) (r : process) : process :=
    Process (pid r) (ppid r) (name r) (state r) (kstack r) (kstack_top r) (cr3 r) (ticks_left r)
    (sleep_until r) (exit_code r) (waiting_for r) v (heap_start r) (heap_end r) (fds r)
    (user_rip r) (user_rsp r) (irq_mask r) (irq_pending r) (chroot_path r) (fpu_context r).
Definition set_heap_start (v : Z) (r : process) : process :=
    Process (pid r) (ppid r) (name r) (state r) (kstack r) (kstack_top r) (cr3 r) (ticks_left r)
    (sleep_until r) (exit_code r) (waiting_for r) (next r) v (heap_end r) (fds r) (user_rip r)
    (user_rsp r) (irq_mask r) (irq_pending r) (chroot_path r) (fpu_context r).
Definition set_heap_end (v : Z) (r : process) : process :=
    Process (pid r) (ppid r) (name r) (state r) (kstack r) (kstack_top r) (cr3 r) (ticks_left r)
    (sleep_until r) (exit_code r) (waiting_for r) (next r) (heap_start r) v (fds r) (user_rip r)
    (user_rsp r) (irq_mask r) (irq_pending r) (chroot_path r) (fpu_context r).
Definition set_fds (v : list fd_entry) (r : process) : process :=
    Process (pid r) (ppid r) (name r) (state r) (kstack r) (kstack_top r) (cr3 r) (ticks_left r)
    (sleep_until r) (exit_code r) (waiting_for r) (next r) (heap_start r) (heap_end r) v
    (user_rip r) (user_rsp r) (irq_mask r) (irq_pending r) (chroot_path r) (fpu_context r).
Definition set_user_rip (v : Z) (r : process) : process :=
    Process (pid r) (ppid r) (name r) (state r) (kstack r) (kstack_top r) (cr3 r) (ticks_left r)
    (sleep_until r) (exit_code r) (waiting_for r) (next r) (heap_start r) (heap_end r) (fds r) v
    (user_rsp r) (irq_mask r) (irq_pending r) (chroot_path r) (fpu_context r).
Definition set_user_rsp (v : Z) (r : process) : process :=
    Process (pid r) (ppid r) (name r) (state r) (kstack r) (kstack_top r) (cr3 r) (ticks_left r)
    (sleep_until r) (exit_code r) (waiting_for r) (next r) (heap_start r) (heap_end r) (fds r)
    (user_rip r) v (irq_mask r) (irq_pending r) (chroot_path r) (fpu_context r).
Definition set_irq_mask (v : Z) (r : process) : process :=
    Process (pid r) (ppid r) (name r) (state r) (kstack r) (kstack_top r) (cr3 r) (ticks_left r)
    (sleep_until r) (exit_code r) (waiting_for r) (next r) (heap_start r) (heap_end r) (fds r)
    (user_rip r) (user_rsp r) v (irq_pending r) (chroot_path r) (fpu_context r).
Definition set_irq_pending (v : Z) (r : process) : process :=
    Process (pid r) (ppid r) (name r) (state r) (kstack r) (kstack_top r) (cr3 r) (ticks_left r)
    (sleep_until r) (exit_code r) (waiting_for r) (next r) (heap_start r) (heap_end r) (fds r)
    (user_rip r) (user_rsp r) (irq_mask r) v (chroot_path r) (fpu_context r).
Definition set_chroot_path (v : list Z) (r : process) : process :=
    Process (pid r) (ppid r) (name r) (state r) (kstack r) (kstack_top r) (cr3 r) (ticks_left r)
    (sleep_until r) (exit_code r) (waiting_for r) (next r) (heap_start r) (heap_end r) (fds r)
    (user_rip r) (user_rsp r) (irq_mask r) (irq_pending r) v (fpu_context r).
Definition set_fpu_context (v : list Z) (r : process) : process :=
    Process (pid r) (ppid r) (name r) (state r) (kstack r) (kstack_top r) (cr3 r) (ticks_left r)
    (sleep_until r) (exit_code r) (waiting_for r) (next r) (heap_start r) (heap_end r) (fds r)
    (user_rip r) (user_rsp r) (irq_mask r) (irq_pending r) (chroot_path r) v.

(** [memset(p, 0, sizeof(process_t))] *)
Definition zero_process : process :=
  Process 0 0 [] PROC_UNUSED 0 0 0 0 0 0 0 None 0 0 (replicate 32 fd_zero) 0 0 0 0 [] (replicate 512 0).

Definition MAX_PROCESSES : nat := 64.
#[global] Arguments MAX_PROCESSES : simpl never.
Definition PIT_TARGET_HZ : Z := 1000.
Definition TIME_SLICE_MS : Z := 10.
Definition KERNEL_STACK_SIZE : Z := 16384.
(** [TIME_SLICE_MS / (1000 / PIT_TARGET_HZ)] *)
Definition time_slice : Z := TIME_SLICE_MS / (1000 / PIT_TARGET_HZ).

Record sched := Sched {
  processes : list process;
  current : option nat;
  ready_queue : option nat;
  ready_queue_tail : option nat;
  sleep_queue : option nat;
  next_pid : Z;
  process_count : Z;
  sched_need_resched : bool;
  sched_locked : bool;
  sched_initialized : bool;
  pit_ticks : Z;
  tsc_offset : Z;
  tsc_freq_hz : Z;
  tsc_calibrated : bool;
  clean_fpu_state : list Z;
  cpu_fpu : list Z;
  cpu_cr3 : Z;
  tss_rsp0 : Z;
  kernel_stack_temp : Z }.

Definition set_processes (v : list process) (r : sched) : sched :=
    Sched v (current r) (ready_queue r) (ready_queue_tail r) (sleep_queue r) (next_pid r)
    (process_count r) (sched_need_resched r) (sched_locked r) (sched_initialized r) (pit_ticks
    r) (tsc_offset r) (tsc_freq_hz r) (tsc_calibrated r) (clean_fpu_state r) (cpu_fpu r)
    (cpu_cr3 r) (tss_rsp0 r) (kernel_stack_temp r).
Definition set_current (v : option nat) (r : sched) : sched :=
    Sched (processes r) v (ready_queue r) (ready_queue_tail r) (sleep_queue r) (next_pid r)
    (process_count r) (sched_need_resched r) (sched_locked r) (sched_initialized r) (pit_ticks
    r) (tsc_offset r) (tsc_freq_hz r) (tsc_calibrated r) (clean_fpu_state r) (cpu_fpu r)
    (cpu_cr3 r) (tss_rsp0 r) (kernel_stack_temp r).
Definition set_ready_queue (v : option nat) (r : sched) : sched :=
    Sched (processes r) (current r) v (ready_queue_tail r) (sleep_queue r) (next_pid r)
    (process_count r) (sched_need_resched r) (sched_locked r) (sched_initialized r) (pit_ticks
    r) (tsc_offset r) (tsc_freq_hz r) (tsc_calibrated r) (clean_fpu_state r) (cpu_fpu r)
    (cpu_cr3 r) (tss_rsp0 r) (kernel_stack_temp r).
Definition set_ready_queue_tail (v : option nat) (r : sched) : sched :=
    Sched (processes r) (current r) (ready_queue r) v (sleep_queue r) (next_pid r)
    (process_count r) (sched_need_resched r) (sched_locked r) (sched_initialized r) (pit_ticks
    r) (tsc_offset r) (tsc_freq_hz r) (tsc_calibrated r) (clean_fpu_state r) (cpu_fpu r)
    (cpu_cr3 r) (tss_rsp0 r) (kernel_stack_temp r).
Definition set_sleep_queue (v : option nat) (r : sched) : sched :=
    Sched (processes r) (current r) (ready_queue r) (ready_queue_tail r) v (next_pid r)
    (process_count r) (sched_need_resched r) (sched_locked r) (sched_initialized r) (pit_ticks
    r) (tsc_offset r) (tsc_freq_hz r) (tsc_calibrated r) (clean_fpu_state r) (cpu_fpu r)
    (cpu_cr3 r) (tss_rsp0 r) (kernel_stack_temp r).
Definition set_next_pid (v : Z) (r : sched) : sched :=
    Sched (processes r) (current r) (ready_queue r) (ready_queue_tail r) (sleep_queue r) v
    (process_count r) (sched_need_resched r) (sched_locked r) (sched_initialized r) (pit_ticks
    r) (tsc_offset r) (tsc_freq_hz r) (tsc_calibrated r) (clean_fpu_state r) (cpu_fpu r)
    (cpu_cr3 r) (tss_rsp0 r) (kernel_stack_temp r).
Definition set_process_count (v : Z) (r : sched) : sched :=
    Sched (processes r) (current r) (ready_queue r) (ready_queue_tail r) (sleep_queue r)
    (next_pid r) v (sched_need_resched r) (sched_locked r) (sched_initialized r) (pit_ticks r)
    (tsc_offset r) (tsc_freq_hz r) (tsc_calibrated r) (clean_fpu_state r) (cpu_fpu r) (cpu_cr3
    r) (tss_rsp0 r) (kernel_stack_temp r).
Definition set_sched_need_resched (v : bool) (r : sched) : sched :=
    Sched (processes r) (current r) (ready_queue r) (ready_queue_tail r) (sleep_queue r)
    (next_pid r) (process_count r) v (sched_locked r) (sched_initialized r) (pit_ticks r)
    (tsc_offset r) (tsc_freq_hz r) (tsc_calibrated r) (clean_fpu_state r) (cpu_fpu r) (cpu_cr3
    r) (tss_rsp0 r) (kernel_stack_temp r).
Definition set_sched_locked (v : bool) (r : sched) : sched :=
    Sched (processes r) (current r) (ready_queue r) (ready_queue_tail r) (sleep_queue r)
    (next_pid r) (process_count r) (sched_need_resched r) v (sched_initialized r) (pit_ticks r)
    (tsc_offset r) (tsc_freq_hz r) (tsc_calibrated r) (clean_fpu_state r) (cpu_fpu r) (cpu_cr3
    r) (tss_rsp0 r) (kernel_stack_temp r).
Definition set_sched_initialized (v : bool) (r : sched) : sched :=
    Sched (processes r) (current r) (ready_queue r) (ready_queue_tail r) (sleep_queue r)
    (next_pid r) (process_count r) (sched_need_resched r) (sched_locked r) v (pit_ticks r)
    (tsc_offset r) (tsc_freq_hz r) (tsc_calibrated r) (clean_fpu_state r) (cpu_fpu r) (cpu_cr3
    r) (tss_rsp0 r) (kernel_stack_temp r).
Definition set_pit_ticks (v : Z) (r : sched) : sched :=
    Sched (processes r) (current r) (ready_queue r) (ready_queue_tail r) (sleep_queue r)
    (next_pid r) (process_count r) (sched_need_resched r) (sched_locked r) (sched_initialized r)
    v (tsc_offset r) (tsc_freq_hz r) (tsc_calibrated r) (clean_fpu_state r) (cpu_fpu r) (cpu_cr3
    r) (tss_rsp0 r) (kernel_stack_temp r).
Definition set_tsc_offset (v : Z) (r : sched) : sched :=
    Sched (processes r) (current r) (ready_queue r) (ready_queue_tail r) (sleep_queue r)
    (next_pid r) (process_count r) (sched_need_resched r) (sched_locked r) (sched_initialized r)
    (pit_ticks r) v (tsc_freq_hz r) (tsc_calibrated r) (clean_fpu_state r) (cpu_fpu r) (cpu_cr3
    r) (tss_rsp0 r) (kernel_stack_temp r).
Definition set_tsc_freq_hz (v : Z) (r : sched) : sched :=
    Sched (processes r) (current r) (ready_queue r) (ready_queue_tail r) (sleep_queue r)
    (next_pid r) (process_count r) (sched_need_resched r) (sched_locked r) (sched_initialized r)
    (pit_ticks r) (tsc_offset r) v (tsc_calibrated r) (clean_fpu_state r) (cpu_fpu r) (cpu_cr3
    r) (tss_rsp0 r) (kernel_stack_temp r).
Definition set_tsc_calibrated (v : bool) (r : sched) : sched :=
    Sched (processes r) (current r) (ready_queue r) (ready_queue_tail r) (sleep_queue r)
    (next_pid r) (process_count r) (sched_need_resched r) (sched_locked r) (sched_initialized r)
    (pit_ticks r) (tsc_offset r) (tsc_freq_hz r) v (clean_fpu_state r) (cpu_fpu r) (cpu_cr3 r)
    (tss_rsp0 r) (kernel_stack_temp r).
Definition set_clean_fpu_state (v : list Z) (r : sched) : sched :=
    Sched (processes r) (current r) (ready_queue r) (ready_queue_tail r) (sleep_queue r)
    (next_pid r) (process_count r) (sched_need_resched r) (sched_locked r) (sched_initialized r)
    (pit_ticks r) (tsc_offset r) (tsc_freq_hz r) (tsc_calibrated r) v (cpu_fpu r) (cpu_cr3 r)
    (tss_rsp0 r) (kernel_stack_temp r).
Definition set_cpu_fpu (v : list Z) (r : sched) : sched :=
    Sched (processes r) (current r) (ready_queue r) (ready_queue_tail r) (sleep_queue r)
    (next_pid r) (process_count r) (sched_need_resched r) (sched_locked r) (sched_initialized r)
    (pit_ticks r) (tsc_offset r) (tsc_freq_hz r) (tsc_calibrated r) (clean_fpu_state r) v
    (cpu_cr3 r) (tss_rsp0 r) (kernel_stack_temp r).
Definition set_cpu_cr3 (v : Z) (r : sched) : sched :=
    Sched (processes r) (current r) (ready_queue r) (ready_queue_tail r) (sleep_queue r)
    (next_pid r) (process_count r) (sched_need_resched r) (sched_locked r) (sched_initialized r)
    (pit_ticks r) (tsc_offset r) (tsc_freq_hz r) (tsc_calibrated r) (clean_fpu_state r) (cpu_fpu
    r) v (tss_rsp0 r) (kernel_stack_temp r).
Definition set_tss_rsp0 (v : Z) (r : sched) : sched :=
    Sched (processes r) (current r) (ready_queue r) (ready_queue_tail r) (sleep_queue r)
    (next_pid r) (process_count r) (sched_need_resched r) (sched_locked r) (sched_initialized r)
    (pit_ticks r) (tsc_offset r) (tsc_freq_hz r) (tsc_calibrated r) (clean_fpu_state r) (cpu_fpu
    r) (cpu_cr3 r) v (kernel_stack_temp r).
Definition set_kernel_stack_temp (v : Z) (r : sched) : sched :=
    Sched (processes r) (current r) (ready_queue r) (ready_queue_tail r) (sleep_queue r)
    (next_pid r) (process_count r) (sched_need_resched r) (sched_locked r) (sched_initialized r)
    (pit_ticks r) (tsc_offset r) (tsc_freq_hz r) (tsc_calibrated r) (clean_fpu_state r) (cpu_fpu
    r) (cpu_cr3 r) (tss_rsp0 r) v.

Definition proc (s : sched) (i : nat) : process := nth i (processes s) zero_process.

(** [processes[i].f = ...] *)
Definition modify (i : nat) (f : process -> process) (s : sched) : sched :=
  set_processes (alter f i (processes s)) s.

(** ** Time *)

Definition get_ticks_internal (s : sched) : Z := pit_ticks s.

(** [tsc_now] is the value the processor's counter has at the call. *)
Definition get_ticks (tsc_now : Z) (s : sched) : Z :=
  if negb (tsc_calibrated s) || (tsc_freq_hz s =? 0) then pit_ticks s else
  if tsc_now <? tsc_offset s then pit_ticks s else
  let delta_tsc := tsc_now - tsc_offset s in
  u32 (pit_ticks s + u32 (u64 (delta_tsc * PIT_TARGET_HZ) / tsc_freq_hz s)).

Definition get_microseconds (tsc_now : Z) (s : sched) : Z := u32 (get_ticks tsc_now s * 1000).
Definition get_seconds (tsc_now : Z) (s : sched) : Z := get_ticks tsc_now s / PIT_TARGET_HZ.

(** ** Queues *)

Definition enqueue_ready (p : nat) (s : sched) : option sched :=
  if negb (is_state (state (proc s p)) PROC_READY) then Some s else
  let s := modify p (set_next None) s in
  match ready_queue s with
  | None => Some (set_ready_queue_tail (Some p) (set_ready_queue (Some p) s))
  | Some _ =>
      t ← ready_queue_tail s;
      Some (set_ready_queue_tail (Some p) (modify t (set_next (Some p)) s))
  end.

Definition dequeue_ready (s : sched) : option nat * sched :=
  match ready_queue s with
  | None => (None, s)
  | Some p =>
      let s := set_ready_queue (next (proc s p)) s in
      let s := if ready_queue s is None then set_ready_queue_tail None s else s in
      (Some p, modify p (set_next None) s)
  end.

(** ** The context switch *)

(** The walk over the sleep queue: wake the processes whose time has come. *)
Fixpoint wake_sleepers (fuel : nat) (now : Z) (sp sp_prev : option nat) (s : sched) : option sched :=
  match sp with
  | None => Some s
  | Some w =>
      match fuel with
      | O => None
      | S fuel =>
          let sp := next (proc s w) in
          if sleep_until (proc s w) <=? now then
            let s := match sp_prev with
                     | Some q => modify q (set_next sp) s
                     | None => set_sleep_queue sp s
                     end in
            let s := modify w (set_next None) s in
            let s := modify w (set_state PROC_READY) s in
            let s := modify w (set_sleep_until 0) s in
            s ← enqueue_ready w s;
            wake_sleepers fuel now sp sp_prev s
          else wake_sleepers fuel now sp (Some w) s
      end
  end.

(** The part after the choice of [next]. *)
Definition switch_to (cur nxt : nat) (s : sched) : sched :=
  let s := modify nxt (set_state PROC_RUNNING) s in
  let s := modify nxt (set_ticks_left time_slice) s in
  let ps := state (proc s cur) in
  let s := if negb (is_state ps PROC_UNUSED) && negb (is_state ps PROC_ZOMBIE)
           then modify cur (set_fpu_context (cpu_fpu s)) s else s in
  let s := set_cpu_fpu (fpu_context (proc s nxt)) s in
  let s := set_tss_rsp0 (u64 (kstack (proc s nxt) + KERNEL_STACK_SIZE)) s in
  let s := set_kernel_stack_temp (u64 (kstack (proc s nxt) + KERNEL_STACK_SIZE)) s in
  let s := if negb (cr3 (proc s cur) =? cr3 (proc s nxt))
           then set_cpu_cr3 (cr3 (proc s nxt)) s else s in
  set_current (Some nxt) (set_sched_need_resched false s).

(** The result is the stack pointer to continue with. *)
Definition sched_do_switch (frame : Z) (s : sched) : option (Z * sched) :=
  if negb (sched_initialized s) then Some (frame, s) else
  match current s with
  | None => Some (frame, s)
  | Some cur =>
      let s := modify cur (set_kstack_top frame) s in
      s ← wake_sleepers MAX_PROCESSES (get_ticks_internal s) (sleep_queue s) None s;
      s ← (if is_state (state (proc s cur)) PROC_RUNNING && negb (pid (proc s cur) =? 0)
           then enqueue_ready cur (modify cur (set_state PROC_READY) s) else Some s);
      let '(n, s) := dequeue_ready s in
      let nxt := default 0%nat n in
      if decide (nxt = cur) then
        Some (frame, set_sched_need_resched false (modify nxt (set_state PROC_RUNNING) s))
      else
        let s := switch_to cur nxt s in
        Some (kstack_top (proc s nxt), s)
  end.

(** [int $0x80] enters [sched_do_switch] with the frame that the entry code has
    pushed at [frame]. *)
Definition sched_do_switch_yield (frame : Z) (s : sched) : option (Z * sched) :=
  if negb (sched_initialized s) then Some (frame, s) else
  if sched_locked s then Some (frame, s) else sched_do_switch frame s.

Definition sched_yield (frame : Z) (s : sched) : option (Z * sched) :=
  if negb (sched_initialized s) then Some (frame, s) else
  sched_do_switch frame (set_sched_need_resched true s).

(** ** Timer *)

(** Is a sleeper due? *)
Fixpoint any_due (fuel : nat) (now : Z) (sp : option nat) (s : sched) : option bool :=
  match sp with
  | None => Some false
  | Some w =>
      match fuel with
      | O => None
      | S fuel => if sleep_until (proc s w) <=? now then Some true
                  else any_due fuel now (next (proc s w)) s
      end
  end.

Definition sched_tick (s : sched) : option sched :=
  match current s with
  | None => Some s
  | Some cur =>
      if negb (sched_initialized s) then Some s else
      let s := if 0 <? ticks_left (proc s cur)
               then modify cur (set_ticks_left (ticks_left (proc s cur) - 1)) s else s in
      let s := if (ticks_left (proc s cur) =? 0) && is_state (state (proc s cur)) PROC_RUNNING
               then set_sched_need_resched true (modify cur (set_ticks_left time_slice) s) else s in
      due ← any_due MAX_PROCESSES (get_ticks_internal s) (sleep_queue s) s;
      Some (if due : bool then set_sched_need_resched true s else s)
  end.

(** [cb] is [sched_deferred_irq_cb]. *)
Definition pit_handler (cb : option (sched -> option sched)) (s : sched) : option sched :=
  let s := set_pit_ticks (u32 (pit_ticks s + 1)) s in
  if negb (sched_initialized s) then Some s else
  s ← sched_tick s;
  match cb with Some f => f s | None => Some s end.

(** ** Sleeping, blocking, ending *)

(** The search for the place in the sleep queue: [prev] is the process whose
    [next] field [pp] points to, [None] for [&sleep_queue]. *)
Fixpoint sleep_place (fuel : nat) (until : Z) (prev cur : option nat) (s : sched) :
    option (option nat * option nat) :=
  match cur with
  | None => Some (prev, None)
  | Some c =>
      if sleep_until (proc s c) <=? until then
        match fuel with
        | O => None
        | S fuel => sleep_place fuel until (Some c) (next (proc s c)) s
        end
      else Some (prev, cur)
  end.

(** [sched_sleep] up to its [cli]: interrupts are still enabled here. *)
Definition sleep_mark (ms : Z) (cur : nat) (s : sched) : sched :=
  let ticks_to_sleep := u32 (ms * PIT_TARGET_HZ) / 1000 in
  let ticks_to_sleep := if ticks_to_sleep =? 0 then 1 else ticks_to_sleep in
  let s := modify cur (set_state PROC_SLEEPING) s in
  modify cur (set_sleep_until (u32 (get_ticks_internal s + ticks_to_sleep))) s.

(** The part between [cli] and [sti]. *)
Definition sleep_insert (cur : nat) (s : sched) : option sched :=
  '(prev, rest) ← sleep_place MAX_PROCESSES (sleep_until (proc s cur)) None (sleep_queue s) s;
  let s := modify cur (set_next rest) s in
  Some (match prev with
        | Some q => modify q (set_next (Some cur)) s
        | None => set_sleep_queue (Some cur) s
        end).

Definition sched_sleep (ms frame : Z) (s : sched) : option (Z * sched) :=
  match current s with
  | None => Some (frame, s)
  | Some cur =>
      if negb (sched_initialized s) then Some (frame, s) else
      s ← sleep_insert cur (sleep_mark ms cur s);
      sched_do_switch_yield frame s
  end.

(** The process does not run again: the loop on [hlt] after the switch is not
    reached unless the state is set back from outside. *)
Definition sched_exit (code frame : Z) (s : sched) : option (Z * sched) :=
  match current s with
  | None => Some (frame, s)
  | Some cur =>
      if negb (sched_initialized s) then Some (frame, s) else
      let s := modify cur (set_state PROC_ZOMBIE) s in
      let s := modify cur (set_exit_code code) s in
      let s := set_process_count (u32 (process_count s - 1)) s in
      sched_do_switch_yield frame s
  end.

Definition sched_block_on (channel frame : Z) (s : sched) : option (Z * sched) :=
  match current s with
  | None => Some (frame, s)
  | Some cur =>
      if negb (sched_initialized s) then Some (frame, s) else
      let s := modify cur (set_state PROC_BLOCKED) s in
      let s := modify cur (set_waiting_for channel) s in
      sched_do_switch_yield frame s
  end.

(** A loop over the slots of the table. *)
Fixpoint for_slots (f : nat -> sched -> option sched) (l : list nat) (s : sched) : option sched :=
  match l with
  | [] => Some s
  | i :: l => s ← f i s; for_slots f l s
  end.

Definition wakeup_slot (channel : Z) (i : nat) (s : sched) : option sched :=
  if is_state (state (proc s i)) PROC_BLOCKED && (waiting_for (proc s i) =? channel) then
    let s := modify i (set_state PROC_READY) s in
    let s := modify i (set_waiting_for 0) s in
    s ← enqueue_ready i s;
    Some (set_sched_need_resched true s)
  else Some s.

Definition sched_wakeup (channel : Z) (s : sched) : option sched :=
  if negb (sched_initialized s) then Some s else
  for_slots (wakeup_slot channel) (seq 0 MAX_PROCESSES) s.

(** The first slot that satisfies a condition. *)
Definition find_slot (b : process -> bool) (s : sched) : option nat :=
  find (fun i => b (proc s i)) (seq 0 MAX_PROCESSES).

(** [pid] is signed here; the comparison with the unsigned field converts it. *)
Definition sched_kill (p : Z) (s : sched) : Z * sched :=
  if negb (sched_initialized s) then (-1, s) else
  match find_slot (fun q => (pid q =? u32 p) && negb (is_state (state q) PROC_UNUSED)) s with
  | None => (-1, s)
  | Some i => (0, modify i (set_exit_code (-1)) (modify i (set_state PROC_ZOMBIE) s))
  end.

Definition irq_bit (irq : Z) : Z := Z.shiftl 1 irq.

Definition wake_irq_slot (irq : Z) (i : nat) (s : sched) : sched :=
  let st := state (proc s i) in
  if negb (is_state st PROC_READY) && negb (is_state st PROC_RUNNING) then
    if nz (Z.land (irq_mask (proc s i)) (irq_bit irq)) then
      let s := modify i (set_irq_pending (Z.lor (irq_pending (proc s i)) (irq_bit irq))) s in
      set_sched_need_resched true (modify i (set_state PROC_READY) s)
    else s
  else s.

Definition sched_wake_irq (irq : Z) (s : sched) : sched :=
  foldl (fun s i => wake_irq_slot irq i s) s (seq 0 MAX_PROCESSES).

(** ** Queries *)

Definition sched_get_pid (s : sched) : Z := match current s with Some c => pid (proc s c) | None => 0 end.
Definition sched_get_ppid (s : sched) : Z := match current s with Some c => ppid (proc s c) | None => 0 end.

Definition sched_get_processes (max : Z) (s : sched) : list nat :=
  take (Z.to_nat max)
    (filter (fun i => state (proc s i) <> PROC_UNUSED /\ state (proc s i) <> PROC_ZOMBIE) (seq 0 MAX_PROCESSES)).

Definition sched_start (s : sched) : Z :=
  match current s with None => -1 | Some _ => if sched_initialized s then 0 else -1 end.

(** ["/"] is the character 47. *)
Definition sched_get_chroot (s : sched) : list Z :=
  match current s with
  | None => [47]
  | Some c => match chroot_path (proc s c) with [] => [47] | p => p end
  end.

Definition alloc_pid (s : sched) : Z * sched :=
  let p := next_pid s in
  let s := set_next_pid (u32 (p + 1)) s in
  (p, if 10000 <=? next_pid s then set_next_pid 1 s else s).

(** ** Creating processes *)

(** The frame that the entry code of the interrupts leaves on the stack. *)
Record interrupt_frame := Frame {
f_rax : Z; f_rbx : Z; f_rcx : Z; f_rdx : Z; f_rsi : Z; f_rdi : Z; f_rbp : Z; f_r8 : Z;
  f_r9 : Z; f_r10 : Z; f_r11 : Z; f_r12 : Z; f_r13 : Z; f_r14 : Z; f_r15 : Z; f_error_code : Z;
  f_vector : Z; f_rip : Z; f_cs : Z; f_rflags : Z; f_rsp : Z; f_ss : Z }.

Definition frame_words (f : interrupt_frame) : list Z :=
  [f_rax f; f_rbx f; f_rcx f; f_rdx f; f_rsi f; f_rdi f; f_rbp f; f_r8 f; f_r9 f;
   f_r10 f; f_r11 f; f_r12 f; f_r13 f; f_r14 f; f_r15 f; f_error_code f; f_vector f; f_rip f; f_cs f; f_rflags f; f_rsp f; f_ss f].

Definition sizeof_frame : Z := 176.

(** The stores [frame->rax = ...; ...; frame->ss = ...], field by field. *)
Fixpoint store_words (m : mem) (a : Z) (l : list Z) : mem :=
  match l with
  | [] => m
  | w :: l => store_words (wr64 m a w) (a + 8) l
  end.

Definition store_frame (m : mem) (a : Z) (f : interrupt_frame) : mem :=
  store_words (memset m a 0 176) a (frame_words f).

(** A new thread has cleared registers but for these. *)
Definition entry_frame (rsi rdi rip cs rsp ss : Z) : interrupt_frame :=
  Frame 0 0 0 0 rsi rdi 0 0 0 0 0 0 0 0 0 0 128 rip cs 0x202 rsp ss.

(** The scheduler with the parts of the kernel it calls: the heap, the page tables
    and the binary formats. *)
Record kern := Kern { sc : sched; hp : heap; pg : paging; fmts : binfmt_state }.

Definition on_sched (f : sched -> sched) (k : kern) : kern := Kern (f (sc k)) (hp k) (pg k) (fmts k).
Definition set_sc (s : sched) (k : kern) : kern := Kern s (hp k) (pg k) (fmts k).
Definition set_hp (h : heap) (k : kern) : kern := Kern (sc k) h (pg k) (fmts k).
Definition set_pg (p : paging) (k : kern) : kern := Kern (sc k) (hp k) p (fmts k).
Definition kram (k : kern) : mem := ram (ph (pg k)).
Definition on_phys (f : phys -> phys) (k : kern) : kern := set_pg (set_ph (f (ph (pg k))) (pg k)) k.
Definition on_ram (f : mem -> mem) (k : kern) : kern := on_phys (fun st => set_ram (f (ram st)) st) k.
Definition prc (k : kern) (i : nat) : process := proc (sc k) i.
Definition mod_proc (i : nat) (f : process -> process) (k : kern) : kern := on_sched (modify i f) k.

Definition free_slot (p : process) : bool := is_state (state p) PROC_UNUSED.

(** The search for a free slot, which is cleared. *)
Definition alloc_slot (k : kern) : option nat * kern :=
  match find_slot free_slot (sc k) with
  | None => (None, k)
  | Some i => (Some i, mod_proc i (fun _ => zero_process) k)
  end.

Section create.
(** Addresses of code in the image: the idle loop and the first function of a
    thread; the frame buffer of [create_address_space]. *)
Variables (idle_loop thread_entry fb_phys fb_size : Z).

Definition sched_create_kthread (nm : list Z) (entry arg : Z) (k : kern) : option (Z * kern) :=
  if negb (sched_initialized (sc k)) then Some (-1, k) else
  match alloc_slot k with
  | (None, k) => Some (-1, k)
  | (Some p, k) =>
      let '(np, s) := alloc_pid (sc k) in
      let k := mod_proc p (set_pid np) (set_sc s k) in
      let k := mod_proc p (set_ppid (sched_get_pid (sc k))) k in
      let k := mod_proc p (set_name (take 31 nm)) k in
      let k := mod_proc p (set_chroot_path [47]) k in
      let k := mod_proc p (set_state PROC_READY) k in
      let k := mod_proc p (set_ticks_left time_slice) k in
      let k := mod_proc p (set_cr3 (match current (sc k) with Some c => cr3 (prc k c) | None => 0x1000 end)) k in
      '(ks, h) ← kmalloc KERNEL_STACK_SIZE (hp k);
      let k := mod_proc p (set_kstack ks) (set_hp h k) in
      if ks =? 0 then Some (-1, mod_proc p (set_state PROC_UNUSED) k) else
      let stack_top := u64 (ks + KERNEL_STACK_SIZE) in
      let k := mod_proc p (set_kstack_top (u64 (stack_top - sizeof_frame))) k in
      let k := on_ram (fun m => store_frame m (u64 (stack_top - sizeof_frame))
                 (entry_frame arg entry thread_entry 0x08 (u64 (stack_top - 8)) 0x10)) k in
      let k := mod_proc p (set_fpu_context (clean_fpu_state (sc k))) k in
      let k := mod_proc p (fun q => set_fds ((fun e => FdEntry 0 (fd_type e) (fd_data e) (fd_pos e) (fd_flags e))
                                               <$> fds q) q) k in
      let k := mod_proc p (set_heap_start 0x40000000) k in
      let k := mod_proc p (set_heap_end 0x40000000) k in
      s ← enqueue_ready p (sc k);
      let s := set_process_count (u32 (process_count s + 1)) s in
      Some (pid (proc s p), set_sc s k)
  end.

(** The address space of a child: shared with a kernel thread, copied otherwise.
    [false] is the failure of the copy. *)
Definition child_space (parent child : nat) (k : kern) : bool * kern :=
  if cr3 (prc k parent) =? 0x1000 then (true, mod_proc child (set_cr3 (cr3 (prc k parent))) k) else
  let '(cas, p) := copy_address_space fb_phys fb_size (cr3 (prc k parent)) (pg k) in
  let k := set_pg p k in
  if cas =? 0 then (false, mod_proc child (set_state PROC_UNUSED) k)
  else (true, mod_proc child (set_cr3 cas) k).

(** The kernel stack of a child; on a failure its address space is freed. *)
Definition child_stack (child : nat) (k : kern) : option (bool * kern) :=
  '(ks, h) ← kmalloc KERNEL_STACK_SIZE (hp k);
  let k := mod_proc child (set_kstack ks) (set_hp h k) in
  if ks =? 0 then
    let k := if negb (cr3 (prc k child) =? 0x1000)
             then on_phys (free_address_space (cr3 (prc k child))) k else k in
    Some (false, mod_proc child (set_state PROC_UNUSED) k)
  else Some (true, k).

(** The read-only page above the user stack. *)
Definition map_guard (pml4 : Z) (st : phys) : phys :=
  let '(guard_phys, st) := pmm_alloc_page st in
  if guard_phys =? 0 then st else
  let st := set_ram (memset (ram st) guard_phys 0 page_size) st in
  snd (paging_map_for_process pml4 guard_phys user_stack_top (Z.lor PAGE_PRESENT PAGE_USER) st).

Definition publish (child : nat) (k : kern) : option (Z * kern) :=
  s ← enqueue_ready child (sc k);
  let s := set_process_count (u32 (process_count s + 1)) s in
  Some (pid (proc s child), set_sc s k).

(** The fields a child takes from its parent before its address space is made; [n]
    is the length the name is cut to. *)
Definition child_init (n : nat) (parent child : nat) (k : kern) : kern :=
  let '(np, s) := alloc_pid (sc k) in
  let k := mod_proc child (set_pid np) (set_sc s k) in
  let k := mod_proc child (set_ppid (pid (prc k parent))) k in
  let k := mod_proc child (set_name (take n (name (prc k parent)))) k in
  let k := mod_proc child (set_chroot_path (chroot_path (prc k parent))) k in
  let k := mod_proc child (set_state PROC_READY) k in
  mod_proc child (set_ticks_left time_slice) k.

Definition child_copy (parent child : nat) (k : kern) : kern :=
  let k := mod_proc child (set_heap_start (heap_start (prc k parent))) k in
  mod_proc child (set_heap_end (heap_end (prc k parent))) k.

Definition child_files (parent child : nat) (k : kern) : kern :=
  let k := mod_proc child (set_fds (fds (prc k parent))) k in
  mod_proc child (set_fpu_context (fpu_context (prc k parent))) k.

Definition sched_clone (rip rsp : Z) (k : kern) : option (Z * kern) :=
  if negb (sched_initialized (sc k)) then Some (-1, k) else
  if negb (Z.land rsp 15 =? 0) then Some (-1, k) else
  match current (sc k) with
  | None => Some (-1, k)
  | Some parent =>
      match alloc_slot k with
      | (None, k) => Some (-1, k)
      | (Some child, k) =>
          let k := child_init 27 parent child k in
          match child_space parent child k with
          | (false, k) => Some (-1, k)
          | (true, k) =>
              let k := child_copy parent child k in
              let k := mod_proc child (set_user_rip rip) k in
              let k := mod_proc child (set_user_rsp rsp) k in
              let k := child_files parent child k in
              '(ok, k) ← child_stack child k;
              if negb ok then Some (-1, k) else
              let stack_top := u64 (kstack (prc k child) + KERNEL_STACK_SIZE) in
              let k := mod_proc child (set_kstack_top (u64 (stack_top - sizeof_frame))) k in
              let k := on_ram (fun m => store_frame m (u64 (stack_top - sizeof_frame))
                         (entry_frame 0 0 rip 0x2B rsp 0x23)) k in
              let k := on_phys (map_guard (cr3 (prc k child))) k in
              publish child k
          end
      end
  end.

(** The registers of a system call (syscall.h). *)
Record trap_frame := TrapFrame {
  t_rax : Z; t_rdi : Z; t_rsi : Z; t_rdx : Z; t_r10 : Z; t_r8 : Z; t_r9 : Z; t_r15 : Z; t_r14 : Z;
  t_r13 : Z; t_r12 : Z; t_rbx : Z; t_rbp : Z; t_rcx : Z; t_r11 : Z; t_user_rsp : Z }.

Definition fork_frame (t : trap_frame) : interrupt_frame :=
  Frame 0 (t_rbx t) 0 (t_rdx t) (t_rsi t) (t_rdi t) (t_rbp t) (t_r8 t) (t_r9 t) (t_r10 t) 0
    (t_r12 t) (t_r13 t) (t_r14 t) (t_r15 t) 0 128 (t_rcx t) 0x2B
    (Z.lor (Z.land (t_r11 t) 0x3FFFF) 0x202) (t_user_rsp t) 0x23.

(** [None] for [t] is a null [frame_ptr]. *)
Definition sched_fork (t : option trap_frame) (k : kern) : option (Z * kern) :=
  match t with
  | None => Some (-1, k)
  | Some t =>
    if negb (sched_initialized (sc k)) then Some (-1, k) else
    match current (sc k) with
    | None => Some (-1, k)
    | Some parent =>
        match alloc_slot k with
        | (None, k) => Some (-1, k)
        | (Some child, k) =>
            let k := child_init 31 parent child k in
            match child_space parent child k with
            | (false, k) => Some (-1, k)
            | (true, k) =>
                let k := child_files parent child (child_copy parent child k) in
                '(ok, k) ← child_stack child k;
                if negb ok then Some (-1, k) else
                let stack_top := u64 (kstack (prc k child) + KERNEL_STACK_SIZE) in
                let a := Z.land (u64 (stack_top - sizeof_frame)) (mask64 4) in
                let k := mod_proc child (set_kstack_top a) k in
                let k := on_ram (fun m => store_frame m a (fork_frame t)) k in
                let k := mod_proc child (set_user_rip (f_rip (fork_frame t))) k in
                let k := mod_proc child (set_user_rsp (f_rsp (fork_frame t))) k in
                let k := if negb (cr3 (prc k child) =? 0x1000)
                         then on_phys (map_guard (cr3 (prc k child))) k else k in
                publish child k
            end
        end
    end
  end.

(** Stores through the page tables of [pml4], which is in cr3; [None] is a fault. *)
Definition vwr8 (pml4 va v : Z) (m : mem) : option mem :=
  pa ← translate m pml4 va; Some (wr8 m pa v).

Fixpoint vwrite (pml4 va : Z) (l : list Z) (m : mem) : option mem :=
  match l with
  | [] => Some m
  | b :: l => m ← vwr8 pml4 va b m; vwrite pml4 (u64 (va + 1)) l m
  end.

(** A 64-bit word as little-endian bytes. *)
Definition le_bytes (n : nat) (v : Z) : list Z := (fun i => Z.land (Z.shiftr v (8 * Z.of_nat i)) 255) <$> seq 0 n.

Fixpoint vwrite_words (pml4 va : Z) (l : list Z) (m : mem) : option mem :=
  match l with
  | [] => Some m
  | w :: l => m ← vwrite pml4 va (le_bytes 8 w) m; vwrite_words pml4 (u64 (va + 8)) l m
  end.

(** The arguments of a new program on its stack: the name, 16 zero bytes, and the
    vector [argc argv[0] NULL NULL auxv].  The result is the stack pointer. *)
Definition push_args (pml4 entry : Z) (nm : list Z) (m : mem) : option (Z * mem) :=
  let rsp := Z.land user_stack_top (mask64 4) in
  let name_len := Z.of_nat (length nm) + 1 in
  let rsp := u64 (rsp - name_len) in
  m ← vwrite pml4 rsp (nm ++ [0]) m;
  let prog_name_ptr := rsp in
  let rsp := u64 (rsp - 16) in
  m ← vwrite pml4 rsp (replicate 16 0) m;
  let at_random_ptr := rsp in
  let rsp := Z.land (u64 (rsp - 8 * 12)) (mask64 4) in
  m ← vwrite_words pml4 rsp
        [1; prog_name_ptr; 0; 0; 6; 4096; 25; at_random_ptr; 9; entry; 0; 0] m;
  Some (rsp, m).

(** The descriptors of a new process: 0, 1 and 2 are in use. *)
Definition init_fds : list fd_entry :=
  replicate 3 (FdEntry 1 0 0 0 0) ++ replicate 29 fd_zero.

Definition sched_create_process (nm : list Z) (elf_data elf_size : Z) (k : kern) : option (Z * kern) :=
  if negb (sched_initialized (sc k)) then Some (-1, k) else
  match alloc_slot k with
  | (None, k) => Some (-1, k)
  | (Some p, k) =>
      let fail k := Some (-1, mod_proc p (set_state PROC_UNUSED) k) in
      let '(np, s) := alloc_pid (sc k) in
      let k := mod_proc p (set_pid np) (set_sc s k) in
      let k := mod_proc p (set_ppid (sched_get_pid (sc k))) k in
      let k := mod_proc p (set_name (take 31 nm)) k in
      let k := mod_proc p (set_chroot_path [47]) k in
      let k := mod_proc p (set_state PROC_READY) k in
      let k := mod_proc p (set_ticks_left time_slice) k in
      let '(pml4, pgs) := create_address_space fb_phys fb_size (pg k) in
      let k := set_pg pgs k in
      if pml4 =? 0 then fail k else
      let k := mod_proc p (set_cr3 pml4) k in
      let '(entry, max_vaddr, st, b) := binfmt_load (fmts k) elf_data elf_size pml4 0 (ph (pg k)) in
      let k := Kern (sc k) (hp k) (set_ph st (pg k)) b in
      if entry =? 0 then fail (on_phys (free_address_space pml4) k) else
      let k := mod_proc p (set_user_rip entry) k in
      let k := mod_proc p (set_heap_start (Z.land (u64 (max_vaddr + 4095)) (mask64 12))) k in
      let k := mod_proc p (set_heap_end (heap_start (prc k p))) k in
      match map_stack pml4 0 64 (ph (pg k)) with
      | (false, st) => fail (on_phys (fun _ => st) k)
      | (true, st) =>
          let k := on_phys (fun _ => map_guard pml4 st) k in
          '(rsp, m) ← push_args pml4 entry nm (kram k);
          let k := mod_proc p (set_user_rsp rsp) (on_ram (fun _ => m) k) in
          '(ks, h) ← kmalloc KERNEL_STACK_SIZE (hp k);
          let k := mod_proc p (set_kstack ks) (set_hp h k) in
          if ks =? 0 then fail (on_phys (free_address_space pml4) k) else
          let stack_top := u64 (ks + KERNEL_STACK_SIZE) in
          let k := mod_proc p (set_kstack_top (u64 (stack_top - sizeof_frame))) k in
          let k := on_ram (fun m => store_frame m (u64 (stack_top - sizeof_frame))
                     (entry_frame (u64 (rsp + 8)) 1 entry 0x2B rsp 0x23)) k in
          let k := mod_proc p (set_fpu_context (clean_fpu_state (sc k))) k in
          let k := mod_proc p (set_fds init_fds) k in
          publish p k
      end
  end.

(** ** Waiting for a child *)

(** One pass over the table: the reaped process's exit code, if it has ended. *)
Definition reap (p : Z) (k : kern) : option (option Z * kern) :=
  match find_slot (fun q => (pid q =? p) && is_state (state q) PROC_ZOMBIE) (sc k) with
  | None => Some (None, k)
  | Some i =>
      let code := exit_code (prc k i) in
      let free_kstack := kstack (prc k i) in
      let free_cr3 := cr3 (prc k i) in
      let k := mod_proc i (fun q => set_state PROC_UNUSED (set_cr3 0 (set_kstack_top 0 (set_kstack 0 q)))) k in
      h ← (if nz free_kstack then kfree free_kstack (hp k) else Some (hp k));
      let k := set_hp h k in
      let k := if nz free_cr3 && negb (free_cr3 =? 0x1000)
               then on_phys (free_address_space free_cr3) k else k in
      Some (Some code, k)
  end.

(** [run] is the rest of the system, from the [sched_yield] until the caller runs
    again.  The result is the return value and [*status]. *)
Fixpoint sched_waitpid (fuel : nat) (run : kern -> option kern) (p : Z) (k : kern) :
    option (Z * option Z * kern) :=
  match fuel with
  | O => None
  | S fuel =>
      if negb (sched_initialized (sc k)) then Some (-1, None, k) else
      '(r, k) ← reap p k;
      match r with
      | Some code => Some (i32 p, Some code, k)
      | None => k ← run k; sched_waitpid fuel run p k
      end
  end.

(** ** Initialisation *)

(** The calibration loops: read the counter of the timer until the number of
    wraps seen reaches [target]; the counter values read are [samples]. *)
Fixpoint count_wraps (target : Z) (samples : list Z) (prev ticks : Z) : option (Z * Z * list Z) :=
  if target <=? ticks then Some (prev, ticks, samples) else
  match samples with
  | [] => None
  | cur :: samples => count_wraps target samples cur (if prev <? cur then u32 (ticks + 1) else ticks)
  end.

(** [tsc_start] and [tsc_end] are the readings of the time stamp counter. *)
Definition calibrate_tsc (samples : list Z) (tsc_start tsc_end : Z) (s : sched) : option sched :=
  match samples with
  | [] => None
  | prev :: samples =>
      '(prev, t1, samples) ← count_wraps (pit_ticks s + 1) samples prev (pit_ticks s);
      '(_, t2, _) ← count_wraps (u32 (t1 + 100)) samples prev t1;
      let s := set_pit_ticks t2 s in
      let delta := u32 (t2 - t1) in
      Some (if (0 <? delta) && (0 <? u64 (tsc_end - tsc_start)) then
              let s := set_tsc_freq_hz (u64 (u64 (tsc_end - tsc_start) * PIT_TARGET_HZ) / delta) s in
              if 0 <? tsc_freq_hz s then set_tsc_calibrated true (set_tsc_offset tsc_start s) else s
            else s)
  end.

Definition idle_name : list Z := [105; 100; 108; 101].

(** [fpu0] is the state [fxsave] stores after [fninit]. *)
Definition sched_init (fpu0 samples : list Z) (tsc_start tsc_end : Z) (k : kern) : option (Z * kern) :=
  let s := sc k in
  let s := set_processes (replicate MAX_PROCESSES zero_process) s in
  let s := set_sleep_queue None (set_ready_queue_tail None (set_ready_queue None s)) in
  let s := set_process_count 0 (set_next_pid 1 (set_current None s)) in
  let s := set_sched_initialized false (set_sched_locked false (set_pit_ticks 0 s)) in
  let s := set_clean_fpu_state fpu0 (set_cpu_fpu fpu0 s) in
  let s := modify 0 (set_name idle_name) (modify 0 (set_pid 0) s) in
  let s := modify 0 (set_state PROC_READY) (modify 0 (set_chroot_path [47]) s) in
  let s := modify 0 (set_cr3 0x1000) (modify 0 (set_ticks_left (time_slice + 1000)) s) in
  '(ks, h) ← kmalloc KERNEL_STACK_SIZE (hp k);
  let s := modify 0 (set_kstack ks) s in
  let k := set_hp h (set_sc s k) in
  if ks =? 0 then Some (-1, k) else
  let stack_top := u64 (ks + KERNEL_STACK_SIZE) in
  let k := mod_proc 0 (set_kstack_top (u64 (stack_top - sizeof_frame))) k in
  let k := on_ram (fun m => store_frame m (u64 (stack_top - sizeof_frame))
             (entry_frame 0 0 idle_loop 0x08 stack_top 0x10)) k in
  let s := modify 0 (set_fpu_context fpu0) (sc k) in
  let s := set_tss_rsp0 stack_top s in
  s ← enqueue_ready 0 s;
  let s := modify 0 (set_state PROC_RUNNING) (set_current (Some 0%nat) s) in
  let s := set_sched_initialized true (set_process_count 1 s) in
  s ← calibrate_tsc samples tsc_start tsc_end s;
  let s := set_sched_need_resched false (modify 0 (set_ticks_left time_slice) s) in
  Some (0, set_sc s k).

End create.

(** * The queues as lists *)

(** Following the [next] fields from [p] visits [l]. *)
Fixpoint chain (s : sched) (p : option nat) (l : list nat) : Prop :=
  match l with
  | [] => p = None
  | x :: l => p = Some x /\ chain s (next (proc s x)) l
  end.

(** The links of the two queues are those of the lists [rq] and [sq]. *)
Record queues (s : sched) (rq sq : list nat) : Prop := {
  q_len : length (processes s) = MAX_PROCESSES;
  q_ready : chain s (ready_queue s) rq;
  q_tail : ready_queue_tail s = last rq;
  q_sleep : chain s (sleep_queue s) sq;
  q_nodup : NoDup (rq ++ sq);
  q_bound : Forall (fun i => (i < MAX_PROCESSES)%nat) (rq ++ sq) }.

Lemma proc_modify_eq s i f :
  (i < length (processes s))%nat -> proc (modify i f s) i = f (proc s i).
Proof.
  intros Hi. unfold proc, modify. simpl. destruct (lookup_lt_is_Some_2 _ _ Hi) as [p Hp].
  rewrite !nth_lookup, list_lookup_alter_eq, Hp. done.
Qed.

Lemma proc_modify_ne s i j f : i <> j -> proc (modify i f s) j = proc s j.
Proof. intros Hne. unfold proc, modify. simpl. by rewrite !nth_lookup, list_lookup_alter_ne. Qed.

Lemma length_modify s i f : length (processes (modify i f s)) = length (processes s).
Proof. unfold modify. simpl. apply length_alter. Qed.

(** A field that [f] keeps is the same in every process. *)
Lemma proc_modify_proj {A} (g : process -> A) s i f j :
  (forall p, g (f p) = g p) -> g (proc (modify i f s) j) = g (proc s j).
Proof.
  intros Hg. destruct (decide (i = j)) as [->|Hne]; [|by rewrite proc_modify_ne].
  destruct (decide (j < length (processes s))%nat) as [Hl|Hl]; [by rewrite proc_modify_eq|].
  unfold proc, modify. simpl. by rewrite !nth_overflow by (rewrite ?length_alter; lia).
Qed.

Lemma ready_chain_ext s s' p l :
  (forall i, i ∈ l -> next (proc s' i) = next (proc s i)) -> chain s p l -> chain s' p l.
Proof.
  revert p. induction l as [|x l IH]; intros p Hn; simpl; [done|]. intros [-> Hc].
  split; [done|]. rewrite Hn by set_solver. apply IH; [|done]. intros i Hi. apply Hn. set_solver.
Qed.

Lemma chain_snoc s s' q l t p :
  chain s q l -> last l = Some t -> NoDup l ->
  (forall i, i ∈ l -> i <> t -> next (proc s' i) = next (proc s i)) ->
  next (proc s' t) = Some p -> next (proc s' p) = None -> chain s' q (l ++ [p]).
Proof.
  revert q. induction l as [|x l IH]; intros q Hc Hl Hnd Hn Ht Hp; [done|].
  destruct Hc as [-> Hc]. apply NoDup_cons in Hnd as [Hx Hnd]. simpl. split; [done|].
  destruct l as [|y l].
  - injection Hl as <-. simpl. by rewrite Ht, Hp.
  - rewrite Hn; [|set_solver|].
    + apply IH; auto. intros i Hi. apply Hn. set_solver.
    + intros ->. apply Hx. rewrite last_cons_cons in Hl. by apply last_Some_elem_of.
Qed.

(** ** Changes up to the links *)

Definition unlink (p : process) : process := set_next None p.

(** Everything but the table and the queue pointers. *)
Definition globals (s : sched) : sched :=
  set_processes [] (set_ready_queue None (set_ready_queue_tail None (set_sleep_queue None s))).

(** From [s] to [s'] process [i] changes as [g i] says, up to its [next] field. *)
Record changes (g : nat -> process -> process) (s s' : sched) : Prop := {
  ch_proc : forall i, (i < MAX_PROCESSES)%nat -> unlink (proc s' i) = unlink (g i (proc s i));
  ch_glob : globals s' = globals s }.

Definition nochange : nat -> process -> process := fun _ p => p.

Lemma changes_refl s : changes nochange s s.
Proof. by split. Qed.

Lemma changes_trans g h s1 s2 s3 :
  (forall i p, unlink (h i p) = h i (unlink p)) ->
  changes g s1 s2 -> changes h s2 s3 -> changes (fun i p => h i (g i p)) s1 s3.
Proof.
  intros Hh [Hp1 Hg1] [Hp2 Hg2]. split; [|by rewrite Hg2].
  intros i Hi. by rewrite Hp2, Hh, Hp1, <- Hh by done.
Qed.

Lemma unlink_proj {A} (f : process -> A) p q :
  (forall p, f (unlink p) = f p) -> unlink p = unlink q -> f p = f q.
Proof. intros Hf Hu. by rewrite <- Hf, Hu, Hf. Qed.

Lemma globals_proj {A} (f : sched -> A) s s' :
  (forall s, f (globals s) = f s) -> globals s = globals s' -> f s = f s'.
Proof. intros Hf Hu. by rewrite <- Hf, Hu, Hf. Qed.

Section field.
Context {A : Type} (f : process -> A) (g : nat -> process -> process) (s s' : sched).
Context (Hf : forall p, f (unlink p) = f p) (Hc : changes g s s').
Lemma ch_field i : (i < MAX_PROCESSES)%nat -> f (proc s' i) = f (g i (proc s i)).
Proof. intros Hi. apply (unlink_proj f); [exact Hf|]. by apply Hc. Qed.
End field.

Section global.
Context {A : Type} (f : sched -> A) (g : nat -> process -> process) (s s' : sched).
Context (Hf : forall s, f (globals s) = f s) (Hc : changes g s s').
Lemma ch_global : f s' = f s.
Proof. apply (globals_proj f); [exact Hf|]. apply Hc. Qed.
End global.

(** ** The queue operations *)

Lemma enqueue_spec s rq sq p :
  queues s rq sq -> (p < MAX_PROCESSES)%nat -> p ∉ rq ++ sq -> state (proc s p) = PROC_READY ->
  exists s', enqueue_ready p s = Some s' /\ queues s' (rq ++ [p]) sq /\ changes nochange s s'.
Proof.
  intros [Hlen Hr Ht Hs Hnd Hb] Hp Hnin Hst. unfold enqueue_ready, is_state. rewrite Hst.
  rewrite bool_decide_true by done. simpl. set (s1 := modify p (set_next None) s).
  assert (Hlen1 : length (processes s1) = MAX_PROCESSES) by (by unfold s1; rewrite length_modify).
  assert (Hnd' : NoDup ((rq ++ [p]) ++ sq)).
  { rewrite <- app_assoc. simpl. rewrite <- Permutation_middle. by constructor. }
  assert (Hb' : Forall (fun i => (i < MAX_PROCESSES)%nat) ((rq ++ [p]) ++ sq)).
  { rewrite <- app_assoc. simpl. rewrite <- Permutation_middle. by constructor. }
  assert (Hn1 : forall i, i <> p -> proc s1 i = proc s i) by (intros i Hi; by apply proc_modify_ne).
  assert (Hn1p : next (proc s1 p) = None) by (unfold s1; rewrite proc_modify_eq; [done|lia]).
  assert (Hu : forall i, unlink (proc s1 i) = unlink (proc s i)) by (intros i; by apply proc_modify_proj).
  assert (Hch : forall q l, p ∉ l -> chain s q l -> chain s1 q l).
  { intros q l Hl. apply ready_chain_ext. intros i Hi. rewrite Hn1; [done|]. intros ->. done. }
  apply not_elem_of_app in Hnin as [Hnr Hns]. change (ready_queue s1) with (ready_queue s).
  destruct rq as [|x rq].
  - simpl in Hr. rewrite Hr. eexists. split; [done|]. split.
    + split; auto; try done. simpl. apply (ready_chain_ext s1); [done|]. by apply Hch.
    + split; [|done]. intros i _. apply Hu.
  - pose proof Hr as [-> _]. simpl. change (ready_queue_tail s1) with (ready_queue_tail s). rewrite Ht.
    destruct (last (x :: rq)) as [t|] eqn:El; [|by apply last_None in El]. simpl. eexists. split; [done|].
    assert (Htin : t ∈ x :: rq) by (by apply last_Some_elem_of). 
    assert (Htp : t <> p) by (intros ->; done).
    assert (Htb : (t < length (processes s1))%nat).
    { rewrite Hlen1. rewrite Forall_forall in Hb. apply Hb. set_solver. }
    set (s2 := modify t (set_next (Some p)) s1).
    assert (Hn2 : forall i, i <> t -> proc s2 i = proc s1 i) by (intros i Hi; by apply proc_modify_ne).
    assert (Hn2t : next (proc s2 t) = Some p) by (unfold s2; by rewrite proc_modify_eq).
    split; [|split; [|done]].
    + split; auto.
      * change (length (processes s2) = MAX_PROCESSES). unfold s2. by rewrite length_modify.
      * apply (ready_chain_ext s2); [done|]. change (chain s2 (ready_queue s) ((x :: rq) ++ [p])).
        apply (chain_snoc s s2 _ (x :: rq) t p Hr El); [by apply NoDup_app in Hnd as [? _]| |done|by rewrite Hn2].
        intros i Hi Hit. rewrite Hn2, Hn1; [done| |done]. intros ->. done.
      * symmetry. apply (last_snoc p (x :: rq)).
      * apply (ready_chain_ext s2); [done|]. change (chain s2 (sleep_queue s) sq). apply (ready_chain_ext s); [|done]. intros i Hi.
        apply NoDup_app in Hnd as (_ & Hdis & _).
        rewrite Hn2, Hn1; [done| |]; intros ->; [done|]. by apply (Hdis t).
    + intros i _. change (unlink (proc s2 i) = unlink (proc s i)). rewrite <- Hu. by apply proc_modify_proj.
Qed.

Lemma dequeue_spec s rq sq :
  queues s rq sq ->
  queues (dequeue_ready s).2 (tail rq) sq /\ changes nochange s (dequeue_ready s).2 /\
  (dequeue_ready s).1 = head rq.
Proof.
  intros [Hlen Hr Ht Hs Hnd Hb]. unfold dequeue_ready. destruct rq as [|x rq].
  - simpl in Hr. rewrite Hr. split; [by split|]. split; [apply changes_refl|done].
  - destruct Hr as [Hx Hc]. rewrite Hx.
    change (ready_queue (set_ready_queue (next (proc s x)) s)) with (next (proc s x)).
    set (s1 := match next (proc s x) with
               | None => set_ready_queue_tail None (set_ready_queue (next (proc s x)) s)
               | Some _ => set_ready_queue (next (proc s x)) s end). cbn [fst snd tail head]. simpl in Hb. apply Forall_cons in Hb as [Hxb Hb].
    simpl in Hnd. apply NoDup_cons in Hnd as [Hxn Hnd]. apply not_elem_of_app in Hxn as [Hxr Hxs].
    assert (Hp1 : processes s1 = processes s) by (unfold s1; by destruct (next (proc s x))).
    assert (Hpr : forall i, proc s1 i = proc s i) by (intros i; unfold proc; by rewrite Hp1).
    assert (Hn : forall i, i <> x -> proc (modify x (set_next None) s1) i = proc s i).
    { intros i Hi. rewrite proc_modify_ne by done. apply Hpr. }
    assert (Hrq : ready_queue s1 = next (proc s x) /\ sleep_queue s1 = sleep_queue s)
      by (unfold s1; by destruct (next (proc s x))).
    assert (Htl : ready_queue_tail s1 = last rq).
    { unfold s1. destruct rq as [|y rq]; simpl in Hc; [by rewrite Hc|]. destruct Hc as [-> _]. apply Ht. }
    split; [split; auto|split; [split|done]].
    + by rewrite length_modify, Hp1.
    + change (ready_queue (modify x (set_next None) s1)) with (ready_queue s1). rewrite (proj1 Hrq).
      apply (ready_chain_ext s); [|done]. intros i Hi. rewrite Hn; [done|]. intros ->. done.
    + change (sleep_queue (modify x (set_next None) s1)) with (sleep_queue s1). rewrite (proj2 Hrq).
      apply (ready_chain_ext s); [|done]. intros i Hi. rewrite Hn; [done|]. intros ->. done.
    + intros i _. unfold nochange. rewrite <- Hpr. by apply (proc_modify_proj unlink).
    + unfold s1. by destruct (next (proc s x)).
Qed.

(** ** Waking the sleepers *)

Definition due (s : sched) (now : Z) (i : nat) : Prop := sleep_until (proc s i) <= now.
#[export] Instance due_dec s now i : Decision (due s now i) := decide (sleep_until (proc s i) <= now).

Definition awake (p : process) : process := set_sleep_until 0 (set_state PROC_READY p).

Definition wake_if (l : list nat) : nat -> process -> process :=
  fun i p => if decide (i ∈ l) then awake p else p.

Lemma wake_if_unlink l i p : unlink (wake_if l i p) = wake_if l i (unlink p).
Proof. unfold wake_if. by destruct (decide (i ∈ l)). Qed.

Lemma chain_remove s s' p pre w suf :
  chain s p (pre ++ w :: suf) ->
  NoDup (pre ++ suf) ->
  (forall i, i ∈ pre ++ suf -> last pre <> Some i -> next (proc s' i) = next (proc s i)) ->
  (forall q, last pre = Some q -> next (proc s' q) = next (proc s w)) ->
  chain s' (if last pre is Some _ then p else next (proc s w)) (pre ++ suf).
Proof.
  revert p. induction pre as [|x pre IH]; intros p Hc Hnd Hn Hq.
  - simpl in *. destruct Hc as [_ Hc]. apply (ready_chain_ext s); [|done]. intros i Hi. by apply Hn.
  - simpl in Hc, Hnd. destruct Hc as [-> Hc]. apply NoDup_cons in Hnd as [Hx Hnd].
    destruct pre as [|y pre].
    + simpl in *. destruct Hc as [Hw Hc]. split; [done|]. rewrite Hq by done.
      apply (ready_chain_ext s); [|done]. intros i Hi. apply Hn; [set_solver|]. intros [= ->]. done.
    + destruct (last (y :: pre)) as [q|] eqn:El; [|by apply last_None in El].
      rewrite last_cons_cons, El in *. simpl. split; [done|]. rewrite Hn; [|set_solver|].
      * apply (IH (next (proc s x))); auto. intros i Hi. apply Hn. set_solver.
      * intros [= <-]. apply Hx, elem_of_app. left. by apply last_Some_elem_of.
Qed.

(** Unlinking [w], which follows [pre] in the sleep queue. *)
Lemma unlink_sleeper s rq pre w suf :
  queues s rq (pre ++ w :: suf) ->
  let s1 := match last pre with
            | Some q => modify q (set_next (next (proc s w))) s
            | None => set_sleep_queue (next (proc s w)) s
            end in
  queues s1 rq (pre ++ suf) /\ changes nochange s s1 /\ (w < MAX_PROCESSES)%nat /\ w ∉ rq ++ pre ++ suf.
Proof.
  intros [Hlen Hr Ht Hs Hnd Hb] s1.
  assert (Hpm : rq ++ pre ++ w :: suf ≡ₚ w :: rq ++ pre ++ suf) by (rewrite !(assoc_L (++)); symmetry; apply Permutation_middle).
  rewrite Hpm in Hnd, Hb. apply NoDup_cons in Hnd as [Hw Hnd]. apply Forall_cons in Hb as [Hwb Hb].
  pose proof Hnd as Hnd2. apply NoDup_app in Hnd2 as (_ & Hdis & Hnd2).
  split; [|split; [|done]].
  - assert (Hq : forall q, last pre = Some q -> q ∈ pre /\ (q < MAX_PROCESSES)%nat).
    { intros q Hq. apply last_Some_elem_of in Hq. split; [done|]. rewrite Forall_forall in Hb. apply Hb. set_solver. }
    assert (Hn : forall i, last pre <> Some i -> proc s1 i = proc s i).
    { intros i Hi. unfold s1. destruct (last pre) as [q|]; [|done]. apply proc_modify_ne. congruence. }
    split; auto.
    + unfold s1. destruct (last pre); [by rewrite length_modify|done].
    + assert (ready_queue s1 = ready_queue s) as -> by (unfold s1; by destruct (last pre)).
      apply (ready_chain_ext s); [|done]. intros i Hi. rewrite Hn; [done|]. intros Hl. apply (Hdis i); [done|].
      apply elem_of_app. left. by apply Hq.
    + unfold s1. by destruct (last pre).
    + assert (sleep_queue s1 = if last pre is Some _ then sleep_queue s else next (proc s w)) as ->
        by (unfold s1; by destruct (last pre)).
      apply (chain_remove s); auto; [intros i _ Hi; by rewrite Hn|]. intros q El. destruct (Hq q El) as [_ Hqb].
      unfold s1. rewrite El, proc_modify_eq; [done|]. by rewrite Hlen.
  - unfold s1. destruct (last pre) as [q|]; [|by split]. split; [|done]. intros i _. by apply (proc_modify_proj unlink).
Qed.

Lemma queues_modify s rq sq i f :
  queues s rq sq -> (forall p, next (f p) = next p) \/ i ∉ rq ++ sq -> queues (modify i f s) rq sq.
Proof.
  intros [Hlen Hr Ht Hs Hnd Hb] Hf.
  assert (Hn : forall j, j ∈ rq ++ sq -> next (proc (modify i f s) j) = next (proc s j)).
  { intros j Hj. destruct Hf as [Hf|Hf]; [by apply proc_modify_proj|]. rewrite proc_modify_ne; [done|].
    intros ->. done. }
  split; auto; [by rewrite length_modify|..]; (eapply ready_chain_ext; [|done]); intros j Hj; apply Hn; set_solver.
Qed.

(** The change of one process. *)
Definition only (i : nat) (f : process -> process) : nat -> process -> process :=
  fun j p => if decide (j = i) then f p else p.

Lemma only_unlink i f j p :
  (forall p, unlink (f p) = f (unlink p)) -> unlink (only i f j p) = only i f j (unlink p).
Proof. intros Hf. unfold only. by destruct (decide (j = i)). Qed.

Lemma only_eq i f p : only i f i p = f p.
Proof. unfold only. by rewrite decide_True. Qed.

Lemma only_ne i f j p : j <> i -> only i f j p = p.
Proof. intros. unfold only. by rewrite decide_False. Qed.

Lemma changes_modify s i f :
  length (processes s) = MAX_PROCESSES -> changes (only i f) s (modify i f s).
Proof.
  intros Hl. split; [|done]. intros j Hj. unfold only. destruct (decide (j = i)) as [->|Hne].
  - rewrite proc_modify_eq; [done|lia].
  - by rewrite proc_modify_ne.
Qed.

Lemma chain_next s p pre w suf : chain s p (pre ++ w :: suf) -> next (proc s w) = head suf.
Proof.
  revert p. induction pre as [|x pre IH]; intros p; simpl.
  - intros [_ Hc]. destruct suf; simpl in Hc; [done|]. by destruct Hc.
  - intros [_ Hc]. by apply (IH _ Hc).
Qed.

Lemma changes_ext g h s s' :
  (forall i p, (i < MAX_PROCESSES)%nat -> g i p = h i p) -> changes g s s' -> changes h s s'.
Proof. intros He [Hp Hg]. split; [|done]. intros i Hi. by rewrite Hp, He. Qed.

(** One process of the walk is woken. *)
Lemma wake_one s rq pre w suf :
  queues s rq (pre ++ w :: suf) ->
  let s1 := match last pre with
            | Some q => modify q (set_next (next (proc s w))) s
            | None => set_sleep_queue (next (proc s w)) s
            end in
  exists s', enqueue_ready w (modify w (set_sleep_until 0) (modify w (set_state PROC_READY)
                (modify w (set_next None) s1))) = Some s' /\
    queues s' (rq ++ [w]) (pre ++ suf) /\
    changes (only w awake) s s'.
Proof.
  intros Hq s1. destruct (unlink_sleeper s rq pre w suf Hq) as (Hq1 & Hc1 & Hw & Hnin). fold s1 in Hq1, Hc1.
  set (s4 := modify w _ _).
  assert (Hq4 : queues s4 rq (pre ++ suf)) by (unfold s4; repeat apply queues_modify; auto).
  assert (Hl1 : length (processes s1) = MAX_PROCESSES) by apply Hq1.
  assert (Hc4 : changes (only w awake) s s4).
  { assert (Hs4 : proc s4 w = set_sleep_until 0 (set_state PROC_READY (set_next None (proc s1 w)))).
    { unfold s4. rewrite !proc_modify_eq by (rewrite ?length_modify, Hl1; exact Hw). done. }
    destruct Hc1 as [Hp1 Hg1]. split; [|by rewrite <- Hg1]. intros i Hi. unfold only. destruct (decide (i = w)) as [->|Hne].
    - rewrite Hs4. specialize (Hp1 w Hw). unfold nochange, unlink in Hp1. unfold unlink, awake. simpl.
      destruct (proc s1 w), (proc s w). simpl in *. by injection Hp1 as -> -> -> -> -> -> -> -> -> -> -> -> -> -> -> -> -> -> -> ->.
    - unfold s4. rewrite !proc_modify_ne by done. by apply Hp1. }
  destruct (enqueue_spec s4 rq (pre ++ suf) w Hq4 Hw Hnin) as (s' & He & Hq' & Hc').
  { unfold s4. rewrite !proc_modify_eq by (rewrite ?length_modify, Hl1; exact Hw). done. }
  exists s'. split; [done|]. split; [done|]. apply (changes_trans _ nochange _ s4); auto.
Qed.

Lemma wake_spec now (u : nat -> Z) fuel suf : forall s rq pre,
  queues s rq (pre ++ suf) -> (length suf <= fuel)%nat ->
  (forall i, i ∈ suf -> sleep_until (proc s i) = u i) ->
  exists s', wake_sleepers fuel now (head suf) (last pre) s = Some s' /\
    queues s' (rq ++ filter (fun i => u i <= now) suf) (pre ++ filter (fun i => ~ u i <= now) suf) /\
    changes (wake_if (filter (fun i => u i <= now) suf)) s s'.
Proof.
  revert fuel. induction suf as [|w suf IH]; intros fuel s rq pre Hq Hl Hu.
  - exists s. rewrite !app_nil_r in *. destruct fuel; (split; [done|split; [done|by split]]).
  - destruct fuel as [|fuel]; simpl in Hl; [lia|]. cbn [wake_sleepers head].
    rewrite (Hu w) by set_solver. pose proof (q_nodup _ _ _ Hq) as Hnd.
    assert (Hws : w ∉ suf).
    { apply NoDup_app in Hnd as (_ & _ & Hnd). apply NoDup_app in Hnd as (_ & _ & Hnd). apply NoDup_cons in Hnd. apply Hnd. }
    assert (Hwb : (w < MAX_PROCESSES)%nat).
    { pose proof (q_bound _ _ _ Hq) as Hb. rewrite Forall_forall in Hb. apply Hb. set_solver. }
    pose proof (chain_next s _ pre w suf (q_sleep _ _ _ Hq)) as Hnx.
    destruct (Z.leb_spec (u w) now) as [Hle|Hgt].
    + rewrite !filter_cons, decide_True, decide_False by lia.
      destruct (wake_one s rq pre w suf Hq) as (s5 & He & Hq5 & Hc5). rewrite He. cbn [mbind option_bind]. rewrite Hnx.
      destruct (IH fuel s5 (rq ++ [w]) pre Hq5) as (s' & Hs' & Hq' & Hc'); [lia| |].
      { intros i Hi. rewrite <- (Hu i) by set_solver.
        rewrite (ch_field sleep_until _ s s5 (fun _ => eq_refl) Hc5).
        - rewrite only_ne; [done|]. intros ->. done.
        - pose proof (q_bound _ _ _ Hq) as Hb. rewrite Forall_forall in Hb. apply Hb. set_solver. }
      exists s'. split; [done|]. rewrite <- app_assoc in Hq'. split; [exact Hq'|].
      eapply changes_ext; [|apply (changes_trans _ _ _ _ _ (wake_if_unlink _) Hc5 Hc')].
      intros i p Hi. unfold wake_if, only. destruct (decide (i = w)) as [->|Hne].
      * rewrite decide_False, decide_True; [done|set_solver|]. intros Hin. apply list_elem_of_filter in Hin as [_ Hin]. done.
      * destruct (decide (i ∈ filter _ suf)) as [Hin|Hin]; [rewrite decide_True|rewrite decide_False]; set_solver.
    + rewrite !filter_cons, decide_False, decide_True by lia. rewrite Hnx.
      destruct (IH fuel s rq (pre ++ [w])) as (s' & Hs' & Hq' & Hc'); [by rewrite <- app_assoc|lia|set_solver|].
      rewrite last_snoc in Hs'. exists s'. split; [done|]. rewrite <- app_assoc in Hq'. done.
Qed.

(** * The invariant of the scheduler *)

(** [rq] and [sq] are exactly the processes that are ready and asleep; the idle
    process (slot 0) is always runnable and may be in the ready queue once, as
    [sched_init] leaves it; a process other than idle runs only if it is current. *)
Record sched_wf (s : sched) (rq sq : list nat) : Prop := {
  wf_q : queues s rq sq;
  wf_init : sched_initialized s = true;
  wf_unlocked : sched_locked s = false;
  wf_cur : exists c, current s = Some c /\ (c < MAX_PROCESSES)%nat;
  wf_idle : state (proc s 0) = PROC_RUNNING /\ pid (proc s 0) = 0;
  wf_rstate : forall i, i ∈ rq -> i = 0%nat \/ state (proc s i) = PROC_READY;
  wf_sstate : forall i, i ∈ sq -> state (proc s i) = PROC_SLEEPING;
  wf_ready_in : forall i, (i < MAX_PROCESSES)%nat -> state (proc s i) = PROC_READY -> i ∈ rq;
  wf_sleep_in : forall i, (i < MAX_PROCESSES)%nat -> state (proc s i) = PROC_SLEEPING -> i ∈ sq;
  wf_run : forall i, (i < MAX_PROCESSES)%nat -> state (proc s i) = PROC_RUNNING -> i = 0%nat \/ current s = Some i;
  wf_pid : forall i, (i < MAX_PROCESSES)%nat -> i <> 0%nat -> state (proc s i) <> PROC_UNUSED -> pid (proc s i) <> 0;
  wf_sorted : StronglySorted (fun i j => sleep_until (proc s i) <= sleep_until (proc s j)) sq }.

(** The specification of the choice: sleepers that are due, in the order of the
    queue, then the interrupted process, join the ready queue. *)
Definition due_list (s : sched) (sq : list nat) : list nat :=
  filter (fun i => sleep_until (proc s i) <= pit_ticks s) sq.
Definition asleep_list (s : sched) (sq : list nat) : list nat :=
  filter (fun i => ~ sleep_until (proc s i) <= pit_ticks s) sq.
Definition requeue (s : sched) (c : nat) : list nat :=
  if decide (state (proc s c) = PROC_RUNNING /\ c <> 0%nat) then [c] else [].
Definition candidates (s : sched) (c : nat) (rq sq : list nat) : list nat :=
  rq ++ due_list s sq ++ requeue s c.
Definition chosen (s : sched) (c : nat) (rq sq : list nat) : nat := default 0%nat (head (candidates s c rq sq)).

(** What the choice changes in process [i]. *)
Definition select_change (frame : Z) (s : sched) (c : nat) (sq : list nat) (i : nat) (p : process) : process :=
  let p := only c (set_kstack_top frame) i p in
  let p := wake_if (due_list s sq) i p in
  if decide (i ∈ requeue s c) then set_state PROC_READY p else p.

Lemma bounded_nodup (l : list nat) n : NoDup l -> Forall (fun i => (i < n)%nat) l -> (length l <= n)%nat.
Proof.
  intros Hnd Hb. rewrite <- (length_seq n 0). apply NoDup_incl_length; [by apply NoDup_ListNoDup|].
  intros x Hx. apply in_seq. rewrite Forall_forall in Hb. apply list_elem_of_In, Hb in Hx. lia.
Qed.

Lemma q_bound_in s rq sq i : queues s rq sq -> i ∈ rq ++ sq -> (i < MAX_PROCESSES)%nat.
Proof. intros Hq Hi. pose proof (q_bound _ _ _ Hq) as Hb. rewrite Forall_forall in Hb. auto. Qed.

Lemma q_sleep_length s rq sq : queues s rq sq -> (length sq <= MAX_PROCESSES)%nat.
Proof.
  intros Hq. pose proof (q_nodup _ _ _ Hq) as Hnd. apply NoDup_app in Hnd as (_ & _ & Hnd).
  apply bounded_nodup; [done|]. pose proof (q_bound _ _ _ Hq) as Hb. by apply Forall_app in Hb as [_ ?].
Qed.

Lemma not_in_queues s rq sq c :
  sched_wf s rq sq -> state (proc s c) = PROC_RUNNING -> c <> 0%nat -> c ∉ rq ++ sq.
Proof.
  intros Hwf Hr Hc Hin. apply elem_of_app in Hin as [Hin|Hin].
  - destruct (wf_rstate _ _ _ Hwf c Hin); congruence.
  - rewrite (wf_sstate _ _ _ Hwf c Hin) in Hr. done.
Qed.

Lemma requeue_unlink l i p :
  unlink (if decide (i ∈ l) then set_state PROC_READY p else p) =
  (if decide (i ∈ (l : list nat)) then set_state PROC_READY (unlink p) else unlink p).
Proof. by destruct (decide (i ∈ l)). Qed.

(** The first half of [sched_do_switch]: the queues before the ready queue is
    popped are the candidates and the processes that stay asleep. *)
Lemma select_spec frame s rq sq c :
  sched_wf s rq sq -> current s = Some c -> (c < MAX_PROCESSES)%nat ->
  exists s1 s2,
    wake_sleepers MAX_PROCESSES (pit_ticks s) (sleep_queue s) None (modify c (set_kstack_top frame) s) = Some s1 /\
    (if is_state (state (proc s1 c)) PROC_RUNNING && negb (pid (proc s1 c) =? 0)
     then enqueue_ready c (modify c (set_state PROC_READY) s1) else Some s1) = Some s2 /\
    queues s2 (candidates s c rq sq) (asleep_list s sq) /\
    changes (select_change frame s c sq) s s2.
Proof.
  intros Hwf Hc Hcb. pose proof (wf_q _ _ _ Hwf) as Hq. set (s0 := modify c (set_kstack_top frame) s).
  assert (Hq0 : queues s0 rq sq) by (apply queues_modify; auto).
  pose proof (changes_modify s c (set_kstack_top frame) (q_len _ _ _ Hq)) as Hc0. fold s0 in Hc0.
  destruct (wake_spec (pit_ticks s) (fun i => sleep_until (proc s i)) MAX_PROCESSES sq s0 rq [])
    as (s1 & Hw & Hq1 & Hc1); [done|by eapply q_sleep_length|intros i _; by apply proc_modify_proj|].
  assert (Hhd : sleep_queue s = head sq).
  { pose proof (q_sleep _ _ _ Hq) as Hs. destruct sq; simpl in Hs; [done|]. by destruct Hs. }
  rewrite Hhd. exists s1. change (last []) with (@None nat) in Hw. change ([] ++ ?x) with x in Hq1.
  fold (due_list s sq) (asleep_list s sq) in Hq1. fold (due_list s sq) in Hc1.
  pose proof (changes_trans _ _ _ _ _ (wake_if_unlink _) Hc0 Hc1) as Hc01.
  assert (Hst : c <> 0%nat -> state (proc s c) = PROC_RUNNING -> state (proc s1 c) = PROC_RUNNING).
  { intros Hc0' Hr. rewrite (ch_field state _ s s1 (fun _ => eq_refl) Hc01) by done. rewrite only_eq.
    unfold wake_if. rewrite decide_False; [done|]. intros Hin. apply list_elem_of_filter in Hin as [_ Hin].
    apply (not_in_queues _ _ _ c Hwf Hr Hc0'). apply elem_of_app. by right. }
  assert (Hpid : pid (proc s1 c) = pid (proc s c)).
  { rewrite (ch_field pid _ s s1 (fun _ => eq_refl) Hc01) by done. rewrite only_eq.
    unfold wake_if. by destruct (decide _). }
  unfold candidates, requeue, is_state. destruct (decide (state (proc s c) = PROC_RUNNING /\ c <> 0%nat)) as [[Hr Hne]|Hno].
  - rewrite (bool_decide_true (state (proc s1 c) = _)) by auto.
    rewrite Hpid, (proj2 (Z.eqb_neq _ 0)) by (apply (wf_pid _ _ _ Hwf c Hcb Hne); by rewrite Hr). cbn [negb andb].
    destruct (enqueue_spec (modify c (set_state PROC_READY) s1) (rq ++ due_list s sq) (asleep_list s sq) c)
      as (s2 & He & Hq2 & Hc2); [by apply queues_modify; auto|done| | |].
    + pose proof (not_in_queues _ _ _ c Hwf Hr Hne) as Hn. unfold due_list, asleep_list. rewrite !elem_of_app, !list_elem_of_filter.
      rewrite elem_of_app in Hn. tauto.
    + rewrite proc_modify_eq; [done|]. by rewrite (q_len _ _ _ Hq1).
    + exists s2. split; [done|]. split; [done|]. rewrite <- app_assoc in Hq2. split; [done|].
      pose proof (changes_modify s1 c (set_state PROC_READY) (q_len _ _ _ Hq1)) as Hc1'.
      pose proof (changes_trans _ nochange _ _ _ (fun _ _ => eq_refl) Hc1' Hc2 : changes (only c (set_state PROC_READY)) s1 s2) as Hc12.
      eapply changes_ext; [|apply (changes_trans _ _ _ _ _ (fun i p => only_unlink c (set_state PROC_READY) i p (fun _ => eq_refl)) Hc01 Hc12)].
      intros i p Hi. unfold select_change, requeue. rewrite (decide_True (P := _ /\ _)) by done.
      unfold only at 1. destruct (decide (i = c)) as [->|Hic]; [by rewrite decide_True by apply list_elem_of_here|].
      rewrite decide_False; [done|]. by intros ?%list_elem_of_singleton.
  - exists s1. rewrite app_nil_r. split; [done|]. split; [|split; [done|]].
    + destruct (decide (c = 0%nat)) as [->|Hne]; [by rewrite Hpid, (proj2 (wf_idle _ _ _ Hwf)), andb_false_r|].
      rewrite bool_decide_false; [done|]. intros Hr. apply Hno. split; [|done].
      rewrite (ch_field state _ s s1 (fun _ => eq_refl) Hc01) in Hr by done. rewrite only_eq in Hr.
      unfold wake_if in Hr. by destruct (decide _).
    + eapply changes_ext; [|exact Hc01]. intros i p Hi. unfold select_change, requeue. rewrite (decide_False (P := _ /\ _)) by done.
      rewrite (decide_False (P := i ∈ [])); [done|]. apply not_elem_of_nil.
Qed.

Lemma queues_ext s s' rq sq :
  processes s' = processes s -> ready_queue s' = ready_queue s -> ready_queue_tail s' = ready_queue_tail s ->
  sleep_queue s' = sleep_queue s -> queues s rq sq -> queues s' rq sq.
Proof.
  intros Hp Hr Ht Hs [Hlen Hcr Hct Hcs Hnd Hb].
  assert (Hpr : forall i, proc s' i = proc s i) by (intros i; unfold proc; by rewrite Hp).
  split; auto; rewrite ?Hp, ?Hr, ?Ht, ?Hs; auto; (eapply ready_chain_ext; [|done]); intros i _; by rewrite Hpr.
Qed.

Lemma elem_of_tail {A} (x : A) l : x ∈ l -> head l <> Some x -> x ∈ tail l.
Proof. destruct l as [|y l]; simpl; [done|]. intros Hx Hne. apply elem_of_cons in Hx as [->|]; done. Qed.

Lemma tail_sub {A} (x : A) l : x ∈ tail l -> x ∈ l.
Proof. destruct l; [done|]. simpl. intros. by right. Qed.

Lemma head_not_tail {A} (x : A) l : NoDup l -> x ∈ tail l -> head l <> Some x.
Proof. destruct l; [done|]. simpl. intros [Hn _]%NoDup_cons Hx [= ->]. done. Qed.

Section after.
Context (s : sched) (rq sq : list nat) (c : nat) (Hwf : sched_wf s rq sq) (Hc : current s = Some c) (Hcb : (c < MAX_PROCESSES)%nat).
Let cand := candidates s c rq sq.
Let n := chosen s c rq sq.

Definition woken (i : nat) : Prop := i ∈ due_list s sq \/ i ∈ requeue s c.

Lemma due_state i : i ∈ due_list s sq -> state (proc s i) = PROC_SLEEPING /\ i ∈ sq.
Proof. intros [_ Hi]%list_elem_of_filter. split; [by apply (wf_sstate _ _ _ Hwf)|done]. Qed.

Lemma requeue_state i : i ∈ requeue s c -> i = c /\ state (proc s c) = PROC_RUNNING /\ c <> 0%nat.
Proof.
  unfold requeue. destruct (decide _) as [[? ?]|]; [|intros Hi; by apply not_elem_of_nil in Hi].
  intros ->%list_elem_of_singleton. done.
Qed.

Lemma cand_cases i : i ∈ cand <-> i ∈ rq \/ woken i.
Proof. unfold cand, candidates, woken. rewrite !elem_of_app. tauto. Qed.

Lemma cand_nodup : NoDup (cand ++ asleep_list s sq).
Proof.
  destruct (select_spec 0 s rq sq c Hwf Hc Hcb) as (_ & s2 & _ & _ & Hq & _). apply Hq.
Qed.

Lemma chosen_cases : n = 0%nat \/ n ∈ cand /\ head cand = Some n.
Proof.
  unfold n, chosen. fold cand. generalize cand. intros [|x l]; [by left|right]. simpl. split; [by left|done].
Qed.

Lemma not_chosen i : i <> n -> i ∈ cand -> i ∈ tail cand.
Proof.
  intros Hne Hi. apply elem_of_tail; [done|]. intros Hh. apply Hne. unfold n, chosen. fold cand. by rewrite Hh.
Qed.

Lemma asleep_state i : i ∈ asleep_list s sq -> state (proc s i) = PROC_SLEEPING /\ i ∉ cand.
Proof.
  intros Hi. pose proof Hi as [_ Hin]%list_elem_of_filter. split; [by apply (wf_sstate _ _ _ Hwf)|].
  intros Hca. pose proof cand_nodup as Hnd. apply NoDup_app in Hnd as (_ & Hd & _). by apply (Hd i).
Qed.

Lemma tail_not_chosen i : i ∈ tail cand -> i <> n.
Proof.
  intros Hi He. pose proof cand_nodup as Hnd. apply NoDup_app in Hnd as (Hnd & _).
  apply (head_not_tail i cand Hnd Hi). rewrite He. unfold n, chosen. fold cand.
  clear -Hi. generalize dependent cand. intros [|x l]; simpl; [|done]. intros Hi. by apply not_elem_of_nil in Hi.
Qed.

Lemma chosen_bound : (n < MAX_PROCESSES)%nat.
Proof.
  destruct chosen_cases as [->|[Hnc _]]; [unfold MAX_PROCESSES; lia|].
  apply cand_cases in Hnc as [Hnc|[[_ Hnc]%due_state|Hnc]].
  - apply (q_bound_in _ _ _ _ (wf_q _ _ _ Hwf)). apply elem_of_app. by left.
  - apply (q_bound_in _ _ _ _ (wf_q _ _ _ Hwf)). apply elem_of_app. by right.
  - by apply requeue_state in Hnc as [-> _].
Qed.

Lemma wf_after s' :
  queues s' (tail cand) (asleep_list s sq) -> current s' = Some n ->
  sched_initialized s' = true -> sched_locked s' = false ->
  (forall i, (i < MAX_PROCESSES)%nat -> i <> n -> ~ woken i -> state (proc s' i) = state (proc s i)) ->
  (forall i, (i < MAX_PROCESSES)%nat -> i <> n -> woken i -> state (proc s' i) = PROC_READY) ->
  state (proc s' n) = PROC_RUNNING ->
  (forall i, (i < MAX_PROCESSES)%nat -> pid (proc s' i) = pid (proc s i)) ->
  (forall i, i ∈ asleep_list s sq -> sleep_until (proc s' i) = sleep_until (proc s i)) ->
  sched_wf s' (tail cand) (asleep_list s sq).
Proof.
  intros Hq Hcur Hin Hlk Hst Hwk Hn Hpid Hsl. pose proof (wf_idle _ _ _ Hwf) as [Hi1 Hi2].
  assert (H0 : (0 < MAX_PROCESSES)%nat) by (unfold MAX_PROCESSES; lia).
  assert (Hw0 : ~ woken 0).
  { intros [H|H]; [apply due_state in H as [H _]; congruence|apply requeue_state in H as (H & _ & ?); congruence]. }
  assert (Hdec : forall i, woken i \/ ~ woken i).
  { intros i. unfold woken. destruct (decide (i ∈ due_list s sq)), (decide (i ∈ requeue s c)); tauto. }
  pose proof chosen_bound as Hnb.
  split; auto.
  - exists n. done.
  - rewrite Hpid by done. split; [|done]. destruct (decide (0%nat = n)) as [<-|Hne]; [done|]. by rewrite Hst.
  - intros i Hi. pose proof (tail_not_chosen i Hi) as Hne. apply tail_sub in Hi as Hi'.
    assert (Hib : (i < MAX_PROCESSES)%nat) by (apply (q_bound_in _ _ _ _ Hq), elem_of_app; by left).
    destruct (Hdec i) as [Hw|Hw]; [right; by apply Hwk|]. apply cand_cases in Hi' as [Hr|]; [|done].
    destruct (wf_rstate _ _ _ Hwf i Hr); [by left|right]. by rewrite Hst.
  - intros i Hi. destruct (asleep_state i Hi) as [Hs Hnc]. rewrite cand_cases in Hnc.
    assert (Hib : (i < MAX_PROCESSES)%nat) by (apply (q_bound_in _ _ _ _ Hq), elem_of_app; by right).
    rewrite Hst; auto. intros ->. destruct chosen_cases as [H|[H _]]; [|apply cand_cases in H; tauto]. congruence.
  - intros i Hib Hr. destruct (decide (i = n)) as [->|Hne]; [congruence|]. apply not_chosen; [done|]. apply cand_cases.
    destruct (Hdec i) as [Hw|Hw]; [by right|left]. rewrite Hst in Hr by done. by apply (wf_ready_in _ _ _ Hwf).
  - intros i Hib Hs. destruct (decide (i = n)) as [->|Hne]; [congruence|].
    destruct (Hdec i) as [Hw|Hw]; [rewrite Hwk in Hs; done|]. rewrite Hst in Hs by done.
    apply (wf_sleep_in _ _ _ Hwf) in Hs; [|done]. apply list_elem_of_filter. split; [|done].
    intros Hd. apply Hw. left. by apply list_elem_of_filter.
  - intros i Hib Hr. destruct (decide (i = n)) as [->|Hne]; [by right|]. destruct (Hdec i) as [Hw|Hw]; [rewrite Hwk in Hr; done|].
    rewrite Hst in Hr by done. destruct (wf_run _ _ _ Hwf i Hib Hr) as [|Hic]; [by left|]. left.
    destruct (decide (i = 0%nat)) as [|Hi0]; [done|]. destruct Hw. right. unfold requeue.
    rewrite Hc in Hic. injection Hic as ->. rewrite decide_True by done. by left.
  - intros i Hib Hi0 Hs. rewrite Hpid by done. apply (wf_pid _ _ _ Hwf); auto. destruct (decide (i = n)) as [Hin'|Hne].
    + destruct chosen_cases as [H|[H _]]; [congruence|]. rewrite <- Hin' in H. apply cand_cases in H as [H|[H|H]].
      * destruct (wf_rstate _ _ _ Hwf i H); congruence.
      * apply due_state in H as [H _]. congruence.
      * apply requeue_state in H as (-> & H & _). congruence.
    + destruct (Hdec i) as [[H|H]|Hw]; [apply due_state in H as [H _]; congruence| |by rewrite Hst in Hs].
      apply requeue_state in H as (-> & H & _). congruence.
  - pose proof (wf_sorted _ _ _ Hwf) as Hso. unfold asleep_list in *.
    assert (HF : Forall (fun i => sleep_until (proc s' i) = sleep_until (proc s i)) (asleep_list s sq)) by (by apply Forall_forall).
    clear -Hso HF. unfold asleep_list in HF. induction Hso as [|x l Hl IH Hx]; [constructor|].
    rewrite filter_cons in *. destruct (decide _); [|by apply IH]. apply Forall_cons in HF as [Hx' HF].
    constructor; [by apply IH|]. apply Forall_forall. intros y Hy. rewrite Forall_forall in HF, Hx. rewrite Hx', HF by done.
    apply Hx. by apply list_elem_of_filter in Hy as [_ ?].
Qed.
End after.

(** ** The second half of the switch *)

Definition alive (s : sched) (i : nat) : bool :=
  negb (is_state (state (proc s i)) PROC_UNUSED) && negb (is_state (state (proc s i)) PROC_ZOMBIE).

Lemma switch_to_spec c n s rq sq :
  queues s rq sq -> c <> n -> (c < MAX_PROCESSES)%nat -> (n < MAX_PROCESSES)%nat ->
  let s' := switch_to c n s in
  queues s' rq sq /\
  (forall i, (i < MAX_PROCESSES)%nat -> proc s' i =
     only c (fun p => if alive s c then set_fpu_context (cpu_fpu s) p else p) i
       (only n (fun p => set_ticks_left time_slice (set_state PROC_RUNNING p)) i (proc s i))) /\
  current s' = Some n /\ sched_need_resched s' = false /\ pit_ticks s' = pit_ticks s /\
  sched_initialized s' = sched_initialized s /\ sched_locked s' = sched_locked s /\
  cpu_fpu s' = fpu_context (proc s n) /\ tss_rsp0 s' = u64 (kstack (proc s n) + KERNEL_STACK_SIZE) /\
  cpu_cr3 s' = (if cr3 (proc s c) =? cr3 (proc s n) then cpu_cr3 s else cr3 (proc s n)).
Proof.
  intros Hq Hne Hcb Hnb s'. pose proof (q_len _ _ _ Hq) as Hlen.
  unfold s', switch_to. set (s1 := modify n (set_state PROC_RUNNING) s). set (s2 := modify n _ s1).
  assert (Hq2 : queues s2 rq sq) by (unfold s2, s1; repeat apply queues_modify; auto).
  assert (Hp2 : forall i, proc s2 i = only n (fun p => set_ticks_left time_slice (set_state PROC_RUNNING p)) i (proc s i)).
  { intros i. unfold s2, s1, only. destruct (decide (i = n)) as [->|].
    - rewrite !proc_modify_eq by (rewrite ?length_modify; lia). done.
    - rewrite !proc_modify_ne by done. done. }
  assert (Hal : negb (is_state (state (proc s2 c)) PROC_UNUSED) && negb (is_state (state (proc s2 c)) PROC_ZOMBIE) = alive s c).
  { unfold alive. by rewrite Hp2, only_ne. }
  rewrite Hal. set (s3 := if alive s c then _ else s2).
  assert (Hq3 : queues s3 rq sq) by (unfold s3; destruct (alive s c); [apply queues_modify; auto|done]).
  assert (Hp3 : forall i, (i < MAX_PROCESSES)%nat ->
    proc s3 i = only c (fun p => if alive s c then set_fpu_context (cpu_fpu s) p else p) i (proc s2 i)).
  { intros i Hi. unfold s3. destruct (alive s c); [|unfold only; by destruct (decide _)]. unfold only.
    destruct (decide (i = c)) as [->|]; [|by rewrite proc_modify_ne].
    rewrite proc_modify_eq; [done|]. by rewrite (q_len _ _ _ Hq2). }
  assert (Hn3 : proc s3 n = proc s2 n) by (rewrite Hp3, only_ne; auto).
  assert (Hfpu : fpu_context (proc s3 n) = fpu_context (proc s n)) by (by rewrite Hn3, Hp2, only_eq).
  assert (Hks : kstack (proc s3 n) = kstack (proc s n)) by (by rewrite Hn3, Hp2, only_eq).
  assert (Hcr : cr3 (proc s3 n) = cr3 (proc s n)) by (by rewrite Hn3, Hp2, only_eq).
  assert (Hcc : cr3 (proc s3 c) = cr3 (proc s c)).
  { rewrite Hp3, only_eq, Hp2, only_ne by done. by destruct (alive s c). }
  assert (Hg : globals s3 = globals s) by (unfold s3; by destruct (alive s c)).
  clearbody s3. cbv zeta.
  change (proc (set_kernel_stack_temp ?v ?t) ?x) with (proc t x).
  change (proc (set_tss_rsp0 ?v ?t) ?x) with (proc t x). change (proc (set_cpu_fpu ?v s3) ?x) with (proc s3 x).
  rewrite Hfpu, Hks, Hcr, Hcc.
  set (s4 := set_kernel_stack_temp _ _).
  assert (Hs5 : forall b, queues (if b : bool then set_cpu_cr3 (cr3 (proc s n)) s4 else s4) rq sq).
  { intros b. apply (queues_ext s3); [by destruct b..|done]. }
  split; [|split].
  - apply (queues_ext (if negb (cr3 (proc s c) =? cr3 (proc s n)) then set_cpu_cr3 (cr3 (proc s n)) s4 else s4)); done.
  - intros i Hi. rewrite <- Hp2, <- Hp3 by done. destruct (cr3 (proc s c) =? cr3 (proc s n)); reflexivity.
  - assert (Hgp : forall A (f : sched -> A), (forall s, f (globals s) = f s) -> f s3 = f s).
    { intros A f Hf. by apply (globals_proj f). }
    unfold s4. destruct (cr3 (proc s c) =? cr3 (proc s n)); simpl; rewrite ?(Hgp _ pit_ticks), ?(Hgp _ sched_initialized),
      ?(Hgp _ sched_locked), ?(Hgp _ cpu_cr3) by done; auto 10.
Qed.

(** ** What a switch does

    [n] is the process chosen; the context of [c] is saved, that of [n] is loaded,
    the contexts of the others are untouched. *)
Record switched (frame : Z) (s : sched) (c : nat) (rq sq : list nat) (r : Z) (s' : sched) : Prop := {
  sw_wf : sched_wf s' (tail (candidates s c rq sq)) (asleep_list s sq);
  sw_cur : current s' = Some (chosen s c rq sq);
  sw_run : state (proc s' (chosen s c rq sq)) = PROC_RUNNING;
  sw_flag : sched_need_resched s' = false;
  sw_ticks : pit_ticks s' = pit_ticks s;
  sw_ret : r = if decide (chosen s c rq sq = c) then frame else kstack_top (proc s (chosen s c rq sq));
  sw_saved : kstack_top (proc s' c) = frame /\
    (chosen s c rq sq <> c -> alive s c = true -> fpu_context (proc s' c) = cpu_fpu s);
  sw_loaded : chosen s c rq sq <> c -> cpu_fpu s' = fpu_context (proc s (chosen s c rq sq)) /\
    tss_rsp0 s' = u64 (kstack (proc s (chosen s c rq sq)) + KERNEL_STACK_SIZE);
  sw_cr3 : cpu_cr3 s = cr3 (proc s c) -> cpu_cr3 s' = cr3 (proc s' (chosen s c rq sq));
  sw_others : forall i, (i < MAX_PROCESSES)%nat -> i <> c ->
    fpu_context (proc s' i) = fpu_context (proc s i) /\ kstack_top (proc s' i) = kstack_top (proc s i) }.

Section select_fields.
Context (frame : Z) (s : sched) (c : nat) (sq : list nat).

Lemma select_proj {A} (f : process -> A) i p :
  (forall p, f (awake p) = f p) -> (forall p, f (set_state PROC_READY p) = f p) ->
  f (select_change frame s c sq i p) = f (only c (set_kstack_top frame) i p).
Proof.
  intros Ha Hs. unfold select_change. cbv zeta. destruct (decide (i ∈ requeue s c)); rewrite ?Hs; unfold wake_if;
    destruct (decide (i ∈ due_list s sq)); rewrite ?Ha; done.
Qed.

Lemma only_proj {A} (f : process -> A) g i p : (forall p, f (g p) = f p) -> f (only c g i p) = f p.
Proof. intros Hg. unfold only. by destruct (decide (i = c)). Qed.

Lemma select_state i p :
  state (select_change frame s c sq i p) = if decide (i ∈ due_list s sq \/ i ∈ requeue s c) then PROC_READY else state p.
Proof.
  unfold select_change, wake_if. cbv zeta. destruct (decide (i ∈ requeue s c)) as [Hr|Hr].
  - by rewrite (decide_True (P := _ \/ _)) by (by right).
  - destruct (decide (i ∈ due_list s sq)) as [Hd|Hd]; [by rewrite (decide_True (P := _ \/ _)) by (by left)|].
    rewrite (decide_False (P := _ \/ _)) by tauto. by apply (only_proj state).
Qed.

Lemma select_sleep i p :
  i ∉ due_list s sq -> sleep_until (select_change frame s c sq i p) = sleep_until p.
Proof.
  intros Hd. unfold select_change, wake_if. cbv zeta. rewrite (decide_False (P := i ∈ due_list s sq)) by done.
  destruct (decide (i ∈ requeue s c)); simpl; by apply (only_proj sleep_until).
Qed.
End select_fields.

(** The two ends of [sched_do_switch], after the ready queue has been popped. *)
Section ends.
Context (frame : Z) (s : sched) (c : nat) (rq sq : list nat) (s3 : sched).
Context (Hwf : sched_wf s rq sq) (Hc : current s = Some c) (Hcb : (c < MAX_PROCESSES)%nat).
Context (Hq3 : queues s3 (tail (candidates s c rq sq)) (asleep_list s sq)).
Context (Hch : changes (select_change frame s c sq) s s3).
Let n := chosen s c rq sq.

Lemma sel_field {A} (f : process -> A) i :
  (forall p, f (unlink p) = f p) -> (i < MAX_PROCESSES)%nat ->
  f (proc s3 i) = f (select_change frame s c sq i (proc s i)).
Proof. intros Hf. by apply (ch_field f _ s s3 Hf Hch). Qed.

Lemma sel_global {A} (f : sched -> A) : (forall s, f (globals s) = f s) -> f s3 = f s.
Proof. intros Hf. by apply (ch_global f _ s s3 Hf Hch). Qed.

(** [s'] has the states, pids and sleep times of [s3] but for [n], which runs. *)
Lemma end_wf s' :
  queues s' (tail (candidates s c rq sq)) (asleep_list s sq) -> current s' = Some n ->
  sched_initialized s' = sched_initialized s3 -> sched_locked s' = sched_locked s3 ->
  (forall i, (i < MAX_PROCESSES)%nat -> i <> n -> state (proc s' i) = state (proc s3 i)) ->
  state (proc s' n) = PROC_RUNNING ->
  (forall i, (i < MAX_PROCESSES)%nat -> pid (proc s' i) = pid (proc s3 i)) ->
  (forall i, (i < MAX_PROCESSES)%nat -> sleep_until (proc s' i) = sleep_until (proc s3 i)) ->
  sched_wf s' (tail (candidates s c rq sq)) (asleep_list s sq).
Proof.
  intros Hq Hcur Hin Hlk Hst Hn Hpid Hsl. apply wf_after; auto.
  - rewrite Hin, (sel_global sched_initialized) by done. apply (wf_init _ _ _ Hwf).
  - rewrite Hlk, (sel_global sched_locked) by done. apply (wf_unlocked _ _ _ Hwf).
  - intros i Hi Hne Hw. rewrite Hst, (sel_field state), select_state by done. by rewrite decide_False.
  - intros i Hi Hne Hw. rewrite Hst, (sel_field state), select_state by done. by rewrite decide_True.
  - intros i Hi. rewrite Hpid, (sel_field pid), (select_proj _ _ _ _ pid) by done. by apply only_proj.
  - intros i Hi. assert (Hib : (i < MAX_PROCESSES)%nat) by (apply (q_bound_in _ _ _ _ Hq), elem_of_app; by right).
    rewrite Hsl, (sel_field sleep_until) by done. apply select_sleep. intros Hd.
    apply list_elem_of_filter in Hi as [Hi _]. by apply list_elem_of_filter in Hd as [Hd _].
Qed.

Lemma sel_context i :
  (i < MAX_PROCESSES)%nat -> fpu_context (proc s3 i) = fpu_context (proc s i) /\
  kstack (proc s3 i) = kstack (proc s i) /\ cr3 (proc s3 i) = cr3 (proc s i) /\
  kstack_top (proc s3 i) = if decide (i = c) then frame else kstack_top (proc s i).
Proof.
  intros Hi. rewrite (sel_field fpu_context), (select_proj _ _ _ _ fpu_context) by done.
  rewrite (sel_field kstack), (select_proj _ _ _ _ kstack) by done.
  rewrite (sel_field cr3), (select_proj _ _ _ _ cr3) by done.
  rewrite (sel_field kstack_top), (select_proj _ _ _ _ kstack_top) by done.
  rewrite !only_proj by done. unfold only. by destruct (decide (i = c)).
Qed.

Lemma end_same :
  n = c -> switched frame s c rq sq frame (set_sched_need_resched false (modify n (set_state PROC_RUNNING) s3)).
Proof.
  intros Hnc. set (s' := set_sched_need_resched _ _). pose proof (chosen_bound s rq sq c Hwf Hcb) as Hnb. fold n in Hnb.
  assert (Hp : forall A (f : process -> A) i, (forall p, f (set_state PROC_RUNNING p) = f p) -> f (proc s' i) = f (proc s3 i)).
  { intros A f i Hf. by apply (proc_modify_proj f). }
  assert (Hrun : state (proc s' n) = PROC_RUNNING).
  { change (proc s' n) with (proc (modify n (set_state PROC_RUNNING) s3) n). rewrite proc_modify_eq; [done|].
    by rewrite (q_len _ _ _ Hq3). }
  split; fold n; auto.
  - apply end_wf; auto.
    + apply (queues_ext (modify n (set_state PROC_RUNNING) s3)); try done. apply queues_modify; auto.
    + change (current s') with (current s3). rewrite (sel_global current) by done. congruence.
    + intros i Hi Hne. change (proc s' i) with (proc (modify n (set_state PROC_RUNNING) s3) i). by rewrite proc_modify_ne.
  - change (current s') with (current s3). rewrite (sel_global current) by done. congruence.
  - change (pit_ticks s') with (pit_ticks s3). by apply sel_global.
  - by rewrite decide_True.
  - split; [|done]. rewrite (Hp _ kstack_top) by done. destruct (sel_context c Hcb) as (_ & _ & _ & ->). by rewrite decide_True.
  - by intros Hne.
  - intros Hcr. change (cpu_cr3 s') with (cpu_cr3 s3). rewrite (sel_global cpu_cr3), (Hp _ cr3) by done.
    destruct (sel_context n Hnb) as (_ & _ & -> & _). congruence.
  - intros i Hi Hne. rewrite (Hp _ fpu_context), (Hp _ kstack_top) by done.
    destruct (sel_context i Hi) as (-> & _ & _ & ->). by rewrite decide_False.
Qed.

Lemma alive_select : alive s c = true -> alive s3 c = true.
Proof.
  unfold alive, is_state. intros Ha. rewrite (sel_field state), select_state by done.
  destruct (decide _); [|exact Ha]. by rewrite !bool_decide_false.
Qed.

Lemma end_other :
  n <> c -> switched frame s c rq sq (kstack_top (proc (switch_to c n s3) n)) (switch_to c n s3).
Proof.
  intros Hnc. pose proof (chosen_bound s rq sq c Hwf Hcb) as Hnb. fold n in Hnb.
  destruct (switch_to_spec c n s3 _ _ Hq3 (not_eq_sym Hnc) Hcb Hnb)
    as (Hq' & Hp & Hcur & Hfl & Htk & Hin & Hlk & Hfpu & Htss & Hcr). set (s' := switch_to c n s3) in *. clearbody s'.
  assert (Hpr : forall A (f : process -> A) i, (i < MAX_PROCESSES)%nat ->
    (forall p, f (set_ticks_left time_slice (set_state PROC_RUNNING p)) = f p) ->
    (forall v p, f (set_fpu_context v p) = f p) -> f (proc s' i) = f (proc s3 i)).
  { intros A f i Hi H1 H2. rewrite Hp by done. rewrite !only_proj; auto. intros p. destruct (alive s3 c); auto. }
  assert (Hrun : state (proc s' n) = PROC_RUNNING) by (by rewrite Hp, only_ne, only_eq).
  destruct (sel_context n Hnb) as (Hnf & Hnk & Hn3 & Hnt). rewrite decide_False in Hnt by done.
  destruct (sel_context c Hcb) as (_ & _ & Hc3 & Hct). rewrite decide_True in Hct by done.
  split; fold n; auto.
  - apply end_wf; auto. intros i Hi Hne. rewrite Hp by done. rewrite only_proj; [by rewrite only_ne|].
    intros p. by destruct (alive s3 c).
  - rewrite Htk. by apply sel_global.
  - rewrite decide_False by done. by rewrite (Hpr _ kstack_top).
  - split; [by rewrite (Hpr _ kstack_top)|]. intros _ Ha. rewrite Hp, only_eq, (alive_select Ha) by done. simpl. by apply sel_global.
  - intros _. by rewrite Hfpu, Htss, Hnf, Hnk.
  - intros Hcc. rewrite Hcr, Hc3, Hn3, (Hpr _ cr3), Hn3 by done. destruct (Z.eqb_spec (cr3 (proc s c)) (cr3 (proc s n))); [|done].
    rewrite (sel_global cpu_cr3) by done. congruence.
  - intros i Hi Hne. destruct (sel_context i Hi) as (Hif & _ & _ & Hit). rewrite decide_False in Hit by done.
    rewrite (Hpr _ kstack_top) by done. split; [|done]. rewrite Hp, only_ne by done. by rewrite only_proj.
Qed.
End ends.

Lemma do_switch_spec frame s rq sq c :
  sched_wf s rq sq -> current s = Some c ->
  exists r s', sched_do_switch frame s = Some (r, s') /\ switched frame s c rq sq r s'.
Proof.
  intros Hwf Hc.
  assert (Hcb : (c < MAX_PROCESSES)%nat) by (destruct (wf_cur _ _ _ Hwf) as (c' & Hc' & ?); congruence).
  destruct (select_spec frame s rq sq c Hwf Hc Hcb) as (s1 & s2 & Hw & He & Hq2 & Hc2).
  unfold sched_do_switch. rewrite (wf_init _ _ _ Hwf), Hc. cbn [negb]. cbv zeta.
  change (get_ticks_internal (modify c (set_kstack_top frame) s)) with (pit_ticks s).
  change (sleep_queue (modify c (set_kstack_top frame) s)) with (sleep_queue s).
  rewrite Hw. cbn [mbind option_bind]. rewrite He. cbn [mbind option_bind].
  destruct (dequeue_spec s2 _ _ Hq2) as (Hq3 & Hc3 & Hhd).
  destruct (dequeue_ready s2) as [h s3]. cbn [fst snd] in Hq3, Hc3, Hhd. subst h.
  pose proof (changes_trans _ nochange _ _ _ (fun _ _ => eq_refl) Hc2 Hc3 : changes (select_change frame s c sq) s s3) as Hch.
  fold (chosen s c rq sq). destruct (decide (chosen s c rq sq = c)) as [Hn|Hn].
  - eexists _, _. split; [done|]. by apply end_same.
  - eexists _, _. split; [done|]. by apply end_other.
Qed.

(** * Operations on one process *)

Lemma sorted_ext s s' sq :
  StronglySorted (fun i j => sleep_until (proc s i) <= sleep_until (proc s j)) sq ->
  (forall j, j ∈ sq -> sleep_until (proc s' j) = sleep_until (proc s j)) ->
  StronglySorted (fun i j => sleep_until (proc s' i) <= sleep_until (proc s' j)) sq.
Proof.
  intros Hso HF. induction Hso as [|x l Hl IH Hx]; constructor.
  - apply IH. intros j Hj. apply HF. by right.
  - apply Forall_forall. intros y Hy. rewrite !HF by (by constructor). rewrite Forall_forall in Hx. auto.
Qed.

(** [s1] differs from [s] at most in process [i] (and in fields that the invariant
    does not mention); the links are those of [s]. *)
Record local_change (i : nat) (s s1 : sched) : Prop := {
  lc_next : forall j, j <> i -> next (proc s1 j) = next (proc s j);
  lc_len : length (processes s1) = length (processes s);
  lc_other : forall j, (j < MAX_PROCESSES)%nat -> j <> i ->
    state (proc s1 j) = state (proc s j) /\ pid (proc s1 j) = pid (proc s j) /\
    sleep_until (proc s1 j) = sleep_until (proc s j);
  lc_glob : current s1 = current s /\ ready_queue s1 = ready_queue s /\ ready_queue_tail s1 = ready_queue_tail s /\
    sleep_queue s1 = sleep_queue s /\ sched_initialized s1 = sched_initialized s /\ sched_locked s1 = sched_locked s }.

Lemma lc_queues i s s1 rq sq : local_change i s s1 -> i ∉ rq ++ sq -> queues s rq sq -> queues s1 rq sq.
Proof.
  intros [Hn Hl _ (_ & Hr & Ht & Hs & _)] [Hir His]%not_elem_of_app [Hlen Hcr Hct Hcs Hnd Hb].
  split; auto; rewrite ?Hl, ?Hr, ?Ht, ?Hs; auto; (eapply ready_chain_ext; [|done]); intros j Hj; apply Hn; intros ->; done.
Qed.

Lemma lc_modify i f s : local_change i s (modify i f s).
Proof.
  split; [|apply length_modify| |done]; [intros j Hne|intros j _ Hne]; by rewrite proc_modify_ne.
Qed.

Lemma lc_refl i s : local_change i s s.
Proof. by split. Qed.

Lemma lc_trans i s1 s2 s3 : local_change i s1 s2 -> local_change i s2 s3 -> local_change i s1 s3.
Proof.
  intros [H1 H2 H3 (A & B & C & D & E & F)] [K1 K2 K3 (A' & B' & C' & D' & E' & F')]. split.
  - intros j Hj. by rewrite K1, H1.
  - congruence.
  - intros j Hj Hne. destruct (H3 j Hj Hne) as (<- & <- & <-). by apply K3.
  - repeat split; congruence.
Qed.

(** States in which a process is in no queue and does not run. *)
Definition parked (p : pstate) : Prop := p = PROC_UNUSED \/ p = PROC_BLOCKED \/ p = PROC_ZOMBIE.

Lemma out_of_queues s rq sq i :
  sched_wf s rq sq -> i <> 0%nat -> parked (state (proc s i)) \/ state (proc s i) = PROC_RUNNING -> i ∉ rq ++ sq.
Proof.
  intros Hwf H0 Hp Hin. apply elem_of_app in Hin as [Hin|Hin].
  - destruct (wf_rstate _ _ _ Hwf i Hin) as [|He]; [done|]. rewrite He in Hp. unfold parked in Hp. naive_solver.
  - rewrite (wf_sstate _ _ _ Hwf i Hin) in Hp. unfold parked in Hp. naive_solver.
Qed.

(** The process [i], in no queue before, is put in a state [parked]. *)
Lemma wf_park s s1 rq sq i :
  sched_wf s rq sq -> i <> 0%nat -> i ∉ rq ++ sq -> local_change i s s1 ->
  parked (state (proc s1 i)) -> (state (proc s1 i) <> PROC_UNUSED -> pid (proc s1 i) <> 0) -> sched_wf s1 rq sq.
Proof.
  intros Hwf H0 Hnin Hlc Hpk Hpid. pose proof Hlc as [_ _ Ho (Hcu & _ & _ & _ & Hin & Hlk)].
  pose proof (wf_q _ _ _ Hwf) as Hq. pose proof Hnin as [Hnr Hns]%not_elem_of_app.
  assert (Hb : forall j, j ∈ rq \/ j ∈ sq -> (j < MAX_PROCESSES)%nat /\ j <> i).
  { intros j Hj. split; [|naive_solver]. apply (q_bound_in _ _ _ _ Hq). by apply elem_of_app. }
  assert (Hz : (0 < MAX_PROCESSES)%nat) by (unfold MAX_PROCESSES; lia).
  assert (Hst : forall j st, (j < MAX_PROCESSES)%nat -> ~ parked st -> state (proc s1 j) = st -> j <> i /\ state (proc s j) = st).
  { intros j st Hj Hst He. destruct (decide (j = i)) as [->|Hne]; [congruence|]. split; [done|]. by rewrite <- (proj1 (Ho j Hj Hne)). }
  split.
  - by eapply lc_queues.
  - rewrite Hin. apply Hwf.
  - rewrite Hlk. apply Hwf.
  - rewrite Hcu. apply Hwf.
  - destruct (Ho 0%nat Hz) as (-> & -> & _); [done|]. apply Hwf.
  - intros j Hj. destruct (Hb j) as [Hjb Hne]; [by left|]. destruct (Ho j Hjb Hne) as (-> & _). by apply (wf_rstate _ _ _ Hwf).
  - intros j Hj. destruct (Hb j) as [Hjb Hne]; [by right|]. destruct (Ho j Hjb Hne) as (-> & _). by apply (wf_sstate _ _ _ Hwf).
  - intros j Hj He. apply Hst in He as [_ He]; [|done|unfold parked; naive_solver]. by apply (wf_ready_in _ _ _ Hwf).
  - intros j Hj He. apply Hst in He as [_ He]; [|done|unfold parked; naive_solver]. by apply (wf_sleep_in _ _ _ Hwf).
  - intros j Hj He. apply Hst in He as [_ He]; [|done|unfold parked; naive_solver]. rewrite Hcu. by apply (wf_run _ _ _ Hwf).
  - intros j Hj Hj0 He. destruct (decide (j = i)) as [->|Hne]; [auto|]. destruct (Ho j Hj Hne) as (Hs & -> & _).
    apply (wf_pid _ _ _ Hwf); auto. congruence.
  - apply (sorted_ext s); [apply Hwf|]. intros j Hj. destruct (Hb j) as [Hjb Hne]; [by right|]. by apply Ho.
Qed.

(** The process [i], parked before, has been made ready and is enqueued. *)
Lemma wf_publish s s1 rq sq i :
  sched_wf s rq sq -> i <> 0%nat -> (i < MAX_PROCESSES)%nat -> parked (state (proc s i)) -> local_change i s s1 ->
  state (proc s1 i) = PROC_READY -> pid (proc s1 i) <> 0 ->
  exists s', enqueue_ready i s1 = Some s' /\ sched_wf s' (rq ++ [i]) sq /\ changes nochange s1 s'.
Proof.
  intros Hwf H0 Hib Hpk Hlc Hrd Hpid. pose proof (out_of_queues _ _ _ i Hwf H0 (or_introl Hpk)) as Hnin.
  pose proof Hlc as [_ _ Ho (Hcu & _ & _ & _ & Hin & Hlk)]. pose proof (lc_queues _ _ _ _ _ Hlc Hnin (wf_q _ _ _ Hwf)) as Hq1.
  destruct (enqueue_spec s1 rq sq i Hq1 Hib Hnin Hrd) as (s' & He & Hq' & Hch). exists s'. split; [done|]. split; [|done].
  assert (Hz : (0 < MAX_PROCESSES)%nat) by (unfold MAX_PROCESSES; lia).
  pose proof (fun A f Hf => @ch_field A f _ s1 s' Hf Hch) as Hf. unfold nochange in Hf.
  pose proof (fun A f Hf => @ch_global A f _ s1 s' Hf Hch) as Hg.
  assert (Hb : forall j, j ∈ rq \/ j ∈ sq -> (j < MAX_PROCESSES)%nat /\ j <> i).
  { intros j Hj. rewrite <- elem_of_app in Hj. split; [by apply (q_bound_in _ _ _ _ Hq1)|]. intros ->. done. }
  assert (Hst : forall j, (j < MAX_PROCESSES)%nat -> j <> i -> state (proc s' j) = state (proc s j)).
  { intros j Hj Hne. rewrite (Hf _ state) by done. by apply Ho. }
  assert (Hsti : state (proc s' i) = PROC_READY) by (by rewrite (Hf _ state)).
  split; auto.
  - rewrite (Hg _ sched_initialized), Hin by done. apply Hwf.
  - rewrite (Hg _ sched_locked), Hlk by done. apply Hwf.
  - rewrite (Hg _ current), Hcu by done. apply Hwf.
  - rewrite Hst, (Hf _ pid) by auto. destruct (Ho 0%nat Hz) as (_ & -> & _); [done|]. apply Hwf.
  - intros j [Hj| ->%list_elem_of_singleton]%elem_of_app; [|by right]. destruct (Hb j) as [Hjb Hne]; [by left|].
    rewrite Hst by done. by apply (wf_rstate _ _ _ Hwf).
  - intros j Hj. destruct (Hb j) as [Hjb Hne]; [by right|]. rewrite Hst by done. by apply (wf_sstate _ _ _ Hwf).
  - intros j Hj Hr. apply elem_of_app. destruct (decide (j = i)) as [->|Hne]; [right; by left|left].
    rewrite Hst in Hr by done. by apply (wf_ready_in _ _ _ Hwf).
  - intros j Hj Hr. destruct (decide (j = i)) as [->|Hne]; [congruence|]. rewrite Hst in Hr by done. by apply (wf_sleep_in _ _ _ Hwf).
  - intros j Hj Hr. destruct (decide (j = i)) as [->|Hne]; [congruence|]. rewrite Hst in Hr by done.
    rewrite (Hg _ current), Hcu by done. by apply (wf_run _ _ _ Hwf).
  - intros j Hj Hj0 Hs. rewrite (Hf _ pid) by done. destruct (decide (j = i)) as [->|Hne]; [done|].
    rewrite Hst in Hs by done. destruct (Ho j Hj Hne) as (_ & -> & _). by apply (wf_pid _ _ _ Hwf).
  - apply (sorted_ext s); [apply Hwf|]. intros j Hj. destruct (Hb j) as [Hjb Hne]; [by right|].
    rewrite (Hf _ sleep_until) by done. by apply Ho.
Qed.

(** ** Sleeping *)

Lemma sleep_place_spec s until fuel suf : forall pre p,
  chain s p suf -> (length suf <= fuel)%nat ->
  exists l1 l2, suf = l1 ++ l2 /\ Forall (fun i => sleep_until (proc s i) <= until) l1 /\
    (forall x, head l2 = Some x -> until < sleep_until (proc s x)) /\
    sleep_place fuel until (last pre) p s = Some (last (pre ++ l1), head l2).
Proof.
  revert fuel. induction suf as [|w suf IH]; intros fuel pre p Hc Hl.
  - simpl in Hc. subst p. exists [], []. rewrite (app_nil_r pre). split; [done|]. split; [constructor|]. split; [done|]. by destruct fuel.
  - destruct Hc as [-> Hc]. destruct fuel as [|fuel]; simpl in Hl; [lia|]. cbn [sleep_place].
    destruct (Z.leb_spec (sleep_until (proc s w)) until) as [Hle|Hgt].
    + destruct (IH fuel (pre ++ [w]) _ Hc) as (l1 & l2 & -> & HF & Hh & He); [lia|]. rewrite last_snoc in He.
      exists (w :: l1), l2. rewrite <- app_assoc in He. auto.
    + exists [], (w :: suf). rewrite (app_nil_r pre). split; [done|]. split; [constructor|]. split; [by intros x [= <-]|done].
Qed.

Lemma chain_insert s s' p l1 c l2 :
  chain s p (l1 ++ l2) -> NoDup (l1 ++ l2) -> c ∉ l1 ++ l2 ->
  (forall i, i ∈ l1 ++ l2 -> last l1 <> Some i -> next (proc s' i) = next (proc s i)) ->
  (forall q, last l1 = Some q -> next (proc s' q) = Some c) -> next (proc s' c) = head l2 ->
  chain s' (if last l1 is Some _ then p else Some c) (l1 ++ c :: l2).
Proof.
  revert p. induction l1 as [|x l1 IH]; intros p Hc Hnd Hnin Hn Hq Hh.
  - simpl in *. split; [done|]. rewrite Hh. assert (p = head l2) as -> by (destruct l2; simpl in *; naive_solver).
    apply (ready_chain_ext s); [|done]. intros i Hi. by apply Hn.
  - simpl in Hc, Hnd. destruct Hc as [-> Hc]. apply NoDup_cons in Hnd as [Hx Hnd]. destruct l1 as [|y l1].
    + simpl in *. split; [done|]. rewrite Hq by done. split; [done|]. rewrite Hh.
      assert (Hhd : next (proc s x) = head l2) by (destruct l2; simpl in *; naive_solver). rewrite <- Hhd.
      apply (ready_chain_ext s); [|done]. intros i Hi. apply Hn; [by right|]. intros [= ->]. done.
    + destruct (last (y :: l1)) as [q|] eqn:El; [|by apply last_None in El].
      rewrite last_cons_cons, El in *. simpl. split; [done|]. rewrite Hn; [|by left|].
      * apply (IH (next (proc s x))); auto; [intros Hin; apply Hnin; by right|intros i Hi; apply Hn; by right].
      * intros [= <-]. apply Hx, elem_of_app. left. by apply last_Some_elem_of.
Qed.

Lemma sleep_insert_spec s rq sq c :
  queues s rq sq -> (c < MAX_PROCESSES)%nat -> c ∉ rq ++ sq ->
  exists s' l1 l2, sleep_insert c s = Some s' /\ sq = l1 ++ l2 /\
    Forall (fun i => sleep_until (proc s i) <= sleep_until (proc s c)) l1 /\
    (forall x, head l2 = Some x -> sleep_until (proc s c) < sleep_until (proc s x)) /\
    queues s' rq (l1 ++ c :: l2) /\ changes nochange s s'.
Proof.
  intros Hq Hcb Hnin. pose proof Hq as [Hlen Hr Ht Hs Hnd Hb]. unfold sleep_insert.
  destruct (sleep_place_spec s (sleep_until (proc s c)) MAX_PROCESSES sq [] _ Hs) as (l1 & l2 & -> & HF & Hh & He).
  { by eapply q_sleep_length. }
  change (last []) with (@None nat) in He. rewrite He. cbn [mbind option_bind app]. cbv zeta.
  set (s1 := modify c (set_next (head l2)) s). set (s2 := match last l1 with Some _ => _ | None => _ end).
  pose proof Hnin as [Hnr Hns]%not_elem_of_app. pose proof Hnd as (Hndr & Hdis & Hnds)%NoDup_app.
  assert (Hpm : rq ++ l1 ++ c :: l2 ≡ₚ c :: rq ++ l1 ++ l2) by (rewrite !(assoc_L (++)); symmetry; apply Permutation_middle).
  assert (Hlast : forall q, last l1 = Some q -> q ∈ l1 ++ l2 /\ (q < MAX_PROCESSES)%nat /\ q <> c).
  { intros q Hl. apply last_Some_elem_of in Hl. assert (Hin : q ∈ l1 ++ l2) by (apply elem_of_app; by left).
    split; [done|]. split; [apply (q_bound_in _ _ _ _ Hq), elem_of_app; by right|]. intros ->. done. }
  assert (Hp1 : forall i, i <> c -> proc s1 i = proc s i) by (intros i Hi; by apply proc_modify_ne).
  assert (Hp2 : forall i, last l1 <> Some i -> proc s2 i = proc s1 i).
  { intros i Hi. unfold s2. destruct (last l1); [apply proc_modify_ne; congruence|done]. }
  assert (Hn1 : next (proc s1 c) = head l2) by (unfold s1; rewrite proc_modify_eq; [done|lia]).
  assert (Hu : forall i, unlink (proc s2 i) = unlink (proc s i)).
  { intros i. transitivity (unlink (proc s1 i)); [|by apply (proc_modify_proj unlink)].
    unfold s2. destruct (last l1); [by apply (proc_modify_proj unlink)|done]. }
  exists s2, l1, l2. split; [done|]. split; [done|]. split; [done|]. split; [done|]. split.
  - split.
    + unfold s2, s1. destruct (last l1); rewrite ?length_modify; [done|]. change (length (processes s1) = MAX_PROCESSES). unfold s1. by rewrite length_modify.
    + assert (ready_queue s2 = ready_queue s) as -> by (unfold s2; by destruct (last l1)).
      apply (ready_chain_ext s); [|done]. intros i Hi. rewrite Hp2, Hp1; [done|intros ->; done|].
      intros Hl. apply (Hdis i Hi). by apply Hlast.
    + unfold s2. by destruct (last l1).
    + assert (sleep_queue s2 = if last l1 is Some _ then sleep_queue s else Some c) as -> by (unfold s2; by destruct (last l1)).
      apply (chain_insert s); auto.
      * intros i Hi Hl. rewrite Hp2, Hp1; [done|intros ->; done|done].
      * intros q Hl. destruct (Hlast q Hl) as (_ & Hqb & Hqc). unfold s2. rewrite Hl, proc_modify_eq; [done|].
        unfold s1. by rewrite length_modify, Hlen.
      * rewrite Hp2; [done|]. intros Hl. by apply Hlast in Hl as (_ & _ & ?).
    + rewrite Hpm. by constructor.
    + rewrite Hpm. by constructor.
  - split; [intros i _; apply Hu|]. unfold s2. by destruct (last l1).
Qed.

Lemma sorted_insert (f : nat -> Z) l1 c l2 :
  StronglySorted (fun i j => f i <= f j) (l1 ++ l2) -> Forall (fun i => f i <= f c) l1 ->
  (forall x, head l2 = Some x -> f c < f x) -> StronglySorted (fun i j => f i <= f j) (l1 ++ c :: l2).
Proof.
  induction l1 as [|x l1 IH]; simpl; intros Hso HF Hh.
  - constructor; [done|]. destruct l2 as [|y l2]; constructor; [specialize (Hh y eq_refl); lia|].
    inversion Hso as [|? ? _ Hy]; subst. eapply Forall_impl; [exact Hy|]. intros z Hz. specialize (Hh y eq_refl). simpl in Hz. lia.
  - inversion Hso as [|? ? Hso' Hx]; subst. apply Forall_cons in HF as [Hxc HF]. constructor; [by apply IH|].
    apply Forall_app in Hx as [Hx1 Hx2]. apply Forall_app. split; [done|]. by constructor.
Qed.

(** Going to sleep: the running process [c] moves to its place in the sleep queue. *)
Lemma wf_sleep s rq sq c ms :
  sched_wf s rq sq -> current s = Some c -> c <> 0%nat -> state (proc s c) = PROC_RUNNING ->
  exists s' sq', sleep_insert c (sleep_mark ms c s) = Some s' /\ sched_wf s' rq sq' /\ sq' ≡ₚ c :: sq /\
    current s' = Some c /\ pit_ticks s' = pit_ticks s /\
    sleep_until (proc s' c) =
      u32 (pit_ticks s + (if u32 (ms * 1000) / 1000 =? 0 then 1 else u32 (ms * 1000) / 1000)).
Proof.
  intros Hwf Hc H0 Hr. assert (Hcb : (c < MAX_PROCESSES)%nat) by (destruct (wf_cur _ _ _ Hwf) as (c' & Hc' & ?); congruence).
  pose proof (not_in_queues _ _ _ c Hwf Hr H0) as Hnin. pose proof (wf_q _ _ _ Hwf) as Hq.
  set (sm := sleep_mark ms c s). set (t := if u32 (ms * 1000) / 1000 =? 0 then 1 else u32 (ms * 1000) / 1000).
  assert (Hqm : queues sm rq sq) by (unfold sm, sleep_mark; repeat apply queues_modify; auto).
  assert (Hpm : forall i, i <> c -> proc sm i = proc s i).
  { intros i Hi. unfold sm, sleep_mark. cbv zeta. by rewrite !proc_modify_ne. }
  assert (Hpc : proc sm c = set_sleep_until (u32 (pit_ticks s + t)) (set_state PROC_SLEEPING (proc s c))).
  { unfold sm, sleep_mark. cbv zeta. rewrite !proc_modify_eq by (rewrite ?length_modify, (q_len _ _ _ Hq); exact Hcb). done. }
  destruct (sleep_insert_spec sm rq sq c Hqm Hcb Hnin) as (s' & l1 & l2 & He & -> & HF & Hh & Hq' & Hch).
  pose proof (fun A f Hf => @ch_field A f _ sm s' Hf Hch) as Hf. unfold nochange in Hf.
  pose proof (fun A f Hf => @ch_global A f _ sm s' Hf Hch) as Hg.
  exists s', (l1 ++ c :: l2). split; [done|].
  split; [|split; [symmetry; apply Permutation_middle|split; [by rewrite (Hg _ current)|split; [by rewrite (Hg _ pit_ticks)|]]]].
  2:{ rewrite (Hf _ sleep_until) by done. by rewrite Hpc. }
  assert (Hst : forall i, (i < MAX_PROCESSES)%nat -> i <> c -> state (proc s' i) = state (proc s i)).
  { intros i Hi Hne. by rewrite (Hf _ state), Hpm. }
  assert (Hstc : state (proc s' c) = PROC_SLEEPING) by (by rewrite (Hf _ state), Hpc).
  assert (Hz : (0 < MAX_PROCESSES)%nat) by (unfold MAX_PROCESSES; lia).
  assert (Hb : forall i, i ∈ rq \/ i ∈ l1 ++ l2 -> (i < MAX_PROCESSES)%nat /\ i <> c).
  { intros i Hi. rewrite <- elem_of_app in Hi. split; [by apply (q_bound_in _ _ _ _ Hq)|]. intros ->. done. }
  assert (Hin : forall i, i ∈ l1 ++ c :: l2 <-> i = c \/ i ∈ l1 ++ l2) by (intros i; rewrite !elem_of_app, elem_of_cons; tauto).
  split; auto.
  - rewrite (Hg _ sched_initialized) by done. apply Hwf.
  - rewrite (Hg _ sched_locked) by done. apply Hwf.
  - rewrite (Hg _ current) by done. apply Hwf.
  - rewrite Hst, (Hf _ pid), Hpm by auto. apply Hwf.
  - intros i Hi. destruct (Hb i) as [Hib Hne]; [by left|]. rewrite Hst by done. by apply (wf_rstate _ _ _ Hwf).
  - intros i [->|Hi]%Hin; [done|]. destruct (Hb i) as [Hib Hne]; [by right|]. rewrite Hst by done. by apply (wf_sstate _ _ _ Hwf).
  - intros i Hi Hs. destruct (decide (i = c)) as [->|Hne]; [congruence|]. rewrite Hst in Hs by done. by apply (wf_ready_in _ _ _ Hwf).
  - intros i Hi Hs. apply Hin. destruct (decide (i = c)) as [->|Hne]; [by left|right]. rewrite Hst in Hs by done. by apply (wf_sleep_in _ _ _ Hwf).
  - intros i Hi Hs. destruct (decide (i = c)) as [->|Hne]; [congruence|]. rewrite Hst in Hs by done.
    rewrite (Hg _ current) by done. by apply (wf_run _ _ _ Hwf).
  - intros i Hi Hi0 Hs. rewrite (Hf _ pid) by done. destruct (decide (i = c)) as [->|Hne].
    + rewrite Hpc. apply (wf_pid _ _ _ Hwf c); auto. congruence.
    + rewrite Hpm by done. apply (wf_pid _ _ _ Hwf i); auto. by rewrite <- Hst.
  - apply (sorted_ext sm); [|intros j Hj; apply (Hf _ sleep_until (fun _ => eq_refl)); apply (q_bound_in _ _ _ _ Hq'), elem_of_app; by right].
    apply (sorted_insert (fun i => sleep_until (proc sm i))); auto.
    apply (sorted_ext s); [apply Hwf|]. intros j Hj. rewrite Hpm; [done|]. intros ->. apply Hnin, elem_of_app. by right.
Qed.

(** ** Every operation *)

(** No process changes in what the invariant mentions. *)
Lemma wf_view s s1 rq sq : sched_wf s rq sq -> local_change MAX_PROCESSES s s1 -> sched_wf s1 rq sq.
Proof.
  intros Hwf Hlc. pose proof Hlc as [_ _ Ho (Hcu & _ & _ & _ & Hin & Hlk)]. pose proof (wf_q _ _ _ Hwf) as Hq.
  assert (Hs : forall j, (j < MAX_PROCESSES)%nat -> state (proc s1 j) = state (proc s j) /\
    pid (proc s1 j) = pid (proc s j) /\ sleep_until (proc s1 j) = sleep_until (proc s j)) by (intros j Hj; apply Ho; lia).
  assert (Hb : forall j, j ∈ rq \/ j ∈ sq -> (j < MAX_PROCESSES)%nat).
  { intros j Hj. apply (q_bound_in _ _ _ _ Hq). by apply elem_of_app. }
  assert (Hz : (0 < MAX_PROCESSES)%nat) by (unfold MAX_PROCESSES; lia).
  split.
  - eapply lc_queues; [done| |done]. intros Hm%(q_bound_in _ _ _ _ Hq). lia.
  - rewrite Hin. apply Hwf.
  - rewrite Hlk. apply Hwf.
  - rewrite Hcu. apply Hwf.
  - destruct (Hs 0%nat Hz) as (-> & -> & _). apply Hwf.
  - intros j Hj. destruct (Hs j (Hb j (or_introl Hj))) as (-> & _). by apply (wf_rstate _ _ _ Hwf).
  - intros j Hj. destruct (Hs j (Hb j (or_intror Hj))) as (-> & _). by apply (wf_sstate _ _ _ Hwf).
  - intros j Hj. destruct (Hs j Hj) as (-> & _). by apply (wf_ready_in _ _ _ Hwf).
  - intros j Hj. destruct (Hs j Hj) as (-> & _). by apply (wf_sleep_in _ _ _ Hwf).
  - intros j Hj. destruct (Hs j Hj) as (-> & _). rewrite Hcu. by apply (wf_run _ _ _ Hwf).
  - intros j Hj. destruct (Hs j Hj) as (-> & -> & _). by apply (wf_pid _ _ _ Hwf).
  - apply (sorted_ext s); [apply Hwf|]. intros j Hj. apply Hs, Hb. by right.
Qed.

Lemma any_due_spec s now fuel p l :
  chain s p l -> (length l <= fuel)%nat -> exists b, any_due fuel now p s = Some b.
Proof.
  revert fuel p. induction l as [|x l IH]; intros fuel p Hc Hl.
  - simpl in Hc. subst p. exists false. by destruct fuel.
  - destruct Hc as [-> Hc]. destruct fuel as [|fuel]; simpl in Hl; [lia|]. cbn [any_due].
    destruct (_ <=? now); [by eexists|]. apply IH; [done|lia].
Qed.

(** A process that runs; the scheduler is well formed and some process runs. *)
Definition running (s : sched) (c : nat) : Prop := current s = Some c /\ state (proc s c) = PROC_RUNNING.

Definition run_wf (s : sched) : Prop := exists rq sq c, sched_wf s rq sq /\ running s c.

Lemma view_run s s1 rq sq c :
  sched_wf s rq sq -> running s c -> local_change MAX_PROCESSES s s1 -> sched_wf s1 rq sq /\ running s1 c.
Proof.
  intros Hwf [Hc Hr] Hlc. split; [by eapply wf_view|].
  assert (Hcb : (c < MAX_PROCESSES)%nat) by (destruct (wf_cur _ _ _ Hwf) as (c' & Hc' & ?); congruence).
  destruct Hlc as [_ _ Ho (Hcu & _)]. split; [congruence|]. destruct (Ho c Hcb) as (-> & _); [lia|done].
Qed.

Lemma lc_all_modify i f s :
  (forall p, next (f p) = next p /\ state (f p) = state p /\ pid (f p) = pid p /\ sleep_until (f p) = sleep_until p) ->
  local_change MAX_PROCESSES s (modify i f s).
Proof.
  intros Hf. split; [|apply length_modify| |done].
  - intros j _. apply proc_modify_proj. apply Hf.
  - intros j _ _. split; [|split]; apply proc_modify_proj; apply Hf.
Qed.

Lemma sched_tick_spec s rq sq c :
  sched_wf s rq sq -> running s c -> exists s', sched_tick s = Some s' /\ sched_wf s' rq sq /\ running s' c.
Proof.
  intros Hwf [Hc Hr]. unfold sched_tick. rewrite Hc, (wf_init _ _ _ Hwf). cbn [negb].
  set (s1 := if 0 <? _ then _ else s). set (s2 := if _ && _ then _ else s1).
  assert (H1 : local_change MAX_PROCESSES s s1) by (unfold s1; destruct (0 <? _); [by apply lc_all_modify|apply lc_refl]).
  assert (H2 : local_change MAX_PROCESSES s1 s2).
  { unfold s2. destruct (_ && _); [|apply lc_refl]. apply (lc_trans _ _ (modify c (set_ticks_left time_slice) s1)).
    - by apply lc_all_modify.
    - by split. }
  pose proof (lc_trans _ _ _ _ H1 H2) as H12. pose proof (wf_view _ _ _ _ Hwf H12) as Hwf2.
  destruct (any_due_spec s2 (get_ticks_internal s2) MAX_PROCESSES _ sq (q_sleep _ _ _ (wf_q _ _ _ Hwf2))) as [b Hb].
  { eapply q_sleep_length. apply Hwf2. }
  rewrite Hb. cbn [mbind option_bind]. eexists. split; [done|].
  apply (view_run s); [done|done|]. apply (lc_trans _ _ s2); [done|]. by destruct b; split.
Qed.

Lemma sched_wakeup_spec channel s rq sq :
  sched_wf s rq sq ->
  exists s', sched_wakeup channel s = Some s' /\
    sched_wf s' (rq ++ filter (fun i => state (proc s i) = PROC_BLOCKED /\ waiting_for (proc s i) = channel)
                         (seq 0 MAX_PROCESSES)) sq /\
    current s' = current s /\
    forall i, (i < MAX_PROCESSES)%nat -> ~ (state (proc s i) = PROC_BLOCKED /\ waiting_for (proc s i) = channel) ->
      unlink (proc s' i) = unlink (proc s i).
Proof.
  intros Hwf. unfold sched_wakeup. rewrite (wf_init _ _ _ Hwf). cbn [negb].
  assert (Hnd : NoDup (seq 0 MAX_PROCESSES)) by apply NoDup_seq.
  assert (Hbd : forall i, i ∈ seq 0 MAX_PROCESSES -> (i < MAX_PROCESSES)%nat) by (intros i ?%elem_of_seq; lia).
  revert Hnd Hbd. generalize (seq 0 MAX_PROCESSES). intros l. revert s rq Hwf.
  induction l as [|i l IH]; intros s rq Hwf Hnd Hbd; cbn [for_slots].
  { exists s. rewrite app_nil_r. done. }
  apply NoDup_cons in Hnd as [Hil Hnd]. assert (Hib : (i < MAX_PROCESSES)%nat) by (apply Hbd; by left).
  assert (Hbd' : forall j, j ∈ l -> (j < MAX_PROCESSES)%nat) by (intros j Hj; apply Hbd; by right).
  unfold wakeup_slot at 2. rewrite filter_cons.
  destruct (decide (state (proc s i) = PROC_BLOCKED /\ waiting_for (proc s i) = channel)) as [[Hb Hw]|Hno].
  2:{ assert (is_state (state (proc s i)) PROC_BLOCKED && (waiting_for (proc s i) =? channel) = false) as ->.
      { destruct (is_state_spec (state (proc s i)) PROC_BLOCKED); [|done].
        destruct (Z.eqb_spec (waiting_for (proc s i)) channel); [tauto|done]. }
      cbn [mbind option_bind]. by apply IH. }
  rewrite Hb, Hw, Z.eqb_refl. cbn [andb]. cbv zeta. change (is_state PROC_BLOCKED PROC_BLOCKED) with true.
  set (s1 := modify i (set_waiting_for 0) _).
  assert (Hlc : local_change i s s1) by (eapply lc_trans; by apply lc_modify).
  assert (Hi0 : i <> 0%nat) by (intros ->; destruct (wf_idle _ _ _ Hwf); congruence).
  pose proof (q_len _ _ _ (wf_q _ _ _ Hwf)) as Hlen.
  assert (Hpi : proc s1 i = set_waiting_for 0 (set_state PROC_READY (proc s i))).
  { unfold s1. by rewrite !proc_modify_eq by (rewrite ?length_modify, Hlen; done). }
  destruct (wf_publish s s1 rq sq i Hwf Hi0 Hib) as (s2 & He & Hwf2 & Hch); [right; by left|done|by rewrite Hpi| |].
  { rewrite Hpi. apply (wf_pid _ _ _ Hwf); auto. congruence. }
  rewrite He. cbn [mbind option_bind]. set (s3 := set_sched_need_resched true s2).
  assert (Hwf3 : sched_wf s3 (rq ++ [i]) sq) by (eapply wf_view; [exact Hwf2|by split]).
  assert (Hsame : forall j, (j < MAX_PROCESSES)%nat -> j <> i -> unlink (proc s3 j) = unlink (proc s j)).
  { intros j Hj Hne. assert (proc s1 j = proc s j) as <- by (unfold s1; by rewrite !proc_modify_ne).
    by apply (ch_proc _ _ _ Hch). }
  destruct (IH s3 (rq ++ [i]) Hwf3 Hnd Hbd') as (s' & Hs' & Hwf' & Hcur' & Hoth). exists s'. split; [done|].
  assert (Hfe : filter (fun j => state (proc s3 j) = PROC_BLOCKED /\ waiting_for (proc s3 j) = channel) l =
                filter (fun j => state (proc s j) = PROC_BLOCKED /\ waiting_for (proc s j) = channel) l).
  { apply filter_ext_elem. intros j Hj. assert (Hne : j <> i) by (intros ->; done). specialize (Hsame j (Hbd' j Hj) Hne).
    by rewrite (unlink_proj state _ _ (fun _ => eq_refl) Hsame), (unlink_proj waiting_for _ _ (fun _ => eq_refl) Hsame). }
  rewrite Hfe, <- app_assoc in Hwf'. split; [done|]. split.
  - rewrite Hcur'. transitivity (current s1); [|done]. by apply (ch_global current _ s1 s2 (fun _ => eq_refl) Hch).
  - intros j Hj Hno. assert (Hne : j <> i) by (intros ->; tauto). rewrite <- Hsame by done. apply Hoth; [done|].
    specialize (Hsame j Hj Hne).
    by rewrite (unlink_proj state _ _ (fun _ => eq_refl) Hsame), (unlink_proj waiting_for _ _ (fun _ => eq_refl) Hsame).
Qed.

(** The effect of an operation on the ready queue [rq]: a switch runs its head (or
    idle), other operations only add to its end. *)
Definition advances (rq : list nat) (s' : sched) : Prop :=
  exists extra sq', sched_wf s' (tail (rq ++ extra)) sq' /\ running s' (default 0%nat (head (rq ++ extra))).
Definition stays (rq : list nat) (s' : sched) : Prop :=
  exists extra sq' c, sched_wf s' (rq ++ extra) sq' /\ running s' c.

Lemma run_switch frame s rq sq c :
  sched_wf s rq sq -> current s = Some c ->
  exists r s', sched_do_switch frame s = Some (r, s') /\ advances rq s'.
Proof.
  intros Hwf Hc. destruct (do_switch_spec frame s rq sq c Hwf Hc) as (r & s' & He & Hs). exists r, s'. split; [done|].
  exists (due_list s sq ++ requeue s c), (asleep_list s sq). split; [apply Hs|]. split; apply Hs.
Qed.

Lemma yield_run s rq sq c frame :
  sched_wf s rq sq -> current s = Some c -> exists r s', sched_do_switch_yield frame s = Some (r, s') /\ advances rq s'.
Proof.
  intros Hwf Hc. unfold sched_do_switch_yield. rewrite (wf_init _ _ _ Hwf), (wf_unlocked _ _ _ Hwf). cbn [negb].
  by apply (run_switch frame s rq sq c).
Qed.

(** The running process [c], other than idle, parks itself. *)
Lemma run_park s s1 rq sq c :
  sched_wf s rq sq -> running s c -> c <> 0%nat -> local_change c s s1 -> parked (state (proc s1 c)) ->
  pid (proc s1 c) = pid (proc s c) -> sched_wf s1 rq sq /\ current s1 = Some c.
Proof.
  intros Hwf [Hc Hr] H0 Hlc Hpk Hpid.
  assert (Hcb : (c < MAX_PROCESSES)%nat) by (destruct (wf_cur _ _ _ Hwf) as (c'' & ? & ?); congruence).
  split; [|destruct Hlc as [_ _ _ (-> & _)]; done].
  apply (wf_park s s1 rq sq c Hwf H0); auto; [by apply (not_in_queues _ _ _ c Hwf)|].
  intros _. rewrite Hpid. apply (wf_pid _ _ _ Hwf); auto. congruence.
Qed.

(** What can happen to the scheduler: the timer interrupt, a preemption or yield,
    the calls of the running process, a wakeup from an interrupt handler.  The idle
    process makes none of the calls that stop it. *)
Inductive op :=
  | OTick | OPreempt (frame : Z) | OSleep (ms frame : Z) | OExit (code frame : Z)
  | OBlock (channel frame : Z) | OWakeup (channel : Z).

Definition if_not_idle (f : sched -> option (Z * sched)) (s : sched) : option sched :=
  if decide (current s = Some 0%nat) then Some s else snd <$> f s.

Definition exec_op (o : op) (s : sched) : option sched :=
  match o with
  | OTick => pit_handler None s
  | OPreempt frame => snd <$> sched_do_switch frame s
  | OSleep ms frame => if_not_idle (sched_sleep ms frame) s
  | OExit code frame => if_not_idle (sched_exit code frame) s
  | OBlock channel frame => if_not_idle (sched_block_on channel frame) s
  | OWakeup channel => sched_wakeup channel s
  end.

Fixpoint exec (ops : list op) (s : sched) : option sched :=
  match ops with
  | [] => Some s
  | o :: ops => s ← exec_op o s; exec ops s
  end.

Lemma run_not_idle s f rq sq c :
  sched_wf s rq sq -> running s c ->
  (c <> 0%nat -> exists r s', f s = Some (r, s') /\ advances rq s') ->
  exists s', if_not_idle f s = Some s' /\ (advances rq s' \/ stays rq s').
Proof.
  intros Hwf [Hc Hr] Hf. unfold if_not_idle. destruct (decide _) as [|Hn].
  - exists s. split; [done|]. right. exists [], sq, c. by rewrite app_nil_r.
  - destruct Hf as (r & s' & He & Hs'); [congruence|]. exists s'. rewrite He. auto.
Qed.

Lemma exec_op_spec o s rq sq c :
  sched_wf s rq sq -> running s c ->
  exists s', exec_op o s = Some s' /\ (advances rq s' \/ stays rq s' /\ forall frame, o <> OPreempt frame).
Proof.
  intros Hwf [Hc Hr]. pose proof (wf_init _ _ _ Hwf) as Hin.
  assert (Hcb : (c < MAX_PROCESSES)%nat) by (destruct (wf_cur _ _ _ Hwf) as (x & ? & ?); congruence).
  pose proof (q_len _ _ _ (wf_q _ _ _ Hwf)) as Hlen.
  assert (Hidle : forall f, (c <> 0%nat -> exists r s', f s = Some (r, s') /\ advances rq s') ->
    exists s', if_not_idle f s = Some s' /\ (advances rq s' \/ stays rq s' /\ forall frame, o <> OPreempt frame) \/
               exists frame, o = OPreempt frame).
  { intros f Hf. destruct (run_not_idle s f rq sq c Hwf (conj Hc Hr) Hf) as (s' & He & Hs'). exists s'.
    destruct o; naive_solver. }
  destruct o as [|frame|ms frame|code frame|channel frame|channel]; cbn [exec_op].
  - unfold pit_handler. cbv zeta. change (sched_initialized (set_pit_ticks _ s)) with (sched_initialized s). rewrite Hin. cbn [negb].
    set (s0 := set_pit_ticks _ s). assert (Hwf0 : sched_wf s0 rq sq) by (eapply wf_view; [exact Hwf|by split]).
    destruct (sched_tick_spec s0 rq sq c Hwf0 (conj Hc Hr)) as (s' & -> & Hwf' & Hr'). exists s'. split; [done|].
    right. split; [|done]. exists [], sq, c. by rewrite app_nil_r.
  - destruct (run_switch frame s rq sq c Hwf Hc) as (r & s' & -> & Hs'). exists s'. auto.
  - destruct (Hidle (sched_sleep ms frame)) as (s' & [?|[? ?]]); [|by exists s'|done].
    intros H0. unfold sched_sleep. rewrite Hc, Hin. cbn [negb].
    destruct (wf_sleep s rq sq c ms Hwf Hc H0 Hr) as (s1 & sq1 & -> & Hwf1 & _ & Hc1 & _). cbn [mbind option_bind].
    by apply (yield_run s1 rq sq1 c).
  - destruct (Hidle (sched_exit code frame)) as (s' & [?|[? ?]]); [|by exists s'|done].
    intros H0. unfold sched_exit. rewrite Hc, Hin. cbn [negb]. cbv zeta. set (s1 := set_process_count _ _).
    assert (Hp : proc s1 c = set_exit_code code (set_state PROC_ZOMBIE (proc s c))).
    { change (proc s1 c) with (proc (modify c (set_exit_code code) (modify c (set_state PROC_ZOMBIE) s)) c).
      by rewrite !proc_modify_eq by (rewrite ?length_modify, Hlen; done). }
    destruct (run_park s s1 rq sq c) as (Hwf1 & Hc1); try done.
    + apply (lc_trans _ _ (modify c (set_exit_code code) (modify c (set_state PROC_ZOMBIE) s))); [|by split].
      eapply lc_trans; by apply lc_modify.
    + rewrite Hp. right; by right.
    + by rewrite Hp.
    + by apply (yield_run s1 rq sq c).
  - destruct (Hidle (sched_block_on channel frame)) as (s' & [?|[? ?]]); [|by exists s'|done].
    intros H0. unfold sched_block_on. rewrite Hc, Hin. cbn [negb]. cbv zeta. set (s1 := modify _ _ _).
    assert (Hp : proc s1 c = set_waiting_for channel (set_state PROC_BLOCKED (proc s c))).
    { unfold s1. by rewrite !proc_modify_eq by (rewrite ?length_modify, Hlen; done). }
    destruct (run_park s s1 rq sq c) as (Hwf1 & Hc1); try done.
    + eapply lc_trans; by apply lc_modify.
    + rewrite Hp. right; by left.
    + by rewrite Hp.
    + by apply (yield_run s1 rq sq c).
  - destruct (sched_wakeup_spec channel s rq sq Hwf) as (s' & -> & Hwf' & Hcur & Hoth). exists s'. split; [done|].
    right. split; [|done]. eexists _, _, c. split; [exact Hwf'|]. split; [congruence|].
    rewrite <- Hr. apply (unlink_proj state); [done|]. apply Hoth; [done|]. intros [? _]. congruence.
Qed.


(** The number of preemptions in a sequence of operations. *)
Definition is_preempt (o : op) : bool := if o is OPreempt _ then true else false.
Definition preempts (ops : list op) : nat := length (filter (fun o => is_preempt o = true) ops).

(** C17. Fairness: the process at position [k] of the ready queue becomes current before
    [k + 1] preemptions are over, whatever else happens in between. *)
Theorem sched_fair ops s rq sq c k p :
  sched_wf s rq sq -> running s c -> rq !! k = Some p -> (k < preempts ops)%nat ->
  exists ops1 ops2 s', ops = ops1 ++ ops2 /\ exec ops1 s = Some s' /\ running s' p.
Proof.
  revert s rq sq c k. induction ops as [|o ops IH]; intros s rq sq c k Hwf Hr Hk Hp; [by unfold preempts in Hp; simpl in Hp; lia|].
  destruct (exec_op_spec o s rq sq c Hwf Hr) as (s1 & He & Hs1).
  assert (Hnext : forall rq' sq' c' k', sched_wf s1 rq' sq' -> running s1 c' -> rq' !! k' = Some p -> (k' < preempts ops)%nat ->
    exists ops1 ops2 s', o :: ops = ops1 ++ ops2 /\ exec ops1 s = Some s' /\ running s' p).
  { intros rq' sq' c' k' Hwf' Hr' Hk' Hp'. destruct (IH s1 rq' sq' c' k' Hwf' Hr' Hk' Hp') as (o1 & o2 & s' & -> & Hex & Hrp).
    exists (o :: o1), o2, s'. split; [done|]. cbn [exec]. by rewrite He. }
  unfold preempts in Hp. rewrite filter_cons in Hp. destruct Hs1 as [(e & sq' & Hwf' & Hr')|[(e & sq' & c' & Hwf' & Hr') Hno]].
  - destruct rq as [|x rq]; [done|]. destruct k as [|k].
    + injection Hk as ->. exists [o], ops, s1. split; [done|]. cbn [exec]. by rewrite He.
    + apply (Hnext _ _ _ k Hwf' Hr'); [simpl; by apply lookup_app_l_Some|].
      unfold preempts. destruct (decide _); simpl in Hp; lia.
  - apply (Hnext _ _ _ k Hwf' Hr'); [by apply lookup_app_l_Some|]. unfold preempts.
    destruct (decide _) as [Hd|]; [|lia]. destruct o; try done. by destruct (Hno frame).
Qed.

(** C7. A switch implements the round-robin specification: the sleepers that are due
    and then the interrupted process join the end of the ready queue, its head (or
    idle) runs next; the context of the interrupted process is saved, that of the
    next one is loaded, and no other saved context changes. *)
Theorem sched_do_switch_refines frame s rq sq c :
  sched_wf s rq sq -> current s = Some c ->
  exists r s', sched_do_switch frame s = Some (r, s') /\ switched frame s c rq sq r s'.
Proof. apply do_switch_spec. Qed.

(** Waking a channel makes exactly the processes blocked on it ready, in the order
    of their slots, and leaves every other process as it was. *)
Theorem sched_wakeup_exact channel s rq sq :
  sched_wf s rq sq ->
  exists s', sched_wakeup channel s = Some s' /\
    sched_wf s' (rq ++ filter (fun i => state (proc s i) = PROC_BLOCKED /\ waiting_for (proc s i) = channel)
                         (seq 0 MAX_PROCESSES)) sq /\
    current s' = current s /\
    forall i, (i < MAX_PROCESSES)%nat -> ~ (state (proc s i) = PROC_BLOCKED /\ waiting_for (proc s i) = channel) ->
      unlink (proc s' i) = unlink (proc s i).
Proof. apply sched_wakeup_spec. Qed.

(** ** Contexts *)

(** Switches until process [c] runs again: before each one the running process has
    left the FPU in the state given.  The result is the stack pointer [c] gets. *)
Fixpoint until_back (c : nat) (l : list (Z * list Z)) (s : sched) : option (Z * sched) :=
  match l with
  | [] => None
  | (frame, fpu) :: l =>
      '(r, s') ← sched_do_switch frame (set_cpu_fpu fpu s);
      if decide (current s' = Some c) then Some (r, s') else until_back c l s'
  end.

Lemma until_back_context l c s rq sq c1 r s' :
  sched_wf s rq sq -> current s = Some c1 -> c1 <> c -> (c < MAX_PROCESSES)%nat ->
  until_back c l s = Some (r, s') ->
  r = kstack_top (proc s c) /\ cpu_fpu s' = fpu_context (proc s c).
Proof.
  revert s rq sq c1. induction l as [|[frame fpu] l IH]; intros s rq sq c1 Hwf Hc1 Hne Hcb Hub; [done|].
  cbn [until_back] in Hub. set (s0 := set_cpu_fpu fpu s) in *.
  assert (Hwf0 : sched_wf s0 rq sq) by (eapply wf_view; [exact Hwf|by split]).
  destruct (do_switch_spec frame s0 rq sq c1 Hwf0 Hc1) as (r1 & s1 & He & Hs). rewrite He in Hub. cbn [mbind option_bind] in Hub.
  pose proof (sw_cur _ _ _ _ _ _ _ Hs) as Hcur. set (n := chosen s0 c1 rq sq) in *.
  destruct (decide (current s1 = Some c)) as [Heq|Hn].
  - injection Hub as -> ->. rewrite Hcur in Heq. injection Heq as Hnc.
    pose proof (sw_ret _ _ _ _ _ _ _ Hs) as Hr. fold n in Hr. rewrite decide_False in Hr by congruence.
    destruct (sw_loaded _ _ _ _ _ _ _ Hs) as [Hf _]; fold n; [congruence|]. fold n in Hf.
    rewrite Hr, Hf, Hnc. done.
  - destruct (sw_others _ _ _ _ _ _ _ Hs c Hcb (not_eq_sym Hne)) as [Hf Hk].
    destruct (IH s1 _ _ n (sw_wf _ _ _ _ _ _ _ Hs) Hcur) as [Hr Hfp]; [congruence|done|done|].
    rewrite Hr, Hfp, Hf, Hk. done.
Qed.

(** A process that is switched out gets its context back: however many switches
    follow and whatever the other processes do with the FPU, when it runs again its
    FPU state and its stack pointer are those of the moment it was interrupted. *)
Theorem sched_context_restored frame l s rq sq c r1 s1 r2 s2 :
  sched_wf s rq sq -> current s = Some c -> alive s c = true ->
  sched_do_switch frame s = Some (r1, s1) -> current s1 <> Some c ->
  until_back c l s1 = Some (r2, s2) ->
  r2 = frame /\ cpu_fpu s2 = cpu_fpu s.
Proof.
  intros Hwf Hc Hal He Hne Hub. assert (Hcb : (c < MAX_PROCESSES)%nat) by (destruct (wf_cur _ _ _ Hwf) as (x & ? & ?); congruence).
  destruct (do_switch_spec frame s rq sq c Hwf Hc) as (r & s' & He' & Hs). rewrite He in He'. injection He' as <- <-.
  pose proof (sw_cur _ _ _ _ _ _ _ Hs) as Hcur. destruct (sw_saved _ _ _ _ _ _ _ Hs) as [Hk Hf].
  destruct (until_back_context l c s1 _ _ _ r2 s2 (sw_wf _ _ _ _ _ _ _ Hs) Hcur) as [-> ->]; auto; [congruence|].
  rewrite Hf; [done|congruence|done].
Qed.

(** ** The initial state *)

Lemma boot_wf s f :
  processes s = alter f 0%nat (replicate MAX_PROCESSES zero_process) ->
  state (f zero_process) = PROC_RUNNING -> pid (f zero_process) = 0 -> next (f zero_process) = None ->
  ready_queue s = Some 0%nat -> ready_queue_tail s = Some 0%nat -> sleep_queue s = None -> current s = Some 0%nat ->
  sched_initialized s = true -> sched_locked s = false ->
  sched_wf s [0%nat] [] /\ running s 0.
Proof.
  intros Hp Hst Hpid Hn Hr Ht Hs Hc Hin Hlk.
  assert (Hz : (0 < MAX_PROCESSES)%nat) by (unfold MAX_PROCESSES; lia).
  assert (H0 : proc s 0 = f zero_process).
  { unfold proc. rewrite Hp, nth_lookup, list_lookup_alter_eq, lookup_replicate_2 by done. done. }
  assert (Hi : forall i, i <> 0%nat -> proc s i = zero_process).
  { intros i Hi. unfold proc. rewrite Hp, nth_lookup, list_lookup_alter_ne by done.
    destruct (replicate _ _ !! i) eqn:E; [|done]. apply lookup_replicate in E as [-> _]. done. }
  split; [|split; [done|by rewrite H0]].
  split; auto.
  - split; [by rewrite Hp, length_alter, length_replicate|simpl; by rewrite H0|done|done|apply NoDup_singleton|].
    apply Forall_singleton. exact Hz.
  - by exists 0%nat.
  - by rewrite H0.
  - intros i ->%list_elem_of_singleton. by left.
  - intros i Hin'. by apply not_elem_of_nil in Hin'.
  - intros i Hb Hrd. destruct (decide (i = 0%nat)) as [->|Hne]; [by left|]. by rewrite Hi in Hrd.
  - intros i Hb Hrd. destruct (decide (i = 0%nat)) as [->|Hne]; [rewrite H0, Hst in Hrd; done|]. by rewrite Hi in Hrd.
  - intros i Hb Hrd. destruct (decide (i = 0%nat)) as [->|Hne]; [by left|]. by rewrite Hi in Hrd.
  - intros i Hb Hne Hrd. by rewrite Hi in Hrd.
  - constructor.
Qed.

(** A booted scheduler with two more processes, ready in slots 1 and 2. *)
Definition demo_idle (p : process) : process := set_ticks_left 10 (set_cr3 0x1000 (set_state PROC_RUNNING p)).
Definition demo_boot : sched :=
  Sched (alter demo_idle 0%nat (replicate MAX_PROCESSES zero_process)) (Some 0%nat) (Some 0%nat) (Some 0%nat) None
    3 1 false false true 0 0 0 false (replicate 512 0) [7] 0x1000 0 0.
Definition demo_thread (i : nat) (p : process) : process :=
  set_fpu_context [Z.of_nat i + 8] (set_kstack_top 5000 (set_cr3 0x1000
    (set_state PROC_READY (set_pid (Z.of_nat i) zero_process)))).
Definition demo_add (i : nat) (s : sched) : sched := default s (enqueue_ready i (modify i (demo_thread i) s)).
Definition demo_sched : sched := demo_add 2 (demo_add 1 demo_boot).

Lemma demo_add_wf i s rq :
  sched_wf s rq [] -> running s 0 -> i <> 0%nat -> (i < MAX_PROCESSES)%nat -> state (proc s i) = PROC_UNUSED ->
  sched_wf (demo_add i s) (rq ++ [i]) [] /\ running (demo_add i s) 0.
Proof.
  intros Hwf [Hc Hr] H0 Hi Hst. pose proof (q_len _ _ _ (wf_q _ _ _ Hwf)) as Hlen.
  assert (Hp : proc (modify i (demo_thread i) s) i = demo_thread i (proc s i)) by (apply proc_modify_eq; lia).
  destruct (wf_publish s (modify i (demo_thread i) s) rq [] i Hwf H0 Hi) as (s' & He & Hwf' & Hch).
  - by left.
  - apply lc_modify.
  - by rewrite Hp.
  - rewrite Hp. simpl. lia.
  - unfold demo_add. rewrite He. change (default s (Some s')) with s'. split; [exact Hwf'|]. split.
    + by rewrite (ch_global current _ _ s' (fun _ => eq_refl) Hch).
    + rewrite (ch_field state _ _ s' (fun _ => eq_refl) Hch) by (unfold MAX_PROCESSES; lia). unfold nochange. by rewrite proc_modify_ne.
Qed.

Lemma demo_sched_wf : sched_wf demo_sched [0%nat; 1%nat; 2%nat] [] /\ running demo_sched 0.
Proof.
  destruct (boot_wf demo_boot demo_idle) as [Hwf Hr]; try reflexivity.
  destruct (demo_add_wf 1 demo_boot [0%nat] Hwf Hr) as [Hwf1 Hr1]; [done|unfold MAX_PROCESSES; lia|reflexivity|].
  apply (demo_add_wf 2 _ _ Hwf1 Hr1); [done|unfold MAX_PROCESSES; lia|reflexivity].
Qed.


Lemma sched_do_switch_refines_witness :
  exists r s', sched_do_switch 100 demo_sched = Some (r, s') /\ current s' = Some 0%nat /\ sched_wf s' [1%nat; 2%nat] [].
Proof.
  destruct (sched_do_switch_refines 100 demo_sched [0%nat; 1%nat; 2%nat] [] 0 (proj1 demo_sched_wf) eq_refl)
    as (r & s' & He & Hs). exists r, s'. split; [exact He|]. split; [exact (sw_cur _ _ _ _ _ _ _ Hs)|].
  exact (sw_wf _ _ _ _ _ _ _ Hs).
Defined.

Lemma sched_wakeup_exact_witness :
  exists s', sched_wakeup 77 demo_sched = Some s' /\ current s' = current demo_sched.
Proof.
  destruct (sched_wakeup_exact 77 demo_sched [0%nat; 1%nat; 2%nat] [] (proj1 demo_sched_wf)) as (s' & He & _ & Hc & _).
  exists s'. split; [exact He|exact Hc].
Defined.

Lemma sched_fair_witness :
  exists ops1 ops2 s', [OPreempt 100; OTick; OPreempt 200] = ops1 ++ ops2 /\ exec ops1 demo_sched = Some s' /\ running s' 1.
Proof.
  apply (sched_fair [OPreempt 100; OTick; OPreempt 200] demo_sched [0%nat; 1%nat; 2%nat] [] 0 1 1 (proj1 demo_sched_wf)
    (proj2 demo_sched_wf) eq_refl).
  vm_compute. lia.
Defined.

(** Process 1 runs, is preempted by process 2 and runs again. *)
Definition demo_next (frame : Z) (s : sched) : sched := default s (snd <$> sched_do_switch frame s).

Lemma sched_context_restored_witness :
  let s := demo_next 200 (demo_next 100 demo_sched) in
  exists s1 s2, sched_do_switch 300 s = Some (5000, s1) /\
    until_back 1 [(400, [8])] s1 = Some (300, s2) /\ cpu_fpu s2 = [9].
Proof.
  destruct (do_switch_spec 100 demo_sched [0%nat; 1%nat; 2%nat] [] 0 (proj1 demo_sched_wf) eq_refl) as (r & s & He & Hs).
  destruct (do_switch_spec 200 s _ _ 0 (sw_wf _ _ _ _ _ _ _ Hs) (sw_cur _ _ _ _ _ _ _ Hs)) as (r' & s' & He' & Hs').
  assert (Hd : demo_next 200 (demo_next 100 demo_sched) = s').
  { unfold demo_next at 2. rewrite He. simpl. unfold demo_next. by rewrite He'. }
  set (d := demo_next 200 (demo_next 100 demo_sched)).
  assert (H1 : (fst <$> sched_do_switch 300 d) = Some 5000) by (vm_compute; reflexivity).
  destruct (sched_do_switch 300 d) as [[r1 s1]|] eqn:E1; [|discriminate H1]. injection H1 as ->.
  assert (H2 : (fst <$> (x ← sched_do_switch 300 d; until_back 1 [(400, [8])] x.2)) = Some 300) by (vm_compute; reflexivity).
  rewrite E1 in H2. cbn [mbind option_bind snd] in H2.
  destruct (until_back 1 [(400, [8])] s1) as [[r2 s2]|] eqn:E2; [|discriminate H2]. injection H2 as ->.
  exists s1, s2. split; [exact E1|]. split; [exact E2|].
  assert (Hwf : sched_wf d _ _) by (unfold d; rewrite Hd; apply (sw_wf _ _ _ _ _ _ _ Hs')).
  destruct (sched_context_restored 300 [(400, [8])] d _ _ 1 5000 s1 300 s2 Hwf) as [_ ->]; auto.
  - assert (H3 : ((fun x => current x.2) <$> sched_do_switch 300 d) = Some (Some 2%nat)) by (vm_compute; reflexivity).
    rewrite E1 in H3. injection H3 as ->. done.
Defined.

(** ** Behaviour outside the invariant

    [sched_kill] and [sched_wake_irq] set a state without moving the process between
    the queues, and [sched_sleep] sets it before it disables interrupts. *)

(** A process killed while it is ready stays in the ready queue; it is run again, as a
    running process. *)
Example killed_process_runs_again :
  let '(r, s) := sched_kill 1 (demo_next 100 demo_sched) in
  r = 0 /\ state (proc s 1) = PROC_ZOMBIE /\
  let s' := demo_next 200 s in current s' = Some 1%nat /\ state (proc s' 1) = PROC_RUNNING.
Proof. vm_compute. auto. Qed.

(** A timer interrupt with a switch between the two parts of [sched_sleep]: the process
    is asleep and in no queue, so no later time wakes it. *)
Example sleeper_lost :
  let s := sleep_mark 5 1 (demo_next 200 (demo_next 100 demo_sched)) in
  let s := demo_next 300 s in
  state (proc s 1) = PROC_SLEEPING /\ sleep_queue s = None /\
  let s := demo_next 400 (set_pit_ticks 1000 s) in
  state (proc s 1) = PROC_SLEEPING /\ ready_queue s = None.
Proof. vm_compute. auto. Qed.

(** An interrupt a blocked process waits for marks it ready but does not enqueue it. *)
Example irq_waiter_not_enqueued :
  let s := modify 1 (set_irq_mask 2) (demo_next 200 (demo_next 100 demo_sched)) in
  let s := default s (snd <$> sched_block_on 77 300 s) in
  let s := sched_wake_irq 1 s in
  state (proc s 1) = PROC_READY /\ ready_queue s = None /\ current s = Some 2%nat.
Proof. vm_compute. auto. Qed.

(** * Creating a process *)

(** From [k] to [k'] at most process [i] of the scheduler has changed. *)
Record kchange (i : nat) (k k' : kern) : Prop := {
  kc_proc : forall j, j <> i -> prc k' j = prc k j;
  kc_len : length (processes (sc k')) = length (processes (sc k));
  kc_glob : globals (set_next_pid 0 (sc k')) = globals (set_next_pid 0 (sc k));
  kc_queue : ready_queue (sc k') = ready_queue (sc k) /\ ready_queue_tail (sc k') = ready_queue_tail (sc k) /\
    sleep_queue (sc k') = sleep_queue (sc k) }.

Lemma kc_refl i k : kchange i k k.
Proof. by split. Qed.

Lemma kc_trans i k1 k2 k3 : kchange i k1 k2 -> kchange i k2 k3 -> kchange i k1 k3.
Proof.
  intros [H1 H2 H3 (A & B & C)] [K1 K2 K3 (A' & B' & C')]. split; [|congruence|congruence|repeat split; congruence].
  intros j Hj. by rewrite K1, H1.
Qed.

Lemma kc_mod i f k : kchange i k (mod_proc i f k).
Proof. split; [|apply length_modify|done|done]. intros j Hj. apply proc_modify_ne. congruence. Qed.

Lemma kc_sc i k k' : sc k' = sc k -> kchange i k k'.
Proof. intros He. unfold prc. split; unfold prc; rewrite ?He; done. Qed.

Lemma kc_local i k k' : kchange i k k' -> local_change i (sc k) (sc k').
Proof.
  intros [Hp Hl Hg (Hr & Ht & Hs)]. unfold prc in Hp. split; [|done| |].
  - intros j Hj. by rewrite Hp.
  - intros j _ Hj. by rewrite Hp.
  - pose proof (f_equal current Hg). pose proof (f_equal sched_initialized Hg). pose proof (f_equal sched_locked Hg). done.
Qed.

Lemma prc_mod_eq i f k : (i < length (processes (sc k)))%nat -> prc (mod_proc i f k) i = f (prc k i).
Proof. apply proc_modify_eq. Qed.

Lemma prc_mod_ne i j f k : j <> i -> prc (mod_proc i f k) j = prc k j.
Proof. intros. apply proc_modify_ne. congruence. Qed.

#[local] Hint Resolve kc_refl kc_mod : core.

Lemma find_slot_spec b s i : find_slot b s = Some i -> b (proc s i) = true /\ (i < MAX_PROCESSES)%nat.
Proof. intros Hf. apply find_some in Hf as [Hi Hb]. apply in_seq in Hi. split; [done|lia]. Qed.

(** The steps that a child goes through, with the fields they leave in it. *)
Section child.
Context (fb_phys fb_size : Z) (parent child : nat).

Lemma child_init_spec n k :
  parent <> child -> length (processes (sc k)) = MAX_PROCESSES -> (child < MAX_PROCESSES)%nat ->
  let k' := child_init n parent child k in
  kchange child k k' /\ hp k' = hp k /\ pg k' = pg k /\
  prc k' child = set_ticks_left time_slice (set_state PROC_READY (set_chroot_path (chroot_path (prc k parent))
    (set_name (take n (name (prc k parent))) (set_ppid (pid (prc k parent)) (set_pid (next_pid (sc k)) (prc k child)))))).
Proof.
  intros Hne Hlen Hcb. unfold child_init, alloc_pid. cbv zeta. set (s1 := if 10000 <=? _ then _ else _).
  assert (Hs1 : kchange child k (set_sc s1 k)) by (split; unfold s1; destruct (_ <=? _); done).
  assert (Hl1 : length (processes s1) = MAX_PROCESSES) by (unfold s1; destruct (_ <=? _); done).
  assert (Hp1 : forall j, proc s1 j = prc k j) by (intros j; unfold s1; destruct (_ <=? _); done).
  split; [|split; [done|split; [done|]]].
  - repeat (eapply kc_trans; [|apply kc_mod]). done.
  - rewrite !prc_mod_eq, !prc_mod_ne by (done || (rewrite ?length_modify; simpl; rewrite ?length_alter, Hl1; done)).
    unfold prc. simpl. by rewrite !Hp1.
Qed.

Lemma child_space_spec k ok k' :
  length (processes (sc k)) = MAX_PROCESSES -> (child < MAX_PROCESSES)%nat ->
  child_space fb_phys fb_size parent child k = (ok, k') ->
  kchange child k k' /\ hp k' = hp k /\
  (ok = true -> exists v, prc k' child = set_cr3 v (prc k child) /\
     (cr3 (prc k parent) = 0x1000 -> v = 0x1000) /\ v <> 0) /\
  (ok = false -> state (prc k' child) = PROC_UNUSED).
Proof.
  intros Hlen Hcb. unfold child_space. destruct (Z.eqb_spec (cr3 (prc k parent)) 0x1000) as [He|Hn].
  - intros [= <- <-]. split; [done|]. split; [done|]. split; [|done]. intros _. exists 0x1000.
    rewrite prc_mod_eq, He by lia. done.
  - destruct (copy_address_space _ _ _ _) as [cas p]. cbv zeta.
    destruct (Z.eqb_spec cas 0) as [->|Hcas]; intros [= <- <-].
    + split; [apply (kc_trans _ _ (set_pg p k)); [by apply kc_sc|done]|]. split; [done|]. split; [done|]. intros _.
      rewrite prc_mod_eq by (simpl; lia). done.
    + split; [apply (kc_trans _ _ (set_pg p k)); [by apply kc_sc|done]|]. split; [done|]. split; [|done]. intros _. exists cas.
      rewrite prc_mod_eq by (simpl; lia). split; [done|]. split; [done|lia].
Qed.

Lemma child_stack_spec k fl al mg :
  length (processes (sc k)) = MAX_PROCESSES -> (child < MAX_PROCESSES)%nat -> heap_inv (hp k) fl al mg ->
  exists ok k', child_stack child k = Some (ok, k') /\ kchange child k k' /\
  (ok = true -> exists ks, ks <> 0 /\ prc k' child = set_kstack ks (prc k child) /\
     exists fl' al', heap_inv (hp k') fl' al' mg) /\
  (ok = false -> state (prc k' child) = PROC_UNUSED /\ hp k' = hp k).
Proof.
  intros Hlen Hcb Hinv. unfold child_stack.
  pose proof (kmalloc_first_fit KERNEL_STACK_SIZE (hp k) fl al mg Hinv ltac:(unfold KERNEL_STACK_SIZE; lia)) as H.
  destruct (first_fit _ fl) as [[b fl']|] eqn:Ef.
  - destruct H as (h & Hk & Hinv' & _). rewrite Hk. cbn [mbind option_bind]. cbv zeta.
    pose proof Hinv' as [_ _ _ Hwf _ _ _ _ _]. apply Forall_app in Hwf as [_ Hwf].
    apply Forall_cons in Hwf as [(Hb0 & _) _]. unfold sizeof_block_header. rewrite (proj2 (Z.eqb_neq _ 0)) by lia.
    eexists true, _. split; [done|]. split; [apply (kc_trans _ _ (set_hp h k)); [by apply kc_sc|done]|].
    split; [|done]. intros _. exists (b.1 + 24). split; [lia|]. rewrite prc_mod_eq by (simpl; lia). split; [done|]. by exists fl', (b :: al).
  - rewrite H. cbn [mbind option_bind]. cbv zeta. rewrite Z.eqb_refl. eexists false, _. split; [done|].
    set (k1 := mod_proc child (set_kstack 0) (set_hp (hp k) k)).
    assert (H1 : kchange child k k1) by (apply (kc_trans _ _ (set_hp (hp k) k)); [by apply kc_sc|apply kc_mod]).
    set (k2 := if negb _ then _ else k1). assert (H2 : sc k2 = sc k1) by (unfold k2; by destruct (negb _)).
    assert (Hh2 : hp k2 = hp k) by (unfold k2; by destruct (negb _)).
    split; [apply (kc_trans _ _ k1); [done|]; apply (kc_trans _ _ k2); [by apply kc_sc|done]|]. split; [done|]. intros _.
    rewrite prc_mod_eq; [done|]. rewrite H2, (kc_len _ _ _ H1). lia.
Qed.
End child.

(** Only process [i] has changed, and it is free again. *)
Lemma wf_failed i k k' rq sq :
  sched_wf (sc k) rq sq -> state (prc k i) = PROC_UNUSED -> kchange i k k' -> state (prc k' i) = PROC_UNUSED ->
  sched_wf (sc k') rq sq.
Proof.
  intros Hwf Hst Hc Hu. assert (H0 : i <> 0%nat) by (intros ->; destruct (wf_idle _ _ _ Hwf); unfold prc in Hst; congruence).
  apply (wf_park (sc k) (sc k') rq sq i Hwf H0); [|by apply kc_local|by left|done].
  apply (out_of_queues _ _ _ i Hwf H0). left. by left.
Qed.

Lemma publish_spec i k k' rq sq :
  sched_wf (sc k) rq sq -> (i < MAX_PROCESSES)%nat -> state (prc k i) = PROC_UNUSED -> kchange i k k' ->
  state (prc k' i) = PROC_READY -> pid (prc k' i) <> 0 ->
  exists k'', publish i k' = Some (pid (prc k' i), k'') /\ sched_wf (sc k'') (rq ++ [i]) sq /\
    unlink (prc k'' i) = unlink (prc k' i) /\
    (forall j, (j < MAX_PROCESSES)%nat -> j <> i -> unlink (prc k'' j) = unlink (prc k j)) /\
    process_count (sc k'') = u32 (process_count (sc k) + 1) /\ hp k'' = hp k'.
Proof.
  intros Hwf Hib Hst Hc Hr Hp. assert (H0 : i <> 0%nat) by (intros ->; destruct (wf_idle _ _ _ Hwf); unfold prc in Hst; congruence).
  destruct (wf_publish (sc k) (sc k') rq sq i Hwf H0 Hib) as (s' & He & Hwf' & Hch); [by left|by apply kc_local|done|done|].
  unfold publish. rewrite He. cbn [mbind option_bind]. cbv zeta.
  pose proof (ch_field pid _ _ s' (fun _ => eq_refl) Hch i Hib) as Hpid. unfold nochange in Hpid.
  set (s2 := set_process_count _ s'). change (pid (proc s2 i)) with (pid (proc s' i)). rewrite Hpid.
  eexists. split; [done|]. split; [by eapply wf_view; [exact Hwf'|split]|]. split; [by apply (ch_proc _ _ _ Hch)|]. split; [|split; [|done]].
  - intros j Hj Hne. rewrite <- (kc_proc _ _ _ Hc j Hne). by apply (ch_proc _ _ _ Hch).
  - simpl. rewrite (ch_global process_count _ _ s' (fun _ => eq_refl) Hch). f_equal.
    pose proof (f_equal process_count (kc_glob _ _ _ Hc)) as Hpc. simpl in Hpc. lia.
Qed.

(** The files, FPU state and heap bounds of the parent. *)
Lemma child_files_spec parent child k : parent <> child -> length (processes (sc k)) = MAX_PROCESSES -> (child < MAX_PROCESSES)%nat ->
  let k' := child_files parent child (child_copy parent child k) in
  kchange child k k' /\ hp k' = hp k /\
  prc k' child = set_fpu_context (fpu_context (prc k parent)) (set_fds (fds (prc k parent))
    (set_heap_end (heap_end (prc k parent)) (set_heap_start (heap_start (prc k parent)) (prc k child)))).
Proof.
  intros Hne Hl Hcb. unfold child_files, child_copy. cbv zeta. split; [repeat (eapply kc_trans; [|apply kc_mod]); done|]. split; [done|].
  by rewrite !prc_mod_eq, !prc_mod_ne by (done || (simpl; rewrite ?length_alter, Hl; done)).
Qed.

(** The frame the child returns through, and the guard page of its stack. *)
Lemma fork_enter_spec child a f rip rsp k : length (processes (sc k)) = MAX_PROCESSES -> (child < MAX_PROCESSES)%nat ->
  let k1 := mod_proc child (set_user_rsp rsp) (mod_proc child (set_user_rip rip) (on_ram f (mod_proc child (set_kstack_top a) k))) in
  let k2 := if negb (cr3 (prc k1 child) =? 0x1000) then on_phys (map_guard (cr3 (prc k1 child))) k1 else k1 in
  kchange child k k2 /\ prc k2 child = set_user_rsp rsp (set_user_rip rip (set_kstack_top a (prc k child))).
Proof.
  intros Hl Hcb k1 k2.
  assert (H1 : kchange child k k1).
  { unfold k1. apply (kc_trans _ _ (mod_proc child (set_kstack_top a) k)); [apply kc_mod|].
    eapply kc_trans; [|apply kc_mod]. eapply kc_trans; [|apply kc_mod]. by apply kc_sc. }
  assert (Hp1 : prc k1 child = set_user_rsp rsp (set_user_rip rip (set_kstack_top a (prc k child)))).
  { unfold k1. rewrite !prc_mod_eq by (simpl; rewrite ?length_alter, Hl; done). f_equal. f_equal.
    change (prc (mod_proc child (set_kstack_top a) k) child = set_kstack_top a (prc k child)). rewrite prc_mod_eq; [done|]. by rewrite Hl. }
  assert (Hs2 : sc k2 = sc k1) by (unfold k2; by destruct (negb _)).
  split; [apply (kc_trans _ _ k1); [done|by apply kc_sc]|]. unfold prc in *. by rewrite Hs2.
Qed.


(** ** Waiting for a process *)

(** When the process with pid [p] has ended, [sched_waitpid] returns at once with its
    pid and exit code; its slot is free again, its kernel stack goes back to the heap
    (its block leaves the live blocks), the scheduler stays well formed and no other
    process changes. *)
Theorem sched_waitpid_reaps fuel run p k rq sq i fl al1 b al2 mg :
  sched_wf (sc k) rq sq ->
  find_slot (fun q => (pid q =? p) && is_state (state q) PROC_ZOMBIE) (sc k) = Some i ->
  heap_inv (hp k) fl (al1 ++ b :: al2) mg -> kstack (prc k i) = b.1 + sizeof_block_header ->
  exists k', sched_waitpid (S fuel) run p k = Some (i32 p, Some (exit_code (prc k i)), k') /\
    sched_wf (sc k') rq sq /\ state (prc k' i) = PROC_UNUSED /\
    heap_inv (hp k') (insert_free b fl) (al1 ++ al2) mg /\
    forall j, j <> i -> prc k' j = prc k j.
Proof.
  intros Hwf Hf Hinv Hks. cbn [sched_waitpid]. rewrite (wf_init _ _ _ Hwf). cbn [negb]. unfold reap. rewrite Hf.
  apply find_slot_spec in Hf as [Hz Hib]. apply andb_true_iff in Hz as [_ Hz].
  destruct (is_state_spec (state (proc (sc k) i)) PROC_ZOMBIE) as [Hst|]; [|done]. rewrite Hks.
  assert (Hb : 0 < b.1).
  { pose proof (inv_wf _ _ _ _ Hinv) as Hw. rewrite !Forall_app, Forall_cons in Hw. by destruct Hw as (_ & _ & (? & _) & _). }
  unfold nz. rewrite (proj2 (Z.eqb_neq (b.1 + sizeof_block_header) 0)) by (unfold sizeof_block_header; lia). cbn [negb]. cbv zeta.
  change (hp (mod_proc i _ k)) with (hp k). destruct (kfree_insert_free _ _ _ _ _ _ Hinv) as (h & -> & Hinv' & _).
  cbn [mbind option_bind]. set (k1 := set_hp h _). set (k2 := if _ && _ then _ else k1).
  assert (Hs2 : sc k2 = sc k1 /\ hp k2 = h) by (unfold k2; by destruct (_ && _)).
  assert (Hc : kchange i k k2).
  { apply (kc_trans _ _ k1); [|by apply kc_sc; apply Hs2]. eapply kc_trans; [apply kc_mod|]. by apply kc_sc. }
  exists k2. split; [done|]. assert (Hu : prc k2 i = set_state PROC_UNUSED (set_cr3 0 (set_kstack_top 0 (set_kstack 0 (prc k i))))).
  { unfold prc. rewrite (proj1 Hs2). apply proc_modify_eq. by rewrite (q_len _ _ _ (wf_q _ _ _ Hwf)). }
  assert (H0 : i <> 0%nat) by (intros ->; destruct (wf_idle _ _ _ Hwf); congruence).
  split; [|split; [by rewrite Hu|split; [by rewrite (proj2 Hs2)|apply Hc]]].
  apply (wf_park (sc k) (sc k2) rq sq i Hwf H0); [|by apply kc_local|left; fold (prc k2 i); by rewrite Hu|].
  - apply (out_of_queues _ _ _ i Hwf H0). left. right; by right.
  - intros Hn. destruct Hn. fold (prc k2 i). by rewrite Hu.
Qed.

(** ** Witnesses *)

Definition demo_big_heap : heap := default heap0 (memory_init 65536 65536 heap0).

Lemma demo_big_inv : heap_inv demo_big_heap [(65536, 65512)] [] 65536.
Proof.
  destruct (memory_init_inv 65536 65536 heap0) as (s & Hm & Hinv & _); try done.
  unfold demo_big_heap. rewrite Hm. exact Hinv.
Qed.

Definition demo_kern : kern := Kern demo_sched demo_big_heap (Paging demo_phys 24576 []) (false, []).
Definition demo_trap : trap_frame := TrapFrame 1 2 3 4 5 6 7 8 9 10 11 12 13 0x40001000 0x202 0x3FFFFFF000.


(** Process 1 has ended with code 42; its stack is the live block of the heap. *)
Definition demo_zombie (p : process) : process :=
  set_kstack 65560 (set_exit_code 42 (set_state PROC_ZOMBIE (set_pid 1 p))).
Definition demo_dead : kern :=
  Kern (modify 1 demo_zombie demo_boot) (default heap0 (snd <$> kmalloc KERNEL_STACK_SIZE demo_big_heap))
    (Paging demo_phys 24576 []) (false, []).

Lemma demo_dead_wf : sched_wf (sc demo_dead) [0%nat] [].
Proof.
  destruct (boot_wf demo_boot demo_idle) as [Hwf _]; try reflexivity.
  apply (wf_park demo_boot _ [0%nat] [] 1 Hwf); [done| |apply lc_modify|right; right; reflexivity|done].
  intros H%list_elem_of_singleton. done.
Qed.

Lemma demo_dead_heap :
  heap_inv (hp demo_dead) [(81944, 49104)] ([] ++ (65536, 16384) :: []) 65536.
Proof.
  pose proof (kmalloc_first_fit KERNEL_STACK_SIZE demo_big_heap _ _ _ demo_big_inv ltac:(unfold KERNEL_STACK_SIZE; lia)) as H.
  vm_compute first_fit in H. destruct H as (s & Hk & Hinv & _).
  unfold demo_dead, hp. rewrite Hk. exact Hinv.
Qed.

Lemma sched_waitpid_reaps_witness :
  exists k', sched_waitpid 1 Some 1 demo_dead = Some (1, Some 42, k') /\ state (prc k' 1) = PROC_UNUSED.
Proof.
  destruct (sched_waitpid_reaps 0 Some 1 demo_dead [0%nat] [] 1 [(81944, 49104)] [] (65536, 16384) [] 65536 demo_dead_wf)
    as (k' & He & _ & Hs & _).
  - vm_compute. reflexivity.
  - exact demo_dead_heap.
  - vm_compute. reflexivity.
  - exists k'. split; [exact He|exact Hs].
Defined.
