(* ===== verification/Unix.v ===== *)
(** * Local sockets: kernel/core/unix.c

    The table of sockets, the descriptors of the current process and the scheduler
    the calls block in.  A [unix_socket_t*] is an index of the table; the pointers
    that are stored in descriptors and used as channels of the scheduler are the
    addresses [sock_ptr].  A call that blocks hands over to [run], the rest of the
    system until the caller is scheduled again; the loops around it take fuel. *)

From S2P Require Import Prelude Mem KMalloc Sched.

(** ** Data (unix.h) *)

Definition UNIX_MAX_PATH : nat := 108.
Definition UNIX_BUF_SIZE : Z := 4096.
Definition MAX_UNIX_SOCKETS : nat := 64.
Definition FD_TYPE_UNIX : Z := 3.
#[global] Arguments MAX_UNIX_SOCKETS : simpl never.
#[global] Arguments UNIX_MAX_PATH : simpl never.

(** [path] is the characters before the terminator. *)
Record unix_socket := UnixSocket {
  id : Z;
  path : list Z;
  listening : bool;
  connected : bool;
  closed : bool;
  peer : option nat;
  write_buf : list Z;
  write_pos : Z;
  write_len : Z;
  backlog : list (option nat);
  backlog_count : Z;
  backlog_head : Z;
  backlog_tail : Z }.

Definition set_id (v : Z) (r : unix_socket) : unix_socket :=
    UnixSocket v (path r) (listening r) (connected r) (closed r) (peer r) (write_buf r)
    (write_pos r) (write_len r) (backlog r) (backlog_count r) (backlog_head r) (backlog_tail r).
Definition set_path (v : list Z) (r : unix_socket) : unix_socket :=
    UnixSocket (id r) v (listening r) (connected r) (closed r) (peer r) (write_buf r) (write_pos
    r) (write_len r) (backlog r) (backlog_count r) (backlog_head r) (backlog_tail r).
Definition set_listening (v : bool) (r : unix_socket) : unix_socket :=
    UnixSocket (id r) (path r) v (connected r) (closed r) (peer r) (write_buf r) (write_pos r)
    (write_len r) (backlog r) (backlog_count r) (backlog_head r) (backlog_tail r).
Definition set_connected (v : bool) (r : unix_socket) : unix_socket :=
    UnixSocket (id r) (path r) (listening r) v (closed r) (peer r) (write_buf r) (write_pos r)
    (write_len r) (backlog r) (backlog_count r) (backlog_head r) (backlog_tail r).
Definition set_closed (v : bool) (r : unix_socket) : unix_socket :=
    UnixSocket (id r) (path r) (listening r) (connected r) v (peer r) (write_buf r) (write_pos
    r) (write_len r) (backlog r) (backlog_count r) (backlog_head r) (backlog_tail r).
Definition set_peer (v : option nat) (r : unix_socket) : unix_socket :=
    UnixSocket (id r) (path r) (listening r) (connected r) (closed r) v (write_buf r) (write_pos
    r) (write_len r) (backlog r) (backlog_count r) (backlog_head r) (backlog_tail r).
Definition set_write_buf (v : list Z) (r : unix_socket) : unix_socket :=
    UnixSocket (id r) (path r) (listening r) (connected r) (closed r) (peer r) v (write_pos r)
    (write_len r) (backlog r) (backlog_count r) (backlog_head r) (backlog_tail r).
Definition set_write_pos (v : Z) (r : unix_socket) : unix_socket :=
    UnixSocket (id r) (path r) (listening r) (connected r) (closed r) (peer r) (write_buf r) v
    (write_len r) (backlog r) (backlog_count r) (backlog_head r) (backlog_tail r).
Definition set_write_len (v : Z) (r : unix_socket) : unix_socket :=
    UnixSocket (id r) (path r) (listening r) (connected r) (closed r) (peer r) (write_buf r)
    (write_pos r) v (backlog r) (backlog_count r) (backlog_head r) (backlog_tail r).
Definition set_backlog (v : list (option nat)) (r : unix_socket) : unix_socket :=
    UnixSocket (id r) (path r) (listening r) (connected r) (closed r) (peer r) (write_buf r)
    (write_pos r) (write_len r) v (backlog_count r) (backlog_head r) (backlog_tail r).
Definition set_backlog_count (v : Z) (r : unix_socket) : unix_socket :=
    UnixSocket (id r) (path r) (listening r) (connected r) (closed r) (peer r) (write_buf r)
    (write_pos r) (write_len r) (backlog r) v (backlog_head r) (backlog_tail r).
Definition set_backlog_head (v : Z) (r : unix_socket) : unix_socket :=
    UnixSocket (id r) (path r) (listening r) (connected r) (closed r) (peer r) (write_buf r)
    (write_pos r) (write_len r) (backlog r) (backlog_count r) v (backlog_tail r).
Definition set_backlog_tail (v : Z) (r : unix_socket) : unix_socket :=
    UnixSocket (id r) (path r) (listening r) (connected r) (closed r) (peer r) (write_buf r)
    (write_pos r) (write_len r) (backlog r) (backlog_count r) (backlog_head r) v.

Definition zero_socket : unix_socket :=
  UnixSocket 0 [] false false false None (replicate 4096 0) 0 0 (replicate 16 None) 0 0 0.

Record ustate := UState { sockets : list unix_socket; next_socket_id : Z; us : sched }.

Definition set_us (s : sched) (st : ustate) : ustate := UState (sockets st) (next_socket_id st) s.
Definition sock (st : ustate) (i : nat) : unix_socket := nth i (sockets st) zero_socket.
Definition upd (i : nat) (f : unix_socket -> unix_socket) (st : ustate) : ustate :=
  UState (alter f i (sockets st)) (next_socket_id st) (us st).

Definition unix_init (st : ustate) : ustate :=
  UState (replicate MAX_UNIX_SOCKETS zero_socket) (next_socket_id st) (us st).

Definition list_eqb (l1 l2 : list Z) : bool := bool_decide (l1 = l2).

Definition bound_to (p : list Z) (s : unix_socket) : bool :=
  negb (id s =? 0) && negb (closed s) && negb (list_eqb (path s) []) && list_eqb (path s) p.

Definition find_socket_by_path (p : list Z) (st : ustate) : option nat :=
  find (fun i => bound_to p (sock st i)) (seq 0 MAX_UNIX_SOCKETS).

Definition alloc_socket (st : ustate) : option nat * ustate :=
  match find (fun i => id (sock st i) =? 0) (seq 0 MAX_UNIX_SOCKETS) with
  | None => (None, st)
  | Some i =>
      (Some i, UState (alter (fun _ => set_id (next_socket_id st) zero_socket) i (sockets st))
                      (i32 (next_socket_id st + 1)) (us st))
  end.

(** ** Descriptors *)

Section unix.
(** The address of the table, the frame pushed at a switch, and the rest of the
    system between a block and the return to the caller. *)
Variables (sockets_addr frame : Z) (run : ustate -> option ustate).

Definition sizeof_socket : Z := 4384.
Definition sock_ptr (i : nat) : Z := sockets_addr + sizeof_socket * Z.of_nat i.
Definition sock_of_ptr (p : Z) : nat := Z.to_nat ((p - sockets_addr) / sizeof_socket).

(** The descriptor [fd] of process [c]. *)
Definition fd_of (c : nat) (fd : Z) (st : ustate) : option fd_entry :=
  if (fd <? 0) || (32 <=? fd) then None else fds (proc (us st) c) !! Z.to_nat fd.

(** The checks at the start of the calls: the current process and its socket. *)
Definition fd_socket (fd : Z) (st : ustate) : option (nat * nat) :=
  c ← current (us st);
  e ← fd_of c fd st;
  if (fd_used e =? 0) || negb (fd_type e =? FD_TYPE_UNIX) || (fd_data e =? 0) then None
  else Some (c, sock_of_ptr (fd_data e)).

(** The first free descriptor. *)
Definition free_fd (c : nat) (st : ustate) : option nat :=
  find (fun i => fd_used (nth i (fds (proc (us st) c)) fd_zero) =? 0) (seq 0 32).

Definition set_fd (c i : nat) (f : fd_entry -> fd_entry) (st : ustate) : ustate :=
  set_us (modify c (fun p => set_fds (alter f i (fds p)) p) (us st)) st.

Definition open_fd (i : nat) (e : fd_entry) : fd_entry :=
  FdEntry 1 FD_TYPE_UNIX (sock_ptr i) (fd_pos e) (fd_flags e).

Definition unix_socket_create (st : ustate) : Z * ustate :=
  let '(sk, st) := alloc_socket st in
  match sk with
  | None => (-1, st)
  | Some s =>
      match current (us st) with
      | None => (-1, st)
      | Some c =>
          match free_fd c st with
          | None => (-1, st)
          | Some i => (Z.of_nat i, set_fd c i (open_fd s) st)
          end
      end
  end.

Definition unix_bind (fd : Z) (p : list Z) (st : ustate) : Z * ustate :=
  match fd_socket fd st with
  | None => (-1, st)
  | Some (_, s) =>
      if closed (sock st s) then (-1, st) else
      match find_socket_by_path p st with
      | Some _ => (-1, st)
      | None => (0, upd s (set_path (take (UNIX_MAX_PATH - 1) p)) st)
      end
  end.

(** [backlog] is not used by the code. *)
Definition unix_listen (fd backlog : Z) (st : ustate) : Z * ustate :=
  match fd_socket fd st with
  | None => (-1, st)
  | Some (_, s) =>
      if closed (sock st s) then (-1, st) else
      if list_eqb (path (sock st s)) [] then (-1, st) else
      (0, upd s (fun k => set_backlog_tail 0 (set_backlog_head 0 (set_backlog_count 0 (set_listening true k)))) st)
  end.

(** ** Blocking calls *)

Definition block_on (channel : Z) (st : ustate) : option ustate :=
  '(_, s) ← sched_block_on channel frame (us st); run (set_us s st).

Definition wakeup (channel : Z) (st : ustate) : option ustate :=
  s ← sched_wakeup channel (us st); Some (set_us s st).

(** [while (sock->backlog_count == 0)] of [unix_accept]; [false] is [return -1]. *)
Fixpoint wait_client (fuel : nat) (s : nat) (st : ustate) : option (bool * ustate) :=
  match fuel with
  | O => None
  | S fuel =>
      if negb (backlog_count (sock st s) =? 0) then Some (true, st) else
      if closed (sock st s) then Some (false, st) else
      st ← block_on (sock_ptr s) st; wait_client fuel s st
  end.

(** Taking the oldest waiting client off the backlog. *)
Definition pop_client (s : nat) (st : ustate) : option nat * ustate :=
  let k := sock st s in
  (default None (backlog k !! Z.to_nat (backlog_head k)),
   upd s (fun k => set_backlog_count (backlog_count k - 1)
                     (set_backlog_head ((backlog_head k + 1) mod 16) k)) st).

Definition unix_accept (fuel : nat) (fd : Z) (st : ustate) : option (Z * ustate) :=
  match fd_socket fd st with
  | None => Some (-1, st)
  | Some (c, s) =>
      if closed (sock st s) || negb (listening (sock st s)) then Some (-1, st) else
      '(ok, st) ← wait_client fuel s st;
      if negb ok then Some (-1, st) else
      let '(cl, st) := pop_client s st in
      client ← cl;
      let '(ns, st) := alloc_socket st in
      match ns with
      | None => Some (-1, st)
      | Some n =>
          let st := upd n (fun k => set_peer (Some client) (set_connected true k)) st in
          let st := upd client (fun k => set_connected true (set_peer (Some n) k)) st in
          match free_fd c st with
          | None => Some (-1, upd n (set_closed true) st)
          | Some i =>
              st ← wakeup (sock_ptr client) (set_fd c i (open_fd n) st);
              Some (Z.of_nat i, st)
          end
      end
  end.

Definition push_client (server client : nat) (st : ustate) : ustate :=
  upd server (fun k =>
    let k := set_backlog (<[Z.to_nat (backlog_tail k) := Some client]> (backlog k)) k in
    let k := set_backlog_tail ((backlog_tail k + 1) mod 16) k in
    set_backlog_count (backlog_count k + 1) k) st.

(** [while (!sock->connected && !sock->closed)] *)
Fixpoint wait_connected (fuel : nat) (s : nat) (st : ustate) : option ustate :=
  match fuel with
  | O => None
  | S fuel =>
      if connected (sock st s) || closed (sock st s) then Some st else
      st ← block_on (sock_ptr s) st; wait_connected fuel s st
  end.

Definition unix_connect (fuel : nat) (fd : Z) (p : list Z) (st : ustate) : option (Z * ustate) :=
  match fd_socket fd st with
  | None => Some (-1, st)
  | Some (_, s) =>
      if closed (sock st s) then Some (-1, st) else
      match find_socket_by_path p st with
      | None => Some (-1, st)
      | Some server =>
          if negb (listening (sock st server)) then Some (-1, st) else
          if 16 <=? backlog_count (sock st server) then Some (-1, st) else
          st ← wakeup (sock_ptr server) (push_client server s st);
          st ← wait_connected fuel s st;
          Some ((if closed (sock st s) then -1 else 0), st)
      end
  end.

(** The copy loop of [unix_send]: the index does not depend on [i]. *)
Definition store_chunk (pr : nat) (chunk : list Z) (st : ustate) : ustate :=
  foldl (fun st b =>
           upd pr (fun k =>
             let idx := (write_pos k + write_len k) mod UNIX_BUF_SIZE in
             set_write_buf (<[Z.to_nat idx := u8 b]> (write_buf k)) k) st) st chunk.

(** [data] is the part of the buffer that is still to be sent. *)
Fixpoint send_loop (fuel : nat) (s pr : nat) (data : list Z) (written : Z) (st : ustate) : option (Z * ustate) :=
  match data with
  | [] => Some (written, st)
  | _ =>
      match fuel with
      | O => None
      | S fuel =>
          if UNIX_BUF_SIZE <=? write_len (sock st pr) then
            if closed (sock st pr) || closed (sock st s)
            then Some ((if 0 <? written then written else -1), st)
            else st ← block_on (sock_ptr pr) st; send_loop fuel s pr data written st
          else
            let space := UNIX_BUF_SIZE - write_len (sock st pr) in
            let to_copy := Z.min (Z.of_nat (length data)) space in
            let st := store_chunk pr (take (Z.to_nat to_copy) data) st in
            let st := upd pr (fun k => set_write_len (write_len k + to_copy) k) st in
            st ← wakeup (sock_ptr pr) st;
            send_loop fuel s pr (drop (Z.to_nat to_copy) data) (written + to_copy) st
      end
  end.

Definition unix_send (fuel : nat) (fd : Z) (data : list Z) (st : ustate) : option (Z * ustate) :=
  match fd_socket fd st with
  | None => Some (-1, st)
  | Some (_, s) =>
      if closed (sock st s) || negb (connected (sock st s)) then Some (-1, st) else
      match peer (sock st s) with
      | None => Some (-1, st)
      | Some pr =>
          if closed (sock st pr) then Some (-1, st) else send_loop fuel s pr data 0 st
      end
  end.

(** [while (sock->write_len == 0)]; [false] is [return 0]. *)
Fixpoint wait_data (fuel : nat) (s : nat) (st : ustate) : option (bool * ustate) :=
  match fuel with
  | O => None
  | S fuel =>
      if negb (write_len (sock st s) =? 0) then Some (true, st) else
      if closed (sock st s) || match peer (sock st s) with Some q => closed (sock st q) | None => false end
      then Some (false, st)
      else st ← block_on (sock_ptr s) st; wait_data fuel s st
  end.

(** The bytes read from the ring buffer. *)
Fixpoint recv_loop (n : nat) (k : unix_socket) : list Z * unix_socket :=
  match n with
  | O => ([], k)
  | S n =>
      if 0 <? write_len k then
        let b := default 0 (write_buf k !! Z.to_nat (write_pos k)) in
        let k := set_write_pos ((write_pos k + 1) mod UNIX_BUF_SIZE) k in
        let k := set_write_len (write_len k - 1) k in
        let '(l, k) := recv_loop n k in (b :: l, k)
      else ([], k)
  end.

Definition unix_recv (fuel : nat) (fd len : Z) (st : ustate) : option (Z * list Z * ustate) :=
  match fd_socket fd st with
  | None => Some (-1, [], st)
  | Some (_, s) =>
      if closed (sock st s) then Some (-1, [], st) else
      '(ok, st) ← wait_data fuel s st;
      if negb ok then Some (0, [], st) else
      let '(l, k) := recv_loop (Z.to_nat len) (sock st s) in
      let st := upd s (fun _ => k) st in
      st ← match peer (sock st s) with
           | Some q => if write_len (sock st s) <? UNIX_BUF_SIZE then wakeup (sock_ptr q) st else Some st
           | None => Some st
           end;
      Some (Z.of_nat (length l), l, st)
  end.

Definition unix_close (fd : Z) (st : ustate) : option (Z * ustate) :=
  match fd_socket fd st with
  | None => Some (-1, st)
  | Some (c, s) =>
      st ← wakeup (sock_ptr s) (upd s (set_closed true) st);
      st ← match peer (sock st s) with
           | Some q => wakeup (sock_ptr q) (upd q (set_peer None) st)
           | None => Some st
           end;
      Some (0, set_fd c (Z.to_nat fd) (fun e => FdEntry 0 (fd_type e) 0 (fd_pos e) (fd_flags e)) st)
  end.
End unix.

(** * Specification: the ring buffers as queues *)

(** The bytes waiting in the buffer, oldest first. *)
Definition ring (k : unix_socket) : list Z :=
  (fun i => nth (Z.to_nat ((write_pos k + i) mod UNIX_BUF_SIZE)) (write_buf k) 0) <$> seqZ 0 (write_len k).

Record buf_wf (k : unix_socket) : Prop := {
  bw_len : Z.of_nat (length (write_buf k)) = UNIX_BUF_SIZE;
  bw_pos : 0 <= write_pos k < UNIX_BUF_SIZE;
  bw_count : 0 <= write_len k <= UNIX_BUF_SIZE }.

Lemma ring_cons k :
  buf_wf k -> 0 < write_len k ->
  ring k = default 0 (write_buf k !! Z.to_nat (write_pos k)) ::
    ring (set_write_len (write_len k - 1) (set_write_pos ((write_pos k + 1) mod UNIX_BUF_SIZE) k)).
Proof.
  intros [Hl Hp Hc] Hlen. unfold ring. rewrite seqZ_cons by lia. cbn [fmap list_fmap]. f_equal.
  - rewrite Z.add_0_r, Z.mod_small by lia. apply nth_lookup.
  - cbn [write_pos write_len write_buf set_write_len set_write_pos]. change (Z.succ 0) with (1 + 0).
    rewrite <- (fmap_add_seqZ 1 0), <- list_fmap_compose, Z.sub_1_r. apply list_fmap_ext. intros i x _. unfold compose.
    f_equal. f_equal. rewrite Zplus_mod_idemp_l. f_equal. lia.
Qed.

Lemma buf_wf_step k :
  buf_wf k -> 0 < write_len k ->
  buf_wf (set_write_len (write_len k - 1) (set_write_pos ((write_pos k + 1) mod UNIX_BUF_SIZE) k)).
Proof.
  intros [Hl Hp Hc] Hlen. split; simpl; [done| |lia]. apply Z.mod_pos_bound. unfold UNIX_BUF_SIZE. lia.
Qed.

(** The receive loop takes the oldest bytes out of the ring buffer: as many as asked
    for and available, in order, and what is left is the rest of the queue. *)
Theorem unix_recv_fifo n k :
  buf_wf k -> let '(l, k') := recv_loop n k in
  l = take n (ring k) /\ ring k' = drop n (ring k) /\ buf_wf k'.
Proof.
  revert k. induction n as [|n IH]; intros k Hwf; cbn [recv_loop]; [done|].
  destruct (Z.ltb_spec 0 (write_len k)) as [Hlt|Hle].
  - rewrite ring_cons by done. cbv zeta.
    change (write_len (set_write_pos _ k)) with (write_len k).
    specialize (IH _ (buf_wf_step k Hwf Hlt)). destruct (recv_loop n _) as [l k'].
    destruct IH as (-> & Hr & Hw). cbn [take drop]. auto.
  - assert (ring k = []) as -> by (unfold ring; rewrite seqZ_nil by lia; done). done.
Qed.

Definition store_byte (k : unix_socket) (b : Z) : unix_socket :=
  set_write_buf (<[Z.to_nat ((write_pos k + write_len k) mod UNIX_BUF_SIZE) := u8 b]> (write_buf k)) k.

Lemma store_bytes chunk k b :
  foldl store_byte k (chunk ++ [b]) = store_byte k b.
Proof.
  revert k. induction chunk as [|c chunk IH]; intros k; [done|]. cbn [app foldl]. rewrite IH.
  unfold store_byte, set_write_buf. simpl. by rewrite list_insert_insert_eq.
Qed.

Lemma sock_upd_eq st i f : (i < length (sockets st))%nat -> sock (upd i f st) i = f (sock st i).
Proof.
  intros Hi. unfold sock, upd. simpl. destruct (lookup_lt_is_Some_2 _ _ Hi) as [k Hk].
  by rewrite !nth_lookup, list_lookup_alter_eq, Hk.
Qed.

Lemma store_chunk_sock pr chunk st :
  (pr < length (sockets st))%nat -> sock (store_chunk pr chunk st) pr = foldl store_byte (sock st pr) chunk.
Proof.
  unfold store_chunk. revert st. induction chunk as [|b chunk IH]; intros st Hpr; cbn [foldl]; [done|].
  rewrite IH by (unfold upd; simpl; by rewrite length_alter). f_equal. by apply sock_upd_eq.
Qed.

(** What [unix_send] leaves in the peer's buffer for a chunk of [n] bytes: the bytes that
    were waiting, then the {e last} byte of the chunk, then [n - 1] bytes that happened to be in
    the buffer; the bytes of the chunk before the last one are lost. *)
Theorem unix_send_keeps_last st pr chunk b :
  (pr < length (sockets st))%nat -> buf_wf (sock st pr) ->
  let k := sock st pr in
  let n := Z.of_nat (length chunk) + 1 in
  write_len k + n <= UNIX_BUF_SIZE ->
  let k' := set_write_len (write_len k + n) (sock (store_chunk pr (chunk ++ [b]) st) pr) in
  ring k' = ring k ++ [u8 b] ++
    ((fun i => nth (Z.to_nat ((write_pos k + i) mod UNIX_BUF_SIZE)) (write_buf k) 0) <$> seqZ (write_len k + 1) (n - 1)).
Proof.
  intros Hpr Hwf. cbv zeta. rewrite store_chunk_sock, store_bytes by done. revert Hwf. generalize (sock st pr).
  intros k [Hl Hp Hc] Hn.
  unfold ring, store_byte. simpl. set (idx := Z.to_nat ((write_pos k + write_len k) mod UNIX_BUF_SIZE)).
  assert (Hidx : (idx < length (write_buf k))%nat).
  { pose proof (Z.mod_pos_bound (write_pos k + write_len k) UNIX_BUF_SIZE ltac:(unfold UNIX_BUF_SIZE; lia)). unfold idx. lia. }
  assert (Hother : forall i, 0 <= i < UNIX_BUF_SIZE -> i <> write_len k ->
    nth (Z.to_nat ((write_pos k + i) mod UNIX_BUF_SIZE)) (<[idx := u8 b]> (write_buf k)) 0 =
    nth (Z.to_nat ((write_pos k + i) mod UNIX_BUF_SIZE)) (write_buf k) 0).
  { intros i Hi Hne. rewrite !nth_lookup, list_lookup_insert_ne; [done|]. unfold idx, UNIX_BUF_SIZE in *. dlia. }
  rewrite (seqZ_app 0 (write_len k)) by lia. rewrite fmap_app, Z.add_0_l. f_equal.
  - apply list_fmap_ext. intros j x Hx. apply lookup_seqZ in Hx as [-> Hj]. apply Hother; lia.
  - rewrite (Z.add_comm (Z.of_nat _) 1), seqZ_app, fmap_app by lia.
    replace (1 + Z.of_nat (length chunk) - 1) with (Z.of_nat (length chunk)) by lia.
    apply (f_equal2 app (y1 := [u8 b])).
    + rewrite seqZ_cons, seqZ_nil by lia. cbn [fmap list_fmap]. fold idx. by rewrite nth_lookup, list_lookup_insert_eq.
    + apply list_fmap_ext. intros j x Hx. apply lookup_seqZ in Hx as [-> Hj]. apply Hother; lia.
Qed.

(** ** The backlog *)

(** The clients waiting to be accepted, oldest first. *)
Definition waiting (k : unix_socket) : list (option nat) :=
  (fun i => nth (Z.to_nat ((backlog_head k + i) mod 16)) (backlog k) None) <$> seqZ 0 (backlog_count k).

Record backlog_wf (k : unix_socket) : Prop := {
  kw_len : length (backlog k) = 16%nat;
  kw_head : 0 <= backlog_head k < 16;
  kw_count : 0 <= backlog_count k <= 16;
  kw_tail : backlog_tail k = (backlog_head k + backlog_count k) mod 16 }.

(** The backlog of a listening socket is a first-in first-out queue: [unix_connect] appends
    its client, [unix_accept] takes the oldest one, and both keep the ring consistent. *)
Theorem unix_backlog_fifo st server client :
  (server < length (sockets st))%nat -> backlog_wf (sock st server) ->
  let k := sock st server in
  (backlog_count k < 16 ->
     let k' := sock (push_client server client st) server in
     waiting k' = waiting k ++ [Some client] /\ backlog_wf k') /\
  (0 < backlog_count k ->
     let '(c, st') := pop_client server st in
     waiting k = c :: waiting (sock st' server) /\ backlog_wf (sock st' server)).
Proof.
  intros Hs Hwf. cbv zeta. unfold push_client, pop_client. rewrite !sock_upd_eq by done.
  revert Hwf. generalize (sock st server). intros k [Hl Hh Hc Ht]. split; intros Hn.
  - set (t := Z.to_nat (backlog_tail k)). assert (Htl : (t < 16)%nat) by (unfold t; rewrite Ht; pose proof (Z.mod_pos_bound (backlog_head k + backlog_count k) 16); lia).
    split; [|split; simpl; [by rewrite length_insert|done|lia|rewrite Ht; by rewrite Zplus_mod_idemp_l, Z.add_assoc]].
    unfold waiting. simpl. rewrite seqZ_app, fmap_app by lia. apply f_equal2.
    + apply list_fmap_ext. intros j x Hx. apply lookup_seqZ in Hx as [-> Hj]. rewrite !nth_lookup, list_lookup_insert_ne; [done|].
      unfold t. rewrite Ht. dlia.
    + rewrite seqZ_cons, seqZ_nil by lia. cbn [fmap list_fmap]. rewrite Z.add_0_l, <- Ht. fold t.
      rewrite nth_lookup, list_lookup_insert_eq; [done|lia].
  - split; [|split; simpl; [done|apply Z.mod_pos_bound; lia|lia|rewrite Ht, Zplus_mod_idemp_l; f_equal; lia]].
    unfold waiting. rewrite seqZ_cons by lia. cbn [fmap list_fmap]. apply f_equal2.
    + rewrite Z.add_0_r, Z.mod_small by lia. apply nth_lookup.
    + simpl. change (Z.succ 0) with (1 + 0). rewrite <- (fmap_add_seqZ 1 0), <- list_fmap_compose, Z.sub_1_r.
      apply list_fmap_ext. intros i x _. unfold compose. f_equal. f_equal. rewrite Zplus_mod_idemp_l. f_equal. lia.
Qed.

(** ** Witnesses *)

(** Socket 0, connected to socket 1; descriptor 3 of process 1 is socket 0, descriptor 3 of
    process 2 is socket 1; process 1 runs. *)
Definition demo_fds (i : nat) (p : process) : process :=
  set_fds (alter (open_fd 100000 i) 3%nat (fds p)) p.
Definition demo_ustate (len : Z) : ustate :=
  UState
    (<[0%nat := set_peer (Some 1%nat) (set_connected true (set_id 1 zero_socket))]>
      (<[1%nat := set_write_len len (set_peer (Some 0%nat) (set_connected true (set_id 2 zero_socket)))]>
        (replicate MAX_UNIX_SOCKETS zero_socket))) 3
    (modify 2 (demo_fds 1) (modify 1 (demo_fds 0) (demo_next 200 (demo_next 100 demo_sched)))).

Lemma unix_recv_fifo_witness :
  ring (set_write_len 2 (set_write_buf (10 :: 20 :: replicate 4094 0) zero_socket)) = [10; 20] /\
  ring (recv_loop 1 (set_write_len 2 (set_write_buf (10 :: 20 :: replicate 4094 0) zero_socket))).2 = [20].
Proof.
  pose proof (unix_recv_fifo 1 (set_write_len 2 (set_write_buf (10 :: 20 :: replicate 4094 0) zero_socket))) as H.
  split; [vm_compute; reflexivity|].
  destruct (recv_loop 1 _) as [l k'] eqn:E. destruct H as (_ & Hr & _).
  - split; simpl; unfold UNIX_BUF_SIZE; lia || vm_compute; auto; split; congruence.
  - cbn [snd]. rewrite Hr. vm_compute. reflexivity.
Defined.

(** Three bytes are sent to an empty buffer that was cleared: the receiver gets the last
    one and two zeros. *)
Lemma unix_send_keeps_last_witness :
  ring (set_write_len 3 (sock (store_chunk 1 [65; 66; 67] (demo_ustate 0)) 1)) = [67; 0; 0].
Proof.
  refine (eq_trans (unix_send_keeps_last (demo_ustate 0) 1 [65; 66] 67 _ _ _) _).
  - vm_compute. lia.
  - split; [vm_compute; reflexivity|vm_compute; split; congruence|vm_compute; split; congruence].
  - vm_compute. congruence.
  - vm_compute. reflexivity.
Defined.

Lemma unix_backlog_fifo_witness :
  waiting (sock (push_client 0 1 (demo_ustate 0)) 0) = [Some 1%nat].
Proof.
  destruct (unix_backlog_fifo (demo_ustate 0) 0 1) as [H _].
  - vm_compute. lia.
  - split; vm_compute; auto; split; congruence.
  - destruct H as [-> _]; vm_compute; reflexivity.
Defined.

(** A sender that finds the buffer full waits on the receiver's socket, but [unix_recv] wakes
    the sender's: reading the whole buffer leaves the sender blocked. *)
Example sender_not_woken :
  let st := demo_ustate 4096 in
  let blocked := default st (block_on 300 Some (sock_ptr 100000 1) st) in
  current (us blocked) = Some 2%nat /\ state (proc (us blocked) 1) = PROC_BLOCKED /\
  match unix_recv 100000 300 (fun _ => None) 1 3 4096 blocked with
  | Some (n, _, st') => n = 4096 /\ state (proc (us st') 1) = PROC_BLOCKED /\ write_len (sock st' 1) = 0
  | None => False
  end.
Proof. vm_compute. auto. Qed.
