(* ===== verification/Vfs.v ===== *)
(** * The virtual file system and ramfs: kernel/core/vfs.c

    A [vfs_node_t*] is the address of a node; the nodes that exist are a finite map
    from addresses to records, and following a pointer that is not there gives
    [None].  Nodes and file contents are allocated from the kernel heap.  Names and
    paths are the characters before the terminating zero; a copy into a buffer of
    [n] bytes keeps the first [n - 1] of them.  The callers pass strings and output
    buffers that are not null, so the guards against a null name, path or buffer do
    not appear; a null node is the address 0 and its guards do.

    A file system is a record of operations ([vfs_fs_ops_t]); a node or a mount names
    its file system, and [fs_table] gives the operations of the name.  [ramfs_ops] is
    the one defined in the same file; the others are a parameter. *)

From S2P Require Import Prelude KMalloc.

Abbreviation str := (list Z).

(** ** Data (vfs.h) *)

Definition VFS_FILE : Z := 1.
Definition VFS_DIR : Z := 2.
Definition VFS_SYMLINK : Z := 3.
Definition VFS_BLOCK_DEVICE : Z := 4.
Definition VFS_MAX_NAME : nat := 256.
Definition VFS_MAX_MOUNTS : nat := 16.
#[global] Arguments VFS_MAX_NAME : simpl never.
#[global] Arguments VFS_MAX_MOUNTS : simpl never.

(** [n_data] is the address of the contents, [n_bytes] the [n_cap] bytes found there. *)
Record vnode := VNode {
  n_name : list Z;
  n_type : Z;
  n_mode : Z;
  n_size : Z;
  n_cap : Z;
  n_data : Z;
  n_bytes : list Z;
  n_symlink : list Z;
  n_parent : Z;
  n_children : Z;
  n_next : Z;
  n_fs : option (list Z);
  n_private : Z;
  n_fs_data : Z;
  n_refcount : Z;
  n_block_ops : Z }.

Definition set_n_name (v : list Z) (r : vnode) : vnode :=
    VNode v (n_type r) (n_mode r) (n_size r) (n_cap r) (n_data r) (n_bytes r) (n_symlink r)
    (n_parent r) (n_children r) (n_next r) (n_fs r) (n_private r) (n_fs_data r) (n_refcount r)
    (n_block_ops r).
Definition set_n_type (v : Z) (r : vnode) : vnode :=
    VNode (n_name r) v (n_mode r) (n_size r) (n_cap r) (n_data r) (n_bytes r) (n_symlink r)
    (n_parent r) (n_children r) (n_next r) (n_fs r) (n_private r) (n_fs_data r) (n_refcount r)
    (n_block_ops r).
Definition set_n_mode (v : Z) (r : vnode) : vnode :=
    VNode (n_name r) (n_type r) v (n_size r) (n_cap r) (n_data r) (n_bytes r) (n_symlink r)
    (n_parent r) (n_children r) (n_next r) (n_fs r) (n_private r) (n_fs_data r) (n_refcount r)
    (n_block_ops r).
Definition set_n_size (v : Z) (r : vnode) : vnode :=
    VNode (n_name r) (n_type r) (n_mode r) v (n_cap r) (n_data r) (n_bytes r) (n_symlink r)
    (n_parent r) (n_children r) (n_next r) (n_fs r) (n_private r) (n_fs_data r) (n_refcount r)
    (n_block_ops r).
Definition set_n_cap (v : Z) (r : vnode) : vnode :=
    VNode (n_name r) (n_type r) (n_mode r) (n_size r) v (n_data r) (n_bytes r) (n_symlink r)
    (n_parent r) (n_children r) (n_next r) (n_fs r) (n_private r) (n_fs_data r) (n_refcount r)
    (n_block_ops r).
Definition set_n_data (v : Z) (r : vnode) : vnode :=
    VNode (n_name r) (n_type r) (n_mode r) (n_size r) (n_cap r) v (n_bytes r) (n_symlink r)
    (n_parent r) (n_children r) (n_next r) (n_fs r) (n_private r) (n_fs_data r) (n_refcount r)
    (n_block_ops r).
Definition set_n_bytes (v : list Z) (r : vnode) : vnode :=
    VNode (n_name r) (n_type r) (n_mode r) (n_size r) (n_cap r) (n_data r) v (n_symlink r)
    (n_parent r) (n_children r) (n_next r) (n_fs r) (n_private r) (n_fs_data r) (n_refcount r)
    (n_block_ops r).
Definition set_n_symlink (v : list Z) (r : vnode) : vnode :=
    VNode (n_name r) (n_type r) (n_mode r) (n_size r) (n_cap r) (n_data r) (n_bytes r) v
    (n_parent r) (n_children r) (n_next r) (n_fs r) (n_private r) (n_fs_data r) (n_refcount r)
    (n_block_ops r).
Definition set_n_parent (v : Z) (r : vnode) : vnode :=
    VNode (n_name r) (n_type r) (n_mode r) (n_size r) (n_cap r) (n_data r) (n_bytes r)
    (n_symlink r) v (n_children r) (n_next r) (n_fs r) (n_private r) (n_fs_data r) (n_refcount
    r) (n_block_ops r).
Definition set_n_children (v : Z) (r : vnode) : vnode :=
    VNode (n_name r) (n_type r) (n_mode r) (n_size r) (n_cap r) (n_data r) (n_bytes r)
    (n_symlink r) (n_parent r) v (n_next r) (n_fs r) (n_private r) (n_fs_data r) (n_refcount r)
    (n_block_ops r).
Definition set_n_next (v : Z) (r : vnode) : vnode :=
    VNode (n_name r) (n_type r) (n_mode r) (n_size r) (n_cap r) (n_data r) (n_bytes r)
    (n_symlink r) (n_parent r) (n_children r) v (n_fs r) (n_private r) (n_fs_data r) (n_refcount
    r) (n_block_ops r).
Definition set_n_fs (v : option (list Z)) (r : vnode) : vnode :=
    VNode (n_name r) (n_type r) (n_mode r) (n_size r) (n_cap r) (n_data r) (n_bytes r)
    (n_symlink r) (n_parent r) (n_children r) (n_next r) v (n_private r) (n_fs_data r)
    (n_refcount r) (n_block_ops r).
Definition set_n_private (v : Z) (r : vnode) : vnode :=
    VNode (n_name r) (n_type r) (n_mode r) (n_size r) (n_cap r) (n_data r) (n_bytes r)
    (n_symlink r) (n_parent r) (n_children r) (n_next r) (n_fs r) v (n_fs_data r) (n_refcount r)
    (n_block_ops r).
Definition set_n_fs_data (v : Z) (r : vnode) : vnode :=
    VNode (n_name r) (n_type r) (n_mode r) (n_size r) (n_cap r) (n_data r) (n_bytes r)
    (n_symlink r) (n_parent r) (n_children r) (n_next r) (n_fs r) (n_private r) v (n_refcount r)
    (n_block_ops r).
Definition set_n_refcount (v : Z) (r : vnode) : vnode :=
    VNode (n_name r) (n_type r) (n_mode r) (n_size r) (n_cap r) (n_data r) (n_bytes r)
    (n_symlink r) (n_parent r) (n_children r) (n_next r) (n_fs r) (n_private r) (n_fs_data r) v
    (n_block_ops r).
Definition set_n_block_ops (v : Z) (r : vnode) : vnode :=
    VNode (n_name r) (n_type r) (n_mode r) (n_size r) (n_cap r) (n_data r) (n_bytes r)
    (n_symlink r) (n_parent r) (n_children r) (n_next r) (n_fs r) (n_private r) (n_fs_data r)
    (n_refcount r) v.

Definition zero_vnode : vnode := VNode [] 0 0 0 0 0 [] [] 0 0 0 None 0 0 0 0.
Definition sizeof_vnode : Z := 608.

Record dirent := Dirent { d_name : str; d_type : Z; d_size : Z }.

Record vmount := VMount { m_path : str; m_root : Z; m_fs : option str; m_used : bool }.
Definition zero_mount : vmount := VMount [] 0 None false.

Record vstate := VState {
  nodes : gmap Z vnode;
  vheap : heap;
  fs_list : list (list Z);
  mounts : list vmount;
  root_node : Z;
  vfs_ready : bool;
  cwd : list Z;
  chroot : list Z }.

Definition set_nodes (v : gmap Z vnode) (r : vstate) : vstate :=
    VState v (vheap r) (fs_list r) (mounts r) (root_node r) (vfs_ready r) (cwd r) (chroot r).
Definition set_vheap (v : heap) (r : vstate) : vstate :=
    VState (nodes r) v (fs_list r) (mounts r) (root_node r) (vfs_ready r) (cwd r) (chroot r).
Definition set_fs_list (v : list (list Z)) (r : vstate) : vstate :=
    VState (nodes r) (vheap r) v (mounts r) (root_node r) (vfs_ready r) (cwd r) (chroot r).
Definition set_mounts (v : list vmount) (r : vstate) : vstate :=
    VState (nodes r) (vheap r) (fs_list r) v (root_node r) (vfs_ready r) (cwd r) (chroot r).
Definition set_root_node (v : Z) (r : vstate) : vstate :=
    VState (nodes r) (vheap r) (fs_list r) (mounts r) v (vfs_ready r) (cwd r) (chroot r).
Definition set_vfs_ready (v : bool) (r : vstate) : vstate :=
    VState (nodes r) (vheap r) (fs_list r) (mounts r) (root_node r) v (cwd r) (chroot r).
Definition set_cwd (v : list Z) (r : vstate) : vstate :=
    VState (nodes r) (vheap r) (fs_list r) (mounts r) (root_node r) (vfs_ready r) v (chroot r).
Definition set_chroot (v : list Z) (r : vstate) : vstate :=
    VState (nodes r) (vheap r) (fs_list r) (mounts r) (root_node r) (vfs_ready r) (cwd r) v.

Definition str_eqb (a b : str) : bool := bool_decide (a = b).

(** [strncpy] into a buffer of [n] bytes with the last byte set to 0. *)
Definition cut (n : nat) (s : str) : str := take (n - 1) s.

Definition node (s : vstate) (a : Z) : option vnode := nodes s !! a.
Definition put (a : Z) (n : vnode) (s : vstate) : vstate := set_nodes (<[a := n]> (nodes s)) s.

(** [p->f = ...] through a pointer that is valid. *)
Definition update (a : Z) (f : vnode -> vnode) (s : vstate) : option vstate :=
  n ← node s a; Some (put a (f n) s).

(** ["/"] *)
Definition slash : Z := 47.
Definition root_path : str := [slash].

(** [buf_size] is 1024 in every call; [None] is the null result. *)
Definition make_absolute_path (path : str) (s : vstate) : str :=
  match path with
  | c :: _ =>
      if c =? slash then cut 1024 path
      else
        let d := match cwd s with [] => root_path | d => d end in
        if str_eqb d root_path then cut 1024 (slash :: path) else cut 1024 (d ++ slash :: path)
  | [] =>
      let d := match cwd s with [] => root_path | d => d end in
      if str_eqb d root_path then cut 1024 [slash] else cut 1024 (d ++ [slash])
  end.

Definition vfs_absolute_path := make_absolute_path.

(** ** Nodes *)

Definition vfs_create_node (name : str) (type : Z) (s : vstate) : option (Z * vstate) :=
  '(n, h) ← kmalloc sizeof_vnode (vheap s);
  let s := set_vheap h s in
  if n =? 0 then Some (0, s) else
  Some (n, put n (set_n_refcount 1 (set_n_type type (set_n_name (cut VFS_MAX_NAME name) zero_vnode))) s).

Definition vfs_register_fs (ops : option str) (s : vstate) : Z * vstate :=
  match ops with
  | None => (-1, s)
  | Some name =>
      if 16 <=? Z.of_nat (length (fs_list s)) then (-1, s) else
      if existsb (str_eqb name) (fs_list s) then (0, s)
      else (0, set_fs_list (fs_list s ++ [name]) s)
  end.

Definition vfs_get_fs_count (s : vstate) : Z := Z.of_nat (length (fs_list s)).
Definition vfs_get_fs_by_index (i : Z) (s : vstate) : option str :=
  if (i <? 0) || (vfs_get_fs_count s <=? i) then None else fs_list s !! Z.to_nat i.

(** ** ramfs *)

(** A walk over siblings visits each node at most once. *)
Definition walk_fuel (s : vstate) : nat := S (size (nodes s)).

(** [while (c) { if (strcmp(c->name, name) == 0) return c; c = c->next; }] *)
Fixpoint find_sibling (fuel : nat) (name : str) (c : Z) (s : vstate) : option Z :=
  if c =? 0 then Some 0 else
  match fuel with
  | O => None
  | S fuel =>
      n ← node s c;
      if str_eqb (n_name n) name then Some c else find_sibling fuel name (n_next n) s
  end.

(** The guard of the operations: [dir] is a directory. *)
Definition is_dir (dir : Z) (s : vstate) : option bool :=
  if dir =? 0 then Some false else n ← node s dir; Some (n_type n =? VFS_DIR).

Definition ramfs_find_child (dir : Z) (name : str) (s : vstate) : option Z :=
  d ← is_dir dir s;
  if negb d then Some 0 else n ← node s dir; find_sibling (walk_fuel s) name (n_children n) s.

Definition ramfs_add_child (dir child : Z) (s : vstate) : option vstate :=
  if (dir =? 0) || (child =? 0) then Some s else
  s ← update child (set_n_parent dir) s;
  d ← node s dir;
  s ← update child (set_n_next (n_children d)) s;
  update dir (set_n_children child) s.

(** The walk with [pp]: [prev] is the node whose [next] field is [*pp], 0 for
    [dir->children]. *)
Fixpoint remove_sibling (fuel : nat) (dir child prev cur : Z) (s : vstate) : option (Z * vstate) :=
  if cur =? 0 then Some (-1, s) else
  match fuel with
  | O => None
  | S fuel =>
      if cur =? child then
        c ← node s child;
        s ← (if prev =? 0 then update dir (set_n_children (n_next c)) s else update prev (set_n_next (n_next c)) s);
        s ← update child (set_n_next 0) s;
        s ← update child (set_n_parent 0) s;
        Some (0, s)
      else n ← node s cur; remove_sibling fuel dir child cur (n_next n) s
  end.

Definition ramfs_remove_child (dir child : Z) (s : vstate) : option (Z * vstate) :=
  if (dir =? 0) || (child =? 0) then Some (-1, s) else
  d ← node s dir; remove_sibling (walk_fuel s) dir child 0 (n_children d) s.

(** The result of a lookup: the return value and [*out]. *)
Definition ramfs_lookup (dir : Z) (name : str) (s : vstate) : option (Z * Z * vstate) :=
  d ← is_dir dir s;
  if negb d then Some (-1, 0, s) else
  child ← ramfs_find_child dir name s;
  if child =? 0 then Some (-1, 0, s) else
  s ← update child (set_n_parent dir) s;
  Some (0, child, s).

(** The part shared by [create], [mkdir] and [symlink]. *)
Definition new_child (dir : Z) (name : str) (type mode : Z) (link : str) (s : vstate) : option (Z * vstate) :=
  d ← is_dir dir s;
  if negb d then Some (-1, s) else
  c ← ramfs_find_child dir name s;
  if negb (c =? 0) then Some (-1, s) else
  '(n, s) ← vfs_create_node name type s;
  if n =? 0 then Some (-1, s) else
  dn ← node s dir;
  s ← update n (fun k => set_n_symlink link (set_n_fs (n_fs dn) (set_n_mode mode k))) s;
  s ← ramfs_add_child dir n s;
  Some (0, s).

Definition ramfs_create (dir : Z) (name : str) (mode : Z) (s : vstate) := new_child dir name VFS_FILE mode [] s.
Definition ramfs_mkdir (dir : Z) (name : str) (mode : Z) (s : vstate) := new_child dir name VFS_DIR mode [] s.
Definition ramfs_symlink (dir : Z) (name target : str) (s : vstate) :=
  new_child dir name VFS_SYMLINK 511 (cut VFS_MAX_NAME target) s.

(** [kfree] and the end of the node's life. *)
Definition release (a : Z) (s : vstate) : option vstate :=
  h ← kfree a (vheap s); Some (set_vheap h (set_nodes (delete a (nodes s)) s)).

Fixpoint ramfs_free_node (fuel : nat) (a : Z) (s : vstate) : option vstate :=
  if a =? 0 then Some s else
  match fuel with
  | O => None
  | S fuel =>
      n ← node s a;
      s ← (fix free_list (k : nat) (c : Z) (s : vstate) : option vstate :=
             if c =? 0 then Some s else
             match k with
             | O => None
             | S k => m ← node s c; s ← ramfs_free_node fuel c s; free_list k (n_next m) s
             end) fuel (n_children n) s;
      h ← (if n_data n =? 0 then Some (vheap s) else kfree (n_data n) (vheap s));
      release a (set_vheap h s)
  end.

Definition ramfs_unlink (dir : Z) (name : str) (s : vstate) : option (Z * vstate) :=
  d ← is_dir dir s;
  if negb d then Some (-1, s) else
  child ← ramfs_find_child dir name s;
  if child =? 0 then Some (-1, s) else
  c ← node s child;
  if (n_type c =? VFS_DIR) && negb (n_children c =? 0) then Some (-1, s) else
  '(r, s) ← ramfs_remove_child dir child s;
  if negb (r =? 0) then Some (-1, s) else
  s ← ramfs_free_node (walk_fuel s) child s;
  Some (0, s).

(** The return value and the contents of [buf]. *)
Definition ramfs_readlink (a : Z) (size : Z) (s : vstate) : option (Z * str * vstate) :=
  if (a =? 0) || (size =? 0) then Some (-1, [], s) else
  n ← node s a;
  if negb (n_type n =? VFS_SYMLINK) then Some (-1, [], s) else
  let buf := take (Z.to_nat (size - 1)) (n_symlink n) in
  Some (Z.of_nat (length buf), buf, s).

Definition ramfs_read (a size offset : Z) (s : vstate) : option (Z * list Z * vstate) :=
  if a =? 0 then Some (-1, [], s) else
  n ← node s a;
  if negb (n_type n =? VFS_FILE) then Some (-1, [], s) else
  if n_size n <=? offset then Some (0, [], s) else
  let to_copy := n_size n - offset in
  let to_copy := if size <? to_copy then size else to_copy in
  if n_cap n <? offset + to_copy then None else
  Some (i32 to_copy, take (Z.to_nat to_copy) (drop (Z.to_nat offset) (n_bytes n)), s).

(** [while (new_cap < end) new_cap *= 2]; 64 doublings reach any 64-bit size or 0. *)
Fixpoint grow (fuel : nat) (new_cap end_ : Z) : option Z :=
  if end_ <=? new_cap then Some new_cap else
  match fuel with
  | O => None
  | S fuel => grow fuel (u64 (new_cap * 2)) end_
  end.

(** Bytes [l] stored at position [off]. *)
Definition overwrite (off : nat) (l bytes : list Z) : list Z :=
  take off bytes ++ l ++ drop (off + length l) bytes.

(** The branch that moves the contents to a larger buffer. *)
Definition enlarge (a end_ : Z) (s : vstate) : option (bool * vstate) :=
  n ← node s a;
  if end_ <=? n_cap n then Some (true, s) else
  new_cap ← grow 64 (if n_cap n =? 0 then 4096 else n_cap n) end_;
  '(nd, h) ← kmalloc new_cap (vheap s);
  let s := set_vheap h s in
  if nd =? 0 then Some (false, s) else
  let fresh := replicate (Z.to_nat new_cap) 0 in
  let bytes := if negb (n_data n =? 0) && (0 <? n_size n)
               then overwrite 0 (take (Z.to_nat (n_size n)) (n_bytes n)) fresh else fresh in
  h ← (if n_data n =? 0 then Some (vheap s) else kfree (n_data n) (vheap s));
  Some (true, put a (set_n_cap new_cap (set_n_bytes bytes (set_n_data nd n))) (set_vheap h s)).

Definition ramfs_write (a : Z) (buf : list Z) (offset : Z) (s : vstate) : option (Z * vstate) :=
  if a =? 0 then Some (-1, s) else
  n ← node s a;
  if negb (n_type n =? VFS_FILE) then Some (-1, s) else
  let size := Z.of_nat (length buf) in
  if size =? 0 then Some (0, s) else
  let end_ := u64 (offset + size) in
  '(ok, s) ← enlarge a end_ s;
  if negb ok then Some (-1, s) else
  n ← node s a;
  (* a copy past the end of the buffer *)
  if n_cap n <? offset + size then None else
  let bytes := if n_size n <? offset
               then overwrite (Z.to_nat (n_size n)) (replicate (Z.to_nat (offset - n_size n)) 0) (n_bytes n)
               else n_bytes n in
  let bytes := overwrite (Z.to_nat offset) buf bytes in
  let sz := if n_size n <? end_ then end_ else n_size n in
  Some (i32 size, put a (set_n_size sz (set_n_bytes bytes n)) s).

Fixpoint list_dir (fuel : nat) (max : nat) (c : Z) (s : vstate) : option (list dirent) :=
  match max with
  | O => Some []
  | S max =>
      if c =? 0 then Some [] else
      match fuel with
      | O => None
      | S fuel =>
          n ← node s c;
          l ← list_dir fuel max (n_next n) s;
          Some (Dirent (cut VFS_MAX_NAME (n_name n)) (n_type n) (n_size n) :: l)
      end
  end.

Definition ramfs_readdir (dir : Z) (count : Z) (s : vstate) : option (Z * list dirent * vstate) :=
  d ← is_dir dir s;
  if negb d then Some (-1, [], s) else
  n ← node s dir;
  l ← list_dir (walk_fuel s) (Z.to_nat count) (n_children n) s;
  Some (0, l, s).

(** The return value and [*size], [*mode], [*is_dir]. *)
Definition ramfs_stat (a : Z) (s : vstate) : option (Z * (Z * Z * bool) * vstate) :=
  if a =? 0 then Some (-1, (0, 0, false), s) else
  n ← node s a; Some (0, (n_size n, n_mode n, n_type n =? VFS_DIR), s).

Definition ramfs_rename (old_dir : Z) (old_name : str) (new_dir : Z) (new_name : str) (s : vstate) :
    option (Z * vstate) :=
  if (old_dir =? 0) || (new_dir =? 0) then Some (-1, s) else
  child ← ramfs_find_child old_dir old_name s;
  if child =? 0 then Some (-1, s) else
  existing ← ramfs_find_child new_dir new_name s;
  r ← (if existing =? 0 then Some (Some s) else
       e ← node s existing;
       if (n_type e =? VFS_DIR) && negb (n_children e =? 0) then Some None else
       '(_, s) ← ramfs_remove_child new_dir existing s;
       s ← ramfs_free_node (walk_fuel s) existing s;
       Some (Some s));
  match r with
  | None => Some (-1, s)
  | Some s =>
      '(r, s) ← ramfs_remove_child old_dir child s;
      if negb (r =? 0) then Some (-1, s) else
      s ← update child (set_n_name (cut VFS_MAX_NAME new_name)) s;
      s ← ramfs_add_child new_dir child s;
      Some (0, s)
  end.

(** "ramfs" *)
Definition ramfs_name : str := [114; 97; 109; 102; 115].

Definition ramfs_mount (s : vstate) : option (Z * Z * vstate) :=
  '(n, s) ← vfs_create_node [] VFS_DIR s;
  if n =? 0 then Some (-1, 0, s) else
  s ← update n (fun k => set_n_fs (Some ramfs_name) (set_n_mode 493 k)) s;
  Some (0, n, s).

Definition ramfs_unmount (root : Z) (s : vstate) : option (Z * vstate) :=
  s ← ramfs_free_node (walk_fuel s) root s; Some (0, s).

(** ** The table of operations

    A null entry of [vfs_fs_ops_t] is [None].  An operation that reports through a
    pointer returns what it stores there. *)

Record fs_ops := FsOps {
  op_mount : option (option str -> vstate -> option (Z * Z * vstate));
  op_unmount : option (Z -> vstate -> option (Z * vstate));
  op_lookup : option (Z -> str -> vstate -> option (Z * Z * vstate));
  op_create : option (Z -> str -> Z -> vstate -> option (Z * vstate));
  op_mkdir : option (Z -> str -> Z -> vstate -> option (Z * vstate));
  op_unlink : option (Z -> str -> vstate -> option (Z * vstate));
  op_symlink : option (Z -> str -> str -> vstate -> option (Z * vstate));
  op_readlink : option (Z -> Z -> vstate -> option (Z * str * vstate));
  op_read : option (Z -> Z -> Z -> vstate -> option (Z * list Z * vstate));
  op_write : option (Z -> list Z -> Z -> vstate -> option (Z * vstate));
  op_readdir : option (Z -> Z -> vstate -> option (Z * list dirent * vstate));
  op_stat : option (Z -> vstate -> option (Z * (Z * Z * bool) * vstate));
  op_rename : option (Z -> str -> Z -> str -> vstate -> option (Z * vstate));
  op_format : option (str -> vstate -> option (Z * vstate)) }.

Definition ramfs_ops : fs_ops :=
  FsOps (Some (fun _ => ramfs_mount)) (Some ramfs_unmount) (Some ramfs_lookup) (Some ramfs_create)
    (Some ramfs_mkdir) (Some ramfs_unlink) (Some ramfs_symlink) (Some ramfs_readlink) (Some ramfs_read)
    (Some ramfs_write) (Some ramfs_readdir) (Some ramfs_stat) (Some ramfs_rename) None.

Definition no_ops : fs_ops :=
  FsOps None None None None None None None None None None None None None None.

(** [strncmp(path, m, strlen(m)) == 0] *)
Definition prefix_of (m path : str) : bool := str_eqb (take (length m) path) m.

(** [path[i]], which is the terminating zero at the end. *)
Definition char_at (i : nat) (path : str) : Z := nth i path 0.

Fixpoint skip_slashes (p : str) : str :=
  match p with
  | c :: p' => if c =? slash then skip_slashes p' else p
  | [] => []
  end.

(** The characters before the next ['/'] and the rest, which starts with it. *)
Fixpoint until_slash (p : str) : str * str :=
  match p with
  | c :: p' => if c =? slash then ([], p) else let '(a, r) := until_slash p' in (c :: a, r)
  | [] => ([], [])
  end.

(** [strrchr(path, '/')]: the characters before the last slash and those after it. *)
Fixpoint strrchr_slash (p : str) : option (str * str) :=
  match p with
  | [] => None
  | c :: p' =>
      match strrchr_slash p' with
      | Some (a, b) => Some (c :: a, b)
      | None => if c =? slash then Some ([], p') else None
      end
  end.

(** The test of the loop body of [find_mount]. *)
Definition mount_matches (path : str) (m : vmount) : bool :=
  let len := length (m_path m) in
  m_used m && prefix_of (m_path m) path &&
  ((char_at len path =? 0) || (char_at len path =? slash) || (Z.of_nat len =? 1)).

Fixpoint find_mount_loop (path : str) (i : nat) (ms : list vmount) (best : option nat) (best_len : nat) :
    option nat * nat :=
  match ms with
  | [] => (best, best_len)
  | m :: ms =>
      if mount_matches path m && (best_len <? length (m_path m))%nat
      then find_mount_loop path (S i) ms (Some i) (length (m_path m))
      else find_mount_loop path (S i) ms best best_len
  end.

(** The mount and [*rel]. *)
Definition find_mount (path : str) (s : vstate) : option (vmount * str) :=
  match find_mount_loop path 0 (mounts s) None 0 with
  | (Some i, len) => m ← mounts s !! i; Some (m, skip_slashes (drop len path))
  | (None, _) => None
  end.

Definition dot : str := [46].
Definition dotdot : str := [46; 46].

Section Vfs.
(** The operations of the file systems other than ramfs, by name. *)
Variable other : str -> fs_ops.

Definition fs_table (name : str) : fs_ops := if str_eqb name ramfs_name then ramfs_ops else other name.

(** The operations of a node; a null [fs] has none. *)
Definition ops_of (fs : option str) : fs_ops :=
  match fs with Some name => fs_table name | None => no_ops end.

Definition lookup_one (dir : Z) (name : str) (s : vstate) : option (Z * Z * vstate) :=
  if dir =? 0 then Some (-1, 0, s) else
  n ← node s dir;
  match op_lookup (ops_of (n_fs n)) with
  | None => Some (-1, 0, s)
  | Some lookup => lookup dir name s
  end.

(** The loop over the components of [tmp]; each round consumes at least one character. *)
Fixpoint walk_path (fuel : nat) (p : str) (a : Z) (s : vstate) : option (Z * vstate) :=
  match fuel with
  | O => None
  | S fuel =>
      match skip_slashes p with
      | [] => Some (a, s)
      | p =>
          let '(comp, rest) := until_slash p in
          if str_eqb comp dot then walk_path fuel rest a s else
          n ← node s a;
          if str_eqb comp dotdot then walk_path fuel rest (if n_parent n =? 0 then a else n_parent n) s else
          if negb (n_type n =? VFS_DIR) then Some (0, s) else
          '(r, next, s) ← lookup_one a comp s;
          if negb (r =? 0) then Some (0, s) else walk_path fuel rest next s
      end
  end.

(** [levels] is [9 - depth]. *)
Fixpoint resolve_path_internal (levels : nat) (path : str) (s : vstate) : option (Z * vstate) :=
  match levels with
  | O => Some (0, s)
  | S levels =>
      if negb (vfs_ready s) then Some (0, s) else
      match path with
      | [] => Some (root_node s, s)
      | c :: _ =>
          if negb (c =? slash) then Some (0, s) else
          match find_mount path s with
          | None => Some (0, s)
          | Some (m, rel) =>
              if m_root m =? 0 then Some (0, s) else
              n ← node s (m_root m);
              '(target, s) ←
                (if n_type n =? VFS_SYMLINK then
                   match op_readlink (ops_of (n_fs n)) with
                   | Some readlink => '(_, t, s) ← readlink (m_root m) 256 s; Some (t, s)
                   | None => Some ([], s)
                   end
                 else Some ([], s));
              if char_at 0 target =? slash then resolve_path_internal levels target s else
              match rel with
              | [] => Some (m_root m, s)
              | _ => let tmp := cut 1024 rel in walk_path (S (length tmp)) tmp (m_root m) s
              end
          end
      end
  end.

Definition vfs_resolve_path (path : str) (s : vstate) : option (Z * vstate) :=
  let resolved := make_absolute_path path s in
  if negb (str_eqb (chroot s) []) && negb (str_eqb (chroot s) root_path) && (char_at 0 resolved =? slash)
  then
    let final := if str_eqb resolved root_path then cut 1024 (chroot s)
                 else cut 1024 (chroot s ++ resolved) in
    resolve_path_internal 9 final s
  else resolve_path_internal 9 resolved s.

(** ** Mounts *)

Definition find_fs (fstype : str) (s : vstate) : option str :=
  if existsb (str_eqb fstype) (fs_list s) then Some fstype else None.

Definition mounted_at (mountpoint : str) (m : vmount) : bool := m_used m && str_eqb (m_path m) mountpoint.

(** The index of the last element that satisfies [f]: the loops that overwrite [best]. *)
Fixpoint last_index {A} (f : A -> bool) (i : nat) (l : list A) (best : option nat) : option nat :=
  match l with
  | [] => best
  | x :: l => last_index f (S i) l (if f x then Some i else best)
  end.

(** The index of the first one: [slot < 0] in the condition. *)
Fixpoint first_index {A} (f : A -> bool) (i : nat) (l : list A) : option nat :=
  match l with
  | [] => None
  | x :: l => if f x then Some i else first_index f (S i) l
  end.

Definition unmount_root (fs : option str) (root : Z) (s : vstate) : option vstate :=
  match op_unmount (ops_of fs) with
  | Some unmount => '(_, s) ← unmount root s; Some s
  | None => Some s
  end.

Definition vfs_mount_fs (fstype : str) (dev : option str) (mountpoint : str) (s : vstate) : option (Z * vstate) :=
  match find_fs fstype s with
  | None => Some (-1, s)
  | Some ops =>
      match op_mount (fs_table ops) with
      | None => Some (-1, s)
      | Some mount =>
          '(r, fs_root, s) ← mount dev s;
          if negb (r =? 0) then Some (-1, s) else
          if fs_root =? 0 then Some (-1, s) else
          n ← node s fs_root;
          s ← (match n_fs n with None => update fs_root (set_n_fs (Some ops)) s | Some _ => Some s end);
          let old_slot := last_index (mounted_at mountpoint) 0 (mounts s) None in
          let slot := first_index (fun m => negb (m_used m)) 0 (mounts s) in
          match (match old_slot with Some _ => old_slot | None => slot end) with
          | None =>
              n ← node s fs_root;
              s ← unmount_root (n_fs n) fs_root s;
              Some (-1, s)
          | Some target =>
              s ← (match old_slot with
                   | None => Some s
                   | Some o => m ← mounts s !! o; unmount_root (m_fs m) (m_root m) s
                   end);
              let s := set_mounts (<[target := VMount (cut VFS_MAX_NAME mountpoint) fs_root (Some ops) true]>
                                     (mounts s)) s in
              let s := if str_eqb mountpoint root_path then set_root_node fs_root s else s in
              Some (0, s)
          end
      end
  end.

Definition vfs_unmount (mountpoint : str) (s : vstate) : option (Z * vstate) :=
  match last_index (mounted_at mountpoint) 0 (mounts s) None with
  | None => Some (-1, s)
  | Some best =>
      m ← mounts s !! best;
      s ← unmount_root (m_fs m) (m_root m) s;
      let s := set_mounts (<[best := zero_mount]> (mounts s)) s in
      Some (0,
        if str_eqb mountpoint root_path then
          match first_index (mounted_at root_path) 0 (mounts s) with
          | Some i => set_root_node (m_root (nth i (mounts s) zero_mount)) s
          | None => set_root_node 0 s
          end
        else s)
  end.

Definition vfs_is_mounted (path : str) (s : vstate) : Z := b2z (existsb (mounted_at path) (mounts s)).

Definition vfs_format (fstype dev : str) (s : vstate) : option (Z * vstate) :=
  match find_fs fstype s with
  | None => Some (-1, s)
  | Some ops => match op_format (fs_table ops) with None => Some (-1, s) | Some f => f dev s end
  end.

(** ** Files *)

Definition O_CREAT : Z := 64.
Definition O_TRUNC : Z := 512.

(** The directory part and the last component; the buffers are 1024 and 256 bytes. *)
Definition split_path (path : str) : option (str * str) :=
  match strrchr_slash (cut 1024 path) with
  | None => None
  | Some (dir, comp) =>
      if 256 <=? Z.of_nat (length comp) then None
      else Some (match dir with [] => root_path | _ => dir end, comp)
  end.

(** [node->refcount++] and the result of [vfs_open]. *)
Definition take_ref (a : Z) (s : vstate) : option (Z * vstate) :=
  s ← update a (fun n => set_n_refcount (i32 (n_refcount n + 1)) n) s; Some (a, s).

(** Both [strcpy] calls write a buffer of 256 bytes. *)
Definition vfs_open (path : str) (flags mode : Z) (s : vstate) : option (Z * vstate) :=
  let resolved := make_absolute_path path s in
  '(a, s) ← vfs_resolve_path resolved s;
  if negb (a =? 0) then
    n ← node s a;
    s ← (if nz (Z.land flags O_TRUNC) && (n_type n =? VFS_FILE) && bool_decide (n_fs n = Some ramfs_name)
         then update a (set_n_size 0) s else Some s);
    take_ref a s
  else if negb (nz (Z.land flags O_CREAT)) then Some (0, s) else
  match strrchr_slash (cut 1024 resolved) with
  | None => Some (0, s)
  | Some (dir_path, name) =>
      if 256 <=? Z.of_nat (length name) then None else
      '(dir, s) ← vfs_resolve_path (match dir_path with [] => root_path | _ => dir_path end) s;
      if dir =? 0 then Some (0, s) else
      d ← node s dir;
      if negb (n_type d =? VFS_DIR) then Some (0, s) else
      match op_create (ops_of (n_fs d)) with
      | None => Some (0, s)
      | Some create =>
          '(r, s) ← create dir name (u32 mode) s;
          if negb (r =? 0) then Some (0, s) else
          d ← node s dir;
          lookup ← op_lookup (ops_of (n_fs d));
          '(r, new_node, s) ← lookup dir name s;
          if negb (r =? 0) then Some (0, s) else take_ref new_node s
      end
  end.

Definition vfs_close (a : Z) (s : vstate) : option (Z * vstate) :=
  if a =? 0 then Some (-1, s) else
  n ← node s a;
  s ← (if 0 <? n_refcount n then update a (set_n_refcount (n_refcount n - 1)) s else Some s);
  Some (0, s).

Definition vfs_read (a size offset : Z) (s : vstate) : option (Z * list Z * vstate) :=
  if a =? 0 then Some (-1, [], s) else
  n ← node s a;
  match op_read (ops_of (n_fs n)) with None => Some (-1, [], s) | Some read => read a size offset s end.

Definition vfs_write (a : Z) (buf : list Z) (offset : Z) (s : vstate) : option (Z * vstate) :=
  if a =? 0 then Some (-1, s) else
  n ← node s a;
  match op_write (ops_of (n_fs n)) with None => Some (-1, s) | Some write => write a buf offset s end.

Definition vfs_readdir (dir count : Z) (s : vstate) : option (Z * list dirent * vstate) :=
  if dir =? 0 then Some (-1, [], s) else
  n ← node s dir;
  match op_readdir (ops_of (n_fs n)) with None => Some (-1, [], s) | Some readdir => readdir dir count s end.

Definition vfs_stat (a : Z) (s : vstate) : option (Z * (Z * Z * bool) * vstate) :=
  if a =? 0 then Some (-1, (0, 0, false), s) else
  n ← node s a;
  match op_stat (ops_of (n_fs n)) with
  | Some stat => stat a s
  | None => Some (0, (n_size n, n_mode n, n_type n =? VFS_DIR), s)
  end.

(** The part shared by [vfs_mkdir], [vfs_unlink] and [vfs_symlink]: the directory of
    the path and the last component, if the directory is one. *)
Definition parent_dir (path : str) (s : vstate) : option (option (Z * vnode * str) * vstate) :=
  match split_path (make_absolute_path path s) with
  | None => Some (None, s)
  | Some (dir_path, name) =>
      '(dir, s) ← vfs_resolve_path dir_path s;
      if dir =? 0 then Some (None, s) else
      d ← node s dir;
      if negb (n_type d =? VFS_DIR) then Some (None, s) else Some (Some (dir, d, name), s)
  end.

Definition vfs_mkdir (path : str) (mode : Z) (s : vstate) : option (Z * vstate) :=
  '(p, s) ← parent_dir path s;
  match p with
  | None => Some (-1, s)
  | Some (dir, d, name) =>
      match op_mkdir (ops_of (n_fs d)) with None => Some (-1, s) | Some mkdir => mkdir dir name mode s end
  end.

Definition vfs_unlink (path : str) (s : vstate) : option (Z * vstate) :=
  '(p, s) ← parent_dir path s;
  match p with
  | None => Some (-1, s)
  | Some (dir, d, name) =>
      match op_unlink (ops_of (n_fs d)) with None => Some (-1, s) | Some unlink => unlink dir name s end
  end.

Definition vfs_rmdir (path : str) (s : vstate) : option (Z * vstate) :=
  let resolved := make_absolute_path path s in
  '(a, s) ← vfs_resolve_path resolved s;
  if a =? 0 then Some (-1, s) else
  n ← node s a;
  if negb (n_type n =? VFS_DIR) then Some (-1, s) else vfs_unlink resolved s.

Definition vfs_rename (old new : str) (s : vstate) : option (Z * vstate) :=
  match split_path (make_absolute_path old s), split_path (make_absolute_path new s) with
  | Some (old_dir_path, old_name), Some (new_dir_path, new_name) =>
      '(old_dir, s) ← vfs_resolve_path old_dir_path s;
      '(new_dir, s) ← vfs_resolve_path new_dir_path s;
      if (old_dir =? 0) || (new_dir =? 0) then Some (-1, s) else
      o ← node s old_dir;
      n ← node s new_dir;
      if negb (n_type o =? VFS_DIR) || negb (n_type n =? VFS_DIR) then Some (-1, s) else
      match op_rename (ops_of (n_fs o)) with
      | None => Some (-1, s)
      | Some rename => rename old_dir old_name new_dir new_name s
      end
  | _, _ => Some (-1, s)
  end.

Definition vfs_symlink (target linkpath : str) (s : vstate) : option (Z * vstate) :=
  '(p, s) ← parent_dir linkpath s;
  match p with
  | None => Some (-1, s)
  | Some (dir, d, name) =>
      match op_symlink (ops_of (n_fs d)) with None => Some (-1, s) | Some symlink => symlink dir name target s end
  end.

Definition vfs_readlink (path : str) (size : Z) (s : vstate) : option (Z * str * vstate) :=
  '(a, s) ← vfs_resolve_path (make_absolute_path path s) s;
  if a =? 0 then Some (-1, [], s) else
  n ← node s a;
  if negb (n_type n =? VFS_SYMLINK) then Some (-1, [], s) else
  match op_readlink (ops_of (n_fs n)) with None => Some (-1, [], s) | Some readlink => readlink a size s end.

(** ** Start-up *)

(** Code of other files: the [init] functions of the [fs_init] section (null entries
    are [None]), the registration of devfs and the copying of the boot modules. *)
Variable fs_init : list (option (vstate -> option vstate)).
Variable devfs_register : vstate -> option (Z * vstate).
Variable multiboot_modules_to_ramfs : vstate -> option vstate.

Fixpoint auto_register (l : list (option (vstate -> option vstate))) (s : vstate) : option vstate :=
  match l with
  | [] => Some s
  | None :: l => auto_register l s
  | Some init :: l => s ← init s; auto_register l s
  end.
Definition vfs_auto_register : vstate -> option vstate := auto_register fs_init.

(** "/tmp", "/dev", "/proc", "devfs", "procfs" *)
Definition s_tmp : str := [47; 116; 109; 112].
Definition s_dev : str := [47; 100; 101; 118].
Definition s_proc : str := [47; 112; 114; 111; 99].
Definition s_devfs : str := [100; 101; 118; 102; 115].
Definition s_procfs : str := [112; 114; 111; 99; 102; 115].

Definition vfs_init (s : vstate) : option (Z * vstate) :=
  let s := set_mounts (replicate VFS_MAX_MOUNTS zero_mount) s in
  let s := set_vfs_ready false (set_root_node 0 (set_fs_list [] s)) in
  let '(r, s) := vfs_register_fs (Some ramfs_name) s in
  if negb (r =? 0) then Some (-1, s) else
  s ← vfs_auto_register s;
  '(r, s) ← vfs_mount_fs ramfs_name None root_path s;
  if negb (r =? 0) then Some (-1, s) else
  let s := set_vfs_ready true s in
  if root_node s =? 0 then Some (-1, s) else
  '(_, s) ← vfs_mkdir s_tmp 511 s;
  '(_, s) ← vfs_mkdir s_dev 493 s;
  '(r, s) ← devfs_register s;
  s ← (if r =? 0 then '(_, s) ← vfs_mount_fs s_devfs None s_dev s; Some s else Some s);
  '(_, s) ← vfs_mount_fs s_procfs None s_proc s;
  s ← multiboot_modules_to_ramfs s;
  Some (0, s).

(** ** Whole files *)

(** The return value; the buffer, its contents with the final zero, and [*size]. *)
Definition vfs_read_entire (path : str) (s : vstate) : option (Z * (Z * list Z * Z) * vstate) :=
  let fail := (0, [], 0) in
  '(a, s) ← vfs_open (make_absolute_path path s) 0 0 s;
  if a =? 0 then Some (-1, fail, s) else
  n ← node s a;
  if 4294967295 <? n_size n then '(_, s) ← vfs_close a s; Some (-1, fail, s) else
  let sz := u32 (n_size n) in
  '(buf, h) ← kmalloc (u32 (sz + 1)) (vheap s);
  let s := set_vheap h s in
  if buf =? 0 then '(_, s) ← vfs_close a s; Some (-1, fail, s) else
  '(ok, bytes, s) ← (if 0 <? sz then '(r, l, s) ← vfs_read a sz 0 s; Some (r =? i32 sz, l, s)
                     else Some (true, [], s));
  if negb ok then
    h ← kfree buf (vheap s);
    '(_, s) ← vfs_close a (set_vheap h s); Some (-1, fail, s)
  else
    '(_, s) ← vfs_close a s;
    Some (0, (buf, bytes ++ [0], sz), s).

Definition vfs_write_entire (path : str) (data : list Z) (s : vstate) : option (Z * vstate) :=
  '(a, s) ← vfs_open (make_absolute_path path s) (Z.lor O_CREAT O_TRUNC) 420 s;
  if a =? 0 then Some (-1, s) else
  let size := Z.of_nat (length data) in
  '(res, s) ← (if 0 <? size then vfs_write a data 0 s else Some (0, s));
  '(_, s) ← vfs_close a s;
  Some (if res =? i32 size then 0 else -1, s).

Definition vfs_exists (path : str) (s : vstate) : option (Z * vstate) :=
  '(a, s) ← vfs_resolve_path (make_absolute_path path s) s; Some (b2z (negb (a =? 0)), s).

Definition vfs_isdir (path : str) (s : vstate) : option (Z * vstate) :=
  '(a, s) ← vfs_resolve_path (make_absolute_path path s) s;
  if a =? 0 then Some (0, s) else n ← node s a; Some (b2z (n_type n =? VFS_DIR), s).

Definition vfs_block_read (a size offset : Z) (s : vstate) : option (Z * list Z * vstate) :=
  if a =? 0 then Some (-1, [], s) else
  n ← node s a;
  if negb (n_type n =? VFS_BLOCK_DEVICE) then Some (-1, [], s) else vfs_read a size offset s.

Definition vfs_block_write (a : Z) (buf : list Z) (offset : Z) (s : vstate) : option (Z * vstate) :=
  if a =? 0 then Some (-1, s) else
  n ← node s a;
  if negb (n_type n =? VFS_BLOCK_DEVICE) then Some (-1, s) else vfs_write a buf offset s.

End Vfs.

(** * Files are arrays of bytes *)

(** The contents of a file: the first [size] bytes of its buffer. *)
Definition contents (n : vnode) : list Z := take (Z.to_nat (n_size n)) (n_bytes n).

(** The specification of a write: [buf] at [off], with zeros in a gap after the end. *)
Definition spec_write (c : list Z) (off : nat) (buf : list Z) : list Z :=
  take off (c ++ replicate (off - length c) 0) ++ buf ++ drop (off + length buf) c.

Definition spec_read (c : list Z) (off size : nat) : list Z := take size (drop off c).

Record file_ok (n : vnode) : Prop := {
  fo_type : n_type n = VFS_FILE;
  fo_size : 0 <= n_size n <= n_cap n;
  fo_cap : n_cap n = Z.of_nat (length (n_bytes n));
  fo_max : n_cap n <= 2 ^ 62;
  fo_data : n_data n = 0 -> n_cap n = 0 }.

(** The fields that path resolution and the directory operations read. *)
Definition shape (n : vnode) : str * Z * str * Z * Z * Z * option str :=
  (n_name n, n_type n, n_symlink n, n_parent n, n_children n, n_next n, n_fs n).

Lemma node_put a n s : node (put a n s) a = Some n.
Proof. unfold node, put. cbn. apply lookup_insert_eq. Qed.

Lemma node_put_ne a b n s : b <> a -> node (put a n s) b = node s b.
Proof. intros H. unfold node, put. cbn. by apply lookup_insert_ne. Qed.

Lemma put_id a n s : node s a = Some n -> put a n s = s.
Proof. intros H. destruct s. unfold put, node in *. cbn in *. unfold set_nodes. cbn. by rewrite insert_id. Qed.

Lemma put_put a n n' s : put a n (put a n' s) = put a n s.
Proof. destruct s. unfold put, set_nodes. cbn. by rewrite insert_insert_eq. Qed.

Lemma put_vheap a n h s : put a n (set_vheap h s) = set_vheap h (put a n s).
Proof. done. Qed.

Lemma update_eq a f s n : node s a = Some n -> update a f s = Some (put a (f n) s).
Proof. intros H. unfold update. by rewrite H. Qed.

Lemma overwrite_length off l bytes :
  (off + length l <= length bytes)%nat -> length (overwrite off l bytes) = length bytes.
Proof. intros H. unfold overwrite. rewrite !length_app, length_take, length_drop. lia. Qed.

Lemma grow_spec end_ : forall fuel cap,
  0 < cap <= 2 ^ 62 -> 0 < end_ <= 2 ^ 62 -> end_ <= cap * 2 ^ Z.of_nat fuel ->
  exists cap', grow fuel cap end_ = Some cap' /\ end_ <= cap' <= 2 ^ 63 /\ cap <= cap' /\
    (cap' = cap \/ cap' < 2 * end_).
Proof.
  induction fuel as [|fuel IH]; intros cap Hc He Hf; cbn [grow].
  - rewrite Nat2Z.inj_0, Z.mul_1_r in Hf. rewrite (proj2 (Z.leb_le _ _)) by lia.
    exists cap. split; [done|]. lia.
  - destruct (Z.leb_spec end_ cap) as [Hle|Hlt]; [exists cap; split; [done|]; lia|].
    rewrite Nat2Z.inj_succ, Z.pow_succ_r in Hf by lia. rewrite u64_small by lia.
    destruct (Z.leb_spec end_ (cap * 2)) as [Hle2|Hlt2].
    + exists (cap * 2). destruct fuel; cbn [grow]; rewrite (proj2 (Z.leb_le _ _)) by lia; (split; [done|]; lia).
    + destruct (IH (cap * 2)) as (c & Hg & ? & ? & ?); [lia|lia|nia|]. exists c. split; [done|]. lia.
Qed.

Section Files.
Context {live : heap -> gset Z -> Prop} `{!Allocator live}.

(** Giving back the old buffer [d] after the new one [p] was allocated. *)
Lemma swap_buffer h1 L d p :
  live h1 ({[p]} ∪ L) -> p ∉ L -> (d <> 0 -> d ∈ L) ->
  exists h2 L', (if d =? 0 then Some h1 else kfree d h1) = Some h2 /\ live h2 L' /\ L ∖ {[d]} ⊆ L' /\ p ∈ L'.
Proof.
  intros Hl1 HpL Hd. destruct (Z.eqb_spec d 0) as [H0|H0].
  - exists h1, ({[p]} ∪ L). split_and!; auto; set_solver.
  - destruct (free_ok h1 ({[p]} ∪ L) d Hl1) as (h2 & Hf & Hl2); [set_solver|].
    exists h2, (({[p]} ∪ L) ∖ {[d]}). split_and!; auto; [set_solver|]. specialize (Hd H0). set_solver.
Qed.

(** [enlarge] fails and changes nothing, or leaves room for [end_] bytes and keeps the contents. *)
Lemma enlarge_spec a n end_ s L :
  node s a = Some n -> file_ok n -> live (vheap s) L -> (n_data n <> 0 -> n_data n ∈ L) ->
  0 < end_ <= 2 ^ 61 ->
  (enlarge a end_ s = Some (false, s) /\ exists cap, end_ <= cap /\ kmalloc cap (vheap s) = Some (0, vheap s)) \/
  exists n' h' L', enlarge a end_ s = Some (true, put a n' (set_vheap h' s)) /\ file_ok n' /\
    end_ <= n_cap n' /\ contents n' = contents n /\ n_size n' = n_size n /\
    shape n' = shape n /\ n_mode n' = n_mode n /\ n_refcount n' = n_refcount n /\
    n_data n' <> 0 /\ live h' L' /\ L ∖ {[n_data n]} ⊆ L' /\ n_data n' ∈ L'.
Proof.
  intros Hn Hok Hl Hd He. pose proof Hok as [Ht Hs Hc Hm Hd0]. unfold enlarge. rewrite Hn. cbn [mbind option_bind].
  destruct (Z.leb_spec end_ (n_cap n)) as [Hle|Hlt].
  { right. exists n, (vheap s), L. assert (n_data n <> 0) by (intros H0; specialize (Hd0 H0); lia).
    split_and!; auto; [|set_solver]. by rewrite put_vheap, put_id by done; destruct s. }
  destruct (grow_spec end_ 64 (if n_cap n =? 0 then 4096 else n_cap n)) as (cap & Hg & Hcap & _ & Hcap').
  { destruct (Z.eqb_spec (n_cap n) 0); lia. } { lia. }
  { destruct (Z.eqb_spec (n_cap n) 0); nia. }
  rewrite Hg. cbn [mbind option_bind].
  assert (cap <= 2 ^ 62) by (destruct (Z.eqb_spec (n_cap n) 0); lia).
  destruct (alloc_ok (vheap s) L cap Hl) as [Hk|(p & h1 & Hk & Hp & HpL & Hl1)]; [lia|lia| |];
    rewrite Hk; cbn [mbind option_bind].
  { left. rewrite Z.eqb_refl. split; [by destruct s|]. exists cap. split; [lia|done]. }
  rewrite (proj2 (Z.eqb_neq p 0)) by done. right.
  set (fresh := replicate (Z.to_nat cap) 0).
  set (bytes := if negb (n_data n =? 0) && (0 <? n_size n) then _ else fresh).
  assert (Hb : length bytes = Z.to_nat cap /\ take (Z.to_nat (n_size n)) bytes = contents n).
  { unfold bytes, contents, fresh. destruct (Z.ltb_spec 0 (n_size n)) as [H0|H0].
    - assert (n_data n <> 0) by (intros Hz; specialize (Hd0 Hz); lia).
      rewrite (proj2 (Z.eqb_neq (n_data n) 0)) by done. cbn [negb andb]. split.
      + rewrite overwrite_length; rewrite ?length_take, ?length_replicate; [done|lia].
      + unfold overwrite. change (take 0 (replicate (Z.to_nat cap) 0)) with (@nil Z). rewrite app_nil_l, take_app_le by (rewrite length_take; lia).
        rewrite take_take. f_equal. lia.
    - rewrite andb_false_r, length_replicate. replace (Z.to_nat (n_size n)) with 0%nat by lia. done. }
  destruct Hb as [Hb1 Hb2].
  destruct (swap_buffer h1 L (n_data n) p Hl1 HpL Hd) as (h2 & L' & Hf & Hl2 & Hsub & HpL').
  change (vheap (set_vheap h1 s)) with h1. rewrite Hf. cbn [mbind option_bind].
  eexists _, h2, L'. split; [reflexivity|]. unfold shape, contents. cbn. split_and!; auto; try lia.
  split; cbn; auto; lia.
Qed.

(** The bytes the second half of [ramfs_write] leaves. *)
Lemma write_bytes_spec bytes size off buf :
  (size <= length bytes)%nat -> (off + length buf <= length bytes)%nat ->
  let b1 := if (size <? off)%nat then overwrite size (replicate (off - size) 0) bytes else bytes in
  let b2 := overwrite off buf b1 in
  length b2 = length bytes /\
  take (size `max` (off + length buf)) b2 = spec_write (take size bytes) off buf.
Proof.
  intros Hs Ho b1 b2.
  assert (Hb1 : length b1 = length bytes).
  { unfold b1. destruct (Nat.ltb_spec size off); [|done]. apply overwrite_length. rewrite length_replicate. lia. }
  assert (Hb2 : length b2 = length bytes) by (unfold b2; rewrite overwrite_length; lia).
  split; [done|]. unfold b2, overwrite, spec_write.
  assert (Hlt : length (take size bytes) = size) by (rewrite length_take; lia). rewrite Hlt.
  assert (H1 : take off b1 = take off (take size bytes ++ replicate (off - size) 0)).
  { unfold b1. destruct (Nat.ltb_spec size off) as [Hlt'|Hge].
    - unfold overwrite. rewrite app_assoc, take_app_le; [done|]. rewrite length_app, Hlt, length_replicate. lia.
    - replace (off - size)%nat with 0%nat by lia. cbn [replicate]. rewrite app_nil_r, take_take. f_equal. lia. }
  rewrite <- H1, app_assoc, (app_assoc _ buf (drop _ (take size bytes))).
  assert (Hl : length (take off b1 ++ buf) = (off + length buf)%nat) by (rewrite length_app, length_take; lia).
  rewrite take_app, Hl, take_ge by lia. f_equal.
  unfold b1. destruct (Nat.ltb_spec size off) as [Hlt'|Hge].
  - replace (_ `max` _ - _)%nat with 0%nat by lia. cbn [take]. symmetry. apply nil_length_inv. rewrite length_drop. lia.
  - rewrite skipn_firstn_comm. f_equal. lia.
Qed.

Lemma ramfs_write_refines a n buf off s L :
  a <> 0 -> node s a = Some n -> file_ok n -> live (vheap s) L -> (n_data n <> 0 -> n_data n ∈ L) ->
  buf <> [] -> 0 <= off -> off + Z.of_nat (length buf) <= 2 ^ 61 ->
  (ramfs_write a buf off s = Some (-1, s) /\
    exists cap, off + Z.of_nat (length buf) <= cap /\ kmalloc cap (vheap s) = Some (0, vheap s)) \/
  exists n' h' L', ramfs_write a buf off s = Some (i32 (Z.of_nat (length buf)), put a n' (set_vheap h' s)) /\
    file_ok n' /\ contents n' = spec_write (contents n) (Z.to_nat off) buf /\
    shape n' = shape n /\ n_refcount n' = n_refcount n /\
    n_data n' <> 0 /\ live h' L' /\ L ∖ {[n_data n]} ⊆ L' /\ n_data n' ∈ L'.
Proof.
  intros Ha Hn Hok Hl Hd Hb Ho Hmax. unfold ramfs_write. rewrite (proj2 (Z.eqb_neq a 0)) by done.
  rewrite Hn. cbn [mbind option_bind]. rewrite (fo_type _ Hok). cbn [negb Z.eqb VFS_FILE].
  replace (VFS_FILE =? VFS_FILE) with true by done. cbn [negb].
  assert (0 < Z.of_nat (length buf)) by (destruct buf; [done|cbn; lia]).
  rewrite (proj2 (Z.eqb_neq (Z.of_nat _) 0)) by lia. rewrite u64_small by lia.
  set (sz := Z.of_nat (length buf)) in *.
  destruct (enlarge_spec a n (off + sz) s L Hn Hok Hl Hd) as [[He Hno]|(n' & h' & L' & He & Hok' & Hc & Hcon & Hsz & Hsh & Hmo & Hrc & Hdn & Hl' & HL & Hdn')];
    [lia|left; rewrite He; split; done|].
  right. rewrite He. cbn [mbind option_bind]. cbn [negb].
  rewrite node_put. cbn [mbind option_bind].
  rewrite (proj2 (Z.ltb_ge (n_cap n') (off + sz))) by lia.
  pose proof Hok' as [Ht' Hs' Hc' Hm' Hd'].
  pose proof (write_bytes_spec (n_bytes n') (Z.to_nat (n_size n')) (Z.to_nat off) buf) as Hw.
  destruct Hw as [Hw1 Hw2]; [lia|lia|].
  set (b1 := if n_size n' <? off then _ else n_bytes n').
  replace b1 with (if (Z.to_nat (n_size n') <? Z.to_nat off)%nat
     then overwrite (Z.to_nat (n_size n')) (replicate (Z.to_nat off - Z.to_nat (n_size n')) 0) (n_bytes n')
     else n_bytes n').
  2:{ unfold b1. destruct (Nat.ltb_spec (Z.to_nat (n_size n')) (Z.to_nat off)), (Z.ltb_spec (n_size n') off); try lia; [|done].
      do 2 f_equal. lia. }
  set (b2 := overwrite (Z.to_nat off) buf _) in *.
  set (ns := if n_size n' <? off + sz then off + sz else n_size n').
  assert (Hns : n_size n' <= ns <= n_cap n' /\ Z.to_nat ns = (Z.to_nat (n_size n') `max` (Z.to_nat off + length buf))%nat).
  { unfold ns. destruct (Z.ltb_spec (n_size n') (off + sz)); lia. }
  destruct Hns as [Hns1 Hns2].
  exists (set_n_size ns (set_n_bytes b2 n')), h', L'.
  split. { do 2 f_equal. apply put_put. }
  split_and!; auto.
  - split; cbn; auto; lia.
  - unfold contents at 1. cbn. rewrite Hns2, Hw2. unfold contents in Hcon. by rewrite Hcon.
Qed.

(** [ramfs_read] returns the slice of the contents. *)
Lemma ramfs_read_refines a n size off s :
  a <> 0 -> node s a = Some n -> file_ok n -> 0 <= size < 2 ^ 31 -> 0 <= off ->
  let l := spec_read (contents n) (Z.to_nat off) (Z.to_nat size) in
  ramfs_read a size off s = Some (Z.of_nat (length l), l, s).
Proof.
  intros Ha Hn [Ht Hs Hc Hm _] Hsz Ho l. unfold ramfs_read. rewrite (proj2 (Z.eqb_neq a 0)) by done.
  rewrite Hn. cbn [mbind option_bind]. rewrite Ht. replace (VFS_FILE =? VFS_FILE) with true by done. cbn [negb].
  assert (Hlc : length (contents n) = Z.to_nat (n_size n)) by (unfold contents; rewrite length_take; lia).
  assert (Hll : length l = (Z.to_nat size `min` (Z.to_nat (n_size n) - Z.to_nat off))%nat)
    by (unfold l, spec_read; rewrite length_take, length_drop, Hlc; lia).
  destruct (Z.leb_spec (n_size n) off) as [Hle|Hlt].
  { rewrite (nil_length_inv l) by lia. done. }
  set (tc := if size <? n_size n - off then size else n_size n - off).
  assert (Htc : tc = Z.of_nat (length l)) by (unfold tc; destruct (Z.ltb_spec size (n_size n - off)); lia).
  rewrite (proj2 (Z.ltb_ge _ _)) by lia.
  rewrite i32_small by lia. do 3 f_equal; [done|].
  unfold l, spec_read, contents. rewrite skipn_firstn_comm, take_take. f_equal. lia.
Qed.

End Files.

(** * Directories are lists of names *)

(** The siblings from [c] up to [q]. *)
Fixpoint sseg (N : gmap Z vnode) (c : Z) (l : list Z) (q : Z) : Prop :=
  match l with
  | [] => c = q
  | a :: l => c = a /\ a <> 0 /\ exists n, N !! a = Some n /\ sseg N (n_next n) l q
  end.

Definition name_of (s : vstate) (a : Z) : str := default [] (n_name <$> node s a).

(** The specification: a directory maps the names of its children to their nodes. *)
Definition entries (s : vstate) (l : list Z) : list (str * Z) := (fun a => (name_of s a, a)) <$> l.

Fixpoint assoc (name : str) (e : list (str * Z)) : option Z :=
  match e with
  | [] => None
  | (k, a) :: e => if str_eqb k name then Some a else assoc name e
  end.

Record dir_ok (s : vstate) (dir : Z) (l : list Z) : Prop := {
  do_nz : dir <> 0;
  do_dir : exists d, node s dir = Some d /\ n_type d = VFS_DIR /\ sseg (nodes s) (n_children d) l 0;
  do_nodup : NoDup l;
  do_self : dir ∉ l;
  do_child a : a ∈ l -> exists n, node s a = Some n /\ n_parent n = dir;
  do_names : NoDup (entries s l).*1 }.

Lemma sseg_app N c l1 l2 q : sseg N c (l1 ++ l2) q <-> exists m, sseg N c l1 m /\ sseg N m l2 q.
Proof.
  revert c. induction l1 as [|a l1 IH]; intros c; cbn [sseg app].
  - split; [eauto|]. intros (m & -> & H). done.
  - split.
    + intros (-> & Ha & n & Hn & H). apply IH in H as (m & H1 & H2). exists m. eauto 10.
    + intros (m & (-> & Ha & n & Hn & H1) & H2). split_and!; auto. exists n. split; [done|]. apply IH. eauto.
Qed.

Lemma sseg_frame N a n c l q : a ∉ l -> sseg N c l q -> sseg (<[a := n]> N) c l q.
Proof.
  revert c. induction l as [|b l IH]; intros c Ha H; cbn [sseg] in *; [done|].
  apply not_elem_of_cons in Ha as [Hb Hl]. destruct H as (-> & Hnz & m & Hm & H). split_and!; auto.
  exists m. rewrite lookup_insert_ne by done. auto.
Qed.

Lemma sseg_delete N a c l q : a ∉ l -> sseg N c l q -> sseg (delete a N) c l q.
Proof.
  revert c. induction l as [|b l IH]; intros c Ha H; cbn [sseg] in *; [done|].
  apply not_elem_of_cons in Ha as [Hb Hl]. destruct H as (-> & Hnz & m & Hm & H). split_and!; auto.
  exists m. rewrite lookup_delete_ne by done. auto.
Qed.

Lemma sseg_relink N c l x q q' n :
  x ∉ l -> sseg N c (l ++ [x]) q -> N !! x = Some n ->
  sseg (<[x := set_n_next q' n]> N) c (l ++ [x]) q'.
Proof.
  intros Hx H Hn. apply sseg_app in H as (m & H1 & H2). apply sseg_app. exists m.
  split; [by apply sseg_frame|]. destruct H2 as (-> & Hnz & _). cbn [sseg]. split_and!; auto.
  exists (set_n_next q' n). by rewrite lookup_insert_eq.
Qed.

Lemma sseg_dom N c l q a : sseg N c l q -> a ∈ l -> a ∈ dom N.
Proof.
  revert c. induction l as [|b l IH]; intros c H Ha; [by apply not_elem_of_nil in Ha|].
  destruct H as (-> & _ & n & Hn & H). apply elem_of_cons in Ha as [->|Ha]; [by eapply elem_of_dom_2|eauto].
Qed.

Lemma sseg_length N c l q : NoDup l -> sseg N c l q -> (length l <= size N)%nat.
Proof.
  intros Hnd H. rewrite <- (size_dom (D:=gset Z)), <- (size_list_to_set (C:=gset Z) l) by done.
  apply subseteq_size. intros a Ha. apply elem_of_list_to_set in Ha. by eapply sseg_dom.
Qed.

(** The walk finds the entry of the specification. *)
Lemma find_sibling_spec name s l : forall fuel c,
  sseg (nodes s) c l 0 -> (length l < fuel)%nat ->
  find_sibling fuel name c s = Some (default 0 (assoc name (entries s l))).
Proof.
  induction l as [|a l IH]; intros fuel c H Hf; (destruct fuel as [|fuel]; [cbn in Hf; lia|]); cbn [find_sibling].
  - cbn in H. by subst c.
  - destruct H as (-> & Ha & n & Hn & H). rewrite (proj2 (Z.eqb_neq a 0)) by done.
    unfold node at 1. rewrite Hn. cbn [mbind option_bind entries fmap list_fmap assoc].
    replace (name_of s a) with (n_name n) by (unfold name_of, node; by rewrite Hn).
    destruct (str_eqb _ _); [done|]. apply IH; [done|]. cbn in Hf. lia.
Qed.

Lemma is_dir_ok s dir l : dir_ok s dir l -> is_dir dir s = Some true.
Proof.
  intros H. destruct (do_dir _ _ _ H) as (d & Hd & Ht & _). unfold is_dir.
  rewrite (proj2 (Z.eqb_neq dir 0)) by apply H. rewrite Hd. cbn. by rewrite Ht.
Qed.

Lemma dir_walk_fuel s dir l : dir_ok s dir l -> (length l < walk_fuel s)%nat.
Proof.
  intros H. destruct (do_dir _ _ _ H) as (d & _ & _ & Hs). apply sseg_length in Hs; [|apply H].
  unfold walk_fuel. lia.
Qed.

Lemma find_child_spec s dir l name :
  dir_ok s dir l -> ramfs_find_child dir name s = Some (default 0 (assoc name (entries s l))).
Proof.
  intros H. unfold ramfs_find_child. rewrite (is_dir_ok _ _ _ H). cbn [mbind option_bind negb].
  pose proof (dir_walk_fuel _ _ _ H). destruct (do_dir _ _ _ H) as (d & Hd & _ & Hs).
  rewrite Hd. cbn [mbind option_bind]. by apply find_sibling_spec.
Qed.

Lemma assoc_elem name e a : assoc name e = Some a -> (name, a) ∈ e.
Proof.
  induction e as [|[k b] e IH]; [done|]. cbn [assoc]. unfold str_eqb. case_bool_decide as Hk.
  - intros [= ->]. subst. apply elem_of_cons. by left.
  - intros H. apply elem_of_cons. right. auto.
Qed.

Lemma assoc_none name e : assoc name e = None <-> name ∉ e.*1.
Proof.
  induction e as [|[k b] e IH]; cbn; [split; [intros _; apply not_elem_of_nil|done]|].
  unfold str_eqb. case_bool_decide as Hk; rewrite not_elem_of_cons.
  - split; [done|]. intros [? _]. congruence.
  - rewrite IH. split; [intros; split; auto; congruence|by intros [_ ?]].
Qed.

Lemma entry_elem s l name a : (name, a) ∈ entries s l -> a ∈ l /\ name_of s a = name.
Proof. intros H. apply list_elem_of_fmap in H as (b & [= -> ->] & Hb). done. Qed.

(** A lookup returns what the specification says and leaves the state as it is. *)
Lemma lookup_spec s dir l name :
  dir_ok s dir l ->
  ramfs_lookup dir name s =
    match assoc name (entries s l) with Some a => Some (0, a, s) | None => Some (-1, 0, s) end.
Proof.
  intros H. unfold ramfs_lookup. rewrite (is_dir_ok _ _ _ H). cbn [mbind option_bind negb].
  rewrite (find_child_spec _ _ _ _ H). cbn [mbind option_bind].
  destruct (assoc name (entries s l)) as [a|] eqn:Ea; [|done]. change (default 0 (Some a)) with a.
  apply assoc_elem, entry_elem in Ea as [Ha _]. destruct (do_child _ _ _ H a Ha) as (n & Hn & Hp).
  assert (a <> 0).
  { destruct (do_dir _ _ _ H) as (d & _ & _ & Hs). apply list_elem_of_split in Ha as (l1 & l2 & ->).
    apply sseg_app in Hs as (m & _ & (_ & ? & _)). done. }
  rewrite (proj2 (Z.eqb_neq a 0)) by done. rewrite (update_eq _ _ _ _ Hn). cbn [mbind option_bind].
  rewrite put_id; [done|]. rewrite Hn. f_equal. rewrite <- Hp. by destruct n.
Qed.

(** The entries of [l] depend on the names of its nodes only. *)
Lemma entries_ext s s' l : (forall a, a ∈ l -> name_of s' a = name_of s a) -> entries s' l = entries s l.
Proof.
  intros H. unfold entries. apply list_fmap_ext. intros i a Hi. f_equal. apply H. by eapply list_elem_of_lookup_2.
Qed.

Lemma name_put s a n b : name_of (put a n s) b = if bool_decide (b = a) then n_name n else name_of s b.
Proof.
  unfold name_of. case_bool_decide as Hb; [subst; by rewrite node_put|by rewrite node_put_ne].
Qed.

Section Dirs.
Context {live : heap -> gset Z -> Prop} `{!Allocator live}.

(** The node that [new_child] makes in the directory [d] at address [dir]. *)
Definition child_node (name : str) (type mode : Z) (link : str) (dir : Z) (d : vnode) : vnode :=
  VNode name type mode 0 0 0 [] link dir 0 (n_children d) (n_fs d) 0 0 1 0.

Definition add_entry (dir p : Z) (d n : vnode) (h : heap) (s : vstate) : vstate :=
  put dir (set_n_children p d) (put p n (set_vheap h s)).

Lemma new_child_spec s dir l L name type mode link :
  dir_ok s dir l -> live (vheap s) L -> dom (nodes s) ⊆ L -> (length name < 256)%nat ->
  assoc name (entries s l) = None ->
  (new_child dir name type mode link s = Some (-1, s) /\ kmalloc sizeof_vnode (vheap s) = Some (0, vheap s)) \/
  exists p h d, node s dir = Some d /\ p ∉ L /\ p <> 0 /\ live h ({[p]} ∪ L) /\
    new_child dir name type mode link s =
      Some (0, add_entry dir p d (child_node name type mode link dir d) h s).
Proof.
  intros H Hl HL Hlen Ha. unfold new_child. rewrite (is_dir_ok _ _ _ H). cbn [mbind option_bind negb].
  rewrite (find_child_spec _ _ _ _ H), Ha. cbn [mbind option_bind].
  change (default 0 None) with 0. cbn [Z.eqb negb]. unfold vfs_create_node.
  destruct (alloc_ok (vheap s) L sizeof_vnode Hl) as [Hk|(p & h & Hk & Hp & HpL & Hl1)]; [done|done| |];
    rewrite Hk; cbn [mbind option_bind].
  { left. cbn. split; [by destruct s|done]. }
  destruct (do_dir _ _ _ H) as (d & Hd & _). right. exists p, h, d. split_and!; auto.
  rewrite (proj2 (Z.eqb_neq p 0)) by done. cbn [mbind option_bind]. rewrite (proj2 (Z.eqb_neq p 0)) by done.
  assert (Hpd : dir <> p) by (intros ->; apply HpL, HL; by eapply elem_of_dom_2).
  rewrite node_put_ne by done. change (node (set_vheap h s) dir) with (node s dir). rewrite Hd.
  cbn [mbind option_bind]. erewrite update_eq by apply node_put. cbn [mbind option_bind].
  unfold ramfs_add_child. rewrite (proj2 (Z.eqb_neq dir 0)), (proj2 (Z.eqb_neq p 0)) by (done || apply H).
  cbn [orb]. erewrite update_eq by apply node_put. cbn [mbind option_bind].
  rewrite !node_put_ne by done. change (node (set_vheap h s) dir) with (node s dir). rewrite Hd.
  cbn [mbind option_bind]. erewrite update_eq by apply node_put. cbn [mbind option_bind].
  erewrite update_eq by (rewrite !node_put_ne by done; exact Hd). cbn [mbind option_bind].
  rewrite !put_put. unfold add_entry, child_node. do 3 f_equal. f_equal. cbn.
  f_equal. unfold cut, VFS_MAX_NAME. rewrite take_ge by lia. done.
Qed.

(** The new entry is in front of the others, and the directory stays well formed. *)
Lemma add_entry_ok s dir l p d n h :
  dir_ok s dir l -> node s dir = Some d -> p ∉ dom (nodes s) -> p <> 0 ->
  n_parent n = dir -> n_next n = n_children d -> n_name n ∉ (entries s l).*1 ->
  dir_ok (add_entry dir p d n h s) dir (p :: l) /\
  entries (add_entry dir p d n h s) (p :: l) = (n_name n, p) :: entries s l.
Proof.
  intros H Hd Hp Hp0 Hpar Hnx Hname. pose proof H as [Hnz (d' & Hd' & Ht & Hs) Hnd Hself Hch Hnm].
  rewrite Hd in Hd'. injection Hd' as <-.
  assert (Hpl : p ∉ l) by (intros Hin; apply Hp; by eapply sseg_dom).
  assert (Hpd : p <> dir) by (intros ->; apply Hp; by eapply elem_of_dom_2).
  set (s' := add_entry dir p d n h s).
  assert (He : entries s' (p :: l) = (n_name n, p) :: entries s l).
  { unfold entries at 1. rewrite fmap_cons. f_equal.
    - unfold s', add_entry. rewrite name_put, bool_decide_eq_false_2, name_put, bool_decide_eq_true_2 by done. done.
    - apply (entries_ext s s'). intros a Ha. unfold s', add_entry. rewrite name_put, bool_decide_eq_false_2 by congruence.
      rewrite name_put, bool_decide_eq_false_2 by congruence. done. }
  split; [|done]. split; auto.
  - exists (set_n_children p d). unfold s', add_entry. rewrite node_put. split_and!; auto.
    cbn [n_children set_n_children sseg]. split_and!; auto. exists n. split.
    + apply lookup_insert_Some. right. split; [done|]. apply lookup_insert_eq.
    + rewrite Hnx. apply sseg_frame; [done|]. by apply sseg_frame.
  - by constructor.
  - apply not_elem_of_cons. done.
  - intros a Ha. apply elem_of_cons in Ha as [->|Ha]; unfold s', add_entry.
    + exists n. rewrite node_put_ne by done. by rewrite node_put.
    + rewrite !node_put_ne by congruence. exact (Hch a Ha).
  - rewrite He. cbn. by constructor.
Qed.

Lemma remove_sibling_walk s dir child post seg : forall fuel prev cur,
  sseg (nodes s) cur (seg ++ child :: post) 0 -> child ∉ seg -> (length seg < fuel)%nat ->
  exists fuel', remove_sibling fuel dir child prev cur s =
    remove_sibling (S fuel') dir child (default prev (last seg)) child s.
Proof.
  induction seg as [|b seg IH]; intros fuel prev cur H Hc Hf; (destruct fuel as [|fuel]; [cbn in Hf; lia|]).
  - destruct H as (-> & _). by exists fuel.
  - apply not_elem_of_cons in Hc as [Hb Hc]. destruct H as (-> & Hnz & n & Hn & H). cbn [remove_sibling].
    rewrite (proj2 (Z.eqb_neq b 0)), (proj2 (Z.eqb_neq b child)) by congruence.
    unfold node at 1. rewrite Hn. cbn [mbind option_bind]. cbn in Hf.
    destruct (IH fuel b _ H Hc) as (f & ->); [lia|]. exists f. f_equal. rewrite last_cons. by destruct (last seg).
Qed.

(** Unlinking the child behind [pre]: the node [x] that points to it is changed. *)
Lemma remove_sibling_here s dir d c child pre post fuel :
  node s dir = Some d -> node s child = Some c -> sseg (nodes s) (n_children d) (pre ++ child :: post) 0 ->
  dir ∉ pre ++ child :: post -> NoDup (pre ++ child :: post) ->
  exists x nx, x <> child /\ (x = dir \/ x ∈ pre) /\
    remove_sibling (S fuel) dir child (default 0 (last pre)) child s =
      Some (0, put child (set_n_parent 0 (set_n_next 0 c)) (put x nx s)) /\
    (exists n, node s x = Some n /\ n_name nx = n_name n /\ n_parent nx = n_parent n /\ n_type nx = n_type n) /\
    exists d', node (put x nx s) dir = Some d' /\ n_type d' = n_type d /\
      sseg (nodes (put x nx s)) (n_children d') (pre ++ post) 0.
Proof.
  intros Hd Hc Hs Hself Hnd. pose proof Hs as Hs'.
  apply sseg_app in Hs as (m & Hs1 & (-> & Hcz & c' & Hc' & Hs2)).
  unfold node in Hc. rewrite Hc in Hc'. injection Hc' as <-.
  apply NoDup_app in Hnd as (Hnd1 & Hdis & Hnd2). apply NoDup_cons in Hnd2 as [Hcp Hnd2].
  apply not_elem_of_app in Hself as [Hdp Hself]. apply not_elem_of_cons in Hself as [Hdc Hdpost].
  cbn [remove_sibling]. rewrite (proj2 (Z.eqb_neq child 0)), Z.eqb_refl by done. unfold node at 1. rewrite Hc.
  cbn [mbind option_bind]. destruct (last pre) as [x|] eqn:El.
  - apply last_Some in El as (pre0 & ->). change (default 0 (Some x)) with x.
    apply NoDup_app in Hnd1 as (_ & Hd0 & _).
    assert (Hx0 : x ∉ pre0) by (intros Hin; eapply Hd0; [done|]; by apply list_elem_of_singleton).
    assert (Hxp : x ∈ pre0 ++ [x]) by (apply elem_of_app; right; by apply list_elem_of_singleton).
    pose proof (Hdis x Hxp) as Hxc. apply not_elem_of_cons in Hxc as [Hxc Hxpost].
    pose proof Hs1 as Hsx. apply sseg_app in Hsx as (m' & _ & (-> & Hxz & nx & Hnx & _)).
    rewrite (proj2 (Z.eqb_neq x 0)) by done. exists x, (set_n_next (n_next c) nx). split_and!; auto.
    + erewrite (update_eq x) by exact Hnx. cbn [mbind option_bind].
      erewrite update_eq by (rewrite node_put_ne by congruence; exact Hc). cbn [mbind option_bind].
      erewrite update_eq by apply node_put. cbn [mbind option_bind]. by rewrite put_put.
    + exists nx. done.
    + exists d. assert (dir <> x) by (intros ->; apply Hdp; done). rewrite node_put_ne by done. split_and!; auto.
      apply sseg_app. exists (n_next c). split; [by eapply sseg_relink|]. by apply sseg_frame.
  - apply last_None in El as ->. change (default 0 None) with 0. cbn [Z.eqb].
    exists dir, (set_n_children (n_next c) d). cbn in Hs1. split_and!; auto.
    + erewrite (update_eq dir) by exact Hd. cbn [mbind option_bind].
      erewrite update_eq by (rewrite node_put_ne by congruence; exact Hc). cbn [mbind option_bind].
      erewrite update_eq by apply node_put. cbn [mbind option_bind]. by rewrite put_put.
    + exists d. done.
    + exists (set_n_children (n_next c) d). rewrite node_put. split_and!; auto.
      cbn [app n_children set_n_children]. by apply sseg_frame.
Qed.

Lemma remove_child_spec s dir child c pre post :
  dir_ok s dir (pre ++ child :: post) -> node s child = Some c ->
  exists s', ramfs_remove_child dir child s = Some (0, s') /\ dir_ok s' dir (pre ++ post) /\
    entries s' (pre ++ post) = entries s (pre ++ post) /\
    node s' child = Some (set_n_parent 0 (set_n_next 0 c)) /\
    vheap s' = vheap s /\ dom (nodes s') = dom (nodes s) /\
    (forall b, b ∉ pre ++ child :: post -> b <> dir -> node s' b = node s b).
Proof.
  intros H Hc. pose proof H as [Hnz (d & Hd & Ht & Hs) Hnd Hself Hch Hnm].
  destruct (NoDup_app pre (child :: post)) as [Hnd' _]. destruct (Hnd' Hnd) as (Hndp & Hdis & Hndq).
  apply NoDup_cons in Hndq as [Hcpost Hndpost].
  assert (Hcpre : child ∉ pre) by (intros Hin; eapply Hdis; [done|]; apply elem_of_cons; by left).
  assert (Hcl : child ∉ pre ++ post) by (rewrite not_elem_of_app; done).
  assert (Hdc : dir <> child) by (intros ->; apply Hself, elem_of_app; right; apply elem_of_cons; by left).
  assert (Hsub : forall a, a ∈ pre ++ post -> a ∈ pre ++ child :: post)
    by (intros a; rewrite !elem_of_app, elem_of_cons; tauto).
  pose proof (dir_walk_fuel _ _ _ H) as Hf. rewrite length_app in Hf.
  destruct (remove_sibling_walk s dir child post pre (walk_fuel s) 0 (n_children d) Hs Hcpre) as (f & Hw); [lia|].
  destruct (remove_sibling_here s dir d c child pre post f Hd Hc Hs Hself Hnd)
    as (x & nx & Hxc & Hx & Hr & (n & Hn & Hnn & Hnp & Hnt) & d' & Hd' & Ht' & Hs').
  set (s' := put child (set_n_parent 0 (set_n_next 0 c)) (put x nx s)) in *.
  assert (Hname : forall a, a ∈ pre ++ post -> name_of s' a = name_of s a).
  { intros a Ha. unfold s'. rewrite name_put, bool_decide_eq_false_2 by congruence.
    rewrite name_put. case_bool_decide; [|done]. subst. unfold name_of. rewrite Hn. done. }
  pose proof (entries_ext s s' _ Hname) as He.
  exists s'. split_and!; auto.
  - unfold ramfs_remove_child. assert (child <> 0).
    { apply sseg_app in Hs as (m & _ & (_ & ? & _)). done. }
    rewrite (proj2 (Z.eqb_neq dir 0)), (proj2 (Z.eqb_neq child 0)) by done. cbn [orb]. rewrite Hd.
    cbn [mbind option_bind]. by rewrite Hw.
  - split; auto.
    + exists d'. unfold s'. rewrite node_put_ne by done. split_and!; [done|congruence|]. by apply sseg_frame.
    + apply NoDup_app. split_and!; auto. intros a Ha Hp. eapply Hdis; [done|]. apply elem_of_cons. by right.
    + intros a Ha. destruct (Hch a (Hsub a Ha)) as (na & Hna & Hpa). unfold s'.
      rewrite node_put_ne by congruence. destruct (decide (a = x)) as [->|Hax].
      * exists nx. rewrite node_put. split; [done|]. rewrite Hn in Hna. injection Hna as <-. congruence.
      * exists na. rewrite node_put_ne by done. done.
    + rewrite He. unfold entries in *. rewrite <- list_fmap_compose in *. rewrite fmap_app in *. cbn in Hnm.
      apply NoDup_app in Hnm as (? & Hd3 & Hn3). apply NoDup_cons in Hn3 as [_ ?].
      apply NoDup_app. split_and!; auto. intros y Hy Hy'. eapply Hd3; [done|]. apply elem_of_cons. by right.
  - unfold s'. apply node_put.
  - unfold s', put. cbn. rewrite !dom_insert_L.
    assert (x ∈ dom (nodes s)) by (by eapply elem_of_dom_2). assert (child ∈ dom (nodes s)) by (by eapply elem_of_dom_2).
    clear -H0 H1. set_solver.
  - intros b Hb Hbd. unfold s'. assert (b <> child) by (intros ->; apply Hb, elem_of_app; right; apply elem_of_cons; by left).
    rewrite !node_put_ne; auto. intros ->. destruct Hx as [->|Hx]; [done|]. apply Hb, elem_of_app. by left.
Qed.

(** Freeing a node without children gives back its buffer and the node. *)
Lemma free_leaf fuel a n s L :
  a <> 0 -> node s a = Some n -> n_children n = 0 -> live (vheap s) L -> a ∈ L ->
  (n_data n <> 0 -> n_data n ∈ L /\ n_data n <> a) ->
  exists h, ramfs_free_node (S fuel) a s = Some (set_vheap h (set_nodes (delete a (nodes s)) s)) /\
    live h (L ∖ {[n_data n]} ∖ {[a]}).
Proof.
  intros Ha Hn Hc Hl HaL Hd. cbn [ramfs_free_node]. rewrite (proj2 (Z.eqb_neq a 0)) by done.
  rewrite Hn. cbn [mbind option_bind]. rewrite Hc.
  assert (Hz : 0 ∉ L) by (eapply live_nonnull; exact Hl).
  destruct fuel; cbn [Z.eqb mbind option_bind].
  all: assert (exists h1, (if n_data n =? 0 then Some (vheap s) else kfree (n_data n) (vheap s)) = Some h1 /\
         live h1 (L ∖ {[n_data n]})) as (h1 & Hf & Hl1).
  1,3: destruct (Z.eqb_spec (n_data n) 0) as [H0|H0];
       [exists (vheap s); split; [done|]; rewrite H0; replace (L ∖ {[0]}) with L by set_solver; done
       |apply free_ok; [done|apply Hd; done]].
  all: rewrite Hf; cbn [mbind option_bind]; unfold release;
       destruct (free_ok h1 (L ∖ {[n_data n]}) a Hl1) as (h2 & Hf2 & Hl2);
       [destruct (decide (n_data n = 0)) as [H0|H0]; [set_solver|destruct (Hd H0); set_solver]|];
       exists h2; change (vheap (set_vheap h1 s)) with h1; rewrite Hf2; done.
Qed.

Lemma assoc_split s l name a :
  assoc name (entries s l) = Some a -> NoDup (entries s l).*1 ->
  exists pre post, l = pre ++ a :: post /\
    entries s (pre ++ post) = filter (fun e => e.1 <> name) (entries s l).
Proof.
  intros Ha Hnd. apply assoc_elem in Ha. pose proof (entry_elem _ _ _ _ Ha) as [Hal Hnm].
  apply list_elem_of_split in Hal as (pre & post & ->). exists pre, post. split; [done|].
  unfold entries in *. rewrite !fmap_app, fmap_cons in *. cbn [fst] in *. rewrite Hnm in Hnd |- *.
  set (e1 := (fun a => _) <$> pre) in *. set (e2 := (fun a => _) <$> post) in *.
  rewrite filter_app, filter_cons_False by (cbn; tauto).
  apply NoDup_app in Hnd as (_ & Hd & Hn2). apply NoDup_cons in Hn2 as [Hn2 _].
  f_equal; symmetry; apply filter_all; intros [k b] Hk; cbn; intros ->.
  - apply (Hd name); [|apply elem_of_cons; by left]. apply list_elem_of_fmap. by exists (name, b).
  - apply Hn2. apply list_elem_of_fmap. by exists (name, b).
Qed.

Lemma unlink_entry s dir l L name a c :
  dir_ok s dir l -> live (vheap s) L -> assoc name (entries s l) = Some a -> node s a = Some c ->
  n_children c = 0 -> a ∈ L -> (n_data c <> 0 -> n_data c ∈ L /\ n_data c <> a) ->
  exists s' l', ramfs_unlink dir name s = Some (0, s') /\ dir_ok s' dir l' /\
    entries s' l' = filter (fun e => e.1 <> name) (entries s l) /\ node s' a = None /\
    live (vheap s') (L ∖ {[n_data c]} ∖ {[a]}) /\
    (forall b, b ∉ l -> b <> dir -> node s' b = node s b).
Proof.
  intros H Hl Ha Hc Hcc HaL Hd. unfold ramfs_unlink. rewrite (is_dir_ok _ _ _ H). cbn [mbind option_bind negb].
  rewrite (find_child_spec _ _ _ _ H), Ha. cbn [mbind option_bind]. change (default 0 (Some a)) with a.
  destruct (assoc_split _ _ _ _ Ha (do_names _ _ _ H)) as (pre & post & -> & He).
  assert (Hanz : a <> 0) by (destruct (do_dir _ _ _ H) as (d & _ & _ & Hs); apply sseg_app in Hs as (m & _ & (_ & ? & _)); done).
  rewrite (proj2 (Z.eqb_neq a 0)) by done. rewrite Hc. cbn [mbind option_bind]. rewrite Hcc.
  replace (0 =? 0) with true by done. cbn [negb]. rewrite andb_false_r.
  destruct (remove_child_spec s dir a c pre post H Hc) as (s1 & Hr & H1 & He1 & Hn1 & Hv & Hdom & Hfr).
  rewrite Hr. cbn [mbind option_bind]. replace (negb (0 =? 0)) with false by done.
  rewrite <- Hv in Hl. unfold walk_fuel.
  destruct (free_leaf (size (nodes s1)) a _ s1 L Hanz Hn1 Hcc Hl HaL Hd) as (h & Hf & Hl').
  rewrite Hf. cbn [mbind option_bind]. eexists _, (pre ++ post). split; [reflexivity|].
  assert (Hnd : a ∉ pre ++ post).
  { pose proof (do_nodup _ _ _ H) as Hnd. rewrite <- Permutation_middle in Hnd. by apply NoDup_cons in Hnd as [? _]. }
  assert (Hna : dir <> a) by (intros ->; apply (do_self _ _ _ H), elem_of_app; right; apply elem_of_cons; by left).
  set (s2 := set_vheap h (set_nodes (delete a (nodes s1)) s1)).
  assert (Hne : forall b, b <> a -> node s2 b = node s1 b) by (intros b Hb; unfold node, s2; cbn; by rewrite lookup_delete_ne).
  assert (He2 : entries s2 (pre ++ post) = entries s1 (pre ++ post)).
  { apply entries_ext. intros b Hb. unfold name_of. rewrite Hne; [done|]. by intros ->. }
  destruct H1 as [Hz1 (d1 & Hd1 & Ht1 & Hs1) Hnd1 Hself1 Hch1 Hnm1]. split_and!.
  - split; auto.
    + exists d1. rewrite Hne by done. split_and!; auto. unfold s2. cbn. by apply sseg_delete.
    + intros b Hb. rewrite Hne by congruence. auto.
    + by rewrite He2.
  - by rewrite He2, He1.
  - unfold node, s2. cbn. apply lookup_delete_eq.
  - exact Hl'.
  - intros b Hb Hbd. rewrite Hne; [auto|]. intros ->. apply Hb, elem_of_app. right. apply elem_of_cons. by left.
Qed.

End Dirs.

(** * Path resolution *)

(** A tree of ramfs directories: every directory is well formed, and parents, mounts
    and the root are null or nodes. *)
Record tree_ok (s : vstate) : Prop := {
  to_dirs a n : node s a = Some n -> n_type n = VFS_DIR -> exists l, dir_ok s a l;
  to_fs a n : node s a = Some n -> n_fs n = Some ramfs_name;
  to_nz a n : node s a = Some n -> a <> 0;
  to_parent a n : node s a = Some n -> n_parent n = 0 \/ is_Some (node s (n_parent n));
  to_mounts m : m ∈ mounts s -> m_root m = 0 \/ is_Some (node s (m_root m));
  to_root : root_node s = 0 \/ is_Some (node s (root_node s)) }.

(** The states that differ in file contents, modes, reference counts and the heap only. *)
Record same_shape (s s' : vstate) : Prop := {
  ss_nodes a : shape <$> node s' a = shape <$> node s a;
  ss_mounts : mounts s' = mounts s;
  ss_root : root_node s' = root_node s;
  ss_ready : vfs_ready s' = vfs_ready s;
  ss_cwd : cwd s' = cwd s;
  ss_chroot : chroot s' = chroot s }.

Lemma same_shape_node s s' a n :
  same_shape s s' -> node s a = Some n -> exists n', node s' a = Some n' /\ shape n' = shape n.
Proof.
  intros H Hn. pose proof (ss_nodes _ _ H a) as Hs. rewrite Hn in Hs. cbn in Hs.
  destruct (node s' a) as [n'|]; [|done]. exists n'. split; [done|]. by apply (inj Some) in Hs.
Qed.

Lemma same_shape_sym s s' : same_shape s s' -> same_shape s' s.
Proof. intros [H1 H2 H3 H4 H5 H6]. split; auto; intros a; by rewrite H1. Qed.

Lemma same_shape_put s a n n' h :
  node s a = Some n -> shape n' = shape n -> same_shape s (put a n' (set_vheap h s)).
Proof.
  intros Hn Hs. split; try done. intros b. destruct (decide (b = a)) as [->|Hb].
  - rewrite node_put, Hn. cbn. by rewrite Hs.
  - rewrite node_put_ne by done. done.
Qed.

Lemma same_shape_trans s1 s2 s3 : same_shape s1 s2 -> same_shape s2 s3 -> same_shape s1 s3.
Proof. intros [A1 A2 A3 A4 A5 A6] [B1 B2 B3 B4 B5 B6]. split; try congruence. Qed.

#[export] Instance same_shape_equiv : Equivalence same_shape.
Proof.
  split.
  - intros s. by split.
  - intros s s'. apply same_shape_sym.
  - intros s1 s2 s3. apply same_shape_trans.
Qed.

Lemma same_shape_sseg s s' c l q :
  same_shape s s' -> sseg (nodes s) c l q -> sseg (nodes s') c l q.
Proof.
  intros H. revert c. induction l as [|a l IH]; intros c; cbn [sseg]; [done|].
  intros (-> & Hz & n & Hn & Hs). destruct (same_shape_node s s' a n H Hn) as (n' & Hn' & Hsh).
  split_and!; auto. exists n'. split; [exact Hn'|]. unfold shape in Hsh. injection Hsh as _ _ _ _ _ Hnx _.
  rewrite Hnx. auto.
Qed.

Lemma same_shape_name s s' a : same_shape s s' -> name_of s' a = name_of s a.
Proof.
  intros H. unfold name_of. pose proof (ss_nodes _ _ H a) as Hs.
  destruct (node s a), (node s' a); cbn in *; try done. unfold shape in Hs. by injection Hs as -> _ _ _ _ _ _.
Qed.

Lemma same_shape_entries s s' l : same_shape s s' -> entries s' l = entries s l.
Proof. intros H. apply entries_ext. intros a _. by apply same_shape_name. Qed.

Lemma dir_ok_shape s s' dir l : same_shape s s' -> dir_ok s dir l -> dir_ok s' dir l.
Proof.
  intros H [H1 (d & Hd & Ht & Hs) H3 H4 H5 H6].
  destruct (same_shape_node s s' dir d H Hd) as (d' & Hd' & Hsh). unfold shape in Hsh. injection Hsh as _ Ety _ _ Ech _ _.
  split; auto.
  - exists d'. split_and!; [done|congruence|]. rewrite Ech. by eapply same_shape_sseg.
  - intros a Ha. destruct (H5 a Ha) as (n & Hn & Hp). destruct (same_shape_node s s' a n H Hn) as (n' & Hn' & Hsh).
    exists n'. split; [done|]. unfold shape in Hsh. injection Hsh as _ _ _ Hpa _ _ _. congruence.
  - by rewrite (same_shape_entries s s').
Qed.

Lemma same_shape_is_node s s' a : same_shape s s' -> is_Some (node s a) -> is_Some (node s' a).
Proof. intros H [n Hn]. destruct (same_shape_node s s' a n H Hn) as (n' & -> & _). by eexists. Qed.

Lemma tree_ok_shape s s' : same_shape s s' -> tree_ok s -> tree_ok s'.
Proof.
  intros H [T1 T2 T3 T4 T5 T6]. pose proof (same_shape_sym _ _ H) as H'.
  split.
  - intros a n' Hn' Ht. destruct (same_shape_node s' s a n' H' Hn') as (n & Hn & Hsh).
    unfold shape in Hsh. injection Hsh as _ Ety _ _ _ _ _. destruct (T1 a n Hn) as (l & Hl); [congruence|].
    exists l. by eapply dir_ok_shape.
  - intros a n' Hn'. destruct (same_shape_node s' s a n' H' Hn') as (n & Hn & Hsh).
    unfold shape in Hsh. injection Hsh as _ _ _ _ _ _ E. specialize (T2 a n Hn). congruence.
  - intros a n' Hn'. destruct (same_shape_node s' s a n' H' Hn') as (n & Hn & _). eauto.
  - intros a n' Hn'. destruct (same_shape_node s' s a n' H' Hn') as (n & Hn & Hsh).
    unfold shape in Hsh. injection Hsh as _ _ _ E _ _ _. destruct (T4 a n Hn) as [?|?]; [left; congruence|right].
    rewrite <- E. by eapply same_shape_is_node.
  - intros m Hm. rewrite (ss_mounts _ _ H) in Hm. destruct (T5 m Hm); [by left|right]. by eapply same_shape_is_node.
  - rewrite (ss_root _ _ H). destruct T6; [by left|right]. by eapply same_shape_is_node.
Qed.

Section Resolve.
Variable other : str -> fs_ops.

Lemma ops_ramfs : ops_of other (Some ramfs_name) = ramfs_ops.
Proof. done. Qed.

Lemma ops_node s a n : tree_ok s -> node s a = Some n -> ops_of other (n_fs n) = ramfs_ops.
Proof. intros H Hn. by rewrite (to_fs _ H _ _ Hn). Qed.

Lemma lookup_one_spec s a l name :
  tree_ok s -> dir_ok s a l ->
  lookup_one other a name s =
    match assoc name (entries s l) with Some b => Some (0, b, s) | None => Some (-1, 0, s) end.
Proof.
  intros H Hd. unfold lookup_one. rewrite (proj2 (Z.eqb_neq a 0)) by apply Hd.
  destruct (do_dir _ _ _ Hd) as (d & Hn & _). rewrite Hn. cbn [mbind option_bind].
  rewrite (ops_node _ _ _ H Hn). cbn [op_lookup ramfs_ops]. by apply lookup_spec.
Qed.

Lemma skip_slashes_length p : (length (skip_slashes p) <= length p)%nat.
Proof. induction p as [|c p IH]; cbn; [done|]. destruct (_ =? _); cbn; lia. Qed.

Lemma skip_slashes_head c p q : skip_slashes p = c :: q -> c <> slash.
Proof.
  induction p as [|b p IH]; cbn; [done|]. destruct (Z.eqb_spec b slash); [done|]. intros [= -> ->]. done.
Qed.

Lemma until_slash_app p : forall a r, until_slash p = (a, r) -> p = a ++ r.
Proof.
  induction p as [|c p IH]; intros a r; cbn [until_slash]; [by intros [= <- <-]|].
  destruct (_ =? _); [by intros [= <- <-]|].
  destruct (until_slash p) as [a' r'] eqn:E. intros [= <- <-]. cbn. f_equal. by apply IH.
Qed.

(** A round of the loop consumes the component it looks up. *)
Lemma component_shorter p c q a r :
  skip_slashes p = c :: q -> until_slash (c :: q) = (a, r) -> (length r < length p)%nat.
Proof.
  intros Hs Hu. pose proof (skip_slashes_length p) as Hl. rewrite Hs in Hl.
  pose proof (skip_slashes_head _ _ _ Hs) as Hc. pose proof (until_slash_app _ _ _ Hu) as Happ.
  cbn [until_slash] in Hu. rewrite (proj2 (Z.eqb_neq c slash)) in Hu by done.
  destruct (until_slash q) as [a' r']. injection Hu as <- <-.
  apply (f_equal length) in Happ. rewrite length_app in Happ. cbn in *. lia.
Qed.

Lemma walk_path_total s : tree_ok s -> forall fuel p a,
  is_Some (node s a) -> (length p < fuel)%nat ->
  exists b, (forall s', same_shape s s' -> walk_path other fuel p a s' = Some (b, s')) /\
    (b = 0 \/ is_Some (node s b)).
Proof.
  intros H. induction fuel as [|fuel IH]; intros p a [n Hn] Hf; [lia|]. cbn [walk_path].
  destruct (skip_slashes p) as [|c q] eqn:Es; [exists a; split; [done|]; right; by eexists|].
  destruct (until_slash (c :: q)) as [comp rest] eqn:Eu.
  pose proof (component_shorter _ _ _ _ _ Es Eu) as Hr.
  assert (Hrest : (length rest < fuel)%nat) by lia.
  destruct (str_eqb comp dot) eqn:E1; [by apply IH; [eexists|]|].
  assert (Hcase : forall s', same_shape s s' -> exists n', node s' a = Some n' /\ shape n' = shape n)
    by (intros s' Hss; by eapply same_shape_node).
  destruct (str_eqb comp dotdot) eqn:E2.
  { destruct (IH rest (if n_parent n =? 0 then a else n_parent n)) as (b & Hb & Hbn); [|done|].
    { destruct (Z.eqb_spec (n_parent n) 0); [by eexists|]. by destruct (to_parent _ H _ _ Hn). }
    exists b. split; [|done]. intros s' Hss. destruct (Hcase s' Hss) as (n' & Hn' & Hsh). rewrite Hn'.
    cbn [mbind option_bind]. unfold shape in Hsh. injection Hsh as _ _ _ Hpa _ _ _. rewrite Hpa. by apply Hb. }
  destruct (Z.eqb_spec (n_type n) VFS_DIR) as [Ht|Ht].
  - destruct (to_dirs _ H _ _ Hn Ht) as (l & Hl). destruct (assoc comp (entries s l)) as [b|] eqn:Ea.
    + destruct (IH rest b) as (e & He & Hen); [|done|].
      { apply assoc_elem, entry_elem in Ea as [Hb _]. destruct (do_child _ _ _ Hl b Hb) as (nb & Hnb & _). by eexists. }
      exists e. split; [|done]. intros s' Hss. destruct (Hcase s' Hss) as (n' & Hn' & Hsh). rewrite Hn'.
      cbn [mbind option_bind]. unfold shape in Hsh. injection Hsh as _ Ety _ _ _ _ _. rewrite Ety, Ht.
      replace (VFS_DIR =? VFS_DIR) with true by done. cbn [negb].
      rewrite (lookup_one_spec s' a l) by (by eapply tree_ok_shape || by eapply dir_ok_shape).
      rewrite (same_shape_entries s s' l Hss), Ea. cbn [mbind option_bind Z.eqb negb]. by apply He.
    + exists 0. split; [|by left]. intros s' Hss. destruct (Hcase s' Hss) as (n' & Hn' & Hsh). rewrite Hn'.
      cbn [mbind option_bind]. unfold shape in Hsh. injection Hsh as _ Ety _ _ _ _ _. rewrite Ety, Ht.
      replace (VFS_DIR =? VFS_DIR) with true by done. cbn [negb].
      rewrite (lookup_one_spec s' a l) by (by eapply tree_ok_shape || by eapply dir_ok_shape).
      by rewrite (same_shape_entries s s' l Hss), Ea.
  - exists 0. split; [|by left]. intros s' Hss. destruct (Hcase s' Hss) as (n' & Hn' & Hsh). rewrite Hn'.
    cbn [mbind option_bind]. unfold shape in Hsh. injection Hsh as _ Ety _ _ _ _ _. rewrite Ety.
    by rewrite (proj2 (Z.eqb_neq _ _)) by done.
Qed.

Lemma resolve_total s : tree_ok s -> forall levels path,
  exists b, (forall s', same_shape s s' -> resolve_path_internal other levels path s' = Some (b, s')) /\
    (b = 0 \/ is_Some (node s b)).
Proof.
  intros H. induction levels as [|levels IH]; intros path; [exists 0; split; [done|by left]|]. cbn [resolve_path_internal].
  destruct (vfs_ready s) eqn:Er.
  2:{ exists 0. split; [|by left]. intros s' Hss. by rewrite (ss_ready _ _ Hss), Er. }
  destruct path as [|c path].
  { exists (root_node s). split; [|apply H]. intros s' Hss. by rewrite (ss_ready _ _ Hss), (ss_root _ _ Hss), Er. }
  destruct (Z.eqb_spec c slash) as [->|Hc].
  2:{ exists 0. split; [|by left]. intros s' Hss. by rewrite (ss_ready _ _ Hss), Er. }
  set (path' := slash :: path).
  assert (Hfm : forall s', same_shape s s' -> find_mount path' s' = find_mount path' s)
    by (intros s' Hss; unfold find_mount; by rewrite (ss_mounts _ _ Hss)).
  destruct (find_mount path' s) as [[m rel]|] eqn:Ef.
  2:{ exists 0. split; [|by left]. intros s' Hss. by rewrite (ss_ready _ _ Hss), Er, (Hfm s' Hss). }
  assert (Hm : m_root m = 0 \/ is_Some (node s (m_root m))).
  { unfold find_mount in Ef. destruct (find_mount_loop _ _ _ _ _) as [[i|] len]; [|done].
    destruct (mounts s !! i) as [m'|] eqn:Ei; [|done]. injection Ef as -> _.
    apply (to_mounts _ H). by eapply list_elem_of_lookup_2. }
  destruct (Z.eqb_spec (m_root m) 0) as [Hz|Hz].
  { exists 0. split; [|by left]. intros s' Hss. by rewrite (ss_ready _ _ Hss), Er, (Hfm s' Hss), Hz. }
  destruct Hm as [?|[n Hn]]; [done|].
  set (target := if n_type n =? VFS_SYMLINK then take 255 (n_symlink n) else []).
  assert (Hgo : exists b, (forall s', same_shape s s' ->
      (if char_at 0 target =? slash then resolve_path_internal other levels target s' else
       match rel with [] => Some (m_root m, s')
       | _ => let tmp := cut 1024 rel in walk_path other (S (length tmp)) tmp (m_root m) s' end) = Some (b, s')) /\
      (b = 0 \/ is_Some (node s b))).
  { destruct (_ =? slash); [apply IH|]. destruct rel as [|r rel]; [exists (m_root m); split; [done|right; by eexists]|].
    apply (walk_path_total s H); [by eexists|lia]. }
  destruct Hgo as (b & Hb & Hbn). exists b. split; [|done]. intros s' Hss.
  rewrite (ss_ready _ _ Hss), Er, (Hfm s' Hss). cbn [negb]. replace (slash =? slash) with true by done. cbn [negb].
  rewrite (proj2 (Z.eqb_neq (m_root m) 0)) by done. destruct (same_shape_node _ _ _ _ Hss Hn) as (n' & Hn' & Hsh).
  rewrite Hn'. cbn [mbind option_bind]. rewrite (ops_node s' _ _ (tree_ok_shape _ _ Hss H) Hn').
  unfold shape in Hsh. injection Hsh as _ Ety Esl _ _ _ _. rewrite Ety. specialize (Hb s' Hss).
  unfold target in Hb. destruct (n_type n =? VFS_SYMLINK) eqn:Esy; cbn [op_readlink ramfs_ops mbind option_bind]; [|exact Hb].
  unfold ramfs_readlink. rewrite (proj2 (Z.eqb_neq (m_root m) 0)) by done. cbn [orb]. change (256 =? 0) with false.
  rewrite Hn'. cbn [mbind option_bind]. rewrite Ety, Esy. cbn [negb mbind option_bind].
  rewrite Esl. exact Hb.
Qed.

Lemma vfs_resolve_total s : tree_ok s -> forall path,
  exists b, (forall s', same_shape s s' -> vfs_resolve_path other path s' = Some (b, s')) /\
    (b = 0 \/ is_Some (node s b)).
Proof.
  intros H path. unfold vfs_resolve_path.
  set (full := fun s => if negb (str_eqb (chroot s) []) && negb (str_eqb (chroot s) root_path)
    && (char_at 0 (make_absolute_path path s) =? slash)
    then if str_eqb (make_absolute_path path s) root_path then cut 1024 (chroot s)
         else cut 1024 (chroot s ++ make_absolute_path path s) else make_absolute_path path s).
  destruct (resolve_total s H 9 (full s)) as (b & Hb & Hbn). exists b. split; [|done]. intros s' Hss.
  specialize (Hb s' Hss). unfold full in Hb.
  assert (Hm : make_absolute_path path s' = make_absolute_path path s)
    by (unfold make_absolute_path; by rewrite (ss_cwd _ _ Hss)).
  rewrite Hm, (ss_chroot _ _ Hss). by destruct (_ && _ && _).
Qed.

End Resolve.

#[export] Instance tree_ok_proper : Proper (same_shape ==> iff) tree_ok.
Proof. intros s s' H. split; apply tree_ok_shape; [done|by symmetry]. Qed.

(** ** Mount points *)

Lemma find_mount_loop_spec path ms : forall i best bl,
  let r := find_mount_loop path i ms best bl in
  (bl <= r.2)%nat /\
  Forall (fun m => mount_matches path m = true -> (length (m_path m) <= r.2)%nat) ms /\
  (r = (best, bl) \/
   exists j m, ms !! j = Some m /\ r = (Some (i + j)%nat, length (m_path m)) /\
     mount_matches path m = true).
Proof.
  induction ms as [|m ms IH]; intros i best bl; cbn [find_mount_loop]; [split_and!; auto|].
  destruct (mount_matches path m) eqn:Em; cbn [andb]; [destruct (Nat.ltb_spec bl (length (m_path m))) as [Hlt|Hge]|].
  - destruct (IH (S i) (Some i) (length (m_path m))) as (H1 & H2 & H3). split_and!; [lia|by constructor|].
    right. destruct H3 as [->|(j & m' & Hj & -> & Hm)].
    + exists 0%nat, m. by rewrite Nat.add_0_r.
    + exists (S j), m'. split_and!; auto. by rewrite Nat.add_succ_r.
  - destruct (IH (S i) best bl) as (H1 & H2 & H3). split_and!; [done|constructor; [lia|done]|].
    destruct H3 as [->|(j & m' & Hj & -> & Hm)]; [by left|right].
    exists (S j), m'. split_and!; auto. by rewrite Nat.add_succ_r.
  - destruct (IH (S i) best bl) as (H1 & H2 & H3). split_and!; [done|constructor; [congruence|done]|].
    destruct H3 as [->|(j & m' & Hj & -> & Hm)]; [by left|right].
    exists (S j), m'. split_and!; auto. by rewrite Nat.add_succ_r.
Qed.

Lemma skip_slashes_app p : exists k, p = replicate k slash ++ skip_slashes p.
Proof.
  induction p as [|c p [k Hk]]; [by exists 0%nat|]. cbn [skip_slashes].
  destruct (Z.eqb_spec c slash) as [->|]; [exists (S k); cbn; by rewrite <- Hk|by exists 0%nat].
Qed.

Lemma strrchr_slash_spec p :
  match strrchr_slash p with
  | Some (a, b) => p = a ++ slash :: b /\ slash ∉ b
  | None => slash ∉ p
  end.
Proof.
  induction p as [|c p IH]; cbn [strrchr_slash]; [apply not_elem_of_nil|].
  destruct (strrchr_slash p) as [[a b]|]; [destruct IH as [-> ?]; done|].
  destruct (Z.eqb_spec c slash) as [->|Hc]; [done|]. apply not_elem_of_cons. done.
Qed.

(** ** Whole files *)

Section Entire.
Variable other : str -> fs_ops.
Context {live : heap -> gset Z -> Prop} `{!Allocator live}.

(** An absolute path that fits the buffers. *)
Definition abs_path (path : str) : Prop := char_at 0 path = slash /\ (length path < 1024)%nat.

Lemma absolute_id path s : abs_path path -> make_absolute_path path s = path.
Proof.
  intros [H Hl]. destruct path as [|c p]; [done|]. cbn in H. subst c. unfold make_absolute_path.
  rewrite Z.eqb_refl. unfold cut. apply take_ge. lia.
Qed.

Lemma open_existing s path a n flags mode :
  abs_path path -> vfs_resolve_path other path s = Some (a, s) -> a <> 0 -> node s a = Some n ->
  n_type n = VFS_FILE -> n_fs n = Some ramfs_name ->
  vfs_open other path flags mode s =
    Some (a, put a (set_n_refcount (i32 (n_refcount n + 1))
                      (if nz (Z.land flags O_TRUNC) then set_n_size 0 n else n)) s).
Proof.
  intros Hp Hr Ha Hn Ht Hfs. unfold vfs_open. rewrite (absolute_id _ _ Hp), Hr. cbn [mbind option_bind].
  rewrite (proj2 (Z.eqb_neq a 0)) by done. cbn [negb]. rewrite Hn. cbn [mbind option_bind].
  rewrite Ht, Hfs, bool_decide_eq_true_2 by done. replace (VFS_FILE =? VFS_FILE) with true by done.
  rewrite !andb_true_r. unfold take_ref. destruct (nz _).
  - rewrite (update_eq _ _ _ _ Hn). cbn [mbind option_bind]. erewrite update_eq by apply node_put.
    cbn [mbind option_bind]. by rewrite put_put.
  - cbn [mbind option_bind]. by rewrite (update_eq _ _ _ _ Hn).
Qed.

Lemma close_spec a n s : a <> 0 -> node s a = Some n -> 0 < n_refcount n ->
  vfs_close a s = Some (0, put a (set_n_refcount (n_refcount n - 1) n) s).
Proof.
  intros Ha Hn Hr. unfold vfs_close. rewrite (proj2 (Z.eqb_neq a 0)) by done. rewrite Hn.
  cbn [mbind option_bind]. rewrite (proj2 (Z.ltb_lt 0 _)) by done. by rewrite (update_eq _ _ _ _ Hn).
Qed.

Lemma set_size_ok n : file_ok n -> file_ok (set_n_size 0 n).
Proof. intros [H1 H2 H3 H4 H5]. split; cbn; auto. lia. Qed.

Lemma set_refcount_ok r n : file_ok n -> file_ok (set_n_refcount r n).
Proof. intros [H1 H2 H3 H4 H5]. by split. Qed.

(** What a file needs for the whole-file operations. *)
Record open_file (s : vstate) (path : str) (a : Z) (n : vnode) (L : gset Z) : Prop := {
  of_path : abs_path path;
  of_tree : tree_ok s;
  of_live : live (vheap s) L;
  of_resolve : vfs_resolve_path other path s = Some (a, s);
  of_nz : a <> 0;
  of_node : node s a = Some n;
  of_file : file_ok n;
  of_data : n_data n <> 0 -> n_data n ∈ L;
  of_ref : 0 <= n_refcount n < 2 ^ 31 - 1 }.

Lemma open_file_put s path a n L n' h L' :
  open_file s path a n L -> shape n' = shape n -> file_ok n' -> n_refcount n' = n_refcount n ->
  live h L' -> (n_data n' <> 0 -> n_data n' ∈ L') ->
  open_file (put a n' (set_vheap h s)) path a n' L'.
Proof.
  intros [H1 H2 H3 H4 H5 H6 H7 H8 H9] Hsh Hok Hrc Hl Hd.
  pose proof (same_shape_put s a n n' h H6 Hsh) as Hss. split; auto.
  - by rewrite <- Hss.
  - destruct (vfs_resolve_total other s H2 path) as (b & Hb & _).
    rewrite (Hb s) in H4 by reflexivity. injection H4 as ->. by apply Hb.
  - apply node_put.
  - by rewrite Hrc.
Qed.

Lemma write_entire_spec s path a n L data :
  open_file s path a n L -> Z.of_nat (length data) < 2 ^ 31 ->
  (exists s', vfs_write_entire other path data s = Some (-1, s') /\
     exists cap, Z.of_nat (length data) <= cap /\ kmalloc cap (vheap s) = Some (0, vheap s)) \/
  exists n' h L', vfs_write_entire other path data s = Some (0, put a n' (set_vheap h s)) /\
    contents n' = data /\ open_file (put a n' (set_vheap h s)) path a n' L'.
Proof.
  intros Ho Hlen. pose proof Ho as [Hp Ht Hl Hr Ha Hn Hok Hd Hrc].
  unfold vfs_write_entire. rewrite (absolute_id _ _ Hp).
  rewrite (open_existing s path a n _ _ Hp Hr Ha Hn (fo_type _ Hok) (to_fs _ Ht _ _ Hn)). cbn [mbind option_bind].
  rewrite (proj2 (Z.eqb_neq a 0)) by done. change (nz (Z.land (Z.lor O_CREAT O_TRUNC) O_TRUNC)) with true. cbn [negb].
  rewrite (i32_small (n_refcount n + 1)) by lia.
  set (n1 := set_n_refcount (n_refcount n + 1) (set_n_size 0 n)). set (s1 := put a n1 s).
  assert (Hn1 : node s1 a = Some n1) by apply node_put.
  assert (Hok1 : file_ok n1) by (by apply set_refcount_ok, set_size_ok).
  destruct data as [|x data].
  - right. change (0 <? Z.of_nat (length [])) with false. cbn [mbind option_bind].
    rewrite (close_spec a n1 s1 Ha Hn1) by (cbn; lia). cbn [mbind option_bind]. unfold s1. rewrite put_put.
    exists (set_n_size 0 n), (vheap s), L. assert (Heq : set_n_refcount (n_refcount n1 - 1) n1 = set_n_size 0 n).
    { unfold n1. cbn. replace (n_refcount n + 1 - 1) with (n_refcount n) by lia. by destruct n. }
    rewrite Heq. split_and!; [by destruct s|done|]. eapply open_file_put; eauto. by apply set_size_ok.
  - rewrite (proj2 (Z.ltb_lt 0 _)) by (cbn; lia). unfold vfs_write. rewrite (proj2 (Z.eqb_neq a 0)) by done.
    rewrite Hn1. cbn [mbind option_bind]. change (n_fs n1) with (n_fs n). rewrite (to_fs _ Ht _ _ Hn), ops_ramfs.
    cbn [op_write ramfs_ops]. rewrite i32_small by lia.
    destruct (ramfs_write_refines a n1 (x :: data) 0 s1 L) as [[Hw Hno]|(n' & h & L' & Hw & Hok' & Hc & Hsh & Hrc' & Hdn & Hl' & _ & Hd')];
      auto; [done|lia|left|right]; rewrite Hw; cbn [mbind option_bind].
    + rewrite (close_spec a n1 s1 Ha Hn1) by (cbn; lia). cbn [mbind option_bind].
      eexists. split; [by rewrite (proj2 (Z.eqb_neq _ _)) by (cbn; lia)|]. destruct Hno as (cap & Hcap & Hno). by exists cap.
    + rewrite i32_small by lia.
      rewrite (close_spec a n' _ Ha) by (apply node_put || (rewrite Hrc'; cbn; lia)). cbn [mbind option_bind].
      rewrite Z.eqb_refl. exists (set_n_refcount (n_refcount n' - 1) n'), h, L'. unfold s1.
      rewrite !put_vheap, !put_put, <- put_vheap. split_and!; [done| |].
      * change (contents n' = x :: data). rewrite Hc. change (contents n1) with (@nil Z). unfold spec_write. change (Z.to_nat 0) with 0%nat.
        rewrite drop_nil, (app_nil_r (x :: data)). done.
      * eapply open_file_put; eauto; [by apply set_refcount_ok|]. cbn. rewrite Hrc'. cbn. lia.
Qed.

Lemma read_entire_spec s path a n L :
  open_file s path a n L -> n_size n < 2 ^ 31 ->
  (exists s', vfs_read_entire other path s = Some (-1, (0, [], 0), s') /\
     kmalloc (n_size n + 1) (vheap s) = Some (0, vheap s)) \/
  exists buf h, vfs_read_entire other path s = Some (0, (buf, contents n ++ [0], n_size n), set_vheap h s) /\
    buf <> 0 /\ buf ∉ L /\ live h ({[buf]} ∪ L).
Proof.
  intros Ho Hlen. pose proof Ho as [Hp Ht Hl Hr Ha Hn Hok Hd Hrc].
  pose proof (fo_size _ Hok). pose proof (fo_cap _ Hok).
  unfold vfs_read_entire. rewrite (absolute_id _ _ Hp).
  rewrite (open_existing s path a n _ _ Hp Hr Ha Hn (fo_type _ Hok) (to_fs _ Ht _ _ Hn)). cbn [mbind option_bind].
  rewrite (proj2 (Z.eqb_neq a 0)) by done. change (nz (Z.land 0 O_TRUNC)) with false. cbn [negb].
  rewrite (i32_small (n_refcount n + 1)) by lia.
  set (n1 := set_n_refcount (n_refcount n + 1) n). set (s1 := put a n1 s).
  assert (Hn1 : node s1 a = Some n1) by apply node_put. rewrite Hn1. cbn [mbind option_bind].
  change (n_size n1) with (n_size n). rewrite (proj2 (Z.ltb_ge _ _)) by lia.
  rewrite (u32_small (n_size n)), u32_small by lia. change (vheap s1) with (vheap s).
  assert (Hback : forall h, put a (set_n_refcount (n_refcount n1 - 1) n1) (set_vheap h s1) = set_vheap h s).
  { intros h. unfold s1. rewrite put_vheap, put_put, put_id; [done|]. rewrite Hn. unfold n1. cbn.
    replace (n_refcount n + 1 - 1) with (n_refcount n) by lia. by destruct n. }
  destruct (alloc_ok (vheap s) L (n_size n + 1) Hl) as [Hk|(p & h & Hk & Hp0 & HpL & Hl1)]; [lia|lia|left|right];
    rewrite Hk; cbn [mbind option_bind].
  - change (0 =? 0) with true. rewrite (close_spec a n1 (set_vheap (vheap s) s1) Ha Hn1) by (cbn; lia). cbn [mbind option_bind].
    eexists. split; [reflexivity|done].
  - rewrite (proj2 (Z.eqb_neq p 0)) by done. exists p, h. split_and!; auto.
    assert (Hrd : (if 0 <? n_size n then '(r, l, s) ← vfs_read other a (n_size n) 0 (set_vheap h s1); Some (r =? i32 (n_size n), l, s)
       else Some (true, [], set_vheap h s1)) = Some (true, contents n, set_vheap h s1)).
    { destruct (Z.ltb_spec 0 (n_size n)).
      - unfold vfs_read. rewrite (proj2 (Z.eqb_neq a 0)) by done. change (node (set_vheap h s1) a) with (node s1 a).
        rewrite Hn1. cbn [mbind option_bind]. change (n_fs n1) with (n_fs n). rewrite (to_fs _ Ht _ _ Hn), ops_ramfs.
        cbn [op_read ramfs_ops]. rewrite (ramfs_read_refines a n1) by (done || lia || by apply set_refcount_ok).
        cbn [mbind option_bind]. change (contents n1) with (contents n). unfold spec_read. rewrite drop_0.
        assert (Hlc : length (contents n) = Z.to_nat (n_size n)) by (unfold contents; rewrite length_take; lia).
        rewrite (take_ge (contents n)) by lia. rewrite Hlc, Z2Nat.id, i32_small, Z.eqb_refl by lia. done.
      - unfold contents. replace (Z.to_nat (n_size n)) with 0%nat by lia. done. }
    rewrite Hrd. cbn [mbind option_bind negb].
    rewrite (close_spec a n1 (set_vheap h s1) Ha Hn1) by (cbn; lia). cbn [mbind option_bind]. by rewrite Hback.
Qed.

End Entire.

(** * Properties *)

Section Claims.
Variable other : str -> fs_ops.
Context {live : heap -> gset Z -> Prop} `{!Allocator live}.



(** C24. [ramfs_create] adds a name to a directory.  With the directory seen as the list
    of its names and nodes: a name that is there is refused and nothing changes; another
    one gets a new empty file in front of the list (or -1 and no change when the heap is
    exhausted), the directory stays well formed, and [ramfs_lookup] then finds the new
    node under its name and every other name as before. *)
Theorem ramfs_create_spec s dir l L name mode :
  dir_ok s dir l -> live (vheap s) L -> dom (nodes s) ⊆ L -> (length name < 256)%nat ->
  match assoc name (entries s l) with
  | Some _ => ramfs_create dir name mode s = Some (-1, s)
  | None =>
      (ramfs_create dir name mode s = Some (-1, s) /\ kmalloc sizeof_vnode (vheap s) = Some (0, vheap s)) \/
      exists p s' n, ramfs_create dir name mode s = Some (0, s') /\
        dir_ok s' dir (p :: l) /\ entries s' (p :: l) = (name, p) :: entries s l /\
        p ∉ L /\ live (vheap s') ({[p]} ∪ L) /\ dom (nodes s') ⊆ {[p]} ∪ L /\
        node s' p = Some n /\ file_ok n /\ contents n = [] /\ n_mode n = mode /\
        (forall b, b <> p -> b <> dir -> node s' b = node s b) /\
        ramfs_lookup dir name s' = Some (0, p, s') /\
        forall other_name, other_name <> name ->
          ramfs_lookup dir other_name s' =
            match assoc other_name (entries s l) with Some a => Some (0, a, s') | None => Some (-1, 0, s') end
  end.
Proof.
  intros H Hl HL Hlen. destruct (assoc name (entries s l)) as [a|] eqn:Ea.
  - unfold ramfs_create, new_child. rewrite (is_dir_ok _ _ _ H). cbn [mbind option_bind negb].
    rewrite (find_child_spec _ _ _ _ H), Ea. cbn [mbind option_bind]. change (default 0 (Some a)) with a.
    apply assoc_elem, entry_elem in Ea as [Ha _]. destruct (do_dir _ _ _ H) as (d & _ & _ & Hs).
    apply list_elem_of_split in Ha as (l1 & l2 & ->). apply sseg_app in Hs as (m & _ & (_ & Hz & _)).
    by rewrite (proj2 (Z.eqb_neq a 0)) by done.
  - destruct (new_child_spec s dir l L name VFS_FILE mode [] H Hl HL Hlen Ea)
      as [Hf|(p & h & d & Hd & HpL & Hp0 & Hl' & Hc)]; [by left|right].
    set (n := child_node name VFS_FILE mode [] dir d) in *. set (s' := add_entry dir p d n h s) in *.
    assert (Hpn : p ∉ dom (nodes s)) by (intros Hin; by apply HpL, HL).
    destruct (add_entry_ok s dir l p d n h H Hd Hpn Hp0) as [Hok He]; [done|done|by apply assoc_none|].
    fold s' in Hok, He. change (n_name n) with name in He.
    assert (Hpd : p <> dir) by (intros ->; apply Hpn; by eapply elem_of_dom_2).
    exists p, s', n. split_and!; auto.
    + unfold s', add_entry, put. cbn. rewrite !dom_insert_L. assert (Hdd : dir ∈ dom (nodes s)) by (by eapply elem_of_dom_2). clear -HL Hdd. set_solver.
    + unfold s', add_entry. rewrite node_put_ne by done. apply node_put.
    + by split.
    + intros b Hbp Hbd. unfold s', add_entry. by rewrite !node_put_ne.
    + rewrite (lookup_spec _ _ _ _ Hok), He. cbn [assoc]. unfold str_eqb. by rewrite bool_decide_eq_true_2.
    + intros o Ho. rewrite (lookup_spec _ _ _ _ Hok), He. cbn [assoc]. unfold str_eqb.
      by rewrite bool_decide_eq_false_2.
Qed.

(** [ramfs_unlink] of a name whose node has no children succeeds: exactly that name
    leaves the directory, which stays well formed, its node no longer exists, the node
    and its buffer are given back to the heap, nodes outside the directory are untouched,
    and a lookup of the name fails afterwards. *)
Theorem ramfs_unlink_spec s dir l L name a c :
  dir_ok s dir l -> live (vheap s) L -> assoc name (entries s l) = Some a -> node s a = Some c ->
  n_children c = 0 -> a ∈ L -> (n_data c <> 0 -> n_data c ∈ L /\ n_data c <> a) ->
  exists s' l', ramfs_unlink dir name s = Some (0, s') /\ dir_ok s' dir l' /\
    entries s' l' = filter (fun e => e.1 <> name) (entries s l) /\ node s' a = None /\
    live (vheap s') (L ∖ {[n_data c]} ∖ {[a]}) /\
    (forall b, b ∉ l -> b <> dir -> node s' b = node s b) /\
    ramfs_lookup dir name s' = Some (-1, 0, s').
Proof.
  intros H Hl Ha Hc Hcc HaL Hd.
  destruct (unlink_entry s dir l L name a c H Hl Ha Hc Hcc HaL Hd) as (s' & l' & Hu & Hok & He & Hn & Hl' & Hfr).
  exists s', l'. split_and!; auto. rewrite (lookup_spec _ _ _ _ Hok), He.
  replace (assoc name _) with (@None Z); [done|]. symmetry. apply assoc_none. intros Hin.
  apply list_elem_of_fmap in Hin as ([k b] & -> & Hin). by apply list_elem_of_filter in Hin as [? _].
Qed.

End Claims.


(** [find_mount] finds the longest mount point that contains the path: the mount it
    returns is in use and is the path or a directory above it, no other such mount point
    is longer, and [rel] is the rest of the path after it without the leading slashes;
    it returns null exactly when no mount point with a non-empty path matches. *)
Theorem find_mount_longest path s :
  match find_mount path s with
  | Some (m, rel) =>
      m ∈ mounts s /\ mount_matches path m = true /\
      Forall (fun m' => mount_matches path m' = true -> (length (m_path m') <= length (m_path m))%nat) (mounts s) /\
      (exists k, path = m_path m ++ replicate k slash ++ rel) /\ char_at 0 rel <> slash
  | None => Forall (fun m => mount_matches path m = true -> m_path m = []) (mounts s)
  end.
Proof.
  unfold find_mount. pose proof (find_mount_loop_spec path (mounts s) 0 None 0) as H.
  destruct (find_mount_loop path 0 (mounts s) None 0) as [best len] eqn:Ef. cbn zeta in H. cbn [snd] in H.
  destruct H as (_ & Hall & [[= -> ->]|(j & m & Hj & [= -> ->] & Hm)]).
  - eapply Forall_impl; [exact Hall|]. intros m Hm Hmm. specialize (Hm Hmm). apply nil_length_inv. lia.
  - cbn [Nat.add]. rewrite Hj. cbn [mbind option_bind]. split_and!; auto.
    + by eapply list_elem_of_lookup_2.
    + destruct (skip_slashes_app (drop (length (m_path m)) path)) as (k & Hk). exists k. rewrite <- Hk.
      unfold mount_matches in Hm. apply andb_true_iff in Hm as [Hm _]. apply andb_true_iff in Hm as [_ Hm].
      unfold prefix_of, str_eqb in Hm. apply bool_decide_eq_true in Hm.
      rewrite <- Hm at 1. symmetry. apply take_drop.
    + destruct (skip_slashes _) as [|c q] eqn:Es; [done|]. cbn. by eapply skip_slashes_head.
Qed.

(** [split_path] cuts a path that fits its buffer at the last slash: the directory
    part (["/"] for a name in the root) and the name give the path back, the name has no
    slash and fits its buffer of 256 bytes; it fails exactly when there is no slash or
    the name is too long. *)
Theorem split_path_spec path :
  (length path < 1024)%nat ->
  match split_path path with
  | Some (dir, name) =>
      slash ∉ name /\ (length name < 256)%nat /\
      ((dir = root_path /\ path = slash :: name) \/ (dir <> [] /\ path = dir ++ slash :: name))
  | None => slash ∉ path \/ exists dir name, path = dir ++ slash :: name /\ slash ∉ name /\ (256 <= length name)%nat
  end.
Proof.
  intros Hlen. unfold split_path. replace (cut 1024 path) with path by (unfold cut; rewrite take_ge; [done|lia]).
  pose proof (strrchr_slash_spec path) as H. destruct (strrchr_slash path) as [[dir name]|]; [|by left].
  destruct H as [-> Hn]. destruct (Z.leb_spec 256 (Z.of_nat (length name))); [right; exists dir, name; split_and!; auto; lia|].
  split_and!; auto; [lia|]. destruct dir; [by left|by right].
Qed.

Lemma resolve_value other s path a :
  tree_ok s -> option_map fst (vfs_resolve_path other path s) = Some a ->
  vfs_resolve_path other path s = Some (a, s).
Proof.
  intros H E. destruct (vfs_resolve_total other s H path) as (b & Hb & _).
  rewrite (Hb s) in E |- * by reflexivity. cbn in E. by injection E as ->.
Qed.

(** ** Witnesses: a booted file system with the file /tmp/a *)

Definition none_ops (_ : str) : fs_ops := no_ops.
Definition boot : vstate :=
  VState ∅ (default heap0 (memory_init 4096 65536 heap0)) [] [] 0 false [] [].
Definition demo_init : option (Z * vstate) :=
  vfs_init none_ops [] (fun s => Some (-1, s)) (fun s => Some s) boot.
(** "/tmp/a" *)
Definition s_a : str := [47; 116; 109; 112; 47; 97].
Definition demo_open : option (Z * vstate) :=
  vfs_open none_ops s_a O_CREAT 420 (default boot (snd <$> demo_init)).
Definition demo_vfs : vstate := default boot (snd <$> demo_open).
Definition demo_nodes : list (Z * vnode) := Eval vm_compute in map_to_list (nodes demo_vfs).
Definition demo_L : gset Z := list_to_set [6016; 5384; 4752; 4120].

Lemma node_listed s l a n : map_to_list (nodes s) = l -> node s a = Some n -> (a, n) ∈ l.
Proof. intros <- H. by apply elem_of_map_to_list. Qed.

Lemma demo_node a n : node demo_vfs a = Some n -> (a, n) ∈ demo_nodes.
Proof. apply node_listed. vm_compute. reflexivity. Qed.

Lemma demo_live : heap_live (vheap demo_vfs) demo_L.
Proof.
  exists [(6624, 62984)], [(5992, 608); (5360, 608); (4728, 608); (4096, 608)], 65536.
  split; [|vm_compute; reflexivity]. split.
  - vm_compute. reflexivity.
  - split; [vm_compute; reflexivity|]. eexists. split; vm_compute; reflexivity.
  - repeat apply Forall_cons_2; try apply Forall_nil_2; eexists; vm_compute; reflexivity.
  - repeat apply Forall_cons_2; try apply Forall_nil_2; unfold wf_blk; split_and!; vm_compute; done.
  - cbn [pairwise app]. repeat split; repeat apply Forall_cons_2; try apply Forall_nil_2;
      unfold sep, bend, span, sizeof_block_header; cbn; lia.
  - vm_compute. reflexivity.
  - vm_compute. reflexivity.
  - vm_compute. done.
  - vm_compute. done.
Qed.

(** Case analysis on the node of a hypothesis about the demo. *)
Ltac demo_cases H :=
  apply demo_node in H; unfold demo_nodes in H;
  repeat (apply elem_of_cons in H as [H|H]; [injection H as -> ->|]); [..|by apply not_elem_of_nil in H].

(** The children of the directory at [a] are [l]. *)
Ltac demo_dir_tac :=
  split;
  [ done
  | eexists; split_and!; [vm_compute; reflexivity|reflexivity|];
    repeat (split; [reflexivity|]; split; [done|]; eexists; split; [vm_compute; reflexivity|]); reflexivity
  | repeat constructor; rewrite ?elem_of_cons, ?elem_of_nil; lia
  | rewrite ?elem_of_cons, ?elem_of_nil; lia
  | let Ha := fresh in intros ? Ha; repeat (apply elem_of_cons in Ha as [->|Ha]; [eexists; split; vm_compute; reflexivity|]);
    by apply elem_of_nil in Ha
  | vm_compute; repeat constructor; rewrite ?elem_of_cons, ?elem_of_nil; naive_solver ].

Lemma demo_root_dir : dir_ok demo_vfs 4120 [5384; 4752].
Proof. demo_dir_tac. Qed.
Lemma demo_dev_dir : dir_ok demo_vfs 5384 [].
Proof. demo_dir_tac. Qed.
Lemma demo_tmp_dir : dir_ok demo_vfs 4752 [6016].
Proof. demo_dir_tac. Qed.

Lemma demo_tree : tree_ok demo_vfs.
Proof.
  split.
  - intros a n H Ht. demo_cases H; cbn in Ht; try discriminate Ht;
      [exists [5384; 4752]; apply demo_root_dir|exists []; apply demo_dev_dir|exists [6016]; apply demo_tmp_dir].
  - intros a n H. demo_cases H; reflexivity.
  - intros a n H. demo_cases H; done.
  - intros a n H. demo_cases H; ((left; reflexivity) || (right; eexists; vm_compute; reflexivity)).
  - assert (E : mounts demo_vfs = VMount [47] 4120 (Some ramfs_name) true :: replicate 15 zero_mount)
      by (vm_compute; reflexivity).
    intros m Hm. rewrite E in Hm. apply elem_of_cons in Hm as [->|Hm].
    + right. eexists. vm_compute. reflexivity.
    + apply elem_of_replicate in Hm as [-> _]. by left.
  - right. eexists. vm_compute. reflexivity.
Qed.

Definition demo_file : vnode := default zero_vnode (node demo_vfs 6016).

Lemma demo_file_ok : file_ok demo_file.
Proof. split; vm_compute; try done. Qed.

Lemma demo_open_file : open_file none_ops (live := heap_live) demo_vfs s_a 6016 demo_file demo_L.
Proof.
  split.
  - split; [reflexivity|cbn; lia].
  - apply demo_tree.
  - apply demo_live.
  - apply (resolve_value none_ops _ _ _ demo_tree). vm_compute. reflexivity.
  - done.
  - vm_compute. reflexivity.
  - apply demo_file_ok.
  - intros H. exfalso. apply H. vm_compute. reflexivity.
  - vm_compute. done.
Qed.



Lemma dom_listed s l : map_to_list (nodes s) = l -> dom (nodes s) ⊆ list_to_set l.*1.
Proof.
  intros H a Ha. apply elem_of_dom in Ha as [n Hn]. apply (node_listed s l a n H) in Hn.
  apply elem_of_list_to_set, list_elem_of_fmap. by exists (a, n).
Qed.

Lemma demo_dom : dom (nodes demo_vfs) ⊆ demo_L.
Proof.
  replace demo_L with (list_to_set demo_nodes.*1 : gset Z) by (vm_compute; reflexivity).
  apply dom_listed. vm_compute. reflexivity.
Qed.

Lemma ramfs_create_spec_witness :
  exists p s', ramfs_create 4752 [98] 420 demo_vfs = Some (0, s') /\ dir_ok s' 4752 [p; 6016] /\
    ramfs_lookup 4752 [98] s' = Some (0, p, s') /\ ramfs_lookup 4752 [97] s' = Some (0, 6016, s').
Proof.
  pose proof (ramfs_create_spec (live := heap_live) demo_vfs 4752 [6016] demo_L [98] 420
    demo_tmp_dir demo_live demo_dom ltac:(cbn; lia)) as H.
  replace (assoc [98] (entries demo_vfs [6016])) with (@None Z) in H by (vm_compute; reflexivity).
  destruct H as [(Hw & _)|(p & s' & n & Hw & Hd & _ & _ & _ & _ & _ & _ & _ & _ & _ & Hl & Hlo)].
  - exfalso. assert (E : option_map fst (ramfs_create 4752 [98] 420 demo_vfs) = Some 0) by (vm_compute; reflexivity).
    rewrite Hw in E. discriminate E.
  - exists p, s'. split; [exact Hw|]. split; [exact Hd|]. split; [exact Hl|].
    rewrite (Hlo [97]) by done.
    replace (assoc [97] (entries demo_vfs [6016])) with (Some 6016) by (vm_compute; reflexivity). done.
Defined.

Lemma ramfs_unlink_spec_witness :
  exists s', ramfs_unlink 4752 [97] demo_vfs = Some (0, s') /\ dir_ok s' 4752 [] /\ node s' 6016 = None.
Proof.
  destruct (ramfs_unlink_spec (live := heap_live) demo_vfs 4752 [6016] demo_L [97] 6016 demo_file)
    as (s' & l' & Hu & Hd & He & Hn & _);
    [apply demo_tmp_dir|apply demo_live|vm_compute; reflexivity|vm_compute; reflexivity|vm_compute; reflexivity
    |apply demo_dom, elem_of_dom; eexists; vm_compute; reflexivity
    |intros H; exfalso; apply H; vm_compute; reflexivity|].
  exists s'. split; [exact Hu|]. split; [|exact Hn].
  destruct l' as [|a l']; [exact Hd|]. exfalso.
  replace (filter _ _) with (@nil (str * Z)) in He by (vm_compute; reflexivity). discriminate He.
Defined.


Lemma split_path_spec_witness : split_path s_a = Some (s_tmp, [97]) /\ slash ∉ [97].
Proof.
  split; [reflexivity|]. pose proof (split_path_spec s_a ltac:(cbn; lia)) as H.
  replace (split_path s_a) with (Some (s_tmp, [97])) in H by reflexivity. apply H.
Defined.

(** Renaming a file to its own name returns -1 and the file is gone: the existing target
    is the file itself, which is unlinked and freed first. *)
Example rename_to_itself_deletes :
  ('(r, s) ← vfs_rename none_ops s_a s_a demo_vfs; '(e, _) ← vfs_exists none_ops s_a s; Some (r, e)) = Some (-1, 0) /\
  option_map fst (vfs_exists none_ops s_a demo_vfs) = Some 1.
Proof. split; vm_compute; reflexivity. Qed.
