(* ===== verification/Bytes.v ===== *)
(** * Bytes in memory

    What the components that read and write packed structures share: little endian
    integers, reads that must stay inside a buffer ([None] outside), [memcpy] out of and
    into a buffer, and the masks of the byte swaps. *)

From S2P Require Import Prelude.

(** The bytes of a 16 and of a 32 bit integer in memory. *)
Definition le16 (v : Z) : list Z := [u8 v; u8 (Z.shiftr v 8)].
Definition le32 (v : Z) : list Z := [u8 v; u8 (Z.shiftr v 8); u8 (Z.shiftr v 16); u8 (Z.shiftr v 24)].

Definition get8 (l : list Z) (i : Z) : option Z := if i <? 0 then None else l !! Z.to_nat i.
Definition get16 (l : list Z) (i : Z) : option Z :=
  a ← get8 l i; b ← get8 l (i + 1); Some (a + 256 * b).
Definition get32 (l : list Z) (i : Z) : option Z :=
  a ← get16 l i; b ← get16 l (i + 2); Some (a + 65536 * b).

(** [memcpy(dst, p, len)] with [len] an [int] and [l] the bytes at [p]. *)
Definition copy (l : list Z) (len : Z) : option (list Z) :=
  if (0 <=? len) && (len <=? Z.of_nat (length l)) then Some (take (Z.to_nat len) l) else None.

(** [l] at position [i] of the bytes [p]. *)
Definition store (i : Z) (l p : list Z) : list Z :=
  take (Z.to_nat i) p ++ l ++ drop (Z.to_nat i + length l) p.

Definition byte_list (l : list Z) : Prop := Forall (fun b => 0 <= b < 256) l.

Lemma le16_bytes v : byte_list (le16 v).
Proof. repeat constructor; apply u8_range. Qed.

Lemma le32_bytes v : byte_list (le32 v).
Proof. repeat constructor; apply u8_range. Qed.

Lemma lor_disjoint a b k : 0 <= k -> 0 <= a < 2 ^ k -> Z.lor a (b * 2 ^ k) = a + b * 2 ^ k.
Proof.
  intros Hk Ha. pose proof (Z.add_lor_land a (b * 2 ^ k)) as H. rewrite <- H.
  assert (Z.land a (b * 2 ^ k) = 0) as ->; [|lia]. apply Z.bits_inj'. intros n Hn. rewrite Z.land_spec, Z.bits_0.
  destruct (Z.ltb_spec n k); [by rewrite Z.mul_pow2_bits_low, andb_false_r by lia|].
  destruct (Z.eqb_spec a 0) as [->|]; [by rewrite Z.bits_0|].
  rewrite (Z.bits_above_log2 a); [done|lia|]. apply Z.lt_le_trans with k; [|done]. apply Z.log2_lt_pow2; lia.
Qed.

(** The mask of one byte. *)
Lemma land_byte y k : 0 <= k -> Z.land y (255 * 2 ^ k) = (y / 2 ^ k) mod 256 * 2 ^ k.
Proof.
  intros Hk. change 256 with (2 ^ 8). rewrite <- (Z.land_ones (y / 2 ^ k)) by lia. change (Z.ones 8) with 255.
  rewrite <- Z.shiftr_div_pow2, <- !Z.shiftl_mul_pow2 by done. apply Z.bits_inj'. intros n Hn.
  rewrite Z.land_spec, !Z.shiftl_spec, Z.land_spec by done. destruct (Z.ltb_spec n k).
  - rewrite (Z.testbit_neg_r 255) by lia. by rewrite !andb_false_r.
  - rewrite Z.shiftr_spec by lia. by rewrite Z.sub_add.
Qed.

Lemma get16_le16 v l : 0 <= v < 65536 -> get16 (le16 v ++ l) 0 = Some v.
Proof.
  intros H. change (get16 (le16 v ++ l) 0) with (Some (u8 v + 256 * u8 (Z.shiftr v 8))). f_equal.
  unfold u8. rewrite Z.shiftr_div_pow2 by lia. dlia.
Qed.

Lemma get32_le32 v l : 0 <= v < 2 ^ 32 -> get32 (le32 v ++ l) 0 = Some v.
Proof.
  intros H. change (get32 (le32 v ++ l) 0) with
    (Some (u8 v + 256 * u8 (Z.shiftr v 8) + 65536 * (u8 (Z.shiftr v 16) + 256 * u8 (Z.shiftr v 24)))). f_equal.
  unfold u8. rewrite !Z.shiftr_div_pow2 by lia. dlia.
Qed.

Lemma copy_all l : copy l (Z.of_nat (length l)) = Some l.
Proof.
  unfold copy. rewrite (proj2 (Z.leb_le 0 _)), Z.leb_refl by lia. cbn [andb].
  by rewrite Nat2Z.id, take_ge.
Qed.

Lemma copy_total l n : 0 <= n <= Z.of_nat (length l) -> copy l n = Some (take (Z.to_nat n) l).
Proof. intros H. unfold copy. by rewrite (proj2 (Z.leb_le 0 n)), (proj2 (Z.leb_le n _)) by lia. Qed.

Lemma get8_total l i : 0 <= i < Z.of_nat (length l) -> is_Some (get8 l i).
Proof. intros H. unfold get8. rewrite (proj2 (Z.ltb_ge i 0)) by lia. apply lookup_lt_is_Some. lia. Qed.

Lemma get16_total l i : 0 <= i -> i + 1 < Z.of_nat (length l) -> is_Some (get16 l i).
Proof.
  intros H H1. unfold get16. destruct (get8_total l i) as [a ->]; [lia|].
  destruct (get8_total l (i + 1)) as [b ->]; [lia|]. by eexists.
Qed.

Lemma get32_total l i : 0 <= i -> i + 3 < Z.of_nat (length l) -> is_Some (get32 l i).
Proof.
  intros H H1. unfold get32. destruct (get16_total l i) as [a ->]; [lia|lia|].
  destruct (get16_total l (i + 2)) as [b ->]; [lia|lia|]. by eexists.
Qed.

Lemma store_length i l p : 0 <= i -> i + Z.of_nat (length l) <= Z.of_nat (length p) -> length (store i l p) = length p.
Proof. intros H H1. unfold store. rewrite !length_app, length_take, length_drop. lia. Qed.

Lemma nth_store i l p k :
  0 <= i -> i + Z.of_nat (length l) <= Z.of_nat (length p) ->
  nth k (store i l p) 0 =
    if (Z.to_nat i <=? k)%nat && (k <? Z.to_nat i + length l)%nat then nth (k - Z.to_nat i) l 0 else nth k p 0.
Proof.
  intros Hi Hl. unfold store. set (n := Z.to_nat i). assert (Hn : length (take n p) = n) by (rewrite length_take; lia).
  destruct (Nat.leb_spec n k) as [H1|H1]; cbn [andb].
  - rewrite app_nth2 by lia. rewrite Hn. destruct (Nat.ltb_spec k (n + length l)) as [H2|H2].
    + by rewrite app_nth1 by lia.
    + rewrite app_nth2 by lia. rewrite nth_skipn. f_equal. lia.
  - rewrite app_nth1 by lia. by rewrite nth_firstn, (proj2 (Nat.ltb_lt k n)) by lia.
Qed.

Lemma list_eq_nth (l1 l2 : list Z) :
  length l1 = length l2 -> (forall k, (k < length l1)%nat -> nth k l1 0 = nth k l2 0) -> l1 = l2.
Proof. intros Hl H. apply (nth_ext _ _ 0 0); auto. Qed.
