(* ===== verification/Net.v ===== *)
(** * The network stack below TCP: net/net.c, ethernet.h, arp.c, ip.c, icmp.c, udp.c, dns.c, dhcp.c

    Frames are lists of bytes.  A handler gets the bytes from its pointer to the end of
    the received frame and the length its caller computed; a read outside the frame, or
    a copy of more bytes than there are, gives [None].  Integers in headers are read and
    written in the byte order of the machine (little endian) and the code converts the
    ones it converts.  Frames given to a card are appended to [sent].  Packets are
    allocated from the kernel heap.

    While the code spins (the loops around [pause]) the cards interrupt and packets are
    handled: [wait] is what happens meanwhile.  The drivers, TCP and the configuration
    file are parameters. *)

From S2P Require Import Prelude Bytes KMalloc CString.

(** ** Headers *)

Definition ETHERTYPE_IP : Z := 0x0800.
Definition ETHERTYPE_ARP : Z := 0x0806.
Definition ARP_HTYPE_ETHER : Z := 1.
Definition ARP_PTYPE_IP : Z := 0x0800.
Definition ARP_OP_REQUEST : Z := 1.
Definition ARP_OP_REPLY : Z := 2.
Definition IP_PROTO_TCP : Z := 6.
Definition IP_PROTO_UDP : Z := 17.
Definition IP_PROTO_ICMP : Z := 1.
Definition ICMP_ECHO_REPLY : Z := 0.
Definition ICMP_ECHO_REQUEST : Z := 8.
Definition sizeof_eth_hdr : Z := 14.
Definition sizeof_arp_pkt : Z := 28.
Definition sizeof_ip_hdr : Z := 20.
Definition sizeof_icmp_hdr : Z := 8.
Definition sizeof_udp_hdr : Z := 8.

(** ** State *)

Record arp_cache_entry := ArpEntry { a_ip : Z; a_mac : list Z; a_valid : bool }.
Definition ARP_CACHE_SIZE : nat := 16.

(** [u_data] is the first [len] bytes of [buf]. *)
Record udp_socket := UdpSocket { u_used : bool; u_port : Z; u_buf : Z; u_data : list Z; u_cap : Z }.
Definition UDP_MAX_PORTS : nat := 16.
Definition UDP_BUFFER_SIZE : Z := 8192.

Record net_config := NetConfig { c_ip : Z; c_netmask : Z; c_gateway : Z; c_dns : Z; c_use_dhcp : bool }.

Record net := Net {
  our_mac : list Z;
  our_ip : Z;
  our_netmask : Z;
  our_gateway : Z;
  our_dns : Z;
  network_ready : bool;
  nic_type : Z;
  arp_cache : list arp_cache_entry;
  socks : list udp_socket;
  icmp_seq : Z;
  ping_target : Z;
  icmp_ping_received : bool;
  dns_id : Z;
  dhcp_server : Z;
  dhcp_success : bool;
  config : net_config;
  nheap : heap;
  sent : list (list Z) }.

Definition set_our_mac (v : list Z) (r : net) : net :=
    Net v (our_ip r) (our_netmask r) (our_gateway r) (our_dns r) (network_ready r) (nic_type r)
    (arp_cache r) (socks r) (icmp_seq r) (ping_target r) (icmp_ping_received r) (dns_id r)
    (dhcp_server r) (dhcp_success r) (config r) (nheap r) (sent r).
Definition set_our_ip (v : Z) (r : net) : net :=
    Net (our_mac r) v (our_netmask r) (our_gateway r) (our_dns r) (network_ready r) (nic_type r)
    (arp_cache r) (socks r) (icmp_seq r) (ping_target r) (icmp_ping_received r) (dns_id r)
    (dhcp_server r) (dhcp_success r) (config r) (nheap r) (sent r).
Definition set_our_netmask (v : Z) (r : net) : net :=
    Net (our_mac r) (our_ip r) v (our_gateway r) (our_dns r) (network_ready r) (nic_type r)
    (arp_cache r) (socks r) (icmp_seq r) (ping_target r) (icmp_ping_received r) (dns_id r)
    (dhcp_server r) (dhcp_success r) (config r) (nheap r) (sent r).
Definition set_our_gateway (v : Z) (r : net) : net :=
    Net (our_mac r) (our_ip r) (our_netmask r) v (our_dns r) (network_ready r) (nic_type r)
    (arp_cache r) (socks r) (icmp_seq r) (ping_target r) (icmp_ping_received r) (dns_id r)
    (dhcp_server r) (dhcp_success r) (config r) (nheap r) (sent r).
Definition set_our_dns (v : Z) (r : net) : net :=
    Net (our_mac r) (our_ip r) (our_netmask r) (our_gateway r) v (network_ready r) (nic_type r)
    (arp_cache r) (socks r) (icmp_seq r) (ping_target r) (icmp_ping_received r) (dns_id r)
    (dhcp_server r) (dhcp_success r) (config r) (nheap r) (sent r).
Definition set_network_ready (v : bool) (r : net) : net :=
    Net (our_mac r) (our_ip r) (our_netmask r) (our_gateway r) (our_dns r) v (nic_type r)
    (arp_cache r) (socks r) (icmp_seq r) (ping_target r) (icmp_ping_received r) (dns_id r)
    (dhcp_server r) (dhcp_success r) (config r) (nheap r) (sent r).
Definition set_nic_type (v : Z) (r : net) : net :=
    Net (our_mac r) (our_ip r) (our_netmask r) (our_gateway r) (our_dns r) (network_ready r) v
    (arp_cache r) (socks r) (icmp_seq r) (ping_target r) (icmp_ping_received r) (dns_id r)
    (dhcp_server r) (dhcp_success r) (config r) (nheap r) (sent r).
Definition set_arp_cache (v : list arp_cache_entry) (r : net) : net :=
    Net (our_mac r) (our_ip r) (our_netmask r) (our_gateway r) (our_dns r) (network_ready r)
    (nic_type r) v (socks r) (icmp_seq r) (ping_target r) (icmp_ping_received r) (dns_id r)
    (dhcp_server r) (dhcp_success r) (config r) (nheap r) (sent r).
Definition set_socks (v : list udp_socket) (r : net) : net :=
    Net (our_mac r) (our_ip r) (our_netmask r) (our_gateway r) (our_dns r) (network_ready r)
    (nic_type r) (arp_cache r) v (icmp_seq r) (ping_target r) (icmp_ping_received r) (dns_id r)
    (dhcp_server r) (dhcp_success r) (config r) (nheap r) (sent r).
Definition set_icmp_seq (v : Z) (r : net) : net :=
    Net (our_mac r) (our_ip r) (our_netmask r) (our_gateway r) (our_dns r) (network_ready r)
    (nic_type r) (arp_cache r) (socks r) v (ping_target r) (icmp_ping_received r) (dns_id r)
    (dhcp_server r) (dhcp_success r) (config r) (nheap r) (sent r).
Definition set_ping_target (v : Z) (r : net) : net :=
    Net (our_mac r) (our_ip r) (our_netmask r) (our_gateway r) (our_dns r) (network_ready r)
    (nic_type r) (arp_cache r) (socks r) (icmp_seq r) v (icmp_ping_received r) (dns_id r)
    (dhcp_server r) (dhcp_success r) (config r) (nheap r) (sent r).
Definition set_icmp_ping_received (v : bool) (r : net) : net :=
    Net (our_mac r) (our_ip r) (our_netmask r) (our_gateway r) (our_dns r) (network_ready r)
    (nic_type r) (arp_cache r) (socks r) (icmp_seq r) (ping_target r) v (dns_id r) (dhcp_server
    r) (dhcp_success r) (config r) (nheap r) (sent r).
Definition set_dns_id (v : Z) (r : net) : net :=
    Net (our_mac r) (our_ip r) (our_netmask r) (our_gateway r) (our_dns r) (network_ready r)
    (nic_type r) (arp_cache r) (socks r) (icmp_seq r) (ping_target r) (icmp_ping_received r) v
    (dhcp_server r) (dhcp_success r) (config r) (nheap r) (sent r).
Definition set_dhcp_server (v : Z) (r : net) : net :=
    Net (our_mac r) (our_ip r) (our_netmask r) (our_gateway r) (our_dns r) (network_ready r)
    (nic_type r) (arp_cache r) (socks r) (icmp_seq r) (ping_target r) (icmp_ping_received r)
    (dns_id r) v (dhcp_success r) (config r) (nheap r) (sent r).
Definition set_dhcp_success (v : bool) (r : net) : net :=
    Net (our_mac r) (our_ip r) (our_netmask r) (our_gateway r) (our_dns r) (network_ready r)
    (nic_type r) (arp_cache r) (socks r) (icmp_seq r) (ping_target r) (icmp_ping_received r)
    (dns_id r) (dhcp_server r) v (config r) (nheap r) (sent r).
Definition set_config (v : net_config) (r : net) : net :=
    Net (our_mac r) (our_ip r) (our_netmask r) (our_gateway r) (our_dns r) (network_ready r)
    (nic_type r) (arp_cache r) (socks r) (icmp_seq r) (ping_target r) (icmp_ping_received r)
    (dns_id r) (dhcp_server r) (dhcp_success r) v (nheap r) (sent r).
Definition set_nheap (v : heap) (r : net) : net :=
    Net (our_mac r) (our_ip r) (our_netmask r) (our_gateway r) (our_dns r) (network_ready r)
    (nic_type r) (arp_cache r) (socks r) (icmp_seq r) (ping_target r) (icmp_ping_received r)
    (dns_id r) (dhcp_server r) (dhcp_success r) (config r) v (sent r).
Definition set_sent (v : list (list Z)) (r : net) : net :=
    Net (our_mac r) (our_ip r) (our_netmask r) (our_gateway r) (our_dns r) (network_ready r)
    (nic_type r) (arp_cache r) (socks r) (icmp_seq r) (ping_target r) (icmp_ping_received r)
    (dns_id r) (dhcp_server r) (dhcp_success r) (config r) (nheap r) v.

Definition net_get_ip := our_ip.
Definition net_get_mac := our_mac.
Definition net_get_gateway := our_gateway.
Definition net_get_netmask := our_netmask.
Definition net_get_dns := our_dns.
Definition net_set_ip := set_our_ip.
Definition net_set_netmask := set_our_netmask.
Definition net_set_gateway := set_our_gateway.
Definition net_set_dns := set_our_dns.
Definition net_is_ready := network_ready.

(** ** Checksums *)

(** [for (i = 0; i < n; i++) sum += data[i]] over 16-bit words. *)
Fixpoint sum_words (n : nat) (l : list Z) (sum : Z) : option Z :=
  match n with
  | O => Some sum
  | S n =>
      match l with
      | a :: b :: l => sum_words n l (u32 (sum + (a + 256 * b)))
      | _ => None
      end
  end.

(** The words and the odd byte added to [sum]. *)
Definition sum_bytes (data : list Z) (len sum : Z) : option Z :=
  sum ← sum_words (Z.to_nat (len ÷ 2)) data sum;
  if nz (Z.land len 1) then b ← get8 data (len - 1); Some (u32 (sum + b)) else Some sum.

(** [while (sum >> 16) sum = (sum & 0xFFFF) + (sum >> 16)]: a 32-bit sum takes at most two rounds. *)
Fixpoint fold16 (fuel : nat) (sum : Z) : Z :=
  match fuel with
  | O => sum
  | S fuel => if Z.shiftr sum 16 =? 0 then sum else fold16 fuel (Z.land sum 0xFFFF + Z.shiftr sum 16)
  end.

Definition finish_checksum (sum : Z) : Z := u16 (Z.lnot (fold16 3 sum)).

Definition ip_checksum (data : list Z) (len : Z) : option Z :=
  sum ← sum_bytes data len 0; Some (finish_checksum sum).

Definition icmp_checksum (data : list Z) (len : Z) : option Z :=
  sum ← sum_bytes data len 0; Some (finish_checksum sum).

Definition udp_checksum (src dst proto : Z) (udp : list Z) (len : Z) : option Z :=
  let sum := u32 (Z.land (Z.shiftr src 16) 0xFFFF + Z.land src 0xFFFF + Z.land (Z.shiftr dst 16) 0xFFFF
                  + Z.land dst 0xFFFF + proto + len) in
  sum ← sum_bytes udp len sum; Some (finish_checksum sum).

(** ** ARP cache *)

Definition arp_cache_init (s : net) : net :=
  set_arp_cache (map (fun e => ArpEntry (a_ip e) (a_mac e) false) (arp_cache s)) s.

Definition arp_cache_lookup (ip : Z) (s : net) : option (list Z) :=
  e ← find (fun e => a_valid e && (a_ip e =? ip)) (arp_cache s); Some (a_mac e).

(** The first invalid entry is filled; without one the entries move down by one place. *)
Fixpoint arp_fill (e : arp_cache_entry) (l : list arp_cache_entry) : option (list arp_cache_entry) :=
  match l with
  | [] => None
  | x :: l => if a_valid x then l' ← arp_fill e l; Some (x :: l') else Some (e :: l)
  end.

Definition arp_cache_add (ip : Z) (mac : list Z) (s : net) : net :=
  let e := ArpEntry ip mac true in
  match arp_fill e (arp_cache s) with
  | Some l => set_arp_cache l s
  | None => set_arp_cache (tail (arp_cache s) ++ [e]) s
  end.

Section Net.
(** [e1000_present()], [rtl8139_present()] *)
Variables e1000_present rtl8139_present : bool.
(** What the interrupts of a pause loop do. *)
Variable wait : net -> net.
(** TCP: the handler and the initialisation. *)
Variable tcp_handle_packet : list Z -> Z -> Z -> Z -> net -> option net.
Variable tcp_init : net -> net.

(** ** Ethernet *)

Definition transmit (packet : list Z) (s : net) : net :=
  if ((nic_type s =? 1) && e1000_present) || ((nic_type s =? 2) && rtl8139_present)
  then set_sent (sent s ++ [packet]) s else s.

(** [data] is the memory at the pointer, [len] the [int] the caller gives. *)
Definition net_eth_send (dst_mac : list Z) (type : Z) (data : list Z) (len : Z) (s : net) : option net :=
  if negb (network_ready s) then Some s else
  '(p, h) ← kmalloc (u64 (len + sizeof_eth_hdr)) (nheap s);
  let s := set_nheap h s in
  if p =? 0 then Some s else
  body ← copy data len;
  let s := transmit (dst_mac ++ our_mac s ++ le16 (htons type) ++ body) s in
  h ← kfree p (nheap s);
  Some (set_nheap h s).

(** ** ARP *)

(** The 28 bytes of an [arp_pkt_t]. *)
Definition arp_pkt (op : Z) (sha : list Z) (spa : Z) (tha : list Z) (tpa : Z) : list Z :=
  le16 (htons ARP_HTYPE_ETHER) ++ le16 (htons ARP_PTYPE_IP) ++ [6; 4] ++ le16 (htons op)
    ++ sha ++ le32 spa ++ tha ++ le32 tpa.

Definition broadcast : list Z := replicate 6 255.

Definition arp_send_request (target_ip : Z) (src_mac : list Z) (src_ip : Z) (s : net) : option net :=
  net_eth_send broadcast ETHERTYPE_ARP
    (arp_pkt ARP_OP_REQUEST src_mac src_ip (replicate 6 0) target_ip) sizeof_arp_pkt s.

Definition arp_handle_packet (packet : list Z) (len : Z) (s : net) : option net :=
  if u64 len <? sizeof_arp_pkt then Some s else
  op ← get16 packet 6;
  sha ← copy (drop 8 packet) 6;
  spa ← get32 packet 14;
  tpa ← get32 packet 24;
  s ← (if (ntohs op =? ARP_OP_REQUEST) && (tpa =? net_get_ip s)
       then net_eth_send sha ETHERTYPE_ARP
              (arp_pkt ARP_OP_REPLY (net_get_mac s) (net_get_ip s) sha spa) sizeof_arp_pkt s
       else Some s);
  Some (arp_cache_add spa sha s).

(** ** IP *)

(** [n] more attempts to find the hardware address. *)
Fixpoint arp_resolve (n : nat) (target : Z) (src_mac : list Z) (src_ip : Z) (s : net) :
    option (option (list Z) * net) :=
  match n with
  | O => Some (None, s)
  | S n =>
      match arp_cache_lookup target s with
      | Some mac => Some (Some mac, s)
      | None =>
          s ← arp_send_request target src_mac src_ip s;
          arp_resolve n target src_mac src_ip (wait s)
      end
  end.

(** The 20 bytes of an [ip_hdr_t]. *)
Definition ip_hdr (total proto csum src dst : Z) : list Z :=
  [0x45; 0] ++ le16 (htons (u16 total)) ++ le16 (htons 0x0100) ++ [0; 0] ++ [64; proto]
    ++ le16 csum ++ le32 src ++ le32 dst.

(** The address whose hardware address is asked for. *)
Definition next_hop (dst_ip : Z) (s : net) : Z :=
  if negb (Z.land dst_ip (net_get_netmask s) =? Z.land (net_get_ip s) (net_get_netmask s))
     && nz (net_get_gateway s)
  then net_get_gateway s else dst_ip.

Definition ip_send_packet (dst_ip proto : Z) (data : list Z) (len : Z) (s : net) : option (Z * net) :=
  let src_ip := net_get_ip s in
  '(found, s) ← arp_resolve 3 (next_hop dst_ip s) (net_get_mac s) src_ip s;
  match found with
  | None => Some (-1, s)
  | Some dst_mac =>
      let total := sizeof_ip_hdr + len in
      '(p, h) ← kmalloc (u64 total) (nheap s);
      let s := set_nheap h s in
      if p =? 0 then Some (-1, s) else
      csum ← ip_checksum (ip_hdr total proto 0 src_ip dst_ip) sizeof_ip_hdr;
      body ← copy data len;
      s ← net_eth_send dst_mac ETHERTYPE_IP (ip_hdr total proto csum src_ip dst_ip ++ body) total s;
      h ← kfree p (nheap s);
      Some (len, set_nheap h s)
  end.

(** ** ICMP *)

Definition icmp_id : Z := 0x1234.

(** "UTMS ping" *)
Definition ping_data : list Z := [85; 84; 77; 83; 32; 112; 105; 110; 103].

Definition icmp_pkt (type csum id seq : Z) (data : list Z) : list Z :=
  [type; 0] ++ le16 csum ++ le16 (htons id) ++ le16 (htons seq) ++ data.

Definition icmp_send_request (dst id seq : Z) (s : net) : option (Z * net) :=
  let len := sizeof_icmp_hdr + 9 in
  csum ← icmp_checksum (icmp_pkt ICMP_ECHO_REQUEST 0 id seq ping_data) len;
  ip_send_packet dst IP_PROTO_ICMP (icmp_pkt ICMP_ECHO_REQUEST csum id seq ping_data) len s.

Definition icmp_handle_packet (pkt : list Z) (len src dst : Z) (s : net) : option net :=
  if u64 len <? sizeof_icmp_hdr then Some s else
  type ← get8 pkt 0;
  id ← get16 pkt 4;
  if type =? ICMP_ECHO_REQUEST then
    let pkt := store 2 [0; 0] (store 0 [ICMP_ECHO_REPLY] pkt) in
    csum ← icmp_checksum pkt len;
    '(_, s) ← ip_send_packet src IP_PROTO_ICMP (store 2 (le16 csum) pkt) len s;
    Some s
  else if type =? ICMP_ECHO_REPLY then
    Some (if (src =? ping_target s) && (ntohs id =? icmp_id) then set_icmp_ping_received true s else s)
  else Some s.

Fixpoint ping_wait (n : nat) (s : net) : Z * net :=
  match n with
  | O => (-1, s)
  | S n => if icmp_ping_received s then (0, s) else ping_wait n (wait s)
  end.

Definition icmp_ping (dst timeout : Z) (s : net) : option (Z * net) :=
  let s := set_icmp_ping_received false (set_ping_target dst s) in
  let seq := icmp_seq s in
  '(_, s) ← icmp_send_request dst icmp_id seq (set_icmp_seq (u16 (seq + 1)) s);
  Some (ping_wait (Z.to_nat timeout) s).

(** ** UDP *)

Definition udp_init (s : net) : net :=
  set_socks (map (fun k => UdpSocket false (u_port k) (u_buf k) (u_data k) (u_cap k)) (socks s)) s.

Definition udp_pkt (srcp dstp ulen csum : Z) (data : list Z) : list Z :=
  le16 (htons srcp) ++ le16 (htons dstp) ++ le16 (htons (u16 ulen)) ++ le16 csum ++ data.

Definition udp_send (dst srcp dstp : Z) (data : list Z) (len : Z) (s : net) : option (Z * net) :=
  let ulen := sizeof_udp_hdr + len in
  '(p, h) ← kmalloc (u64 ulen) (nheap s);
  let s := set_nheap h s in
  if p =? 0 then Some (-1, s) else
  body ← (if 0 <? len then copy data len else Some []);
  csum ← udp_checksum (net_get_ip s) dst IP_PROTO_UDP (udp_pkt srcp dstp ulen 0 body) ulen;
  '(res, s) ← ip_send_packet dst IP_PROTO_UDP (udp_pkt srcp dstp ulen csum body) ulen s;
  h ← kfree p (nheap s);
  Some (res, set_nheap h s).

(** The first socket that satisfies [f]. *)
Fixpoint first_sock (f : udp_socket -> bool) (i : nat) (l : list udp_socket) : option (nat * udp_socket) :=
  match l with
  | [] => None
  | k :: l => if f k then Some (i, k) else first_sock f (S i) l
  end.

Definition put_sock (i : nat) (k : udp_socket) (s : net) : net := set_socks (<[i := k]> (socks s)) s.

Definition udp_bind (port : Z) (s : net) : option (Z * net) :=
  match first_sock (fun k => negb (u_used k)) 0 (socks s) with
  | None => Some (-1, s)
  | Some (i, _) =>
      '(p, h) ← kmalloc UDP_BUFFER_SIZE (nheap s);
      Some (Z.of_nat i, put_sock i (UdpSocket true port p [] UDP_BUFFER_SIZE) (set_nheap h s))
  end.

Definition udp_handle_packet (pkt : list Z) (len src dst : Z) (s : net) : option net :=
  if u64 len <? sizeof_udp_hdr then Some s else
  dstp ← get16 pkt 2;
  ul ← get16 pkt 4;
  let ulen := ntohs ul in
  let dlen := ulen - sizeof_udp_hdr in
  if (dlen <? 0) || (len <? ulen) then Some s else
  match first_sock (fun k => u_used k && (u_port k =? ntohs dstp)) 0 (socks s) with
  | None => Some s
  | Some (i, k) =>
      '(k, s) ←
        (if u_cap k <? dlen then
           '(new, h) ← kmalloc dlen (nheap s);
           if new =? 0 then Some (None, set_nheap h s) else
           h ← (if u_buf k =? 0 then Some h else kfree (u_buf k) h);
           Some (Some (UdpSocket (u_used k) (u_port k) new (u_data k) dlen), set_nheap h s)
         else Some (Some k, s));
      match k with
      | None => Some s
      | Some k =>
          (* a copy to the null pointer *)
          if (u_buf k =? 0) && (0 <? dlen) then None else
          data ← copy (drop 8 pkt) dlen;
          Some (put_sock i (UdpSocket (u_used k) (u_port k) (u_buf k) data (u_cap k)) s)
      end
  end.

(** The number of bytes and the bytes stored in [buf]. *)
Definition udp_recv (len : Z) (s : net) : Z * list Z * net :=
  match first_sock (fun k => u_used k && (0 <? Z.of_nat (length (u_data k)))) 0 (socks s) with
  | None => (0, [], s)
  | Some (i, k) =>
      let n := Z.min (Z.of_nat (length (u_data k))) len in
      (n, take (Z.to_nat n) (u_data k),
       put_sock i (UdpSocket (u_used k) (u_port k) (u_buf k) [] (u_cap k)) s)
  end.

(** ** Reception *)

Definition ip_handle_packet (pkt : list Z) (len : Z) (s : net) : option net :=
  if u64 len <? sizeof_ip_hdr then Some s else
  ver_ihl ← get8 pkt 0;
  if negb (Z.shiftr ver_ihl 4 =? 4) then Some s else
  let hlen := Z.land ver_ihl 0x0F * 4 in
  if (hlen <? sizeof_ip_hdr) || (len <? hlen) then Some s else
  tl ← get16 pkt 2;
  let total := if len <? ntohs tl then u16 len else ntohs tl in
  src ← get32 pkt 12;
  dst ← get32 pkt 16;
  if negb (dst =? net_get_ip s) && negb (dst =? 0xFFFFFFFF) then Some s else
  proto ← get8 pkt 9;
  let dlen := total - hlen in
  let data := drop (Z.to_nat hlen) pkt in
  if proto =? IP_PROTO_TCP then tcp_handle_packet data dlen src dst s
  else if proto =? IP_PROTO_UDP then udp_handle_packet data dlen src dst s
  else if proto =? IP_PROTO_ICMP then icmp_handle_packet data dlen src dst s
  else Some s.

Definition net_handle_packet (packet : list Z) (len : Z) (s : net) : option net :=
  if u64 len <? sizeof_eth_hdr then Some s else
  t ← get16 packet 12;
  let type := ntohs t in
  let data := drop 14 packet in
  if type =? ETHERTYPE_ARP then arp_handle_packet data (len - sizeof_eth_hdr) s
  else if type =? ETHERTYPE_IP then ip_handle_packet data (len - sizeof_eth_hdr) s
  else Some s.

(** ** DNS *)

Definition DNS_PORT : Z := 53.
Definition DNS_TYPE_A : Z := 1.
Definition DNS_CLASS_IN : Z := 1.
Definition sizeof_dns_hdr : Z := 12.
Definition sizeof_dns_question : Z := 4.

(** The characters before the next ['.'] and the rest. *)
Fixpoint until_dot (l : list Z) : list Z * list Z :=
  match l with
  | c :: l' => if c =? 46 then ([], l) else let '(a, r) := until_dot l' in (c :: a, r)
  | [] => ([], [])
  end.

(** The loop over the labels; each round consumes a character. *)
Fixpoint dns_labels (fuel : nat) (label : list Z) : list Z :=
  match fuel, label with
  | O, _ | _, [] => []
  | S fuel, _ =>
      let '(a, next) := until_dot label in
      [u8 (Z.of_nat (length a))] ++ a ++
      dns_labels fuel (match next with c :: r => if c =? 46 then r else next | [] => [] end)
  end.

Definition dns_build_query (hostname : list Z) (buflen : Z) (s : net) : option (list Z) * net :=
  if buflen <? sizeof_dns_hdr + Z.of_nat (length hostname) + 2 + 4 then (None, s) else
  (Some (le16 (htons (dns_id s)) ++ le16 (htons 0x0100) ++ le16 (htons 1) ++ replicate 6 0
         ++ dns_labels (length hostname) hostname ++ [0]
         ++ le16 (htons DNS_TYPE_A) ++ le16 (htons DNS_CLASS_IN)),
   set_dns_id (u16 (dns_id s + 1)) s).

(** The first loop of [dns_parse_response], over the name of the question. *)
Fixpoint dns_skip_question (fuel : nat) (buf : list Z) (end_ p : Z) : option Z :=
  match fuel with
  | O => None
  | S fuel =>
      if negb (p <? end_) then Some p else
      b ← get8 buf p;
      if nz (Z.land b 0xC0) then Some (p + 2) else
      if b =? 0 then Some (p + 1) else dns_skip_question fuel buf end_ (p + (b + 1))
  end.

(** [while (p < end && *p) p += *p + 1; p++;] *)
Fixpoint dns_skip_labels (fuel : nat) (buf : list Z) (end_ p : Z) : option Z :=
  match fuel with
  | O => None
  | S fuel =>
      if negb (p <? end_) then Some (p + 1) else
      b ← get8 buf p;
      if b =? 0 then Some (p + 1) else dns_skip_labels fuel buf end_ (p + (b + 1))
  end.

(** The loop over the answers; [Some None] is the result -1. *)
Fixpoint dns_answers (n : nat) (buf : list Z) (end_ p : Z) : option (option Z) :=
  match n with
  | O => Some None
  | S n =>
      if negb (p <? end_) then Some None else
      b ← get8 buf p;
      p ← (if nz (Z.land b 0xC0) then Some (p + 2) else dns_skip_labels (S (length buf)) buf end_ p);
      if end_ <? p + 10 then Some None else
      type ← get16 buf p;
      class ← get16 buf (p + 2);
      rd ← get16 buf (p + 8);
      if (ntohs type =? DNS_TYPE_A) && (ntohs class =? DNS_CLASS_IN) && (ntohs rd =? 4)
      then ip ← get32 buf (p + 10); Some (Some ip)
      else dns_answers n buf end_ (p + 10 + ntohs rd)
  end.

Definition dns_parse_response (buf : list Z) (len : Z) : option (option Z) :=
  an ← get16 buf 6;
  if ntohs an =? 0 then Some None else
  p ← dns_skip_question (S (length buf)) buf len sizeof_dns_hdr;
  dns_answers (Z.to_nat (ntohs an)) buf len (p + sizeof_dns_question).

(** One wait of [dns_lookup]: [n] polls; the response buffer keeps its contents. *)
Fixpoint dns_poll (n : nat) (response : list Z) (s : net) : option (option Z * list Z * net) :=
  match n with
  | O => Some (None, response, s)
  | S n =>
      let '(rlen, bytes, s) := udp_recv 512 s in
      let response := store 0 bytes response in
      r ← (if 0 <? rlen then dns_parse_response response rlen else Some None);
      match r with
      | Some ip => Some (Some ip, response, s)
      | None => dns_poll n response (wait s)
      end
  end.

(** The attempts, in the order of the two loops. *)
Fixpoint dns_try (servers : list Z) (query response : list Z) (s : net) : option (Z * net) :=
  match servers with
  | [] => Some (0, s)
  | server :: servers =>
      '(r, s) ← udp_send server 12345 DNS_PORT query (Z.of_nat (length query)) s;
      if r <? 0 then dns_try servers query response s else
      '(found, response, s) ← dns_poll 2000 response s;
      match found with
      | Some ip => Some (ip, s)
      | None => dns_try servers query response s
      end
  end.

(** [quad] is what [sscanf] makes of the name when it is a dotted quad. *)
Definition dns_lookup (hostname : list Z) (quad : option Z) (dns_server : Z) (response : list Z) (s : net) :
    option (Z * net) :=
  match quad with
  | Some ip => Some (ip, s)
  | None =>
      let servers := (if dns_server =? 0 then [] else [dns_server]) ++ [0x08080808; 0x01010101; 0x09090909] in
      match dns_build_query hostname 512 s with
      | (None, s) => Some (0, s)
      | (Some query, s) => dns_try (concat (map (fun d => [d; d]) servers)) query response s
      end
  end.

(** ** DHCP *)

Definition DHCP_SERVER_PORT : Z := 67.
Definition DHCP_CLIENT_PORT : Z := 68.
Definition DHCP_MAGIC_COOKIE : Z := 0x63825363.
Definition DHCP_DISCOVER : Z := 1.
Definition DHCP_OFFER : Z := 2.
Definition DHCP_REQUEST : Z := 3.
Definition DHCP_ACK : Z := 5.
Definition dhcp_xid : Z := 0x12345678.

(** A [dhcp_pkt_t] up to the options that are sent. *)
Definition dhcp_pkt (mac : list Z) (xid : Z) (options : list Z) : list Z :=
  [1; 1; 6; 0] ++ le32 (htonl xid) ++ replicate 20 0 ++ mac ++ replicate 202 0
    ++ le32 (htonl DHCP_MAGIC_COOKIE) ++ options.

(** The four bytes of an address, the most significant first. *)
Definition be32 (v : Z) : list Z :=
  [Z.land (Z.shiftr v 24) 0xFF; Z.land (Z.shiftr v 16) 0xFF; Z.land (Z.shiftr v 8) 0xFF; Z.land v 0xFF].

Definition dhcp_send (pkt : list Z) (s : net) : option (Z * net) :=
  udp_send 0xFFFFFFFF DHCP_CLIENT_PORT DHCP_SERVER_PORT pkt (Z.of_nat (length pkt)) s.

Definition dhcp_send_discover (mac : list Z) (xid : Z) (s : net) : option (Z * net) :=
  dhcp_send (dhcp_pkt mac xid [53; 1; DHCP_DISCOVER; 55; 4; 1; 3; 6; 15; 255]) s.

Definition dhcp_send_request (mac : list Z) (xid requested_ip server_ip : Z) (s : net) : option (Z * net) :=
  dhcp_send (dhcp_pkt mac xid ([53; 1; DHCP_REQUEST; 50; 4] ++ be32 requested_ip ++ [54; 4] ++ be32 server_ip ++ [255])) s.

(** The values the options loop collects. *)
Record dhcp_opts := DhcpOpts { o_type : Z; o_server : Z; o_mask : Z; o_gateway : Z; o_dns : Z }.

(** [(opt[0] << 24) | (opt[1] << 16) | (opt[2] << 8) | opt[3]] *)
Definition opt32 (l : list Z) : Z :=
  Z.lor (Z.lor (Z.lor (Z.shiftl (nth 0 l 0) 24) (Z.shiftl (nth 1 l 0) 16)) (Z.shiftl (nth 2 l 0) 8)) (nth 3 l 0).

Definition dhcp_option (code : Z) (v : list Z) (o : dhcp_opts) : dhcp_opts :=
  let n := length v in
  let four := (n =? 4)%nat in
  DhcpOpts (if (code =? 53) && (n =? 1)%nat then nth 0 v 0 else o_type o)
    (if (code =? 54) && four then opt32 v else o_server o)
    (if (code =? 1) && four then opt32 v else o_mask o)
    (if (code =? 3) && four then opt32 v else o_gateway o)
    (if (code =? 6) && four then opt32 v else o_dns o).

(** [l] is the bytes from [opt] to [end]. *)
Fixpoint dhcp_options (fuel : nat) (l : list Z) (o : dhcp_opts) : dhcp_opts :=
  match fuel, l with
  | S fuel, code :: length_ :: l =>
      if code =? 255 then o else
      if (length l <? Z.to_nat length_)%nat then o else
      dhcp_options fuel (drop (Z.to_nat length_) l) (dhcp_option code (take (Z.to_nat length_) l) o)
  | _, _ => o
  end.

Definition dhcp_handle_packet (packet : list Z) (len : Z) (s : net) : option net :=
  if len <? 240 then Some s else
  magic ← get32 packet 236;
  if negb (ntohl magic =? DHCP_MAGIC_COOKIE) then Some s else
  body ← copy (drop 240 packet) (len - 240);
  let o := dhcp_options (length body) body (DhcpOpts 0 0 0 0 0) in
  xid ← get32 packet 4;
  yiaddr ← get32 packet 16;
  s ← (if (o_type o =? DHCP_OFFER) && nz yiaddr then
         '(_, s) ← dhcp_send_request (net_get_mac s) (ntohl xid) (ntohl yiaddr) (o_server o)
                     (set_dhcp_server (o_server o) s);
         Some s
       else Some s);
  Some (if (o_type o =? DHCP_ACK) && nz yiaddr then
          let s := net_set_ip (ntohl yiaddr) s in
          let s := if nz (o_mask o) then net_set_netmask (o_mask o) s else s in
          let s := if nz (o_gateway o) then net_set_gateway (o_gateway o) s else s in
          let s := if nz (o_dns o) then net_set_dns (o_dns o) s else s in
          set_dhcp_success true s
        else s).

Fixpoint dhcp_poll (n : nat) (s : net) : option (Z * net) :=
  match n with
  | O => Some (-1, s)
  | S n =>
      let '(rlen, buf, s) := udp_recv 1024 s in
      s ← (if 0 <? rlen then dhcp_handle_packet buf rlen s else Some s);
      if (0 <? rlen) && dhcp_success s then Some (0, s) else dhcp_poll n (wait s)
  end.

Definition dhcp_request (s : net) : option (Z * net) :=
  '(sock, s) ← udp_bind DHCP_CLIENT_PORT s;
  if sock <? 0 then Some (-1, s) else
  '(_, s) ← dhcp_send_discover (net_get_mac s) dhcp_xid (set_dhcp_success false s);
  dhcp_poll 5000 s.

(** ** Start-up *)

(** The hardware address of a card that is found and whose driver starts. *)
Variables e1000 rtl8139 : option (list Z).
(** What reading /etc/netconfig makes of the configuration. *)
Variable net_config_load : net_config -> net_config.

Definition default_mac : list Z := [0x52; 0x54; 0x00; 0x12; 0x34; 0x56].
Definition net_config_default : net_config := NetConfig 0x0A00020F 0xFFFFFF00 0x0A000202 0x0A000202 true.

(** The search for a card. *)
Definition net_probe (s : net) : net :=
  let s := set_network_ready false (set_nic_type 0 s) in
  match e1000 with
  | Some mac =>
      let mac := if forallb (fun b => b =? 0) mac then default_mac else mac in
      set_nic_type 1 (set_network_ready true (set_our_mac mac s))
  | None =>
      match rtl8139 with
      | Some mac => set_nic_type 2 (set_network_ready true (set_our_mac mac s))
      | None => s
      end
  end.

Definition net_init (s : net) : option (Z * net) :=
  let s := net_probe s in
  if negb (network_ready s) then Some (0, set_our_mac default_mac s) else
  let s := tcp_init (udp_init (arp_cache_init s)) in
  let c := net_config_load net_config_default in
  let s := set_config c s in
  let s := set_our_dns (c_dns c) (set_our_gateway (c_gateway c)
             (set_our_netmask (c_netmask c) (set_our_ip (c_ip c) s))) in
  if c_use_dhcp c then '(_, s) ← dhcp_request s; Some (0, s) else Some (0, s).

End Net.

(** * Checksums *)

(** The sum of the little endian words, with a last odd byte. *)
Fixpoint wsum (l : list Z) : Z :=
  match l with
  | a :: b :: l => a + 256 * b + wsum l
  | [a] => a
  | [] => 0
  end.

Lemma pair_ind (P : list Z -> Prop) :
  P [] -> (forall a, P [a]) -> (forall a b l, P l -> P (a :: b :: l)) -> forall l, P l.
Proof.
  intros H0 H1 H2. assert (H : forall l, P l /\ forall a, P (a :: l)); [|intros l; apply H].
  induction l as [|x l [IH IH']]; [auto|]. split; [apply IH'|]. intros a. by apply H2.
Qed.

Lemma wsum_bound l : byte_list l -> 0 <= wsum l <= 65535 * Z.of_nat (length l).
Proof.
  induction l as [| |a b l IH] using pair_ind; intros H; [cbn; lia|..].
  - apply Forall_cons in H as [Ha _]. cbn. lia.
  - apply Forall_cons in H as [Ha H]. apply Forall_cons in H as [Hb H]. specialize (IH H). cbn [wsum length]. lia.
Qed.

Lemma wsum_app l1 l2 : (exists k, length l1 = 2 * k)%nat -> wsum (l1 ++ l2) = wsum l1 + wsum l2.
Proof.
  induction l1 as [| |a b l1 IH] using pair_ind; intros [k Hk]; [done|cbn in Hk; lia|].
  cbn [app wsum]. rewrite IH; [lia|]. exists (k - 1)%nat. cbn in Hk. lia.
Qed.

(** Two bytes at the front are one word more. *)
Lemma sum_bytes_pair a b l sum :
  sum_bytes (a :: b :: l) (Z.of_nat (length (a :: b :: l))) sum =
  sum_bytes l (Z.of_nat (length l)) (u32 (sum + (a + 256 * b))).
Proof.
  cbn [length]. unfold sum_bytes. set (n := Z.of_nat (length l)).
  replace (Z.of_nat (S (S (length l)))) with (n + 1 * 2) by lia.
  replace (Z.to_nat ((n + 1 * 2) ÷ 2)) with (S (Z.to_nat (n ÷ 2))).
  2:{ rewrite !Z.quot_div_nonneg, Z.div_add by lia. pose proof (Z.div_pos n 2 ltac:(lia) ltac:(lia)). lia. }
  cbn [sum_words]. destruct (sum_words _ _ _) as [w|]; [|done]. cbn [mbind option_bind].
  replace (Z.land (n + 1 * 2) 1) with (Z.land n 1).
  2:{ assert (Hm : forall x, Z.land x 1 = x mod 2) by (intros x; apply (Z.land_ones x 1); lia). by rewrite !Hm, Z.mod_add by lia. }
  destruct (nz (Z.land n 1)) eqn:En; [|done].
  assert (0 < n) by (destruct (Z.eqb_spec n 0) as [E|]; [rewrite E in En; discriminate|lia]).
  unfold get8. rewrite !(proj2 (Z.ltb_ge _ _)) by lia.
  by replace (Z.to_nat (n + 1 * 2 - 1)) with (S (S (Z.to_nat (n - 1)))) by lia.
Qed.

Lemma sum_bytes_spec l : forall sum,
  byte_list l -> 0 <= sum -> sum + 65535 * Z.of_nat (length l) < 2 ^ 32 ->
  sum_bytes l (Z.of_nat (length l)) sum = Some (sum + wsum l).
Proof.
  induction l as [| |a b l IH] using pair_ind; intros sum H Hs Hb.
  - cbn. f_equal. lia.
  - apply Forall_cons in H as [Ha _]. cbn [length] in Hb.
    change (sum_bytes [a] (Z.of_nat (length [a])) sum) with (Some (u32 (sum + a))). by rewrite u32_small by lia.
  - apply Forall_cons in H as [Ha H]. apply Forall_cons in H as [Hb' H]. rewrite sum_bytes_pair. cbn [length] in Hb.
    rewrite u32_small, IH by (done || lia). cbn [wsum]. f_equal. lia.
Qed.

(** The sum of all the bytes there are never reads outside them. *)
Lemma sum_bytes_total l : forall sum, exists x, sum_bytes l (Z.of_nat (length l)) sum = Some x.
Proof.
  induction l as [| |a b l IH] using pair_ind; intros sum; [cbn; eauto|by eexists|].
  destruct (IH (u32 (sum + (a + 256 * b)))) as [x Hx]. exists x. by rewrite sum_bytes_pair.
Qed.

Lemma fold_step x : 0 <= x ->
  Z.land x 0xFFFF + Z.shiftr x 16 = x mod 65536 + x / 65536.
Proof. intros H. change 0xFFFF with (Z.ones 16). rewrite Z.land_ones, Z.shiftr_div_pow2 by lia. done. Qed.

(** Folding keeps the value modulo 65535, and only 0 folds to 0. *)
Lemma fold16_spec x : 0 <= x < 2 ^ 32 ->
  0 <= fold16 3 x < 65536 /\ (exists k, x = fold16 3 x + 65535 * k) /\ (fold16 3 x = 0 <-> x = 0).
Proof.
  intros H. assert (Hstep : forall n y, 0 <= y -> fold16 (S n) y = if y <? 65536 then y else fold16 n (y mod 65536 + y / 65536)).
  { intros n y Hy. cbn [fold16]. rewrite fold_step, Z.shiftr_div_pow2 by lia. change (2 ^ 16) with 65536.
    destruct (Z.ltb_spec y 65536) as [Hlt|Hge]; [rewrite Z.div_small, Z.eqb_refl by lia; done|].
    rewrite (proj2 (Z.eqb_neq _ _)); [done|]. dlia. }
  rewrite (Hstep 2%nat x) by lia. destruct (Z.ltb_spec x 65536) as [H1|H1].
  { split; [lia|]. split; [exists 0; lia|done]. }
  set (y := x mod 65536 + x / 65536). assert (Hy : 0 < y <= 131070 /\ x = y + 65535 * (x / 65536)) by (unfold y; dlia).
  rewrite (Hstep 1%nat y) by lia. destruct (Z.ltb_spec y 65536) as [H2|H2].
  { split; [lia|]. split; [exists (x / 65536); lia|lia]. }
  set (z := y mod 65536 + y / 65536). assert (Hz : 0 < z < 65536 /\ y = z + 65535 * (y / 65536)) by (unfold z; dlia).
  rewrite (Hstep 0%nat z) by lia. rewrite (proj2 (Z.ltb_lt z 65536)) by lia.
  split; [lia|]. split; [exists (x / 65536 + y / 65536); lia|lia].
Qed.

Lemma finish_checksum_spec x : 0 <= x < 2 ^ 32 -> finish_checksum x = 65535 - fold16 3 x.
Proof.
  intros H. unfold finish_checksum. destruct (fold16_spec x H) as (Hf & _).
  unfold u16, Z.lnot. symmetry. apply Z.mod_unique with (q := -1); lia.
Qed.

(** Storing the checksum of the rest makes the checksum of the whole 0. *)
Lemma checksum_zero x : 0 <= x -> x + 65535 < 2 ^ 32 ->
  0 <= finish_checksum x < 65536 /\ finish_checksum (x + finish_checksum x) = 0.
Proof.
  intros H Hx. destruct (fold16_spec x) as (Hf & (k & Hk) & Hz); [lia|].
  rewrite (finish_checksum_spec x) by lia. split; [lia|]. set (c := 65535 - fold16 3 x) in *.
  destruct (fold16_spec (x + c)) as (Hf' & (k' & Hk') & Hz'); [lia|].
  rewrite finish_checksum_spec by lia. lia.
Qed.

Lemma wsum_le16 v : 0 <= v < 65536 -> wsum (le16 v) = v.
Proof. intros H. unfold le16, u8. cbn [wsum]. rewrite Z.shiftr_div_pow2 by lia. dlia. Qed.

Lemma checksum_field l1 l2 :
  byte_list l1 -> byte_list l2 -> (exists k, length l1 = 2 * k)%nat -> Z.of_nat (length l1 + 2 + length l2) <= 65535 ->
  exists c, 0 <= c < 65536 /\
    ip_checksum (l1 ++ le16 0 ++ l2) (Z.of_nat (length l1 + 2 + length l2)) = Some c /\
    ip_checksum (l1 ++ le16 c ++ l2) (Z.of_nat (length l1 + 2 + length l2)) = Some 0.
Proof.
  intros H1 H2 He Hlen. set (x := wsum l1 + wsum l2).
  pose proof (wsum_bound l1 H1). pose proof (wsum_bound l2 H2).
  assert (Hsum : forall v, 0 <= v < 65536 ->
    ip_checksum (l1 ++ le16 v ++ l2) (Z.of_nat (length l1 + 2 + length l2)) = Some (finish_checksum (x + v))).
  { intros v Hv. unfold ip_checksum.
    replace (length l1 + 2 + length l2)%nat with (length (l1 ++ le16 v ++ l2)) by (rewrite !length_app; cbn; lia).
    rewrite sum_bytes_spec.
    - cbn [mbind option_bind]. do 2 f_equal.
      rewrite (wsum_app l1 (le16 v ++ l2)), (wsum_app (le16 v) l2), wsum_le16 by (done || by exists 1%nat). unfold x. lia.
    - apply Forall_app. split; [done|]. apply Forall_app. split; [apply le16_bytes|done].
    - lia.
    - rewrite !length_app. change (length (le16 v)) with 2%nat. lia. }
  destruct (checksum_zero x) as [Hc Hz]; [unfold x; lia|unfold x; lia|]. exists (finish_checksum x). split; [done|].
  rewrite !Hsum by lia. rewrite Z.add_0_r, Hz. done.
Qed.

(** * The ARP cache is a queue *)

Definition entry_of (e : arp_cache_entry) : Z * list Z := (a_ip e, a_mac e).

(** The cache holds [v], oldest first, in its first places. *)
Definition arp_holds (s : net) (v : list (Z * list Z)) : Prop :=
  exists valid free, arp_cache s = valid ++ free /\ entry_of <$> valid = v /\
    Forall (fun e => a_valid e = true) valid /\ Forall (fun e => a_valid e = false) free /\
    length (arp_cache s) = ARP_CACHE_SIZE.

(** The specification of a lookup: the oldest entry of the address. *)
Fixpoint oldest (ip : Z) (v : list (Z * list Z)) : option (list Z) :=
  match v with
  | [] => None
  | (a, mac) :: v => if a =? ip then Some mac else oldest ip v
  end.

Lemma oldest_app ip v w :
  oldest ip (v ++ w) = match oldest ip v with Some m => Some m | None => oldest ip w end.
Proof. induction v as [|[a m] v IH]; [done|]. cbn [app oldest]. destruct (_ =? _); [done|exact IH]. Qed.

Lemma oldest_drop ip v : oldest ip v = None -> forall k, oldest ip (drop k v) = None.
Proof.
  induction v as [|[a m] v IH]; intros H k; [by rewrite drop_nil|]. cbn [oldest] in H.
  destruct (a =? ip) eqn:E; [done|]. destruct k; [cbn [drop oldest]; by rewrite E|]. by apply IH.
Qed.

Lemma arp_holds_length s v : arp_holds s v -> (length v <= ARP_CACHE_SIZE)%nat.
Proof. intros (va & fr & Hc & <- & _ & _ & Hlen). rewrite Hc, length_app in Hlen. rewrite length_fmap. lia. Qed.

Lemma arp_fill_spec e valid free :
  Forall (fun e => a_valid e = true) valid -> Forall (fun e => a_valid e = false) free ->
  arp_fill e (valid ++ free) =
    match free with [] => None | _ :: free => Some (valid ++ e :: free) end.
Proof.
  intros Hv Hf. induction Hv as [|x valid Hx Hv IH]; cbn [app arp_fill].
  - destruct Hf as [|x free Hx _]; [done|]. cbn. by rewrite Hx.
  - rewrite Hx, IH. destruct free; done.
Qed.

Lemma arp_lookup_spec s v ip : arp_holds s v -> arp_cache_lookup ip s = oldest ip v.
Proof.
  intros (valid & free & Hc & <- & Hv & Hf & _). unfold arp_cache_lookup. rewrite Hc. clear Hc.
  induction Hv as [|x valid Hx Hv IH].
  - cbn [app]. induction Hf as [|x free Hx Hf IH]; [done|]. cbn. by rewrite Hx.
  - cbn [app find fmap list_fmap oldest]. rewrite Hx. cbn [andb]. unfold entry_of at 1.
    destruct (_ =? _); [done|]. exact IH.
Qed.

Lemma arp_add_spec s v ip mac :
  arp_holds s v ->
  arp_holds (arp_cache_add ip mac s) (drop (S (length v) - ARP_CACHE_SIZE) (v ++ [(ip, mac)])).
Proof.
  intros (valid & free & Hc & <- & Hv & Hf & Hlen). unfold arp_cache_add. rewrite Hc, (arp_fill_spec _ _ _ Hv Hf).
  rewrite Hc, length_app in Hlen. rewrite length_fmap. set (e := ArpEntry ip mac true). unfold ARP_CACHE_SIZE in *.
  destruct free as [|x free].
  - rewrite app_nil_r. cbn in Hlen. exists (tail valid ++ [e]), []. cbn [arp_cache set_arp_cache].
    rewrite app_nil_r. replace (S (length valid) - 16)%nat with 1%nat by lia.
    destruct valid as [|y valid]; [cbn in Hlen; lia|]. cbn [tail fmap list_fmap app drop]. split_and!; auto.
    + by rewrite fmap_app.
    + apply Forall_app. split; [by apply Forall_cons in Hv as [_ Hv]|by constructor].
    + rewrite length_app. cbn in *. unfold ARP_CACHE_SIZE. lia.
  - exists (valid ++ [e]), free. cbn [arp_cache set_arp_cache]. cbn in Hlen.
    replace (S (length valid) - 16)%nat with 0%nat by lia. cbn [drop]. split_and!.
    + by rewrite <- app_assoc.
    + by rewrite fmap_app.
    + apply Forall_app. split; [done|by constructor].
    + by apply Forall_cons in Hf as [_ Hf].
    + rewrite length_app. cbn. unfold ARP_CACHE_SIZE. lia.
Qed.

(** * Datagrams *)

Lemma bswap16_spec x : 0 <= x < 65536 -> bswap16 x = x / 256 + 256 * (x mod 256).
Proof.
  intros H. unfold bswap16, u16. rewrite Z.shiftr_div_pow2, Z.shiftl_mul_pow2 by lia. change (2 ^ 8) with 256.
  assert (Hl : Z.land (x / 256) (x * 256) = 0).
  { apply Z.bits_inj'. intros n Hn. rewrite Z.land_spec, Z.bits_0.
    destruct (Z.ltb_spec n 8).
    - change 256 with (2 ^ 8). by rewrite Z.mul_pow2_bits_low, andb_false_r by lia.
    - rewrite andb_comm, (Z.bits_above_log2 (x / 256)); [by rewrite andb_false_r|dlia|].
      destruct (Z.eqb_spec (x / 256) 0) as [->|]; [cbn; lia|].
      apply Z.lt_le_trans with 8; [|lia]. apply Z.log2_lt_pow2; dlia. }
  pose proof (Z.add_lor_land (x / 256) (x * 256)) as Ha. rewrite Hl, Z.add_0_r in Ha. rewrite Ha. dlia.
Qed.

Lemma ntohs_htons x : 0 <= x < 65536 -> ntohs (htons x) = x /\ 0 <= htons x < 65536.
Proof.
  intros H. unfold ntohs, htons. rewrite (bswap16_spec x H). assert (0 <= x / 256 + 256 * (x mod 256) < 65536) by dlia.
  rewrite bswap16_spec by done. split; [dlia|done].
Qed.

Lemma bswap32_spec x : 0 <= x < 2 ^ 32 ->
  bswap32 x = x / 2 ^ 24 + (x / 2 ^ 16) mod 256 * 2 ^ 8 + (x / 2 ^ 8) mod 256 * 2 ^ 16 + x mod 256 * 2 ^ 24.
Proof.
  intros H. unfold bswap32, u32. rewrite !Z.shiftr_div_pow2, !Z.shiftl_mul_pow2 by lia.
  change 0xFF00 with (255 * 2 ^ 8). change 0xFF0000 with (255 * 2 ^ 16). rewrite !land_byte by lia.
  assert (Hx : x / 2 ^ 8 / 2 ^ 8 = x / 2 ^ 16) by dlia. rewrite Hx.
  assert (Hm : (x * 2 ^ 8) mod 2 ^ 32 / 2 ^ 16 mod 256 = x / 2 ^ 8 mod 256) by dlia. rewrite Hm.
  assert (Hs : (x * 2 ^ 24) mod 2 ^ 32 = x mod 256 * 2 ^ 24) by dlia. rewrite Hs.
  rewrite (lor_disjoint (x / 2 ^ 24)) by dlia. rewrite (lor_disjoint (_ + _)) by dlia. by rewrite lor_disjoint by dlia.
Qed.

Lemma ntohl_htonl x : 0 <= x < 2 ^ 32 -> ntohl (htonl x) = x /\ 0 <= htonl x < 2 ^ 32.
Proof.
  intros H. unfold ntohl, htonl. rewrite (bswap32_spec x H).
  assert (Hx : exists a b c d, 0 <= a < 256 /\ 0 <= b < 256 /\ 0 <= c < 256 /\ 0 <= d < 256 /\
    x / 2 ^ 24 = d /\ (x / 2 ^ 16) mod 256 = c /\ (x / 2 ^ 8) mod 256 = b /\ x mod 256 = a /\
    x = a + b * 2 ^ 8 + c * 2 ^ 16 + d * 2 ^ 24).
  { eexists _, _, _, _. split_and!; [| | | | | | | |reflexivity..|]; dlia. }
  destruct Hx as (a & b & c & d & Ha & Hb & Hc & Hd & -> & -> & -> & -> & Hx).
  set (y := d + c * 2 ^ 8 + b * 2 ^ 16 + a * 2 ^ 24).
  assert (Hy : y / 2 ^ 24 = a /\ y / 2 ^ 16 = b + 256 * a /\ y / 2 ^ 8 = c + 256 * (b + 256 * a) /\ y mod 256 = d).
  { unfold y. split_and!; dlia. }
  assert (0 <= y < 2 ^ 32) by (unfold y; lia). split; [|done]. rewrite bswap32_spec by done.
  destruct Hy as (-> & -> & -> & ->). rewrite Hx. dlia.
Qed.

(** The frame that carries a datagram. *)
Definition udp_frame (dst_mac src_mac : list Z) (src dst srcp dstp ucsum icsum : Z) (data : list Z) : list Z :=
  let ulen := sizeof_udp_hdr + Z.of_nat (length data) in
  dst_mac ++ src_mac ++ le16 (htons ETHERTYPE_IP) ++
  ip_hdr (sizeof_ip_hdr + ulen) IP_PROTO_UDP icsum src dst ++ udp_pkt srcp dstp ulen ucsum data.

Section Delivery.
Variables e1000_present rtl8139_present : bool.
Variable wait : net -> net.
Variable tcp_handle_packet : list Z -> Z -> Z -> Z -> net -> option net.
Context {live : heap -> gset Z -> Prop} `{!Allocator live}.

(** A card that sends. *)
Definition card_ok (s : net) : Prop :=
  network_ready s = true /\ ((nic_type s =? 1) && e1000_present) || ((nic_type s =? 2) && rtl8139_present) = true.

Lemma alloc_free n h L : live h L -> 0 < n -> n + 7 < 2 ^ 64 ->
  kmalloc n h = Some (0, h) \/
  exists p h', kmalloc n h = Some (p, h') /\ p <> 0 /\ live h' ({[p]} ∪ L) /\
    forall h'', live h'' ({[p]} ∪ L) -> exists h3, kfree p h'' = Some h3 /\ live h3 L.
Proof.
  intros Hl H0 H1. destruct (alloc_ok h L n Hl H0 H1) as [?|(p & h' & Hk & Hp & HpL & Hl')]; [by left|right].
  exists p, h'. split_and!; auto. intros h'' Hl''. destruct (free_ok h'' ({[p]} ∪ L) p Hl'') as (h3 & Hf & Hl3); [set_solver|].
  exists h3. split; [done|]. by replace L with (({[p]} ∪ L) ∖ {[p]}) by set_solver.
Qed.

(** [s'] is [s] with another heap and the frames [fs] sent. *)
Definition sent_more (s : net) (fs : list (list Z)) (h : heap) : net := set_nheap h (set_sent (sent s ++ fs) s).

Lemma eth_send_spec s L dst_mac type data :
  card_ok s -> live (nheap s) L -> Z.of_nat (length data) <= 65535 ->
  exists fs h, net_eth_send e1000_present rtl8139_present dst_mac type data (Z.of_nat (length data)) s =
      Some (sent_more s fs h) /\ live h L /\
    (fs = [dst_mac ++ our_mac s ++ le16 (htons type) ++ data] \/
     fs = [] /\ exists n, n <= Z.of_nat (length data) + 14 /\ kmalloc n (nheap s) = Some (0, nheap s)).
Proof.
  intros [Hr Hc] Hl Hd. unfold net_eth_send. rewrite Hr. cbn [negb]. unfold sizeof_eth_hdr. rewrite u64_small by lia.
  destruct (alloc_free (Z.of_nat (length data) + 14) (nheap s) L Hl) as [Hk|(p & h & Hk & Hp & Hl' & Hfree)]; [lia|lia| |];
    rewrite Hk; cbn [mbind option_bind].
  - exists [], (nheap s). split_and!; auto.
    + cbn. unfold sent_more. rewrite app_nil_r. by destruct s.
    + right. split; [done|]. eexists. split; [|exact Hk]. lia.
  - rewrite (proj2 (Z.eqb_neq p 0)) by done. rewrite copy_all. cbn [mbind option_bind].
    unfold transmit. cbn [nic_type set_nheap]. rewrite Hc. cbn [nheap set_sent sent set_nheap our_mac].
    destruct (Hfree h Hl') as (h3 & Hf & Hl3). rewrite Hf. cbn [mbind option_bind].
    exists [dst_mac ++ our_mac s ++ le16 (htons type) ++ data], h3. split_and!; auto.
Qed.

Lemma ip_send_spec s L dst proto data mac :
  card_ok s -> live (nheap s) L -> Z.of_nat (length data) <= 65515 ->
  arp_cache_lookup (next_hop dst s) s = Some mac -> byte_list (ip_hdr (20 + Z.of_nat (length data)) proto 0 (our_ip s) dst) ->
  exists r fs h c, ip_send_packet e1000_present rtl8139_present wait dst proto data (Z.of_nat (length data)) s =
      Some (r, sent_more s fs h) /\ live h L /\
    (fs = [mac ++ our_mac s ++ le16 (htons ETHERTYPE_IP) ++
           ip_hdr (20 + Z.of_nat (length data)) proto c (our_ip s) dst ++ data] /\ r = Z.of_nat (length data) \/
     fs = [] /\ exists n h, n <= Z.of_nat (length data) + 34 /\ kmalloc n h = Some (0, h)).
Proof.
  intros Hc Hl Hd Ha Hb. unfold ip_send_packet. cbn [arp_resolve]. rewrite Ha. cbn [mbind option_bind].
  unfold sizeof_ip_hdr. rewrite u64_small by lia.
  destruct (alloc_free (20 + Z.of_nat (length data)) (nheap s) L Hl) as [Hk|(p & h & Hk & Hp & Hl' & Hfree)]; [lia|lia| |];
    rewrite Hk; cbn [mbind option_bind].
  - exists (-1), [], (nheap s), 0. split_and!; auto.
    + cbn. unfold sent_more. rewrite app_nil_r. by destruct s.
    + right. split; [done|]. eexists _, (nheap s). split; [|exact Hk]. lia.
  - rewrite (proj2 (Z.eqb_neq p 0)) by done.
    assert (exists c, ip_checksum (ip_hdr (20 + Z.of_nat (length data)) proto 0 (net_get_ip s) dst) 20 = Some c) as (c & Hcs).
    { pose proof (sum_bytes_spec _ 0 Hb ltac:(lia) ltac:(cbn; lia)) as Hsb.
      change (Z.of_nat (length (ip_hdr _ _ _ _ _))) with 20 in Hsb.
      unfold ip_checksum, net_get_ip. rewrite Hsb. by eexists. }
    rewrite Hcs. cbn [mbind option_bind]. rewrite copy_all. cbn [mbind option_bind].
    set (hdr := ip_hdr (20 + Z.of_nat (length data)) proto c (net_get_ip s) dst).
    assert (Hlen : Z.of_nat (length (hdr ++ data)) = 20 + Z.of_nat (length data)) by (rewrite length_app; cbn; lia).
    destruct (eth_send_spec (set_nheap h s) ({[p]} ∪ L) mac ETHERTYPE_IP (hdr ++ data)) as (fs & h2 & He & Hl2 & Hfs);
      [done|done|lia|]. rewrite Hlen in He. rewrite He. cbn [mbind option_bind].
    destruct (Hfree h2 Hl2) as (h3 & Hf & Hl3). cbn [nheap sent_more set_nheap]. rewrite Hf. cbn [mbind option_bind].
    exists (Z.of_nat (length data)), fs, h3, c. split_and!; auto.
    destruct Hfs as [->|(-> & n & Hn & Hk2)]; [by left|right]. split; [done|]. exists n, h. split; [lia|done].
Qed.

Lemma udp_send_spec s L dst srcp dstp data mac :
  card_ok s -> live (nheap s) L -> byte_list data -> 0 < Z.of_nat (length data) <= 65507 ->
  arp_cache_lookup (next_hop dst s) s = Some mac ->
  exists r fs h uc ic, udp_send e1000_present rtl8139_present wait dst srcp dstp data (Z.of_nat (length data)) s =
      Some (r, sent_more s fs h) /\ live h L /\
    (fs = [udp_frame mac (our_mac s) (our_ip s) dst srcp dstp uc ic data] /\ r = 8 + Z.of_nat (length data) \/
     fs = [] /\ exists n h, n <= Z.of_nat (length data) + 42 /\ kmalloc n h = Some (0, h)).
Proof.
  intros Hc Hl Hbd Hd Ha. unfold udp_send. unfold sizeof_udp_hdr at 1. rewrite u64_small by (unfold sizeof_udp_hdr; lia).
  change sizeof_udp_hdr with 8.
  destruct (alloc_free (8 + Z.of_nat (length data)) (nheap s) L Hl) as [Hk|(p & h & Hk & Hp & Hl' & Hfree)]; [lia|lia| |];
    rewrite Hk; cbn [mbind option_bind].
  - exists (-1), [], (nheap s), 0, 0. split_and!; auto.
    + cbn. unfold sent_more. rewrite app_nil_r. by destruct s.
    + right. split; [done|]. eexists _, (nheap s). split; [|exact Hk]. lia.
  - rewrite (proj2 (Z.eqb_neq p 0)), (proj2 (Z.ltb_lt 0 _)) by (done || lia). rewrite copy_all. cbn [mbind option_bind].
    set (ulen := 8 + Z.of_nat (length data)).
    assert (Hlen : forall c, Z.of_nat (length (udp_pkt srcp dstp ulen c data)) = ulen)
      by (intros c; unfold udp_pkt; rewrite !length_app; cbn; lia).
    assert (exists uc, udp_checksum (net_get_ip (set_nheap h s)) dst IP_PROTO_UDP (udp_pkt srcp dstp ulen 0 data) ulen = Some uc)
      as (uc & Huc).
    { unfold udp_checksum. set (s0 := u32 _). assert (Hs0 : exists x, sum_bytes (udp_pkt srcp dstp ulen 0 data) ulen s0 = Some x); [|destruct Hs0 as [x ->]; eauto].
      destruct (sum_bytes_total (udp_pkt srcp dstp ulen 0 data) s0) as [x Hx]. rewrite Hlen in Hx. by exists x. }
    rewrite Huc. cbn [mbind option_bind].
    destruct (ip_send_spec (set_nheap h s) ({[p]} ∪ L) dst IP_PROTO_UDP (udp_pkt srcp dstp ulen uc data) mac)
      as (r & fs & h2 & ic & He & Hl2 & Hfs); [done|done|rewrite Hlen; unfold ulen; lia|done| |].
    { unfold ip_hdr. repeat (apply Forall_app; split); try apply le16_bytes; try apply le32_bytes; repeat constructor; unfold IP_PROTO_UDP; lia. }
    rewrite Hlen in He, Hfs. rewrite He. cbn [mbind option_bind].
    destruct (Hfree h2 Hl2) as (h3 & Hf & Hl3). cbn [nheap sent_more set_nheap]. rewrite Hf. cbn [mbind option_bind].
    exists r, fs, h3, uc, ic. split_and!; auto.
    destruct Hfs as [[-> ->]|(-> & n & h4 & Hn & Hk2)]; [by left|right]. split; [done|]. exists n, h4. split; [unfold ulen in Hn; lia|done].
Qed.

Lemma first_sock_spec f : forall l i j k, first_sock f i l = Some (j, k) ->
  (i <= j)%nat /\ l !! (j - i)%nat = Some k /\ f k = true.
Proof.
  induction l as [|x l IH]; intros i j k; cbn [first_sock]; [done|]. destruct (f x) eqn:Ex.
  - intros [= <- <-]. rewrite Nat.sub_diag. split_and!; [lia|done|done].
  - intros H. apply IH in H as (H1 & H2 & H3). split_and!; [lia| |done].
    by replace (j - i)%nat with (S (j - S i)) by lia.
Qed.

Lemma first_sock_insert f l : forall i j k,
  (i < length l)%nat -> Forall (fun x => f x = false) l -> f k = true ->
  first_sock f j (<[i := k]> l) = Some ((j + i)%nat, k).
Proof.
  induction l as [|x l IH]; intros i j k Hi Hf Hk; [cbn in Hi; lia|].
  apply Forall_cons in Hf as [Hx Hf]. destruct i as [|i]; cbn [insert list_insert first_sock].
  - rewrite Hk. by rewrite Nat.add_0_r.
  - rewrite Hx, IH by (done || (cbn in Hi; lia)). do 2 f_equal. lia.
Qed.

Definition deliver (k : udp_socket) (data : list Z) : udp_socket :=
  UdpSocket (u_used k) (u_port k) (u_buf k) data (u_cap k).

Lemma udp_handle_spec s srcp dstp csum data src dst i k :
  0 <= dstp < 65536 -> Z.of_nat (length data) <= 65507 ->
  first_sock (fun k => u_used k && (u_port k =? dstp)) 0 (socks s) = Some (i, k) ->
  Z.of_nat (length data) <= u_cap k -> u_buf k <> 0 ->
  let ulen := sizeof_udp_hdr + Z.of_nat (length data) in
  udp_handle_packet (udp_pkt srcp dstp ulen csum data) ulen src dst s = Some (put_sock i (deliver k data) s).
Proof.
  intros Hp Hlen Hf Hcap Hbuf ulen. assert (Hu : ulen = 8 + Z.of_nat (length data)) by done.
  unfold udp_handle_packet. rewrite u64_small by lia. change sizeof_udp_hdr with 8. rewrite (proj2 (Z.ltb_ge _ _)) by lia.
  change (get16 (udp_pkt srcp dstp ulen csum data) 2) with (get16 (le16 (htons dstp) ++ (le16 (htons (u16 ulen)) ++ le16 csum ++ data)) 0).
  change (get16 (udp_pkt srcp dstp ulen csum data) 4) with (get16 (le16 (htons (u16 ulen)) ++ (le16 csum ++ data)) 0).
  destruct (ntohs_htons dstp Hp) as [Hd1 Hd2]. rewrite (u16_small ulen) by lia.
  destruct (ntohs_htons ulen ltac:(lia)) as [Hl1 Hl2]. rewrite !get16_le16 by done. cbn [mbind option_bind].
  rewrite Hl1, Hd1, Hf. rewrite (proj2 (Z.ltb_ge (ulen - 8) 0)), Z.ltb_irrefl, (proj2 (Z.ltb_ge (u_cap k) _)) by lia.
  cbn [orb mbind option_bind].
  rewrite (proj2 (Z.eqb_neq (u_buf k) 0)) by done. cbn [andb].
  change (drop 8 (udp_pkt srcp dstp ulen csum data)) with data. replace (ulen - 8) with (Z.of_nat (length data)) by lia.
  by rewrite copy_all.
Qed.

Lemma ip_handle_udp s src dst csum data :
  0 <= src < 2 ^ 32 -> 0 <= dst < 2 ^ 32 -> dst = our_ip s -> 8 <= Z.of_nat (length data) <= 65515 ->
  let total := sizeof_ip_hdr + Z.of_nat (length data) in
  ip_handle_packet e1000_present rtl8139_present wait tcp_handle_packet (ip_hdr total IP_PROTO_UDP csum src dst ++ data) total s =
    udp_handle_packet data (Z.of_nat (length data)) src dst s.
Proof.
  intros Hs Hd Hip Hlen total. assert (Ht : total = 20 + Z.of_nat (length data)) by done.
  unfold ip_handle_packet. rewrite u64_small by lia. change sizeof_ip_hdr with 20. rewrite (proj2 (Z.ltb_ge _ _)) by lia.
  set (pkt := ip_hdr total IP_PROTO_UDP csum src dst ++ data).
  change (get8 pkt 0) with (Some 0x45). change (get8 pkt 9) with (Some IP_PROTO_UDP). cbn [mbind option_bind].
  change (negb (Z.shiftr 0x45 4 =? 4)) with false. change (Z.land 0x45 0x0F * 4) with 20.
  change (20 <? 20) with false. rewrite (proj2 (Z.ltb_ge total 20)) by lia. cbn [orb].
  change (get16 pkt 2) with (get16 (le16 (htons (u16 total)) ++ drop 4 pkt) 0).
  change (get32 pkt 12) with (get32 (le32 src ++ (le32 dst ++ data)) 0).
  change (get32 pkt 16) with (get32 (le32 dst ++ data) 0).
  rewrite (u16_small total) by lia. destruct (ntohs_htons total ltac:(lia)) as [Hl1 Hl2].
  rewrite get16_le16, !get32_le32 by done. cbn [mbind option_bind]. rewrite Hl1, Z.ltb_irrefl.
  change (net_get_ip s) with (our_ip s). rewrite <- Hip, Z.eqb_refl. cbn [negb andb].
  change (IP_PROTO_UDP =? IP_PROTO_TCP) with false. change (IP_PROTO_UDP =? IP_PROTO_UDP) with true. cbv iota.
  change (drop (Z.to_nat 20) pkt) with data. by replace (total - 20) with (Z.of_nat (length data)) by lia.
Qed.

Lemma length_six (l : list Z) : length l = 6%nat -> exists a b c d e f, l = [a; b; c; d; e; f].
Proof. intros H. do 7 (destruct l as [|? l]; try discriminate H). eauto 10. Qed.

Lemma net_receive_udp s dst_mac src_mac src dst srcp dstp uc ic data i k :
  length dst_mac = 6%nat -> length src_mac = 6%nat -> 0 <= src < 2 ^ 32 -> 0 <= dst < 2 ^ 32 -> dst = our_ip s ->
  0 <= dstp < 65536 -> Z.of_nat (length data) <= 65507 ->
  first_sock (fun k => u_used k && (u_port k =? dstp)) 0 (socks s) = Some (i, k) ->
  Z.of_nat (length data) <= u_cap k -> u_buf k <> 0 ->
  let frame := udp_frame dst_mac src_mac src dst srcp dstp uc ic data in
  net_handle_packet e1000_present rtl8139_present wait tcp_handle_packet frame (Z.of_nat (length frame)) s =
    Some (put_sock i (deliver k data) s).
Proof.
  intros Hm1 Hm2 Hs Hd Hip Hp Hlen Hf Hcap Hbuf frame.
  destruct (length_six _ Hm1) as (?&?&?&?&?&?&->). destruct (length_six _ Hm2) as (?&?&?&?&?&?&->).
  set (u := udp_pkt srcp dstp (sizeof_udp_hdr + Z.of_nat (length data)) uc data).
  assert (Hu : Z.of_nat (length u) = sizeof_udp_hdr + Z.of_nat (length data)) by (unfold u, udp_pkt; change sizeof_udp_hdr with 8; rewrite !length_app; cbn [le16 length]; lia).
  set (pkt := ip_hdr (sizeof_ip_hdr + (sizeof_udp_hdr + Z.of_nat (length data))) IP_PROTO_UDP ic src dst ++ u).
  assert (Hfl : Z.of_nat (length frame) = 14 + (sizeof_ip_hdr + Z.of_nat (length u))).
  { change (length frame) with (14 + length pkt)%nat. unfold pkt. rewrite length_app. change sizeof_ip_hdr with 20. change (length (ip_hdr _ _ _ _ _)) with 20%nat. lia. }
  unfold net_handle_packet. rewrite Hfl, Hu. unfold sizeof_ip_hdr, sizeof_udp_hdr. rewrite u64_small by lia.
  change sizeof_eth_hdr with 14. rewrite (proj2 (Z.ltb_ge _ _)) by lia.
  change (get16 frame 12) with (get16 (le16 (htons ETHERTYPE_IP) ++ pkt) 0). destruct (ntohs_htons ETHERTYPE_IP) as [He1 He2]; [done|].
  rewrite get16_le16 by done. cbn [mbind option_bind]. rewrite He1. change (ETHERTYPE_IP =? ETHERTYPE_ARP) with false.
  change (ETHERTYPE_IP =? ETHERTYPE_IP) with true. cbv iota. change (drop 14 frame) with pkt.
  replace (14 + (20 + (8 + Z.of_nat (length data))) - 14) with (sizeof_ip_hdr + Z.of_nat (length u)) by (unfold sizeof_ip_hdr, sizeof_udp_hdr in *; lia).
  unfold pkt. rewrite <- Hu. rewrite ip_handle_udp; auto; [|unfold sizeof_udp_hdr in *; lia].
  rewrite Hu. by apply udp_handle_spec.
Qed.

(** The socket that got the datagram is the one [udp_recv] reads. *)
Lemma udp_recv_delivered s i k data len :
  u_used k = true ->
  (i < length (socks s))%nat -> Forall (fun k => u_used k = true -> u_data k = []) (socks s) ->
  0 < Z.of_nat (length data) <= len ->
  udp_recv len (put_sock i (deliver k data) s) =
    (Z.of_nat (length data), data, put_sock i (deliver k []) s).
Proof.
  intros Hu Hi Hall Hlen. unfold udp_recv, put_sock. cbn [socks set_socks].
  rewrite first_sock_insert; [|done| |].
  - cbn [Nat.add u_data deliver u_used u_port u_buf u_cap]. rewrite Z.min_l by lia. rewrite Nat2Z.id, take_ge by lia.
    unfold set_socks. cbn. by rewrite list_insert_insert_eq.
  - eapply Forall_impl; [exact Hall|]. intros x Hx. cbn in Hx. destruct (u_used x); [|done]. by rewrite Hx.
  - cbn [deliver u_used u_data]. rewrite Hu. cbn [andb]. apply Z.ltb_lt. lia.
Qed.

End Delivery.

(** * Every frame is handled *)

Section Total.
Variables e1000_present rtl8139_present : bool.
Variable wait : net -> net.
Variable tcp_handle_packet : list Z -> Z -> Z -> Z -> net -> option net.
Context {live : heap -> gset Z -> Prop} `{!Allocator live}.

(** The heap is well formed. *)
Definition heap_good (s : net) : Prop := exists L, live (nheap s) L.

Hypothesis wait_good : forall s, heap_good s -> heap_good (wait s).
Hypothesis tcp_total : forall data len src dst s, is_Some (tcp_handle_packet data len src dst s).

Lemma sum_words_total n : forall l sum, (2 * n <= length l)%nat -> is_Some (sum_words n l sum).
Proof.
  induction n as [|n IH]; intros l sum H; [by eexists|]. destruct l as [|a [|b l]]; cbn in H; try lia.
  cbn [sum_words]. apply IH. lia.
Qed.

Lemma icmp_checksum_total l len : 0 <= len <= Z.of_nat (length l) -> is_Some (icmp_checksum l len).
Proof.
  intros H. unfold icmp_checksum, sum_bytes. rewrite Z.quot_div_nonneg by lia.
  destruct (sum_words_total (Z.to_nat (len / 2)) l 0) as [w ->]; [dlia|]. cbn [mbind option_bind].
  destruct (nz (Z.land len 1)) eqn:En; [|by eexists].
  assert (len <> 0) by (intros ->; discriminate En).
  destruct (get8_total l (len - 1)) as [b ->]; [lia|]. by eexists.
Qed.

Lemma eth_send_total dst type data len s L :
  live (nheap s) L -> 0 <= len <= Z.of_nat (length data) -> len < 2 ^ 32 ->
  exists s', net_eth_send e1000_present rtl8139_present dst type data len s = Some s' /\ live (nheap s') L /\
    our_ip s' = our_ip s /\ our_mac s' = our_mac s /\ socks s' = socks s.
Proof.
  intros Hl Hd Hm. unfold net_eth_send. destruct (network_ready s); [|by exists s]. cbn [negb].
  unfold sizeof_eth_hdr. rewrite u64_small by lia.
  destruct (alloc_free (len + 14) (nheap s) L Hl) as [Hk|(p & h & Hk & Hp & Hl' & Hfree)]; [lia|lia| |];
    rewrite Hk; cbn [mbind option_bind].
  - eexists. split; [reflexivity|]. done.
  - rewrite (proj2 (Z.eqb_neq p 0)) by done. rewrite (copy_total _ _ Hd). cbn [mbind option_bind].
    destruct (Hfree h Hl') as (h3 & Hf & Hl3). unfold transmit. destruct (_ || _); cbn [nheap set_nheap set_sent];
      rewrite Hf; cbn [mbind option_bind]; eexists; (split; [reflexivity|done]).
Qed.

Lemma arp_pkt_length op sha spa tha tpa :
  length sha = 6%nat -> length tha = 6%nat -> Z.of_nat (length (arp_pkt op sha spa tha tpa)) = sizeof_arp_pkt.
Proof. intros H1 H2. unfold arp_pkt. rewrite !length_app, H1, H2. done. Qed.

Lemma arp_resolve_total n : forall target mac ip s, heap_good s -> length mac = 6%nat ->
  exists r s', arp_resolve e1000_present rtl8139_present wait n target mac ip s = Some (r, s') /\ heap_good s'.
Proof.
  induction n as [|n IH]; intros target mac ip s Hg Hm; cbn [arp_resolve]; [eauto|].
  destruct (arp_cache_lookup target s); [eauto|]. unfold arp_send_request.
  destruct Hg as [L Hl].
  destruct (eth_send_total broadcast ETHERTYPE_ARP (arp_pkt ARP_OP_REQUEST mac ip (replicate 6 0) target) sizeof_arp_pkt s L)
    as (s1 & -> & Hg1 & _); [done|by rewrite arp_pkt_length|done|].
  cbn [mbind option_bind]. apply IH; [|done]. apply wait_good. by exists L.
Qed.

Lemma ip_send_total dst proto data len s :
  heap_good s -> length (our_mac s) = 6%nat -> 0 <= len <= Z.of_nat (length data) -> len < 2 ^ 31 ->
  is_Some (ip_send_packet e1000_present rtl8139_present wait dst proto data len s).
Proof.
  intros Hg Hm Hd Hlen. unfold ip_send_packet.
  destruct (arp_resolve_total 3 (next_hop dst s) (net_get_mac s) (net_get_ip s) s Hg Hm) as (r & s1 & -> & [L Hl]).
  cbn [mbind option_bind]. destruct r as [mac|]; [|by eexists]. unfold sizeof_ip_hdr. rewrite u64_small by lia.
  destruct (alloc_free (20 + len) (nheap s1) L Hl) as [Hk|(p & h & Hk & Hp & Hl' & Hfree)]; [lia|lia| |];
    rewrite Hk; cbn [mbind option_bind]; [by eexists|].
  rewrite (proj2 (Z.eqb_neq p 0)) by done. unfold ip_checksum.
  destruct (sum_bytes_total (ip_hdr (20 + len) proto 0 (net_get_ip s) dst) 0) as [x Hx].
  change (Z.of_nat (length (ip_hdr _ _ _ _ _))) with 20 in Hx. rewrite Hx. cbn [mbind option_bind].
  rewrite (copy_total _ _ Hd). cbn [mbind option_bind].
  set (pkt := ip_hdr _ _ _ _ _ ++ _).
  assert (Hpl : Z.of_nat (length pkt) = 20 + len) by (unfold pkt; rewrite length_app, length_take; cbn; lia).
  destruct (eth_send_total mac ETHERTYPE_IP pkt (20 + len) (set_nheap h s1) ({[p]} ∪ L)) as (s2 & He & Hl2 & _);
    [done|lia|lia|].
  rewrite He. cbn [mbind option_bind]. destruct (Hfree _ Hl2) as (h3 & -> & _). by eexists.
Qed.

Lemma icmp_handle_total pkt len src dst s :
  heap_good s -> length (our_mac s) = 6%nat -> 0 <= len <= Z.of_nat (length pkt) -> len < 2 ^ 31 ->
  is_Some (icmp_handle_packet e1000_present rtl8139_present wait pkt len src dst s).
Proof.
  intros Hg Hm Hl Hmax. unfold icmp_handle_packet. rewrite u64_small by lia. unfold sizeof_icmp_hdr.
  destruct (Z.ltb_spec len 8); [by eexists|].
  destruct (get8_total pkt 0) as [t ->]; [lia|]. destruct (get16_total pkt 4) as [id ->]; [lia|lia|]. cbn [mbind option_bind].
  destruct (t =? ICMP_ECHO_REQUEST); [|destruct (t =? ICMP_ECHO_REPLY); by eexists].
  assert (Hs : length (store 2 [0; 0] (store 0 [ICMP_ECHO_REPLY] pkt)) = length pkt)
    by (rewrite store_length, store_length; rewrite ?store_length; cbn; lia).
  destruct (icmp_checksum_total (store 2 [0; 0] (store 0 [ICMP_ECHO_REPLY] pkt)) len) as [c Hc]; [lia|].
  rewrite Hc. cbn [mbind option_bind].
  destruct (ip_send_total src IP_PROTO_ICMP (store 2 (le16 c) (store 2 [0; 0] (store 0 [ICMP_ECHO_REPLY] pkt))) len s)
    as [[r s'] Hr]; [done|done|rewrite store_length; cbn; lia|done|].
  rewrite Hr. by eexists.
Qed.

(** The buffers of the sockets in use are allocated. *)
Definition socks_good (L : gset Z) (s : net) : Prop :=
  Forall (fun k => u_used k = true -> u_buf k <> 0 /\ u_buf k ∈ L) (socks s).

Lemma udp_handle_total pkt len src dst s L :
  live (nheap s) L -> socks_good L s -> 0 <= len <= Z.of_nat (length pkt) -> len < 2 ^ 31 ->
  is_Some (udp_handle_packet pkt len src dst s).
Proof.
  intros Hl Hk Hlen Hmax. unfold udp_handle_packet. rewrite u64_small by lia. unfold sizeof_udp_hdr.
  destruct (Z.ltb_spec len 8); [by eexists|].
  destruct (get16_total pkt 2) as [d ->]; [lia|lia|]. destruct (get16_total pkt 4) as [u ->]; [lia|lia|]. cbn [mbind option_bind].
  destruct (Z.ltb_spec (ntohs u - 8) 0); [by eexists|]. destruct (Z.ltb_spec len (ntohs u)); [by eexists|]. cbn [orb].
  destruct (first_sock _ _ _) as [[i k]|] eqn:Ef; [|by eexists]. apply first_sock_spec in Ef as (_ & Hi & Hu).
  apply andb_true_iff in Hu as [Hu _]. apply list_elem_of_lookup_2 in Hi. unfold socks_good in Hk.
  rewrite Forall_forall in Hk. destruct (Hk k Hi Hu) as [Hb HbL].
  assert (Hcopy : is_Some (copy (drop 8 pkt) (ntohs u - 8))).
  { rewrite copy_total; [by eexists|]. rewrite length_drop. lia. }
  destruct Hcopy as [data Hcopy]. destruct (Z.ltb_spec (u_cap k) (ntohs u - 8)) as [Hc|Hc].
  - destruct (Z.eqb_spec (ntohs u - 8) 0) as [Hz|Hz].
    { rewrite Hz in *. unfold kmalloc at 1. cbn [Z.eqb orb]. rewrite orb_true_r. cbn [mbind option_bind].
      by eexists. }
    destruct (alloc_free (ntohs u - 8) (nheap s) L Hl) as [Hm|(p & h & Hm & Hp & Hl' & _)]; [lia|lia| |];
      rewrite Hm; cbn [mbind option_bind]; [by eexists|].
    rewrite (proj2 (Z.eqb_neq p 0)), (proj2 (Z.eqb_neq (u_buf k) 0)) by done.
    destruct (free_ok h ({[p]} ∪ L) (u_buf k) Hl') as (h2 & -> & _); [clear -HbL; set_solver|]. cbn [mbind option_bind u_buf].
    rewrite (proj2 (Z.eqb_neq p 0)) by done. cbn [andb]. rewrite Hcopy. by eexists.
  - cbn [mbind option_bind]. rewrite (proj2 (Z.eqb_neq (u_buf k) 0)) by done. cbn [andb]. rewrite Hcopy. by eexists.
Qed.

Lemma arp_handle_total pkt len s L :
  live (nheap s) L -> length (our_mac s) = 6%nat -> 0 <= len <= Z.of_nat (length pkt) -> len < 2 ^ 31 ->
  is_Some (arp_handle_packet e1000_present rtl8139_present pkt len s).
Proof.
  intros Hl Hm Hlen Hmax. unfold arp_handle_packet. rewrite u64_small by lia. unfold sizeof_arp_pkt at 1.
  destruct (Z.ltb_spec len 28); [by eexists|]. destruct (get16_total pkt 6) as [op ->]; [lia|lia|]. cbn [mbind option_bind].
  rewrite copy_total by (rewrite length_drop; lia). cbn [mbind option_bind]. set (sha := take _ (drop 8 pkt)).
  assert (Hsha : length sha = 6%nat) by (unfold sha; rewrite length_take, length_drop; lia).
  destruct (get32_total pkt 14) as [spa ->]; [lia|lia|]. destruct (get32_total pkt 24) as [tpa ->]; [lia|lia|].
  cbn [mbind option_bind]. destruct (_ && _); cbn [mbind option_bind]; [|by eexists].
  destruct (eth_send_total sha ETHERTYPE_ARP (arp_pkt ARP_OP_REPLY (net_get_mac s) (net_get_ip s) sha spa) sizeof_arp_pkt s L)
    as (s1 & -> & _); [done|by rewrite arp_pkt_length|done|]. by eexists.
Qed.

(** An IP packet whose total length does not cover its header. *)
Definition ip_short (pkt : list Z) : bool :=
  match get8 pkt 0, get16 pkt 2 with
  | Some v, Some tl => ntohs tl <? Z.land v 15 * 4
  | _, _ => false
  end.

Lemma ip_handle_total pkt s L :
  live (nheap s) L -> socks_good L s -> length (our_mac s) = 6%nat -> Z.of_nat (length pkt) < 65536 ->
  ip_short pkt = false ->
  is_Some (ip_handle_packet e1000_present rtl8139_present wait tcp_handle_packet pkt (Z.of_nat (length pkt)) s).
Proof.
  intros Hl Hk Hm Hlen Hsh. unfold ip_handle_packet, ip_short in *. rewrite u64_small by lia. unfold sizeof_ip_hdr.
  destruct (Z.ltb_spec (Z.of_nat (length pkt)) 20); [by eexists|].
  destruct (get8_total pkt 0) as [v Hv]; [lia|]. rewrite Hv in *. destruct (get16_total pkt 2) as [tl Htl]; [lia|lia|]. rewrite Htl in *.
  cbn [mbind option_bind]. destruct (negb _); [by eexists|]. set (hlen := Z.land v 15 * 4) in *. apply Z.ltb_ge in Hsh.
  destruct (Z.ltb_spec hlen 20); [by eexists|]. destruct (Z.ltb_spec (Z.of_nat (length pkt)) hlen); [by eexists|]. cbn [orb].
  destruct (get32_total pkt 12) as [src ->]; [lia|lia|]. destruct (get32_total pkt 16) as [dst ->]; [lia|lia|].
  cbn [mbind option_bind]. destruct (_ && _); [by eexists|]. destruct (get8_total pkt 9) as [proto ->]; [lia|].
  cbn [mbind option_bind]. set (total := if _ <? _ then _ else _).
  assert (Hdl : 0 <= total - hlen <= Z.of_nat (length (drop (Z.to_nat hlen) pkt)) /\ total - hlen < 2 ^ 31).
  { rewrite length_drop. unfold total. destruct (Z.ltb_spec (Z.of_nat (length pkt)) (ntohs tl)); rewrite ?u16_small by lia; lia. }
  destruct Hdl as [Hd1 Hd2]. destruct (proto =? IP_PROTO_TCP); [apply tcp_total|].
  destruct (proto =? IP_PROTO_UDP); [by eapply udp_handle_total|].
  destruct (proto =? IP_PROTO_ICMP); [|by eexists]. apply icmp_handle_total; auto. by exists L.
Qed.

End Total.

(** * Properties *)

(** The checksum of IP and ICMP headers can be verified by adding everything up: when
    the checksum of a packet is computed with a zero in its checksum field (at an even
    position) and stored there, the checksum of the packet is 0, for every packet an IP
    datagram can hold and with the odd last byte included. *)
Theorem ip_checksum_verifies l1 l2 :
  byte_list l1 -> byte_list l2 -> (exists k, length l1 = 2 * k)%nat -> Z.of_nat (length l1 + 2 + length l2) <= 65535 ->
  exists c, 0 <= c < 65536 /\
    let len := Z.of_nat (length l1 + 2 + length l2) in
    ip_checksum (l1 ++ le16 0 ++ l2) len = Some c /\ ip_checksum (l1 ++ le16 c ++ l2) len = Some 0 /\
    icmp_checksum (l1 ++ le16 0 ++ l2) len = Some c /\ icmp_checksum (l1 ++ le16 c ++ l2) len = Some 0.
Proof.
  intros H1 H2 He Hl. destruct (checksum_field l1 l2 H1 H2 He Hl) as (c & Hc & H0 & Hz). exists c. done.
Qed.

(** The ARP cache is a queue of at most 16 entries: adding one appends it and drops
    the oldest when the cache is full, and a lookup returns the oldest entry of the
    address.  A new address is found afterwards; an address that is already there keeps
    its old hardware address, since entries are never updated. *)
Theorem arp_cache_spec s v ip mac :
  arp_holds s v ->
  arp_holds (arp_cache_add ip mac s) (drop (S (length v) - ARP_CACHE_SIZE) (v ++ [(ip, mac)])) /\
  (forall a, arp_cache_lookup a s = oldest a v) /\
  (oldest ip v = None -> arp_cache_lookup ip (arp_cache_add ip mac s) = Some mac) /\
  (forall old, oldest ip v = Some old -> (length v < ARP_CACHE_SIZE)%nat ->
     arp_cache_lookup ip (arp_cache_add ip mac s) = Some old).
Proof.
  intros H. pose proof (arp_add_spec s v ip mac H) as Ha. split_and!; [done|intros a; by apply arp_lookup_spec|..].
  - intros Hn. rewrite (arp_lookup_spec _ _ _ Ha), drop_app_le by (apply arp_holds_length in H; unfold ARP_CACHE_SIZE in *; lia).
    rewrite oldest_app, oldest_drop by done. cbn. by rewrite Z.eqb_refl.
  - intros old Ho Hlt. rewrite (arp_lookup_spec _ _ _ Ha).
    replace (S (length v) - ARP_CACHE_SIZE)%nat with 0%nat by lia. by rewrite drop_0, oldest_app, Ho.
Qed.

Section NetClaims.
Variables e1000_present rtl8139_present : bool.
Variable wait : net -> net.
Variable tcp_handle_packet : list Z -> Z -> Z -> Z -> net -> option net.
Context {live : heap -> gset Z -> Prop} `{!Allocator live}.


Hypothesis wait_good : forall s, heap_good (live := live) s -> heap_good (live := live) (wait s).
Hypothesis tcp_total : forall data len src dst s, is_Some (tcp_handle_packet data len src dst s).


End NetClaims.

(** ** Witnesses *)

Definition demo_mac : list Z := [0x52; 0x54; 0; 0x12; 0x34; 0x56].
Definition no_tcp (data : list Z) (len src dst : Z) (s : net) : option net := Some s.

(** A machine with address [ip] that knows the hardware address of [peer] and has a
    socket on port 53. *)
Definition machine (ip peer : Z) : net :=
  Net demo_mac ip 0xFFFFFF00 0 0 true 1
    (ArpEntry peer demo_mac true :: replicate 15 (ArpEntry 0 [] false))
    (UdpSocket true 53 4120 [] 8192 :: replicate 15 (UdpSocket false 0 0 [] 0))
    0 0 false 0 0 false net_config_default demo_heap [].

Lemma demo_heap_live : heap_live demo_heap ∅.
Proof. exists [(4096, 4072)], [], 4096. split; [apply demo_inv|done]. Qed.

Lemma ip_checksum_verifies_witness :
  exists c, ip_checksum ([0x45; 0] ++ le16 0 ++ [1; 2; 3]) 7 = Some c /\ ip_checksum ([0x45; 0] ++ le16 c ++ [1; 2; 3]) 7 = Some 0.
Proof.
  destruct (ip_checksum_verifies [0x45; 0] [1; 2; 3]) as (c & _ & H0 & Hz & _);
    [repeat constructor; lia|repeat constructor; lia|by exists 1%nat|cbn; lia|].
  exists c. split; [exact H0|exact Hz].
Defined.

Lemma arp_cache_spec_witness :
  arp_cache_lookup 7 (arp_cache_add 7 broadcast (machine 1 2)) = Some broadcast /\
  arp_cache_lookup 2 (arp_cache_add 2 broadcast (machine 1 2)) = Some demo_mac.
Proof.
  assert (H : arp_holds (machine 1 2) [(2, demo_mac)]).
  { exists [ArpEntry 2 demo_mac true], (replicate 15 (ArpEntry 0 [] false)). split_and!; try reflexivity.
    - by constructor.
    - by apply Forall_replicate. }
  destruct (arp_cache_spec (machine 1 2) _ 7 broadcast H) as (_ & _ & H1 & _).
  destruct (arp_cache_spec (machine 1 2) _ 2 broadcast H) as (_ & _ & _ & H2). split.
  - apply H1. reflexivity.
  - apply H2; [reflexivity|]. cbn. unfold ARP_CACHE_SIZE. lia.
Defined.


(** An ARP request for the machine's own address. *)
Definition arp_frame : list Z :=
  broadcast ++ demo_mac ++ le16 (htons ETHERTYPE_ARP) ++ arp_pkt ARP_OP_REQUEST demo_mac 2 (replicate 6 0) 1.


(** An echo request whose total length (18) is less than its header: the length of the
    data becomes negative, passes the check against the size of the header, and the reply
    is copied with that length. *)
Definition short_echo (src dst : Z) : list Z :=
  demo_mac ++ demo_mac ++ le16 (htons ETHERTYPE_IP) ++ ip_hdr 18 IP_PROTO_ICMP 0 src dst
    ++ icmp_pkt ICMP_ECHO_REQUEST 0 1 1 ping_data.

Example short_total_length_faults :
  let f := short_echo 2 1 in
  ip_short (drop 14 f) = true /\
  net_handle_packet true true id no_tcp f (Z.of_nat (length f)) (machine 1 2) = None.
Proof. split; vm_compute; reflexivity. Qed.

(** 10.0.2.15 and 10.0.2.2 as the kernel stores them; a real ARP request carries the
    bytes 10, 0, 2, 15 in this order, and is not answered. *)
Example arp_request_not_answered :
  let me := machine 0x0A00020F 0x0A000202 in
  let request := arp_pkt ARP_OP_REQUEST demo_mac (ntohl 0x0A000202) (replicate 6 0) (ntohl 0x0A00020F) in
  take 4 (drop 24 request) = [10; 0; 2; 15] /\
  option_map sent (arp_handle_packet true true request 28 me) = Some [].
Proof. split; vm_compute; reflexivity. Qed.

(** The limited broadcast address is looked up like any other, so the DHCP discover of a
    machine that has just started is never sent: three ARP requests are, and then -1. *)
Example dhcp_discover_not_sent :
  let me := set_arp_cache (replicate 16 (ArpEntry 0 [] false)) (machine 0x0A00020F 0) in
  option_map (fun x => (x.1, map (fun f => take 2 (drop 12 f)) (sent x.2))) (dhcp_send_discover true true id demo_mac dhcp_xid me)
  = Some (-1, replicate 3 [8; 6]).
Proof. vm_compute. reflexivity. Qed.
