(* ===== verification/Tcp.v ===== *)
(** * TCP: net/tcp.c, net/tcp.h

    The table of 32 sockets on top of the IP layer of Net.v.  A socket is its index in
    the table.  [tcp_send_packet] also builds an IP header in front of the segment; only
    the segment is given to [ip_send_packet], so that header is not part of the model.

    The calls that wait do so in [sched_sleep]: [sleep] is what happens meanwhile
    (packets handled, timer ticks).  The sequence number of a new connection is the
    address of its socket, [sock_addr]. *)

From S2P Require Import Prelude Bytes KMalloc CString Net.

(** ** Data (tcp.h) *)

Definition TCP_MSS : Z := 1460.
Definition TCP_WINDOW : Z := 65535.
Definition TCP_RETRIES : Z := 5.
Definition TCP_RETRANSMIT_MS : Z := 500.
Definition MAX_SOCKETS : nat := 32.

Inductive tcp_state :=
  | TCP_CLOSED | TCP_LISTEN | TCP_SYN_SENT | TCP_SYN_RCVD | TCP_ESTABLISHED | TCP_FIN_WAIT_1
  | TCP_FIN_WAIT_2 | TCP_CLOSE_WAIT | TCP_CLOSING | TCP_LAST_ACK | TCP_TIME_WAIT.

#[export] Instance tcp_state_eq_dec : EqDecision tcp_state.
Proof. solve_decision. Defined.

Definition in_state (a b : tcp_state) : bool := bool_decide (a = b).

Definition TCP_FLAG_FIN : Z := 0x01.
Definition TCP_FLAG_SYN : Z := 0x02.
Definition TCP_FLAG_RST : Z := 0x04.
Definition TCP_FLAG_PSH : Z := 0x08.
Definition TCP_FLAG_ACK : Z := 0x10.

(** [flags & f] as a condition. *)
Definition has (flags f : Z) : bool := nz (Z.land flags f).

Definition sizeof_tcp_hdr : Z := 20.

(** [rcv_bytes] is the memory at [rcv_buf].  [snd_wnd], [next] and the indices of the
    send buffer are never used by the code. *)
Record tcp_socket_t := TcpSocket {
  t_used : bool;
  t_fd : Z;
  local_ip : Z;
  local_port : Z;
  remote_ip : Z;
  remote_port : Z;
  snd_nxt : Z;
  snd_una : Z;
  rcv_nxt : Z;
  rcv_wnd : Z;
  state : tcp_state;
  timestamp : Z;
  retries : Z;
  rcv_buf : Z;
  rcv_bytes : list Z;
  rcv_buf_size : Z;
  rcv_buf_head : Z;
  rcv_buf_tail : Z;
  rcv_buf_count : Z;
  snd_buf : Z;
  snd_buf_size : Z }.

Definition set_t_used (v : bool) (r : tcp_socket_t) : tcp_socket_t :=
    TcpSocket v (t_fd r) (local_ip r) (local_port r) (remote_ip r) (remote_port r) (snd_nxt r)
    (snd_una r) (rcv_nxt r) (rcv_wnd r) (state r) (timestamp r) (retries r) (rcv_buf r)
    (rcv_bytes r) (rcv_buf_size r) (rcv_buf_head r) (rcv_buf_tail r) (rcv_buf_count r) (snd_buf
    r) (snd_buf_size r).
Definition set_t_fd (v : Z) (r : tcp_socket_t) : tcp_socket_t :=
    TcpSocket (t_used r) v (local_ip r) (local_port r) (remote_ip r) (remote_port r) (snd_nxt r)
    (snd_una r) (rcv_nxt r) (rcv_wnd r) (state r) (timestamp r) (retries r) (rcv_buf r)
    (rcv_bytes r) (rcv_buf_size r) (rcv_buf_head r) (rcv_buf_tail r) (rcv_buf_count r) (snd_buf
    r) (snd_buf_size r).
Definition set_local_ip (v : Z) (r : tcp_socket_t) : tcp_socket_t :=
    TcpSocket (t_used r) (t_fd r) v (local_port r) (remote_ip r) (remote_port r) (snd_nxt r)
    (snd_una r) (rcv_nxt r) (rcv_wnd r) (state r) (timestamp r) (retries r) (rcv_buf r)
    (rcv_bytes r) (rcv_buf_size r) (rcv_buf_head r) (rcv_buf_tail r) (rcv_buf_count r) (snd_buf
    r) (snd_buf_size r).
Definition set_local_port (v : Z) (r : tcp_socket_t) : tcp_socket_t :=
    TcpSocket (t_used r) (t_fd r) (local_ip r) v (remote_ip r) (remote_port r) (snd_nxt r)
    (snd_una r) (rcv_nxt r) (rcv_wnd r) (state r) (timestamp r) (retries r) (rcv_buf r)
    (rcv_bytes r) (rcv_buf_size r) (rcv_buf_head r) (rcv_buf_tail r) (rcv_buf_count r) (snd_buf
    r) (snd_buf_size r).
Definition set_remote_ip (v : Z) (r : tcp_socket_t) : tcp_socket_t :=
    TcpSocket (t_used r) (t_fd r) (local_ip r) (local_port r) v (remote_port r) (snd_nxt r)
    (snd_una r) (rcv_nxt r) (rcv_wnd r) (state r) (timestamp r) (retries r) (rcv_buf r)
    (rcv_bytes r) (rcv_buf_size r) (rcv_buf_head r) (rcv_buf_tail r) (rcv_buf_count r) (snd_buf
    r) (snd_buf_size r).
Definition set_remote_port (v : Z) (r : tcp_socket_t) : tcp_socket_t :=
    TcpSocket (t_used r) (t_fd r) (local_ip r) (local_port r) (remote_ip r) v (snd_nxt r)
    (snd_una r) (rcv_nxt r) (rcv_wnd r) (state r) (timestamp r) (retries r) (rcv_buf r)
    (rcv_bytes r) (rcv_buf_size r) (rcv_buf_head r) (rcv_buf_tail r) (rcv_buf_count r) (snd_buf
    r) (snd_buf_size r).
Definition set_snd_nxt (v : Z) (r : tcp_socket_t) : tcp_socket_t :=
    TcpSocket (t_used r) (t_fd r) (local_ip r) (local_port r) (remote_ip r) (remote_port r) v
    (snd_una r) (rcv_nxt r) (rcv_wnd r) (state r) (timestamp r) (retries r) (rcv_buf r)
    (rcv_bytes r) (rcv_buf_size r) (rcv_buf_head r) (rcv_buf_tail r) (rcv_buf_count r) (snd_buf
    r) (snd_buf_size r).
Definition set_snd_una (v : Z) (r : tcp_socket_t) : tcp_socket_t :=
    TcpSocket (t_used r) (t_fd r) (local_ip r) (local_port r) (remote_ip r) (remote_port r)
    (snd_nxt r) v (rcv_nxt r) (rcv_wnd r) (state r) (timestamp r) (retries r) (rcv_buf r)
    (rcv_bytes r) (rcv_buf_size r) (rcv_buf_head r) (rcv_buf_tail r) (rcv_buf_count r) (snd_buf
    r) (snd_buf_size r).
Definition set_rcv_nxt (v : Z) (r : tcp_socket_t) : tcp_socket_t :=
    TcpSocket (t_used r) (t_fd r) (local_ip r) (local_port r) (remote_ip r) (remote_port r)
    (snd_nxt r) (snd_una r) v (rcv_wnd r) (state r) (timestamp r) (retries r) (rcv_buf r)
    (rcv_bytes r) (rcv_buf_size r) (rcv_buf_head r) (rcv_buf_tail r) (rcv_buf_count r) (snd_buf
    r) (snd_buf_size r).
Definition set_rcv_wnd (v : Z) (r : tcp_socket_t) : tcp_socket_t :=
    TcpSocket (t_used r) (t_fd r) (local_ip r) (local_port r) (remote_ip r) (remote_port r)
    (snd_nxt r) (snd_una r) (rcv_nxt r) v (state r) (timestamp r) (retries r) (rcv_buf r)
    (rcv_bytes r) (rcv_buf_size r) (rcv_buf_head r) (rcv_buf_tail r) (rcv_buf_count r) (snd_buf
    r) (snd_buf_size r).
Definition set_t_state (v : tcp_state) (r : tcp_socket_t) : tcp_socket_t :=
    TcpSocket (t_used r) (t_fd r) (local_ip r) (local_port r) (remote_ip r) (remote_port r)
    (snd_nxt r) (snd_una r) (rcv_nxt r) (rcv_wnd r) v (timestamp r) (retries r) (rcv_buf r)
    (rcv_bytes r) (rcv_buf_size r) (rcv_buf_head r) (rcv_buf_tail r) (rcv_buf_count r) (snd_buf
    r) (snd_buf_size r).
Definition set_timestamp (v : Z) (r : tcp_socket_t) : tcp_socket_t :=
    TcpSocket (t_used r) (t_fd r) (local_ip r) (local_port r) (remote_ip r) (remote_port r)
    (snd_nxt r) (snd_una r) (rcv_nxt r) (rcv_wnd r) (state r) v (retries r) (rcv_buf r)
    (rcv_bytes r) (rcv_buf_size r) (rcv_buf_head r) (rcv_buf_tail r) (rcv_buf_count r) (snd_buf
    r) (snd_buf_size r).
Definition set_retries (v : Z) (r : tcp_socket_t) : tcp_socket_t :=
    TcpSocket (t_used r) (t_fd r) (local_ip r) (local_port r) (remote_ip r) (remote_port r)
    (snd_nxt r) (snd_una r) (rcv_nxt r) (rcv_wnd r) (state r) (timestamp r) v (rcv_buf r)
    (rcv_bytes r) (rcv_buf_size r) (rcv_buf_head r) (rcv_buf_tail r) (rcv_buf_count r) (snd_buf
    r) (snd_buf_size r).
Definition set_rcv_buf (v : Z) (r : tcp_socket_t) : tcp_socket_t :=
    TcpSocket (t_used r) (t_fd r) (local_ip r) (local_port r) (remote_ip r) (remote_port r)
    (snd_nxt r) (snd_una r) (rcv_nxt r) (rcv_wnd r) (state r) (timestamp r) (retries r) v
    (rcv_bytes r) (rcv_buf_size r) (rcv_buf_head r) (rcv_buf_tail r) (rcv_buf_count r) (snd_buf
    r) (snd_buf_size r).
Definition set_rcv_bytes (v : list Z) (r : tcp_socket_t) : tcp_socket_t :=
    TcpSocket (t_used r) (t_fd r) (local_ip r) (local_port r) (remote_ip r) (remote_port r)
    (snd_nxt r) (snd_una r) (rcv_nxt r) (rcv_wnd r) (state r) (timestamp r) (retries r) (rcv_buf
    r) v (rcv_buf_size r) (rcv_buf_head r) (rcv_buf_tail r) (rcv_buf_count r) (snd_buf r)
    (snd_buf_size r).
Definition set_rcv_buf_size (v : Z) (r : tcp_socket_t) : tcp_socket_t :=
    TcpSocket (t_used r) (t_fd r) (local_ip r) (local_port r) (remote_ip r) (remote_port r)
    (snd_nxt r) (snd_una r) (rcv_nxt r) (rcv_wnd r) (state r) (timestamp r) (retries r) (rcv_buf
    r) (rcv_bytes r) v (rcv_buf_head r) (rcv_buf_tail r) (rcv_buf_count r) (snd_buf r)
    (snd_buf_size r).
Definition set_rcv_buf_head (v : Z) (r : tcp_socket_t) : tcp_socket_t :=
    TcpSocket (t_used r) (t_fd r) (local_ip r) (local_port r) (remote_ip r) (remote_port r)
    (snd_nxt r) (snd_una r) (rcv_nxt r) (rcv_wnd r) (state r) (timestamp r) (retries r) (rcv_buf
    r) (rcv_bytes r) (rcv_buf_size r) v (rcv_buf_tail r) (rcv_buf_count r) (snd_buf r)
    (snd_buf_size r).
Definition set_rcv_buf_tail (v : Z) (r : tcp_socket_t) : tcp_socket_t :=
    TcpSocket (t_used r) (t_fd r) (local_ip r) (local_port r) (remote_ip r) (remote_port r)
    (snd_nxt r) (snd_una r) (rcv_nxt r) (rcv_wnd r) (state r) (timestamp r) (retries r) (rcv_buf
    r) (rcv_bytes r) (rcv_buf_size r) (rcv_buf_head r) v (rcv_buf_count r) (snd_buf r)
    (snd_buf_size r).
Definition set_rcv_buf_count (v : Z) (r : tcp_socket_t) : tcp_socket_t :=
    TcpSocket (t_used r) (t_fd r) (local_ip r) (local_port r) (remote_ip r) (remote_port r)
    (snd_nxt r) (snd_una r) (rcv_nxt r) (rcv_wnd r) (state r) (timestamp r) (retries r) (rcv_buf
    r) (rcv_bytes r) (rcv_buf_size r) (rcv_buf_head r) (rcv_buf_tail r) v (snd_buf r)
    (snd_buf_size r).
Definition set_snd_buf (v : Z) (r : tcp_socket_t) : tcp_socket_t :=
    TcpSocket (t_used r) (t_fd r) (local_ip r) (local_port r) (remote_ip r) (remote_port r)
    (snd_nxt r) (snd_una r) (rcv_nxt r) (rcv_wnd r) (state r) (timestamp r) (retries r) (rcv_buf
    r) (rcv_bytes r) (rcv_buf_size r) (rcv_buf_head r) (rcv_buf_tail r) (rcv_buf_count r) v
    (snd_buf_size r).
Definition set_snd_buf_size (v : Z) (r : tcp_socket_t) : tcp_socket_t :=
    TcpSocket (t_used r) (t_fd r) (local_ip r) (local_port r) (remote_ip r) (remote_port r)
    (snd_nxt r) (snd_una r) (rcv_nxt r) (rcv_wnd r) (state r) (timestamp r) (retries r) (rcv_buf
    r) (rcv_bytes r) (rcv_buf_size r) (rcv_buf_head r) (rcv_buf_tail r) (rcv_buf_count r)
    (snd_buf r) v.

Definition zero_tcp : tcp_socket_t :=
  TcpSocket false 0 0 0 0 0 0 0 0 0 TCP_CLOSED 0 0 0 [] 0 0 0 0 0 0.

Record tcp := Tcp { sockets : list tcp_socket_t; next_port : Z; tcp_ticks : Z; tnet : net }.

Definition set_sockets (v : list tcp_socket_t) (t : tcp) : tcp := Tcp v (next_port t) (tcp_ticks t) (tnet t).
Definition set_next_port (v : Z) (t : tcp) : tcp := Tcp (sockets t) v (tcp_ticks t) (tnet t).
Definition set_tcp_ticks (v : Z) (t : tcp) : tcp := Tcp (sockets t) (next_port t) v (tnet t).
Definition set_tnet (v : net) (t : tcp) : tcp := Tcp (sockets t) (next_port t) (tcp_ticks t) v.

Definition tsock (t : tcp) (i : nat) : tcp_socket_t := nth i (sockets t) zero_tcp.
Definition tupd (i : nat) (f : tcp_socket_t -> tcp_socket_t) (t : tcp) : tcp := set_sockets (alter f i (sockets t)) t.

(** The first socket that satisfies [f]. *)
Definition tfind (f : tcp_socket_t -> bool) (t : tcp) : option nat :=
  fst <$> list_find (fun s => f s = true) (sockets t).

Definition tcp_find_socket (fd : Z) (t : tcp) : option nat :=
  if (fd <? 0) || (32 <=? fd) then None else
  if t_used (tsock t (Z.to_nat fd)) then Some (Z.to_nat fd) else None.

Definition tcp_find_connection (lip lport rip rport : Z) (t : tcp) : option nat :=
  tfind (fun s => t_used s && (local_ip s =? lip) && (local_port s =? lport) && (remote_ip s =? rip)
                  && (remote_port s =? rport)) t.

Definition tcp_find_listener (port : Z) (t : tcp) : option nat :=
  tfind (fun s => t_used s && in_state (state s) TCP_LISTEN && (local_port s =? port)) t.

(** ** Segments *)

Definition tcp_pseudo (src dst len : Z) : list Z := le32 src ++ le32 dst ++ [0; IP_PROTO_TCP] ++ le16 (htons (u16 len)).

Definition tcp_checksum (src dst : Z) (seg : list Z) (len : Z) : option Z :=
  sum ← sum_words 6 (tcp_pseudo src dst len) 0;
  sum ← sum_bytes seg len sum;
  Some (finish_checksum sum).

(** The 20 bytes of a [tcp_hdr_t] and the data. *)
Definition tcp_seg (s : tcp_socket_t) (flags csum : Z) (data : list Z) : list Z :=
  le16 (htons (local_port s)) ++ le16 (htons (remote_port s)) ++ le32 (htonl (snd_nxt s)) ++ le32 (htonl (rcv_nxt s))
    ++ [0x50; flags] ++ le16 (htons (u16 (rcv_wnd s))) ++ le16 csum ++ [0; 0] ++ data.

Section Tcp.
Variables e1000_present rtl8139_present : bool.
Variable wait : net -> net.
Variable sleep : tcp -> tcp.
Variable sock_addr : nat -> Z.

(** The update of the socket after a segment went out. *)
Definition sent_update (flags len now : Z) (s : tcp_socket_t) : tcp_socket_t :=
  let n := snd_nxt s in
  let n := if has flags TCP_FLAG_SYN then u32 (n + 1) else n in
  let n := if has flags TCP_FLAG_FIN then u32 (n + 1) else n in
  let n := if 0 <? len then u32 (n + len) else n in
  set_retries 0 (set_timestamp now (set_snd_nxt n s)).

Definition tcp_send_packet (i : nat) (flags : Z) (data : list Z) (t : tcp) : option (Z * tcp) :=
  let s := tsock t i in
  let len := Z.of_nat (length data) in
  let tcp_len := sizeof_tcp_hdr + len in
  '(p, h) ← kmalloc (sizeof_ip_hdr + tcp_len) (nheap (tnet t));
  let t := set_tnet (set_nheap h (tnet t)) t in
  if p =? 0 then Some (-1, t) else
  csum ← tcp_checksum (local_ip s) (remote_ip s) (tcp_seg s flags 0 data) tcp_len;
  '(res, n) ← ip_send_packet e1000_present rtl8139_present wait (remote_ip s) IP_PROTO_TCP
                (tcp_seg s flags csum data) tcp_len (tnet t);
  let t := set_tnet n t in
  let t := if 0 <=? res then tupd i (sent_update flags len (tcp_ticks t)) t else t in
  h ← kfree p (nheap (tnet t));
  Some (res, set_tnet (set_nheap h (tnet t)) t).

(** A segment without data whose result is ignored. *)
Definition send_flags (i : nat) (flags : Z) (t : tcp) : option tcp :=
  '(_, t) ← tcp_send_packet i flags [] t; Some t.

(** ** Calls *)

Definition tcp_init (t : tcp) : tcp :=
  set_sockets (map (fun s => set_t_used false (set_rcv_buf 0 (set_snd_buf 0 s))) (sockets t)) t.

(** The buffers of socket [i]; the contents are not read before they are written. *)
Definition alloc_buffers (i : nat) (t : tcp) : option tcp :=
  '(r, h) ← kmalloc 65536 (nheap (tnet t));
  '(w, h) ← kmalloc 65536 h;
  Some (tupd i (fun s => set_rcv_buf r (set_rcv_bytes (replicate 65536 0) (set_rcv_buf_size 65536
                           (set_snd_buf w (set_snd_buf_size 65536 s)))))
          (set_tnet (set_nheap h (tnet t)) t)).

(** [kfree] of both buffers where they are not null. *)
Definition free_buffers (i : nat) (t : tcp) : option tcp :=
  let s := tsock t i in
  h ← (if rcv_buf s =? 0 then Some (nheap (tnet t)) else kfree (rcv_buf s) (nheap (tnet t)));
  h ← (if snd_buf s =? 0 then Some h else kfree (snd_buf s) h);
  Some (set_tnet (set_nheap h (tnet t)) t).

Definition tcp_socket (t : tcp) : option (Z * tcp) :=
  match tfind (fun s => negb (t_used s)) t with
  | None => Some (-1, t)
  | Some i =>
      let s := set_rcv_wnd TCP_WINDOW (set_local_port (next_port t) (set_local_ip (our_ip (tnet t))
                 (set_t_fd (Z.of_nat i) (set_t_used true zero_tcp)))) in
      let t := set_next_port (u16 (next_port t + 1)) (tupd i (fun _ => s) t) in
      t ← alloc_buffers i t;
      if (rcv_buf (tsock t i) =? 0) || (snd_buf (tsock t i) =? 0) then
        t ← free_buffers i t; Some (-1, tupd i (set_t_used false) t)
      else Some (Z.of_nat i, t)
  end.

(** Another socket in use has the port. *)
Fixpoint port_taken (fd : Z) (port : Z) (i : nat) (l : list tcp_socket_t) : bool :=
  match l with
  | [] => false
  | s :: l => (negb (Z.of_nat i =? fd) && t_used s && (local_port s =? port)) || port_taken fd port (S i) l
  end.

Definition tcp_bind (fd port : Z) (t : tcp) : Z * tcp :=
  match tcp_find_socket fd t with
  | None => (-1, t)
  | Some i =>
      if negb (in_state (state (tsock t i)) TCP_CLOSED) then (-1, t) else
      if port_taken fd port 0 (sockets t) then (-1, t) else (0, tupd i (set_local_port port) t)
  end.

Definition tcp_connect (fd ip port : Z) (t : tcp) : option (Z * tcp) :=
  match tcp_find_socket fd t with
  | None => Some (-1, t)
  | Some i =>
      if negb (in_state (state (tsock t i)) TCP_CLOSED) then Some (-1, t) else
      let t := tupd i (fun s => set_timestamp (tcp_ticks t) (set_retries 0 (set_rcv_nxt 0 (set_snd_nxt (u32 (sock_addr i))
                 (set_t_state TCP_SYN_SENT (set_remote_port port (set_remote_ip ip s))))))) t in
      tcp_send_packet i TCP_FLAG_SYN [] t
  end.

Definition tcp_listen (fd : Z) (t : tcp) : Z * tcp :=
  match tcp_find_socket fd t with
  | None => (-1, t)
  | Some i =>
      if negb (in_state (state (tsock t i)) TCP_CLOSED) then (-1, t) else (0, tupd i (set_t_state TCP_LISTEN) t)
  end.

(** [n] rounds of waiting for a connection on the port of socket [i]. *)
Fixpoint accept_wait (n : nat) (i : nat) (t : tcp) : option (Z * tcp) :=
  match n with
  | O => Some (-1, t)
  | S n =>
      match tfind (fun s => t_used s && in_state (state s) TCP_SYN_RCVD && (local_port s =? local_port (tsock t i))) t with
      | None => accept_wait n i (sleep t)
      | Some j =>
          '(fd, t) ← tcp_socket t;
          if fd <? 0 then Some (-1, t) else
          let c := tsock t j in
          let t := tupd (Z.to_nat fd) (fun s => set_t_state TCP_ESTABLISHED (set_rcv_nxt (rcv_nxt c) (set_snd_nxt (snd_nxt c)
                     (set_remote_port (remote_port c) (set_remote_ip (remote_ip c) (set_local_port (local_port c)
                       (set_local_ip (local_ip c) s))))))) t in
          let t := tupd j (set_t_used false) t in
          t ← free_buffers j t;
          Some (fd, t)
      end
  end.

Definition tcp_accept (fd : Z) (t : tcp) : option (Z * tcp) :=
  match tcp_find_socket fd t with
  | None => Some (-1, t)
  | Some i => if negb (in_state (state (tsock t i)) TCP_LISTEN) then Some (-1, t) else accept_wait 10000 i t
  end.

(** [n] rounds of waiting for the acknowledgement. *)
Fixpoint ack_wait (n : nat) (i : nat) (t : tcp) : tcp :=
  match n with
  | O => t
  | S n => if snd_nxt (tsock t i) <=? snd_una (tsock t i) then t else ack_wait n i (sleep t)
  end.

(** The loop of [tcp_send]; every round sends at least one byte. *)
Fixpoint send_chunks (fuel : nat) (i : nat) (done : Z) (data : list Z) (t : tcp) : option (Z * tcp) :=
  match fuel, data with
  | _, [] => Some (done, t)
  | O, _ => None
  | S fuel, _ =>
      let chunk := take (Z.to_nat TCP_MSS) data in
      '(res, t) ← tcp_send_packet i (Z.lor TCP_FLAG_PSH TCP_FLAG_ACK) chunk t;
      if res <? 0 then Some (done, t) else
      send_chunks fuel i (done + Z.of_nat (length chunk)) (drop (Z.to_nat TCP_MSS) data) (ack_wait 1000 i t)
  end.

Definition tcp_send (fd : Z) (data : list Z) (t : tcp) : option (Z * tcp) :=
  match tcp_find_socket fd t with
  | None => Some (-1, t)
  | Some i =>
      if negb (in_state (state (tsock t i)) TCP_ESTABLISHED) then Some (-1, t)
      else send_chunks (length data) i 0 data t
  end.

Fixpoint recv_wait (n : nat) (i : nat) (t : tcp) : tcp :=
  match n with
  | O => t
  | S n =>
      if (rcv_buf_count (tsock t i) =? 0) && in_state (state (tsock t i)) TCP_ESTABLISHED
      then recv_wait n i (sleep t) else t
  end.

(** One round of the copy loop: the bytes and the socket. *)
Definition recv_chunk (len : Z) (s : tcp_socket_t) : list Z * tcp_socket_t :=
  let copy := Z.min (rcv_buf_count s) len in
  let head := Z.to_nat (rcv_buf_head s) in
  let bytes :=
    if rcv_buf_head s + copy <=? rcv_buf_size s then take (Z.to_nat copy) (drop head (rcv_bytes s))
    else let first := rcv_buf_size s - rcv_buf_head s in
         take (Z.to_nat first) (drop head (rcv_bytes s)) ++ take (Z.to_nat (copy - first)) (rcv_bytes s) in
  (bytes, set_rcv_nxt (u32 (rcv_nxt s + copy)) (set_rcv_buf_count (rcv_buf_count s - copy)
            (set_rcv_buf_head ((rcv_buf_head s + copy) mod rcv_buf_size s) s))).

(** The loop: a round takes all that is there or all that is asked for. *)
Fixpoint recv_copy (fuel : nat) (len : Z) (s : tcp_socket_t) : option (list Z * tcp_socket_t) :=
  if negb ((0 <? rcv_buf_count s) && (0 <? len)) then Some ([], s) else
  match fuel with
  | O => None
  | S fuel =>
      let '(l, s) := recv_chunk len s in
      '(r, s) ← recv_copy fuel (len - Z.of_nat (length l)) s;
      Some (l ++ r, s)
  end.

(** The return value and the bytes stored in [buf]. *)
Definition tcp_recv (fd len : Z) (t : tcp) : option (Z * list Z * tcp) :=
  match tcp_find_socket fd t with
  | None => Some (-1, [], t)
  | Some i =>
      if in_state (state (tsock t i)) TCP_CLOSE_WAIT && (rcv_buf_count (tsock t i) =? 0) then Some (0, [], t) else
      let t := recv_wait 10000 i t in
      if rcv_buf_count (tsock t i) =? 0 then Some (-1, [], t) else
      '(bytes, s) ← recv_copy 2 len (tsock t i);
      let t := tupd i (fun _ => s) t in
      let total := Z.of_nat (length bytes) in
      t ← (if 0 <? total then send_flags i TCP_FLAG_ACK t else Some t);
      Some (total, bytes, t)
  end.

Fixpoint close_wait (n : nat) (i : nat) (t : tcp) : tcp :=
  match n with
  | O => t
  | S n => if in_state (state (tsock t i)) TCP_CLOSED then t else close_wait n i (sleep t)
  end.

Definition tcp_close (fd : Z) (t : tcp) : option (Z * tcp) :=
  match tcp_find_socket fd t with
  | None => Some (-1, t)
  | Some i =>
      t ← (if in_state (state (tsock t i)) TCP_ESTABLISHED then
             t ← send_flags i (Z.lor TCP_FLAG_FIN TCP_FLAG_ACK) (tupd i (set_t_state TCP_FIN_WAIT_1) t);
             Some (close_wait 1000 i t)
           else Some t);
      t ← free_buffers i t;
      Some (0, tupd i (set_t_used false) t)
  end.

(** ** The timer *)

(** The condition of the retransmission; [tcp_ticks - s->timestamp] wraps. *)
Definition overdue (now : Z) (s : tcp_socket_t) : bool :=
  (in_state (state s) TCP_SYN_SENT || in_state (state s) TCP_ESTABLISHED) && (snd_una s <? snd_nxt s)
  && (TCP_RETRANSMIT_MS <? u32 (now - timestamp s)).

Definition timer_socket (i : nat) (t : tcp) : option tcp :=
  let s := tsock t i in
  if negb (t_used s) then Some t else
  if negb (overdue (tcp_ticks t) s) then Some t else
  if retries s <? TCP_RETRIES then
    let t := tupd i (fun s => set_timestamp (tcp_ticks t) (set_retries (retries s + 1) s)) t in
    send_flags i (if in_state (state s) TCP_SYN_SENT then TCP_FLAG_SYN else TCP_FLAG_ACK) t
  else Some (tupd i (set_t_state TCP_CLOSED) t).

Fixpoint timer_loop (n : nat) (i : nat) (t : tcp) : option tcp :=
  match n with
  | O => Some t
  | S n => t ← timer_socket i t; timer_loop n (S i) t
  end.

Definition tcp_timer (t : tcp) : option tcp := timer_loop MAX_SOCKETS 0 (set_tcp_ticks (u32 (tcp_ticks t + 1)) t).

(** ** Reception *)

(** The socket made for a connection request. *)
Definition passive_open (dst_ip dst_port src_ip src_port seq : Z) (t : tcp) : option tcp :=
  match tfind (fun s => negb (t_used s)) t with
  | None => Some t
  | Some i =>
      let s := set_rcv_wnd TCP_WINDOW (set_t_state TCP_SYN_RCVD (set_snd_nxt (u32 (sock_addr i)) (set_rcv_nxt (u32 (seq + 1))
                 (set_remote_port src_port (set_remote_ip src_ip (set_local_port dst_port (set_local_ip dst_ip
                   (set_t_fd (Z.of_nat i) (set_t_used true zero_tcp))))))))) in
      t ← alloc_buffers i (tupd i (fun _ => s) t);
      send_flags i (Z.lor TCP_FLAG_SYN TCP_FLAG_ACK) t
  end.

(** The acknowledgement number of a segment with the ACK flag. *)
Definition ack_update (flags ack : Z) (s : tcp_socket_t) : tcp_socket_t :=
  if has flags TCP_FLAG_ACK && (snd_una s <? ack) && (ack <=? snd_nxt s) then set_snd_una ack s else s.

(** The bytes of [data] that fit go into the ring buffer. *)
Definition buffer_data (data : list Z) (s : tcp_socket_t) : tcp_socket_t :=
  let dlen := Z.of_nat (length data) in
  if dlen =? 0 then s else
  let tail := rcv_buf_tail s in
  let s :=
    if tail + dlen <=? rcv_buf_size s
    then set_rcv_buf_tail (tail + dlen) (set_rcv_bytes (store tail data (rcv_bytes s)) s)
    else
      let first := rcv_buf_size s - tail in
      let b := store tail (take (Z.to_nat first) data) (rcv_bytes s) in
      set_rcv_buf_tail (dlen - first) (set_rcv_bytes (store 0 (drop (Z.to_nat first) data) b) s) in
  set_rcv_nxt (u32 (rcv_nxt s + dlen)) (set_rcv_buf_count (rcv_buf_count s + dlen) s).

(** The segment's data, if it is the one that is expected: [None] where the copy would
    read outside the frame or write through a null buffer. *)
Definition handle_data (i : nat) (data : list Z) (dlen seq : Z) (t : tcp) : option tcp :=
  let s := tsock t i in
  if negb ((0 <? dlen) && (seq =? rcv_nxt s)) then Some t else
  let n := Z.min dlen (rcv_buf_size s - rcv_buf_count s) in
  bytes ← (if 0 <? n then copy data n else Some []);
  if (0 <? n) && (rcv_buf s =? 0) then None else
  send_flags i TCP_FLAG_ACK (tupd i (buffer_data bytes) t).

(** A FIN is answered: the new state and the acknowledgement. *)
Definition take_fin (i : nat) (st : tcp_state) (seq : Z) (t : tcp) : option tcp :=
  send_flags i TCP_FLAG_ACK (tupd i (fun s => set_rcv_nxt (u32 (seq + 1)) (set_t_state st s)) t).

Definition state_step (i : nat) (flags seq ack : Z) (t : tcp) : option tcp :=
  let s := tsock t i in
  let fin := has flags TCP_FLAG_FIN in
  let acked := has flags TCP_FLAG_ACK && (ack =? snd_nxt s) in
  match state s with
  | TCP_SYN_SENT =>
      if has flags TCP_FLAG_SYN && has flags TCP_FLAG_ACK then
        send_flags i TCP_FLAG_ACK
          (tupd i (fun s => set_snd_una ack (set_rcv_nxt (u32 (seq + 1)) (set_t_state TCP_ESTABLISHED s))) t)
      else Some t
  | TCP_SYN_RCVD => Some (if has flags TCP_FLAG_ACK then tupd i (set_t_state TCP_ESTABLISHED) t else t)
  | TCP_ESTABLISHED => if fin then take_fin i TCP_CLOSE_WAIT seq t else Some t
  | TCP_FIN_WAIT_1 =>
      let t := if acked then tupd i (set_t_state TCP_FIN_WAIT_2) t else t in
      if fin then take_fin i TCP_CLOSING seq t else Some t
  | TCP_FIN_WAIT_2 => if fin then take_fin i TCP_TIME_WAIT seq t else Some t
  | TCP_CLOSE_WAIT => if fin then take_fin i TCP_LAST_ACK seq t else Some t
  | TCP_LAST_ACK => Some (if acked then tupd i (set_t_state TCP_CLOSED) t else t)
  | TCP_TIME_WAIT =>
      Some (if 2000 <? u32 (tcp_ticks t - timestamp s) then tupd i (set_t_state TCP_CLOSED) t else t)
  | TCP_CLOSED | TCP_LISTEN | TCP_CLOSING => Some t
  end.

Definition tcp_handle_packet (pkt : list Z) (len src_ip dst_ip : Z) (t : tcp) : option tcp :=
  if u64 len <? sizeof_tcp_hdr then Some t else
  sp ← get16 pkt 0;
  dp ← get16 pkt 2;
  seq ← get32 pkt 4;
  ack ← get32 pkt 8;
  off ← get8 pkt 12;
  flags ← get8 pkt 13;
  let hlen := Z.shiftr off 4 * 4 in
  let dlen := len - hlen in
  match tcp_find_connection dst_ip (ntohs dp) src_ip (ntohs sp) t with
  | None =>
      if has flags TCP_FLAG_SYN && match tcp_find_listener (ntohs dp) t with Some _ => true | None => false end
      then passive_open dst_ip (ntohs dp) src_ip (ntohs sp) (ntohl seq) t
      else Some t
  | Some i =>
      let t := tupd i (ack_update flags (ntohl ack)) t in
      t ← handle_data i (drop (Z.to_nat hlen) pkt) dlen (ntohl seq) t;
      state_step i flags (ntohl seq) (ntohl ack) t
  end.

End Tcp.

(** * The receive buffer is a queue of bytes *)

Record ring_ok (s : tcp_socket_t) : Prop := {
  ro_size : rcv_buf_size s = Z.of_nat (length (rcv_bytes s));
  ro_pos : 0 < rcv_buf_size s < 2 ^ 31;
  ro_head : 0 <= rcv_buf_head s < rcv_buf_size s;
  ro_count : 0 <= rcv_buf_count s <= rcv_buf_size s;
  ro_tail : 0 <= rcv_buf_tail s <= rcv_buf_size s;
  ro_wrap : rcv_buf_tail s mod rcv_buf_size s = (rcv_buf_head s + rcv_buf_count s) mod rcv_buf_size s }.

(** The byte at a distance from the head. *)
Definition ring_at (s : tcp_socket_t) (j : nat) : Z :=
  nth (Z.to_nat ((rcv_buf_head s + Z.of_nat j) mod rcv_buf_size s)) (rcv_bytes s) 0.

(** The bytes that wait to be received, oldest first. *)
Definition queue (s : tcp_socket_t) : list Z := ring_at s <$> seq 0 (Z.to_nat (rcv_buf_count s)).

Lemma queue_length s : length (queue s) = Z.to_nat (rcv_buf_count s).
Proof. unfold queue. by rewrite length_fmap, length_seq. Qed.

Lemma queue_lookup s j : (j < Z.to_nat (rcv_buf_count s))%nat -> queue s !! j = Some (ring_at s j).
Proof. intros H. unfold queue. rewrite list_lookup_fmap, lookup_seq_lt by done. done. Qed.

(** Two numbers less than [size] apart have different remainders. *)
Lemma mod_window_ne a b size : a < b < a + size -> a mod size <> b mod size.
Proof.
  intros H Heq. pose proof (Z.div_mod a size ltac:(lia)). pose proof (Z.div_mod b size ltac:(lia)).
  set (q := b / size - a / size). assert (b - a = size * q) by lia. destruct (Z.le_gt_cases 1 q); nia.
Qed.

(** The places [tail .. tail + dlen) of the ring hold [data] and the others are unchanged. *)
Lemma ring_store s data k :
  ring_ok s -> 0 < Z.of_nat (length data) -> rcv_buf_count s + Z.of_nat (length data) <= rcv_buf_size s ->
  (k < Z.to_nat (rcv_buf_count s) + length data)%nat ->
  ring_at (buffer_data data s) k =
    if (k <? Z.to_nat (rcv_buf_count s))%nat then ring_at s k else nth (k - Z.to_nat (rcv_buf_count s)) data 0.
Proof.
  intros [Hsz Hp Hh Hc Ht Hw] Hd Hfit Hk. unfold buffer_data.
  rewrite (proj2 (Z.eqb_neq (Z.of_nat (length data)) 0)) by lia.
  set (dl := Z.of_nat (length data)) in *. set (size := rcv_buf_size s) in *. set (tl := rcv_buf_tail s) in *.
  assert (Hpos : (Z.to_nat (rcv_buf_count s) <= k)%nat ->
    (rcv_buf_head s + Z.of_nat k) mod size = (tl + (Z.of_nat k - rcv_buf_count s)) mod size).
  { intros Hge. rewrite <- (Z.add_mod_idemp_l tl), Hw, Z.add_mod_idemp_l by lia. f_equal. lia. }
  assert (Hold : (k < Z.to_nat (rcv_buf_count s))%nat ->
    forall e, 0 <= e < dl -> (rcv_buf_head s + Z.of_nat k) mod size <> (tl + e) mod size).
  { intros Hlt e He Heq. rewrite <- (Z.add_mod_idemp_l tl), Hw, Z.add_mod_idemp_l in Heq by lia.
    apply (mod_window_ne (rcv_buf_head s + Z.of_nat k) (rcv_buf_head s + rcv_buf_count s + e) size); lia. }
  pose proof (Z.mod_pos_bound (rcv_buf_head s + Z.of_nat k) size ltac:(lia)) as Hm.
  set (x := (rcv_buf_head s + Z.of_nat k) mod size) in *.
  destruct (Z.leb_spec (tl + dl) size) as [Hle|Hgt]; unfold ring_at;
    cbn [rcv_buf_head rcv_buf_size rcv_bytes set_rcv_nxt set_rcv_buf_count set_rcv_buf_tail set_rcv_bytes]; fold size; fold x.
  - rewrite nth_store by lia. destruct (Nat.ltb_spec k (Z.to_nat (rcv_buf_count s))) as [H1|H1].
    + destruct (Nat.leb_spec (Z.to_nat tl) (Z.to_nat x)); [|done].
      destruct (Nat.ltb_spec (Z.to_nat x) (Z.to_nat tl + length data)); [|done]. cbn [andb].
      exfalso. apply (Hold H1 (x - tl)); [lia|]. rewrite Z.mod_small; lia.
    + rewrite (Hpos H1). rewrite Z.mod_small by lia.
      rewrite (proj2 (Nat.leb_le _ _)), (proj2 (Nat.ltb_lt _ _)) by lia. cbn [andb]. f_equal. lia.
  - set (first := size - tl) in *.
    assert (Hlf : length (take (Z.to_nat first) data) = Z.to_nat first) by (rewrite length_take; lia).
    assert (Hls : length (store tl (take (Z.to_nat first) data) (rcv_bytes s)) = length (rcv_bytes s))
      by (apply store_length; lia).
    rewrite nth_store by (rewrite ?length_drop, ?Hls; lia). rewrite length_drop. rewrite nth_store by (rewrite ?Hlf; lia). rewrite Hlf.
    change (Z.to_nat 0) with 0%nat. rewrite Nat.sub_0_r. cbn [Nat.leb andb Nat.add].
    destruct (Nat.ltb_spec k (Z.to_nat (rcv_buf_count s))) as [H1|H1].
    + destruct (Nat.ltb_spec (Z.to_nat x) (length data - Z.to_nat first)).
      { exfalso. apply (Hold H1 (x + first)); [lia|]. replace (tl + (x + first)) with (x + 1 * size) by lia.
        rewrite Z.mod_add by lia. rewrite Z.mod_small; lia. }
      destruct (Nat.leb_spec (Z.to_nat tl) (Z.to_nat x)); [|done].
      destruct (Nat.ltb_spec (Z.to_nat x) (Z.to_nat tl + Z.to_nat first)); [|done]. cbn [andb].
      exfalso. apply (Hold H1 (x - tl)); [lia|]. rewrite Z.mod_small; lia.
    + rewrite (Hpos H1). set (e := Z.of_nat k - rcv_buf_count s). destruct (Z.ltb_spec e first) as [He|He].
      * rewrite Z.mod_small by lia. rewrite (proj2 (Nat.ltb_ge _ _)) by lia.
        rewrite (proj2 (Nat.leb_le _ _)), (proj2 (Nat.ltb_lt _ _)) by lia. cbn [andb].
        rewrite nth_firstn, (proj2 (Nat.ltb_lt _ _)) by lia. f_equal. lia.
      * replace (tl + e) with (e - first + 1 * size) by lia. rewrite Z.mod_add, Z.mod_small by lia.
        rewrite (proj2 (Nat.ltb_lt _ _)) by lia. rewrite nth_skipn. f_equal. lia.
Qed.

Lemma nth_queue s k : (k < Z.to_nat (rcv_buf_count s))%nat -> nth k (queue s) 0 = ring_at s k.
Proof. intros H. apply nth_lookup_Some. by apply queue_lookup. Qed.

Lemma buffer_data_ring s data :
  ring_ok s -> rcv_buf_count s + Z.of_nat (length data) <= rcv_buf_size s ->
  ring_ok (buffer_data data s) /\ queue (buffer_data data s) = queue s ++ data.
Proof.
  intros Hok Hfit. pose proof Hok as [Hsz Hp Hh Hc Ht Hw].
  destruct (Z.eqb_spec (Z.of_nat (length data)) 0) as [Hz|Hz].
  { unfold buffer_data. rewrite Hz. cbn [Z.eqb]. rewrite (nil_length_inv data) by lia. by rewrite app_nil_r. }
  assert (Hcount : rcv_buf_count (buffer_data data s) = rcv_buf_count s + Z.of_nat (length data)).
  { unfold buffer_data. rewrite (proj2 (Z.eqb_neq _ 0)) by done. by destruct (_ <=? _). }
  split.
  - unfold buffer_data. rewrite (proj2 (Z.eqb_neq _ 0)) by done.
    destruct (Z.leb_spec (rcv_buf_tail s + Z.of_nat (length data)) (rcv_buf_size s)) as [Hle|Hgt]; split;
      cbn [rcv_buf_head rcv_buf_size rcv_bytes rcv_buf_count rcv_buf_tail set_rcv_nxt set_rcv_buf_count set_rcv_buf_tail set_rcv_bytes]; try lia.
    + rewrite store_length; lia.
    + rewrite <- (Z.add_mod_idemp_l (rcv_buf_tail s)), Hw, Z.add_mod_idemp_l by lia. f_equal. lia.
    + set (first := Z.to_nat (rcv_buf_size s - rcv_buf_tail s)).
      assert (Hls : length (store (rcv_buf_tail s) (take first data) (rcv_bytes s)) = length (rcv_bytes s)).
      { apply store_length; rewrite ?length_take; lia. }
      rewrite store_length by (rewrite ?Hls, ?length_drop; lia). lia.
    + rewrite Z.add_assoc, <- (Z.add_mod_idemp_l (_ + _)), <- Hw, Z.add_mod_idemp_l by lia.
      replace (rcv_buf_tail s + Z.of_nat (length data)) with
        (Z.of_nat (length data) - (rcv_buf_size s - rcv_buf_tail s) + 1 * rcv_buf_size s) by lia.
      by rewrite Z.mod_add by lia.
  - apply list_eq_nth.
    + rewrite length_app, !queue_length, Hcount. lia.
    + intros k Hk. rewrite queue_length, Hcount in Hk. rewrite nth_queue by (rewrite Hcount; lia).
      rewrite ring_store by (done || lia). destruct (Nat.ltb_spec k (Z.to_nat (rcv_buf_count s))).
      * rewrite app_nth1 by (rewrite queue_length; lia). by rewrite nth_queue.
      * rewrite app_nth2 by (rewrite queue_length; lia). by rewrite queue_length.
Qed.

Lemma recv_chunk_ring s len l s' :
  ring_ok s -> 0 < len -> recv_chunk len s = (l, s') ->
  l = take (Z.to_nat len) (queue s) /\ queue s' = drop (Z.to_nat len) (queue s) /\ ring_ok s'.
Proof.
  intros Hok Hlen. pose proof Hok as [Hsz Hp Hh Hc Ht Hw]. unfold recv_chunk. set (n := Z.min (rcv_buf_count s) len).
  intros [= <- <-].
  assert (Hn : Z.to_nat n = (Z.to_nat len `min` Z.to_nat (rcv_buf_count s))%nat) by lia.
  split_and!.
  - apply list_eq_nth.
    + rewrite length_take, queue_length. destruct (Z.leb_spec (rcv_buf_head s + n) (rcv_buf_size s));
        rewrite ?length_app, ?length_take, ?length_drop; lia.
    + intros k Hk.
      assert (Hkn : (k < Z.to_nat n)%nat).
      { destruct (Z.leb_spec (rcv_buf_head s + n) (rcv_buf_size s)); rewrite ?length_app, ?length_take, ?length_drop in Hk; lia. }
      rewrite nth_firstn, (proj2 (Nat.ltb_lt k _)), nth_queue by lia. unfold ring_at.
      destruct (Z.leb_spec (rcv_buf_head s + n) (rcv_buf_size s)) as [Hle|Hgt].
      * rewrite nth_firstn, (proj2 (Nat.ltb_lt _ _)), nth_skipn, Z.mod_small by lia. f_equal. lia.
      * set (first := rcv_buf_size s - rcv_buf_head s) in *.
        assert (Hf : length (take (Z.to_nat first) (drop (Z.to_nat (rcv_buf_head s)) (rcv_bytes s))) = Z.to_nat first)
          by (rewrite length_take, length_drop; lia).
        destruct (Nat.ltb_spec k (Z.to_nat first)) as [H1|H1].
        -- rewrite app_nth1 by lia. rewrite nth_firstn, (proj2 (Nat.ltb_lt _ _)), nth_skipn, Z.mod_small by lia. f_equal. lia.
        -- rewrite app_nth2 by lia. rewrite Hf, nth_firstn, (proj2 (Nat.ltb_lt _ _)) by lia.
           replace (rcv_buf_head s + Z.of_nat k) with (Z.of_nat k - first + 1 * rcv_buf_size s) by lia.
           rewrite Z.mod_add, Z.mod_small by lia. f_equal. lia.
  - apply list_eq_nth.
    + rewrite length_drop, !queue_length. cbn [rcv_buf_count set_rcv_nxt set_rcv_buf_count]. lia.
    + intros k Hk. rewrite queue_length in Hk. rewrite nth_queue by done. cbn [rcv_buf_count set_rcv_nxt set_rcv_buf_count] in Hk.
      rewrite nth_skipn, nth_queue by lia. unfold ring_at.
      cbn [rcv_buf_head rcv_buf_size rcv_bytes set_rcv_nxt set_rcv_buf_count set_rcv_buf_head].
      rewrite Z.add_mod_idemp_l by lia. do 3 f_equal. lia.
  - split; cbn [rcv_buf_head rcv_buf_size rcv_bytes rcv_buf_count rcv_buf_tail set_rcv_nxt set_rcv_buf_count set_rcv_buf_head]; auto; try lia.
    + apply Z.mod_pos_bound. lia.
    + rewrite Z.add_mod_idemp_l by lia. rewrite Hw. f_equal. lia.
Qed.

(** The receive loop takes what is asked for from the front of the queue. *)
Lemma recv_copy_ring s n len :
  ring_ok s ->
  exists s', recv_copy (S n) len s = Some (take (Z.to_nat len) (queue s), s') /\
    queue s' = drop (Z.to_nat len) (queue s) /\ ring_ok s'.
Proof.
  intros Hok. pose proof Hok as [Hsz Hp Hh Hc Ht Hw].
  assert (Hstop : forall f len s, (0 <? rcv_buf_count s) && (0 <? len) = false -> recv_copy f len s = Some ([], s)).
  { intros f l' s0 H. destruct f; cbn [recv_copy]; by rewrite H. }
  destruct ((0 <? rcv_buf_count s) && (0 <? len)) eqn:E.
  - apply andb_true_iff in E as [E1 E2]. apply Z.ltb_lt in E1, E2. cbn [recv_copy].
    rewrite (proj2 (Z.ltb_lt 0 (rcv_buf_count s))), (proj2 (Z.ltb_lt 0 len)) by lia. cbn [andb negb].
    destruct (recv_chunk len s) as [l s1] eqn:Er. destruct (recv_chunk_ring _ _ _ _ Hok E2 Er) as (Hl & Hq & Hok1).
    pose proof (f_equal length Hl) as Hll. rewrite length_take, queue_length in Hll.
    pose proof (f_equal length Hq) as Hql. rewrite length_drop, !queue_length in Hql.
    pose proof (ro_count _ Hok1).
    rewrite Hstop.
    + cbn [mbind option_bind]. rewrite app_nil_r, Hl. by exists s1.
    + apply andb_false_iff. destruct (Z.ltb_spec 0 (rcv_buf_count s1)); [right; apply Z.ltb_ge; lia|by left].
  - rewrite Hstop by done. exists s. apply andb_false_iff in E as [E|E]; apply Z.ltb_ge in E.
    + assert (Hq : queue s = []) by (apply nil_length_inv; rewrite queue_length; lia). rewrite Hq, take_nil, drop_nil. done.
    + replace (Z.to_nat len) with 0%nat by lia. by rewrite take_0, drop_0.
Qed.

(** * What a call changes *)

Lemma tsock_tupd i f t j : (j < length (sockets t))%nat ->
  tsock (tupd i f t) j = if decide (i = j) then f (tsock t j) else tsock t j.
Proof.
  intros Hj. unfold tsock, tupd. cbn [sockets set_sockets]. rewrite !nth_lookup, list_lookup_alter.
  destruct (lookup_lt_is_Some_2 _ _ Hj) as [x Hx]. rewrite Hx. destruct (decide (i = j)) as [->|]; [by rewrite Hx|done].
Qed.

Lemma sockets_tupd i f t : length (sockets (tupd i f t)) = length (sockets t).
Proof. unfold tupd. cbn [sockets set_sockets]. apply length_alter. Qed.

Lemma tfind_some f t i : tfind f t = Some i -> (i < length (sockets t))%nat /\ f (tsock t i) = true.
Proof.
  unfold tfind. destruct (list_find _ _) as [[k s]|] eqn:E; [|done]. cbn. intros [= <-].
  apply list_find_Some in E as (Hk & Hf & _). split; [by eapply lookup_lt_Some|].
  unfold tsock. by rewrite (nth_lookup_Some _ _ _ _ Hk).
Qed.

(** [s'] is [s] after segments were sent: the same connection, state and receive buffer. *)
Definition resent (s s' : tcp_socket_t) : Prop :=
  exists n ts r, s' = set_retries r (set_timestamp ts (set_snd_nxt n s)).

Lemma resent_refl s : resent s s.
Proof. exists (snd_nxt s), (timestamp s), (retries s). by destruct s. Qed.

Lemma resent_fields s s' : resent s s' ->
  state s' = state s /\ queue s' = queue s /\ rcv_nxt s' = rcv_nxt s /\ rcv_buf s' = rcv_buf s /\ t_used s' = t_used s /\
  remote_ip s' = remote_ip s /\ (ring_ok s -> ring_ok s').
Proof. intros (n & ts & r & ->). split_and!; try reflexivity. intros []. by split. Qed.

(** Every socket satisfies [R] with respect to what it was. *)
Definition each (R : nat -> tcp_socket_t -> tcp_socket_t -> Prop) (t t' : tcp) : Prop :=
  length (sockets t') = length (sockets t) /\
  forall j, (j < length (sockets t))%nat -> R j (tsock t j) (tsock t' j).

(** Socket [i] satisfies [P], the others are untouched. *)
Definition on (i : nat) (P : tcp_socket_t -> tcp_socket_t -> Prop) : tcp -> tcp -> Prop :=
  each (fun j s s' => if decide (i = j) then P s s' else s' = s).

Lemma on_trans i (P Q R : tcp_socket_t -> tcp_socket_t -> Prop) t1 t2 t3 :
  (forall a b c, P a b -> Q b c -> R a c) -> on i P t1 t2 -> on i Q t2 t3 -> on i R t1 t3.
Proof.
  intros H [L1 H1] [L2 H2]. split; [congruence|]. intros j Hj. specialize (H1 j Hj). specialize (H2 j ltac:(lia)). cbn beta in *.
  destruct (decide (i = j)); [eauto|congruence].
Qed.

Lemma on_impl i (P Q : tcp_socket_t -> tcp_socket_t -> Prop) t t' : (forall a b, P a b -> Q a b) -> on i P t t' -> on i Q t t'.
Proof. intros H [L1 H1]. split; [done|]. intros j Hj. specialize (H1 j Hj). cbn beta in *. destruct (decide _); auto. Qed.

Lemma on_tupd i (P : tcp_socket_t -> tcp_socket_t -> Prop) f t : (forall s, P s (f s)) -> on i P t (tupd i f t).
Proof.
  intros Hf. split; [apply sockets_tupd|]. intros j Hj. rewrite tsock_tupd by done.
  destruct (decide (i = j)); auto.
Qed.

Lemma on_same i (P : tcp_socket_t -> tcp_socket_t -> Prop) t t' :
  sockets t' = sockets t -> (forall s, P s s) -> on i P t t'.
Proof. intros He Hp. unfold on, each, tsock. rewrite He. split; [done|]. intros j _. by destruct (decide _). Qed.

Lemma on_at i (P : tcp_socket_t -> tcp_socket_t -> Prop) t t' :
  (i < length (sockets t))%nat -> on i P t t' -> P (tsock t i) (tsock t' i).
Proof. intros Hi [_ H]. specialize (H i Hi). cbn beta in H. by rewrite decide_True in H. Qed.

Section Frames.
Variables e1000_present rtl8139_present : bool.
Variable wait : net -> net.
Variable sock_addr : nat -> Z.

Notation send_flags := (send_flags e1000_present rtl8139_present wait).
Notation tcp_send_packet := (tcp_send_packet e1000_present rtl8139_present wait).

Lemma send_packet_frame i flags data t r t' :
  tcp_send_packet i flags data t = Some (r, t') -> on i resent t t' /\ tcp_ticks t' = tcp_ticks t.
Proof.
  unfold tcp_send_packet. destruct (kmalloc _ _) as [[p h]|]; [|done]. cbn [mbind option_bind].
  destruct (p =? 0); [intros [= <- <-]; split; [by apply on_same, resent_refl|done]|].
  destruct (tcp_checksum _ _ _ _) as [c|]; [|done]. cbn [mbind option_bind].
  destruct (ip_send_packet _ _ _ _ _ _ _ _) as [[res n]|]; [|done]. cbn [mbind option_bind].
  destruct (kfree _ _) as [h'|]; [|done]. cbn [mbind option_bind]. intros [= <- <-].
  destruct (0 <=? res); (split; [|reflexivity]); [|by apply on_same, resent_refl].
  apply (on_tupd i resent (sent_update flags (Z.of_nat (length data)) (tcp_ticks t)) t).
  intros s. unfold sent_update, resent. eauto.
Qed.

Lemma send_flags_frame i flags t t' : send_flags i flags t = Some t' -> on i resent t t' /\ tcp_ticks t' = tcp_ticks t.
Proof.
  unfold send_flags. destruct (tcp_send_packet _ _ _ _) as [[r t1]|] eqn:E; [|done]. cbn [mbind option_bind].
  intros [= <-]. by apply send_packet_frame in E.
Qed.

(** A segment is sent after the socket was updated by [f]. *)
Lemma send_after i f flags t t' (P : tcp_socket_t -> tcp_socket_t -> Prop) :
  (forall s s', resent (f s) s' -> P s s') -> send_flags i flags (tupd i f t) = Some t' -> on i P t t'.
Proof.
  intros H Hs. apply send_flags_frame in Hs as [Hs _].
  eapply (on_trans i (fun a b => b = f a)); [|apply on_tupd; reflexivity|exact Hs].
  intros a b c -> Hr. by apply H.
Qed.

(** ** The states *)

(** The arrows of the connection diagram that [tcp_handle_packet] can follow. *)
Inductive edge : tcp_state -> tcp_state -> Prop :=
  | edge_syn_ack : edge TCP_SYN_SENT TCP_ESTABLISHED
  | edge_accepted : edge TCP_SYN_RCVD TCP_ESTABLISHED
  | edge_peer_closes : edge TCP_ESTABLISHED TCP_CLOSE_WAIT
  | edge_fin_acked : edge TCP_FIN_WAIT_1 TCP_FIN_WAIT_2
  | edge_both_close : edge TCP_FIN_WAIT_1 TCP_CLOSING
  | edge_peer_done : edge TCP_FIN_WAIT_2 TCP_TIME_WAIT
  | edge_last : edge TCP_CLOSE_WAIT TCP_LAST_ACK
  | edge_last_acked : edge TCP_LAST_ACK TCP_CLOSED
  | edge_waited : edge TCP_TIME_WAIT TCP_CLOSED.

(** What one segment may do to the state of a socket that is in use. *)
Definition moves (s s' : tcp_socket_t) : Prop := state s' = state s \/ edge (state s) (state s').

Lemma moves_to i t t' st st' :
  on i (fun _ b => state b = st') t t' -> state (tsock t i) = st -> edge st st' -> on i moves t t'.
Proof.
  intros [Hl H] Hs He. split; [done|]. intros j Hj. specialize (H j Hj). cbn beta in *.
  destruct (decide (i = j)) as [<-|]; [|done]. right. by rewrite H, Hs.
Qed.

Lemma take_fin_to i st seq t t' : take_fin e1000_present rtl8139_present wait i st seq t = Some t' -> on i (fun _ b => state b = st) t t'.
Proof. apply send_after. intros s s' Hr. apply resent_fields in Hr as [-> _]. reflexivity. Qed.

Lemma state_step_moves i flags seq ack t t' :
  state_step e1000_present rtl8139_present wait i flags seq ack t = Some t' -> on i moves t t'.
Proof.
  assert (Hsame : on i moves t t) by (apply on_same; [done|by left]).
  assert (Hset : forall st, on i (fun _ b => state b = st) t (tupd i (set_t_state st) t)) by (intros; by apply on_tupd).
  unfold state_step. destruct (state (tsock t i)) eqn:Es.
  1,2,9: by intros [= <-].
  - destruct (_ && _); [|by intros [= <-]]. intros H. eapply moves_to; [|exact Es|constructor].
    eapply send_after; [|exact H]. intros s s' Hr. apply resent_fields in Hr as [-> _]. reflexivity.
  - destruct (has _ _); intros [= <-]; [|done]. eapply moves_to; [apply Hset|exact Es|constructor].
  - destruct (has flags TCP_FLAG_FIN); [|by intros [= <-]]. intros H. eapply moves_to; [by eapply take_fin_to|exact Es|constructor].
  - set (t1 := if _ && _ then _ else t). destruct (has flags TCP_FLAG_FIN).
    + intros H. eapply moves_to; [|exact Es|apply edge_both_close]. apply take_fin_to in H.
      apply (on_trans i (fun _ _ => True) (fun _ b => state b = TCP_CLOSING) (fun _ b => state b = TCP_CLOSING) t t1 t'); [done| |exact H].
      unfold t1. destruct (_ && _); [by apply on_tupd|by apply on_same].
    + intros [= <-]. unfold t1. destruct (_ && _); [|done]. eapply moves_to; [apply Hset|exact Es|constructor].
  - destruct (has flags TCP_FLAG_FIN); [|by intros [= <-]]. intros H. eapply moves_to; [by eapply take_fin_to|exact Es|constructor].
  - destruct (has flags TCP_FLAG_FIN); [|by intros [= <-]]. intros H. eapply moves_to; [by eapply take_fin_to|exact Es|constructor].
  - destruct (_ && _); intros [= <-]; [|done]. eapply moves_to; [apply Hset|exact Es|constructor].
  - destruct (_ <? _); intros [= <-]; [|done]. eapply moves_to; [apply Hset|exact Es|constructor].
Qed.

(** What does not touch the state of socket [i]. *)
Definition same_state (s s' : tcp_socket_t) : Prop := state s' = state s /\ t_used s' = t_used s.

Lemma buffer_data_state data s : same_state s (buffer_data data s).
Proof. unfold buffer_data. by repeat destruct (_ =? _) || destruct (_ <=? _). Qed.

Lemma buffer_data_remote data s : remote_ip (buffer_data data s) = remote_ip s.
Proof. unfold buffer_data. by repeat destruct (_ =? _) || destruct (_ <=? _). Qed.

Lemma buffer_data_next s data : 0 <= rcv_nxt s < 2 ^ 32 ->
  rcv_nxt (buffer_data data s) = u32 (rcv_nxt s + Z.of_nat (length data)).
Proof.
  intros H. unfold buffer_data. destruct (Z.eqb_spec (Z.of_nat (length data)) 0) as [E|E].
  - rewrite E, Z.add_0_r. by rewrite u32_small.
  - by destruct (_ <=? _).
Qed.

Lemma ack_update_state flags ack s : same_state s (ack_update flags ack s).
Proof. unfold ack_update. by destruct (_ && _). Qed.

Lemma handle_data_frame i data dlen seq t t' :
  handle_data e1000_present rtl8139_present wait i data dlen seq t = Some t' -> on i same_state t t'.
Proof.
  unfold handle_data. destruct (negb _); [intros [= <-]; by apply on_same|].
  destruct (if 0 <? _ then copy _ _ else _) as [bytes|]; [|done]. cbn [mbind option_bind]. destruct (_ && _); [done|].
  apply send_after. intros s s' Hr. apply resent_fields in Hr as (Hs & _ & _ & _ & Hu & _).
  destruct (buffer_data_state bytes s). split; congruence.
Qed.

(** A new connection takes a free socket. *)
Definition opens (s s' : tcp_socket_t) : Prop := t_used s' = true /\ state s' = TCP_SYN_RCVD.

Lemma passive_open_frame dip dport sip sport seq t t' :
  passive_open e1000_present rtl8139_present wait sock_addr dip dport sip sport seq t = Some t' ->
  sockets t' = sockets t \/ exists i, (i < length (sockets t))%nat /\ t_used (tsock t i) = false /\ on i opens t t'.
Proof.
  unfold passive_open. destruct (tfind _ t) as [i|] eqn:Ef; [|intros [= <-]; by left].
  apply tfind_some in Ef as [Hi Hu]. apply negb_true_iff in Hu. intros H. right. exists i. split_and!; [done|done|].
  unfold alloc_buffers in H. set (t1 := tupd i _ t) in H. cbn [tnet] in H. destruct (kmalloc _ _) as [[r h]|]; [|done]. cbn [mbind option_bind] in H.
  destruct (kmalloc _ _) as [[w h']|]; [|done]. cbn [mbind option_bind] in H.
  apply send_after with (P := fun a b => same_state a b) in H.
  - apply (on_trans i opens same_state opens t t1 t'); [|by apply on_tupd|exact H]. intros a b c [? ?] [? ?]. split; congruence.
  - intros s s' Hr. apply resent_fields in Hr as (Hr & _ & _ & _ & Hr' & _). split; [by rewrite Hr|by rewrite Hr'].
Qed.

(** C35. The connection states follow the diagram.  Whatever segment is handled, at most one
    socket changes; a socket in use moves only along an arrow of [edge] or stays where it
    is, and the only other change is that a free socket becomes a connection in
    SYN_RCVD. *)
Theorem tcp_state_machine pkt len src_ip dst_ip t t' :
  tcp_handle_packet e1000_present rtl8139_present wait sock_addr pkt len src_ip dst_ip t = Some t' ->
  sockets t' = sockets t \/
  exists i, (i < length (sockets t))%nat /\
    (forall j, j <> i -> tsock t' j = tsock t j) /\
    (t_used (tsock t i) = true /\ moves (tsock t i) (tsock t' i) \/
     t_used (tsock t i) = false /\ opens (tsock t i) (tsock t' i)).
Proof.
  assert (Hout : forall i P, on i P t t' -> forall j, j <> i -> tsock t' j = tsock t j).
  { intros i P [Hl H] j Hne. destruct (decide (j < length (sockets t))%nat) as [Hj|Hj].
    - specialize (H j Hj). cbn beta in H. by rewrite decide_False in H.
    - unfold tsock. by rewrite !nth_overflow by lia. }
  unfold tcp_handle_packet. destruct (_ <? _); [intros [= <-]; by left|].
  destruct (get16 pkt 0) as [sp|]; [|done]. destruct (get16 pkt 2) as [dp|]; [|done].
  destruct (get32 pkt 4) as [seq|]; [|done]. destruct (get32 pkt 8) as [ack|]; [|done].
  destruct (get8 pkt 12) as [off|]; [|done]. destruct (get8 pkt 13) as [flags|]; [|done]. cbn [mbind option_bind].
  destruct (tcp_find_connection _ _ _ _ t) as [i|] eqn:Ec.
  - apply tfind_some in Ec as [Hi Hu]. repeat (apply andb_true_iff in Hu as [Hu _]).
    destruct (handle_data _ _ _ _ _ _ _ _) as [t2|] eqn:Ed; [|done]. cbn [mbind option_bind]. intros Hs.
    apply handle_data_frame in Ed. apply state_step_moves in Hs.
    assert (Hm : on i moves t t').
    { eapply (on_trans i same_state moves moves); [| |exact Hs].
      - intros a b c [E1 _] [E2|E2]; [left|right]; congruence.
      - eapply (on_trans i same_state same_state same_state); [|by apply on_tupd, ack_update_state|exact Ed].
        intros a b c [] []. split; congruence. }
    right. exists i. split_and!; [done|by eapply Hout|]. left. split; [done|]. by eapply on_at.
  - destruct (_ && _); [|intros [= <-]; by left]. intros H. apply passive_open_frame in H as [H|(i & Hi & Hu & H)]; [by left|right].
    exists i. split_and!; [done|by eapply Hout|]. right. split; [done|]. by eapply on_at.
Qed.

End Frames.

(** * A segment is delivered in order *)

Section Stream.
Variables e1000_present rtl8139_present : bool.
Variable wait : net -> net.
Variable sleep : tcp -> tcp.
Variable sock_addr : nat -> Z.
Context {live : heap -> gset Z -> Prop} `{!Allocator live}.

(** Segments to [dst] can be sent. *)
Definition link_ok (L : gset Z) (dst : Z) (n : net) : Prop :=
  card_ok e1000_present rtl8139_present n /\ live (nheap n) L /\
  exists mac, arp_cache_lookup (next_hop dst n) n = Some mac.

Lemma link_heap L L' dst n h : link_ok L dst n -> live h L' -> link_ok L' dst (set_nheap h n).
Proof. intros (Hc & _ & Ha) Hl. by split. Qed.

Lemma tcp_seg_length s flags c data : Z.of_nat (length (tcp_seg s flags c data)) = 20 + Z.of_nat (length data).
Proof. unfold tcp_seg. rewrite !length_app. cbn [le16 le32 length]. lia. Qed.

Lemma send_packet_total L i flags data t :
  link_ok L (remote_ip (tsock t i)) (tnet t) -> Z.of_nat (length data) <= TCP_MSS ->
  exists r t', tcp_send_packet e1000_present rtl8139_present wait i flags data t = Some (r, t') /\
    link_ok L (remote_ip (tsock t i)) (tnet t').
Proof.
  intros Hok Hd. unfold TCP_MSS in Hd. pose proof Hok as (Hc & Hl & mac & Ha). unfold tcp_send_packet.
  set (len := Z.of_nat (length data)) in *. change sizeof_ip_hdr with 20. change sizeof_tcp_hdr with 20.
  destruct (alloc_free (20 + (20 + len)) _ L Hl) as [Hk|(p & h & Hk & Hp & Hl' & Hfree)]; [lia|lia| |];
    rewrite Hk; cbn [mbind option_bind].
  { eexists _, _. split; [reflexivity|]. by apply (link_heap L). }
  rewrite (proj2 (Z.eqb_neq p 0)) by done. unfold tcp_checksum.
  destruct (sum_words_total 6 (tcp_pseudo (local_ip (tsock t i)) (remote_ip (tsock t i)) (20 + len)) 0) as [w ->]; [cbn; lia|].
  cbn [mbind option_bind]. set (seg0 := tcp_seg (tsock t i) flags 0 data).
  destruct (sum_bytes_total seg0 w) as [x Hx]. unfold seg0 in Hx at 2. rewrite tcp_seg_length in Hx. fold len in Hx. rewrite Hx.
  cbn [mbind option_bind]. set (seg := tcp_seg (tsock t i) flags (finish_checksum x) data).
  destruct (ip_send_spec e1000_present rtl8139_present wait (set_nheap h (tnet t)) ({[p]} ∪ L) (remote_ip (tsock t i)) IP_PROTO_TCP seg mac)
    as (r & fs & h2 & ic & He & Hl2 & _); [done|done|unfold seg; rewrite tcp_seg_length; lia|done| |].
  { unfold ip_hdr. repeat (apply Forall_app; split); try apply le16_bytes; try apply le32_bytes; repeat constructor; unfold IP_PROTO_TCP; lia. }
  unfold seg in He at 2. rewrite tcp_seg_length in He. fold len in He. cbn [tnet set_tnet]. rewrite He. cbn [mbind option_bind].
  destruct (Hfree h2 Hl2) as (h3 & Hf & Hl3).
  destruct (0 <=? r); cbn [tnet set_tnet tupd set_sockets nheap sent_more set_nheap]; rewrite Hf; cbn [mbind option_bind];
    (eexists _, _; split; [reflexivity|]); (split_and!; [exact Hc|exact Hl3|by exists mac]).
Qed.

Lemma send_flags_total L i flags t :
  link_ok L (remote_ip (tsock t i)) (tnet t) ->
  exists t', send_flags e1000_present rtl8139_present wait i flags t = Some t' /\
    link_ok L (remote_ip (tsock t i)) (tnet t') /\ on i resent t t'.
Proof.
  intros H. destruct (send_packet_total L i flags [] t H) as (r & t' & He & Hok); [done|].
  exists t'. unfold send_flags. rewrite He. split_and!; [done|done|]. by apply send_packet_frame in He as [? _].
Qed.

(** The fields of a segment, as the receiver reads them. *)
Lemma tcp_seg_fields s flags c data :
  0 <= snd_nxt s < 2 ^ 32 -> 0 <= rcv_nxt s < 2 ^ 32 -> 0 <= local_port s < 65536 -> 0 <= remote_port s < 65536 ->
  let seg := tcp_seg s flags c data in
  ntohs <$> get16 seg 0 = Some (local_port s) /\ ntohs <$> get16 seg 2 = Some (remote_port s) /\
  ntohl <$> get32 seg 4 = Some (snd_nxt s) /\ ntohl <$> get32 seg 8 = Some (rcv_nxt s) /\
  get8 seg 12 = Some 0x50 /\ get8 seg 13 = Some flags /\ drop 20 seg = data.
Proof.
  intros H1 H2 H3 H4 seg.
  destruct (ntohl_htonl _ H1) as [E1 B1], (ntohl_htonl _ H2) as [E2 B2], (ntohs_htons _ H3) as [E3 B3], (ntohs_htons _ H4) as [E4 B4].
  change (get16 seg 0) with (get16 (le16 (htons (local_port s)) ++ drop 2 seg) 0).
  change (get16 seg 2) with (get16 (le16 (htons (remote_port s)) ++ drop 4 seg) 0).
  change (get32 seg 4) with (get32 (le32 (htonl (snd_nxt s)) ++ drop 8 seg) 0).
  change (get32 seg 8) with (get32 (le32 (htonl (rcv_nxt s)) ++ drop 12 seg) 0).
  rewrite !get16_le16, !get32_le32 by done. cbn [fmap option_fmap option_map]. rewrite E1, E2, E3, E4. split_and!; reflexivity.
Qed.

Lemma handle_segment (a : tcp_socket_t) t i flags csum data :
  tcp_find_connection (remote_ip a) (remote_port a) (local_ip a) (local_port a) t = Some i ->
  0 <= snd_nxt a < 2 ^ 32 -> 0 <= rcv_nxt a < 2 ^ 32 -> 0 <= local_port a < 65536 -> 0 <= remote_port a < 65536 ->
  Z.of_nat (length data) <= TCP_MSS ->
  let seg := tcp_seg a flags csum data in
  tcp_handle_packet e1000_present rtl8139_present wait sock_addr seg (Z.of_nat (length seg)) (local_ip a) (remote_ip a) t =
    (t ← handle_data e1000_present rtl8139_present wait i data (Z.of_nat (length data)) (snd_nxt a)
           (tupd i (ack_update flags (rcv_nxt a)) t);
     state_step e1000_present rtl8139_present wait i flags (snd_nxt a) (rcv_nxt a) t).
Proof.
  intros Hf H1 H2 H3 H4 Hd seg. unfold TCP_MSS in Hd. pose proof (tcp_seg_length a flags csum data) as Hsl. fold seg in Hsl.
  destruct (tcp_seg_fields a flags csum data H1 H2 H3 H4) as (E0 & E2 & E4 & E8 & E12 & E13 & Edata). fold seg in E0, E2, E4, E8, E12, E13, Edata.
  unfold tcp_handle_packet. rewrite u64_small by lia. change sizeof_tcp_hdr with 20. rewrite (proj2 (Z.ltb_ge _ _)) by lia.
  apply fmap_Some in E0 as (sp & -> & Esp), E2 as (dp & -> & Edp), E4 as (sq & -> & Esq), E8 as (ak & -> & Eak).
  rewrite E12, E13. cbn [mbind option_bind]. rewrite <- Esp, <- Edp, <- Esq, <- Eak, Hf.
  change (Z.shiftr 80 4 * 4) with 20. change (Z.to_nat 20) with 20%nat. rewrite Edata.
  by replace (Z.of_nat (length seg) - 20) with (Z.of_nat (length data)) by lia.
Qed.

(** The bytes of [data] that fit behind the queue of [s]. *)
Definition fits (s : tcp_socket_t) (data : list Z) : list Z := take (Z.to_nat (rcv_buf_size s - rcv_buf_count s)) data.

Lemma handle_data_total L i data t :
  (i < length (sockets t))%nat -> link_ok L (remote_ip (tsock t i)) (tnet t) -> ring_ok (tsock t i) ->
  rcv_buf (tsock t i) <> 0 -> data <> [] ->
  exists t', handle_data e1000_present rtl8139_present wait i data (Z.of_nat (length data)) (rcv_nxt (tsock t i)) t = Some t' /\
    link_ok L (remote_ip (tsock t i)) (tnet t') /\
    on i (fun _ s' => resent (buffer_data (fits (tsock t i) data) (tsock t i)) s') t t'.
Proof.
  intros Hi Hl Hr Hb Hd. pose proof Hr as [Hsz Hp Hh Hc Ht Hw]. unfold handle_data, fits.
  assert (0 < Z.of_nat (length data)) by (destruct data; [done|cbn; lia]).
  rewrite (proj2 (Z.ltb_lt 0 _)), Z.eqb_refl by done. cbn [andb negb].
  set (n := Z.min _ _). assert (Hn : 0 <= n <= Z.of_nat (length data)) by lia.
  assert (Hcopy : (if 0 <? n then copy data n else Some []) = Some (take (Z.to_nat n) data)).
  { destruct (Z.ltb_spec 0 n); [by apply copy_total|]. by replace (Z.to_nat n) with 0%nat by lia. }
  rewrite Hcopy. cbn [mbind option_bind]. rewrite (proj2 (Z.eqb_neq _ 0)), andb_false_r by done.
  assert (Ht0 : take (Z.to_nat n) data = take (Z.to_nat (rcv_buf_size (tsock t i) - rcv_buf_count (tsock t i))) data).
  { destruct (Z.le_gt_cases (Z.of_nat (length data)) (rcv_buf_size (tsock t i) - rcv_buf_count (tsock t i))).
    - rewrite !take_ge by lia. done.
    - f_equal. lia. }
  rewrite Ht0. set (bytes := take _ data). set (t1 := tupd i (buffer_data bytes) t).
  assert (Hs1 : tsock t1 i = buffer_data bytes (tsock t i)) by (unfold t1; rewrite tsock_tupd, decide_True by done; done).
  assert (Hrem : remote_ip (tsock t1 i) = remote_ip (tsock t i)).
  { by rewrite Hs1, buffer_data_remote. }
  destruct (send_flags_total L i TCP_FLAG_ACK t1) as (t' & He & Hl' & Ho); [by rewrite Hrem|].
  exists t'. rewrite He. split_and!; [done|by rewrite <- Hrem|].
  apply (on_trans i (fun _ b => True) (fun a b => resent (tsock t1 i) b) (fun _ b => resent (buffer_data bytes (tsock t i)) b) t t1 t');
    [by rewrite Hs1|by apply on_tupd|].
  destruct Ho as [Hlen Ho]. split; [done|]. intros j Hj. specialize (Ho j Hj). cbn beta in *. by destruct (decide (i = j)) as [<-|].
Qed.

Lemma recv_copy_keeps n : forall len s l s', recv_copy n len s = Some (l, s') -> remote_ip s' = remote_ip s.
Proof.
  induction n as [|n IH]; intros len s l s'; cbn [recv_copy]; (destruct (negb _); [by intros [= <- <-]|]); [done|].
  destruct (recv_chunk len s) as [l1 s1] eqn:E1. destruct (recv_copy n _ s1) as [[r s2]|] eqn:E2; [|done].
  cbn [mbind option_bind]. intros [= <- <-]. apply IH in E2. rewrite E2. unfold recv_chunk in E1. by injection E1 as <- <-.
Qed.

Lemma tcp_recv_spec L fd len t :
  let i := Z.to_nat fd in
  0 <= fd < 32 -> (i < length (sockets t))%nat -> t_used (tsock t i) = true -> ring_ok (tsock t i) ->
  queue (tsock t i) <> [] -> 0 < len -> link_ok L (remote_ip (tsock t i)) (tnet t) ->
  exists t', tcp_recv e1000_present rtl8139_present wait sleep fd len t =
      Some (Z.min len (rcv_buf_count (tsock t i)), take (Z.to_nat len) (queue (tsock t i)), t') /\
    queue (tsock t' i) = drop (Z.to_nat len) (queue (tsock t i)) /\ ring_ok (tsock t' i).
Proof.
  intros i Hfd Hi Hu Hr Hq Hlen Hl. unfold tcp_recv, tcp_find_socket.
  assert (Hfd' : (fd <? 0) || (32 <=? fd) = false) by (apply orb_false_iff; split; [apply Z.ltb_ge|apply Z.leb_gt]; lia).
  rewrite Hfd'. fold i. rewrite Hu. pose proof (ro_count _ Hr).
  assert (Hc : rcv_buf_count (tsock t i) <> 0).
  { intros E. apply Hq. apply nil_length_inv. rewrite queue_length, E. done. }
  rewrite (proj2 (Z.eqb_neq _ 0)), andb_false_r by done.
  assert (Hw : recv_wait sleep 10000 i t = t).
  { assert (Hgen : forall n, recv_wait sleep n i t = t); [|apply Hgen].
    intros [|n]; cbn [recv_wait]; [done|]. by rewrite (proj2 (Z.eqb_neq _ 0)) by done. }
  rewrite Hw. rewrite (proj2 (Z.eqb_neq _ 0)) by done.
  destruct (recv_copy_ring (tsock t i) 1 len Hr) as (s' & He & Hq' & Hr'). rewrite He. cbn [mbind option_bind].
  set (t1 := tupd i (fun _ => s') t).
  assert (Hs1 : tsock t1 i = s') by (unfold t1; rewrite tsock_tupd, decide_True by done; done).
  assert (Htot : Z.of_nat (length (take (Z.to_nat len) (queue (tsock t i)))) = Z.min len (rcv_buf_count (tsock t i)))
    by (rewrite length_take, queue_length; lia).
  rewrite Htot, (proj2 (Z.ltb_lt 0 _)) by lia. apply recv_copy_keeps in He.
  destruct (send_flags_total L i TCP_FLAG_ACK t1) as (t' & Hsend & _ & Ho); [by rewrite Hs1, He|].
  rewrite Hsend. cbn [mbind option_bind]. exists t'. split; [done|].
  apply on_at in Ho; [|unfold t1; by rewrite sockets_tupd]. rewrite Hs1 in Ho.
  apply resent_fields in Ho as (_ & -> & _ & _ & _ & _ & Hring). auto.
Qed.

(** C36. The receive path is a byte stream.  A segment that a peer [a] sent on an established
    connection, in order (its sequence number is the one expected), is accepted: the
    handler returns, exactly the bytes that fit in the 64 KB ring buffer are appended to
    the queue of received bytes, wherever in the ring they wrap, and the expected sequence
    number advances by as many; after that [tcp_recv] returns the oldest bytes of the
    queue, as many as asked for, and takes exactly these away. *)
Theorem tcp_stream_fifo L (a : tcp_socket_t) t fd data csum len :
  let i := Z.to_nat fd in
  let s := tsock t i in
  0 <= fd < 32 -> tcp_find_connection (remote_ip a) (remote_port a) (local_ip a) (local_port a) t = Some i ->
  state s = TCP_ESTABLISHED -> ring_ok s -> rcv_buf s <> 0 -> link_ok L (remote_ip s) (tnet t) ->
  0 <= snd_nxt a < 2 ^ 32 -> 0 <= rcv_nxt a < 2 ^ 32 -> 0 <= local_port a < 65536 -> 0 <= remote_port a < 65536 ->
  snd_nxt a = rcv_nxt s -> 0 < Z.of_nat (length data) <= TCP_MSS -> 0 < len ->
  let seg := tcp_seg a (Z.lor TCP_FLAG_PSH TCP_FLAG_ACK) csum data in
  exists t', tcp_handle_packet e1000_present rtl8139_present wait sock_addr seg (Z.of_nat (length seg)) (local_ip a) (remote_ip a) t = Some t' /\
    let s' := tsock t' i in
    queue s' = queue s ++ fits s data /\ ring_ok s' /\ state s' = TCP_ESTABLISHED /\
    rcv_nxt s' = u32 (rcv_nxt s + Z.of_nat (length (fits s data))) /\
    exists t'', tcp_recv e1000_present rtl8139_present wait sleep fd len t' =
        Some (Z.min len (rcv_buf_count s'), take (Z.to_nat len) (queue s'), t'') /\
      queue (tsock t'' i) = drop (Z.to_nat len) (queue s') /\ ring_ok (tsock t'' i).
Proof.
  intros i s Hfd Hf Hst Hr Hb Hl Ba1 Ba2 Ba3 Ba4 Hseq Hd Hlen seg. pose proof (tfind_some _ _ _ Hf) as [Hi Hu].
  repeat (apply andb_true_iff in Hu as [Hu _]).
  set (flags := Z.lor TCP_FLAG_PSH TCP_FLAG_ACK). set (t1 := tupd i (ack_update flags (rcv_nxt a)) t).
  assert (Hs1 : exists u, tsock t1 i = set_snd_una u s).
  { unfold t1. rewrite tsock_tupd, decide_True by done. fold s. unfold ack_update. destruct (_ && _); [by eexists|].
    exists (snd_una s). by destruct s. }
  destruct Hs1 as [u Hs1]. assert (Hr1 : ring_ok (set_snd_una u s)) by (destruct Hr; by split).
  assert (Hi1 : (i < length (sockets t1))%nat) by (unfold t1; by rewrite sockets_tupd).
  destruct (handle_data_total L i data t1) as (t2 & Hh & Hl2 & Ho2);
    [done|by rewrite Hs1|by rewrite Hs1|by rewrite Hs1|intros ->; cbn in Hd; lia|].
  assert (Hl12 : length (sockets t2) = length (sockets t1)) by apply Ho2.
  apply on_at in Ho2; [|done]. rewrite Hs1 in Hh, Ho2, Hl2. cbn [rcv_nxt set_snd_una] in Hh.
  change (fits (set_snd_una u s) data) with (fits s data) in Ho2.
  pose proof (buffer_data_state (fits s data) (set_snd_una u s)) as [Hb1 Hb2].
  assert (Hfit : rcv_buf_count s + Z.of_nat (length (fits s data)) <= rcv_buf_size s).
  { unfold fits. rewrite length_take. destruct Hr. lia. }
  destruct (buffer_data_ring (set_snd_una u s) (fits s data) Hr1 Hfit) as [Hbr Hbq].
  pose proof (buffer_data_next (set_snd_una u s) (fits s data)) as Hbn. cbn [rcv_nxt set_snd_una] in Hbn.
  apply resent_fields in Ho2 as (E1 & E2 & E3 & _ & E5 & E6 & E7). specialize (E7 Hbr).
  rewrite Hb1 in E1. rewrite Hbq in E2. rewrite Hbn in E3 by lia. rewrite Hb2 in E5.
  change (queue (set_snd_una u s)) with (queue s) in E2.
  exists t2. split; [|cbv zeta; split_and!; [done|done|by rewrite E1|done|]].
  - unfold seg. rewrite (handle_segment a t i) by (done || lia). fold flags. fold t1. rewrite Hseq, Hh. cbn [mbind option_bind].
    unfold state_step. rewrite E1. cbn [state set_snd_una]. fold s. rewrite Hst. reflexivity.
  - apply (tcp_recv_spec L); [done|fold i; lia|by fold i; rewrite E5|done| |done|].
    + fold i. rewrite E2. intros E. apply app_nil in E as [Eq Ef]. apply (f_equal length) in Eq, Ef.
      rewrite queue_length in Eq. unfold fits in Ef. rewrite length_take in Ef. destruct Hr. cbn in Eq, Ef. lia.
    + fold i. rewrite E6, buffer_data_remote. exact Hl2.
Qed.

End Stream.

(** ** Witnesses and runs *)

Definition demo_addr (i : nat) : Z := 0x200000 + 256 * Z.of_nat i.

(** A machine with 1 MiB of heap and no sockets. *)
Definition host (ip peer : Z) : tcp :=
  Tcp (replicate 32 zero_tcp) 1024 0 (set_nheap (default heap0 (memory_init 4096 0x100000 heap0)) (machine ip peer)).

(** The segment of the last frame sent. *)
Definition last_seg (t : tcp) : list Z := drop 34 (default [] (last (sent (tnet t)))).

Definition deliver_seg (from to : Z) (a b : tcp) : option tcp :=
  tcp_handle_packet true true id demo_addr (last_seg a) (Z.of_nat (length (last_seg a))) from to b.

(** A client on machine 1 connects to port 80 of machine 2: the two machines after the
    handshake. *)
Definition handshake : option (tcp * tcp) :=
  '(_, s) ← tcp_socket (host 2 1);
  let s := (tcp_listen 0 (tcp_bind 0 80 s).2).2 in
  '(_, c) ← tcp_socket (host 1 2);
  '(_, c) ← tcp_connect true true id demo_addr 0 2 80 c;
  s ← deliver_seg 1 2 c s;
  c ← deliver_seg 2 1 s c;
  s ← deliver_seg 1 2 c s;
  Some (c, s).

Definition states (t : tcp) : list tcp_state := map state (filter (fun s => t_used s = true) (sockets t)).

(** The handshake establishes the connection at both ends. *)
Example handshake_establishes :
  option_map (fun x => (states x.1, states x.2)) handshake = Some ([TCP_ESTABLISHED], [TCP_LISTEN; TCP_ESTABLISHED]).
Proof. vm_compute. reflexivity. Qed.

(** [tcp_accept] looks for a connection in SYN_RCVD only: once the handshake is complete
    it finds none, waits until its timeout and fails. *)
Example accept_misses_established :
  ('(_, s) ← handshake; option_map fst (tcp_accept id 0 s)) = Some (-1).
Proof. vm_compute. reflexivity. Qed.

(** The client sends two messages and the server reads the first before the second
    arrives.  [tcp_recv] advances the expected sequence number a second time, so the
    second message is not the one expected and is dropped. *)
Example recv_loses_next_segment :
  ('(c, s) ← handshake;
   '(_, c) ← tcp_send true true id id 0 [104; 105] c;
   s ← deliver_seg 1 2 c s;
   let before := rcv_nxt (tsock s 1) in
   '(n, bytes, s) ← tcp_recv true true id id 1 100 s;
   let after := rcv_nxt (tsock s 1) in
   '(_, c) ← tcp_send true true id id 0 [33; 33] c;
   s ← deliver_seg 1 2 c s;
   Some (n, bytes, after - before, queue (tsock s 1))) = Some (2, [104; 105], 2, []).
Proof. vm_compute. reflexivity. Qed.

(** A retransmitted SYN takes a new sequence number and resets the count of retries, so
    the limit of [TCP_RETRIES] is never reached while frames can be sent. *)
Example syn_retransmission_not_counted :
  ('(_, c) ← tcp_socket (host 1 2);
   '(_, c) ← tcp_connect true true id demo_addr 0 2 80 c;
   c' ← tcp_timer true true id (set_tcp_ticks 600 c);
   Some (take 8 (last_seg c), take 8 (last_seg c'), retries (tsock c' 0))) =
  Some ([4; 0; 0; 80; 0; 0x20; 0; 0], [4; 0; 0; 80; 0; 0x20; 0; 1], 0).
Proof. vm_compute. reflexivity. Qed.

(** A reset is ignored. *)
Example rst_ignored :
  ('(c, s) ← handshake;
   let rst := tcp_seg (tsock c 0) TCP_FLAG_RST 0 [] in
   s ← tcp_handle_packet true true id demo_addr rst 20 1 2 s;
   Some (state (tsock s 1))) = Some TCP_ESTABLISHED.
Proof. vm_compute. reflexivity. Qed.

(** A FIN that carries data: the bytes are queued, but the acknowledgement that goes out
    last covers only one of them. *)
Example fin_with_data_acks_one :
  ('(c, s) ← handshake;
   let seg := tcp_seg (tsock c 0) (Z.lor TCP_FLAG_FIN TCP_FLAG_ACK) 0 [1; 2; 3; 4] in
   s' ← tcp_handle_packet true true id demo_addr seg 24 1 2 s;
   Some (state (tsock s' 1), queue (tsock s' 1), rcv_nxt (tsock s' 1) - rcv_nxt (tsock s 1))) =
  Some (TCP_CLOSE_WAIT, [1; 2; 3; 4], 1).
Proof. vm_compute. reflexivity. Qed.

(** The peer of [ring_host]: its next byte has number 7. *)
Definition ring_peer : tcp_socket_t :=
  set_snd_nxt 7 (set_remote_port 80 (set_remote_ip 2 (set_local_port 1024 (set_local_ip 1 zero_tcp)))).

(** A connection with a receive buffer of eight bytes whose queue [5; 6; 7] starts at the
    sixth. *)
Definition ring_sock : tcp_socket_t :=
  TcpSocket true 0 2 80 1 1024 0 0 7 TCP_WINDOW TCP_ESTABLISHED 0 0 4120 [0; 0; 0; 0; 0; 5; 6; 7] 8 5 8 3 0 0.

Definition ring_host : tcp := Tcp (ring_sock :: replicate 31 zero_tcp) 1024 0 (machine 2 1).

Lemma ring_host_ok : ring_ok (tsock ring_host 0).
Proof. split; (reflexivity || (cbn; lia)). Qed.

Lemma ring_host_link : link_ok (live := heap_live) true true ∅ 1 (tnet ring_host).
Proof. split_and!; [by split|apply demo_heap_live|by exists demo_mac]. Qed.

Lemma tcp_stream_fifo_witness :
  exists t', tcp_handle_packet true true id demo_addr (tcp_seg ring_peer 0x18 0 [8; 9]) 22 1 2 ring_host = Some t' /\
    queue (tsock t' 0) = [5; 6; 7; 8; 9] /\
    exists t'', tcp_recv true true id id 0 4 t' = Some (Z.min 4 (rcv_buf_count (tsock t' 0)), [5; 6; 7; 8], t'') /\
      queue (tsock t'' 0) = [9].
Proof.
  destruct (tcp_stream_fifo true true id id demo_addr (live := heap_live) ∅ ring_peer ring_host 0 [8; 9] 0 4)
    as (t' & Hh & Hq & _ & _ & _ & t'' & Hrecv & Hq' & _);
    [lia|reflexivity|reflexivity|apply ring_host_ok|discriminate|apply ring_host_link|cbn; lia|cbn; lia|cbn; lia|cbn; lia
    |reflexivity|cbn; unfold TCP_MSS; lia|lia|].
  change (Z.to_nat 0) with 0%nat in *.
  assert (E : queue (tsock ring_host 0) ++ fits (tsock ring_host 0) [8; 9] = [5; 6; 7; 8; 9]) by (vm_compute; reflexivity).
  rewrite E in Hq. rewrite Hq in Hrecv, Hq'.
  exists t'. split_and!; [exact Hh|exact Hq|]. exists t''. split_and!; [exact Hrecv|exact Hq'].
Defined.

Lemma tcp_state_machine_witness :
  exists t', tcp_handle_packet true true id demo_addr (tcp_seg ring_peer 0x11 0 []) 20 1 2 ring_host = Some t' /\
    (sockets t' = sockets ring_host \/ exists i, forall j, j <> i -> tsock t' j = tsock ring_host j).
Proof.
  destruct (tcp_handle_packet true true id demo_addr (tcp_seg ring_peer 0x11 0 []) 20 1 2 ring_host) as [t'|] eqn:E.
  - exists t'. split; [reflexivity|].
    destruct (tcp_state_machine true true id demo_addr _ _ _ _ _ _ E) as [H|(i & _ & H & _)]; [by left|right]. exists i. exact H.
  - exfalso. vm_compute in E. discriminate E.
Defined.
