(* ===== verification/Ufs.v ===== *)
(** * The UFS file system: kernel/fs/ufs.c

    Blocks are lists of 4096 bytes on a block device; superblock, inodes and directory
    entries are read and written as the bytes of the packed structures.  The device behind
    [dev_node] is reached through [vfs_read] and [vfs_write] of whole blocks: it is the
    interface [BlockDevice], [None] where the node is null.  A mounted file system is a
    [ufs_mount_t] with its two buffers, because the code leaves bytes in them from one
    call to the next.  Names are the bytes before the terminating zero; [ticks] is the
    value of [get_ticks]. *)

From S2P Require Import Prelude Bytes KMalloc Vfs.

(** ** Block devices *)

(** A read or a write of the whole block [b]: no bytes, or [false], when it fails. *)
Class BlockDevice (D : Type) := {
  dev_read : D -> Z -> option (list Z);
  dev_write : D -> Z -> list Z -> bool * D }.

Definition UFS_BLOCK_SIZE : Z := 4096.
Definition UFS_MAGIC : Z := 0x55544D53.
Definition UFS_VERSION : Z := 2.
Definition UFS_INODE_FILE : Z := 0x8000.
Definition UFS_INODE_DIR : Z := 0x4000.
Definition UFS_INODE_SYMLINK : Z := 0xA000.
Definition EIO : Z := 5.
Definition EEXIST : Z := 17.
Definition EINVAL : Z := 22.
Definition ENOSPC : Z := 28.
Definition ENOTEMPTY : Z := 39.

(** What a block device of a number of blocks does: blocks have 4096 bytes, reads see the
    last write, and a write changes no other block, nor what [dev_rest] says of the
    medium around the device. *)
Class BlockDeviceLaws (D : Type) `{BlockDevice D} := {
  dev_size : D -> Z;
  dev_rest : relation D;
  dev_rest_preorder : PreOrder dev_rest;
  dev_read_ok d b : 0 <= b < dev_size d -> exists l, dev_read d b = Some l /\ length l = 4096%nat /\ byte_list l;
  dev_write_ok d b l : 0 <= b < dev_size d -> length l = 4096%nat -> byte_list l ->
    exists d', dev_write d b l = (true, d') /\ dev_size d' = dev_size d /\ dev_rest d d' /\ dev_read d' b = Some l /\
      forall b', 0 <= b' < dev_size d -> b' <> b -> dev_read d' b' = dev_read d b' }.
#[export] Existing Instance dev_rest_preorder.

(** ** Structures on the disk *)

(** The integer at a place inside a block. *)
Definition w16 (l : list Z) (i : Z) : Z := default 0 (get16 l i).
Definition w32 (l : list Z) (i : Z) : Z := default 0 (get32 l i).

(** The bytes of [n] words and back. *)
Definition words_bytes (ws : list Z) : list Z := concat (map le32 ws).
Definition bytes_words (n : nat) (l : list Z) : list Z := (fun k => w32 l (4 * Z.of_nat k)) <$> seq 0 n.

Record extent_t := Extent { x_start : Z; x_len : Z }.

Record ufs_superblock_t := Superblock {
  s_magic : Z;
  s_version : Z;
  total_blocks : Z;
  free_blocks : Z;
  inode_count : Z;
  free_inodes : Z;
  bitmap_start : Z;
  inode_table_start : Z;
  data_start : Z;
  root_inode : Z;
  s_pad : list Z;
  s_checksum : Z }.

Definition set_free_blocks (v : Z) (r : ufs_superblock_t) : ufs_superblock_t :=
    Superblock (s_magic r) (s_version r) (total_blocks r) v (inode_count r) (free_inodes r)
    (bitmap_start r) (inode_table_start r) (data_start r) (root_inode r) (s_pad r) (s_checksum
    r).
Definition set_free_inodes (v : Z) (r : ufs_superblock_t) : ufs_superblock_t :=
    Superblock (s_magic r) (s_version r) (total_blocks r) (free_blocks r) (inode_count r) v
    (bitmap_start r) (inode_table_start r) (data_start r) (root_inode r) (s_pad r) (s_checksum
    r).
Definition set_s_checksum (v : Z) (r : ufs_superblock_t) : ufs_superblock_t :=
    Superblock (s_magic r) (s_version r) (total_blocks r) (free_blocks r) (inode_count r)
    (free_inodes r) (bitmap_start r) (inode_table_start r) (data_start r) (root_inode r) (s_pad
    r) v.

Definition sizeof_superblock : Z := 260.

Definition sb_words (s : ufs_superblock_t) : list Z :=
  [s_magic s; s_version s; total_blocks s; free_blocks s; inode_count s; free_inodes s; bitmap_start s; inode_table_start s;
   data_start s; root_inode s] ++ s_pad s ++ [s_checksum s].

Definition sb_bytes (s : ufs_superblock_t) : list Z := words_bytes (sb_words s).

Definition sb_of (l : list Z) : ufs_superblock_t :=
  let w k := w32 l (4 * k) in
  Superblock (w 0) (w 1) (w 2) (w 3) (w 4) (w 5) (w 6) (w 7) (w 8) (w 9) (bytes_words 54 (drop 40 l)) (w 64).

Record ufs_inode_t := Inode {
  i_mode : Z;
  i_uid : Z;
  i_gid : Z;
  i_nlink : Z;
  i_size : Z;
  i_blocks : Z;
  i_atime : Z;
  i_mtime : Z;
  i_ctime : Z;
  i_extents : list extent_t;
  i_pad : list Z;
  i_checksum : Z }.

Definition set_i_mode (v : Z) (r : ufs_inode_t) : ufs_inode_t :=
    Inode v (i_uid r) (i_gid r) (i_nlink r) (i_size r) (i_blocks r) (i_atime r) (i_mtime r)
    (i_ctime r) (i_extents r) (i_pad r) (i_checksum r).
Definition set_i_nlink (v : Z) (r : ufs_inode_t) : ufs_inode_t :=
    Inode (i_mode r) (i_uid r) (i_gid r) v (i_size r) (i_blocks r) (i_atime r) (i_mtime r)
    (i_ctime r) (i_extents r) (i_pad r) (i_checksum r).
Definition set_i_size (v : Z) (r : ufs_inode_t) : ufs_inode_t :=
    Inode (i_mode r) (i_uid r) (i_gid r) (i_nlink r) v (i_blocks r) (i_atime r) (i_mtime r)
    (i_ctime r) (i_extents r) (i_pad r) (i_checksum r).
Definition set_i_blocks (v : Z) (r : ufs_inode_t) : ufs_inode_t :=
    Inode (i_mode r) (i_uid r) (i_gid r) (i_nlink r) (i_size r) v (i_atime r) (i_mtime r)
    (i_ctime r) (i_extents r) (i_pad r) (i_checksum r).
Definition set_i_atime (v : Z) (r : ufs_inode_t) : ufs_inode_t :=
    Inode (i_mode r) (i_uid r) (i_gid r) (i_nlink r) (i_size r) (i_blocks r) v (i_mtime r)
    (i_ctime r) (i_extents r) (i_pad r) (i_checksum r).
Definition set_i_mtime (v : Z) (r : ufs_inode_t) : ufs_inode_t :=
    Inode (i_mode r) (i_uid r) (i_gid r) (i_nlink r) (i_size r) (i_blocks r) (i_atime r) v
    (i_ctime r) (i_extents r) (i_pad r) (i_checksum r).
Definition set_i_ctime (v : Z) (r : ufs_inode_t) : ufs_inode_t :=
    Inode (i_mode r) (i_uid r) (i_gid r) (i_nlink r) (i_size r) (i_blocks r) (i_atime r)
    (i_mtime r) v (i_extents r) (i_pad r) (i_checksum r).
Definition set_i_extents (v : list extent_t) (r : ufs_inode_t) : ufs_inode_t :=
    Inode (i_mode r) (i_uid r) (i_gid r) (i_nlink r) (i_size r) (i_blocks r) (i_atime r)
    (i_mtime r) (i_ctime r) v (i_pad r) (i_checksum r).

Definition sizeof_inode : Z := 136.
Definition sizeof_dirent : Z := 64.
Definition inodes_per_block : Z := 30.

Definition zero_inode : ufs_inode_t := Inode 0 0 0 0 0 0 0 0 0 (replicate 8 (Extent 0 0)) (replicate 10 0) 0.

Definition extent_words (x : extent_t) : list Z := [x_start x; x_len x].

Definition inode_bytes (i : ufs_inode_t) : list Z :=
  le16 (i_mode i) ++ le16 (i_uid i) ++ le16 (i_gid i) ++ le16 (i_nlink i)
    ++ words_bytes ([i_size i; i_blocks i; i_atime i; i_mtime i; i_ctime i] ++ concat (map extent_words (i_extents i))
                      ++ i_pad i ++ [i_checksum i]).

Definition inode_of (l : list Z) : ufs_inode_t :=
  let w k := w32 l (8 + 4 * k) in
  Inode (w16 l 0) (w16 l 2) (w16 l 4) (w16 l 6) (w 0) (w 1) (w 2) (w 3) (w 4)
    ((fun k => Extent (w (5 + 2 * Z.of_nat k)) (w (6 + 2 * Z.of_nat k))) <$> seq 0 8) (bytes_words 10 (drop 92 l)) (w 31).

(** The exclusive or of the words, with the checksum taken as 0. *)
Definition xor_words (ws : list Z) : Z := foldl Z.lxor 0 ws.
Definition ufs_calc_sb_checksum (s : ufs_superblock_t) : Z := xor_words (sb_words (set_s_checksum 0 s)).
Definition ufs_calc_inode_checksum (i : ufs_inode_t) : Z :=
  xor_words (bytes_words 34 (take 132 (inode_bytes i) ++ le32 0)).

(** ** Directory entries: entry [j] of a block *)

Fixpoint c_name (l : list Z) : list Z :=
  match l with [] => [] | c :: l => if c =? 0 then [] else c :: c_name l end.

Definition ents_per_block : nat := 64.
Definition ent_pos (j : nat) : Z := 64 * Z.of_nat j.
Definition ent_inode (l : list Z) (j : nat) : Z := w32 l (ent_pos j).
Definition ent_name_len (l : list Z) (j : nat) : Z := default 0 (get8 l (ent_pos j + 5)).
Definition ent_name (l : list Z) (j : nat) : str := c_name (drop (Z.to_nat (ent_pos j + 8)) l).

(** [strncpy(ents[j].name, name, 55)] and the terminating zero. *)
Definition name_field (name : str) : list Z :=
  let n := take 55 name in n ++ replicate (56 - length n) 0.

Definition put_ent (j : nat) (ino type : Z) (name : str) (l : list Z) : list Z :=
  store (ent_pos j + 8) (name_field name)
    (store (ent_pos j) (le32 ino ++ [type; Z.of_nat (length (take 55 name))]) l).

Definition clear_ent (j : nat) (l : list Z) : list Z := store (ent_pos j + 8) [0] (store (ent_pos j) (le32 0) l).

(** The first entry of a block that satisfies [f]. *)
Definition first_ent (f : nat -> bool) : option nat := find f (seq 0 ents_per_block).

Definition is_named (name : str) (l : list Z) (j : nat) : bool := nz (ent_inode l j) && str_eqb (ent_name l j) name.

Definition zero_block : list Z := replicate 4096 0.

(** The block of a new directory: its [.] and [..]. *)
Definition dot_ents (ino parent : Z) : list Z :=
  store 64 (le32 parent ++ [2; 2; 0; 0; 46; 46; 0]) (store 0 (le32 ino ++ [2; 1; 0; 0; 46; 0]) zero_block).

(** ** Extents *)

Fixpoint get_extent (xs : list extent_t) (idx : Z) : Z :=
  match xs with
  | [] => 0
  | x :: xs =>
      if x_len x =? 0 then 0 else
      if idx <? x_len x then u32 (x_start x + idx) else get_extent xs (idx - x_len x)
  end.

Definition ufs_get_block (i : ufs_inode_t) (idx : Z) : Z := get_extent (i_extents i) idx.

Fixpoint append_extent (xs : list extent_t) (b : Z) : option (list extent_t) :=
  match xs with
  | [] => None
  | x :: xs =>
      if x_len x =? 0 then Some (Extent b 1 :: xs) else
      if u32 (x_start x + x_len x) =? b then Some (Extent (x_start x) (u32 (x_len x + 1)) :: xs)
      else xs' ← append_extent xs b; Some (x :: xs')
  end.

Definition ufs_append_block (i : ufs_inode_t) (b : Z) : option ufs_inode_t :=
  xs ← append_extent (i_extents i) b; Some (set_i_extents xs i).

(** ** A mounted file system

    [part_start] and [current_disk] are never read. *)

Section Ufs.
Context {D : Type} `{BlockDevice D}.

Record ufs_mount_t := Mount {
  sb : ufs_superblock_t;
  mounted : bool;
  dev : option D;
  next_free_block : Z;
  next_free_inode : Z;
  blk_buf : list Z;
  inode_buf : list Z }.

Definition set_sb (v : ufs_superblock_t) (r : ufs_mount_t) : ufs_mount_t :=
    Mount v (mounted r) (dev r) (next_free_block r) (next_free_inode r) (blk_buf r) (inode_buf
    r).
Definition set_mounted (v : bool) (r : ufs_mount_t) : ufs_mount_t :=
    Mount (sb r) v (dev r) (next_free_block r) (next_free_inode r) (blk_buf r) (inode_buf r).
Definition set_dev (v : option D) (r : ufs_mount_t) : ufs_mount_t :=
    Mount (sb r) (mounted r) v (next_free_block r) (next_free_inode r) (blk_buf r) (inode_buf
    r).
Definition set_next_free_block (v : Z) (r : ufs_mount_t) : ufs_mount_t :=
    Mount (sb r) (mounted r) (dev r) v (next_free_inode r) (blk_buf r) (inode_buf r).
Definition set_next_free_inode (v : Z) (r : ufs_mount_t) : ufs_mount_t :=
    Mount (sb r) (mounted r) (dev r) (next_free_block r) v (blk_buf r) (inode_buf r).
Definition set_blk_buf (v : list Z) (r : ufs_mount_t) : ufs_mount_t :=
    Mount (sb r) (mounted r) (dev r) (next_free_block r) (next_free_inode r) v (inode_buf r).
Definition set_inode_buf (v : list Z) (r : ufs_mount_t) : ufs_mount_t :=
    Mount (sb r) (mounted r) (dev r) (next_free_block r) (next_free_inode r) (blk_buf r) v.

Definition ufs_read_block (b : Z) (m : ufs_mount_t) : option (list Z) :=
  if total_blocks (sb m) <=? b then None else d ← dev m; dev_read d b.

Definition ufs_write_block (b : Z) (buf : list Z) (m : ufs_mount_t) : Z * ufs_mount_t :=
  if total_blocks (sb m) <=? b then (- EINVAL, m) else
  match dev m with
  | None => (- EIO, m)
  | Some d => let '(ok, d) := dev_write d b buf in (if ok then 0 else - EIO, set_dev (Some d) m)
  end.

Definition ufs_write_superblock (m : ufs_mount_t) : Z * ufs_mount_t :=
  let s := set_s_checksum (ufs_calc_sb_checksum (sb m)) (sb m) in
  let m := set_blk_buf (store 0 (sb_bytes s) (blk_buf m)) (set_sb s m) in
  ufs_write_block 0 (blk_buf m) m.

(** ** Inodes *)

Definition inode_block (ino : Z) (m : ufs_mount_t) : Z := u32 (inode_table_start (sb m) + (ino - 1) / inodes_per_block).
Definition inode_off (ino : Z) : Z := (ino - 1) mod inodes_per_block * sizeof_inode.

Definition bad_inode (ino : Z) (m : ufs_mount_t) : bool := (ino =? 0) || (inode_count (sb m) <? ino).

Definition ufs_read_inode (ino : Z) (m : ufs_mount_t) : option ufs_inode_t * ufs_mount_t :=
  if bad_inode ino m then (None, m) else
  match ufs_read_block (inode_block ino m) m with
  | None => (None, m)
  | Some l => (Some (inode_of (drop (Z.to_nat (inode_off ino)) l)), set_inode_buf l m)
  end.

Definition ufs_write_inode (ino : Z) (i : ufs_inode_t) (m : ufs_mount_t) : Z * ufs_mount_t :=
  if bad_inode ino m then (-1, m) else
  match ufs_read_block (inode_block ino m) m with
  | None => (-1, m)
  | Some l =>
      let m := set_inode_buf (store (inode_off ino) (inode_bytes i) l) m in
      ufs_write_block (inode_block ino m) (inode_buf m) m
  end.

(** ** The bitmap and the allocation of blocks *)

Definition map_block (b : Z) (m : ufs_mount_t) : Z := u32 (bitmap_start (sb m) + b / 32768).
Definition map_byte (b : Z) : Z := b mod 32768 / 8.

Definition ufs_bitmap_get (b : Z) (m : ufs_mount_t) : Z * ufs_mount_t :=
  if total_blocks (sb m) <=? b then (-1, m) else
  match ufs_read_block (map_block b m) m with
  | None => (-1, m)
  | Some l => (Z.land (Z.shiftr (default 0 (get8 l (map_byte b))) (b mod 8)) 1, set_blk_buf l m)
  end.

Definition ufs_bitmap_set (b : Z) (val : bool) (m : ufs_mount_t) : Z * ufs_mount_t :=
  if total_blocks (sb m) <=? b then (-1, m) else
  match ufs_read_block (map_block b m) m with
  | None => (-1, m)
  | Some l =>
      let old := default 0 (get8 l (map_byte b)) in
      let bit := Z.shiftl 1 (b mod 8) in
      let new := u8 (if val then Z.lor old bit else Z.land old (Z.lnot bit)) in
      let m := set_blk_buf (store (map_byte b) [new] l) m in
      ufs_write_block (map_block b m) (blk_buf m) m
  end.

(** The block [b] was found free. *)
Definition take_block (b : Z) (m : ufs_mount_t) : ufs_mount_t :=
  let m := (ufs_bitmap_set b true m).2 in
  let m := set_sb (set_free_blocks (u32 (free_blocks (sb m) - 1)) (sb m)) m in
  let m := set_blk_buf zero_block (set_next_free_block (u32 (b + 1)) m) in
  let m := (ufs_write_block b (blk_buf m) m).2 in
  (ufs_write_superblock m).2.

Fixpoint alloc_scan (n : nat) (start i : Z) (m : ufs_mount_t) : Z * ufs_mount_t :=
  match n with
  | O => (0, m)
  | S n =>
      let b := u32 (start + i) in
      let b := if total_blocks (sb m) <=? b then u32 (data_start (sb m) + (b - total_blocks (sb m))) else b in
      if b <? data_start (sb m) then alloc_scan n start (i + 1) m else
      let '(r, m) := ufs_bitmap_get b m in
      if r =? 0 then (b, take_block b m) else alloc_scan n start (i + 1) m
  end.

Definition ufs_alloc_block (m : ufs_mount_t) : Z * ufs_mount_t :=
  let start := next_free_block m in
  let start := if start <? data_start (sb m) then data_start (sb m) else start in
  alloc_scan (Z.to_nat (total_blocks (sb m))) start 0 m.

Definition ufs_free_block (b : Z) (m : ufs_mount_t) : ufs_mount_t :=
  if (b =? 0) || (total_blocks (sb m) <=? b) then m else
  let m := (ufs_bitmap_set b false m).2 in
  let m := set_sb (set_free_blocks (u32 (free_blocks (sb m) + 1)) (sb m)) m in
  let m := if b <? next_free_block m then set_next_free_block b m else m in
  (ufs_write_superblock m).2.

Fixpoint alloc_inode_scan (n : nat) (start k : Z) (m : ufs_mount_t) : Z * ufs_mount_t :=
  match n with
  | O => (0, m)
  | S n =>
      let ino := u32 (start + k) in
      let ino := if inode_count (sb m) <? ino then u32 (1 + (ino - inode_count (sb m) - 1)) else ino in
      if bad_inode ino m then alloc_inode_scan n start (k + 1) m else
      let blk := inode_block ino m in
      match ufs_read_block blk m with
      | None => alloc_inode_scan n start (k + 1) m
      | Some l =>
          let m := set_blk_buf l m in
          if i_mode (inode_of (drop (Z.to_nat (inode_off ino)) l)) =? 0 then
            let m := set_blk_buf (store (inode_off ino) (inode_bytes zero_inode) l) m in
            let m := (ufs_write_block blk (blk_buf m) m).2 in
            let m := set_sb (set_free_inodes (u32 (free_inodes (sb m) - 1)) (sb m)) m in
            let m := set_next_free_inode (u32 (ino + 1)) m in
            (ino, (ufs_write_superblock m).2)
          else alloc_inode_scan n start (k + 1) m
      end
  end.

Definition ufs_alloc_inode (m : ufs_mount_t) : Z * ufs_mount_t :=
  let start := next_free_inode m in
  let start := if start <? 1 then 1 else start in
  let start := if inode_count (sb m) <? start then 1 else start in
  alloc_inode_scan (Z.to_nat (inode_count (sb m))) start 0 m.

Definition ufs_free_inode (ino : Z) (m : ufs_mount_t) : ufs_mount_t :=
  if bad_inode ino m then m else
  let '(r, m) := ufs_read_inode ino m in
  match r with
  | None => m
  | Some _ =>
      let m := (ufs_write_inode ino zero_inode m).2 in
      let m := set_sb (set_free_inodes (u32 (free_inodes (sb m) + 1)) (sb m)) m in
      let m := if ino <? next_free_inode m then set_next_free_inode ino m else m in
      (ufs_write_superblock m).2
  end.

(** [ufs_free_block] of the [n] blocks from [b] on. *)
Fixpoint free_run (n : nat) (b : Z) (m : ufs_mount_t) : ufs_mount_t :=
  match n with O => m | S n => free_run n (u32 (b + 1)) (ufs_free_block b m) end.

Definition ufs_free_inode_blocks (ino : Z) (m : ufs_mount_t) : ufs_mount_t :=
  let '(r, m) := ufs_read_inode ino m in
  match r with
  | None => m
  | Some i => foldl (fun m x => free_run (Z.to_nat (x_len x)) (x_start x) m) m (i_extents i)
  end.

(** ** Directories *)

Definition dir_blocks (i : ufs_inode_t) : Z := u32 (i_size i + UFS_BLOCK_SIZE - 1) / UFS_BLOCK_SIZE.

(** The loop over the blocks of a directory, into [blk_buf], until [visit] finds something
    in one: the block and what was found. *)
Fixpoint dir_scan {A : Type} (n : nat) (k : Z) (dir : ufs_inode_t) (visit : list Z -> option A) (m : ufs_mount_t)
    : option (Z * A) * ufs_mount_t :=
  match n with
  | O => (None, m)
  | S n =>
      let b := ufs_get_block dir k in
      if b =? 0 then dir_scan n (k + 1) dir visit m else
      match ufs_read_block b m with
      | None => dir_scan n (k + 1) dir visit m
      | Some l =>
          match visit l with
          | Some a => (Some (b, a), set_blk_buf l m)
          | None => dir_scan n (k + 1) dir visit (set_blk_buf l m)
          end
      end
  end.

Definition scan_dir {A : Type} (dir : ufs_inode_t) (visit : list Z -> option A) (m : ufs_mount_t) :=
  dir_scan (Z.to_nat (dir_blocks dir)) 0 dir visit m.

(** The inode of the entry, [None] for -1. *)
Definition ufs_find_in_dir (dir_ino : Z) (name : str) (m : ufs_mount_t) : option Z * ufs_mount_t :=
  let '(r, m) := ufs_read_inode dir_ino m in
  match r with
  | None => (None, m)
  | Some dir =>
      let '(r, m) := scan_dir dir (fun l => j ← first_ent (is_named name l); Some (ent_inode l j)) m in
      (snd <$> r, m)
  end.

Definition ufs_add_to_dir (dir_ino ino : Z) (name : str) (type : Z) (m : ufs_mount_t) : Z * ufs_mount_t :=
  let '(r, m) := ufs_read_inode dir_ino m in
  match r with
  | None => (-1, m)
  | Some dir =>
      let '(r, m) := scan_dir dir (fun l => first_ent (fun j => ent_inode l j =? 0)) m in
      match r with
      | Some (b, j) =>
          let m := set_blk_buf (put_ent j ino type name (blk_buf m)) m in
          let m := (ufs_write_block b (blk_buf m) m).2 in
          let dir := set_i_size (u32 (i_size dir + sizeof_dirent)) dir in
          (0, (ufs_write_inode dir_ino dir m).2)
      | None =>
          let '(nb, m) := ufs_alloc_block m in
          if nb =? 0 then (-1, m) else
          let m := set_blk_buf (put_ent 0 ino type name zero_block) m in
          let '(res, m) := ufs_write_block nb (blk_buf m) m in
          match (if res =? 0 then ufs_append_block dir nb else None) with
          | None => (-1, ufs_free_block nb m)
          | Some dir =>
              let dir := set_i_size (u32 (i_size dir + sizeof_dirent)) dir in
              let dir := set_i_blocks (u32 (i_size dir + 511) / 512) dir in
              (0, (ufs_write_inode dir_ino dir m).2)
          end
      end
  end.

Definition ufs_remove_from_dir (dir_ino : Z) (name : str) (m : ufs_mount_t) : Z * ufs_mount_t :=
  let '(r, m) := ufs_read_inode dir_ino m in
  match r with
  | None => (-1, m)
  | Some dir =>
      let '(r, m) := scan_dir dir (fun l => first_ent (is_named name l)) m in
      match r with
      | None => (-1, m)
      | Some (b, j) =>
          let m := set_blk_buf (clear_ent j (blk_buf m)) m in
          let m := (ufs_write_block b (blk_buf m) m).2 in
          let dir := set_i_size (u32 (i_size dir - sizeof_dirent)) dir in
          (0, (ufs_write_inode dir_ino dir m).2)
      end
  end.

(** ** The operations of the file system

    [dir] and [node] are the [vfs_node_t] of the call, [m] the mount at their [private]
    pointer. *)

Definition unusable (n : vnode) (m : ufs_mount_t) : bool := (n_private n =? 0) || negb (mounted m).
Definition node_ino (n : vnode) : Z := u32 (n_fs_data n).
Definition is_dir_mode (mode : Z) : bool := nz (Z.land mode UFS_INODE_DIR).

Definition ufs_name : str := [117; 102; 115].

Definition ufs_register (s : vstate) : Z * vstate := vfs_register_fs (Some ufs_name) s.

(** The address of the new node, 0 for the result -1. *)
Definition ufs_vfs_lookup (d : Z) (name : str) (m : ufs_mount_t) (s : vstate) : option (Z * ufs_mount_t * vstate) :=
  dir ← node s d;
  if unusable dir m then Some (0, m, s) else
  let dir_ino := if n_type dir =? VFS_DIR then node_ino dir else root_inode (sb m) in
  let '(r, m) := ufs_find_in_dir dir_ino name m in
  match r with
  | None => Some (0, m, s)
  | Some ino =>
      let '(r, m) := ufs_read_inode ino m in
      match r with
      | None => Some (0, m, s)
      | Some i =>
          '(n, s) ← vfs_create_node name (if is_dir_mode (i_mode i) then VFS_DIR else VFS_FILE) s;
          if n =? 0 then Some (0, m, s) else
          s ← update n (fun k => set_n_parent d (set_n_fs (Some ufs_name) (set_n_fs_data ino (set_n_private (n_private dir)
                                   (set_n_size (i_size i) (set_n_mode (i_mode i) k)))))) s;
          Some (n, m, s)
      end
  end.

(** A new inode: mode, links and times. *)
Definition new_inode (mode nlink ticks : Z) : ufs_inode_t :=
  set_i_ctime ticks (set_i_mtime ticks (set_i_atime ticks (set_i_nlink nlink (set_i_mode (u16 mode) zero_inode)))).

Definition ufs_vfs_create (dir : vnode) (name : str) (mode ticks : Z) (m : ufs_mount_t) : Z * ufs_mount_t :=
  if unusable dir m then (- EINVAL, m) else
  let '(r, m) := ufs_find_in_dir (node_ino dir) name m in
  if (if r then true else false) then (- EEXIST, m) else
  let '(ino, m) := ufs_alloc_inode m in
  if ino =? 0 then (- ENOSPC, m) else
  let '(res, m) := ufs_write_inode ino (new_inode (Z.lor UFS_INODE_FILE (Z.land mode 511)) 1 ticks) m in
  if nz res then (res, ufs_free_inode ino m) else ufs_add_to_dir (node_ino dir) ino name 1 m.

Definition ufs_vfs_mkdir (dir : vnode) (name : str) (mode ticks : Z) (m : ufs_mount_t) : Z * ufs_mount_t :=
  if unusable dir m then (-1, m) else
  let '(r, m) := ufs_find_in_dir (node_ino dir) name m in
  if (if r then true else false) then (-1, m) else
  let '(ino, m) := ufs_alloc_inode m in
  if ino =? 0 then (-1, m) else
  let i := new_inode (Z.lor UFS_INODE_DIR (Z.land mode 511)) 2 ticks in
  let '(b, m) := ufs_alloc_block m in
  if b =? 0 then (-1, ufs_free_inode ino m) else
  let i := default i (ufs_append_block i b) in
  let i := set_i_size (2 * sizeof_dirent) i in
  let i := set_i_blocks ((i_size i + 511) / 512) i in
  let m := set_blk_buf (dot_ents ino (node_ino dir)) m in
  let m := (ufs_write_block b (blk_buf m) m).2 in
  let m := (ufs_write_inode ino i m).2 in
  ufs_add_to_dir (node_ino dir) ino name 2 m.

Definition ufs_vfs_unlink (dir : vnode) (name : str) (m : ufs_mount_t) : Z * ufs_mount_t :=
  if unusable dir m then (-1, m) else
  let '(r, m) := ufs_find_in_dir (node_ino dir) name m in
  match r with
  | None => (-1, m)
  | Some ino =>
      let '(r, m) := ufs_read_inode ino m in
      match r with
      | None => (-1, m)
      | Some i =>
          let '(full, m) :=
            if is_dir_mode (i_mode i) && (2 * sizeof_dirent <? i_size i) then
              let '(r, m) := scan_dir i (fun l => first_ent (fun j => nz (ent_inode l j))) m in (if r then true else false, m)
            else (false, m) in
          if full then (- ENOTEMPTY, m) else
          ufs_remove_from_dir (node_ino dir) name (ufs_free_inode ino (ufs_free_inode_blocks ino m))
      end
  end.

(** The copy loop of a read of [todo] bytes. *)
Fixpoint read_loop (fuel : nat) (i : ufs_inode_t) (blk off todo : Z) (m : ufs_mount_t) : option (list Z * ufs_mount_t) :=
  if todo =? 0 then Some ([], m) else
  match fuel with
  | O => None
  | S fuel =>
      let b := ufs_get_block i blk in
      if b =? 0 then Some ([], m) else
      match ufs_read_block b m with
      | None => Some ([], m)
      | Some l =>
          let chunk := Z.min (UFS_BLOCK_SIZE - off) todo in
          '(r, m) ← read_loop fuel i (u32 (blk + 1)) 0 (todo - chunk) (set_blk_buf l m);
          Some (take (Z.to_nat chunk) (drop (Z.to_nat off) l) ++ r, m)
      end
  end.

(** Rounds that are enough for [todo] bytes from [off] on. *)
Definition io_fuel (todo : Z) : nat := Z.to_nat (todo / UFS_BLOCK_SIZE) + 2.

(** The return value and the bytes stored in [buf]. *)
Definition ufs_vfs_read (n : vnode) (size offset : Z) (m : ufs_mount_t) : option (Z * list Z * ufs_mount_t) :=
  if unusable n m || negb (n_type n =? VFS_FILE) then Some (-1, [], m) else
  let '(r, m) := ufs_read_inode (node_ino n) m in
  match r with
  | None => Some (-1, [], m)
  | Some i =>
      if i_size i <=? offset then Some (0, [], m) else
      let todo := Z.min (i_size i - offset) size in
      '(bytes, m) ← read_loop (io_fuel todo) i (u32 (offset / UFS_BLOCK_SIZE)) (offset mod UFS_BLOCK_SIZE) todo m;
      Some (i32 (Z.of_nat (length bytes)), bytes, m)
  end.

(** The block for index [blk] of the file, a new one at its end if there is none. *)
Definition file_block (i : ufs_inode_t) (blk : Z) (m : ufs_mount_t) : option (Z * ufs_inode_t) * ufs_mount_t :=
  let b := ufs_get_block i blk in
  if nz b then (Some (b, i), m) else
  let '(b, m) := ufs_alloc_block m in
  if b =? 0 then (None, m) else
  match ufs_append_block i b with
  | None => (None, ufs_free_block b m)
  | Some i => (Some (b, i), m)
  end.

(** The loop of a write: the bytes written, the inode and the state. *)
Fixpoint write_loop (fuel : nat) (i : ufs_inode_t) (blk off : Z) (data : list Z) (m : ufs_mount_t)
    : option (Z * ufs_inode_t * ufs_mount_t) :=
  match data with
  | [] => Some (0, i, m)
  | _ =>
      match fuel with
      | O => None
      | S fuel =>
          let '(r, m) := file_block i blk m in
          match r with
          | None => Some (0, i, m)
          | Some (b, i) =>
              match ufs_read_block b m with
              | None => Some (0, i, m)
              | Some l =>
                  let chunk := Z.min (UFS_BLOCK_SIZE - off) (Z.of_nat (length data)) in
                  let m := set_blk_buf (store off (take (Z.to_nat chunk) data) l) m in
                  let '(res, m) := ufs_write_block b (blk_buf m) m in
                  if nz res then Some (0, i, m) else
                  '(w, i, m) ← write_loop fuel i (u32 (blk + 1)) 0 (drop (Z.to_nat chunk) data) m;
                  Some (chunk + w, i, m)
              end
          end
      end
  end.

(** The return value, the node and the state. *)
Definition ufs_vfs_write (n : vnode) (data : list Z) (offset ticks : Z) (m : ufs_mount_t) : option (Z * vnode * ufs_mount_t) :=
  if unusable n m || negb (n_type n =? VFS_FILE) then Some (-1, n, m) else
  let '(r, m) := ufs_read_inode (node_ino n) m in
  match r with
  | None => Some (-1, n, m)
  | Some i =>
      '(written, i, m) ← write_loop (io_fuel (Z.of_nat (length data))) i (u32 (offset / UFS_BLOCK_SIZE))
                           (offset mod UFS_BLOCK_SIZE) data m;
      if i_size i <? u64 (offset + written) then
        let i := set_i_size (u32 (offset + written)) i in
        let i := set_i_mtime ticks (set_i_blocks (u32 (i_size i + 511) / 512) i) in
        let m := (ufs_write_inode (node_ino n) i m).2 in
        Some (i32 written, set_n_size (i_size i) n, m)
      else Some (i32 written, n, m)
  end.

(** An entry as [readdir] reports it: name, type, size. *)
Definition listed : Type := str * Z * Z.

Definition list_ent (l : list Z) (j : nat) (m : ufs_mount_t) : listed * ufs_mount_t :=
  let '(r, m) := ufs_read_inode (ent_inode l j) m in
  match r with
  | Some c => ((cut VFS_MAX_NAME (ent_name l j), if is_dir_mode (i_mode c) then VFS_DIR else VFS_FILE, i_size c), m)
  | None => ((cut VFS_MAX_NAME (ent_name l j), VFS_FILE, 0), m)
  end.

(** The entries [j ..] of the block in [blk_buf] while there is room. *)
Fixpoint list_block (n : nat) (j : nat) (room : Z) (m : ufs_mount_t) : list listed * ufs_mount_t :=
  match n with
  | O => ([], m)
  | S n =>
      if room =? 0 then ([], m) else
      let l := blk_buf m in
      if nz (ent_inode l j) && (0 <? ent_name_len l j) then
        let '(e, m) := list_ent l j m in
        let '(r, m) := list_block n (S j) (room - 1) m in (e :: r, m)
      else list_block n (S j) room m
  end.

Fixpoint list_blocks (n : nat) (k room : Z) (i : ufs_inode_t) (m : ufs_mount_t) : list listed * ufs_mount_t :=
  match n with
  | O => ([], m)
  | S n =>
      if room =? 0 then ([], m) else
      let b := ufs_get_block i k in
      if b =? 0 then list_blocks n (k + 1) room i m else
      match ufs_read_block b m with
      | None => list_blocks n (k + 1) room i m
      | Some l =>
          let count := if k =? dir_blocks i - 1 then Z.to_nat (u32 (i_size i - k * UFS_BLOCK_SIZE) / sizeof_dirent)
                       else ents_per_block in
          let '(e, m) := list_block count 0 room (set_blk_buf l m) in
          let '(r, m) := list_blocks n (k + 1) (room - Z.of_nat (length e)) i m in (e ++ r, m)
      end
  end.

Definition ufs_vfs_readdir (dir : vnode) (count : Z) (m : ufs_mount_t) : option (list listed) * ufs_mount_t :=
  if unusable dir m || negb (n_type dir =? VFS_DIR) then (None, m) else
  let '(r, m) := ufs_read_inode (node_ino dir) m in
  match r with
  | None => (None, m)
  | Some i => let '(l, m) := list_blocks (Z.to_nat (dir_blocks i)) 0 count i m in (Some l, m)
  end.

(** Size, mode and whether it is a directory. *)
Definition ufs_vfs_stat (n : vnode) (m : ufs_mount_t) : option (Z * Z * bool) * ufs_mount_t :=
  if unusable n m then (None, m) else
  let '(r, m) := ufs_read_inode (node_ino n) m in
  ((fun i => (i_size i, i_mode i, is_dir_mode (i_mode i))) <$> r, m).

(** ** Mounting and formatting *)

Definition sizeof_ufs_mount : Z := 8480.
Definition zero_sb : ufs_superblock_t := Superblock 0 0 0 0 0 0 0 0 0 0 (replicate 54 0) 0.
Definition blank_mount : ufs_mount_t := Mount zero_sb false None 0 0 zero_block zero_block.

(** [dev_node] is what [vfs_resolve_path] gives, [d] the device behind it.  The return
    value, the root node and the mount. *)
Definition ufs_vfs_mount (dev_node : option vnode) (d : D) (s : vstate) : option (Z * Z * option ufs_mount_t * vstate) :=
  match dev_node with
  | None => Some (-1, 0, None, s)
  | Some dn =>
      if negb (n_type dn =? VFS_BLOCK_DEVICE) then Some (-1, 0, None, s) else
      '(p, h) ← kmalloc sizeof_ufs_mount (vheap s);
      let s := set_vheap h s in
      if p =? 0 then Some (-1, 0, None, s) else
      let fail r := h ← kfree p (vheap s); Some (r, 0, None, set_vheap h s) in
      let m := set_next_free_inode 2 (set_dev (Some d) blank_mount) in
      match dev_read d 0 with
      | None => fail (-1)
      | Some l =>
          let m := set_sb (sb_of l) (set_blk_buf l m) in
          if negb (s_magic (sb m) =? UFS_MAGIC) then fail (- EINVAL) else
          if negb (s_checksum (sb m) =? ufs_calc_sb_checksum (sb m)) then fail (- EIO) else
          let m := set_mounted true m in
          '(n, s') ← vfs_create_node [] VFS_DIR s;
          if n =? 0 then h ← kfree p (vheap s'); Some (-1, 0, None, set_vheap h s') else
          s' ← update n (fun k => set_n_fs (Some ufs_name) (set_n_fs_data (root_inode (sb m)) (set_n_private p (set_n_mode 493 k)))) s';
          Some (0, n, Some m, s')
      end
  end.

(** The mount at [private] is given back to the heap. *)
Definition ufs_vfs_unmount (root : option vnode) (m : ufs_mount_t) (s : vstate) : option (Z * ufs_mount_t * vstate) :=
  match root with
  | None => Some (- EINVAL, m, s)
  | Some r =>
      if n_private r =? 0 then Some (- EINVAL, m, s) else
      let m := set_mounted false (ufs_write_superblock m).2 in
      h ← kfree (n_private r) (vheap s);
      Some (0, m, set_vheap h s)
  end.

(** The superblock of a new file system. *)
Definition format_sb (total : Z) : ufs_superblock_t :=
  let table := u32 (1 + u32 (total + 32767) / 32768) in
  let data := u32 (table + (1024 + inodes_per_block - 1) / inodes_per_block) in
  Superblock UFS_MAGIC UFS_VERSION total (u32 (total - data)) 1024 1024 1 table data 1 (replicate 54 0) 0.

(** A loop over the blocks [i ..]. *)
Fixpoint each_block (n : nat) (i : Z) (f : Z -> ufs_mount_t -> ufs_mount_t) (m : ufs_mount_t) : ufs_mount_t :=
  match n with O => m | S n => each_block n (i + 1) f (f i m) end.

(** What [ufs_vfs_format] and [ufs_format] do with the mount they have filled in. *)
Definition format_with (ticks : Z) (m : ufs_mount_t) : Z * ufs_mount_t :=
  let n := Z.to_nat (data_start (sb m)) in
  let m := each_block n 0 (fun i m => (ufs_write_block i (blk_buf m) m).2) (set_blk_buf zero_block m) in
  let m := each_block n 0 (fun i m => (ufs_bitmap_set i true m).2) m in
  let '(root_block, m) := ufs_alloc_block m in
  if root_block =? 0 then (-1, m) else
  let root := set_i_size (2 * sizeof_dirent) (new_inode (Z.lor UFS_INODE_DIR 493) 2 ticks) in
  let root := set_i_blocks ((i_size root + 511) / 512) root in
  let root := set_i_extents (<[0%nat := Extent root_block 1]> (i_extents root)) root in
  let m := (ufs_write_inode 1 root m).2 in
  let m := set_blk_buf (dot_ents 1 1) m in
  let '(res, m) := ufs_write_block root_block (blk_buf m) m in
  if nz res then (-1, m) else
  let s := set_free_inodes (1024 - 1) (sb m) in
  let s := set_s_checksum (ufs_calc_sb_checksum s) s in
  let m := set_blk_buf (store 0 (sb_bytes s) zero_block) (set_sb s m) in
  (0, (ufs_write_block 0 (blk_buf m) m).2).

Definition ufs_vfs_format (dev_node : option vnode) (d : D) (ticks : Z) : Z * ufs_mount_t :=
  let m := set_dev (Some d) blank_mount in
  match dev_node with
  | None => (-1, m)
  | Some dn =>
      if negb (n_type dn =? VFS_BLOCK_DEVICE) then (-1, m) else
      let total := u32 (n_size dn / UFS_BLOCK_SIZE) in
      if total <? 10 then (-1, m) else format_with ticks (set_sb (format_sb total) m)
  end.

(** Unlike the entry of the table, this one never sets [dev_node]. *)
Definition ufs_format (start_lba total disk ticks : Z) : Z * ufs_mount_t :=
  format_with ticks (set_sb (format_sb total) blank_mount).

Definition ufs_vfs_rename (old_dir : vnode) (old_name : str) (new_dir : vnode) (new_name : str) (m : ufs_mount_t) : Z * ufs_mount_t :=
  if unusable old_dir m then (-1, m) else
  let '(r, m) := ufs_find_in_dir (node_ino old_dir) old_name m in
  match r with
  | None => (-1, m)
  | Some ino =>
      let '(r, m) := ufs_read_inode ino m in
      match r with
      | None => (-1, m)
      | Some i =>
          let m := (ufs_remove_from_dir (node_ino new_dir) new_name m).2 in
          let '(res, m) := ufs_remove_from_dir (node_ino old_dir) old_name m in
          if nz res then (-1, m) else
          ufs_add_to_dir (node_ino new_dir) ino new_name (if is_dir_mode (i_mode i) then 2 else 1) m
      end
  end.

Definition ufs_vfs_symlink (dir : vnode) (name target : str) (ticks : Z) (m : ufs_mount_t) : Z * ufs_mount_t :=
  if unusable dir m then (-1, m) else
  let '(r, m) := ufs_find_in_dir (node_ino dir) name m in
  if (if r then true else false) then (-1, m) else
  let '(ino, m) := ufs_alloc_inode m in
  if ino =? 0 then (-1, m) else
  let i := set_i_size (u32 (Z.of_nat (length target))) (new_inode (Z.lor UFS_INODE_SYMLINK 511) 1 ticks) in
  let '(b, m) := ufs_alloc_block m in
  if b =? 0 then (-1, ufs_free_inode ino m) else
  let m := set_blk_buf (store 0 (take 4095 target) zero_block) m in
  let m := (ufs_write_block b (blk_buf m) m).2 in
  let i := default i (ufs_append_block i b) in
  let i := set_i_blocks (u32 (i_size i + 511) / 512) i in
  let m := (ufs_write_inode ino i m).2 in
  ufs_add_to_dir (node_ino dir) ino name 3 m.

(** The return value and the bytes stored in [buf], without the zero behind them; [None]
    where they are copied from outside the block. *)
Definition ufs_vfs_readlink (n : vnode) (size : Z) (m : ufs_mount_t) : option (Z * list Z * ufs_mount_t) :=
  if unusable n m then Some (-1, [], m) else
  let '(r, m) := ufs_read_inode (node_ino n) m in
  match r with
  | None => Some (-1, [], m)
  | Some i =>
      if negb (Z.land (i_mode i) 0xF000 =? UFS_INODE_SYMLINK) then Some (-1, [], m) else
      let b := ufs_get_block i 0 in
      if b =? 0 then Some (-1, [], m) else
      match ufs_read_block b m with
      | None => Some (-1, [], m)
      | Some l =>
          let todo := if size <=? i_size i then u32 (size - 1) else i_size i in
          bytes ← copy l todo;
          Some (i32 todo, bytes, set_blk_buf l m)
      end
  end.

End Ufs.

Arguments ufs_mount_t : clear implicits.

(** ** A device of blocks in memory *)

Record ramdisk := RamDisk { rd_size : Z; rd_blocks : gmap Z (list Z) }.

(** What a block of 4096 bytes holds. *)
Definition as_block (l : list Z) : list Z := u8 <$> take 4096 (l ++ zero_block).

#[export] Instance ramdisk_device : BlockDevice ramdisk := {
  dev_read d b := if (0 <=? b) && (b <? rd_size d) then Some (as_block (default [] (rd_blocks d !! b))) else None;
  dev_write d b l := if (0 <=? b) && (b <? rd_size d) then (true, RamDisk (rd_size d) (<[b := l]> (rd_blocks d))) else (false, d) }.

Lemma zero_block_length : length zero_block = 4096%nat.
Proof. apply length_replicate. Qed.

Lemma as_block_ok l : length (as_block l) = 4096%nat /\ byte_list (as_block l).
Proof.
  unfold as_block. split.
  - rewrite length_fmap, length_take, length_app, zero_block_length. lia.
  - apply Forall_fmap, Forall_true. intros x. cbn. apply u8_range.
Qed.

Lemma as_block_id l : length l = 4096%nat -> byte_list l -> as_block l = l.
Proof.
  intros Hl Hb. unfold as_block. rewrite take_app_length' by done. rewrite <- (list_fmap_id l) at 2.
  apply list_fmap_ext. intros i x Hx. cbn. apply u8_small. by apply (Forall_lookup_1 _ _ _ _ Hb Hx).
Qed.

#[export] Instance ramdisk_laws : BlockDeviceLaws ramdisk.
Proof.
  refine {| dev_size := rd_size; dev_rest d d' := rd_size d' = rd_size d |}.
  - split; [done|]. intros d1 d2 d3 E1 E2. congruence.
  - intros d b Hb. cbn [dev_read ramdisk_device]. rewrite (proj2 (Z.leb_le 0 b)), (proj2 (Z.ltb_lt b _)) by lia.
    eexists. split; [reflexivity|apply as_block_ok].
  - intros d b l Hb Hl Hbl. cbn [dev_read dev_write ramdisk_device]. rewrite (proj2 (Z.leb_le 0 b)), (proj2 (Z.ltb_lt b (rd_size d))) by lia.
    eexists. split; [reflexivity|]. cbn [rd_size rd_blocks]. split_and!; [done|done| |].
    + rewrite (proj2 (Z.ltb_lt b (rd_size d))) by lia. cbn [andb]. rewrite lookup_insert_eq. change (default [] (Some l)) with l. by rewrite as_block_id.
    + intros b' _ Hne. by rewrite lookup_insert_ne.
Defined.

(** ** Runs on a disk of 64 blocks *)

Definition demo_disk (n : Z) : ramdisk := RamDisk n ∅.
Definition disk_node (n : Z) : vnode := set_n_size (n * 4096) (set_n_type VFS_BLOCK_DEVICE zero_vnode).

(** The mount of a freshly formatted disk of [n] blocks. *)
Definition fresh_on {D} `{BlockDevice D} (d0 : D) (n : Z) : ufs_mount_t D :=
  let m := (ufs_vfs_format (Some (disk_node n)) d0 7).2 in
  let d := default d0 (dev m) in
  let l := default [] (dev_read d 0) in
  Mount (sb_of l) true (Some d) 0 2 l zero_block.

Definition fresh (n : Z) : ufs_mount_t ramdisk := fresh_on (demo_disk n) n.

Definition root_dir : vnode := set_n_private 1 (set_n_fs_data 1 (set_n_type VFS_DIR zero_vnode)).
Definition file_node (ino : Z) : vnode := set_n_private 1 (set_n_fs_data ino (set_n_type VFS_FILE zero_vnode)).

Example format_result : (ufs_vfs_format (Some (disk_node 64)) (demo_disk 64) 7).1 = 0.
Proof. vm_compute. reflexivity. Qed.

Example fresh_sb : let s := sb (fresh 64) in
  (s_magic s, total_blocks s, free_blocks s, inode_count s, free_inodes s, inode_table_start s, data_start s, s_checksum s =? ufs_calc_sb_checksum s) =
  (UFS_MAGIC, 64, 26, 1024, 1023, 2, 37, true).
Proof. vm_compute. reflexivity. Qed.

Example fresh_list : (ufs_vfs_readdir root_dir 10 (fresh 64)).1 = Some [([46], VFS_DIR, 128); ([46; 46], VFS_DIR, 128)].
Proof. vm_compute. reflexivity. Qed.

Example create_write_read :
  let '(r, m) := ufs_vfs_create root_dir [97] 420 7 (fresh 64) in
  let '(ino, m) := ufs_find_in_dir 1 [97] m in
  (r, ino, '(w, n, m) ← ufs_vfs_write (file_node 2) (replicate 5000 9 ++ [1;2;3]) 0 8 m;
   '(k, l, m) ← ufs_vfs_read (file_node 2) 100 4998 m; Some (w, k, l)) = (0, Some 2, Some (5003, 5, [9;9;1;2;3])).
Proof. vm_compute. reflexivity. Qed.
