(* ===== verification/UfsSpec.v ===== *)
(** * What the UFS operations do: kernel/fs/ufs.c

    The codecs of the structures on the disk, the frame of a write of one block, the
    allocation of blocks, inodes, and the contents of files. *)

From S2P Require Import Prelude Bytes KMalloc Vfs Ufs.

(** ** Structures and bytes *)

Definition is_u16 (x : Z) : Prop := 0 <= x < 65536.
Definition is_u32 (x : Z) : Prop := 0 <= x < 2 ^ 32.

(** An inode as the fields of the C structure can hold it. *)
Record inode_wf (i : ufs_inode_t) : Prop := {
  iw_mode : is_u16 (i_mode i);
  iw_uid : is_u16 (i_uid i);
  iw_gid : is_u16 (i_gid i);
  iw_nlink : is_u16 (i_nlink i);
  iw_words : Forall is_u32 [i_size i; i_blocks i; i_atime i; i_mtime i; i_ctime i; i_checksum i];
  iw_extents : length (i_extents i) = 8%nat;
  iw_extent : Forall (fun x => is_u32 (x_start x) /\ is_u32 (x_len x)) (i_extents i);
  iw_pad : length (i_pad i) = 10%nat;
  iw_pads : Forall is_u32 (i_pad i) }.

Record sb_wf (s : ufs_superblock_t) : Prop := {
  sw_words : Forall is_u32 (sb_words s);
  sw_pad : length (s_pad s) = 54%nat }.

Lemma get8_shift l n k : 0 <= k -> get8 (drop n l) k = get8 l (Z.of_nat n + k).
Proof.
  intros Hk. unfold get8. rewrite !(proj2 (Z.ltb_ge _ 0)) by lia. rewrite lookup_drop. f_equal. lia.
Qed.

Lemma get16_shift l n k : 0 <= k -> get16 (drop n l) k = get16 l (Z.of_nat n + k).
Proof. intros Hk. unfold get16. by rewrite !get8_shift, Z.add_assoc by lia. Qed.

Lemma get32_shift l n k : 0 <= k -> get32 (drop n l) k = get32 l (Z.of_nat n + k).
Proof. intros Hk. unfold get32. by rewrite !get16_shift, Z.add_assoc by lia. Qed.

Lemma w32_le32 v l : is_u32 v -> w32 (le32 v ++ l) 0 = v.
Proof. intros H. unfold w32. by rewrite get32_le32. Qed.

Lemma words_bytes_length ws : length (words_bytes ws) = (4 * length ws)%nat.
Proof. induction ws as [|w ws IH]; [done|]. unfold words_bytes in *. cbn [map concat length]. rewrite length_app. cbn [le32 length] in *. lia. Qed.

Lemma words_bytes_app a b : words_bytes (a ++ b) = words_bytes a ++ words_bytes b.
Proof. unfold words_bytes. by rewrite map_app, concat_app. Qed.

Lemma drop_words n ws l : (n <= length ws)%nat -> drop (4 * n) (words_bytes ws ++ l) = words_bytes (drop n ws) ++ l.
Proof.
  revert ws. induction n as [|n IH]; intros ws Hn; [by rewrite !drop_0|].
  destruct ws as [|w ws]; cbn in Hn; [lia|]. replace (4 * S n)%nat with (S (S (S (S (4 * n))))) by lia.
  change (words_bytes (w :: ws)) with (le32 w ++ words_bytes ws). cbn [le32 app drop]. rewrite IH by lia. done.
Qed.

(** The [k]-th word of the bytes of [ws]. *)
Lemma w32_words ws l k v : Forall is_u32 ws -> ws !! k = Some v -> w32 (words_bytes ws ++ l) (4 * Z.of_nat k) = v.
Proof.
  intros Hw Hk. pose proof (lookup_lt_Some _ _ _ Hk) as Hlt.
  unfold w32. replace (4 * Z.of_nat k) with (Z.of_nat (4 * k) + 0) by lia. rewrite <- get32_shift by lia.
  rewrite drop_words by lia. rewrite (drop_S _ _ _ Hk). change (words_bytes (v :: drop (S k) ws)) with (le32 v ++ words_bytes (drop (S k) ws)).
  rewrite <- app_assoc. fold (w32 (le32 v ++ words_bytes (drop (S k) ws) ++ l) 0). apply w32_le32. by apply (Forall_lookup_1 _ _ _ _ Hw Hk).
Qed.

Lemma bytes_words_words ws l n : Forall is_u32 ws -> (n <= length ws)%nat -> bytes_words n (words_bytes ws ++ l) = take n ws.
Proof.
  intros Hw Hn. apply list_eq. intros k. unfold bytes_words. destruct (decide (k < n)%nat) as [Hk|Hk].
  - rewrite list_lookup_fmap, lookup_seq_lt by done. cbn [fmap option_fmap option_map Nat.add].
    rewrite lookup_take_lt by done. destruct (lookup_lt_is_Some_2 ws k) as [v Hv]; [lia|]. rewrite Hv. f_equal. by apply w32_words.
  - rewrite lookup_ge_None_2 by (rewrite length_fmap, length_seq; lia). by rewrite lookup_take_ge by lia.
Qed.

(** A superblock read back from its bytes. *)
Lemma sb_of_bytes s l : sb_wf s -> sb_of (sb_bytes s ++ l) = s.
Proof.
  intros [Hw Hp]. unfold sb_of, sb_bytes.
  assert (Hk : forall k v, sb_words s !! k = Some v -> w32 (words_bytes (sb_words s) ++ l) (4 * Z.of_nat k) = v)
    by (intros; by apply w32_words).
  assert (Hc : sb_words s !! 64%nat = Some (s_checksum s)).
  { unfold sb_words. rewrite lookup_app_r by (cbn; lia). cbn [length Nat.sub]. rewrite lookup_app_r by lia. by rewrite Hp. }
  change 40%nat with (4 * 10)%nat. rewrite drop_words by (unfold sb_words; rewrite length_app; cbn; lia).
  change (drop 10 (sb_words s)) with (s_pad s ++ [s_checksum s]).
  rewrite bytes_words_words; [|by apply (Forall_drop _ 10) in Hw|rewrite length_app; cbn; lia].
  rewrite take_app_length' by done.
  pose proof (Hk 64%nat _ Hc) as Hc'. change (4 * Z.of_nat 64) with (4 * 64) in Hc'. rewrite Hc'.
  pose proof (Hk 0%nat _ eq_refl). pose proof (Hk 1%nat _ eq_refl). pose proof (Hk 2%nat _ eq_refl). pose proof (Hk 3%nat _ eq_refl).
  pose proof (Hk 4%nat _ eq_refl). pose proof (Hk 5%nat _ eq_refl). pose proof (Hk 6%nat _ eq_refl). pose proof (Hk 7%nat _ eq_refl).
  pose proof (Hk 8%nat _ eq_refl). pose proof (Hk 9%nat _ eq_refl).
  destruct s. cbn in *. f_equal; assumption.
Qed.

Definition inode_words (i : ufs_inode_t) : list Z :=
  [i_size i; i_blocks i; i_atime i; i_mtime i; i_ctime i] ++ concat (map extent_words (i_extents i)) ++ i_pad i ++ [i_checksum i].

Lemma extent_words_wf xs : Forall (fun x => is_u32 (x_start x) /\ is_u32 (x_len x)) xs -> Forall is_u32 (concat (map extent_words xs)).
Proof. induction 1 as [|x xs [H1 H2] _ IH]; cbn; [done|]. do 2 (constructor; [done|]). done. Qed.

Lemma extent_words_length xs : length (concat (map extent_words xs)) = (2 * length xs)%nat.
Proof. induction xs as [|x xs IH]; cbn in *; lia. Qed.

Lemma extent_words_lookup xs k x :
  xs !! k = Some x -> concat (map extent_words xs) !! (2 * k)%nat = Some (x_start x) /\
    concat (map extent_words xs) !! (2 * k + 1)%nat = Some (x_len x).
Proof.
  revert k. induction xs as [|y xs IH]; intros k Hk; [done|]. destruct k as [|k]; [injection Hk as ->; split; reflexivity|].
  replace (2 * S k)%nat with (S (S (2 * k))) by lia. cbn [map concat extent_words app Nat.add]. by apply IH.
Qed.

Lemma inode_words_wf i : inode_wf i -> Forall is_u32 (inode_words i) /\ length (inode_words i) = 32%nat.
Proof.
  intros [_ _ _ _ Hw He Hx Hp Hps]. split.
  - unfold inode_words. repeat (apply Forall_app; split); [|by apply extent_words_wf|done|].
    + apply (Forall_take _ 5) in Hw. exact Hw.
    + apply (Forall_drop _ 5) in Hw. exact Hw.
  - unfold inode_words. rewrite !length_app, extent_words_length, He, Hp. reflexivity.
Qed.

Lemma inode_bytes_eq i : inode_bytes i = (le16 (i_mode i) ++ le16 (i_uid i) ++ le16 (i_gid i) ++ le16 (i_nlink i)) ++ words_bytes (inode_words i).
Proof. unfold inode_bytes, inode_words. by rewrite <- !app_assoc. Qed.

Lemma inode_bytes_length i : inode_wf i -> length (inode_bytes i) = 136%nat.
Proof. intros Hi. apply inode_words_wf in Hi as [_ Hl]. rewrite inode_bytes_eq, length_app, words_bytes_length, Hl. reflexivity. Qed.

Lemma words_bytes_bytes ws : byte_list (words_bytes ws).
Proof. induction ws as [|w ws IH]; [constructor|]. apply Forall_app. split; [apply le32_bytes|done]. Qed.

Lemma inode_bytes_bytes i : byte_list (inode_bytes i).
Proof. rewrite inode_bytes_eq. apply Forall_app; split; [repeat (apply Forall_app; split); apply le16_bytes|apply words_bytes_bytes]. Qed.

Lemma inode_words_extent i k x :
  i_extents i !! k = Some x -> inode_words i !! (5 + 2 * k)%nat = Some (x_start x) /\ inode_words i !! (6 + 2 * k)%nat = Some (x_len x).
Proof.
  intros Hk. pose proof (lookup_lt_Some _ _ _ Hk). destruct (extent_words_lookup _ _ _ Hk) as [E1 E2]. unfold inode_words.
  assert (Hin : forall j, (j < 2 * length (i_extents i))%nat ->
    ([i_size i; i_blocks i; i_atime i; i_mtime i; i_ctime i] ++ concat (map extent_words (i_extents i)) ++ i_pad i ++ [i_checksum i]) !! (5 + j)%nat
    = concat (map extent_words (i_extents i)) !! j).
  { intros j Hj. rewrite lookup_app_r by (cbn; lia). cbn [length]. rewrite lookup_app_l by (rewrite extent_words_length; lia). f_equal. lia. }
  split.
  - by rewrite Hin by lia.
  - replace (6 + 2 * k)%nat with (5 + (2 * k + 1))%nat by lia. by rewrite Hin by lia.
Qed.

Lemma inode_words_tail i : length (i_extents i) = 8%nat -> drop 21 (inode_words i) = i_pad i ++ [i_checksum i].
Proof.
  intros He. unfold inode_words. rewrite app_assoc. apply drop_app_length'. rewrite length_app, extent_words_length, He. reflexivity.
Qed.

Section InodeOf.
Variables (i : ufs_inode_t) (l : list Z).
Hypothesis Hi : inode_wf i.

Let all := inode_bytes i ++ l.

Lemma inode_all : drop 8 all = words_bytes (inode_words i) ++ l.
Proof. unfold all. rewrite inode_bytes_eq. reflexivity. Qed.

Lemma inode_word k v : inode_words i !! k = Some v -> w32 all (8 + 4 * Z.of_nat k) = v.
Proof.
  intros Hv. destruct (inode_words_wf i Hi) as [Hw _]. rewrite <- (w32_words _ l k v Hw Hv), <- inode_all.
  unfold w32. by rewrite get32_shift by lia.
Qed.

Lemma inode_pad_of : bytes_words 10 (drop 92 all) = i_pad i.
Proof.
  destruct (inode_words_wf i Hi) as [Hw Hl]. destruct Hi as [_ _ _ _ _ He _ Hp _].
  change (drop 92 all) with (drop (4 * 21) (drop 8 all)). rewrite inode_all, drop_words by lia.
  rewrite inode_words_tail by done. rewrite bytes_words_words; [by rewrite take_app_length'| |rewrite length_app, Hp; cbn; lia].
  rewrite <- inode_words_tail by done. by apply Forall_drop.
Qed.

Lemma inode_extents_of :
  ((fun k => Extent (w32 all (8 + 4 * (5 + 2 * Z.of_nat k))) (w32 all (8 + 4 * (6 + 2 * Z.of_nat k)))) <$> seq 0 8) = i_extents i.
Proof.
  destruct Hi as [_ _ _ _ _ He _ _ _]. apply list_eq. intros k. rewrite list_lookup_fmap. destruct (decide (k < 8)%nat) as [Hlt|Hge].
  - rewrite lookup_seq_lt by done. cbn [fmap option_fmap option_map Nat.add].
    destruct (lookup_lt_is_Some_2 (i_extents i) k) as [x Hkx]; [lia|]. rewrite Hkx.
    destruct (inode_words_extent i k x Hkx) as [E1 E2]. apply inode_word in E1, E2.
    replace (5 + 2 * Z.of_nat k) with (Z.of_nat (5 + 2 * k)) by lia. replace (6 + 2 * Z.of_nat k) with (Z.of_nat (6 + 2 * k)) by lia.
    rewrite E1, E2. by destruct x.
  - rewrite lookup_seq_ge by lia. cbn. symmetry. apply lookup_ge_None_2. lia.
Qed.

Lemma inode_halves : w16 all 0 = i_mode i /\ w16 all 2 = i_uid i /\ w16 all 4 = i_gid i /\ w16 all 6 = i_nlink i.
Proof.
  destruct Hi as [H1 H2 H3 H4 _ _ _ _ _]. unfold w16.
  change (get16 all 0) with (get16 (le16 (i_mode i) ++ drop 2 all) 0). change (get16 all 2) with (get16 (le16 (i_uid i) ++ drop 4 all) 0).
  change (get16 all 4) with (get16 (le16 (i_gid i) ++ drop 6 all) 0). change (get16 all 6) with (get16 (le16 (i_nlink i) ++ drop 8 all) 0).
  by rewrite !get16_le16.
Qed.

(** An inode read back from its bytes. *)
Lemma inode_of_bytes : inode_of all = i.
Proof.
  unfold inode_of. cbv zeta. rewrite inode_extents_of, inode_pad_of. destruct inode_halves as (-> & -> & -> & ->).
  assert (Hc : inode_words i !! 31%nat = Some (i_checksum i)).
  { destruct Hi as [_ _ _ _ _ He _ Hp _]. pose proof (inode_words_tail i He) as E. apply (f_equal (lookup 10%nat)) in E.
    rewrite lookup_drop in E. change (21 + 10)%nat with 31%nat in E. rewrite E, lookup_app_r by lia. by rewrite Hp. }
  rewrite (inode_word 31 _ Hc : w32 all (8 + 4 * 31) = _).
  rewrite (inode_word 0 _ eq_refl : w32 all (8 + 4 * 0) = i_size i), (inode_word 1 _ eq_refl : w32 all (8 + 4 * 1) = i_blocks i),
    (inode_word 2 _ eq_refl : w32 all (8 + 4 * 2) = i_atime i), (inode_word 3 _ eq_refl : w32 all (8 + 4 * 3) = i_mtime i),
    (inode_word 4 _ eq_refl : w32 all (8 + 4 * 4) = i_ctime i). by destruct i.
Qed.

End InodeOf.

(** ** The blocks of a mounted file system *)

Definition is_block (l : list Z) : Prop := length l = 4096%nat /\ byte_list l.

Lemma zero_is_block : is_block zero_block.
Proof. split; [apply zero_block_length|]. apply Forall_replicate. lia. Qed.

Lemma store_is_block i l p : is_block p -> byte_list l -> 0 <= i -> i + Z.of_nat (length l) <= 4096 -> is_block (store i l p).
Proof.
  intros [Hp Hb] Hl Hi Hn. split; [rewrite store_length; lia|]. unfold store.
  repeat (apply Forall_app; split); [by apply Forall_take|done|by apply Forall_drop].
Qed.

(** What no operation changes of the superblock. *)
Definition geom (s : ufs_superblock_t) : ufs_superblock_t := set_s_checksum 0 (set_free_inodes 0 (set_free_blocks 0 s)).

(** The areas of the disk follow each other and are large enough. *)
Record layout_ok (s : ufs_superblock_t) : Prop := {
  lo_wf : sb_wf s;
  lo_bitmap : 0 < bitmap_start s;
  lo_table : bitmap_start s + (total_blocks s + 32767) / 32768 <= inode_table_start s;
  lo_data : inode_table_start s + (inode_count s + 29) / 30 <= data_start s;
  lo_total : data_start s <= total_blocks s < 2 ^ 31;
  lo_inodes : 0 <= inode_count s }.

Section Spec.
Context {D : Type} `{BlockDeviceLaws D}.

Definition total (m : ufs_mount_t D) : Z := total_blocks (sb m).

Record mnt_ok (m : ufs_mount_t D) : Prop := {
  mo_dev : exists d, dev m = Some d /\ total m <= dev_size d;
  mo_layout : layout_ok (sb m);
  mo_buf : is_block (blk_buf m);
  mo_next : 0 <= next_free_block m <= total m }.

(** The contents of block [b]. *)
Definition view (m : ufs_mount_t D) (b : Z) : list Z := default [] (ufs_read_block b m).

Lemma read_ok m b : mnt_ok m -> 0 <= b < total m -> ufs_read_block b m = Some (view m b) /\ is_block (view m b).
Proof.
  intros [(d & Hd & Ht) _ _ _] Hb. unfold view, ufs_read_block. unfold total in *. rewrite (proj2 (Z.leb_gt _ _)), Hd by lia.
  cbn [mbind option_bind]. destruct (dev_read_ok d b) as (l & E & Hl); [lia|]. rewrite E. done.
Qed.

Lemma view_set_blk_buf l m : view (set_blk_buf l m) = view m.
Proof. done. Qed.

(** Around the device nothing else changes. *)
Definition rest (m m' : ufs_mount_t D) : Prop := forall d, dev m = Some d -> exists d', dev m' = Some d' /\ dev_rest d d'.

Lemma rest_same m m' : dev m' = dev m -> rest m m'.
Proof. intros E d Hd. exists d. split; [congruence|done]. Qed.

Lemma rest_trans m1 m2 m3 : rest m1 m2 -> rest m2 m3 -> rest m1 m3.
Proof. intros R1 R2 d Hd. destruct (R1 d Hd) as (d' & Hd' & E1). destruct (R2 d' Hd') as (d'' & Hd'' & E2). exists d''. split; [done|by etrans]. Qed.

(** [m'] is [m] with other contents in the blocks of [P] only. *)
Record frame (P : Z -> Prop) (m m' : ufs_mount_t D) : Prop := {
  fr_ok : mnt_ok m';
  fr_geom : geom (sb m') = geom (sb m);
  fr_mounted : mounted m' = mounted m;
  fr_view : forall b, 0 <= b < total m -> ~ P b -> view m' b = view m b;
  fr_rest : rest m m' }.

Lemma geom_total s s' : geom s = geom s' ->
  total_blocks s = total_blocks s' /\ inode_count s = inode_count s' /\ bitmap_start s = bitmap_start s' /\
  inode_table_start s = inode_table_start s' /\ data_start s = data_start s' /\ root_inode s = root_inode s'.
Proof. unfold geom. destruct s, s'. cbn. intros E. by injection E. Qed.

Lemma frame_total P m m' : frame P m m' -> total m' = total m.
Proof. intros [_ Hg _ _ _]. apply geom_total in Hg. unfold total. tauto. Qed.

Lemma frame_refl P m : mnt_ok m -> frame P m m.
Proof. intros Hm. split; [done..|by apply rest_same]. Qed.

Lemma frame_trans (P Q : Z -> Prop) m1 m2 m3 : frame P m1 m2 -> frame Q m2 m3 -> frame (fun b => P b \/ Q b) m1 m3.
Proof.
  intros F1 F2. pose proof (frame_total _ _ _ F1) as Ht. destruct F1 as [H1 H2 H3 H4 H5], F2 as [K1 K2 K3 K4 K5].
  split; [done|congruence|congruence| |by apply (rest_trans m1 m2)].
  intros b Hb HP. rewrite K4, H4; tauto || lia.
Qed.

Lemma frame_impl (P Q : Z -> Prop) m m' : (forall b, 0 <= b < total m -> P b -> Q b) -> frame P m m' -> frame Q m m'.
Proof. intros Hi [H1 H2 H3 H4 H5]. split; auto. Qed.

Lemma frame_buf P m l : mnt_ok m -> is_block l -> frame P m (set_blk_buf l m).
Proof. intros [H1 H2 H3 H4] Hl. split; [by split|done|done|done|by apply rest_same]. Qed.

Lemma write_ok m b l : mnt_ok m -> 0 <= b < total m -> is_block l ->
  exists d, ufs_write_block b l m = (0, set_dev (Some d) m) /\ frame (eq b) m (set_dev (Some d) m) /\ view (set_dev (Some d) m) b = l.
Proof.
  intros [(d & Hd & Ht) Hlay Hbuf Hnext] Hb [Hl Hbl]. unfold total in *. unfold ufs_write_block. rewrite (proj2 (Z.leb_gt _ _)), Hd by lia.
  destruct (dev_write_ok d b l) as (d' & -> & Hs & Hre & Hr & Ho); [lia|done|done|]. exists d'.
  assert (Hv : forall b', 0 <= b' < total_blocks (sb m) -> view (set_dev (Some d') m) b' = if decide (b' = b) then l else view m b').
  { intros b' Hb'. unfold view, ufs_read_block. cbn [sb dev set_dev]. rewrite !(proj2 (Z.leb_gt _ _)), Hd by lia. cbn [mbind option_bind].
    destruct (decide (b' = b)) as [->|]; [by rewrite Hr|rewrite Ho; [done|lia|done]]. }
  split_and!; [done| |].
  - split; [|done|done| |intros d0 Hd0; exists d'; split; [done|congruence]].
    + split; [exists d'; split; [done|cbn; unfold total; cbn; lia]|done|done|done].
    + intros b' Hb' Hne. rewrite Hv by done. destruct (decide _); [subst; done|done].
  - rewrite Hv by done. by rewrite decide_True.
Qed.

End Spec.

(** ** The superblock on the disk *)

Lemma lxor_u32 a b : is_u32 a -> is_u32 b -> is_u32 (Z.lxor a b).
Proof.
  intros [Ha Ha'] [Hb Hb']. split; [apply Z.lxor_nonneg; lia|].
  destruct (Z.eqb_spec (Z.lxor a b) 0) as [->|Hne]; [lia|]. pose proof (proj2 (Z.lxor_nonneg a b)) as Hn.
  apply Z.log2_lt_pow2; [lia|]. pose proof (Z.log2_lxor a b Ha Hb) as Hl.
  assert (Hs : forall x, 0 <= x < 2 ^ 32 -> Z.log2 x < 32).
  { intros x Hx. destruct (Z.eqb_spec x 0) as [->|]; [cbn; lia|]. apply Z.log2_lt_pow2; lia. }
  pose proof (Hs a ltac:(lia)). pose proof (Hs b ltac:(lia)). lia.
Qed.

Lemma xor_words_u32 ws : Forall is_u32 ws -> forall a, is_u32 a -> is_u32 (foldl Z.lxor a ws).
Proof. induction 1 as [|w ws Hw _ IH]; intros a Ha; [done|]. cbn. apply IH. by apply lxor_u32. Qed.

Lemma sb_words_geom s s' :
  geom s' = geom s -> is_u32 (free_blocks s') -> is_u32 (free_inodes s') -> is_u32 (s_checksum s') -> sb_wf s -> sb_wf s'.
Proof.
  intros Hg H1 H2 H3 [Hw Hp]. destruct s, s'. cbn in *. unfold geom in Hg. cbn in Hg. injection Hg as -> -> -> -> -> -> -> -> ->.
  unfold sb_words in *. cbn in *. split; [|done]. cbn.
  repeat match goal with
  | H : Forall _ (_ :: _) |- _ => apply Forall_cons in H as [? H]
  | H : Forall _ (_ ++ _) |- _ => apply Forall_app in H as [? ?]
  | |- Forall _ (_ :: _) => constructor; [assumption|]
  | |- Forall _ (_ ++ _) => apply Forall_app; split
  end; try assumption.
Qed.

Lemma layout_geom s s' :
  geom s' = geom s -> is_u32 (free_blocks s') -> is_u32 (free_inodes s') -> is_u32 (s_checksum s') -> layout_ok s -> layout_ok s'.
Proof.
  intros Hg H1 H2 H3 [L1 L2 L3 L4 L5 L6]. pose proof (geom_total _ _ Hg) as (E1 & E2 & E3 & E4 & E5 & E6).
  split; rewrite ?E1, ?E2, ?E3, ?E4, ?E5; auto. by apply (sb_words_geom s).
Qed.

Lemma sb_counts s : sb_wf s -> is_u32 (free_blocks s) /\ is_u32 (free_inodes s) /\ is_u32 (s_checksum s) /\ is_u32 (total_blocks s).
Proof.
  intros [Hw Hp]. unfold sb_words in Hw. apply Forall_app in Hw as [Hw Hw']. apply Forall_app in Hw' as [_ Hc].
  pose proof (Forall_lookup_1 _ _ 3%nat _ Hw eq_refl). pose proof (Forall_lookup_1 _ _ 5%nat _ Hw eq_refl).
  pose proof (Forall_lookup_1 _ _ 0%nat _ Hc eq_refl). pose proof (Forall_lookup_1 _ _ 2%nat _ Hw eq_refl). done.
Qed.

Lemma sb_checksum_u32 s : sb_wf s -> is_u32 (ufs_calc_sb_checksum s).
Proof.
  intros Hs. pose proof (sb_counts s Hs) as (C1 & C2 & _). apply xor_words_u32; [|done].
  apply (sb_words_geom s); [by destruct s|exact C1|exact C2|done|done].
Qed.

Lemma sb_bytes_length s : length (s_pad s) = 54%nat -> length (sb_bytes s) = 260%nat.
Proof. intros Hp. unfold sb_bytes. rewrite words_bytes_length. unfold sb_words. rewrite !length_app, Hp. reflexivity. Qed.

Lemma layout_order s : layout_ok s -> 0 < bitmap_start s /\ bitmap_start s <= inode_table_start s /\ inode_table_start s <= data_start s /\
  data_start s <= total_blocks s.
Proof. intros [L1 L2 L3 L4 L5 L6]. apply sb_counts in L1 as (_ & _ & _ & [? _]). split_and!; dlia. Qed.

Section Super.
Context {D : Type} `{BlockDeviceLaws D}.
Implicit Types m : ufs_mount_t D.

Lemma total_pos m : mnt_ok m -> 0 < total m.
Proof. intros [_ Hl _ _]. apply layout_order in Hl. unfold total. lia. Qed.

(** A change of the counters only. *)
Lemma frame_sb P m s :
  mnt_ok m -> geom s = geom (sb m) -> is_u32 (free_blocks s) -> is_u32 (free_inodes s) -> is_u32 (s_checksum s) ->
  frame P m (set_sb s m) /\ view (set_sb s m) = view m.
Proof.
  intros Hm Hg H1 H2 H3. pose proof (geom_total _ _ Hg) as (Et & _).
  assert (Hv : view (set_sb s m) = view m). { unfold view, ufs_read_block. cbn. by rewrite Et. }
  split; [|done]. split; [|done|done|by rewrite Hv|by apply rest_same]. destruct Hm as [(d & Hd & Ht) Hl Hb Hn]. unfold total in *. split; cbn; rewrite ?Et; auto.
  - exists d. unfold total. cbn. by rewrite Et.
  - by apply (layout_geom (sb m)).
  - unfold total. cbn. by rewrite Et.
Qed.

Lemma superblock_ok m : mnt_ok m ->
  exists m', ufs_write_superblock m = (0, m') /\ frame (eq 0) m m' /\
    sb m' = set_s_checksum (ufs_calc_sb_checksum (sb m)) (sb m) /\ sb_of (view m' 0) = sb m' /\
    next_free_block m' = next_free_block m /\ next_free_inode m' = next_free_inode m.
Proof.
  intros Hm. unfold ufs_write_superblock. set (s := set_s_checksum _ _).
  pose proof (mo_layout m Hm) as Hl. pose proof (lo_wf _ Hl) as Hw. pose proof (sb_counts _ Hw) as (C1 & C2 & C3 & C4).
  destruct (frame_sb (eq 0) m s Hm) as [F1 V1]; [by destruct (sb m)|done|done|by apply sb_checksum_u32|].
  pose proof (lo_wf _ (mo_layout _ (fr_ok _ _ _ F1))) as Hs. cbn [sb set_sb] in Hs. pose proof (sw_pad _ Hs) as Hp.
  set (buf := store 0 (sb_bytes s) (blk_buf m)).
  assert (Hbuf : is_block buf).
  { apply store_is_block; [apply Hm|apply words_bytes_bytes|lia|]. rewrite sb_bytes_length by done. lia. }
  pose proof (frame_buf (eq 0) (set_sb s m) buf (fr_ok _ _ _ F1) Hbuf) as F2.
  change (blk_buf (set_blk_buf buf (set_sb s m))) with buf.
  destruct (write_ok (set_blk_buf buf (set_sb s m)) 0 buf (fr_ok _ _ _ F2)) as (d & -> & F3 & V3); [|done|].
  { pose proof (total_pos _ (fr_ok _ _ _ F2)). lia. }
  eexists. split; [reflexivity|]. split_and!; try reflexivity.
  - eapply frame_impl; [|exact (frame_trans _ _ _ _ _ F1 (frame_trans _ _ _ _ _ F2 F3))]. cbn. tauto.
  - rewrite V3. unfold buf, store. cbn [Z.to_nat take app]. by apply sb_of_bytes.
Qed.

End Super.

(** ** The bitmap *)

Lemma bit_get x k : 0 <= k -> Z.land (Z.shiftr x k) 1 = b2z (Z.testbit x k).
Proof.
  intros Hk. change 1 with (Z.ones 1). rewrite Z.land_ones, Z.shiftr_div_pow2 by lia.
  rewrite <- Z.testbit_spec' by done. by destruct (Z.testbit x k).
Qed.

(** The byte with bit [k] set or cleared. *)
Lemma bit_set x k val j : 0 <= k < 8 -> 0 <= j < 8 ->
  Z.testbit (u8 (if val : bool then Z.lor x (Z.shiftl 1 k) else Z.land x (Z.lnot (Z.shiftl 1 k)))) j =
    if decide (j = k) then val else Z.testbit x j.
Proof.
  intros Hk Hj. unfold u8. rewrite Z.mod_pow2_bits_low by lia.
  assert (Hs : Z.testbit (Z.shiftl 1 k) j = bool_decide (j = k)).
  { rewrite Z.shiftl_1_l, Z.pow2_bits_eqb by lia. rewrite Z.eqb_sym.
    destruct (Z.eqb_spec j k); [by rewrite bool_decide_true|by rewrite bool_decide_false]. }
  destruct val; rewrite ?Z.lor_spec, ?Z.land_spec, ?Z.lnot_spec, Hs by lia; destruct (decide (j = k)) as [E|E].
  - by rewrite bool_decide_true, orb_true_r.
  - by rewrite bool_decide_false, orb_false_r.
  - by rewrite bool_decide_true, andb_false_r.
  - by rewrite bool_decide_false, andb_true_r.
Qed.

Lemma get8_nth l i : 0 <= i -> default 0 (get8 l i) = nth (Z.to_nat i) l 0.
Proof. intros Hi. unfold get8. by rewrite (proj2 (Z.ltb_ge i 0)), nth_lookup by lia. Qed.

Section Bitmap.
Context {D : Type} `{BlockDeviceLaws D}.
Implicit Types m : ufs_mount_t D.

(** The bit of block [b]. *)
Definition in_use m (b : Z) : bool := Z.testbit (nth (Z.to_nat (map_byte b)) (view m (map_block b m)) 0) (b mod 8).

Lemma map_block_range m b : mnt_ok m -> 0 <= b < total m ->
  map_block b m = bitmap_start (sb m) + b / 32768 /\ 0 < map_block b m < inode_table_start (sb m) /\ 0 <= map_byte b < 4096.
Proof.
  intros Hm Hb. pose proof (mo_layout _ Hm) as Hl. pose proof (layout_order _ Hl). destruct Hl as [_ L2 L3 _ L5 _]. unfold total in *.
  assert (Hq : 0 <= b / 32768 /\ b / 32768 < (total_blocks (sb m) + 32767) / 32768) by dlia.
  assert (E : map_block b m = bitmap_start (sb m) + b / 32768) by (apply u32_small; lia).
  unfold map_byte. rewrite E. split_and!; [done|lia|lia|dlia|dlia].
Qed.

Lemma frame_used P m m' b :
  frame P m m' -> mnt_ok m -> 0 <= b < total m -> (forall x, 0 < x < inode_table_start (sb m) -> ~ P x) -> in_use m' b = in_use m b.
Proof.
  intros F Hm Hb HP. pose proof (map_block_range m b Hm Hb) as (E & Hr & _). pose proof (geom_total _ _ (fr_geom _ _ _ F)) as (_ & _ & Eb & _).
  pose proof (layout_order _ (mo_layout _ Hm)). unfold in_use. replace (map_block b m') with (map_block b m) by (unfold map_block; by rewrite Eb).
  rewrite (fr_view _ _ _ F); [done|unfold total; lia|auto].
Qed.

Lemma bitmap_get_ok m b : mnt_ok m -> 0 <= b < total m ->
  exists l, is_block l /\ ufs_bitmap_get b m = (b2z (in_use m b), set_blk_buf l m).
Proof.
  intros Hm Hb. pose proof (map_block_range m b Hm Hb) as (E & Hr & Hy). pose proof (layout_order _ (mo_layout _ Hm)). unfold ufs_bitmap_get.
  rewrite (proj2 (Z.leb_gt _ _)) by (unfold total in Hb; lia). destruct (read_ok m (map_block b m) Hm) as [-> Hbl]; [unfold total; lia|].
  eexists. split; [exact Hbl|]. rewrite bit_get by dlia. by rewrite get8_nth by lia.
Qed.

Lemma bitmap_set_ok m b val : mnt_ok m -> 0 <= b < total m ->
  exists m', ufs_bitmap_set b val m = (0, m') /\ frame (eq (map_block b m)) m m' /\
    (forall b', 0 <= b' < total m -> in_use m' b' = if decide (b' = b) then val else in_use m b') /\
    sb m' = sb m /\ next_free_block m' = next_free_block m /\ next_free_inode m' = next_free_inode m.
Proof.
  intros Hm Hb. pose proof (map_block_range m b Hm Hb) as (E & Hr & Hy). pose proof (layout_order _ (mo_layout _ Hm)) as Ho.
  unfold ufs_bitmap_set. rewrite (proj2 (Z.leb_gt _ _)) by (unfold total in Hb; lia).
  destruct (read_ok m (map_block b m) Hm) as [-> Hbl]; [unfold total; lia|]. set (l := view m (map_block b m)) in *.
  set (new := u8 _). set (buf := store (map_byte b) [new] l).
  assert (Hbuf : is_block buf) by (apply store_is_block; [done|repeat constructor; apply u8_range|lia|cbn; lia]).
  pose proof (frame_buf (eq (map_block b m)) m buf Hm Hbuf) as F1. cbn [blk_buf set_blk_buf].
  change (map_block b (set_blk_buf buf m)) with (map_block b m).
  destruct (write_ok (set_blk_buf buf m) (map_block b m) buf (fr_ok _ _ _ F1)) as (d & -> & F2 & V2); [unfold total; cbn; lia|done|].
  eexists. split; [reflexivity|]. pose proof (frame_trans _ _ _ _ _ F1 F2) as F.
  split_and!; try reflexivity; [eapply frame_impl; [|exact F]; cbn; tauto|].
  intros b' Hb'. pose proof (map_block_range m b' Hm Hb') as (E' & Hr' & Hy'). unfold in_use.
  change (map_block b' (set_dev (Some d) (set_blk_buf buf m))) with (map_block b' m).
  destruct (Z.eq_dec (map_block b' m) (map_block b m)) as [Em|Em].
  - rewrite Em, V2. unfold buf. rewrite nth_store by (destruct Hbl; cbn; lia). cbn [length].
    destruct (Z.eq_dec (map_byte b') (map_byte b)) as [Ey|Ey].
    + rewrite Ey, (proj2 (Nat.leb_le _ _)), (proj2 (Nat.ltb_lt _ _)), Nat.sub_diag by lia. cbn [andb nth].
      unfold new. rewrite get8_nth by lia. rewrite bit_set by dlia.
      unfold map_byte in *. destruct (decide (b' = b)) as [->|]; [by rewrite decide_True|]. rewrite decide_False by dlia.
      reflexivity.
    + rewrite decide_False by (intros ->; done).
      destruct (Nat.leb_spec (Z.to_nat (map_byte b)) (Z.to_nat (map_byte b'))); cbn [andb]; [|done].
      by rewrite (proj2 (Nat.ltb_ge _ _)) by lia.
  - rewrite decide_False by (intros ->; done). rewrite (fr_view _ _ _ F); [done|unfold total; lia|]. intros [?|?]; congruence.
Qed.

End Bitmap.

(** ** Allocation of blocks *)

Section Alloc.
Context {D : Type} `{BlockDeviceLaws D}.
Implicit Types m : ufs_mount_t D.

(** The superblock on the disk is the one in memory and its checksum is right. *)
Definition sb_synced m : Prop := sb_of (view m 0) = sb m /\ s_checksum (sb m) = ufs_calc_sb_checksum (sb m).

Lemma frame_next P m b : mnt_ok m -> 0 <= b <= total m -> frame P m (set_next_free_block b m).
Proof. intros [H1 H2 H3 H4] Hb. split; [by split|done|done|done|by apply rest_same]. Qed.

Lemma view_zero_stable P m m' : mnt_ok m -> frame P m m' -> ~ P 0 -> view m' 0 = view m 0.
Proof. intros Hm F HP. apply (fr_view _ _ _ F); [|done]. pose proof (total_pos m Hm). lia. Qed.

Lemma superblock_synced m : mnt_ok m -> sb_synced (ufs_write_superblock m).2.
Proof.
  intros Hm. destruct (superblock_ok m Hm) as (m' & E & F & Es & Ev & _). rewrite E. split; [done|]. cbn [snd]. rewrite Es. by destruct (sb m).
Qed.

Lemma take_block_ok m b : mnt_ok m -> data_start (sb m) <= b < total m ->
  let m' := take_block b m in
  frame (fun x => x = 0 \/ x = map_block b m \/ x = b) m m' /\ view m' b = zero_block /\
  (forall b', 0 <= b' < total m -> in_use m' b' = if decide (b' = b) then true else in_use m b') /\
  free_blocks (sb m') = u32 (free_blocks (sb m) - 1) /\ next_free_block m' = b + 1 /\
  next_free_inode m' = next_free_inode m /\ sb_synced m'.
Proof.
  intros Hm Hb. pose proof (layout_order _ (mo_layout _ Hm)) as Ho. pose proof (mo_layout _ Hm) as Hlay.
  assert (Hb0 : 0 < b < total m) by lia. destruct (map_block_range m b Hm ltac:(lia)) as (_ & Hmb & _).
  unfold take_block. destruct (bitmap_set_ok m b true Hm ltac:(lia)) as (m1 & -> & F1 & U1 & S1 & N1 & I1). cbn [snd].
  pose proof (fr_ok _ _ _ F1) as Hm1. pose proof (frame_total _ _ _ F1) as T1.
  pose proof (sb_counts _ (lo_wf _ (mo_layout _ Hm1))) as (C1 & C2 & C3 & _).
  set (s2 := set_free_blocks _ _). destruct (frame_sb (fun _ => False) m1 s2 Hm1) as [F2 V2]; [by destruct (sb m1)|apply u32_range|done|done|].
  pose proof (frame_total _ _ _ F2) as T2.
  pose proof (frame_next (fun _ => False) (set_sb s2 m1) (u32 (b + 1)) (fr_ok _ _ _ F2)) as F3.
  assert (Eb : u32 (b + 1) = b + 1) by (apply u32_small; destruct Hlay; unfold total in *; lia). rewrite Eb in *. specialize (F3 ltac:(lia)).
  pose proof (frame_buf (fun _ => False) _ zero_block (fr_ok _ _ _ F3) zero_is_block) as F4.
  pose proof (frame_trans _ _ _ _ _ F2 (frame_trans _ _ _ _ _ F3 F4)) as F24.
  set (m4 := set_blk_buf zero_block _) in *. change (blk_buf m4) with zero_block.
  destruct (write_ok m4 b zero_block (fr_ok _ _ _ F4)) as (d & -> & F5 & V5); [unfold total in *; cbn; rewrite S1; lia|apply zero_is_block|].
  cbn [snd]. set (m5 := set_dev (Some d) m4) in *. pose proof (fr_ok _ _ _ F5) as Hm5.
  destruct (superblock_ok m5 Hm5) as (m6 & E6 & F6 & S6 & _ & N6 & I6). pose proof (superblock_synced m5 Hm5) as Hsync. rewrite E6 in *. cbn [snd] in *.
  pose proof (frame_trans _ _ _ _ _ F24 (frame_trans _ _ _ _ _ F5 F6)) as F26.
  split_and!.
  - eapply frame_impl; [|exact (frame_trans _ _ _ _ _ F1 F26)]. cbn. intros x _. intuition congruence.
  - rewrite (fr_view _ _ _ F6); [done|unfold total in *; cbn; rewrite S1; lia|lia].
  - intros b' Hb'. rewrite <- (U1 b' Hb'). apply (frame_used _ m1 m6 b' F26 Hm1); [lia|]. rewrite S1. cbn. intros x Hx. intuition lia.
  - rewrite S6. cbn. by rewrite S1.
  - by rewrite N6.
  - by rewrite I6.
  - done.
Qed.

(** The block the [i]-th round looks at. *)
Definition candidate m (start i : Z) : Z :=
  let b := u32 (start + i) in if total m <=? b then u32 (data_start (sb m) + (b - total m)) else b.

(** What an allocation that found block [b] did. *)
Definition got_block m (b : Z) m' : Prop :=
  data_start (sb m) <= b < total m /\ in_use m b = false /\
  frame (fun x => x = 0 \/ x = map_block b m \/ x = b) m m' /\ view m' b = zero_block /\
  (forall b', 0 <= b' < total m -> in_use m' b' = if decide (b' = b) then true else in_use m b') /\
  free_blocks (sb m') = u32 (free_blocks (sb m) - 1) /\ next_free_block m' = b + 1 /\
  next_free_inode m' = next_free_inode m /\ sb_synced m'.

Lemma allocated_buf m l b m' : is_block l -> got_block (set_blk_buf l m) b m' -> got_block m b m'.
Proof.
  intros Hl (H1 & H2 & [F1 F2 F3 F4] & Hrest). split; [exact H1|]. split; [exact H2|]. split; [by split|exact Hrest].
Qed.

Lemma alloc_scan_ok n : forall start i m r m',
  mnt_ok m -> alloc_scan n start i m = (r, m') ->
  (r = 0 /\ (exists l, is_block l /\ m' = set_blk_buf l m) /\
     forall k, 0 <= k < Z.of_nat n -> data_start (sb m) <= candidate m start (i + k) < total m -> in_use m (candidate m start (i + k)) = true) \/
  (got_block m r m' /\ exists k, 0 <= k < Z.of_nat n /\ r = candidate m start (i + k) /\
     forall k', 0 <= k' < k -> data_start (sb m) <= candidate m start (i + k') < total m -> in_use m (candidate m start (i + k')) = true).
Proof.
  induction n as [|n IH]; intros start i m r m' Hm; cbn [alloc_scan].
  { intros [= <- <-]. left. split_and!; [done| |lia]. exists (blk_buf m). split; [apply Hm|by destruct m]. }
  change (if total_blocks (sb m) <=? u32 (start + i) then _ else _) with (candidate m start i). set (b := candidate m start i).
  (* a round that goes on *)
  assert (Hgo : forall l, is_block l -> (data_start (sb m) <= b < total m -> in_use m b = true) ->
     alloc_scan n start (i + 1) (set_blk_buf l m) = (r, m') ->
     (r = 0 /\ (exists l, is_block l /\ m' = set_blk_buf l m) /\
        forall k, 0 <= k < Z.of_nat (S n) -> data_start (sb m) <= candidate m start (i + k) < total m -> in_use m (candidate m start (i + k)) = true) \/
     (got_block m r m' /\ exists k, 0 <= k < Z.of_nat (S n) /\ r = candidate m start (i + k) /\
        forall k', 0 <= k' < k -> data_start (sb m) <= candidate m start (i + k') < total m -> in_use m (candidate m start (i + k')) = true)).
  { intros l Hl Hu E. apply IH in E; [|by apply (frame_buf (fun _ => False))].
    assert (Hs : forall k, 0 <= k -> k <> 0 -> i + k = i + 1 + (k - 1)) by lia.
    destruct E as [(E1 & (l' & E2 & E3) & E4)|(E1 & k & Hk & Ek & E4)]; [left|right].
    - split_and!; [done|by exists l'|]. intros k Hk. destruct (Z.eq_dec k 0) as [->|Hk0]; [by rewrite Z.add_0_r|].
      rewrite Hs by lia. apply E4. lia.
    - split; [by apply (allocated_buf m l)|]. exists (k + 1). split_and!; [lia|lia|by replace (i + (k + 1)) with (i + 1 + k) by lia|].
      intros k' Hk'. destruct (Z.eq_dec k' 0) as [->|Hk0]; [by rewrite Z.add_0_r|]. rewrite Hs by lia. apply E4. lia. }
  destruct (Z.ltb_spec b (data_start (sb m))) as [Hd|Hd].
  { intros E. apply (Hgo (blk_buf m)); [apply Hm|lia|]. by destruct m. }
  destruct (Z.leb_spec (total m) b) as [Ht|Ht].
  { unfold ufs_bitmap_get. rewrite (proj2 (Z.leb_le _ _)) by done. cbn [Z.eqb]. intros E. apply (Hgo (blk_buf m)); [apply Hm|lia|]. by destruct m. }
  pose proof (layout_order _ (mo_layout _ Hm)).
  destruct (bitmap_get_ok m b Hm ltac:(lia)) as (l & Hl & ->). destruct (in_use m b) eqn:Eu; cbn [b2z Z.eqb].
  - intros E. by apply (Hgo l).
  - intros [= <- <-]. right. pose proof (frame_buf (fun _ => False) m l Hm Hl) as F.
    pose proof (take_block_ok (set_blk_buf l m) b (fr_ok _ _ _ F) ltac:(cbn; unfold total in *; cbn; lia)) as Hk. split.
    + apply (allocated_buf m l); [done|]. split_and!; [cbn; lia|unfold total in *; cbn; lia|done|apply Hk..].
    + exists 0. split_and!; [lia|lia|by rewrite Z.add_0_r|lia].
Qed.

End Alloc.

Section AllocSpec.
Context {D : Type} `{BlockDeviceLaws D}.
Implicit Types m : ufs_mount_t D.

(** Where the search starts. *)
Definition alloc_start m : Z := Z.max (data_start (sb m)) (next_free_block m).

Lemma candidates_cover m b : mnt_ok m -> data_start (sb m) <= b < total m ->
  exists k, 0 <= k < total m /\ candidate m (alloc_start m) k = b.
Proof.
  intros Hm Hb. pose proof (layout_order _ (mo_layout _ Hm)) as Ho. pose proof (lo_total _ (mo_layout _ Hm)) as Ht. pose proof (mo_next _ Hm) as Hn.
  unfold candidate, alloc_start. unfold total in *. set (start := Z.max _ _). assert (data_start (sb m) <= start <= total_blocks (sb m)) by lia.
  destruct (Z.le_gt_cases start b).
  - exists (b - start). split; [lia|]. rewrite u32_small by lia. rewrite (proj2 (Z.leb_gt _ _)) by lia. lia.
  - exists (total_blocks (sb m) - start + (b - data_start (sb m))). split; [lia|]. rewrite u32_small by lia.
    rewrite (proj2 (Z.leb_le _ _)) by lia. rewrite u32_small by lia. lia.
Qed.

Lemma alloc_block_ok m r m' : mnt_ok m -> ufs_alloc_block m = (r, m') ->
  (r = 0 /\ (exists l, is_block l /\ m' = set_blk_buf l m) /\ forall b, data_start (sb m) <= b < total m -> in_use m b = true) \/
  (got_block m r m' /\ (r = alloc_start m \/ total m <= alloc_start m \/ in_use m (alloc_start m) = true)).
Proof.
  intros Hm. pose proof (layout_order _ (mo_layout _ Hm)) as Ho. pose proof (mo_next _ Hm) as Hn. pose proof (total_pos m Hm) as Hp.
  unfold ufs_alloc_block.
  replace (if next_free_block m <? data_start (sb m) then data_start (sb m) else next_free_block m) with (alloc_start m)
    by (unfold alloc_start; destruct (Z.ltb_spec (next_free_block m) (data_start (sb m))); lia).
  intros E. apply alloc_scan_ok in E as [(E1 & E2 & E3)|(E1 & k & Hk & Ek & E3)]; [| |done].
  - left. split_and!; [done|done|]. intros b Hb. destruct (candidates_cover m b Hm Hb) as (k & Hk & Ec).
    specialize (E3 k ltac:(unfold total in *; lia)). rewrite Z.add_0_l, Ec in E3. auto.
  - right. split; [done|]. destruct (Z.le_gt_cases (total m) (alloc_start m)) as [Hge|Hlt]; [by right; left|].
    assert (Ec : candidate m (alloc_start m) (0 + 0) = alloc_start m).
    { pose proof (lo_total _ (mo_layout _ Hm)). unfold candidate, alloc_start in *. unfold total in *. rewrite !Z.add_0_r, u32_small by lia.
      by rewrite (proj2 (Z.leb_gt _ _)) by lia. }
    destruct (Z.eq_dec k 0) as [->|Hk0]; [left; by rewrite Ek|right; right]. specialize (E3 0 ltac:(lia)). rewrite Ec in E3.
    apply E3. unfold alloc_start in *. lia.
Qed.

End AllocSpec.

(** ** Inodes on the disk *)

Lemma drop_store i l p : 0 <= i -> i + Z.of_nat (length l) <= Z.of_nat (length p) ->
  drop (Z.to_nat i) (store i l p) = l ++ drop (Z.to_nat i + length l) p.
Proof. intros Hi Hl. unfold store. apply drop_app_length'. rewrite length_take. lia. Qed.

(** The [n] bytes at [k] are outside the range that was stored. *)
Lemma slice_store i l p k n : 0 <= i -> i + Z.of_nat (length l) <= Z.of_nat (length p) ->
  (k + n <= Z.to_nat i \/ Z.to_nat i + length l <= k)%nat -> take n (drop k (store i l p)) = take n (drop k p).
Proof.
  intros Hi Hl Hk. apply list_eq_nth.
  - rewrite !length_take, !length_drop, store_length by done. done.
  - intros j Hj. rewrite length_take in Hj. rewrite !nth_firstn. destruct (Nat.ltb_spec j n); [|done].
    rewrite !nth_skipn. rewrite nth_store by done. destruct Hk.
    + rewrite (proj2 (Nat.leb_gt _ _)) by lia. done.
    + rewrite (proj2 (Nat.ltb_ge (k + j) _)) by lia. by rewrite andb_false_r.
Qed.

Lemma get8_take l n i : i < Z.of_nat n -> get8 (take n l) i = get8 l i.
Proof. intros Hi. unfold get8. destruct (Z.ltb_spec i 0); [done|]. apply lookup_take_lt. lia. Qed.

Lemma get16_take l n i : i + 2 <= Z.of_nat n -> get16 (take n l) i = get16 l i.
Proof. intros Hi. unfold get16. by rewrite !get8_take by lia. Qed.

Lemma get32_take l n i : i + 4 <= Z.of_nat n -> get32 (take n l) i = get32 l i.
Proof. intros Hi. unfold get32. by rewrite !get16_take by lia. Qed.

(** An inode is determined by its 136 bytes. *)
Lemma inode_of_take l : inode_of (take 136 l) = inode_of l.
Proof.
  assert (W : forall i, i + 4 <= 136 -> w32 (take 136 l) i = w32 l i) by (intros; unfold w32; by rewrite get32_take by lia).
  unfold inode_of, w16. rewrite !get16_take, !W by lia. f_equal.
  - apply list_fmap_ext. intros k x Hx. apply lookup_seq in Hx as [-> Hx]. cbv zeta. by rewrite !W by lia.
  - unfold bytes_words. apply list_fmap_ext. intros k x Hx. apply lookup_seq in Hx as [-> Hx]. unfold w32.
    rewrite !get32_shift by lia. by rewrite get32_take by lia.
Qed.

Section Inodes.
Context {D : Type} `{BlockDeviceLaws D}.
Implicit Types m : ufs_mount_t D.

Definition valid_ino m (ino : Z) : Prop := 1 <= ino <= inode_count (sb m).

(** The inode [ino] as it is on the disk. *)
Definition inode_at m (ino : Z) : ufs_inode_t := inode_of (drop (Z.to_nat (inode_off ino)) (view m (inode_block ino m))).

Lemma inode_range m ino : mnt_ok m -> valid_ino m ino ->
  bad_inode ino m = false /\ inode_block ino m = inode_table_start (sb m) + (ino - 1) / 30 /\
  inode_table_start (sb m) <= inode_block ino m < data_start (sb m) /\ 0 <= inode_off ino /\ inode_off ino + 136 <= 4096.
Proof.
  intros Hm Hi. pose proof (layout_order _ (mo_layout _ Hm)) as Ho. destruct (mo_layout _ Hm) as [_ _ _ L4 L5 _]. unfold valid_ino in Hi.
  assert (Hq : 0 <= (ino - 1) / 30 /\ (ino - 1) / 30 < (inode_count (sb m) + 29) / 30) by dlia.
  assert (E : inode_block ino m = inode_table_start (sb m) + (ino - 1) / 30) by (apply u32_small; lia).
  rewrite E. unfold inode_off, inodes_per_block, sizeof_inode. split_and!; [|done|lia|lia|dlia|dlia].
  unfold bad_inode. apply orb_false_iff. split; [apply Z.eqb_neq; lia|apply Z.ltb_ge; lia].
Qed.

Lemma frame_inode_buf P m l : mnt_ok m -> frame P m (set_inode_buf l m).
Proof. intros [H1 H2 H3 H4]. split; [by split|done|done|done|by apply rest_same]. Qed.

Lemma read_inode_ok m ino : mnt_ok m -> valid_ino m ino ->
  exists l, ufs_read_inode ino m = (Some (inode_at m ino), set_inode_buf l m).
Proof.
  intros Hm Hi. pose proof (inode_range m ino Hm Hi) as (Hb & _ & Hr & _). pose proof (layout_order _ (mo_layout _ Hm)).
  unfold ufs_read_inode. rewrite Hb. destruct (read_ok m (inode_block ino m) Hm) as [-> _]; [unfold total; lia|]. by eexists.
Qed.

Lemma frame_inode P m m' ino :
  frame P m m' -> mnt_ok m -> valid_ino m ino -> (forall x, inode_table_start (sb m) <= x < data_start (sb m) -> ~ P x) ->
  inode_at m' ino = inode_at m ino.
Proof.
  intros F Hm Hi HP. pose proof (inode_range m ino Hm Hi) as (_ & _ & Hr & _). pose proof (geom_total _ _ (fr_geom _ _ _ F)) as (_ & _ & _ & Eb & _).
  pose proof (layout_order _ (mo_layout _ Hm)). unfold inode_at.
  replace (inode_block ino m') with (inode_block ino m) by (unfold inode_block; by rewrite Eb).
  rewrite (fr_view _ _ _ F); [done|unfold total; lia|auto].
Qed.

Lemma write_inode_ok m ino i : mnt_ok m -> valid_ino m ino -> inode_wf i ->
  exists m', ufs_write_inode ino i m = (0, m') /\ frame (eq (inode_block ino m)) m m' /\
    (forall ino', valid_ino m ino' -> inode_at m' ino' = if decide (ino' = ino) then i else inode_at m ino') /\
    sb m' = sb m /\ next_free_block m' = next_free_block m /\ next_free_inode m' = next_free_inode m.
Proof.
  intros Hm Hi Hw. pose proof (inode_range m ino Hm Hi) as (Hb & Eb & Hr & Ho1 & Ho2). pose proof (layout_order _ (mo_layout _ Hm)).
  unfold ufs_write_inode. rewrite Hb. destruct (read_ok m (inode_block ino m) Hm) as [-> Hbl]; [unfold total; lia|].
  pose proof (inode_bytes_length i Hw) as Hlen. set (l := view m (inode_block ino m)) in *. set (buf := store (inode_off ino) (inode_bytes i) l).
  assert (Hbuf : is_block buf) by (apply store_is_block; [done|apply inode_bytes_bytes|lia|lia]).
  pose proof (frame_inode_buf (eq (inode_block ino m)) m buf Hm) as F1. cbn [inode_buf set_inode_buf].
  change (inode_block ino (set_inode_buf buf m)) with (inode_block ino m).
  destruct (write_ok (set_inode_buf buf m) (inode_block ino m) buf (fr_ok _ _ _ F1)) as (d & -> & F2 & V2); [unfold total; cbn; lia|done|].
  eexists. split; [reflexivity|]. pose proof (frame_trans _ _ _ _ _ F1 F2) as F.
  split_and!; try reflexivity; [eapply frame_impl; [|exact F]; cbn; tauto|].
  intros ino' Hi'. pose proof (inode_range m ino' Hm Hi') as (_ & Eb' & Hr' & Ho1' & Ho2'). unfold inode_at.
  change (inode_block ino' (set_dev (Some d) (set_inode_buf buf m))) with (inode_block ino' m). destruct Hbl as [Hll _].
  destruct (decide (ino' = ino)) as [->|Hne].
  - rewrite V2. unfold buf. rewrite drop_store by lia. by apply inode_of_bytes.
  - destruct (Z.eq_dec (inode_block ino' m) (inode_block ino m)) as [Em|Em].
    + rewrite Em, V2. unfold buf. 
      assert (inode_off ino' + 136 <= inode_off ino \/ inode_off ino + 136 <= inode_off ino')
        by (unfold inode_off, inodes_per_block, sizeof_inode in *; dlia).
      rewrite <- (inode_of_take (drop _ (store _ _ _))), slice_store by lia. by rewrite inode_of_take.
    + rewrite (fr_view _ _ _ F); [done|unfold total; lia|]. intros [?|?]; congruence.
Qed.

End Inodes.

(** ** Every inode on the disk is well formed *)

Lemma get8_byte l i v : byte_list l -> get8 l i = Some v -> 0 <= v < 256.
Proof. unfold get8. destruct (_ <? _); [done|]. intros Hb Hv. by apply (Forall_lookup_1 _ _ _ _ Hb Hv). Qed.

Lemma w16_u16 l i : byte_list l -> is_u16 (w16 l i).
Proof.
  intros Hb. unfold w16, get16, is_u16. destruct (get8 l i) as [a|] eqn:Ea; [|cbn; lia]. destruct (get8 l (i + 1)) as [b|] eqn:Eb; [|cbn; lia].
  cbn. pose proof (get8_byte _ _ _ Hb Ea). pose proof (get8_byte _ _ _ Hb Eb). lia.
Qed.

Lemma w32_u32 l i : byte_list l -> is_u32 (w32 l i).
Proof.
  intros Hb. unfold w32, get32, is_u32. pose proof (w16_u16 l i Hb) as H1. pose proof (w16_u16 l (i + 2) Hb) as H2. unfold w16, is_u16 in *.
  destruct (get16 l i) as [a|]; [|cbn; lia]. destruct (get16 l (i + 2)) as [b|]; [|cbn; lia]. cbn in *. lia.
Qed.

Lemma inode_of_wf l : byte_list l -> inode_wf (inode_of l).
Proof.
  intros Hb. split; try (apply w16_u16, Hb); try reflexivity.
  - repeat (apply Forall_cons; split; [apply w32_u32, Hb|]). constructor.
  - apply Forall_fmap, Forall_true. intros k. split; apply w32_u32, Hb.
  - apply Forall_fmap, Forall_true. intros k. apply w32_u32, Forall_drop, Hb.
Qed.

Section SpecClaims.
Context {D : Type} `{BlockDeviceLaws D}.
Implicit Types m : ufs_mount_t D.

Lemma free_block_ok m b : mnt_ok m -> 0 < b < total m ->
  let m' := ufs_free_block b m in
  frame (fun x => x = 0 \/ x = map_block b m) m m' /\
  (forall b', 0 <= b' < total m -> in_use m' b' = if decide (b' = b) then false else in_use m b') /\
  free_blocks (sb m') = u32 (free_blocks (sb m) + 1) /\ next_free_block m' = Z.min b (next_free_block m) /\
  next_free_inode m' = next_free_inode m /\ sb_synced m'.
Proof.
  intros Hm Hb. pose proof (layout_order _ (mo_layout _ Hm)) as Ho. unfold ufs_free_block.
  rewrite (proj2 (Z.eqb_neq b 0)), (proj2 (Z.leb_gt _ _)) by (unfold total in *; lia). cbn [orb].
  destruct (map_block_range m b Hm ltac:(lia)) as (_ & Hmb & _).
  destruct (bitmap_set_ok m b false Hm ltac:(lia)) as (m1 & -> & F1 & U1 & S1 & N1 & I1). cbn [snd].
  pose proof (fr_ok _ _ _ F1) as Hm1. pose proof (frame_total _ _ _ F1) as T1.
  pose proof (sb_counts _ (lo_wf _ (mo_layout _ Hm1))) as (C1 & C2 & C3 & _).
  set (s2 := set_free_blocks _ _). destruct (frame_sb (fun _ => False) m1 s2 Hm1) as [F2 V2]; [by destruct (sb m1)|apply u32_range|done|done|].
  pose proof (frame_total _ _ _ F2) as T2. set (m3 := if _ <? _ then _ else _).
  assert (F3 : frame (fun _ => False) (set_sb s2 m1) m3 /\ sb m3 = s2 /\ next_free_block m3 = Z.min b (next_free_block m) /\ next_free_inode m3 = next_free_inode m).
  { unfold m3. cbn [next_free_block set_sb]. destruct (Z.ltb_spec b (next_free_block m1)).
    - split; [apply frame_next; [apply F2|lia]|]. cbn. split_and!; [done|lia|done].
    - split; [apply frame_refl, F2|]. cbn. split_and!; [done|lia|done]. }
  destruct F3 as (F3 & S3 & N3 & I3). pose proof (fr_ok _ _ _ F3) as Hm3.
  destruct (superblock_ok m3 Hm3) as (m4 & E4 & F4 & S4 & _ & N4 & I4). pose proof (superblock_synced m3 Hm3) as Hsync. rewrite E4 in *. cbn [snd] in *.
  pose proof (frame_trans _ _ _ _ _ F2 (frame_trans _ _ _ _ _ F3 F4)) as F24. split_and!.
  - eapply frame_impl; [|exact (frame_trans _ _ _ _ _ F1 F24)]. cbn. intros x _. intuition congruence.
  - intros b' Hb'. rewrite <- (U1 b' Hb'). apply (frame_used _ m1 m4 b' F24 Hm1); [lia|]. rewrite S1. cbn. intros x Hx. intuition lia.
  - rewrite S4, S3. cbn. by rewrite S1.
  - by rewrite N4.
  - by rewrite I4.
  - done.
Qed.

Lemma inode_at_wf m ino : mnt_ok m -> valid_ino m ino -> inode_wf (inode_at m ino).
Proof.
  intros Hm Hi. apply inode_of_wf, Forall_drop. pose proof (inode_range m ino Hm Hi) as (_ & _ & Hr & _). pose proof (layout_order _ (mo_layout _ Hm)).
  apply (read_ok m); [done|unfold total; lia].
Qed.

(** The block allocator.  On a well-formed file system [ufs_alloc_block] returns 0 only
    when every data block is in use, and then changes no block; otherwise it returns a
    data block that was free, marks it, fills it with zeros, changes nothing but it, its
    byte of the bitmap and the superblock, and the superblock on the disk has the new
    count and a correct checksum.  Freeing the block makes every block's status what it
    was before. *)
Theorem ufs_alloc_block_spec m : mnt_ok m ->
  exists r m', ufs_alloc_block m = (r, m') /\ mnt_ok m' /\
    ((r = 0 /\ (forall b, data_start (sb m) <= b < total m -> in_use m b = true) /\ forall b, view m' b = view m b) \/
     (data_start (sb m) <= r < total m /\ in_use m r = false /\ view m' r = zero_block /\
      (forall b, 0 <= b < total m -> in_use m' b = if decide (b = r) then true else in_use m b) /\
      (forall b, 0 < b < total m -> b <> r -> b <> map_block r m -> view m' b = view m b) /\
      free_blocks (sb m') = u32 (free_blocks (sb m) - 1) /\ sb_synced m' /\
      let m'' := ufs_free_block r m' in
      mnt_ok m'' /\ sb_synced m'' /\ (forall b, 0 <= b < total m -> in_use m'' b = in_use m b))).
Proof.
  intros Hm. destruct (ufs_alloc_block m) as [r m'] eqn:E. exists r, m'. split; [done|].
  apply alloc_block_ok in E as [(-> & (l & Hl & ->) & Hall)|((Hr & Hu & F & V & U & Hf & _ & _ & Hs) & _)]; [| |done].
  { split; [apply (frame_buf (fun _ => False) m l Hm Hl)|]. by left. }
  split; [apply F|right]. pose proof (layout_order _ (mo_layout _ Hm)). pose proof (frame_total _ _ _ F) as Ht.
  destruct (free_block_ok m' r (fr_ok _ _ _ F)) as (F2 & U2 & _ & _ & _ & S2); [lia|]. split_and!; try done; try lia; [|cbv zeta; split_and!; [apply F2|done|]].
  - intros b Hb Hne1 Hne2. apply (fr_view _ _ _ F); [lia|]. intros [?|[?|?]]; lia.
  - intros b Hb. rewrite U2, U by lia. by destruct (decide (b = r)) as [->|].
Qed.

(** C26. Inodes.  Whatever the disk holds, an inode that is read has every field in the range
    of its C type; an inode that is written is read back as it was, although thirty of
    them share a block, and no other inode, no data block and no byte of the bitmap
    changes. *)
Theorem ufs_inode_roundtrip m ino i : mnt_ok m -> valid_ino m ino -> inode_wf i ->
  (exists old m0, ufs_read_inode ino m = (Some old, m0) /\ inode_wf old) /\
  exists m', ufs_write_inode ino i m = (0, m') /\ mnt_ok m' /\
    (exists m'', ufs_read_inode ino m' = (Some i, m'')) /\
    (forall ino', valid_ino m ino' -> ino' <> ino -> (ufs_read_inode ino' m').1 = (ufs_read_inode ino' m).1) /\
    (forall b, 0 <= b < total m -> b < inode_table_start (sb m) \/ data_start (sb m) <= b -> view m' b = view m b).
Proof.
  intros Hm Hi Hw. pose proof (inode_range m ino Hm Hi) as (_ & _ & Hr & _). split.
  - destruct (read_inode_ok m ino Hm Hi) as (l & E). eexists _, _. split; [exact E|]. by apply inode_at_wf.
  - destruct (write_inode_ok m ino i Hm Hi Hw) as (m' & E & F & I & S & _). exists m'. pose proof (fr_ok _ _ _ F) as Hm'.
    assert (Hv : forall x, valid_ino m x -> valid_ino m' x) by (unfold valid_ino; by rewrite S). split_and!; [done|done| | |].
    + destruct (read_inode_ok m' ino Hm' (Hv _ Hi)) as (l & ->). rewrite (I ino Hi), decide_True by done. by eexists.
    + intros x Hx Hne. destruct (read_inode_ok m' x Hm' (Hv _ Hx)) as (l & ->). destruct (read_inode_ok m x Hm Hx) as (l' & ->).
      cbn [fst]. by rewrite (I x Hx), decide_False by done.
    + intros b Hb Ho. apply (fr_view _ _ _ F); [done|]. lia.
Qed.

End SpecClaims.

Lemma new_inode_wf mode nlink ticks : is_u16 nlink -> is_u32 ticks -> inode_wf (new_inode mode nlink ticks).
Proof.
  intros Hn Ht. assert (is_u32 0) by (unfold is_u32; lia). assert (is_u16 0) by (unfold is_u16; lia).
  split; cbn [i_mode i_uid i_gid i_nlink i_size i_blocks i_atime i_mtime i_ctime i_checksum i_extents i_pad new_inode set_i_ctime set_i_mtime set_i_atime
    set_i_nlink set_i_mode zero_inode]; try done.
  - apply u16_range.
  - repeat (constructor; [done|]). constructor.
  - by apply Forall_replicate.
  - by apply Forall_replicate.
Qed.

(** ** Witnesses: a disk of 64 blocks just formatted *)

Definition bytes_ok (l : list Z) : bool := Nat.eqb (length l) 4096 && forallb (fun b => (0 <=? b) && (b <? 256)) l.

Lemma bytes_ok_block l : bytes_ok l = true -> is_block l.
Proof.
  intros E. apply andb_true_iff in E as [E1 E2]. apply Nat.eqb_eq in E1. split; [done|]. apply Forall_forall. intros x Hx.
  rewrite forallb_forall in E2. apply list_elem_of_In in Hx. specialize (E2 x Hx). zbool. lia.
Qed.

(** [mnt_ok] as a computation. *)
Definition mnt_check {D} `{BlockDeviceLaws D} (m : ufs_mount_t D) : bool :=
  let s := sb m in
  match dev m with Some d => total m <=? dev_size d | None => false end &&
  forallb (fun x => (0 <=? x) && (x <? 2 ^ 32)) (sb_words s) && Nat.eqb (length (s_pad s)) 54 &&
  (0 <? bitmap_start s) && (bitmap_start s + (total_blocks s + 32767) / 32768 <=? inode_table_start s) &&
  (inode_table_start s + (inode_count s + 29) / 30 <=? data_start s) && (data_start s <=? total_blocks s) && (total_blocks s <? 2 ^ 31) &&
  (0 <=? inode_count s) && bytes_ok (blk_buf m) && (0 <=? next_free_block m) && (next_free_block m <=? total m).

Lemma mnt_check_ok {D} `{BlockDeviceLaws D} (m : ufs_mount_t D) : mnt_check m = true -> mnt_ok m.
Proof.
  unfold mnt_check. intros E. repeat (apply andb_true_iff in E as [E ?]). zbool. split.
  - destruct (dev m) as [d|]; [|done]. exists d. split; [done|]. by apply Z.leb_le.
  - split; try lia. split; [|by apply Nat.eqb_eq]. apply Forall_forall. intros x Hx.
    match goal with Hf : forallb _ (sb_words _) = true |- _ => rewrite forallb_forall in Hf; apply list_elem_of_In in Hx; specialize (Hf x Hx) end.
    zbool. unfold is_u32. lia.
  - by apply bytes_ok_block.
  - lia.
Qed.

Lemma fresh_ok : mnt_ok (fresh 64).
Proof. apply mnt_check_ok. vm_compute. reflexivity. Qed.

Lemma ufs_alloc_block_spec_witness :
  exists r m', ufs_alloc_block (fresh 64) = (r, m') /\ r = 38 /\ view m' 38 = zero_block.
Proof.
  destruct (ufs_alloc_block_spec (fresh 64) fresh_ok) as (r & m' & E & _ & Hcase).
  assert (Er : (ufs_alloc_block (fresh 64)).1 = 38) by (vm_compute; reflexivity).
  exists r, m'. rewrite E in Er. cbn [fst] in Er. subst r. split; [exact E|]. split; [reflexivity|].
  destruct Hcase as [(Hz & _)|(_ & _ & Hv & _)]; [discriminate Hz|exact Hv].
Defined.

Lemma ufs_inode_roundtrip_witness :
  exists m', ufs_write_inode 31 (new_inode UFS_INODE_FILE 1 9) (fresh 64) = (0, m') /\
    exists m'', ufs_read_inode 31 m' = (Some (new_inode UFS_INODE_FILE 1 9), m'').
Proof.
  destruct (ufs_inode_roundtrip (fresh 64) 31 (new_inode UFS_INODE_FILE 1 9) fresh_ok) as (_ & m' & E & _ & Hr & _).
  - unfold valid_ino. assert (inode_count (sb (fresh 64)) = 1024) as -> by (vm_compute; reflexivity). lia.
  - apply new_inode_wf; unfold is_u16, is_u32; lia.
  - exists m'. split; [exact E|exact Hr].
Defined.
