(* ===== verification/UfsFile.v ===== *)
(** * Files of UFS: kernel/fs/ufs.c

    A file is the list of blocks its extents name; its contents are the bytes of these
    blocks up to its size.  A write of [ufs_vfs_write] stores the data in that array of
    bytes, growing it by blocks the allocator hands out, and [ufs_vfs_read] returns
    slices of it. *)

From S2P Require Import Prelude Bytes KMalloc Vfs Ufs UfsSpec.

(** ** Extents *)

(** The blocks of a run of extents. *)
Fixpoint xblocks (xs : list extent_t) : list Z :=
  match xs with
  | [] => []
  | x :: xs => if x_len x =? 0 then [] else ((fun k => u32 (x_start x + k)) <$> seqZ 0 (x_len x)) ++ xblocks xs
  end.

Definition xlen_ok (x : extent_t) : Prop := 0 <= x_len x < 2 ^ 32.

Lemma get_extent_nth xs idx : Forall xlen_ok xs -> 0 <= idx -> get_extent xs idx = nth (Z.to_nat idx) (xblocks xs) 0.
Proof.
  intros Hx. revert idx. induction Hx as [|x xs Hl _ IH]; intros idx Hi; [by destruct (Z.to_nat idx)|].
  cbn [get_extent xblocks]. destruct (Z.eqb_spec (x_len x) 0) as [E|E]; [by destruct (Z.to_nat idx)|]. red in Hl.
  assert (Hlen : length ((fun k => u32 (x_start x + k)) <$> seqZ 0 (x_len x)) = Z.to_nat (x_len x)) by (rewrite length_fmap, length_seqZ; done).
  destruct (Z.ltb_spec idx (x_len x)) as [Hlt|Hge].
  - rewrite app_nth1 by lia. symmetry. apply nth_lookup_Some. rewrite list_lookup_fmap, lookup_seqZ_lt by lia. cbn. do 2 f_equal. lia.
  - rewrite app_nth2 by lia. rewrite IH by lia. f_equal. lia.
Qed.

(** Where the extents before the last one end, and where the last one ends. *)
Fixpoint inner_ends (xs : list extent_t) : list Z :=
  match xs with
  | x :: (y :: _) as t => if (x_len x =? 0) || (x_len y =? 0) then [] else u32 (x_start x + x_len x) :: inner_ends t
  | _ => []
  end.

Fixpoint last_end (xs : list extent_t) : option Z :=
  match xs with
  | x :: xs => if x_len x =? 0 then None else Some (default (u32 (x_start x + x_len x)) (last_end xs))
  | [] => None
  end.

(** No extent is in use behind one that is not. *)
Fixpoint compact (xs : list extent_t) : Prop :=
  match xs with
  | [] => True
  | x :: xs => if x_len x =? 0 then Forall (fun y => x_len y = 0) xs else compact xs
  end.

Lemma zero_extents xs : Forall (fun y => x_len y = 0) xs -> xblocks xs = [] /\ last_end xs = None /\ compact xs.
Proof. destruct 1 as [|x xs E Hx]; [done|]. cbn. by rewrite E. Qed.

Lemma inner_ends_zero x xs : Forall (fun y => x_len y = 0) xs -> inner_ends (x :: xs) = [].
Proof. destruct 1 as [|y xs E Hx]; [done|]. cbn [inner_ends]. rewrite E. by rewrite orb_true_r. Qed.

Lemma inner_ends_unused y xs : x_len y = 0 -> inner_ends (y :: xs) = [].
Proof. intros E. destruct xs as [|z xs]; [done|]. cbn [inner_ends]. by rewrite E. Qed.

Lemma inner_ends_cons x y xs : x_len x <> 0 -> x_len y <> 0 ->
  inner_ends (x :: y :: xs) = u32 (x_start x + x_len x) :: inner_ends (y :: xs).
Proof. intros Hx Hy. cbn [inner_ends]. by rewrite (proj2 (Z.eqb_neq (x_len x) 0)), (proj2 (Z.eqb_neq (x_len y) 0)) by done. Qed.

(** What is in use behind [x] stays behind it. *)
Lemma inner_ends_incl x xs e : x_len x <> 0 -> e ∈ inner_ends xs -> e ∈ inner_ends (x :: xs).
Proof.
  intros Hx He. destruct xs as [|y xs]; [by apply elem_of_nil in He|]. destruct (Z.eq_dec (x_len y) 0) as [Ey|Ey].
  - rewrite inner_ends_unused in He by done. by apply elem_of_nil in He.
  - rewrite inner_ends_cons by done. by apply list_elem_of_further.
Qed.

(** The first extent is the last one in use. *)
Lemma lone_extent x xs b : x_len x <> 0 -> compact xs -> u32 (x_start x + x_len x) = b -> b ∉ inner_ends (x :: xs) ->
  Forall (fun y => x_len y = 0) xs.
Proof.
  intros Hx Hc Hb Hn. destruct xs as [|y xs]; [done|]. cbn [inner_ends] in Hn. rewrite (proj2 (Z.eqb_neq (x_len x) 0)) in Hn by done.
  cbn [orb] in Hn. cbn [compact] in Hc. destruct (Z.eqb_spec (x_len y) 0) as [E|E]; [by constructor|]. exfalso. apply Hn. rewrite Hb. apply list_elem_of_here.
Qed.

(** A block that no earlier extent ends at is appended at the end of the file. *)
Lemma append_in_order xs : forall b xs',
  Forall xlen_ok xs -> compact xs -> Z.of_nat (length (xblocks xs)) < 2 ^ 31 -> is_u32 b ->
  b ∉ inner_ends xs -> append_extent xs b = Some xs' ->
  xblocks xs' = xblocks xs ++ [b] /\ compact xs' /\ Forall xlen_ok xs' /\ length xs' = length xs /\
  last_end xs' = Some (u32 (b + 1)) /\
  (forall e, e ∈ inner_ends xs' -> e ∈ inner_ends xs \/ (last_end xs = Some e /\ e <> b)).
Proof.
  induction xs as [|x xs IH]; intros b xs' Hl Hc Hn Hb Hin; [done|]. apply Forall_cons in Hl as [Hx Hl]. cbn [append_extent].
  destruct (Z.eqb_spec (x_len x) 0) as [E|E].
  { intros [= <-]. cbn [compact] in Hc. rewrite E in Hc. cbn [Z.eqb] in Hc. destruct (zero_extents _ Hc) as (Z1 & Z2 & Z3).
    cbn [xblocks last_end x_len x_start length]. rewrite E. cbn [Z.eqb]. rewrite Z1, Z2. split_and!; [|done|by constructor|done|done|].
    - change ([u32 (b + 0)] = [b]). by rewrite Z.add_0_r, u32_small.
    - rewrite inner_ends_zero by done. intros e He. by apply elem_of_nil in He. }
  assert (Hx0 : (x_len x =? 0) = false) by by apply Z.eqb_neq. cbn [compact] in Hc. rewrite Hx0 in Hc.
  pose proof Hn as Hn'. cbn [xblocks] in Hn. rewrite Hx0, length_app, length_fmap, length_seqZ in Hn. red in Hx.
  destruct (Z.eqb_spec (u32 (x_start x + x_len x)) b) as [Eb|Eb].
  - intros [= <-]. pose proof (lone_extent x xs b E Hc Eb Hin) as Hz. destruct (zero_extents _ Hz) as (Z1 & Z2 & Z3).
    rewrite (u32_small (x_len x + 1)) by lia. cbn [xblocks last_end x_len x_start length compact]. rewrite Hx0, (proj2 (Z.eqb_neq (x_len x + 1) 0)), Z1, Z2 by lia.
    split_and!; [|done|constructor; [unfold xlen_ok; cbn; lia|done]|done| |].
    + rewrite !app_nil_r. rewrite seqZ_app by lia. rewrite fmap_app. f_equal. rewrite Z.add_0_l, seqZ_cons, seqZ_nil by lia. change ([u32 (x_start x + x_len x)] = [b]). by rewrite Eb.
    + cbn. f_equal. rewrite <- Eb. unfold u32. rewrite Zplus_mod_idemp_l. f_equal. lia.
    + rewrite inner_ends_zero by done. intros e He. by apply elem_of_nil in He.
  - destruct (append_extent xs b) as [t|] eqn:Et; [|done]. cbn [mbind option_bind]. intros [= <-].
    assert (Hin' : b ∉ inner_ends xs).
    { intros Hbad. apply Hin. by apply inner_ends_incl. }
    destruct (IH b t Hl Hc ltac:(lia) Hb Hin' Et) as (I1 & I2 & I3 & I4 & I5 & I6).
    cbn [xblocks last_end length compact]. rewrite Hx0, I1, I5. cbn [default]. split_and!; [by rewrite app_assoc|done|by constructor|by rewrite I4|done|].
    intros e He. destruct t as [|y' t]; [by apply elem_of_nil in He|].
    destruct (Z.eq_dec (x_len y') 0) as [Ey'|Ey']; [cbn [inner_ends] in He; rewrite Hx0, Ey' in He; by apply elem_of_nil in He|].
    rewrite inner_ends_cons in He by done. apply elem_of_cons in He as [->|He].
    + destruct xs as [|y xs]; [done|]. destruct (Z.eq_dec (x_len y) 0) as [Ey|Ey].
      * right. cbn [last_end]. by rewrite Ey.
      * left. rewrite inner_ends_cons by done. apply list_elem_of_here.
    + destruct (I6 e He) as [He'|[He' Hne]]; [left; by apply inner_ends_incl|right]. split; [|done]. by rewrite He'.
Qed.

(** The end of the last extent is behind the last block. *)
Lemma last_end_block xs e : Forall xlen_ok xs -> last_end xs = Some e -> exists b, last (xblocks xs) = Some b /\ e = u32 (b + 1).
Proof.
  intros Hl. revert e. induction Hl as [|x xs Hx _ IH]; intros e; cbn [last_end xblocks]; [done|].
  destruct (Z.eqb_spec (x_len x) 0) as [E|E]; [done|]. red in Hx. intros [= <-]. destruct (last_end xs) as [e'|] eqn:El; cbn [default].
  - destruct (IH e' eq_refl) as (b & Hb & ->). exists b. split; [|done]. by rewrite last_app, Hb.
  - assert (Hnil : xblocks xs = []). { destruct xs as [|y xs]; [done|]. cbn [last_end xblocks] in *. by destruct (x_len y =? 0). }
    exists (u32 (x_start x + (x_len x - 1))). rewrite Hnil, app_nil_r. split.
    + rewrite fmap_last. replace (x_len x) with (x_len x - 1 + 1) at 1 by lia. rewrite seqZ_app by lia. rewrite last_app, (seqZ_cons _ 1), seqZ_nil by lia. reflexivity.
    + unfold u32. rewrite Zplus_mod_idemp_l. f_equal. lia.
Qed.

Lemma append_full xs b : append_extent xs b = None -> Forall (fun x => x_len x <> 0) xs.
Proof.
  induction xs as [|x xs IH]; [constructor|]. cbn [append_extent]. destruct (Z.eqb_spec (x_len x) 0); [done|]. destruct (_ =? b); [done|].
  destruct (append_extent xs b); [done|]. intros _. constructor; auto.
Qed.

(** ** Stores into arrays of bytes *)

Lemma store_nil i (p : list Z) : store i [] p = p.
Proof. unfold store. cbn. by rewrite Nat.add_0_r, take_drop. Qed.

Lemma store_app_l i a (p z : list Z) : 0 <= i -> i + Z.of_nat (length a) <= Z.of_nat (length p) -> store i a (p ++ z) = store i a p ++ z.
Proof.
  intros Hi Hl. unfold store. rewrite take_app_le, drop_app_le by lia. by rewrite <- !app_assoc.
Qed.

Lemma store_app_r i a (p z : list Z) : 0 <= i -> store (Z.of_nat (length p) + i) a (p ++ z) = p ++ store i a z.
Proof.
  intros Hi. unfold store. rewrite take_app_ge, drop_app_ge by lia. rewrite <- app_assoc. do 2 f_equal; [f_equal; lia|]. do 2 f_equal. lia.
Qed.

Lemma store_store i a b (p : list Z) : 0 <= i -> i + Z.of_nat (length a) + Z.of_nat (length b) <= Z.of_nat (length p) ->
  store (i + Z.of_nat (length a)) b (store i a p) = store i (a ++ b) p.
Proof.
  intros Hi Hl. set (n := Z.to_nat i). assert (Hn : length (take n p) = n) by (rewrite length_take; lia).
  unfold store at 2. fold n. rewrite (app_assoc (take n p)).
  replace (i + Z.of_nat (length a)) with (Z.of_nat (length (take n p ++ a)) + 0) by (rewrite length_app; lia).
  rewrite store_app_r by lia. unfold store. cbn [Z.to_nat take app Nat.add]. fold n. rewrite drop_drop, <- !app_assoc, length_app.
  replace (n + (length a + length b))%nat with (n + length a + length b)%nat by lia. done.
Qed.

(** A store into the first [k] bytes, or over their end. *)
Lemma take_store k i a (p : list Z) : 0 <= i -> (Z.to_nat i <= k)%nat -> (Z.to_nat i + length a <= length p)%nat ->
  take (k `max` (Z.to_nat i + length a)) (store i a p) = store i a (take k p).
Proof.
  intros Hi Hk Hp. unfold store. set (n := Z.to_nat i) in *. assert (Hn : length (take n p) = n) by (rewrite length_take; lia).
  rewrite take_app_ge, Hn, take_app_ge by lia. rewrite take_take, Nat.min_l, skipn_firstn_comm by lia. do 3 f_equal. lia.
Qed.

Section Contents.
Context {D : Type} `{BlockDeviceLaws D}.
Implicit Types m : ufs_mount_t D.

(** The bytes of the blocks [bs]. *)
Definition fbytes m (bs : list Z) : list Z := concat (view m <$> bs).

Definition in_data m (b : Z) : Prop := data_start (sb m) <= b < total m.

(** The blocks of a file: data blocks marked as used, each once. *)
Record blocks_ok m (bs : list Z) : Prop := {
  bo_nodup : NoDup bs;
  bo_data : Forall (in_data m) bs;
  bo_used : Forall (fun b => in_use m b = true) bs }.

Lemma fbytes_app m bs1 bs2 : fbytes m (bs1 ++ bs2) = fbytes m bs1 ++ fbytes m bs2.
Proof. unfold fbytes. by rewrite fmap_app, concat_app. Qed.

Lemma data_range m b : mnt_ok m -> in_data m b -> 0 < b < total m.
Proof. intros Hm [H1 H2]. pose proof (layout_order _ (mo_layout _ Hm)). lia. Qed.

Lemma fbytes_length m bs : mnt_ok m -> Forall (in_data m) bs -> length (fbytes m bs) = (4096 * length bs)%nat.
Proof.
  intros Hm. induction 1 as [|b bs Hb _ IH]; [done|]. change (fbytes m (b :: bs)) with (view m b ++ fbytes m bs).
  rewrite length_app, IH. destruct (read_ok m b Hm) as [_ [-> _]]; [pose proof (data_range m b Hm Hb); lia|]. cbn [length]. lia.
Qed.

Lemma fbytes_ext m m' bs : Forall (fun b => view m' b = view m b) bs -> fbytes m' bs = fbytes m bs.
Proof. induction 1 as [|b bs Hb _ IH]; [done|]. unfold fbytes in *. cbn. by rewrite Hb, IH. Qed.

(** A store into one block is a store into the bytes of the file. *)
Lemma fbytes_store m m' bs k b off c :
  mnt_ok m -> Forall (in_data m) bs -> NoDup bs -> bs !! k = Some b -> 0 <= off -> off + Z.of_nat (length c) <= 4096 ->
  view m' b = store off c (view m b) -> (forall x, x ∈ bs -> x <> b -> view m' x = view m x) ->
  fbytes m' bs = store (4096 * Z.of_nat k + off) c (fbytes m bs).
Proof.
  intros Hm Hd Hnd Hk Ho Hc Hv Hx. pose proof (lookup_lt_Some _ _ _ Hk) as Hlt.
  rewrite <- (take_drop_middle bs k b Hk) in Hd, Hnd, Hx |- *. apply Forall_app in Hd as [Hd1 Hd2]. apply Forall_cons in Hd2 as [Hdb Hd2].
  apply NoDup_app in Hnd as (_ & Hn1 & Hn2). apply NoDup_cons in Hn2 as [Hn2 _].
  rewrite !fbytes_app. change (fbytes m' (b :: drop (S k) bs)) with (view m' b ++ fbytes m' (drop (S k) bs)).
  change (fbytes m (b :: drop (S k) bs)) with (view m b ++ fbytes m (drop (S k) bs)).
  rewrite (fbytes_ext m m' (take k bs)), (fbytes_ext m m' (drop (S k) bs)), Hv.
  - pose proof (fbytes_length m (take k bs) Hm Hd1) as Hl. rewrite length_take in Hl.
    replace (4096 * Z.of_nat k + off) with (Z.of_nat (length (fbytes m (take k bs))) + off) by lia.
    destruct (read_ok m b Hm) as [_ [Hbl _]]; [pose proof (data_range m b Hm Hdb); lia|].
    rewrite store_app_r, store_app_l by lia. done.
  - apply Forall_forall. intros x Hin. apply Hx; [apply elem_of_app; right; by apply list_elem_of_further|]. intros ->. done.
  - apply Forall_forall. intros x Hin. apply Hx; [apply elem_of_app; by left|]. intros ->. apply (Hn1 b Hin). apply list_elem_of_here.
Qed.

(** The blocks of a file are fewer than the blocks of the disk. *)
Lemma blocks_few m bs : mnt_ok m -> blocks_ok m bs -> Z.of_nat (length bs) <= total m.
Proof.
  intros Hm [Hn Hd _]. pose proof (total_pos m Hm).
  assert (length bs <= length (seqZ 0 (total m)))%nat; [|rewrite length_seqZ in *; lia].
  apply submseteq_length, NoDup_submseteq; [done|]. intros x Hx. apply elem_of_seqZ.
  rewrite Forall_forall in Hd. pose proof (data_range m x Hm (Hd x Hx)). lia.
Qed.

End Contents.

Section Growth.
Context {D : Type} `{BlockDeviceLaws D}.
Implicit Types m : ufs_mount_t D.

(** [m'] differs from [m] in the bitmap, the superblock, the blocks [bs] and blocks that
    were free; nothing was freed. *)
Record expands (bs : list Z) m m' : Prop := {
  gr_frame : frame (fun x => x < inode_table_start (sb m) \/ (in_data m x /\ (x ∈ bs \/ in_use m x = false))) m m';
  gr_used : forall x, 0 <= x < total m -> in_use m x = true -> in_use m' x = true;
  gr_inode : next_free_inode m' = next_free_inode m }.

Lemma expands_refl bs m : mnt_ok m -> expands bs m m.
Proof. intros Hm. split; [by apply frame_refl|auto|done]. Qed.

Lemma in_data_frame P m m' x : frame P m m' -> in_data m' x <-> in_data m x.
Proof. intros F. pose proof (frame_total _ _ _ F) as Ht. pose proof (geom_total _ _ (fr_geom _ _ _ F)) as (_ & _ & _ & _ & Ed & _). unfold in_data. by rewrite Ht, Ed. Qed.

Lemma expands_trans bs bs' m1 m2 m3 :
  expands bs m1 m2 -> expands bs' m2 m3 -> (forall x, in_data m1 x -> x ∈ bs' -> x ∈ bs \/ in_use m1 x = false) -> expands bs m1 m3.
Proof.
  intros [F1 U1 N1] [F2 U2 N2] Hs. pose proof (frame_total _ _ _ F1) as Ht. pose proof (geom_total _ _ (fr_geom _ _ _ F1)) as (_ & _ & _ & Et & _).
  split; [| |congruence].
  - eapply frame_impl; [|exact (frame_trans _ _ _ _ _ F1 F2)]. cbn. intros x Hx [?|[?|[Hd [Hin|Hu]]]]; [done|left; lia|right..].
    + apply (in_data_frame _ _ _ _ F1) in Hd. auto.
    + apply (in_data_frame _ _ _ _ F1) in Hd. split; [done|]. right. destruct (in_use m1 x) eqn:E; [|done]. rewrite (U1 x Hx E) in Hu. done.
  - intros x Hx Hu. apply U2; [lia|]. by apply U1.
Qed.

(** Every place where the extents could be continued in the wrong order is taken, and the
    allocator looks at the end of the file first. *)
Definition taken m (e : Z) : Prop := total m <= e \/ in_use m e = true.
Definition grow_ok m (xs : list extent_t) : Prop :=
  (forall e, e ∈ inner_ends xs -> taken m e) /\ (forall e, last_end xs = Some e -> e = next_free_block m \/ taken m e).

Record file_state m (i : ufs_inode_t) : Prop := {
  fs_wf : inode_wf i;
  fs_compact : compact (i_extents i);
  fs_blocks : blocks_ok m (xblocks (i_extents i));
  fs_grow : grow_ok m (i_extents i) }.

(** The disk is full, or the file has used its eight extents. *)
Definition no_room m (i : ufs_inode_t) : Prop :=
  (forall b, in_data m b -> in_use m b = true) \/ Forall (fun x => x_len x <> 0) (i_extents i).

Lemma inode_xlen i : inode_wf i -> Forall xlen_ok (i_extents i).
Proof. intros [_ _ _ _ _ _ Hx _ _]. eapply Forall_impl; [exact Hx|]. intros x [_ Hl]. exact Hl. Qed.

Lemma xblocks_u32 xs : Forall is_u32 (xblocks xs).
Proof.
  induction xs as [|x xs IH]; cbn [xblocks]; [constructor|]. destruct (_ =? _); [constructor|]. apply Forall_app. split; [|done].
  apply Forall_fmap, Forall_true. intros k. cbn. apply u32_range.
Qed.

Lemma taken_mono bs m m' e : expands bs m m' -> 0 <= e -> taken m e -> taken m' e.
Proof.
  intros [F U _] He [Ht|Hu]; [left; by rewrite (frame_total _ _ _ F)|]. pose proof (frame_total _ _ _ F) as Htot.
  destruct (Z.le_gt_cases (total m) e); [left; lia|]. right. by apply U.
Qed.

Lemma inner_ends_pos xs e : e ∈ inner_ends xs -> 0 <= e.
Proof.
  induction xs as [|x [|y xs] IH]; cbn [inner_ends]; try by intros ?%elem_of_nil. destruct (_ || _); [by intros ?%elem_of_nil|].
  intros [->|He]%elem_of_cons; [apply u32_range|by apply IH].
Qed.

End Growth.

Lemma append_wf xs : forall b xs', Forall (fun x => is_u32 (x_start x) /\ is_u32 (x_len x)) xs -> is_u32 b -> append_extent xs b = Some xs' ->
  Forall (fun x => is_u32 (x_start x) /\ is_u32 (x_len x)) xs'.
Proof.
  induction xs as [|x xs IH]; intros b xs' Hx Hb; [done|]. apply Forall_cons in Hx as [Hx Hxs]. cbn [append_extent].
  destruct (_ =? 0); [intros [= <-]; constructor; [split; [done|unfold is_u32; cbn; lia]|done]|]. destruct (_ =? b).
  - intros [= <-]. constructor; [|done]. split; [apply Hx|apply u32_range].
  - destruct (append_extent xs b) as [t|] eqn:E; [|done]. intros [= <-]. constructor; [done|]. by apply (IH b).
Qed.

(** A block at the end of the last extent always has room. *)
Lemma append_last xs b : append_extent xs b = None -> last_end xs <> Some b.
Proof.
  induction xs as [|x xs IH]; [done|]. cbn [append_extent last_end]. destruct (_ =? 0); [done|].
  destruct (Z.eqb_spec (u32 (x_start x + x_len x)) b) as [|Hne]; [done|]. destruct (append_extent xs b); [done|]. intros _.
  intros Heq. injection Heq as Heq. destruct (last_end xs) as [e|]; [|by apply Hne]. apply (IH eq_refl). f_equal. exact Heq.
Qed.

Section FileBlock.
Context {D : Type} `{BlockDeviceLaws D}.
Implicit Types m : ufs_mount_t D.

Lemma allocated_expands m b m' : mnt_ok m -> got_block m b m' -> expands [] m m'.
Proof.
  intros Hm (Hb & Hu & F & _ & U & _ & _ & N & _). pose proof (layout_order _ (mo_layout _ Hm)).
  destruct (map_block_range m b Hm) as (_ & Hr & _); [unfold total in *; lia|]. split; [|intros x Hx E; rewrite (U x Hx); by destruct (decide _)|done].
  eapply frame_impl; [|exact F]. cbn. intros x Hx [->|[->| ->]]; [left; lia|left; lia|right; auto].
Qed.

Lemma allocated_file m b m' bs : mnt_ok m -> blocks_ok m bs -> got_block m b m' ->
  blocks_ok m' (bs ++ [b]) /\ fbytes m' (bs ++ [b]) = fbytes m bs ++ zero_block.
Proof.
  intros Hm Hbs Ha. pose proof (allocated_expands m b m' Hm Ha) as [FG UG _]. destruct Ha as (Hb & Hu & F & V & U & _). destruct Hbs as [Hn Hd Hus].
  rewrite Forall_forall in Hus. assert (Hnb : b ∉ bs) by (intros Hin; rewrite (Hus b Hin) in Hu; done).
  pose proof (layout_order _ (mo_layout _ Hm)). split; [split|].
  - apply NoDup_app. split_and!; [done|by intros x Hx ->%list_elem_of_singleton|apply NoDup_singleton].
  - apply Forall_app. split; [|repeat constructor; apply (in_data_frame _ _ _ _ F); exact Hb].
    eapply Forall_impl; [exact Hd|]. intros x. apply (in_data_frame _ _ _ _ F).
  - apply Forall_app. split; [|repeat constructor; rewrite U by (unfold total in *; lia); by rewrite decide_True].
    apply Forall_forall. intros x Hx. rewrite Forall_forall in Hd. apply UG; [|auto]. pose proof (data_range m x Hm (Hd x Hx)). lia.
  - rewrite fbytes_app. f_equal.
    + apply fbytes_ext. apply Forall_forall. intros x Hx. rewrite Forall_forall in Hd. pose proof (Hd x Hx) as Hdx. red in Hdx.
      pose proof (data_range m x Hm (Hd x Hx)). destruct (map_block_range m b Hm) as (_ & Hr & _); [unfold total in *; lia|].
      apply (fr_view _ _ _ F); [lia|]. intros [?|[?|?]]; [lia|lia|by subst].
    + unfold fbytes. cbn. by rewrite V, app_nil_r.
Qed.

Lemma alloc_append m i b m' xs' :
  mnt_ok m -> file_state m i -> got_block m b m' -> (b = alloc_start m \/ total m <= alloc_start m \/ in_use m (alloc_start m) = true) ->
  append_extent (i_extents i) b = Some xs' ->
  file_state m' (set_i_extents xs' i) /\ xblocks xs' = xblocks (i_extents i) ++ [b].
Proof.
  intros Hm [Hw Hc Hb [Hg1 Hg2]] Ha Hstart Hap. pose proof (allocated_expands m b m' Hm Ha) as G. pose proof (allocated_file m b m' _ Hm Hb Ha) as [Hb' _].
  destruct Ha as (Hbd & Hu & F & _ & U & _ & Hnext & _). pose proof (layout_order _ (mo_layout _ Hm)) as Ho. pose proof (lo_total _ (mo_layout _ Hm)) as Ht.
  pose proof (blocks_few m _ Hm Hb) as Hfew. unfold total in *. assert (Hbu : is_u32 b) by (split; lia).
  assert (Hnin : b ∉ inner_ends (i_extents i)). { intros Hin. destruct (Hg1 b Hin) as [Hbad|Hbad]; [unfold total in Hbad; lia|congruence]. }
  destruct (append_in_order _ b xs' (inode_xlen i Hw) Hc ltac:(lia) Hbu Hnin Hap) as (E1 & E2 & E3 & E4 & E5 & E6).
  split; [|done]. split; cbn [i_extents set_i_extents]; [|done|by rewrite E1|].
  - destruct Hw. split; cbn; auto; [by rewrite E4|by apply (append_wf (i_extents i) b)].
  - split.
    + intros e He. pose proof (inner_ends_pos _ _ He) as Hpos. destruct (E6 e He) as [He'|[He' Hne]]; [by apply (taken_mono [] m), Hg1|].
      apply (taken_mono [] m); [done|done|]. destruct (Hg2 e He') as [->|Htk]; [|done].
      destruct (last_end_block _ _ (inode_xlen i Hw) He') as (lb & Hlb & Hle).
      assert (Hin : lb ∈ xblocks (i_extents i)) by (apply last_Some in Hlb as [l ->]; apply elem_of_app; right; apply list_elem_of_here).
      destruct Hb as [_ Hd _]. rewrite Forall_forall in Hd. specialize (Hd lb Hin). unfold in_data, total in Hd. rewrite u32_small in Hle by lia.
      assert (Es : alloc_start m = next_free_block m) by (unfold alloc_start; lia). rewrite Es in Hstart.
      destruct Hstart as [?|[?|?]]; [congruence|left; done|by right].
    + intros e. rewrite E5. intros [= <-]. left. rewrite Hnext, u32_small by lia. done.
Qed.

(** What [file_block] leaves behind: the file [i'] has the blocks [new] more, zeroed. *)
Definition grown m i m' i' (new : list Z) : Prop :=
  mnt_ok m' /\ file_state m' i' /\ expands (xblocks (i_extents i)) m m' /\ i' = set_i_extents (i_extents i') i /\
  xblocks (i_extents i') = xblocks (i_extents i) ++ new /\ Forall (fun b => in_use m b = false) new /\
  fbytes m' (xblocks (i_extents i')) = fbytes m (xblocks (i_extents i)) ++ replicate (4096 * length new) 0.

Lemma file_state_buf m i l : file_state m i -> file_state (set_blk_buf l m) i.
Proof. intros [H1 H2 [H3 H4 H5] H6]. split; [done|done|by split|done]. Qed.

Lemma grown_refl m i : mnt_ok m -> file_state m i -> grown m i m i [].
Proof.
  intros Hm Hf. split_and!; [done|done|by apply expands_refl|by destruct i|by rewrite app_nil_r|constructor|]. cbn. by rewrite app_nil_r.
Qed.

Lemma grown_buf m i l : mnt_ok m -> file_state m i -> is_block l -> grown m i (set_blk_buf l m) i [].
Proof.
  intros Hm Hf Hl. pose proof (frame_buf (fun _ => False) m l Hm Hl) as F.
  split_and!; [apply F|by apply file_state_buf| |by destruct i|by rewrite app_nil_r|constructor|cbn; by rewrite app_nil_r].
  split; [by apply frame_buf|done|done].
Qed.

(** A block was allocated that the inode has no room for, and given back. *)
Lemma alloc_return m i b m1 :
  mnt_ok m -> file_state m i -> got_block m b m1 -> (b = alloc_start m \/ total m <= alloc_start m \/ in_use m (alloc_start m) = true) ->
  append_extent (i_extents i) b = None -> grown m i (ufs_free_block b m1) i [].
Proof.
  intros Hm Hf Ha Hstart Hap. pose proof (allocated_expands m b m1 Hm Ha) as [FG UG NG].
  pose proof Ha as (Hbd & Hu & F & _ & U & _ & Hnext & _). pose proof (layout_order _ (mo_layout _ Hm)) as Ho.
  pose proof (frame_total _ _ _ F) as Ht. destruct (free_block_ok m1 b (fr_ok _ _ _ F)) as (F2 & U2 & _ & N2 & I2 & _); [unfold total in *; lia|].
  set (m2 := ufs_free_block b m1) in *. pose proof (fr_ok _ _ _ F2) as Hm2. pose proof (frame_total _ _ _ F2) as Ht2.
  destruct (map_block_range m b Hm) as (_ & Hr & _); [unfold total in *; lia|].
  assert (Eb : map_block b m1 = map_block b m) by (unfold map_block; by destruct (geom_total _ _ (fr_geom _ _ _ F)) as (_ & _ & -> & _)).
  assert (Hused : forall x, 0 <= x < total m -> in_use m2 x = in_use m x).
  { intros x Hx. rewrite U2, U by lia. destruct (decide (x = b)) as [->|]; done. }
  assert (F12 : frame (fun x => x = 0 \/ x = map_block b m \/ x = b) m m2).
  { eapply frame_impl; [|exact (frame_trans _ _ _ _ _ F F2)]. cbn. rewrite Eb. tauto. }
  assert (Htk : forall e, 0 <= e -> taken m e -> taken m2 e).
  { intros e He [?|Hue]; [left; lia|]. destruct (Z.le_gt_cases (total m) e); [left; lia|right]. by rewrite Hused. }
  destruct Hf as [Hw Hc Hb [Hg1 Hg2]]. split_and!; [done| | |by destruct i|by rewrite app_nil_r|constructor|].
  - split; [done|done| |].
    + destruct Hb as [B1 B2 B3]. split; [done| |].
      * eapply Forall_impl; [exact B2|]. intros x. apply (in_data_frame _ _ _ _ F12).
      * rewrite Forall_forall in *. intros x Hx. rewrite Hused; [auto|]. pose proof (data_range m x Hm (B2 x Hx)). lia.
    + split; [intros e He; apply Htk; [by eapply inner_ends_pos|auto]|]. intros e He. right.
      destruct (last_end_block _ _ (inode_xlen i Hw) He) as (lb & Hlb & Hle). assert (0 <= e) by (rewrite Hle; apply u32_range).
      destruct (Hg2 e He) as [->|?]; [|auto].
      assert (Hin : lb ∈ xblocks (i_extents i)) by (apply last_Some in Hlb as [l ->]; apply elem_of_app; right; apply list_elem_of_here).
      destruct Hb as [_ Hd _]. rewrite Forall_forall in Hd. specialize (Hd lb Hin). pose proof (lo_total _ (mo_layout _ Hm)).
      unfold in_data, total in *. rewrite u32_small in Hle by lia.
      assert (Es : alloc_start m = next_free_block m) by (unfold alloc_start; lia). rewrite Es in Hstart.
      destruct Hstart as [Eq|Hs]; [|apply Htk; [done|exact Hs]]. exfalso. eapply append_last; [exact Hap|by rewrite He, Eq].
  - split; [|intros x Hx Hux; by rewrite Hused|by rewrite I2, NG]. eapply frame_impl; [|exact F12]. cbn. intros x Hx [->|[->| ->]]; [left; lia|left; lia|right; auto].
  - cbn. rewrite app_nil_r. apply fbytes_ext, Forall_forall. intros x Hx. destruct Hb as [_ B2 B3]. rewrite Forall_forall in *.
    pose proof (data_range m x Hm (B2 x Hx)). pose proof (B2 x Hx) as Hdx. red in Hdx.
    apply (fr_view _ _ _ F12); [lia|]. intros [?|[?|?]]; [lia|lia|]. subst x. rewrite (B3 b Hx) in Hu. done.
Qed.

(** The block for index [blk] of a file that has at least [blk] blocks. *)
Lemma file_block_ok m i blk :
  mnt_ok m -> file_state m i -> 0 <= blk <= Z.of_nat (length (xblocks (i_extents i))) ->
  exists r m', file_block i blk m = (r, m') /\
    match r with
    | None => grown m i m' i [] /\ no_room m' i
    | Some (b, i') => exists new, grown m i m' i' new /\ xblocks (i_extents i') !! Z.to_nat blk = Some b /\
        (new = [] /\ i' = i \/ blk = Z.of_nat (length (xblocks (i_extents i))))
    end.
Proof.
  intros Hm Hf Hblk. pose proof (fs_wf _ _ Hf) as Hw. unfold file_block, ufs_get_block. rewrite get_extent_nth by (apply Hw || by apply inode_xlen || lia).
  set (bs := xblocks (i_extents i)) in *. destruct (decide (Z.to_nat blk < length bs)%nat) as [Hlt|Hge].
  - destruct (lookup_lt_is_Some_2 bs _ Hlt) as [b Hb]. rewrite (nth_lookup_Some _ _ _ _ Hb).
    destruct (fs_blocks _ _ Hf) as [_ Hd _]. rewrite Forall_forall in Hd. pose proof (data_range m b Hm (Hd b (list_elem_of_lookup_2 _ _ _ Hb))).
    rewrite (proj2 (nz_true b)) by lia. eexists _, _. split; [reflexivity|]. exists []. split_and!; [by apply grown_refl|done|by left].
  - rewrite nth_overflow by lia. change (nz 0) with false. cbv iota. destruct (ufs_alloc_block m) as [b m1] eqn:Ea.
    apply alloc_block_ok in Ea as [(-> & (l & Hl & ->) & Hfull)|(Ha & Hstart)]; [| |done].
    + cbn [Z.eqb]. eexists _, _. split; [reflexivity|]. split; [by apply grown_buf|left]. exact Hfull.
    + pose proof Ha as (Hbd & _). pose proof (data_range m b Hm Hbd). rewrite (proj2 (Z.eqb_neq b 0)) by lia. unfold ufs_append_block.
      destruct (append_extent (i_extents i) b) as [xs'|] eqn:Eap; cbn [mbind option_bind].
      * eexists _, _. split; [reflexivity|]. exists [b]. destruct (alloc_append m i b m1 xs' Hm Hf Ha Hstart Eap) as [Hf' Ex].
        cbn [i_extents set_i_extents]. split; [|split; [|right; fold bs; lia]; rewrite Ex, lookup_app_r by (fold bs; lia); fold bs; by replace (Z.to_nat blk - length bs)%nat with 0%nat by lia].
        destruct (allocated_file m b m1 bs Hm (fs_blocks _ _ Hf) Ha) as [_ Hfb]. pose proof (allocated_expands m b m1 Hm Ha) as [G1 G2 G3].
        split_and!; [apply G1|done| |by destruct i|done|repeat constructor; apply Ha|cbn [i_extents set_i_extents]; by rewrite Ex].
        split; [|done|done]. eapply frame_impl; [|exact G1]. cbn. intros x _ [?|[? [Hx|?]]]; [by left|by apply elem_of_nil in Hx|by right; auto].
      * eexists _, _. split; [reflexivity|]. split; [by apply (alloc_return m i b)|]. right. by apply (append_full _ b).
Qed.

End FileBlock.

Section Loops.
Context {D : Type} `{BlockDeviceLaws D}.
Implicit Types m : ufs_mount_t D.

(** Blocks outside the bitmap were replaced. *)
Lemma file_state_frame P m m' i :
  mnt_ok m -> frame P m m' -> (forall x, 0 < x < inode_table_start (sb m) -> ~ P x) -> next_free_block m' = next_free_block m ->
  file_state m i -> file_state m' i.
Proof.
  intros Hm F Hb Hn [Hw Hc [B1 B2 B3] [G1 G2]]. pose proof (frame_total _ _ _ F) as Ht. pose proof (layout_order _ (mo_layout _ Hm)) as Ho.
  assert (Hu : forall x, 0 <= x < total m -> in_use m' x = in_use m x) by (intros x Hx; by apply (frame_used _ _ _ _ F Hm Hx)).
  assert (Htk : forall e, 0 <= e -> taken m e -> taken m' e).
  { intros e He [?|Hue]; [left; lia|]. destruct (Z.le_gt_cases (total m) e); [left; lia|right]. by rewrite Hu. }
  split; [done|done| |].
  - split; [done| |].
    + eapply Forall_impl; [exact B2|]. intros x. apply (in_data_frame _ _ _ _ F).
    + rewrite Forall_forall in *. intros x Hx. rewrite Hu; [auto|]. pose proof (data_range m x Hm (B2 x Hx)). lia.
  - split; [intros e He; apply Htk; [by eapply inner_ends_pos|auto]|]. intros e He. rewrite Hn. destruct (G2 e He) as [?|?]; [by left|right].
    apply Htk; [|done]. destruct (last_end_block _ _ (inode_xlen i Hw) He) as (lb & _ & ->). apply u32_range.
Qed.

(** One round of the write loop: [c] goes into the block [b] at index [blk]. *)
Lemma write_round m i b blk off c :
  mnt_ok m -> file_state m i -> xblocks (i_extents i) !! Z.to_nat blk = Some b -> 0 <= blk -> 0 <= off -> off + Z.of_nat (length c) <= 4096 -> byte_list c ->
  exists l m', ufs_read_block b m = Some l /\
    ufs_write_block b (blk_buf (set_blk_buf (store off c l) m)) (set_blk_buf (store off c l) m) = (0, m') /\
    mnt_ok m' /\ file_state m' i /\ expands (xblocks (i_extents i)) m m' /\
    fbytes m' (xblocks (i_extents i)) = store (4096 * blk + off) c (fbytes m (xblocks (i_extents i))).
Proof.
  intros Hm Hf Hb Hblk Ho Hlen Hbyte. set (bs := xblocks (i_extents i)) in *. pose proof (fs_blocks _ _ Hf) as [B1 B2 B3]. fold bs in B1, B2, B3.
  pose proof (list_elem_of_lookup_2 _ _ _ Hb) as Hin. pose proof (proj1 (Forall_forall _ _) B2 b Hin) as Hbd. pose proof (data_range m b Hm Hbd) as Hbr.
  destruct (read_ok m b Hm ltac:(lia)) as [Er Hbl]. exists (view m b). set (buf := store off c (view m b)).
  assert (Hbuf : is_block buf) by (apply store_is_block; done).
  pose proof (frame_buf (fun _ => False) m buf Hm Hbuf) as F1. change (blk_buf (set_blk_buf buf m)) with buf.
  destruct (write_ok (set_blk_buf buf m) b buf (fr_ok _ _ _ F1)) as (d & -> & F2 & V2); [unfold total in *; cbn; lia|done|].
  eexists. split; [done|]. split; [reflexivity|]. set (m' := set_dev _ _) in *.
  assert (F : frame (eq b) m m') by (eapply frame_impl; [|exact (frame_trans _ _ _ _ _ F1 F2)]; cbn; tauto).
  assert (Hnb : forall y, 0 < y < inode_table_start (sb m) -> b <> y) by (intros y Hy <-; red in Hbd; pose proof (layout_order _ (mo_layout _ Hm)); lia).
  split_and!; [apply F|by apply (file_state_frame (eq b) m m' i)| |].
  - split; [|intros x Hx Hu; rewrite (frame_used _ _ _ _ F Hm Hx); [done|auto]|done].
    eapply frame_impl; [|exact F]. cbn. intros x _ <-. right. auto.
  - replace (4096 * blk + off) with (4096 * Z.of_nat (Z.to_nat blk) + off) by lia. apply (fbytes_store m m' bs _ b off c); try done.
    intros x Hx Hne. pose proof (data_range m x Hm (proj1 (Forall_forall _ _) B2 x Hx)). apply (fr_view _ _ _ F); [lia|congruence].
Qed.

(** The first [w] bytes of [data] were stored at [pos] of the file [i], which became [i']
    with the blocks [new] more. *)
Definition wrote m i (pos : Z) (data : list Z) (w : Z) m' i' (new : list Z) : Prop :=
  (0 <= w <= Z.of_nat (length data) /\ (w = Z.of_nat (length data) \/ no_room m' i')) /\
  (mnt_ok m' /\ file_state m' i' /\ expands (xblocks (i_extents i)) m m' /\ i' = set_i_extents (i_extents i') i) /\
  (xblocks (i_extents i') = xblocks (i_extents i) ++ new /\ Forall (fun b => in_use m b = false) new) /\
  (0 < w -> pos + w <= 4096 * Z.of_nat (length (xblocks (i_extents i')))) /\
  (new = [] /\ i' = i \/ 4096 * Z.of_nat (length (xblocks (i_extents i))) < pos + w) /\
  fbytes m' (xblocks (i_extents i')) =
    store pos (take (Z.to_nat w) data) (fbytes m (xblocks (i_extents i)) ++ replicate (4096 * length new) 0).

Lemma wrote_nothing m i pos data m' :
  grown m i m' i [] -> data = [] \/ no_room m' i -> wrote m i pos data 0 m' i [].
Proof.
  intros (G1 & G2 & G3 & G4 & G5 & G6 & G7) Hd. unfold wrote. cbn [Z.to_nat take]. rewrite store_nil.
  split_and!; try done; [lia|destruct Hd as [->|?]; [by left|by right]|by left].
Qed.

(** The blocks that a growing file got were free. *)
Lemma new_blocks m m2 m3 i1 i3 bs new1 new2 :
  expands bs m m2 -> mnt_ok m3 -> file_state m3 i3 -> expands (xblocks (i_extents i1)) m2 m3 -> xblocks (i_extents i3) = xblocks (i_extents i1) ++ new2 ->
  Forall (fun b => in_use m b = false) new1 -> Forall (fun b => in_use m2 b = false) new2 -> Forall (fun b => in_use m b = false) (new1 ++ new2).
Proof.
  intros G12 Hm3 Hf3 G23 E3 H1 H2. apply Forall_app. split; [done|]. rewrite Forall_forall in *. intros x Hx. specialize (H2 x Hx).
  destruct (in_use m x) eqn:E; [|done]. destruct (fs_blocks _ _ Hf3) as [_ B2 _]. rewrite Forall_forall in B2. specialize (B2 x). rewrite E3, elem_of_app in B2.
  pose proof (data_range m3 x Hm3 (B2 (or_intror Hx))). pose proof (frame_total _ _ _ (gr_frame _ _ _ G23)). pose proof (frame_total _ _ _ (gr_frame _ _ _ G12)).
  rewrite (gr_used _ _ _ G12 x ltac:(lia) E) in H2. done.
Qed.

(** A store of the rest behind a store of the beginning. *)
Lemma store_rest pos chunk w (dat x z : list Z) :
  0 <= pos -> 0 <= chunk -> 0 <= w -> chunk + w <= Z.of_nat (length dat) -> pos + chunk <= Z.of_nat (length x) ->
  pos + chunk + w <= Z.of_nat (length (x ++ z)) ->
  store (pos + chunk) (take (Z.to_nat w) (drop (Z.to_nat chunk) dat)) (store pos (take (Z.to_nat chunk) dat) x ++ z) =
    store pos (take (Z.to_nat (chunk + w)) dat) (x ++ z).
Proof.
  intros Hp Hc Hw Hd Hx Hz. assert (Hl : Z.of_nat (length (take (Z.to_nat chunk) dat)) = chunk) by (rewrite length_take; lia).
  rewrite <- store_app_l by lia. rewrite <- Hl at 1. rewrite store_store by (rewrite ?length_take, ?length_drop; lia).
  by rewrite take_take_drop, <- Z2Nat.inj_add by lia.
Qed.

Lemma wrote_step m i m1 i1 new1 m2 blk off dat w m3 i3 new2 :
  mnt_ok m -> file_state m i -> 0 <= blk -> 0 <= off < 4096 -> dat <> [] ->
  let chunk := Z.min (4096 - off) (Z.of_nat (length dat)) in
  grown m i m1 i1 new1 -> (new1 = [] /\ i1 = i \/ blk = Z.of_nat (length (xblocks (i_extents i)))) -> blk < Z.of_nat (length (xblocks (i_extents i1))) ->
  mnt_ok m2 -> file_state m2 i1 -> expands (xblocks (i_extents i1)) m1 m2 ->
  fbytes m2 (xblocks (i_extents i1)) = store (4096 * blk + off) (take (Z.to_nat chunk) dat) (fbytes m1 (xblocks (i_extents i1))) ->
  wrote m2 i1 (4096 * (blk + 1) + 0) (drop (Z.to_nat chunk) dat) w m3 i3 new2 ->
  wrote m i (4096 * blk + off) dat (chunk + w) m3 i3 (new1 ++ new2).
Proof.
  intros Hm Hf Hblk Hoff Hdat chunk (G1 & G2 & G3 & G4 & G5 & G6 & G7) Hnew Hb1 R1 R2 R3 R4 ((I1 & I2) & (I3 & I4 & I5 & I6) & (I7 & I8) & I9 & I11 & I10).
  set (bs := xblocks (i_extents i)) in *. set (bs1 := xblocks (i_extents i1)) in *. rewrite length_drop in I1, I2.
  assert (Hpos : 0 < Z.of_nat (length dat)) by (destruct dat; [done|cbn; lia]).
  assert (Hlen1 : length (fbytes m bs) = (4096 * length bs)%nat) by (apply fbytes_length; [done|apply Hf]).
  assert (Hl1 : length bs1 = (length bs + length new1)%nat) by (rewrite G5; apply length_app).
  assert (Hl3 : length (xblocks (i_extents i3)) = (length bs1 + length new2)%nat) by (rewrite I7; apply length_app).
  assert (G12 : expands bs m m2).
  { apply (expands_trans bs bs1 m m1 m2 G3 R3). intros x Hx. rewrite G5, elem_of_app. rewrite Forall_forall in G6. intuition auto. }
  split_and!; [lia|lia|destruct I2; [left; lia|by right]|done|done| | | | | | |].
  - apply (expands_trans bs bs1 m m2 m3 G12 I5). intros x Hx. rewrite G5, elem_of_app. rewrite Forall_forall in G6. intuition auto.
  - rewrite I6, G4. reflexivity.
  - by rewrite I7, G5, app_assoc.
  - by apply (new_blocks m m2 m3 i1 i3 bs).
  - intros _. rewrite Hl3. destruct (Z.eq_dec w 0) as [->|Hw0]; [|specialize (I9 ltac:(lia)); lia]. unfold chunk. lia.
  - fold bs. fold bs in Hnew. destruct Hnew as [[-> Ei]|Hnew]; [|right; lia].
    assert (Eb : bs1 = bs) by (unfold bs1, bs; by rewrite Ei).
    destruct I11 as [[-> ->]|I11]; [by left|right]. rewrite Eb in *. destruct (Z.eq_dec w 0) as [->|Hw0]; lia.
  - fold bs. rewrite length_app, Nat.mul_add_distr_l, replicate_add, app_assoc, <- G7. rewrite I10, R4.
    assert (Hlen2 : length (fbytes m1 bs1) = (4096 * length bs1)%nat) by (apply fbytes_length; [done|apply G2]).
    destruct (Z.eq_dec w 0) as [->|Hw0].
    + cbn [Z.to_nat take]. rewrite store_nil, Z.add_0_r, store_app_l; [done|lia|rewrite length_take; lia].
    + replace (4096 * (blk + 1) + 0) with (4096 * blk + off + chunk) by lia. specialize (I9 ltac:(lia)). apply store_rest; try lia.
      rewrite length_app, length_replicate. lia.
Qed.

(** The write loop stores the bytes it reports at their place in the file. *)
Lemma write_loop_ok fuel : forall i blk off data m,
  mnt_ok m -> file_state m i -> 0 <= blk <= Z.of_nat (length (xblocks (i_extents i))) -> 0 <= off < 4096 -> byte_list data ->
  off + Z.of_nat (length data) <= 4096 * Z.of_nat fuel ->
  exists w i' m' new, write_loop fuel i blk off data m = Some (w, i', m') /\ wrote m i (4096 * blk + off) data w m' i' new.
Proof.
  induction fuel as [|fuel IH]; intros i blk off data m Hm Hf Hblk Hoff Hbyte Hfuel;
    (destruct data as [|c data]; [eexists _, _, _, []; split; [reflexivity|]; apply wrote_nothing; [by apply grown_refl|by left]|]).
  { cbn [length] in Hfuel. lia. }
  set (dat := c :: data) in *. unfold dat at 1. cbn [write_loop]. fold dat.
  destruct (file_block_ok m i blk Hm Hf Hblk) as (r & m1 & -> & Hr). destruct r as [[b i1]|].
  - destruct Hr as (new1 & G & Hb & Hnew). pose proof G as (G1 & G2 & _).
    set (chunk := Z.min (UFS_BLOCK_SIZE - off) (Z.of_nat (length dat))). unfold UFS_BLOCK_SIZE in chunk.
    assert (Hd1 : Z.of_nat (length (take (Z.to_nat chunk) dat)) = chunk) by (rewrite length_take; lia).
    destruct (write_round m1 i1 b blk off (take (Z.to_nat chunk) dat) G1 G2 Hb ltac:(lia) ltac:(lia) ltac:(lia) ltac:(by apply Forall_take))
      as (l & m2 & -> & Ew & R1 & R2 & R3 & R4).
    rewrite Ew. change (nz 0) with false. cbv iota. assert (Hbs1 : (Z.to_nat blk < length (xblocks (i_extents i1)))%nat) by (by eapply lookup_lt_Some).
    pose proof (blocks_few m2 _ R1 (fs_blocks _ _ R2)) as Hfew. pose proof (lo_total _ (mo_layout _ R1)). unfold total in Hfew.
    rewrite u32_small by lia.
    destruct (IH i1 (blk + 1) 0 (drop (Z.to_nat chunk) dat) m2 R1 R2) as (w & i3 & m3 & new2 & -> & I);
      [lia|lia|by apply Forall_drop|rewrite length_drop; lia|]. cbn [mbind option_bind].
    eexists _, _, _, _. split; [reflexivity|]. by apply (wrote_step m i m1 i1 new1 m2 blk off dat w m3 i3 new2); (done || lia).
  - destruct Hr as (G & Hno). eexists _, _, _, []. split; [reflexivity|]. apply wrote_nothing; [done|by right].
Qed.

End Loops.

Section Files.
Context {D : Type} `{BlockDeviceLaws D}.
Implicit Types m : ufs_mount_t D.

(** The bytes of one block of a file. *)
Lemma fbytes_slice m bs k b off n :
  mnt_ok m -> Forall (in_data m) bs -> bs !! k = Some b -> (off + n <= 4096)%nat ->
  take n (drop (4096 * k + off) (fbytes m bs)) = take n (drop off (view m b)).
Proof.
  intros Hm Hd Hk Hn. rewrite <- (take_drop_middle bs k b Hk) in Hd |- *. apply Forall_app in Hd as [Hd1 Hd2]. apply Forall_cons in Hd2 as [Hdb _].
  rewrite fbytes_app. change (fbytes m (b :: drop (S k) bs)) with (view m b ++ fbytes m (drop (S k) bs)).
  pose proof (fbytes_length m (take k bs) Hm Hd1) as Hl. pose proof (lookup_lt_Some _ _ _ Hk). rewrite length_take, Nat.min_l in Hl by lia.
  destruct (read_ok m b Hm) as [_ [Hb _]]; [pose proof (data_range m b Hm Hdb); lia|].
  rewrite drop_app_ge, Hl by lia. replace (4096 * k + off - 4096 * k)%nat with off by lia. rewrite drop_app_le, take_app_le by (rewrite ?length_drop; lia). done.
Qed.

Lemma read_loop_ok fuel : forall i blk off todo m,
  mnt_ok m -> inode_wf i -> blocks_ok m (xblocks (i_extents i)) -> 0 <= blk -> 0 <= off < 4096 -> 0 <= todo ->
  off + todo <= 4096 * Z.of_nat fuel -> 4096 * blk + off + todo <= 4096 * Z.of_nat (length (xblocks (i_extents i))) ->
  exists l, is_block l /\ read_loop fuel i blk off todo m =
    Some (take (Z.to_nat todo) (drop (Z.to_nat (4096 * blk + off)) (fbytes m (xblocks (i_extents i)))), set_blk_buf l m).
Proof.
  induction fuel as [|fuel IH]; intros i blk off todo m Hm Hw Hb Hblk Hoff Htodo Hfuel Hin; cbn [read_loop];
    (destruct (Z.eqb_spec todo 0) as [->|Hne]; [exists (blk_buf m); split; [apply Hm|by destruct m]|]); [lia|].
  set (bs := xblocks (i_extents i)) in *. unfold ufs_get_block. rewrite get_extent_nth by (by apply inode_xlen || lia). fold bs.
  destruct (lookup_lt_is_Some_2 bs (Z.to_nat blk)) as [b Hbk]; [lia|]. rewrite (nth_lookup_Some _ _ _ _ Hbk).
  destruct Hb as [B1 B2 B3]. pose proof (data_range m b Hm (proj1 (Forall_forall _ _) B2 b (list_elem_of_lookup_2 _ _ _ Hbk))) as Hbr.
  rewrite (proj2 (Z.eqb_neq b 0)) by lia. destruct (read_ok m b Hm ltac:(lia)) as [-> Hbl].
  set (chunk := Z.min (UFS_BLOCK_SIZE - off) todo). unfold UFS_BLOCK_SIZE in chunk.
  pose proof (blocks_few m bs Hm ltac:(by split)) as Hfew. pose proof (lo_total _ (mo_layout _ Hm)). unfold total in Hfew. rewrite u32_small by lia.
  assert (Hslice : take (Z.to_nat chunk) (drop (Z.to_nat off) (view m b)) = take (Z.to_nat chunk) (drop (Z.to_nat (4096 * blk + off)) (fbytes m bs))).
  { rewrite <- (fbytes_slice m bs _ b _ _ Hm B2 Hbk) by lia. do 2 f_equal. lia. }
  rewrite Hslice. pose proof (frame_buf (fun _ => False) m (view m b) Hm Hbl) as F.
  destruct (Z.eq_dec chunk todo) as [Ec|Ec].
  - rewrite Ec, Z.sub_diag. exists (view m b). split; [done|]. destruct fuel; cbn [read_loop Z.eqb mbind option_bind]; by rewrite app_nil_r.
  - destruct (IH i (blk + 1) 0 (todo - chunk) (set_blk_buf (view m b) m) (fr_ok _ _ _ F) Hw) as (l & Hl & ->);
      [by split|lia|lia|lia|lia|fold bs; lia|]. cbn [mbind option_bind]. exists l. split; [done|]. f_equal. f_equal.
    change (fbytes (set_blk_buf (view m b) m)) with (fbytes m). fold bs.
    replace (Z.to_nat todo) with (Z.to_nat chunk + Z.to_nat (todo - chunk))%nat by lia. rewrite <- take_take_drop, drop_drop. do 4 f_equal. lia.
Qed.

(** ** Reading and writing files *)

Definition file_bytes m (ino : Z) : list Z := fbytes m (xblocks (i_extents (inode_at m ino))).

(** The contents of a file. *)
Definition content m (ino : Z) : list Z := take (Z.to_nat (i_size (inode_at m ino))) (file_bytes m ino).

Record ufile_ok m (ino : Z) : Prop := {
  fo_valid : valid_ino m ino;
  fo_state : file_state m (inode_at m ino);
  fo_size : i_size (inode_at m ino) <= 4096 * Z.of_nat (length (xblocks (i_extents (inode_at m ino)))) }.

(** The node of an open file. *)
Definition file_open m (n : vnode) : Prop := mounted m = true /\ n_private n <> 0 /\ n_type n = VFS_FILE /\ ufile_ok m (node_ino n).

Lemma usable m n : file_open m n -> unusable n m || negb (n_type n =? VFS_FILE) = false.
Proof.
  intros (Hm & Hp & Ht & _). unfold unusable. rewrite Hm, Ht, (proj2 (Z.eqb_neq _ 0)) by done. reflexivity.
Qed.

Lemma size_range m ino : mnt_ok m -> valid_ino m ino -> 0 <= i_size (inode_at m ino) < 2 ^ 32.
Proof. intros Hm Hi. pose proof (iw_words _ (inode_at_wf m ino Hm Hi)) as Hw. by apply Forall_cons in Hw as [? _]. Qed.

Lemma vfs_read_ok m n size offset : mnt_ok m -> file_open m n -> 0 <= size -> 0 <= offset ->
  let l := take (Z.to_nat size) (drop (Z.to_nat offset) (content m (node_ino n))) in
  exists m', ufs_vfs_read n size offset m = Some (i32 (Z.of_nat (length l)), l, m').
Proof.
  intros Hm Hn Hs Ho l. unfold ufs_vfs_read. rewrite usable by done. destruct Hn as (_ & _ & _ & [Hv Hst Hsz]). set (ino := node_ino n) in *.
  pose proof (size_range m ino Hm Hv) as Hsr. destruct (read_inode_ok m ino Hm Hv) as (ib & ->). set (i := inode_at m ino) in *.
  destruct (Z.leb_spec (i_size i) offset) as [Hle|Hgt].
  { eexists. unfold l, content. fold i. rewrite (drop_ge (take _ _)) by (rewrite length_take; lia). rewrite take_nil. reflexivity. }
  set (todo := Z.min (i_size i - offset) size). pose proof (blocks_few m _ Hm (fs_blocks _ _ Hst)) as Hfew. fold i in Hsz.
  pose proof (frame_inode_buf (fun _ => False) m ib Hm) as F.
  unfold UFS_BLOCK_SIZE. rewrite u32_small by dlia.
  destruct (read_loop_ok (io_fuel todo) i (offset / 4096) (offset mod 4096) todo (set_inode_buf ib m) (fr_ok _ _ _ F) (fs_wf _ _ Hst))
    as (l' & _ & ->); [destruct (fs_blocks _ _ Hst); by split|dlia|dlia|lia|unfold io_fuel, UFS_BLOCK_SIZE; dlia|dlia|]. cbn [mbind option_bind].
  assert (El : take (Z.to_nat todo) (drop (Z.to_nat (4096 * (offset / 4096) + offset mod 4096)) (fbytes (set_inode_buf ib m) (xblocks (i_extents i)))) = l).
  { rewrite <- Z.div_mod by lia. unfold l, content, file_bytes. fold i. change (fbytes (set_inode_buf ib m)) with (fbytes m).
    rewrite skipn_firstn_comm, take_take. f_equal. lia. }
  rewrite El. by eexists.
Qed.

End Files.

Section Write.
Context {D : Type} `{BlockDeviceLaws D}.
Implicit Types m : ufs_mount_t D.

Lemma expands_inode bs m m' ino : mnt_ok m -> valid_ino m ino -> expands bs m m' -> inode_at m' ino = inode_at m ino.
Proof. intros Hm Hi [F _ _]. apply (frame_inode _ _ _ _ F Hm Hi). intros x Hx [?|[[? _] _]]; lia. Qed.

(** The bytes of other files stay. *)
Lemma expands_others bs m m' bs' : mnt_ok m -> expands bs m m' -> blocks_ok m bs' -> (forall x, x ∈ bs' -> x ∉ bs) -> fbytes m' bs' = fbytes m bs'.
Proof.
  intros Hm [F _ _] [_ B2 B3] Hd. apply fbytes_ext, Forall_forall. intros x Hx. rewrite Forall_forall in B2, B3.
  pose proof (data_range m x Hm (B2 x Hx)). pose proof (B2 x Hx) as [? _]. pose proof (layout_order _ (mo_layout _ Hm)).
  apply (fr_view _ _ _ F); [lia|]. intros [?|[_ [?|Hu]]]; [lia|by apply (Hd x)|]. rewrite (B3 x Hx) in Hu. done.
Qed.

(** An inode with another size. *)
Definition resized (i : ufs_inode_t) (size ticks : Z) : ufs_inode_t :=
  let i := set_i_size size i in set_i_mtime ticks (set_i_blocks (u32 (i_size i + 511) / 512) i).

Lemma resized_wf i size ticks : inode_wf i -> is_u32 size -> is_u32 ticks -> inode_wf (resized i size ticks).
Proof.
  intros [H1 H2 H3 H4 Hw H5 H6 H7 H8] Hs Ht. split; cbn; auto.
  assert (Hb : is_u32 (u32 (size + 511) / 512)) by (pose proof (u32_range (size + 511)); unfold is_u32; dlia).
  repeat (apply Forall_cons in Hw as [? Hw]). repeat (constructor; [done|]). constructor.
Qed.

Lemma file_state_resized m i size ticks : file_state m i -> is_u32 size -> is_u32 ticks -> file_state m (resized i size ticks).
Proof. intros [H1 H2 H3 H4] Hs Ht. split; [by apply resized_wf|done|done|done]. Qed.

(** What a write of [w] bytes of [data] at [offset] of file [ino] leaves behind. *)
Definition written m ino (data : list Z) (offset w : Z) m' : Prop :=
  mnt_ok m' /\ mounted m' = mounted m /\ ufile_ok m' ino /\ content m' ino = store offset (take (Z.to_nat w) data) (content m ino) /\
  (forall ino', valid_ino m ino' -> ino' <> ino -> inode_at m' ino' = inode_at m ino') /\
  (forall bs, blocks_ok m bs -> (forall x, x ∈ bs -> x ∉ xblocks (i_extents (inode_at m ino))) -> fbytes m' bs = fbytes m bs) /\
  rest m m'.

(** The new contents, cut at the new size. *)
Lemma content_store (f z data : list Z) size offset w :
  0 <= offset <= size -> size <= Z.of_nat (length f) -> 0 <= w <= Z.of_nat (length data) -> offset + w <= Z.of_nat (length (f ++ z)) ->
  take (Z.to_nat (Z.max size (offset + w))) (store offset (take (Z.to_nat w) data) (f ++ z)) = store offset (take (Z.to_nat w) data) (take (Z.to_nat size) f).
Proof.
  intros Ho Hs Hw Hf. rewrite <- (take_app_le f z) by lia. assert (Hl : length (take (Z.to_nat w) data) = Z.to_nat w) by (rewrite length_take; lia).
  rewrite <- take_store by lia. f_equal. lia.
Qed.

Lemma write_back m ino data offset w m1 i1 new ticks :
  mnt_ok m -> ufile_ok m ino -> 0 <= offset <= i_size (inode_at m ino) -> offset + Z.of_nat (length data) < 2 ^ 31 -> is_u32 ticks ->
  wrote m (inode_at m ino) offset data w m1 i1 new ->
  let m' := if i_size i1 <? u64 (offset + w) then (ufs_write_inode ino (resized i1 (u32 (offset + w)) ticks) m1).2 else m1 in
  written m ino data offset w m' /\ (w = Z.of_nat (length data) \/ no_room m' (inode_at m' ino)).
Proof.
  intros Hm [Hv Hst Hsz] Ho Hlen Ht ((W1 & W2) & (W3 & W4 & W5 & W6) & (W7 & W8) & W9 & W10 & W11) m'.
  set (i := inode_at m ino) in *. set (bs := xblocks (i_extents i)) in *.
  assert (Hsize1 : i_size i1 = i_size i) by (rewrite W6; by destruct i). pose proof (gr_frame _ _ _ W5) as F.
  assert (Hlf : length (fbytes m bs) = (4096 * length bs)%nat) by (apply fbytes_length; [done|apply Hst]).
  assert (Hcl : offset + w <= Z.of_nat (length (fbytes m bs ++ replicate (4096 * length new) 0))).
  { rewrite length_app, length_replicate, Hlf. rewrite W7, length_app in W9. fold bs in Hsz. destruct (Z.eq_dec w 0) as [Hw0|]; [rewrite Hw0; clear - Hsz Ho; lia|].
    specialize (W9 ltac:(lia)). lia. }
  assert (Hsf : i_size i <= Z.of_nat (length (fbytes m bs))) by (rewrite Hlf; lia).
  pose proof (content_store (fbytes m bs) (replicate (4096 * length new) 0) data (i_size i) offset w Ho Hsf W1 Hcl) as Hcs.
  rewrite <- W11 in Hcs. assert (Hv1 : valid_ino m1 ino) by (unfold valid_ino; by destruct (geom_total _ _ (fr_geom _ _ _ F)) as (_ & -> & _)).
  pose proof (size_range m ino Hm Hv) as Hsr. fold i in Hsr. unfold m'. rewrite Hsize1, u64_small by lia. destruct (Z.ltb_spec (i_size i) (offset + w)) as [Hgt|Hle].
  - rewrite u32_small by lia. set (i2 := resized i1 (offset + w) ticks).
    assert (Hf2 : file_state m1 i2) by (apply file_state_resized; [done|unfold is_u32; lia|done]).
    destruct (write_inode_ok m1 ino i2 W3 Hv1 (fs_wf _ _ Hf2)) as (m2 & -> & F2 & I2 & S2 & N2 & _). cbn [snd].
    pose proof (inode_range m1 ino W3 Hv1) as (_ & _ & Hr & _). pose proof (layout_order _ (mo_layout _ W3)) as Ho1.
    assert (Ei : inode_at m2 ino = i2) by (rewrite I2 by done; by rewrite decide_True).
    assert (Hfb : forall l, Forall (in_data m1) l -> fbytes m2 l = fbytes m1 l).
    { intros l Hl. apply fbytes_ext. eapply Forall_impl; [exact Hl|]. intros x [Hx1 Hx2]. apply (fr_view _ _ _ F2); [lia|lia]. }
    assert (Hb1 : blocks_ok m1 (xblocks (i_extents i1))) by apply W4.
    split; [split_and!|].
    + apply F2.
    + by rewrite (fr_mounted _ _ _ F2), (fr_mounted _ _ _ F).
    + split; [unfold valid_ino; rewrite S2; exact Hv1| |].
      * rewrite Ei. apply (file_state_frame _ m1 m2 i2 W3 F2); [intros x Hx <-; lia|done|done].
      * rewrite Ei. unfold i2. cbn. rewrite W7, length_app. rewrite length_app, length_replicate, Hlf in Hcl. lia.
    + unfold content, file_bytes. rewrite Ei. fold i. fold bs. unfold i2. cbn [i_extents i_size resized set_i_mtime set_i_blocks set_i_size].
      rewrite Hfb by apply Hb1. rewrite <- Hcs. f_equal. lia.
    + intros ino' Hv' Hne. assert (valid_ino m1 ino') by (unfold valid_ino; by destruct (geom_total _ _ (fr_geom _ _ _ F)) as (_ & -> & _)).
      rewrite I2 by done. rewrite decide_False by done. by apply (expands_inode bs).
    + intros l Hl Hd. rewrite Hfb; [by apply (expands_others bs)|]. eapply Forall_impl; [apply Hl|]. intros x. apply (in_data_frame _ _ _ _ F).
    + apply (rest_trans m m1); [apply F|apply F2].
    + destruct W2 as [?|[Hno|Hno]]; [by left|right; left|right; right; rewrite Ei; exact Hno].
      intros b Hb. rewrite <- (Hno b); [|by apply (in_data_frame _ _ _ _ F2)]. apply (in_data_frame _ _ _ _ F2) in Hb.
      apply (frame_used _ _ _ _ F2 W3); [pose proof (data_range m1 b W3 Hb); lia|]. intros x Hx <-. lia.
  - destruct W10 as [[-> ->]|W10]; [|fold bs in Hsz; lia]. assert (Ei : inode_at m1 ino = i) by (by apply (expands_inode bs)).
    split; [split_and!|].
    + done.
    + by rewrite (fr_mounted _ _ _ F).
    + split; [exact Hv1|by rewrite Ei|by rewrite Ei].
    + unfold content, file_bytes. rewrite Ei. fold i. fold bs. rewrite <- Hcs. f_equal. lia.
    + intros ino' Hv' Hne. by apply (expands_inode bs).
    + intros l Hl Hd. by apply (expands_others bs).
    + apply F.
    + rewrite Ei. done.
Qed.

End Write.

(** ** The theorems *)

Section UfsClaims.
Context {D : Type} `{BlockDeviceLaws D}.
Implicit Types m : ufs_mount_t D.

Lemma blocks_ok_buf m l bs : blocks_ok m bs -> blocks_ok (set_inode_buf l m) bs.
Proof. intros []. by split. Qed.

Lemma file_ok_buf m l ino : ufile_ok m ino -> ufile_ok (set_inode_buf l m) ino.
Proof. intros [H1 [A B C E] H3]. split; [done|split; [done|done|by apply blocks_ok_buf|done]|done]. Qed.

Lemma written_buf m l ino data offset w m' : written (set_inode_buf l m) ino data offset w m' -> written m ino data offset w m'.
Proof. intros (W1 & W2 & W3 & W4 & W5 & W6 & W7). split_and!; try done. intros bs Hb. by apply W6, blocks_ok_buf. Qed.

(** The whole of [ufs_vfs_write]. *)
Lemma vfs_write_ok m n data offset ticks :
  let ino := node_ino n in
  mnt_ok m -> file_open m n -> byte_list data -> 0 <= offset <= i_size (inode_at m ino) ->
  offset + Z.of_nat (length data) < 2 ^ 31 -> is_u32 ticks ->
  exists w n' m', ufs_vfs_write n data offset ticks m = Some (w, n', m') /\ 0 <= w <= Z.of_nat (length data) /\
    (w = Z.of_nat (length data) \/ no_room m' (inode_at m' ino)) /\ written m ino data offset w m'.
Proof.
  intros ino Hm Hn Hb Ho Hlen Ht. pose proof (usable m n Hn) as Hus. destruct Hn as (N1 & N2 & N3 & Hok). fold ino in Hok.
  unfold ufs_vfs_write. rewrite Hus. fold ino. destruct (read_inode_ok m ino Hm (fo_valid _ _ Hok)) as (ib & ->).
  set (m0 := set_inode_buf ib m). pose proof (file_ok_buf m ib ino Hok) as Hok0. fold m0 in Hok0.
  assert (Hm0 : mnt_ok m0) by apply (frame_inode_buf (fun _ => False) m ib Hm). change (inode_at m ino) with (inode_at m0 ino) in *.
  pose proof (fo_size _ _ Hok0) as Hsz. pose proof (size_range m0 ino Hm0 (fo_valid _ _ Hok0)) as Hsr. unfold UFS_BLOCK_SIZE. rewrite u32_small by dlia.
  destruct (write_loop_ok (io_fuel (Z.of_nat (length data))) (inode_at m0 ino) (offset / 4096) (offset mod 4096) data m0 Hm0 (fo_state _ _ Hok0))
    as (w & i1 & m1 & new & -> & Hw); [dlia|dlia|done|unfold io_fuel, UFS_BLOCK_SIZE; dlia|]. cbn [mbind option_bind].
  rewrite <- Z.div_mod in Hw by lia. pose proof Hw as ((Hwr & _) & _).
  destruct (write_back m0 ino data offset w m1 i1 new ticks Hm0 Hok0 Ho Hlen Ht Hw) as [Hres Hroom]. apply written_buf in Hres.
  unfold resized in Hres, Hroom. cbn [i_size set_i_size] in Hres, Hroom.
  rewrite i32_small by lia. destruct (_ <? _); eexists _, _, _; (split; [reflexivity|]); split_and!; auto; lia.
Qed.


End UfsClaims.

#[export] Instance extent_eq_dec : EqDecision extent_t.
Proof. solve_decision. Defined.

Section EmptyFile.
Context {D : Type} `{BlockDeviceLaws D}.
Implicit Types m : ufs_mount_t D.

(** A file without blocks. *)
Lemma empty_file_ok m ino :
  mnt_ok m -> valid_ino m ino -> i_extents (inode_at m ino) = replicate 8 (Extent 0 0) -> i_size (inode_at m ino) = 0 -> ufile_ok m ino.
Proof.
  intros Hm Hv Hx Hs. split; [done| |rewrite Hs; lia]. split; [by apply inode_at_wf| | |]; rewrite Hx.
  - cbn. repeat constructor.
  - split; constructor.
  - split; [by intros e He%elem_of_nil|done].
Qed.

(** The checks that the inode [ino] is such a file. *)
Definition empty_file m (ino : Z) : bool :=
  mounted m && (1 <=? ino) && (ino <? 2 ^ 32) && (ino <=? inode_count (sb m)) && (i_size (inode_at m ino) =? 0) &&
  bool_decide (i_extents (inode_at m ino) = replicate 8 (Extent 0 0)).

Lemma empty_file_open m ino : mnt_ok m -> empty_file m ino = true -> file_open m (file_node ino).
Proof.
  unfold empty_file. intros Hm E. repeat (apply andb_true_iff in E as [E ?]). zbool.
  assert (Ei : node_ino (file_node ino) = ino) by (apply u32_small; lia). unfold file_open. rewrite Ei. split_and!; [done|done|done|].
  apply empty_file_ok; [done|unfold valid_ino; lia| |done]. by eapply bool_decide_eq_true.
Qed.

End EmptyFile.

(** ** Witness: a file just created on a new disk *)

Definition one_file : ufs_mount_t ramdisk := (ufs_vfs_create root_dir [97] 420 7 (fresh 64)).2.

Lemma one_file_ok : mnt_ok one_file.
Proof. apply mnt_check_ok. vm_compute. reflexivity. Qed.

Lemma one_file_open : file_open one_file (file_node 2).
Proof. apply empty_file_open; [exact one_file_ok|vm_compute; reflexivity]. Qed.


(** ** Runs that show what the hypotheses exclude *)

(** Files named by one letter, created in the root directory. *)
Fixpoint create_all (names : list Z) (m : ufs_mount_t ramdisk) : ufs_mount_t ramdisk :=
  match names with [] => m | c :: names => create_all names (ufs_vfs_create root_dir [c] 420 7 m).2 end.

Definition names_of (m : ufs_mount_t ramdisk) : option (list str) := map (fun e => e.1.1) <$> (ufs_vfs_readdir root_dir 1000 m).1.

(** After [a] is removed its slot stays empty, but [readdir] looks only at as many slots
    as there are entries: the last file is not listed. *)
Example readdir_misses_last :
  let m := (ufs_vfs_unlink root_dir [97] (create_all [97; 98; 99] (fresh 64))).2 in
  (names_of m, (ufs_find_in_dir 1 [99] m).1) = (Some [[46]; [46; 46]; [98]], Some 4).
Proof. vm_compute. reflexivity. Qed.

(** Entries for inode 2 under names of one letter. *)
Definition link_all (names : list Z) (m : ufs_mount_t ramdisk) : ufs_mount_t ramdisk :=
  foldl (fun m c => (ufs_add_to_dir 1 2 [c] 1 m).2) m names.

(** With 65 entries the directory has two blocks; removing one from the first block makes
    its size one block, and the entry in the second block cannot be found any more. *)
Example removal_loses_other_entry :
  let m := link_all (Z.of_nat <$> seq 100 63) (fresh 64) in
  let m' := (ufs_remove_from_dir 1 [100] m).2 in
  ((ufs_find_in_dir 1 [162] m).1, (ufs_find_in_dir 1 [162] m').1) = (Some 2, None).
Proof. vm_compute. reflexivity. Qed.

(** A file of two extents that is continued where the first one ends: the new block becomes
    its second block and the old second block its third. *)
Example append_out_of_order :
  let xs := Extent 40 1 :: Extent 50 1 :: replicate 6 (Extent 0 0) in
  xblocks xs = [40; 50] /\ option_map xblocks (append_extent xs 41) = Some [40; 41; 50].
Proof. split; vm_compute; reflexivity. Qed.

(** A write behind the end of a file goes to its next block, wherever the offset is. *)
Example write_past_end_misplaced :
  ('(w, _, m) ← ufs_vfs_write (file_node 2) [1; 2; 3] 8192 8 one_file;
   '(r, l, _) ← ufs_vfs_read (file_node 2) 3 8192 m;
   '(_, l', _) ← ufs_vfs_read (file_node 2) 3 0 m; Some (w, r, l, l')) = Some (3, 0, [], [1; 2; 3]).
Proof. vm_compute. reflexivity. Qed.

(** [ufs_format] leaves [dev_node] null, so every write fails and it always returns -1. *)
Example ufs_format_fails : (ufs_format (D := ramdisk) 0 64 0 7).1 = -1.
Proof. vm_compute. reflexivity. Qed.
