(* ===== verification/UfsFormat.v ===== *)
(** * Formatting and mounting

    A device that [ufs_vfs_format] has formatted is accepted by [ufs_vfs_mount], and the
    file system is well formed and empty: the bitmap, the counters, the root directory and
    the free inodes, for every size of the device. *)

From S2P Require Import Prelude Bytes KMalloc Vfs Ufs UfsSpec.

(** The state of the mount on a device whose block 0 is a superblock. *)
Definition mount_of {D : Type} `{BlockDevice D} (d : D) : ufs_mount_t D :=
  let l := default [] (dev_read d 0) in Mount (sb_of l) true (Some d) 0 2 l zero_block.

(** The first block behind the inodes. *)
Definition first_data (n : Z) : Z := 1 + (n + 32767) / 32768 + 35.

(** The root directory: two entries in one block. *)
Definition root_inode_of (root_block ticks : Z) : ufs_inode_t :=
  let root := set_i_size (2 * sizeof_dirent) (new_inode (Z.lor UFS_INODE_DIR 493) 2 ticks) in
  let root := set_i_blocks ((i_size root + 511) / 512) root in
  set_i_extents (<[0%nat := Extent root_block 1]> (i_extents root)) root.

Lemma format_sb_fields n : 0 <= n < 2 ^ 31 ->
  format_sb n = Superblock UFS_MAGIC UFS_VERSION n (u32 (n - first_data n)) 1024 1024 1 (1 + (n + 32767) / 32768) (first_data n) 1 (replicate 54 0) 0.
Proof.
  intros Hn. unfold format_sb, first_data, inodes_per_block. rewrite (u32_small (n + 32767)) by lia.
  rewrite (u32_small (1 + _)) by dlia. change ((1024 + 30 - 1) / 30) with 35. by rewrite (u32_small (1 + _ + 35)) by dlia.
Qed.

Lemma format_layout n : first_data n < n -> n < 2 ^ 31 -> layout_ok (format_sb n).
Proof.
  intros Hd Hn. assert (0 < n) by (unfold first_data in Hd; dlia). rewrite format_sb_fields by lia. unfold first_data in *.
  split; cbn [total_blocks bitmap_start inode_table_start data_start inode_count]; try lia; [|change ((1024 + 29) / 30) with 35; lia].
  split; [|apply length_replicate]. unfold sb_words.
  cbn [s_magic s_version total_blocks free_blocks inode_count free_inodes bitmap_start inode_table_start data_start root_inode s_pad s_checksum].
  apply Forall_app. split; [|apply Forall_app; split; [apply Forall_replicate; unfold is_u32; lia|]];
    repeat (apply Forall_cons; split); try apply Forall_nil; unfold is_u32, UFS_MAGIC, UFS_VERSION; try apply u32_range; try lia; dlia.
Qed.

(** The entries of the root directory's block. *)
Lemma dots_entries : (fun j => (ent_inode (dot_ents 1 1) j, ent_name (dot_ents 1 1) j)) <$> seq 0 64 = (1, [46]) :: (1, [46; 46]) :: replicate 62 (0, []).
Proof. vm_compute. reflexivity. Qed.

Lemma dots_found name : match first_ent (is_named name (dot_ents 1 1)) with
  | Some j => ent_inode (dot_ents 1 1) j = 1 /\ (name = [46] \/ name = [46; 46])
  | None => name <> [46] /\ name <> [46; 46]
  end.
Proof.
  assert (He : forall j x, seq 0 64 !! j = Some x -> x = j /\ (ent_inode (dot_ents 1 1) j, ent_name (dot_ents 1 1) j) ∈ [(1, [46]); (1, [46; 46]); (0, [])] ).
  { intros j x Hj. apply lookup_seq in Hj as [-> Hj]. split; [done|]. pose proof (f_equal (fun l => l !! j) dots_entries) as E. cbn beta in E.
    rewrite list_lookup_fmap, lookup_seq_lt in E by done. cbn [fmap option_fmap option_map Nat.add] in E.
    destruct j as [|[|j]]; [apply (inj Some) in E; rewrite E; set_solver|apply (inj Some) in E; rewrite E; set_solver|].
    change (Some (ent_inode (dot_ents 1 1) (S (S j)), ent_name (dot_ents 1 1) (S (S j))) = replicate 62 (0, []) !! j) in E.
    rewrite lookup_replicate_2 in E by lia. apply (inj Some) in E. rewrite E. set_solver. }
  assert (E0 : ent_inode (dot_ents 1 1) 0 = 1 /\ ent_name (dot_ents 1 1) 0 = [46]) by (vm_compute; done).
  assert (E1 : ent_inode (dot_ents 1 1) 1 = 1 /\ ent_name (dot_ents 1 1) 1 = [46; 46]) by (vm_compute; done).
  unfold first_ent, ents_per_block. destruct (find _ (seq 0 64)) as [j|] eqn:Ef.
  - apply find_some in Ef as [Hin Hn]. apply list_elem_of_In, list_elem_of_lookup in Hin as [k Hk]. destruct (He k j Hk) as [-> Hin].
    unfold is_named in Hn. apply andb_true_iff in Hn as [Hz Hs%bool_decide_eq_true]. rewrite Hs in Hin. apply nz_true in Hz. set_solver.
  - split; intros ->; [pose proof (find_none _ _ Ef 0%nat) as Hx; destruct E0 as [E2 E3]|pose proof (find_none _ _ Ef 1%nat) as Hx; destruct E1 as [E2 E3]];
      (unfold is_named in Hx; rewrite E2, E3 in Hx; discriminate Hx; apply list_elem_of_In, list_elem_of_lookup; first [by exists 0%nat|by exists 1%nat]).
Qed.

Section Format.
Context {D : Type} `{BlockDeviceLaws D}.
Implicit Types m : ufs_mount_t D.

(** ** The loops of the formatting *)

(** What the loops keep of the mount, next to [frame]. *)
Definition same_counts m m' : Prop :=
  sb m' = sb m /\ next_free_block m' = next_free_block m /\ next_free_inode m' = next_free_inode m.

Lemma each_zero k : forall i m, mnt_ok m -> blk_buf m = zero_block -> 0 <= i -> i + Z.of_nat k <= total m ->
  let m' := each_block k i (fun i m => (ufs_write_block i (blk_buf m) m).2) m in
  frame (fun x => i <= x < i + Z.of_nat k) m m' /\ (forall b, i <= b < i + Z.of_nat k -> view m' b = zero_block) /\ same_counts m m'.
Proof.
  induction k as [|k IH]; intros i m Hm Hbuf Hi Hk; cbn [each_block]; [split; [by apply frame_refl|]; split; [lia|done]|].
  destruct (write_ok m i (blk_buf m) Hm) as (d & E & F1 & V1); [lia|rewrite Hbuf; apply zero_is_block|]. rewrite E. cbn [snd].
  pose proof (frame_total _ _ _ F1) as Ht.
  destruct (IH (i + 1) (set_dev (Some d) m) (fr_ok _ _ _ F1)) as (F2 & V2 & S2); [done|lia|lia|].
  split; [eapply frame_impl; [|exact (frame_trans _ _ _ _ _ F1 F2)]; cbn; intros b Hb; lia|]. split; [|done].
  intros b Hb. destruct (decide (b = i)) as [->|]; [|apply V2; lia]. rewrite (fr_view _ _ _ F2), V1 by lia. done.
Qed.

Lemma each_mark k : forall i m, mnt_ok m -> 0 <= i -> i + Z.of_nat k <= total m ->
  let m' := each_block k i (fun i m => (ufs_bitmap_set i true m).2) m in
  frame (fun x => 0 < x < inode_table_start (sb m)) m m' /\ same_counts m m' /\
  forall b, 0 <= b < total m -> in_use m' b = if decide (i <= b < i + Z.of_nat k) then true else in_use m b.
Proof.
  induction k as [|k IH]; intros i m Hm Hi Hk; cbn [each_block].
  { split; [by apply frame_refl|]. split; [done|]. intros b Hb. by rewrite decide_False by lia. }
  destruct (bitmap_set_ok m i true Hm ltac:(lia)) as (m1 & E & F1 & U1 & S1). rewrite E. cbn [snd].
  pose proof (frame_total _ _ _ F1) as Ht. destruct (map_block_range m i Hm ltac:(lia)) as (_ & Hr & _).
  destruct (IH (i + 1) m1 (fr_ok _ _ _ F1)) as (F2 & S2 & U2); [lia|lia|]. destruct S1 as (Sa & Sb & Sc), S2 as (Sd & Se & Sf).
  split; [eapply frame_impl; [|exact (frame_trans _ _ _ _ _ F1 F2)]; cbn; rewrite Sa; intros b Hb; lia|].
  split; [unfold same_counts; split_and!; congruence|]. intros b Hb. rewrite U2, U1 by lia.
  destruct (decide (i + 1 <= b < i + 1 + Z.of_nat k)), (decide (b = i)), (decide (i <= b < i + Z.of_nat (S k))); done || lia.
Qed.

(** ** The contents of a formatted device *)

(** One block and one inode are in use, for the root directory. *)
Definition empty_sb (n : Z) : ufs_superblock_t := set_free_inodes 1023 (set_free_blocks (n - first_data n - 1) (format_sb n)).

Record formatted (n ticks : Z) m : Prop := {
  fd_ok : mnt_ok m;
  fd_sb : sb m = set_s_checksum (ufs_calc_sb_checksum (empty_sb n)) (empty_sb n);
  fd_synced : sb_synced m;
  fd_used : forall b, 0 <= b < n -> in_use m b = bool_decide (b <= first_data n);
  fd_root : inode_at m 1 = root_inode_of (first_data n) ticks;
  fd_inodes : forall ino, 1 < ino <= 1024 -> inode_at m ino = zero_inode;
  fd_entries : view m (first_data n) = dot_ents 1 1 }.

Lemma dot_ents_block : is_block (dot_ents 1 1).
Proof. apply bytes_ok_block. vm_compute. reflexivity. Qed.

Lemma root_inode_wf b ticks : is_u32 b -> is_u32 ticks -> inode_wf (root_inode_of b ticks).
Proof.
  intros Hb Ht. pose proof (new_inode_wf (Z.lor UFS_INODE_DIR 493) 2 ticks ltac:(unfold is_u16; lia) Ht) as [H1 H2 H3 H4 Hw H5 H6 H7 H8].
  split; try done.
  - repeat (apply Forall_cons in Hw as [? Hw]). repeat (apply Forall_cons; split); try done; unfold is_u32; vm_compute; split; congruence.
  - repeat (apply Forall_cons; split); try done; cbn; unfold is_u32; lia.
Qed.

Lemma zero_inode_at m ino : mnt_ok m -> valid_ino m ino -> view m (inode_block ino m) = zero_block -> inode_at m ino = zero_inode.
Proof.
  intros Hm Hv E. unfold inode_at. rewrite E. destruct (inode_range m ino Hm Hv) as (_ & _ & _ & Ho1 & Ho2).
  rewrite <- inode_of_take. unfold zero_block. rewrite drop_replicate, take_replicate.
  replace (136 `min` (4096 - Z.to_nat (inode_off ino)))%nat with 136%nat by lia. vm_compute. reflexivity.
Qed.

Lemma nth_zero_block j : nth j zero_block 0 = 0.
Proof.
  rewrite nth_lookup. destruct (zero_block !! j) as [x|] eqn:E; [|done].
  unfold zero_block in E. by apply lookup_replicate_1 in E as [-> _].
Qed.

Lemma map_block_next m b : mnt_ok m -> 0 <= b < total m -> 0 < map_block b m < inode_table_start (sb m).
Proof. intros Hm Hb. by destruct (map_block_range m b Hm Hb) as (_ & ? & _). Qed.

(** The areas are cleared and marked; then the first data block is allocated. *)
Lemma format_prepare n m : mnt_ok m -> sb m = format_sb n -> total m = n -> next_free_block m = 0 -> first_data n < n -> n < 2 ^ 31 ->
  let k := Z.to_nat (first_data n) in
  let m2 := each_block k 0 (fun i m => (ufs_bitmap_set i true m).2)
              (each_block k 0 (fun i m => (ufs_write_block i (blk_buf m) m).2) (set_blk_buf zero_block m)) in
  exists m3, ufs_alloc_block m2 = (first_data n, m3) /\ mnt_ok m3 /\ geom (sb m3) = geom (format_sb n) /\
    free_blocks (sb m3) = n - first_data n - 1 /\
    (forall b, 0 <= b < n -> in_use m3 b = bool_decide (b <= first_data n)) /\
    (forall b, inode_table_start (sb m) <= b < first_data n -> view m3 b = zero_block).
Proof.
  intros Hm Hsb Ht Hnx Hd Hn k m2. assert (Hn0 : 0 < n) by (unfold first_data in Hd; dlia).
  assert (Hf : data_start (sb m) = first_data n /\ inode_table_start (sb m) = 1 + (n + 32767) / 32768) by (by rewrite Hsb, format_sb_fields by lia).
  destruct Hf as [Hds Hts]. assert (Hfd : 1 < first_data n) by (unfold first_data; dlia).
  pose proof (layout_order _ (mo_layout _ Hm)) as Ho.
  pose proof (frame_buf (fun _ => False) m zero_block Hm zero_is_block) as F0. set (m0 := set_blk_buf zero_block m) in *.
  destruct (each_zero k 0 m0 (fr_ok _ _ _ F0)) as (F1 & V1 & S1a & S1b & S1c); [done|lia|change (total m0) with (total m); lia|].
  set (m1 := each_block k 0 _ m0) in *. pose proof (frame_total _ _ _ F1) as T1. change (total m0) with (total m) in T1.
  destruct (each_mark k 0 m1 (fr_ok _ _ _ F1)) as (F2 & (S2a & S2b & S2c) & U2); [lia|lia|]. fold m2 in F2, S2a, S2b, S2c, U2.
  pose proof (frame_total _ _ _ F2) as T2. pose proof (fr_ok _ _ _ F2) as Hm2.
  assert (Es : sb m2 = format_sb n) by (rewrite S2a, S1a; exact Hsb).
  assert (Use : forall b, 0 <= b < n -> in_use m2 b = bool_decide (b < first_data n)).
  { intros b Hb. rewrite U2 by lia. destruct (decide _) as [Hin|Hout]; [by rewrite bool_decide_eq_true_2 by lia|].
    rewrite bool_decide_eq_false_2 by lia. unfold in_use. pose proof (map_block_next m1 b (fr_ok _ _ _ F1) ltac:(lia)) as Hmb.
    rewrite S1a in Hmb. change (inode_table_start (sb m0)) with (inode_table_start (sb m)) in Hmb. rewrite V1 by lia.
    rewrite nth_zero_block. apply Z.testbit_0_l. }
  destruct (ufs_alloc_block m2) as [r m3] eqn:Ea. apply alloc_block_ok in Ea; [|done].
  assert (Hst : alloc_start m2 = first_data n).
  { unfold alloc_start. rewrite Es, S2b, S1b. change (next_free_block m0) with (next_free_block m). rewrite Hnx, <- Hsb, Hds. lia. }
  rewrite Hst in Ea. assert (Hdm : data_start (sb m2) = first_data n) by (by rewrite Es, <- Hsb).
  destruct Ea as [(_ & _ & Hall)|((Hr & _ & F3 & _ & U3 & Hfb & _) & Hcase)].
  { specialize (Hall (first_data n) ltac:(lia)). rewrite Use, bool_decide_eq_false_2 in Hall by lia. done. }
  assert (r = first_data n) as ->.
  { destruct Hcase as [|[?|Hu]]; [done|lia|]. rewrite Use, bool_decide_eq_false_2 in Hu by lia. done. }
  exists m3. split; [done|]. split; [apply F3|]. split; [by rewrite (fr_geom _ _ _ F3), Es|]. split; [|split].
  - rewrite Hfb, Es, format_sb_fields by lia. cbn [free_blocks]. rewrite (u32_small (n - first_data n)) by lia. apply u32_small. lia.
  - intros b Hb. rewrite U3 by lia. rewrite Use by lia. destruct (decide (b = first_data n)) as [->|].
    + by rewrite bool_decide_eq_true_2 by lia.
    + apply bool_decide_ext. lia.
  - intros b Hb. pose proof (map_block_next m2 (first_data n) Hm2 ltac:(lia)) as Hmb. rewrite Es, <- Hsb in Hmb.
    rewrite (fr_view _ _ _ F3) by lia. rewrite (fr_view _ _ _ F2); [apply V1; lia|lia|].
    cbn. rewrite S1a. change (inode_table_start (sb m0)) with (inode_table_start (sb m)). lia.
Qed.

Lemma empty_sb_u32 n : first_data n < n -> n < 2 ^ 31 -> let s := set_s_checksum (ufs_calc_sb_checksum (empty_sb n)) (empty_sb n) in
  is_u32 (free_blocks s) /\ is_u32 (free_inodes s) /\ is_u32 (s_checksum s).
Proof.
  intros Hd Hn s. assert (0 < n) by (unfold first_data in Hd; dlia).
  assert (C1 : is_u32 (n - first_data n - 1)) by (unfold is_u32, first_data in *; dlia). assert (C2 : is_u32 1023) by (unfold is_u32; lia).
  split_and!; [exact C1|exact C2|]. change (is_u32 (ufs_calc_sb_checksum (empty_sb n))).
  pose proof (format_layout n Hd Hn) as Hl. apply sb_checksum_u32.
  apply (sb_words_geom (format_sb n)); [unfold empty_sb; by destruct (format_sb n)|exact C1|exact C2| |by apply Hl].
  by destruct (sb_counts _ (lo_wf _ Hl)) as (_ & _ & ? & _).
Qed.

(** After the inode of the root, only the superblock and the block of the root are written. *)
Lemma formatted_of n ticks m3 m4 m8 : mnt_ok m3 -> geom (sb m3) = geom (format_sb n) -> first_data n < n -> n < 2 ^ 31 ->
  (forall b, 0 <= b < n -> in_use m3 b = bool_decide (b <= first_data n)) ->
  (forall b, inode_table_start (format_sb n) <= b < first_data n -> view m3 b = zero_block) ->
  frame (eq (inode_block 1 m3)) m3 m4 -> sb m4 = sb m3 ->
  (forall ino, valid_ino m3 ino -> inode_at m4 ino = if decide (ino = 1) then root_inode_of (first_data n) ticks else inode_at m3 ino) ->
  frame (fun x => x = 0 \/ x = first_data n) m4 m8 ->
  sb m8 = set_s_checksum (ufs_calc_sb_checksum (empty_sb n)) (empty_sb n) -> sb_synced m8 -> view m8 (first_data n) = dot_ents 1 1 ->
  formatted n ticks m8.
Proof.
  intros Hm3 Hg Hd Hn Use Vz F4 S4 I4 F Es Hsy Hdots. assert (Hn0 : 0 < n) by (unfold first_data in Hd; dlia).
  pose proof (geom_total _ _ Hg) as (G1 & G2 & _ & G4 & G5 & _). rewrite (format_sb_fields n) in G1, G2, G4, G5, Vz by lia.
  cbn [total_blocks inode_count inode_table_start data_start] in G1, G2, G4, G5, Vz. assert (Ht3 : total m3 = n) by done.
  pose proof (fr_ok _ _ _ F4) as Hm4. pose proof (frame_total _ _ _ F4) as T4.
  assert (Hlt : inode_table_start (sb m4) < first_data n) by (rewrite S4, G4; unfold first_data; lia).
  assert (Hlt0 : 0 < inode_table_start (sb m4)) by (rewrite S4, G4; dlia).
  assert (Hino : forall ino, 1 <= ino <= 1024 -> inode_at m8 ino = if decide (ino = 1) then root_inode_of (first_data n) ticks else inode_at m3 ino).
  { intros ino Hi. rewrite (frame_inode _ m4 m8 ino F Hm4); [apply I4; unfold valid_ino; lia|unfold valid_ino; rewrite S4; lia|].
    intros x Hx [?|?]; rewrite S4, ?G4, ?G5 in *; lia. }
  split; [apply F|done|done| | | |done].
  - intros b Hb. rewrite (frame_used _ m4 m8 b F Hm4) by (lia || (intros x Hx [?|?]; lia)). rewrite (frame_used _ m3 m4 b F4 Hm3); [by apply Use|lia|].
    intros x Hx <-. destruct (inode_range m3 1 Hm3) as (_ & _ & ? & _); [unfold valid_ino; lia|lia].
  - rewrite Hino by lia. by rewrite decide_True.
  - intros ino Hi. rewrite Hino, decide_False by lia. apply zero_inode_at; [done|unfold valid_ino; lia|].
    destruct (inode_range m3 ino Hm3) as (_ & _ & Hr & _); [unfold valid_ino; lia|]. apply Vz. lia.
Qed.

Lemma format_with_formatted n ticks m : mnt_ok m -> sb m = format_sb n -> total m = n -> next_free_block m = 0 -> is_u32 ticks ->
  first_data n < n -> n < 2 ^ 31 -> exists m', format_with ticks m = (0, m') /\ formatted n ticks m'.
Proof.
  intros Hm Hsb Ht Hnx Htk Hd Hn. assert (Hn0 : 0 < n) by (unfold first_data in Hd; dlia). assert (Hfd : 1 < first_data n) by (unfold first_data; dlia).
  destruct (format_prepare n m Hm Hsb Ht Hnx Hd Hn) as (m3 & Ea & Hm3 & Hg & Hfb & Use & Vz).
  unfold format_with. assert (Eds : data_start (sb m) = first_data n) by (by rewrite Hsb, format_sb_fields by lia). rewrite Eds, Ea.
  rewrite (proj2 (Z.eqb_neq (first_data n) 0)) by lia. fold (root_inode_of (first_data n) ticks).
  pose proof (geom_total _ _ Hg) as (G1 & G2 & _ & G4 & G5 & _). rewrite (format_sb_fields n) in G1, G2, G4, G5 by lia.
  cbn [total_blocks inode_count inode_table_start data_start] in G1, G2, G4, G5. assert (Ht3 : total m3 = n) by done.
  assert (Hu32 : is_u32 (first_data n)) by (unfold is_u32; lia).
  destruct (write_inode_ok m3 1 (root_inode_of (first_data n) ticks) Hm3) as (m4 & -> & F4 & I4 & S4 & _); [unfold valid_ino; lia|by apply root_inode_wf|].
  cbn [snd]. pose proof (fr_ok _ _ _ F4) as Hm4. pose proof (frame_total _ _ _ F4) as T4.
  pose proof (frame_buf (fun _ => False) m4 _ Hm4 dot_ents_block) as F5. set (m5 := set_blk_buf (dot_ents 1 1) m4) in *.
  change (blk_buf m5) with (dot_ents 1 1).
  destruct (write_ok m5 (first_data n) (dot_ents 1 1) (fr_ok _ _ _ F5)) as (d & -> & F6 & V6); [change (total m5) with (total m4); lia|apply dot_ents_block|].
  cbn [nz Z.eqb negb]. set (m6 := set_dev (Some d) m5) in *. change (sb m6) with (sb m4). rewrite S4.
  set (s := set_free_inodes (1024 - 1) (sb m3)).
  assert (Es : set_s_checksum 0 s = set_s_checksum 0 (empty_sb n)).
  { unfold s, empty_sb. revert Hg Hfb. unfold geom, set_s_checksum, set_free_inodes, set_free_blocks.
    destruct (sb m3), (format_sb n). cbn. intros Hg ->. change (1024 - 1) with 1023. congruence. }
  assert (Ec : ufs_calc_sb_checksum s = ufs_calc_sb_checksum (empty_sb n)) by (unfold ufs_calc_sb_checksum; by rewrite Es).
  assert (Es' : set_s_checksum (ufs_calc_sb_checksum s) s = set_s_checksum (ufs_calc_sb_checksum (empty_sb n)) (empty_sb n)).
  { rewrite Ec. change (set_s_checksum ?c s) with (set_s_checksum c (set_s_checksum 0 s)). by rewrite Es. }
  rewrite Es'. set (s' := set_s_checksum (ufs_calc_sb_checksum (empty_sb n)) (empty_sb n)) in *.
  assert (Hgs : geom s' = geom (sb m6)) by (rewrite <- Es'; change (sb m6) with (sb m4); rewrite S4; by destruct (sb m3)).
  pose proof (fr_ok _ _ _ F6) as Hm6. destruct (empty_sb_u32 n Hd Hn) as (C1 & C2 & C3).
  destruct (frame_sb (fun _ => False) m6 s' Hm6 Hgs C1 C2 C3) as [F7 V7].
  set (buf := store 0 (sb_bytes s') zero_block). set (m7 := set_sb s' m6) in *.
  pose proof (lo_wf _ (mo_layout _ (fr_ok _ _ _ F7))) as Hsw. change (sb m7) with s' in Hsw.
  assert (Hbuf : is_block buf).
  { apply store_is_block; [apply zero_is_block|apply words_bytes_bytes|lia|]. rewrite sb_bytes_length by apply Hsw. lia. }
  pose proof (frame_buf (fun _ => False) m7 buf (fr_ok _ _ _ F7) Hbuf) as F8. change (blk_buf (set_blk_buf buf m7)) with buf.
  pose proof (frame_total _ _ _ F6) as T6. pose proof (frame_total _ _ _ F7) as T7. change (total m5) with (total m4) in T6.
  destruct (write_ok (set_blk_buf buf m7) 0 buf (fr_ok _ _ _ F8)) as (d' & -> & F9 & V9); [change (total (set_blk_buf buf m7)) with (total m7); lia|done|].
  set (m8 := set_dev (Some d') (set_blk_buf buf m7)) in *. cbn [snd]. exists m8. split; [done|].
  pose proof (frame_trans _ _ _ _ _ F5 (frame_trans _ _ _ _ _ F6 (frame_trans _ _ _ _ _ F7 (frame_trans _ _ _ _ _ F8 F9)))) as F48.
  assert (F : frame (fun x => x = 0 \/ x = first_data n) m4 m8) by (eapply frame_impl; [|exact F48]; cbn; intros b Hb; intuition congruence).
  rewrite Hsb in Vz. apply (formatted_of n ticks m3 m4 m8 Hm3 Hg Hd Hn Use Vz F4 S4 I4 F); [reflexivity| |].
  - split; [rewrite V9; unfold buf, store; cbn [Z.to_nat take app]; by apply sb_of_bytes|]. change (sb m8) with s'. unfold s'.
    unfold ufs_calc_sb_checksum. by destruct (empty_sb n).
  - rewrite (fr_view _ _ _ F9); [change (view m7 (first_data n) = dot_ents 1 1); by rewrite V7|change (total (set_blk_buf buf m7)) with (total m7); lia|lia].
Qed.

(** ** Mounting *)

Lemma view_same m m' : dev m' = dev m -> total m' = total m -> view m' = view m.
Proof. intros Ed Et. unfold view, ufs_read_block, total in *. by rewrite Ed, Et. Qed.

(** The mount finds on the device what the formatting left in memory. *)
Lemma mount_of_formatted n ticks m d : formatted n ticks m -> dev m = Some d -> formatted n ticks (mount_of d) /\
  s_magic (sb (mount_of d)) = UFS_MAGIC.
Proof.
  intros [Hm Es [Hs1 Hs2] Hu Hr Hi He] Hd.
  assert (E0 : default [] (dev_read d 0) = view m 0).
  { unfold view, ufs_read_block. pose proof (total_pos m Hm) as Hp. unfold total in Hp. rewrite (proj2 (Z.leb_gt _ _)) by lia. by rewrite Hd. }
  assert (Esb : sb (mount_of d) = sb m) by (unfold mount_of; cbn [sb]; by rewrite E0).
  assert (Ht : total (mount_of d) = total m) by (unfold total; by rewrite Esb).
  assert (Ev : view (mount_of d) = view m) by (by apply view_same).
  assert (Hm' : mnt_ok (mount_of d)).
  { destruct Hm as [(d0 & Hd0 & Hsz) Hl Hb Hn]. split; rewrite ?Esb; try done.
    - exists d. split; [done|]. rewrite Ht. congruence.
    - change (blk_buf (mount_of d)) with (default [] (dev_read d 0)). rewrite E0. apply read_ok; [by split; eauto|].
      pose proof (layout_order _ Hl). unfold total. lia.
    - change (next_free_block (mount_of d)) with 0. pose proof (layout_order _ Hl). rewrite Ht. unfold total. lia. }
  split; [split; rewrite ?Esb, ?Ev; try done|rewrite Esb, Es; unfold empty_sb; done].
  - unfold sb_synced. by rewrite Ev, Esb.
  - intros b Hb. rewrite <- Hu by done. unfold in_use. rewrite Ev. unfold map_block. by rewrite Esb.
  - rewrite <- Hr. unfold inode_at, inode_block. by rewrite Ev, Esb.
  - intros ino Hino. rewrite <- (Hi ino Hino). unfold inode_at, inode_block. by rewrite Ev, Esb.
Qed.

Lemma vfs_mount_of (live : heap -> gset Z -> Prop) `{!Allocator live} n d s L : live (vheap s) L -> s_magic (sb (mount_of d)) = UFS_MAGIC ->
  s_checksum (sb (mount_of d)) = ufs_calc_sb_checksum (sb (mount_of d)) -> is_Some (dev_read d 0) ->
  exists r node mo s', ufs_vfs_mount (Some (disk_node n)) d s = Some (r, node, mo, s') /\
    ((r = -1 /\ mo = None) \/ (r = 0 /\ mo = Some (mount_of d))).
Proof.
  intros Hl Hmg Hck [l El]. unfold ufs_vfs_mount. change (negb (n_type (disk_node n) =? VFS_BLOCK_DEVICE)) with false.
  destruct (alloc_ok (vheap s) L sizeof_ufs_mount Hl) as [E|(p & h & E & Hp & HpL & Hl1)]; [done|done|rewrite E|rewrite E]; cbn [mbind option_bind].
  { exists (-1), 0, None. eexists. split; [reflexivity|]. by left. }
  rewrite (proj2 (Z.eqb_neq p 0)) by done. rewrite El.
  assert (Esb : sb_of l = sb (mount_of d)) by (unfold mount_of; cbn [sb]; by rewrite El).
  cbn [sb set_sb]. rewrite Esb, Hmg, Hck, !Z.eqb_refl. cbn [negb]. unfold vfs_create_node. cbn [vheap set_vheap].
  destruct (alloc_ok h _ sizeof_vnode Hl1) as [E2|(q & h2 & E2 & Hq & HqL & Hl2)]; [done|done|rewrite E2|rewrite E2]; cbn [mbind option_bind].
  { destruct (free_ok h _ p Hl1) as (h3 & E3 & _); [set_solver|]. cbn [Z.eqb mbind option_bind vheap set_vheap].
    rewrite E3. cbn [mbind option_bind].
    exists (-1), 0, None. eexists. split; [reflexivity|]. by left. }
  rewrite (proj2 (Z.eqb_neq q 0)) by done. cbn [mbind option_bind]. rewrite (proj2 (Z.eqb_neq q 0)) by done. erewrite update_eq by apply node_put. cbn [mbind option_bind].
  eexists 0, q, _, _. split; [reflexivity|]. right. split; [done|]. f_equal. unfold mount_of. rewrite El. reflexivity.
Qed.

(** ** The root directory *)


Lemma find_in_root n ticks m name : formatted n ticks m ->  first_data n < n -> n < 2 ^ 31 ->
  (ufs_find_in_dir 1 name m).1 = if decide (name = [46] \/ name = [46; 46]) then Some 1 else None.
Proof.
  intros [Hm Es _ _ Hr _ He] Hd Hn. assert (Hn0 : 0 < n) by (unfold first_data in Hd; dlia). assert (Hfd : 1 < first_data n) by (unfold first_data; dlia).
  assert (Hc : inode_count (sb m) = 1024 /\ total m = n) by (unfold total; rewrite Es; unfold empty_sb; rewrite format_sb_fields by lia; done).
  destruct Hc as [Hc Ht]. unfold ufs_find_in_dir.
  destruct (read_inode_ok m 1 Hm) as (l & ->); [unfold valid_ino; lia|]. rewrite Hr. unfold scan_dir.
  change (Z.to_nat (dir_blocks (root_inode_of (first_data n) ticks))) with 1%nat. cbn [dir_scan].
  assert (Eb : ufs_get_block (root_inode_of (first_data n) ticks) 0 = first_data n).
  { unfold ufs_get_block. cbn. rewrite Z.add_0_r. apply u32_small. lia. }
  rewrite Eb. rewrite (proj2 (Z.eqb_neq (first_data n) 0)) by lia.
  destruct (read_ok m (first_data n) Hm) as [Er _]; [lia|]. change (ufs_read_block (first_data n) (set_inode_buf l m)) with (ufs_read_block (first_data n) m).
  rewrite Er, He. pose proof (dots_found name) as Hf. destruct (first_ent _) as [j|]; cbn [mbind option_bind fst snd fmap option_fmap option_map].
  - destruct Hf as [-> Hname]. by rewrite decide_True.
  - rewrite decide_False; [done|tauto].
Qed.

End Format.

