(* ===== verification/Disk.v ===== *)
(** * Disks: the command layer of kernel/drivers/storage/ahci.c, disk.c and the block devices of kernel/fs/devfs.c

    The controller is the interface [Ata]: it executes a command, as the command table and
    the frame that [ahci_send_cmd] writes describe it, and transfers bytes or reports an
    error; a time-out is an error.  On top of it are the four disks of disk.c with the
    selected one, and the nodes of devfs, which read and write any number of bytes at any
    offset of a disk or of a partition. *)

From S2P Require Import Prelude Bytes KMalloc Vfs Ufs.

(** ** The controller *)

(** The fields of the command that [ahci_send_cmd] fills from its arguments: the direction,
    the command code, the 48 bits of the address, the 16 bits of the number of sectors and
    the length of the one region of memory, [dbc + 1] with [dbc] of 22 bits. *)
Record ahci_cmd := Cmd { c_write : bool; c_code : Z; c_lba : Z; c_count : Z; c_bytes : Z }.

Definition ahci_command (is_write : bool) (cmd_code lba count : Z) : ahci_cmd :=
  Cmd is_write cmd_code
    (u8 lba + 2 ^ 8 * u8 (Z.shiftr lba 8) + 2 ^ 16 * u8 (Z.shiftr lba 16) + 2 ^ 24 * u8 (Z.shiftr lba 24)
     + 2 ^ 32 * u8 (Z.shiftr lba 32) + 2 ^ 40 * u8 (Z.shiftr lba 40))
    (Z.land count 0xFF + 2 ^ 8 * Z.land (Z.shiftr count 8) 0xFF)
    (u32 (count * 512 - 1) mod 2 ^ 22 + 1).

(** Commands that read transfer bytes to memory; [None] is an error. *)
Class Ata (H : Type) := {
  ata_in : H -> Z -> ahci_cmd -> option (list Z);
  ata_out : H -> Z -> ahci_cmd -> list Z -> bool * H }.

(** The bytes [a, a + n) of the medium behind a port. *)
Definition range {A} (byte : A -> Z -> Z -> Z) (d : A) (port a n : Z) : list Z :=
  (fun k => byte d port (a + Z.of_nat k)) <$> seq 0 (Z.to_nat n).

(** A drive of [capacity] sectors of 512 bytes: READ DMA EXT and WRITE DMA EXT transfer the
    sectors they name when the region of memory has their length. *)
Class AtaLaws (H : Type) `{Ata H} := {
  capacity : H -> Z -> Z;
  ata_byte : H -> Z -> Z -> Z;
  ata_byte_ok d p a : 0 <= ata_byte d p a < 256;
  ata_in_ok d p lba n : 0 <= lba -> 0 < n <= 8192 -> lba + n <= capacity d p ->
    ata_in d p (Cmd false 0x25 lba n (n * 512)) = Some (range ata_byte d p (lba * 512) (n * 512));
  ata_out_ok d p lba n l : 0 <= lba -> 0 < n <= 8192 -> lba + n <= capacity d p ->
    Z.of_nat (length l) = n * 512 -> byte_list l ->
    exists d', ata_out d p (Cmd true 0x35 lba n (n * 512)) l = (true, d') /\
      (forall p', capacity d' p' = capacity d p') /\
      forall p' a, ata_byte d' p' a =
        if (p' =? p) && (lba * 512 <=? a) && (a <? lba * 512 + n * 512) then nth (Z.to_nat (a - lba * 512)) l 0
        else ata_byte d p' a }.

(** ** Disks *)

Record disk_t := Disk {
  dk_port : Z;
  dk_sectors : Z;
  dk_model : list Z;
  dk_present : bool }.

Definition zero_disk : disk_t := Disk 0 0 [] false.

(** [private] of a block device node. *)
Record block_private := BlockPrivate { bp_disk_num : Z; bp_start_lba : Z; bp_sectors : Z }.

(** The controller, the table of disk.c and the structures that devfs nodes point to. *)
Record storage (H : Type) := Storage {
  hw : H;
  disks : list disk_t;
  current_disk : Z;
  privs : gmap Z block_private }.

Arguments Storage {H}.
Arguments hw {H}.
Arguments disks {H}.
Arguments current_disk {H}.
Arguments privs {H}.

Definition set_hw {H} (v : H) (r : storage H) : storage H :=
    Storage v (disks r) (current_disk r) (privs r).
Definition set_disks {H} (v : list disk_t) (r : storage H) : storage H :=
    Storage (hw r) v (current_disk r) (privs r).
Definition set_current_disk {H} (v : Z) (r : storage H) : storage H :=
    Storage (hw r) (disks r) v (privs r).
Definition set_privs {H} (v : gmap Z block_private) (r : storage H) : storage H :=
    Storage (hw r) (disks r) (current_disk r) v.

Section Disks.
Context {H : Type} `{Ata H}.
Implicit Types st : storage H.

(** [ahci_read] and [ahci_write] *)
Definition ahci_read (port lba count : Z) (d : H) : option (list Z) := ata_in d port (ahci_command false 0x25 lba count).
Definition ahci_write (port lba count : Z) (l : list Z) (d : H) : bool * H :=
  ata_out d port (ahci_command true 0x35 lba count) l.

Definition ahci_register_disk (port sectors : Z) (model : list Z) st : storage H :=
  if (port <? 0) || (4 <=? port) then st
  else set_disks (<[Z.to_nat port := Disk port sectors (take 40 model) true]> (disks st)) st.

(** A word of the data of IDENTIFY DEVICE. *)
Definition id_word (l : list Z) (k : Z) : Z := w16 l (2 * k).

(** The model, high byte of each word first, with a space for what cannot be printed. *)
Definition id_model (l : list Z) : list Z :=
  (fun c => if (c <? 32) || (126 <? c) then 32 else c) <$>
  concat ((fun i => let w := id_word l (27 + Z.of_nat i) in [Z.shiftr w 8; Z.land w 0xFF]) <$> seq 0 20).

Definition id_sectors (l : list Z) : Z :=
  let lba48 := Z.lor (Z.lor (Z.lor (id_word l 100) (Z.shiftl (id_word l 101) 16)) (Z.shiftl (id_word l 102) 32))
                 (Z.shiftl (id_word l 103) 48) in
  let sectors := if (0 <? lba48) && (lba48 <? 0x10000000000) then lba48
                 else Z.lor (id_word l 60) (Z.shiftl (id_word l 61) 16) in
  if sectors =? 0 then 2097152 else sectors.

Definition ahci_port_identify (port : Z) st : storage H :=
  match ata_in (hw st) port (ahci_command false 0xEC 0 1) with
  | None => st
  | Some l => ahci_register_disk port (id_sectors l) (id_model l) st
  end.

(** [ports] are the ports on which [ahci_init] finds an ATA drive. *)
Definition disk_init (ports : list Z) st : Z * storage H :=
  (0, foldl (fun st port => ahci_port_identify port st) (set_disks (replicate 4 zero_disk) st) ports).

(** [disks[i]]; the callers have [0 <= i < 4]. *)
Definition disk_at st (i : Z) : disk_t := default zero_disk (disks st !! Z.to_nat i).

Definition disk_get_sectors (drive : Z) st : Z :=
  let i := drive - 0x80 in
  if (i <? 0) || (4 <=? i) then 0 else dk_sectors (disk_at st i).

Definition disk_set_disk (n : Z) st : Z * storage H :=
  if (n <? 0) || (4 <=? n) then (-1, st) else
  if negb (dk_present (disk_at st n)) then (-1, st) else (0, set_current_disk n st).

Definition disk_set_drive (drive : Z) st : Z * storage H := disk_set_disk (drive - 0x80) st.

(** The bytes read, or [None] for the result -1. *)
Definition disk_read (lba count : Z) st : option (list Z) :=
  let d := disk_at st (current_disk st) in
  if negb (dk_present d) then None else ahci_read (dk_port d) lba count (hw st).

Definition disk_write (lba count : Z) (l : list Z) st : bool * storage H :=
  let d := disk_at st (current_disk st) in
  if negb (dk_present d) then (false, st) else
  let '(ok, d') := ahci_write (dk_port d) lba count l (hw st) in (ok, set_hw d' st).

Definition disk_get_disk_count st : Z := Z.of_nat (length (filter (fun d => dk_present d = true) (disks st))).

Definition disk_get_boot_device st : Z :=
  match first_index dk_present 0 (disks st) with Some i => Z.of_nat i | None => -1 end.

(** ["Unknown"] *)
Definition unknown_model : list Z := [85; 110; 107; 110; 111; 119; 110].
Definition disk_get_model (drive : Z) st : list Z :=
  let i := drive - 0x80 in
  if (i <? 0) || (4 <=? i) then unknown_model else dk_model (disk_at st i).

(** ** Block devices *)

(** Through the pointer [p], which the node's creator set; [0] is null. *)
Definition devfs_block_read_block (p lba count : Z) st : option (list Z) * storage H :=
  match privs st !! p with
  | None => (None, st)
  | Some b =>
      let st := (disk_set_disk (bp_disk_num b) st).2 in
      (disk_read (u32 (bp_start_lba b + lba)) count st, st)
  end.

Definition devfs_block_write_block (p lba count : Z) (l : list Z) st : bool * storage H :=
  match privs st !! p with
  | None => (false, st)
  | Some b => disk_write (u32 (bp_start_lba b + lba)) count l (disk_set_disk (bp_disk_num b) st).2
  end.

Definition devfs_block_get_size (p : Z) st : Z :=
  match privs st !! p with None => 0 | Some b => u64 (bp_sectors b * 512) end.

Definition is_block_dev (node : option vnode) : bool :=
  match node with
  | None => false
  | Some n => (n_type n =? VFS_BLOCK_DEVICE) && negb (n_block_ops n =? 0)
  end.

(** Rounds of the loops over sectors: each but the first and the last moves 512 bytes, and one
    more ends the loop. *)
Definition block_fuel (size : Z) : nat := Z.to_nat (size / 512 + 3).

(** The loop over single sectors; [left] is [size - copied]. *)
Fixpoint read_sectors (fuel : nat) (p lba off left : Z) st : option (list Z * storage H) :=
  match fuel with
  | O => None
  | S fuel =>
      if left <=? 0 then Some ([], st) else
      let '(sec, st) := devfs_block_read_block p lba 1 st in
      match sec with
      | None => Some ([], st)
      | Some sec =>
          let chunk := Z.min (512 - off) left in
          '(l, st) ← read_sectors fuel p (lba + 1) 0 (left - chunk) st;
          Some (take (Z.to_nat chunk) (drop (Z.to_nat off) sec) ++ l, st)
      end
  end.

(** The result and the bytes stored at [buf]. *)
Definition devfs_block_read (node : option vnode) (size offset : Z) st : option (Z * list Z * storage H) :=
  match node with
  | None => Some (-1, [], st)
  | Some n =>
      if negb (is_block_dev node) then Some (-1, [], st) else
      let lba := offset / 512 in
      let off := offset mod 512 in
      if negb (off =? 0) || negb (size mod 512 =? 0) then
        '(l, st) ← read_sectors (block_fuel size) (n_private n) lba off size st;
        Some (i32 (Z.of_nat (length l)), l, st)
      else
        let '(r, st) := devfs_block_read_block (n_private n) lba (u32 (size / 512)) st in
        match r with
        | None => Some (0, [], st)
        | Some l => Some (i32 size, l, st)
        end
  end.

(** [sector] is the buffer on the stack, which keeps its bytes from round to round. *)
Fixpoint write_sectors (fuel : nat) (p lba off : Z) (data sector : list Z) st : option (Z * storage H) :=
  match fuel with
  | O => None
  | S fuel =>
      match data with
      | [] => Some (0, st)
      | _ =>
          let left := Z.of_nat (length data) in
          let '(r, st) := if negb (off =? 0) || (left <? 512) then devfs_block_read_block p lba 1 st else (Some sector, st) in
          match r with
          | None => Some (0, st)
          | Some sector =>
              let chunk := Z.min (512 - off) left in
              let sector := store off (take (Z.to_nat chunk) data) sector in
              let '(ok, st) := devfs_block_write_block p lba 1 sector st in
              if negb ok then Some (0, st) else
              '(w, st) ← write_sectors fuel p (lba + 1) 0 (drop (Z.to_nat chunk) data) sector st;
              Some (chunk + w, st)
          end
      end
  end.

(** [buf] has [size] bytes; [stack] is what [sector] holds when the function is entered. *)
Definition devfs_block_write (node : option vnode) (buf stack : list Z) (offset : Z) st : option (Z * storage H) :=
  match node with
  | None => Some (-1, st)
  | Some n =>
      if negb (is_block_dev node) then Some (-1, st) else
      let size := Z.of_nat (length buf) in
      let lba := offset / 512 in
      let off := offset mod 512 in
      if negb (off =? 0) || negb (size mod 512 =? 0) then
        '(w, st) ← write_sectors (block_fuel size) (n_private n) lba off buf stack st;
        Some (i32 w, st)
      else
        let '(ok, st) := devfs_block_write_block (n_private n) lba (u32 (size / 512)) buf st in
        Some (if ok then i32 size else 0, st)
  end.

End Disks.

(** ** What the block devices store *)

Section Range.
Context {A : Type} (byte : A -> Z -> Z -> Z) (d : A) (p : Z).

Lemma range_length a n : length (range byte d p a n) = Z.to_nat n.
Proof. unfold range. by rewrite length_fmap, length_seq. Qed.

Lemma nth_range a n k : (k < Z.to_nat n)%nat -> nth k (range byte d p a n) 0 = byte d p (a + Z.of_nat k).
Proof.
  intros Hk. apply nth_lookup_Some. unfold range. rewrite list_lookup_fmap, lookup_seq_lt by done. by rewrite Nat.add_0_l.
Qed.

Lemma range_app a n m : 0 <= n -> 0 <= m -> range byte d p a (n + m) = range byte d p a n ++ range byte d p (a + n) m.
Proof.
  intros Hn Hm. apply list_eq_nth; [rewrite length_app, !range_length; lia|]. intros k Hk. rewrite range_length in Hk.
  rewrite nth_range by done. destruct (Nat.lt_ge_cases k (Z.to_nat n)).
  - rewrite app_nth1 by (rewrite range_length; lia). by rewrite nth_range.
  - rewrite app_nth2 by (rewrite range_length; lia). rewrite range_length, nth_range by lia. f_equal. lia.
Qed.

Lemma range_slice a n i m : 0 <= i -> 0 <= m -> i + m <= n ->
  take (Z.to_nat m) (drop (Z.to_nat i) (range byte d p a n)) = range byte d p (a + i) m.
Proof.
  intros Hi Hm Hn. replace n with (i + (m + (n - i - m))) by lia. rewrite !range_app by lia.
  rewrite drop_app_length' by (rewrite range_length; done). by rewrite take_app_length' by (rewrite range_length; done).
Qed.

End Range.

(** Two mediums with the same bytes there. *)
Lemma range_ext {A} (byte : A -> Z -> Z -> Z) (d d' : A) p p' a a' n :
  (forall k, 0 <= k < n -> byte d p (a + k) = byte d' p' (a' + k)) -> range byte d p a n = range byte d' p' a' n.
Proof. intros E. unfold range. apply list_fmap_ext. intros i x Hx%lookup_seq. apply E. lia. Qed.

Lemma range_store {A} (byte : A -> Z -> Z -> Z) (d d' : A) p a n i l :
  0 <= i -> i + Z.of_nat (length l) <= n ->
  (forall x, byte d' p x = if (a + i <=? x) && (x <? a + i + Z.of_nat (length l)) then nth (Z.to_nat (x - (a + i))) l 0 else byte d p x) ->
  range byte d' p a n = store i l (range byte d p a n).
Proof.
  intros Hi Hn E. apply list_eq_nth; [by rewrite store_length, !range_length by (rewrite ?range_length; lia)|].
  intros k Hk. rewrite range_length in Hk. rewrite nth_store by (rewrite ?range_length; lia). rewrite !nth_range by done. rewrite E.
  destruct (Nat.leb_spec (Z.to_nat i) k), (Nat.ltb_spec k (Z.to_nat i + length l)), (Z.leb_spec (a + i) (a + Z.of_nat k)),
    (Z.ltb_spec (a + Z.of_nat k) (a + i + Z.of_nat (length l))); cbn [andb]; try lia; [|done..].
  f_equal. lia.
Qed.

Section Blocks.
Context {H : Type} `{AtaLaws H}.
Implicit Types (st : storage H) (b : block_private) (d : H).

Lemma ahci_command_fields w code lba n :
  0 <= lba < 2 ^ 48 -> 0 < n <= 8192 -> ahci_command w code lba n = Cmd w code lba n (n * 512).
Proof.
  intros Hl Hn. unfold ahci_command. f_equal.
  - unfold u8. rewrite !Z.shiftr_div_pow2 by lia. dlia.
  - change 0xFF with (Z.ones 8). rewrite !Z.land_ones, Z.shiftr_div_pow2 by lia. dlia.
  - rewrite u32_small by lia. rewrite Z.mod_small by lia. lia.
Qed.

Definition port_of st b : Z := dk_port (disk_at st (bp_disk_num b)).

(** [b] is a part of a present disk, addressed with 32 bits, and what [p] points to. *)
Record part_ok st (p : Z) b : Prop := {
  po_priv : privs st !! p = Some b;
  po_num : 0 <= bp_disk_num b < 4;
  po_present : dk_present (disk_at st (bp_disk_num b)) = true;
  po_start : 0 <= bp_start_lba b;
  po_sectors : 0 <= bp_sectors b;
  po_inside : bp_start_lba b + bp_sectors b <= capacity (hw st) (port_of st b);
  po_width : bp_start_lba b + bp_sectors b <= 2 ^ 32 }.

(** The bytes of the partition. *)
Definition volume st b : list Z := range ata_byte (hw st) (port_of st b) (bp_start_lba b * 512) (bp_sectors b * 512).

(** [st'] is [st] with [l] at offset [a] of the partition, and nothing else on any disk
    changed. *)
Record overwritten st b (a : Z) (l : list Z) st' : Prop := {
  ow_disks : disks st' = disks st;
  ow_privs : privs st' = privs st;
  ow_current : current_disk st' = current_disk st \/ current_disk st' = bp_disk_num b;
  ow_capacity q : capacity (hw st') q = capacity (hw st) q;
  ow_bytes q x : ata_byte (hw st') q x =
    let a := bp_start_lba b * 512 + a in
    if (q =? port_of st b) && (a <=? x) && (x <? a + Z.of_nat (length l)) then nth (Z.to_nat (x - a)) l 0 else ata_byte (hw st) q x }.

Lemma overwritten_port st b a l st' : overwritten st b a l st' -> port_of st' b = port_of st b.
Proof. intros O. unfold port_of, disk_at. by rewrite (ow_disks _ _ _ _ _ O). Qed.

Lemma overwritten_ok st b a l st' p : overwritten st b a l st' -> part_ok st p b -> part_ok st' p b.
Proof.
  intros O [P1 P2 P3 P4 P5 P6 P7]. split; try done.
  - by rewrite (ow_privs _ _ _ _ _ O).
  - unfold disk_at. by rewrite (ow_disks _ _ _ _ _ O).
  - by rewrite (ow_capacity _ _ _ _ _ O), (overwritten_port _ _ _ _ _ O).
Qed.

Lemma overwritten_volume st b a l st' : 0 <= a -> a + Z.of_nat (length l) <= bp_sectors b * 512 ->
  overwritten st b a l st' -> volume st' b = store a l (volume st b).
Proof.
  intros Ha Hl O. unfold volume. rewrite (overwritten_port _ _ _ _ _ O). apply range_store; [done|done|].
  intros x. rewrite (ow_bytes _ _ _ _ _ O). cbv zeta. by rewrite Z.eqb_refl.
Qed.

(** Only the selected disk differs. *)
Lemma overwritten_nil st b a st' :
  hw st' = hw st -> disks st' = disks st -> privs st' = privs st ->
  current_disk st' = current_disk st \/ current_disk st' = bp_disk_num b -> overwritten st b a [] st'.
Proof.
  intros E1 E2 E3 E4. split; [done|done|done|by rewrite E1|]. intros q x. rewrite E1. cbn [length Z.of_nat].
  destruct (_ && _ && _) eqn:E; [|done]. zbool. lia.
Qed.

Lemma overwritten_nil_at st b a a' st' : overwritten st b a [] st' -> overwritten st b a' [] st'.
Proof.
  intros [B1 B2 B3 B4 B5]. split; [done..|]. intros q x. rewrite B5. cbv zeta. cbn [length Z.of_nat].
  repeat case_step; zbool; lia.
Qed.

Lemma overwritten_app st b a l1 st1 l2 st2 :
  overwritten st b a l1 st1 -> overwritten st1 b (a + Z.of_nat (length l1)) l2 st2 -> overwritten st b a (l1 ++ l2) st2.
Proof.
  intros O1 O2. pose proof (overwritten_port _ _ _ _ _ O1) as Hp. destruct O1 as [A1 A2 A3 A4 A5], O2 as [B1 B2 B3 B4 B5].
  split; [congruence|congruence|destruct B3 as [->|]; auto|intros q; by rewrite B4|].
  intros q x. rewrite B5, A5, Hp, length_app. cbv zeta. destruct (q =? _); [|done]. cbn [andb].
  destruct (Z.leb_spec (bp_start_lba b * 512 + a) x), (Z.leb_spec (bp_start_lba b * 512 + (a + Z.of_nat (length l1))) x); cbn [andb]; try lia; try done.
  - rewrite app_nth2 by lia. destruct (Z.ltb_spec x (bp_start_lba b * 512 + (a + Z.of_nat (length l1)) + Z.of_nat (length l2)));
      destruct (Z.ltb_spec x (bp_start_lba b * 512 + a + Z.of_nat (length l1 + length l2))); try lia.
    + f_equal. lia.
    + rewrite (proj2 (Z.ltb_ge x (bp_start_lba b * 512 + a + Z.of_nat (length l1)))) by lia. done.
  - rewrite app_nth1 by lia. rewrite (proj2 (Z.ltb_lt x (bp_start_lba b * 512 + a + Z.of_nat (length l1)))) by lia.
    by rewrite (proj2 (Z.ltb_lt x (bp_start_lba b * 512 + a + Z.of_nat (length l1 + length l2)))) by lia.
Qed.

(** A sector written back with [l] stored into it. *)
Lemma overwritten_sector st b lba off l st' : 0 <= off -> off + Z.of_nat (length l) <= 512 ->
  overwritten st b (lba * 512) (store off l (range ata_byte (hw st) (port_of st b) ((bp_start_lba b + lba) * 512) 512)) st' ->
  overwritten st b (lba * 512 + off) l st'.
Proof.
  intros Ho Hl [A1 A2 A3 A4 A5]. split; [done..|]. intros q x. rewrite A5. cbv zeta.
  destruct (Z.eqb_spec q (port_of st b)) as [->|]; [|done]. cbn [andb].
  rewrite store_length, range_length by (rewrite ?range_length; lia). change (Z.of_nat (Z.to_nat 512)) with 512.
  destruct (Z.leb_spec (bp_start_lba b * 512 + lba * 512) x), (Z.ltb_spec x (bp_start_lba b * 512 + lba * 512 + 512)); cbn [andb].
  2-4: destruct (_ && _) eqn:E; [zbool; lia|done].
  rewrite nth_store by (rewrite ?range_length; lia).
  destruct (Z.leb_spec (bp_start_lba b * 512 + (lba * 512 + off)) x), (Z.ltb_spec x (bp_start_lba b * 512 + (lba * 512 + off) + Z.of_nat (length l)));
    destruct (Nat.leb_spec (Z.to_nat off) (Z.to_nat (x - (bp_start_lba b * 512 + lba * 512)))), (Nat.ltb_spec (Z.to_nat (x - (bp_start_lba b * 512 + lba * 512))) (Z.to_nat off + length l));
    cbn [andb]; try lia.
  1: f_equal; lia.
  all: rewrite nth_range by lia; f_equal; lia.
Qed.

(** *** The operations of a block device *)

Lemma set_disk_ok st p b : part_ok st p b -> (disk_set_disk (bp_disk_num b) st).2 = set_current_disk (bp_disk_num b) st.
Proof.
  intros P. pose proof (po_num _ _ _ P). unfold disk_set_disk. rewrite (po_present _ _ _ P).
  rewrite (proj2 (Z.ltb_ge _ _)), (proj2 (Z.leb_gt _ _)) by lia. done.
Qed.

Lemma block_read_ok st p b lba n :
  part_ok st p b -> 0 <= lba -> 0 < n <= 8192 -> lba + n <= bp_sectors b ->
  devfs_block_read_block p lba n st =
    (Some (range ata_byte (hw st) (port_of st b) ((bp_start_lba b + lba) * 512) (n * 512)), set_current_disk (bp_disk_num b) st).
Proof.
  intros P Hl Hn Hs. pose proof P as [P1 P2 P3 P4 P5 P6 P7]. unfold devfs_block_read_block. rewrite P1, (set_disk_ok st p b P).
  unfold disk_read, ahci_read. cbn [current_disk set_current_disk hw]. change (disk_at (set_current_disk _ st)) with (disk_at st).
  rewrite P3. cbn [negb]. rewrite u32_small, ahci_command_fields by lia. f_equal. unfold port_of in P6 |- *. apply ata_in_ok; lia.
Qed.

Lemma block_write_ok st p b lba n l :
  part_ok st p b -> 0 <= lba -> 0 < n <= 8192 -> lba + n <= bp_sectors b -> Z.of_nat (length l) = n * 512 -> byte_list l ->
  exists st', devfs_block_write_block p lba n l st = (true, st') /\ overwritten st b (lba * 512) l st'.
Proof.
  intros P Hl Hn Hs Hlen Hb. pose proof P as [P1 P2 P3 P4 P5 P6 P7]. unfold devfs_block_write_block. rewrite P1, (set_disk_ok st p b P).
  unfold disk_write, ahci_write. cbn [current_disk set_current_disk hw]. change (disk_at (set_current_disk _ st)) with (disk_at st).
  rewrite P3. cbn [negb]. rewrite u32_small, ahci_command_fields by lia.
  destruct (ata_out_ok (hw st) (dk_port (disk_at st (bp_disk_num b))) (bp_start_lba b + lba) n l) as (d' & -> & Hc & Hx);
    [lia|done|unfold port_of in P6; lia|done|done|].
  eexists. split; [reflexivity|]. split; [done|done|by right|done|]. intros q x. cbn [hw set_hw]. rewrite Hx. cbv zeta. unfold port_of.
  by rewrite Hlen, Z.mul_add_distr_r.
Qed.

End Blocks.

Section Loops.
Context {H : Type} `{AtaLaws H}.
Implicit Types (st : storage H) (b : block_private).

(** The same storage but for the selected disk. *)
Definition selects st b st' : Prop :=
  hw st' = hw st /\ disks st' = disks st /\ privs st' = privs st /\
  (current_disk st' = current_disk st \/ current_disk st' = bp_disk_num b).

Lemma selects_overwritten st b st' a : selects st b st' -> overwritten st b a [] st'.
Proof. intros (E1 & E2 & E3 & E4). by apply overwritten_nil. Qed.

Lemma selects_ok st b st' p : selects st b st' -> part_ok st p b -> part_ok st' p b.
Proof. intros E. apply (overwritten_ok st b 0 []). by apply selects_overwritten. Qed.

Lemma selects_set st b : selects st b (set_current_disk (bp_disk_num b) st).
Proof. unfold selects. cbn [hw disks privs current_disk set_current_disk]. auto. Qed.

Lemma selects_trans st b st1 st2 : selects st b st1 -> selects st1 b st2 -> selects st b st2.
Proof. intros (A1 & A2 & A3 & A4) (B1 & B2 & B3 & B4). split_and!; [congruence..|]. destruct B4 as [->|]; auto. Qed.

Lemma selects_port st b st' : selects st b st' -> port_of st' b = port_of st b.
Proof. intros (_ & E & _). unfold port_of, disk_at. by rewrite E. Qed.

Lemma read_sectors_ok fuel p b lba off left : forall st,
  part_ok st p b -> 0 <= lba -> 0 <= off < 512 -> 0 <= left -> lba * 512 + off + left <= bp_sectors b * 512 ->
  off + left <= 512 * (Z.of_nat fuel - 1) ->
  exists st', selects st b st' /\
    read_sectors fuel p lba off left st =
      Some (range ata_byte (hw st) (port_of st b) (bp_start_lba b * 512 + (lba * 512 + off)) left, st').
Proof.
  revert lba off left. induction fuel as [|fuel IH]; intros lba off left st P Hl Ho Hf Hs Hfu; [lia|]. cbn [read_sectors].
  destruct (Z.leb_spec left 0) as [E|E].
  { replace left with 0 by lia. exists st. unfold selects. split_and!; auto. }
  rewrite (block_read_ok st p b lba 1 P) by lia. set (st1 := set_current_disk _ st).
  pose proof (selects_set st b) as S1. fold st1 in S1. set (chunk := Z.min (512 - off) left).
  destruct (IH (lba + 1) 0 (left - chunk) st1) as (st2 & S2 & E2); [by apply (selects_ok st b)|lia..|].
  exists st2. split; [by apply (selects_trans st b st1)|]. rewrite E2. cbn [mbind option_bind]. rewrite (selects_port st b st1 S1).
  change (hw st1) with (hw st). change (1 * 512) with 512. rewrite range_slice by lia. f_equal. f_equal.
  replace left with (chunk + (left - chunk)) at 2 by lia. rewrite range_app by lia. f_equal; [f_equal; lia|].
  destruct (Z.eq_dec (left - chunk) 0) as [->|]; [done|]. f_equal. lia.
Qed.

Lemma write_sectors_ok fuel p b lba off data sector : forall st,
  part_ok st p b -> 0 <= lba -> 0 <= off < 512 -> lba * 512 + off + Z.of_nat (length data) <= bp_sectors b * 512 ->
  off + Z.of_nat (length data) <= 512 * (Z.of_nat fuel - 1) -> byte_list data -> length sector = 512%nat -> byte_list sector ->
  exists st', write_sectors fuel p lba off data sector st = Some (Z.of_nat (length data), st') /\
    overwritten st b (lba * 512 + off) data st'.
Proof.
  revert lba off data sector. induction fuel as [|fuel IH]; intros lba off data sector st P Hl Ho Hs Hfu Hb Hsl Hsb; [lia|]. cbn [write_sectors].
  destruct data as [|c data0] eqn:Ed; [exists st; split; [done|]; apply overwritten_nil; auto|]. rewrite <- Ed in *.
  assert (Hd : 0 < Z.of_nat (length data)) by (rewrite Ed; cbn [length]; lia). clear c data0 Ed.
  set (chunk := Z.min (512 - off) (Z.of_nat (length data))). set (l := take (Z.to_nat chunk) data).
  assert (Hll : Z.of_nat (length l) = chunk) by (unfold l; rewrite length_take; lia).
  set (old := range ata_byte (hw st) (port_of st b) ((bp_start_lba b + lba) * 512) 512).
  set (rd := if negb (off =? 0) || (Z.of_nat (length data) <? 512) then devfs_block_read_block p lba 1 st else (Some sector, st)).
  assert (exists sec st1, rd = (Some sec, st1) /\ selects st b st1 /\ store off l sec = store off l old) as (sec & st1 & -> & S1 & Esec).
  { unfold rd. destruct (negb (off =? 0) || (Z.of_nat (length data) <? 512)) eqn:E.
    - rewrite (block_read_ok st p b lba 1 P) by lia. eexists _, _. split_and!; [reflexivity|apply selects_set|done].
    - zbool. assert (chunk = 512) as Hc by lia. exists sector, st. split_and!; [done|unfold selects; auto|]. subst off. unfold store.
      rewrite !drop_ge by (unfold old; rewrite ?range_length; lia). done. }
  assert (P1 : part_ok st1 p b) by by apply (selects_ok st b).
  assert (Hsec : byte_list (store off l old)).
  { apply Forall_app_2; [|apply Forall_app_2]; [apply Forall_take|by apply Forall_take|apply Forall_drop];
      apply Forall_fmap, Forall_true; intros x; apply ata_byte_ok. }
  assert (Hsecl : Z.of_nat (length (store off l old)) = 1 * 512).
  { unfold old. rewrite store_length by (rewrite ?range_length; lia). rewrite range_length. lia. }
  rewrite Esec. destruct (block_write_ok st1 p b lba 1 (store off l old) P1) as (st2 & -> & O1); [lia..|done|done|].
  assert (O2 : overwritten st b (lba * 512 + off) l st2).
  { apply overwritten_sector; [lia|lia|]. fold old. apply (overwritten_app st b _ [] st1); [by apply selects_overwritten|].
    cbn [length Z.of_nat]. by rewrite Z.add_0_r. }
  cbn [negb]. destruct (IH (lba + 1) 0 (drop (Z.to_nat chunk) data) (store off l old) st2) as (st3 & E3 & O3);
    [by apply (overwritten_ok st b (lba * 512 + off) l)|lia|lia| | |by apply Forall_drop|lia|done|]; [rewrite length_drop; lia..|].
  exists st3. rewrite E3. cbn [mbind option_bind]. rewrite length_drop. split; [f_equal; f_equal; lia|].
  rewrite <- (take_drop (Z.to_nat chunk) data). fold l. apply (overwritten_app st b _ l st2); [done|].
  destruct (Z.eq_dec (Z.of_nat (length data)) chunk) as [E|E].
  - rewrite drop_ge in O3 |- * by lia. revert O3. apply overwritten_nil_at.
  - by replace (lba * 512 + off + Z.of_nat (length l)) with ((lba + 1) * 512 + 0) by lia.
Qed.

(** A node of devfs for the partition [b]. *)
Definition block_node (n : vnode) : Prop := n_type n = VFS_BLOCK_DEVICE /\ n_block_ops n <> 0.

Lemma block_node_is n : block_node n -> is_block_dev (Some n) = true.
Proof. intros [E1 E2]. cbn [is_block_dev]. rewrite E1. by rewrite (proj2 (Z.eqb_neq _ _) E2). Qed.

(** What one transfer may ask for: the aligned case is one command. *)
Definition transfer_ok b (size offset : Z) : Prop :=
  0 <= size < 2 ^ 31 /\ 0 <= offset /\ offset + size <= bp_sectors b * 512 /\
  (offset mod 512 = 0 -> size mod 512 = 0 -> 0 < size <= 8192 * 512).

Lemma devfs_read_ok st n b size offset :
  block_node n -> part_ok st (n_private n) b -> transfer_ok b size offset ->
  exists st', devfs_block_read (Some n) size offset st =
      Some (size, range ata_byte (hw st) (port_of st b) (bp_start_lba b * 512 + offset) size, st') /\ selects st b st'.
Proof.
  intros N P (Hs & Ho & Hi & Ha). unfold devfs_block_read. rewrite (block_node_is n N). cbn [negb].
  destruct (negb (offset mod 512 =? 0) || negb (size mod 512 =? 0)) eqn:E.
  - destruct (read_sectors_ok (block_fuel size) (n_private n) b (offset / 512) (offset mod 512) size st P) as (st' & S1 & ->);
      [dlia..|unfold block_fuel; dlia|]. exists st'. cbn [mbind option_bind]. rewrite range_length, i32_small by lia.
    split; [|done]. do 3 f_equal; [lia|]. f_equal. dlia.
  - zbool. rewrite u32_small by dlia. rewrite (block_read_ok st (n_private n) b (offset / 512) (size / 512) P) by dlia. eexists.
    split; [|apply selects_set]. rewrite i32_small by lia. do 3 f_equal. f_equal; dlia.
Qed.

Lemma devfs_write_ok st n b data stack offset :
  block_node n -> part_ok st (n_private n) b -> transfer_ok b (Z.of_nat (length data)) offset ->
  byte_list data -> length stack = 512%nat -> byte_list stack ->
  exists st', devfs_block_write (Some n) data stack offset st = Some (Z.of_nat (length data), st') /\ overwritten st b offset data st'.
Proof.
  intros N P (Hs & Ho & Hi & Ha) Hb Hsl Hsb. unfold devfs_block_write. rewrite (block_node_is n N). cbn [negb].
  set (size := Z.of_nat (length data)) in *. destruct (negb (offset mod 512 =? 0) || negb (size mod 512 =? 0)) eqn:E.
  - destruct (write_sectors_ok (block_fuel size) (n_private n) b (offset / 512) (offset mod 512) data stack st P) as (st' & -> & O1);
      [dlia..|unfold block_fuel; dlia|done|done|done|]. exists st'. cbn [mbind option_bind]. fold size. rewrite i32_small by lia. split; [done|].
    by replace (offset / 512 * 512 + offset mod 512) with offset in O1 by dlia.
  - zbool. rewrite u32_small by dlia. destruct (block_write_ok st (n_private n) b (offset / 512) (size / 512) data P) as (st' & -> & O1); [dlia..|done|].
    exists st'. rewrite i32_small by lia. split; [done|]. by replace (offset / 512 * 512) with offset in O1 by dlia.
Qed.

End Loops.

(** ** A partition as the device of a file system

    The node that [ufs_mount] opens: its blocks of 4096 bytes are read and written through
    [devfs_block_read] and [devfs_block_write]. *)

Record block_part (H : Type) := Partition { pt_storage : storage H; pt_node : vnode }.
Arguments Partition {H}.
Arguments pt_storage {H}.
Arguments pt_node {H}.

#[export] Instance partition_device {H} `{Ata H} : BlockDevice (block_part H) := {
  dev_read d b :=
    match devfs_block_read (Some (pt_node d)) 4096 (b * 4096) (pt_storage d) with
    | Some (r, l, _) => if r =? 4096 then Some l else None
    | None => None
    end;
  dev_write d b l :=
    match devfs_block_write (Some (pt_node d)) l (replicate 512 0) (b * 4096) (pt_storage d) with
    | Some (r, st) => (r =? 4096, Partition st (pt_node d))
    | None => (false, d)
    end }.

Section Partition.
Context {H : Type} `{AtaLaws H}.
Implicit Types (st : storage H) (b : block_private) (d : block_part H).

(** The partition behind a node, if it is well formed. *)
Definition part_check st (n : vnode) : option block_private :=
  b ← privs st !! n_private n;
  if is_block_dev (Some n) && (0 <=? bp_disk_num b) && (bp_disk_num b <? 4) && dk_present (disk_at st (bp_disk_num b))
     && (0 <=? bp_start_lba b) && (0 <=? bp_sectors b)
     && (bp_start_lba b + bp_sectors b <=? capacity (hw st) (port_of st b)) && (bp_start_lba b + bp_sectors b <=? 2 ^ 32)
  then Some b else None.

Lemma part_check_spec st n b : part_check st n = Some b <-> block_node n /\ part_ok st (n_private n) b.
Proof.
  unfold part_check, block_node. split.
  - destruct (privs st !! n_private n) as [b'|] eqn:E; cbn [mbind option_bind]; [|done]. case_step; [|done]. intros [= ->].
    zbool. cbn [is_block_dev] in *. zbool. by split_and!; [..|split].
  - intros [[N1 N2] [P1 P2 P3 P4 P5 P6 P7]]. rewrite P1. cbn [mbind option_bind is_block_dev]. rewrite N1, P3.
    rewrite (proj2 (Z.eqb_neq _ 0) N2), !(proj2 (Z.leb_le _ _)), (proj2 (Z.ltb_lt _ _)) by lia. done.
Qed.

(** The whole blocks of the partition. *)
Definition part_blocks d : Z := match part_check (pt_storage d) (pt_node d) with Some b => bp_sectors b / 8 | None => 0 end.

Lemma part_blocks_inv d k : 0 <= k < part_blocks d ->
  exists b, part_check (pt_storage d) (pt_node d) = Some b /\ block_node (pt_node d) /\ part_ok (pt_storage d) (n_private (pt_node d)) b /\
    transfer_ok b 4096 (k * 4096) /\ part_blocks d = bp_sectors b / 8.
Proof.
  intros Hk. unfold part_blocks in *. destruct (part_check _ _) as [b|] eqn:E; [|lia]. exists b.
  apply part_check_spec in E as E'. destruct E' as [N P]. split; [done|]. split; [done|]. split; [done|]. split; [|done]. unfold transfer_ok. dlia.
Qed.

(** The read of a block. *)
Lemma part_read d k b : block_node (pt_node d) -> part_ok (pt_storage d) (n_private (pt_node d)) b -> transfer_ok b 4096 (k * 4096) ->
  dev_read d k = Some (range ata_byte (hw (pt_storage d)) (port_of (pt_storage d) b) (bp_start_lba b * 512 + k * 4096) 4096).
Proof. intros N P T. cbn [dev_read partition_device]. by destruct (devfs_read_ok _ _ _ _ _ N P T) as (st' & -> & _). Qed.

(** The same partition, the same selection of disks and nodes, and the bytes outside of it
    unchanged on every disk. *)
Definition part_rest (d d' : block_part H) : Prop :=
  pt_node d' = pt_node d /\ disks (pt_storage d') = disks (pt_storage d) /\ privs (pt_storage d') = privs (pt_storage d) /\
  (forall q, capacity (hw (pt_storage d')) q = capacity (hw (pt_storage d)) q) /\
  forall b q x, privs (pt_storage d) !! n_private (pt_node d) = Some b ->
    q <> port_of (pt_storage d) b \/ x < bp_start_lba b * 512 \/ (bp_start_lba b + bp_sectors b) * 512 <= x ->
    ata_byte (hw (pt_storage d')) q x = ata_byte (hw (pt_storage d)) q x.

Lemma part_rest_preorder : PreOrder part_rest.
Proof.
  split; [intros d; unfold part_rest; by split_and!|]. intros d1 d2 d3 (A1 & A2 & A3 & A4 & A5) (B1 & B2 & B3 & B4 & B5). split_and!; [congruence..| |].
  - intros q. by rewrite B4.
  - intros b q x E Hx. rewrite (B5 b); [by apply (A5 b)|congruence|]. unfold port_of, disk_at in *. by rewrite A2.
Qed.

#[export] Instance partition_laws : BlockDeviceLaws (block_part H).
Proof.
  refine {| dev_size := part_blocks; dev_rest := part_rest |}.
  - apply part_rest_preorder.
  - intros d k Hk. destruct (part_blocks_inv d k Hk) as (b & _ & N & P & T & _). rewrite (part_read d k b N P T). eexists. split_and!; [done| |].
    + by rewrite range_length.
    + apply Forall_fmap, Forall_true. intros x. apply ata_byte_ok.
  - intros d k l Hk Hl Hb. destruct (part_blocks_inv d k Hk) as (b & Ec & N & P & T & Es). destruct d as [st n]. cbn [pt_storage pt_node] in *.
    destruct (devfs_write_ok st n b l (replicate 512 0) (k * 4096) N P) as (st' & E & O);
      [by rewrite Hl|done|by rewrite length_replicate|apply Forall_replicate; lia|].
    pose proof (overwritten_ok _ _ _ _ _ _ O P) as P'. pose proof (overwritten_port _ _ _ _ _ O) as Hp.
    exists (Partition st' n). cbn [dev_write partition_device pt_storage pt_node]. rewrite E, Hl. split_and!; [done| | | |].
    + rewrite Es. unfold part_blocks. cbn [pt_storage pt_node]. by rewrite (proj2 (part_check_spec st' n b)).
    + destruct O as [O1 O2 O3 O4 O5]. destruct T as (T1 & T2 & T3 & T4). split_and!; [done..|]. cbn [pt_storage pt_node]. intros b0 q x E0 Hx.
      assert (b0 = b) as -> by (pose proof (po_priv _ _ _ P); congruence). rewrite O5. cbv zeta. case_step; [zbool; lia|done].
    + rewrite (part_read (Partition st' n) k b N P' T). cbn [pt_storage]. rewrite Hp. f_equal. apply list_eq_nth; [by rewrite range_length, Hl|].
      rewrite range_length. intros i Hi. rewrite nth_range by done. rewrite (ow_bytes _ _ _ _ _ O). cbv zeta. rewrite Hl, Z.eqb_refl, (proj2 (Z.leb_le _ _)), (proj2 (Z.ltb_lt _ _)) by lia.
      cbn [andb]. f_equal. lia.
    + intros k' Hk' Hne. destruct (part_blocks_inv _ k' Hk') as (b' & Ec' & _ & _ & T' & _). cbn [pt_storage pt_node] in *.
      assert (b' = b) as -> by congruence. rewrite (part_read (Partition st' n) k' b N P' T'), (part_read (Partition st n) k' b N P T').
      cbn [pt_storage]. rewrite Hp. f_equal. apply range_ext. intros i Hi. rewrite (ow_bytes _ _ _ _ _ O). cbv zeta. rewrite Hl, Z.eqb_refl.
      case_step; [zbool; lia|done].
Defined.


End Partition.

(** ** Drives in memory *)

(** Every port has [bk_cap] sectors; those not written are zero. *)
Record bank := Bank { bk_cap : Z; bk_sectors : gmap (Z * Z) (list Z) }.

(** What a sector of 512 bytes holds. *)
Definition as_sector (l : list Z) : list Z := map u8 (take 512 (l ++ replicate 512 0)).

Definition bk_sector (d : bank) (p b : Z) : list Z := as_sector (default [] (bk_sectors d !! (p, b))).

Fixpoint bk_read (n : nat) (d : bank) (p lba : Z) : list Z :=
  match n with O => [] | S n => bk_sector d p lba ++ bk_read n d p (lba + 1) end.

Fixpoint bk_write (n : nat) (p lba : Z) (l : list Z) (m : gmap (Z * Z) (list Z)) : gmap (Z * Z) (list Z) :=
  match n with O => m | S n => bk_write n p (lba + 1) (drop 512 l) (<[(p, lba) := take 512 l]> m) end.

Definition bk_accepts (d : bank) (w : bool) (code : Z) (c : ahci_cmd) : bool :=
  eqb (c_write c) w && (c_code c =? code) && (c_lba c + c_count c <=? bk_cap d) && (c_bytes c =? c_count c * 512).

#[export] Instance bank_ata : Ata bank := {
  ata_in d p c := if bk_accepts d false 0x25 c then Some (bk_read (Z.to_nat (c_count c)) d p (c_lba c)) else None;
  ata_out d p c l :=
    if bk_accepts d true 0x35 c then (true, Bank (bk_cap d) (bk_write (Z.to_nat (c_count c)) p (c_lba c) l (bk_sectors d))) else (false, d) }.

Definition bk_byte (d : bank) (p a : Z) : Z := nth (Z.to_nat (a mod 512)) (bk_sector d p (a / 512)) 0.

Lemma as_sector_length l : length (as_sector l) = 512%nat.
Proof. unfold as_sector. rewrite length_map, length_take, length_app, length_replicate. lia. Qed.

Lemma bk_sector_length d p b : length (bk_sector d p b) = 512%nat.
Proof. apply as_sector_length. Qed.

Lemma nth_as_sector l k : (k < 512)%nat -> nth k (as_sector l) 0 = u8 (nth k l 0).
Proof.
  intros Hk. change (nth k (map u8 (take 512 (l ++ replicate 512 0))) (u8 0) = u8 (nth k l 0)). rewrite (map_nth u8). f_equal. rewrite nth_firstn.
  rewrite (proj2 (Nat.ltb_lt k 512) Hk). destruct (Nat.lt_ge_cases k (length l)).
  - by rewrite app_nth1.
  - rewrite app_nth2 by done. rewrite (nth_overflow l) by done. apply nth_lookup_Some, lookup_replicate. lia.
Qed.

Lemma bk_read_range n d p lba : bk_read n d p lba = range bk_byte d p (lba * 512) (Z.of_nat n * 512).
Proof.
  revert lba. induction n as [|n IH]; intros lba; [done|]. cbn [bk_read]. rewrite IH.
  replace (Z.of_nat (S n) * 512) with (512 + Z.of_nat n * 512) by lia. rewrite range_app by lia. f_equal; [|f_equal; lia].
  apply list_eq_nth; [by rewrite range_length, bk_sector_length|]. rewrite bk_sector_length. intros k Hk. rewrite nth_range by lia.
  unfold bk_byte. f_equal; [dlia|f_equal; dlia].
Qed.

Lemma bk_write_byte cap n p lba l m q a : byte_list l -> length l = (n * 512)%nat ->
  bk_byte (Bank cap (bk_write n p lba l m)) q a =
  if (q =? p) && (lba * 512 <=? a) && (a <? lba * 512 + Z.of_nat n * 512) then nth (Z.to_nat (a - lba * 512)) l 0
  else bk_byte (Bank cap m) q a.
Proof.
  revert lba l m. induction n as [|n IH]; intros lba l m Hb Hl.
  { cbn [bk_write]. case_step; [zbool; lia|done]. }
  cbn [bk_write]. rewrite IH; [|by apply Forall_drop|rewrite length_drop; lia]. clear IH. unfold bk_byte, bk_sector. cbn [bk_sectors].
  destruct (Z.eqb_spec q p) as [->|Hq]; cbn [andb]; [|by rewrite lookup_insert_ne by congruence].
  destruct (Z.leb_spec (lba * 512) a), (Z.leb_spec ((lba + 1) * 512) a); cbn [andb]; try lia.
  - destruct (Z.ltb_spec a ((lba + 1) * 512 + Z.of_nat n * 512)), (Z.ltb_spec a (lba * 512 + Z.of_nat (S n) * 512)); try lia.
    + rewrite nth_skipn. f_equal. lia.
    + rewrite lookup_insert_ne; [done|]. intros [=]. dlia.
  - rewrite (proj2 (Z.ltb_lt a _)) by lia. assert (a / 512 = lba) as -> by dlia. rewrite lookup_insert_eq.
    change (default [] (Some (take 512 l))) with (take 512 l). rewrite nth_as_sector by dlia.
    rewrite nth_firstn, (proj2 (Nat.ltb_lt _ 512)) by dlia. replace (a - lba * 512) with (a mod 512) by dlia. apply u8_small.
    apply (proj1 (List.Forall_nth _ _) Hb). dlia.
  - rewrite lookup_insert_ne; [done|]. intros [=]. dlia.
Qed.

#[export] Instance bank_laws : AtaLaws bank.
Proof.
  refine {| capacity d _ := bk_cap d; ata_byte := bk_byte |}.
  - intros d p a. unfold bk_byte, bk_sector. rewrite nth_as_sector by dlia. apply u8_range.
  - intros d p lba n H1 H2 H3. cbn [ata_in bank_ata]. unfold bk_accepts. cbn [c_write c_code c_lba c_count c_bytes].
    rewrite (proj2 (Z.leb_le _ _) H3), !Z.eqb_refl. cbn [andb eqb Z.eqb Pos.eqb]. f_equal. rewrite bk_read_range. f_equal. lia.
  - intros d p lba n l H1 H2 H3 H4 H5. cbn [ata_out bank_ata]. unfold bk_accepts. cbn [c_write c_code c_lba c_count c_bytes].
    rewrite (proj2 (Z.leb_le _ _) H3), !Z.eqb_refl. cbn [andb eqb Z.eqb Pos.eqb]. eexists. split_and!; [reflexivity|done|].
    intros q a. rewrite bk_write_byte by (done || lia). by rewrite Z2Nat.id by lia.
Defined.

(** ** Runs on a disk with two partitions

    The first has the sectors 8 to 11, the second the sectors 12 to 523. *)

Definition part1 : block_private := BlockPrivate 0 8 4.
Definition part2 : block_private := BlockPrivate 0 12 512.
Definition block_vnode (p : Z) : vnode := set_n_private p (set_n_block_ops 1 (set_n_type VFS_BLOCK_DEVICE zero_vnode)).
Definition demo_storage : storage bank :=
  Storage (Bank 600 ∅) [Disk 0 600 [] true; zero_disk; zero_disk; zero_disk] 0 {[ 100 := part1; 200 := part2 ]}.

Lemma demo_part : block_node (block_vnode 100) /\ part_ok demo_storage 100 part1.
Proof. apply (part_check_spec demo_storage (block_vnode 100) part1). vm_compute. reflexivity. Qed.


(** The size of the partition is not looked at: a write behind the end of the first
    partition goes to the second. *)
Example write_past_partition :
  match devfs_block_write (Some (block_vnode 100)) [1; 2; 3] (replicate 512 7) (4 * 512) demo_storage with
  | Some (r, st) => (r, option_map fst (devfs_block_read (Some (block_vnode 200)) 4 0 st))
  | None => (0, None)
  end = (3, Some (4, [1; 2; 3; 0])).
Proof. vm_compute. reflexivity. Qed.

(** A request for no bytes is the command for 65536 sectors (a count of 0) into a region
    of 4 MiB, and one for 8193 sectors has a region of a single sector. *)
Example empty_transfer : ahci_command false 0x25 5 (u32 (0 / 512)) = Cmd false 0x25 5 0 4194304.
Proof. vm_compute. reflexivity. Qed.

Example long_transfer : ahci_command false 0x25 5 8193 = Cmd false 0x25 5 8193 512.
Proof. vm_compute. reflexivity. Qed.

Example identify_model :
  id_model (replicate 54 0 ++ [86; 84; 77; 83; 0; 55] ++ replicate 452 0) = [84; 86; 83; 77; 55; 32] ++ replicate 34 32.
Proof. vm_compute. reflexivity. Qed.
