(* ===== verification/Partition.v ===== *)
(** * Partitions: kernel/drivers/storage/mbr.c, gpt.c, udisk.c and the directory of kernel/fs/devfs.c

    Sectors and partition tables are bytes on the disks of Disk; [world] adds the static
    variables of mbr.c and udisk.c and the nodes of the virtual file system, whose heap
    serves the buffers.  [None] is a fault: a division by an entry size of zero, an entry
    outside of its buffer, or a loop that does not end.  [resolve] stands for
    [vfs_resolve_path], which finds the nodes of devfs below the place it is mounted at;
    [ticks] is [get_ticks]. *)

From S2P Require Import Prelude Bytes KMalloc Vfs Ufs Disk.

(** ** Bytes of a sector *)

Definition at8 (l : list Z) (i : Z) : Z := nth (Z.to_nat i) l 0.
Definition le64 (v : Z) : list Z := le32 v ++ le32 (Z.shiftr v 32).
Definition w64 (l : list Z) (i : Z) : Z := w32 l i + 2 ^ 32 * w32 l (i + 4).

(** [n] bytes from position [i]. *)
Definition bytes_at (i n : Z) (l : list Z) : list Z := take (Z.to_nat n) (drop (Z.to_nat i) l).

Definition zeros (n : nat) : list Z := replicate n 0.
Definition list_eqb (a b : list Z) : bool := bool_decide (a = b).

(** ** Data *)

(** An entry of [mbr_entries]; the code leaves the cylinder fields alone. *)
Record mbr_entry_t := MbrEntry {
  e_bootable : Z;
  e_type : Z;
  e_lba_start : Z;
  e_lba_count : Z }.

Record partition_t := Part {
  p_present : bool;
  p_disk_num : Z;
  p_num : Z;
  p_start : Z;
  p_end : Z;
  p_size : Z;
  p_type : Z;
  p_name : list Z }.

Definition set_p_present (v : bool) (r : partition_t) : partition_t :=
    Part v (p_disk_num r) (p_num r) (p_start r) (p_end r) (p_size r) (p_type r) (p_name r).

Record disk_info_t := Info {
  d_present : bool;
  d_disk_num : Z;
  d_model : list Z;
  d_total : Z;
  d_sector_size : Z;
  d_count : Z;
  d_parts : list partition_t;
  d_is_gpt : bool }.

Definition set_d_count (v : Z) (r : disk_info_t) : disk_info_t :=
    Info (d_present r) (d_disk_num r) (d_model r) (d_total r) (d_sector_size r) v (d_parts r)
    (d_is_gpt r).
Definition set_d_parts (v : list partition_t) (r : disk_info_t) : disk_info_t :=
    Info (d_present r) (d_disk_num r) (d_model r) (d_total r) (d_sector_size r) (d_count r) v
    (d_is_gpt r).
Definition set_d_is_gpt (v : bool) (r : disk_info_t) : disk_info_t :=
    Info (d_present r) (d_disk_num r) (d_model r) (d_total r) (d_sector_size r) (d_count r)
    (d_parts r) v.

Definition UDISK_MAX_PARTITIONS : Z := 16.
Definition PARTITION_UFS : Z := 1.
Definition PARTITION_FAT32 : Z := 2.
Definition PARTITION_EXT4 : Z := 3.
Definition PARTITION_UNKNOWN : Z := 4.

Definition zero_entry : mbr_entry_t := MbrEntry 0 0 0 0.
Definition zero_part : partition_t := Part false 0 0 0 0 0 0 [].
Definition zero_info : disk_info_t := Info false 0 [] 0 0 0 (replicate 16 zero_part) false.

Record world (H : Type) := World {
  stor : storage H;
  vfs : vstate;
  mbr_entries : list mbr_entry_t;
  mbr_entry_count : Z;
  mbr_extended_lba : Z;
  mbr_current_drive : Z;
  infos : list disk_info_t;
  scanned : bool;
  last_scan_tick : Z }.

Arguments World {H}.
Arguments stor {H}.
Arguments vfs {H}.
Arguments mbr_entries {H}.
Arguments mbr_entry_count {H}.
Arguments mbr_extended_lba {H}.
Arguments mbr_current_drive {H}.
Arguments infos {H}.
Arguments scanned {H}.
Arguments last_scan_tick {H}.

Definition set_stor {H} (v : storage H) (r : world H) : world H :=
    World v (vfs r) (mbr_entries r) (mbr_entry_count r) (mbr_extended_lba r) (mbr_current_drive
    r) (infos r) (scanned r) (last_scan_tick r).
Definition set_vfs {H} (v : vstate) (r : world H) : world H :=
    World (stor r) v (mbr_entries r) (mbr_entry_count r) (mbr_extended_lba r) (mbr_current_drive
    r) (infos r) (scanned r) (last_scan_tick r).
Definition set_mbr_entries {H} (v : list mbr_entry_t) (r : world H) : world H :=
    World (stor r) (vfs r) v (mbr_entry_count r) (mbr_extended_lba r) (mbr_current_drive r)
    (infos r) (scanned r) (last_scan_tick r).
Definition set_mbr_entry_count {H} (v : Z) (r : world H) : world H :=
    World (stor r) (vfs r) (mbr_entries r) v (mbr_extended_lba r) (mbr_current_drive r) (infos
    r) (scanned r) (last_scan_tick r).
Definition set_mbr_extended_lba {H} (v : Z) (r : world H) : world H :=
    World (stor r) (vfs r) (mbr_entries r) (mbr_entry_count r) v (mbr_current_drive r) (infos r)
    (scanned r) (last_scan_tick r).
Definition set_mbr_current_drive {H} (v : Z) (r : world H) : world H :=
    World (stor r) (vfs r) (mbr_entries r) (mbr_entry_count r) (mbr_extended_lba r) v (infos r)
    (scanned r) (last_scan_tick r).
Definition set_infos {H} (v : list disk_info_t) (r : world H) : world H :=
    World (stor r) (vfs r) (mbr_entries r) (mbr_entry_count r) (mbr_extended_lba r)
    (mbr_current_drive r) v (scanned r) (last_scan_tick r).
Definition set_scanned {H} (v : bool) (r : world H) : world H :=
    World (stor r) (vfs r) (mbr_entries r) (mbr_entry_count r) (mbr_extended_lba r)
    (mbr_current_drive r) (infos r) v (last_scan_tick r).
Definition set_last_scan_tick {H} (v : Z) (r : world H) : world H :=
    World (stor r) (vfs r) (mbr_entries r) (mbr_entry_count r) (mbr_extended_lba r)
    (mbr_current_drive r) (infos r) (scanned r) v.

Section Partitions.
Context {H : Type} `{Ata H}.
Implicit Types w : world H.

(** The result of an operation that succeeds or fails. *)
Definition result (ok : bool) : Z := if ok then 0 else -1.

Definition drive_of (disk_num : Z) : Z := u8 (0x80 + disk_num).

(** [disk_set_disk] with its result ignored. *)
Definition select (disk_num : Z) w : world H := set_stor (disk_set_disk disk_num (stor w)).2 w.

Definition read_sector (lba : Z) w : option (list Z) := disk_read lba 1 (stor w).
Definition write_sector (lba : Z) (l : list Z) w : bool * world H :=
  let '(ok, st) := disk_write lba 1 l (stor w) in (ok, set_stor st w).

(** ** Master boot records *)

Definition mbr_read (drive lba : Z) w : option (list Z) * world H :=
  let disk_num := drive - 0x80 in
  if (disk_num <? 0) || (4 <=? disk_num) then (None, w) else
  let w := select disk_num w in (read_sector lba w, w).

Definition mbr_write (drive lba : Z) (l : list Z) w : bool * world H :=
  let disk_num := drive - 0x80 in
  if (disk_num <? 0) || (4 <=? disk_num) then (false, w) else write_sector lba l (select disk_num w).

Definition lba_to_chs (lba : Z) : list Z :=
  let c := lba / (16 * 63) in
  let h := (lba / 63) mod 16 in
  let s := lba mod 63 + 1 in
  let c := if 1023 <? c then 1023 else c in
  [u8 h; u8 (Z.lor (Z.shiftr c 8) (Z.land s 0x3F)); u8 (Z.land c 0xFF)].

Definition slot_off (i : Z) : Z := 446 + i * 16.
Definition slot_type (sector : list Z) (i : Z) : Z := at8 sector (slot_off i + 4).
Definition slots4 : list Z := [0; 1; 2; 3].

Definition signed_sector (sector : list Z) : bool := (at8 sector 510 =? 0x55) && (at8 sector 511 =? 0xAA).

(** One of the four entries has type 0xEE. *)
Definition gpt_protective (sector : list Z) : bool := existsb (fun i => slot_type sector i =? 0xEE) slots4.

Definition mbr_detect (drive : Z) w : bool * world H :=
  let '(r, w) := mbr_read drive 0 w in
  match r with
  | None => (false, w)
  | Some sector => (signed_sector sector && negb (gpt_protective sector), w)
  end.

Definition empty_mbr : list Z := store 510 [0x55; 0xAA] (zeros 512).

Definition mbr_create (drive : Z) w : bool * world H := mbr_write drive 0 empty_mbr w.

Definition is_extended (type : Z) : bool := (type =? 0x05) || (type =? 0x0F) || (type =? 0x85).

Definition put_entry (k : Z) (e : mbr_entry_t) w : world H := set_mbr_entries (<[Z.to_nat k := e]> (mbr_entries w)) w.

(** The round of the first loop for entry [i]; an extended partition leaves its values in
    the next free element without counting it. *)
Definition primary_step (sector : list Z) w (i : Z) : world H :=
  let type := slot_type sector i in
  if (type =? 0) || (type =? 0xEE) then w else
  let start := w32 sector (slot_off i + 8) in
  let e := MbrEntry (at8 sector (slot_off i)) type start (w32 sector (slot_off i + 12)) in
  let w := put_entry (mbr_entry_count w) e w in
  if is_extended type then set_mbr_extended_lba start w
  else set_mbr_entry_count (mbr_entry_count w + 1) w.

(** The logical partitions, from the extended boot record at [current_ebr] on. *)
Fixpoint ebr_loop (fuel : nat) (drive current_ebr : Z) w : option (world H) :=
  match fuel with
  | O => None
  | S fuel =>
      if (current_ebr =? 0) || (32 <=? mbr_entry_count w) then Some w else
      let '(r, w) := mbr_read drive current_ebr w in
      match r with
      | None => Some w
      | Some sector =>
          if negb (signed_sector sector) then Some w else
          let type0 := slot_type sector 0 in
          let start0 := w32 sector (slot_off 0 + 8) in
          let size0 := w32 sector (slot_off 0 + 12) in
          let w := if negb (type0 =? 0) && (0 <? size0) then
                     let w := put_entry (mbr_entry_count w) (MbrEntry 0 type0 (u32 (current_ebr + start0)) size0) w in
                     set_mbr_entry_count (mbr_entry_count w + 1) w
                   else w in
          if is_extended (slot_type sector 1)
          then ebr_loop fuel drive (u32 (mbr_extended_lba w + w32 sector (slot_off 1 + 8))) w
          else Some w
      end
  end.

Definition mbr_read_partitions (fuel : nat) (drive : Z) w : option (Z * world H) :=
  let w := set_mbr_extended_lba 0 (set_mbr_entry_count 0 (set_mbr_current_drive drive w)) in
  let '(r, w) := mbr_read drive 0 w in
  match r with
  | None => Some (-1, w)
  | Some sector =>
      if negb (signed_sector sector) then Some (-1, w) else
      let w := foldl (primary_step sector) w slots4 in
      w ← ebr_loop fuel drive (mbr_extended_lba w) w;
      Some (mbr_entry_count w, w)
  end.

Definition mbr_get_entry (index : Z) w : option mbr_entry_t :=
  if (index <? 0) || (mbr_entry_count w <=? index) then None else mbr_entries w !! Z.to_nat index.

(** The first free slot. *)
Definition mbr_free_slot (sector : list Z) : option Z := find (fun i => slot_type sector i =? 0) slots4.

(** The 16 bytes of a new entry. *)
Definition slot_bytes (start_lba size_lba type : Z) : list Z :=
  [0] ++ lba_to_chs (u32 start_lba) ++ [type] ++ lba_to_chs (u32 (start_lba + size_lba - 1)) ++ le32 start_lba ++ le32 size_lba.

Definition mbr_add_partition (drive start_lba size_lba type : Z) w : Z * world H :=
  let '(r, w) := mbr_read drive 0 w in
  match r with
  | None => (-1, w)
  | Some sector =>
      match mbr_free_slot sector with
      | None => (-1, w)
      | Some i =>
          let sector := store (slot_off i) (slot_bytes start_lba size_lba type) sector in
          let '(ok, w) := mbr_write drive 0 sector w in
          if negb ok then (-1, w) else
          let '(r, w) := mbr_read drive 0 w in
          match r with
          | None => (-1, w)
          | Some verify => if list_eqb sector verify then (0, w) else (-1, w)
          end
      end
  end.

(** The slot of the [index]-th entry that is in use and not 0xEE. *)
Fixpoint used_slot (sector : list Z) (slots : list Z) (index : Z) : option Z :=
  match slots with
  | [] => None
  | i :: slots =>
      if negb (slot_type sector i =? 0) && negb (slot_type sector i =? 0xEE)
      then if index =? 0 then Some i else used_slot sector slots (index - 1)
      else used_slot sector slots index
  end.

(** The change [f] of the entry at an offset, written back. *)
Definition mbr_change (f : Z -> list Z -> list Z) (drive index : Z) w : Z * world H :=
  let '(r, w) := mbr_read drive 0 w in
  match r with
  | None => (-1, w)
  | Some sector =>
      match used_slot sector slots4 index with
      | None => (-1, w)
      | Some i => let '(ok, w) := mbr_write drive 0 (f (slot_off i) sector) w in (result ok, w)
      end
  end.

Definition mbr_delete_partition (drive index : Z) w : Z * world H := mbr_change (fun off => store off (zeros 16)) drive index w.
Definition mbr_set_type (drive index type : Z) w : Z * world H := mbr_change (fun off => store (off + 4) [u8 type]) drive index w.

(** ** GUID partition tables *)

Definition ufs_guid : list Z := [0; 0; 0; 0; 0; 0; 0; 0; 0; 0; 0; 0; 0; 0; 0; 1].
Definition efi_guid : list Z := [0xC1; 0x2A; 0x73; 0x28; 0xF8; 0x1F; 0x11; 0xD2; 0xBA; 0x4B; 0x00; 0xA0; 0xC9; 0x3E; 0xC9; 0x3B].
Definition linux_guid : list Z := [0x0F; 0xC6; 0x3D; 0xAF; 0x84; 0x83; 0x47; 0x72; 0x8E; 0x79; 0x3D; 0x69; 0xD8; 0x47; 0x7D; 0xE4].
Definition empty_guid : list Z := zeros 16.

Definition GPT_HEADER_SIGNATURE : Z := 0x5452415020494645.

Definition crc_bit (crc : Z) : Z :=
  if nz (Z.land crc 1) then Z.lxor (Z.shiftr crc 1) 0xEDB88320 else Z.shiftr crc 1.
Definition crc_byte (crc b : Z) : Z := Nat.iter 8 crc_bit (Z.lxor crc b).
Definition gpt_crc32 (data : list Z) : Z := Z.lxor (foldl crc_byte 0xFFFFFFFF data) 0xFFFFFFFF.

(** The fields of [gpt_header_t] in its 512 bytes. *)
Definition h_signature (h : list Z) : Z := w64 h 0.
Definition h_entry_lba (h : list Z) : Z := w64 h 72.
Definition h_num (h : list Z) : Z := w32 h 80.
Definition h_size (h : list Z) : Z := w32 h 84.

(** [vfs_read] and [vfs_write] of a whole number of sectors through the node of a block
    device, which is always one of devfs. *)
Definition node_read (node : option vnode) (size offset : Z) w : option (Z * list Z * world H) :=
  match node with
  | None => Some (-1, [], w)
  | Some n =>
      match n_fs n with
      | None => Some (-1, [], w)
      | Some _ => '(r, l, st) ← devfs_block_read node size offset (stor w); Some (r, l, set_stor st w)
      end
  end.

Definition node_write (node : option vnode) (l : list Z) (offset : Z) w : option (Z * world H) :=
  match node with
  | None => Some (-1, w)
  | Some n =>
      match n_fs n with
      | None => Some (-1, w)
      | Some _ => '(r, st) ← devfs_block_write node l (zeros 512) offset (stor w); Some (r, set_stor st w)
      end
  end.

Definition not_block (node : option vnode) : bool :=
  match node with None => true | Some n => negb (n_type n =? VFS_BLOCK_DEVICE) end.

(** A read of [size] bytes that must be complete: [Some (None, _)] is the return of -1. *)
Definition read_all (node : option vnode) (size offset : Z) w : option (option (list Z) * world H) :=
  '(r, l, w) ← node_read node size offset w;
  Some (if r =? i32 size then Some l else None, w).

Definition write_all (node : option vnode) (l : list Z) (offset : Z) w : option (bool * world H) :=
  '(r, w) ← node_write node l offset w;
  Some (r =? Z.of_nat (length l), w).

(** [512 / partition_entry_size], 4 where this is 0; the division faults for size 0. *)
Definition entries_per_sector (h : list Z) : option Z :=
  if h_size h =? 0 then None else
  let e := 512 / h_size h in Some (if e =? 0 then 4 else e).

Definition sectors_needed (h : list Z) (eps : Z) : Z := u32 (h_num h + eps - 1) / eps.

(** The bytes from [off] of a buffer on, of which [n] are accessed and must be inside of it. *)
Definition entry_in (n off : Z) (buf : list Z) : option (list Z) :=
  if off + n <=? Z.of_nat (length buf) then Some (drop (Z.to_nat off) buf) else None.

Definition entry_empty (ent : list Z) : bool := forallb (fun b => b =? 0) (bytes_at 0 16 ent).

(** [udisk_add_partition] *)
Definition info_at w (i : Z) : disk_info_t := default zero_info (infos w !! Z.to_nat i).
Definition put_info (i : Z) (d : disk_info_t) w : world H := set_infos (<[Z.to_nat i := d]> (infos w)) w.

(** [snprintf(name, 32, "Partition %d", n)] with [n] of one or two digits. *)
Definition part_name (n : Z) : list Z :=
  [80; 97; 114; 116; 105; 116; 105; 111; 110; 32] ++ (if n <? 10 then [48 + n] else [48 + n / 10; 48 + n mod 10]).

Definition udisk_add_partition (disk_num part_num start_lba end_lba type : Z) w : Z * world H :=
  if (disk_num <? 0) || (3 <? disk_num) then (-1, w) else
  if (part_num <? 1) || (UDISK_MAX_PARTITIONS <? part_num) then (-1, w) else
  let d := info_at w disk_num in
  if negb (d_present d) then (-1, w) else
  let p := Part true disk_num part_num start_lba end_lba (u64 ((end_lba - start_lba + 1) * 512)) type (part_name part_num) in
  let d := set_d_parts (<[Z.to_nat (part_num - 1) := p]> (d_parts d)) d in
  let d := if d_count d <? part_num then set_d_count part_num d else d in
  (0, put_info disk_num d w).

Definition guid_type (guid : list Z) (other : Z) : Z :=
  if list_eqb guid ufs_guid then 1 else if list_eqb guid efi_guid then 2 else if list_eqb guid linux_guid then 3 else other.

(** The loop over the entries; [n] of them are left. *)
Fixpoint parse_entries (n : nat) (h buf : list Z) (disk_num i part_num : Z) w : option (world H) :=
  match n with
  | O => Some w
  | S n =>
      if 16 <? part_num then Some w else
      ent ← entry_in 16 (u32 (i * h_size h)) buf;
      if entry_empty ent then parse_entries n h buf disk_num (i + 1) part_num w else
      ent ← entry_in 48 (u32 (i * h_size h)) buf;
      let '(_, w) := udisk_add_partition disk_num part_num (w64 ent 32) (w64 ent 40) (guid_type (bytes_at 0 16 ent) 0) w in
      parse_entries n h buf disk_num (i + 1) (part_num + 1) w
  end.

(** [kmalloc] and [kfree] of a buffer. *)
Definition alloc (size : Z) w : option (Z * world H) :=
  '(p, h) ← kmalloc size (vheap (vfs w)); Some (p, set_vfs (set_vheap h (vfs w)) w).
Definition free (p : Z) w : option (world H) :=
  h ← kfree p (vheap (vfs w)); Some (set_vfs (set_vheap h (vfs w)) w).

Definition gpt_parse (node : option vnode) (disk_num : Z) w : option (Z * world H) :=
  if not_block node then Some (-1, w) else
  '(r, w) ← read_all node 512 0 w;
  match r with
  | None => Some (-1, w)
  | Some sector =>
      if negb (signed_sector sector && gpt_protective sector) then Some (-1, w) else
      '(r, w) ← read_all node 512 512 w;
      match r with
      | None => Some (-1, w)
      | Some h =>
          if negb (h_signature h =? GPT_HEADER_SIGNATURE) then Some (-1, w) else
          eps ← entries_per_sector h;
          let len := u32 (sectors_needed h eps * 512) in
          '(buf, w) ← alloc len w;
          if buf =? 0 then Some (-1, w) else
          '(r, w) ← read_all node len (u64 (h_entry_lba h * 512)) w;
          match r with
          | None => w ← free buf w; Some (-1, w)
          | Some l =>
              w ← parse_entries (Z.to_nat (h_num h)) h l disk_num 0 1 w;
              w ← free buf w; Some (0, w)
          end
      end
  end.

Definition protective_mbr : list Z :=
  store 458 [0xFF; 0xFF; 0xFF; 0xFF] (store 454 [0x01] (store 450 [0xEE] empty_mbr)).

Definition gpt_header0 : list Z :=
  le64 GPT_HEADER_SIGNATURE ++ le32 0x00010000 ++ le32 92 ++ le32 0 ++ le32 0 ++ le64 1 ++ le64 0 ++ le64 34 ++
  le64 0xFFFFFFFFFFFFFFFF ++ zeros 16 ++ le64 2 ++ le32 128 ++ le32 128 ++ le32 0 ++ zeros 420.

(** The checksum of the first 92 bytes, stored in the header. *)
Definition seal_header (h : list Z) : list Z := store 16 (le32 (gpt_crc32 (take 92 h))) h.

(** Zero sectors from [i] on. *)
Fixpoint clear_entries (n : nat) (node : option vnode) (i : Z) w : option (bool * world H) :=
  match n with
  | O => Some (true, w)
  | S n =>
      '(ok, w) ← write_all node (zeros 512) (i * 512) w;
      if negb ok then Some (false, w) else clear_entries n node (i + 1) w
  end.

Definition gpt_create_table (node : option vnode) w : option (Z * world H) :=
  if not_block node then Some (-1, w) else
  '(ok, w) ← write_all node protective_mbr 0 w;
  if negb ok then Some (-1, w) else
  '(ok, w) ← write_all node (seal_header gpt_header0) 512 w;
  if negb ok then Some (-1, w) else
  '(ok, w) ← clear_entries 32 node 2 w;
  Some (result ok, w).

(** The first empty entry [j] of a sector, of those below [num_partition_entries]. *)
Fixpoint free_entry (n : nat) (h sec : list Z) (s eps j : Z) : option (option Z) :=
  match n with
  | O => Some None
  | S n =>
      if h_num h <=? u32 (s * eps + j) then Some None else
      ent ← entry_in 16 (u32 (j * h_size h)) sec;
      if entry_empty ent then Some (Some j) else free_entry n h sec s eps (j + 1)
  end.

Definition gpt_entry_bytes (guid : list Z) (start_lba size_sectors : Z) : list Z :=
  guid ++ zeros 16 ++ le64 start_lba ++ le64 (u64 (start_lba + size_sectors - 1)) ++ le64 0 ++ zeros 72.

(** The search, sector by sector, and the write of the sector with the new entry. *)
Fixpoint add_entry_loop (n : nat) (node : option vnode) (h : list Z) (s eps : Z) (entry : list Z) w : option (bool * world H) :=
  match n with
  | O => Some (false, w)
  | S n =>
      let off := u64 ((h_entry_lba h + s) * 512) in
      '(r, w) ← read_all node 512 off w;
      match r with
      | None => Some (false, w)
      | Some sec =>
          f ← free_entry (Z.to_nat eps) h sec s eps 0;
          match f with
          | None => add_entry_loop n node h (s + 1) eps entry w
          | Some j =>
              _ ← entry_in 128 (u32 (j * h_size h)) sec;
              write_all node (store (u32 (j * h_size h)) entry sec) off w
          end
      end
  end.

Definition gpt_add_partition (node : option vnode) (start_lba size_sectors : Z) (type_guid : list Z) w : option (Z * world H) :=
  if not_block node then Some (-1, w) else
  if size_sectors =? 0 then Some (-1, w) else
  '(r, w) ← read_all node 512 512 w;
  match r with
  | None => Some (-1, w)
  | Some h =>
      if negb (h_signature h =? GPT_HEADER_SIGNATURE) then Some (-1, w) else
      eps ← entries_per_sector h;
      let needed := sectors_needed h eps in
      '(ok, w) ← add_entry_loop (Z.to_nat needed) node h 0 eps (gpt_entry_bytes type_guid start_lba size_sectors) w;
      if negb ok then Some (-1, w) else
      let len := u32 (needed * 512) in
      '(buf, w) ← alloc len w;
      if buf =? 0 then Some (-1, w) else
      '(r, w) ← read_all node len (u64 (h_entry_lba h * 512)) w;
      w ← free buf w;
      match r with
      | None => Some (-1, w)
      | Some l =>
          l ← copy l (u32 (h_num h * h_size h));
          let h := store 88 (le32 (gpt_crc32 l)) h in
          let h := seal_header (store 16 (zeros 4) h) in
          '(ok, w) ← write_all node h 512 w;
          Some (result ok, w)
      end
  end.

(** ** The list of disks and partitions *)

Section Udisk.
(** Rounds of [ebr_loop]. *)
Variable fuel : nat.

(** Replace the partition [i] of a disk. *)
Definition put_part (i : Z) (p : partition_t) (d : disk_info_t) : disk_info_t :=
  set_d_parts (<[Z.to_nat i := p]> (d_parts d)) d.
Definition part_at (d : disk_info_t) (i : Z) : partition_t := default zero_part (d_parts d !! Z.to_nat i).

Definition mbr_part_type (type : Z) : Z :=
  if type =? 0x83 then PARTITION_UFS
  else if (type =? 0x0B) || (type =? 0x0C) || (type =? 0xEF) then PARTITION_FAT32 else PARTITION_UNKNOWN.

Definition mbr_part (disk_num i : Z) (e : mbr_entry_t) : partition_t :=
  Part true disk_num (i + 1) (e_lba_start e) (u32 (e_lba_start e + e_lba_count e - 1)) (e_lba_count e * 512)
    (mbr_part_type (e_type e)) (part_name (i + 1)).

(** The body of the loop over the entries that were read. *)
Definition mbr_part_step (disk_num : Z) w (d : disk_info_t) (i : Z) : disk_info_t :=
  match mbr_get_entry i w with
  | None => put_part i (set_p_present false (part_at d i)) d
  | Some e => put_part i (mbr_part disk_num i e) d
  end.

Definition read_mbr_partitions (disk_num : Z) w : option (world H) :=
  '(count, w) ← mbr_read_partitions fuel (drive_of disk_num) w;
  if count <=? 0 then Some w else
  let n := Z.min count UDISK_MAX_PARTITIONS in
  let d := set_d_count n (set_d_is_gpt false (info_at w disk_num)) in
  let d := foldl (mbr_part_step disk_num w) d (Z.of_nat <$> seq 0 (Z.to_nat n)) in
  Some (put_info disk_num d w).

(** The low bytes of the UTF-16 name, at most 31 of them. *)
Fixpoint gpt_name (n : nat) (k : Z) (ent : list Z) : option (list Z) :=
  match n with
  | O => Some []
  | S n => c ← get8 ent (56 + 2 * k); if c =? 0 then Some [] else l ← gpt_name n (k + 1) ent; Some (c :: l)
  end.

(** The loop over the entries of a sector. *)
Fixpoint gpt_sector_loop (n : nat) (h sec : list Z) (disk_num j : Z) (d : disk_info_t) : option disk_info_t :=
  match n with
  | O => Some d
  | S n =>
      if UDISK_MAX_PARTITIONS <=? d_count d then Some d else
      ent ← entry_in 16 (u32 (j * h_size h)) sec;
      if entry_empty ent then gpt_sector_loop n h sec disk_num (j + 1) d else
      ent ← entry_in 48 (u32 (j * h_size h)) sec;
      let start := w64 ent 32 in
      let stop := w64 ent 40 in
      name ← gpt_name 31 0 ent;
      let p := Part true disk_num (d_count d + 1) start stop (u64 ((stop - start + 1) * 512))
                 (guid_type (bytes_at 0 16 ent) PARTITION_UNKNOWN) name in
      gpt_sector_loop n h sec disk_num (j + 1) (set_d_count (d_count d + 1) (put_part (d_count d) p d))
  end.

(** The loop over the sectors of the table. *)
Fixpoint gpt_table_loop (n : nat) (h : list Z) (eps disk_num s : Z) w (d : disk_info_t) : option disk_info_t :=
  match n with
  | O => Some d
  | S n =>
      if UDISK_MAX_PARTITIONS <=? d_count d then Some d else
      match read_sector (u32 (h_entry_lba h + s)) w with
      | None => Some d
      | Some sec => d ← gpt_sector_loop (Z.to_nat eps) h sec disk_num 0 d; gpt_table_loop n h eps disk_num (s + 1) w d
      end
  end.

Definition read_gpt_partitions (disk_num : Z) w : option (world H) :=
  let w := select disk_num w in
  match read_sector 0 w with
  | None => Some w
  | Some sector =>
      if negb (signed_sector sector && gpt_protective sector) then Some w else
      match read_sector 1 w with
      | None => Some w
      | Some h =>
          if negb (h_signature h =? GPT_HEADER_SIGNATURE) then Some w else
          let d := set_d_count 0 (set_d_is_gpt true (info_at w disk_num)) in
          if (h_size h =? 0) || (512 <? h_size h) then None else
          let eps := 512 / h_size h in
          d ← gpt_table_loop (Z.to_nat (sectors_needed h eps)) h eps disk_num 0 w d;
          Some (put_info disk_num d w)
      end
  end.

Definition scan_disk (w : world H) (disk_num : Z) : option (world H) :=
  let w := put_info disk_num zero_info w in
  let sectors := disk_get_sectors (drive_of disk_num) (stor w) in
  if sectors =? 0 then Some w else
  let d := Info true disk_num (disk_get_model (drive_of disk_num) (stor w)) sectors 512 0 (replicate 16 zero_part) false in
  w ← read_gpt_partitions disk_num (put_info disk_num d w);
  if d_count (info_at w disk_num) =? 0 then read_mbr_partitions disk_num w else Some w.

Definition udisk_init w : Z * world H := (0, set_scanned false (set_infos (replicate 4 zero_info) w)).

Definition udisk_scan (ticks : Z) w : option (world H) :=
  if scanned w && (u64 (ticks - last_scan_tick w) <? 50) then Some w else
  w ← foldl (fun o i => w ← o; scan_disk w i) (Some w) slots4;
  Some (set_last_scan_tick ticks (set_scanned true w)).

(** [scanned = 0; udisk_scan()] *)
Definition rescan (ticks : Z) w : option (world H) := udisk_scan ticks (set_scanned false w).

(** The disk, or [None] for the null result. *)
Definition udisk_get_info (disk_num ticks : Z) w : option (option disk_info_t * world H) :=
  if (disk_num <? 0) || (3 <? disk_num) then Some (None, w) else
  w ← udisk_scan ticks w; Some (Some (info_at w disk_num), w).

(** ["/dev/sd"] *)
Definition dev_sd : str := [47; 100; 101; 118; 47; 115; 100].

(** The digits of the partition number, as an [int]. *)
Fixpoint part_digits (part : Z) (s : str) : Z :=
  match s with
  | c :: s => if (48 <=? c) && (c <=? 57) then part_digits (i32 (part * 10 + (c - 48))) s else part
  | [] => part
  end.

Definition parse_devname (devname : str) : option (Z * Z) :=
  if negb (prefix_of dev_sd devname) then None else
  let disk := char_at 7 devname - 97 in
  if (disk <? 0) || (3 <? disk) then None else Some (disk, part_digits 0 (drop 8 devname)).

(** The index in [partitions] of the partition with a number. *)
Definition find_part (d : disk_info_t) (part : Z) : option Z :=
  Z.of_nat <$> first_index (fun p => p_present p && (p_num p =? part)) 0 (take (Z.to_nat (d_count d)) (d_parts d)).

(** The result is a pointer into the table: the index of the partition. *)
Definition udisk_get_partition (devname : str) (ticks : Z) w : option (option Z * world H) :=
  match parse_devname devname with
  | None => Some (None, w)
  | Some (disk, part) =>
      w ← udisk_scan ticks w;
      let d := info_at w disk in
      Some (if negb (d_present d) || (part =? 0) then None else find_part d part, w)
  end.

Definition udisk_create_mbr (disk ticks : Z) w : option (Z * world H) :=
  let '(ok, w) := write_sector 0 empty_mbr (select disk w) in
  if negb ok then Some (-1, w) else
  w ← rescan ticks w; Some (0, w).

(** [dev_path]: ["/dev/sd%c"] *)
Definition dev_path (disk : Z) : str := dev_sd ++ [97 + disk].

Variable resolve : str -> world H -> option (Z * world H).

(** [vfs_resolve_path(dev_path)]; a null node has no [vnode]. *)
Definition dev_node (disk : Z) w : option (option vnode * world H) :=
  '(a, w) ← resolve (dev_path disk) w; Some (if a =? 0 then None else node (vfs w) a, w).

Definition udisk_create_gpt (disk ticks : Z) w : option (Z * world H) :=
  '(node, w) ← dev_node disk w;
  if not_block node then Some (-1, w) else
  '(r, w) ← gpt_create_table node w;
  if negb (r =? 0) then Some (-1, w) else
  w ← rescan ticks w; Some (0, w).

(** Where a partition of [size_mb] MiB goes: its first sector and its length, or [None]
    where the function returns -1. *)
Definition after_parts (d : disk_info_t) : Z :=
  foldl (fun start p => if p_present p && (start <? u64 (p_end p + 1)) then u64 (p_end p + 1) else start) 2048
    (take (Z.to_nat (d_count d)) (d_parts d)).

Definition place_partition (size_mb : Z) (d : disk_info_t) : option (Z * Z) :=
  let size := u64 (size_mb * 1024 * 1024) / 512 in
  let start := Z.land (u64 (after_parts d + 2047)) (Z.lnot 2047) in
  if d_total d <=? start then None else
  let max := d_total d - start in
  let size := if max <? size then max / 8 * 8 else size in
  if size =? 0 then None else Some (start, size).

Definition type_guid (type : Z) : list Z :=
  if type =? PARTITION_UFS then ufs_guid else if type =? PARTITION_FAT32 then efi_guid else linux_guid.
Definition type_mbr (type : Z) : Z :=
  if type =? PARTITION_UFS then 0x83 else if type =? PARTITION_FAT32 then 0x0C else 0x83.

Definition udisk_create_partition (devname : str) (size_mb type ticks : Z) w : option (Z * world H) :=
  match parse_devname devname with
  | None => Some (-1, w)
  | Some (disk, part) =>
      if negb (part =? 0) then Some (-1, w) else
      w ← udisk_scan ticks w;
      let d := info_at w disk in
      if negb (d_present d) then Some (-1, w) else
      match place_partition size_mb d with
      | None => Some (-1, w)
      | Some (start, size) =>
          '(node, w) ← dev_node disk w;
          if not_block node then Some (-1, w) else
          '(r, w) ← (if d_is_gpt (info_at w disk) then gpt_add_partition node start size (type_guid type) w
                     else Some (mbr_add_partition (drive_of disk) start size (type_mbr type) w));
          if negb (r =? 0) then Some (-1, w) else
          w ← rescan ticks w; Some (0, w)
      end
  end.

(** The change [f] of entry [part - 1] of the boot record, if it is in use; the sector is
    written back in any case. *)
Definition change_slot (f : Z -> list Z -> list Z) (disk part : Z) w : bool * world H :=
  let w := select disk w in
  match read_sector 0 w with
  | None => (false, w)
  | Some sector =>
      let sector := match find (fun i => negb (slot_type sector i =? 0) && (i + 1 =? part)) slots4 with
                    | Some i => f (slot_off i) sector
                    | None => sector
                    end in
      write_sector 0 sector w
  end.

Definition udisk_delete_partition (devname : str) (ticks : Z) w : option (Z * world H) :=
  match parse_devname devname with
  | None => Some (-1, w)
  | Some (disk, part) =>
      if part =? 0 then Some (-1, w) else
      w ← udisk_scan ticks w;
      let d := info_at w disk in
      if negb (d_present d) then Some (-1, w) else
      '(ok, w) ← (if d_is_gpt d then
                    '(node, w) ← dev_node disk w;
                    if not_block node then Some (false, w) else
                    '(r, w) ← gpt_add_partition node 0 0 empty_guid w; Some (r =? 0, w)
                  else Some (change_slot (fun off => store off (zeros 16)) disk part w));
      if negb ok then Some (-1, w) else
      w ← rescan ticks w; Some (0, w)
  end.

Definition udisk_set_type (devname : str) (type ticks : Z) w : option (Z * world H) :=
  match parse_devname devname with
  | None => Some (-1, w)
  | Some (disk, part) =>
      if part =? 0 then Some (-1, w) else
      '(p, w) ← udisk_get_partition devname ticks w;
      match p with
      | None => Some (-1, w)
      | Some i =>
          '(ok, w) ← (if d_is_gpt (info_at w disk) then
                        '(node, w) ← dev_node disk w;
                        if not_block node then Some (false, w) else
                        let p := part_at (info_at w disk) i in
                        '(r, w) ← gpt_add_partition node (p_start p) (u64 (p_end p - p_start p + 1)) (type_guid type) w; Some (r =? 0, w)
                      else Some (change_slot (fun off => store (off + 4) [type_mbr type]) disk part w));
          if negb ok then Some (-1, w) else
          w ← rescan ticks w; Some (0, w)
      end
  end.

End Udisk.

(** ** The directory of devices *)

(** ["devfs"] *)
Definition devfs_name : str := [100; 101; 118; 102; 115].

(** The part shared by disks and partitions: a new node at the head of the list of [dir]. *)
Definition new_block_node (dir : Z) (name : str) (size : Z) (b : block_private) w : option (Z * Z * world H) :=
  '(n, s) ← vfs_create_node name VFS_BLOCK_DEVICE (vfs w);
  let w := set_vfs s w in
  if n =? 0 then Some (-1, 0, w) else
  s ← update n (fun k => set_n_parent dir (set_n_block_ops 1 (set_n_fs (Some devfs_name) (set_n_size size (set_n_mode 432 k))))) s;
  let w := set_vfs s w in
  '(p, w) ← alloc 24 w;
  if p =? 0 then w ← free n w; Some (-1, 0, set_vfs (set_nodes (delete n (nodes (vfs w))) (vfs w)) w) else
  let w := set_stor (set_privs (<[p := b]> (privs (stor w))) (stor w)) w in
  d ← Vfs.node (vfs w) dir;
  s ← update n (fun k => set_n_next (n_children d) (set_n_private p k)) (vfs w);
  s ← update dir (set_n_children n) s;
  Some (0, n, set_vfs s w).

(** [name[3]] and the characters after it as a partition number. *)
Definition name_number (name : str) : option Z :=
  let c3 := char_at 3 name in let c4 := char_at 4 name in
  if (48 <=? c4) && (c4 <=? 57) && (char_at 5 name =? 0) then Some ((c3 - 48) * 10 + (c4 - 48))
  else if c4 =? 0 then Some (c3 - 48) else None.

Definition devfs_lookup (fuel : nat) (ticks dir : Z) (name : str) w : option (Z * Z * world H) :=
  d ← is_dir dir (vfs w);
  if negb d then Some (-1, 0, w) else
  n ← Vfs.node (vfs w) dir;
  c ← find_sibling (walk_fuel (vfs w)) name (n_children n) (vfs w);
  if negb (c =? 0) then Some (0, c, w) else
  let disk_num := char_at 2 name - 97 in
  if negb ((char_at 0 name =? 115) && (char_at 1 name =? 100) && (0 <=? disk_num) && (disk_num <=? 3)) then Some (-1, 0, w) else
  if char_at 3 name =? 0 then
    let sectors := disk_get_sectors (drive_of disk_num) (stor w) in
    if sectors =? 0 then Some (-1, 0, w) else
    new_block_node dir name (u64 (sectors * 512)) (BlockPrivate disk_num 0 sectors) w
  else if (49 <=? char_at 3 name) && (char_at 3 name <=? 57) then
    match name_number name with
    | None => Some (-1, 0, w)
    | Some part_num =>
        '(d, w) ← udisk_get_info fuel disk_num ticks w;
        match d with
        | None => Some (-1, 0, w)
        | Some d =>
            if negb (d_present d) then Some (-1, 0, w) else
            match find_part d part_num with
            | None => Some (-1, 0, w)
            | Some i =>
                let p := part_at d i in
                let sectors := u64 (p_end p - p_start p + 1) in
                new_block_node dir name (u64 (sectors * 512)) (BlockPrivate disk_num (p_start p) sectors) w
            end
        end
    end
  else Some (-1, 0, w).

(** ["sd%c"] and ["sd%c%d"] *)
Definition disk_name (i : Z) : str := [115; 100; 97 + i].
Definition partition_name (i n : Z) : str := disk_name i ++ (if n <? 10 then [48 + n] else [48 + n / 10; 48 + n mod 10]).

(** The entries of disk [i], of which at most [max] are stored. *)
Definition disk_entries (fuel : nat) (ticks i : Z) w : option (list dirent * world H) :=
  let sectors := disk_get_sectors (drive_of i) (stor w) in
  if sectors =? 0 then Some ([], w) else
  '(d, w) ← udisk_get_info fuel i ticks w;
  let parts := match d with
               | Some d => filter (fun p => p_present p = true) (take (Z.to_nat (d_count d)) (d_parts d))
               | None => []
               end in
  Some (Dirent (disk_name i) VFS_BLOCK_DEVICE (u64 (sectors * 512)) ::
        ((fun p => Dirent (partition_name i (p_num p)) VFS_BLOCK_DEVICE (p_size p)) <$> parts), w).

(** The disks from [l], while fewer than [max] entries are stored. *)
Fixpoint list_disks (fuel : nat) (ticks : Z) (l : list Z) (max : nat) w : option (list dirent * world H) :=
  match l with
  | [] => Some ([], w)
  | i :: l =>
      match max with
      | O => Some ([], w)
      | _ =>
          '(es, w) ← disk_entries fuel ticks i w;
          '(rest, w) ← list_disks fuel ticks l (max - length (take max es)) w;
          Some (take max es ++ rest, w)
      end
  end.

Definition devfs_readdir (fuel : nat) (ticks dir count : Z) w : option (Z * list dirent * world H) :=
  d ← is_dir dir (vfs w);
  if negb d then Some (-1, [], w) else
  w ← udisk_scan fuel ticks w;
  '(es, w) ← list_disks fuel ticks slots4 (Z.to_nat count) w;
  Some (0, es, w).

Definition devfs_stat (a : Z) w : option (Z * (Z * Z * bool)) :=
  if a =? 0 then Some (-1, (0, 0, false)) else
  n ← Vfs.node (vfs w) a; Some (0, (n_size n, n_mode n, n_type n =? VFS_DIR)).

Definition devfs_mount w : option (Z * Z * world H) :=
  '(n, s) ← vfs_create_node [] VFS_DIR (vfs w);
  let w := set_vfs s w in
  if n =? 0 then Some (-1, 0, w) else
  s ← update n (fun k => set_n_fs (Some devfs_name) (set_n_mode 493 k)) s;
  Some (0, n, set_vfs s w).

(** [kfree] of a node and of what it points to. *)
Definition free_block_node (c : Z) w : option (Z * world H) :=
  n ← Vfs.node (vfs w) c;
  w ← (if n_private n =? 0 then Some w else
       w ← free (n_private n) w; Some (set_stor (set_privs (delete (n_private n) (privs (stor w))) (stor w)) w));
  w ← free c w;
  Some (n_next n, set_vfs (set_nodes (delete c (nodes (vfs w))) (vfs w)) w).

Fixpoint free_children (fuel : nat) (c : Z) w : option (world H) :=
  if c =? 0 then Some w else
  match fuel with
  | O => None
  | S fuel => '(next, w) ← free_block_node c w; free_children fuel next w
  end.

Definition devfs_unmount (root : Z) w : option (Z * world H) :=
  if root =? 0 then Some (-1, w) else
  n ← Vfs.node (vfs w) root;
  w ← free_children (walk_fuel (vfs w)) (n_children n) w;
  w ← free root w;
  Some (0, set_vfs (set_nodes (delete root (nodes (vfs w))) (vfs w)) w).

Definition devfs_register w : Z * world H := let '(r, s) := vfs_register_fs (Some devfs_name) (vfs w) in (r, set_vfs s w).

End Partitions.
