(* ===== verification/PartitionSpec.v ===== *)
(** * What the partition operations do

    The boot record as a list of partitions: reading it, adding an entry, and the creation
    of a partition from the device name to the new list of the disk. *)

From S2P Require Import Prelude Bytes KMalloc Vfs Ufs UfsSpec Disk Partition.

(** ** The master boot record as a list of partitions *)

(** The partitions that the four slots of a boot record list: neither empty, nor 0xEE, nor
    extended. *)
Definition listed_slot (sector : list Z) (i : Z) : bool :=
  let t := slot_type sector i in negb (t =? 0) && negb (t =? 0xEE) && negb (is_extended t).

Definition slot_entry (sector : list Z) (i : Z) : mbr_entry_t :=
  MbrEntry (at8 sector (slot_off i)) (slot_type sector i) (w32 sector (slot_off i + 8)) (w32 sector (slot_off i + 12)).

Definition entries_of (sector : list Z) (slots : list Z) : list mbr_entry_t :=
  slot_entry sector <$> List.filter (listed_slot sector) slots.

Definition primaries (sector : list Z) : list mbr_entry_t := entries_of sector slots4.

(** No entry is extended. *)
Definition no_extended (sector : list Z) : Prop := forall i, i ∈ slots4 -> is_extended (slot_type sector i) = false.

Section Mbr.
Context {H : Type} `{AtaLaws H}.
Implicit Types w : world H.

Definition port w (k : Z) : Z := dk_port (disk_at (stor w) k).

(** Disk [k] is there and has at least one sector, addressed with 32 bits. *)
Record disk_ok w (k : Z) : Prop := {
  do_num : 0 <= k < 4;
  do_present : dk_present (disk_at (stor w) k) = true;
  do_cap : 0 < capacity (hw (stor w)) (port w k) }.

(** The bytes of a sector of disk [k]. *)
Definition sec w (k lba : Z) : list Z := range ata_byte (hw (stor w)) (port w k) (lba * 512) 512.

Lemma sec_length w k lba : length (sec w k lba) = 512%nat.
Proof. apply range_length. Qed.

Lemma sec_bytes w k lba : byte_list (sec w k lba).
Proof. apply Forall_fmap, Forall_true. intros x. apply ata_byte_ok. Qed.

Lemma drive_of_num k : 0 <= k < 4 -> drive_of k = 0x80 + k.
Proof. intros Hk. apply u8_small. lia. Qed.

(** What the reading of a boot record leaves alone. *)
Definition statics w w' : Prop :=
  vfs w' = vfs w /\ infos w' = infos w /\ scanned w' = scanned w /\ last_scan_tick w' = last_scan_tick w /\
  length (mbr_entries w') = length (mbr_entries w).

Lemma statics_trans w w1 w2 : statics w w1 -> statics w1 w2 -> statics w w2.
Proof. unfold statics. intuition congruence. Qed.

(** [w'] is [w] but for the selected disk, the variables of mbr.c and, if [l] is given, the
    first sector of disk [k], which holds [l]. *)
Record stored w (k : Z) (l : option (list Z)) w' : Prop := {
  sr_disks : disks (stor w') = disks (stor w);
  sr_privs : privs (stor w') = privs (stor w);
  sr_cap q : capacity (hw (stor w')) q = capacity (hw (stor w)) q;
  sr_bytes q x : ata_byte (hw (stor w')) q x =
    match l with
    | Some l => if (q =? port w k) && (0 <=? x) && (x <? 512) then nth (Z.to_nat x) l 0 else ata_byte (hw (stor w)) q x
    | None => ata_byte (hw (stor w)) q x
    end;
  sr_rest : statics w w' }.

Lemma stored_port w k l w' j : stored w k l w' -> port w' j = port w j.
Proof. intros S. unfold port, disk_at. by rewrite (sr_disks _ _ _ _ S). Qed.

Lemma stored_ok w k l w' j : stored w k l w' -> disk_ok w j -> disk_ok w' j.
Proof.
  intros S [D1 D2 D3]. split; [done| |].
  - unfold disk_at. by rewrite (sr_disks _ _ _ _ S).
  - by rewrite (stored_port _ _ _ _ _ S), (sr_cap _ _ _ _ S).
Qed.

Lemma stored_sec w k l w' : length l = 512%nat -> stored w k (Some l) w' -> sec w' k 0 = l.
Proof.
  intros Hl S. unfold sec. rewrite (stored_port _ _ _ _ _ S). apply list_eq_nth; [by rewrite range_length, Hl|]. rewrite range_length.
  intros i Hi. rewrite nth_range by done. rewrite (sr_bytes _ _ _ _ S), Z.eqb_refl, (proj2 (Z.leb_le _ _)), (proj2 (Z.ltb_lt _ _)) by lia.
  cbn [andb]. f_equal. lia.
Qed.

Lemma stored_same w k w' j lba : stored w k None w' -> sec w' j lba = sec w j lba.
Proof.
  intros S. unfold sec. rewrite (stored_port _ _ _ _ _ S). apply range_ext. intros i Hi. by rewrite (sr_bytes _ _ _ _ S).
Qed.

Lemma stored_trans w k l w1 w2 : stored w k l w1 -> stored w1 k None w2 -> stored w k l w2.
Proof.
  intros [A1 A2 A3 A4 A5] [B1 B2 B3 B4 B5]. split; [congruence|congruence|intros q; by rewrite B3|intros q x; by rewrite B4, A4|by apply (statics_trans w w1)].
Qed.

Lemma select_ok w k : disk_ok w k -> select k w = set_stor (set_current_disk k (stor w)) w.
Proof.
  intros [D1 D2 D3]. unfold select, disk_set_disk. rewrite D2, (proj2 (Z.ltb_ge _ _)), (proj2 (Z.leb_gt _ _)) by lia. done.
Qed.

Lemma select_stored w k : disk_ok w k -> stored w k None (select k w).
Proof. intros D. rewrite (select_ok w k D). by split. Qed.

(** A read of a selected disk. *)
Lemma read_sector_ok w k lba : disk_ok w k -> 0 <= lba < 2 ^ 32 -> lba < capacity (hw (stor w)) (port w k) ->
  read_sector lba (select k w) = Some (sec w k lba).
Proof.
  intros D Hl Hc. rewrite (select_ok w k D). unfold read_sector, disk_read, ahci_read. cbn [stor set_stor current_disk set_current_disk hw].
  change (disk_at (set_current_disk _ (stor w))) with (disk_at (stor w)). rewrite (do_present _ _ D). cbn [negb].
  rewrite ahci_command_fields by lia. change (1 * 512) with 512. apply (ata_in_ok (hw (stor w)) _ lba 1); [lia|lia|]. unfold port in Hc. lia.
Qed.

Lemma write_sector_ok w k l : disk_ok w k -> length l = 512%nat -> byte_list l ->
  exists w', write_sector 0 l (select k w) = (true, w') /\ stored w k (Some l) w'.
Proof.
  intros D Hl Hb. rewrite (select_ok w k D). unfold write_sector, disk_write, ahci_write. cbn [stor set_stor current_disk set_current_disk hw].
  change (disk_at (set_current_disk _ (stor w))) with (disk_at (stor w)). rewrite (do_present _ _ D). cbn [negb].
  rewrite ahci_command_fields by lia.
  pose proof (do_cap _ _ D) as Hcap. unfold port in Hcap.
  destruct (ata_out_ok (hw (stor w)) (dk_port (disk_at (stor w) k)) 0 1 l) as (d' & -> & Hc & Hx); [lia|lia|lia|lia|done|].
  eexists. split; [reflexivity|]. split; [done|done|done| |done]. intros q x. cbn [stor set_stor hw set_hw]. rewrite Hx. by rewrite Z.sub_0_r.
Qed.

Lemma mbr_read_ok w k lba : disk_ok w k -> 0 <= lba < 2 ^ 32 -> lba < capacity (hw (stor w)) (port w k) ->
  mbr_read (drive_of k) lba w = (Some (sec w k lba), select k w).
Proof.
  intros D Hl Hc. pose proof (do_num _ _ D). unfold mbr_read. rewrite drive_of_num by done. replace (0x80 + k - 0x80) with k by lia.
  rewrite (proj2 (Z.ltb_ge _ _)), (proj2 (Z.leb_gt _ _)) by lia. cbn [orb]. by rewrite read_sector_ok.
Qed.

Lemma mbr_write_ok w k l : disk_ok w k -> length l = 512%nat -> byte_list l ->
  exists w', mbr_write (drive_of k) 0 l w = (true, w') /\ stored w k (Some l) w'.
Proof.
  intros D Hl Hb. pose proof (do_num _ _ D). unfold mbr_write. rewrite drive_of_num by done. replace (0x80 + k - 0x80) with k by lia.
  rewrite (proj2 (Z.ltb_ge _ _)), (proj2 (Z.leb_gt _ _)) by lia. cbn [orb]. by apply write_sector_ok.
Qed.

End Mbr.

Section MbrList.
Context {H : Type} `{AtaLaws H}.
Implicit Types w : world H.

(** The partitions that mbr.c has read. *)
Definition mbr_list w : list mbr_entry_t := take (Z.to_nat (mbr_entry_count w)) (mbr_entries w).

(** Storage and statics of [w]; [es] have been read and no extended partition was seen. *)
Definition has_read w (es : list mbr_entry_t) w' : Prop :=
  stor w' = stor w /\ statics w w' /\ mbr_entry_count w' = Z.of_nat (length es) /\ mbr_list w' = es /\ mbr_extended_lba w' = 0.

Lemma primary_step_ok sector w es w1 i :
  has_read w es w1 -> (length es < length (mbr_entries w))%nat -> is_extended (slot_type sector i) = false ->
  has_read w (es ++ entries_of sector [i]) (primary_step sector w1 i).
Proof.
  intros (E1 & E2 & E3 & E4 & E5) Hl Hx. pose proof E2 as (_ & _ & _ & _ & Hlen). unfold primary_step, entries_of. cbn [List.filter]. unfold listed_slot. rewrite Hx.
  destruct (slot_type sector i =? 0) eqn:T0; [cbn [negb andb orb fmap list_fmap map]; rewrite app_nil_r; by split_and!|].
  destruct (slot_type sector i =? 0xEE) eqn:TE; [cbn [negb andb orb fmap list_fmap map]; rewrite app_nil_r; by split_and!|].
  cbn [negb andb orb fmap list_fmap map]. fold (slot_entry sector i). unfold has_read, mbr_list in *.
  cbn [stor mbr_entry_count mbr_entries mbr_extended_lba put_entry set_mbr_entries set_mbr_entry_count]. rewrite length_app, E3. split_and!; [done| |cbn [length]; lia| |done].
  - destruct E2 as (A1 & A2 & A3 & A4 & A5). unfold statics. cbn [vfs infos scanned last_scan_tick mbr_entries put_entry set_mbr_entries set_mbr_entry_count].
    rewrite length_insert. by split_and!.
  - rewrite E3 in E4. rewrite Nat2Z.id in *. replace (Z.to_nat (Z.of_nat (length es) + 1)) with (S (length es)) by lia.
    rewrite (take_S_r _ _ (slot_entry sector i)) by (apply list_lookup_insert_eq; lia). by rewrite take_insert_ge, E4 by lia.
Qed.

Lemma entries_of_cons sector i l : entries_of sector (i :: l) = entries_of sector [i] ++ entries_of sector l.
Proof. unfold entries_of. cbn [List.filter]. by destruct (listed_slot sector i). Qed.

Lemma entries_of_length sector l : (length (entries_of sector l) <= length l)%nat.
Proof. unfold entries_of. rewrite length_fmap. apply filter_length_le. Qed.

Lemma primary_loop_ok sector l w es w1 :
  has_read w es w1 -> (length es + length l <= length (mbr_entries w))%nat -> (forall i, i ∈ l -> is_extended (slot_type sector i) = false) ->
  has_read w (es ++ entries_of sector l) (foldl (primary_step sector) w1 l).
Proof.
  revert es w1. induction l as [|i l IH]; intros es w1 Hr Hl Hx; [by rewrite app_nil_r|].
  cbn [foldl length] in *. rewrite entries_of_cons, app_assoc. apply IH.
  - apply primary_step_ok; [done|lia|apply Hx, list_elem_of_here].
  - rewrite length_app. pose proof (entries_of_length sector [i]). cbn [length] in *. lia.
  - intros j Hj. by apply Hx, list_elem_of_further.
Qed.

(** Reading a boot record without extended partitions. *)
Lemma read_partitions_ok fuel w k :
  disk_ok w k -> length (mbr_entries w) = 32%nat -> (0 < fuel)%nat -> signed_sector (sec w k 0) = true -> no_extended (sec w k 0) ->
  exists w', mbr_read_partitions fuel (drive_of k) w = Some (Z.of_nat (length (primaries (sec w k 0))), w') /\
    stored w k None w' /\ mbr_list w' = primaries (sec w k 0) /\ mbr_entry_count w' = Z.of_nat (length (primaries (sec w k 0))).
Proof.
  intros D Hl Hf Hs Hx. unfold mbr_read_partitions. set (w0 := set_mbr_extended_lba _ _). destruct fuel as [|fuel]; [lia|].
  assert (D0 : disk_ok w0 k) by (destruct D; by split). pose proof (do_cap _ _ D0) as Hcap.
  rewrite (mbr_read_ok w0 k 0 D0) by lia. change (sec w0 k 0) with (sec w k 0). rewrite Hs. cbn [negb].
  assert (Hr : has_read (select k w0) [] (select k w0)) by by split_and!.
  apply (primary_loop_ok (sec w k 0) slots4) in Hr as (E1 & E2 & E3 & E4 & E5); [|cbn [length]; change (mbr_entries (select k w0)) with (mbr_entries w); rewrite Hl; cbn; lia|done].
  rewrite app_nil_l in *. fold (primaries (sec w k 0)) in E3, E4. set (w1 := foldl _ _ _) in *. rewrite E5. cbn [ebr_loop Z.eqb orb mbind option_bind].
  rewrite E3. eexists. split; [reflexivity|]. split; [|done]. pose proof (select_stored w0 k D0) as [S1 S2 S3 S4 S5]. rewrite <- E1 in *.
  split; [done|done|done|done|]. apply (statics_trans w w0); [done|]. by apply (statics_trans w0 (select k w0)).
Qed.

End MbrList.

(** *** A new entry *)

Lemma slot_bytes_length start size type : length (slot_bytes start size type) = 16%nat.
Proof. reflexivity. Qed.

(** The 16 bytes of slot [i]; type and entry depend on them only. *)
Definition slot (sector : list Z) (i : Z) : list Z := bytes_at (slot_off i) 16 sector.

Lemma slot_len sector i : length sector = 512%nat -> 0 <= i < 4 -> length (slot sector i) = 16%nat.
Proof.
  intros Hl Hi. unfold slot, bytes_at, slot_off. rewrite length_take, length_drop. lia.
Qed.

Lemma slot_type_slot sector i : 0 <= i -> slot_type sector i = at8 (slot sector i) 4.
Proof.
  intros Hi. unfold slot_type, at8, slot, bytes_at, slot_off. rewrite nth_firstn, nth_skipn. change (Z.to_nat 4 <? Z.to_nat 16)%nat with true. f_equal. lia.
Qed.

Lemma slot_w32 sector i k : 0 <= i -> 0 <= k <= 12 -> w32 sector (slot_off i + k) = w32 (slot sector i) k.
Proof.
  intros Hi Hk. unfold w32, slot, bytes_at. rewrite get32_take by lia. rewrite get32_shift by lia. unfold slot_off. do 2 f_equal. lia.
Qed.

Lemma slot_entry_slot sector i : 0 <= i ->
  slot_entry sector i = MbrEntry (at8 (slot sector i) 0) (at8 (slot sector i) 4) (w32 (slot sector i) 8) (w32 (slot sector i) 12).
Proof.
  intros Hi. unfold slot_entry. rewrite slot_type_slot, !slot_w32 by lia. f_equal.
  unfold at8, slot, bytes_at, slot_off. rewrite nth_firstn, nth_skipn. change (Z.to_nat 0 <? Z.to_nat 16)%nat with true. f_equal. lia.
Qed.

Lemma slot_store sector i j e : length sector = 512%nat -> length e = 16%nat -> 0 <= i < 4 -> 0 <= j < 4 ->
  slot (store (slot_off i) e sector) j = if j =? i then e else slot sector j.
Proof.
  intros Hl He Hi Hj. unfold slot_off in *. apply list_eq_nth.
  - rewrite slot_len; [|by rewrite store_length by (rewrite ?He, ?Hl; lia)|lia]. destruct (j =? i); [done|by rewrite slot_len by (done || lia)].
  - rewrite slot_len; [|by rewrite store_length by (rewrite ?He, ?Hl; lia)|lia]. intros k Hk. unfold slot, bytes_at, slot_off.
    rewrite nth_firstn, (proj2 (Nat.ltb_lt k _)), nth_skipn, nth_store by (rewrite ?He, ?Hl; lia). rewrite He.
    destruct (Z.eqb_spec j i) as [->|Hne].
    + rewrite (proj2 (Nat.leb_le _ _)), (proj2 (Nat.ltb_lt _ _)) by lia. cbn [andb]. f_equal. lia.
    + rewrite nth_firstn, (proj2 (Nat.ltb_lt k _)), nth_skipn by lia.
      destruct (_ && _)%nat eqn:E; [|done]. apply andb_true_iff in E as [E1%Nat.leb_le E2%Nat.ltb_lt]. lia.
Qed.

Lemma slot_bytes_entry start size type : is_u32 start -> is_u32 size ->
  let e := slot_bytes start size type in
  at8 e 0 = 0 /\ at8 e 4 = type /\ w32 e 8 = start /\ w32 e 12 = size.
Proof.
  intros Hs Hz e. split; [done|]. split; [done|]. split.
  - unfold w32. change 8 with (Z.of_nat 8 + 0). rewrite <- get32_shift by lia. exact (w32_le32 start (le32 size) Hs).
  - unfold w32. change 12 with (Z.of_nat 12 + 0). rewrite <- get32_shift by lia. exact (w32_le32 size [] Hz).
Qed.

Lemma slots4_range i : i ∈ slots4 <-> 0 <= i < 4.
Proof. unfold slots4. rewrite !elem_of_cons, elem_of_nil. lia. Qed.

(** Slots whose bytes agree list the same partitions. *)
Lemma entries_of_ext sector sector' l :
  (forall j, j ∈ l -> 0 <= j) -> (forall j, j ∈ l -> slot sector' j = slot sector j) -> entries_of sector' l = entries_of sector l.
Proof.
  induction l as [|j l IH]; intros Hp He; [done|]. rewrite (entries_of_cons sector'), (entries_of_cons sector), IH;
    [|intros; apply Hp; by right|intros; apply He; by right].
  f_equal. assert (Hj : 0 <= j) by apply Hp, list_elem_of_here. specialize (He j (list_elem_of_here _ _)). unfold entries_of. cbn [List.filter].
  unfold listed_slot. rewrite !slot_type_slot, He by done. case_step; [|done]. cbn. by rewrite !slot_entry_slot, He by done.
Qed.

Lemma entries_of_app sector l1 l2 : entries_of sector (l1 ++ l2) = entries_of sector l1 ++ entries_of sector l2.
Proof. induction l1 as [|j l1 IH]; [done|]. cbn [app]. by rewrite (entries_of_cons _ j (l1 ++ l2)), (entries_of_cons _ j l1), IH, app_assoc. Qed.

(** The slot of a new partition: [type] is one that is listed. *)
Definition plain_type (type : Z) : Prop := 0 < type < 256 /\ type <> 0xEE /\ is_extended type = false.

Section NewSlot.
Variables (sector : list Z) (i start size type : Z).
Hypotheses (Hlen : length sector = 512%nat) (Hfree : mbr_free_slot sector = Some i) (Hstart : is_u32 start) (Hsize : is_u32 size)
  (Htype : plain_type type).

Definition with_slot : list Z := store (slot_off i) (slot_bytes start size type) sector.

Lemma free_range : 0 <= i < 4 /\ slot_type sector i = 0.
Proof. apply find_some in Hfree as [Hi E]. apply list_elem_of_In, slots4_range in Hi. by apply Z.eqb_eq in E. Qed.

Lemma with_slot_length : length with_slot = 512%nat.
Proof. pose proof free_range. unfold with_slot. rewrite store_length; [done|unfold slot_off; lia|]. rewrite slot_bytes_length, Hlen. unfold slot_off. lia. Qed.

Lemma with_slot_bytes : byte_list sector -> byte_list with_slot.
Proof.
  intros Hb. destruct Htype as (Ht & _). assert (Hc : forall lba, byte_list (lba_to_chs lba)) by (intros; repeat constructor; apply u8_range).
  apply Forall_app_2; [by apply Forall_take|]. apply Forall_app_2; [|by apply Forall_drop]. unfold slot_bytes.
  repeat (apply Forall_app_2); try apply Hc; try apply le32_bytes; repeat constructor; lia.
Qed.

Lemma with_slot_slot j : 0 <= j < 4 -> slot with_slot j = if j =? i then slot_bytes start size type else slot sector j.
Proof. intros Hj. by apply slot_store; [|apply slot_bytes_length|apply free_range|]. Qed.

Lemma with_slot_type j : 0 <= j < 4 -> slot_type with_slot j = if j =? i then type else slot_type sector j.
Proof.
  intros Hj. rewrite slot_type_slot, with_slot_slot by lia. destruct (j =? i); [|by rewrite slot_type_slot by lia].
  by destruct (slot_bytes_entry start size type Hstart Hsize) as (_ & -> & _).
Qed.

Lemma with_slot_at k : k < 446 \/ 510 <= k < 512 -> 0 <= k -> at8 with_slot k = at8 sector k.
Proof.
  intros Hk H0. pose proof free_range. unfold at8, with_slot, slot_off. rewrite nth_store; [|lia|rewrite slot_bytes_length, Hlen; lia].
  rewrite slot_bytes_length. destruct (_ && _)%nat eqn:E; [|done]. apply andb_true_iff in E as [E1%Nat.leb_le E2%Nat.ltb_lt]. lia.
Qed.

Lemma free_unlisted : entries_of sector [i] = [].
Proof. destruct free_range as [_ H0]. unfold entries_of. cbn [List.filter]. unfold listed_slot. cbv zeta. by rewrite H0. Qed.

Lemma with_slot_entry : entries_of with_slot [i] = [MbrEntry 0 type start size].
Proof.
  destruct free_range as [Hi _], (slot_bytes_entry start size type Hstart Hsize) as (E1 & E2 & E3 & E4). unfold entries_of. cbn [List.filter].
  unfold listed_slot. cbv zeta. rewrite (with_slot_type i Hi), Z.eqb_refl. destruct Htype as (T1 & T2 & T3).
  rewrite T3, (proj2 (Z.eqb_neq type 0)), (proj2 (Z.eqb_neq type 0xEE)) by lia. cbn [negb andb fmap list_fmap map].
  rewrite slot_entry_slot, (with_slot_slot i Hi), Z.eqb_refl by lia. by rewrite E1, E2, E3, E4.
Qed.

Lemma with_slot_primaries : exists pre post,
  primaries sector = pre ++ post /\ primaries with_slot = pre ++ MbrEntry 0 type start size :: post.
Proof.
  destruct free_range as [Hi H0]. destruct (list_elem_of_split slots4 i) as (l1 & l2 & El); [by apply slots4_range|].
  assert (Hnd : NoDup slots4) by by apply (bool_decide_unpack (NoDup slots4)). rewrite El in Hnd.
  apply NoDup_app in Hnd as (_ & Hd1 & Hd2). apply NoDup_cons in Hd2 as [Hd2 _].
  assert (Hr : forall j, j ∈ slots4 -> 0 <= j < 4) by (intros j; apply slots4_range). rewrite El in Hr.
  assert (Hsame : forall l, (forall j, j ∈ l -> 0 <= j < 4 /\ j <> i) -> entries_of with_slot l = entries_of sector l).
  { intros l Hl. apply entries_of_ext; intros j Hj; destruct (Hl j Hj) as [? Hne]; [lia|]. rewrite with_slot_slot by done. by rewrite (proj2 (Z.eqb_neq _ _) Hne). }
  exists (entries_of sector l1), (entries_of sector l2). unfold primaries. rewrite El, !entries_of_app, (entries_of_cons sector), (entries_of_cons with_slot).
  rewrite (Hsame l1), (Hsame l2).
  - split; [by rewrite free_unlisted|by rewrite with_slot_entry].
  - intros j Hj. split; [apply Hr, elem_of_app; right; by right|]. intros ->. done.
  - intros j Hj. split; [apply Hr, elem_of_app; by left|]. intros ->. apply (Hd1 i Hj), list_elem_of_here.
Qed.

End NewSlot.

Section MbrAdd.
Context {H : Type} `{AtaLaws H}.
Implicit Types w : world H.

Lemma add_full w k start size type : disk_ok w k -> mbr_free_slot (sec w k 0) = None ->
  mbr_add_partition (drive_of k) start size type w = (-1, select k w).
Proof. intros D E. pose proof (do_cap _ _ D). unfold mbr_add_partition. rewrite (mbr_read_ok w k 0 D) by lia. by rewrite E. Qed.

Lemma add_free w k i start size type :
  disk_ok w k -> mbr_free_slot (sec w k 0) = Some i -> is_u32 start -> is_u32 size -> plain_type type ->
  exists w', mbr_add_partition (drive_of k) start size type w = (0, w') /\ stored w k (Some (with_slot (sec w k 0) i start size type)) w'.
Proof.
  intros D E Hs Hz Ht. pose proof (do_cap _ _ D) as Hc. unfold mbr_add_partition. rewrite (mbr_read_ok w k 0 D) by lia. rewrite E.
  fold (with_slot (sec w k 0) i start size type). set (l := with_slot _ _ _ _ _).
  assert (Hl : length l = 512%nat) by (apply with_slot_length; [apply sec_length|done]).
  assert (Hb : byte_list l) by (apply with_slot_bytes; try done; apply sec_bytes).
  pose proof (select_stored w k D) as S0. assert (D0 : disk_ok (select k w) k) by by apply (stored_ok w k None).
  destruct (mbr_write_ok (select k w) k l D0 Hl Hb) as (w1 & -> & S1). cbn [negb].
  assert (D1 : disk_ok w1 k) by by apply (stored_ok _ k (Some l) _ _ S1). pose proof (do_cap _ _ D1). rewrite (mbr_read_ok w1 k 0 D1) by lia.
  rewrite (stored_sec _ _ _ _ Hl S1). unfold list_eqb. rewrite bool_decide_true by done. eexists. split; [reflexivity|].
  apply (stored_trans w k (Some l) w1); [|by apply select_stored]. destruct S0 as [A1 A2 A3 A4 A5], S1 as [B1 B2 B3 B4 B5].
  split; [congruence|congruence|intros q; by rewrite B3|intros q x; rewrite B4, A4; unfold port, disk_at; by rewrite A1|by apply (statics_trans w (select k w))].
Qed.

(** What adding an entry keeps of a boot record that can be read. *)
Lemma with_slot_signed sector i start size type : length sector = 512%nat -> mbr_free_slot sector = Some i ->
  signed_sector (with_slot sector i start size type) = signed_sector sector.
Proof. intros Hl E. unfold signed_sector. by rewrite !with_slot_at by (done || lia). Qed.

Lemma with_slot_no_extended sector i start size type :
  length sector = 512%nat -> mbr_free_slot sector = Some i -> is_u32 start -> is_u32 size -> plain_type type ->
  no_extended sector -> no_extended (with_slot sector i start size type).
Proof.
  intros Hl E Hs Hz Ht Hx j Hj. rewrite with_slot_type by (done || by apply slots4_range). destruct (j =? i); [apply Ht|by apply Hx].
Qed.

(** A partition that was added is found again.  On a boot record without extended
    partitions, [mbr_add_partition] returns -1 and changes nothing if all four entries are
    in use; otherwise it returns 0, and the list that [mbr_read_partitions] reads
    afterwards is the list it read before with the new partition inserted.  Nothing
    outside of the first sector of the disk changes. *)
Theorem mbr_add_roundtrip fuel w k start size type :
  disk_ok w k -> length (mbr_entries w) = 32%nat -> (0 < fuel)%nat -> signed_sector (sec w k 0) = true -> no_extended (sec w k 0) ->
  is_u32 start -> is_u32 size -> plain_type type ->
  exists r w' pre post w1 w2, mbr_add_partition (drive_of k) start size type w = (r, w') /\
    mbr_read_partitions fuel (drive_of k) w = Some (Z.of_nat (length (pre ++ post)), w1) /\ mbr_list w1 = pre ++ post /\
    let new := if r =? 0 then [MbrEntry 0 type start size] else [] in
    mbr_read_partitions fuel (drive_of k) w' = Some (Z.of_nat (length (pre ++ new ++ post)), w2) /\ mbr_list w2 = pre ++ new ++ post /\
    (r = -1 /\ mbr_free_slot (sec w k 0) = None /\ sec w' k 0 = sec w k 0 \/ r = 0 /\ is_Some (mbr_free_slot (sec w k 0))) /\
    forall q x, q <> port w k \/ x < 0 \/ 512 <= x -> ata_byte (hw (stor w')) q x = ata_byte (hw (stor w)) q x.
Proof.
  intros D Hl Hf Hs Hx Hst Hsz Ht. destruct (read_partitions_ok fuel w k D Hl Hf Hs Hx) as (w1 & R1 & _ & L1 & _).
  destruct (mbr_free_slot (sec w k 0)) as [i|] eqn:E.
  - destruct (add_free w k i start size type D E Hst Hsz Ht) as (w' & E' & S').
    assert (Hlen : length (with_slot (sec w k 0) i start size type) = 512%nat) by (apply with_slot_length; [apply sec_length|done]).
    pose proof (stored_sec _ _ _ _ Hlen S') as Es. pose proof (stored_ok _ _ _ _ _ S' D) as D'.
    destruct (read_partitions_ok fuel w' k D') as (w2 & R2 & _ & L2 & _); [by destruct (sr_rest _ _ _ _ S') as (_ & _ & _ & _ & ->)|done| | |].
    { rewrite Es, with_slot_signed; [done|apply sec_length|done]. }
    { rewrite Es. by apply with_slot_no_extended. }
    rewrite Es in R2, L2. destruct (with_slot_primaries (sec w k 0) i start size type (sec_length _ _ _) E Hst Hsz Ht) as (pre & post & P1 & P2).
    rewrite P1 in R1, L1. rewrite P2 in R2, L2. exists 0, w', pre, post, w1, w2. split_and!; [done..|]. split_and!; [done|done|right; by split; [|eexists]|].
    intros q x Hq. rewrite (sr_bytes _ _ _ _ S'). case_step; [zbool; lia|done].
  - pose proof (select_stored w k D) as S'. pose proof (stored_ok _ _ _ _ _ S' D) as D'. pose proof (stored_same w k (select k w) k 0 S') as Es.
    destruct (read_partitions_ok fuel (select k w) k D') as (w2 & R2 & _ & L2 & _); [by destruct (sr_rest _ _ _ _ S') as (_ & _ & _ & _ & ->)|done|by rewrite Es|by rewrite Es|].
    rewrite Es in R2, L2. exists (-1), (select k w), [], (primaries (sec w k 0)), w1, w2. split_and!; [by apply add_full|done|done|]. split_and!; [done|done|by left|].
    intros q x _. apply (sr_bytes _ _ _ _ S').
Qed.

End MbrAdd.

(** ** Where a new partition goes *)

Definition e_end (e : mbr_entry_t) : Z := e_lba_start e + e_lba_count e.
Definition e_disjoint (a b : mbr_entry_t) : Prop := e_end a <= e_lba_start b \/ e_end b <= e_lba_start a.

(** The partitions are not empty, inside the disk and pairwise disjoint. *)
Definition layout_ok (total : Z) (es : list mbr_entry_t) : Prop :=
  Forall (fun e => 0 <= e_lba_start e /\ 0 < e_lba_count e /\ e_end e <= total) es /\ pairwise e_disjoint es.

#[export] Instance layout_ok_proper total : Proper (Permutation ==> iff) (layout_ok total).
Proof.
  assert (Hs : forall x y, e_disjoint x y -> e_disjoint y x) by (unfold e_disjoint; tauto).
  intros l1 l2 E. unfold layout_ok. split; intros [Hf Hp]; split.
  - by rewrite <- E.
  - by apply (pairwise_perm _ Hs l1).
  - by rewrite E.
  - apply (pairwise_perm _ Hs l2); [by symmetry|done].
Qed.

(** The search for the end of the last partition. *)
Lemma after_loop_spec (l : list partition_t) start M :
  Forall (fun p => p_present p = true -> 0 <= p_end p < M) l -> M < 2 ^ 64 -> start <= M ->
  let r := foldl (fun start p => if p_present p && (start <? u64 (p_end p + 1)) then u64 (p_end p + 1) else start) start l in
  start <= r <= M /\ Forall (fun p => p_present p = true -> p_end p < r) l.
Proof.
  intros Hf HM. revert start. induction Hf as [|p l Hp Hf IH]; intros start Hs; cbn [foldl]; [split; [lia|constructor]|].
  set (s1 := if _ && _ then _ else _). assert (H1 : start <= s1 <= M /\ (p_present p = true -> p_end p < s1)).
  { unfold s1. destruct (p_present p) eqn:E; cbn [andb]; [|split; [lia|done]]. specialize (Hp eq_refl). rewrite u64_small by lia. cbn [andb].
    destruct (Z.ltb_spec start (p_end p + 1)); (split; [|intros _]; lia). }
  destruct (IH s1 ltac:(lia)) as [H2 H3]. cbv zeta. split; [lia|]. constructor; [|done]. intros E. apply H1 in E. lia.
Qed.

(** The partition fits behind all others, starts at a multiple of 2048 sectors, ends on the
    disk, and is as long as asked for unless the disk ends before. *)
Lemma place_spec size_mb (d : disk_info_t) start size :
  Forall (fun p => p_present p = true -> 0 <= p_end p < d_total d) (take (Z.to_nat (d_count d)) (d_parts d)) ->
  0 <= size_mb < 2 ^ 43 -> d_total d <= 2 ^ 32 -> place_partition size_mb d = Some (start, size) ->
  2048 <= start /\ start mod 2048 = 0 /\ 0 < size <= size_mb * 2048 /\ start + size <= d_total d /\
  (size_mb * 2048 <= d_total d - start -> size = size_mb * 2048) /\
  Forall (fun p => p_present p = true -> p_end p < start) (take (Z.to_nat (d_count d)) (d_parts d)).
Proof.
  intros Hp Hs Ht E. unfold place_partition in E. unfold after_parts in E.
  assert (Hp' : Forall (fun p => p_present p = true -> 0 <= p_end p < Z.max 2048 (d_total d)) (take (Z.to_nat (d_count d)) (d_parts d))).
  { eapply Forall_impl; [exact Hp|]. cbn. intros p Hq Hq'. specialize (Hq Hq'). lia. }
  destruct (after_loop_spec _ 2048 _ Hp' ltac:(lia) ltac:(lia)) as [Hr Hf]. set (r := foldl _ _ _) in *. rewrite u64_small in E by lia.
  change (Z.lnot 2047) with (Z.lnot (Z.ones 11)) in E. rewrite land_lnot_ones in E by lia. rewrite (u64_small (_ * 1024 * 1024)) in E by lia.
  replace (size_mb * 1024 * 1024 / 512) with (size_mb * 2048) in E by dlia. change (2 ^ 11) with 2048 in E.
  set (st := r + 2047 - (r + 2047) mod 2048) in *. assert (Hst : r <= st /\ st mod 2048 = 0) by (unfold st; dlia).
  repeat case_step_in E; try done; zbool; injection E as <- <-; (split_and!; [dlia..|]); (eapply Forall_impl; [exact Hf|]; cbn; intros p Hq Hq'; specialize (Hq Hq'); lia).
Qed.

(** Inserting it keeps the layout. *)
Lemma layout_insert total es pre post e :
  layout_ok total es -> es = pre ++ post -> 0 <= e_lba_start e -> 0 < e_lba_count e -> e_end e <= total ->
  Forall (fun x => e_end x <= e_lba_start e) es -> layout_ok total (pre ++ e :: post).
Proof.
  intros [L1 L2] -> H1 H2 H3 H4. rewrite <- Permutation_middle. split; [by constructor|]. split; [|done].
  eapply Forall_impl; [exact H4|]. intros x Hx. by right.
Qed.

(** ** Scanning *)

Section Scan.
Context {H : Type} `{AtaLaws H}.
Implicit Types w : world H.

(** The same bytes on the same disks, and the variables that udisk.c depends on. *)
Record same_disks w w' : Prop := {
  sd_disks : disks (stor w') = disks (stor w);
  sd_cap q : capacity (hw (stor w')) q = capacity (hw (stor w)) q;
  sd_bytes q x : ata_byte (hw (stor w')) q x = ata_byte (hw (stor w)) q x;
  sd_entries : length (mbr_entries w') = length (mbr_entries w) }.

Lemma same_trans w w1 w2 : same_disks w w1 -> same_disks w1 w2 -> same_disks w w2.
Proof. intros [A1 A2 A3 A4] [B1 B2 B3 B4]. split; [congruence|intros; by rewrite B2|intros; by rewrite B3|congruence]. Qed.

Lemma stored_none w k w' : stored w k None w' -> same_disks w w'.
Proof. intros [A1 A2 A3 A4 (_ & _ & _ & _ & A5)]. by split. Qed.

Lemma same_disk_at w w' j : same_disks w w' -> disk_at (stor w') j = disk_at (stor w) j.
Proof. intros S. unfold disk_at. by rewrite (sd_disks _ _ S). Qed.

Lemma same_sec w w' k lba : same_disks w w' -> sec w' k lba = sec w k lba.
Proof. intros S. unfold sec, port. rewrite (same_disk_at _ _ _ S). apply range_ext. intros i _. apply (sd_bytes _ _ S). Qed.

Lemma same_ok w w' k : same_disks w w' -> disk_ok w k -> disk_ok w' k.
Proof. intros S [D1 D2 D3]. unfold port in *. split; [done|by rewrite (same_disk_at _ _ _ S)|]. unfold port. by rewrite (same_disk_at _ _ _ S), (sd_cap _ _ S). Qed.

(** A disk with a boot record of plain partitions. *)
Record mbr_disk w (k total : Z) : Prop := {
  md_ok : disk_ok w k;
  md_total : dk_sectors (disk_at (stor w) k) = total;
  md_range : 0 < total <= 2 ^ 32;
  md_entries : length (mbr_entries w) = 32%nat;
  md_signed : signed_sector (sec w k 0) = true;
  md_plain : gpt_protective (sec w k 0) = false;
  md_primary : no_extended (sec w k 0) }.

Lemma same_mbr w w' k total : same_disks w w' -> mbr_disk w k total -> mbr_disk w' k total.
Proof.
  intros S [M1 M2 M3 M4 M5 M6 M7]. split; rewrite ?(same_sec _ _ _ _ S), ?(same_disk_at _ _ _ S); try done.
  - by apply (same_ok w).
  - by rewrite (sd_entries _ _ S).
Qed.

(** What a scan makes of it. *)
Definition mbr_parts (k : Z) (es : list mbr_entry_t) : list partition_t := imap (fun i e => mbr_part k (Z.of_nat i) e) es.

Definition mbr_info w (k total : Z) : disk_info_t :=
  let es := primaries (sec w k 0) in
  Info true k (disk_get_model (drive_of k) (stor w)) total 512 (Z.of_nat (length es))
    (mbr_parts k es ++ replicate (16 - length es) zero_part) false.

Lemma mbr_info_same w w' k total : same_disks w w' -> mbr_info w' k total = mbr_info w k total.
Proof.
  intros S. unfold mbr_info. rewrite (same_sec _ _ _ _ S). unfold disk_get_model. by rewrite (same_disk_at _ _ _ S).
Qed.

Lemma put_part_set i p l d : put_part i p (set_d_parts l d) = set_d_parts (<[Z.to_nat i := p]> l) d.
Proof. done. Qed.

(** The loop over the entries that were read. *)
Lemma mbr_part_loop k w es m d :
  mbr_list w = es -> mbr_entry_count w = Z.of_nat (length es) -> (m <= length es)%nat ->
  d_parts d = replicate 16 zero_part -> (length es <= 16)%nat ->
  foldl (mbr_part_step k w) d (Z.of_nat <$> seq 0 m) = set_d_parts (mbr_parts k (take m es) ++ replicate (16 - m) zero_part) d.
Proof.
  intros Hl Hc Hm Hd H16. induction m as [|m IH]; [change (d = set_d_parts (replicate 16 zero_part) d); rewrite <- Hd; by destruct d|].
  rewrite seq_S, fmap_app, foldl_app, IH by lia. cbn [fmap list_fmap map foldl Nat.add]. unfold mbr_part_step, mbr_get_entry.
  rewrite (proj2 (Z.ltb_ge _ 0)), (proj2 (Z.leb_gt _ _)) by lia. cbn [orb]. rewrite Nat2Z.id.
  destruct (lookup_lt_is_Some_2 es m ltac:(lia)) as [e He]. assert (Hme : mbr_entries w !! m = Some e).
  { rewrite <- Hl in He. unfold mbr_list in He. by apply lookup_take_Some in He as [He _]. }
  rewrite Hme, put_part_set. f_equal. rewrite Nat2Z.id. rewrite (take_S_r _ _ _ He). unfold mbr_parts.
  rewrite imap_app, <- app_assoc. assert (Hk : length (imap (fun i e => mbr_part k (Z.of_nat i) e) (take m es)) = m) by (rewrite length_imap, length_take; lia).
  rewrite insert_app_r_alt by lia. f_equal. rewrite Hk, Nat.sub_diag. replace (16 - m)%nat with (S (16 - S m)) by lia.
  cbn [replicate insert list_insert imap app]. rewrite length_take, Nat.min_l, Nat.add_0_r by lia. done.
Qed.

Lemma primaries_le4 sector : (length (primaries sector) <= 4)%nat.
Proof. apply entries_of_length. Qed.

Lemma info_put i d w : 0 <= i < Z.of_nat (length (infos w)) -> info_at (put_info i d w) i = d.
Proof. intros Hi. unfold info_at, put_info. cbn [infos set_infos]. by rewrite list_lookup_insert_eq by lia. Qed.

Lemma info_put_ne i j d w : 0 <= i -> 0 <= j -> i <> j -> info_at (put_info i d w) j = info_at w j.
Proof. intros Hi Hj Hne. unfold info_at, put_info. cbn [infos set_infos]. by rewrite list_lookup_insert_ne by lia. Qed.

(** The variables of udisk.c after a scan of one disk. *)
Definition scanned_as w (k : Z) (d : disk_info_t) w' : Prop :=
  same_disks w w' /\ length (infos w') = length (infos w) /\ info_at w' k = d /\
  (forall j, 0 <= j -> j <> k -> info_at w' j = info_at w j) /\ vfs w' = vfs w /\ privs (stor w') = privs (stor w).

Lemma scan_mbr_disk fuel w k total : (0 < fuel)%nat -> mbr_disk w k total -> length (infos w) = 4%nat ->
  exists w', scan_disk fuel w k = Some w' /\ scanned_as w k (mbr_info w k total) w'.
Proof.
  intros Hf M Hi. pose proof M as [M1 M2 M3 M4 M5 M6 M7]. pose proof (do_num _ _ M1) as Hk. unfold scan_disk, disk_get_sectors. rewrite drive_of_num by done.
  replace (0x80 + k - 0x80) with k by lia. rewrite (proj2 (Z.ltb_ge _ 0)), (proj2 (Z.leb_gt 4 k)) by lia. cbn [orb].
  change (stor (put_info k zero_info w)) with (stor w). rewrite M2, (proj2 (Z.eqb_neq total 0)) by lia. rewrite <- drive_of_num by done.
  set (d0 := Info _ _ _ _ _ _ _ _). set (w0 := put_info k d0 _). assert (L0 : length (infos w0) = 4%nat) by (unfold w0, put_info; cbn; by rewrite !length_insert).
  assert (S0 : same_disks w w0) by by split. assert (D0 : disk_ok w0 k) by by apply (same_ok w).
  pose proof (do_cap _ _ D0). unfold read_gpt_partitions. rewrite (read_sector_ok w0 k 0) by (done || lia). rewrite (same_sec w w0 k 0 S0), M5, M6. cbn [andb negb mbind option_bind].
  pose proof (select_stored w0 k D0) as St. set (w1 := select k w0) in *. assert (S1 : same_disks w w1) by (apply (same_trans w w0); [done|by apply (stored_none w0 k)]).
  destruct (sr_rest _ _ _ _ St) as (V1 & V2 & _ & _ & V5).
  assert (E0 : info_at w0 k = d0) by (apply info_put; cbn; rewrite length_insert; lia).
  assert (E1 : info_at w1 k = d0) by (unfold info_at in *; by rewrite V2). rewrite E1. cbn [d_count d0 Z.eqb].
  assert (M' : mbr_disk w1 k total) by by apply (same_mbr w). destruct M' as [N1 _ _ N4 N5 N6 N7]. unfold read_mbr_partitions.
  destruct (read_partitions_ok fuel w1 k N1 N4 Hf N5 N7) as (w2 & -> & St2 & Hl2 & Hc2). cbn [mbind option_bind]. rewrite (same_sec w w1 k 0 S1) in *.
  destruct (sr_rest _ _ _ _ St2) as (U1 & U2 & _ & _ & U5). set (es := primaries (sec w k 0)) in *. pose proof (primaries_le4 (sec w k 0)) as H4. fold es in H4.
  assert (S2 : same_disks w w2) by (apply (same_trans w w1); [done|by apply (stored_none w1 k)]).
  assert (Hoth : forall j, 0 <= j -> j <> k -> info_at w0 j = info_at w j) by (intros j Hj Hjk; unfold w0; rewrite !info_put_ne by lia; done).
  assert (Hfin : forall d, d = mbr_info w k total -> scanned_as w k (mbr_info w k total) (put_info k d w2)).
  { intros d ->. split_and!.
    - apply (same_trans w w2); [done|by split].
    - cbn. by rewrite length_insert, U2, V2, L0.
    - apply info_put. rewrite U2, V2, L0. lia.
    - intros j Hj Hjk. rewrite info_put_ne by lia. rewrite <- Hoth by done. unfold info_at. by rewrite U2, V2.
    - cbn. by rewrite U1, V1.
    - cbn. by rewrite (sr_privs _ _ _ _ St2), (sr_privs _ _ _ _ St). }
  assert (E2 : info_at w2 k = d0) by (unfold info_at in *; by rewrite U2).
  destruct (Z.leb_spec (Z.of_nat (length es)) 0) as [Hz|Hz].
  - eexists. split; [reflexivity|]. assert (Hes : length es = 0%nat) by lia. assert (Hd : d0 = mbr_info w k total).
    { unfold mbr_info. fold es. apply nil_length_inv in Hes. rewrite Hes. done. }
    destruct (Hfin d0 Hd) as (F1 & F2 & F3 & F4 & F5 & F6). split_and!; try done.
    + by rewrite U2, V2, L0.
    + by rewrite E2, <- Hd.
    + intros j Hj Hjk. rewrite <- Hoth by done. unfold info_at. by rewrite U2, V2.
  - eexists. split; [reflexivity|]. rewrite E2. replace (Z.min (Z.of_nat (length es)) UDISK_MAX_PARTITIONS) with (Z.of_nat (length es)) by (unfold UDISK_MAX_PARTITIONS; lia).
    rewrite Nat2Z.id, (mbr_part_loop k w2 es) by (done || lia). apply Hfin. rewrite take_ge by done. unfold mbr_info. by fold es.
Qed.

End Scan.

Section Create.
Context {H : Type} `{AtaLaws H}.
Implicit Types w : world H.
Variable fuel : nat.
Hypothesis Hfuel : (0 < fuel)%nat.

(** Disk [k] has a boot record, the other ports have no disk, and a list that is not
    scanned again is the list of the disk. *)
Record udisk_ok w (k total : Z) : Prop := {
  uo_mbr : mbr_disk w k total;
  uo_infos : length (infos w) = 4%nat;
  uo_others j : 0 <= j < 4 -> j <> k -> dk_sectors (disk_at (stor w) j) = 0;
  uo_fresh : scanned w = true -> info_at w k = mbr_info w k total }.

Lemma scan_absent w j : 0 <= j < 4 -> dk_sectors (disk_at (stor w) j) = 0 -> scan_disk fuel w j = Some (put_info j zero_info w).
Proof.
  intros Hj E. unfold scan_disk, disk_get_sectors. rewrite drive_of_num by done. replace (0x80 + j - 0x80) with j by lia.
  rewrite (proj2 (Z.ltb_ge j 0)), (proj2 (Z.leb_gt 4 j)) by lia. cbn [orb]. change (stor (put_info j zero_info w)) with (stor w). by rewrite E.
Qed.

(** The scan of the disks in [l], when [w1] is reached from [w]; [b] if disk [k] is done. *)
Lemma scan_list w k total l : forall w1 (b : bool),
  udisk_ok w k total -> Forall (fun j => 0 <= j < 4) l -> same_disks w w1 -> length (infos w1) = 4%nat ->
  (b = true -> info_at w1 k = mbr_info w k total) ->
  exists w2, foldl (fun o i => w ← o; scan_disk fuel w i) (Some w1) l = Some w2 /\ same_disks w w2 /\ length (infos w2) = 4%nat /\
    (b = true \/ k ∈ l -> info_at w2 k = mbr_info w k total) /\ vfs w2 = vfs w1.
Proof.
  intros w1 b U Hl. revert w1 b. induction Hl as [|j l Hj Hl IH]; intros w1 b S1 L1 B1.
  { exists w1. split_and!; try done. intros [?|?%elem_of_nil]; auto. }
  cbn [foldl mbind option_bind]. destruct (Z.eq_dec j k) as [->|Hne].
  - destruct (scan_mbr_disk fuel w1 k total Hfuel) as (w2 & -> & (T1 & T2 & T3 & T4 & T5 & _)); [apply (same_mbr w); [done|apply U]|done|].
    rewrite (mbr_info_same _ _ _ _ S1) in T3. destruct (IH w2 true) as (w3 & E3 & S3 & L3 & B3 & V3); [by apply (same_trans w w1)|congruence|done|].
    exists w3. split_and!; auto. congruence.
  - rewrite scan_absent; [|done|rewrite (same_disk_at _ _ _ S1); by apply (uo_others _ _ _ U)].
    destruct (IH (put_info j zero_info w1) b) as (w3 & E3 & S3 & L3 & B3 & V3); [by destruct S1; split|cbn; by rewrite length_insert| |].
    { intros ->. rewrite info_put_ne; [auto|lia|apply (do_num _ _ (md_ok _ _ _ (uo_mbr _ _ _ U)))|done]. }
    exists w3. split_and!; auto. intros [?|[?|?]%elem_of_cons]; [auto|congruence|auto].
Qed.

(** A scan, cached or not, gives the list of the disk. *)
Lemma scan_ok w k total ticks : udisk_ok w k total ->
  exists w', udisk_scan fuel ticks w = Some w' /\ udisk_ok w' k total /\ same_disks w w' /\ info_at w' k = mbr_info w k total /\
    (scanned w = false -> scanned w' = true).
Proof.
  intros U. pose proof (do_num _ _ (md_ok _ _ _ (uo_mbr _ _ _ U))) as Hk. unfold udisk_scan. destruct (scanned w && _) eqn:E.
  - exists w. zbool. split_and!; [done|done|by split|by apply (uo_fresh _ _ _ U)|congruence].
  - destruct (scan_list w k total slots4 w false U) as (w2 & -> & S2 & L2 & B2 & _); [repeat constructor; lia|by split|apply U|done|].
    cbn [mbind option_bind]. eexists. split; [reflexivity|]. assert (Ei : info_at w2 k = mbr_info w k total) by (apply B2; right; by apply slots4_range).
    assert (S3 : same_disks w (set_last_scan_tick ticks (set_scanned true w2))) by (destruct S2; by split). split_and!; [|done|done|done]. split.
    + apply (same_mbr w); [done|apply U].
    + done.
    + intros j Hj Hjk. rewrite (same_disk_at _ _ _ S3). by apply (uo_others _ _ _ U).
    + intros _. rewrite (mbr_info_same _ _ _ _ S3). exact Ei.
Qed.

(** What the creation of a partition relies on: the node of the disk is found, and looking
    it up writes no disk. *)
Definition resolves (resolve : str -> world H -> option (Z * world H)) (k : Z) w : Prop :=
  exists a n w', resolve (dev_path k) w = Some (a, w') /\ a <> 0 /\ node (vfs w') a = Some n /\
    n_type n = VFS_BLOCK_DEVICE /\ same_disks w w' /\ infos w' = infos w /\ scanned w' = scanned w.

Lemma resolved_ok w w' k total : same_disks w w' -> infos w' = infos w -> scanned w' = scanned w -> udisk_ok w k total -> udisk_ok w' k total.
Proof.
  intros S Ei Es [U1 U2 U3 U4]. split; [by apply (same_mbr w)|by rewrite Ei| |].
  - intros j Hj Hne. rewrite (same_disk_at _ _ _ S). by apply U3.
  - rewrite Es. intros E. rewrite (mbr_info_same _ _ _ _ S), <- U4 by done. unfold info_at. by rewrite Ei.
Qed.

Lemma parse_dev_path k : 0 <= k < 4 -> parse_devname (dev_path k) = Some (k, 0).
Proof.
  intros Hk. unfold parse_devname, dev_path. assert (k = 0 \/ k = 1 \/ k = 2 \/ k = 3) as [->|[->|[->| ->]]] by lia; reflexivity.
Qed.

(** The partitions of the list end on the disk. *)
Lemma info_ends w k total : layout_ok total (primaries (sec w k 0)) -> total <= 2 ^ 32 ->
  let d := mbr_info w k total in
  forall M, Forall (fun e => e_end e <= M) (primaries (sec w k 0)) <->
    Forall (fun p => p_present p = true -> p_end p < M) (take (Z.to_nat (d_count d)) (d_parts d)).
Proof.
  intros [L _] Ht d M. unfold d, mbr_info. cbn [d_count d_parts]. rewrite Nat2Z.id, take_app_length' by (unfold mbr_parts; by rewrite length_imap).
  unfold mbr_parts. rewrite !Forall_lookup. split.
  - intros Hf i p Hp. apply list_lookup_imap_Some in Hp as (e & He & ->). specialize (Hf i e He). apply (Forall_lookup_1 _ _ _ _ L) in He.
    unfold mbr_part, e_end in *. cbn [p_present p_end]. intros _. rewrite u32_small by lia. lia.
  - intros Hf i e He. specialize (Hf i (mbr_part k (Z.of_nat i) e)). rewrite list_lookup_imap, He in Hf. specialize (Hf eq_refl eq_refl).
    apply (Forall_lookup_1 _ _ _ _ L) in He. unfold mbr_part, e_end in *. cbn [p_end] in Hf. rewrite u32_small in Hf by lia. lia.
Qed.

Lemma info_nonneg w k total : layout_ok total (primaries (sec w k 0)) -> total <= 2 ^ 32 ->
  let d := mbr_info w k total in Forall (fun p => p_present p = true -> 0 <= p_end p < d_total d) (take (Z.to_nat (d_count d)) (d_parts d)).
Proof.
  intros L Ht d. assert (Hf : Forall (fun e => e_end e <= total) (primaries (sec w k 0))).
  { destruct L as [L _]. apply (Forall_impl _ _ _ L). intros e (_ & _ & He). exact He. }
  apply (info_ends w k total L Ht) in Hf. rewrite Forall_lookup in Hf |- *. intros i p Hp Hpr. specialize (Hf i p Hp Hpr). split; [|done].
  unfold d, mbr_info in Hp. cbn [d_count d_parts] in Hp. rewrite Nat2Z.id, take_app_length' in Hp by (unfold mbr_parts; by rewrite length_imap).
  apply list_lookup_imap_Some in Hp as (e & _ & ->). apply u32_range.
Qed.

Lemma type_mbr_plain type : plain_type (type_mbr type).
Proof. unfold type_mbr, plain_type, is_extended. repeat case_step; cbn; lia. Qed.

(** A boot record with a new entry is one of plain partitions again. *)
Lemma stored_mbr w k total i start size type w' :
  mbr_disk w k total -> mbr_free_slot (sec w k 0) = Some i -> is_u32 start -> is_u32 size -> plain_type type ->
  stored w k (Some (with_slot (sec w k 0) i start size type)) w' ->
  mbr_disk w' k total /\ sec w' k 0 = with_slot (sec w k 0) i start size type.
Proof.
  intros [M1 M2 M3 M4 M5 M6 M7] E Hs Hz Ht S. assert (Hlen : length (with_slot (sec w k 0) i start size type) = 512%nat) by (apply with_slot_length; [apply sec_length|done]).
  pose proof (stored_sec _ _ _ _ Hlen S) as Es. split; [|done]. split; [by apply (stored_ok w k (Some (with_slot (sec w k 0) i start size type)))| |done| | | |].
  - unfold disk_at in *. by rewrite (sr_disks _ _ _ _ S).
  - by destruct (sr_rest _ _ _ _ S) as (_ & _ & _ & _ & ->).
  - rewrite Es, with_slot_signed; [done|apply sec_length|done].
  - rewrite Es. unfold gpt_protective in *. apply not_true_iff_false. intros (j & Hj & Ej)%existsb_exists. apply list_elem_of_In, slots4_range in Hj as Hj'.
    rewrite with_slot_type in Ej by (done || apply sec_length). destruct Ht as (_ & Ht & _). destruct (j =? i); [lia|].
    assert (gpt_protective (sec w k 0) = true); [|unfold gpt_protective in *; congruence]. apply existsb_exists. exists j. split; [by apply list_elem_of_In|exact Ej].
  - rewrite Es. by apply with_slot_no_extended.
Qed.

(** The rest of the creation when the boot record has a free entry. *)
Lemma create_free w k total i start size type ticks :
  udisk_ok w k total -> layout_ok total (primaries (sec w k 0)) -> mbr_free_slot (sec w k 0) = Some i ->
  0 < start -> 0 < size -> start + size <= total -> Forall (fun e => e_end e <= start) (primaries (sec w k 0)) ->
  exists w' pre post,
    ('(r, w) ← Some (mbr_add_partition (drive_of k) start size (type_mbr type) w);
     if negb (r =? 0) then Some (-1, w) else w ← rescan fuel ticks w; Some (0, w)) = Some (0, w') /\
    udisk_ok w' k total /\ info_at w' k = mbr_info w' k total /\ primaries (sec w k 0) = pre ++ post /\
    primaries (sec w' k 0) = pre ++ MbrEntry 0 (type_mbr type) start size :: post /\ layout_ok total (primaries (sec w' k 0)).
Proof.
  intros U L Ef Hp1 Hp2 Hp3 Hend. pose proof (uo_mbr _ _ _ U) as M. pose proof (md_range _ _ _ M). pose proof (type_mbr_plain type) as Hpt.
  assert (Hs : is_u32 start) by (unfold is_u32; lia). assert (Hz : is_u32 size) by (unfold is_u32; lia).
  destruct (add_free w k i start size (type_mbr type) (md_ok _ _ _ M) Ef Hs Hz Hpt) as (w1 & -> & St). cbn [mbind option_bind negb Z.eqb].
  destruct (stored_mbr w k total i start size (type_mbr type) w1 M Ef Hs Hz Hpt St) as [M1 Es].
  destruct (sr_rest _ _ _ _ St) as (_ & V2 & _ & _ & _). unfold rescan. set (w2 := set_scanned false w1).
  assert (U2 : udisk_ok w2 k total).
  { split; [by apply (same_mbr w1); [split|]|cbn; rewrite V2; apply U| |done]. intros j Hj Hne. cbn. unfold disk_at. rewrite (sr_disks _ _ _ _ St).
    by apply (uo_others _ _ _ U). }
  destruct (scan_ok w2 k total ticks U2) as (w3 & -> & U3 & S3 & I3 & _). cbn [mbind option_bind].
  destruct (with_slot_primaries (sec w k 0) i start size (type_mbr type) (sec_length _ _ _) Ef Hs Hz Hpt) as (pre & post & P1 & P2).
  assert (Esec : sec w3 k 0 = with_slot (sec w k 0) i start size (type_mbr type)) by (rewrite (same_sec _ _ _ _ S3); exact Es).
  exists w3, pre, post. rewrite Esec. split_and!; [done|done|by rewrite (mbr_info_same _ _ _ _ S3)|done|done|].
  rewrite P2. apply (layout_insert total (primaries (sec w k 0)) pre post); unfold e_end; cbn [e_lba_start e_lba_count]; done || lia.
Qed.


End Create.

(** ** Runs

    devfs is mounted, disk [sda] has 16384 sectors (8 MiB) and has been looked up once. *)

(** ["/dev/"] *)
Definition dev_dir : str := [47; 100; 101; 118; 47].

(** [vfs_resolve_path] with devfs mounted on /dev, its root at [root]. *)
Definition dev_resolve (root : Z) (path : str) (w : world bank) : option (Z * world bank) :=
  if prefix_of dev_dir path then '(_, a, w) ← devfs_lookup 40 0 root (drop 5 path) w; Some (a, w) else Some (0, w).

Definition bare_world (sector : list Z) : world bank :=
  World (Storage (Bank 16384 {[ (0, 0) := sector ]}) [Disk 0 16384 [] true; zero_disk; zero_disk; zero_disk] 0 ∅) boot
    (replicate 32 zero_entry) 0 0 0 (replicate 4 zero_info) false 0.

Definition dev_root : Z := 4120.

Definition dev_world (sector : list Z) : world bank :=
  let w := default (bare_world sector) (snd <$> devfs_mount (bare_world sector)) in
  default w (snd <$> devfs_lookup 40 0 dev_root (disk_name 0) w).

Example dev_mounted : option_map fst (devfs_mount (bare_world [])) = Some (0, dev_root).
Proof. vm_compute. reflexivity. Qed.

(** A boot record with one partition of 2 MiB at sector 2048. *)
Definition one_part : list Z := store 446 (slot_bytes 2048 4096 0x83) empty_mbr.
Definition demo_world : world bank := dev_world one_part.

Lemma demo_sec : sec demo_world 0 0 = one_part.
Proof. vm_compute. reflexivity. Qed.

Lemma demo_primaries : primaries (sec demo_world 0 0) = [MbrEntry 0 0x83 2048 4096].
Proof. rewrite demo_sec. vm_compute. reflexivity. Qed.

Lemma demo_mbr : mbr_disk demo_world 0 16384.
Proof.
  assert (Hd : disk_at (stor demo_world) 0 = Disk 0 16384 [] true) by (vm_compute; reflexivity).
  assert (Hc : bk_cap (hw (stor demo_world)) = 16384) by (vm_compute; reflexivity).
  assert (Hl : length (mbr_entries demo_world) = 32%nat) by (vm_compute; reflexivity). pose proof demo_sec as Es.
  generalize dependent demo_world. intros w Hd Hc Hl Es. split.
  - split; [lia|by rewrite Hd|]. unfold port. rewrite Hd. cbn. lia.
  - by rewrite Hd.
  - lia.
  - done.
  - rewrite Es. vm_compute. reflexivity.
  - rewrite Es. vm_compute. reflexivity.
  - rewrite Es. intros i Hi. apply slots4_range in Hi. assert (i = 0 \/ i = 1 \/ i = 2 \/ i = 3) as [->|[->|[->| ->]]] by lia; vm_compute; reflexivity.
Qed.

Lemma demo_udisk : udisk_ok demo_world 0 16384.
Proof.
  split; [exact demo_mbr|vm_compute; reflexivity| |].
  - intros j Hj Hne. assert (j = 1 \/ j = 2 \/ j = 3) as [->|[->| ->]] by lia; vm_compute; reflexivity.
  - assert (E : scanned demo_world = false) by (vm_compute; reflexivity). rewrite E. discriminate.
Qed.

(** The node is found in the directory, whatever the disk holds. *)
Lemma listed_resolves (w : world bank) :
  is_dir dev_root (vfs w) = Some true -> option_map n_children (Vfs.node (vfs w) dev_root) = Some 4752 ->
  find_sibling (walk_fuel (vfs w)) (disk_name 0) 4752 (vfs w) = Some 4752 -> option_map n_type (node (vfs w) 4752) = Some VFS_BLOCK_DEVICE ->
  resolves (dev_resolve dev_root) 0 w.
Proof.
  intros E1 E2 E3 E4. destruct (node (vfs w) 4752) as [n|] eqn:En; [|done]. cbn in E4. injection E4 as E4. exists 4752, n, w.
  split; [|split_and!; try done; by split].
  assert (Hp : prefix_of dev_dir (dev_path 0) = true) by reflexivity. unfold dev_resolve. rewrite Hp. change (drop 5 (dev_path 0)) with (disk_name 0). unfold devfs_lookup.
  rewrite E1. cbn [mbind option_bind negb]. destruct (Vfs.node (vfs w) dev_root) as [d|]; [|done]. cbn in E2. injection E2 as E2.
  cbn [mbind option_bind]. by rewrite E2, E3.
Qed.

Lemma demo_resolves (w : world bank) : vfs w = vfs demo_world -> resolves (dev_resolve dev_root) 0 w.
Proof. intros E. apply listed_resolves; rewrite E; vm_compute; reflexivity. Qed.

Lemma fmap_result {A B} (f : A -> B) (o : option A) x y : f <$> o = Some y -> o = Some x -> f x = y.
Proof. intros E ->. by injection E. Qed.

Lemma mbr_add_roundtrip_witness :
  exists r w' w2, mbr_add_partition (drive_of 0) 8192 1000 0x83 demo_world = (r, w') /\
    mbr_read_partitions 1 (drive_of 0) w' = Some (2, w2) /\ mbr_list w2 = [MbrEntry 0 0x83 2048 4096; MbrEntry 0 0x83 8192 1000].
Proof.
  pose proof demo_mbr as [M1 _ _ M4 M5 _ M7].
  destruct (mbr_add_roundtrip 1 demo_world 0 8192 1000 0x83 M1 M4 ltac:(lia) M5 M7) as (r & w' & pre & post & w1 & w2 & E & E1 & L1 & E2 & L2 & Hr & _).
  - unfold is_u32. lia.
  - unfold is_u32. lia.
  - unfold plain_type. split; [lia|]. split; [lia|reflexivity].
  - assert (Er : (mbr_add_partition (drive_of 0) 8192 1000 0x83 demo_world).1 = 0) by (vm_compute; reflexivity). rewrite E in Er. cbn [fst] in Er. subst r.
    assert (Ew : option_map (fun x => mbr_list x.2) (mbr_read_partitions 1 (drive_of 0) (mbr_add_partition (drive_of 0) 8192 1000 0x83 demo_world).2) =
      Some [MbrEntry 0 0x83 2048 4096; MbrEntry 0 0x83 8192 1000]) by (vm_compute; reflexivity).
    rewrite E in Ew. cbn [snd] in Ew. rewrite E2 in Ew. cbn [option_map snd] in Ew. injection Ew as Ew. exists 0, w', w2. split; [exact E|].
    rewrite <- L2, Ew in E2. split; [exact E2|exact Ew].
Defined.


(** ** Runs that show what the hypotheses exclude *)

(** An extended boot record without a partition that names itself as the next one is read
    for ever. *)
Lemma ebr_loop_spins {H : Type} `{Ata H} fuel drive cur (w : world H) sector :
  mbr_read drive cur w = (Some sector, w) -> cur <> 0 -> mbr_entry_count w < 32 -> signed_sector sector = true ->
  slot_type sector 0 = 0 -> is_extended (slot_type sector 1) = true -> u32 (mbr_extended_lba w + w32 sector (slot_off 1 + 8)) = cur ->
  ebr_loop fuel drive cur w = None.
Proof.
  intros E Hc Hn Hs Ht0 Ht1 Hu. induction fuel as [|fuel IH]; [done|]. cbn [ebr_loop]. rewrite (proj2 (Z.eqb_neq _ _) Hc), (proj2 (Z.leb_gt _ _) Hn). cbn [orb].
  rewrite E, Hs, Ht0. cbn [negb Z.eqb andb]. by rewrite Ht1, Hu.
Qed.

(** Slot 1 of the record at sector 5 is extended and leads to offset 0 of the extended
    partition, which starts at sector 5. *)
Definition looping_ebr : list Z := store 462 (slot_bytes 0 1 0x05) empty_mbr.
Definition looping_world : world bank :=
  set_mbr_extended_lba 5 (set_stor (set_hw (Bank 16384 {[ (0, 5) := looping_ebr ]}) (stor demo_world)) demo_world).

Example ebr_never_ends fuel : ebr_loop fuel 0x80 5 looping_world = None.
Proof.
  apply (ebr_loop_spins _ _ _ _ looping_ebr); [vm_compute; reflexivity|discriminate|vm_compute; reflexivity|vm_compute; reflexivity..].
Qed.

(** The high bits of cylinder 256 are put into the sector number: the bytes name cylinder
    0 and sector 1, as for the first sector of the disk. *)
Example chs_cylinder_256 : lba_to_chs (256 * 1008) = [0; 1; 0] /\ lba_to_chs 0 = [0; 1; 0].
Proof. split; vm_compute; reflexivity. Qed.

(** A partition in the second slot only is listed as the first, [sda1]; to delete [sda1]
    leaves it, and the result is 0. *)
Definition second_slot : list Z := store 462 (slot_bytes 2048 4096 0x83) empty_mbr.

Example delete_other_number :
  (let w := dev_world second_slot in
   '(r, w) ← udisk_delete_partition 1 (dev_resolve dev_root) (dev_path 0 ++ [49]) 7 w;
   Some (r, d_count (info_at w 0), primaries (sec w 0 0))) = Some (0, 1, [MbrEntry 0 0x83 2048 4096]).
Proof. vm_compute. reflexivity. Qed.

(** The first sector of a partition behind the first 2 TiB loses its high bits. *)
Example mbr_start_truncated : slot_entry (store 446 (slot_bytes (2 ^ 32 + 2048) 4096 0x83) empty_mbr) 0 = MbrEntry 0 0x83 2048 4096.
Proof. vm_compute. reflexivity. Qed.

(** *** GUID partition tables *)

Definition gpt_world : world bank := default demo_world (snd <$> udisk_create_gpt 1 (dev_resolve dev_root) 0 7 demo_world).
Definition gpt_one : option (Z * world bank) := udisk_create_partition 1 (dev_resolve dev_root) (dev_path 0) 1 PARTITION_UFS 7 gpt_world.
Definition gpt_list (w : world bank) : list (Z * Z * Z * Z) :=
  (fun p => (p_num p, p_start p, p_end p, p_type p)) <$> take (Z.to_nat (d_count (info_at w 0))) (d_parts (info_at w 0)).

Example gpt_created : ('(r, w) ← gpt_one; Some (r, d_is_gpt (info_at w 0), gpt_list w)) = Some (0, true, [(1, 2048, 4095, PARTITION_UFS)]).
Proof. vm_compute. reflexivity. Qed.

(** The checksums of the header and of the entries are right after a partition was added,
    but a new table has 0 for the checksum of its entries. *)
Definition crc_ok (w : world bank) : bool * bool :=
  let h := sec w 0 1 in
  (w32 h 16 =? gpt_crc32 (take 92 (store 16 (zeros 4) h)),
   w32 h 88 =? gpt_crc32 (bk_read 32 (hw (stor w)) 0 2)).

Example gpt_checksums : crc_ok gpt_world = (true, false) /\ (crc_ok <$> (snd <$> gpt_one)) = Some (true, true).
Proof. split; vm_compute; reflexivity. Qed.

(** To change the type of a partition adds a second entry for the same sectors. *)
Example gpt_set_type_duplicates :
  ('(_, w) ← gpt_one; '(r, w) ← udisk_set_type 1 (dev_resolve dev_root) (dev_path 0 ++ [49]) PARTITION_FAT32 7 w; Some (r, gpt_list w)) =
  Some (0, [(1, 2048, 4095, PARTITION_UFS); (2, 2048, 4095, PARTITION_FAT32)]).
Proof. vm_compute. reflexivity. Qed.

(** A partition of a GPT disk is never deleted: the request is to add one of size 0, which
    is refused. *)
Lemma gpt_delete_fails {H : Type} `{Ata H} fuel resolve disk part ticks (w w1 : world H) name :
  parse_devname name = Some (disk, part) -> udisk_scan fuel ticks w = Some w1 -> d_is_gpt (info_at w1 disk) = true ->
  forall r w', udisk_delete_partition fuel resolve name ticks w = Some (r, w') -> r = -1.
Proof.
  intros E1 E2 E3 r w'. unfold udisk_delete_partition. rewrite E1. destruct (part =? 0); [intros [= <- _]; done|]. rewrite E2. cbn [mbind option_bind].
  destruct (negb _); [intros [= <- _]; done|]. rewrite E3. destruct (dev_node _ _ _) as [[n w2]|]; cbn [mbind option_bind]; [|done].
  unfold gpt_add_partition. destruct (not_block n); cbn [mbind option_bind negb Z.eqb]; by intros [= <- _].
Qed.

Example gpt_delete_example :
  ('(_, w) ← gpt_one; '(r, w) ← udisk_delete_partition 1 (dev_resolve dev_root) (dev_path 0 ++ [49]) 7 w; Some (r, gpt_list w)) =
  Some (-1, [(1, 2048, 4095, PARTITION_UFS)]).
Proof. vm_compute. reflexivity. Qed.
