(* ===== verification/UfsDisk.v ===== *)
(** * UFS on a partition

    The composition of kernel/fs/ufs.c with the block devices of kernel/fs/devfs.c: a
    mount whose device is a partition of a disk. *)

From S2P Require Import Prelude Bytes KMalloc Vfs Ufs UfsSpec UfsFile Disk.

(** What is outside of the partition of [d] keeps its bytes. *)
Lemma part_rest_volume {H : Type} `{AtaLaws H} (d d' : block_part H) b b2 :
  part_rest d d' -> privs (pt_storage d) !! n_private (pt_node d) = Some b ->
  port_of (pt_storage d) b2 <> port_of (pt_storage d) b \/ bp_start_lba b2 + bp_sectors b2 <= bp_start_lba b \/
    bp_start_lba b + bp_sectors b <= bp_start_lba b2 ->
  volume (pt_storage d') b2 = volume (pt_storage d) b2.
Proof.
  intros (R1 & R2 & R3 & R4 & R5) E Hd. unfold volume. assert (port_of (pt_storage d') b2 = port_of (pt_storage d) b2) as ->.
  { unfold port_of, disk_at. by rewrite R2. }
  apply range_ext. intros k Hk. apply (R5 b); [done|]. destruct Hd as [?|[?|?]]; [by left|right; left; lia|right; right; lia].
Qed.


(** ** Witness: a file on the second partition of the disk *)

Definition part_fs : ufs_mount_t (block_part bank) := fresh_on (Partition demo_storage (block_vnode 200)) 64.
Definition part_file : ufs_mount_t (block_part bank) := (ufs_vfs_create root_dir [97] 420 7 part_fs).2.

Lemma part_file_ok : mnt_ok part_file.
Proof. apply mnt_check_ok. vm_compute. reflexivity. Qed.

Lemma part_file_open : file_open part_file (file_node 2).
Proof. apply empty_file_open; [exact part_file_ok|vm_compute; reflexivity]. Qed.

Definition part_dev : block_part bank := default (Partition demo_storage (block_vnode 200)) (dev part_file).

Lemma part_dev_is : dev part_file = Some part_dev.
Proof. unfold part_dev. destruct (mo_dev _ part_file_ok) as (d & -> & _). reflexivity. Qed.

Lemma part_dev_priv : privs (pt_storage part_dev) !! n_private (pt_node part_dev) = Some part2.
Proof. vm_compute. reflexivity. Qed.

