(* ===== verification/CcLex.v ===== *)
(** * The lexer of the C compiler: apps/cc/lexer.c

    The source is the list of its characters, as bytes, before the terminating zero; a
    lexer is what is left of it and the line number.  [lexer_next] is [None] where the
    code accesses memory outside of the source or of the 256 bytes of [text]: after a
    quote at the very end of the source, and for identifiers of 256 characters or more.
    Characters above 127 are negative in C and match none of the tests, as here. *)

From stdpp Require Import strings.
From S2P Require Import Prelude CString Vfs.

(** The characters of a string constant. *)
Definition text (s : string) : list Z := (fun a => Z.of_N (Ascii.N_of_ascii a)) <$> String.list_ascii_of_string s.

(** ** Tokens *)

Inductive TokenType :=
| TOK_EOF | TOK_IDENT | TOK_NUMBER | TOK_STRING
| TOK_INT | TOK_VOID | TOK_CHAR | TOK_LONG | TOK_SHORT | TOK_UNSIGNED
| TOK_RETURN | TOK_IF | TOK_ELSE | TOK_WHILE | TOK_FOR | TOK_BREAK | TOK_CONTINUE
| TOK_STRUCT | TOK_TYPEDEF | TOK_SIZEOF
| TOK_LPAREN | TOK_RPAREN | TOK_LBRACE | TOK_RBRACE | TOK_LBRACKET | TOK_RBRACKET
| TOK_SEMICOLON | TOK_COMMA | TOK_PLUS | TOK_MINUS | TOK_STAR | TOK_SLASH | TOK_PERCENT
| TOK_AMP | TOK_DOT | TOK_QUESTION | TOK_COLON
| TOK_ASSIGN | TOK_EQ | TOK_NEQ | TOK_LT | TOK_GT | TOK_LE | TOK_GE
| TOK_AND | TOK_OR | TOK_NOT | TOK_ARROW
| TOK_PLUS_EQ | TOK_MINUS_EQ | TOK_STAR_EQ | TOK_SLASH_EQ | TOK_INC | TOK_DEC
| TOK_ERROR.

(** The values of the enumeration. *)
Definition tok_code (t : TokenType) : Z :=
  match t with
  | TOK_EOF => 0 | TOK_IDENT => 256 | TOK_NUMBER => 257 | TOK_STRING => 258
  | TOK_INT => 259 | TOK_VOID => 260 | TOK_CHAR => 261 | TOK_LONG => 262 | TOK_SHORT => 263 | TOK_UNSIGNED => 264
  | TOK_RETURN => 265 | TOK_IF => 266 | TOK_ELSE => 267 | TOK_WHILE => 268 | TOK_FOR => 269 | TOK_BREAK => 270
  | TOK_CONTINUE => 271 | TOK_STRUCT => 272 | TOK_TYPEDEF => 273 | TOK_SIZEOF => 274
  | TOK_LPAREN => 40 | TOK_RPAREN => 41 | TOK_LBRACE => 123 | TOK_RBRACE => 125 | TOK_LBRACKET => 91 | TOK_RBRACKET => 93
  | TOK_SEMICOLON => 59 | TOK_COMMA => 44 | TOK_PLUS => 43 | TOK_MINUS => 45 | TOK_STAR => 42 | TOK_SLASH => 47
  | TOK_PERCENT => 37 | TOK_AMP => 38 | TOK_DOT => 46 | TOK_QUESTION => 63 | TOK_COLON => 58
  | TOK_ASSIGN => 300 | TOK_EQ => 301 | TOK_NEQ => 302 | TOK_LT => 303 | TOK_GT => 304 | TOK_LE => 305 | TOK_GE => 306
  | TOK_AND => 307 | TOK_OR => 308 | TOK_NOT => 309 | TOK_ARROW => 310
  | TOK_PLUS_EQ => 311 | TOK_MINUS_EQ => 312 | TOK_STAR_EQ => 313 | TOK_SLASH_EQ => 314 | TOK_INC => 315 | TOK_DEC => 316
  | TOK_ERROR => 500
  end.

Definition all_tokens : list TokenType :=
  [TOK_EOF; TOK_IDENT; TOK_NUMBER; TOK_STRING; TOK_INT; TOK_VOID; TOK_CHAR; TOK_LONG; TOK_SHORT; TOK_UNSIGNED;
   TOK_RETURN; TOK_IF; TOK_ELSE; TOK_WHILE; TOK_FOR; TOK_BREAK; TOK_CONTINUE; TOK_STRUCT; TOK_TYPEDEF; TOK_SIZEOF;
   TOK_LPAREN; TOK_RPAREN; TOK_LBRACE; TOK_RBRACE; TOK_LBRACKET; TOK_RBRACKET; TOK_SEMICOLON; TOK_COMMA; TOK_PLUS;
   TOK_MINUS; TOK_STAR; TOK_SLASH; TOK_PERCENT; TOK_AMP; TOK_DOT; TOK_QUESTION; TOK_COLON; TOK_ASSIGN; TOK_EQ; TOK_NEQ;
   TOK_LT; TOK_GT; TOK_LE; TOK_GE; TOK_AND; TOK_OR; TOK_NOT; TOK_ARROW; TOK_PLUS_EQ; TOK_MINUS_EQ; TOK_STAR_EQ;
   TOK_SLASH_EQ; TOK_INC; TOK_DEC; TOK_ERROR].

Definition tok_eqb (a b : TokenType) : bool := tok_code a =? tok_code b.

(** No value is used twice. *)
Lemma tok_of_code t : find (fun x => tok_code x =? tok_code t) all_tokens = Some t.
Proof. by destruct t. Qed.

#[export] Instance tok_code_inj : Inj (=) (=) tok_code.
Proof. intros a b E. pose proof (tok_of_code a) as Ha. rewrite E, tok_of_code in Ha. congruence. Qed.

#[export] Instance TokenType_eq_dec : EqDecision TokenType.
Proof. intros a b. destruct (decide (tok_code a = tok_code b)) as [E|E]; [left; by apply tok_code_inj|right; congruence]. Defined.

Lemma tok_eqb_spec a b : reflect (a = b) (tok_eqb a b).
Proof. unfold tok_eqb. destruct (Z.eqb_spec (tok_code a) (tok_code b)) as [E|E]; constructor; [by apply tok_code_inj|congruence]. Qed.

Lemma tok_eqb_refl a : tok_eqb a a = true.
Proof. unfold tok_eqb. apply Z.eqb_refl. Qed.

Record Token := Tok { t_type : TokenType; t_value : Z; t_text : list Z; t_line : Z }.

Definition make_token (type : TokenType) : Token := Tok type 0 [] 0.
Definition make_error (msg : list Z) : Token := Tok TOK_ERROR 0 msg 0.

(** ** The lexer *)

Record Lexer := Lex { l_rest : list Z; l_line : Z }.

Definition lexer_init (src : list Z) : Lexer := Lex src 1.

Definition peek (lex : Lexer) : Z := char_at 0 (l_rest lex).
Definition peek2 (lex : Lexer) : Z := char_at 1 (l_rest lex).

(** Past a character that is not the terminating zero. *)
Definition advance (lex : Lexer) : Lexer :=
  match l_rest lex with
  | [] => lex
  | c :: r => Lex r (if c =? 10 then l_line lex + 1 else l_line lex)
  end.

(** [while (peek(lex) && peek(lex) != '\n') advance(lex);] *)
Fixpoint skip_line (r : list Z) : list Z :=
  match r with
  | c :: r' => if c =? 10 then r else skip_line r'
  | [] => []
  end.

(** The loop behind the start of a comment, to behind its end. *)
Fixpoint skip_comment (r : list Z) (line : Z) : Lexer :=
  match r with
  | [] => Lex [] line
  | c :: r' =>
      if (c =? 42) && (char_at 0 r' =? 47) then Lex (drop 1 r') line
      else skip_comment r' (if c =? 10 then line + 1 else line)
  end.

Definition is_blank (c : Z) : bool := (c =? 32) || (c =? 9) || (c =? 13) || (c =? 10).

(** Each round consumes a character; the fuel is the number of characters. *)
Fixpoint skip_ws (fuel : nat) (lex : Lexer) : Lexer :=
  match fuel with
  | O => lex
  | S fuel =>
      if is_blank (peek lex) then skip_ws fuel (advance lex)
      else if (peek lex =? 47) && (peek2 lex =? 47) then skip_ws fuel (Lex (skip_line (l_rest lex)) (l_line lex))
      else if (peek lex =? 47) && (peek2 lex =? 42) then
        let l2 := advance (advance lex) in skip_ws fuel (skip_comment (l_rest l2) (l_line l2))
      else lex
  end.

Definition skip_whitespace (lex : Lexer) : Lexer := skip_ws (length (l_rest lex)) lex.

(** The character a backslash and [c] stand for; [q] is the quote of the literal. *)
Definition escape (q c : Z) : Z :=
  if c =? 110 then 10 else if c =? 116 then 9 else if c =? 92 then 92 else if c =? q then q else if c =? 48 then 0 else c.

(** The loop over the characters of a string: at most 254 of them are kept.  The result is
    the rest behind the closing quote. *)
Fixpoint lex_string (r : list Z) (line : Z) (text : list Z) : list Z * Lexer :=
  match r with
  | [] => (text, Lex [] line)
  | c :: r' =>
      if c =? 34 then (text, Lex r' line)
      else if c =? 10 then (text, Lex r line)
      else
        let keep ch := if (length text <? 254)%nat then text ++ [ch] else text in
        match r' with
        | n :: r'' =>
            if c =? 92 then lex_string r'' (if n =? 10 then line + 1 else line) (keep (escape 34 n))
            else lex_string r' line (keep c)
        | [] => lex_string r' line (keep c)
        end
  end.

(** A character literal behind its quote. *)
Definition lex_char (lex : Lexer) : option (Token * Lexer) :=
  match l_rest lex with
  | [] => None
  | c :: _ =>
      let lex := advance lex in
      let '(ch, lex) := if (c =? 92) && nz (peek lex) then (escape 39 (peek lex), advance lex) else (c, lex) in
      let lex := if peek lex =? 39 then advance lex else lex in
      Some (Tok TOK_NUMBER ch [] 0, lex)
  end.

Definition hex_digit (h : Z) : Z :=
  if isdigit h then h - 48 else if in_range 97 102 h then h - 97 + 10 else h - 65 + 10.

Fixpoint lex_hex (r : list Z) (val : Z) : Z * list Z :=
  match r with
  | c :: r' => if isxdigit c then lex_hex r' (i64 (val * 16 + hex_digit c)) else (val, r)
  | [] => (val, [])
  end.

Fixpoint lex_dec (r : list Z) (val : Z) : Z * list Z :=
  match r with
  | c :: r' => if isdigit c then lex_dec r' (i64 (val * 10 + (c - 48))) else (val, r)
  | [] => (val, [])
  end.

Definition lex_number (lex : Lexer) : Token * Lexer :=
  let '(val, r) := if (peek lex =? 48) && ((peek2 lex =? 120) || (peek2 lex =? 88))
                   then lex_hex (drop 2 (l_rest lex)) 0 else lex_dec (l_rest lex) 0 in
  let r := if (char_at 0 r =? 76) || (char_at 0 r =? 108) then drop 1 r else r in
  (Tok TOK_NUMBER val [] 0, Lex r (l_line lex)).

Definition is_ident_char (c : Z) : bool := isalnum c || (c =? 95).

Fixpoint lex_ident (r : list Z) : list Z * list Z :=
  match r with
  | c :: r' => if is_ident_char c then let '(a, b) := lex_ident r' in (c :: a, b) else ([], r)
  | [] => ([], [])
  end.

Definition keywords : list (list Z * TokenType) :=
  [(text "int", TOK_INT); (text "void", TOK_VOID); (text "char", TOK_CHAR); (text "long", TOK_LONG); (text "short", TOK_SHORT);
   (text "unsigned", TOK_UNSIGNED); (text "return", TOK_RETURN); (text "if", TOK_IF); (text "else", TOK_ELSE);
   (text "while", TOK_WHILE); (text "for", TOK_FOR); (text "break", TOK_BREAK); (text "continue", TOK_CONTINUE);
   (text "struct", TOK_STRUCT); (text "typedef", TOK_TYPEDEF)].

Definition keyword (name : list Z) : TokenType :=
  match find (fun k => str_eqb name k.1) keywords with Some k => k.2 | None => TOK_IDENT end.

(** A token of one character, or of two if the next one is in [l]. *)
Fixpoint second (l : list (Z * TokenType)) (c : Z) : option TokenType :=
  match l with
  | [] => None
  | (d, t) :: l => if c =? d then Some t else second l c
  end.

Definition one_or_two (t : Token) (l : list (Z * TokenType)) (lex : Lexer) : option (Token * Lexer) :=
  let lex := advance lex in
  match second l (peek lex) with
  | Some t2 => Some (make_token t2, advance lex)
  | None => Some (t, lex)
  end.

(** The tokens that are always one character. *)
Definition single (c : Z) : option TokenType :=
  second [(40, TOK_LPAREN); (41, TOK_RPAREN); (123, TOK_LBRACE); (125, TOK_RBRACE); (91, TOK_LBRACKET); (93, TOK_RBRACKET);
          (59, TOK_SEMICOLON); (44, TOK_COMMA); (63, TOK_QUESTION); (58, TOK_COLON); (46, TOK_DOT); (37, TOK_PERCENT)] c.

(** The operators that may have a second character. *)
Definition operator (c : Z) : option (Token * list (Z * TokenType)) :=
  if c =? 43 then Some (make_token TOK_PLUS, [(43, TOK_INC); (61, TOK_PLUS_EQ)])
  else if c =? 45 then Some (make_token TOK_MINUS, [(45, TOK_DEC); (61, TOK_MINUS_EQ); (62, TOK_ARROW)])
  else if c =? 42 then Some (make_token TOK_STAR, [(61, TOK_STAR_EQ)])
  else if c =? 47 then Some (make_token TOK_SLASH, [(61, TOK_SLASH_EQ)])
  else if c =? 61 then Some (make_token TOK_ASSIGN, [(61, TOK_EQ)])
  else if c =? 33 then Some (make_token TOK_NOT, [(61, TOK_NEQ)])
  else if c =? 60 then Some (make_token TOK_LT, [(61, TOK_LE)])
  else if c =? 62 then Some (make_token TOK_GT, [(61, TOK_GE)])
  else if c =? 38 then Some (make_token TOK_AMP, [(38, TOK_AND)])
  else if c =? 124 then Some (make_error (text "expected ||"), [(124, TOK_OR)])
  else None.

Definition lexer_next (lex0 : Lexer) : option (Token * Lexer) :=
  let lex := skip_whitespace lex0 in
  let c := peek lex in
  if c =? 0 then Some (make_token TOK_EOF, lex) else
  match single c with
  | Some t => Some (make_token t, advance lex)
  | None =>
      match operator c with
      | Some (t, l) => one_or_two t l lex
      | None =>
          if c =? 34 then
            let '(str, lex) := lex_string (drop 1 (l_rest lex)) (l_line lex) [] in Some (Tok TOK_STRING 0 str 0, lex)
          else if c =? 39 then lex_char (advance lex)
          else if isdigit c then Some (lex_number lex)
          else if isalpha c || (c =? 95) then
            let '(name, r) := lex_ident (l_rest lex) in
            if (255 <? length name)%nat then None
            else Some (Tok (keyword name) 0 name (l_line lex), Lex r (l_line lex))
          else Some (make_error (text "unexpected character"), advance lex)
      end
  end.

(** [token_type_name] *)
Definition token_type_name (t : TokenType) : list Z :=
  match t with
  | TOK_EOF => text "EOF" | TOK_INT => text "int" | TOK_VOID => text "void" | TOK_CHAR => text "char" | TOK_LONG => text "long"
  | TOK_SHORT => text "short" | TOK_UNSIGNED => text "unsigned" | TOK_RETURN => text "return" | TOK_IF => text "if"
  | TOK_ELSE => text "else" | TOK_WHILE => text "while" | TOK_FOR => text "for" | TOK_BREAK => text "break"
  | TOK_CONTINUE => text "continue" | TOK_STRUCT => text "struct" | TOK_TYPEDEF => text "typedef"
  | TOK_IDENT => text "identifier" | TOK_NUMBER => text "number" | TOK_STRING => text "string"
  | TOK_LPAREN => text "(" | TOK_RPAREN => text ")" | TOK_LBRACE => text "{" | TOK_RBRACE => text "}"
  | TOK_LBRACKET => text "[" | TOK_RBRACKET => text "]" | TOK_SEMICOLON => text ";" | TOK_COMMA => text ","
  | TOK_ASSIGN => text "=" | TOK_PLUS => text "+" | TOK_MINUS => text "-" | TOK_STAR => text "*" | TOK_SLASH => text "/"
  | TOK_PERCENT => text "%" | TOK_EQ => text "==" | TOK_NEQ => text "!=" | TOK_LT => text "<" | TOK_GT => text ">"
  | TOK_LE => text "<=" | TOK_GE => text ">=" | TOK_AND => text "&&" | TOK_OR => text "||" | TOK_NOT => text "!"
  | TOK_AMP => text "&" | TOK_ARROW => text "->" | TOK_DOT => text "." | TOK_PLUS_EQ => text "+=" | TOK_MINUS_EQ => text "-="
  | TOK_STAR_EQ => text "*=" | TOK_SLASH_EQ => text "/=" | TOK_INC => text "++" | TOK_DEC => text "--"
  | TOK_QUESTION => text "?" | TOK_COLON => text ":" | TOK_ERROR => text "error"
  | TOK_SIZEOF => text "unknown"
  end.

(** ** What a call consumes *)

(** The rest of [l'] is a proper suffix of the rest of [l]. *)
Definition shorter (l' l : Lexer) : Prop :=
  l_rest l' `suffix_of` l_rest l /\ (length (l_rest l') < length (l_rest l))%nat.

Lemma suffix_cons_drop {A} (c : A) r : r `suffix_of` c :: r.
Proof. by exists [c]. Qed.
#[local] Hint Resolve suffix_cons_drop suffix_cons_r : core.

Lemma advance_suffix l : l_rest (advance l) `suffix_of` l_rest l.
Proof. destruct l as [[|c r] n]; cbn; auto. Qed.

Lemma advance_shorter l : l_rest l <> [] -> shorter (advance l) l.
Proof. destruct l as [[|c r] n]; [done|]. intros _. split; cbn; [auto|lia]. Qed.

Lemma shorter_suffix l l' l'' : l_rest l' `suffix_of` l_rest l -> shorter l'' l' -> shorter l'' l.
Proof. intros Hs [H1 H2]. split; [by etrans|]. apply suffix_length in Hs. lia. Qed.

Lemma shorter_trans l l' l'' : shorter l' l -> l_rest l'' `suffix_of` l_rest l' -> shorter l'' l.
Proof. intros [H1 H2] Hs. split; [by etrans|]. apply suffix_length in Hs. lia. Qed.

Lemma skip_line_suffix r : skip_line r `suffix_of` r.
Proof. induction r as [|c r IH]; cbn; [done|]. case_step; auto. Qed.

Lemma skip_comment_suffix r : forall line, l_rest (skip_comment r line) `suffix_of` r.
Proof.
  induction r as [|c r IH]; intros line; cbn; [done|]. case_step; [|auto].
  cbn. etrans; [apply suffix_drop|auto].
Qed.

Lemma skip_ws_suffix n : forall l, l_rest (skip_ws n l) `suffix_of` l_rest l.
Proof.
  induction n as [|n IH]; intros l; cbn [skip_ws]; [done|]. cbv zeta. repeat case_step; [| | |done].
  - etrans; [apply IH|apply advance_suffix].
  - etrans; [apply IH|]. cbn. apply skip_line_suffix.
  - etrans; [apply IH|]. etrans; [apply skip_comment_suffix|]. etrans; apply advance_suffix.
Qed.

Lemma skip_whitespace_suffix l : l_rest (skip_whitespace l) `suffix_of` l_rest l.
Proof. apply skip_ws_suffix. Qed.

Lemma peek_cons l : nz (peek l) = true -> l_rest l <> [].
Proof. destruct l as [[|c r] n]; [done|]. done. Qed.

(** Where it stops there is no blank and no comment. *)
Definition at_token (l : Lexer) : Prop :=
  is_blank (peek l) = false /\ ((peek l =? 47) && ((peek2 l =? 47) || (peek2 l =? 42)) = false).

Lemma skip_ws_stops n : forall l, (length (l_rest l) <= n)%nat -> at_token (skip_ws n l).
Proof.
  induction n as [|n IH]; intros l Hl; cbn [skip_ws].
  - destruct l as [[|c r] k]; cbn in Hl; [|lia]. done.
  - cbv zeta. repeat case_step.
    + apply IH. destruct (advance_shorter l) as [_ ?]; [|lia]. apply peek_cons. unfold is_blank in *. by apply nz_true; zbool; intros E; rewrite E in *.
    + apply IH. zbool. destruct l as [[|c r] k]; [done|]. cbn in *. change (char_at 0 (c :: r)) with c in *. subst c.
      cbn. pose proof (suffix_length _ _ (skip_line_suffix r)). lia.
    + apply IH. zbool. destruct l as [[|c r] k]; [done|]. cbn in *. change (char_at 0 (c :: r)) with c in *. subst c. cbn.
      pose proof (suffix_length _ _ (skip_comment_suffix (l_rest (advance (Lex r k))) (l_line (advance (Lex r k))))).
      pose proof (suffix_length _ _ (advance_suffix (Lex r k))). cbn in *. lia.
    + split; [done|]. destruct (peek l =? 47), (peek2 l =? 47), (peek2 l =? 42); done.
Qed.

Lemma skip_whitespace_stops l : at_token (skip_whitespace l).
Proof. by apply skip_ws_stops. Qed.

(** ** The parts of a token *)

Lemma lex_string_spec r : forall line str,
  (length str <= 254)%nat ->
  (length (lex_string r line str).1 <= 254)%nat /\ l_rest (lex_string r line str).2 `suffix_of` r.
Proof.
  induction r as [r IH] using (induction_ltof1 _ (@length Z)). unfold ltof in IH. intros line str Hs.
  destruct r as [|c r]; cbn [lex_string]; [done|].
  case_step; [cbn; auto|]. case_step; [cbn; auto|]. cbv zeta.
  assert (Hk : forall ch, (length (if (length str <? 254)%nat then str ++ [ch] else str) <= 254)%nat).
  { intros ch. destruct (Nat.ltb_spec (length str) 254); [rewrite length_app; cbn; lia|lia]. }
  destruct r as [|n r]; [split; [apply Hk|cbn; auto]|].
  case_step.
  - destruct (IH r ltac:(cbn; lia) (if n =? 10 then line + 1 else line) _ (Hk (escape 34 n))) as [? ?]. split; auto.
  - destruct (IH (n :: r) ltac:(cbn; lia) line _ (Hk c)) as [? ?]. split; auto.
Qed.

Lemma lex_hex_suffix r : forall v, (lex_hex r v).2 `suffix_of` r.
Proof. induction r as [|c r IH]; intros v; cbn; [done|]. case_step; auto. Qed.

Lemma lex_dec_suffix r : forall v, (lex_dec r v).2 `suffix_of` r.
Proof. induction r as [|c r IH]; intros v; cbn; [done|]. case_step; auto. Qed.

Lemma i64_range x : - 2 ^ 63 <= i64 x < 2 ^ 63.
Proof. unfold i64. pose proof (Z.mod_pos_bound (x + 2 ^ 63) (2 ^ 64)). lia. Qed.

Lemma lex_hex_range r : forall v, - 2 ^ 63 <= v < 2 ^ 63 -> - 2 ^ 63 <= (lex_hex r v).1 < 2 ^ 63.
Proof. induction r as [|c r IH]; intros v Hv; cbn [lex_hex]; [done|]. case_step; [apply IH, i64_range|done]. Qed.

Lemma lex_dec_range r : forall v, - 2 ^ 63 <= v < 2 ^ 63 -> - 2 ^ 63 <= (lex_dec r v).1 < 2 ^ 63.
Proof. induction r as [|c r IH]; intros v Hv; cbn [lex_dec]; [done|]. case_step; [apply IH, i64_range|done]. Qed.

Lemma lex_number_spec l : isdigit (peek l) = true ->
  shorter (lex_number l).2 l /\ t_type (lex_number l).1 = TOK_NUMBER /\ t_text (lex_number l).1 = [] /\
  - 2 ^ 63 <= t_value (lex_number l).1 < 2 ^ 63.
Proof.
  destruct l as [[|c r] k]; [done|]. intros Hd. change (peek (Lex (c :: r) k)) with c in Hd. unfold lex_number.
  set (n := if (peek (Lex (c :: r) k) =? 48) && _ then _ else _).
  assert (Hn : n.2 `suffix_of` r /\ - 2 ^ 63 <= n.1 < 2 ^ 63).
  { subst n. case_step.
    - split; [|apply lex_hex_range; lia]. etrans; [apply lex_hex_suffix|]. change (drop 2 _) with (drop 1 r). apply suffix_drop.
    - change (l_rest (Lex (c :: r) k)) with (c :: r). cbn [lex_dec]. rewrite Hd.
      split; [apply lex_dec_suffix|apply lex_dec_range, i64_range]. }
  destruct n as [v r']. cbn [fst snd] in Hn. destruct Hn as [Hn Hv].
  cbn [fst snd t_type t_text t_value]. split; [|done].
  assert (Hs : (if (char_at 0 r' =? 76) || (char_at 0 r' =? 108) then drop 1 r' else r') `suffix_of` r).
  { case_step; [|done]. etrans; [apply suffix_drop|done]. }
  split; cbn [l_rest]; [auto|]. apply suffix_length in Hs. cbn [length]. lia.
Qed.

Lemma lex_ident_spec r : r = (lex_ident r).1 ++ (lex_ident r).2.
Proof. induction r as [|c r IH]; cbn; [done|]. case_step; [|done]. destruct (lex_ident r) as [a b]. cbn in *. by rewrite IH at 1. Qed.

Lemma lex_char_spec l : l_rest l <> [] ->
  exists ch l', lex_char l = Some (Tok TOK_NUMBER ch [] 0, l') /\ shorter l' l.
Proof.
  destruct l as [[|c r] k]; [done|]. intros _. unfold lex_char. cbn [l_rest].
  set (l := advance (Lex (c :: r) k)). assert (Hl : shorter l (Lex (c :: r) k)) by by apply advance_shorter.
  set (x := if (c =? 92) && _ then _ else _).
  assert (Hx : shorter x.2 (Lex (c :: r) k)).
  { subst x. case_step; cbn [snd]; [|done]. by eapply shorter_trans; [|apply advance_suffix]. }
  destruct x as [ch l1]. cbn [snd] in Hx. do 2 eexists. split; [done|].
  case_step; [|done]. by eapply shorter_trans; [|apply advance_suffix].
Qed.

Lemma lex_char_range l tok l' :
  Forall (fun c => 0 < c < 256) (l_rest l) -> lex_char l = Some (tok, l') -> 0 <= t_value tok < 256.
Proof.
  destruct l as [[|c r] k]; [done|]. unfold lex_char. cbn [l_rest]. intros Hc. apply Forall_cons in Hc as [Hc Hr].
  assert (Hp : 0 <= peek (advance (Lex (c :: r) k)) < 256).
  { cbn. destruct r as [|d r]; [done|]. apply Forall_cons in Hr as [Hr _]. change (0 <= d < 256). lia. }
  cbv zeta. case_step; intros E; injection E as <- _; cbn [t_value fst]; [|lia].
  unfold escape. revert Hp. generalize (peek (advance (Lex (c :: r) k))). intros p Hp. repeat case_step; lia.
Qed.

(** ** Bounds *)

Lemma second_elem l c t : second l c = Some t -> In t (snd <$> l).
Proof. induction l as [|[d x] l IH]; cbn; [done|]. case_step; [intros E; injection E as ->; auto|auto]. Qed.

Lemma single_not_eof c t : single c = Some t -> t <> TOK_EOF.
Proof. unfold single. intros E -> . apply second_elem in E. cbn in E. intuition discriminate. Qed.

Lemma operator_not_eof c t l :
  operator c = Some (t, l) -> (t_type t <> TOK_EOF /\ t_value t = 0 /\ (length (t_text t) <= 255)%nat) /\ ~ In TOK_EOF (snd <$> l).
Proof.
  unfold operator. repeat case_step; intros E; try discriminate; injection E as <- <-; cbn [t_type t_value t_text make_token make_error];
    (split; [split; [discriminate|split; [done|vm_compute; lia]]|cbn; intuition discriminate]).
Qed.

Lemma keyword_not_eof s : keyword s <> TOK_EOF.
Proof.
  unfold keyword. case_step; [|done]. apply find_some in Heqo as [Hi _]. cbn in Hi.
  repeat (destruct Hi as [<-|Hi]; [done|]). done.
Qed.

(** The source is bytes that are not zero. *)
Definition chars (lex : Lexer) : Prop := Forall (fun c => 0 < c < 256) (l_rest lex).

Lemma chars_suffix l l' : l_rest l' `suffix_of` l_rest l -> chars l -> chars l'.
Proof. intros [k E] Hc. unfold chars in *. rewrite E in Hc. apply Forall_app in Hc as [_ Hc]. exact Hc. Qed.

(** A token and the lexer behind it, against the lexer before it. *)
Definition token_bounds (lex : Lexer) (tok : Token) (lex' : Lexer) : Prop :=
  (length (t_text tok) <= 255)%nat /\ (chars lex -> - 2 ^ 63 <= t_value tok < 2 ^ 63) /\ (l_rest lex' `suffix_of` l_rest lex) /\
  (if decide (t_type tok = TOK_EOF) then peek lex' = 0 else (length (l_rest lex') < length (l_rest lex))%nat).

Lemma token_bounds_shorter lex tok lex' :
  t_type tok <> TOK_EOF -> (length (t_text tok) <= 255)%nat -> (chars lex -> - 2 ^ 63 <= t_value tok < 2 ^ 63) -> shorter lex' lex ->
  token_bounds lex tok lex'.
Proof. intros Ht Hx Hv [? ?]. split; [done|]. split; [done|]. split; [done|]. by destruct (decide _). Qed.

Lemma one_or_two_bounds lex t l : l_rest lex <> [] ->
  t_type t <> TOK_EOF -> t_value t = 0 -> (length (t_text t) <= 255)%nat -> ~ In TOK_EOF (snd <$> l) ->
  exists tok lex', one_or_two t l lex = Some (tok, lex') /\ token_bounds lex tok lex'.
Proof.
  intros Hr Ht Hv Hx Hl. unfold one_or_two. cbv zeta. pose proof (advance_shorter lex Hr) as Ha.
  destruct (second l _) as [t2|] eqn:E2; do 2 eexists; (split; [done|]); apply token_bounds_shorter; cbn [t_type t_text t_value make_token length]; try (done || lia).
  - intros ->. by apply second_elem in E2.
  - eapply shorter_trans; [done|]. apply advance_suffix.
Qed.

Lemma lexer_next_spec (lex : Lexer) :
  match lexer_next lex with
  | Some (tok, lex') => token_bounds lex tok lex'
  | None =>
      let r := l_rest (skip_whitespace lex) in r = [39] \/ (255 < length (lex_ident r).1)%nat
  end.
Proof.
  pose proof (skip_whitespace_suffix lex) as Hs. unfold lexer_next. set (l := skip_whitespace lex) in *. clearbody l.
  assert (Hw : forall tok lex', token_bounds l tok lex' -> token_bounds lex tok lex').
  { intros tok lex' (H1 & H2 & H3 & H4). split; [done|]. split; [intros Hc; apply H2; by eapply chars_suffix|]. split; [by etrans|]. apply suffix_length in Hs. destruct (decide _); [done|lia]. }
  cbv zeta. destruct (Z.eqb_spec (peek l) 0) as [E0|E0].
  { apply Hw. split; [cbn; lia|]. split; [cbn; lia|]. split; [done|]. done. }
  assert (Hr : l_rest l <> []) by by apply peek_cons, nz_true.
  destruct (single (peek l)) as [t|] eqn:E1.
  { apply Hw, token_bounds_shorter; [by eapply single_not_eof|cbn; lia|cbn; lia|by apply advance_shorter]. }
  destruct (operator (peek l)) as [[t o]|] eqn:E2.
  { apply operator_not_eof in E2 as [(H1 & H2 & H3) H4].
    destruct (one_or_two_bounds l t o Hr H1 H2 H3 H4) as (tok & lex' & -> & Hb). by apply Hw. }
  case_step.
  { destruct (lex_string_spec (drop 1 (l_rest l)) (l_line l) []) as [H1 H2]; [cbn; lia|]. destruct (lex_string _ _ _) as [str l'].
    cbn [fst snd] in *. apply Hw, token_bounds_shorter; cbn [t_type t_text t_value]; [done|lia|lia|].
    destruct (l_rest l) as [|c r] eqn:Er; [done|]. change (drop 1 (c :: r)) with r in H2. split; rewrite Er; [auto|].
    apply suffix_length in H2. cbn. lia. }
  case_step.
  { destruct l as [[|c [|d r]] k]; [done| |].
    - cbn in Heqb0 |- *. apply Z.eqb_eq in Heqb0. change (c = 39) in Heqb0. left. by subst c.
    - destruct (lex_char_spec (advance (Lex (c :: d :: r) k))) as (ch & l' & E & Hsh); [done|]. rewrite E.
      apply Hw, token_bounds_shorter; cbn [t_type t_text t_value length]; [done|lia| |].
      + intros Hl. apply lex_char_range in E; [cbn in E; lia|]. cbn. by apply Forall_cons in Hl as [_ Hl].
      + eapply shorter_suffix; [apply advance_suffix|done]. }
  case_step.
  { destruct (lex_number_spec l Heqb1) as (H1 & H2 & H3 & H4). destruct (lex_number l) as [tok l']. cbn [fst snd] in *.
    apply Hw, token_bounds_shorter; [by rewrite H2|rewrite H3; cbn; lia|done|done]. }
  case_step; [|apply Hw, token_bounds_shorter; [done|vm_compute; lia|cbn; lia|by apply advance_shorter]].
  destruct (lex_ident (l_rest l)) as [name r] eqn:Ei. pose proof (lex_ident_spec (l_rest l)) as Hi. rewrite Ei in Hi. cbn [fst snd] in Hi.
  destruct (Nat.ltb_spec 255 (length name)) as [Hn|Hn]; [by right|].
  apply Hw, token_bounds_shorter; cbn [t_type t_text t_value]; [apply keyword_not_eof|done|lia|].
  split; cbn [l_rest]; rewrite Hi; [by eexists|]. rewrite length_app. enough (length name <> 0)%nat by lia.
  destruct l as [[|c r'] k]; [done|]. cbn in Ei. assert (Ha : is_ident_char c = true).
  { unfold is_ident_char, isalnum. change (isalpha c || (c =? 95) = true) in Heqb2. destruct (isalpha c); [done|]. cbn in *. by rewrite Heqb2, orb_true_r. }
  rewrite Ha in Ei. destruct (lex_ident r') as [a b]. injection Ei as <- _. cbn. lia.
Qed.



(** The two exceptions. *)
Example quote_at_end : lexer_next (lexer_init (text "'")) = None.
Proof. reflexivity. Qed.

Example long_name : lexer_next (lexer_init (replicate 256 97)) = None.
Proof. reflexivity. Qed.

(** The names the compiler knows do not include [sizeof], and [token_type_name] does not
    know it either. *)
Example sizeof_is_a_name : keyword (text "sizeof") = TOK_IDENT /\ token_type_name TOK_SIZEOF = text "unknown".
Proof. split; reflexivity. Qed.

(** ** Printing tokens and reading them back *)

Fixpoint decimal (fuel : nat) (v : Z) : list Z :=
  match fuel with
  | O => []
  | S fuel => if v <? 10 then [48 + v] else decimal fuel (v / 10) ++ [48 + v mod 10]
  end.

(** A character inside of a string literal. *)
Definition print_char (c : Z) : list Z :=
  if c =? 0 then [92; 48] else if c =? 10 then [92; 110] else if (c =? 34) || (c =? 92) then [92; c] else [c].

Definition print_token (t : Token) : list Z :=
  match t_type t with
  | TOK_IDENT => t_text t
  | TOK_NUMBER => decimal 19 (t_value t)
  | TOK_STRING => 34 :: concat (print_char <$> t_text t) ++ [34]
  | ty => token_type_name ty
  end.

(** One space behind each token. *)
Definition print_tokens (ts : list Token) : list Z := concat ((fun t => print_token t ++ [32]) <$> ts).

Definition is_keyword (t : TokenType) : bool := existsb (fun k => tok_eqb t k.2) keywords.

(** The tokens the lexer makes, on line [line]. *)
Definition good_token (line : Z) (t : Token) : bool :=
  match t_type t with
  | TOK_IDENT =>
      (t_value t =? 0) && (t_line t =? line) && forallb is_ident_char (t_text t) && negb (isdigit (char_at 0 (t_text t))) &&
      tok_eqb (keyword (t_text t)) TOK_IDENT && in_range 1 255 (Z.of_nat (length (t_text t)))
  | TOK_NUMBER => in_range 0 (2 ^ 63 - 1) (t_value t) && (t_line t =? 0) && str_eqb (t_text t) []
  | TOK_STRING =>
      (t_value t =? 0) && (t_line t =? 0) && forallb (in_range 0 255) (t_text t) && (length (t_text t) <=? 254)%nat
  | TOK_EOF | TOK_ERROR | TOK_SIZEOF => false
  | ty =>
      (t_value t =? 0) &&
      if is_keyword ty then (t_line t =? line) && str_eqb (t_text t) (token_type_name ty)
      else (t_line t =? 0) && str_eqb (t_text t) []
  end.

(** The tokens up to the end of the file. *)
Fixpoint lex_all (fuel : nat) (lex : Lexer) : option (list Token) :=
  match fuel with
  | O => None
  | S fuel =>
      match lexer_next lex with
      | Some (t, lex) => if tok_eqb (t_type t) TOK_EOF then Some [] else ts ← lex_all fuel lex; Some (t :: ts)
      | None => None
      end
  end.

Lemma lex_all_S n lex :
  lex_all (S n) lex =
  match lexer_next lex with
  | Some (t, lex) => if tok_eqb (t_type t) TOK_EOF then Some [] else ts ← lex_all n lex; Some (t :: ts)
  | None => None
  end.
Proof. done. Qed.

Lemma str_eqb_eq a b : str_eqb a b = true -> a = b.
Proof. unfold str_eqb. by case_bool_decide. Qed.

Lemma lexer_next_blank r line : lexer_next (Lex (32 :: r) line) = lexer_next (Lex r line).
Proof. reflexivity. Qed.

Lemma ident_char_false c :
  is_ident_char c = true -> negb (isdigit c) = true ->
  is_blank c = false /\ (c =? 47) = false /\ (c =? 0) = false /\ single c = None /\ operator c = None /\
  (c =? 34) = false /\ (c =? 39) = false /\ isdigit c = false /\ isalpha c || (c =? 95) = true.
Proof.
  unfold is_ident_char, isalnum, isalpha, isdigit, in_range. intros Hc Hd.
  assert (Hr : 97 <= c <= 122 \/ 65 <= c <= 90 \/ c = 95) by lia.
  assert (Hn : forall k, k = 32 \/ k < 65 \/ 90 < k < 95 \/ 122 < k -> (c =? k) = false) by (intros; lia).
  unfold is_blank, single, operator, second. repeat rewrite Hn by lia. repeat split; lia.
Qed.

Lemma digit_false c : isdigit c = true ->
  is_blank c = false /\ (c =? 47) = false /\ (c =? 0) = false /\ single c = None /\ operator c = None /\
  (c =? 34) = false /\ (c =? 39) = false /\ (c =? 120) || (c =? 88) = false.
Proof.
  unfold isdigit, in_range. intros Hc.
  assert (Hn : forall k, k < 48 \/ 57 < k -> (c =? k) = false) by (intros; lia).
  unfold is_blank, single, operator, second. repeat rewrite Hn by lia. done.
Qed.

(** No white space before [c]. *)
Lemma skip_whitespace_none c r line :
  is_blank c = false -> (c =? 47) = false -> skip_whitespace (Lex (c :: r) line) = Lex (c :: r) line.
Proof.
  intros Hb Hs. unfold skip_whitespace. cbn [l_rest length skip_ws].
  change (peek (Lex (c :: r) line)) with c. by rewrite Hb, Hs.
Qed.

Lemma lex_ident_print name r :
  forallb is_ident_char name = true -> lex_ident (name ++ 32 :: r) = (name, 32 :: r).
Proof. induction name as [|c name IH]; cbn [forallb app lex_ident]; [done|]. intros [Hc Hn]%andb_true_iff. by rewrite Hc, IH. Qed.

Lemma lexer_next_ident name r line :
  forallb is_ident_char name = true -> negb (isdigit (char_at 0 name)) = true -> (0 < length name <= 255)%nat ->
  lexer_next (Lex (name ++ 32 :: r) line) = Some (Tok (keyword name) 0 name line, Lex (32 :: r) line).
Proof.
  intros Hn Hd Hl. pose proof (lex_ident_print name r Hn) as Hi. destruct name as [|c name]; [cbn in Hl; lia|].
  cbn [forallb] in Hn. apply andb_true_iff in Hn as [Hc _]. change (char_at 0 (c :: name)) with c in Hd.
  destruct (ident_char_false c Hc Hd) as (H1 & H2 & H3 & H4 & H5 & H6 & H7 & H8 & H9).
  unfold lexer_next. cbn [app]. rewrite skip_whitespace_none by done. cbv zeta. change (peek (Lex (c :: _) line)) with c.
  rewrite H3, H4, H5, H6, H7, H8, H9. cbn [l_rest l_line]. cbn [app] in Hi. rewrite Hi.
  by replace (255 <? length (c :: name))%nat with false by (symmetry; apply Nat.ltb_ge; lia).
Qed.

Lemma decimal_digits n : forall v, 0 <= v -> Forall (fun c => isdigit c = true) (decimal n v).
Proof.
  induction n as [|n IH]; intros v Hv; cbn [decimal]; [done|]. case_step; zbool.
  - constructor; [|done]. unfold isdigit, in_range. lia.
  - apply Forall_app. split; [apply IH; dlia|]. constructor; [|done].
    unfold isdigit, in_range. pose proof (Z.mod_pos_bound v 10). lia.
Qed.

Lemma lex_dec_print n : forall v r, 0 <= v < 2 ^ 63 -> v < 10 ^ Z.of_nat n -> lex_dec (decimal n v ++ r) 0 = lex_dec r v.
Proof.
  assert (Hi : forall x, 0 <= x < 2 ^ 63 -> i64 x = x) by (intros; unfold i64; rewrite Z.mod_small; lia).
  induction n as [|n IH]; intros v r Hv Hn; [change (10 ^ Z.of_nat 0) with 1 in Hn; by replace v with 0 by lia|]. cbn [decimal]. case_step; zbool.
  - cbn [app lex_dec]. replace (isdigit (48 + v)) with true by (unfold isdigit, in_range; lia). f_equal. rewrite Hi; lia.
  - rewrite <- app_assoc, IH; [|dlia|rewrite Nat2Z.inj_succ, Z.pow_succ_r in Hn by lia; dlia].
    cbn [app lex_dec]. pose proof (Z.mod_pos_bound v 10 ltac:(lia)).
    replace (isdigit (48 + v mod 10)) with true by (unfold isdigit, in_range; lia).
    f_equal. rewrite Hi; dlia.
Qed.

Lemma lexer_next_number v r line :
  0 <= v < 2 ^ 63 -> lexer_next (Lex (decimal 19 v ++ 32 :: r) line) = Some (Tok TOK_NUMBER v [] 0, Lex (32 :: r) line).
Proof.
  intros Hv. pose proof (lex_dec_print 19 v (32 :: r) Hv ltac:(lia)) as Hd. pose proof (decimal_digits 19 v ltac:(lia)) as Hf.
  assert (Hne : decimal 19 v <> []) by (cbn [decimal]; case_step; [discriminate|]; intros E; by apply app_eq_nil in E as [_ ?]).
  destruct (decimal 19 v) as [|c ds]; [done|]. clear Hne. apply Forall_cons in Hf as [Hc Hf]. cbn [app] in *.
  destruct (digit_false c Hc) as (H1 & H2 & H3 & H4 & H5 & H6 & H7 & _).
  unfold lexer_next. rewrite skip_whitespace_none by done. cbv zeta. change (peek (Lex (c :: _) line)) with c.
  rewrite H3, H4, H5, H6, H7, Hc. unfold lex_number.
  assert (Hx : (peek2 (Lex (c :: ds ++ 32 :: r) line) =? 120) || (peek2 (Lex (c :: ds ++ 32 :: r) line) =? 88) = false).
  { destruct ds as [|d ds]; [done|]. apply Forall_cons in Hf as [Hd' _]. by apply digit_false. }
  rewrite Hx, andb_false_r. cbn [l_rest]. by rewrite Hd.
Qed.

Lemma lex_string_print s : forall acc r line,
  forallb (in_range 0 255) s = true -> (length acc + length s <= 254)%nat ->
  lex_string (concat (print_char <$> s) ++ 34 :: r) line acc = (acc ++ s, Lex r line).
Proof.
  induction s as [|c s IH]; intros acc r line Hs Hl; cbn [fmap list_fmap concat app lex_string forallb] in *.
  - by rewrite app_nil_r.
  - apply andb_true_iff in Hs as [Hc Hs]. cbn [length] in Hl.
    assert (Hk : forall ch, (if (length acc <? 254)%nat then acc ++ [ch] else acc) = acc ++ [ch]).
    { intros ch. by replace (length acc <? 254)%nat with true by (symmetry; apply Nat.ltb_lt; lia). }
    specialize (IH (acc ++ [c]) r line Hs). rewrite length_app in IH. specialize (IH ltac:(cbn; lia)). rewrite <- app_assoc in IH.
    rewrite <- app_assoc. set (X := concat (print_char <$> s) ++ 34 :: r) in *. unfold print_char. repeat case_step; zbool; subst; cbn [app lex_string].
    + by rewrite Hk.
    + by rewrite Hk.
    + assert (Hcc : c = 34 \/ c = 92) by lia. destruct Hcc as [-> | ->]; cbn [Z.eqb Pos.eqb]; cbv zeta; by rewrite Hk.
    + rewrite (proj2 (Z.eqb_neq c 34)), (proj2 (Z.eqb_neq c 10)), (proj2 (Z.eqb_neq c 92)) by lia. cbv zeta. rewrite Hk.
      by destruct X.
Qed.

Lemma lexer_next_print line t r :
  good_token line t = true -> lexer_next (Lex (print_token t ++ 32 :: r) line) = Some (t, Lex (32 :: r) line).
Proof.
  destruct t as [ty v s k]. unfold good_token, print_token. cbn [t_type t_value t_text t_line].
  destruct ty; cbv match; try discriminate; intros Hg;
    try solve [cbn -[str_eqb] in Hg; zbool; match goal with E : str_eqb _ _ = true |- _ => apply str_eqb_eq in E end; subst; reflexivity].
  - (* a name *)
    unfold in_range in Hg. zbool. subst. destruct (tok_eqb_spec (keyword s) TOK_IDENT) as [Hk|]; [|done].
    rewrite lexer_next_ident; [|done|by apply negb_true_iff|lia]. by rewrite Hk.
  - (* a number *)
    zbool. unfold in_range in *. zbool. subst. rewrite lexer_next_number by lia.
    match goal with E : str_eqb _ _ = true |- _ => apply str_eqb_eq in E; by subst end.
  - (* a string *)
    zbool. subst. match goal with E : (_ <=? _)%nat = true |- _ => apply Nat.leb_le in E end.
    pose proof (lex_string_print s [] (32 :: r) line ltac:(done) ltac:(done)) as E. cbn [app] in *. rewrite <- app_assoc. cbn [app].
    set (X := concat _ ++ _) in *. change (lexer_next (Lex (34 :: X) line)) with
      (let '(str, lex) := lex_string X line [] in Some (Tok TOK_STRING 0 str 0, lex)). by rewrite E.
Qed.

(** The lexer is at the start of the printed tokens [ts], or at the space before them. *)
Definition printed (line : Z) (lex : Lexer) (ts : list Token) : Prop :=
  l_line lex = line /\ (l_rest lex = print_tokens ts \/ l_rest lex = 32 :: print_tokens ts) /\
  Forall (fun t => good_token line t = true) ts.

Lemma printed_next line lex t ts :
  printed line lex (t :: ts) -> exists lex', lexer_next lex = Some (t, lex') /\ printed line lex' ts.
Proof.
  destruct lex as [r k]. intros (Hl & Hr & Hg). apply Forall_cons in Hg as [Ht Hg]. cbn in Hl. subst k.
  exists (Lex (32 :: print_tokens ts) line). split; [|split; [done|split; [by right|done]]].
  pose proof (lexer_next_print line t (print_tokens ts) Ht) as E.
  assert (Hp : print_tokens (t :: ts) = print_token t ++ 32 :: print_tokens ts) by (unfold print_tokens; cbn; by rewrite <- app_assoc).
  cbn [l_rest] in Hr. rewrite Hp in Hr. destruct Hr as [-> | ->]; [done|]. by rewrite lexer_next_blank.
Qed.

Lemma printed_end line lex :
  printed line lex [] -> exists lex', lexer_next lex = Some (make_token TOK_EOF, lex') /\ printed line lex' [].
Proof.
  destruct lex as [r k]. intros (Hl & Hr & _). cbn in Hl, Hr. subst k. exists (Lex [] line).
  split; [|split; [done|split; [by left|done]]]. by destruct Hr as [-> | ->].
Qed.

(** Any sequence of tokens, printed with the names [token_type_name] gives them and one
    space behind each, is read back by [lexer_next] as it was: names, numbers of 63 bits,
    strings of any characters (with escapes), keywords and operators. *)
Theorem lex_print_roundtrip (ts : list Token) :
  Forall (fun t => good_token 1 t = true) ts ->
  lex_all (S (length ts)) (lexer_init (print_tokens ts)) = Some ts.
Proof.
  intros Hg. assert (Hp : printed 1 (lexer_init (print_tokens ts)) ts) by (split; [done|]; split; [by left|done]).
  revert Hp. generalize (lexer_init (print_tokens ts)). clear Hg.
  induction ts as [|t ts IH]; intros lex Hp; cbn [length]; rewrite lex_all_S.
  - destruct (printed_end _ _ Hp) as (lex' & -> & _). done.
  - destruct (printed_next _ _ _ _ Hp) as (lex' & -> & Hp').
    destruct (tok_eqb_spec (t_type t) TOK_EOF) as [E|_]; [|by rewrite (IH _ Hp')].
    destruct Hp as (_ & _ & Hg). apply Forall_cons in Hg as [Hg _]. unfold good_token in Hg. by rewrite E in Hg.
Qed.

Lemma lex_print_roundtrip_witness :
  let ts := [Tok TOK_INT 0 (text "int") 1; Tok TOK_IDENT 0 (text "x") 1; make_token TOK_PLUS_EQ; Tok TOK_NUMBER 42 [] 0;
             Tok TOK_STRING 0 [34; 10; 0] 0; make_token TOK_SEMICOLON] in
  print_tokens ts = text "int x += 42 " ++ [34; 92; 34; 92; 110; 92; 48; 34; 32; 59; 32] /\
  lex_all 7 (lexer_init (print_tokens ts)) = Some ts.
Proof.
  intros ts. split; [vm_compute; reflexivity|]. apply (lex_print_roundtrip ts). repeat (constructor; [vm_compute; reflexivity|]). constructor.
Defined.
