(* ===== verification/CcParse.v ===== *)
(** * The parser of the C compiler: apps/cc/ast.c, parser.c

    A tree is a value of [ASTNode], a null pointer [NULL]; the fields a constructor has are
    those the code of ast.c sets.  A parser is the lexer, the current token and the error.
    [Fault] is an access outside of a buffer: in the lexer, for a seventeenth argument or
    parameter, or for a sixty-fifth function.  [Fuel] is shown not to occur. *)

From stdpp Require Import strings.
From S2P Require Import Prelude CString Vfs CcLex.

(** ** Trees (ast.h, ast.c) *)

Inductive ASTNode :=
| NULL
| AST_PROGRAM (children : list ASTNode)
| AST_FUNC_DEF (name : list Z) (params : list (list Z)) (body : ASTNode)
| AST_VAR_DECL (name : list Z) (left : ASTNode)
| AST_ASSIGN (name : option (list Z)) (left right : ASTNode)
| AST_BINARY (op : Z) (left right : ASTNode)
| AST_UNARY (op : Z) (left : ASTNode)
| AST_NUMBER (num_val : Z)
| AST_IDENT (name : list Z)
| AST_STRING (name : list Z)
| AST_RETURN (left : ASTNode)
| AST_IF (cond then_body else_body : ASTNode)
| AST_WHILE (cond body : ASTNode)
| AST_FOR (init cond step body : ASTNode)
| AST_BREAK
| AST_CONTINUE
| AST_BLOCK (children : list ASTNode)
| AST_CALL (name : list Z) (children : list ASTNode)
| AST_EXPR_STMT (left : ASTNode)
| AST_INDEX (left right : ASTNode)
| AST_MEMBER (left : ASTNode) (name : list Z) (op : Z)
| AST_ADDR (left : ASTNode)
| AST_DEREF (left : ASTNode)
| AST_SIZEOF (left : ASTNode)
| AST_GLOBAL_VAR (name : list Z) (left : ASTNode)
| AST_TYPE (type_size : Z).

Definition is_null (n : ASTNode) : bool := match n with NULL => true | _ => false end.

(** [strdup]: the characters before the first zero. *)
Fixpoint strdup_text (s : list Z) : list Z :=
  match s with
  | [] => []
  | c :: s => if c =? 0 then [] else c :: strdup_text s
  end.

Definition ast_number (val : Z) : ASTNode := AST_NUMBER val.
Definition ast_ident (name : list Z) : ASTNode := AST_IDENT (strdup_text name).
Definition ast_string (str : list Z) : ASTNode := AST_STRING (strdup_text str).
Definition ast_binary (op : Z) (left right : ASTNode) : ASTNode := AST_BINARY op left right.
Definition ast_unary (op : Z) (operand : ASTNode) : ASTNode := AST_UNARY op operand.
Definition ast_var_decl (name : list Z) (init : ASTNode) : ASTNode := AST_VAR_DECL (strdup_text name) init.
Definition ast_global_var (name : list Z) (init : ASTNode) : ASTNode := AST_GLOBAL_VAR (strdup_text name) init.
Definition ast_assign (name : list Z) (value : ASTNode) : ASTNode := AST_ASSIGN (Some (strdup_text name)) value NULL.
Definition ast_assign_expr (target value : ASTNode) : ASTNode := AST_ASSIGN None target value.
Definition ast_return (value : ASTNode) : ASTNode := AST_RETURN value.
Definition ast_if (cond then_body else_body : ASTNode) : ASTNode := AST_IF cond then_body else_body.
Definition ast_while (cond body : ASTNode) : ASTNode := AST_WHILE cond body.
Definition ast_for (init cond step body : ASTNode) : ASTNode := AST_FOR init cond step body.
Definition ast_break : ASTNode := AST_BREAK.
Definition ast_continue : ASTNode := AST_CONTINUE.
Definition ast_block : ASTNode := AST_BLOCK [].
Definition ast_block_add (block stmt : ASTNode) : ASTNode :=
  match block with
  | AST_BLOCK children => if (length children <? 64)%nat then AST_BLOCK (children ++ [stmt]) else block
  | _ => block
  end.
Definition ast_call (name : list Z) (args : list ASTNode) : ASTNode := AST_CALL (strdup_text name) args.
Definition ast_func_def (name : list Z) (params : list (list Z)) (body : ASTNode) : ASTNode :=
  AST_FUNC_DEF (strdup_text name) params body.
Definition ast_expr_stmt (expr : ASTNode) : ASTNode := AST_EXPR_STMT expr.
Definition ast_index (array index : ASTNode) : ASTNode := AST_INDEX array index.
Definition ast_member (object : ASTNode) (field : list Z) (op : Z) : ASTNode := AST_MEMBER object (strdup_text field) op.
Definition ast_addr (operand : ASTNode) : ASTNode := AST_ADDR operand.
Definition ast_deref (operand : ASTNode) : ASTNode := AST_DEREF operand.
Definition ast_sizeof (operand : ASTNode) : ASTNode := AST_SIZEOF operand.
Definition ast_type (size : Z) : ASTNode := AST_TYPE size.

(** The number of nodes, for inductions over trees. *)
Fixpoint node_size (e : ASTNode) : nat :=
  match e with
  | AST_PROGRAM l | AST_BLOCK l | AST_CALL _ l => S (sum_list (map node_size l))
  | AST_FUNC_DEF _ _ x | AST_VAR_DECL _ x | AST_UNARY _ x | AST_RETURN x | AST_EXPR_STMT x | AST_MEMBER x _ _ | AST_ADDR x
  | AST_DEREF x | AST_SIZEOF x | AST_GLOBAL_VAR _ x => S (node_size x)
  | AST_ASSIGN _ x y | AST_BINARY _ x y | AST_WHILE x y | AST_INDEX x y => S (node_size x + node_size y)
  | AST_IF x y z => S (node_size x + node_size y + node_size z)
  | AST_FOR x y z w => S (node_size x + node_size y + node_size z + node_size w)
  | _ => 1
  end%nat.

Lemma node_size_elem e l : e ∈ l -> (node_size e <= sum_list (map node_size l))%nat.
Proof. induction 1; cbn; lia. Qed.

(** ** The parser's state and its monad *)

Record Parser := { p_lex : Lexer; p_current : Token; p_error : option (Z * string) }.

Inductive result (A : Type) := Ok (a : A) | Fault | Fuel.
Arguments Ok {_} _. Arguments Fault {_}. Arguments Fuel {_}.

Definition parse (A : Type) : Type := Parser -> result (A * Parser).

Definition ret {A} (a : A) : parse A := fun p => Ok (a, p).
Definition bind {A B} (m : parse A) (k : A -> parse B) : parse B :=
  fun p => match m p with Ok (a, p') => k a p' | Fault => Fault | Fuel => Fuel end.
Definition out_of_fuel {A} : parse A := fun _ => Fuel.
Definition fault {A} : parse A := fun _ => Fault.

Declare Scope parse_scope.
Delimit Scope parse_scope with parse.
Notation "x <- m ;; k" := (bind m (fun x => k)) (at level 100, m at next level, right associativity) : parse_scope.
Notation "m ;;; k" := (bind m (fun _ => k)) (at level 100, right associativity) : parse_scope.
Local Open Scope parse_scope.

Definition current : parse TokenType := fun p => Ok (t_type (p_current p), p).
Definition token : parse Token := fun p => Ok (p_current p, p).
Definition had_error : parse bool := fun p => Ok (bool_decide (is_Some (p_error p)), p).

Definition parser_init (lex : Lexer) : result Parser :=
  match lexer_next lex with
  | Some (t, lex) => Ok {| p_lex := lex; p_current := t; p_error := None |}
  | None => Fault
  end.

(** The first error stays. *)
Definition parser_error (msg : string) : parse unit := fun p =>
  match p_error p with
  | None => Ok (tt, {| p_lex := p_lex p; p_current := p_current p; p_error := Some (t_line (p_current p), msg) |})
  | Some _ => Ok (tt, p)
  end.

Definition advance_token : parse unit := fun p =>
  match lexer_next (p_lex p) with
  | Some (t, lex) => Ok (tt, {| p_lex := lex; p_current := t; p_error := p_error p |})
  | None => Fault
  end.

(** [match] *)
Definition match_token (type : TokenType) : parse bool :=
  t <- current ;; if tok_eqb t type then advance_token ;;; ret true else ret false.

Definition expect (type : TokenType) (msg : string) : parse unit :=
  t <- current ;; if tok_eqb t type then advance_token else parser_error msg.

Definition is_type_token (t : TokenType) : bool :=
  tok_eqb t TOK_INT || tok_eqb t TOK_VOID || tok_eqb t TOK_CHAR || tok_eqb t TOK_LONG || tok_eqb t TOK_SHORT ||
  tok_eqb t TOK_UNSIGNED.

Definition skip_type_specifier : parse unit :=
  t <- current ;; (if tok_eqb t TOK_UNSIGNED then advance_token else ret tt) ;;;
  t <- current ;; if is_type_token t then advance_token else ret tt.

(** [while (p->current.type == TOK_STAR) advance_token(p);] *)
Fixpoint skip_stars (fuel : nat) : parse unit :=
  match fuel with
  | O => out_of_fuel
  | S fuel => t <- current ;; if tok_eqb t TOK_STAR then advance_token ;;; skip_stars fuel else ret tt
  end.

(** ** Expressions

    [expr] is the call of [parse_expr]. *)

Fixpoint parse_args (fuel : nat) (expr : parse ASTNode) (args : list ASTNode) : parse (list ASTNode) :=
  match fuel with
  | O => out_of_fuel
  | S fuel =>
      e <- had_error ;;
      if e : bool then ret args else
      a <- expr ;;
      if (16 <=? length args)%nat then fault else
      let args := args ++ [a] in
      e <- had_error ;;
      if e : bool then ret args else
      b <- match_token TOK_COMMA ;;
      if b : bool then parse_args fuel expr args else ret args
  end.

Definition parse_primary (fuel : nat) (expr : parse ASTNode) : parse ASTNode :=
  e <- had_error ;;
  if e : bool then ret NULL else
  t <- token ;;
  if tok_eqb (t_type t) TOK_NUMBER then advance_token ;;; ret (ast_number (t_value t)) else
  if tok_eqb (t_type t) TOK_STRING then advance_token ;;; ret (ast_string (t_text t)) else
  if tok_eqb (t_type t) TOK_IDENT then
    advance_token ;;;
    b <- match_token TOK_LPAREN ;;
    if b : bool then
      c <- current ;;
      args <- (if tok_eqb c TOK_RPAREN then ret [] else parse_args fuel expr []) ;;
      expect TOK_RPAREN "expected ')' after arguments" ;;;
      ret (ast_call (t_text t) args)
    else ret (ast_ident (t_text t))
  else
  b <- match_token TOK_LPAREN ;;
  if b : bool then
    x <- expr ;; expect TOK_RPAREN "expected ')'" ;;; ret x
  else
    parser_error "expected expression" ;;; ret NULL.

Fixpoint postfix_loop (fuel : nat) (expr : parse ASTNode) (node : ASTNode) : parse ASTNode :=
  match fuel with
  | O => out_of_fuel
  | S fuel =>
      e <- had_error ;;
      if e : bool then ret node else
      b <- match_token TOK_LBRACKET ;;
      if b : bool then
        index <- expr ;; expect TOK_RBRACKET "expected ']'" ;;; postfix_loop fuel expr (ast_index node index)
      else
      b <- match_token TOK_DOT ;;
      if b : bool then
        t <- token ;;
        if tok_eqb (t_type t) TOK_IDENT then
          advance_token ;;; postfix_loop fuel expr (ast_member node (t_text t) (tok_code TOK_DOT))
        else parser_error "expected field name after '.'" ;;; ret node
      else
      b <- match_token TOK_ARROW ;;
      if b : bool then
        t <- token ;;
        if tok_eqb (t_type t) TOK_IDENT then
          advance_token ;;; postfix_loop fuel expr (ast_member node (t_text t) (tok_code TOK_ARROW))
        else parser_error "expected field name after '->'" ;;; ret node
      else ret node
  end.

Definition parse_postfix (fuel : nat) (expr : parse ASTNode) : parse ASTNode :=
  node <- parse_primary fuel expr ;;
  if is_null node then ret NULL else postfix_loop fuel expr node.

Fixpoint parse_unary (fuel : nat) (postfix : parse ASTNode) : parse ASTNode :=
  match fuel with
  | O => out_of_fuel
  | S fuel =>
      e <- had_error ;;
      if e : bool then ret NULL else
      b <- match_token TOK_MINUS ;;
      if b : bool then x <- parse_unary fuel postfix ;; ret (ast_unary 45 x) else
      b <- match_token TOK_NOT ;;
      if b : bool then x <- parse_unary fuel postfix ;; ret (ast_unary 33 x) else
      b <- match_token TOK_AMP ;;
      if b : bool then x <- parse_unary fuel postfix ;; ret (ast_addr x) else
      b <- match_token TOK_STAR ;;
      if b : bool then x <- parse_unary fuel postfix ;; ret (ast_deref x) else
      postfix
  end.

(** The shape of the six levels of binary operators: [ops] gives the operator of a token
    of the level, [next] parses an operand. *)
Fixpoint binary_loop (fuel : nat) (ops : TokenType -> option Z) (next : parse ASTNode) (left : ASTNode) : parse ASTNode :=
  match fuel with
  | O => out_of_fuel
  | S fuel =>
      t <- current ;;
      match ops t with
      | None => ret left
      | Some op =>
          advance_token ;;;
          right <- next ;;
          let left := ast_binary op left right in
          e <- had_error ;;
          if e : bool then ret left else binary_loop fuel ops next left
      end
  end.

Definition binary_level (fuel : nat) (ops : TokenType -> option Z) (next : parse ASTNode) : parse ASTNode :=
  left <- next ;;
  e <- had_error ;;
  if e : bool then ret left else binary_loop fuel ops next left.

Definition mul_ops (t : TokenType) : option Z :=
  match t with TOK_STAR => Some 42 | TOK_SLASH => Some 47 | TOK_PERCENT => Some 37 | _ => None end.
Definition add_ops (t : TokenType) : option Z :=
  match t with TOK_PLUS => Some 43 | TOK_MINUS => Some 45 | _ => None end.
Definition rel_ops (t : TokenType) : option Z :=
  match t with TOK_LT | TOK_GT | TOK_LE | TOK_GE => Some (tok_code t) | _ => None end.
Definition eq_ops (t : TokenType) : option Z :=
  match t with TOK_EQ | TOK_NEQ => Some (tok_code t) | _ => None end.
Definition and_ops (t : TokenType) : option Z := match t with TOK_AND => Some (tok_code t) | _ => None end.
Definition or_ops (t : TokenType) : option Z := match t with TOK_OR => Some (tok_code t) | _ => None end.

Definition parse_multiplicative (fuel : nat) (expr : parse ASTNode) : parse ASTNode :=
  binary_level fuel mul_ops (parse_unary fuel (parse_postfix fuel expr)).
Definition parse_additive (fuel : nat) (expr : parse ASTNode) : parse ASTNode :=
  binary_level fuel add_ops (parse_multiplicative fuel expr).
Definition parse_relational (fuel : nat) (expr : parse ASTNode) : parse ASTNode :=
  binary_level fuel rel_ops (parse_additive fuel expr).
Definition parse_equality (fuel : nat) (expr : parse ASTNode) : parse ASTNode :=
  binary_level fuel eq_ops (parse_relational fuel expr).
Definition parse_logic_and (fuel : nat) (expr : parse ASTNode) : parse ASTNode :=
  binary_level fuel and_ops (parse_equality fuel expr).
Definition parse_logic_or (fuel : nat) (expr : parse ASTNode) : parse ASTNode :=
  binary_level fuel or_ops (parse_logic_and fuel expr).

Definition compound_op (t : TokenType) : option Z :=
  match t with
  | TOK_PLUS_EQ => Some 43 | TOK_MINUS_EQ => Some 45 | TOK_STAR_EQ => Some 42 | TOK_SLASH_EQ => Some 47
  | _ => None
  end.

Fixpoint parse_assignment (fuel : nat) : parse ASTNode :=
  match fuel with
  | O => out_of_fuel
  | S n =>
      e <- had_error ;;
      if e : bool then ret NULL else
      left <- parse_logic_or fuel (parse_assignment n) ;;
      e <- had_error ;;
      if e : bool then ret left else
      t <- current ;;
      if tok_eqb t TOK_ASSIGN then
        advance_token ;;; value <- parse_assignment n ;; ret (ast_assign_expr left value)
      else match compound_op t with
      | Some op => advance_token ;;; value <- parse_assignment n ;; ret (ast_assign_expr left (ast_binary op left value))
      | None => ret left
      end
  end.

Definition parse_expr (fuel : nat) : parse ASTNode := parse_assignment fuel.

(** ** Statements

    [stmt] is the call of [parse_stmt]. *)

Definition parse_var_decl (fuel : nat) : parse ASTNode :=
  skip_type_specifier ;;;
  skip_stars fuel ;;;
  t <- token ;;
  if negb (tok_eqb (t_type t) TOK_IDENT) then parser_error "expected variable name" ;;; ret NULL else
  advance_token ;;;
  b <- match_token TOK_ASSIGN ;;
  init <- (if b : bool then parse_expr fuel else ret NULL) ;;
  expect TOK_SEMICOLON "expected ';'" ;;;
  ret (ast_var_decl (t_text t) init).

Definition parse_if (fuel : nat) (stmt : parse ASTNode) : parse ASTNode :=
  expect TOK_IF "expected 'if'" ;;;
  expect TOK_LPAREN "expected '('" ;;;
  cond <- parse_expr fuel ;;
  expect TOK_RPAREN "expected ')'" ;;;
  then_body <- stmt ;;
  b <- match_token TOK_ELSE ;;
  else_body <- (if b : bool then stmt else ret NULL) ;;
  ret (ast_if cond then_body else_body).

Definition parse_while (fuel : nat) (stmt : parse ASTNode) : parse ASTNode :=
  expect TOK_WHILE "expected 'while'" ;;;
  expect TOK_LPAREN "expected '('" ;;;
  cond <- parse_expr fuel ;;
  expect TOK_RPAREN "expected ')'" ;;;
  body <- stmt ;;
  ret (ast_while cond body).

(** The initialisation of a [for], with its semicolon. *)
Definition for_init (fuel : nat) : parse ASTNode :=
  t <- current ;;
  if tok_eqb t TOK_SEMICOLON then advance_token ;;; ret NULL
  else if is_type_token t then parse_var_decl fuel
  else expr <- parse_expr fuel ;; expect TOK_SEMICOLON "expected ';'" ;;; ret (ast_expr_stmt expr).

Definition parse_for (fuel : nat) (stmt : parse ASTNode) : parse ASTNode :=
  expect TOK_FOR "expected 'for'" ;;;
  expect TOK_LPAREN "expected '('" ;;;
  init <- for_init fuel ;;
  t <- current ;;
  cond <- (if tok_eqb t TOK_SEMICOLON then ret NULL else parse_expr fuel) ;;
  expect TOK_SEMICOLON "expected ';'" ;;;
  t <- current ;;
  step <- (if tok_eqb t TOK_RPAREN then ret NULL else parse_expr fuel) ;;
  expect TOK_RPAREN "expected ')'" ;;;
  body <- stmt ;;
  ret (ast_for init cond step body).

Definition parse_return (fuel : nat) : parse ASTNode :=
  expect TOK_RETURN "expected 'return'" ;;;
  t <- current ;;
  value <- (if tok_eqb t TOK_SEMICOLON then ret NULL else parse_expr fuel) ;;
  expect TOK_SEMICOLON "expected ';'" ;;;
  ret (ast_return value).

Definition parse_break : parse ASTNode :=
  expect TOK_BREAK "expected 'break'" ;;; expect TOK_SEMICOLON "expected ';'" ;;; ret ast_break.

Definition parse_continue : parse ASTNode :=
  expect TOK_CONTINUE "expected 'continue'" ;;; expect TOK_SEMICOLON "expected ';'" ;;; ret ast_continue.

Fixpoint block_loop (fuel : nat) (stmt : parse ASTNode) (block : ASTNode) : parse ASTNode :=
  match fuel with
  | O => out_of_fuel
  | S fuel =>
      t <- current ;;
      if tok_eqb t TOK_RBRACE || tok_eqb t TOK_EOF then ret block else
      s <- stmt ;;
      let block := if is_null s then block else ast_block_add block s in
      e <- had_error ;;
      if e : bool then ret block else block_loop fuel stmt block
  end.

Definition parse_block (fuel : nat) (stmt : parse ASTNode) : parse ASTNode :=
  expect TOK_LBRACE "expected '{'" ;;;
  block <- block_loop fuel stmt ast_block ;;
  expect TOK_RBRACE "expected '}'" ;;;
  ret block.

Definition parse_expr_stmt (fuel : nat) : parse ASTNode :=
  expr <- parse_expr fuel ;; expect TOK_SEMICOLON "expected ';'" ;;; ret (ast_expr_stmt expr).

Fixpoint parse_stmt (fuel : nat) : parse ASTNode :=
  match fuel with
  | O => out_of_fuel
  | S n =>
      e <- had_error ;;
      if e : bool then ret NULL else
      t <- current ;;
      if is_type_token t then parse_var_decl fuel
      else if tok_eqb t TOK_IF then parse_if fuel (parse_stmt n)
      else if tok_eqb t TOK_WHILE then parse_while fuel (parse_stmt n)
      else if tok_eqb t TOK_FOR then parse_for fuel (parse_stmt n)
      else if tok_eqb t TOK_RETURN then parse_return fuel
      else if tok_eqb t TOK_BREAK then parse_break
      else if tok_eqb t TOK_CONTINUE then parse_continue
      else if tok_eqb t TOK_LBRACE then parse_block fuel (parse_stmt n)
      else if tok_eqb t TOK_SEMICOLON then advance_token ;;; ret NULL
      else parse_expr_stmt fuel
  end.

(** ** Functions and programs *)

(** [None] where the code returns without a function. *)
Fixpoint params_loop (fuel : nat) (params : list (list Z)) : parse (option (list (list Z))) :=
  match fuel with
  | O => out_of_fuel
  | S n =>
      t <- current ;;
      if tok_eqb t TOK_VOID && (length params =? 0)%nat then
        advance_token ;;;
        t <- current ;;
        if tok_eqb t TOK_RPAREN then ret (Some params) else parser_error "expected ')' after void" ;;; ret None
      else
      skip_type_specifier ;;;
      skip_stars fuel ;;;
      t <- token ;;
      if negb (tok_eqb (t_type t) TOK_IDENT) then parser_error "expected parameter name" ;;; ret None else
      if (16 <=? length params)%nat then fault else
      let params := params ++ [strdup_text (t_text t)] in
      advance_token ;;;
      b <- match_token TOK_COMMA ;;
      if b : bool then params_loop n params else ret (Some params)
  end.

Definition parse_func_def (fuel : nat) : parse ASTNode :=
  skip_type_specifier ;;;
  skip_stars fuel ;;;
  t <- token ;;
  if negb (tok_eqb (t_type t) TOK_IDENT) then parser_error "expected function name" ;;; ret NULL else
  advance_token ;;;
  expect TOK_LPAREN "expected '('" ;;;
  c <- current ;;
  params <- (if tok_eqb c TOK_RPAREN then ret (Some []) else params_loop fuel []) ;;
  match params with
  | None => ret NULL
  | Some params =>
      expect TOK_RPAREN "expected ')'" ;;;
      body <- parse_block fuel (parse_stmt fuel) ;;
      ret (ast_func_def (t_text t) params body)
  end.

Fixpoint program_loop (fuel : nat) (children : list ASTNode) : parse ASTNode :=
  match fuel with
  | O => out_of_fuel
  | S n =>
      t <- current ;;
      if tok_eqb t TOK_EOF then ret (AST_PROGRAM children) else
      let next children := e <- had_error ;; if e : bool then ret (AST_PROGRAM children) else program_loop n children in
      if is_type_token t then
        item <- parse_func_def fuel ;;
        if is_null item then next children
        else if (64 <=? length children)%nat then fault else next (children ++ [item])
      else if tok_eqb t TOK_SEMICOLON then advance_token ;;; next children
      else parser_error "expected declaration" ;;; ret (AST_PROGRAM children)
  end.

(** The characters left and the current token, which bound every loop. *)
Definition size (p : Parser) : nat :=
  length (l_rest (p_lex p)) + if decide (t_type (p_current p) = TOK_EOF) then 0 else 1.

Definition parser_parse : parse ASTNode := fun p => program_loop (S (size p)) [] p.

(** The front end as [main] calls it: the tree, or the error. *)
Definition front_end (src : list Z) : result (ASTNode * option (Z * string)) :=
  match parser_init (lexer_init src) with
  | Ok p => match parser_parse p with Ok (t, p) => Ok (t, p_error p) | Fault => Fault | Fuel => Fuel end
  | Fault => Fault
  | Fuel => Fuel
  end.

Example parse_demo :
  front_end (text "int f(int n) { if (n <= 1) return 1; return n * f(n - 1); }") =
  Ok (AST_PROGRAM [AST_FUNC_DEF (text "f") [text "n"] (AST_BLOCK [
        AST_IF (AST_BINARY (tok_code TOK_LE) (AST_IDENT (text "n")) (AST_NUMBER 1)) (AST_RETURN (AST_NUMBER 1)) NULL;
        AST_RETURN (AST_BINARY 42 (AST_IDENT (text "n")) (AST_CALL (text "f") [AST_BINARY 45 (AST_IDENT (text "n")) (AST_NUMBER 1)]))])],
      None).
Proof. vm_compute. reflexivity. Qed.

(** The line of an error is the line of the current token, which only names and keywords
    have: here it is 0. *)
Example error_line : front_end (text "int main() { return 1 + ; }") =
  Ok (AST_PROGRAM [AST_FUNC_DEF (text "main") [] (AST_BLOCK [AST_RETURN (AST_BINARY 43 (AST_NUMBER 1) NULL)])],
      Some (0, "expected expression"%string)).
Proof. vm_compute. reflexivity. Qed.

(** ** Termination

    [wp m p Q]: [m] does not run out of fuel at [p], and [Q] holds of its result unless it
    leaves a buffer. *)

Definition wp {A} (m : parse A) (p : Parser) (Q : A -> Parser -> Prop) : Prop :=
  match m p with Ok (a, p') => Q a p' | Fault => True | Fuel => False end.

(** 1 after an error. *)
Definition flag (p : Parser) : nat := if p_error p then 1 else 0.

Lemma flag_le p : (flag p <= 1)%nat.
Proof. unfold flag. destruct (p_error p); lia. Qed.

(** Nothing is put back and an error stays; and besides a character is consumed or there is an error. *)
Definition onward (p p' : Parser) : Prop := (size p' <= size p /\ flag p <= flag p' <= 1)%nat.
Definition progress (p p' : Parser) : Prop := (onward p p' /\ (size p' < size p \/ flag p' = 1))%nat.

Section wp.
Context {A : Type}.
Implicit Types (Q R : A -> Parser -> Prop) (p : Parser).

Lemma wp_mono (m : parse A) p Q R : wp m p Q -> (forall a p', Q a p' -> R a p') -> wp m p R.
Proof. unfold wp. destruct (m p) as [[a p']| |]; auto. Qed.

Lemma wp_ret a p Q : Q a p -> wp (ret a) p Q.
Proof. done. Qed.

Lemma wp_fault p Q : wp fault p Q.
Proof. done. Qed.

Lemma wp_bind {B} (m : parse B) (k : B -> parse A) p Q : wp m p (fun b p' => wp (k b) p' Q) -> wp (bind m k) p Q.
Proof. unfold wp, bind. destruct (m p) as [[b p']| |]; auto. Qed.
End wp.

Lemma wp_current p Q : Q (t_type (p_current p)) p -> wp current p Q.
Proof. done. Qed.

Lemma wp_token p Q : Q (p_current p) p -> wp token p Q.
Proof. done. Qed.

Lemma wp_had_error p Q : (flag p = 1%nat -> Q true p) -> (flag p = 0%nat -> Q false p) -> wp had_error p Q.
Proof. unfold wp, had_error, flag. destruct (p_error p); auto. Qed.

Lemma wp_error msg p Q : (forall p', size p' = size p -> flag p' = 1%nat -> Q tt p') -> wp (parser_error msg) p Q.
Proof.
  intros HQ. unfold wp, parser_error. destruct (p_error p) eqn:E; apply HQ; try done. unfold flag. by rewrite E.
Qed.

Lemma wp_advance p Q :
  t_type (p_current p) <> TOK_EOF ->
  (forall p', (size p' < size p)%nat -> flag p' = flag p -> Q tt p') -> wp advance_token p Q.
Proof.
  intros Hc HQ. unfold wp, advance_token. pose proof (lexer_next_spec (p_lex p)) as Hs.
  destruct (lexer_next (p_lex p)) as [[t lex]|]; [|done]. destruct Hs as (_ & _ & Hs & Ht).
  apply HQ; [|done]. unfold size. cbn [p_lex p_current]. rewrite (decide_False _ _ Hc). apply suffix_length in Hs.
  destruct (decide (t_type t = TOK_EOF)); lia.
Qed.

Lemma wp_match ty p Q :
  ty <> TOK_EOF ->
  (forall p', (size p' < size p)%nat -> flag p' = flag p -> Q true p') ->
  (t_type (p_current p) <> ty -> Q false p) -> wp (match_token ty) p Q.
Proof.
  intros Ht H1 H2. unfold match_token. apply wp_bind, wp_current.
  destruct (tok_eqb_spec (t_type (p_current p)) ty) as [E|E]; [|apply wp_ret; auto].
  apply wp_bind, wp_advance; [congruence|]. intros. apply wp_ret. auto.
Qed.

Lemma wp_expect ty msg p Q :
  ty <> TOK_EOF -> (forall p', progress p p' -> Q tt p') -> wp (expect ty msg) p Q.
Proof.
  intros Ht HQ. pose proof (flag_le p). unfold expect. apply wp_bind, wp_current.
  destruct (tok_eqb_spec (t_type (p_current p)) ty) as [E|E]; [apply wp_advance; [congruence|]|apply wp_error];
    intros p' ? ?; apply HQ; unfold progress, onward; lia.
Qed.

(** [m] makes progress from every state of less than [n]. *)
Definition good {A} (n : nat) (m : parse A) : Prop :=
  forall p, (size p < n)%nat -> wp m p (fun _ p' => progress p p').

Lemma wp_good {A} n (m : parse A) p Q :
  good n m -> (size p < n)%nat -> (forall a p', progress p p' -> Q a p') -> wp m p Q.
Proof. intros Hg Hs HQ. eapply wp_mono; [by apply Hg|]. done. Qed.

Ltac wp_lia :=
  unfold progress, onward in *;
  repeat match goal with p : Parser |- _ => lazymatch goal with H : (flag p <= 1)%nat |- _ => fail | _ => pose proof (flag_le p) end end; lia.

Lemma tok_eqb_true a b : tok_eqb a b = true -> a = b.
Proof. by destruct (tok_eqb_spec a b). Qed.

Lemma type_token_not_eof t : is_type_token t = true -> t <> TOK_EOF.
Proof. by intros ? ->. Qed.

Ltac not_eof :=
  match goal with
  | H : tok_eqb ?t _ = true |- ?t <> _ => apply tok_eqb_true in H; rewrite H; discriminate
  | H : negb (tok_eqb ?t _) = false |- ?t <> _ => apply negb_false_iff, tok_eqb_true in H; rewrite H; discriminate
  | H : tok_eqb ?t _ && _ = true |- ?t <> _ => apply andb_true_iff in H as [H _]; apply tok_eqb_true in H; rewrite H; discriminate
  | H : is_type_token ?t = true |- ?t <> _ => by apply type_token_not_eof
  end.

(** One step of the code; calls of parsers are left to the lemmas about them. *)
Ltac wp_step :=
  lazymatch goal with
  | |- wp (bind _ _) _ _ => apply wp_bind
  | |- wp (ret _) _ _ => apply wp_ret
  | |- wp fault _ _ => apply wp_fault
  | |- wp had_error _ _ => apply wp_had_error; intros ?
  | |- wp current _ _ => apply wp_current
  | |- wp token _ _ => apply wp_token
  | |- wp (parser_error _) _ _ => apply wp_error; intros ? ? ?
  | |- wp (match_token _) _ _ => apply wp_match; [discriminate|intros ? ? ?|intros ?]
  | |- wp (expect _ _) _ _ => apply wp_expect; [discriminate|intros ? ?]
  | |- wp advance_token _ _ => apply wp_advance; [first [done|not_eof]|intros ? ? ?]
  | |- wp (if ?b then _ else _) _ _ => destruct b eqn:?
  end; cbv beta.
Ltac wp_steps := repeat wp_step.

Lemma skip_stars_wp n : forall p Q, (size p < n)%nat -> (forall p', onward p p' -> Q tt p') -> wp (skip_stars n) p Q.
Proof.
  induction n as [|n IH]; intros p Q Hp HQ; [lia|]. cbn [skip_stars]. wp_steps.
  - apply IH; [wp_lia|]. intros p2 ?. apply HQ. wp_lia.
  - apply HQ. wp_lia.
Qed.

Lemma parse_args_wp n expr k : forall args p Q,
  good n expr -> (size p < n)%nat -> (size p < k)%nat -> (forall l p', onward p p' -> Q l p') -> wp (parse_args k expr args) p Q.
Proof.
  induction k as [|k IH]; intros args p Q He Hn Hk HQ; [lia|]. cbn [parse_args]. wp_steps; try (apply HQ; wp_lia).
  eapply wp_good; [done..|]. intros a p1 H1. cbv zeta. wp_steps; try (apply HQ; wp_lia).
  apply IH; [done|wp_lia..|]. intros l p3 ?. apply HQ. wp_lia.
Qed.

Lemma parse_primary_good n expr : good n expr -> good (S n) (parse_primary (S n) expr).
Proof.
  intros He p Hp. unfold parse_primary. wp_steps; try wp_lia.
  - eapply (parse_args_wp n); [done|wp_lia..|]. intros. wp_steps. wp_lia.
  - eapply wp_good; [done|wp_lia|]. intros. wp_steps. wp_lia.
Qed.

Lemma postfix_loop_wp n expr k : forall node p Q,
  good n expr -> (size p < S n)%nat -> (size p < k)%nat -> (forall a p', onward p p' -> Q a p') -> wp (postfix_loop k expr node) p Q.
Proof.
  induction k as [|k IH]; intros node p Q He Hn Hk HQ; [lia|]. cbn [postfix_loop]. wp_steps; try (apply HQ; wp_lia).
  - eapply wp_good; [done|wp_lia|]. intros a p2 ?. wp_steps. apply IH; [done|wp_lia..|]. intros. apply HQ. wp_lia.
  - apply IH; [done|wp_lia..|]. intros. apply HQ. wp_lia.
  - apply IH; [done|wp_lia..|]. intros. apply HQ. wp_lia.
Qed.

Lemma parse_postfix_good n expr : good n expr -> good (S n) (parse_postfix (S n) expr).
Proof.
  intros He p Hp. unfold parse_postfix. wp_step. eapply wp_good; [by apply parse_primary_good|done|].
  intros node p1 H1. wp_steps; [done|]. eapply (postfix_loop_wp n); [done|wp_lia..|]. intros. wp_lia.
Qed.

Lemma parse_unary_good n postfix k : forall p, good n postfix -> (size p < n)%nat -> (size p < k)%nat ->
  wp (parse_unary k postfix) p (fun _ p' => progress p p').
Proof.
  induction k as [|k IH]; intros p Hg Hn Hk; [lia|]. cbn [parse_unary].
  assert (Hr : forall (f : ASTNode -> ASTNode) p1, (size p1 < size p)%nat -> flag p1 = flag p ->
             wp (parse_unary k postfix) p1 (fun x p2 => wp (ret (f x)) p2 (fun _ p' => progress p p'))).
  { intros f p1 H1 H2. eapply wp_mono; [apply IH; [done|lia..]|]. intros a p2 H3. wp_steps. wp_lia. }
  wp_steps; try (apply Hr; lia); [wp_lia|]. by apply Hg.
Qed.

Lemma binary_loop_wp n ops next k : (forall t op, ops t = Some op -> t <> TOK_EOF) -> forall left p Q,
  good n next -> (size p < n)%nat -> (size p < k)%nat -> (forall a p', onward p p' -> Q a p') -> wp (binary_loop k ops next left) p Q.
Proof.
  intros Ho. induction k as [|k IH]; intros left p Q He Hn Hk HQ; [lia|]. cbn [binary_loop]. do 2 wp_step.
  destruct (ops (t_type (p_current p))) as [op|] eqn:E; [|wp_steps; apply HQ; wp_lia].
  wp_step. apply wp_advance; [by eapply Ho|]. intros p1 ? ?. wp_step. eapply wp_good; [done|wp_lia|]. intros a p2 ?. cbv zeta.
  wp_steps; [apply HQ; wp_lia|]. apply IH; [done|wp_lia..|]. intros. apply HQ. wp_lia.
Qed.

Lemma binary_level_good n ops next :
  (forall t op, ops t = Some op -> t <> TOK_EOF) -> good n next -> good n (binary_level n ops next).
Proof.
  intros Ho Hn p Hp. unfold binary_level. wp_step. eapply wp_good; [done|done|]. intros a p1 H1.
  wp_steps; [done|]. eapply (binary_loop_wp n); [done|done|wp_lia..|]. intros. wp_lia.
Qed.

Lemma parse_logic_or_good n expr : good n expr -> good (S n) (parse_logic_or (S n) expr).
Proof.
  intros He. unfold parse_logic_or, parse_logic_and, parse_equality, parse_relational, parse_additive, parse_multiplicative.
  do 6 (apply binary_level_good; [by intros []|]). intros p Hp.
  apply (parse_unary_good (S n)); [by apply parse_postfix_good|done..].
Qed.

Lemma parse_assignment_good n : good n (parse_assignment n).
Proof.
  induction n as [|n IH]; intros p Hp; [lia|]. cbn [parse_assignment]. wp_steps; [wp_lia|].
  eapply wp_good; [by apply parse_logic_or_good|done|]. intros left p1 H1.
  assert (Hr : forall (f : ASTNode -> ASTNode) p2, (size p2 < size p1)%nat -> flag p2 = flag p1 ->
             wp (parse_assignment n) p2 (fun x p3 => wp (ret (f x)) p3 (fun _ p' => progress p p'))).
  { intros f p2 ? ?. eapply wp_good; [apply IH|wp_lia|]. intros a p3 H3. wp_steps. wp_lia. }
  wp_steps; [wp_lia|by apply Hr|]. destruct (compound_op _) as [op|] eqn:Eo; [|wp_steps; wp_lia].
  wp_step. apply wp_advance; [by intros E; rewrite E in Eo|]. intros p2 ? ?. wp_steps. by apply Hr.
Qed.

Lemma parse_expr_good n : good n (parse_expr n).
Proof. apply parse_assignment_good. Qed.

Lemma skip_type_wp p Q : (forall p', onward p p' -> Q tt p') -> wp skip_type_specifier p Q.
Proof. intros HQ. unfold skip_type_specifier. wp_steps; apply HQ; wp_lia. Qed.

Ltac wp_expr := eapply wp_good; [apply parse_expr_good|wp_lia|intros ? ? ?].

Lemma parse_var_decl_good n : good n (parse_var_decl n).
Proof.
  intros p Hp. unfold parse_var_decl. wp_step. apply skip_type_wp. intros p1 ?. wp_step.
  apply skip_stars_wp; [wp_lia|]. intros p2 ?. wp_steps; [wp_lia| |wp_lia]. wp_expr. wp_steps. wp_lia.
Qed.

Section statements.
Context (n : nat) (stmt : parse ASTNode) (Hs : good n stmt).

Ltac wp_stmt := let a := fresh "a" in eapply wp_good; [exact Hs|wp_lia|intros a ? ?].

(** A statement that starts with a keyword. *)
Definition begins (ty : TokenType) (m : parse ASTNode) : Prop :=
  forall p, (size p < S n)%nat -> flag p = 0%nat -> t_type (p_current p) = ty -> wp m p (fun _ p' => progress p p').

Lemma wp_expect_first ty msg p Q :
  t_type (p_current p) = ty -> ty <> TOK_EOF ->
  (forall p', (size p' < size p)%nat -> flag p' = flag p -> Q tt p') -> wp (expect ty msg) p Q.
Proof.
  intros E Ht HQ. unfold expect. apply wp_bind, wp_current. rewrite E, tok_eqb_refl. apply wp_advance; [congruence|done].
Qed.

Lemma parse_if_begins : begins TOK_IF (parse_if (S n) stmt).
Proof.
  intros p Hp Hf Hc. unfold parse_if. wp_step. apply wp_expect_first; [done|done|]. intros p1 ? ?.
  wp_steps. wp_expr. wp_steps. wp_stmt. wp_steps; [|wp_lia]. wp_stmt. wp_steps. wp_lia.
Qed.

Lemma parse_while_begins : begins TOK_WHILE (parse_while (S n) stmt).
Proof.
  intros p Hp Hf Hc. unfold parse_while. wp_step. apply wp_expect_first; [done|done|]. intros p1 ? ?.
  wp_steps. wp_expr. wp_steps. wp_stmt. wp_steps. wp_lia.
Qed.

Lemma for_init_good : good (S n) (for_init (S n)).
Proof.
  intros p Hp. unfold for_init. wp_steps; [wp_lia| |].
  - by apply parse_var_decl_good.
  - wp_expr. wp_steps. wp_lia.
Qed.

Lemma parse_for_begins : begins TOK_FOR (parse_for (S n) stmt).
Proof.
  intros p Hp Hf Hc. unfold parse_for. wp_step. apply wp_expect_first; [done|done|]. intros p1 ? ?.
  wp_steps. eapply wp_good; [apply for_init_good|wp_lia|]. intros init p3 ?. do 3 wp_step.
  assert (Hr : forall c p4, onward p3 p4 ->
    wp (expect TOK_SEMICOLON "expected ';'" ;;; t <- current ;;
        step <- (if tok_eqb t TOK_RPAREN then ret NULL else parse_expr (S n)) ;;
        expect TOK_RPAREN "expected ')'" ;;; body <- stmt ;; ret (ast_for init c step body)) p4 (fun _ p' => progress p p')).
  { intros c p4 ?. wp_steps; [|wp_expr; wp_steps]; wp_stmt; wp_steps; wp_lia. }
  wp_step; [apply wp_ret, Hr; wp_lia|]. wp_expr. apply Hr. wp_lia.
Qed.

Lemma parse_return_begins : begins TOK_RETURN (parse_return (S n)).
Proof.
  intros p Hp Hf Hc. unfold parse_return. wp_step. apply wp_expect_first; [done|done|]. intros p1 ? ?.
  wp_steps; [wp_lia|]. wp_expr. wp_steps. wp_lia.
Qed.

(** A block of at most 64 statements. *)
Definition small_block (b : ASTNode) : Prop := exists l, b = AST_BLOCK l /\ (length l <= 64)%nat.

Lemma small_empty : small_block ast_block.
Proof. exists []. split; [done|cbn; lia]. Qed.

Lemma block_add_small b s : small_block b -> small_block (ast_block_add b s).
Proof.
  intros (l & -> & Hl). unfold ast_block_add. destruct (Nat.ltb_spec (length l) 64); [|exists l; split; [reflexivity|lia]].
  eexists. split; [done|]. rewrite length_app. cbn. lia.
Qed.

Lemma block_loop_wp k : forall block p Q,
  small_block block -> (size p < n)%nat -> (size p < k)%nat -> (forall a p', onward p p' -> small_block a -> Q a p') ->
  wp (block_loop k stmt block) p Q.
Proof.
  induction k as [|k IH]; intros block p Q Hb Hn Hk HQ; [lia|]. cbn [block_loop]. wp_steps; [apply HQ; [wp_lia|done]|].
  wp_stmt. cbv zeta. set (b' := if is_null a then block else _).
  assert (Hb' : small_block b') by (subst b'; destruct (is_null a); [done|by apply block_add_small]).
  wp_steps; [apply HQ; [wp_lia|done]|]. apply IH; [done|wp_lia..|]. intros. apply HQ; [wp_lia|done].
Qed.

Lemma parse_block_wp k p Q :
  (size p < n)%nat -> (size p < k)%nat -> (forall a p', progress p p' -> small_block a -> Q a p') -> wp (parse_block k stmt) p Q.
Proof.
  intros Hn Hk HQ. unfold parse_block. wp_steps. apply block_loop_wp; [apply small_empty|wp_lia..|].
  intros. wp_steps. apply HQ; [wp_lia|done].
Qed.

Lemma parse_block_begins : begins TOK_LBRACE (parse_block (S n) stmt).
Proof.
  intros p Hp Hf Hc. unfold parse_block. wp_step. apply wp_expect_first; [done|done|]. intros p1 ? ?.
  wp_step. apply block_loop_wp; [apply small_empty|wp_lia..|]. intros. wp_steps. wp_lia.
Qed.
End statements.

Lemma parse_stmt_good n : good n (parse_stmt n).
Proof.
  induction n as [|n IH]; intros p Hp; [lia|]. cbn [parse_stmt]. wp_step. wp_step; [wp_steps; wp_lia|]. do 2 wp_step.
  repeat match goal with |- wp (if ?b then _ else _) _ _ => let E := fresh "E" in destruct b eqn:E; [try apply tok_eqb_true in E|] end.
  - by apply parse_var_decl_good.
  - by apply (parse_if_begins n).
  - by apply (parse_while_begins n).
  - by apply (parse_for_begins n).
  - by apply (parse_return_begins n).
  - unfold parse_break. wp_steps. wp_lia.
  - unfold parse_continue. wp_steps. wp_lia.
  - by apply (parse_block_begins n).
  - wp_step. apply wp_advance; [by rewrite E7|]. intros. wp_steps. wp_lia.
  - unfold parse_expr_stmt. wp_steps. wp_expr. wp_steps. wp_lia.
Qed.

(** A function of at most 16 parameters whose body is a block. *)
Definition is_function (f : ASTNode) : Prop :=
  exists name params body, f = AST_FUNC_DEF name params body /\ (length params <= 16)%nat /\ small_block body.

Lemma params_loop_wp k : forall params p Q,
  (size p < k)%nat -> (length params <= 16)%nat ->
  (forall r p', onward p p' -> (match r with Some l => (length l <= 16)%nat | None => flag p' = 1%nat end) -> Q r p') ->
  wp (params_loop k params) p Q.
Proof.
  induction k as [|k IH]; intros params p Q Hk Hl HQ; [lia|]. cbn [params_loop]. wp_steps.
  - by apply HQ; [wp_lia|].
  - by apply HQ; [wp_lia|].
  - apply skip_type_wp. intros p1 ?. wp_step. apply skip_stars_wp; [wp_lia|]. intros p2 ?. wp_steps.
    + by apply HQ; [wp_lia|].
    + apply Nat.leb_gt in Heqb1. apply IH; [wp_lia|rewrite length_app; cbn; lia|]. intros. apply HQ; [wp_lia|done].
    + apply Nat.leb_gt in Heqb1. apply HQ; [wp_lia|rewrite length_app; cbn; lia].
Qed.

Lemma parse_func_def_wp n p Q :
  (size p < n)%nat -> (forall f p', progress p p' -> (f = NULL \/ is_function f) -> Q f p') -> wp (parse_func_def n) p Q.
Proof.
  intros Hp HQ. unfold parse_func_def. wp_step. apply skip_type_wp. intros p1 ?. wp_step.
  apply skip_stars_wp; [wp_lia|]. intros p2 ?. wp_steps; [apply HQ; [wp_lia|by left]| |].
  - eapply parse_block_wp; [apply parse_stmt_good|wp_lia..|]. intros. wp_steps. apply HQ; [wp_lia|].
    right. do 3 eexists. split; [done|]. split; [cbn; lia|done].
  - apply params_loop_wp; [wp_lia|cbn; lia|]. intros [params|] p5 ? ?; [|apply wp_ret, HQ; [wp_lia|by left]].
    wp_steps. eapply parse_block_wp; [apply parse_stmt_good|wp_lia..|]. intros. wp_steps. apply HQ; [wp_lia|].
    right. by do 3 eexists.
Qed.

(** What [parser_parse] returns: at most 64 functions; without an error the whole source
    was read. *)
Definition is_program (t : ASTNode) (p : Parser) : Prop :=
  exists children, t = AST_PROGRAM children /\ (length children <= 64)%nat /\ Forall is_function children /\
  (p_error p = None -> t_type (p_current p) = TOK_EOF).

Lemma flag_error p : flag p = 1%nat -> p_error p <> None.
Proof. unfold flag. by destruct (p_error p). Qed.

Lemma program_loop_wp k : forall children p,
  (size p < k)%nat -> (length children <= 64)%nat -> Forall is_function children ->
  wp (program_loop k children) p is_program.
Proof.
  induction k as [|k IH]; intros children p Hk Hl Hf; [lia|]. cbn [program_loop]. do 2 wp_step.
  assert (Hn : forall l p', (length l <= 64)%nat -> Forall is_function l -> progress p p' ->
            wp (e <- had_error ;; if e : bool then ret (AST_PROGRAM l) else program_loop k l) p' is_program).
  { intros l p' ? ? ?. wp_steps; [|apply IH; [wp_lia|done|done]]. exists l. split; [done|]. split; [done|]. split; [done|].
    by intros ?%flag_error. }
  cbv zeta. wp_step.
  { apply tok_eqb_true in Heqb. exists children. done. }
  wp_step; [|wp_step].
  - wp_step. apply parse_func_def_wp; [wp_lia|]. intros f p1 H1 H2. destruct (is_null f) eqn:En; [by apply Hn|].
    destruct (Nat.leb_spec 64 (length children)); [done|]. apply Hn; [rewrite length_app; cbn; lia| |done].
    apply Forall_app. split; [done|]. constructor; [|done]. by destruct H2 as [-> |].
  - do 2 wp_step. apply Hn; [done|done|wp_lia].
  - wp_steps. exists children. split; [done|]. split; [done|]. split; [done|]. by intros ?%flag_error.
Qed.

