(* ===== verification/CcPrint.v ===== *)
(** * Printing programs and parsing them back

    A printer for the trees of apps/cc/ast.c with as few parentheses as the grammar of
    parser.c needs, and the proof that [front_end] reads what it prints. *)

From stdpp Require Import strings.
From S2P Require Import Prelude CString Vfs CcLex CcParse.

(** ** Levels of the grammar

    0 assignment, 1 [||], 2 [&&], 3 equality, 4 comparison, 5 sum, 6 product, 7 prefix
    operators, 8 postfix operators, and the parenthesis of a call at 9. *)

Definition binop (op : Z) : option (nat * TokenType) :=
  if op =? tok_code TOK_OR then Some (1%nat, TOK_OR) else if op =? tok_code TOK_AND then Some (2%nat, TOK_AND)
  else if op =? tok_code TOK_EQ then Some (3%nat, TOK_EQ) else if op =? tok_code TOK_NEQ then Some (3%nat, TOK_NEQ)
  else if op =? tok_code TOK_LT then Some (4%nat, TOK_LT) else if op =? tok_code TOK_GT then Some (4%nat, TOK_GT)
  else if op =? tok_code TOK_LE then Some (4%nat, TOK_LE) else if op =? tok_code TOK_GE then Some (4%nat, TOK_GE)
  else if op =? 43 then Some (5%nat, TOK_PLUS) else if op =? 45 then Some (5%nat, TOK_MINUS)
  else if op =? 42 then Some (6%nat, TOK_STAR) else if op =? 47 then Some (6%nat, TOK_SLASH)
  else if op =? 37 then Some (6%nat, TOK_PERCENT)
  else None.

Definition level (e : ASTNode) : nat :=
  match e with
  | AST_ASSIGN _ _ _ => 0
  | AST_BINARY op _ _ => match binop op with Some (k, _) => k | None => 0 end
  | AST_UNARY _ _ | AST_ADDR _ | AST_DEREF _ => 7
  | _ => 8
  end.

(** The level at which a token continues an expression. *)
Definition tok_level (t : TokenType) : option nat :=
  match t with
  | TOK_ASSIGN | TOK_PLUS_EQ | TOK_MINUS_EQ | TOK_STAR_EQ | TOK_SLASH_EQ => Some 0%nat
  | TOK_OR => Some 1%nat
  | TOK_AND => Some 2%nat
  | TOK_EQ | TOK_NEQ => Some 3%nat
  | TOK_LT | TOK_GT | TOK_LE | TOK_GE => Some 4%nat
  | TOK_PLUS | TOK_MINUS => Some 5%nat
  | TOK_STAR | TOK_SLASH | TOK_PERCENT => Some 6%nat
  | TOK_LBRACKET | TOK_DOT | TOK_ARROW => Some 8%nat
  | TOK_LPAREN => Some 9%nat
  | _ => None
  end.

(** ** The printer *)

Definition ident (s : list Z) : Token := Tok TOK_IDENT 0 s 1.
Definition kw (t : TokenType) : Token := Tok t 0 (token_type_name t) 1.
Definition pt (t : TokenType) : Token := make_token t.

Fixpoint sep_by {A} (c : A) (l : list (list A)) : list A :=
  match l with
  | [] => []
  | [x] => x
  | x :: l => x ++ c :: sep_by c l
  end.

Fixpoint print_expr (k : nat) (e : ASTNode) : list Token :=
  let body :=
    match e with
    | AST_NUMBER v => [Tok TOK_NUMBER v [] 0]
    | AST_IDENT s => [ident s]
    | AST_STRING s => [Tok TOK_STRING 0 s 0]
    | AST_CALL f args => ident f :: pt TOK_LPAREN :: sep_by (pt TOK_COMMA) (map (print_expr 0) args) ++ [pt TOK_RPAREN]
    | AST_INDEX a i => print_expr 8 a ++ pt TOK_LBRACKET :: print_expr 0 i ++ [pt TOK_RBRACKET]
    | AST_MEMBER a f op => print_expr 8 a ++ [pt (if op =? tok_code TOK_DOT then TOK_DOT else TOK_ARROW); ident f]
    | AST_ADDR x => pt TOK_AMP :: print_expr 7 x
    | AST_DEREF x => pt TOK_STAR :: print_expr 7 x
    | AST_UNARY op x => pt (if op =? 45 then TOK_MINUS else TOK_NOT) :: print_expr 7 x
    | AST_BINARY op l r =>
        match binop op with
        | Some (j, t) => print_expr j l ++ pt t :: print_expr (S j) r
        | None => []
        end
    | AST_ASSIGN _ l r => print_expr 1 l ++ pt TOK_ASSIGN :: print_expr 0 r
    | _ => []
    end in
  if (level e <? k)%nat then pt TOK_LPAREN :: body ++ [pt TOK_RPAREN] else body.

Definition opt (t : TokenType) (e : ASTNode) : list Token := if is_null e then [] else pt t :: print_expr 0 e.
Definition opt_expr (e : ASTNode) : list Token := if is_null e then [] else print_expr 0 e.

Fixpoint print_stmt (s : ASTNode) : list Token :=
  match s with
  | AST_VAR_DECL x init => kw TOK_INT :: ident x :: opt TOK_ASSIGN init ++ [pt TOK_SEMICOLON]
  | AST_IF c t e =>
      kw TOK_IF :: pt TOK_LPAREN :: print_expr 0 c ++ pt TOK_RPAREN :: print_stmt t ++
      if is_null e then [] else kw TOK_ELSE :: print_stmt e
  | AST_WHILE c b => kw TOK_WHILE :: pt TOK_LPAREN :: print_expr 0 c ++ pt TOK_RPAREN :: print_stmt b
  | AST_FOR i c st b =>
      kw TOK_FOR :: pt TOK_LPAREN :: print_stmt i ++ opt_expr c ++ pt TOK_SEMICOLON :: opt_expr st ++
      pt TOK_RPAREN :: print_stmt b
  | AST_RETURN v => kw TOK_RETURN :: opt_expr v ++ [pt TOK_SEMICOLON]
  | AST_BREAK => [kw TOK_BREAK; pt TOK_SEMICOLON]
  | AST_CONTINUE => [kw TOK_CONTINUE; pt TOK_SEMICOLON]
  | AST_BLOCK l => pt TOK_LBRACE :: concat (map print_stmt l) ++ [pt TOK_RBRACE]
  | AST_EXPR_STMT e => print_expr 0 e ++ [pt TOK_SEMICOLON]
  | _ => [pt TOK_SEMICOLON]
  end.

Definition print_function (f : ASTNode) : list Token :=
  match f with
  | AST_FUNC_DEF name params body =>
      kw TOK_INT :: ident name :: pt TOK_LPAREN :: sep_by (pt TOK_COMMA) (map (fun a => [kw TOK_INT; ident a]) params) ++
      pt TOK_RPAREN :: print_stmt body
  | _ => []
  end.

Definition program_tokens (t : ASTNode) : list Token :=
  match t with AST_PROGRAM l => concat (map print_function l) | _ => [] end.

(** ** The trees the parser builds *)

(** No zero among the characters. *)
Definition no_zero (s : list Z) : bool := forallb nz s.

Fixpoint is_expr (e : ASTNode) : bool :=
  match e with
  | AST_NUMBER _ => true
  | AST_IDENT s | AST_STRING s => no_zero s
  | AST_CALL f args => no_zero f && (length args <=? 16)%nat && forallb is_expr args
  | AST_INDEX a i => is_expr a && is_expr i
  | AST_MEMBER a f op => is_expr a && no_zero f && ((op =? tok_code TOK_DOT) || (op =? tok_code TOK_ARROW))
  | AST_ADDR x | AST_DEREF x => is_expr x
  | AST_UNARY op x => ((op =? 45) || (op =? 33)) && is_expr x
  | AST_BINARY op l r => bool_decide (is_Some (binop op)) && is_expr l && is_expr r
  | AST_ASSIGN None l r => is_expr l && is_expr r
  | _ => false
  end.

Definition is_opt_expr (e : ASTNode) : bool := is_null e || is_expr e.

(** The text of the statement ends in an [if] without an [else]. *)
Fixpoint open_if (s : ASTNode) : bool :=
  match s with
  | AST_IF _ t e => if is_null e then true else open_if e
  | AST_WHILE _ b | AST_FOR _ _ _ b => open_if b
  | _ => false
  end.

(** [NULL] is the empty statement, which is not kept in a block. *)
Fixpoint is_stmt (s : ASTNode) : bool :=
  match s with
  | NULL => true
  | AST_VAR_DECL x init => no_zero x && is_opt_expr init
  | AST_IF c t e => is_expr c && is_stmt t && is_stmt e && (is_null e || negb (open_if t))
  | AST_WHILE c b => is_expr c && is_stmt b
  | AST_FOR i c st b =>
      match i with NULL | AST_VAR_DECL _ _ | AST_EXPR_STMT _ => is_stmt i | _ => false end &&
      is_opt_expr c && is_opt_expr st && is_stmt b
  | AST_RETURN v => is_opt_expr v
  | AST_BREAK | AST_CONTINUE => true
  | AST_BLOCK l => (length l <=? 64)%nat && forallb (fun s => negb (is_null s) && is_stmt s) l
  | AST_EXPR_STMT e => is_expr e
  | _ => false
  end.

Definition is_func (f : ASTNode) : bool :=
  match f with
  | AST_FUNC_DEF name params (AST_BLOCK l as body) =>
      no_zero name && (length params <=? 16)%nat && forallb no_zero params && is_stmt body
  | _ => false
  end.

(** A program of the language: its tree is one the parser builds, its names and numbers are
    tokens. *)
Definition is_source (t : ASTNode) : bool :=
  match t with AST_PROGRAM l => (length l <=? 64)%nat && forallb is_func l | _ => false end &&
  forallb (good_token 1) (program_tokens t).

Definition demo_program : ASTNode :=
  AST_PROGRAM [
    AST_FUNC_DEF (text "f") [text "a"; text "b"] (AST_BLOCK [
      AST_VAR_DECL (text "i") NULL;
      AST_FOR (AST_EXPR_STMT (AST_ASSIGN None (AST_IDENT (text "i")) (AST_NUMBER 0)))
        (AST_BINARY (tok_code TOK_LT) (AST_IDENT (text "i")) (AST_IDENT (text "b")))
        (AST_ASSIGN None (AST_IDENT (text "i")) (AST_BINARY 43 (AST_IDENT (text "i")) (AST_NUMBER 1)))
        (AST_IF (AST_UNARY 33 (AST_INDEX (AST_IDENT (text "a")) (AST_IDENT (text "i")))) AST_BREAK AST_CONTINUE);
      AST_RETURN (AST_BINARY 42 (AST_BINARY 43 (AST_IDENT (text "a")) (AST_IDENT (text "i"))) (AST_UNARY 45 (AST_NUMBER 2)))]);
    AST_FUNC_DEF (text "main") [] (AST_BLOCK [
      AST_WHILE (AST_NUMBER 1) NULL;
      AST_EXPR_STMT (AST_CALL (text "f") [AST_STRING (text "hi"); AST_ADDR (AST_MEMBER (AST_IDENT (text "x")) (text "y") (tok_code TOK_ARROW))])])].

Example demo_ok : is_source demo_program = true.
Proof. vm_compute. reflexivity. Qed.

Example demo_roundtrip : front_end (print_tokens (program_tokens demo_program)) = Ok (demo_program, None).
Proof. vm_compute. reflexivity. Qed.

(** ** Reading printed tokens *)

(** The parser is at the printed tokens [ts], without an error. *)
Definition reads (p : Parser) (ts : list Token) : Prop :=
  p_error p = None /\
  match ts with
  | [] => p_current p = make_token TOK_EOF
  | t :: ts => p_current p = t /\ printed 1 (p_lex p) ts
  end.

(** [m] reads [ts], which are followed by [rest], and goes on as [k]; or returns [a]. *)
Definition goes {A} (m k : parse A) (ts rest : list Token) : Prop :=
  forall p, reads p (ts ++ rest) -> exists p', m p = k p' /\ reads p' rest.
Definition yields {A} (m : parse A) (ts : list Token) (a : A) (rest : list Token) : Prop := goes m (ret a) ts rest.

Definition first (ts : list Token) : TokenType := match ts with t :: _ => t_type t | [] => TOK_EOF end.

Lemma reads_first p ts : reads p ts -> t_type (p_current p) = first ts.
Proof. intros [_ H]. destruct ts as [|t ts]; cbn; [by rewrite H|by destruct H as [-> _]]. Qed.

Lemma reads_error p ts : reads p ts -> had_error p = Ok (false, p).
Proof. intros [H _]. unfold had_error. by rewrite H. Qed.

Lemma advance_reads p t ts : reads p (t :: ts) -> exists p', advance_token p = Ok (tt, p') /\ reads p' ts.
Proof.
  intros [He [_ Hp]]. unfold advance_token. destruct ts as [|u ts].
  - destruct (printed_end _ _ Hp) as (lex' & -> & _). eexists. split; [done|]. by rewrite He.
  - destruct (printed_next _ _ _ _ Hp) as (lex' & -> & Hp'). eexists. split; [done|]. by rewrite He.
Qed.

Lemma goes_refl {A} (m : parse A) rest : goes m m [] rest.
Proof. intros p Hp. by exists p. Qed.

Lemma goes_trans {A} (m k l : parse A) ts1 ts2 rest : goes m k ts1 (ts2 ++ rest) -> goes k l ts2 rest -> goes m l (ts1 ++ ts2) rest.
Proof.
  intros Hm Hk p Hp. rewrite <- app_assoc in Hp. destruct (Hm p Hp) as (p1 & E1 & H1). destruct (Hk p1 H1) as (p2 & E2 & H2).
  exists p2. split; [congruence|done].
Qed.

Lemma goes_bind {A B} (m : parse B) (f : B -> parse A) k b ts1 ts2 rest :
  yields m ts1 b (ts2 ++ rest) -> goes (f b) k ts2 rest -> goes (bind m f) k (ts1 ++ ts2) rest.
Proof.
  intros Hm Hk p Hp. rewrite <- app_assoc in Hp. destruct (Hm p Hp) as (p1 & E1 & H1). destruct (Hk p1 H1) as (p2 & E2 & H2).
  exists p2. split; [|done]. unfold bind. by rewrite E1.
Qed.

(** A test of the current token, or of the error, reads nothing. *)
Lemma goes_peek {A B} (m : parse B) (f : B -> parse A) k b ts rest :
  yields m [] b (ts ++ rest) -> goes (f b) k ts rest -> goes (bind m f) k ts rest.
Proof. apply (goes_bind m f k b [] ts rest). Qed.

Lemma goes_no_error {A} (f : bool -> parse A) k ts rest : goes (f false) k ts rest -> goes (bind had_error f) k ts rest.
Proof. apply goes_peek. intros p Hp. exists p. split; [by eapply reads_error|done]. Qed.

Lemma goes_current {A} (f : TokenType -> parse A) k ts rest :
  goes (f (first (ts ++ rest))) k ts rest -> goes (bind current f) k ts rest.
Proof. apply goes_peek. intros p Hp. exists p. split; [|done]. unfold current. by erewrite reads_first. Qed.

Lemma goes_token {A} (f : Token -> parse A) t k ts rest : goes (f t) k (t :: ts) rest -> goes (bind token f) k (t :: ts) rest.
Proof. apply goes_peek. intros p Hp. exists p. split; [|done]. unfold token. by destruct Hp as [_ [-> _]]. Qed.

Lemma yields_advance t rest : yields advance_token [t] tt rest.
Proof. intros p Hp. by apply advance_reads in Hp. Qed.

Lemma goes_advance {A} (f : unit -> parse A) t k ts rest : goes (f tt) k ts rest -> goes (bind advance_token f) k (t :: ts) rest.
Proof. apply (goes_bind _ _ k tt [t] ts), yields_advance. Qed.

Lemma goes_match {A} (f : bool -> parse A) t k ts rest :
  goes (f true) k ts rest -> goes (bind (match_token (t_type t)) f) k (t :: ts) rest.
Proof.
  apply (goes_bind _ _ k true [t] ts). unfold match_token. apply goes_current. cbn. rewrite tok_eqb_refl.
  apply goes_advance, goes_refl.
Qed.

Lemma goes_no_match {A} (f : bool -> parse A) ty k ts rest :
  first (ts ++ rest) <> ty -> goes (f false) k ts rest -> goes (bind (match_token ty) f) k ts rest.
Proof.
  intros Hf. apply goes_peek. unfold match_token. apply goes_current. cbn [app].
  destruct (tok_eqb_spec (first (ts ++ rest)) ty); [done|]. apply goes_refl.
Qed.

Lemma goes_expect {A} (f : unit -> parse A) t msg k ts rest :
  goes (f tt) k ts rest -> goes (bind (expect (t_type t) msg) f) k (t :: ts) rest.
Proof.
  apply (goes_bind _ _ k tt [t] ts). unfold expect. apply goes_current. cbn. rewrite tok_eqb_refl. apply yields_advance.
Qed.

(** ** Where an expression ends *)

(** The first token of [rest] does not continue an expression at level [k] or above. *)
Definition stops (k : nat) (rest : list Token) : Prop :=
  forall l, tok_level (first rest) = Some l -> (l < k)%nat.

Lemma stops_le k k' rest : (k <= k')%nat -> stops k rest -> stops k' rest.
Proof. intros Hk Hs l Hl. specialize (Hs l Hl). lia. Qed.

Lemma stops_none k rest : tok_level (first rest) = None -> stops k rest.
Proof. unfold stops. by intros ->. Qed.

Lemma stops_not k rest t l : stops k rest -> tok_level t = Some l -> (k <= l)%nat -> first rest <> t.
Proof. intros Hs Ht Hl <-. specialize (Hs l Ht). lia. Qed.

(** The parser of a level, with fuel [n]. *)
Definition parse_at (k n : nat) : parse ASTNode :=
  let expr := parse_assignment (pred n) in
  match k with
  | 0 => parse_assignment n
  | 1 => parse_logic_or n expr
  | 2 => parse_logic_and n expr
  | 3 => parse_equality n expr
  | 4 => parse_relational n expr
  | 5 => parse_additive n expr
  | 6 => parse_multiplicative n expr
  | 7 => parse_unary n (parse_postfix n expr)
  | _ => parse_postfix n expr
  end%nat.

Definition ops_at (k : nat) : TokenType -> option Z :=
  match k with 1 => or_ops | 2 => and_ops | 3 => eq_ops | 4 => rel_ops | 5 => add_ops | _ => mul_ops end%nat.

Lemma parse_at_binary k n : (1 <= k <= 6)%nat -> parse_at k n = binary_level n (ops_at k) (parse_at (S k) n).
Proof. intros Hk. do 7 (destruct k as [|k]; [done || lia|]). lia. Qed.

Lemma ops_at_level k t op : (1 <= k <= 6)%nat -> ops_at k t = Some op -> tok_level t = Some k.
Proof. intros Hk. do 7 (destruct k as [|k]; [lia || by destruct t|]). lia. Qed.

Lemma binop_spec op j t :
  binop op = Some (j, t) -> (1 <= j <= 6)%nat /\ ops_at j t = Some op /\ tok_level t = Some j.
Proof.
  unfold binop. repeat case_step; intros E; try discriminate; injection E as <- <-; zbool; subst; (split; [lia|done]).
Qed.

Lemma strdup_id s : no_zero s = true -> strdup_text s = s.
Proof.
  unfold no_zero. induction s as [|c s IH]; cbn; [done|]. intros [Hc Hs]%andb_true_iff. unfold nz in Hc.
  destruct (c =? 0); [done|]. by rewrite IH.
Qed.

(** ** Expressions *)

Lemma print_expr_parens k e :
  print_expr k e = if (level e <? k)%nat then pt TOK_LPAREN :: print_expr 0 e ++ [pt TOK_RPAREN] else print_expr 0 e.
Proof. by destruct e. Qed.

(** What starts an operand, and what starts an expression. *)
Definition starts_operand (ts : list Token) : Prop :=
  match first ts with TOK_NUMBER | TOK_STRING | TOK_IDENT | TOK_LPAREN => True | _ => False end.
Definition starts_expr (ts : list Token) : Prop :=
  match first ts with
  | TOK_NUMBER | TOK_STRING | TOK_IDENT | TOK_LPAREN | TOK_MINUS | TOK_NOT | TOK_AMP | TOK_STAR => True
  | _ => False
  end.

Lemma starts_operand_app ts rest : starts_operand ts -> starts_operand (ts ++ rest).
Proof. by destruct ts. Qed.
Lemma starts_expr_app ts rest : starts_expr ts -> starts_expr (ts ++ rest).
Proof. by destruct ts. Qed.
Lemma operand_expr ts : starts_operand ts -> starts_expr ts.
Proof. unfold starts_operand, starts_expr. by destruct (first ts). Qed.

Lemma print_starts m : forall e, (node_size e < m)%nat -> is_expr e = true ->
  starts_operand (print_expr 8 e) /\ forall k, starts_expr (print_expr k e).
Proof.
  induction m as [|m IH]; intros e Hm He; [lia|].
  assert (H0 : starts_expr (print_expr 0 e) /\ (level e = 8%nat -> starts_operand (print_expr 0 e))).
  { destruct e; cbn in He; try discriminate; cbn [node_size] in Hm; zbool; cbn [print_expr level Nat.ltb Nat.leb].
    all: try (split; [done|done]).
    - (* assignment *) destruct name; [done|]. zbool. split; [|done]. apply starts_expr_app. apply IH; [lia|done].
    - (* binary *) destruct (binop op) as [[j t]|] eqn:Eb; [|by case_bool_decide; [destruct H1|]].
      split; [|apply binop_spec in Eb; lia]. apply starts_expr_app. apply IH; [lia|done].
    - (* unary *) split; [|done]. by destruct (op =? 45).
    - (* index *) destruct (IH e1 ltac:(lia) ltac:(done)) as [Hs _]. split; [apply operand_expr|intros _]; by apply starts_operand_app.
    - (* member *) destruct (IH e ltac:(lia) ltac:(done)) as [Hs _]. split; [apply operand_expr|intros _]; by apply starts_operand_app. }
  destruct H0 as [H0 H8]. split; [|intros k]; rewrite print_expr_parens.
  - destruct (Nat.ltb_spec (level e) 8); [done|]. apply H8. assert (level e <= 8)%nat; [|lia].
    destruct e; cbn; try lia. destruct (binop op) as [[j t]|] eqn:Eb; [apply binop_spec in Eb|]; lia.
  - by destruct (Nat.ltb (level e) k).
Qed.

(** What follows an expression that is complete at a level leaves it there. *)
Lemma binary_loop_stop k c next left rest :
  (1 <= k <= 6)%nat -> stops k rest -> (0 < c)%nat -> yields (binary_loop c (ops_at k) next left) [] left rest.
Proof.
  intros Hk Hs Hc. destruct c as [|c]; [lia|]. cbn [binary_loop]. apply goes_current. cbn [app].
  destruct (ops_at k (first rest)) as [op|] eqn:E; [|apply goes_refl].
  apply ops_at_level in E; [|done]. specialize (Hs k E). lia.
Qed.

Lemma postfix_loop_stop c expr node rest :
  stops 8 rest -> (0 < c)%nat -> yields (postfix_loop c expr node) [] node rest.
Proof.
  intros Hs Hc. destruct c as [|c]; [lia|]. cbn [postfix_loop]. apply goes_no_error.
  do 3 (apply goes_no_match; [by eapply (stops_not 8); [exact Hs|reflexivity|lia]|]). apply goes_refl.
Qed.

Lemma descend_binary k n ts e rest :
  (1 <= k <= 6)%nat -> yields (parse_at (S k) n) ts e rest ->
  goes (parse_at k n) (binary_loop n (ops_at k) (parse_at (S k) n) e) ts rest.
Proof.
  intros Hk Hy. rewrite parse_at_binary by done. unfold binary_level. rewrite <- (app_nil_r ts).
  eapply goes_bind; [exact Hy|]. apply goes_no_error, goes_refl.
Qed.

Lemma descend_assign n ts e rest :
  stops 0 rest -> yields (parse_at 1 n) ts e rest -> yields (parse_at 0 n) ts e rest.
Proof.
  intros Hs Hy. destruct n as [|n]; [done|]. cbn [parse_at parse_assignment pred] in *. apply goes_no_error.
  rewrite <- (app_nil_r ts). eapply goes_bind; [exact Hy|]. apply goes_no_error, goes_current. cbn [app].
  destruct (tok_eqb_spec (first rest) TOK_ASSIGN) as [E|_]; [by destruct (Nat.nlt_0_r 0); apply Hs; rewrite E|].
  destruct (compound_op (first rest)) as [op|] eqn:E; [|apply goes_refl].
  destruct (Nat.nlt_0_r 0). apply Hs. by destruct (first rest).
Qed.

Lemma descend_unary c postfix ts e rest :
  starts_operand ts -> (0 < c)%nat -> yields postfix ts e rest -> yields (parse_unary c postfix) ts e rest.
Proof.
  intros Hs Hc Hy. destruct c as [|c]; [lia|]. cbn [parse_unary]. apply goes_no_error.
  apply (starts_operand_app _ rest) in Hs. unfold starts_operand in Hs.
  do 4 (apply goes_no_match; [by intros E; rewrite E in Hs|]). exact Hy.
Qed.

Lemma descend j k n ts e rest :
  (k <= j <= 8)%nat -> stops k rest -> (0 < n)%nat -> (j = 8%nat -> starts_operand ts) ->
  yields (parse_at j n) ts e rest -> yields (parse_at k n) ts e rest.
Proof.
  intros Hk Hs Hn Ho. induction j as [|j IH]; intros Hy; [by replace k with 0%nat by lia|].
  destruct (decide (k = S j)) as [-> |Hne]; [done|]. apply IH; [lia|lia|].
  apply (stops_le _ j) in Hs; [|lia]. destruct (decide (j = 7%nat)) as [-> |H7]; [by apply descend_unary; [apply Ho| |]|].
  destruct (decide (j = 0%nat)) as [-> |H0]; [by apply descend_assign|].
  rewrite <- (app_nil_r ts). eapply goes_trans; [apply descend_binary; [lia|exact Hy]|]. apply binary_loop_stop; [lia|done|done].
Qed.

(** ** Operands *)

Section primary.
Context (n : nat) (expr : parse ASTNode).

Lemma primary_number v rest : yields (parse_primary n expr) [Tok TOK_NUMBER v [] 0] (AST_NUMBER v) rest.
Proof. unfold parse_primary. apply goes_no_error, goes_token, goes_advance, goes_refl. Qed.

Lemma primary_string s rest : no_zero s = true -> yields (parse_primary n expr) [Tok TOK_STRING 0 s 0] (AST_STRING s) rest.
Proof.
  intros Hs. unfold parse_primary. apply goes_no_error, goes_token, goes_advance. cbn [t_text]. unfold ast_string. rewrite strdup_id by done.
  apply goes_refl.
Qed.

Lemma primary_ident s rest : no_zero s = true -> first rest <> TOK_LPAREN -> yields (parse_primary n expr) [ident s] (AST_IDENT s) rest.
Proof.
  intros Hs Hr. unfold parse_primary. apply goes_no_error, goes_token, goes_advance. apply goes_no_match; [done|].
  cbn [t_text ident]. unfold ast_ident. rewrite strdup_id by done. apply goes_refl.
Qed.

Lemma primary_parens ts e rest :
  yields expr ts e (pt TOK_RPAREN :: rest) -> yields (parse_primary n expr) (pt TOK_LPAREN :: ts ++ [pt TOK_RPAREN]) e rest.
Proof.
  intros Hy. unfold parse_primary. apply goes_no_error, goes_token. apply (goes_match _ (pt TOK_LPAREN)).
  eapply goes_bind; [exact Hy|]. apply (goes_expect _ (pt TOK_RPAREN)), goes_refl.
Qed.

(** Within [B] tokens of the end, [expr] reads the arguments. *)
Lemma args_print B args : forall acc c rest,
  (forall a rest', a ∈ args -> stops 0 rest' -> (length (print_expr 0 a ++ rest') < B)%nat -> yields expr (print_expr 0 a) a rest') ->
  args <> [] -> (length acc + length args <= 16)%nat -> (length args <= c)%nat ->
  (length (sep_by (pt TOK_COMMA) (map (print_expr 0) args) ++ pt TOK_RPAREN :: rest) < B)%nat ->
  yields (parse_args c expr acc) (sep_by (pt TOK_COMMA) (map (print_expr 0) args)) (acc ++ args) (pt TOK_RPAREN :: rest).
Proof.
  induction args as [|a args IH]; intros acc c rest He Hn Hl Hc HB; [done|]. destruct c as [|c]; [cbn in Hc; lia|].
  cbn [length] in *. cbn [parse_args]. apply goes_no_error.
  assert (H16 : (16 <=? length acc)%nat = false) by (apply Nat.leb_gt; lia).
  destruct args as [|b args].
  - cbn [map sep_by] in *. rewrite <- (app_nil_r (print_expr 0 a)).
    eapply goes_bind; [apply He; [by left|by apply stops_none|done]|].
    rewrite H16. cbv zeta. apply goes_no_error. apply goes_no_match; [done|]. apply goes_refl.
  - cbn [map] in *. change (sep_by (pt TOK_COMMA) (print_expr 0 a :: print_expr 0 b :: map (print_expr 0) args)) with
      (print_expr 0 a ++ pt TOK_COMMA :: sep_by (pt TOK_COMMA) (print_expr 0 b :: map (print_expr 0) args)) in *.
    rewrite <- app_assoc in HB.
    eapply goes_bind; [apply He; [by left|by apply stops_none|done]|].
    rewrite H16. cbv zeta. apply goes_no_error. apply (goes_match _ (pt TOK_COMMA)).
    replace (acc ++ a :: b :: args) with ((acc ++ [a]) ++ b :: args) by by rewrite <- app_assoc.
    apply IH; [by intros; apply He; [right|..]|done|rewrite length_app; cbn [length] in *; lia|cbn [length] in *; lia|].
    cbn [map]. revert HB. generalize (sep_by (pt TOK_COMMA) (print_expr 0 b :: map (print_expr 0) args)). intros l.
    rewrite <- app_comm_cons, !length_app. cbn [length]. rewrite length_app. cbn [length]. lia.
Qed.

Lemma primary_call B f args rest :
  (forall a rest', a ∈ args -> stops 0 rest' -> (length (print_expr 0 a ++ rest') < B)%nat -> yields expr (print_expr 0 a) a rest') ->
  forallb is_expr args = true -> no_zero f = true -> (length args <= 16)%nat -> (length args <= n)%nat ->
  (length (sep_by (pt TOK_COMMA) (map (print_expr 0) args) ++ pt TOK_RPAREN :: rest) < B)%nat ->
  yields (parse_primary n expr) (print_expr 0 (AST_CALL f args)) (AST_CALL f args) rest.
Proof.
  intros He Hx Hf Hl Hc HB. cbn [print_expr level Nat.ltb Nat.leb]. unfold parse_primary. apply goes_no_error, goes_token, goes_advance.
  apply (goes_match _ (pt TOK_LPAREN)). apply goes_current. cbn [t_text ident].
  replace (AST_CALL f args) with (ast_call f args) by (unfold ast_call; by rewrite strdup_id).
  destruct args as [|a args].
  - cbn [map sep_by app first pt make_token t_type]. rewrite tok_eqb_refl. apply (goes_bind _ _ _ [] [] [pt TOK_RPAREN]); [apply goes_refl|].
    apply (goes_expect _ (pt TOK_RPAREN)), goes_refl.
  - set (ts := sep_by _ _) in *. assert (Hs : starts_expr ts).
    { cbn [forallb] in Hx. apply andb_true_iff in Hx as [Hx _]. pose proof (print_starts _ a (Nat.lt_succ_diag_r _) Hx) as [_ Hs]. specialize (Hs 0%nat).
      subst ts. destruct args; [done|]. cbn [map]. by apply starts_expr_app. }
    rewrite <- app_assoc. apply (starts_expr_app _ ([pt TOK_RPAREN] ++ rest)) in Hs. unfold starts_expr in Hs.
    destruct (tok_eqb_spec (first (ts ++ [pt TOK_RPAREN] ++ rest)) TOK_RPAREN) as [E|_]; [by rewrite E in Hs|].
    eapply (goes_bind _ _ _ (a :: args)); [by apply (args_print B)|]. apply (goes_expect _ (pt TOK_RPAREN)), goes_refl.
Qed.

(** An operand, before what follows it. *)
Lemma postfix_primary ts e rest :
  is_null e = false -> yields (parse_primary n expr) ts e rest -> goes (parse_postfix n expr) (postfix_loop n expr e) ts rest.
Proof.
  intros He Hy. unfold parse_postfix. rewrite <- (app_nil_r ts). eapply goes_bind; [exact Hy|]. rewrite He. apply goes_refl.
Qed.

Lemma postfix_index c a i ts rest :
  yields expr ts i (pt TOK_RBRACKET :: rest) ->
  goes (postfix_loop (S c) expr a) (postfix_loop c expr (AST_INDEX a i)) (pt TOK_LBRACKET :: ts ++ [pt TOK_RBRACKET]) rest.
Proof.
  intros Hy. cbn [postfix_loop]. apply goes_no_error. apply (goes_match _ (pt TOK_LBRACKET)).
  eapply goes_bind; [exact Hy|]. apply (goes_expect _ (pt TOK_RBRACKET)), goes_refl.
Qed.

Lemma postfix_member c a f op rest :
  no_zero f = true -> op = tok_code TOK_DOT \/ op = tok_code TOK_ARROW ->
  goes (postfix_loop (S c) expr a) (postfix_loop c expr (AST_MEMBER a f op))
       [pt (if op =? tok_code TOK_DOT then TOK_DOT else TOK_ARROW); ident f] rest.
Proof.
  intros Hf Ho. cbn [postfix_loop]. apply goes_no_error. apply goes_no_match; [by destruct (op =? _)|].
  assert (Hm : forall op, AST_MEMBER a f op = ast_member a f op) by (intros; unfold ast_member; by rewrite strdup_id). rewrite Hm.
  destruct Ho as [-> | ->]; cbn [tok_code Z.eqb Pos.eqb].
  - apply (goes_match _ (pt TOK_DOT)), goes_token, goes_advance, goes_refl.
  - apply goes_no_match; [done|]. apply (goes_match _ (pt TOK_ARROW)), goes_token, goes_advance, goes_refl.
Qed.
End primary.

(** ** Every level *)

(** The printed [e] is read at every level, as a left operand at every level, under prefix
    operators and as the operand of postfix operators. *)
Record parses (e : ASTNode) : Prop := {
  ps_at k n rest :
    (k <= 8)%nat -> stops k rest -> (length (print_expr k e ++ rest) < n)%nat -> yields (parse_at k n) (print_expr k e) e rest;
  ps_unary c n rest :
    stops 7 rest -> (length (print_expr 7 e ++ rest) < c)%nat -> (length (print_expr 7 e ++ rest) < n)%nat ->
    yields (parse_unary c (parse_at 8 n)) (print_expr 7 e) e rest;
  ps_loop k n rest :
    (1 <= k <= 6)%nat -> stops (S k) rest -> (length (print_expr k e ++ rest) < n)%nat ->
    exists c, (length rest < c)%nat /\ goes (parse_at k n) (binary_loop c (ops_at k) (parse_at (S k) n) e) (print_expr k e) rest;
  ps_post n rest :
    stops 9 rest -> (length (print_expr 8 e ++ rest) < n)%nat ->
    exists c, (length rest < c)%nat /\ goes (parse_at 8 n) (postfix_loop c (parse_assignment (pred n)) e) (print_expr 8 e) rest }.

(** The same without parentheses, at the level of [e]. *)
Definition own (e : ASTNode) : Prop :=
  forall n rest, (length (print_expr 0 e ++ rest) < n)%nat ->
  match level e with
  | 0 => stops 0 rest -> yields (parse_at 0 n) (print_expr 0 e) e rest
  | 7 => stops 7 rest -> forall c, (length (print_expr 0 e ++ rest) < c)%nat -> yields (parse_unary c (parse_at 8 n)) (print_expr 0 e) e rest
  | 8 => stops 9 rest ->
         exists c, (length rest < c)%nat /\ goes (parse_at 8 n) (postfix_loop c (parse_assignment (pred n)) e) (print_expr 0 e) rest
  | k => stops (S k) rest ->
         exists c, (length rest < c)%nat /\ goes (parse_at k n) (binary_loop c (ops_at k) (parse_at (S k) n) e) (print_expr 0 e) rest
  end%nat.

Lemma level_le e : (level e <= 8)%nat.
Proof. destruct e; cbn; try lia. destruct (binop op) as [[j t]|] eqn:E; [apply binop_spec in E|]; lia. Qed.

Lemma own_binary e k n rest : own e -> level e = k -> (1 <= k <= 6)%nat -> (length (print_expr 0 e ++ rest) < n)%nat ->
  stops (S k) rest ->
  exists c, (length rest < c)%nat /\ goes (parse_at k n) (binary_loop c (ops_at k) (parse_at (S k) n) e) (print_expr 0 e) rest.
Proof. intros Ho Hl Hk Hn. specialize (Ho n rest Hn). rewrite Hl in Ho. do 7 (destruct k as [|k]; [lia || exact Ho|]). lia. Qed.

Lemma is_expr_null e : is_expr e = true -> is_null e = false.
Proof. by destruct e. Qed.

Lemma app_length_lt {A} (l rest : list A) n : (length (l ++ rest) < n)%nat -> (length rest < n /\ 0 < n)%nat.
Proof. rewrite length_app. lia. Qed.

(** Below its own level. *)
Lemma own_low e k n rest :
  is_expr e = true -> own e -> (k <= level e)%nat -> stops k rest -> (length (print_expr 0 e ++ rest) < n)%nat ->
  yields (parse_at k n) (print_expr 0 e) e rest.
Proof.
  intros He Ho Hk Hs Hn. pose proof (level_le e) as Hl. pose proof (app_length_lt _ _ _ Hn) as [Hr H0].
  pose proof (print_starts _ e (Nat.lt_succ_diag_r _) He) as [Hop _].
  apply (descend (level e)); [lia|done|done| |].
  { intros E. by rewrite print_expr_parens, E in Hop. }
  apply (stops_le _ (level e)) in Hs; [|done]. specialize (Ho n rest Hn). destruct (level e) as [|[|[|[|[|[|[|[|[|j]]]]]]]]] eqn:E; [..|lia];
    [by apply Ho|..|by apply Ho|].
  all: rewrite <- (app_nil_r (print_expr 0 e)); destruct Ho as (c & Hc & Hg); [by eapply stops_le; [|done]; lia|].
  7: eapply goes_trans; [exact Hg|]; apply postfix_loop_stop; [done|lia].
  all: eapply goes_trans; [exact Hg|]; apply binary_loop_stop; [lia|done|lia].
Qed.

Lemma own_post e n rest :
  is_expr e = true -> own e -> stops 9 rest -> (length (print_expr 8 e ++ rest) < n)%nat ->
  exists c, (length rest < c)%nat /\ goes (parse_at 8 n) (postfix_loop c (parse_assignment (pred n)) e) (print_expr 8 e) rest.
Proof.
  intros He Ho Hs Hn. pose proof (level_le e). pose proof (app_length_lt _ _ _ Hn) as [Hr H0]. rewrite print_expr_parens in *.
  destruct (Nat.ltb_spec (level e) 8) as [Hl|Hl].
  - exists n. split; [done|]. apply postfix_primary; [by apply is_expr_null|]. apply primary_parens.
    apply (own_low e 0 (pred n)); [done|done|lia|by apply stops_none|].
    cbn [app length] in Hn. rewrite <- app_assoc in Hn. cbn [app] in Hn. lia.
  - specialize (Ho n rest Hn). replace (level e) with 8%nat in Ho by lia. auto.
Qed.

Lemma own_parses e : is_expr e = true -> own e -> parses e.
Proof.
  intros He Ho. pose proof (level_le e) as Hle. pose proof (print_starts _ e (Nat.lt_succ_diag_r _) He) as [Hop _].
  assert (Hpost := own_post e). 
  assert (H8 : forall n rest, stops 8 rest -> (length (print_expr 8 e ++ rest) < n)%nat -> yields (parse_at 8 n) (print_expr 8 e) e rest).
  { intros n rest Hs Hn. destruct (Hpost n rest) as (c & Hc & Hg); [done|done|by eapply stops_le; [|done]; lia|done|].
    rewrite <- (app_nil_r (print_expr 8 e)). eapply goes_trans; [exact Hg|]. apply postfix_loop_stop; [done|lia]. }
  assert (Heq : forall k, (level e < k <= 8)%nat -> print_expr k e = print_expr 8 e).
  { intros k Hk. rewrite (print_expr_parens k e), (print_expr_parens 8 e).
    by rewrite (proj2 (Nat.ltb_lt (level e) k)), (proj2 (Nat.ltb_lt (level e) 8)) by lia. }
  assert (Hlow : forall k, (k <= level e)%nat -> print_expr k e = print_expr 0 e).
  { intros k Hk. rewrite (print_expr_parens k e). by rewrite (proj2 (Nat.ltb_ge (level e) k)) by lia. }
  assert (Hat : forall k n rest, (k <= 8)%nat -> stops k rest -> (length (print_expr k e ++ rest) < n)%nat ->
            yields (parse_at k n) (print_expr k e) e rest).
  { intros k n rest Hk Hs Hn. destruct (decide (level e < k)%nat) as [Hl|Hl].
    - rewrite (Heq k) in Hn |- * by lia. apply (descend 8); [lia|done|by eapply app_length_lt|done|]. apply H8; [by eapply stops_le; [|done]; lia|done].
    - rewrite (Hlow k) in Hn |- * by lia. apply own_low; [done|done|lia|done|done]. }
  split; [exact Hat| | |by intros; apply Hpost].
  - intros c n rest Hs Hc Hn. destruct (decide (level e = 7%nat)) as [E|E].
    + rewrite (Hlow 7%nat) in Hn, Hc |- * by lia. specialize (Ho n rest Hn). rewrite E in Ho. auto.
    + assert (E8 : print_expr 7 e = print_expr 8 e).
      { destruct (decide (level e = 8%nat)); [by rewrite (Hlow 7%nat), (Hlow 8%nat) by lia|by rewrite (Heq 7%nat) by lia]. }
      rewrite E8 in Hn, Hc |- *. apply descend_unary; [done|by eapply app_length_lt|]. apply H8; [by eapply stops_le; [|done]; lia|done].
  - intros k n rest Hk Hs Hn. destruct (decide (level e = k)) as [E|E].
    + rewrite (Hlow k) in Hn |- * by lia. by apply own_binary.
    + exists n. split; [by eapply app_length_lt|]. assert (Ek : print_expr k e = print_expr (S k) e).
      { destruct (decide (level e < k)%nat); [by rewrite (Heq k), (Heq (S k)) by lia|by rewrite (Hlow k), (Hlow (S k)) by lia]. }
      rewrite Ek in Hn |- *. apply descend_binary; [done|]. apply Hat; [lia|done|done].
Qed.

(** ** The cases *)

Lemma print_binary op l r j t : binop op = Some (j, t) -> print_expr 0 (AST_BINARY op l r) = print_expr j l ++ pt t :: print_expr (S j) r.
Proof. intros E. cbn [print_expr]. by rewrite E. Qed.

Lemma own_binary_case op l r : bool_decide (is_Some (binop op)) = true -> parses l -> parses r -> own (AST_BINARY op l r).
Proof.
  intros Hb Hl Hr n rest Hn. apply bool_decide_eq_true in Hb as [[j t] Eb]. rewrite (print_binary _ _ _ _ _ Eb) in *.
  cbn [level]. rewrite Eb. destruct (binop_spec _ _ _ Eb) as (Hj & Ho & Ht).
  assert (Hx : stops (S j) rest -> exists c, (length rest < c)%nat /\
    goes (parse_at j n) (binary_loop c (ops_at j) (parse_at (S j) n) (AST_BINARY op l r)) (print_expr j l ++ pt t :: print_expr (S j) r) rest).
  { intros Hs. rewrite <- app_assoc in Hn. destruct (ps_loop _ Hl j n ((pt t :: print_expr (S j) r) ++ rest)) as (c & Hc & Hg); [done| |done|].
    { intros k. cbn. rewrite Ht. intros E. injection E as <-. lia. }
    cbn [app length] in Hc. rewrite length_app in Hc. destruct c as [|c]; [lia|]. exists c. split; [lia|].
    eapply goes_trans; [exact Hg|]. cbn [binary_loop]. apply goes_current. cbn [app first pt make_token t_type]. rewrite Ho.
    apply goes_advance. rewrite <- (app_nil_r (print_expr (S j) r)). eapply goes_bind.
    { apply (ps_at _ Hr (S j) n); [lia|done|]. rewrite length_app in Hn. cbn [app length] in Hn |- *. lia. }
    cbv zeta. apply goes_no_error, goes_refl. }
  do 7 (destruct j as [|j]; [lia || exact Hx|]). lia.
Qed.

Lemma own_assign_case l r : parses l -> parses r -> own (AST_ASSIGN None l r).
Proof.
  intros Hl Hr n rest Hn. cbn [level]. cbn [print_expr level Nat.ltb Nat.leb] in *. intros Hs. rewrite <- app_assoc in Hn. cbn [app] in Hn.
  destruct n as [|n]; [lia|]. pose proof (ps_at _ Hl 1 (S n) (pt TOK_ASSIGN :: print_expr 0 r ++ rest)) as H1.
  pose proof (ps_at _ Hr 0 n rest ltac:(lia) Hs) as H2. rewrite length_app in Hn. cbn [length] in Hn.
  cbn [parse_at parse_assignment pred] in *. apply goes_no_error. eapply goes_bind.
  { apply H1; [lia| |rewrite length_app; cbn [length]; lia]. intros k E. cbn in E. injection E as <-. lia. }
  apply goes_no_error, goes_current. cbn [app first pt make_token t_type]. rewrite tok_eqb_refl. apply goes_advance.
  rewrite <- (app_nil_r (print_expr 0 r)). eapply goes_bind; [apply H2; lia|]. apply goes_refl.
Qed.

(** A prefix operator. *)
Lemma own_prefix_case (f : ASTNode -> ASTNode) t x :
  (forall c postfix ts rest, goes (parse_unary (S c) postfix) (bind (parse_unary c postfix) (fun x => ret (f x))) [pt t] (ts ++ rest)) ->
  parses x -> level (f x) = 7%nat -> print_expr 0 (f x) = pt t :: print_expr 7 x -> own (f x).
Proof.
  intros Hf Hx Hl Hp n rest Hn. rewrite Hp, Hl in *. cbn [app length] in *. intros Hs c Hc. destruct c as [|c]; [lia|].
  eapply (goes_trans _ _ _ [pt t] (print_expr 7 x)); [apply Hf|]. rewrite <- (app_nil_r (print_expr 7 x)).
  eapply goes_bind; [|apply goes_refl]. apply (ps_unary _ Hx); [done|cbn [app]; lia..].
Qed.

Lemma own_index_case a i : parses a -> parses i -> own (AST_INDEX a i).
Proof.
  intros Ha Hi n rest Hn. cbn [level]. cbn [print_expr level Nat.ltb Nat.leb] in *. intros Hs. rewrite <- app_assoc in Hn.
  destruct (ps_post _ Ha n ((pt TOK_LBRACKET :: print_expr 0 i ++ [pt TOK_RBRACKET]) ++ rest)) as (c & Hc & Hg); [|done|].
  { intros k E. cbn in E. injection E as <-. lia. }
  cbn [app length] in Hc. rewrite !length_app in Hc. cbn [length] in Hc. destruct c as [|c]; [lia|]. exists c. split; [lia|].
  eapply goes_trans; [exact Hg|]. apply postfix_index. apply (ps_at _ Hi 0 (pred n)); [lia|by apply stops_none|].
  rewrite length_app in Hn. cbn [app length] in Hn. rewrite <- app_assoc in Hn. cbn [app] in Hn. lia.
Qed.

Lemma own_member_case a f op :
  no_zero f = true -> op = tok_code TOK_DOT \/ op = tok_code TOK_ARROW -> parses a -> own (AST_MEMBER a f op).
Proof.
  intros Hf Ho Ha n rest Hn. cbn [level]. cbn [print_expr level Nat.ltb Nat.leb] in *. intros Hs. rewrite <- app_assoc in Hn.
  destruct (ps_post _ Ha n ([pt (if op =? tok_code TOK_DOT then TOK_DOT else TOK_ARROW); ident f] ++ rest)) as (c & Hc & Hg); [|done|].
  { intros k E. cbn in E. assert (k = 8%nat) by (destruct (op =? _) in E; cbn in E; congruence). lia. }
  cbn [app length] in Hc. destruct c as [|c]; [lia|]. exists c. split; [lia|].
  eapply goes_trans; [exact Hg|]. by apply postfix_member.
Qed.

Lemma sep_by_length {A} (c : A) (l : list (list A)) : Forall (fun x => (0 < length x)%nat) l -> (length l <= length (sep_by c l))%nat.
Proof.
  induction 1 as [|x l Hx Hl IH]; [done|]. destruct l as [|y l]; [cbn; lia|].
  change (sep_by c (x :: y :: l)) with (x ++ c :: sep_by c (y :: l)). rewrite length_app. cbn [length] in *. lia.
Qed.

Lemma print_expr_pos k e : is_expr e = true -> (0 < length (print_expr k e))%nat.
Proof.
  intros He. pose proof (print_starts _ e (Nat.lt_succ_diag_r _) He) as [_ Hs]. specialize (Hs k).
  destruct (print_expr k e); [done|cbn; lia].
Qed.

Lemma own_call_case f args :
  no_zero f = true -> (length args <= 16)%nat -> forallb is_expr args = true -> (forall a, a ∈ args -> parses a) -> own (AST_CALL f args).
Proof.
  intros Hf Hl He Ha n rest Hn. cbn [level]. intros Hs. exists n. split; [by eapply app_length_lt|].
  set (ts := sep_by (pt TOK_COMMA) (map (print_expr 0) args)).
  assert (HB : (length (ts ++ pt TOK_RPAREN :: rest) < pred n)%nat).
  { cbn [print_expr level Nat.ltb Nat.leb app length] in Hn. fold ts in Hn. rewrite <- app_assoc in Hn. cbn [app] in Hn. lia. }
  assert (Hc : (length args <= length ts)%nat).
  { rewrite <- (length_map (print_expr 0)). apply sep_by_length. apply List.Forall_map, Forall_forall. intros a Hin. apply print_expr_pos.
    apply forallb_forall with (x := a) in He; [done|by apply list_elem_of_In]. }
  apply postfix_primary; [done|]. apply (primary_call _ _ (pred n)); [|done|done|done| |done].
  - intros a rest' Hin Hs' Hlen. apply (ps_at _ (Ha a Hin) 0 (pred n)); [lia|done|done].
  - rewrite length_app in HB. lia.
Qed.

Lemma expr_parses m : forall e, (node_size e < m)%nat -> is_expr e = true -> parses e.
Proof.
  induction m as [|m IH]; intros e Hm He; [lia|]. apply own_parses; [done|]. destruct e; cbn in He; try discriminate; cbn [node_size] in Hm.
  - destruct name; [done|]. zbool. apply own_assign_case; apply IH; (lia || done).
  - zbool. apply own_binary_case; [done|apply IH; (lia || done)..].
  - zbool. apply (own_prefix_case (AST_UNARY op) (if op =? 45 then TOK_MINUS else TOK_NOT)); [|apply IH; (lia || done)|done|done].
    intros c postfix ts rest. assert (Ho : op = 45 \/ op = 33) by lia. cbn [parse_unary]. apply goes_no_error.
    destruct Ho as [-> | ->]; cbn [Z.eqb Pos.eqb]; [by apply (goes_match _ (pt TOK_MINUS)), goes_refl|].
    apply goes_no_match; [done|]. apply (goes_match _ (pt TOK_NOT)), goes_refl.
  - intros n rest Hn. cbn [level]. intros Hs. exists n. split; [by eapply app_length_lt|]. apply postfix_primary; [done|]. apply primary_number.
  - intros n rest Hn. cbn [level]. intros Hs. exists n. split; [by eapply app_length_lt|]. apply postfix_primary; [done|].
    apply primary_ident; [done|]. by eapply stops_not.
  - intros n rest Hn. cbn [level]. intros Hs. exists n. split; [by eapply app_length_lt|]. apply postfix_primary; [done|]. by apply primary_string.
  - zbool. match goal with H : (_ <=? _)%nat = true |- _ => apply Nat.leb_le in H end. apply own_call_case; [done|done|done|].
    intros a Ha. apply IH; [apply node_size_elem in Ha; lia|]. match goal with H : forallb _ _ = true |- _ => eapply forallb_forall in H; [done|by apply list_elem_of_In] end.
  - zbool. apply own_index_case; apply IH; (lia || done).
  - zbool. apply own_member_case; [done|cbn [tok_code]; lia|apply IH; (lia || done)].
  - apply (own_prefix_case AST_ADDR TOK_AMP); [|apply IH; (lia || done)|done|done]. intros c postfix ts rest. cbn [parse_unary]. apply goes_no_error.
    do 2 (apply goes_no_match; [done|]). apply (goes_match _ (pt TOK_AMP)), goes_refl.
  - apply (own_prefix_case AST_DEREF TOK_STAR); [|apply IH; (lia || done)|done|done]. intros c postfix ts rest. cbn [parse_unary]. apply goes_no_error.
    do 3 (apply goes_no_match; [done|]). apply (goes_match _ (pt TOK_STAR)), goes_refl.
Qed.

(** ** Statements *)

(** Lengths of concatenations; [Hn] bounds the whole. *)
Ltac len_lia Hn :=
  revert Hn; clear; intros Hn; repeat first [rewrite length_app in Hn | rewrite length_app | progress cbn [length app] in Hn |- *]; lia.

Lemma expr_yields e n rest :
  is_expr e = true -> tok_level (first rest) = None -> (length (print_expr 0 e ++ rest) < n)%nat ->
  yields (parse_expr n) (print_expr 0 e) e rest.
Proof. intros He Hr Hn. apply (ps_at _ (expr_parses _ e (Nat.lt_succ_diag_r _) He) 0 n); [lia|by apply stops_none|done]. Qed.

Lemma expr_first e k rest : is_expr e = true -> starts_expr (print_expr k e ++ rest).
Proof. intros He. apply starts_expr_app. by apply (print_starts _ e (Nat.lt_succ_diag_r _) He). Qed.

(** An expression that may be missing, before [t]. *)
Lemma opt_expr_yields e n t rest :
  is_opt_expr e = true -> t = TOK_SEMICOLON \/ t = TOK_RPAREN -> (length (opt_expr e ++ pt t :: rest) < n)%nat ->
  yields (if tok_eqb (first (opt_expr e ++ pt t :: rest)) t then ret NULL else parse_expr n) (opt_expr e) e (pt t :: rest).
Proof.
  intros He Ht Hn. unfold opt_expr, is_opt_expr in *. destruct (is_null e) eqn:En.
  - destruct e; try done. cbn [app first pt make_token t_type]. rewrite tok_eqb_refl. apply goes_refl.
  - cbn [orb] in He. pose proof (expr_first e 0 (pt t :: rest) He) as Hf. unfold starts_expr in Hf.
    destruct (tok_eqb_spec (first (print_expr 0 e ++ pt t :: rest)) t) as [E|E]; [rewrite E in Hf; by destruct Ht as [-> | ->]|].
    apply expr_yields; [done|by destruct Ht as [-> | ->]|done].
Qed.

Lemma skip_type_int rest : yields skip_type_specifier [kw TOK_INT] tt rest.
Proof.
  unfold skip_type_specifier. apply goes_current. apply (goes_bind _ _ _ tt [] [kw TOK_INT]); [apply goes_refl|].
  apply goes_current, yields_advance.
Qed.

Lemma skip_stars_none n rest : (0 < n)%nat -> first rest <> TOK_STAR -> yields (skip_stars n) [] tt rest.
Proof.
  intros Hn Hf. destruct n as [|n]; [lia|]. cbn [skip_stars]. apply goes_current. cbn [app].
  destruct (tok_eqb_spec (first rest) TOK_STAR); [done|]. apply goes_refl.
Qed.

Lemma goes_bind_nil {A B} (m : parse B) (f : B -> parse A) k b ts rest :
  yields m ts b rest -> goes (f b) k [] rest -> goes (bind m f) k ts rest.
Proof. intros Hm Hf. rewrite <- (app_nil_r ts). by eapply goes_bind. Qed.

Lemma var_decl_print x init n rest :
  no_zero x = true -> is_opt_expr init = true -> (length (print_stmt (AST_VAR_DECL x init) ++ rest) < n)%nat ->
  yields (parse_var_decl n) (print_stmt (AST_VAR_DECL x init)) (AST_VAR_DECL x init) rest.
Proof.
  intros Hx Hi Hn. cbn [print_stmt] in *. pose proof (app_length_lt _ _ _ Hn) as [_ H0]. unfold parse_var_decl.
  apply (goes_bind _ _ _ tt [kw TOK_INT]); [apply skip_type_int|].
  eapply goes_peek; [by apply skip_stars_none|]. apply goes_token, goes_advance. cbn [t_type ident tok_eqb Z.eqb Pos.eqb negb t_text].
  replace (AST_VAR_DECL x init) with (ast_var_decl x init) by (unfold ast_var_decl; by rewrite strdup_id).
  unfold opt in *. destruct (is_null init) eqn:En.
  - destruct init; try done. cbn [app]. apply goes_no_match; [done|]. eapply goes_peek; [apply goes_refl|].
    apply (goes_expect _ (pt TOK_SEMICOLON)), goes_refl.
  - unfold is_opt_expr in Hi. rewrite En in Hi. cbn [app orb] in *. apply (goes_match _ (pt TOK_ASSIGN)). eapply goes_bind.
    { apply expr_yields; [done|done|]. cbn [length] in Hn. rewrite <- app_assoc in Hn. lia. }
    apply (goes_expect _ (pt TOK_SEMICOLON)), goes_refl.
Qed.

Lemma stmt_first s rest : is_stmt s = true ->
  first (print_stmt s ++ rest) <> TOK_RBRACE /\ first (print_stmt s ++ rest) <> TOK_EOF /\ first (print_stmt s ++ rest) <> TOK_ELSE.
Proof.
  destruct s; cbn [is_stmt]; try done. intros He. cbn [print_stmt]. rewrite <- app_assoc.
  pose proof (expr_first s 0 ([pt TOK_SEMICOLON] ++ rest) He) as Hf. unfold starts_expr in Hf.
  repeat split; intros E; by rewrite E in Hf.
Qed.

Section statement.
Context (n : nat).

(** The statement [s] is read by the recursive calls. *)
Definition stmt_ok (s : ASTNode) : Prop :=
  forall rest, (open_if s = true -> first rest <> TOK_ELSE) -> (length (print_stmt s ++ rest) < n)%nat ->
  yields (parse_stmt n) (print_stmt s) s rest.

Lemma if_print c t e rest :
  is_expr c = true -> is_stmt t = true -> is_stmt e = true -> (is_null e = false -> open_if t = false) ->
  stmt_ok t -> stmt_ok e -> (open_if (AST_IF c t e) = true -> first rest <> TOK_ELSE) ->
  (length (print_stmt (AST_IF c t e) ++ rest) < S n)%nat ->
  yields (parse_if (S n) (parse_stmt n)) (print_stmt (AST_IF c t e)) (AST_IF c t e) rest.
Proof.
  intros Hc Ht He Hd IHt IHe Ho Hn. cbn [print_stmt open_if] in *. unfold parse_if.
  apply (goes_expect _ (kw TOK_IF)), (goes_expect _ (pt TOK_LPAREN)).
  eapply goes_bind; [apply expr_yields; [done|done|len_lia Hn]|].
  apply (goes_expect _ (pt TOK_RPAREN)). eapply goes_bind.
  - apply IHt; [|len_lia Hn]. destruct (is_null e) eqn:En; [auto|]. rewrite Hd by done. done.
  - destruct (is_null e) eqn:En.
    + destruct e; try done. cbn [app]. apply goes_no_match; [by apply Ho|]. eapply goes_peek; [apply goes_refl|]. apply goes_refl.
    + apply (goes_match _ (kw TOK_ELSE)). apply goes_bind_nil with (b := e); [|apply goes_refl].
      apply IHe; [done|]. len_lia Hn.
Qed.
Lemma while_print c b rest :
  is_expr c = true -> stmt_ok b -> (open_if b = true -> first rest <> TOK_ELSE) ->
  (length (print_stmt (AST_WHILE c b) ++ rest) < S n)%nat ->
  yields (parse_while (S n) (parse_stmt n)) (print_stmt (AST_WHILE c b)) (AST_WHILE c b) rest.
Proof.
  intros Hc IHb Ho Hn. cbn [print_stmt] in *. unfold parse_while.
  apply (goes_expect _ (kw TOK_WHILE)), (goes_expect _ (pt TOK_LPAREN)).
  eapply goes_bind; [apply expr_yields; [done|done|len_lia Hn]|].
  apply (goes_expect _ (pt TOK_RPAREN)). apply goes_bind_nil with (b := b); [|apply goes_refl]. apply IHb; [done|]. len_lia Hn.
Qed.

Lemma for_init_print i rest :
  match i with NULL | AST_VAR_DECL _ _ | AST_EXPR_STMT _ => is_stmt i | _ => false end = true ->
  (length (print_stmt i ++ rest) < S n)%nat -> yields (for_init (S n)) (print_stmt i) i rest.
Proof.
  intros Hi Hn. unfold for_init. apply goes_current. destruct i; try done.
  - apply goes_advance, goes_refl.
  - cbn [is_stmt] in Hi. zbool. apply var_decl_print; done.
  - cbn [is_stmt print_stmt] in *. rewrite <- app_assoc. pose proof (expr_first i 0 ([pt TOK_SEMICOLON] ++ rest) Hi) as Hf.
    unfold starts_expr in Hf.
    destruct (tok_eqb_spec (first (print_expr 0 i ++ [pt TOK_SEMICOLON] ++ rest)) TOK_SEMICOLON) as [E|_]; [by rewrite E in Hf|].
    destruct (is_type_token _) eqn:Et; [by destruct (first _)|].
    eapply goes_bind; [apply expr_yields; [done|done|len_lia Hn]|]. apply (goes_expect _ (pt TOK_SEMICOLON)), goes_refl.
Qed.

Lemma for_print i c st b rest :
  match i with NULL | AST_VAR_DECL _ _ | AST_EXPR_STMT _ => is_stmt i | _ => false end = true ->
  is_opt_expr c = true -> is_opt_expr st = true -> stmt_ok b -> (open_if b = true -> first rest <> TOK_ELSE) ->
  (length (print_stmt (AST_FOR i c st b) ++ rest) < S n)%nat ->
  yields (parse_for (S n) (parse_stmt n)) (print_stmt (AST_FOR i c st b)) (AST_FOR i c st b) rest.
Proof.
  intros Hi Hc Hst IHb Ho Hn. cbn [print_stmt] in *. unfold parse_for.
  apply (goes_expect _ (kw TOK_FOR)), (goes_expect _ (pt TOK_LPAREN)).
  eapply goes_bind; [apply for_init_print; [done|len_lia Hn]|].
  apply goes_current. rewrite <- app_assoc. cbn [app].
  eapply goes_bind; [apply opt_expr_yields; [done|by left|len_lia Hn]|]. apply (goes_expect _ (pt TOK_SEMICOLON)).
  apply goes_current. rewrite <- app_assoc. cbn [app].
  eapply goes_bind; [apply opt_expr_yields; [done|by right|len_lia Hn]|]. apply (goes_expect _ (pt TOK_RPAREN)).
  apply goes_bind_nil with (b := b); [|apply goes_refl]. apply IHb; [done|]. len_lia Hn.
Qed.

Lemma return_print v rest :
  is_opt_expr v = true -> (length (print_stmt (AST_RETURN v) ++ rest) < S n)%nat ->
  yields (parse_return (S n)) (print_stmt (AST_RETURN v)) (AST_RETURN v) rest.
Proof.
  intros Hv Hn. cbn [print_stmt] in *. unfold parse_return. apply (goes_expect _ (kw TOK_RETURN)).
  apply goes_current. rewrite <- app_assoc. cbn [app].
  eapply goes_bind; [apply opt_expr_yields; [done|by left|len_lia Hn]|]. apply (goes_expect _ (pt TOK_SEMICOLON)), goes_refl.
Qed.

Lemma block_print l : forall c acc rest,
  (length acc + length l <= 64)%nat -> (length l < c)%nat ->
  forallb (fun s => negb (is_null s) && is_stmt s) l = true -> (forall s, s ∈ l -> stmt_ok s) ->
  (length (concat (map print_stmt l) ++ pt TOK_RBRACE :: rest) < n)%nat ->
  yields (block_loop c (parse_stmt n) (AST_BLOCK acc)) (concat (map print_stmt l)) (AST_BLOCK (acc ++ l)) (pt TOK_RBRACE :: rest).
Proof.
  induction l as [|s l IH]; intros c acc rest Hl Hc Hs IHs Hn; (destruct c as [|c]; [cbn in Hc; lia|]); cbn [block_loop]; apply goes_current.
  { rewrite app_nil_r. apply goes_refl. }
  cbn [map concat forallb length] in *. apply andb_true_iff in Hs as [Hs Hss]. zbool. rewrite <- app_assoc in *.
  set (next := concat (map print_stmt l) ++ pt TOK_RBRACE :: rest) in *.
  destruct (stmt_first s next) as (F1 & F2 & F3); [done|].
  destruct (tok_eqb_spec (first (print_stmt s ++ next)) TOK_RBRACE); [done|].
  destruct (tok_eqb_spec (first (print_stmt s ++ next)) TOK_EOF); [done|]. cbn [orb].
  assert (Fn : first next <> TOK_ELSE).
  { subst next. destruct l as [|s' l]; [done|]. cbn [map concat forallb] in *. zbool. rewrite <- app_assoc. by apply stmt_first. }
  eapply goes_bind; [apply IHs; [by left|done|done]|]. cbv zeta.
  match goal with H : is_null s = false |- _ => rewrite H end. apply goes_no_error. unfold ast_block_add.
  replace (length acc <? 64)%nat with true by (symmetry; apply Nat.ltb_lt; lia).
  replace (acc ++ s :: l) with ((acc ++ [s]) ++ l) by by rewrite <- app_assoc.
  apply IH; [rewrite length_app; cbn; lia|lia|done|by intros; apply IHs; right|]. fold next. len_lia Hn.
Qed.
End statement.

Lemma concat_length_pos {A B} (f : A -> list B) l :
  (forall x, x ∈ l -> 0 < length (f x))%nat -> (length l <= length (concat (map f l)))%nat.
Proof.
  induction l as [|x l IH]; intros Hf; cbn [map concat length]; [lia|]. rewrite length_app.
  pose proof (Hf x ltac:(by left)). specialize (IH ltac:(by intros; apply Hf; right)). lia.
Qed.

Lemma print_stmt_pos s : is_stmt s = true -> (0 < length (print_stmt s))%nat.
Proof. intros Hs. destruct (stmt_first s [] Hs) as (_ & H & _). rewrite app_nil_r in H. destruct (print_stmt s); [done|cbn; lia]. Qed.

(** A block, with any fuel for the statements. *)
Lemma parse_block_print l k n rest :
  is_stmt (AST_BLOCK l) = true -> (forall s, s ∈ l -> stmt_ok n s) -> (length (print_stmt (AST_BLOCK l) ++ rest) < S n)%nat -> (n <= k)%nat ->
  yields (parse_block k (parse_stmt n)) (print_stmt (AST_BLOCK l)) (AST_BLOCK l) rest.
Proof.
  intros Hs IHl Hn Hk. cbn [is_stmt print_stmt] in *. apply andb_true_iff in Hs as [H64 Hs]. apply Nat.leb_le in H64.
  assert (Hc : (length l <= length (concat (map print_stmt l)))%nat).
  { apply concat_length_pos. intros s Hin. apply print_stmt_pos. eapply forallb_forall in Hs; [|by apply list_elem_of_In]. by zbool. }
  unfold parse_block. apply (goes_expect _ (pt TOK_LBRACE)).
  eapply goes_bind; [apply (block_print n l k []); [done| |done|done|len_lia Hn]|].
  - rewrite length_app in Hn. cbn [length] in Hn. rewrite length_app in Hn. lia.
  - apply (goes_expect _ (pt TOK_RBRACE)), goes_refl.
Qed.

Lemma stmt_parses n : forall s, is_stmt s = true -> stmt_ok n s.
Proof.
  induction n as [|n IH]; intros s Hs rest Ho Hn; [lia|]. cbn [parse_stmt]. apply goes_no_error, goes_current.
  destruct s; cbn [is_stmt] in Hs; try discriminate.
  - apply goes_advance, goes_refl.
  - zbool. by apply var_decl_print.
  - by apply return_print.
  - zbool. apply if_print; [done..| |by apply IH|by apply IH|done|done].
    intros En. rewrite En in *. cbn [orb] in *. by zbool.
  - zbool. apply while_print; [done|by apply IH|done|done].
  - zbool. apply for_print; [done..|by apply IH|done|done].
  - unfold parse_break. apply (goes_expect _ (kw TOK_BREAK)), (goes_expect _ (pt TOK_SEMICOLON)), goes_refl.
  - unfold parse_continue. apply (goes_expect _ (kw TOK_CONTINUE)), (goes_expect _ (pt TOK_SEMICOLON)), goes_refl.
  - apply parse_block_print; [done| |done|lia]. intros s Hin. apply IH. apply andb_true_iff in Hs as [_ Hs].
    eapply forallb_forall in Hs; [|by apply list_elem_of_In]. by zbool.
  - cbn [print_stmt] in *. rewrite <- app_assoc. pose proof (expr_first s 0 ([pt TOK_SEMICOLON] ++ rest) Hs) as Hf.
    unfold starts_expr in Hf. unfold is_type_token.
    repeat match goal with |- context [tok_eqb (first ?l) ?t] => destruct (tok_eqb_spec (first l) t) as [E|_]; [by rewrite E in Hf|] end.
    cbn [orb]. unfold parse_expr_stmt. eapply goes_bind; [apply expr_yields; [done|done|len_lia Hn]|].
    apply (goes_expect _ (pt TOK_SEMICOLON)), goes_refl.
Qed.

(** ** Functions and programs *)

Lemma params_print params : forall c acc rest,
  params <> [] -> (length acc + length params <= 16)%nat -> (length params <= c)%nat -> forallb no_zero params = true ->
  yields (params_loop c acc) (sep_by (pt TOK_COMMA) (map (fun a => [kw TOK_INT; ident a]) params)) (Some (acc ++ params))
    (pt TOK_RPAREN :: rest).
Proof.
  induction params as [|a params IH]; intros c acc rest Hne Hl Hc Hz; [done|]. destruct c as [|c]; [cbn in Hc; lia|].
  cbn [length forallb] in *. apply andb_true_iff in Hz as [Ha Hz]. cbn [params_loop].
  assert (H16 : (16 <=? length acc)%nat = false) by (apply Nat.leb_gt; lia).
  assert (Hone : forall ts rest k, goes (bind (match_token TOK_COMMA) (fun b : bool => if b then params_loop c (acc ++ [a]) else ret (Some (acc ++ [a])))) k ts rest ->
            goes (params_loop (S c) acc) k (kw TOK_INT :: ident a :: ts) rest).
  { intros ts rest' k Hg. cbn [params_loop]. apply goes_current. apply (goes_bind _ _ _ tt [kw TOK_INT]); [apply skip_type_int|].
    eapply goes_peek; [apply skip_stars_none; [lia|done]|]. apply goes_token. cbn [t_type ident tok_eqb Z.eqb Pos.eqb negb t_text].
    rewrite H16. cbv zeta. apply goes_advance. by rewrite strdup_id. }
  destruct params as [|b params].
  - cbn [map sep_by]. apply Hone. apply goes_no_match; [done|]. apply goes_refl.
  - change (sep_by (pt TOK_COMMA) (map (fun a => [kw TOK_INT; ident a]) (a :: b :: params))) with
      (kw TOK_INT :: ident a :: pt TOK_COMMA :: sep_by (pt TOK_COMMA) (map (fun a => [kw TOK_INT; ident a]) (b :: params))).
    apply Hone. apply (goes_match _ (pt TOK_COMMA)).
    replace (acc ++ a :: b :: params) with ((acc ++ [a]) ++ b :: params) by by rewrite <- app_assoc.
    apply IH; [done|rewrite length_app; cbn [length] in *; lia|lia|done].
Qed.

Lemma func_print f n rest :
  is_func f = true -> (length (print_function f ++ rest) < n)%nat -> yields (parse_func_def n) (print_function f) f rest.
Proof.
  intros Hf Hn. destruct f as [| |name params body| | | | | | | | | | | | | | | | | | | | | | |]; try done.
  destruct body as [| | | | | | | | | | | | | | | |l| | | | | | | | |]; try done. cbn [is_func] in Hf. zbool.
  match goal with H : (length params <=? 16)%nat = true |- _ => apply Nat.leb_le in H end.
  cbn [print_function] in *. pose proof (app_length_lt _ _ _ Hn) as [_ Hpos]. unfold parse_func_def.
  apply (goes_bind _ _ _ tt [kw TOK_INT]); [apply skip_type_int|].
  eapply goes_peek; [by apply skip_stars_none|]. apply goes_token, goes_advance. cbn [t_type ident tok_eqb Z.eqb Pos.eqb negb t_text].
  apply (goes_expect _ (pt TOK_LPAREN)). apply goes_current.
  set (ps := map (fun a => [kw TOK_INT; ident a]) params) in *.
  replace (AST_FUNC_DEF name params (AST_BLOCK l)) with (ast_func_def name params (AST_BLOCK l)) by (unfold ast_func_def; by rewrite strdup_id).
  assert (Hp : (length params <= length (sep_by (pt TOK_COMMA) ps))%nat).
  { subst ps. rewrite <- (length_map (fun a => [kw TOK_INT; ident a]) params) at 1. apply sep_by_length. apply List.Forall_map, Forall_forall. intros. cbn. lia. }
  apply (goes_bind _ _ _ (Some params)).
  - destruct params as [|a params]; [apply goes_refl|]. match goal with |- context [tok_eqb ?x TOK_RPAREN] => replace (tok_eqb x TOK_RPAREN) with false by by destruct params end.
    apply (params_print _ _ []); [done|done| |done].
    revert Hn Hp. clear. intros Hn Hp. cbn [length app] in *. rewrite !length_app in Hn. cbn [length] in *. lia.
  - apply (goes_expect _ (pt TOK_RPAREN)). apply goes_bind_nil with (b := AST_BLOCK l); [|apply goes_refl].
    apply parse_block_print; [done| |len_lia Hn|lia]. intros s Hin. apply stmt_parses.
    match goal with H : is_stmt _ = true |- _ => cbn [is_stmt] in H; apply andb_true_iff in H as [_ H]; eapply forallb_forall in H; [|by apply list_elem_of_In] end. by zbool.
Qed.

Lemma program_print l : forall c acc,
  (length acc + length l <= 64)%nat -> (length (concat (map print_function l)) < c)%nat -> forallb is_func l = true ->
  yields (program_loop c acc) (concat (map print_function l)) (AST_PROGRAM (acc ++ l)) [].
Proof.
  induction l as [|f l IH]; intros c acc Hl Hc Hf; (destruct c as [|c]; [cbn in Hc; lia|]); cbn [program_loop]; apply goes_current.
  { rewrite (app_nil_r acc). apply goes_refl. }
  cbn [map concat forallb length] in *. apply andb_true_iff in Hf as [Hf Hfs]. rewrite app_nil_r.
  assert (Hn : exists r, print_function f = kw TOK_INT :: r).
  { destruct f; try done. by eexists. }
  destruct Hn as [r Hr]. replace (first (print_function f ++ concat (map print_function l))) with TOK_INT by by rewrite Hr.
  cbn [tok_eqb tok_code Z.eqb Pos.eqb is_type_token orb]. eapply goes_bind.
  { apply func_print; [done|]. rewrite app_nil_r. exact Hc. }
  replace (is_null f) with false by by destruct f. replace (64 <=? length acc)%nat with false by (symmetry; apply Nat.leb_gt; lia).
  apply goes_no_error. replace (acc ++ f :: l) with ((acc ++ [f]) ++ l) by by rewrite <- app_assoc.
  apply IH; [rewrite length_app; cbn; lia| |done]. rewrite Hr in Hc. len_lia Hc.
Qed.

Lemma print_tokens_length ts : (length ts <= length (print_tokens ts))%nat.
Proof. unfold print_tokens. induction ts as [|t ts IH]; cbn [fmap list_fmap concat length]; [lia|]. rewrite !length_app. cbn [length]. lia. Qed.

(** C31. The compiler's front end reads back what is printed: the text of a program, with
    parentheses only where the precedence and associativity of the operators require them
    and braces only where an [else] would go to the wrong [if], is parsed to the same tree
    without an error.  The program may use every expression and statement of the language,
    within the limits of the parser: 64 functions, 16 parameters or arguments, 64
    statements in a block. *)
Theorem print_parse_roundtrip (t : ASTNode) :
  is_source t = true -> front_end (print_tokens (program_tokens t)) = Ok (t, None).
Proof.
  unfold is_source. intros [Ht Hg]%andb_true_iff. destruct t as [|l| | | | | | | | | | | | | | | | | | | | | | | |]; try done.
  apply andb_true_iff in Ht as [Hl Hf]. apply Nat.leb_le in Hl. cbn [program_tokens] in *. set (ts := concat (map print_function l)) in *.
  assert (Hp : printed 1 (lexer_init (print_tokens ts)) ts).
  { split; [done|]. split; [by left|]. apply Forall_forall. intros t Ht. eapply forallb_forall in Hg; [|by apply list_elem_of_In]. done. }
  assert (Hi : exists p, parser_init (lexer_init (print_tokens ts)) = Ok p /\ reads p ts /\ (length ts <= size p)%nat).
  { unfold parser_init. destruct ts as [|t ts'] eqn:Ets.
    - destruct (printed_end _ _ Hp) as (lex' & -> & _). eexists. split; [done|]. split; [done|cbn; lia].
    - destruct (printed_next _ _ _ _ Hp) as (lex' & -> & Hp'). eexists. split; [done|]. split; [done|].
      destruct Hp' as (_ & Hr & Hgd). unfold size. cbn [p_lex p_current]. pose proof (print_tokens_length ts') as Hlen.
      destruct (decide (t_type t = TOK_EOF)) as [E|_].
      { cbn [forallb] in Hg. apply andb_true_iff in Hg as [Hg _]. unfold good_token in Hg. by rewrite E in Hg. }
      cbn [length]. destruct Hr as [-> | ->]; cbn [length]; lia. }
  destruct Hi as (p & Ep & Hr & Hsz). unfold front_end. rewrite Ep.
  destruct (program_print l (S (size p)) []) with (p := p) as (p' & E & He); [cbn; lia|fold ts; lia|done|by rewrite app_nil_r|].
  unfold parser_parse. rewrite E. cbn [ret]. destruct He as [He _]. by rewrite He.
Qed.

Lemma print_parse_roundtrip_witness :
  is_source demo_program = true /\ front_end (print_tokens (program_tokens demo_program)) = Ok (demo_program, None).
Proof. split; [vm_compute; reflexivity|]. apply (print_parse_roundtrip demo_program). vm_compute. reflexivity. Defined.

(** Beyond the limits: the sixty-fifth statement of a block is dropped without an error,
    and a seventeenth argument is written behind its buffer. *)
Example statement_dropped :
  match front_end (text "int f() {" ++ concat (replicate 65 (text "x;")) ++ text "}") with
  | Ok (AST_PROGRAM [AST_FUNC_DEF _ _ (AST_BLOCK l)], None) => length l = 64%nat
  | _ => False
  end.
Proof. vm_compute. reflexivity. Qed.

Example argument_overflow : front_end (text "int f() { g(0" ++ concat (replicate 16 (text ",0")) ++ text "); }") = Fault.
Proof. vm_compute. reflexivity. Qed.

Example function_overflow : front_end (concat (replicate 65 (text "int f() {}"))) = Fault.
Proof. vm_compute. reflexivity. Qed.
