(* ===== verification/CcGen.v ===== *)
(** * The code generator of the C compiler: apps/cc/codegen.c

    The generator's state is the bytes emitted so far and its tables.  A function that
    generates code maps the state to the state after it, [None] where the code writes
    behind one of its arrays: 256 locals, functions or calls to functions not yet
    generated, 64 nested loops.  The stacks of the loops ([break_begin],
    [continue_target], ... up to their depths) are lists.  Growing the buffers is not
    visible. *)

From stdpp Require Import strings.
From S2P Require Import Prelude CString Vfs Bytes CcLex CcParse.

(** ** State (codegen.h) *)

(** [continue_begin], [continue_target_known] and [continue_target] of one loop. *)
Record ContinueInfo := { c_begin : nat; c_known : bool; c_target : Z }.

Record CodeGen := {
  code : list Z;
  stack_offset : Z;
  locals : list (list Z * Z);
  funcs : list (list Z * Z);
  pending_calls : list (Z * list Z);
  break_begin : list nat;
  break_patches : list Z;
  continues : list ContinueInfo;
  continue_patches : list Z;
  rodata : list Z }.

Definition codegen_init : CodeGen :=
  {| code := []; stack_offset := 0; locals := []; funcs := []; pending_calls := []; break_begin := []; break_patches := [];
     continues := []; continue_patches := []; rodata := [] |}.

Definition set_code (f : list Z -> list Z) (cg : CodeGen) : CodeGen :=
  {| code := f (code cg); stack_offset := stack_offset cg; locals := locals cg; funcs := funcs cg;
     pending_calls := pending_calls cg; break_begin := break_begin cg; break_patches := break_patches cg;
     continues := continues cg; continue_patches := continue_patches cg; rodata := rodata cg |}.
Definition set_locals (off : Z) (l : list (list Z * Z)) (cg : CodeGen) : CodeGen :=
  {| code := code cg; stack_offset := off; locals := l; funcs := funcs cg;
     pending_calls := pending_calls cg; break_begin := break_begin cg; break_patches := break_patches cg;
     continues := continues cg; continue_patches := continue_patches cg; rodata := rodata cg |}.
Definition set_funcs (l : list (list Z * Z)) (cg : CodeGen) : CodeGen :=
  {| code := code cg; stack_offset := stack_offset cg; locals := locals cg; funcs := l;
     pending_calls := pending_calls cg; break_begin := break_begin cg; break_patches := break_patches cg;
     continues := continues cg; continue_patches := continue_patches cg; rodata := rodata cg |}.
Definition set_pending (l : list (Z * list Z)) (cg : CodeGen) : CodeGen :=
  {| code := code cg; stack_offset := stack_offset cg; locals := locals cg; funcs := funcs cg;
     pending_calls := l; break_begin := break_begin cg; break_patches := break_patches cg;
     continues := continues cg; continue_patches := continue_patches cg; rodata := rodata cg |}.
Definition set_breaks (b : list nat) (l : list Z) (cg : CodeGen) : CodeGen :=
  {| code := code cg; stack_offset := stack_offset cg; locals := locals cg; funcs := funcs cg;
     pending_calls := pending_calls cg; break_begin := b; break_patches := l;
     continues := continues cg; continue_patches := continue_patches cg; rodata := rodata cg |}.
Definition set_continues (c : list ContinueInfo) (l : list Z) (cg : CodeGen) : CodeGen :=
  {| code := code cg; stack_offset := stack_offset cg; locals := locals cg; funcs := funcs cg;
     pending_calls := pending_calls cg; break_begin := break_begin cg; break_patches := break_patches cg;
     continues := c; continue_patches := l; rodata := rodata cg |}.
Definition set_rodata (l : list Z) (cg : CodeGen) : CodeGen :=
  {| code := code cg; stack_offset := stack_offset cg; locals := locals cg; funcs := funcs cg;
     pending_calls := pending_calls cg; break_begin := break_begin cg; break_patches := break_patches cg;
     continues := continues cg; continue_patches := continue_patches cg; rodata := l |}.

Definition cg_size (cg : CodeGen) : Z := Z.of_nat (length (code cg)).

Lemma CodeGen_eq a b :
  code a = code b -> stack_offset a = stack_offset b -> locals a = locals b -> funcs a = funcs b ->
  pending_calls a = pending_calls b -> break_begin a = break_begin b -> break_patches a = break_patches b ->
  continues a = continues b -> continue_patches a = continue_patches b -> rodata a = rodata b -> a = b.
Proof. destruct a, b. cbn. intros. congruence. Qed.

(** ** Emitting *)

Definition gen : Type := CodeGen -> option CodeGen.
Definition then_ (a b : gen) : gen := fun cg => match a cg with Some cg => b cg | None => None end.
Definition skip : gen := Some.

Declare Scope gen_scope.
Delimit Scope gen_scope with gen.
Notation "a ;; b" := (then_ a b) (at level 100, right associativity) : gen_scope.
Local Open Scope gen_scope.

(** A sequence of [emit_byte]; [emit_dword]. *)
Definition emit (bs : list Z) : gen := fun cg => Some (set_code (fun c => c ++ bs) cg).
Definition emit_dword (val : Z) : gen := emit (le32 (u32 val)).

Definition emit_rel32 (from to : Z) : gen := fun cg =>
  Some (set_code (store from (le32 (u32 (to - (from + 4))))) cg).

Definition find_local (cg : CodeGen) (name : list Z) : Z :=
  match find (fun l => str_eqb l.1 name) (locals cg) with Some l => l.2 | None => -1 end.

Definition add_local (name : list Z) : gen := fun cg =>
  if (256 <=? length (locals cg))%nat then None
  else let off := stack_offset cg - 8 in Some (set_locals off (locals cg ++ [(name, off)]) cg).

Definition emit_prologue : gen := emit [0x55; 0x48; 0x89; 0xE5].
Definition emit_epilogue : gen := emit [0x48; 0x89; 0xEC; 0x5D; 0xC3].

(** [xor rax, rax] *)
Definition zero_rax : gen := emit [0x48; 0x31; 0xC0].
(** [test rax, rax] *)
Definition test_rax : gen := emit [0x48; 0x85; 0xC0].
(** [mov [rbp + offset], rax] *)
Definition store_local (offset : Z) : gen := emit [0x48; 0x89; 0x85] ;; emit_dword offset.

(** The calls that return the position to patch pass it to [k]. *)
Definition emit_jmp_rel32 (k : Z -> gen) : gen :=
  emit [0xE9] ;; fun cg => (emit_dword 0 ;; k (cg_size cg)) cg.
Definition emit_je_rel32 (k : Z -> gen) : gen :=
  emit [0x0F; 0x84] ;; fun cg => (emit_dword 0 ;; k (cg_size cg)) cg.
Definition patch_jmp (patch_pos target : Z) : gen := emit_rel32 patch_pos target.

(** [patch_jmp(cg, patch, cg->size)] *)
Definition patch_here (patch_pos : Z) : gen := fun cg => patch_jmp patch_pos (cg_size cg) cg.

Definition add_break_patch (patch : Z) : gen := fun cg => Some (set_breaks (break_begin cg) (break_patches cg ++ [patch]) cg).
Definition add_continue_patch (patch : Z) : gen := fun cg =>
  Some (set_continues (continues cg) (continue_patches cg ++ [patch]) cg).

Fixpoint patch_list (l : list Z) (target : Z) : gen :=
  match l with
  | [] => skip
  | p :: l => patch_jmp p target ;; patch_list l target
  end.

Definition patch_breaks (begin : nat) (target : Z) : gen := fun cg =>
  (patch_list (drop begin (break_patches cg)) target ;;
   fun cg => Some (set_breaks (break_begin cg) (take begin (break_patches cg)) cg)) cg.
Definition patch_continues (begin : nat) (target : Z) : gen := fun cg =>
  (patch_list (drop begin (continue_patches cg)) target ;;
   fun cg => Some (set_continues (continues cg) (take begin (continue_patches cg)) cg)) cg.

(** Entering a loop, and leaving its [continue] and its [break] part. *)
Definition enter_loop (known : bool) (target : Z) : gen := fun cg =>
  if (64 <=? length (break_begin cg))%nat || (64 <=? length (continues cg))%nat then None
  else Some (set_continues
    (continues cg ++ [{| c_begin := length (continue_patches cg); c_known := known; c_target := target |}]) (continue_patches cg)
    (set_breaks (break_begin cg ++ [length (break_patches cg)]) (break_patches cg) cg)).

Definition end_continues (target : Z) : gen := fun cg =>
  match last (continues cg) with
  | Some c =>
      (patch_continues (c_begin c) target ;;
       fun cg => Some (set_continues (take (length (continues cg) - 1) (continues cg)) (continue_patches cg) cg)) cg
  | None => None
  end.
Definition end_breaks : gen := fun cg =>
  match last (break_begin cg) with
  | Some b =>
      (patch_breaks b (cg_size cg) ;;
       fun cg => Some (set_breaks (take (length (break_begin cg) - 1) (break_begin cg)) (break_patches cg) cg)) cg
  | None => None
  end.

(** ** Expressions *)

(** [node] is not null and is generated by [g], else [xor rax, rax]. *)
Definition expr_or_zero (node : ASTNode) (g : gen) : gen := if is_null node then zero_rax else g.

Definition gen_assign (name : option (list Z)) (lhs rhs : ASTNode) (gl gr : gen) : gen := fun cg =>
  match name with
  | Some name =>
      let offset := find_local cg name in
      if offset =? -1 then zero_rax cg
      else ((if is_null lhs then expr_or_zero rhs gr else gl) ;; store_local offset) cg
  | None =>
      match lhs with
      | AST_IDENT x =>
          let offset := find_local cg x in
          if offset =? -1 then expr_or_zero rhs gr cg else (expr_or_zero rhs gr ;; store_local offset) cg
      | _ => expr_or_zero rhs gr cg
      end
  end.

(** The register, or stack slot, of argument [i]. *)
Definition move_arg (i : nat) : list Z :=
  match i with
  | 0%nat => [0x48; 0x89; 0xC7]
  | 1%nat => [0x48; 0x89; 0xC6]
  | 2%nat => [0x48; 0x89; 0xC2]
  | 3%nat => [0x49; 0x89; 0xC1]
  | 4%nat => [0x49; 0x89; 0xC0]
  | 5%nat => [0x48; 0x89; 0xC1]
  | _ => [0x48; 0x89; 0x44; 0x24; u8 ((Z.of_nat i - 6) * 8)]
  end.

(** From the last argument to the first; [i] is the index of the head. *)
Fixpoint gen_args (i : nat) (args : list gen) : gen :=
  match args with
  | [] => skip
  | g :: args => gen_args (S i) args ;; g ;; emit (move_arg i)
  end.

Definition resolve_call (name : list Z) (call_pos : Z) : gen := fun cg =>
  match find (fun f => str_eqb f.1 name) (funcs cg) with
  | Some f => emit_rel32 call_pos f.2 cg
  | None =>
      if (256 <=? length (pending_calls cg))%nat then None
      else Some (set_pending (pending_calls cg ++ [(call_pos, name)]) cg)
  end.

Definition gen_call (name : list Z) (args : list gen) : gen :=
  let extra := Z.of_nat (length args) - 6 in
  (if 0 <? extra then emit [0x48; 0x81; 0xEC] ;; emit_dword (extra * 8) else skip) ;;
  gen_args 0 args ;;
  emit [0x48; 0x31; 0xC0; 0xE8] ;;
  (fun cg => (emit_dword 0 ;; resolve_call name (cg_size cg)) cg) ;;
  (if 0 <? extra then emit [0x48; 0x81; 0xC4] ;; emit_dword (extra * 8) else skip).

(** [setcc al; movzx rax, al] behind a comparison. *)
Definition set_rax (cc : Z) : list Z := [0x0F; cc; 0xC0; 0x48; 0x0F; 0xB6; 0xC0].

(** [setne al; push rax; test rcx, rcx; setne cl; pop rax] behind [test rax, rax]. *)
Definition to_bools : list Z := [0x48; 0x85; 0xC0; 0x0F; 0x95; 0xC0; 0x50; 0x48; 0x85; 0xC9; 0x0F; 0x95; 0xC1; 0x58].

(** The operator: the left operand is in [rax], the right one in [rcx]. *)
Definition binary_op (op : Z) : list Z :=
  if op =? 43 then [0x48; 0x01; 0xC8]
  else if op =? 45 then [0x48; 0x29; 0xC8]
  else if op =? 42 then [0x48; 0xF7; 0xE9]
  else if op =? 47 then [0x48; 0x99; 0x48; 0xF7; 0xF9]
  else if op =? 37 then [0x48; 0x99; 0x48; 0xF7; 0xF9; 0x48; 0x89; 0xD0]
  else if op =? tok_code TOK_EQ then [0x48; 0x39; 0xC8] ++ set_rax 0x94
  else if op =? tok_code TOK_NEQ then [0x48; 0x39; 0xC8] ++ set_rax 0x95
  else if op =? tok_code TOK_LT then [0x48; 0x39; 0xC8] ++ set_rax 0x9C
  else if op =? tok_code TOK_GT then [0x48; 0x39; 0xC8] ++ set_rax 0x9F
  else if op =? tok_code TOK_LE then [0x48; 0x39; 0xC8] ++ set_rax 0x9E
  else if op =? tok_code TOK_GE then [0x48; 0x39; 0xC8] ++ set_rax 0x9D
  else if op =? tok_code TOK_AND then to_bools ++ [0x48; 0x21; 0xC8]
  else if op =? tok_code TOK_OR then to_bools ++ [0x48; 0x09; 0xC8]
  else if op =? tok_code TOK_INC then [0x48; 0x01; 0xC8]
  else if op =? tok_code TOK_DEC then [0x48; 0x29; 0xC8]
  else [].

Definition unary_op (op : Z) : list Z :=
  if op =? 45 then [0x48; 0xF7; 0xD8]
  else if op =? 33 then [0x48; 0x85; 0xC0] ++ set_rax 0x94
  else [].

(** A string is copied with its zero; the displacement of the [lea] stays zero. *)
Definition gen_string (name : list Z) : gen := fun cg =>
  (emit [0x48; 0x8D; 0x05] ;; emit_dword 0) (set_rodata (rodata cg ++ name ++ [0]) cg).

Fixpoint gen_expr (node : ASTNode) : gen :=
  match node with
  | AST_NUMBER num_val => emit [0x48; 0xC7; 0xC0] ;; emit_dword num_val
  | AST_IDENT name => fun cg =>
      let offset := find_local cg name in
      if offset =? -1 then zero_rax cg else (emit [0x48; 0x8B; 0x85] ;; emit_dword offset) cg
  | AST_STRING name => gen_string name
  | AST_ADDR lhs => fun cg =>
      match lhs with
      | AST_IDENT name =>
          let offset := find_local cg name in
          if offset =? -1 then zero_rax cg else (emit [0x48; 0x8D; 0x85] ;; emit_dword offset) cg
      | _ => zero_rax cg
      end
  | AST_DEREF lhs => gen_expr lhs ;; emit [0x48; 0x8B; 0x00]
  | AST_INDEX lhs rhs =>
      gen_expr lhs ;; emit [0x50] ;; gen_expr rhs ;;
      emit [0x59; 0x48; 0xC1; 0xE1; 0x03; 0x48; 0x01; 0xC8; 0x48; 0x8B; 0x00]
  | AST_MEMBER lhs _ _ => gen_expr lhs
  | AST_SIZEOF _ => emit [0x48; 0xC7; 0xC0] ;; emit_dword 8
  | AST_BINARY op lhs rhs =>
      gen_expr rhs ;; emit [0x50] ;; gen_expr lhs ;; emit [0x59] ;; emit (binary_op op)
  | AST_UNARY op lhs => gen_expr lhs ;; emit (unary_op op)
  | AST_CALL name children => gen_call name (map gen_expr children)
  | AST_ASSIGN name lhs rhs => gen_assign name lhs rhs (gen_expr lhs) (gen_expr rhs)
  | _ => skip
  end.

(** ** Statements *)

Definition gen_var_decl (name : list Z) (lhs : ASTNode) : gen :=
  add_local name ;; fun cg =>
  let offset := stack_offset cg in
  (expr_or_zero lhs (gen_expr lhs) ;; store_local offset) cg.

(** The locals of a block end with it. *)
Definition gen_block (stmts : gen) : gen := fun cg =>
  (stmts ;; fun cg' => Some (set_locals (stack_offset cg) (take (length (locals cg)) (locals cg')) cg')) cg.

Fixpoint gen_seq (l : list gen) : gen :=
  match l with
  | [] => skip
  | g :: l => g ;; gen_seq l
  end.

Definition gen_if (cond : ASTNode) (then_body : gen) (else_body : option gen) : gen :=
  gen_expr cond ;; test_rax ;;
  emit_je_rel32 (fun patch1 =>
    then_body ;;
    match else_body with
    | Some else_body => emit_jmp_rel32 (fun patch2 => patch_here patch1 ;; else_body ;; patch_here patch2)
    | None => patch_here patch1
    end).

Definition gen_while (cond : ASTNode) (body : gen) : gen := fun cg =>
  let start_addr := cg_size cg in
  (enter_loop true start_addr ;;
   gen_expr cond ;; test_rax ;;
   emit_je_rel32 (fun patch_exit =>
     body ;;
     emit_jmp_rel32 (fun patch_back => patch_jmp patch_back start_addr) ;;
     end_continues start_addr ;;
     end_breaks ;;
     patch_here patch_exit)) cg.

Definition gen_for (init : gen) (cond step : ASTNode) (body : gen) : gen :=
  init ;;
  enter_loop false 0 ;; fun cg =>
  let cond_addr := cg_size cg in
  ((if is_null cond then emit [0x48; 0xC7; 0xC0] ;; emit_dword 1 else gen_expr cond) ;; test_rax ;;
   emit_je_rel32 (fun patch_exit =>
     body ;;
     (fun cg => end_continues (if is_null step then cond_addr else cg_size cg) cg) ;;
     gen_expr step ;;
     emit_jmp_rel32 (fun patch_back => patch_jmp patch_back cond_addr) ;;
     end_breaks ;;
     patch_here patch_exit)) cg.

Definition gen_break : gen := fun cg =>
  match break_begin cg with
  | [] => Some cg
  | _ => emit_jmp_rel32 (fun patch => add_break_patch patch) cg
  end.

Definition gen_continue : gen := fun cg =>
  match last (continues cg) with
  | None => Some cg
  | Some c => emit_jmp_rel32 (fun patch => if c_known c then patch_jmp patch (c_target c) else add_continue_patch patch) cg
  end.

Definition gen_return (lhs : ASTNode) : gen := expr_or_zero lhs (gen_expr lhs) ;; emit_epilogue.

Fixpoint gen_stmt (node : ASTNode) : gen :=
  match node with
  | AST_VAR_DECL name lhs => gen_var_decl name lhs
  | AST_ASSIGN name lhs rhs => gen_assign name lhs rhs (gen_expr lhs) (gen_expr rhs)
  | AST_IF cond then_body else_body =>
      gen_if cond (gen_stmt then_body) (if is_null else_body then None else Some (gen_stmt else_body))
  | AST_WHILE cond body => gen_while cond (gen_stmt body)
  | AST_FOR init cond step body => gen_for (gen_stmt init) cond step (gen_stmt body)
  | AST_BREAK => gen_break
  | AST_CONTINUE => gen_continue
  | AST_RETURN lhs => gen_return lhs
  | AST_BLOCK children => gen_block (gen_seq (map gen_stmt children))
  | AST_EXPR_STMT lhs => gen_expr lhs
  | _ => skip
  end.

(** ** Functions and programs *)

(** [mov [rbp + offset], reg] of parameter [i]. *)
Definition store_param (i : nat) : list Z :=
  match i with
  | 0%nat => [0x48; 0x89; 0xBD]
  | 1%nat => [0x48; 0x89; 0xB5]
  | 2%nat => [0x48; 0x89; 0x95]
  | 3%nat => [0x48; 0x89; 0x8D]
  | 4%nat => [0x4C; 0x89; 0x85]
  | _ => [0x4C; 0x89; 0x8D]
  end.

Fixpoint gen_params (i : nat) (params : list (list Z)) : gen :=
  match params with
  | [] => skip
  | x :: params =>
      if (i <? 6)%nat then
        emit (store_param i) ;; (fun cg => emit_dword (find_local cg x) cg) ;; gen_params (S i) params
      else skip
  end.

Definition gen_func (name : list Z) (params : list (list Z)) (body : ASTNode) : gen := fun cg =>
  if (256 <=? length (funcs cg))%nat then None else
  (gen_seq (map add_local (rev params)) ;;
   emit_prologue ;;
   gen_params 0 params ;;
   (fun cg => if stack_offset cg <? 0 then (emit [0x48; 0x81; 0xEC] ;; emit_dword (- stack_offset cg)) cg else Some cg) ;;
   (match body with AST_BLOCK l => gen_block (gen_seq (map gen_stmt l)) | _ => skip end) ;;
   zero_rax ;;
   emit_epilogue)
  (set_funcs (funcs cg ++ [(name, cg_size cg)]) (set_locals 0 [] cg)).

Definition gen_startup_stub : gen :=
  emit [0x48; 0x8B; 0x3C; 0x24; 0x48; 0x8D; 0x74; 0x24; 0x08; 0xE8] ;; (fun cg =>
  (emit_dword 0 ;;
   fun cg' => if (256 <=? length (pending_calls cg'))%nat then None
              else Some (set_pending (pending_calls cg' ++ [(cg_size cg, text "main")]) cg')) cg) ;;
  emit [0x48; 0x89; 0xC7; 0x48; 0x31; 0xC0; 0x0F; 0x05].

Definition resolve_pending (l : list (Z * list Z)) : gen :=
  gen_seq (map (fun pc => fun cg =>
    match find (fun f => str_eqb f.1 pc.2) (funcs cg) with
    | Some f => emit_rel32 pc.1 f.2 cg
    | None => Some cg
    end) l).

Definition is_main (f : ASTNode) : bool :=
  match f with AST_FUNC_DEF name _ _ => str_eqb name (text "main") | _ => false end.

(** The returned value and the generator; [-1] without a [main]. *)
Definition codegen_generate (children : list ASTNode) (cg : CodeGen) : option (Z * CodeGen) :=
  if existsb is_main children then
    match
      (gen_startup_stub ;;
       gen_seq (map (fun f => match f with AST_FUNC_DEF name params body => gen_func name params body | _ => skip end) children) ;;
       fun cg => resolve_pending (pending_calls cg) cg) cg
    with
    | Some cg => Some (0, cg)
    | None => None
    end
  else Some (-1, cg).

(** From the source to the code, as [main] does it. *)
Definition compile (src : list Z) : option CodeGen :=
  match front_end src with
  | Ok (AST_PROGRAM children, None) =>
      match codegen_generate children codegen_init with Some (0, cg) => Some cg | _ => None end
  | _ => None
  end.

Example compile_demo :
  code <$> compile (text "int main() { return 1; }") =
  Some ([0x48; 0x8B; 0x3C; 0x24; 0x48; 0x8D; 0x74; 0x24; 0x08; 0xE8; 8; 0; 0; 0; 0x48; 0x89; 0xC7; 0x48; 0x31; 0xC0; 0x0F; 0x05] ++
        [0x55; 0x48; 0x89; 0xE5; 0x48; 0xC7; 0xC0; 1; 0; 0; 0; 0x48; 0x89; 0xEC; 0x5D; 0xC3; 0x48; 0x31; 0xC0; 0x48; 0x89; 0xEC; 0x5D; 0xC3]).
Proof. vm_compute. reflexivity. Qed.
