(* ===== verification/X86.v ===== *)
(** * The processor, as far as the compiled programs use it

    The instructions of x86-64 that apps/cc/codegen.c emits: a decoder for their encodings
    and a step function.  Registers hold 64 bits, as [Z] in [0, 2^64); memory is words of
    64 bits at multiples of 8, and other accesses are stuck, as are instructions outside
    of the subset and jumps on flags that the last arithmetic instruction left in a state
    that is not modelled.  Being stuck is [None], so what is proved to run does not do
    any of this.  The code is not in the memory the program writes. *)

From S2P Require Import Prelude.

(** ** Instructions *)

Definition RAX : Z := 0.
Definition RCX : Z := 1.
Definition RDX : Z := 2.
Definition RSP : Z := 4.
Definition RBP : Z := 5.
Definition RSI : Z := 6.
Definition RDI : Z := 7.
Definition R8 : Z := 8.
Definition R9 : Z := 9.

(** A register, memory at a register plus a displacement, memory behind the instruction. *)
Inductive operand := Reg (r : Z) | Mem (base disp : Z) | Rip (disp : Z).

Inductive alu := Add | Or | And | Sub | Xor | Cmp | Test.

(** Conditions: equal, less (signed), less or equal, and their negations. *)
Inductive cond := E | NE | L | GE | LE | G.

Inductive instr :=
| Push (r : Z) | Pop (r : Z)
| Mov (dst src : operand) | Mov_imm (dst : operand) (v : Z) | Lea (r : Z) (src : operand)
| Alu (op : alu) (dst src : operand) | Alu_imm (op : alu) (dst : operand) (v : Z)
| Shl (dst : operand) (n : Z) | Neg (dst : operand) | Imul (src : operand) | Cqo | Idiv (src : operand)
| Setcc (c : cond) (r : Z) | Movzx (r src : Z)
| Jcc (c : cond) (rel : Z) | Jmp (rel : Z) | Call (rel : Z) | Ret | Syscall.

(** ** Decoding *)

Definition sx8 (b : Z) : Z := if b <? 128 then b else b - 256.
Definition dword (b0 b1 b2 b3 : Z) : Z := b0 + 256 * (b1 + 256 * (b2 + 256 * b3)).

Definition imm8 (l : list Z) : option (Z * list Z) :=
  match l with b :: l => Some (sx8 b, l) | [] => None end.
Definition imm32 (l : list Z) : option (Z * list Z) :=
  match l with b0 :: b1 :: b2 :: b3 :: l => Some (i32 (dword b0 b1 b2 b3), l) | _ => None end.

(** The base of a memory operand; of the index bytes only the one for [rsp] without an
    index is emitted. *)
Definition sib (rex_b rm : Z) (l : list Z) : option (Z * list Z) :=
  if rm =? 4 then match l with s :: l => if s =? 0x24 then Some (4, l) else None | [] => None end
  else Some (rm + 8 * rex_b, l).

(** The register field, the operand and what follows. *)
Definition modrm (rex : Z) (l : list Z) : option (Z * operand * list Z) :=
  match l with
  | [] => None
  | m :: l =>
      let mode := m / 64 in
      let reg := (m / 8) mod 8 + 8 * ((rex / 4) mod 2) in
      let rm := m mod 8 in
      let b := rex mod 2 in
      if mode =? 3 then Some (reg, Reg (rm + 8 * b), l)
      else if (mode =? 0) && (rm =? 5) then '(d, l) ← imm32 l; Some (reg, Rip d, l)
      else
        '(base, l) ← sib b rm l;
        if mode =? 0 then Some (reg, Mem base 0, l)
        else if mode =? 1 then '(d, l) ← imm8 l; Some (reg, Mem base d, l)
        else '(d, l) ← imm32 l; Some (reg, Mem base d, l)
  end.

Definition cond_of (c : Z) : option cond :=
  if c =? 4 then Some E else if c =? 5 then Some NE else if c =? 12 then Some L else if c =? 13 then Some GE
  else if c =? 14 then Some LE else if c =? 15 then Some G else None.

Definition alu_of (op : Z) : option alu :=
  if op =? 0x01 then Some Add else if op =? 0x09 then Some Or else if op =? 0x21 then Some And else if op =? 0x29 then Some Sub
  else if op =? 0x31 then Some Xor else if op =? 0x39 then Some Cmp else if op =? 0x85 then Some Test else None.

(** Behind the prefix of a 64-bit operation. *)
Definition decode_rex (rex : Z) (l : list Z) : option (instr * list Z) :=
  match l with
  | [] => None
  | op :: l =>
      if op =? 0x99 then Some (Cqo, l)
      else if op =? 0x0F then
        match l with
        | op2 :: l => if op2 =? 0xB6 then '(r, src, l) ← modrm rex l; match src with Reg s => if s <? 4 then Some (Movzx r s, l) else None | _ => None end else None
        | [] => None
        end
      else
        '(r, rm, l) ← modrm rex l;
        if op =? 0x89 then Some (Mov rm (Reg r), l)
        else if op =? 0x8B then Some (Mov (Reg r) rm, l)
        else if op =? 0x8D then Some (Lea r rm, l)
        else if op =? 0xC7 then '(v, l) ← imm32 l; if r mod 8 =? 0 then Some (Mov_imm rm v, l) else None
        else if op =? 0x81 then '(v, l) ← imm32 l;
          if r mod 8 =? 0 then Some (Alu_imm Add rm v, l) else if r mod 8 =? 5 then Some (Alu_imm Sub rm v, l) else None
        else if op =? 0xC1 then '(v, l) ← imm8 l; if r mod 8 =? 4 then Some (Shl rm v, l) else None
        else if op =? 0xF7 then
          if r mod 8 =? 3 then Some (Neg rm, l) else if r mod 8 =? 5 then Some (Imul rm, l)
          else if r mod 8 =? 7 then Some (Idiv rm, l) else None
        else o ← alu_of op; Some (Alu o rm (Reg r), l)
  end.

Definition decode_two (l : list Z) : option (instr * list Z) :=
  match l with
  | [] => None
  | op :: l =>
      if op =? 0x05 then Some (Syscall, l)
      else if op / 16 =? 8 then c ← cond_of (op mod 16); '(d, l) ← imm32 l; Some (Jcc c d, l)
      else if op / 16 =? 9 then c ← cond_of (op mod 16);
        '(_, rm, l) ← modrm 0 l; match rm with Reg r => if r <? 4 then Some (Setcc c r, l) else None | _ => None end
      else None
  end.

(** The instruction and the bytes behind it. *)
Definition decode (l : list Z) : option (instr * list Z) :=
  match l with
  | [] => None
  | op :: l =>
      if op / 8 =? 9 then decode_rex (op mod 8) l
      else if op / 8 =? 10 then Some (Push (op mod 8), l)
      else if op / 8 =? 11 then Some (Pop (op mod 8), l)
      else if op =? 0x0F then decode_two l
      else if op =? 0xC3 then Some (Ret, l)
      else if op =? 0xE8 then '(d, l) ← imm32 l; Some (Call d, l)
      else if op =? 0xE9 then '(d, l) ← imm32 l; Some (Jmp d, l)
      else None
  end.

(** ** State and steps *)

(** The flags are what the conditions test: equal and less. *)
Record machine := { regs : Z -> Z; flags : option (bool * bool); words : Z -> Z; rip : Z }.

Definition upd (f : Z -> Z) (a v : Z) : Z -> Z := fun x => if x =? a then v else f x.

Definition set_reg (r v : Z) (m : machine) : machine :=
  {| regs := upd (regs m) r v; flags := flags m; words := words m; rip := rip m |}.
Definition set_flags (f : option (bool * bool)) (m : machine) : machine :=
  {| regs := regs m; flags := f; words := words m; rip := rip m |}.
Definition set_word (a v : Z) (m : machine) : machine :=
  {| regs := regs m; flags := flags m; words := upd (words m) a v; rip := rip m |}.
Definition set_rip (a : Z) (m : machine) : machine :=
  {| regs := regs m; flags := flags m; words := words m; rip := a |}.

Definition load (a : Z) (m : machine) : option Z := if a mod 8 =? 0 then Some (words m a) else None.
Definition save (a v : Z) (m : machine) : option machine := if a mod 8 =? 0 then Some (set_word a v m) else None.

Definition address (o : operand) (m : machine) : Z :=
  match o with
  | Reg r => regs m r
  | Mem b d => u64 (regs m b + d)
  | Rip d => u64 (rip m + d)
  end.
Definition read (o : operand) (m : machine) : option Z :=
  match o with Reg r => Some (regs m r) | _ => load (address o m) m end.
Definition write (o : operand) (v : Z) (m : machine) : option machine :=
  match o with Reg r => Some (set_reg r v m) | _ => save (address o m) v m end.

Definition push (v : Z) (m : machine) : option machine :=
  let a := u64 (regs m RSP - 8) in save a v (set_reg RSP a m).
Definition pop (m : machine) : option (Z * machine) :=
  let a := regs m RSP in v ← load a m; Some (v, set_reg RSP (u64 (a + 8)) m).

Definition alu_op (op : alu) (a b : Z) : Z :=
  match op with
  | Add => u64 (a + b) | Sub | Cmp => u64 (a - b) | Xor => Z.lxor a b | And | Test => Z.land a b | Or => Z.lor a b
  end.

Definition alu_exec (op : alu) (dst : operand) (b : Z) (m : machine) : option machine :=
  a ← read dst m;
  match op with
  | Cmp => Some (set_flags (Some (a =? b, i64 a <? i64 b)) m)
  | Test => let v := Z.land a b in Some (set_flags (Some (v =? 0, i64 v <? 0)) m)
  | _ => write dst (alu_op op a b) (set_flags None m)
  end.

Definition holds (c : cond) (f : bool * bool) : bool :=
  let '(eq, lt) := f in
  match c with
  | E => eq | NE => negb eq | L => lt | GE => negb lt | LE => lt || eq | G => negb (lt || eq)
  end.

(** [m] has [rip] behind the instruction. *)
Definition exec (i : instr) (m : machine) : option machine :=
  match i with
  | Push r => push (regs m r) m
  | Pop r => '(v, m) ← pop m; Some (set_reg r v m)
  | Mov dst src => v ← read src m; write dst v m
  | Mov_imm dst v => write dst (u64 v) m
  | Lea r src => match src with Reg _ => None | _ => Some (set_reg r (address src m) m) end
  | Alu op dst src => v ← read src m; alu_exec op dst v m
  | Alu_imm op dst v => alu_exec op dst (u64 v) m
  | Shl dst n => v ← read dst m; write dst (u64 (Z.shiftl v n)) (set_flags None m)
  | Neg dst => v ← read dst m; write dst (u64 (- v)) (set_flags None m)
  | Imul src =>
      v ← read src m; let p := i64 (regs m RAX) * i64 v in
      Some (set_reg RDX (u64 (p / 2 ^ 64)) (set_reg RAX (u64 p) (set_flags None m)))
  | Cqo => Some (set_reg RDX (if i64 (regs m RAX) <? 0 then 2 ^ 64 - 1 else 0) m)
  | Idiv src =>
      v ← read src m;
      let n := i64 (regs m RDX) * 2 ^ 64 + regs m RAX in
      if (i64 v =? 0) then None else
      let q := Z.quot n (i64 v) in
      if (q <? - 2 ^ 63) || (2 ^ 63 <=? q) then None else
      Some (set_reg RDX (u64 (Z.rem n (i64 v))) (set_reg RAX (u64 q) (set_flags None m)))
  | Setcc c r =>
      f ← flags m; let v := regs m r in Some (set_reg r (v - v mod 256 + b2z (holds c f)) m)
  | Movzx r src => Some (set_reg r (regs m src mod 256) m)
  | Jcc c d => f ← flags m; Some (if holds c f then set_rip (u64 (rip m + d)) m else m)
  | Jmp d => Some (set_rip (u64 (rip m + d)) m)
  | Call d => m1 ← push (rip m) m; Some (set_rip (u64 (rip m + d)) m1)
  | Ret => '(v, m) ← pop m; Some (set_rip v m)
  | Syscall => None
  end.

Section run.
Context (base : Z) (code : list Z).

(** The bytes at an address. *)
Definition fetch (a : Z) : list Z := if a <? base then [] else drop (Z.to_nat (a - base)) code.

Definition step (m : machine) : option machine :=
  let l := fetch (rip m) in
  '(i, rest) ← decode l;
  exec i (set_rip (rip m + Z.of_nat (length l - length rest)) m).

Fixpoint run (n : nat) (m : machine) : option machine :=
  match n with
  | O => Some m
  | S n => m ← step m; run n m
  end.

(** [m'] is reached from [m]. *)
Definition reaches (m m' : machine) : Prop := exists n, run n m = Some m'.

Lemma reaches_refl m : reaches m m.
Proof. by exists 0%nat. Qed.

Lemma run_app n1 : forall n2 m, run (n1 + n2) m = (m ← run n1 m; run n2 m).
Proof. induction n1 as [|n1 IH]; intros n2 m; [done|]. cbn. destruct (step m); cbn; [apply IH|done]. Qed.

Lemma reaches_trans m1 m2 m3 : reaches m1 m2 -> reaches m2 m3 -> reaches m1 m3.
Proof. intros [n1 H1] [n2 H2]. exists (n1 + n2)%nat. rewrite run_app, H1. done. Qed.

Lemma reaches_step m1 m2 m3 : step m1 = Some m2 -> reaches m2 m3 -> reaches m1 m3.
Proof. intros Hs [n Hn]. exists (S n). cbn. by rewrite Hs. Qed.

(** Where the next instruction is a system call. *)
Definition at_syscall (m : machine) : bool :=
  match decode (fetch (rip m)) with Some (Syscall, _) => true | _ => false end.

Fixpoint run_to_syscall (n : nat) (m : machine) : option machine :=
  if at_syscall m then Some m else
  match n with O => None | S n => m ← step m; run_to_syscall n m end.
End run.
