(* ===== verification/CcDirect.v ===== *)
(** * Code generation without back patching

    codegen.c emits jumps and calls with a displacement of zero and fills it in when the
    target is known.  Here is the code as a function of its position, with every target
    computed from the sizes, for programs without declarations in function bodies, without
    strings, and whose functions are defined before they are called; and the proof that
    the generator emits it. *)

From stdpp Require Import strings.
From S2P Require Import Prelude CString Vfs Bytes CcLex CcParse CcGen.

(** ** Code that depends on its position *)

Definition pcode : Type := Z -> list Z.
Definition lenz (l : list Z) : Z := Z.of_nat (length l).

Definition pconst (l : list Z) : pcode := fun _ => l.
Definition pseq (a b : pcode) : pcode := fun pos => let x := a pos in x ++ b (pos + lenz x).

Declare Scope pcode_scope.
Delimit Scope pcode_scope with pcode.
Infix ">>" := pseq (at level 55, right associativity) : pcode_scope.
Local Open Scope pcode_scope.

Fixpoint pseqs (l : list pcode) : pcode :=
  match l with
  | [] => pconst []
  | c :: l => c >> pseqs l
  end.

Section code.
(** The locals of the function and the functions generated so far. *)
Context (loc : list (list Z * Z)) (fs : list (list Z * Z)).

Definition local_offset (x : list Z) : Z := match find (fun l => str_eqb l.1 x) loc with Some l => l.2 | None => -1 end.
Definition func_offset (f : list Z) : option Z := snd <$> find (fun g => str_eqb g.1 f) fs.

Definition c_zero : list Z := [0x48; 0x31; 0xC0].
Definition c_load (offset : Z) : list Z := [0x48; 0x8B; 0x85] ++ le32 (u32 offset).
Definition c_store (offset : Z) : list Z := [0x48; 0x89; 0x85] ++ le32 (u32 offset).
Definition c_number (v : Z) : list Z := [0x48; 0xC7; 0xC0] ++ le32 (u32 v).

(** With a local, or [xor rax, rax] for a name that is not one. *)
Definition with_local (x : list Z) (f : Z -> list Z) : list Z :=
  if local_offset x =? -1 then c_zero else f (local_offset x).

Fixpoint cargs (i : nat) (args : list pcode) : pcode :=
  match args with
  | [] => pconst []
  | c :: args => cargs (S i) args >> c >> pconst (move_arg i)
  end.

Definition c_call (f : list Z) : pcode := fun pos =>
  [0xE8] ++ le32 (u32 (default 0 (func_offset f) - (pos + 5))).

Fixpoint cexpr (e : ASTNode) : pcode :=
  match e with
  | AST_NUMBER v => pconst (c_number v)
  | AST_IDENT x => pconst (with_local x c_load)
  | AST_ADDR (AST_IDENT x) => pconst (with_local x (fun o => [0x48; 0x8D; 0x85] ++ le32 (u32 o)))
  | AST_ADDR _ => pconst c_zero
  | AST_DEREF l => cexpr l >> pconst [0x48; 0x8B; 0x00]
  | AST_INDEX l r =>
      cexpr l >> pconst [0x50] >> cexpr r >> pconst [0x59; 0x48; 0xC1; 0xE1; 0x03; 0x48; 0x01; 0xC8; 0x48; 0x8B; 0x00]
  | AST_MEMBER l _ _ => cexpr l
  | AST_SIZEOF _ => pconst (c_number 8)
  | AST_BINARY op l r => cexpr r >> pconst [0x50] >> cexpr l >> pconst ([0x59] ++ binary_op op)
  | AST_UNARY op l => cexpr l >> pconst (unary_op op)
  | AST_CALL f args => cargs 0 (map cexpr args) >> pconst c_zero >> c_call f
  | AST_ASSIGN None (AST_IDENT x) r =>
      if local_offset x =? -1 then cexpr r else cexpr r >> pconst (c_store (local_offset x))
  | AST_ASSIGN None _ r => cexpr r
  | _ => pconst []
  end.

(** What the generator translates as [cexpr] does. *)
Fixpoint direct_expr (e : ASTNode) : bool :=
  match e with
  | AST_NUMBER _ | AST_IDENT _ | AST_SIZEOF _ | AST_ADDR _ => true
  | AST_DEREF l | AST_MEMBER l _ _ | AST_UNARY _ l => direct_expr l
  | AST_INDEX l r | AST_BINARY _ l r => direct_expr l && direct_expr r
  | AST_CALL f args => bool_decide (is_Some (func_offset f)) && (length args <=? 6)%nat && forallb direct_expr args
  | AST_ASSIGN None _ r => direct_expr r && negb (is_null r)
  | _ => false
  end.

(** ** Statements

    [bt] and [ct] are the positions [break] and [continue] jump to, [None] for a
    displacement that is still zero. *)

Definition c_jmp (target : option Z) : pcode := fun pos =>
  [0xE9] ++ le32 (match target with Some t => u32 (t - (pos + 5)) | None => 0 end).
Definition c_test : list Z := [0x48; 0x85; 0xC0].
Definition c_je (over : Z) : list Z := [0x0F; 0x84] ++ le32 (u32 over).
Definition c_epilogue : list Z := [0x48; 0x89; 0xEC; 0x5D; 0xC3].
Definition expr_or (e : ASTNode) (c : list Z) : pcode := if is_null e then pconst c else cexpr e.

(** The condition, jumping over [over] bytes when it is zero. *)
Definition c_cond (cond : pcode) (over : Z) : pcode := cond >> pconst (c_test ++ c_je over).

(** [cond] at [pos], the body of [bl] bytes behind it, and [step] before the jump back;
    [body] gets its position, the position behind the loop and that of the step. *)
Definition c_loop (cond step : pcode) (bl : Z -> Z) (body : Z -> Z -> pcode) (no_step : bool) : pcode := fun pos =>
  let cl := lenz (cond pos) + 9 in
  let n := bl (pos + cl) in
  let step_pos := pos + cl + n in
  let sl := lenz (step step_pos) in
  let out := step_pos + sl + 5 in
  (c_cond cond (n + sl + 5) >> body out (if no_step then pos else step_pos) >> step >> c_jmp (Some pos)) pos.

Fixpoint cstmt (bt ct : option Z) (s : ASTNode) : pcode :=
  match s with
  | AST_EXPR_STMT e => cexpr e
  | AST_RETURN e => expr_or e c_zero >> pconst c_epilogue
  | AST_BLOCK l => pseqs (map (cstmt bt ct) l)
  | AST_IF c t e => fun pos =>
      let then_pos := pos + lenz (cexpr c pos) + 9 in
      let tl := lenz (cstmt bt ct t then_pos) in
      if is_null e then (c_cond (cexpr c) tl >> cstmt bt ct t) pos
      else
        let el := lenz (cstmt bt ct e (then_pos + tl + 5)) in
        (c_cond (cexpr c) (tl + 5) >> cstmt bt ct t >> (fun pos => c_jmp (Some (pos + 5 + el)) pos) >> cstmt bt ct e) pos
  | AST_WHILE c b =>
      c_loop (cexpr c) (pconst []) (fun pos => lenz (cstmt None None b pos)) (fun out next => cstmt (Some out) (Some next) b) true
  | AST_FOR i c st b =>
      cstmt bt ct i >>
      c_loop (expr_or c (c_number 1)) (expr_or st []) (fun pos => lenz (cstmt None None b pos))
        (fun out next => cstmt (Some out) (Some next) b) (is_null st)
  | AST_BREAK => c_jmp bt
  | AST_CONTINUE => c_jmp ct
  | _ => pconst []
  end.

(** The positions of the displacements of [break], or of [continue], in [s] at [pos]. *)
Fixpoint slots (brk : bool) (s : ASTNode) (pos : Z) : list Z :=
  match s with
  | AST_BREAK => if brk then [pos + 1] else []
  | AST_CONTINUE => if brk then [] else [pos + 1]
  | AST_BLOCK l =>
      (fix go l pos := match l with [] => [] | s :: l => slots brk s pos ++ go l (pos + lenz (cstmt None None s pos)) end) l pos
  | AST_IF c t e =>
      let then_pos := pos + lenz (cexpr c pos) + 9 in
      slots brk t then_pos ++ if is_null e then [] else slots brk e (then_pos + lenz (cstmt None None t then_pos) + 5)
  | _ => []
  end.

Definition direct_opt (e : ASTNode) : bool := is_null e || direct_expr e.

(** [loops] counts the loops around [s]. *)
Fixpoint direct_stmt (loops : nat) (s : ASTNode) : bool :=
  match s with
  | NULL => true
  | AST_EXPR_STMT e => direct_expr e
  | AST_RETURN e => direct_opt e
  | AST_BLOCK l => forallb (direct_stmt loops) l
  | AST_IF c t e => direct_expr c && direct_stmt loops t && direct_stmt loops e
  | AST_WHILE c b => (loops <? 64)%nat && direct_expr c && direct_stmt (S loops) b
  | AST_FOR i c st b =>
      (loops <? 64)%nat && match i with NULL | AST_EXPR_STMT _ => direct_stmt loops i | _ => false end &&
      direct_opt c && direct_opt st && direct_stmt (S loops) b
  | AST_BREAK | AST_CONTINUE => (0 <? loops)%nat
  | _ => false
  end.
End code.

(** ** The generator *)

(** [cg] with code and patches appended. *)
Definition extend (c bs cs : list Z) (cg : CodeGen) : CodeGen :=
  set_continues (continues cg) (continue_patches cg ++ cs)
    (set_breaks (break_begin cg) (break_patches cg ++ bs) (set_code (fun l => l ++ c) cg)).

Lemma extend_extend c1 c2 b1 b2 s1 s2 cg : extend c2 b2 s2 (extend c1 b1 s1 cg) = extend (c1 ++ c2) (b1 ++ b2) (s1 ++ s2) cg.
Proof. destruct cg. unfold extend, set_continues, set_breaks, set_code. cbn. by rewrite !app_assoc. Qed.

Lemma extend_split a l cg : extend (a ++ l) [] [] cg = extend l [] [] (extend a [] [] cg).
Proof. by rewrite extend_extend. Qed.

Lemma extend_nil cg : extend [] [] [] cg = cg.
Proof. destruct cg. unfold extend, set_continues, set_breaks, set_code. cbn. by rewrite !app_nil_r. Qed.

Lemma extend_size c bs cs cg : cg_size (extend c bs cs cg) = cg_size cg + lenz c.
Proof. unfold cg_size, lenz. cbn. rewrite length_app. lia. Qed.

Lemma emit_extend bs cg : emit bs cg = Some (extend bs [] [] cg).
Proof. destruct cg. unfold emit, extend, set_continues, set_breaks, set_code. cbn. by rewrite !app_nil_r. Qed.

Lemma emit_dword_extend l v cg : (emit l ;; emit_dword v)%gen cg = Some (extend (l ++ le32 (u32 v)) [] [] cg).
Proof. unfold then_, emit_dword. by rewrite !emit_extend, extend_extend. Qed.

Lemma store_mid a m b l : length m = length l -> store (lenz a) l (a ++ m ++ b) = a ++ l ++ b.
Proof.
  intros Hl. unfold store, lenz. rewrite Nat2Z.id, take_app_length. do 2 f_equal.
  rewrite <- Hl, app_assoc. rewrite <- length_app. by rewrite drop_app_length.
Qed.

Section emits.
Context (loc fs : list (list Z * Z)).

(** [g] appends [c], where the locals and functions are [loc] and [fs]. *)
Definition emits (g : gen) (c : pcode) : Prop :=
  forall cg, locals cg = loc -> funcs cg = fs -> g cg = Some (extend (c (cg_size cg)) [] [] cg).

Lemma emits_emit bs : emits (emit bs) (pconst bs).
Proof. intros cg _ _. apply emit_extend. Qed.

Lemma emits_skip : emits skip (pconst []).
Proof. intros cg _ _. by rewrite extend_nil. Qed.

Lemma emits_seq g1 g2 c1 c2 : emits g1 c1 -> emits g2 c2 -> emits (then_ g1 g2) (pseq c1 c2).
Proof.
  intros H1 H2 cg Hl Hf. unfold then_. rewrite H1 by done. rewrite H2 by done. by rewrite extend_extend, extend_size.
Qed.

Lemma emits_ext g c c' : (forall pos, c pos = c' pos) -> emits g c -> emits g c'.
Proof. intros E H cg Hl Hf. by rewrite H, E. Qed.

(** Two constants in a row. *)
Lemma emits_const g1 g2 l1 l2 : emits g1 (pconst l1) -> emits g2 (pconst l2) -> emits (then_ g1 g2) (pconst (l1 ++ l2)).
Proof. intros H1 H2. eapply emits_ext; [|by apply emits_seq]. done. Qed.

Lemma emits_args gs : forall cs i, Forall2 emits gs cs -> emits (gen_args i gs) (cargs i cs).
Proof.
  intros cs i Hg. revert i. induction Hg as [|g c gs cs Hg Hgs IH]; intros i; cbn [gen_args cargs]; [apply emits_skip|].
  apply emits_seq; [apply IH|]. apply emits_seq; [done|apply emits_emit].
Qed.

Lemma find_local_offset cg x : locals cg = loc -> find_local cg x = local_offset loc x.
Proof. intros <-. done. Qed.

Lemma patch_last cg c t k :
  store (cg_size cg + lenz c) (le32 (u32 (t - (cg_size cg + lenz c + 4)))) (code cg ++ (c ++ le32 (u32 0)) ++ k) =
  code cg ++ (c ++ le32 (u32 (t - (cg_size cg + lenz c + 4)))) ++ k.
Proof.
  replace (cg_size cg + lenz c) with (lenz (code cg ++ c)) by (unfold cg_size, lenz; rewrite length_app; lia).
  rewrite <- !app_assoc, !(app_assoc (code cg) c). by rewrite store_mid.
Qed.

Lemma emits_call f t : func_offset fs f = Some t ->
  emits (emit [0x48; 0x31; 0xC0; 0xE8] ;; (fun cg => (emit_dword 0 ;; resolve_call f (cg_size cg)) cg))%gen
        (pconst c_zero >> c_call fs f).
Proof.
  intros Ht cg Hl Hf. unfold then_ at 1. rewrite emit_extend. cbv beta. unfold then_, emit_dword. rewrite emit_extend, extend_extend.
  unfold resolve_call. change (funcs (extend _ _ _ cg)) with (funcs cg). rewrite Hf. unfold func_offset in Ht.
  destruct (find _ fs) as [[g o]|] eqn:E; [|done]. cbn in Ht. injection Ht as ->. cbn [snd]. unfold emit_rel32.
  rewrite extend_size. f_equal. apply CodeGen_eq; try reflexivity.
  pose proof (patch_last cg [0x48; 0x31; 0xC0; 0xE8] t []) as Hp. rewrite !app_nil_r in Hp.
  change (code (set_code ?f ?x)) with (f (code x)). change (code (extend ?c _ _ cg)) with (code cg ++ c).
  rewrite Hp. unfold pseq, pconst, c_call, func_offset. rewrite E. cbn [fmap option_fmap option_map snd default].
  change (lenz [72; 49; 192; 232]) with 4. change (lenz c_zero) with 3. unfold id.
  by replace (cg_size cg + 3 + 5) with (cg_size cg + 4 + 4) by lia.
Qed.
Lemma emits_expr m : forall e, (node_size e < m)%nat -> direct_expr fs e = true -> emits (gen_expr e) (cexpr loc fs e).
Proof.
  induction m as [|m IH]; intros e Hm He; [lia|]. destruct e; cbn [direct_expr] in He; try discriminate; cbn [node_size] in Hm; cbn [gen_expr cexpr]; zbool.
  - (* assignment *) destruct name; [done|]. zbool. intros cg Hl Hf. unfold gen_assign, expr_or_zero.
    match goal with H : is_null e2 = false |- _ => rewrite H end. pose proof (IH e2 ltac:(lia) ltac:(done)) as H2.
    destruct e1; try by apply H2. rewrite (find_local_offset cg) by done. destruct (local_offset loc name =? -1) eqn:E; [by apply H2|].
    apply (emits_seq _ _ _ (pconst (c_store (local_offset loc name))) H2); [|done|done]. apply emits_const; apply emits_emit.
  - (* binary *) repeat (apply emits_seq; [first [apply emits_emit|apply IH; [lia|done]]|]). apply emits_const; apply emits_emit.
  - (* unary *) apply emits_seq; [apply IH; [lia|done]|apply emits_emit].
  - (* number *) apply emits_const; apply emits_emit.
  - (* name *) intros cg Hl Hf. rewrite (find_local_offset cg) by done. unfold with_local, pconst.
    destruct (local_offset loc name =? -1); [apply emit_extend|]. apply emit_dword_extend.
  - (* call *)
    match goal with H : (_ <=? 6)%nat = true |- _ => apply Nat.leb_le in H end.
    match goal with H : bool_decide _ = true |- _ => apply bool_decide_eq_true in H as [t Ht] end.
    unfold gen_call. rewrite length_map. replace (0 <? Z.of_nat (length children) - 6) with false by lia.
    intros cg Hl Hf. unfold then_ at 1, skip at 1. revert cg Hl Hf.
    match goal with |- forall cg, _ -> _ -> ?G cg = Some (extend (?C _) _ _ cg) => change (emits G C) end.
    apply emits_seq.
    + apply emits_args. apply Forall2_fmap. apply Forall_Forall2_diag, Forall_forall. intros a Ha. apply IH; [apply node_size_elem in Ha; lia|].
      match goal with H : forallb _ _ = true |- _ => eapply forallb_forall in H; [done|by apply list_elem_of_In] end.
    + intros cg Hl Hf. pose proof (emits_call name t Ht cg Hl Hf) as Hc. unfold then_ in Hc |- *.
      destruct (emit [72; 49; 192; 232] cg) as [cg1|]; [|done]. by rewrite Hc.
  - (* index *) repeat (apply emits_seq; [first [apply emits_emit|apply IH; [lia|done]]|]). apply emits_emit.
  - (* member *) apply IH; [lia|done].
  - (* address *) intros cg Hl Hf. destruct e; try apply emit_extend. rewrite (find_local_offset cg) by done. unfold with_local, pconst.
    destruct (local_offset loc name =? -1); [apply emit_extend|]. apply emit_dword_extend.
  - (* dereference *) apply emits_seq; [apply IH; [lia|done]|apply emits_emit].
  - (* sizeof *) apply emits_const; apply emits_emit.
Qed.

Lemma gen_expr_emits e : direct_expr fs e = true -> emits (gen_expr e) (cexpr loc fs e).
Proof. apply (emits_expr (S (node_size e))). lia. Qed.
End emits.

(** ** Sizes and patches of statements *)

Section sizes.
Context (loc fs : list (list Z * Z)).
Notation cstmt := (cstmt loc fs). Notation slots := (slots loc fs).

Lemma lenz_app a b : lenz (a ++ b) = lenz a + lenz b.
Proof. unfold lenz. rewrite length_app. lia. Qed.
Lemma lenz_pseq a b pos : lenz (pseq a b pos) = lenz (a pos) + lenz (b (pos + lenz (a pos))).
Proof. unfold pseq. apply lenz_app. Qed.
Lemma lenz_nonneg l : 0 <= lenz l.
Proof. unfold lenz. lia. Qed.

(** A list of statements. *)
Fixpoint cstmts (bt ct : option Z) (l : list ASTNode) : pcode :=
  match l with
  | [] => pconst []
  | s :: l => cstmt bt ct s >> cstmts bt ct l
  end.
Fixpoint slots_list (brk : bool) (l : list ASTNode) (pos : Z) : list Z :=
  match l with
  | [] => []
  | s :: l => slots brk s pos ++ slots_list brk l (pos + lenz (cstmt None None s pos))
  end.

Lemma cstmt_block bt ct l : cstmt bt ct (AST_BLOCK l) = cstmts bt ct l.
Proof. cbn [CcDirect.cstmt]. induction l as [|s l IH]; [done|]. cbn [map pseqs cstmts]. by rewrite IH. Qed.

Lemma slots_block brk l : forall pos, slots brk (AST_BLOCK l) pos = slots_list brk l pos.
Proof. induction l as [|s l IH]; intros pos; [done|]. cbn [slots_list]. rewrite <- IH. done. Qed.

Lemma cstmt_size bt ct m : forall s pos, (node_size s < m)%nat -> lenz (cstmt bt ct s pos) = lenz (cstmt None None s pos).
Proof.
  induction m as [|m IH]; intros s pos Hm; [lia|]. destruct s; try done.
  - (* if *) cbn [node_size] in Hm. cbn [CcDirect.cstmt]. cbv zeta. set (tp := pos + lenz (cexpr loc fs s1 pos) + 9).
    rewrite (IH s2 tp) by lia. set (ep := tp + lenz (cstmt None None s2 tp) + 5). rewrite (IH s3 ep) by lia.
    assert (Ht : forall over, pos + lenz (c_cond (cexpr loc fs s1) over pos) = tp).
    { intros over. unfold c_cond, pseq, pconst. rewrite lenz_app. subst tp. unfold lenz, c_test, c_je. cbn [length app le32]. lia. }
    destruct (is_null s3); rewrite !lenz_pseq, !Ht, !(IH s2 tp) by lia; [done|]. do 2 f_equal.
    rewrite (IH s3) by lia. done.
  - (* for *) cbn [node_size] in Hm. cbn [CcDirect.cstmt]. rewrite !lenz_pseq. by rewrite (IH s1 pos) by lia.
  - (* block *) rewrite !cstmt_block. cbn [node_size] in Hm. revert pos.
    induction children as [|s l IHl]; intros pos; [done|]. cbn [cstmts map] in *. change (sum_list (node_size s :: map node_size l)) with (node_size s + sum_list (map node_size l))%nat in Hm.
    rewrite !lenz_pseq. rewrite (IH s) by lia. rewrite IHl by lia. done.
Qed.

Lemma cstmt_len bt ct s pos : lenz (cstmt bt ct s pos) = lenz (cstmt None None s pos).
Proof. apply (cstmt_size bt ct (S (node_size s))). lia. Qed.

(** [patch_list] on the code. *)
Definition patch_code (t : Z) (ps : list Z) (c : list Z) : list Z :=
  foldl (fun c p => store p (le32 (u32 (t - (p + 4)))) c) c ps.

Lemma patch_code_app t p1 p2 c : patch_code t (p1 ++ p2) c = patch_code t p2 (patch_code t p1 c).
Proof. apply foldl_app. Qed.

(** The code with the target [x] of [break], or of [continue]. *)
Definition target (brk : bool) (x o : option Z) (s : ASTNode) : pcode := if brk then cstmt x o s else cstmt o x s.

Lemma target_len brk x o s pos : lenz (target brk x o s pos) = lenz (cstmt None None s pos).
Proof. unfold target. destruct brk; apply cstmt_len. Qed.

Lemma patch_jmp_slot t pre post pos :
  lenz pre = pos -> patch_code t [pos + 1] (pre ++ c_jmp None pos ++ post) = pre ++ c_jmp (Some t) pos ++ post.
Proof.
  intros Hp. unfold patch_code, c_jmp. cbn [foldl].
  replace (pos + 1) with (lenz (pre ++ [0xE9])) by (rewrite lenz_app; unfold lenz at 2; cbn [length]; lia).
  rewrite <- !app_assoc, !(app_assoc pre [0xE9]). rewrite store_mid by done. do 4 f_equal.
  rewrite lenz_app. unfold lenz at 2. cbn [length]. lia.
Qed.

Lemma c_cond_len c over pos : lenz (c_cond c over pos) = lenz (c pos) + 9.
Proof. unfold c_cond, pseq, pconst. rewrite lenz_app. unfold lenz at 2. cbn [length app c_test c_je le32]. lia. Qed.

Lemma c_jmp_len x pos : lenz (c_jmp x pos) = 5.
Proof. done. Qed.

(** The pieces of an [if]. *)
Lemma cstmt_if bt ct c t e pos :
  let tp := pos + lenz (cexpr loc fs c pos) + 9 in
  let tl := lenz (cstmt None None t tp) in
  let ep := tp + tl + 5 in
  cstmt bt ct (AST_IF c t e) pos =
  if is_null e then c_cond (cexpr loc fs c) tl pos ++ cstmt bt ct t tp
  else c_cond (cexpr loc fs c) (tl + 5) pos ++ cstmt bt ct t tp ++ c_jmp (Some (ep + lenz (cstmt None None e ep))) (tp + tl) ++ cstmt bt ct e ep.
Proof.
  intros tp tl ep. cbn [CcDirect.cstmt]. cbv zeta. fold tp. rewrite (cstmt_len bt ct t tp). fold tl. fold ep. rewrite (cstmt_len bt ct e ep).
  destruct (is_null e); unfold pseq at 1; cbv zeta; rewrite c_cond_len, Z.add_assoc; fold tp; [done|].
  unfold pseq. cbv zeta. rewrite (cstmt_len bt ct t tp). fold tl. rewrite c_jmp_len. fold ep.
  by replace (tp + tl + 5 + lenz (cstmt None None e ep)) with (ep + lenz (cstmt None None e ep)) by lia.
Qed.

Lemma patch_slots m brk t o : forall s loops pre post pos,
  (node_size s < m)%nat -> direct_stmt fs loops s = true -> lenz pre = pos ->
  patch_code t (slots brk s pos) (pre ++ target brk None o s pos ++ post) = pre ++ target brk (Some t) o s pos ++ post.
Proof.
  induction m as [|m IH]; intros s loops pre post pos Hm Hs Hp; [lia|].
  destruct s; try (destruct brk; reflexivity); cbn [direct_stmt] in Hs; try discriminate; cbn [node_size] in Hm.
  - (* if *) zbool. pose proof (cstmt_if) as Hif. cbv zeta in Hif. cbn [CcDirect.slots]. cbv zeta.
    set (tp := pos + lenz (cexpr loc fs s1 pos) + 9) in *. set (ep := tp + lenz (cstmt None None s2 tp) + 5) in *.
    assert (Ht : forall x, target brk x o (AST_IF s1 s2 s3) pos =
      if is_null s3 then c_cond (cexpr loc fs s1) (lenz (cstmt None None s2 tp)) pos ++ target brk x o s2 tp
      else c_cond (cexpr loc fs s1) (lenz (cstmt None None s2 tp) + 5) pos ++ target brk x o s2 tp ++
           c_jmp (Some (ep + lenz (cstmt None None s3 ep))) (tp + lenz (cstmt None None s2 tp)) ++ target brk x o s3 ep).
    { intros x. unfold target. destruct brk; rewrite Hif; done. }
    rewrite !Ht, patch_code_app. destruct (is_null s3) eqn:En.
    + rewrite <- !app_assoc, !(app_assoc pre (c_cond _ _ _)). cbn [patch_code foldl]. apply (IH s2 loops); [lia|done|].
      rewrite lenz_app, c_cond_len. lia.
    + rewrite <- !app_assoc, !(app_assoc pre (c_cond _ _ _)). rewrite (IH s2 loops); [|lia|done|rewrite lenz_app, c_cond_len; lia].
      rewrite !(app_assoc _ (c_jmp _ _)), !(app_assoc (pre ++ _)). rewrite (IH s3 loops); [done|lia|done|].
      rewrite !lenz_app, c_cond_len, c_jmp_len, target_len. lia.
  - (* for *) zbool. unfold target. cbn [CcDirect.slots patch_code foldl]. destruct s1; try discriminate; destruct brk; reflexivity.
  - (* break *) destruct brk; [|done]. apply (patch_jmp_slot t pre post pos Hp).
  - (* continue *) destruct brk; [done|]. apply (patch_jmp_slot t pre post pos Hp).
  - (* block *) rewrite slots_block. assert (Ht : forall x, target brk x o (AST_BLOCK children) = if brk then cstmts x o children else cstmts o x children).
    { intros x. unfold target. destruct brk; apply cstmt_block. }
    rewrite !Ht. clear Ht. revert pre pos Hp. induction children as [|s l IHl]; intros pre pos Hp; [destruct brk; reflexivity|].
    cbn [forallb map] in *. change (sum_list (node_size s :: map node_size l)) with (node_size s + sum_list (map node_size l))%nat in Hm. zbool.
    assert (Ht : forall x, (if brk then cstmts x o (s :: l) else cstmts o x (s :: l)) pos =
       target brk x o s pos ++ (if brk then cstmts x o l else cstmts o x l) (pos + lenz (cstmt None None s pos))).
    { intros x. unfold target. destruct brk; cbn [cstmts]; unfold pseq; cbv zeta; by rewrite cstmt_len. }
    rewrite !Ht. cbn [slots_list]. rewrite patch_code_app, <- !app_assoc. rewrite (IH s loops); [|lia|done|done].
    rewrite !(app_assoc pre). rewrite IHl; [done|lia|done|]. rewrite lenz_app, target_len. lia.
Qed.
End sizes.

(** ** The generator on statements *)

Section statements.
Context (loc fs : list (list Z * Z)).
Notation cstmt := (cstmt loc fs). Notation slots := (slots loc fs).

(** Where [continue] jumps to, if that is known. *)
Definition known (cg : CodeGen) : option Z :=
  match last (continues cg) with Some c => if c_known c then Some (c_target c) else None | None => None end.

(** What a statement adds to the generator. *)
Definition after (s : ASTNode) (cg : CodeGen) : CodeGen :=
  let pos := cg_size cg in
  extend (cstmt None (known cg) s pos) (slots true s pos) (if known cg then [] else slots false s pos) cg.

(** [cg] inside of [loops] loops. *)
Definition in_loops (loops : nat) (cg : CodeGen) : Prop :=
  locals cg = loc /\ funcs cg = fs /\ length (break_begin cg) = loops /\ length (continues cg) = loops.

Lemma in_loops_extend loops c bs cs cg : in_loops loops cg -> in_loops loops (extend c bs cs cg).
Proof. done. Qed.

Lemma je_extend k cg : emit_je_rel32 k cg = k (cg_size cg + 2) (extend (c_je 0) [] [] cg).
Proof.
  unfold emit_je_rel32, then_, emit_dword. rewrite emit_extend, emit_extend, extend_extend, extend_size. done.
Qed.

Lemma jmp_extend k cg : emit_jmp_rel32 k cg = k (cg_size cg + 1) (extend (c_jmp None (cg_size cg)) [] [] cg).
Proof.
  unfold emit_jmp_rel32, then_, emit_dword. rewrite emit_extend, emit_extend, extend_extend, extend_size. done.
Qed.

(** Patching the displacement that follows [a] in the new code. *)
Lemma patch_extend a m b bs cs cg t p :
  p = cg_size cg + lenz a -> length m = 4%nat ->
  patch_jmp p t (extend (a ++ m ++ b) bs cs cg) = Some (extend (a ++ le32 (u32 (t - (p + 4))) ++ b) bs cs cg).
Proof.
  intros -> Hm. unfold patch_jmp, emit_rel32. f_equal. apply CodeGen_eq; try reflexivity.
  change (code (set_code ?f ?x)) with (f (code x)). change (code (extend ?c _ _ cg)) with (code cg ++ c).
  rewrite !(app_assoc (code cg) a). replace (cg_size cg + lenz a) with (lenz (code cg ++ a)) by (rewrite lenz_app; unfold lenz; done).
  by rewrite store_mid.
Qed.

Lemma patch_list_code ps t : forall cg, patch_list ps t cg = Some (set_code (patch_code t ps) cg).
Proof.
  induction ps as [|p ps IH]; intros cg; [by destruct cg|]. cbn [patch_list]. unfold then_, patch_jmp, emit_rel32. rewrite IH.
  by destruct cg.
Qed.

(** The state inside of a loop, and behind its [continue] part. *)
Definition in_break (cg : CodeGen) : CodeGen := set_breaks (break_begin cg ++ [length (break_patches cg)]) (break_patches cg) cg.
Definition in_loop (kn : bool) (t : Z) (cg : CodeGen) : CodeGen :=
  set_continues (continues cg ++ [{| c_begin := length (continue_patches cg); c_known := kn; c_target := t |}])
    (continue_patches cg) (in_break cg).

Lemma enter_loop_ok loops kn t cg : in_loops loops cg -> (loops < 64)%nat -> enter_loop kn t cg = Some (in_loop kn t cg).
Proof.
  intros (_ & _ & Hb & Hc) Hl. unfold enter_loop. rewrite Hb, Hc. by replace (64 <=? loops)%nat with false by (symmetry; apply Nat.leb_gt; lia).
Qed.

Lemma in_loops_loop loops kn t cg : in_loops loops cg -> in_loops (S loops) (in_loop kn t cg).
Proof. intros (H1 & H2 & H3 & H4). unfold in_loops. cbn. rewrite !length_app. cbn. repeat split; [done|done|lia|lia]. Qed.

Lemma known_loop kn t cg : known (in_loop kn t cg) = if kn then Some t else None.
Proof. unfold known. cbn. by rewrite last_snoc. Qed.

Lemma take_snoc {A} (l : list A) x : take (length (l ++ [x]) - 1) (l ++ [x]) = l.
Proof. rewrite length_app. cbn [length]. replace (length l + 1 - 1)%nat with (length l) by lia. apply take_app_length. Qed.

Lemma end_continues_ok t kn u c bs cs cg :
  end_continues t (extend c bs cs (in_loop kn u cg)) = Some (set_code (patch_code t cs) (extend c bs [] (in_break cg))).
Proof.
  unfold end_continues. replace (last (continues (extend c bs cs (in_loop kn u cg)))) with
    (Some {| c_begin := length (continue_patches cg); c_known := kn; c_target := u |}) by (cbn; by rewrite last_snoc).
  unfold then_, patch_continues, then_. cbn [c_begin]. rewrite patch_list_code.
  f_equal. apply CodeGen_eq; try reflexivity; cbn.
  - by rewrite drop_app_length.
  - by rewrite take_snoc.
  - by rewrite take_app_length, app_nil_r.
Qed.

Lemma end_breaks_ok c bs cg :
  end_breaks (extend c bs [] (in_break cg)) = Some (set_code (patch_code (cg_size cg + lenz c) bs) (extend c [] [] cg)).
Proof.
  unfold end_breaks. replace (last (break_begin (extend c bs [] (in_break cg)))) with (Some (length (break_patches cg))) by (cbn; by rewrite last_snoc).
  unfold then_, patch_breaks, then_. rewrite extend_size, patch_list_code. f_equal. apply CodeGen_eq; try reflexivity; cbn.
  - by rewrite drop_app_length.
  - by rewrite take_snoc.
  - by rewrite take_app_length, app_nil_r.
Qed.

Lemma set_code_extend f c c' bs cs cg : f (code cg ++ c) = code cg ++ c' -> set_code f (extend c bs cs cg) = extend c' bs cs cg.
Proof. intros E. apply CodeGen_eq; try reflexivity. exact E. Qed.

(** The body's slots, inside of the code of the loop. *)
Lemma patch_body brk t o b loops a d bs cs cg :
  direct_stmt fs loops b = true ->
  let pos := cg_size cg + lenz a in
  set_code (patch_code t (slots brk b pos)) (extend (a ++ target loc fs brk None o b pos ++ d) bs cs cg) =
  extend (a ++ target loc fs brk (Some t) o b pos ++ d) bs cs cg.
Proof.
  intros Hb pos. apply set_code_extend. rewrite !(app_assoc (code cg) a).
  apply (patch_slots loc fs (S (node_size b)) brk t o b loops); [lia|done|]. subst pos. rewrite lenz_app. done.
Qed.
(** The generator translates [s] as [cstmt] does. *)
Definition stmt_ok (loops : nat) (s : ASTNode) : Prop := forall cg, in_loops loops cg -> gen_stmt s cg = Some (after s cg).

Lemma emits_in loops g c cg : emits loc fs g c -> in_loops loops cg -> g cg = Some (extend (c (cg_size cg)) [] [] cg).
Proof. intros He (H1 & H2 & _). by apply He. Qed.

Lemma expr_or_emits e c l : direct_opt fs e = true -> emits loc fs c (pconst l) ->
  emits loc fs (if is_null e then c else gen_expr e) (expr_or loc fs e l).
Proof. unfold direct_opt, expr_or. intros He Hc. destruct (is_null e); [done|]. by apply gen_expr_emits. Qed.

Lemma no_slots c bs (k : option Z) cg : extend c bs (if k then [] else []) cg = extend c bs [] cg.
Proof. by destruct k. Qed.

Lemma test_rax_emits : emits loc fs test_rax (pconst c_test).
Proof. apply emits_emit. Qed.

Lemma seq_ok loops l : (forall s, s ∈ l -> stmt_ok loops s) -> forall cg, in_loops loops cg ->
  let pos := cg_size cg in
  gen_seq (map gen_stmt l) cg =
  Some (extend (cstmts loc fs None (known cg) l pos) (slots_list loc fs true l pos) (if known cg then [] else slots_list loc fs false l pos) cg).
Proof.
  intros Hl. induction l as [|s l IH]; intros cg Hc pos; cbn [map gen_seq cstmts slots_list].
  { unfold skip, pconst. rewrite no_slots. by rewrite extend_nil. }
  unfold then_. rewrite (Hl s) by (by left || done). unfold after. fold pos.
  rewrite IH; [|by intros; apply Hl; right|done]. rewrite extend_size, extend_extend. fold pos.
  change (known (extend _ _ _ cg)) with (known cg). unfold pseq. cbv zeta. rewrite !(cstmt_len loc fs None (known cg)). by destruct (known cg).
Qed.

Lemma block_ok loops l : (forall s, s ∈ l -> stmt_ok loops s) -> stmt_ok loops (AST_BLOCK l).
Proof.
  intros Hl cg Hc. cbn [gen_stmt]. unfold gen_block, then_. rewrite (seq_ok loops l Hl cg Hc). unfold after.
  rewrite cstmt_block, !slots_block. f_equal. apply CodeGen_eq; try reflexivity.
  cbn. by rewrite take_ge.
Qed.

(** The condition and the jump whose displacement is filled in later. *)
Lemma cond_je loops g c k cg :
  emits loc fs g c -> in_loops loops cg ->
  then_ g (then_ test_rax (emit_je_rel32 k)) cg =
  k (cg_size cg + lenz (c (cg_size cg)) + 5) (extend (c_cond c 0 (cg_size cg)) [] [] cg).
Proof.
  intros Hg Hc. unfold then_. rewrite (emits_in loops g c cg Hg Hc). rewrite (emits_in loops _ _ _ test_rax_emits) by done.
  rewrite extend_extend, je_extend, extend_extend, extend_size. f_equal.
  - unfold pconst. rewrite lenz_app. change (lenz c_test) with 3. lia.
  - unfold c_cond, pseq, pconst. cbv zeta. by rewrite <- app_assoc.
Qed.

Lemma c_cond_patch c pos v (rest : list Z) cg bs cs t :
  cg_size cg = pos -> u32 v = u32 (t - (pos + lenz (c pos) + 9)) ->
  patch_jmp (pos + lenz (c pos) + 5) t (extend (c_cond c 0 pos ++ rest) bs cs cg) = Some (extend (c_cond c v pos ++ rest) bs cs cg).
Proof.
  intros Hp Hv. assert (E : forall x, c_cond c x pos = (c pos ++ c_test ++ [0x0F; 0x84]) ++ le32 (u32 x)).
  { intros x. unfold c_cond, pseq, pconst, c_je. by rewrite <- !app_assoc. }
  rewrite !E, <- !(app_assoc (c pos ++ _)). rewrite (patch_extend _ (le32 (u32 0)) rest); [|rewrite lenz_app; change (lenz (c_test ++ [15; 132])) with 5; lia|done].
  rewrite Hv. do 6 f_equal. lia.
Qed.

Lemma if_ok loops c t e :
  direct_expr fs c = true -> stmt_ok loops t -> stmt_ok loops e -> stmt_ok loops (AST_IF c t e).
Proof.
  intros Hc Ht He cg Hin. cbn [gen_stmt]. unfold gen_if. rewrite (cond_je loops _ _ _ _ (gen_expr_emits loc fs c Hc) Hin).
  unfold after. set (pos := cg_size cg). rewrite cstmt_if. set (tp := pos + lenz (cexpr loc fs c pos) + 9). cbn [CcDirect.slots]. cbv zeta. fold tp.
  set (cg1 := extend (c_cond (cexpr loc fs c) 0 pos) [] [] cg). assert (Hp1 : cg_size cg1 = tp).
  { subst cg1. rewrite extend_size, c_cond_len. subst tp pos. lia. }
  assert (Hk : known cg1 = known cg) by done. set (k := known cg) in *.
  unfold then_. rewrite (Ht cg1) by done. unfold after. rewrite Hk, Hp1. subst cg1. rewrite extend_extend. cbn [app].
  destruct (is_null e) eqn:En.
  - unfold patch_here. rewrite extend_size, lenz_app, c_cond_len. fold pos.
    rewrite (c_cond_patch _ pos (lenz (cstmt None None t tp))); [|done|rewrite (cstmt_len loc fs None k); f_equal; subst tp; lia].
    rewrite !app_nil_r. done.
  - rewrite jmp_extend, extend_extend, extend_size, lenz_app, c_cond_len, (cstmt_len loc fs None k), !app_nil_r, <- app_assoc. fold pos.
    set (tl := lenz (cstmt None None t tp)). set (ep := tp + tl + 5). unfold patch_here at 1.
    rewrite extend_size, !lenz_app, c_cond_len, (cstmt_len loc fs None k), c_jmp_len. fold pos tl.
    rewrite (c_cond_patch _ pos (tl + 5)); [|done|f_equal; subst tp; lia].
    set (cg2 := extend _ _ _ cg). assert (Hp2 : cg_size cg2 = ep).
    { subst cg2. rewrite extend_size, !lenz_app, c_cond_len, (cstmt_len loc fs None k), c_jmp_len. fold pos tl. subst ep tp. lia. }
    rewrite (He cg2) by done. unfold after. change (known cg2) with (known cg). fold k. rewrite Hp2. subst cg2. rewrite extend_extend.
    unfold patch_here. rewrite extend_size, !lenz_app, c_cond_len, !(cstmt_len loc fs None k), c_jmp_len. fold pos tl.
    set (el := lenz (cstmt None None e ep)).
    assert (Ej : forall x q, (c_cond (cexpr loc fs c) (tl + 5) pos ++ cstmt None k t tp ++ c_jmp x q) ++ cstmt None k e ep =
      (c_cond (cexpr loc fs c) (tl + 5) pos ++ cstmt None k t tp ++ [0xE9]) ++ le32 (match x with Some t => u32 (t - (q + 5)) | None => 0 end) ++ cstmt None k e ep).
    { intros x q. unfold c_jmp. by rewrite <- !app_assoc. }
    rewrite Ej. rewrite patch_extend; [|rewrite !lenz_app, c_cond_len, (cstmt_len loc fs None k); fold tl; change (lenz [233]) with 1; subst pos; lia|done].
    do 2 f_equal; [|by destruct k].
    replace (c_cond (cexpr loc fs c) (tl + 5) pos ++ cstmt None k t tp ++ c_jmp (Some (ep + el)) (tp + tl) ++ cstmt None k e ep)
      with ((c_cond (cexpr loc fs c) (tl + 5) pos ++ cstmt None k t tp ++ c_jmp (Some (ep + el)) (tp + tl)) ++ cstmt None k e ep) by by rewrite <- !app_assoc.
    rewrite Ej. do 4 f_equal. subst ep tp. lia.
Qed.
Lemma jmp_back t a bs cs cg :
  emit_jmp_rel32 (fun p => patch_jmp p t) (extend a bs cs cg) =
  Some (extend (a ++ c_jmp (Some t) (cg_size cg + lenz a)) bs cs cg).
Proof.
  rewrite jmp_extend, extend_extend, extend_size, !app_nil_r. unfold c_jmp. rewrite !(app_assoc a [233]), <- (app_nil_r (le32 0)).
  rewrite patch_extend; [|rewrite lenz_app; change (lenz [233]) with 1; lia|done]. rewrite app_nil_r. do 5 f_equal. lia.
Qed.

(** The end of both loops: [tail] is the step and the jump back. *)
Lemma loop_finish c b ct tail loops cg :
  direct_stmt fs loops b = true ->
  let pos := cg_size cg in
  let bp := pos + lenz (c pos) + 9 in
  let n := lenz (cstmt None None b bp) in
  let out := bp + n + lenz tail in
  then_ end_breaks (patch_here (pos + lenz (c pos) + 5))
    (extend (c_cond c 0 pos ++ cstmt None ct b bp ++ tail) (slots true b bp) [] (in_break cg)) =
  Some (extend (c_cond c (n + lenz tail) pos ++ cstmt (Some out) ct b bp ++ tail) [] [] cg).
Proof.
  intros Hb pos bp n out. unfold then_. rewrite end_breaks_ok, !lenz_app, c_cond_len, (cstmt_len loc fs None ct). fold pos n.
  replace (pos + (lenz (c pos) + 9 + (n + lenz tail))) with out by (subst out bp; lia).
  pose proof (patch_body true out ct b loops (c_cond c 0 pos) tail [] [] cg Hb) as Hp. cbv zeta in Hp.
  rewrite c_cond_len, Z.add_assoc in Hp. unfold target in Hp. change (cg_size cg + lenz (c pos) + 9) with bp in Hp. rewrite Hp. clear Hp.
  unfold patch_here. rewrite extend_size, !lenz_app, c_cond_len, (cstmt_len loc fs (Some out) ct). fold pos n.
  apply c_cond_patch; [done|]. f_equal. subst bp out. lia.
Qed.

Lemma c_loop_eq cond step b no_step pos :
  let bp := pos + lenz (cond pos) + 9 in
  let n := lenz (cstmt None None b bp) in
  let sp := bp + n in
  let sl := lenz (step sp) in
  let out := sp + sl + 5 in
  let next := if no_step : bool then pos else sp in
  c_loop cond step (fun pos => lenz (cstmt None None b pos)) (fun out next => cstmt (Some out) (Some next) b) no_step pos =
  c_cond cond (n + sl + 5) pos ++ cstmt (Some out) (Some next) b bp ++ step sp ++ c_jmp (Some pos) (sp + sl).
Proof.
  intros bp n sp sl out next. unfold c_loop. cbv zeta. rewrite !Z.add_assoc. fold bp n sp sl out next. unfold pseq. cbv zeta.
  rewrite c_cond_len, !Z.add_assoc. fold bp. rewrite cstmt_len. fold n sp. by fold sl.
Qed.

Lemma while_ok loops c b :
  direct_expr fs c = true -> direct_stmt fs (S loops) b = true -> (loops < 64)%nat -> stmt_ok (S loops) b -> stmt_ok loops (AST_WHILE c b).
Proof.
  intros Hc Hb Hl IH cg Hin. cbn [gen_stmt]. unfold gen_while. unfold then_ at 1. rewrite (enter_loop_ok loops) by done.
  rewrite (cond_je (S loops) _ _ _ _ (gen_expr_emits loc fs c Hc)) by by apply in_loops_loop.
  change (cg_size (in_loop true (cg_size cg) cg)) with (cg_size cg). set (pos := cg_size cg). set (bp := pos + lenz (cexpr loc fs c pos) + 9).
  unfold then_ at 1. rewrite IH by by apply in_loops_extend, in_loops_loop. unfold after. rewrite extend_size, c_cond_len.
  change (known (extend ?a ?b ?c ?d)) with (known d). rewrite known_loop. change (cg_size (in_loop true pos cg)) with pos. rewrite Z.add_assoc. fold bp.
  rewrite extend_extend. cbn [app]. unfold then_ at 1. rewrite jmp_back. unfold then_ at 1. rewrite end_continues_ok.
  rewrite (set_code_extend (patch_code pos []) _ ((c_cond (cexpr loc fs c) 0 pos ++ cstmt None (Some pos) b bp) ++ c_jmp (Some pos)
    (pos + lenz (c_cond (cexpr loc fs c) 0 pos ++ cstmt None (Some pos) b bp)))) by done.
  rewrite <- app_assoc. etrans; [apply (loop_finish (cexpr loc fs c) b (Some pos) _ (S loops) cg Hb)|]. fold pos bp.
  unfold after. rewrite no_slots. do 2 f_equal. cbn [CcDirect.cstmt]. rewrite c_loop_eq. fold pos bp. unfold pconst. change (lenz []) with 0.
  rewrite lenz_app, c_cond_len, (cstmt_len loc fs None (Some pos)), c_jmp_len. cbn [app]. rewrite !Z.add_0_r. do 3 f_equal. subst bp. lia.
Qed.

Lemma for_ok loops i c st b :
  stmt_ok loops i -> slots true i = (fun _ => []) -> slots false i = (fun _ => []) -> (forall x, cstmt None x i = cstmt None None i) ->
  direct_opt fs c = true -> direct_opt fs st = true -> direct_stmt fs (S loops) b = true -> (loops < 64)%nat ->
  stmt_ok (S loops) b -> stmt_ok loops (AST_FOR i c st b).
Proof.
  intros Hi Hs1 Hs2 Hx Hc Hst Hb Hl IH cg Hin. cbn [gen_stmt]. unfold gen_for. unfold then_ at 1. rewrite Hi by done.
  unfold after. cbn [CcDirect.slots]. rewrite Hs1, Hs2, !no_slots. cbn [CcDirect.cstmt]. unfold pseq. cbv zeta. rewrite !Hx.
  set (cg0 := extend (cstmt None None i (cg_size cg)) [] [] cg).
  assert (Hin0 : in_loops loops cg0) by done.
  assert (Hpos : cg_size cg0 = cg_size cg + lenz (cstmt None None i (cg_size cg))) by (subst cg0; apply extend_size).
  rewrite <- Hpos. set (pos := cg_size cg0) in *.
  rewrite extend_split. fold cg0.
  unfold then_ at 1. rewrite (enter_loop_ok loops) by done. cbv beta zeta.
  set (C := expr_or loc fs c (c_number 1)).
  assert (HC : emits loc fs (if is_null c then emit [72; 199; 192] ;; emit_dword 1 else gen_expr c)%gen C).
  { apply expr_or_emits; [done|]. intros cg' _ _. apply emit_dword_extend. }
  rewrite (cond_je (S loops) _ _ _ _ HC) by by apply in_loops_loop.
  change (cg_size (in_loop false 0 cg0)) with pos. set (bp := pos + lenz (C pos) + 9).
  unfold then_ at 1. rewrite IH by by apply in_loops_extend, in_loops_loop. unfold after. rewrite extend_size, c_cond_len.
  change (known (extend ?a ?b ?c ?d)) with (known d). rewrite known_loop. change (cg_size (in_loop false 0 cg0)) with pos. rewrite Z.add_assoc. fold bp.
  rewrite extend_extend. cbn [app]. set (sp := bp + lenz (cstmt None None b bp)).
  unfold then_ at 1. rewrite extend_size, lenz_app, c_cond_len. change (cg_size (in_loop false 0 cg0)) with pos.
  replace (pos + (lenz (C pos) + 9 + lenz (cstmt None None b bp))) with sp by (subst sp bp; lia).
  set (next := if is_null st then pos else sp). rewrite end_continues_ok.
  pose proof (patch_body false next None b (S loops) (c_cond C 0 pos) [] (slots true b bp) [] (in_break cg0) Hb) as Hp. cbv zeta in Hp.
  rewrite c_cond_len, Z.add_assoc, !app_nil_r in Hp. change (cg_size (in_break cg0) + lenz (C pos) + 9) with bp in Hp. unfold target in Hp. rewrite Hp. clear Hp.
  set (S := expr_or loc fs st []). assert (HS : emits loc fs (gen_expr st) S).
  { subst S. unfold direct_opt, expr_or in *. destruct (is_null st) eqn:En; [|by apply gen_expr_emits]. destruct st; try done. apply emits_skip. }
  unfold then_ at 1. rewrite (HS (extend _ _ _ (in_break cg0))) by by destruct Hin0 as (? & ? & _).
  rewrite extend_extend, extend_size, lenz_app, c_cond_len, (cstmt_len loc fs None (Some next)). change (cg_size (in_break cg0)) with pos.
  replace (pos + (lenz (C pos) + 9 + lenz (cstmt None None b bp))) with sp by (subst sp bp; lia). rewrite !app_nil_r.
  unfold then_ at 1. rewrite jmp_back, <- !app_assoc.
  etrans; [apply (loop_finish C b (Some next) _ (Datatypes.S loops) cg0 Hb)|]. fold pos bp. rewrite c_loop_eq. fold C S.
  change (cg_size cg0) with pos. fold bp sp next. rewrite !lenz_app, c_jmp_len, c_cond_len, (cstmt_len loc fs None (Some next)).
  change (cg_size (in_break cg0)) with pos.
  replace (pos + (lenz (C pos) + 9 + (lenz (cstmt None None b bp) + lenz (S sp)))) with (sp + lenz (S sp)) by (subst sp bp; lia).
  rewrite !Z.add_assoc. fold sp. done.
Qed.
End statements.

Lemma stmt_translated loc fs m : forall s loops, (node_size s < m)%nat -> direct_stmt fs loops s = true -> stmt_ok loc fs loops s.
Proof.
  induction m as [|m IH]; intros s loops Hm Hs; [lia|]. destruct s; cbn [direct_stmt] in Hs; try discriminate; cbn [node_size] in Hm; zbool.
  - intros cg Hin. cbn [gen_stmt]. unfold after. cbn [cstmt slots]. rewrite no_slots. unfold pconst. by rewrite extend_nil.
  - intros cg Hin. cbn [gen_stmt]. unfold after. cbn [cstmt slots]. rewrite no_slots. apply (emits_in loc fs loops); [|done].
    apply emits_seq; [apply expr_or_emits; [done|apply emits_emit]|apply emits_emit].
  - apply if_ok; [done|apply IH; (lia || done)..].
  - match goal with H : (_ <? 64)%nat = true |- _ => apply Nat.ltb_lt in H end. apply while_ok; [done|done|done|apply IH; (lia || done)].
  - match goal with H : (_ <? 64)%nat = true |- _ => apply Nat.ltb_lt in H end.
    apply for_ok; try done; [|by destruct s1..|apply IH; (lia || done)]. apply IH; [lia|]. by destruct s1.
  - intros cg Hin. cbn [gen_stmt]. unfold gen_break, after. cbn [cstmt slots]. destruct Hin as (_ & _ & Hb & _). rewrite no_slots.
    match goal with H : (_ <? _)%nat = true |- _ => apply Nat.ltb_lt in H end.
    destruct (break_begin cg) eqn:E; [cbn in Hb; lia|]. rewrite jmp_extend. unfold add_break_patch. f_equal. apply CodeGen_eq; try reflexivity. cbn. by rewrite app_nil_r.
  - intros cg Hin. cbn [gen_stmt]. unfold gen_continue, after, known. cbn [cstmt slots]. destruct Hin as (_ & _ & _ & Hb).
    match goal with H : (_ <? _)%nat = true |- _ => apply Nat.ltb_lt in H end.
    destruct (last (continues cg)) as [c|] eqn:E; [|apply last_None in E; rewrite E in Hb; cbn in Hb; lia].
    rewrite jmp_extend. destruct (c_known c).
    + unfold c_jmp. rewrite <- (app_nil_r (le32 0)). rewrite patch_extend; [|done|done]. rewrite app_nil_r. do 4 f_equal. f_equal. lia.
    + unfold add_continue_patch. f_equal. apply CodeGen_eq; try reflexivity. cbn. by rewrite app_nil_r.
  - apply block_ok. intros s Hin. apply IH; [apply node_size_elem in Hin; lia|].
    eapply forallb_forall in Hs; [done|by apply list_elem_of_In].
  - intros cg Hin. cbn [gen_stmt]. unfold after. cbn [cstmt slots]. rewrite no_slots. apply (emits_in loc fs loops); [by apply gen_expr_emits|done].
Qed.

(** ** Functions *)

Fixpoint frame_from (off : Z) (l : list (list Z)) : list (list Z * Z) :=
  match l with
  | [] => []
  | x :: l => (x, off - 8) :: frame_from (off - 8) l
  end.

(** The locals of a function: its parameters, the last one first. *)
Definition frame (params : list (list Z)) : list (list Z * Z) := frame_from 0 (rev params).

Fixpoint c_params (loc : list (list Z * Z)) (i : nat) (params : list (list Z)) : list Z :=
  match params with
  | [] => []
  | x :: params => if (i <? 6)%nat then (store_param i ++ le32 (u32 (local_offset loc x))) ++ c_params loc (S i) params else []
  end.

Definition c_enter (params : list (list Z)) : list Z :=
  [0x55; 0x48; 0x89; 0xE5] ++ c_params (frame params) 0 params ++
  if 0 <? Z.of_nat (length params) then [0x48; 0x81; 0xEC] ++ le32 (u32 (8 * Z.of_nat (length params))) else [].

Definition cfunc (fs : list (list Z * Z)) (params : list (list Z)) (body : list ASTNode) : pcode :=
  pconst (c_enter params) >> cstmts (frame params) fs None None body >> pconst (c_zero ++ c_epilogue).

Fixpoint cfuncs (fs : list (list Z * Z)) (l : list ASTNode) (pos : Z) : list Z * list (list Z * Z) :=
  match l with
  | AST_FUNC_DEF name params (AST_BLOCK body) :: l =>
      let fs := fs ++ [(name, pos)] in
      let c := cfunc fs params body pos in
      let '(r, fs) := cfuncs fs l (pos + lenz c) in (c ++ r, fs)
  | _ => ([], fs)
  end.

Fixpoint direct_funcs (fs : list (list Z * Z)) (l : list ASTNode) (pos : Z) : bool :=
  match l with
  | [] => true
  | AST_FUNC_DEF name params (AST_BLOCK body) :: l =>
      let fs := fs ++ [(name, pos)] in
      (length params <=? 16)%nat && forallb (direct_stmt fs 0) body && direct_funcs fs l (pos + lenz (cfunc fs params body pos))
  | _ => false
  end.

(** The code at the entry, which calls [main]. *)
Definition c_stub (main : Z) : list Z :=
  [0x48; 0x8B; 0x3C; 0x24; 0x48; 0x8D; 0x74; 0x24; 0x08; 0xE8] ++ le32 (u32 (main - 14)) ++
  [0x48; 0x89; 0xC7; 0x48; 0x31; 0xC0; 0x0F; 0x05].

Definition cprogram (children : list ASTNode) : list Z :=
  let '(c, fs) := cfuncs [] children 22 in c_stub (default 0 (func_offset fs (text "main"))) ++ c.

(** At most 64 functions, one of them [main]. *)
Definition direct_program (children : list ASTNode) : bool :=
  (length children <=? 64)%nat && existsb is_main children && direct_funcs [] children 22.

Lemma add_locals_ok l : forall cg, (length (locals cg) + length l <= 256)%nat ->
  gen_seq (map add_local l) cg =
  Some (set_locals (stack_offset cg - 8 * Z.of_nat (length l)) (locals cg ++ frame_from (stack_offset cg) l) cg).
Proof.
  induction l as [|x l IH]; intros cg Hl; cbn [map gen_seq frame_from length].
  - unfold skip. f_equal. apply CodeGen_eq; try reflexivity; cbn; [lia|by rewrite app_nil_r].
  - cbn [length] in Hl. unfold then_, add_local. replace (256 <=? length (locals cg))%nat with false by (symmetry; apply Nat.leb_gt; lia).
    rewrite IH by (cbn; rewrite length_app; cbn; lia). f_equal. apply CodeGen_eq; try reflexivity; cbn -[Z.of_nat]; [lia|by rewrite <- app_assoc].
Qed.

Lemma gen_params_emits loc fs params : forall i, emits loc fs (gen_params i params) (pconst (c_params loc i params)).
Proof.
  induction params as [|x params IH]; intros i; cbn [gen_params c_params]; [apply emits_skip|].
  destruct (i <? 6)%nat; [|apply emits_skip]. rewrite <- app_assoc. apply emits_const; [apply emits_emit|]. apply emits_const; [|apply IH].
  intros cg Hl Hf. rewrite (find_local_offset loc) by done. unfold emit_dword. apply emit_extend.
Qed.

Lemma frame_length (params : list (list Z)) : Z.of_nat (length (rev params)) = Z.of_nat (length params).
Proof. by rewrite length_rev. Qed.

(** Outside of loops there is nothing to patch. *)
Lemma slots_none loc fs brk m : forall s pos, (node_size s < m)%nat -> direct_stmt fs 0 s = true -> slots loc fs brk s pos = [].
Proof.
  induction m as [|m IH]; intros s pos Hm Hs; [lia|]. destruct s; try done; cbn [direct_stmt node_size] in *.
  - cbn [slots]. cbv zeta. zbool. rewrite (IH s2), (IH s3) by (lia || done). by destruct (is_null s3).
  - rewrite slots_block. revert pos. induction children as [|s l IHl]; intros pos; [done|]. cbn [forallb map slots_list] in *. zbool.
    change (sum_list (node_size s :: map node_size l)) with (node_size s + sum_list (map node_size l))%nat in Hm.
    rewrite IH by (lia || done). rewrite IHl by (lia || done). done.
Qed.

(** Everything but the code, behind a function. *)
Definition behind (name : list Z) (params : list (list Z)) (c : list Z) (cg : CodeGen) : CodeGen :=
  set_funcs (funcs cg ++ [(name, cg_size cg)]) (set_locals (- (8 * Z.of_nat (length params))) (frame params) (extend c [] [] cg)).

Lemma gen_func_ok name params body cg :
  let fs := funcs cg ++ [(name, cg_size cg)] in
  (length (funcs cg) < 256)%nat -> (length params <= 16)%nat -> break_begin cg = [] -> continues cg = [] ->
  forallb (direct_stmt fs 0) body = true ->
  gen_func name params (AST_BLOCK body) cg = Some (behind name params (cfunc fs params body (cg_size cg)) cg).
Proof.
  intros fs Hf Hp Hb Hc Hd. unfold gen_func. replace (256 <=? length (funcs cg))%nat with false by (symmetry; apply Nat.leb_gt; lia).
  fold fs. set (cg0 := set_funcs fs (set_locals 0 [] cg)). unfold then_ at 1.
  rewrite add_locals_ok by (cbn; rewrite length_rev; lia). rewrite frame_length. change (stack_offset cg0) with 0. change (locals cg0 ++ ?x) with x.
  set (cg1 := set_locals (0 - 8 * Z.of_nat (length params)) (frame_from 0 (rev params)) cg0). fold (frame params) in *.
  assert (Hin : in_loops (frame params) fs 0 cg1) by (unfold in_loops; cbn; by rewrite Hb, Hc).
  assert (He : (emit_prologue ;; gen_params 0 params ;;
     (fun cg => if stack_offset cg <? 0 then (emit [0x48; 0x81; 0xEC] ;; emit_dword (- stack_offset cg)) cg else Some cg))%gen cg1 =
     Some (extend (c_enter params) [] [] cg1)).
  { unfold then_ at 1, emit_prologue. rewrite emit_extend. unfold then_ at 1.
    rewrite (emits_in (frame params) fs 0 _ _ _ (gen_params_emits _ _ params 0)) by done. rewrite extend_extend.
    change (stack_offset (extend _ _ _ cg1)) with (0 - 8 * Z.of_nat (length params)). unfold c_enter.
    destruct (Z.ltb_spec 0 (Z.of_nat (length params))) as [Hl|Hl].
    - rewrite (proj2 (Z.ltb_lt _ 0)) by lia. rewrite emit_dword_extend, extend_extend. unfold pconst.
      replace (- (0 - 8 * Z.of_nat (length params))) with (8 * Z.of_nat (length params)) by lia. by rewrite <- !app_assoc.
    - rewrite (proj2 (Z.ltb_ge _ 0)) by lia. unfold pconst. by rewrite (app_nil_r (c_params _ _ _)). }
  revert He. unfold then_. intros He.
  destruct (emit_prologue cg1) as [x1|]; [|done]. destruct (gen_params 0 params x1) as [x2|]; [|done]. rewrite He. clear x1 x2 He.
  pose proof (block_ok (frame params) fs 0 body) as Hblk. unfold stmt_ok in Hblk. cbn [gen_stmt] in Hblk. rewrite Hblk; [| |done].
  2: { intros s Hs. apply (stmt_translated _ _ (S (node_size s))); [lia|]. eapply forallb_forall in Hd; [done|by apply list_elem_of_In]. }
  unfold after. rewrite !(slots_none _ _ _ (S (node_size (AST_BLOCK body))) (AST_BLOCK body)) by (lia || done). rewrite no_slots.
  change (known (extend _ _ _ cg1)) with (known cg). replace (known cg) with (@None Z) by (unfold known; by rewrite Hc).
  rewrite cstmt_block, extend_size, extend_extend. unfold zero_rax. rewrite emit_extend, extend_extend. unfold emit_epilogue.
  rewrite emit_extend, extend_extend. f_equal. cbn [app]. change (cg_size cg1) with (cg_size cg).
  apply CodeGen_eq; try reflexivity. unfold cfunc, pseq, pconst. cbn [code extend set_continues set_breaks set_code set_funcs set_locals behind].
  by rewrite <- !app_assoc.
Qed.

Lemma gen_funcs_ok l : forall cg,
  (length (funcs cg) + length l <= 256)%nat -> break_begin cg = [] -> continues cg = [] ->
  direct_funcs (funcs cg) l (cg_size cg) = true ->
  exists cg', gen_seq (map (fun f => match f with AST_FUNC_DEF name params body => gen_func name params body | _ => skip end) l) cg = Some cg' /\
    code cg' = code cg ++ (cfuncs (funcs cg) l (cg_size cg)).1 /\ funcs cg' = (cfuncs (funcs cg) l (cg_size cg)).2 /\
    pending_calls cg' = pending_calls cg.
Proof.
  induction l as [|f l IH]; intros cg Hl Hb Hc Hd; cbn [map gen_seq].
  { exists cg. cbn. by rewrite app_nil_r. }
  destruct f as [| |name params body| | | | | | | | | | | | | | | | | | | | | | |]; try done.
  destruct body as [| | | | | | | | | | | | | | | |body| | | | | | | | |]; try done. cbn [direct_funcs cfuncs length] in *. zbool.
  match goal with H : (_ <=? 16)%nat = true |- _ => apply Nat.leb_le in H end.
  set (fs := funcs cg ++ [(name, cg_size cg)]) in *. set (c := cfunc fs params body (cg_size cg)) in *.
  unfold then_. rewrite gen_func_ok; [|lia|done|done|done|done]. fold fs c. set (cg1 := behind name params c cg).
  assert (Hf1 : funcs cg1 = fs) by done. assert (Hs1 : cg_size cg1 = cg_size cg + lenz c) by (apply (extend_size c [] [])).
  destruct (IH cg1) as (cg' & E & E1 & E2 & E3); [|done|done|by rewrite Hf1, Hs1|].
  { rewrite Hf1. subst fs. rewrite length_app. cbn. lia. }
  exists cg'. rewrite Hf1, Hs1 in *. split; [done|]. destruct (cfuncs fs l (cg_size cg + lenz c)) as [r fs'] eqn:Er.
  cbn [fst snd] in *. split; [|done]. rewrite E1. change (code cg1) with (code cg ++ c). by rewrite <- app_assoc.
Qed.

Lemma cfuncs_prefix l : forall fs pos, exists t, (cfuncs fs l pos).2 = fs ++ t.
Proof.
  induction l as [|f l IH]; intros fs pos; [exists []; by rewrite app_nil_r|].
  destruct f; try (exists []; by rewrite app_nil_r). destruct f; try (exists []; by rewrite app_nil_r). cbn [cfuncs].
  match goal with |- context [cfuncs ?fs' l ?pos'] => destruct (IH fs' pos') as [t Ht]; destruct (cfuncs fs' l pos') as [r fs''] end.
  cbn [snd] in *. subst. eexists. by rewrite <- app_assoc.
Qed.

Lemma find_app {A} (f : A -> bool) l1 l2 : find f (l1 ++ l2) = match find f l1 with Some x => Some x | None => find f l2 end.
Proof. induction l1 as [|x l1 IH]; [done|]. cbn. by destruct (f x). Qed.

Lemma cfuncs_main l : forall fs pos, direct_funcs fs l pos = true -> existsb is_main l = true ->
  exists o, func_offset (cfuncs fs l pos).2 (text "main") = Some o.
Proof.
  induction l as [|f l IH]; intros fs pos Hd Hm; [done|]. destruct f; try done. destruct f; try done. cbn [direct_funcs existsb is_main cfuncs] in *. zbool.
  match goal with |- context [cfuncs ?fs' l ?pos'] => pose proof (IH fs' pos' ltac:(done)) as IHl; pose proof (cfuncs_prefix l fs' pos') as [t Ht];
    destruct (cfuncs fs' l pos') as [r fs''] end.
  cbn [snd] in *. apply orb_true_iff in Hm as [Hm|Hm]; [|by apply IHl]. subst. unfold func_offset. rewrite find_app, find_app. cbn [find fst].
  rewrite Hm. destruct (find _ fs); by eexists.
Qed.

Lemma generate_direct (children : list ASTNode) :
  direct_program children = true ->
  exists cg, codegen_generate children codegen_init = Some (0, cg) /\ code cg = cprogram children /\
    funcs cg = (cfuncs [] children 22).2.
Proof.
  unfold direct_program. intros Hd. zbool. match goal with H : (_ <=? 64)%nat = true |- _ => apply Nat.leb_le in H end.
  unfold codegen_generate. match goal with H : existsb _ _ = true |- _ => rewrite H end.
  unfold then_ at 1. change (gen_startup_stub codegen_init) with
    (Some (set_pending [(10, text "main")] (extend (c_stub 14) [] [] codegen_init))).
  set (cg0 := set_pending _ _). unfold then_ at 1.
  destruct (gen_funcs_ok children cg0) as (cg1 & E & E1 & E2 & E3); [cbn; lia|done|done|done|]. rewrite E, E3.
  change (pending_calls cg0) with [(10, text "main")]. change (funcs cg0) with (@nil (list Z * Z)) in *. change (cg_size cg0) with 22 in *.
  unfold resolve_pending. cbn [map gen_seq snd fst]. unfold then_, skip, cprogram. rewrite E2.
  destruct (cfuncs_main children [] 22 ltac:(done) ltac:(done)) as [m Hm]. revert Hm. unfold func_offset.
  destruct (cfuncs [] children 22) as [c fs]. cbn [fst snd] in *. destruct (find _ fs) as [[g o]|]; intros Hm; [|done].
  eexists. split; [done|]. split; [|done]. cbn [code set_code fmap option_fmap option_map snd default]. rewrite E1. unfold id.
  change (code cg0) with (c_stub 14). unfold c_stub. rewrite <- !app_assoc.
  replace (o - (10 + 4)) with (o - 14) by lia.
  change 10 with (lenz [72; 139; 60; 36; 72; 141; 116; 36; 8; 232]). by rewrite store_mid.
Qed.

(** The one-pass generator with back patching emits exactly the code that is computed
    from the sizes with all targets known: jumps of [if], [while] and [for], of [break] and
    [continue] in nested loops, calls of earlier functions and of [main] from the entry all
    go where they should, for every program without declarations inside of functions and
    without strings, whose functions are defined before they are called. *)
Theorem codegen_direct (children : list ASTNode) :
  direct_program children = true ->
  exists cg, codegen_generate children codegen_init = Some (0, cg) /\ code cg = cprogram children /\
    funcs cg = (cfuncs [] children 22).2.
Proof. apply generate_direct. Qed.

(** A program with nested loops, [break], [continue], recursion and calls. *)
Definition demo_children : list ASTNode :=
  match front_end (text "int f(int n, int s) { for (;;) { if (n == 0) break; n = n - 1; while (1) { if (n == 3) break; s = s + n; if (s) break; else continue; } } return s; } int g(int n) { if (n <= 1) return 1; return n * g(n - 1); } int main() { return f(10, 0) + g(5); }") with
  | Ok (AST_PROGRAM l, None) => l
  | _ => []
  end.

Lemma codegen_direct_witness :
  direct_program demo_children = true /\
  exists cg, codegen_generate demo_children codegen_init = Some (0, cg) /\ code cg = cprogram demo_children /\
    funcs cg = (cfuncs [] demo_children 22).2.
Proof. split; [vm_compute; reflexivity|]. apply (codegen_direct demo_children). vm_compute. reflexivity. Defined.
