(* ===== verification/CcSem.v ===== *)
(** * What programs mean

    A reference semantics for the part of the language whose translation is correct:
    signed 64-bit integers, parameters as variables, expressions with arithmetic,
    comparisons, negation, assignments and calls, and all control statements.  It follows
    C, with operands and arguments evaluated from right to left, wrapping arithmetic, and
    no result where C has none (division by zero, or that overflows).  The fuel bounds the
    depth of the evaluation. *)

From stdpp Require Import strings.
From S2P Require Import Prelude CString Vfs CcLex CcParse.

Inductive outcome := Normal | Broke | Continued | Returned (v : Z).

(** [a op b] *)
Definition arith (op a b : Z) : option Z :=
  let div f := if (b =? 0) || ((a =? - 2 ^ 63) && (b =? -1)) then None else Some (f a b) in
  if op =? 43 then Some (i64 (a + b))
  else if op =? 45 then Some (i64 (a - b))
  else if op =? 42 then Some (i64 (a * b))
  else if op =? 47 then div Z.quot
  else if op =? 37 then div Z.rem
  else if op =? tok_code TOK_EQ then Some (b2z (a =? b))
  else if op =? tok_code TOK_NEQ then Some (b2z (negb (a =? b)))
  else if op =? tok_code TOK_LT then Some (b2z (a <? b))
  else if op =? tok_code TOK_GT then Some (b2z (b <? a))
  else if op =? tok_code TOK_LE then Some (b2z (a <=? b))
  else if op =? tok_code TOK_GE then Some (b2z (b <=? a))
  else None.

(** The place of a name in a list of names. *)
Fixpoint index (x : list Z) (l : list (list Z)) : option nat :=
  match l with
  | [] => None
  | y :: l => if str_eqb y x then Some 0%nat else S <$> index x l
  end.

Definition find_func (prog : list ASTNode) (f : list Z) : option (list (list Z) * list ASTNode) :=
  match find (fun d => match d with AST_FUNC_DEF name _ _ => str_eqb name f | _ => false end) prog with
  | Some (AST_FUNC_DEF _ params (AST_BLOCK body)) => Some (params, body)
  | _ => None
  end.

Section semantics.
Context (prog : list ASTNode).

(** The variables of a function are the parameters [names], the last one first; [env] has
    their values. *)
Fixpoint eval_expr (n : nat) (names : list (list Z)) (env : list Z) (e : ASTNode) {struct n} : option (Z * list Z) :=
  match n with
  | O => None
  | S n =>
      match e with
      | AST_NUMBER v => Some (v, env)
      | AST_IDENT x => i ← index x names; v ← env !! i; Some (v, env)
      | AST_UNARY op a => '(v, env) ← eval_expr n names env a; Some (if op =? 45 then i64 (- v) else b2z (v =? 0), env)
      | AST_BINARY op l r =>
          '(b, env) ← eval_expr n names env r; '(a, env) ← eval_expr n names env l; v ← arith op a b; Some (v, env)
      | AST_ASSIGN None (AST_IDENT x) r =>
          '(v, env) ← eval_expr n names env r; i ← index x names; Some (v, <[i := v]> env)
      | AST_CALL f [] => v ← call_func n f []; Some (v, env)
      | AST_CALL f [x] => '(a, env) ← eval_expr n names env x; v ← call_func n f [a]; Some (v, env)
      | AST_CALL f [x; y] =>
          '(b, env) ← eval_expr n names env y; '(a, env) ← eval_expr n names env x; v ← call_func n f [a; b]; Some (v, env)
      | _ => None
      end
  end
with exec_stmt (n : nat) (names : list (list Z)) (env : list Z) (s : ASTNode) {struct n} : option (outcome * list Z) :=
  match n with
  | O => None
  | S n =>
      match s with
      | NULL => Some (Normal, env)
      | AST_EXPR_STMT e => '(_, env) ← eval_expr n names env e; Some (Normal, env)
      | AST_RETURN NULL => Some (Returned 0, env)
      | AST_RETURN e => '(v, env) ← eval_expr n names env e; Some (Returned v, env)
      | AST_BLOCK [] => Some (Normal, env)
      | AST_BLOCK (s :: l) =>
          '(o, env) ← exec_stmt n names env s;
          match o with Normal => exec_stmt n names env (AST_BLOCK l) | _ => Some (o, env) end
      | AST_IF c t e => '(v, env) ← eval_expr n names env c; exec_stmt n names env (if v =? 0 then e else t)
      | AST_WHILE c b =>
          '(v, env) ← eval_expr n names env c;
          if v =? 0 then Some (Normal, env) else
          '(o, env) ← exec_stmt n names env b;
          match o with
          | Normal | Continued => exec_stmt n names env (AST_WHILE c b)
          | Broke => Some (Normal, env)
          | Returned _ => Some (o, env)
          end
      | AST_FOR NULL c st b =>
          '(v, env) ← (if is_null c then Some (1, env) else eval_expr n names env c);
          if v =? 0 then Some (Normal, env) else
          '(o, env) ← exec_stmt n names env b;
          match o with
          | Normal | Continued =>
              '(_, env) ← (if is_null st then Some (0, env) else eval_expr n names env st);
              exec_stmt n names env (AST_FOR NULL c st b)
          | Broke => Some (Normal, env)
          | Returned _ => Some (o, env)
          end
      | AST_FOR i c st b =>
          '(_, env) ← exec_stmt n names env i; exec_stmt n names env (AST_FOR NULL c st b)
      | AST_BREAK => Some (Broke, env)
      | AST_CONTINUE => Some (Continued, env)
      | _ => None
      end
  end
with call_func (n : nat) (f : list Z) (args : list Z) {struct n} : option Z :=
  match n with
  | O => None
  | S n =>
      '(params, body) ← find_func prog f;
      if (length params =? length args)%nat then
        '(o, _) ← exec_stmt n (rev params) (rev args) (AST_BLOCK body);
        match o with Returned v => Some v | Normal => Some 0 | _ => None end
      else None
  end.
End semantics.

(** ** The part of the language the theorems are about *)

(** No call: what is in the registers of arguments stays. *)
Fixpoint call_free (e : ASTNode) : bool :=
  match e with
  | AST_CALL _ _ => false
  | AST_UNARY _ a => call_free a
  | AST_BINARY _ l r => call_free l && call_free r
  | AST_ASSIGN _ _ r => call_free r
  | _ => true
  end.

Definition arith_op (op : Z) : bool :=
  existsb (Z.eqb op) [43; 45; 42; 47; 37; tok_code TOK_EQ; tok_code TOK_NEQ; tok_code TOK_LT; tok_code TOK_GT; tok_code TOK_LE; tok_code TOK_GE].

Section fragment.
(** The parameters, and the functions that are defined. *)
Context (names known : list (list Z)).

Fixpoint core_expr (e : ASTNode) : bool :=
  match e with
  | AST_NUMBER v => (0 <=? v) && (v <? 2 ^ 31)
  | AST_IDENT x => existsb (str_eqb x) names
  | AST_UNARY op a => ((op =? 45) || (op =? 33)) && core_expr a
  | AST_BINARY op l r => arith_op op && core_expr l && core_expr r
  | AST_ASSIGN None (AST_IDENT x) r => existsb (str_eqb x) names && core_expr r
  | AST_CALL f args =>
      existsb (str_eqb f) known && forallb core_expr args &&
      match args with [] | [_] => true | [a; _] => call_free a | _ => false end
  | _ => false
  end.

Definition core_opt (e : ASTNode) : bool := is_null e || core_expr e.

Fixpoint core_stmt (loops : nat) (s : ASTNode) : bool :=
  match s with
  | NULL => true
  | AST_EXPR_STMT e => core_expr e
  | AST_RETURN e => core_opt e
  | AST_BLOCK l => forallb (core_stmt loops) l
  | AST_IF c t e => core_expr c && core_stmt loops t && core_stmt loops e
  | AST_WHILE c b => (loops <? 64)%nat && core_expr c && core_stmt (S loops) b
  | AST_FOR i c st b =>
      (loops <? 64)%nat && match i with NULL | AST_EXPR_STMT _ => core_stmt loops i | _ => false end &&
      core_opt c && core_opt st && core_stmt (S loops) b
  | AST_BREAK | AST_CONTINUE => (0 <? loops)%nat
  | _ => false
  end.
End fragment.

(** Functions of at most two parameters, defined before they are called. *)
Fixpoint core_funcs (known : list (list Z)) (l : list ASTNode) : bool :=
  match l with
  | [] => true
  | AST_FUNC_DEF name params (AST_BLOCK body) :: l =>
      let known := known ++ [name] in
      (length params <=? 2)%nat && bool_decide (NoDup params) && forallb (core_stmt params known 0) body && core_funcs known l
  | _ => false
  end.

(** A program of at most 64 functions whose [main] has no parameters. *)
Definition core_program (prog : list ASTNode) : bool :=
  (length prog <=? 64)%nat && core_funcs [] prog && match find_func prog (text "main") with Some ([], _) => true | _ => false end.
