(* ===== verification/CcCorrect.v ===== *)
(** * Compiled programs compute what they mean

    The code of apps/cc/codegen.c, run on the processor of X86, against the semantics of
    CcSem, for programs of its core language. *)

From stdpp Require Import strings.
From S2P Require Import Prelude CString Vfs Bytes CcLex CcParse CcGen CcDirect X86 CcSem.

(** ** Integers *)

Lemma u64_i64 x : u64 (i64 x) = u64 x.
Proof. unfold u64, i64. dlia. Qed.

Lemma i64_u64 x : - 2 ^ 63 <= x < 2 ^ 63 -> i64 (u64 x) = x.
Proof. intros Hx. unfold u64, i64. dlia. Qed.


Lemma u64_inj_signed x y : - 2 ^ 63 <= x < 2 ^ 63 -> - 2 ^ 63 <= y < 2 ^ 63 -> u64 x = u64 y -> x = y.
Proof. intros Hx Hy E. rewrite <- (i64_u64 x), <- (i64_u64 y) by done. by rewrite E. Qed.

Lemma u64_eqb x y : - 2 ^ 63 <= x < 2 ^ 63 -> - 2 ^ 63 <= y < 2 ^ 63 -> (u64 x =? u64 y) = (x =? y).
Proof.
  intros Hx Hy. destruct (Z.eqb_spec x y) as [-> |Hn]; [apply Z.eqb_refl|]. apply Z.eqb_neq. intros E. apply Hn. by apply u64_inj_signed.
Qed.

Lemma u64_sum x y : u64 (u64 x + u64 y) = u64 (x + y).
Proof. unfold u64. by rewrite <- Z.add_mod by lia. Qed.

Lemma u64_diff x y : u64 (u64 x - u64 y) = u64 (x - y).
Proof. unfold u64. by rewrite <- Zminus_mod. Qed.

Lemma imm32_le32 v post : imm32 (le32 (u32 v) ++ post) = Some (i32 v, post).
Proof.
  cbn [le32 app imm32]. do 2 f_equal. unfold dword, i32, u32, u8. rewrite !Z.shiftr_div_pow2 by lia. dlia.
Qed.

(** ** Code at a position *)

Section machine.
Context (base : Z) (code : list Z).

Definition code_at (pos : Z) (bs : list Z) : Prop := exists pre post, code = pre ++ bs ++ post /\ lenz pre = pos.

Lemma code_at_app pos a b : code_at pos (a ++ b) -> code_at pos a /\ code_at (pos + lenz a) b.
Proof.
  intros (pre & post & E & Hp). rewrite <- app_assoc in E. split; [by exists pre, (b ++ post)|].
  exists (pre ++ a), post. split; [by rewrite <- app_assoc|]. rewrite lenz_app. lia.
Qed.

Lemma code_at_bounds pos bs : code_at pos bs -> 0 <= pos /\ pos + lenz bs <= lenz code.
Proof.
  intros (pre & post & -> & <-). rewrite !lenz_app. pose proof (lenz_nonneg pre). pose proof (lenz_nonneg post). lia.
Qed.

Lemma fetch_at pos bs : code_at pos bs -> exists post, fetch base code (base + pos) = bs ++ post.
Proof.
  intros (pre & post & -> & <-). exists post. unfold fetch. pose proof (lenz_nonneg pre).
  replace (base + lenz pre <? base) with false by lia. replace (base + lenz pre - base) with (lenz pre) by lia.
  unfold lenz. by rewrite Nat2Z.id, drop_app_length.
Qed.

(** One instruction. *)
Lemma step_at m pos bs i :
  rip m = base + pos -> code_at pos bs -> (forall post, decode (bs ++ post) = Some (i, post)) ->
  step base code m = exec i (set_rip (base + (pos + lenz bs)) m).
Proof.
  intros Hr Hc Hd. unfold step. rewrite Hr. destruct (fetch_at _ _ Hc) as [post ->]. rewrite Hd. cbn [mbind option_bind].
  f_equal. f_equal. rewrite length_app. unfold lenz. lia.
Qed.

Lemma reaches_one m pos bs i m' :
  rip m = base + pos -> code_at pos bs -> (forall post, decode (bs ++ post) = Some (i, post)) ->
  exec i (set_rip (base + (pos + lenz bs)) m) = Some m' -> reaches base code m m'.
Proof. intros Hr Hc Hd He. eapply reaches_step; [by erewrite step_at|apply reaches_refl]. Qed.

(** [m'] is behind [n] bytes of arithmetic: only [rax], [rcx] and [rdx] may have changed. *)
Definition quiet (n : Z) (m m' : machine) : Prop :=
  rip m' = rip m + n /\ words m' = words m /\ forall r, r <> RAX -> r <> RCX -> r <> RDX -> regs m' r = regs m r.

Lemma quiet_trans n1 n2 m1 m2 m3 : quiet n1 m1 m2 -> quiet n2 m2 m3 -> quiet (n1 + n2) m1 m3.
Proof.
  intros (A1 & B1 & C1) (A2 & B2 & C2). split; [lia|]. split; [congruence|]. intros r H1 H2 H3. by rewrite C2, C1.
Qed.

(** An instruction that only computes. *)
Lemma quiet_one n m pos bs i m' :
  rip m = base + pos -> code_at pos bs -> (forall post, decode (bs ++ post) = Some (i, post)) ->
  exec i (set_rip (base + (pos + lenz bs)) m) = Some m' ->
  words m' = words m -> rip m' = base + (pos + lenz bs) -> (forall r, r <> RAX -> r <> RCX -> r <> RDX -> regs m' r = regs m r) ->
  lenz bs = n -> reaches base code m m' /\ quiet n m m'.
Proof. intros Hr Hc Hd He Hw Hi Hg <-. split; [by eapply reaches_one|]. split; [lia|done]. Qed.

(** The instruction [i], which only computes. *)
Ltac other_regs :=
  let r := fresh "r" in intros r ? ? ?; cbn [regs set_reg set_flags set_rip]; unfold upd, RAX, RCX, RDX in *;
  repeat match goal with |- context [r =? ?k] => rewrite (proj2 (Z.eqb_neq r k)) by assumption end; reflexivity.
Ltac simple_instr i :=
  intros; eexists; split; [eapply (quiet_one _ _ _ _ i); [eassumption|eassumption|intros; reflexivity|reflexivity|reflexivity|reflexivity|other_regs|reflexivity]|].

Lemma run_zero m pos : rip m = base + pos -> code_at pos c_zero ->
  exists m', (reaches base code m m' /\ quiet 3 m m') /\ regs m' RAX = 0.
Proof. simple_instr (Alu Xor (Reg RAX) (Reg RAX)). cbn. apply Z.lxor_nilpotent. Qed.

Lemma run_test m pos : rip m = base + pos -> code_at pos c_test ->
  exists m', (reaches base code m m' /\ quiet 3 m m') /\ regs m' = regs m /\ flags m' = Some (regs m RAX =? 0, i64 (regs m RAX) <? 0).
Proof. simple_instr (Alu Test (Reg RAX) (Reg RAX)). split; [done|]. cbn. by rewrite Z.land_diag. Qed.

Lemma run_cmp m pos : rip m = base + pos -> code_at pos [0x48; 0x39; 0xC8] ->
  exists m', (reaches base code m m' /\ quiet 3 m m') /\ flags m' = Some (regs m RAX =? regs m RCX, i64 (regs m RAX) <? i64 (regs m RCX)).
Proof. simple_instr (Alu Cmp (Reg RAX) (Reg RCX)). done. Qed.

Lemma run_add m pos : rip m = base + pos -> code_at pos [0x48; 0x01; 0xC8] ->
  exists m', (reaches base code m m' /\ quiet 3 m m') /\ regs m' RAX = u64 (regs m RAX + regs m RCX).
Proof. simple_instr (Alu Add (Reg RAX) (Reg RCX)). done. Qed.

Lemma run_sub m pos : rip m = base + pos -> code_at pos [0x48; 0x29; 0xC8] ->
  exists m', (reaches base code m m' /\ quiet 3 m m') /\ regs m' RAX = u64 (regs m RAX - regs m RCX).
Proof. simple_instr (Alu Sub (Reg RAX) (Reg RCX)). done. Qed.

Lemma run_imul m pos : rip m = base + pos -> code_at pos [0x48; 0xF7; 0xE9] ->
  exists m', (reaches base code m m' /\ quiet 3 m m') /\ regs m' RAX = u64 (i64 (regs m RAX) * i64 (regs m RCX)).
Proof. simple_instr (Imul (Reg RCX)). done. Qed.

Lemma run_neg m pos : rip m = base + pos -> code_at pos [0x48; 0xF7; 0xD8] ->
  exists m', (reaches base code m m' /\ quiet 3 m m') /\ regs m' RAX = u64 (- regs m RAX).
Proof. simple_instr (Neg (Reg RAX)). done. Qed.

Lemma run_cqo m pos : rip m = base + pos -> code_at pos [0x48; 0x99] ->
  exists m', (reaches base code m m' /\ quiet 2 m m') /\ regs m' RAX = regs m RAX /\ regs m' RCX = regs m RCX /\
    regs m' RDX = if i64 (regs m RAX) <? 0 then 2 ^ 64 - 1 else 0.
Proof. simple_instr Cqo. done. Qed.

Lemma run_mov_rdx m pos : rip m = base + pos -> code_at pos [0x48; 0x89; 0xD0] ->
  exists m', (reaches base code m m' /\ quiet 3 m m') /\ regs m' RAX = regs m RDX.
Proof. simple_instr (Mov (Reg RAX) (Reg RDX)). done. Qed.

Lemma run_movzx m pos : rip m = base + pos -> code_at pos [0x48; 0x0F; 0xB6; 0xC0] ->
  exists m', (reaches base code m m' /\ quiet 4 m m') /\ regs m' RAX = regs m RAX mod 256.
Proof. simple_instr (Movzx RAX RAX). done. Qed.

Lemma run_number m pos v : rip m = base + pos -> code_at pos (c_number v) ->
  exists m', (reaches base code m m' /\ quiet 7 m m') /\ regs m' RAX = u64 (i32 v).
Proof.
  intros Hr Hc. eexists. split; [eapply (quiet_one _ _ _ _ (Mov_imm (Reg RAX) (i32 v))); [exact Hr|exact Hc| |reflexivity|reflexivity|reflexivity|other_regs|reflexivity]|done].
  intros post. unfold c_number. rewrite <- app_assoc.
  change (decode ([72; 199; 192] ++ le32 (u32 v) ++ post)) with ('(v, l) ← imm32 (le32 (u32 v) ++ post); Some (Mov_imm (Reg RAX) v, l)).
  by rewrite imm32_le32.
Qed.
Lemma mod_low v b : 0 <= b < 256 -> (v - v mod 256 + b) mod 256 = b.
Proof. intros Hb. dlia. Qed.

(** [setcc] and [movzx]. *)
Lemma run_set m pos cc c f :
  cond_of (cc mod 16) = Some c -> cc / 16 =? 9 = true -> cc =? 5 = false -> flags m = Some f ->
  rip m = base + pos -> code_at pos (set_rax cc) ->
  exists m', (reaches base code m m' /\ quiet 7 m m') /\ regs m' RAX = b2z (holds c f).
Proof.
  intros Hcc H9 H5 Hf Hr Hc. change (set_rax cc) with ([0x0F; cc; 0xC0] ++ [0x48; 0x0F; 0xB6; 0xC0]) in Hc.
  apply code_at_app in Hc as [Hc1 Hc2]. change (lenz [15; cc; 192]) with 3 in Hc2.
  set (m1 := set_reg RAX (regs m RAX - regs m RAX mod 256 + b2z (holds c f)) (set_rip (base + (pos + 3)) m)).
  assert (H1 : reaches base code m m1 /\ quiet 3 m m1).
  { eapply (quiet_one _ _ _ _ (Setcc c RAX)); [exact Hr|exact Hc1| | |reflexivity|reflexivity|subst m1; other_regs|reflexivity].
    - intros post. cbn [app decode]. change (15 / 8 =? 9) with false. change (15 / 8 =? 10) with false. change (15 / 8 =? 11) with false.
      cbn [Z.eqb Pos.eqb]. unfold decode_two. rewrite H5. replace (cc / 16 =? 8) with false by lia. rewrite H9, Hcc. done.
    - cbn. rewrite Hf. done. }
  destruct (run_movzx m1 (pos + 3)) as (m2 & [R2 Q2] & E2); [cbn; lia|done|]. exists m2. destruct H1 as [R1 Q1].
  split; [split; [by eapply reaches_trans|by apply (quiet_trans 3 4 m m1)]|]. rewrite E2. cbn. apply mod_low. destruct (holds c f); cbn; lia.
Qed.

(** A comparison: the flags, then the byte. *)
Lemma run_compare m pos cc c a b :
  cond_of (cc mod 16) = Some c -> cc / 16 =? 9 = true -> cc =? 5 = false ->
  - 2 ^ 63 <= a < 2 ^ 63 -> - 2 ^ 63 <= b < 2 ^ 63 -> regs m RAX = u64 a -> regs m RCX = u64 b ->
  rip m = base + pos -> code_at pos ([0x48; 0x39; 0xC8] ++ set_rax cc) ->
  exists m', (reaches base code m m' /\ quiet 10 m m') /\ regs m' RAX = u64 (b2z (holds c (a =? b, a <? b))).
Proof.
  intros Hcc H9 H5 Ha Hb HA HB Hr Hc. apply code_at_app in Hc as [Hc1 Hc2].
  destruct (run_cmp m pos Hr Hc1) as (m1 & [R1 Q1] & F1). rewrite HA, HB, u64_eqb, !i64_u64 in F1 by done.
  destruct (run_set m1 (pos + 3) cc c _ Hcc H9 H5 F1) as (m2 & [R2 Q2] & E2); [by destruct Q1 as [-> _]; lia|done|].
  exists m2. split; [split; [by eapply reaches_trans|by apply (quiet_trans 3 7 m m1)]|]. rewrite E2. by destruct (holds c _).
Qed.

Lemma idiv_dividend a : - 2 ^ 63 <= a < 2 ^ 63 -> i64 (if i64 (u64 a) <? 0 then 2 ^ 64 - 1 else 0) * 2 ^ 64 + u64 a = a.
Proof.
  intros Ha. rewrite i64_u64 by done. destruct (Z.ltb_spec a 0) as [H|H].
  - change (i64 (2 ^ 64 - 1)) with (-1). unfold u64. dlia.
  - change (i64 0) with 0. unfold u64. rewrite Z.mod_small; lia.
Qed.

Lemma quot_range a b : - 2 ^ 63 <= a < 2 ^ 63 -> b <> 0 -> ~ (a = - 2 ^ 63 /\ b = -1) -> - 2 ^ 63 <= Z.quot a b < 2 ^ 63.
Proof.
  intros Ha Hb Hn. assert (Hq : Z.abs (Z.quot a b) = Z.abs a / Z.abs b).
  { rewrite <- Z.quot_div_nonneg by lia. by rewrite Z.quot_abs. }
  destruct (decide (b = -1)) as [-> |H1]; [change (-1) with (Z.opp 1); rewrite Z.quot_opp_r, Z.quot_1_r by lia; lia|].
  destruct (decide (b = 1)) as [-> |H2]; [rewrite Z.quot_1_r; lia|].
  assert (Hd : Z.abs a / Z.abs b < 2 ^ 63) by (apply Z.div_lt_upper_bound; nia). lia.
Qed.

(** [cqo; idiv rcx] *)
Lemma run_div m pos a b :
  - 2 ^ 63 <= a < 2 ^ 63 -> - 2 ^ 63 <= b < 2 ^ 63 -> regs m RAX = u64 a -> regs m RCX = u64 b ->
  b <> 0 -> ~ (a = - 2 ^ 63 /\ b = -1) ->
  rip m = base + pos -> code_at pos [0x48; 0x99; 0x48; 0xF7; 0xF9] ->
  exists m', (reaches base code m m' /\ quiet 5 m m') /\ regs m' RAX = u64 (Z.quot a b) /\ regs m' RDX = u64 (Z.rem a b).
Proof.
  intros Ha Hb HA HB H0 Hn Hr Hc. apply (code_at_app pos [0x48; 0x99] [0x48; 0xF7; 0xF9]) in Hc as [Hc1 Hc2]. change (lenz [72; 153]) with 2 in Hc2.
  destruct (run_cqo m pos Hr Hc1) as (m1 & [R1 Q1] & A1 & B1 & D1). rewrite HA in A1, D1. rewrite HB in B1.
  pose proof (quot_range a b Ha H0 Hn) as Hq.
  set (m2 := set_reg RDX (u64 (Z.rem a b)) (set_reg RAX (u64 (Z.quot a b)) (set_flags None (set_rip (base + (pos + 2 + 3)) m1)))).
  assert (H2 : reaches base code m1 m2 /\ quiet 3 m1 m2).
  { eapply (quiet_one _ _ _ _ (Idiv (Reg RCX))); [|exact Hc2|intros; reflexivity| |reflexivity|reflexivity|subst m2; other_regs|reflexivity].
    - destruct Q1 as [-> _]. lia.
    - cbn [exec read]. cbn [mbind option_bind regs set_rip]. rewrite A1, B1, D1, idiv_dividend, (i64_u64 b) by done.
      rewrite (proj2 (Z.eqb_neq b 0)) by done. replace (Z.quot a b <? - 2 ^ 63) with false by lia. replace (2 ^ 63 <=? Z.quot a b) with false by lia. done. }
  exists m2. destruct H2 as [R2 Q2]. split; [split; [by eapply reaches_trans|by apply (quiet_trans 2 3 m m1)]|]. done.
Qed.

(** ** Operators *)

Lemma arith_range op a b v :
  - 2 ^ 63 <= a < 2 ^ 63 -> - 2 ^ 63 <= b < 2 ^ 63 -> arith op a b = Some v -> - 2 ^ 63 <= v < 2 ^ 63.
Proof.
  intros Ha Hb. unfold arith. cbv zeta.
  assert (Hc : forall x, - 2 ^ 63 <= b2z x < 2 ^ 63) by (intros []; cbn; lia).
  repeat (case_step; [try (intros E; injection E as <-; first [apply i64_range|apply Hc])|]); try discriminate; repeat case_step; intros E; try discriminate; injection E as <-.
  - apply quot_range; lia.
  - pose proof (Z.rem_bound_abs a b). lia.
Qed.

Lemma binary_op_correct m pos op a b v :
  arith_op op = true -> arith op a b = Some v ->
  - 2 ^ 63 <= a < 2 ^ 63 -> - 2 ^ 63 <= b < 2 ^ 63 -> regs m RAX = u64 a -> regs m RCX = u64 b ->
  rip m = base + pos -> code_at pos (binary_op op) ->
  exists m', (reaches base code m m' /\ quiet (lenz (binary_op op)) m m') /\ regs m' RAX = u64 v.
Proof.
  intros Ho Hv Ha Hb HA HB Hr Hc. unfold arith_op in Ho. cbn [existsb] in Ho.
  repeat (apply orb_true_iff in Ho as [Ho|Ho]; [apply Z.eqb_eq in Ho; subst op|]); [..|done].
  - destruct (run_add m pos Hr Hc) as (m' & HR & E). exists m'. split; [done|]. rewrite E, HA, HB, u64_sum. injection Hv as <-. by rewrite u64_i64.
  - destruct (run_sub m pos Hr Hc) as (m' & HR & E). exists m'. split; [done|]. rewrite E, HA, HB, u64_diff. injection Hv as <-. by rewrite u64_i64.
  - destruct (run_imul m pos Hr Hc) as (m' & HR & E). exists m'. split; [done|]. rewrite E, HA, HB, !i64_u64 by done. injection Hv as <-. by rewrite u64_i64.
  - cbn -[Z.pow] in Hv. case_step_in Hv; [done|]. injection Hv as <-.
    destruct (run_div m pos a b) as (m' & HR & E & _); try done; [lia|lia|]. by exists m'.
  - cbn -[Z.pow] in Hv. case_step_in Hv; [done|]. injection Hv as <-.
    apply (code_at_app pos [0x48; 0x99; 0x48; 0xF7; 0xF9] [0x48; 0x89; 0xD0]) in Hc as [Hc1 Hc2].
    destruct (run_div m pos a b) as (m1 & [R1 Q1] & _ & D1); try done; [lia|lia|].
    destruct (run_mov_rdx m1 (pos + 5)) as (m2 & [R2 Q2] & E2); [by destruct Q1 as [-> _]; lia|done|].
    exists m2. split; [split; [by eapply reaches_trans|by apply (quiet_trans 5 3 m m1)]|]. congruence.
  - injection Hv as <-. by apply (run_compare m pos 0x94 E a b).
  - injection Hv as <-. by apply (run_compare m pos 0x95 NE a b).
  - injection Hv as <-. by apply (run_compare m pos 0x9C L a b).
  - injection Hv as <-. replace (b <? a) with (negb ((a <? b) || (a =? b))) by lia. by apply (run_compare m pos 0x9F G a b).
  - injection Hv as <-. replace (a <=? b) with ((a <? b) || (a =? b)) by lia. by apply (run_compare m pos 0x9E LE a b).
  - injection Hv as <-. replace (b <=? a) with (negb (a <? b)) by lia. by apply (run_compare m pos 0x9D GE a b).
Qed.

Lemma unary_op_correct m pos op a :
  op = 45 \/ op = 33 -> - 2 ^ 63 <= a < 2 ^ 63 -> regs m RAX = u64 a ->
  rip m = base + pos -> code_at pos (unary_op op) ->
  exists m', (reaches base code m m' /\ quiet (lenz (unary_op op)) m m') /\
    regs m' RAX = u64 (if op =? 45 then i64 (- a) else b2z (a =? 0)).
Proof.
  intros Ho Ha HA Hr Hc. destruct Ho as [-> | ->].
  - destruct (run_neg m pos Hr Hc) as (m' & HR & E). exists m'. split; [done|]. rewrite E, HA. change (45 =? 45) with true. cbv match. rewrite u64_i64.
    unfold u64. by rewrite <- Z.sub_0_l, Zminus_mod_idemp_r.
  - apply (code_at_app pos c_test (set_rax 0x94)) in Hc as [Hc1 Hc2].
    destruct (run_test m pos Hr Hc1) as (m1 & [R1 Q1] & _ & F1). change 0 with (u64 0) in F1 at 1. rewrite HA, u64_eqb in F1 by lia.
    destruct (run_set m1 (pos + 3) 0x94 E _ eq_refl eq_refl eq_refl F1) as (m2 & [R2 Q2] & E2); [by destruct Q1 as [-> _]; lia|done|].
    exists m2. split; [split; [by eapply reaches_trans|by apply (quiet_trans 3 7 m m1)]|]. rewrite E2. cbn [holds]. by destruct (a =? 0).
Qed.

(** ** Frames

    [B] is [rbp]; variable [i] is the word at [B - 8 * (i + 1)]. *)

Definition signed (v : Z) : Prop := - 2 ^ 63 <= v < 2 ^ 63.

Definition slot (B : Z) (i : nat) : Z := B - 8 * (Z.of_nat i + 1).

(** The variables [env] are in the frame of [m]; [rsp] is [S]. *)
Record in_frame (B S : Z) (env : list Z) (m : machine) : Prop := {
  fr_rbp : regs m RBP = B;
  fr_rsp : regs m RSP = S;
  fr_low : S <= B - 8 * Z.of_nat (length env);
  fr_aligned : B mod 8 = 0 /\ S mod 8 = 0;
  fr_high : B < 2 ^ 63;
  fr_vars : forall i v, env !! i = Some v -> words m (slot B i) = u64 v;
  fr_signed : Forall signed env }.

(** Words at or above [S] outside of the variables are the same. *)
Definition kept (B S : Z) (n : nat) (m m' : machine) : Prop :=
  forall a, S <= a -> ~ (B - 8 * Z.of_nat n <= a < B) -> words m' a = words m a.

Lemma kept_refl B S n m : kept B S n m m.
Proof. done. Qed.
Lemma kept_trans B S n m1 m2 m3 : kept B S n m1 m2 -> kept B S n m2 m3 -> kept B S n m1 m3.
Proof. intros H1 H2 a Ha Hn. by rewrite H2, H1. Qed.
Lemma quiet_kept B S n k m m' : quiet k m m' -> kept B S n m m'.
Proof. intros (_ & E & _) a _ _. by rewrite E. Qed.

Lemma quiet_frame B S env k m m' : quiet k m m' -> in_frame B S env m -> in_frame B S env m'.
Proof.
  intros (_ & E & Hr) [H1 H2 H3 H4 H5 H6 H7]. split; try done; [by rewrite Hr..|]. intros i v Hi. rewrite E. by apply H6.
Qed.
(** ** Memory instructions *)

Lemma decode_disp op r l v post :
  imm32 l = Some (v, post) ->
  (op = 0x8B -> decode (0x48 :: op :: 0x85 :: l) = Some (Mov (Reg RAX) (Mem RBP v), post)) /\
  (r = 0x85 -> decode (0x48 :: 0x89 :: r :: l) = Some (Mov (Mem RBP v) (Reg RAX), post)).
Proof.
  intros Hi. split; intros ->.
  - change (decode (72 :: 139 :: 133 :: l)) with ('(r, rm, l) ← ('(d, l) ← imm32 l; Some (RAX, Mem RBP d, l)); Some (Mov (Reg r) rm, l)).
    by rewrite Hi.
  - change (decode (72 :: 137 :: 133 :: l)) with ('(r, rm, l) ← ('(d, l) ← imm32 l; Some (RAX, Mem RBP d, l)); Some (Mov rm (Reg r), l)).
    by rewrite Hi.
Qed.

Lemma slot_range B S env m i : in_frame B S env m -> 0 <= S -> (i < length env)%nat -> S <= slot B i < B /\ slot B i mod 8 = 0.
Proof.
  intros [H1 H2 H3 [H4 H4'] H5 H6 H7] HS Hi. unfold slot. split; [lia|]. replace (B - 8 * (Z.of_nat i + 1)) with (B + - (Z.of_nat i + 1) * 8) by lia.
  by rewrite Z.mod_add.
Qed.

Lemma slot_address B i (env : list Z) : 0 <= slot B i < 2 ^ 63 -> (i < length env)%nat -> Z.of_nat (length env) < 2 ^ 20 ->
  u64 (B + i32 (- 8 * (Z.of_nat i + 1))) = slot B i.
Proof. intros Hs Hi Hl. rewrite i32_small by lia. unfold slot in *. rewrite u64_small; lia. Qed.

Lemma run_load m pos B S env i v :
  rip m = base + pos -> code_at pos (c_load (- 8 * (Z.of_nat i + 1))) -> in_frame B S env m -> 0 <= S -> Z.of_nat (length env) < 2 ^ 20 ->
  env !! i = Some v ->
  exists m', (reaches base code m m' /\ quiet 7 m m') /\ regs m' RAX = u64 v.
Proof.
  intros Hr Hc Hf HS Hl Hi. pose proof (lookup_lt_Some _ _ _ Hi) as Hlt. destruct (slot_range B S env m i Hf HS Hlt) as [Hs Ha].
  pose proof (fr_high _ _ _ _ Hf). set (o := - 8 * (Z.of_nat i + 1)) in *.
  exists (set_reg RAX (u64 v) (set_rip (base + (pos + 7)) m)). split; [|done].
  eapply (quiet_one _ _ _ _ (Mov (Reg RAX) (Mem RBP (i32 o)))); [exact Hr|exact Hc| | |reflexivity|reflexivity|other_regs|reflexivity].
  - intros post. apply (decode_disp 0x8B 0); [|done]. apply imm32_le32.
  - cbn [exec read address]. unfold load. cbn [regs set_rip words]. rewrite (fr_rbp _ _ _ _ Hf). unfold o.
    rewrite (slot_address B i env) by (lia || done). rewrite Ha. cbn. by rewrite (fr_vars _ _ _ _ Hf i v Hi).
Qed.

Lemma run_store m pos B S env i v :
  rip m = base + pos -> code_at pos (c_store (- 8 * (Z.of_nat i + 1))) -> in_frame B S env m -> 0 <= S -> Z.of_nat (length env) < 2 ^ 20 ->
  (i < length env)%nat -> regs m RAX = u64 v -> signed v ->
  exists m', reaches base code m m' /\ rip m' = base + (pos + 7) /\ regs m' = regs m /\
    in_frame B S (<[i := v]> env) m' /\ kept B S (length env) m m'.
Proof.
  intros Hr Hc Hf HS Hl Hlt HA Hv. destruct (slot_range B S env m i Hf HS Hlt) as [Hs Ha].
  pose proof (fr_high _ _ _ _ Hf). set (o := - 8 * (Z.of_nat i + 1)) in *.
  exists (set_word (slot B i) (u64 v) (set_rip (base + (pos + 7)) m)). split.
  { eapply (reaches_one _ _ _ (Mov (Mem RBP (i32 o)) (Reg RAX))); [exact Hr|exact Hc| |].
    - intros post. apply (decode_disp 0 0x85); [|done]. apply imm32_le32.
    - cbn [exec read write address]. cbn [regs set_rip mbind option_bind]. unfold save. rewrite (fr_rbp _ _ _ _ Hf). unfold o.
      rewrite (slot_address B i env) by (lia || done). rewrite Ha. cbn [Z.eqb]. by rewrite HA. }
  split; [done|]. split; [done|]. split.
  - destruct Hf as [H1 H2 H3 H4 H5 H6 H7]. split; try done; [by rewrite length_insert| |by apply Forall_insert].
    intros j w Hj. cbn [words set_word set_rip]. unfold upd. destruct (decide (j = i)) as [-> |Hji].
    + rewrite Z.eqb_refl. rewrite list_lookup_insert_eq in Hj by done. by injection Hj as ->.
    + rewrite list_lookup_insert_ne in Hj by done. rewrite (proj2 (Z.eqb_neq _ _)) by (unfold slot; lia). by apply H6.
  - intros a H1 H2. cbn [words set_word set_rip]. unfold upd. rewrite (proj2 (Z.eqb_neq _ _)); [done|]. unfold slot in *. lia.
Qed.

Lemma run_push m pos B S env :
  rip m = base + pos -> code_at pos [0x50] -> in_frame B S env m -> 8 <= S ->
  exists m', reaches base code m m' /\ rip m' = base + (pos + 1) /\ (forall r, r <> RSP -> regs m' r = regs m r) /\
    in_frame B (S - 8) env m' /\ kept B S (length env) m m' /\ words m' (S - 8) = regs m RAX.
Proof.
  intros Hr Hc Hf HS. destruct Hf as [H1 H2 H3 [H4 H4'] H5 H6 H7].
  exists (set_word (S - 8) (regs m RAX) (set_reg RSP (S - 8) (set_rip (base + (pos + 1)) m))). split.
  { eapply (reaches_one _ _ _ (Push RAX)); [exact Hr|exact Hc|intros; reflexivity|]. cbn [exec]. unfold push. cbn [regs set_rip].
    rewrite H2, u64_small by lia. unfold save. replace ((S - 8) mod 8 =? 0) with true; [done|]. symmetry. apply Z.eqb_eq. dlia. }
  split; [done|]. split; [|split; [|split]].
  - intros r Hn. cbn. unfold upd. by rewrite (proj2 (Z.eqb_neq _ _)).
  - split; try done; [lia|split; [done|dlia]|]. intros i v Hi. cbn. unfold upd. apply lookup_lt_Some in Hi as Hlt.
    rewrite (proj2 (Z.eqb_neq _ _)) by (unfold slot; lia). by apply H6.
  - intros a Ha _. cbn. unfold upd. by rewrite (proj2 (Z.eqb_neq _ _)) by lia.
  - cbn. unfold upd. by rewrite Z.eqb_refl.
Qed.

Lemma run_pop m pos B S env :
  rip m = base + pos -> code_at pos [0x59] -> in_frame B S env m -> 0 <= S -> S + 8 <= B - 8 * Z.of_nat (length env) ->
  exists m', reaches base code m m' /\ rip m' = base + (pos + 1) /\ words m' = words m /\ regs m' RCX = words m S /\
    (forall r, r <> RSP -> r <> RCX -> regs m' r = regs m r) /\ in_frame B (S + 8) env m'.
Proof.
  intros Hr Hc Hf HS HB. destruct Hf as [H1 H2 H3 [H4 H4'] H5 H6 H7].
  exists (set_reg RCX (words m S) (set_reg RSP (S + 8) (set_rip (base + (pos + 1)) m))). split.
  { eapply (reaches_one _ _ _ (Pop RCX)); [exact Hr|exact Hc|intros; reflexivity|]. cbn [exec]. unfold pop, load. cbn [regs set_rip].
    rewrite H2, H4'. cbn [Z.eqb mbind option_bind words set_rip]. by rewrite u64_small by lia. }
  split; [done|]. split; [done|]. split; [done|]. split.
  - intros r Hn1 Hn2. cbn. unfold upd. by rewrite !(proj2 (Z.eqb_neq _ _)).
  - split; try done. split; [done|dlia].
Qed.
(** ** Jumps *)

Context (Hbase : 0 <= base < 2 ^ 62) (Hsize : lenz code < 2 ^ 31).

Lemma same_frame B S env m m' : regs m' = regs m -> words m' = words m -> in_frame B S env m -> in_frame B S env m'.
Proof. intros Hr Hw [H1 H2 H3 H4 H5 H6 H7]. split; rewrite ?Hr; try done. intros. rewrite Hw. auto. Qed.

Lemma jump_target pos n t :
  0 <= pos + n <= lenz code -> 0 <= t <= lenz code -> u64 (base + (pos + n) + i32 (t - (pos + n))) = base + t.
Proof. intros Hp Ht. rewrite i32_small by lia. rewrite u64_small; lia. Qed.

Lemma decode_rel32 l d post : imm32 l = Some (d, post) ->
  decode (0xE9 :: l) = Some (Jmp d, post) /\ decode (0xE8 :: l) = Some (Call d, post) /\ decode (0x0F :: 0x84 :: l) = Some (Jcc E d, post).
Proof.
  intros Hi. split; [|split].
  - change (decode (233 :: l)) with ('(d, l) ← imm32 l; Some (Jmp d, l)). by rewrite Hi.
  - change (decode (232 :: l)) with ('(d, l) ← imm32 l; Some (Call d, l)). by rewrite Hi.
  - change (decode (15 :: 132 :: l)) with ('(d, l) ← imm32 l; Some (Jcc E d, l)). by rewrite Hi.
Qed.

Lemma run_jmp m pos t :
  rip m = base + pos -> code_at pos (c_jmp (Some t) pos) -> 0 <= t <= lenz code -> reaches base code m (set_rip (base + t) m).
Proof.
  intros Hr Hc Ht. pose proof (code_at_bounds _ _ Hc) as Hb. rewrite c_jmp_len in Hb.
  eapply (reaches_one _ _ _ (Jmp (i32 (t - (pos + 5))))); [exact Hr|exact Hc| |].
  - intros post. apply decode_rel32, imm32_le32.
  - cbn [exec]. change (lenz (c_jmp (Some t) pos)) with 5. cbn [rip set_rip]. rewrite jump_target by lia. done.
Qed.

(** [test rax, rax; je] *)
Lemma run_branch m pos v over :
  rip m = base + pos -> code_at pos (c_test ++ c_je over) -> regs m RAX = u64 v -> signed v ->
  0 <= over -> pos + 9 + over <= lenz code ->
  exists m', reaches base code m m' /\ rip m' = base + (if v =? 0 then pos + 9 + over else pos + 9) /\ regs m' = regs m /\ words m' = words m.
Proof.
  intros Hr Hc HA Hv Ho Hl. pose proof (code_at_bounds _ _ Hc) as Hb. apply code_at_app in Hc as [Hc1 Hc2]. change (lenz c_test) with 3 in Hc2.
  destruct (run_test m pos Hr Hc1) as (m1 & [R1 Q1] & G1 & F1). destruct Q1 as (I1 & W1 & _).
  change 0 with (u64 0) in F1 at 1. rewrite HA, u64_eqb in F1 by (done || lia).
  exists (set_rip (base + (if v =? 0 then pos + 9 + over else pos + 9)) m1). split; [|done].
  eapply reaches_trans; [exact R1|]. eapply (reaches_one _ _ _ (Jcc E (i32 over))); [|exact Hc2| |].
  - rewrite I1, Hr. lia.
  - intros post. apply decode_rel32, imm32_le32.
  - change (lenz (c_je over)) with 6. cbn [exec flags set_rip]. rewrite F1. cbn [mbind option_bind holds]. replace (pos + 3 + 6) with (pos + 9) by lia.
    destruct (v =? 0); [|done]. cbn [rip set_rip]. f_equal. replace over with (pos + 9 + over - (pos + 9)) at 1 by lia.
    rewrite jump_target by lia. done.
Qed.

(** The call pushes the address behind it. *)
Lemma run_call m pos f fs o B S env :
  rip m = base + pos -> code_at pos (c_call fs f pos) -> func_offset fs f = Some o -> 0 <= o <= lenz code ->
  in_frame B S env m -> 8 <= S ->
  exists m', reaches base code m m' /\ rip m' = base + o /\ (forall r, r <> RSP -> regs m' r = regs m r) /\
    in_frame B (S - 8) env m' /\ kept B S (length env) m m' /\ words m' (S - 8) = base + (pos + 5).
Proof.
  intros Hr Hc Ho Hol Hf HS. destruct Hf as [H1 H2 H3 [H4 H4'] H5 H6 H7].
  pose proof (code_at_bounds _ _ Hc) as Hb. change (lenz (c_call fs f pos)) with 5 in Hb.
  exists (set_rip (base + o) (set_word (S - 8) (base + (pos + 5)) (set_reg RSP (S - 8) (set_rip (base + (pos + 5)) m)))). split.
  { eapply (reaches_one _ _ _ (Call (i32 (o - (pos + 5))))); [exact Hr|exact Hc| |].
    - intros post. unfold c_call. rewrite Ho. apply decode_rel32, imm32_le32.
    - change (lenz (c_call fs f pos)) with 5. cbn [exec]. unfold push. cbn [regs set_rip rip]. rewrite H2, (u64_small (S - 8)) by lia.
      unfold save. replace ((S - 8) mod 8 =? 0) with true by (symmetry; apply Z.eqb_eq; dlia). cbn [mbind option_bind].
      rewrite jump_target by lia. done. }
  split; [done|]. split; [|split; [|split]].
  - intros r Hn. cbn. unfold upd. by rewrite (proj2 (Z.eqb_neq _ _)).
  - split; try done; [lia|split; [done|dlia]|]. intros i v Hi. cbn. unfold upd. apply lookup_lt_Some in Hi as Hlt.
    rewrite (proj2 (Z.eqb_neq _ _)) by (unfold slot; lia). by apply H6.
  - intros a Ha _. cbn. unfold upd. by rewrite (proj2 (Z.eqb_neq _ _)) by lia.
  - cbn. unfold upd. by rewrite Z.eqb_refl.
Qed.

(** [mov rsp, rbp; pop rbp; ret] *)
Lemma run_epilogue m pos B S env :
  rip m = base + pos -> code_at pos c_epilogue -> in_frame B S env m -> 0 <= S -> 
  exists m', reaches base code m m' /\ rip m' = words m (B + 8) /\ regs m' RAX = regs m RAX /\ regs m' RSP = B + 16 /\
    regs m' RBP = words m B /\ words m' = words m.
Proof.
  intros Hr Hc Hf HS. destruct Hf as [H1 H2 H3 [H4 H4'] H5 H6 H7].
  apply (code_at_app pos [0x48; 0x89; 0xEC] [0x5D; 0xC3]) in Hc as [Hc1 Hc2]. change (lenz [72; 137; 236]) with 3 in Hc2.
  apply (code_at_app _ [0x5D] [0xC3]) in Hc2 as [Hc2 Hc3]. change (lenz [93]) with 1 in Hc3.
  set (m1 := set_reg RSP B (set_rip (base + (pos + 3)) m)).
  set (m2 := set_reg RBP (words m B) (set_reg RSP (B + 8) (set_rip (base + (pos + 3 + 1)) m1))).
  exists (set_rip (words m (B + 8)) (set_reg RSP (B + 16) (set_rip (base + (pos + 3 + 1 + 1)) m2))). split; [|done].
  eapply (reaches_trans _ _ _ m1).
  { eapply (reaches_one _ _ _ (Mov (Reg RSP) (Reg RBP))); [exact Hr|exact Hc1|intros; reflexivity|]. cbn [exec read write]. cbn [regs set_rip mbind option_bind]. by rewrite H1. }
  eapply (reaches_trans _ _ _ m2).
  { eapply (reaches_one _ _ _ (Pop RBP)); [|exact Hc2|intros; reflexivity|]; [done|]. cbn [exec]. unfold pop, load. cbn [regs set_rip set_reg m1].
    change (upd (regs m) RSP B RSP) with B. rewrite H4. cbn [Z.eqb mbind option_bind]. rewrite u64_small by lia. done. }
  eapply (reaches_one _ _ _ Ret); [|exact Hc3|intros; reflexivity|]; [done|]. cbn [exec]. unfold pop, load. cbn [regs set_rip set_reg m2 m1].
  change (upd _ RBP (words m B) RSP) with (B + 8). replace ((B + 8) mod 8 =? 0) with true by (symmetry; apply Z.eqb_eq; dlia).
  cbn [mbind option_bind]. rewrite u64_small by lia. replace (B + 8 + 8) with (B + 16) by lia. done.
Qed.
(** ** Entering a function *)

Lemma run_prologue m pos S :
  rip m = base + pos -> code_at pos [0x55; 0x48; 0x89; 0xE5] -> regs m RSP = S -> S mod 8 = 0 -> 8 <= S < 2 ^ 63 ->
  exists m', reaches base code m m' /\ rip m' = base + (pos + 4) /\ regs m' RBP = S - 8 /\ regs m' RSP = S - 8 /\
    (forall r, r <> RSP -> r <> RBP -> regs m' r = regs m r) /\ words m' = upd (words m) (S - 8) (regs m RBP).
Proof.
  intros Hr Hc HS Ha Hb. apply (code_at_app pos [0x55] [0x48; 0x89; 0xE5]) in Hc as [Hc1 Hc2]. change (lenz [85]) with 1 in Hc2.
  set (m1 := set_word (S - 8) (regs m RBP) (set_reg RSP (S - 8) (set_rip (base + (pos + 1)) m))).
  exists (set_reg RBP (S - 8) (set_rip (base + (pos + 1 + 3)) m1)). split.
  { eapply (reaches_trans _ _ _ m1).
    - eapply (reaches_one _ _ _ (Push RBP)); [exact Hr|exact Hc1|intros; reflexivity|]. cbn [exec]. unfold push. cbn [regs set_rip].
      rewrite HS, u64_small by lia. unfold save. replace ((S - 8) mod 8 =? 0) with true; [done|]. symmetry. apply Z.eqb_eq. dlia.
    - eapply (reaches_one _ _ _ (Mov (Reg RBP) (Reg RSP))); [done|exact Hc2|intros; reflexivity|done]. }
  split; [cbn; lia|]. split; [done|]. split; [done|]. split; [|done]. intros r H1 H2. cbn. unfold upd. by rewrite !(proj2 (Z.eqb_neq _ _)).
Qed.

(** [mov [rbp + off], reg] for the registers of the first two parameters. *)
Lemma run_store_param m pos i r B off :
  (i = 0%nat /\ r = RDI) \/ (i = 1%nat /\ r = RSI) ->
  rip m = base + pos -> code_at pos (store_param i ++ le32 (u32 off)) -> regs m RBP = B -> - 2 ^ 31 <= off < 2 ^ 31 ->
  0 <= B + off < 2 ^ 63 -> (B + off) mod 8 = 0 ->
  exists m', reaches base code m m' /\ rip m' = base + (pos + 7) /\ regs m' = regs m /\ words m' = upd (words m) (B + off) (regs m r).
Proof.
  intros Hi Hr Hc HB Ho Hb Ha. exists (set_word (B + off) (regs m r) (set_rip (base + (pos + 7)) m)). split; [|done].
  eapply (reaches_one _ _ _ (Mov (Mem RBP (i32 off)) (Reg r))); [exact Hr|exact Hc| |].
  - intros post. destruct Hi as [[-> ->]|[-> ->]]; rewrite <- app_assoc.
    + change (decode (store_param 0 ++ le32 (u32 off) ++ post)) with ('(d, l) ← imm32 (le32 (u32 off) ++ post); Some (Mov (Mem RBP d) (Reg RDI), l)).
      by rewrite imm32_le32.
    + change (decode (store_param 1 ++ le32 (u32 off) ++ post)) with ('(d, l) ← imm32 (le32 (u32 off) ++ post); Some (Mov (Mem RBP d) (Reg RSI), l)).
      by rewrite imm32_le32.
  - replace (lenz (store_param i ++ le32 (u32 off))) with 7 by (by destruct Hi as [[-> _]|[-> _]]).
    cbn [exec read write address]. cbn [regs set_rip mbind option_bind]. unfold save. rewrite HB, i32_small, u64_small by lia. by rewrite Ha.
Qed.

Lemma run_sub_rsp m pos S k :
  rip m = base + pos -> code_at pos ([0x48; 0x81; 0xEC] ++ le32 (u32 k)) -> regs m RSP = S -> 0 <= k < 2 ^ 31 -> k <= S < 2 ^ 63 ->
  exists m', reaches base code m m' /\ rip m' = base + (pos + 7) /\ regs m' RSP = S - k /\ (forall r, r <> RSP -> regs m' r = regs m r) /\ words m' = words m.
Proof.
  intros Hr Hc HS Hk Hb. exists (set_reg RSP (S - k) (set_flags None (set_rip (base + (pos + 7)) m))). split.
  { eapply (reaches_one _ _ _ (Alu_imm Sub (Reg RSP) (i32 k))); [exact Hr|exact Hc| |].
    - intros post. rewrite <- app_assoc. change (decode ([72; 129; 236] ++ le32 (u32 k) ++ post)) with ('(v, l) ← imm32 (le32 (u32 k) ++ post); Some (Alu_imm Sub (Reg RSP) v, l)).
      by rewrite imm32_le32.
    - cbn [exec]. unfold alu_exec. cbn [read write regs set_rip mbind option_bind alu_op]. rewrite HS, i32_small, (u64_small k), u64_small by lia. done. }
  split; [done|]. split; [done|]. split; [|done]. intros r Hn. cbn. unfold upd. by rewrite (proj2 (Z.eqb_neq _ _)).
Qed.

(** The arguments are in [rdi] and [rsi]. *)
Definition args_in (args : list Z) (m : machine) : Prop :=
  match args with
  | [] => True
  | [a] => regs m RDI = u64 a
  | a :: b :: _ => regs m RDI = u64 a /\ regs m RSI = u64 b
  end.

Lemma local_offset_1 (p : list Z) : local_offset (frame [p]) p = -8.
Proof. unfold local_offset. cbn. unfold str_eqb. by rewrite bool_decide_eq_true_2. Qed.

Lemma local_offset_2 (p q : list Z) : p <> q -> local_offset (frame [p; q]) p = -16 /\ local_offset (frame [p; q]) q = -8.
Proof.
  intros Hn. unfold local_offset. cbn. unfold str_eqb. rewrite (bool_decide_eq_false_2 (q = p)) by congruence.
  by rewrite !bool_decide_eq_true_2.
Qed.

Lemma run_enter m pos S params args :
  rip m = base + pos -> code_at pos (c_enter params) -> regs m RSP = S -> S mod 8 = 0 -> 32 <= S < 2 ^ 63 ->
  NoDup params -> (length params <= 2)%nat -> length params = length args -> args_in args m -> Forall signed args ->
  exists m', reaches base code m m' /\ rip m' = base + (pos + lenz (c_enter params)) /\
    in_frame (S - 8) (S - 8 - 8 * Z.of_nat (length args)) (rev args) m' /\
    words m' (S - 8) = regs m RBP /\ (forall a, S <= a -> words m' a = words m a).
Proof.
  intros Hr Hc HS Ha Hb Hnd Hl Hlen Hargs Hsg. unfold c_enter in Hc |- *. apply code_at_app in Hc as [Hc1 Hc2]. change (lenz [85; 72; 137; 229]) with 4 in Hc2.
  destruct (run_prologue m pos S Hr Hc1 HS Ha ltac:(lia)) as (m1 & R1 & I1 & B1 & S1 & G1 & W1).
  apply code_at_app in Hc2 as [Hc2 Hc3].
  destruct params as [|p [|q [|? ?]]]; [| | |cbn in Hl; lia]; destruct args as [|a [|b [|? ?]]]; try done.
  - exists m1. split; [done|]. split; [rewrite I1; done|]. split; [|split].
    + split; try done; cbn [length rev] in *; [lia|split; dlia|lia].
    + rewrite W1. unfold upd. by rewrite Z.eqb_refl.
    + intros x Hx. rewrite W1. unfold upd. by rewrite (proj2 (Z.eqb_neq _ _)) by lia.
  - cbn [c_params Nat.ltb Nat.leb] in Hc2, Hc3. rewrite local_offset_1, app_nil_r in Hc2, Hc3.
    change (0 <? Z.of_nat (length [p])) with true in Hc3 |- *. change (8 * Z.of_nat (length [p])) with 8 in Hc3.
    destruct (run_store_param m1 (pos + 4) 0 RDI (S - 8) (-8)) as (m2 & R2 & I2 & G2 & W2); [by left|done|done|done|lia|lia|dlia|].
    destruct (run_sub_rsp m2 (pos + 4 + 7) (S - 8) 8) as (m3 & R3 & I3 & S3 & G3 & W3); [done|done|by rewrite G2|lia|lia|].
    exists m3. split; [eapply reaches_trans; [exact R1|]; by eapply reaches_trans|]. split; [rewrite I3; cbn [c_params Nat.ltb Nat.leb]; rewrite local_offset_1; match goal with |- context [lenz ?l] => change (lenz l) with 18 end; lia|].
    assert (Hw : words m3 = upd (upd (words m) (S - 8) (regs m RBP)) (S - 8 + -8) (u64 a)).
    { rewrite W3, W2, W1. f_equal. rewrite G1 by done. exact Hargs. }
    rewrite Hw. split; [|split].
    + split; try done; [rewrite G3, G2 by done; exact B1|cbn [length]; split; dlia|lia|].
      intros i v Hi. destruct i as [|i]; [|by destruct i]. injection Hi as <-. rewrite Hw. unfold slot, upd.
      by rewrite (proj2 (Z.eqb_eq _ _)) by lia.
    + unfold upd. rewrite (proj2 (Z.eqb_neq _ _)) by lia. by rewrite Z.eqb_refl.
    + intros x Hx. unfold upd. by rewrite !(proj2 (Z.eqb_neq _ _)) by lia.
  - assert (Hpq : p <> q) by (intros ->; apply NoDup_cons in Hnd as [Hn _]; apply Hn; by left).
    destruct (local_offset_2 p q Hpq) as [L1 L2]. destruct Hargs as [A1 A2].
    cbn [c_params Nat.ltb Nat.leb] in Hc2, Hc3. rewrite L1, L2, app_nil_r in Hc2, Hc3.
    apply code_at_app in Hc2 as [Hc2 Hc2']. change (lenz (store_param 0 ++ le32 (u32 (-16)))) with 7 in Hc2'.
    change (0 <? Z.of_nat (length [p; q])) with true in Hc3 |- *. change (8 * Z.of_nat (length [p; q])) with 16 in Hc3.
    change (lenz ((store_param 0 ++ le32 (u32 (-16))) ++ store_param 1 ++ le32 (u32 (-8)))) with 14 in Hc3.
    destruct (run_store_param m1 (pos + 4) 0 RDI (S - 8) (-16)) as (m2 & R2 & I2 & G2 & W2); [by left|done|done|done|lia|lia|dlia|].
    destruct (run_store_param m2 (pos + 4 + 7) 1 RSI (S - 8) (-8)) as (m3 & R3 & I3 & G3 & W3); [by right|done|done|by rewrite G2|lia|lia|dlia|].
    destruct (run_sub_rsp m3 (pos + 4 + 14) (S - 8) 16) as (m4 & R4 & I4 & S4 & G4 & W4); [rewrite I3; lia|done|by rewrite G3, G2|lia|lia|].
    exists m4. split; [eapply reaches_trans; [exact R1|]; eapply reaches_trans; [exact R2|]; by eapply reaches_trans|].
    split; [rewrite I4; cbn [c_params Nat.ltb Nat.leb]; rewrite L1, L2; match goal with |- context [lenz ?l] => change (lenz l) with 25 end; lia|].
    assert (Hw : words m4 = upd (upd (upd (words m) (S - 8) (regs m RBP)) (S - 8 + -16) (u64 a)) (S - 8 + -8) (u64 b)).
    { rewrite W4, W3, W2, W1. rewrite G2, !G1 by done. by rewrite A1, A2. }
    rewrite Hw. split; [|split].
    + split; try done; [rewrite G4, G3, G2 by done; exact B1|cbn [length]; split; dlia|lia| |].
      * intros i v Hi. destruct i as [|[|i]]; [injection Hi as <-|injection Hi as <-|by destruct i]; rewrite Hw; unfold slot, upd.
        -- by rewrite (proj2 (Z.eqb_eq _ _)) by lia.
        -- rewrite (proj2 (Z.eqb_neq _ _)) by lia. by rewrite (proj2 (Z.eqb_eq _ _)) by lia.
      * by apply List.Forall_rev.
    + unfold upd. rewrite !(proj2 (Z.eqb_neq _ _)) by lia. by rewrite Z.eqb_refl.
    + intros x Hx. unfold upd. by rewrite !(proj2 (Z.eqb_neq _ _)) by lia.
Qed.
End machine.
