(* ===== verification/CcSim.v ===== *)
(** * Compiled programs compute what they mean: the simulation

    By induction on the fuel of the semantics: the code of an expression leaves its value
    in [rax], the code of a statement ends where its outcome says, and a call returns with
    the function's value, each with the variables of the semantics in the frame and without
    touching the words above the stack. *)

From stdpp Require Import strings.
From S2P Require Import Prelude CString Vfs Bytes CcLex CcParse CcGen CcDirect X86 CcSem CcCorrect.

Lemma frame_offset l : forall off x i, index x l = Some i -> local_offset (frame_from off l) x = off - 8 * (Z.of_nat i + 1).
Proof.
  induction l as [|y l IH]; intros off x i Hi; [done|]. cbn [index frame_from] in *. unfold local_offset. cbn [find fst snd].
  destruct (str_eqb y x) eqn:E.
  - injection Hi as <-. cbn. lia.
  - destruct (index x l) as [j|] eqn:Ej; [|done]. injection Hi as <-. specialize (IH (off - 8) x j Ej). unfold local_offset in IH. rewrite IH. lia.
Qed.

Lemma index_lt l : forall x i, index x l = Some i -> (i < length l)%nat.
Proof.
  induction l as [|y l IH]; intros x i Hi; [done|]. cbn [index length] in *. destruct (str_eqb y x); [injection Hi as <-; lia|].
  destruct (index x l) as [j|] eqn:Ej; [|done]. injection Hi as <-. specialize (IH x j Ej). lia.
Qed.

Lemma local_is_frame params x i : index x (rev params) = Some i -> local_offset (frame params) x = - 8 * (Z.of_nat i + 1).
Proof. intros Hi. unfold frame. rewrite (frame_offset _ _ _ i Hi). lia. Qed.

Section simulation.
Context (base : Z) (code : list Z) (Hbase : 0 <= base < 2 ^ 62) (Hsize : lenz code < 2 ^ 31).
Context (prog : list ASTNode) (FS : list (list Z * Z)).
Notation reaches := (reaches base code). Notation code_at := (code_at code). Notation known := (map fst FS).

(** Every function of the program is in the code, at its offset in [FS]. *)
Definition laid_out : Prop :=
  forall f params body, find_func prog f = Some (params, body) ->
  exists o, func_offset FS f = Some o /\ code_at o (cfunc FS params body o) /\ NoDup params /\ (length params <= 2)%nat /\
    forallb (core_stmt params known 0) body = true.
Context (Hlayout : laid_out).

(** The code of [e] runs from [m] to its end, with the value [v] and the variables [env']. *)
Definition expr_runs (params : list (list Z)) (env : list Z) (e : ASTNode) (v : Z) (env' : list Z) (pos B S : Z) (m : machine) : Prop :=
  exists m', reaches m m' /\ rip m' = base + (pos + lenz (cexpr (frame params) FS e pos)) /\ regs m' RAX = u64 v /\ signed v /\
    in_frame B S env' m' /\ length env' = length env /\ kept B S (length env) m m' /\
    (call_free e = true -> regs m' RSI = regs m RSI).

(** [e] with fuel [n]. *)
Definition sim_at (n : nat) (e : ASTNode) : Prop :=
  forall params env v env' pos B S m,
  eval_expr prog n (rev params) env e = Some (v, env') -> core_expr params known e = true ->
  length env = length params -> (length params <= 2)%nat ->
  rip m = base + pos -> code_at pos (cexpr (frame params) FS e pos) -> in_frame B S env m -> 32 * Z.of_nat n <= S ->
  expr_runs params env e v env' pos B S m.
Definition sim_expr (n : nat) : Prop := forall e, sim_at n e.

Definition sim_call (n : nat) : Prop :=
  forall f args v o S m,
  call_func prog n f args = Some v -> Forall signed args -> args_in args m ->
  func_offset FS f = Some o -> rip m = base + o -> regs m RSP = S -> S mod 8 = 0 -> 32 * Z.of_nat n <= S < 2 ^ 63 ->
  exists m', reaches m m' /\ rip m' = words m S /\ regs m' RAX = u64 v /\ signed v /\ regs m' RSP = S + 8 /\ regs m' RBP = regs m RBP /\
    (forall a, S <= a -> words m' a = words m a).

(** Where a statement ends. *)
Definition ends (B S : Z) (env' : list Z) (o : outcome) (here : Z) (bt ct : option Z) (m m' : machine) : Prop :=
  match o with
  | Normal => rip m' = base + here /\ in_frame B S env' m'
  | Broke => exists t, bt = Some t /\ rip m' = base + t /\ in_frame B S env' m'
  | Continued => exists t, ct = Some t /\ rip m' = base + t /\ in_frame B S env' m'
  | Returned v => signed v /\ regs m' RAX = u64 v /\ rip m' = words m (B + 8) /\ regs m' RSP = B + 16 /\ regs m' RBP = words m B
  end.

(** Inside of loops the target of a jump out is in the code. *)
Definition in_code (loops : nat) (t : option Z) : Prop := (0 < loops)%nat -> exists p, t = Some p /\ 0 <= p <= lenz code.

(** The code of [s] runs from [m] to where the outcome [o] says. *)
Definition stmt_runs (params : list (list Z)) (env : list Z) (s : ASTNode) (o : outcome) (env' : list Z) (bt ct : option Z) (pos B S : Z) (m : machine) : Prop :=
  exists m', reaches m m' /\ ends B S env' o (pos + lenz (cstmt (frame params) FS bt ct s pos)) bt ct m m' /\
    length env' = length env /\ kept B S (length env) m m'.

Definition stmt_at (n : nat) (s : ASTNode) : Prop :=
  forall params env o env' loops bt ct pos B S m,
  exec_stmt prog n (rev params) env s = Some (o, env') -> core_stmt params known loops s = true ->
  length env = length params -> (length params <= 2)%nat ->
  rip m = base + pos -> code_at pos (cstmt (frame params) FS bt ct s pos) -> in_frame B S env m ->
  32 * Z.of_nat n <= S -> in_code loops bt -> in_code loops ct ->
  stmt_runs params env s o env' bt ct pos B S m.
Definition sim_stmt (n : nat) : Prop := forall s, stmt_at n s.

(** ** Expressions *)

Lemma kept_quiet B S n k m1 m2 m3 : kept B S n m1 m2 -> quiet k m2 m3 -> kept B S n m1 m3.
Proof. intros H1 H2. eapply kept_trans; [exact H1|by eapply quiet_kept]. Qed.

Lemma sim_number n v : sim_at (S n) (AST_NUMBER v).
Proof.
  intros params env w env' pos B S m Hev Hco Hlen Hl2 Hr Hc Hf HS. injection Hev as <- <-. cbn [core_expr] in Hco. zbool.
  destruct (run_number base code m pos v Hr Hc) as (m' & [R Q] & E). exists m'. split; [done|].
  split; [destruct Q as [-> _]; change (lenz _) with 7; lia|]. rewrite E, i32_small by lia. split; [done|]. split; [unfold signed; lia|].
  split; [by eapply quiet_frame|]. split; [done|]. split; [by eapply quiet_kept|]. intros _. by apply Q.
Qed.

Lemma sim_binary n op l r : sim_expr n -> sim_at (S n) (AST_BINARY op l r).
Proof.
  intros IH params env v env' pos B S m Hev Hco Hlen Hl2 Hr Hc Hf HS. unfold expr_runs. cbn [eval_expr core_expr] in *. zbool.
  destruct (eval_expr prog n (rev params) env r) as [[b env1]|] eqn:Er; [|done]. cbn [mbind option_bind] in Hev.
  destruct (eval_expr prog n (rev params) env1 l) as [[a env2]|] eqn:El; [|done]. cbn [mbind option_bind] in Hev.
  destruct (arith op a b) as [w|] eqn:Ea; [|done]. cbn [mbind option_bind] in Hev. injection Hev as -> ->.
  cbn [cexpr] in *. unfold pseq, pconst in *. cbv zeta in *. set (cr := cexpr (frame params) FS r pos) in *.
  set (cl := cexpr (frame params) FS l (pos + lenz cr + lenz [80])) in *.
  apply code_at_app in Hc as [Hc1 Hc]. apply code_at_app in Hc as [Hc2 Hc]. apply code_at_app in Hc as [Hc3 Hc]. apply code_at_app in Hc as [Hc4 Hc5].
  change (lenz [80]) with 1 in *. change (lenz [89]) with 1 in *.
  destruct (IH r params env b env1 pos B S m) as (m1 & R1 & I1 & A1 & V1 & F1 & L1 & K1 & C1); try done; [lia|].
  destruct (run_push base code m1 (pos + lenz cr) B S env1) as (m2 & R2 & I2 & G2 & F2 & K2 & W2); [done|done|done|lia|].
  destruct (IH l params env1 a env' (pos + lenz cr + 1) B (S - 8) m2) as (m3 & R3 & I3 & A3 & V3 & F3 & L3 & K3 & C3); try done; [by rewrite L1|lia|].
  destruct (run_pop base code m3 (pos + lenz cr + 1 + lenz cl) B (S - 8) env') as (m4 & R4 & I4 & W4 & X4 & G4 & F4); [done|done|done|lia| |].
  { pose proof (fr_low _ _ _ _ Hf). rewrite L3, L1. lia. }
  replace (S - 8 + 8) with S in F4 by lia.
  assert (HB : regs m4 RCX = u64 b).
  { rewrite X4, K3; [by rewrite W2|lia|]. pose proof (fr_low _ _ _ _ Hf). rewrite L1. lia. }
  destruct (binary_op_correct base code m4 (pos + lenz cr + 1 + lenz cl + 1) op a b v) as (m5 & [R5 Q5] & A5); try done; [by rewrite G4|].
  exists m5. split; [eapply reaches_trans; [exact R1|]; eapply reaches_trans; [exact R2|]; eapply reaches_trans; [exact R3|]; by eapply reaches_trans|].
  split. { destruct Q5 as [-> _]. rewrite I4, !lenz_app. change (lenz [80]) with 1. change (lenz [89]) with 1. lia. }
  split; [done|]. split; [by apply (arith_range op a b v)|]. split; [by eapply quiet_frame|]. split; [congruence|]. split.
  - eapply kept_quiet; [|exact Q5]. eapply kept_trans; [exact K1|]. rewrite <- L1. eapply kept_trans; [exact K2|].
    intros x Hx Hn. rewrite W4. apply K3; [lia|done].
  - intros Hcf. cbn [call_free] in Hcf. apply andb_true_iff in Hcf as [Hcl Hcr]. destruct Q5 as (_ & _ & Q5).
    rewrite Q5, G4, C3, G2, C1 by done. done.
Qed.
Lemma sim_unary n op a : sim_expr n -> sim_at (S n) (AST_UNARY op a).
Proof.
  intros IH params env v env' pos B S m Hev Hco Hlen Hl2 Hr Hc Hf HS. cbn [eval_expr core_expr] in *. zbool.
  destruct (eval_expr prog n (rev params) env a) as [[x env1]|] eqn:Ea; [|done]. cbn [mbind option_bind] in Hev. injection Hev as <- ->.
  cbn [cexpr] in Hc. unfold pseq, pconst in Hc. cbv zeta in Hc. set (ca := cexpr (frame params) FS a pos) in *.
  apply code_at_app in Hc as [Hc1 Hc2].
  destruct (IH a params env x env' pos B S m) as (m1 & R1 & I1 & A1 & V1 & F1 & L1 & K1 & C1); try done; [lia|].
  destruct (unary_op_correct base code m1 (pos + lenz ca) op x) as (m2 & [R2 Q2] & A2); try done; [lia|].
  exists m2. split; [by eapply reaches_trans|]. split.
  { destruct Q2 as [-> _]. rewrite I1. cbn [cexpr]. rewrite lenz_pseq. fold ca. unfold pconst. lia. }
  split; [done|]. split; [destruct (op =? 45); [apply i64_range|by destruct (x =? 0)]|]. split; [by eapply quiet_frame|]. split; [done|].
  split; [by eapply kept_quiet|]. intros Hcf. destruct Q2 as (_ & _ & ->); [|done..]. by apply C1.
Qed.

Lemma sim_ident n x : sim_at (S n) (AST_IDENT x).
Proof.
  intros params env v env' pos B S m Hev Hco Hlen Hl2 Hr Hc Hf HS. cbn [eval_expr] in Hev.
  destruct (index x (rev params)) as [i|] eqn:Ei; [|done]. cbn [mbind option_bind] in Hev.
  destruct (env !! i) as [w|] eqn:Ew; [|done]. cbn [mbind option_bind] in Hev. injection Hev as -> <-.
  assert (Ec : cexpr (frame params) FS (AST_IDENT x) pos = c_load (- 8 * (Z.of_nat i + 1))).
  { cbn [cexpr]. unfold with_local, pconst. rewrite (local_is_frame _ _ i Ei). by replace (-8 * (Z.of_nat i + 1) =? -1) with false by lia. }
  unfold expr_runs. rewrite Ec in *.
  destruct (run_load base code m pos B S env i v) as (m' & [R Q] & E); [done|done|done|lia|lia|done|]. exists m'. split; [done|].
  split; [destruct Q as [-> _]; change (lenz _) with 7; lia|]. split; [done|].
  split; [by eapply (Forall_lookup_1 signed env); [apply (fr_signed _ _ _ _ Hf)|]|].
  split; [by eapply quiet_frame|]. split; [done|]. split; [by eapply quiet_kept|]. intros _. by apply Q.
Qed.

Lemma sim_assign n x r : sim_expr n -> sim_at (S n) (AST_ASSIGN None (AST_IDENT x) r).
Proof.
  intros IH params env v env' pos B S m Hev Hco Hlen Hl2 Hr Hc Hf HS. cbn [eval_expr core_expr] in *. zbool.
  destruct (eval_expr prog n (rev params) env r) as [[w env1]|] eqn:Er; [|done]. cbn [mbind option_bind] in Hev.
  destruct (index x (rev params)) as [i|] eqn:Ei; [|done]. cbn [mbind option_bind] in Hev. injection Hev as -> <-.
  pose proof (index_lt _ _ _ Ei) as Hi. rewrite length_rev in Hi.
  assert (Ec : cexpr (frame params) FS (AST_ASSIGN None (AST_IDENT x) r) pos = cexpr (frame params) FS r pos ++ c_store (- 8 * (Z.of_nat i + 1))).
  { cbn [cexpr]. rewrite (local_is_frame _ _ i Ei). by replace (-8 * (Z.of_nat i + 1) =? -1) with false by lia. }
  unfold expr_runs. rewrite Ec in *. apply code_at_app in Hc as [Hc1 Hc2].
  destruct (IH r params env v env1 pos B S m) as (m1 & R1 & I1 & A1 & V1 & F1 & L1 & K1 & C1); try done; [lia|].
  destruct (run_store base code m1 (pos + lenz (cexpr (frame params) FS r pos)) B S env1 i v) as (m2 & R2 & I2 & G2 & F2 & K2); try done; [lia|lia|lia|].
  exists m2. split; [by eapply reaches_trans|]. split; [rewrite I2, lenz_app; change (lenz (c_store _)) with 7; lia|].
  rewrite G2. split; [done|]. split; [done|]. split; [done|]. split; [by rewrite length_insert|].
  split; [eapply kept_trans; [exact K1|by rewrite <- L1]|done].
Qed.
(** ** Calls *)

(** [mov rdi, rax] and [mov rsi, rax] *)
Lemma run_move_arg m pos i r :
  (i = 0%nat /\ r = RDI) \/ (i = 1%nat /\ r = RSI) -> rip m = base + pos -> code_at pos (move_arg i) ->
  exists m', reaches m m' /\ rip m' = base + (pos + 3) /\ regs m' = upd (regs m) r (regs m RAX) /\ words m' = words m.
Proof.
  intros Hi Hr Hc. exists (set_reg r (regs m RAX) (set_rip (base + (pos + 3)) m)). split; [|done].
  eapply (reaches_one base code m pos _ (Mov (Reg r) (Reg RAX))); [exact Hr|exact Hc| |]; destruct Hi as [[-> ->]|[-> ->]]; done.
Qed.

Lemma move_frame B S env r v m m' :
  r <> RBP -> r <> RSP -> regs m' = upd (regs m) r v -> words m' = words m -> in_frame B S env m -> in_frame B S env m'.
Proof.
  intros Hb Hs Hr Hw [H1 H2 H3 H4 H5 H6 H7]. split; try done.
  - rewrite Hr. unfold upd. by rewrite (proj2 (Z.eqb_neq _ _)).
  - rewrite Hr. unfold upd. by rewrite (proj2 (Z.eqb_neq _ _)).
  - intros i w Hi. rewrite Hw. by apply H6.
Qed.

(** The call itself, with the arguments in place. *)
Lemma run_call_func n f args v pos B S env m :
  sim_call n -> call_func prog n f args = Some v -> Forall signed args -> args_in args m ->
  rip m = base + pos -> code_at pos ((pconst c_zero >> c_call FS f)%pcode pos) -> in_frame B S env m -> 32 * Z.of_nat n + 8 <= S ->
  exists m', reaches m m' /\ rip m' = base + (pos + 8) /\ regs m' RAX = u64 v /\ signed v /\ in_frame B S env m' /\ kept B S (length env) m m'.
Proof.
  intros IH Hcall Hsg Hargs Hr Hc Hf HS. unfold pseq, pconst in Hc. cbv zeta in Hc. apply code_at_app in Hc as [Hc1 Hc2]. change (lenz c_zero) with 3 in Hc2.
  assert (Ho : exists o, func_offset FS f = Some o /\ 0 <= o <= lenz code).
  { destruct n as [|n]; [done|]. cbn [call_func] in Hcall. destruct (find_func prog f) as [[params body]|] eqn:Ef; [|done].
    destruct (Hlayout f params body Ef) as (o & Ho & Hco & _). exists o. split; [done|]. apply code_at_bounds in Hco. pose proof (lenz_nonneg (cfunc FS params body o)). lia. }
  destruct Ho as (o & Ho & Hob).
  destruct (run_zero base code m pos Hr Hc1) as (m1 & [R1 Q1] & A1).
  destruct (run_call base code Hbase Hsize m1 (pos + 3) f FS o B S env) as (m2 & R2 & I2 & G2 & F2 & K2 & W2); [|done|done|done|by eapply quiet_frame|lia|].
  { destruct Q1 as [-> _]. lia. }
  assert (Hargs2 : args_in args m2).
  { unfold args_in in *. destruct Q1 as (_ & _ & Q1). destruct args as [|a [|b ?]]; [done| |]; rewrite !G2, !Q1 by done; exact Hargs. }
  pose proof (fr_high _ _ _ _ Hf). pose proof (fr_low _ _ _ _ Hf).
  destruct (IH f args v o (S - 8) m2) as (m3 & R3 & I3 & A3 & V3 & S3 & B3 & W3); try done; [apply (fr_rsp _ _ _ _ F2)|apply (fr_aligned _ _ _ _ F2)|lia|].
  exists m3. split; [eapply reaches_trans; [exact R1|]; by eapply reaches_trans|]. split; [rewrite I3, W2; lia|]. split; [done|]. split; [done|]. split.
  - destruct F2 as [H1 H2 H3 H4 H5 H6 H7]. split; try done; [by rewrite B3|rewrite S3; lia|apply Hf|].
    intros i w Hi. rewrite W3; [by apply H6|]. apply lookup_lt_Some in Hi. unfold slot. lia.
  - intros a Ha Hn. rewrite W3 by lia. rewrite K2 by done. by destruct Q1 as (_ & -> & _).
Qed.

Lemma sim_call_0 n f : sim_call n -> sim_at (S n) (AST_CALL f []).
Proof.
  intros IH params env v env' pos B S m Hev Hco Hlen Hl2 Hr Hc Hf HS. cbn [eval_expr] in Hev.
  destruct (call_func prog n f []) as [w|] eqn:Ec; [|done]. cbn [mbind option_bind] in Hev. injection Hev as -> <-.
  cbn [cexpr map cargs] in Hc. change ((pconst [] >> pconst c_zero >> c_call FS f)%pcode pos) with ((pconst c_zero >> c_call FS f)%pcode (pos + 0)) in Hc.
  rewrite Z.add_0_r in Hc.
  destruct (run_call_func n f [] v pos B S env m) as (m' & R & I & A & V & F & K); try done; [lia|].
  exists m'. split; [done|]. split; [rewrite I; done|]. done.
Qed.

Lemma sim_call_1 n f x : sim_expr n -> sim_call n -> sim_at (S n) (AST_CALL f [x]).
Proof.
  intros IHe IH params env v env' pos B S m Hev Hco Hlen Hl2 Hr Hc Hf HS. cbn [eval_expr core_expr forallb] in *. zbool.
  destruct (eval_expr prog n (rev params) env x) as [[a env1]|] eqn:Ex; [|done]. cbn [mbind option_bind] in Hev.
  destruct (call_func prog n f [a]) as [w|] eqn:Ec; [|done]. cbn [mbind option_bind] in Hev. injection Hev as -> ->.
  assert (E : cexpr (frame params) FS (AST_CALL f [x]) pos = (cexpr (frame params) FS x >> pconst (move_arg 0) >> pconst c_zero >> c_call FS f)%pcode pos).
  { cbn [cexpr map cargs]. unfold pseq, pconst. cbv zeta. change (lenz []) with 0. rewrite Z.add_0_r. cbn [app]. by rewrite <- !app_assoc, !lenz_app, !Z.add_assoc. }
  unfold expr_runs. rewrite E in *. clear E. set (cx := cexpr (frame params) FS x) in *. unfold pseq at 1 in Hc. cbv zeta in Hc. apply code_at_app in Hc as [Hc1 Hc].
  unfold pseq at 1 in Hc. cbv zeta in Hc. apply code_at_app in Hc as [Hc2 Hc3]. change (lenz (pconst (move_arg 0) _)) with 3 in Hc3.
  destruct (IHe x params env a env' pos B S m) as (m1 & R1 & I1 & A1 & V1 & F1 & L1 & K1 & _); try done; [lia|].
  destruct (run_move_arg m1 (pos + lenz (cx pos)) 0 RDI) as (m2 & R2 & I2 & G2 & W2); [by left|done|done|].
  destruct (run_call_func n f [a] v (pos + lenz (cx pos) + 3) B S env' m2) as (m3 & R3 & I3 & A3 & V3 & F3 & K3); try done.
  { by constructor. } { cbn. by rewrite G2. } { by eapply (move_frame _ _ _ RDI); [..|exact F1]. } { lia. }
  exists m3. split; [eapply reaches_trans; [exact R1|]; by eapply reaches_trans|].
  split; [rewrite I3, !lenz_pseq; unfold pconst; change (lenz (move_arg 0)) with 3; change (lenz c_zero) with 3; change (lenz (c_call _ _ _)) with 5; lia|].
  split; [done|]. split; [done|]. split; [done|]. split; [done|]. split; [|done].
  eapply kept_trans; [exact K1|]. rewrite <- L1. intros y Hy Hn. rewrite K3 by done. by rewrite W2.
Qed.
Lemma sim_call_2 n f x y : sim_expr n -> sim_call n -> sim_at (S n) (AST_CALL f [x; y]).
Proof.
  intros IHe IH params env v env' pos B S m Hev Hco Hlen Hl2 Hr Hc Hf HS. cbn [eval_expr core_expr forallb] in *. zbool.
  destruct (eval_expr prog n (rev params) env y) as [[b env1]|] eqn:Ey; [|done]. cbn [mbind option_bind] in Hev.
  destruct (eval_expr prog n (rev params) env1 x) as [[a env2]|] eqn:Ex; [|done]. cbn [mbind option_bind] in Hev.
  destruct (call_func prog n f [a; b]) as [w|] eqn:Ec; [|done]. cbn [mbind option_bind] in Hev. injection Hev as -> ->.
  assert (E : cexpr (frame params) FS (AST_CALL f [x; y]) pos =
    (cexpr (frame params) FS y >> pconst (move_arg 1) >> cexpr (frame params) FS x >> pconst (move_arg 0) >> pconst c_zero >> c_call FS f)%pcode pos).
  { cbn [cexpr map cargs]. unfold pseq, pconst. cbv zeta. change (lenz []) with 0. rewrite Z.add_0_r. cbn [app]. by rewrite <- !app_assoc, !lenz_app, !Z.add_assoc. }
  unfold expr_runs. rewrite E in *. clear E. set (cx := cexpr (frame params) FS x) in *. set (cy := cexpr (frame params) FS y) in *.
  do 4 (unfold pseq at 1 in Hc; cbv zeta in Hc; apply code_at_app in Hc as [? Hc]).
  set (p1 := pos + lenz (cy pos)) in *. change (lenz (pconst (move_arg 1) p1)) with 3 in *. set (p2 := p1 + 3) in *. set (p3 := p2 + lenz (cx p2)) in *.
  change (lenz (pconst (move_arg 0) p3)) with 3 in *.
  destruct (IHe y params env b env1 pos B S m) as (m1 & R1 & I1 & A1 & V1 & F1 & L1 & K1 & _); try done; [lia|].
  destruct (run_move_arg m1 p1 1 RSI) as (m2 & R2 & I2 & G2 & W2); [by right|done|done|].
  destruct (IHe x params env1 a env' p2 B S m2) as (m3 & R3 & I3 & A3 & V3 & F3 & L3 & K3 & C3); try done.
  { by rewrite L1. } { by eapply (move_frame _ _ _ RSI); [..|exact F1]. } { lia. }
  destruct (run_move_arg m3 p3 0 RDI) as (m4 & R4 & I4 & G4 & W4); [by left|done|done|].
  destruct (run_call_func n f [a; b] v (p3 + 3) B S env' m4) as (m5 & R5 & I5 & A5 & V5 & F5 & K5); try done.
  { apply Forall_cons. split; [done|]. apply Forall_cons. by split. }
  { cbn [args_in]. rewrite G4. unfold upd. change (RDI =? RDI) with true. change (RSI =? RDI) with false. cbv match. rewrite C3 by done. rewrite G2. split; [done|].
    unfold upd. by rewrite A1. }
  { by eapply (move_frame _ _ _ RDI); [..|exact F3]. } { lia. }
  exists m5. split; [eapply reaches_trans; [exact R1|]; eapply reaches_trans; [exact R2|]; eapply reaches_trans; [exact R3|]; by eapply reaches_trans|].
  split. { rewrite I5, !lenz_pseq. unfold pconst. change (lenz (move_arg 0)) with 3. change (lenz (move_arg 1)) with 3. change (lenz c_zero) with 3. change (lenz (c_call _ _ _)) with 5. fold p1 p2 p3. lia. }
  split; [done|]. split; [done|]. split; [done|]. split; [congruence|]. split; [|done].
  eapply kept_trans; [exact K1|]. rewrite <- L1. eapply (kept_trans _ _ _ _ m3).
  - intros z Hz Hn. rewrite K3 by done. by rewrite W2.
  - intros z Hz Hn. rewrite K5 by (rewrite ?L3; done). by rewrite W4.
Qed.

Lemma sim_expr_step n : sim_expr n -> sim_call n -> sim_expr (S n).
Proof.
  intros IHe IHc e. destruct e; try (intros ? ? ? ? ? ? ? ? Hev; discriminate Hev).
  - destruct name; [intros ? ? ? ? ? ? ? ? Hev; discriminate Hev|].
    destruct e1; try (intros ? ? ? ? ? ? ? ? Hev; discriminate Hev). by apply sim_assign.
  - by apply sim_binary.
  - by apply sim_unary.
  - apply sim_number.
  - apply sim_ident.
  - destruct children as [|x [|y [|z l]]]; [by apply sim_call_0|by apply sim_call_1|by apply sim_call_2|intros ? ? ? ? ? ? ? ? Hev; discriminate Hev].
Qed.

(** ** Statements *)

Lemma ends_kept B S env o here bt ct n m m1 m' :
  kept B S n m m1 -> S <= B -> ends B S env o here bt ct m1 m' -> ends B S env o here bt ct m m'.
Proof.
  intros Hk Hs. destruct o; cbn [ends]; try done. intros (H1 & H2 & H3 & H4 & H5). rewrite H3, H5. rewrite !Hk by lia. done.
Qed.

Lemma frame_below B S env m : in_frame B S env m -> S <= B.
Proof. intros Hf. pose proof (fr_low _ _ _ _ Hf). lia. Qed.

(** The condition of a statement: a value in [rax], and a jump over [over] bytes if it is zero. *)
Lemma sim_cond n params env c v env1 pos over B S m :
  sim_expr n -> eval_expr prog n (rev params) env c = Some (v, env1) -> core_expr params known c = true ->
  length env = length params -> (length params <= 2)%nat -> rip m = base + pos ->
  code_at pos (c_cond (cexpr (frame params) FS c) over pos) -> in_frame B S env m -> 32 * Z.of_nat n <= S ->
  let bp := pos + lenz (cexpr (frame params) FS c pos) + 9 in
  0 <= over -> bp + over <= lenz code ->
  exists m', reaches m m' /\ rip m' = base + (if v =? 0 then bp + over else bp) /\ in_frame B S env1 m' /\ length env1 = length env /\
    kept B S (length env) m m'.
Proof.
  intros IH Hev Hco Hlen Hl2 Hr Hc Hf HS bp Ho Hb. unfold c_cond, pseq, pconst in Hc. cbv zeta in Hc. apply code_at_app in Hc as [Hc1 Hc2].
  destruct (IH c params env v env1 pos B S m) as (m1 & R1 & I1 & A1 & V1 & F1 & L1 & K1 & _); try done.
  destruct (run_branch base code Hbase Hsize m1 (pos + lenz (cexpr (frame params) FS c pos)) v over) as (m2 & R2 & I2 & G2 & W2); try done.
  exists m2. split; [by eapply reaches_trans|]. split; [exact I2|]. split; [by eapply same_frame|]. split; [done|].
  intros a Ha Hn. rewrite W2. by apply K1.
Qed.

Lemma sim_return n e : sim_expr n -> stmt_at (S n) (AST_RETURN e).
Proof.
  intros IH params env o env' loops bt ct pos B S m Hex Hco Hlen Hl2 Hr Hc Hf HS _ _. cbn [cstmt core_stmt] in *. unfold pseq, pconst in Hc. cbv zeta in Hc. apply code_at_app in Hc as [Hc1 Hc2].
  assert (Hv : exists v m1, o = Returned v /\ signed v /\ reaches m m1 /\ rip m1 = base + (pos + lenz (expr_or (frame params) FS e c_zero pos)) /\
      regs m1 RAX = u64 v /\ in_frame B S env' m1 /\ length env' = length env /\ kept B S (length env) m m1).
  { unfold expr_or, core_opt in *. destruct (is_null e) eqn:En.
    - destruct e; try done. injection Hex as <- <-. destruct (run_zero base code m pos Hr Hc1) as (m1 & [R1 Q1] & A1).
      exists 0, m1. split; [done|]. split; [unfold signed; lia|]. split; [done|]. split; [destruct Q1 as [-> _]; change (lenz _) with 3; lia|].
      split; [done|]. split; [by eapply quiet_frame|]. split; [done|by eapply quiet_kept].
    - cbn [orb] in Hco. assert (Ee : ('(v, env) ← eval_expr prog n (rev params) env e; Some (Returned v, env)) = Some (o, env')) by by destruct e.
      destruct (eval_expr prog n (rev params) env e) as [[v env1]|] eqn:Ev; [|done]. cbn [mbind option_bind] in Ee. injection Ee as <- ->.
      destruct (IH e params env v env' pos B S m) as (m1 & R1 & I1 & A1 & V1 & F1 & L1 & K1 & _); try done; [lia|]. by exists v, m1. }
  destruct Hv as (v & m1 & -> & Hsg & R1 & I1 & A1 & F1 & L1 & K1).
  destruct (run_epilogue base code Hbase m1 _ B S env' I1 Hc2 F1) as (m2 & R2 & I2 & A2 & S2 & B2 & W2); [lia|].
  exists m2. split; [by eapply reaches_trans|]. pose proof (frame_below _ _ _ _ Hf). split.
  - cbn [ends]. rewrite A2, I2, B2. rewrite !K1 by lia. done.
  - split; [done|]. intros a Ha Hn. rewrite W2. by apply K1.
Qed.
(** Running on from a later state. *)
Lemma runs_after B S (env env1 env' : list Z) o here bt ct m m1 :
  reaches m m1 -> kept B S (length env) m m1 -> S <= B -> length env1 = length env ->
  (exists m', reaches m1 m' /\ ends B S env' o here bt ct m1 m' /\ length env' = length env1 /\ kept B S (length env1) m1 m') ->
  exists m', reaches m m' /\ ends B S env' o here bt ct m m' /\ length env' = length env /\ kept B S (length env) m m'.
Proof.
  intros R K HS L (m' & R' & E' & L' & K'). exists m'. split; [by eapply reaches_trans|]. split; [by eapply ends_kept|].
  split; [congruence|]. rewrite L in K'. by eapply kept_trans.
Qed.

Lemma sim_expr_stmt n e : sim_expr n -> stmt_at (S n) (AST_EXPR_STMT e).
Proof.
  intros IH params env o env' loops bt ct pos B S m Hex Hco Hlen Hl2 Hr Hc Hf HS _ _. cbn [exec_stmt core_stmt cstmt] in *.
  destruct (eval_expr prog n (rev params) env e) as [[v env1]|] eqn:Ev; [|done]. cbn [mbind option_bind] in Hex. injection Hex as <- ->.
  destruct (IH e params env v env' pos B S m) as (m1 & R1 & I1 & A1 & V1 & F1 & L1 & K1 & _); try done; [lia|].
  exists m1. done.
Qed.

Lemma sim_block n l : sim_stmt n -> stmt_at (S n) (AST_BLOCK l).
Proof.
  intros IH params env o env' loops bt ct pos B S m Hex Hco Hlen Hl2 Hr Hc Hf HS Hbt Hct. unfold stmt_runs. rewrite cstmt_block in *.
  destruct l as [|s l]; cbn [exec_stmt core_stmt forallb cstmts] in *.
  { injection Hex as <- <-. exists m. split; [apply reaches_refl|]. split; [split; [change (lenz _) with 0; by rewrite Z.add_0_r|done]|done]. }
  zbool. destruct (exec_stmt prog n (rev params) env s) as [[o1 env1]|] eqn:Es; [|done]. cbn [mbind option_bind] in Hex.
  unfold pseq in Hc |- *. cbv zeta in Hc |- *. apply code_at_app in Hc as [Hc1 Hc2]. rewrite lenz_app, Z.add_assoc.
  destruct (IH s params env o1 env1 loops bt ct pos B S m) as (m1 & R1 & E1 & L1 & K1); try done; [lia|].
  destruct o1; [|injection Hex as <- <-; exists m1; done..].
  destruct E1 as [I1 F1]. eapply (runs_after B S env env1); [done|done|by eapply frame_below|done|]. rewrite <- (cstmt_block (frame params) FS) in *.
  destruct (IH (AST_BLOCK l) params env1 o env' loops bt ct (pos + lenz (cstmt (frame params) FS bt ct s pos)) B S m1 Hex) as (m2 & R2 & E2 & L2 & K2); try done; [by rewrite L1|lia|]. by exists m2.
Qed.

Lemma sim_if n c t e : sim_expr n -> sim_stmt n -> stmt_at (S n) (AST_IF c t e).
Proof.
  intros IHe IH params env o env' loops bt ct pos B S m Hex Hco Hlen Hl2 Hr Hc Hf HS Hbt Hct. cbn [exec_stmt core_stmt] in *. zbool.
  destruct (eval_expr prog n (rev params) env c) as [[v env1]|] eqn:Ec; [|done]. cbn [mbind option_bind] in Hex.
  unfold stmt_runs. pose proof (code_at_bounds _ _ _ Hc) as Hbd. rewrite cstmt_if in Hc, Hbd |- *.
  set (cc := cexpr (frame params) FS c) in *. set (tp := pos + lenz (cc pos) + 9) in *.
  set (tl := lenz (cstmt (frame params) FS None None t tp)) in *. pose proof (lenz_nonneg (cstmt (frame params) FS None None t tp)) as Htl. fold tl in Htl.
  assert (Hlt : lenz (cstmt (frame params) FS bt ct t tp) = tl) by apply cstmt_len.
  destruct (is_null e) eqn:En.
  - apply code_at_app in Hc as [Hc1 Hc2]. rewrite c_cond_len in Hc2. rewrite lenz_app, c_cond_len, Hlt in Hbd |- *. fold cc in Hc2.
    replace (pos + (lenz (cc pos) + 9)) with tp in Hc2 by (subst tp; lia).
    destruct (sim_cond n params env c v env1 pos tl B S m) as (m1 & R1 & I1 & F1 & L1 & K1); try done; [lia|fold cc tp; lia|].
    eapply (runs_after B S env env1); [done|done|by eapply frame_below|done|]. fold cc tp in I1.
    destruct (v =? 0).
    + destruct e; try done. destruct n as [|n]; [done|]. cbn [exec_stmt] in Hex. injection Hex as <- <-. exists m1. split; [apply reaches_refl|].
      split; [split; [rewrite I1; f_equal; subst tp; lia|done]|done].
    + destruct (IH t params env1 o env' loops bt ct tp B S m1 Hex) as (m2 & R2 & E2 & L2 & K2); try done; [by rewrite L1|lia|].
      exists m2. rewrite Hlt in E2. replace (pos + (lenz (cc pos) + 9 + tl)) with (tp + tl) by (subst tp; lia). done.
  - set (ep := tp + tl + 5) in *. set (el := lenz (cstmt (frame params) FS None None e ep)) in *.
    assert (Hle : lenz (cstmt (frame params) FS bt ct e ep) = el) by apply cstmt_len.
    pose proof (lenz_nonneg (cstmt (frame params) FS None None e ep)) as Hel. fold el in Hel.
    apply code_at_app in Hc as [Hc1 Hc2]. rewrite c_cond_len in Hc2. fold cc in Hc2. replace (pos + (lenz (cc pos) + 9)) with tp in Hc2 by (subst tp; lia).
    apply code_at_app in Hc2 as [Hc2 Hc3]. rewrite Hlt in Hc3. apply code_at_app in Hc3 as [Hc3 Hc4]. rewrite c_jmp_len in Hc4. fold ep in Hc4.
    rewrite !lenz_app, c_cond_len, Hlt, Hle, c_jmp_len in Hbd |- *. fold cc in Hbd |- *.
    replace (pos + (lenz (cc pos) + 9 + (tl + (5 + el)))) with (ep + el) in * by (subst ep tp; lia).
    assert (Hep : 0 <= ep) by (pose proof (lenz_nonneg (cc pos)); subst ep tp; lia).
    destruct (sim_cond n params env c v env1 pos (tl + 5) B S m) as (m1 & R1 & I1 & F1 & L1 & K1); try done; [lia|lia|fold cc tp; lia|].
    eapply (runs_after B S env env1); [done|done|by eapply frame_below|done|]. fold cc tp in I1.
    destruct (v =? 0).
    + destruct (IH e params env1 o env' loops bt ct ep B S m1 Hex) as (m2 & R2 & E2 & L2 & K2); try done; [by rewrite L1|rewrite I1; f_equal; subst ep; lia|lia|].
      exists m2. by rewrite Hle in E2.
    + destruct (IH t params env1 o env' loops bt ct tp B S m1 Hex) as (m2 & R2 & E2 & L2 & K2); try done; [by rewrite L1|lia|]. rewrite Hlt in E2.
      destruct o; [|by exists m2..]. destruct E2 as [I2 F2].
      pose proof (run_jmp base code Hbase Hsize m2 (tp + tl) (ep + el) I2 Hc3 ltac:(lia)) as R3.
      exists (set_rip (base + (ep + el)) m2). split; [by eapply reaches_trans|]. split; [split; [done|by apply (same_frame B S env' m2)]|]. done.
Qed.

Lemma sim_null n : stmt_at (S n) NULL.
Proof.
  intros params env o env' loops bt ct pos B S m Hex _ _ _ Hr _ Hf _ _ _. injection Hex as <- <-. exists m. split; [apply reaches_refl|].
  split; [split; [cbn [cstmt]; change (lenz _) with 0; by rewrite Z.add_0_r|done]|done].
Qed.

(** [break] and [continue] *)
Lemma sim_jump n s : s = AST_BREAK \/ s = AST_CONTINUE -> stmt_at (S n) s.
Proof.
  intros Hs params env o env' loops bt ct pos B S m Hex Hco _ _ Hr Hc Hf _ Hbt Hct.
  assert (Hl : (0 < loops)%nat) by (apply Nat.ltb_lt; by destruct Hs as [-> | ->]).
  destruct (Hbt Hl) as (b & -> & Hb). destruct (Hct Hl) as (c & -> & Hcc).
  destruct Hs as [-> | ->]; injection Hex as <- <-; cbn [cstmt] in Hc.
  - pose proof (run_jmp base code Hbase Hsize m pos b Hr Hc Hb) as R. eexists. split; [exact R|]. split; [|done].
    exists b. split; [done|]. split; [done|]. by apply (same_frame B S env m).
  - pose proof (run_jmp base code Hbase Hsize m pos c Hr Hc Hcc) as R. eexists. split; [exact R|]. split; [|done].
    exists c. split; [done|]. split; [done|]. by apply (same_frame B S env m).
Qed.

(** ** Loops *)

(** The condition of [for], which may be missing. *)
Lemma sim_cond_or n params env c v env1 pos over B S m :
  sim_expr n -> (if is_null c then Some (1, env) else eval_expr prog n (rev params) env c) = Some (v, env1) -> core_opt params known c = true ->
  length env = length params -> (length params <= 2)%nat -> rip m = base + pos ->
  let C := expr_or (frame params) FS c (c_number 1) in
  code_at pos (c_cond C over pos) -> in_frame B S env m -> 32 * Z.of_nat n <= S ->
  let bp := pos + lenz (C pos) + 9 in
  0 <= over -> bp + over <= lenz code ->
  exists m', reaches m m' /\ rip m' = base + (if v =? 0 then bp + over else bp) /\ in_frame B S env1 m' /\ length env1 = length env /\
    kept B S (length env) m m'.
Proof.
  intros IH Hev Hco Hlen Hl2 Hr C Hc Hf HS bp Ho Hb. unfold core_opt, expr_or in *. destruct (is_null c); [|by apply (sim_cond n params env c v env1)].
  injection Hev as <- <-. unfold C, c_cond, pseq, pconst in Hc. cbv zeta in Hc. apply code_at_app in Hc as [Hc1 Hc2].
  destruct (run_number base code m pos 1 Hr Hc1) as (m1 & [R1 Q1] & A1).
  destruct (run_branch base code Hbase Hsize m1 (pos + lenz (c_number 1)) 1 over) as (m2 & R2 & I2 & G2 & W2); try done.
  { rewrite (proj1 Q1), Hr. change (lenz (c_number 1)) with 7. by rewrite Z.add_assoc. }
  exists m2. split; [by eapply reaches_trans|]. split; [exact I2|]. split; [apply (same_frame B S env m1); [done|done|by eapply quiet_frame]|]. split; [done|].
  intros a Ha Hn. rewrite W2. by eapply (quiet_kept B S (length env)).
Qed.

(** The step of [for], which may be missing, and the jump back. *)
Lemma sim_back n params env st v env1 pos head B S m :
  sim_expr n -> (if is_null st then Some (0, env) else eval_expr prog n (rev params) env st) = Some (v, env1) -> core_opt params known st = true ->
  length env = length params -> (length params <= 2)%nat -> rip m = base + pos ->
  let C := expr_or (frame params) FS st [] in
  code_at pos (C pos) -> code_at (pos + lenz (C pos)) (c_jmp (Some head) (pos + lenz (C pos))) ->
  in_frame B S env m -> 32 * Z.of_nat n <= S -> 0 <= head <= lenz code ->
  exists m', reaches m m' /\ rip m' = base + head /\ in_frame B S env1 m' /\ length env1 = length env /\ kept B S (length env) m m'.
Proof.
  intros IH Hev Hco Hlen Hl2 Hr C Hc1 Hc2 Hf HS Hh.
  assert (H1 : exists m1, reaches m m1 /\ rip m1 = base + (pos + lenz (C pos)) /\ in_frame B S env1 m1 /\ length env1 = length env /\ kept B S (length env) m m1).
  { unfold C, core_opt, expr_or in *. destruct (is_null st).
    - injection Hev as <- <-. exists m. split; [apply reaches_refl|]. split; [change (lenz _) with 0; by rewrite Z.add_0_r|done].
    - destruct (IH st params env v env1 pos B S m) as (m1 & R1 & I1 & A1 & V1 & F1 & L1 & K1 & _); try done. by exists m1. }
  destruct H1 as (m1 & R1 & I1 & F1 & L1 & K1). pose proof (run_jmp base code Hbase Hsize m1 _ head I1 Hc2 Hh) as R2.
  eexists. split; [eapply reaches_trans; [exact R1|exact R2]|]. split; [done|]. split; [by apply (same_frame B S env1 m1)|done].
Qed.

Lemma sim_loop n c st b : sim_expr n -> sim_stmt n -> stmt_at (S n) (AST_FOR NULL c st b).
Proof.
  intros IHe IH params env o env' loops bt ct pos B S m Hex Hco Hlen Hl2 Hr Hc Hf HS Hbt Hct.
  pose proof Hc as Hcode. pose proof Hco as Hcore. cbn [core_stmt] in Hco. zbool.
  assert (Ec : cstmt (frame params) FS bt ct (AST_FOR NULL c st b) pos =
    c_loop (expr_or (frame params) FS c (c_number 1)) (expr_or (frame params) FS st []) (fun pos => lenz (cstmt (frame params) FS None None b pos))
      (fun out next => cstmt (frame params) FS (Some out) (Some next) b) (is_null st) pos).
  { cbn [cstmt]. unfold pseq at 1, pconst at 1. cbv zeta. cbn [app]. by rewrite Z.add_0_r. }
  unfold stmt_runs. pose proof (code_at_bounds _ _ _ Hc) as Hbd. remember (pos + lenz _) as here eqn:Hhere in |- *. pose proof Hhere as Hend.
  rewrite Ec in Hc, Hbd, Hend. clear Ec. rewrite c_loop_eq in Hc, Hbd, Hend.
  set (C := expr_or (frame params) FS c (c_number 1)) in *. set (ST := expr_or (frame params) FS st []) in *.
  set (bp := pos + lenz (C pos) + 9) in *. set (bl := lenz (cstmt (frame params) FS None None b bp)) in *. set (sp := bp + bl) in *.
  set (sl := lenz (ST sp)) in *. set (out := sp + sl + 5) in *. set (next := if is_null st then pos else sp) in *.
  assert (Hlb : lenz (cstmt (frame params) FS (Some out) (Some next) b bp) = bl) by apply cstmt_len.
  rewrite !lenz_app, c_cond_len, c_jmp_len, Hlb in Hbd, Hend. fold sl in Hbd, Hend.
  replace (pos + (lenz (C pos) + 9 + (bl + (sl + 5)))) with out in * by (subst out sp bp; lia).
  apply code_at_app in Hc as [Hc1 Hc2]. rewrite c_cond_len in Hc2. replace (pos + (lenz (C pos) + 9)) with bp in Hc2 by (subst bp; lia).
  apply code_at_app in Hc2 as [Hc2 Hc3]. rewrite Hlb in Hc3. fold sp in Hc3. apply code_at_app in Hc3 as [Hc3 Hc4]. fold sl in Hc4.
  assert (0 <= lenz (C pos) /\ 0 <= sl /\ 0 <= bl) as (HC & Hsl & Hbl) by (repeat split; apply lenz_nonneg).
  cbn [exec_stmt] in Hex.
  destruct (if is_null c then Some (1, env) else eval_expr prog n (rev params) env c) as [[v env1]|] eqn:Ecv; [|done]. cbn [mbind option_bind] in Hex.
  destruct (sim_cond_or n params env c v env1 pos (bl + sl + 5) B S m) as (m1 & R1 & I1 & F1 & L1 & K1); try done; [lia|lia|fold C bp; lia|].
  eapply (runs_after B S env env1); [done|done|by eapply frame_below|done|]. fold C bp in I1. clear R1 K1.
  destruct (v =? 0).
  { injection Hex as <- <-. exists m1. split; [apply reaches_refl|]. split; [split; [rewrite I1; f_equal; subst out sp; lia|done]|done]. }
  destruct (exec_stmt prog n (rev params) env1 b) as [[o1 env2]|] eqn:Eb; [|done]. cbn [mbind option_bind] in Hex.
  assert (Hnext : 0 <= next <= lenz code) by (subst next; destruct (is_null st); lia).
  destruct (IH b params env1 o1 env2 (Datatypes.S loops) (Some out) (Some next) bp B S m1 Eb) as (m2 & R2 & E2 & L2 & K2); try done.
  { by rewrite L1. } { lia. } { intros _. exists out. split; [done|lia]. } { intros _. by exists next. }
  rewrite Hlb in E2. fold sp in E2.
  assert (Hagain : forall env3 m3, exec_stmt prog n (rev params) env3 (AST_FOR NULL c st b) = Some (o, env') -> rip m3 = base + pos -> in_frame B S env3 m3 ->
    length env3 = length env -> exists m', reaches m3 m' /\ ends B S env' o here bt ct m3 m' /\ length env' = length env3 /\ kept B S (length env3) m3 m').
  { intros env3 m3 Hx I3 F3 L3. apply (IH (AST_FOR NULL c st b) params env3 o env' loops bt ct pos B S m3 Hx) in F3; try done; [|by rewrite L3|lia].
    unfold stmt_runs in F3. by rewrite <- Hhere in F3. }
  assert (Hstep : rip m2 = base + sp -> in_frame B S env2 m2 ->
    ('(_, env) ← (if is_null st then Some (0, env2) else eval_expr prog n (rev params) env2 st); exec_stmt prog n (rev params) env (AST_FOR NULL c st b)) = Some (o, env') ->
    exists m', reaches m2 m' /\ ends B S env' o here bt ct m2 m' /\ length env' = length env2 /\ kept B S (length env2) m2 m').
  { intros I2 F2 Hx. destruct (if is_null st then _ else _) as [[w env3]|] eqn:Es; [|done]. cbn [mbind option_bind] in Hx.
    destruct (sim_back n params env2 st w env3 sp pos B S m2) as (m3 & R3 & I3 & F3 & L3 & K3); try done; [congruence|lia|lia|].
    eapply (runs_after B S env2 env3); [done|done|by eapply frame_below|done|]. apply Hagain; try done. congruence. }
  destruct o1; [| | |injection Hex as <- <-; by exists m2]; (eapply (runs_after B S env1 env2); [done|done|by eapply frame_below|done|]).
  - destruct E2 as [I2 F2]. by apply Hstep.
  - injection Hex as <- <-. destruct E2 as (t & Et & I2 & F2). injection Et as <-. exists m2. split; [apply reaches_refl|]. split; [|done].
    split; [by rewrite Hend|done].
  - destruct E2 as (t & Et & I2 & F2). injection Et as <-. subst next. destruct (is_null st) eqn:Es; [|by apply Hstep].
    apply Hagain; try done. congruence.
Qed.

(** [for] with an initialisation. *)
Lemma sim_for n i c st b : sim_expr n -> sim_stmt n -> stmt_at (S n) (AST_FOR i c st b).
Proof.
  intros IHe IH. destruct (is_null i) eqn:Ei; [destruct i; try done; by apply sim_loop|].
  intros params env o env' loops bt ct pos B S m Hex Hco Hlen Hl2 Hr Hc Hf HS Hbt Hct.
  assert (Hx : ('(_, env) ← exec_stmt prog n (rev params) env i; exec_stmt prog n (rev params) env (AST_FOR NULL c st b)) = Some (o, env')) by by destruct i.
  clear Hex. destruct (exec_stmt prog n (rev params) env i) as [[o1 env1]|] eqn:E1; [|done]. cbn [mbind option_bind] in Hx.
  assert (Hi : core_stmt params known loops i = true /\ core_stmt params known loops (AST_FOR NULL c st b) = true /\ exists e, i = AST_EXPR_STMT e).
  { cbn [core_stmt] in Hco |- *. destruct i; zbool; try discriminate. split; [done|]. split; [|by eexists]. repeat (apply andb_true_iff; split); done. }
  destruct Hi as (Hi & Hco' & e & ->).
  assert (Ec : forall x, cstmt (frame params) FS bt ct (AST_FOR x c st b) pos =
    cstmt (frame params) FS bt ct x pos ++ cstmt (frame params) FS bt ct (AST_FOR NULL c st b) (pos + lenz (cstmt (frame params) FS bt ct x pos))).
  { intros x. cbn [cstmt]. unfold pseq, pconst. cbv zeta. cbn [app]. change (lenz []) with 0. by rewrite Z.add_0_r. }
  unfold stmt_runs. rewrite (Ec (AST_EXPR_STMT e)) in Hc |- *. rewrite lenz_app, Z.add_assoc. apply code_at_app in Hc as [Hc1 Hc2].
  destruct (IH (AST_EXPR_STMT e) params env o1 env1 loops bt ct pos B S m) as (m1 & R1 & X1 & L1 & K1); try done; [lia|].
  assert (o1 = Normal) as ->. { destruct n; [done|]. cbn [exec_stmt] in E1. destruct (eval_expr _ _ _ _ _) as [[? ?]|]; [|done]. by injection E1 as <- <-. }
  destruct X1 as [I1 F1]. eapply (runs_after B S env env1); [done|done|by eapply frame_below|done|].
  apply (IH (AST_FOR NULL c st b) params env1 o env' loops bt ct _ B S m1 Hx); try done; [by rewrite L1|lia].
Qed.

(** [while] is [for] without the other two parts. *)
Lemma while_is_for n : forall names env c b, is_null c = false ->
  exec_stmt prog n names env (AST_WHILE c b) = exec_stmt prog n names env (AST_FOR NULL c NULL b).
Proof.
  induction n as [|n IH]; intros names env c b Hc; [done|]. cbn [exec_stmt is_null]. rewrite Hc.
  destruct (eval_expr prog n names env c) as [[v env1]|]; [|done]. cbn [mbind option_bind]. destruct (v =? 0); [done|].
  destruct (exec_stmt prog n names env1 b) as [[[] env2]|]; cbn [mbind option_bind]; try done; by apply IH.
Qed.

Lemma sim_while n c b : sim_expr n -> sim_stmt n -> stmt_at (S n) (AST_WHILE c b).
Proof.
  intros IHe IH params env o env' loops bt ct pos B S m Hex Hco Hlen Hl2 Hr Hc Hf HS Hbt Hct.
  assert (Hn : is_null c = false) by (cbn [core_stmt] in Hco; zbool; by destruct c). rewrite while_is_for in Hex by done.
  assert (Ec : cstmt (frame params) FS bt ct (AST_WHILE c b) pos = cstmt (frame params) FS bt ct (AST_FOR NULL c NULL b) pos).
  { cbn [cstmt is_null]. unfold expr_or. rewrite Hn. unfold pseq at 1. cbv zeta. change (pconst [] pos) with (@nil Z). cbn [app]. change (lenz []) with 0. by rewrite Z.add_0_r. }
  unfold stmt_runs. rewrite Ec in Hc |- *. apply (sim_loop n c NULL b IHe IH params env o env' loops); try done.
  cbn [core_stmt] in Hco |- *. zbool. unfold core_opt. rewrite Hn. repeat (apply andb_true_iff; split); done.
Qed.

Lemma sim_stmt_step n : sim_expr n -> sim_stmt n -> sim_stmt (S n).
Proof.
  intros IHe IH s. destruct s; try (intros ? ? ? ? ? ? ? ? ? ? ? Hex; discriminate Hex).
  - apply sim_null.
  - by apply sim_return.
  - by apply sim_if.
  - by apply sim_while.
  - by apply sim_for.
  - apply sim_jump. by left.
  - apply sim_jump. by right.
  - by apply sim_block.
  - by apply sim_expr_stmt.
Qed.

(** ** Functions *)

Lemma sim_call_step n : sim_stmt n -> sim_call (S n).
Proof.
  intros IH f args v o S m Hcl Hsg Hargs Ho Hr HS Ha Hb. cbn [call_func] in Hcl.
  destruct (find_func prog f) as [[params body]|] eqn:Ef; [|done]. cbn [mbind option_bind] in Hcl.
  destruct (Nat.eqb_spec (length params) (length args)) as [Hl|]; [|done].
  destruct (exec_stmt prog n (rev params) (rev args) (AST_BLOCK body)) as [[out env']|] eqn:Ex; [|done]. cbn [mbind option_bind] in Hcl.
  destruct (Hlayout f params body Ef) as (o' & Ho' & Hc & Hnd & Hl2 & Hcore). rewrite Ho in Ho'. injection Ho' as <-.
  unfold cfunc in Hc. rewrite <- cstmt_block in Hc. unfold pseq, pconst in Hc. cbv zeta in Hc. apply code_at_app in Hc as [Hc1 Hc2]. apply code_at_app in Hc2 as [Hc2 Hc3].
  apply code_at_app in Hc3 as [Hc3 Hc4]. change (lenz c_zero) with 3 in Hc4.
  destruct (run_enter base code Hbase m o S params args) as (m1 & R1 & I1 & F1 & B1 & W1); try done; [lia|].
  set (S' := S - 8 - 8 * Z.of_nat (length args)) in *.
  destruct (IH (AST_BLOCK body) params (rev args) out env' 0%nat None None (o + lenz (c_enter params)) (S - 8) S' m1 Ex) as (m2 & R2 & E2 & L2 & K2); try done.
  { rewrite length_rev. lia. } { subst S'. lia. } { intros H. lia. } { intros H. lia. }
  assert (Hk : forall a, S <= a -> words m2 a = words m a) by (intros a Hge; rewrite K2 by (subst S'; lia); by apply W1).
  destruct out; try done.
  - destruct E2 as [I2 F2]. injection Hcl as <-. destruct (run_zero base code m2 _ I2 Hc3) as (m3 & [R3 Q3] & A3).
    pose proof (quiet_frame _ _ _ _ _ _ Q3 F2) as F3. destruct Q3 as (I3 & W3 & _).
    destruct (run_epilogue base code Hbase m3 _ (S - 8) S' env' (eq_trans I3 (eq_trans (f_equal (fun x => x + 3) I2) (eq_sym (Z.add_assoc _ _ _)))) Hc4 F3) as (m4 & R4 & I4 & A4 & S4 & B4 & W4).
    { subst S'. lia. }
    exists m4. split; [eapply reaches_trans; [exact R1|]; eapply reaches_trans; [exact R2|]; by eapply reaches_trans|].
    rewrite I4, A4, S4, B4, W4, W3. replace (S - 8 + 8) with S by lia. rewrite Hk by lia. split; [done|]. split; [done|]. split; [unfold signed; lia|]. split; [lia|].
    split; [|done]. rewrite K2 by (subst S'; lia). done.
  - injection Hcl as <-. destruct E2 as (V2 & A2 & I2 & S2 & B2). exists m2. split; [by eapply reaches_trans|].
    rewrite I2, A2, S2, B2. replace (S - 8 + 8) with S by lia. rewrite W1 by lia. split; [done|]. split; [done|]. split; [done|]. split; [lia|]. done.
Qed.

(** Every level of the evaluation. *)
Lemma sim_all n : sim_expr n /\ sim_stmt n /\ sim_call n.
Proof.
  induction n as [|n (IHe & IHs & IHc)].
  - split; [|split].
    + intros e params env v env' pos B S m Hev. discriminate Hev.
    + intros s params env o env' loops bt ct pos B S m Hex. discriminate Hex.
    + intros f args v o S m Hcl. discriminate Hcl.
  - split; [by apply sim_expr_step|]. split; [by apply sim_stmt_step|by apply sim_call_step].
Qed.


End simulation.
