(* ===== verification/CcCompile.v ===== *)
(** * Compiled programs compute what they mean: whole programs

    The code of a program of the core language lies where the simulation expects it, the
    entry calls [main] and hands its result to the system call; and what the compiler makes
    of programs outside of the core language. *)

From stdpp Require Import strings.
From S2P Require Import Prelude CString Vfs Bytes CcLex CcParse CcGen CcDirect X86 CcSem CcCorrect CcSim.

(** ** Later functions do not change the code of earlier ones *)

Lemma func_offset_known fs f : existsb (str_eqb f) (map fst fs) = true -> is_Some (func_offset fs f).
Proof.
  unfold func_offset. induction fs as [|[g o] fs IH]; [done|]. cbn [map existsb find fst]. unfold str_eqb at 1 3.
  rewrite (bool_decide_ext (f = g) (g = f)) by done. destruct (bool_decide (g = f)); [by eexists|]. apply IH.
Qed.

Lemma func_offset_app fs t f : is_Some (func_offset fs f) -> func_offset (fs ++ t) f = func_offset fs f.
Proof. unfold func_offset. rewrite find_app. destruct (find _ fs); [done|]. by intros [? ?]. Qed.

Lemma known_app f (k t : list (list Z)) : existsb (str_eqb f) k = true -> existsb (str_eqb f) (k ++ t) = true.
Proof. intros H. by rewrite existsb_app, H. Qed.

Section prefix.
Context (loc fs t : list (list Z * Z)) (names : list (list Z)).
Notation known := (map fst fs).

(** An expression that only calls the functions [fs]. *)
Record expr_fits (e : ASTNode) : Prop := {
  fits_direct : direct_expr fs e = true;
  fits_code : forall pos, cexpr loc (fs ++ t) e pos = cexpr loc fs e pos;
  fits_core : core_expr names (map fst (fs ++ t)) e = true }.

Lemma pseq_ext a a' b b' : (forall pos, a pos = a' pos) -> (forall pos, b pos = b' pos) -> forall pos, pseq a b pos = pseq a' b' pos.
Proof. intros Ha Hb pos. unfold pseq. by rewrite Ha, Hb. Qed.

Lemma cargs_ext l l' : Forall2 (fun a b : pcode => forall pos, a pos = b pos) l l' -> forall i pos, cargs i l pos = cargs i l' pos.
Proof.
  induction 1 as [|a b l l' Hab _ IH]; intros i; [done|]. cbn [cargs]. apply pseq_ext; [apply IH|]. by apply pseq_ext.
Qed.

Lemma core_not_null known e : core_expr names known e = true -> is_null e = false.
Proof. by destruct e. Qed.

Lemma call_fits f args :
  core_expr names known (AST_CALL f args) = true -> (forall a, a ∈ args -> expr_fits a) -> expr_fits (AST_CALL f args).
Proof.
  intros Hc Ha. cbn [core_expr] in Hc. zbool. split.
  - cbn [direct_expr]. rewrite bool_decide_eq_true_2 by (by apply func_offset_known). cbn [andb]. apply andb_true_iff. split.
    + apply Nat.leb_le. destruct args as [|? [|? [|? ?]]]; cbn [length]; try lia; done.
    + apply forallb_forall. intros a Hin. by apply Ha, list_elem_of_In.
  - cbn [cexpr]. apply pseq_ext.
    + apply cargs_ext. apply Forall2_fmap, Forall_Forall2_diag, Forall_forall. intros a Hin. by apply Ha.
    + apply pseq_ext; [done|]. intros pos. unfold c_call. by rewrite func_offset_app by by apply func_offset_known.
  - cbn [core_expr]. rewrite map_app. rewrite known_app by done. cbn [andb]. apply andb_true_iff. split; [|done].
    apply forallb_forall. intros a Hin. rewrite <- map_app. by apply Ha, list_elem_of_In.
Qed.

Lemma core_expr_fits m : forall e, (node_size e < m)%nat -> core_expr names known e = true -> expr_fits e.
Proof.
  induction m as [|m IH]; intros e Hm He; [lia|]. destruct e; try discriminate; cbn [node_size] in Hm.
  - (* assignment *) cbn [core_expr] in He. destruct name; [done|]. destruct e1; try discriminate. zbool.
    destruct (IH e2) as [D C K]; [lia|done|]. split; cbn [direct_expr cexpr core_expr].
    + rewrite D, (core_not_null known) by done. done.
    + intros pos. destruct (local_offset loc name =? -1); [done|]. by apply pseq_ext.
    + by rewrite K, andb_true_r.
  - (* binary *) cbn [core_expr] in He. zbool. destruct (IH e1) as [D1 C1 K1]; [lia|done|]. destruct (IH e2) as [D2 C2 K2]; [lia|done|].
    split; cbn [direct_expr cexpr core_expr]; [by rewrite D1, D2| |by rewrite K1, K2, !andb_true_r].
    repeat (apply pseq_ext; [done|]). done.
  - (* unary *) cbn [core_expr] in He. zbool. destruct (IH e) as [D C K]; [lia|done|]. split; cbn [direct_expr cexpr core_expr]; [done| |by rewrite K, andb_true_r].
    by apply pseq_ext.
  - (* number *) by split.
  - (* name *) by split.
  - (* call *) apply call_fits; [done|]. intros a Ha. apply node_size_elem in Ha as Hs. apply IH; [lia|]. cbn [core_expr] in He. zbool.
    match goal with H : forallb _ _ = true |- _ => eapply forallb_forall in H; [done|by apply list_elem_of_In] end.
Qed.

Lemma expr_fits_core e : core_expr names known e = true -> expr_fits e.
Proof. apply (core_expr_fits (S (node_size e))). lia. Qed.

(** Statements likewise. *)
Record stmt_fits (loops : nat) (s : ASTNode) : Prop := {
  sfits_direct : direct_stmt fs loops s = true;
  sfits_code : forall bt ct pos, cstmt loc (fs ++ t) bt ct s pos = cstmt loc fs bt ct s pos;
  sfits_core : core_stmt names (map fst (fs ++ t)) loops s = true }.

Lemma opt_fits e : core_opt names known e = true ->
  direct_opt fs e = true /\ (forall c pos, expr_or loc (fs ++ t) e c pos = expr_or loc fs e c pos) /\ core_opt names (map fst (fs ++ t)) e = true.
Proof.
  unfold core_opt, direct_opt, expr_or. destruct (is_null e); [done|]. cbn [orb]. intros He. destruct (expr_fits_core e He) as [D C K]. done.
Qed.

Lemma c_cond_ext C C' over : (forall pos, C pos = C' pos) -> forall pos, c_cond C over pos = c_cond C' over pos.
Proof. intros HC. unfold c_cond. by apply pseq_ext. Qed.

Lemma loop_fits loops b C C' ST ST' no_step :
  stmt_fits loops b -> (forall pos, C' pos = C pos) -> (forall pos, ST' pos = ST pos) -> forall pos,
  c_loop C' ST' (fun pos => lenz (cstmt loc (fs ++ t) None None b pos)) (fun out next => cstmt loc (fs ++ t) (Some out) (Some next) b) no_step pos =
  c_loop C ST (fun pos => lenz (cstmt loc fs None None b pos)) (fun out next => cstmt loc fs (Some out) (Some next) b) no_step pos.
Proof.
  intros [_ Hb _] HC HS pos. rewrite !c_loop_eq. rewrite !HC, !Hb, !HS. by rewrite (c_cond_ext C' C).
Qed.

Lemma core_stmt_fits m : forall loops s, (node_size s < m)%nat -> core_stmt names known loops s = true -> stmt_fits loops s.
Proof.
  induction m as [|m IH]; intros loops s Hm Hs; [lia|]. destruct s; try discriminate; cbn [node_size] in Hm; try by split.
  - (* return *) cbn [core_stmt] in Hs. destruct (opt_fits s Hs) as (D & C & K). split; cbn [direct_stmt cstmt core_stmt]; [done| |done].
    intros bt ct. by apply pseq_ext.
  - (* if *) cbn [core_stmt] in Hs. zbool. destruct (expr_fits_core s1 ltac:(done)) as [D C K].
    destruct (IH loops s2) as [D2 C2 K2]; [lia|done|]. destruct (IH loops s3) as [D3 C3 K3]; [lia|done|].
    split; [cbn [direct_stmt]; by rewrite D, D2, D3| |cbn [core_stmt]; by rewrite K, K2, K3].
    intros bt ct pos. rewrite !cstmt_if. rewrite !C, !C2, !C3. by rewrite !(c_cond_ext (cexpr loc (fs ++ t) s1) (cexpr loc fs s1)).
  - (* while *) cbn [core_stmt] in Hs. zbool. destruct (expr_fits_core s1 ltac:(done)) as [D C K].
    pose proof (IH (S loops) s2 ltac:(lia) ltac:(done)) as Hb. split; cbn [direct_stmt cstmt core_stmt].
    + repeat (apply andb_true_iff; split); try done. by apply Hb.
    + intros bt ct. by apply (loop_fits (S loops)).
    + repeat (apply andb_true_iff; split); try done. by apply Hb.
  - (* for *) cbn [core_stmt] in Hs. zbool. destruct (opt_fits s2 ltac:(done)) as (D2 & C2 & K2). destruct (opt_fits s3 ltac:(done)) as (D3 & C3 & K3).
    pose proof (IH (S loops) s4 ltac:(lia) ltac:(done)) as Hb.
    assert (Hi : stmt_fits loops s1) by (apply IH; [lia|]; by destruct s1).
    split; cbn [direct_stmt cstmt core_stmt].
    + repeat (apply andb_true_iff; split); try done; [|by apply Hb]. destruct Hi as [Hd _ _]. by destruct s1.
    + intros bt ct. apply pseq_ext; [apply Hi|]. by apply (loop_fits (S loops)).
    + repeat (apply andb_true_iff; split); try done; [|by apply Hb]. destruct Hi as [_ _ Hd]. by destruct s1.
  - (* block *) cbn [core_stmt] in Hs. cbn [node_size] in Hm.
    assert (Hl : forall s, s ∈ children -> stmt_fits loops s).
    { intros s Hin. apply node_size_elem in Hin as Hsz. apply IH; [lia|]. eapply forallb_forall in Hs; [done|by apply list_elem_of_In]. }
    clear Hs Hm IH. split.
    + cbn [direct_stmt]. apply forallb_forall. intros s Hin. by apply Hl, list_elem_of_In.
    + intros bt ct. rewrite !cstmt_block. induction children as [|s l IHl]; [done|]. cbn [cstmts]. apply pseq_ext; [apply Hl; by left|].
      apply IHl. intros x Hx. apply Hl. by right.
    + cbn [core_stmt]. apply forallb_forall. intros s Hin. by apply Hl, list_elem_of_In.
  - (* expression *) cbn [core_stmt] in Hs. destruct (expr_fits_core s Hs) as [D C K]. by split.
Qed.

Lemma block_fits body : forallb (core_stmt names known 0) body = true -> stmt_fits 0 (AST_BLOCK body).
Proof. intros Hb. apply (core_stmt_fits (S (node_size (AST_BLOCK body)))); [lia|done]. Qed.
End prefix.

(** ** Functions *)

Definition named (f : list Z) (d : ASTNode) : bool := match d with AST_FUNC_DEF name _ _ => str_eqb name f | _ => false end.

Lemma core_funcs_cons known d l : core_funcs known (d :: l) = true ->
  exists name params body, d = AST_FUNC_DEF name params (AST_BLOCK body) /\ (length params <= 2)%nat /\ NoDup params /\
    forallb (core_stmt params (known ++ [name]) 0) body = true /\ core_funcs (known ++ [name]) l = true.
Proof.
  destruct d; try done. destruct d; try done. cbn [core_funcs]. intros H. zbool. exists name, params, children.
  split; [done|]. split; [by apply Nat.leb_le|]. split; [by eapply bool_decide_eq_true_1|done].
Qed.

Lemma core_funcs_direct l : forall fs pos, core_funcs (map fst fs) l = true -> direct_funcs fs l pos = true.
Proof.
  induction l as [|d l IH]; intros fs pos Hc; [done|]. apply core_funcs_cons in Hc as (name & params & body & -> & Hl & Hnd & Hb & Hr).
  change ([name]) with (map fst [(name, pos)]) in Hb, Hr. rewrite <- map_app in Hb, Hr. cbn [direct_funcs].
  apply andb_true_iff. split; [|by apply IH]. apply andb_true_iff. split; [apply Nat.leb_le; lia|].
  by apply (sfits_direct (frame params) _ [] params 0 _ (block_fits (frame params) _ [] params body Hb)).
Qed.

(** The function [f] in the code that [cfuncs] makes of [l] at [pos]. *)
Definition placed (f : list Z) (params : list (list Z)) (body : list ASTNode) (pos : Z) (c : list Z) (FS : list (list Z * Z)) : Prop :=
  exists o pre post, func_offset FS f = Some o /\ c = pre ++ cfunc FS params body o ++ post /\ pos + lenz pre = o /\
    NoDup params /\ (length params <= 2)%nat /\ forallb (core_stmt params (map fst FS) 0) body = true.

Lemma cfuncs_placed l : forall fs pos f params body,
  core_funcs (map fst fs) l = true -> func_offset fs f = None -> find (named f) l = Some (AST_FUNC_DEF f params (AST_BLOCK body)) ->
  placed f params body pos (cfuncs fs l pos).1 (cfuncs fs l pos).2.
Proof.
  induction l as [|d l IH]; intros fs pos f params body Hc Hn Hf; [done|]. apply core_funcs_cons in Hc as (name & ps & bs & -> & Hl & Hnd & Hb & Hr).
  cbn [cfuncs find named] in *. set (fs1 := fs ++ [(name, pos)]). set (c := cfunc fs1 ps bs pos).
  change ([name]) with (map fst [(name, pos)]) in Hb, Hr. rewrite <- map_app in Hb, Hr. fold fs1 in Hb, Hr.
  pose proof (cfuncs_prefix l fs1 (pos + lenz c)) as [t Ht].
  specialize (IH fs1 (pos + lenz c) f params body Hr). destruct (cfuncs fs1 l (pos + lenz c)) as [r FS]. cbn [fst snd] in *.
  destruct (str_eqb name f) eqn:E.
  - injection Hf as -> -> ->. clear IH. destruct (block_fits (frame params) fs1 t params body Hb) as [_ HC HK].
    exists pos, [], r. rewrite Ht. split; [|split; [|split; [|done]]].
    + unfold fs1, func_offset in *. rewrite !find_app. destruct (find _ fs); [done|]. cbn [find fst]. by rewrite E.
    + cbn [app]. f_equal. unfold c, cfunc. apply pseq_ext; [done|]. apply pseq_ext; [|done]. intros p. rewrite <- !cstmt_block. by rewrite HC.
    + change (lenz []) with 0. lia.
  - destruct IH as (o & pre & post & Ho & -> & Hp & Hrest); [|done|].
    + unfold fs1, func_offset in *. rewrite find_app. destruct (find _ fs); [done|]. cbn [find fst]. by rewrite E.
    + exists o, (c ++ pre), post. split; [done|]. split; [by rewrite <- app_assoc|]. split; [rewrite lenz_app; lia|done].
Qed.

Lemma find_func_named prog f params body :
  find_func prog f = Some (params, body) -> find (named f) prog = Some (AST_FUNC_DEF f params (AST_BLOCK body)).
Proof.
  unfold find_func. fold (named f). destruct (find (named f) prog) as [d|] eqn:E; [|done]. destruct d; try done. destruct d; try done.
  intros H. injection H as -> ->. apply find_some in E as [_ E]. cbn [named] in E. by apply bool_decide_eq_true_1 in E as ->.
Qed.

Lemma program_laid_out prog : core_program prog = true -> laid_out (cprogram prog) prog (cfuncs [] prog 22).2.
Proof.
  unfold core_program. intros Hp. zbool. intros f params body Hf. apply find_func_named in Hf.
  destruct (cfuncs_placed prog [] 22 f params body) as (o & pre & post & Ho & Hc & Hpos & Hnd & Hl & Hb); [done..|].
  exists o. split; [done|]. split; [|done]. unfold cprogram. destruct (cfuncs [] prog 22) as [c FS]. cbn [fst snd] in *. subst c.
  exists (c_stub (default 0 (func_offset FS (text "main"))) ++ pre), post. split; [by rewrite <- app_assoc|]. rewrite lenz_app. exact Hpos.
Qed.

Lemma core_direct prog : core_program prog = true -> direct_program prog = true.
Proof.
  unfold core_program, direct_program. intros Hp. zbool. apply andb_true_iff. split; [apply andb_true_iff; split; [done|]|by apply core_funcs_direct].
  destruct (find_func prog (text "main")) as [[params body]|] eqn:E; [|done]. apply find_func_named, find_some in E as [Hin _].
  apply existsb_exists. eexists. split; [exact Hin|]. done.
Qed.

(** ** The entry *)

Section entry.
Context (base : Z) (code : list Z) (Hbase : 0 <= base < 2 ^ 62) (Hsize : lenz code < 2 ^ 31).

(** [mov rdi, [rsp]; lea rsi, [rsp + 8]; call main] *)
Lemma run_start m main :
  code_at code 0 (c_stub main) -> rip m = base -> regs m RSP mod 8 = 0 -> 8 <= regs m RSP < 2 ^ 63 -> 0 <= main <= lenz code ->
  exists m', reaches base code m m' /\ rip m' = base + main /\ regs m' RSP = regs m RSP - 8 /\ words m' (regs m RSP - 8) = base + 14.
Proof.
  intros Hc Hr Ha Hs Hm. set (S := regs m RSP) in *. pose proof (code_at_bounds _ _ _ Hc) as Hb. change (lenz (c_stub main)) with 22 in Hb.
  apply (code_at_app _ 0 [0x48; 0x8B; 0x3C; 0x24]) in Hc as [Hc1 Hc]. apply (code_at_app _ _ [0x48; 0x8D; 0x74; 0x24; 0x08]) in Hc as [Hc2 Hc].
  apply (code_at_app _ _ ([0xE8] ++ le32 (u32 (main - 14)))) in Hc as [Hc3 _].
  change (0 + lenz [72; 139; 60; 36]) with 4 in *. change (4 + lenz [72; 141; 116; 36; 8]) with 9 in *.
  set (m1 := set_reg RDI (words m S) (set_rip (base + 4) m)).
  set (m2 := set_reg RSI (u64 (S + 8)) (set_rip (base + 9) m1)).
  exists (set_rip (base + main) (set_word (S - 8) (base + 14) (set_reg RSP (S - 8) (set_rip (base + 14) m2)))). split.
  - eapply (reaches_trans _ _ _ m1); [|eapply (reaches_trans _ _ _ m2)].
    + eapply (reaches_one _ _ _ _ _ (Mov (Reg RDI) (Mem RSP 0))); [rewrite Hr; symmetry; apply Z.add_0_r|exact Hc1|intros; reflexivity|].
      cbn [exec read address write]. unfold load. cbn [regs set_rip words]. fold S. rewrite Z.add_0_r, u64_small by lia. rewrite Ha. done.
    + eapply (reaches_one _ _ _ _ _ (Lea RSI (Mem RSP 8))); [done|exact Hc2|intros; reflexivity|done].
    + eapply (reaches_one _ _ _ _ _ (Call (i32 (main - 14)))); [done|exact Hc3|intros post; apply decode_rel32, imm32_le32|].
      change (lenz _) with 5. change (9 + 5) with 14. cbn [exec]. unfold push. cbn [regs set_rip rip]. change (regs m2 RSP) with S. rewrite (u64_small (S - 8)) by lia.
      unfold save. replace ((S - 8) mod 8 =? 0) with true by (symmetry; apply Z.eqb_eq; dlia). cbn [mbind option_bind].
      pose proof (jump_target base code Hbase Hsize 14 0 main) as Hj. rewrite Z.add_0_r in Hj. rewrite Hj by lia. done.
  - split; [done|]. split; [done|]. cbn. unfold upd. by rewrite Z.eqb_refl.
Qed.

(** [mov rdi, rax; xor rax, rax] before the system call. *)
Lemma run_exit m main :
  code_at code 0 (c_stub main) -> rip m = base + 14 ->
  exists m', reaches base code m m' /\ at_syscall base code m' = true /\ regs m' RDI = regs m RAX /\ regs m' RAX = 0.
Proof.
  intros Hc Hr. apply (code_at_app _ 0 ([72; 139; 60; 36; 72; 141; 116; 36; 8; 232] ++ le32 (u32 (main - 14)))) in Hc as [_ Hc].
  change (0 + lenz _) with 14 in Hc. apply (code_at_app _ _ [0x48; 0x89; 0xC7] [0x48; 0x31; 0xC0; 0x0F; 0x05]) in Hc as [Hc1 Hc].
  apply (code_at_app _ _ [0x48; 0x31; 0xC0] [0x0F; 0x05]) in Hc as [Hc2 Hc3]. change (14 + lenz [72; 137; 199]) with 17 in *. change (17 + lenz [72; 49; 192]) with 20 in *.
  set (m1 := set_reg RDI (regs m RAX) (set_rip (base + 17) m)).
  destruct (run_zero base code m1 17 eq_refl Hc2) as (m2 & [R2 Q2] & A2). destruct Q2 as (I2 & _ & G2).
  exists m2. split; [|split; [|split; [rewrite G2 by done; done|done]]].
  - eapply reaches_trans; [|exact R2]. eapply (reaches_one _ _ _ _ _ (Mov (Reg RDI) (Reg RAX))); [exact Hr|exact Hc1|intros; reflexivity|done].
  - unfold at_syscall. destruct (fetch_at base code 20 _ Hc3) as [post Hp]. rewrite I2. change (rip m1 + 3) with (base + 17 + 3). rewrite <- Z.add_assoc. change (17 + 3) with 20. by rewrite Hp.
Qed.
End entry.

Lemma compile_runs (src : list Z) (prog : list ASTNode) (n : nat) (v base : Z) (m : machine) :
  front_end src = Ok (AST_PROGRAM prog, None) -> core_program prog = true -> call_func prog n (text "main") [] = Some v ->
  exists cg, compile src = Some cg /\
    (lenz (code cg) < 2 ^ 31 -> rip m = base -> 0 <= base < 2 ^ 62 ->
     regs m RSP mod 8 = 0 -> 32 * Z.of_nat n + 8 <= regs m RSP < 2 ^ 63 ->
     exists m', reaches base (code cg) m m' /\ at_syscall base (code cg) m' = true /\ regs m' RDI = u64 v /\ regs m' RAX = 0).
Proof.
  intros Hp Hc Hm. destruct (generate_direct prog (core_direct prog Hc)) as (cg & Hg & Hcode & Hfs).
  exists cg. split; [unfold compile; by rewrite Hp, Hg|]. rewrite Hcode. clear Hg Hcode Hfs. intros Hsize Hr Hb Ha HS.
  set (FS := (cfuncs [] prog 22).2). pose proof (program_laid_out prog Hc) as Hl. fold FS in Hl.
  destruct n as [|n]; [done|]. pose proof Hm as Hm'. cbn [call_func] in Hm'.
  destruct (find_func prog (text "main")) as [[params body]|] eqn:Ef; [|done]. clear Hm'.
  destruct (Hl _ _ _ Ef) as (o & Ho & Hco & _). pose proof (code_at_bounds _ _ _ Hco) as Hob. pose proof (lenz_nonneg (cfunc FS params body o)).
  assert (Hstub : code_at (cprogram prog) 0 (c_stub o)).
  { unfold cprogram. subst FS. destruct (cfuncs [] prog 22) as [c FS]. cbn [snd] in Ho. rewrite Ho. by exists [], c. }
  destruct (run_start base (cprogram prog) Hb Hsize m o Hstub Hr Ha) as (m1 & R1 & I1 & S1 & W1); [lia|lia|].
  destruct (proj2 (proj2 (sim_all base (cprogram prog) Hb Hsize prog FS Hl (S n)))) with (f := text "main") (args := @nil Z) (v := v) (o := o) (S := regs m RSP - 8) (m := m1)
    as (m2 & R2 & I2 & A2 & _); try done; [dlia|lia|].
  destruct (run_exit base (cprogram prog) m2 o Hstub) as (m3 & R3 & Hat & D3 & A3); [by rewrite I2, W1|].
  exists m3. split; [eapply reaches_trans; [exact R1|]; by eapply reaches_trans|]. by rewrite D3, A2.
Qed.

(** C2. Compiled programs compute what they mean.  For every source text that parses as a
    program of the core language, whose [main] evaluates to [v] in the semantics with some
    depth [n] of evaluation, the compiler produces code, and the processor, started at the
    beginning of the code at any address with [32 * n + 8] bytes of stack, reaches the
    system call of the entry with [v] in [rdi], its argument, and 0 in [rax]. *)
Theorem compile_correct (src : list Z) (prog : list ASTNode) (n : nat) (v base : Z) (m : machine) :
  front_end src = Ok (AST_PROGRAM prog, None) -> core_program prog = true -> call_func prog n (text "main") [] = Some v ->
  exists cg, compile src = Some cg /\
    (lenz (code cg) < 2 ^ 31 -> rip m = base -> 0 <= base < 2 ^ 62 ->
     regs m RSP mod 8 = 0 -> 32 * Z.of_nat n + 8 <= regs m RSP < 2 ^ 63 ->
     exists m', reaches base (code cg) m m' /\ at_syscall base (code cg) m' = true /\ regs m' RDI = u64 v /\ regs m' RAX = 0).
Proof. apply compile_runs. Qed.

(** A processor at address 0 with its stack below 2^20; every word of its memory holds its address. *)
Definition start : machine := {| regs := fun r => if r =? RSP then 2 ^ 20 else 0; flags := None; words := fun a => a; rip := 0 |}.

(** Ackermann's function, a loop with [continue] and [break], and nested calls. *)
Definition ack_src : list Z :=
  text "int ack(int m, int n) { if (m == 0) return n + 1; if (n == 0) return ack(m - 1, 1); return ack(m - 1, ack(m, n - 1)); } int odd(int n, int s) { for (;; n = n - 1) { if (n <= 0) break; if (n % 2 == 0) continue; s = s + n; } return s; } int main() { return ack(2, 3) * 100 + odd(9, 0); }".

Definition ack_prog : list ASTNode := match front_end ack_src with Ok (AST_PROGRAM l, None) => l | _ => [] end.

Lemma compile_correct_witness :
  exists cg, compile ack_src = Some cg /\
    exists m', reaches 0 (code cg) start m' /\ at_syscall 0 (code cg) m' = true /\ regs m' RDI = 925 /\ regs m' RAX = 0.
Proof.
  destruct (compile_correct ack_src ack_prog 100 925 0 start) as (cg & E & H); [vm_compute; reflexivity..|].
  exists cg. split; [exact E|]. vm_compute in E. injection E as <-. apply H; [vm_compute; reflexivity|reflexivity|lia|reflexivity|vm_compute; split; [discriminate|reflexivity]].
Defined.

(** ** Outside of the core language

    What the code of a program hands to the system call, where it gets there. *)
Definition result_of (src : list Z) : option Z :=
  cg ← compile src; m ← run_to_syscall 0 (code cg) 300 start; Some (regs m RDI).

(** Locals of the body are below [rsp], and the next push overwrites them: 5 + 1 is 2. *)
Example local_overwritten : result_of (text "int main() { int x = 5; return x + 1; }") = Some 2.
Proof. vm_compute. reflexivity. Qed.

(** A name is the first local of that name: the inner [x] is never used. *)
Example inner_variable : result_of (text "int f(int x) { { int x = 7; return x; } } int main() { return f(1); }") = Some 1.
Proof. vm_compute. reflexivity. Qed.

(** [||] sets only the low bytes of its operands; [&&] evaluates its right operand, which
    here divides by zero. *)
Example logical_or : result_of (text "int main() { return 256 || 1; }") = Some 257.
Proof. vm_compute. reflexivity. Qed.
Example logical_and : result_of (text "int f(int a) { return a && 1 / a; } int main() { return f(0); }") = None.
Proof. vm_compute. reflexivity. Qed.

(** The callee takes its fourth parameter from another register than the caller uses. *)
Example fourth_argument : result_of (text "int f(int a, int b, int c, int d) { return d; } int main() { return f(1, 2, 3, 4); }") = Some 0.
Proof. vm_compute. reflexivity. Qed.

(** The call in the first argument overwrites the second one: f gets 3, the second argument
    of g, instead of 9. *)
Example argument_overwritten :
  result_of (text "int g(int a, int b) { return a - b; } int f(int a, int b) { return b; } int main() { return f(g(2, 3), 9); }") = Some 3.
Proof. vm_compute. reflexivity. Qed.

(** Numbers from 2^31 on become negative. *)
Example large_number : result_of (text "int main() { return 4294967295 == 0 - 1; }") = Some 1.
Proof. vm_compute. reflexivity. Qed.

(** [a[i]] is loaded from eight times the address plus the index, here 8 * 8 + 64 instead
    of 8 + 8 * 64. *)
Example index_scaled : result_of (text "int f(int a, int i) { return a[i]; } int main() { return f(8, 64); }") = Some 128.
Proof. vm_compute. reflexivity. Qed.
