(* ===== verification/CcElf.v ===== *)
(** * The file the compiler writes: apps/cc/elf.c

    An ELF file with the code as its only segment, and section headers, a symbol and two
    string tables behind it.  It is written by one [write] after the other; the file is the
    list of its bytes.  The strings of the program are not part of it.  The kernel's loader
    (Elf) reads it back. *)

From stdpp Require Import strings.
From S2P Require Import Prelude Mem Pmm Paging Elf ElfSpec Vfs Bytes CcLex CcParse CcGen CcDirect X86 CcSem CcCorrect CcSim CcCompile.

(** ** The structures *)

Definition le64 (v : Z) : list Z := le32 v ++ le32 (Z.shiftr v 32).

Record Elf64_Ehdr := {
  e_ident : list Z; e_type : Z; e_machine : Z; e_version : Z; e_entry : Z; e_phoff : Z; e_shoff : Z; e_flags : Z;
  e_ehsize : Z; e_phentsize : Z; e_phnum : Z; e_shentsize : Z; e_shnum : Z; e_shstrndx : Z }.

Record Elf64_Phdr := {
  p_type : Z; p_flags : Z; p_offset : Z; p_vaddr : Z; p_paddr : Z; p_filesz : Z; p_memsz : Z; p_align : Z }.

Record Elf64_Shdr := {
  sh_name : Z; sh_type : Z; sh_flags : Z; sh_addr : Z; sh_offset : Z; sh_size : Z; sh_link : Z; sh_info : Z;
  sh_addralign : Z; sh_entsize : Z }.

Record Elf64_Sym := { st_name : Z; st_info : Z; st_other : Z; st_shndx : Z; st_value : Z; st_size : Z }.

Definition ehdr_bytes (h : Elf64_Ehdr) : list Z :=
  e_ident h ++ le16 (e_type h) ++ le16 (e_machine h) ++ le32 (e_version h) ++ le64 (e_entry h) ++ le64 (e_phoff h) ++
  le64 (e_shoff h) ++ le32 (e_flags h) ++ le16 (e_ehsize h) ++ le16 (e_phentsize h) ++ le16 (e_phnum h) ++
  le16 (e_shentsize h) ++ le16 (e_shnum h) ++ le16 (e_shstrndx h).

Definition phdr_bytes (h : Elf64_Phdr) : list Z :=
  le32 (p_type h) ++ le32 (p_flags h) ++ le64 (p_offset h) ++ le64 (p_vaddr h) ++ le64 (p_paddr h) ++ le64 (p_filesz h) ++
  le64 (p_memsz h) ++ le64 (p_align h).

Definition shdr_bytes (h : Elf64_Shdr) : list Z :=
  le32 (sh_name h) ++ le32 (sh_type h) ++ le64 (sh_flags h) ++ le64 (sh_addr h) ++ le64 (sh_offset h) ++ le64 (sh_size h) ++
  le32 (sh_link h) ++ le32 (sh_info h) ++ le64 (sh_addralign h) ++ le64 (sh_entsize h).

Definition sym_bytes (s : Elf64_Sym) : list Z :=
  le32 (st_name s) ++ [u8 (st_info s); u8 (st_other s)] ++ le16 (st_shndx s) ++ le64 (st_value s) ++ le64 (st_size s).

(** ** elf_write *)

Definition load_address : Z := 0x40000000.

Definition shstrtab : list Z :=
  [0] ++ text ".text" ++ [0] ++ text ".shstrtab" ++ [0] ++ text ".symtab" ++ [0] ++ text ".strtab" ++ [0].
Definition strtab : list Z := [0] ++ text "main" ++ [0].

Definition text_offset : Z := 120.
Definition shstrtab_offset (n : Z) : Z := u64 (text_offset + n).
Definition symtab_offset (n : Z) : Z := Z.land (u64 (shstrtab_offset n + 64 + 7)) (mask64 3).
Definition strtab_offset (n : Z) : Z := u64 (symtab_offset n + 24 * 2).
Definition shdr_offset (n : Z) : Z := Z.land (u64 (strtab_offset n + 32 + 7)) (mask64 3).

Definition elf_ehdr (n : Z) : Elf64_Ehdr := {|
  e_ident := [0x7F; 69; 76; 70; 2; 1; 1] ++ replicate 9 0; e_type := 2; e_machine := 0x3E; e_version := 1;
  e_entry := load_address; e_phoff := 64; e_shoff := shdr_offset n; e_flags := 0; e_ehsize := 64; e_phentsize := 56; e_phnum := 1;
  e_shentsize := 64; e_shnum := 5; e_shstrndx := 2 |}.

Definition elf_phdr (n : Z) : Elf64_Phdr := {|
  p_type := 1; p_flags := 5; p_offset := text_offset; p_vaddr := load_address; p_paddr := load_address;
  p_filesz := u64 n; p_memsz := u64 n; p_align := 4096 |}.

Definition no_shdr : Elf64_Shdr := {|
  sh_name := 0; sh_type := 0; sh_flags := 0; sh_addr := 0; sh_offset := 0; sh_size := 0; sh_link := 0; sh_info := 0;
  sh_addralign := 0; sh_entsize := 0 |}.

Definition elf_shdrs (n : Z) : list Elf64_Shdr := [
  no_shdr;
  {| sh_name := 1; sh_type := 1; sh_flags := 6; sh_addr := load_address; sh_offset := text_offset; sh_size := u64 n;
     sh_link := 0; sh_info := 0; sh_addralign := 16; sh_entsize := 0 |};
  {| sh_name := 7; sh_type := 3; sh_flags := 0; sh_addr := 0; sh_offset := shstrtab_offset n; sh_size := Z.of_nat (length shstrtab);
     sh_link := 0; sh_info := 0; sh_addralign := 1; sh_entsize := 0 |};
  {| sh_name := 17; sh_type := 2; sh_flags := 0; sh_addr := 0; sh_offset := symtab_offset n; sh_size := 24 * 2;
     sh_link := 4; sh_info := 1; sh_addralign := 8; sh_entsize := 24 |};
  {| sh_name := 25; sh_type := 3; sh_flags := 0; sh_addr := 0; sh_offset := strtab_offset n; sh_size := Z.of_nat (length strtab);
     sh_link := 0; sh_info := 0; sh_addralign := 1; sh_entsize := 0 |}].

(** The address of the first function called [main]. *)
Definition main_addr (funcs : list (list Z * Z)) : Z :=
  match find (fun f => str_eqb f.1 (text "main")) funcs with
  | Some f => u64 (load_address + u64 f.2)
  | None => load_address
  end.

Definition elf_syms (cg : CodeGen) : list Elf64_Sym := [
  {| st_name := 0; st_info := 0; st_other := 0; st_shndx := 0; st_value := 0; st_size := 0 |};
  {| st_name := 1; st_info := 0x12; st_other := 0; st_shndx := 1; st_value := main_addr (funcs cg); st_size := u64 (cg_size cg) |}].

(** [for (int i = 0; i < pad; i++) write(fd, zero_pad, 1);] *)
Definition padding (pad : Z) : list Z := replicate (Z.to_nat (i32 pad)) 0.

(** The bytes written to the file that [open] has returned. *)
Definition elf_bytes (cg : CodeGen) : list Z :=
  let n := cg_size cg in
  ehdr_bytes (elf_ehdr n) ++ phdr_bytes (elf_phdr n) ++ code cg ++ shstrtab ++
  padding (symtab_offset n - (shstrtab_offset n + Z.of_nat (length shstrtab))) ++
  concat (sym_bytes <$> elf_syms cg) ++ strtab ++
  padding (shdr_offset n - (strtab_offset n + Z.of_nat (length strtab))) ++
  concat (shdr_bytes <$> elf_shdrs n).

(** The result, and the contents of the file; [opened] says whether [open] succeeded. *)
Definition elf_write (opened : bool) (cg : CodeGen) : Z * option (list Z) :=
  if opened then (0, Some (elf_bytes cg)) else (-1, None).

(** ** The sections *)

Definition slice (l : list Z) (off len : Z) : list Z := take (Z.to_nat len) (drop (Z.to_nat off) l).

Lemma slice_mid pre mid post off len : lenz pre = off -> lenz mid = len -> slice (pre ++ mid ++ post) off len = mid.
Proof. intros <- <-. unfold slice, lenz. rewrite !Nat2Z.id, drop_app_length. apply take_app_length. Qed.

(** The offsets, as long as the file is smaller than 2 GiB. *)
Lemma offsets n : 0 <= n < 2 ^ 31 - 512 ->
  let p1 := symtab_offset n - (shstrtab_offset n + 33) in let p2 := shdr_offset n - (strtab_offset n + 6) in
  shstrtab_offset n = 120 + n /\ 0 <= p1 < 64 /\ symtab_offset n = 120 + n + 33 + p1 /\ strtab_offset n = symtab_offset n + 48 /\
  0 <= p2 < 64 /\ shdr_offset n = symtab_offset n + 48 + 6 + p2.
Proof.
  intros Hn p1 p2. subst p1 p2. unfold shdr_offset, strtab_offset, symtab_offset, shstrtab_offset, text_offset.
  rewrite (u64_small (120 + n)), (u64_small (120 + n + 64 + 7)) by lia. rewrite land_mask64 by lia. change (2 ^ 3) with 8.
  pose proof (Z.mod_pos_bound (120 + n + 64 + 7) 8 ltac:(lia)). set (s := 120 + n + 64 + 7 - (120 + n + 64 + 7) mod 8) in *.
  rewrite (u64_small (s + 24 * 2)), (u64_small (s + 24 * 2 + 32 + 7)), land_mask64 by lia. change (2 ^ 3) with 8.
  pose proof (Z.mod_pos_bound (s + 24 * 2 + 32 + 7) 8 ltac:(lia)). repeat split; lia.
Qed.

Lemma lenz_padding p : 0 <= p < 64 -> lenz (padding p) = p.
Proof. intros Hp. unfold padding, lenz. rewrite i32_small, length_replicate by lia. lia. Qed.

(** The section headers are where the header says, and every section is where its section
    header says: the code, the two string tables and the symbols. *)
Lemma elf_sections cg : cg_size cg < 2 ^ 31 - 512 ->
  let file := elf_bytes cg in let n := cg_size cg in
  slice file (e_shoff (elf_ehdr n)) (64 * 5) = concat (shdr_bytes <$> elf_shdrs n) /\
  (fun h => slice file (sh_offset h) (sh_size h)) <$> drop 1 (elf_shdrs n) = [code cg; shstrtab; concat (sym_bytes <$> elf_syms cg); strtab].
Proof.
  intros Hn file n. assert (H0 : 0 <= n) by (unfold n, cg_size; lia). destruct (offsets n ltac:(lia)) as (E1 & P1 & E2 & E3 & P2 & E4).
  apply lenz_padding in P1 as L1. apply lenz_padding in P2 as L2. subst file. unfold elf_bytes. fold n.
  change (Z.of_nat (length shstrtab)) with 33. change (Z.of_nat (length strtab)) with 6.
  set (H := ehdr_bytes _). set (P := phdr_bytes _). set (pad1 := padding _) in *. set (pad2 := padding (shdr_offset n - _)) in *. set (Y := concat (sym_bytes <$> _)). set (S := concat (shdr_bytes <$> _)).
  assert (LH : lenz H = 64) by done. assert (LP : lenz P = 56) by done. assert (LY : lenz Y = 48) by done. assert (LS : lenz S = 64 * 5) by done.
  assert (LC : lenz (code cg) = n) by done. assert (LT : lenz shstrtab = 33) by done. assert (LR : lenz strtab = 6) by done.
  clearbody H P pad1 pad2 Y S. unfold elf_shdrs. cbn [e_shoff elf_ehdr drop fmap list_fmap sh_offset sh_size]. rewrite (u64_small n) by lia.
  split; [|f_equal; [|f_equal; [|f_equal; [|f_equal]]]].
  - rewrite <- (app_nil_r S) at 1. rewrite !app_assoc, <- (app_assoc _ S []). apply slice_mid; [rewrite !lenz_app; lia|done].
  - rewrite app_assoc. apply slice_mid; [rewrite !lenz_app; unfold text_offset; lia|done].
  - rewrite !(app_assoc H), !(app_assoc (H ++ P)). apply slice_mid; [rewrite !lenz_app; lia|done].
  - rewrite 4 app_assoc. apply slice_mid; [rewrite !lenz_app; lia|done].
  - rewrite 5 app_assoc. apply slice_mid; [rewrite !lenz_app; lia|done].
Qed.

(** ** The file in memory *)

(** The bytes [l] are at the address [a]. *)
Definition at_mem (m : mem) (a : Z) (l : list Z) : Prop := forall i b, l !! i = Some b -> rd8 m (a + Z.of_nat i) = b.

Lemma at_app m a l1 l2 : at_mem m a (l1 ++ l2) -> at_mem m a l1 /\ at_mem m (a + lenz l1) l2.
Proof.
  intros H. split; intros i b Hi.
  - apply H. rewrite lookup_app_l; [done|by eapply lookup_lt_Some].
  - unfold lenz. rewrite <- Z.add_assoc, <- Nat2Z.inj_add. apply H. rewrite lookup_app_r by lia. by rewrite Nat.add_comm, Nat.add_sub.
Qed.

Lemma at_le16 m a v : at_mem m a (le16 v) -> rdle m a 2 = u16 v.
Proof.
  intros H. cbn [rdle]. pose proof (H 0%nat _ eq_refl) as H0. pose proof (H 1%nat _ eq_refl) as H1. rewrite Z.add_0_r in H0. change (Z.of_nat 1) with 1 in H1.
  rewrite H0, H1. unfold u8, u16. rewrite Z.shiftr_div_pow2 by lia. dlia.
Qed.

Lemma at_le32 m a v : at_mem m a (le32 v) -> rdle m a 4 = u32 v.
Proof.
  intros H. cbn [rdle]. pose proof (H 0%nat _ eq_refl) as H0. pose proof (H 1%nat _ eq_refl) as H1. pose proof (H 2%nat _ eq_refl) as H2. pose proof (H 3%nat _ eq_refl) as H3.
  rewrite Z.add_0_r in H0. change (Z.of_nat 1) with 1 in H1. replace (a + Z.of_nat 2) with (a + 1 + 1) in H2 by lia. replace (a + Z.of_nat 3) with (a + 1 + 1 + 1) in H3 by lia.
  rewrite H0, H1, H2, H3. unfold u8, u32. rewrite !Z.shiftr_div_pow2 by lia. dlia.
Qed.

Lemma at_le64 m a v : at_mem m a (le64 v) -> rd64 m a = u64 v.
Proof.
  intros H. apply at_app in H as [H1 H2]. change (lenz (le32 v)) with 4 in H2. apply at_le32 in H1. apply at_le32 in H2.
  assert (E : rd64 m a = rdle m a 4 + 2 ^ 32 * rdle m (a + 4) 4).
  { unfold rd64. cbn [rdle]. rewrite <- !Z.add_assoc. change (4 + 1) with 5. change (1 + 1) with 2. change (1 + 2) with 3. change (1 + 3) with 4. change (4 + 2) with 6. change (4 + 3) with 7.
    change (1 + 4) with 5. change (1 + 5) with 6. change (1 + 6) with 7. lia. }
  rewrite E, H1, H2. unfold u32, u64. rewrite Z.shiftr_div_pow2 by lia. dlia.
Qed.

(** The pieces of a structure, with their offsets computed. *)
Ltac at_pieces H :=
  repeat (match type of H with at_mem _ _ (_ ++ _) => idtac end; let H1 := fresh "Hf" in apply at_app in H as [H1 H];
    match type of H with at_mem _ (_ + lenz ?l) _ => let k := eval vm_compute in (lenz l) in change (lenz l) with k in H end;
    try (rewrite <- Z.add_assoc in H;
         match type of H with at_mem _ (_ + (?x + ?y)) _ => let k := eval vm_compute in (x + y) in change (x + y) with k in H end)).

Section image.
Context (m : mem) (data : Z) (cg : CodeGen) (Hm : at_mem m data (elf_bytes cg)) (Hd : 0 <= data < 2 ^ 63).
Notation n := (cg_size cg).

Lemma image_ehdr :
  rdle m data 4 = ELF_MAGIC /\ rd8 m (data + 4) = 2 /\ rd8 m (data + 5) = 1 /\ hdr_type m data = 2 /\ hdr_machine m data = 0x3E /\
  hdr_entry m data = load_address /\ hdr_phoff m data = 64 /\ hdr_phentsize m data = 56 /\ hdr_phnum m data = 1.
Proof.
  unfold elf_bytes in Hm. apply at_app in Hm as [H _]. unfold ehdr_bytes, elf_ehdr in H.
  cbn [e_ident e_type e_machine e_version e_entry e_phoff e_shoff e_flags e_ehsize e_phentsize e_phnum e_shentsize e_shnum e_shstrndx] in H.
  at_pieces H.
  assert (Hi : forall i b, ([127; 69; 76; 70; 2; 1; 1] ++ replicate 9 0) !! i = Some b -> rd8 m (data + Z.of_nat i) = b) by exact Hf.
  split; [|split; [exact (Hi 4%nat 2 eq_refl)|split; [exact (Hi 5%nat 1 eq_refl)|]]].
  - cbn [rdle]. pose proof (Hi 0%nat _ eq_refl) as H0. pose proof (Hi 1%nat _ eq_refl) as H1. pose proof (Hi 2%nat _ eq_refl) as H2. pose proof (Hi 3%nat _ eq_refl) as H3.
    rewrite Z.add_0_r in H0. replace (data + 1 + 1 + 1) with (data + Z.of_nat 3) by lia. replace (data + 1 + 1) with (data + Z.of_nat 2) by lia.
    change (data + 1) with (data + Z.of_nat 1). by rewrite H0, H1, H2, H3.
  - unfold hdr_type, hdr_machine, hdr_entry, hdr_phoff, hdr_phentsize, hdr_phnum.
    repeat split; first [erewrite at_le16 by eassumption; reflexivity|erewrite at_le64 by eassumption; reflexivity].
Qed.

Lemma image_phdr : phdr m data 0 = Phdr 1 5 120 load_address load_address (u64 n) (u64 n) 4096.
Proof.
  destruct image_ehdr as (_ & _ & _ & _ & _ & _ & Ho & He & _). unfold phdr. rewrite Ho, He, Z.mul_0_l, Z.add_0_r, (u64_small (data + 64)) by lia.
  pose proof Hm as H. unfold elf_bytes in H. apply at_app in H as [_ H]. change (lenz (ehdr_bytes _)) with 64 in H. apply at_app in H as [H _].
  unfold phdr_bytes, elf_phdr in H. cbn [p_type p_flags p_offset p_vaddr p_paddr p_filesz p_memsz p_align] in H.
  set (a := data + 64) in *. at_pieces H. unfold read_phdr.
  f_equal; first [erewrite at_le32 by eassumption; reflexivity|erewrite at_le64 by eassumption; try reflexivity].
  all: unfold u64; by rewrite Z.mod_mod.
Qed.

Lemma image_code i b : code cg !! i = Some b -> rd8 m (data + 120 + Z.of_nat i) = b.
Proof.
  intros Hi. pose proof Hm as H. unfold elf_bytes in H. apply at_app in H as [_ H]. change (lenz (ehdr_bytes _)) with 64 in H. apply at_app in H as [_ H].
  change (lenz (phdr_bytes _)) with 56 in H. rewrite <- Z.add_assoc in H. apply at_app in H as [H _]. by apply H.
Qed.

Lemma image_size : 120 + n <= lenz (elf_bytes cg).
Proof.
  unfold elf_bytes. rewrite !lenz_app. change (lenz (ehdr_bytes _)) with 64. change (lenz (phdr_bytes _)) with 56. change (cg_size cg) with (lenz (code cg)).
  match goal with |- _ <= 64 + (56 + (_ + (?a + (?b + (?c + (?d + (?e + ?f))))))) => assert (0 <= a /\ 0 <= b /\ 0 <= c /\ 0 <= d /\ 0 <= e /\ 0 <= f) by (repeat split; apply lenz_nonneg) end. lia.
Qed.

Lemma image_probe size : 64 <= size -> elf_probe m data size = true /\ elf_check_header m data = 0.
Proof.
  intros Hs. destruct image_ehdr as (H1 & H2 & H3 & H4 & H5 & _). unfold elf_probe, elf_check_header. rewrite H1, H2, H3, H4, H5.
  rewrite (proj2 (Z.ltb_ge size 64)) by done. done.
Qed.

Lemma image_min : min_vaddr m data = load_address.
Proof.
  unfold min_vaddr. destruct image_ehdr as (_ & _ & _ & _ & _ & _ & _ & _ & ->). change (seqZ 0 1) with [0]. cbn [foldl]. by rewrite image_phdr.
Qed.

Lemma image_ok : data + lenz (elf_bytes cg) < 2 ^ 63 -> n < 2 ^ 31 -> elf_file_ok data (lenz (elf_bytes cg)) 0 m.
Proof.
  intros H63 Hn. pose proof image_size. assert (0 <= n) by (unfold cg_size; lia). destruct image_ehdr as (_ & _ & _ & _ & _ & _ & Ho & He & Hp). split.
  - lia.
  - rewrite Ho, He, Hp. lia.
  - rewrite Hp. intros i Hi. replace i with 0 by lia. rewrite image_phdr. intros _. unfold seg_vaddr. cbn [ph_vaddr ph_memsz]. change (u64 (load_address + 0)) with load_address. rewrite !(u64_small n) by lia.
    unfold load_address. split; [split; cbn [ph_offset ph_filesz]; lia|lia].
Qed.

(** The byte of the code at its address. *)
Lemma image_holds root st st' i c :
  n < 2 ^ 31 -> code cg !! i = Some c -> ElfSpec.holds root data 0 m (seqZ 0 1) st st' (load_address + Z.of_nat i) -> holds_byte root st' (load_address + Z.of_nat i) c.
Proof.
  intros Hn Hi. pose proof (lookup_lt_Some _ _ _ Hi) as Hlt. assert (Hin : Z.of_nat i < n) by (unfold cg_size; lia).
  unfold ElfSpec.holds, holder. change (seqZ 0 1) with [0]. rewrite filter_cons, filter_nil, image_phdr.
  assert (Hc : covers 0 (Phdr 1 5 120 load_address load_address (u64 n) (u64 n) 4096) (load_address + Z.of_nat i) = true).
  { rewrite u64_small by lia. unfold covers, loadable, first_page, page_number, seg_vaddr. cbn [ph_type ph_memsz ph_vaddr]. change (u64 (load_address + 0)) with load_address. rewrite (proj2 (Z.eqb_neq n 0)) by lia.
    change (1 =? PT_LOAD) with true. unfold load_address. cbn [negb andb]. apply andb_true_iff. dlia. }
  destruct (decide _) as [_|Hf]; [|done]. cbn [last]. cbv zeta. rewrite image_phdr. unfold seg_byte, seg_vaddr. cbn [ph_vaddr ph_filesz ph_offset]. change (u64 (load_address + 0)) with load_address. rewrite (u64_small n) by lia.
  rewrite (proj2 (andb_true_iff _ _)) by lia. replace (data + 120 + (load_address + Z.of_nat i - load_address)) with (data + 120 + Z.of_nat i) by lia. by rewrite (image_code i c Hi).
Qed.
End image.

(** ** From the source to the running program *)


(** ** Example *)

Definition ack_cg : CodeGen := default codegen_init (compile ack_src).
Definition ack_file : list Z := elf_bytes ack_cg.

Lemma ack_file_fits : (length ack_file <= 4000)%nat.
Proof. apply Nat.leb_le. vm_compute. reflexivity. Qed.

Lemma ack_file_size : 64 + lenz ack_file < 2 ^ 63 /\ lenz ack_file < 2 ^ 31.
Proof. pose proof ack_file_fits. unfold lenz. generalize dependent (length ack_file). lia. Qed.

Lemma ack_file_at : at_mem (ram (file_space ack_file)) 64 ack_file.
Proof.
  intros i b Hi. cbn [ram file_space]. rewrite (put_at _ _ _ i b Hi). apply u8_small.
  assert (Hb : Forall (fun b => 0 <= b < 256) ack_file).
  { assert (E : forallb (fun b => (0 <=? b) && (b <? 256)) ack_file = true) by (vm_compute; reflexivity).
    apply Forall_forall. intros x Hx. eapply forallb_forall in E; [|by apply list_elem_of_In]. zbool. lia. }
  by eapply Forall_lookup_1 in Hb.
Qed.

Abbreviation ack_load := (binfmt_load (false, []) 64 (lenz ack_file) 8192 0 (file_space ack_file)).

(** The processor at the entry point with 1 MiB of stack. *)
Definition ack_start : machine := set_rip 0x40000000 start.

Lemma load_parts (x : Z * Z * phys * binfmt_state) e o : fst (fst x) = (e, o) -> x = (e, o, snd (fst x), snd x).
Proof. destruct x as [[[a b] c] d]. cbn [fst snd]. intros H. by injection H as -> ->. Qed.

