(* ===== verification/Boot.v ===== *)
(** * Boot modules: kernel/core/kernel.c, and [spawn_userspace_init] of kernel/core/sched.c

    The Multiboot2 information is read where the boot loader left it, tag by tag; [fuel]
    bounds the number of tags and the length of a command line ([None] beyond it). *)

From S2P Require Import Prelude KMalloc Mem Pmm Paging Elf ElfSpec Sched Vfs.

(** The characters at [a] up to the zero. *)
Fixpoint c_string (fuel : nat) (m : mem) (a : Z) : option str :=
  if rd8 m a =? 0 then Some [] else
  match fuel with O => None | S fuel => s ← c_string fuel m (a + 1); Some (rd8 m a :: s) end.

Definition is_blank (c : Z) : bool := (c =? 32) || (c =? 9).

Fixpoint skip_blanks (s : str) : str :=
  match s with c :: s' => if is_blank c then skip_blanks s' else s | [] => [] end.

(** A token and what follows it. *)
Fixpoint token (s : str) : str * str :=
  match s with
  | c :: s' => if is_blank c then ([], s) else let '(t, r) := token s' in (c :: t, r)
  | [] => ([], [])
  end.

(** The characters after the last slash. *)
Definition base_name (t : str) : str := match strrchr_slash t with Some (_, b) => b | None => t end.

(** The three tests of a token: the token, its last component, or that component with an
    extension. *)
Definition token_match (name t : str) : bool :=
  str_eqb t name || str_eqb (base_name t) name ||
  ((length name <? length (base_name t))%nat && prefix_of name (base_name t) && (char_at (length name) (base_name t) =? 46)).

Fixpoint match_tokens (n : nat) (name s : str) : bool :=
  match n with
  | O => false
  | S n =>
      match skip_blanks s with
      | [] => false
      | s => let '(t, r) := token s in token_match name t || match_tokens n name r
      end
  end.

(** Each round consumes a character. *)
Definition module_name_match (cmdline name : str) : bool :=
  str_eqb cmdline name || match_tokens (S (length cmdline)) name cmdline.

(** The start of the next tag. *)
Definition next_tag (ptr tag_size : Z) : Z := ptr + Z.land (u32 (tag_size + 7)) (Z.land (Z.lnot 7) (2 ^ 32 - 1)).

Section Boot.
(** Where the information is (0 when there is none), and the bound. *)
Variable multiboot_info_ptr : Z.
Variable fuel : nat.

(** [f] is applied to the command line, start and end of each module, until it gives a
    result. *)
Fixpoint each_module {A} (n : nat) (f : str -> Z -> Z -> option A) (ptr : Z) (m : mem) : option (option A) :=
  match n with
  | O => None
  | S n =>
      let type := rdle m ptr 4 in
      let tag_size := rdle m (ptr + 4) 4 in
      if (type =? 0) || (tag_size =? 0) then Some None else
      if (type =? 3) && (16 <? tag_size) then
        cmdline ← c_string fuel m (ptr + 16);
        match f cmdline (rdle m (ptr + 8) 4) (rdle m (ptr + 12) 4) with
        | Some r => Some (Some r)
        | None => each_module n f (next_tag ptr tag_size) m
        end
      else each_module n f (next_tag ptr tag_size) m
  end.

(** The start and the size of the module, or [None] for -1. *)
Definition multiboot_get_module (name : str) (m : mem) : option (option (Z * Z)) :=
  if multiboot_info_ptr =? 0 then Some None else
  each_module fuel (fun cmdline s e => if module_name_match cmdline name then Some (s, u32 (e - s)) else None)
    (multiboot_info_ptr + 8) m.

(** A copy of the module on the heap: its address and size. *)
Definition get_module_data (name : str) (k : kern) : option (option (Z * Z) * kern) :=
  r ← multiboot_get_module name (kram k);
  match r with
  | None => Some (None, k)
  | Some (start, sz) =>
      '(kbuf, h) ← kmalloc sz (hp k);
      let k := set_hp h k in
      if kbuf =? 0 then Some (None, k) else
      Some (Some (kbuf, sz), on_ram (fun m => memcpy m kbuf start (Z.to_nat sz)) k)
  end.

(** The file systems other than ramfs. *)
Variable other : str -> fs_ops.

Definition read_bytes (m : mem) (a : Z) (n : nat) : list Z := (fun i => rd8 m (a + Z.of_nat i)) <$> seq 0 n.

(** The loop of [multiboot_modules_to_ramfs]: each module becomes a file of the root. *)
Fixpoint modules_loop (n : nat) (ptr : Z) (m : mem) (s : vstate) : option vstate :=
  match n with
  | O => None
  | S n =>
      let type := rdle m ptr 4 in
      let tag_size := rdle m (ptr + 4) 4 in
      if (type =? 0) || (tag_size =? 0) then Some s else
      s ← (if (type =? 3) && (16 <? tag_size) then
             cmdline ← c_string fuel m (ptr + 16);
             match base_name cmdline with
             | [] => Some s
             | name =>
                 let mod_start := rdle m (ptr + 8) 4 in
                 let mod_end := rdle m (ptr + 12) 4 in
                 '(a, s) ← vfs_open other (cut 256 (slash :: name)) 0x240 420 s;
                 if a =? 0 then Some s else
                 '(_, s) ← vfs_write other a (read_bytes m mod_start (Z.to_nat (u64 (mod_end - mod_start)))) 0 s;
                 '(_, s) ← vfs_close a s;
                 Some s
             end
           else Some s);
      modules_loop n (next_tag ptr tag_size) m s
  end.

Definition multiboot_modules_to_ramfs (m : mem) (s : vstate) : option vstate :=
  if multiboot_info_ptr =? 0 then Some s else modules_loop fuel (multiboot_info_ptr + 8) m s.

(** ["/init"] and ["init"] *)
Definition s_slash_init : str := [47; 105; 110; 105; 116].
Definition s_init : str := [105; 110; 105; 116].

(** The frame buffer of [sched_create_process]. *)
Variables fb_phys fb_size : Z.

(** The attempt with one copy of the program: [true] when the process was created. *)
Definition try_init (data size : Z) (k : kern) : option (bool * kern) :=
  '(pid, k) ← sched_create_process fb_phys fb_size s_init data size k;
  h ← kfree data (hp k);
  Some (0 <=? pid, set_hp h k).

(** The heap of the file system is the one of [k]. *)
Definition spawn_userspace_init (k : kern) (s : vstate) : option (Z * kern * vstate) :=
  '(r, (data, bytes, size), s) ← vfs_read_entire other s_slash_init (set_vheap (hp k) s);
  let k := set_hp (vheap s) k in
  '(done, k) ← (if r =? 0 then try_init data size (on_ram (fun m => put_bytes m data bytes) k) else Some (false, k));
  if (done : bool) then Some (0, k, s) else
  '(md, k) ← get_module_data s_init k;
  match (md : option (Z * Z)) with
  | None => Some (0, k, s)
  | Some (data, size) => '(_, k) ← try_init data size k; Some (0, k, s)
  end.

End Boot.

(** * The names of modules *)

(** The tokens of a command line. *)
Fixpoint tokens (n : nat) (s : str) : list str :=
  match n with
  | O => []
  | S n => match skip_blanks s with [] => [] | s => let '(t, r) := token s in t :: tokens n r end
  end.

Lemma match_tokens_spec n : forall name s, match_tokens n name s = existsb (token_match name) (tokens n s).
Proof.
  induction n as [|n IH]; intros name s; cbn [match_tokens tokens]; [done|].
  destruct (skip_blanks s) as [|c s']; [done|]. destruct (token (c :: s')) as [t r]. cbn [existsb]. by rewrite IH.
Qed.
