(* ===== verification/Keyboard.v ===== *)
(** * Keyboard: kernel/drivers/input/keyboard.c

    The interrupt handler as a function of the scan code it reads from the port, over
    the state of the driver: the ring of 128 bytes and the flags for shift, caps lock and
    the prefix 0xE0.  The ring implements a queue of at most 127 characters. *)

From S2P Require Import Prelude.

Definition BUFFER_SIZE : Z := 128.

Record keyboard := Keyboard {
  kbd_buffer : list Z;
  kbd_head : Z;
  kbd_tail : Z;
  kbd_shift : bool;
  kbd_caps : bool;
  kbd_e0 : bool }.

Definition sc_ascii : list Z :=
  [0; 0; 49; 50; 51; 52; 53; 54; 55; 56; 57; 48; 45; 61; 8;
   9; 113; 119; 101; 114; 116; 121; 117; 105; 111; 112; 91; 93; 10;
   0; 97; 115; 100; 102; 103; 104; 106; 107; 108; 59; 39; 96;
   0; 92; 122; 120; 99; 118; 98; 110; 109; 44; 46; 47; 0;
   42; 0; 32; 0].

Definition sc_ascii_shift : list Z :=
  [0; 0; 33; 64; 35; 36; 37; 94; 38; 42; 40; 41; 95; 43; 8;
   9; 81; 87; 69; 82; 84; 89; 85; 73; 79; 80; 123; 125; 10;
   0; 65; 83; 68; 70; 71; 72; 74; 75; 76; 58; 34; 126;
   0; 124; 90; 88; 67; 86; 66; 78; 77; 60; 62; 63; 0;
   42; 0; 32; 0].

Definition set_shift (v : bool) (k : keyboard) : keyboard :=
  Keyboard (kbd_buffer k) (kbd_head k) (kbd_tail k) v (kbd_caps k) (kbd_e0 k).
Definition set_caps (v : bool) (k : keyboard) : keyboard :=
  Keyboard (kbd_buffer k) (kbd_head k) (kbd_tail k) (kbd_shift k) v (kbd_e0 k).
Definition set_e0 (v : bool) (k : keyboard) : keyboard :=
  Keyboard (kbd_buffer k) (kbd_head k) (kbd_tail k) (kbd_shift k) (kbd_caps k) v.

(** One character into the ring; [false] when there is no room. *)
Definition put_char (c : Z) (k : keyboard) : bool * keyboard :=
  let next := (kbd_head k + 1) mod BUFFER_SIZE in
  if next =? kbd_tail k then (false, k)
  else (true, Keyboard (<[Z.to_nat (kbd_head k) := c]> (kbd_buffer k)) next (kbd_tail k)
                (kbd_shift k) (kbd_caps k) (kbd_e0 k)).

(** The loop over an escape sequence stops at the first character without room. *)
Fixpoint put_seq (seq : list Z) (k : keyboard) : keyboard :=
  match seq with
  | [] => k
  | c :: seq => let '(ok, k) := put_char c k in if ok then put_seq seq k else k
  end.

(** The sequence of an extended key. *)
Definition escape (sc : Z) : list Z :=
  match sc with
  | 0x48 => [27; 91; 65] | 0x50 => [27; 91; 66] | 0x4D => [27; 91; 67] | 0x4B => [27; 91; 68]
  | 0x47 => [27; 91; 72] | 0x4F => [27; 91; 70]
  | 0x49 => [27; 91; 53; 126] | 0x51 => [27; 91; 54; 126]
  | 0x52 => [27; 91; 50; 126] | 0x53 => [27; 91; 51; 126]
  | _ => []
  end.

(** The character of a key. *)
Definition key_char (sc : Z) (k : keyboard) : Z :=
  let c := default 0 ((if kbd_shift k then sc_ascii_shift else sc_ascii) !! Z.to_nat sc) in
  if kbd_caps k && negb (kbd_shift k) && (97 <=? c) && (c <=? 122) then u8 (c - 32)
  else if kbd_caps k && kbd_shift k && (65 <=? c) && (c <=? 90) then u8 (c + 32)
  else c.

(** [sc] is the byte read from port 0x60. *)
Definition keyboard_handler (sc : Z) (k : keyboard) : keyboard :=
  if sc =? 0xE0 then set_e0 true k else
  if (sc =? 0xAA) || (sc =? 0xB6) then set_shift false k else
  if kbd_e0 k then
    let k := set_e0 false k in
    if nz (Z.land sc 0x80) then k else put_seq (escape sc) k
  else if nz (Z.land sc 0x80) then k
  else if (sc =? 0x2A) || (sc =? 0x36) then set_shift true k
  else if sc =? 0x3A then set_caps (negb (kbd_caps k)) k
  else if sc <? 58 then
    let c := key_char sc k in if c =? 0 then k else (put_char c k).2
  else k.

(** The state [keyboard_init] sets; the buffer and the prefix flag are left alone. *)
Definition keyboard_init (k : keyboard) : keyboard :=
  Keyboard (kbd_buffer k) 0 0 false false (kbd_e0 k).

Definition keyboard_data_ready (k : keyboard) : bool := negb (kbd_head k =? kbd_tail k).

(** [yield] is what happens to the driver during a [sched_yield]. *)
Fixpoint keyboard_getc (fuel : nat) (yield : keyboard -> option keyboard) (k : keyboard) : option (Z * keyboard) :=
  if keyboard_data_ready k then
    Some (default 0 (kbd_buffer k !! Z.to_nat (kbd_tail k)),
          Keyboard (kbd_buffer k) (kbd_head k) ((kbd_tail k + 1) mod BUFFER_SIZE) (kbd_shift k) (kbd_caps k) (kbd_e0 k))
  else match fuel with
       | O => None
       | S fuel => k ← yield k; keyboard_getc fuel yield k
       end.

Definition keyboard_get_modifiers (k : keyboard) : Z := Z.lor (b2z (kbd_shift k)) (Z.shiftl (b2z (kbd_caps k)) 1).

(** The array at the load of the kernel. *)
Definition keyboard0 : keyboard := Keyboard (replicate 128 0) 0 0 false false false.

(** * The queue of characters *)

Record kbd_wf (k : keyboard) : Prop := {
  kw_len : length (kbd_buffer k) = 128%nat;
  kw_head : 0 <= kbd_head k < BUFFER_SIZE;
  kw_tail : 0 <= kbd_tail k < BUFFER_SIZE }.

(** The characters that wait, oldest first. *)
Definition waiting_count (k : keyboard) : nat := Z.to_nat ((kbd_head k - kbd_tail k) mod BUFFER_SIZE).
Definition waiting (k : keyboard) : list Z :=
  (fun i => default 0 (kbd_buffer k !! Z.to_nat ((kbd_tail k + Z.of_nat i) mod BUFFER_SIZE))) <$> seq 0 (waiting_count k).

(** What a scan code types. *)
Definition typed (sc : Z) (k : keyboard) : list Z :=
  if (sc =? 0xE0) || (sc =? 0xAA) || (sc =? 0xB6) || nz (Z.land sc 0x80) then [] else
  if kbd_e0 k then escape sc else
  if (sc =? 0x2A) || (sc =? 0x36) || (sc =? 0x3A) || negb (sc <? 58) then [] else
  if key_char sc k =? 0 then [] else [key_char sc k].

Lemma waiting_length k : length (waiting k) = waiting_count k.
Proof. unfold waiting. by rewrite length_fmap, length_seq. Qed.

Lemma waiting_count_lt k : (waiting_count k < 128)%nat.
Proof. unfold waiting_count, BUFFER_SIZE. pose proof (Z.mod_pos_bound (kbd_head k - kbd_tail k) 128). lia. Qed.

(** Two states with the same ring have the same characters waiting. *)
Lemma waiting_same k k' :
  kbd_buffer k' = kbd_buffer k -> kbd_head k' = kbd_head k -> kbd_tail k' = kbd_tail k -> waiting k' = waiting k.
Proof. intros E1 E2 E3. unfold waiting, waiting_count. by rewrite E1, E2, E3. Qed.

Lemma wf_same k k' :
  kbd_buffer k' = kbd_buffer k -> kbd_head k' = kbd_head k -> kbd_tail k' = kbd_tail k -> kbd_wf k -> kbd_wf k'.
Proof. intros E1 E2 E3 [? ? ?]. split; congruence. Qed.

(** The ring arithmetic: positions and counts modulo the size. *)
Lemma ring_count h t : 0 <= h < 128 -> 0 <= t < 128 -> (h - t) mod 128 = if t <=? h then h - t else h - t + 128.
Proof.
  intros Hh Ht. destruct (Z.leb_spec t h); [apply Z.mod_small; lia|].
  symmetry. apply (Z.mod_unique _ _ (-1)); lia.
Qed.

Lemma ring_next h : 0 <= h < 128 -> (h + 1) mod 128 = if h =? 127 then 0 else h + 1.
Proof.
  intros Hh. destruct (Z.eqb_spec h 127) as [->|]; [done|]. apply Z.mod_small. lia.
Qed.

(** Arithmetic on the ring, by cases on the wrap-around. *)
Ltac ring_tac :=
  unfold waiting_count, BUFFER_SIZE in *; cbn [kbd_head kbd_tail kbd_buffer] in *;
  rewrite ?ring_count, ?ring_next in * by (rewrite ?ring_next by lia; repeat case_match; lia);
  repeat match goal with
  | H : context [if ?b then _ else _] |- _ => destruct b eqn:?
  | |- context [if ?b then _ else _] => destruct b eqn:?
  end; zbool; lia.

Lemma put_char_spec c k :
  kbd_wf k ->
  kbd_wf (put_char c k).2 /\
  ((put_char c k).1 = true /\ (waiting_count k < 127)%nat /\ waiting (put_char c k).2 = waiting k ++ [c] \/
   (put_char c k).1 = false /\ waiting_count k = 127%nat /\ (put_char c k).2 = k).
Proof.
  intros Hw. pose proof Hw as [Hl Hh Ht]. unfold put_char. unfold BUFFER_SIZE in *.
  destruct (Z.eqb_spec ((kbd_head k + 1) mod 128) (kbd_tail k)) as [E|E]; cbn [fst snd].
  - split; [done|right]. split_and!; auto. ring_tac.
  - split; [split; cbn; rewrite ?length_insert; auto; unfold BUFFER_SIZE; try lia; dlia|left].
    assert (Hc : (waiting_count k < 127)%nat) by ring_tac.
    split_and!; auto. set (k' := Keyboard _ _ _ _ _ _).
    assert (Hn : waiting_count k' = (waiting_count k + 1)%nat) by (unfold k'; ring_tac).
    unfold waiting. rewrite Hn. cbn [k' kbd_head kbd_tail kbd_buffer]. rewrite seq_app, fmap_app. cbn [seq fmap list_fmap]. f_equal.
    + apply list_fmap_ext. intros i x Hi. apply lookup_seq in Hi as [-> Hi]. f_equal.
      apply list_lookup_insert_ne. unfold waiting_count, BUFFER_SIZE in *. dlia.
    + rewrite Nat.add_0_l. replace (Z.to_nat _) with (Z.to_nat (kbd_head k)) by (unfold waiting_count, BUFFER_SIZE; dlia).
      rewrite list_lookup_insert_eq by lia. done.
Qed.

Lemma put_seq_spec seq : forall k,
  kbd_wf k -> kbd_wf (put_seq seq k) /\ waiting (put_seq seq k) = take 127 (waiting k ++ seq).
Proof.
  induction seq as [|c seq IH]; intros k Hw; cbn [put_seq].
  - pose proof (waiting_count_lt k). rewrite app_nil_r, take_ge by (rewrite waiting_length; lia). done.
  - destruct (put_char_spec c k Hw) as [Hw' [(E & Hc & Hq)|(E & Hc & Hq)]];
      destruct (put_char c k) as [ok k'] eqn:Ek; cbn in E, Hq, Hw'; subst ok.
    + destruct (IH k' Hw') as [Hw2 ->]. split; [done|]. by rewrite Hq, <- app_assoc.
    + subst k'. split; [done|]. rewrite take_app_le, take_ge by (rewrite waiting_length; lia). done.
Qed.

(** The handler appends what the key types, as far as there is room; no character that
    waits is lost or changed. *)
Lemma keyboard_handler_queue sc k :
  kbd_wf k ->
  kbd_wf (keyboard_handler sc k) /\ waiting (keyboard_handler sc k) = take 127 (waiting k ++ typed sc k).
Proof.
  intros Hw. assert (Hid : take 127 (waiting k ++ []) = waiting k).
  { rewrite app_nil_r, take_ge; [done|]. rewrite waiting_length. pose proof (waiting_count_lt k). lia. }
  assert (Hflags : forall k', kbd_buffer k' = kbd_buffer k -> kbd_head k' = kbd_head k -> kbd_tail k' = kbd_tail k ->
    kbd_wf k' /\ waiting k' = take 127 (waiting k ++ [])).
  { intros k' E1 E2 E3. rewrite Hid. split; [by apply (wf_same k)|by apply waiting_same]. }
  unfold keyboard_handler, typed.
  destruct (Z.eqb_spec sc 0xE0); [by apply Hflags|]. cbn [orb].
  destruct ((sc =? 0xAA) || (sc =? 0xB6)); [by apply Hflags|]. cbn [orb].
  destruct (nz (Z.land sc 0x80)); [destruct (kbd_e0 k); by apply Hflags|].
  destruct (kbd_e0 k).
  - destruct (put_seq_spec (escape sc) (set_e0 false k)) as [H1 H2]; [by apply (wf_same k)|].
    split; [done|]. rewrite H2. f_equal.
  - destruct ((sc =? 0x2A) || (sc =? 0x36)); [by apply Hflags|]. cbn [orb].
    destruct (sc =? 0x3A); [by apply Hflags|]. cbn [orb].
    destruct (sc <? 58); cbn [negb]; [|by apply Hflags].
    destruct (key_char sc k =? 0); [by apply Hflags|].
    pose proof (put_seq_spec [key_char sc k] k Hw) as H. cbn [put_seq] in H.
    destruct (put_char (key_char sc k) k) as [[] k']; cbn; done.
Qed.

Lemma keyboard_getc_queue fuel yield k c l :
  kbd_wf k -> waiting k = c :: l ->
  exists k', keyboard_getc fuel yield k = Some (c, k') /\ kbd_wf k' /\ waiting k' = l /\
    kbd_shift k' = kbd_shift k /\ kbd_caps k' = kbd_caps k /\ kbd_e0 k' = kbd_e0 k.
Proof.
  intros Hw E. pose proof Hw as [Hl Hh Ht]. pose proof (waiting_length k) as Hlen. rewrite E in Hlen. cbn in Hlen.
  unfold BUFFER_SIZE in *.
  assert (Hr : keyboard_data_ready k = true).
  { unfold keyboard_data_ready. rewrite negb_true_iff, Z.eqb_neq. ring_tac. }
  set (k1 := Keyboard (kbd_buffer k) (kbd_head k) ((kbd_tail k + 1) mod BUFFER_SIZE) (kbd_shift k) (kbd_caps k) (kbd_e0 k)).
  assert (keyboard_getc fuel yield k = Some (default 0 (kbd_buffer k !! Z.to_nat (kbd_tail k)), k1))
    as -> by (destruct fuel; cbn [keyboard_getc]; by rewrite Hr).
  unfold waiting in E. rewrite <- Hlen in E. cbn [seq fmap list_fmap] in E. injection E as Ec El.
  exists k1. split; [|split; [|split; [|done]]].
  - rewrite <- Ec, Z.add_0_r. unfold BUFFER_SIZE. rewrite Z.mod_small by lia. done.
  - split; cbn; auto; unfold BUFFER_SIZE; dlia.
  - rewrite <- El.
    assert (Hn : waiting_count k1 = length l) by (unfold k1; ring_tac).
    unfold waiting. rewrite Hn. cbn [k1 kbd_head kbd_tail kbd_buffer].
    rewrite <- fmap_S_seq, <- list_fmap_compose. apply list_fmap_ext. intros i x Hi. cbn. do 3 f_equal.
    unfold BUFFER_SIZE. dlia.
Qed.

(** ** Keys and readers *)

Inductive kbd_op := Press (sc : Z) | Get.

(** The driver: the characters that the readers got. *)
Fixpoint kbd_run (ops : list kbd_op) (k : keyboard) : list Z * keyboard :=
  match ops with
  | [] => ([], k)
  | Press sc :: ops => kbd_run ops (keyboard_handler sc k)
  | Get :: ops =>
      match (if keyboard_data_ready k then keyboard_getc 0 (fun _ => None) k else None) with
      | Some (c, k) => let '(l, k) := kbd_run ops k in (c :: l, k)
      | None => kbd_run ops k
      end
  end.

(** The meaning of a scan code does not depend on the ring. *)
Definition key_state (k : keyboard) : bool * bool * bool := (kbd_shift k, kbd_caps k, kbd_e0 k).

(** The specification: the same keys, with a list for the queue. *)
Fixpoint queue_run (ops : list kbd_op) (q : list Z) (k : keyboard) : list Z * list Z :=
  match ops with
  | [] => ([], q)
  | Press sc :: ops => queue_run ops (take 127 (q ++ typed sc k)) (keyboard_handler sc k)
  | Get :: ops =>
      match q with
      | c :: q => let '(l, q) := queue_run ops q k in (c :: l, q)
      | [] => queue_run ops q k
      end
  end.

Lemma key_char_state sc k k' : key_state k' = key_state k -> key_char sc k' = key_char sc k.
Proof. intros [= E1 E2 E3]. unfold key_char. by rewrite E1, E2. Qed.

Lemma typed_state sc k k' : key_state k' = key_state k -> typed sc k' = typed sc k.
Proof. intros E. unfold typed. rewrite (key_char_state sc k k' E). by injection E as _ _ ->. Qed.

Lemma put_char_state c k : key_state (put_char c k).2 = key_state k.
Proof. unfold put_char. by destruct (_ =? _). Qed.

Lemma put_seq_state seq : forall k, key_state (put_seq seq k) = key_state k.
Proof.
  induction seq as [|c seq IH]; intros k; cbn [put_seq]; [done|].
  pose proof (put_char_state c k) as H. destruct (put_char c k) as [[] k'']; cbn in H; [|done]. by rewrite IH.
Qed.

Lemma handler_state sc k k' :
  key_state k' = key_state k -> key_state (keyboard_handler sc k') = key_state (keyboard_handler sc k).
Proof.
  intros E. unfold keyboard_handler. rewrite (key_char_state sc k k' E). pose proof E as [= E1 E2 E3]. rewrite E2, E3.
  repeat case_match; rewrite ?put_char_state, ?put_seq_state; unfold key_state, set_shift, set_caps, set_e0 in *; cbn; congruence.
Qed.

Lemma queue_run_state ops : forall q k k', key_state k' = key_state k -> queue_run ops q k' = queue_run ops q k.
Proof.
  induction ops as [|[sc|] ops IH]; intros q k k' E; cbn [queue_run]; [done| |].
  - rewrite (typed_state sc k k' E). by apply IH, handler_state.
  - destruct q as [|c q]; [by apply IH|]. by rewrite (IH q k k' E).
Qed.

Lemma kbd_refines ops : forall k,
  kbd_wf k -> (kbd_run ops k).1 = (queue_run ops (waiting k) k).1 /\ waiting (kbd_run ops k).2 = (queue_run ops (waiting k) k).2.
Proof.
  induction ops as [|[sc|] ops IH]; intros k Hw; cbn [kbd_run queue_run]; [done| |].
  - destruct (keyboard_handler_queue sc k Hw) as [Hw' <-]. by apply IH.
  - destruct (waiting k) as [|c l] eqn:E.
    + assert (keyboard_data_ready k = false) as ->; [|rewrite <- E; by apply IH].
      pose proof (waiting_length k) as H. rewrite E in H. cbn in H. pose proof Hw as [_ Hh Ht].
      unfold keyboard_data_ready. rewrite negb_false_iff, Z.eqb_eq. ring_tac.
    + assert (keyboard_data_ready k = true) as ->.
      { pose proof (waiting_length k) as H. rewrite E in H. cbn in H. pose proof Hw as [_ Hh Ht].
        unfold keyboard_data_ready. rewrite negb_true_iff, Z.eqb_neq. ring_tac. }
      destruct (keyboard_getc_queue 0 (fun _ => None) k c l Hw E) as (k' & -> & Hw' & Hq & Hs).
      destruct (IH k' Hw') as [H1 H2]. rewrite Hq, (queue_run_state ops l k k') in H1, H2 by (unfold key_state; naive_solver congruence).
      destruct (kbd_run ops k') as [l1 k1], (queue_run ops l k) as [l2 q2]. cbn in *. by rewrite H1.
Qed.

(** C37. The keyboard driver is a queue.  Whatever the order of interrupts and reads, the
    readers get the typed characters in order, none twice and none changed; a character
    or the rest of an escape sequence is dropped exactly when 127 characters wait. *)
Theorem keyboard_fifo ops k :
  kbd_wf k ->
  (kbd_run ops k).1 = (queue_run ops (waiting k) k).1 /\
  waiting (kbd_run ops k).2 = (queue_run ops (waiting k) k).2 /\
  (length (waiting (kbd_run ops k).2) <= 127)%nat.
Proof.
  intros Hw. destruct (kbd_refines ops k Hw) as [H1 H2]. split_and!; auto.
  rewrite waiting_length. pose proof (waiting_count_lt (kbd_run ops k).2). lia.
Qed.

Lemma keyboard0_wf : kbd_wf keyboard0.
Proof. split; done. Qed.

(** Shift, a letter, the up arrow. *)
Definition demo_keys : list kbd_op :=
  [Press 0x2A; Press 0x1E; Get; Press 0xAA; Press 0xE0; Press 0x48; Get; Get; Press 0x1E; Get; Get].

Lemma keyboard_fifo_witness :
  (kbd_run demo_keys keyboard0).1 = [65; 27; 91; 65; 97] /\
  (kbd_run demo_keys keyboard0).1 = (queue_run demo_keys (waiting keyboard0) keyboard0).1.
Proof. split; [by vm_compute|]. exact (proj1 (keyboard_fifo demo_keys keyboard0 keyboard0_wf)). Defined.

(** The end of a shifted extended key, 0xE0 0xAA, leaves the prefix flag set: the next
    key is taken for an extended one and lost. *)
Example prefix_kept : (kbd_run [Press 0xE0; Press 0xAA; Press 0x1E; Get; Press 0x1E; Get] keyboard0).1 = [97].
Proof. by vm_compute. Qed.
