(* ===== verification/Syscall.v ===== *)
(** * System calls: kernel/core/syscall.c

    The handlers of the system call table over the components they call.  The state [sys]
    is that of the whole kernel: processes, heap and page tables ([kern] of Sched.v),
    mounts, nodes, disks and partitions ([world] of Partition.v), the sockets of Unix.v and
    Tcp.v, the keyboard, the terminal settings, and what was sent to the console and to
    the ports.  There is one heap, the one of [kern]: the components that have a heap of
    their own work on a copy which [with_vfs], [with_world] and [with_tcp] bring in and
    take back.

    User memory is reached through the page tables of the current process; [None] is a
    page fault in the kernel, a wild pointer, or a wait that [fuel] does not cover. *)

From S2P Require Import Prelude Bytes KMalloc Mem CString Pmm Paging Elf Unix Net Tcp Sched Vfs Disk Partition Keyboard.

Definition MAX_FDS : Z := 32.
Definition O_APPEND : Z := 0x400.
Definition F_GETFL : Z := 3.
Definition F_SETFL : Z := 4.
Definition FD_TYPE_TCP : Z := 2.
Definition ICANON : Z := 2.
Definition TCGETS : Z := 0x5401.
Definition TCSETS : Z := 0x5402.
Definition TCSETSW : Z := 0x5403.
Definition TCSETSF : Z := 0x5404.
Definition TIOCGWINSZ : Z := 0x5413.
Definition POLLIN : Z := 1.
Definition POLLOUT : Z := 4.

(** What the console driver is told. *)
Inductive console_op := PutChar (c : Z) | Clear | SetColor (fg bg : Z).

(** [termios] are the 36 bytes of [global_termios], [ports] the writes to I/O ports:
    size, port and value. *)
Record sys (H : Type) := Sys {
  kn : kern;
  wd : world H;
  usocks : list unix_socket;
  usock_id : Z;
  tcps : tcp;
  kbd : keyboard;
  termios : list Z;
  console : list console_op;
  ports : list (Z * Z * Z) }.

Arguments Sys {H}.
Arguments kn {H}.
Arguments wd {H}.
Arguments usocks {H}.
Arguments usock_id {H}.
Arguments tcps {H}.
Arguments kbd {H}.
Arguments termios {H}.
Arguments console {H}.
Arguments ports {H}.

Definition set_kn {H} (v : kern) (r : sys H) : sys H :=
  Sys v (wd r) (usocks r) (usock_id r) (tcps r) (kbd r) (termios r) (console r) (ports r).
Definition set_wd {H} (v : world H) (r : sys H) : sys H :=
  Sys (kn r) v (usocks r) (usock_id r) (tcps r) (kbd r) (termios r) (console r) (ports r).
Definition set_usocks {H} (v : list unix_socket) (n : Z) (r : sys H) : sys H :=
  Sys (kn r) (wd r) v n (tcps r) (kbd r) (termios r) (console r) (ports r).
Definition set_tcps {H} (v : tcp) (r : sys H) : sys H :=
  Sys (kn r) (wd r) (usocks r) (usock_id r) v (kbd r) (termios r) (console r) (ports r).
Definition set_kbd {H} (v : keyboard) (r : sys H) : sys H :=
  Sys (kn r) (wd r) (usocks r) (usock_id r) (tcps r) v (termios r) (console r) (ports r).
Definition set_termios {H} (v : list Z) (r : sys H) : sys H :=
  Sys (kn r) (wd r) (usocks r) (usock_id r) (tcps r) (kbd r) v (console r) (ports r).
Definition print {H} (l : list console_op) (r : sys H) : sys H :=
  Sys (kn r) (wd r) (usocks r) (usock_id r) (tcps r) (kbd r) (termios r) (console r ++ l) (ports r).
Definition out_port {H} (size port val : Z) (r : sys H) : sys H :=
  Sys (kn r) (wd r) (usocks r) (usock_id r) (tcps r) (kbd r) (termios r) (console r) (ports r ++ [(size, port, val)]).

(** The terminal settings at the start: [ICANON | ECHO | ISIG]. *)
Definition termios0 : list Z := replicate 12 0 ++ [11; 0; 0; 0] ++ replicate 20 0.
Definition c_lflag (t : list Z) : Z := default 0 (get32 t 12).

(** ** User memory *)

Definition is_user_pointer (ptr : Z) : bool := (0x40000000 <=? u64 ptr) && (u64 ptr <? 0x4000000000).

(** Loads through the page tables of [pml4]. *)
Fixpoint vread (pml4 va : Z) (n : nat) (m : mem) : option (list Z) :=
  match n with
  | O => Some []
  | S n => pa ← translate m pml4 va; l ← vread pml4 (u64 (va + 1)) n m; Some (rd8 m pa :: l)
  end.

(** The characters up to the zero, at most [n]. *)
Fixpoint vread_str (pml4 va : Z) (n : nat) (m : mem) : option str :=
  match n with
  | O => Some []
  | S n =>
      pa ← translate m pml4 va;
      if rd8 m pa =? 0 then Some [] else l ← vread_str pml4 (u64 (va + 1)) n m; Some (rd8 m pa :: l)
  end.

Section Memory.
Context {H : Type}.
Implicit Types st : sys H.

Definition current_of st : option nat := current (sc (kn st)).
Definition proc_of st (c : nat) : process := prc (kn st) c.
Definition on_proc (c : nat) (f : process -> process) st : sys H := set_kn (mod_proc c f (kn st)) st.
Definition mem_of st : mem := kram (kn st).

(** The copies switch to the page tables of the process; [Some None] is the result -1. *)
Definition copy_from_user (src size : Z) st : option (option (list Z)) :=
  match current_of st with
  | None => Some None
  | Some c =>
      if negb (is_user_pointer src) then Some None else
      l ← vread (cr3 (proc_of st c)) src (Z.to_nat size) (mem_of st); Some (Some l)
  end.

Definition copy_string_from_user (src max_size : Z) st : option (option str) :=
  match current_of st with
  | None => Some None
  | Some c =>
      if negb (is_user_pointer src) then Some None else
      l ← vread_str (cr3 (proc_of st c)) src (Z.to_nat (max_size - 1)) (mem_of st); Some (Some l)
  end.

Definition copy_to_user (dest : Z) (l : list Z) st : option (bool * sys H) :=
  match current_of st with
  | None => Some (false, st)
  | Some c =>
      if negb (is_user_pointer dest) then Some (false, st) else
      m ← vwrite (cr3 (proc_of st c)) dest l (mem_of st);
      Some (true, set_kn (on_ram (fun _ => m) (kn st)) st)
  end.

(** A result buffer copied to the user: 0, or -1. *)
Definition give (dest : Z) (l : list Z) (r : Z) st : option (Z * sys H) :=
  '(ok, st) ← copy_to_user dest l st; Some (if (ok : bool) then r else -1, st).

(** A string argument read into a buffer; -1 when that fails. *)
Definition with_string (src max : Z) st (k : str -> option (Z * sys H)) : option (Z * sys H) :=
  s ← copy_string_from_user src max st; match s with None => Some (-1, st) | Some s => k s end.

(** [if (!is_user_pointer(a)) return -1;] *)
Definition user_ptr (a : Z) st (k : option (Z * sys H)) : option (Z * sys H) :=
  if is_user_pointer a then k else Some (-1, st).

(** ** The components *)

Definition sys_kmalloc (size : Z) st : option (Z * sys H) :=
  '(p, h) ← kmalloc (u64 size) (hp (kn st)); Some (p, set_kn (set_hp h (kn st)) st).
Definition sys_kfree (p : Z) st : option (sys H) :=
  h ← kfree p (hp (kn st)); Some (set_kn (set_hp h (kn st)) st).

Definition vfs_in st : vstate := set_chroot (sched_get_chroot (sc (kn st))) (set_vheap (hp (kn st)) (vfs (wd st))).
Definition vfs_out (v : vstate) st : sys H := set_wd (set_vfs v (wd st)) (set_kn (set_hp (vheap v) (kn st)) st).

Definition with_vfs {A} (f : vstate -> option (A * vstate)) st : option (A * sys H) :=
  '(a, v) ← f (vfs_in st); Some (a, vfs_out v st).

Definition with_world {A} (f : world H -> option (A * world H)) st : option (A * sys H) :=
  '(a, w) ← f (set_vfs (vfs_in st) (wd st)); Some (a, set_wd w (set_kn (set_hp (vheap (vfs w)) (kn st)) st)).

Definition with_unix {A} (f : ustate -> option (A * ustate)) st : option (A * sys H) :=
  '(a, u) ← f (UState (usocks st) (usock_id st) (sc (kn st)));
  Some (a, set_usocks (Unix.sockets u) (next_socket_id u) (set_kn (set_sc (us u) (kn st)) st)).

Definition with_tcp {A} (f : tcp -> option (A * tcp)) st : option (A * sys H) :=
  '(a, t) ← f (set_tnet (set_nheap (hp (kn st)) (tnet (tcps st))) (tcps st));
  Some (a, set_tcps t (set_kn (set_hp (nheap (tnet t)) (kn st)) st)).

(** ** Descriptors *)

Definition entry st (c : nat) (fd : Z) : fd_entry := nth (Z.to_nat fd) (fds (proc_of st c)) fd_zero.
Definition set_entry (c : nat) (fd : Z) (f : fd_entry -> fd_entry) st : sys H :=
  on_proc c (fun p => set_fds (alter f (Z.to_nat fd) (fds p)) p) st.

Definition set_pos (v : Z) (e : fd_entry) : fd_entry := FdEntry (fd_used e) (fd_type e) (fd_data e) v (fd_flags e).
Definition set_flags (v : Z) (e : fd_entry) : fd_entry := FdEntry (fd_used e) (fd_type e) (fd_data e) (fd_pos e) v.
Definition set_used (v : Z) (e : fd_entry) : fd_entry := FdEntry v (fd_type e) (fd_data e) (fd_pos e) (fd_flags e).

Definition valid_fd (fd : Z) : bool := (0 <=? fd) && (fd <? MAX_FDS).

(** [!p || fd < 0 || fd >= MAX_FDS || !p->fds[fd].used] is the result [None]. *)
Definition used_fd (fd : Z) st : option (nat * fd_entry) :=
  match current_of st with
  | None => None
  | Some c =>
      if negb (valid_fd fd) then None else
      if fd_used (entry st c fd) =? 0 then None else Some (c, entry st c fd)
  end.

(** The first free descriptor from [lo]. *)
Definition first_free (lo n : nat) (l : list fd_entry) : option nat :=
  find (fun i => fd_used (nth i l fd_zero) =? 0) (seq lo n).

End Memory.
(** ** Packed structures *)

(** [v] in [n] bytes, little endian. *)
Definition bytes_of (n : nat) (v : Z) : list Z := le_bytes n v.

(** [struct linux_stat]: 144 bytes. *)
Definition linux_stat (nlink mode size blksize blocks : Z) : list Z :=
  replicate 16 0 ++ bytes_of 8 nlink ++ bytes_of 4 mode ++ replicate 12 0 ++ replicate 8 0 ++
  bytes_of 8 size ++ bytes_of 8 blksize ++ bytes_of 8 blocks ++ replicate 72 0.

(** The octal constants 0040000, 0100000 and 0020000. *)
Definition S_IFDIR : Z := 0x4000.
Definition S_IFREG : Z := 0x8000.
Definition S_IFCHR : Z := 0x2000.

Definition file_stat (size mode : Z) (dir : bool) : list Z :=
  linux_stat 1 (Z.lor mode (if dir then S_IFDIR else S_IFREG)) size 4096 (u64 (size + 511) / 512).
Definition device_stat : list Z := linux_stat 1 S_IFCHR 0 0 0.

(** A string in an array of [n] bytes. *)
Definition in_array (n : nat) (s : str) : list Z := take n (s ++ replicate n 0).

Definition partition_bytes (p : partition_t) : list Z :=
  [b2z (p_present p); u8 (p_disk_num p); u8 (p_num p)] ++ bytes_of 8 (p_start p) ++ bytes_of 8 (p_end p) ++
  bytes_of 8 (p_size p) ++ bytes_of 4 (p_type p) ++ in_array 32 (p_name p).

Definition disk_info_bytes (d : disk_info_t) : list Z :=
  [b2z (d_present d); u8 (d_disk_num d)] ++ in_array 41 (d_model d) ++ bytes_of 8 (d_total d) ++
  bytes_of 4 (d_sector_size d) ++ [u8 (d_count d)] ++ concat (partition_bytes <$> d_parts d) ++ [b2z (d_is_gpt d)].
Definition sizeof_disk_info : Z := 1065.

(** The value of [pstate] in memory. *)
Definition state_code (s : pstate) : Z :=
  match s with
  | PROC_UNUSED => 0 | PROC_READY => 1 | PROC_RUNNING => 2 | PROC_SLEEPING => 3 | PROC_BLOCKED => 4 | PROC_ZOMBIE => 5
  end.

(** An unsigned 64-bit value or an [unsigned int] as the result of a handler. *)
Definition ret64 (x : Z) : Z := i64 x.

(** ["/dev/dri/card0"] and ["ufs"] *)
Definition s_card0 : str := [47; 100; 101; 118; 47; 100; 114; 105; 47; 99; 97; 114; 100; 48].
Definition s_ufs : str := [117; 102; 115].

Definition page_up (x : Z) : Z := Z.land (u64 (x + 4095)) (mask64 12).
Definition page_down (x : Z) : Z := Z.land (u64 x) (mask64 12).

(** ** The path of [normalize_path] *)

(** The components of a path: what is between slashes. *)
Fixpoint components (fuel : nat) (p : str) : list str :=
  match fuel with
  | O => []
  | S fuel =>
      match skip_slashes p with
      | [] => []
      | p => let '(c, rest) := until_slash p in c :: components fuel rest
      end
  end.

(** [parts] after a component; there is room for 64. *)
Definition push_part (parts : list str) (c : str) : list str :=
  if str_eqb c dotdot then take (length parts - 1) parts
  else if str_eqb c dot then parts
  else if (length parts <? 64)%nat then parts ++ [take 255 c] else parts.

(** The loop that writes the parts, up to the first that does not fit. *)
Fixpoint join_parts (out_size : Z) (pos : Z) (parts : list str) : str :=
  match parts with
  | [] => []
  | p :: parts =>
      if out_size - 1 <=? pos + 1 + Z.of_nat (length p) then []
      else slash :: p ++ join_parts out_size (pos + 1 + Z.of_nat (length p)) parts
  end.

(** The text written to [output] when both buffers could be allocated. *)
Definition normal_form (input : str) (out_size : Z) : str :=
  let tmp := cut 1024 input in
  let parts := foldl push_part [] (components (S (length tmp)) tmp) in
  match parts with [] => root_path | _ => join_parts out_size 0 parts end.

Section Calls.
Context {H : Type} `{Ata H}.
Implicit Types st : sys H.

(** The file systems other than ramfs; the time stamp counter; where an [int] in the
    kernel stores its frame; what the rest of the system does while the process does not
    run; the rounds of the waiting loops and of the scan of a disk. *)
Variable other : str -> fs_ops.
Variables tsc_now frame : Z.
Variable resume : sys H -> option (sys H).
Variable fuel : nat.

(** What uninitialised variables on the kernel stack hold. *)
Variable stack_junk : list Z.

(** The address of [sockets] in unix.c, and what happens to sockets and processes while
    a socket call blocks. *)
Variable sockets_addr : Z.
Variable unix_run : ustate -> option ustate.

(** The network: the cards, waiting, and the addresses of the TCP sockets; [sscanf] of a
    host name. *)
Variables e1000_present rtl8139_present : bool.
Variable net_wait : net -> net.
Variable tcp_sleep : tcp -> tcp.
Variable sock_addr : nat -> Z.
Variable quad_of : str -> option Z.

(** The graphics driver: the frame buffer, its mapping, its requests (result and the
    buffer after the call) and the window size; port input. *)
Variables fb_phys fb_size : Z.
Variable drm_mmap_fb : Z -> Z -> Z.
Variable drm_ioctl : Z -> list Z -> Z * list Z.
Variable winsize : list Z.
Variable port_in : Z -> Z -> Z.

Definition now st : Z := get_ticks tsc_now (sc (kn st)).

(** [sched_sleep] and [sched_yield], until the process runs again. *)
Definition do_sleep (ms : Z) st : option (sys H) :=
  '(_, s) ← sched_sleep ms frame (sc (kn st)); resume (set_kn (set_sc s (kn st)) st).
Definition do_yield st : option (sys H) :=
  '(_, s) ← sched_yield frame (sc (kn st)); resume (set_kn (set_sc s (kn st)) st).

(** ** Reading and writing *)

(** The loop of [sys_write] to the console; [false] is [return -1]. *)
Fixpoint print_chunks (n : nat) (buf offset left : Z) st : option (bool * sys H) :=
  if left <=? 0 then Some (true, st) else
  match n with
  | O => None
  | S n =>
      let chunk := if left <? 255 then left else 255 in
      l ← copy_from_user (buf + offset) chunk st;
      match l with
      | None => Some (false, st)
      | Some l => print_chunks n buf (offset + chunk) (left - chunk) (print (PutChar <$> l) st)
      end
  end.

Definition sys_write (fd buf count : Z) st : option (Z * sys H) :=
  match used_fd fd st with
  | None => Some (-1, st)
  | Some (c, e) =>
      user_ptr buf st (
      if ((fd =? 1) || (fd =? 2)) && (fd_data e =? 0) then
        '(ok, st) ← print_chunks (Z.to_nat count) buf 0 count st;
        Some (if (ok : bool) then count else -1, st)
      else if negb (fd_type e =? 0) || (fd_data e =? 0) then Some (-1, st) else
      '(tmp_buf, st) ← sys_kmalloc count st;
      if tmp_buf =? 0 then Some (-1, st) else
      data ← copy_from_user buf (u64 count) st;
      match data with
      | None => st ← sys_kfree tmp_buf st; Some (-1, st)
      | Some data =>
          n ← node (vfs (wd st)) (fd_data e);
          let st := if nz (Z.land (fd_flags e) O_APPEND) then set_entry c fd (set_pos (n_size n)) st else st in
          '(res, st) ← with_vfs (vfs_write other (fd_data e) data (fd_pos (entry st c fd))) st;
          let st := if 0 <? res then set_entry c fd (fun e => set_pos (u64 (fd_pos e + res)) e) st else st in
          st ← sys_kfree tmp_buf st;
          Some (res, st)
      end)
  end.

(** One character of the keyboard into user memory. *)
Definition read_key (dest : Z) st : option (bool * sys H) :=
  '(c, k) ← keyboard_getc 0 (fun _ => None) (kbd st);
  copy_to_user dest [u8 c] (set_kbd k st).

(** Raw mode. *)
Fixpoint read_raw (n : nat) (buf count read_count : Z) st : option (Z * sys H) :=
  if count <=? read_count then Some (read_count, st) else
  match n with
  | O => None
  | S n =>
      if negb (keyboard_data_ready (kbd st)) then
        if 0 <? read_count then Some (read_count, st)
        else st ← do_sleep 1 st; read_raw n buf count read_count st
      else
        '(ok, st) ← read_key (u64 (buf + read_count)) st;
        if negb ok then Some (-1, st) else read_raw n buf count (read_count + 1) st
  end.

(** Canonical mode: wait for a character, then take what is there. *)
Fixpoint wait_key (n : nat) st : option (sys H) :=
  if keyboard_data_ready (kbd st) then Some st else
  match n with O => None | S n => st ← do_sleep 1 st; wait_key n st end.

Fixpoint read_keys (n : nat) (buf count read_count : Z) st : option (Z * sys H) :=
  if (count <=? read_count) || negb (keyboard_data_ready (kbd st)) then Some (read_count, st) else
  match n with
  | O => None
  | S n =>
      '(ok, st) ← read_key (u64 (buf + read_count)) st;
      if negb ok then Some (-1, st) else read_keys n buf count (read_count + 1) st
  end.

Definition sys_read (fd buf count : Z) st : option (Z * sys H) :=
  match used_fd fd st with
  | None => Some (-1, st)
  | Some (c, e) =>
      user_ptr buf st (
      if (fd =? 0) && (fd_data e =? 0) then
        if negb (nz (Z.land (c_lflag (termios st)) ICANON)) then read_raw fuel buf count 0 st
        else st ← wait_key fuel st; read_keys 128 buf count 0 st
      else if negb (fd_type e =? 0) || (fd_data e =? 0) then Some (-1, st) else
      '(tmp_buf, st) ← sys_kmalloc count st;
      if tmp_buf =? 0 then Some (-1, st) else
      '(r, st) ← with_vfs (fun v => '(res, l, v) ← vfs_read other (fd_data e) (u64 count) (fd_pos e) v; Some ((res, l), v)) st;
      let '(res, l) := r in
      '(ok, st) ← (if 0 <? res then
                     '(ok, st) ← copy_to_user buf l st;
                     Some (ok, if (ok : bool) then set_entry c fd (fun e => set_pos (u64 (fd_pos e + res)) e) st else st)
                   else Some (true, st));
      st ← sys_kfree tmp_buf st;
      Some (if (ok : bool) then res else -1, st))
  end.

Definition sys_open (path flags mode : Z) st : option (Z * sys H) :=
  match current_of st with
  | None => Some (-1, st)
  | Some c =>
      with_string path 255 st (fun path_buf =>
      match first_free 3 29 (fds (proc_of st c)) with
      | None => Some (-1, st)
      | Some fd =>
          let fd := Z.of_nat fd in
          if str_eqb (take 14 path_buf) s_card0 then
            Some (fd, set_entry c fd (fun e => FdEntry 1 1 (fd_data e) (fd_pos e) (fd_flags e)) st)
          else
          '(a, st) ← with_vfs (vfs_open other path_buf (i32 flags) (i32 mode)) st;
          if a =? 0 then Some (-1, st) else
          n ← node (vfs (wd st)) a;
          let pos := if nz (Z.land flags O_APPEND) then n_size n else 0 in
          Some (fd, set_entry c fd (fun _ => FdEntry 1 0 a pos (i32 flags)) st)
      end)
  end.

Definition sys_close (fd : Z) st : option (Z * sys H) :=
  match used_fd fd st with
  | None => Some (-1, st)
  | Some (c, e) =>
      '(_, st) ←
        (if (fd_type e =? 0) && negb (fd_data e =? 0) then with_vfs (vfs_close (fd_data e)) st
         else if fd_type e =? FD_TYPE_UNIX then with_unix (unix_close sockets_addr fd) st
         else Some (0, st));
      Some (0, set_entry c fd (fun _ => fd_zero) st)
  end.

Definition sys_lseek (fd offset whence : Z) st : option (Z * sys H) :=
  match used_fd fd st with
  | None => Some (-1, st)
  | Some (c, e) =>
      if negb (fd_type e =? 0) || (fd_data e =? 0) then Some (-1, st) else
      n ← node (vfs (wd st)) (fd_data e);
      let seek pos := Some (ret64 pos, set_entry c fd (set_pos pos) st) in
      match whence with
      | 0 => seek (u64 offset)
      | 1 => seek (u64 (fd_pos e + offset))
      | 2 => seek (u64 (n_size n + offset))
      | _ => Some (-1, st)
      end
  end.

Definition sys_dup (oldfd : Z) st : option (Z * sys H) :=
  match used_fd oldfd st with
  | None => Some (-1, st)
  | Some (c, e) =>
      match first_free 0 32 (fds (proc_of st c)) with
      | None => Some (-1, st)
      | Some newfd => Some (Z.of_nat newfd, set_entry c (Z.of_nat newfd) (fun _ => e) st)
      end
  end.

Definition sys_dup2 (oldfd newfd : Z) st : option (Z * sys H) :=
  match used_fd oldfd st with
  | None => Some (-1, st)
  | Some (c, e) =>
      if negb (valid_fd newfd) then Some (-1, st) else
      if oldfd =? newfd then Some (newfd, st) else
      Some (newfd, set_entry c newfd (fun _ => set_used 1 e) st)
  end.

Definition sys_fcntl (fd cmd arg : Z) st : option (Z * sys H) :=
  match used_fd fd st with
  | None => Some (-1, st)
  | Some (c, e) =>
      if cmd =? F_GETFL then Some (fd_flags e, st)
      else if cmd =? F_SETFL then Some (0, set_entry c fd (set_flags (i32 arg)) st)
      else Some (-1, st)
  end.

(** [vfs_stat] of a node as bytes. *)
Definition stat_bytes (a : Z) st : option (list Z * sys H) :=
  with_vfs (fun v => '(_, r, v) ← vfs_stat other a v; let '(size, mode, dir) := r in Some (file_stat size mode dir, v)) st.

Definition sys_stat (path statbuf : Z) st : option (Z * sys H) :=
  user_ptr path st (user_ptr statbuf st (
  with_string path 255 st (fun path_buf =>
  '(a, st) ← with_vfs (vfs_resolve_path other path_buf) st;
  if a =? 0 then Some (-1, st) else
  '(l, st) ← stat_bytes a st;
  give statbuf l 0 st))).

Definition sys_fstat (fd statbuf : Z) st : option (Z * sys H) :=
  match used_fd fd st with
  | None => Some (-1, st)
  | Some (c, e) =>
      user_ptr statbuf st (
      if fd_type e =? 0 then
        if fd_data e =? 0 then Some (-1, st) else
        '(l, st) ← stat_bytes (fd_data e) st; give statbuf l 0 st
      else give statbuf device_stat 0 st)
  end.

(** ** Paths *)

(** A handler whose only work is a call of vfs.c with one path. *)
Definition path_call (f : str -> vstate -> option (Z * vstate)) (path : Z) st : option (Z * sys H) :=
  with_string path 255 st (fun p => with_vfs (f p) st).

Definition sys_mkdir (path mode : Z) st := user_ptr path st (path_call (fun p => vfs_mkdir other p (u32 mode)) path st).
Definition sys_rmdir (path : Z) st := user_ptr path st (path_call (vfs_rmdir other) path st).
Definition sys_unlink (path : Z) st := path_call (vfs_unlink other) path st.

Definition sys_rename (old new : Z) st : option (Z * sys H) :=
  user_ptr old st (user_ptr new st (
  with_string old 255 st (fun old_buf => path_call (fun new_buf => vfs_rename other old_buf new_buf) new st))).

Definition sys_symlink (target linkpath : Z) st : option (Z * sys H) :=
  with_string target 255 st (fun t_buf => path_call (fun l_buf => vfs_symlink other t_buf l_buf) linkpath st).

(** The copy is as long as the target; [size] is not used. *)
Definition sys_readlink (path buf size : Z) st : option (Z * sys H) :=
  with_string path 255 st (fun p_buf =>
  '(r, st) ← with_vfs (fun v => '(r, t, v) ← vfs_readlink other p_buf 256 v; Some ((r, t), v)) st;
  let '(res, k_buf) := r in
  if res <? 0 then Some (-1, st) else
  give buf (take (Z.to_nat (res + 1)) (k_buf ++ 0 :: stack_junk)) res st).

Definition fs_set_current_dir (path : str) st : sys H :=
  match path with [] => st | _ => set_wd (set_vfs (set_cwd (take 255 path) (vfs (wd st))) (wd st)) st end.
Definition fs_get_current_dir st : str := cwd (vfs (wd st)).

(** The buffers come from the heap; without them the result is the root. *)
Definition normalize_path (input : str) (out_size : Z) st : option (str * sys H) :=
  '(tmp, st) ← sys_kmalloc 1024 st;
  '(parts, st) ← sys_kmalloc (64 * 256) st;
  if (tmp =? 0) || (parts =? 0) then
    st ← (if tmp =? 0 then Some st else sys_kfree tmp st);
    st ← (if parts =? 0 then Some st else sys_kfree parts st);
    Some (root_path, st)
  else
    st ← sys_kfree parts st;
    st ← sys_kfree tmp st;
    Some (normal_form input out_size, st).

Definition absolute_path (path : str) st : str := cut 256 (vfs_absolute_path path (vfs_in st)).

(** Is the process in a chroot? *)
Definition chrooted (p : process) : bool :=
  match chroot_path p with [] => false | c => negb (str_eqb c root_path) end.

Definition sys_chroot (path : Z) st : option (Z * sys H) :=
  user_ptr path st (with_string path 255 st (fun path_buf =>
  let resolved := absolute_path path_buf st in
  c ← current_of st;
  let p := proc_of st c in
  let real_path :=
    if chrooted p && (char_at 0 resolved =? slash) then
      if str_eqb resolved root_path then cut 512 (chroot_path p) else cut 512 (chroot_path p ++ resolved)
    else cut 512 resolved in
  '(normalized, st) ← normalize_path real_path 256 st;
  '(dir, st) ← with_vfs (vfs_isdir other normalized) st;
  if dir =? 0 then Some (-1, st) else
  Some (0, fs_set_current_dir root_path (on_proc c (set_chroot_path (take 255 normalized)) st)))).

Definition sys_chdir (path : Z) st : option (Z * sys H) :=
  user_ptr path st (with_string path 255 st (fun path_buf =>
  '(normalized, st) ← normalize_path (absolute_path path_buf st) 256 st;
  '(dir, st) ← with_vfs (vfs_isdir other normalized) st;
  if dir =? 0 then Some (-1, st) else Some (0, fs_set_current_dir normalized st))).

Definition sys_getcwd (buf size : Z) st : option (Z * sys H) :=
  user_ptr buf st (
  let cwd := fs_get_current_dir st in
  let real_cwd :=
    match current_of st with
    | Some c =>
        let p := proc_of st c in
        if chrooted p then
          if prefix_of (chroot_path p) cwd then
            match drop (length (chroot_path p)) cwd with [] => root_path | r => r end
          else root_path
        else cwd
    | None => cwd
    end in
  let len := Z.of_nat (length real_cwd) + 1 in
  if u64 size <? len then Some (-1, st) else give buf (real_cwd ++ [0]) len st).

(** ** Directories *)

(** [sizeof(vfs_dirent_t)] and the fixed part of [struct linux_dirent64]. *)
Definition sizeof_dirent : Z := 272.
Definition sizeof_dirent64 : Z := 19.

Definition dirent_reclen (d : dirent) : Z :=
  u16 (Z.land (sizeof_dirent64 + u16 (Z.of_nat (length (d_name d)) + 1) + 7) (Z.lnot 7)).

(** The record of entry [i] at [at_] in the buffer: what follows the name is what the
    memory holds. *)
Definition dirent_bytes (m : mem) (at_ i : Z) (d : dirent) : list Z :=
  let l := bytes_of 8 (i + 1) ++ bytes_of 8 (i + 1) ++ bytes_of 2 (dirent_reclen d) ++
           [if d_type d =? VFS_DIR then 4 else 8] ++ d_name d ++ [0] in
  l ++ ((fun k => rd8 m (at_ + Z.of_nat k)) <$> seq (length l) (Z.to_nat (dirent_reclen d) - length l)).

(** The loop over the entries from [i]: the bytes, and the next position. *)
Fixpoint fill_dirents (m : mem) (out_buf count : Z) (i pos : Z) (es : list dirent) : list Z * Z :=
  match es with
  | [] => ([], i)
  | d :: es =>
      if u32 count <? pos + dirent_reclen d then ([], i) else
      let '(l, i') := fill_dirents m out_buf count (i + 1) (pos + dirent_reclen d) es in
      (dirent_bytes m (out_buf + pos) i d ++ l, i')
  end.

Definition sys_getdents64 (fd buf_ptr count : Z) st : option (Z * sys H) :=
  match used_fd fd st with
  | None => Some (-1, st)
  | Some (c, e) =>
      if negb (fd_type e =? 0) then Some (-1, st) else
      if negb (is_user_pointer buf_ptr) || (count <=? 0) || (1048576 <? count) then Some (-1, st) else
      if fd_data e =? 0 then Some (-1, st) else
      '(kernel_entries, st) ← sys_kmalloc (256 * sizeof_dirent) st;
      if kernel_entries =? 0 then Some (-1, st) else
      '(r, st) ← with_vfs (fun v => '(r, l, v) ← vfs_readdir other (fd_data e) 256 v; Some ((r, l), v)) st;
      let '(res, es) := r in
      if negb (res =? 0) then st ← sys_kfree kernel_entries st; Some (-1, st) else
      let start := u32 (fd_pos e) in
      if Z.of_nat (length es) <=? start then st ← sys_kfree kernel_entries st; Some (0, st) else
      '(out_buf, st) ← sys_kmalloc count st;
      if out_buf =? 0 then st ← sys_kfree kernel_entries st; Some (-1, st) else
      let '(l, new_pos) := fill_dirents (mem_of st) out_buf count start 0 (drop (Z.to_nat start) es) in
      '(r, st) ← (if Z.of_nat (length l) =? 0 then Some (-1, st) else
                  '(ok, st) ← copy_to_user buf_ptr l st;
                  if negb ok then Some (-1, st) else
                  Some (Z.of_nat (length l), set_entry c fd (set_pos new_pos) st));
      st ← sys_kfree out_buf st;
      st ← sys_kfree kernel_entries st;
      Some (r, st)
  end.

(** ** Memory *)

Definition on_pages {A} (f : phys -> A * phys) st : A * sys H :=
  let '(a, p) := f (ph (pg (kn st))) in (a, set_kn (on_phys (fun _ => p) (kn st)) st).

(** [memset] of the page at [virt], through the page tables of [pml4]. *)
Definition clear_page (pml4 virt : Z) st : option (sys H) :=
  m ← vwrite pml4 virt (replicate 4096 0) (mem_of st); Some (set_kn (on_ram (fun _ => m) (kn st)) st).

Definition user_rwp : Z := Z.lor (Z.lor PAGE_PRESENT PAGE_WRITABLE) PAGE_USER.

(** The loop of [sys_brk] over [n] pages; [false] is [return -1]. *)
Fixpoint brk_pages (pml4 virt : Z) (n : nat) st : option (bool * sys H) :=
  match n with
  | O => Some (true, st)
  | S n =>
      let '(phys, st) := on_pages pmm_alloc_page st in
      if phys =? 0 then Some (false, st) else
      let '(_, st) := on_pages (paging_map_for_process pml4 phys virt user_rwp) st in
      st ← clear_page pml4 virt st;
      brk_pages pml4 (u64 (virt + 4096)) n st
  end.

Definition sys_brk (addr : Z) st : option (Z * sys H) :=
  match current_of st with
  | None => Some (-1, st)
  | Some c =>
      let p := proc_of st c in
      if addr =? 0 then Some (ret64 (heap_end p), st) else
      '(ok, st) ← (if heap_end p <? u64 addr then
                     let old_page := page_up (heap_end p) in
                     brk_pages (cr3 p) old_page (Z.to_nat ((page_up (u64 addr) - old_page) / 4096)) st
                   else Some (true, st));
      if negb ok then Some (-1, st) else Some (addr, on_proc c (set_heap_end (u64 addr)) st)
  end.

(** The frame buffer: the result of a mapping is not looked at. *)
Fixpoint map_frames (pml4 phys virt : Z) (n : nat) st : sys H :=
  match n with
  | O => st
  | S n =>
      let '(_, st) := on_pages (paging_map_for_process pml4 phys virt user_rwp) st in
      map_frames pml4 (u64 (phys + 4096)) (u64 (virt + 4096)) n st
  end.

(** Anonymous pages come from [kmalloc]. *)
Fixpoint mmap_pages (pml4 virt prot : Z) (n : nat) st : option (bool * sys H) :=
  match n with
  | O => Some (true, st)
  | S n =>
      '(phys, st) ← sys_kmalloc 4096 st;
      if phys =? 0 then Some (false, st) else
      let p_flags := Z.lor PAGE_PRESENT PAGE_USER in
      let p_flags := if nz (Z.land prot 2) then Z.lor p_flags PAGE_WRITABLE else p_flags in
      let '(r, st) := on_pages (paging_map_for_process pml4 phys virt p_flags) st in
      if negb (r =? 0) then st ← sys_kfree phys st; Some (false, st) else
      st ← clear_page pml4 virt st;
      mmap_pages pml4 (u64 (virt + 4096)) prot n st
  end.

Definition sys_mmap (addr size prot flags fd offset : Z) st : option (Z * sys H) :=
  match current_of st with
  | None => Some (-1, st)
  | Some c =>
      let p := proc_of st c in
      let pages := u64 (Z.quot (i64 (size + 4095)) 4096) in
      let virt := heap_end p in
      let drm := valid_fd fd && negb (fd_used (entry st c fd) =? 0) && (fd_type (entry st c fd) =? 1) in
      let finish st := Some (ret64 virt, on_proc c (set_heap_end (u64 (virt + pages * 4096))) st) in
      if drm then
        let phys := drm_mmap_fb offset size in
        if phys =? 0 then Some (-1, st) else finish (map_frames (cr3 p) phys virt (Z.to_nat pages) st)
      else
        '(ok, st) ← mmap_pages (cr3 p) virt prot (Z.to_nat pages) st;
        if negb ok then Some (-1, st) else finish st
  end.

Definition sys_munmap (addr size : Z) st : option (Z * sys H) := Some (0, st).

(** ** Processes and time *)

(** [sched_exit] does not return to the caller: the state is the one in which another
    process runs. *)
Definition sys_exit (code : Z) st : option (Z * sys H) :=
  '(_, s) ← sched_exit (i32 code) frame (sc (kn st)); Some (0, set_kn (set_sc s (kn st)) st).

Definition sys_getpid st : option (Z * sys H) := Some (sched_get_pid (sc (kn st)), st).
Definition sys_getppid st : option (Z * sys H) := Some (sched_get_ppid (sc (kn st)), st).
Definition sys_sleep (ms : Z) st : option (Z * sys H) := st ← do_sleep (u32 ms) st; Some (0, st).
Definition sys_yield st : option (Z * sys H) := st ← do_yield st; Some (0, st).
Definition sys_gettime st : option (Z * sys H) := Some (now st, st).

(** The loop of [sched_waitpid] with the whole system as its state; the status is stored
    through the pointer as it is. *)
Fixpoint wait_loop (n : nat) (p status : Z) st : option (Z * sys H) :=
  match n with
  | O => None
  | S n =>
      if negb (sched_initialized (sc (kn st))) then Some (-1, st) else
      match find_slot (fun q => (Sched.pid q =? p) && is_state (Sched.state q) PROC_ZOMBIE) (sc (kn st)) with
      | Some i =>
          let code := exit_code (proc_of st i) in
          m ← (if status =? 0 then Some (mem_of st) else vwrite (cpu_cr3 (sc (kn st))) (u64 status) (bytes_of 4 code) (mem_of st));
          '(_, k) ← reap p (on_ram (fun _ => m) (kn st));
          Some (i32 p, set_kn k st)
      | None => st ← do_yield st; wait_loop n p status st
      end
  end.

Definition sys_waitpid (pid status : Z) st : option (Z * sys H) := wait_loop fuel (u32 pid) status st.

Definition sys_kill (pid : Z) st : option (Z * sys H) :=
  let '(r, s) := sched_kill (i32 pid) (sc (kn st)) in Some (r, set_kn (set_sc s (kn st)) st).

Definition sys_clone (rip rsp : Z) st : option (Z * sys H) :=
  '(r, k) ← sched_clone fb_phys fb_size (u64 rip) (u64 rsp) (kn st); Some (r, set_kn k st).

Definition sys_fork (t : trap_frame) st : option (Z * sys H) :=
  '(r, k) ← sched_fork fb_phys fb_size (Some t) (kn st); Some (r, set_kn k st).

(** [ps_entry_t]: what follows the name in its array is what the stack holds. *)
Definition ps_entry (p : process) : list Z :=
  bytes_of 4 (pid p) ++ bytes_of 4 (ppid p) ++ take 32 (name p ++ 0 :: drop (S (length (name p))) stack_junk) ++
  bytes_of 4 (state_code (state p)).

Fixpoint give_each (dest size : Z) (ls : list (list Z)) st : option (bool * sys H) :=
  match ls with
  | [] => Some (true, st)
  | l :: ls =>
      '(ok, st) ← copy_to_user dest l st;
      if negb ok then Some (false, st) else give_each (u64 (dest + size)) size ls st
  end.

Definition sys_ps (processes max : Z) st : option (Z * sys H) :=
  user_ptr processes st (
  let kernel_procs := sched_get_processes 64 (sc (kn st)) in
  let count := Z.of_nat (length kernel_procs) in
  let to_copy := if count <? max then count else i32 max in
  '(ok, st) ← give_each processes 44 ((fun i => ps_entry (proc_of st i)) <$> take (Z.to_nat to_copy) kernel_procs) st;
  Some (if (ok : bool) then to_copy else -1, st)).

Definition sys_meminfo (total used free : Z) st : option (Z * sys H) :=
  user_ptr total st (user_ptr used st (user_ptr free st (
  let t := u64 (memory_used (hp (kn st)) + memory_free (hp (kn st))) in
  let u := memory_used (hp (kn st)) in
  let f := memory_free (hp (kn st)) in
  '(ok, st) ← copy_to_user total (bytes_of 8 t) st;
  if negb ok then Some (-1, st) else
  '(ok, st) ← copy_to_user used (bytes_of 8 u) st;
  if negb ok then Some (-1, st) else
  give free (bytes_of 8 f) 0 st))).

(** ** Disks *)

(** [vfs_resolve_path] as udisk.c calls it. *)
Definition resolve_in (p : str) (w : world H) : option (Z * world H) :=
  '(a, v) ← vfs_resolve_path other p (vfs w); Some (a, set_vfs v w).

Definition udisk_format_partition (devname fstype : str) (ticks : Z) (w : world H) : option (Z * world H) :=
  '(p, w) ← udisk_get_partition fuel devname ticks w;
  match (p : option Z) with
  | None => Some (-1, w)
  | Some _ => '(r, v) ← vfs_format other fstype devname (vfs w); Some (r, set_vfs v w)
  end.

Definition sys_partition_format (dev fstype : Z) st : option (Z * sys H) :=
  user_ptr dev st (user_ptr fstype st (
  with_string dev 31 st (fun dev_buf => with_string fstype 15 st (fun fs_buf =>
  with_world (udisk_format_partition dev_buf fs_buf (now st)) st)))).

Definition sys_disk_table (dev kind : Z) st : option (Z * sys H) :=
  user_ptr dev st (with_string dev 31 st (fun dev_buf =>
  match parse_devname dev_buf with
  | None => Some (-1, st)
  | Some (disk, part) =>
      if negb (part =? 0) then Some (-1, st) else
      if kind =? 1 then with_world (udisk_create_gpt fuel resolve_in disk (now st)) st
      else with_world (udisk_create_mbr fuel disk (now st)) st
  end)).

Definition sys_partition_create (dev size_mb type : Z) st : option (Z * sys H) :=
  user_ptr dev st (with_string dev 31 st (fun dev_buf =>
  with_world (udisk_create_partition fuel resolve_in dev_buf (u64 size_mb) (u32 type) (now st)) st)).

Definition sys_partition_delete (dev : Z) st : option (Z * sys H) :=
  user_ptr dev st (with_string dev 31 st (fun dev_buf =>
  with_world (udisk_delete_partition fuel resolve_in dev_buf (now st)) st)).

(** The loop over the disks [l]. *)
Fixpoint list_disk_infos (l : list Z) (disks_ptr max count : Z) st : option (Z * sys H) :=
  match l with
  | [] => Some (count, st)
  | i :: l =>
      if max <=? count then Some (count, st) else
      '(d, st) ← with_world (udisk_get_info fuel i (now st)) st;
      match (d : option disk_info_t) with
      | Some d =>
          if d_present d then
            '(ok, st) ← copy_to_user (u64 (disks_ptr + count * sizeof_disk_info)) (disk_info_bytes d) st;
            if negb ok then Some (-1, st) else list_disk_infos l disks_ptr max (count + 1) st
          else list_disk_infos l disks_ptr max count st
      | None => list_disk_infos l disks_ptr max count st
      end
  end.

Definition sys_disk_list (disks_ptr max : Z) st : option (Z * sys H) :=
  user_ptr disks_ptr st (
  '(_, st) ← with_world (fun w => w ← udisk_scan fuel (now st) w; Some (tt, w)) st;
  list_disk_infos [0; 1; 2; 3] disks_ptr max 0 st).

Definition sys_partition_mount (dev point fstype_arg : Z) st : option (Z * sys H) :=
  user_ptr dev st (user_ptr point st (
  with_string dev 31 st (fun dev_buf => with_string point 255 st (fun point_buf =>
  fs ← (if negb (fstype_arg =? 0) && is_user_pointer fstype_arg then copy_string_from_user fstype_arg 31 st else Some None);
  '(r, st) ← with_vfs (vfs_mount_fs other (default s_ufs fs) (Some dev_buf) point_buf) st;
  if negb (r =? 0) then Some (-1, st) else
  Some (0, if str_eqb point_buf root_path then fs_set_current_dir root_path st else st))))).

Definition sys_partition_umount st : option (Z * sys H) := with_vfs (vfs_unmount other root_path) st.

(** ** Sockets *)

Definition pure_unix (f : ustate -> Z * ustate) (u : ustate) : option (Z * ustate) := Some (f u).

Definition sys_socket (domain type protocol : Z) st : option (Z * sys H) :=
  if domain =? 1 then with_unix (pure_unix (unix_socket_create sockets_addr)) st
  else if domain =? 2 then with_tcp tcp_socket st
  else Some (-1, st).

(** The string in [char path[108]]; [None] when it is not terminated. *)
Fixpoint terminated (l : list Z) : option str :=
  match l with [] => None | c :: l => if c =? 0 then Some [] else s ← terminated l; Some (c :: s) end.

(** [struct { u16 fam; char path[108]; }] at [addr]. *)
Definition with_un_path (addr : Z) st (k : str -> option (Z * sys H)) : option (Z * sys H) :=
  un ← copy_from_user addr 110 st;
  match un with None => Some (-1, st) | Some un => p ← terminated (drop 2 un); k p end.

Definition sys_connect (fd addr addrlen : Z) st : option (Z * sys H) :=
  match used_fd fd st with
  | None => Some (-1, st)
  | Some (c, e) =>
      family ← copy_from_user addr 2 st;
      match family with
      | None => Some (-1, st)
      | Some family =>
          if fd_type e =? FD_TYPE_UNIX then
            with_un_path addr st (fun p => with_unix (unix_connect sockets_addr frame unix_run fuel fd p) st)
          else if (fd_type e =? FD_TYPE_TCP) || bool_decide (get16 family 0 = Some 2) then
            a ← copy_from_user addr 8 st;
            match a with
            | None => Some (-1, st)
            | Some a =>
                port ← get16 a 2; ip ← get32 a 4;
                with_tcp (tcp_connect e1000_present rtl8139_present net_wait sock_addr fd ip port) st
            end
          else Some (-1, st)
      end
  end.

Definition sys_bind (fd addr : Z) st : option (Z * sys H) :=
  match used_fd fd st with
  | None => Some (-1, st)
  | Some (c, e) =>
      if negb (fd_type e =? FD_TYPE_UNIX) then Some (-1, st) else
      with_un_path addr st (fun p => with_unix (pure_unix (unix_bind sockets_addr fd p)) st)
  end.

Definition sys_listen (fd backlog : Z) st : option (Z * sys H) :=
  match used_fd fd st with
  | None => Some (-1, st)
  | Some (c, e) =>
      if negb (fd_type e =? FD_TYPE_UNIX) then Some (-1, st) else
      with_unix (pure_unix (unix_listen sockets_addr fd (i32 backlog))) st
  end.

Definition sys_accept (fd : Z) st : option (Z * sys H) :=
  match used_fd fd st with
  | None => Some (-1, st)
  | Some (c, e) =>
      if negb (fd_type e =? FD_TYPE_UNIX) then Some (-1, st) else
      with_unix (unix_accept sockets_addr frame unix_run fuel fd) st
  end.

(** The two branches of [sys_send]: a buffer, the copy, the call, and the buffer freed. *)
Definition send_with (f : list Z -> sys H -> option (Z * sys H)) (buf len : Z) st : option (Z * sys H) :=
  '(data, st) ← sys_kmalloc len st;
  if data =? 0 then Some (-1, st) else
  l ← copy_from_user buf (u64 len) st;
  match l with
  | None => st ← sys_kfree data st; Some (-1, st)
  | Some l => '(res, st) ← f l st; st ← sys_kfree data st; Some (res, st)
  end.

Definition sys_send (fd buf len : Z) st : option (Z * sys H) :=
  match used_fd fd st with
  | None => Some (-1, st)
  | Some (c, e) =>
      user_ptr buf st (
      if fd_type e =? FD_TYPE_UNIX then
        send_with (fun l => with_unix (unix_send sockets_addr frame unix_run fuel fd l)) buf len st
      else if fd_type e =? FD_TYPE_TCP then
        send_with (fun l => with_tcp (tcp_send e1000_present rtl8139_present net_wait tcp_sleep fd l)) buf len st
      else Some (-1, st))
  end.

(** The two branches of [sys_recv]. *)
Definition recv_with (f : sys H -> option ((Z * list Z) * sys H)) (buf len : Z) st : option (Z * sys H) :=
  '(data, st) ← sys_kmalloc len st;
  if data =? 0 then Some (-1, st) else
  '(r, st) ← f st;
  let '(res, l) := r in
  '(ok, st) ← (if 0 <? res then copy_to_user buf l st else Some (true, st));
  st ← sys_kfree data st;
  Some (if (ok : bool) then res else -1, st).

Definition sys_recv (fd buf len : Z) st : option (Z * sys H) :=
  match used_fd fd st with
  | None => Some (-1, st)
  | Some (c, e) =>
      user_ptr buf st (
      if fd_type e =? FD_TYPE_UNIX then
        recv_with (with_unix (fun u => '(r, l, u) ← unix_recv sockets_addr frame unix_run fuel fd (i32 len) u; Some ((r, l), u))) buf len st
      else if fd_type e =? FD_TYPE_TCP then
        recv_with (with_tcp (fun t => '(r, l, t) ← tcp_recv e1000_present rtl8139_present net_wait tcp_sleep fd (i32 len) t; Some ((r, l), t))) buf len st
      else Some (-1, st))
  end.

Definition sys_gethostbyname (name ip : Z) st : option (Z * sys H) :=
  user_ptr name st (user_ptr ip st (with_string name 255 st (fun name_buf =>
  '(ip_addr, st) ← with_tcp (fun t =>
     '(a, n) ← dns_lookup e1000_present rtl8139_present net_wait name_buf (quad_of name_buf) (net_get_dns (tnet t)) stack_junk (tnet t);
     Some (a, set_tnet n t)) st;
  if ip_addr =? 0 then Some (-1, st) else give ip (bytes_of 4 ip_addr) 0 st))).

Definition sys_getip st : option (Z * sys H) := Some (net_get_ip (tnet (tcps st)), st).

(** ** Devices *)

Definition sys_ioctl (fd request arg : Z) st : option (Z * sys H) :=
  match used_fd fd st with
  | None => Some (-1, st)
  | Some (c, e) =>
      if (fd =? 0) || (fd =? 1) || (fd =? 2) then
        if request =? TCGETS then user_ptr arg st (give arg (termios st) 0 st)
        else if (request =? TCSETS) || (request =? TCSETSW) || (request =? TCSETSF) then
          user_ptr arg st (
          l ← copy_from_user arg 36 st;
          match l with None => Some (-1, st) | Some l => Some (0, set_termios l st) end)
        else if request =? TIOCGWINSZ then user_ptr arg st (give arg winsize 0 st)
        else Some (0, st)
      else if fd_type e =? 1 then
        let size := Z.land (Z.shiftr request 16) 0x3FFF in
        if (0 <? size) && negb (arg =? 0) then
          '(kdata, st) ← sys_kmalloc size st;
          l ← copy_from_user arg size st;
          match l with
          | None => st ← sys_kfree kdata st; Some (-1, st)
          | Some l =>
              if kdata =? 0 then None else
              let '(ret, l) := drm_ioctl (u64 request) l in
              '(_, st) ← (if 0 <=? ret then copy_to_user arg l st else Some (true, st));
              st ← sys_kfree kdata st; Some (ret, st)
          end
        else Some ((drm_ioctl (u64 request) []).1, st)
      else Some (-1, st)
  end.

Definition sys_clear st : option (Z * sys H) := Some (0, print [Clear] st).
Definition sys_setcolor (fg bg : Z) st : option (Z * sys H) := Some (0, print [SetColor (u8 fg) (u8 bg)] st).

(** [struct sys_pollfd]: descriptor, events, result. *)
Definition pollfd_at (l : list Z) (i : Z) : option (Z * Z * Z) :=
  fd ← get32 l (8 * i); ev ← get16 l (8 * i + 4); re ← get16 l (8 * i + 6); Some (i32 fd, ev, re).
Definition pollfd_bytes (p : Z * Z * Z) : list Z := bytes_of 4 p.1.1 ++ bytes_of 2 p.1.2 ++ bytes_of 2 p.2.

(** One entry: the new result bits, and how many times it counts as ready. *)
Definition poll_one (ready : bool) (p : Z * Z * Z) : (Z * Z * Z) * Z :=
  let '(fd, ev, re) := p in
  if (fd =? 0) && nz (Z.land ev POLLIN) && ready then ((fd, ev, Z.lor re POLLIN), 1)
  else if ((fd =? 1) || (fd =? 2)) && nz (Z.land ev POLLOUT) then ((fd, ev, Z.lor re POLLOUT), 1)
  else (p, 0).
Definition poll_all (ready : bool) (l : list (Z * Z * Z)) : list (Z * Z * Z) * Z :=
  (fst <$> (poll_one ready <$> l), foldr (fun p n => p.2 + n) 0 (poll_one ready <$> l)).

Definition sys_poll (fds nfds timeout : Z) st : option (Z * sys H) :=
  user_ptr fds st (
  let nfds := if 32 <? nfds then 32 else nfds in
  if nfds <? 0 then Some (-1, st) else
  l ← copy_from_user fds (nfds * 8) st;
  match l with
  | None => Some (-1, st)
  | Some l =>
      kfds ← mapM (fun i => pollfd_at l (Z.of_nat i)) (seq 0 (Z.to_nat nfds));
      let '(kfds, ready) := poll_all (keyboard_data_ready (kbd st)) ((fun p => (p.1, 0)) <$> kfds) in
      '(r, st) ← (if (ready =? 0) && negb (timeout =? 0) then
                    st ← do_sleep (if 10 <? timeout then 10 else if 0 <? timeout then timeout else 1) st;
                    Some (poll_all (keyboard_data_ready (kbd st)) kfds, st)
                  else Some ((kfds, ready), st));
      let '(kfds, ready) := (r : list (Z * Z * Z) * Z) in
      give fds (concat (pollfd_bytes <$> kfds)) ready st
  end).

Definition sys_fs_register st : option (Z * sys H) := Some (0, st).

(** [pci_read_config]: the address of a register of the configuration space, and its value. *)
Definition pci_address (bus slot func offset : Z) : Z :=
  Z.lor (Z.lor (Z.lor (Z.lor 0x80000000 (Z.shiftl (u8 bus) 16)) (Z.shiftl (u8 slot) 11)) (Z.shiftl (u8 func) 8)) (Z.land (u8 offset) 0xFC).
Definition pci_read_config (bus slot func offset : Z) : Z := u32 (port_in 4 (u32 (pci_address bus slot func offset))).

(** The pages of a device; [false] is [return -1]. *)
Fixpoint map_device (pml4 phys virt : Z) (n : nat) st : bool * sys H :=
  match n with
  | O => (true, st)
  | S n =>
      let '(r, st) := on_pages (paging_map_for_process pml4 phys virt user_rwp) st in
      if negb (r =? 0) then (false, st) else map_device pml4 (u64 (phys + 4096)) (u64 (virt + 4096)) n st
  end.

Definition sys_pci_map (bus slot func bar : Z) st : option (Z * sys H) :=
  if Z.land (pci_read_config bus slot func 0) 0xFFFF =? 0xFFFF then Some (-1, st) else
  let bar_reg := u32 (0x10 + bar * 4) in
  let bar_val := pci_read_config bus slot func bar_reg in
  if nz (Z.land bar_val 1) then Some (-1, st) else
  let phys := Z.land bar_val 0xFFFFFFF0 in
  let size_reg := pci_read_config bus slot func (bar_reg + 4) in
  let size := u32 (u32 (Z.lnot (Z.land size_reg 0xFFFFFFF0)) + 1) in
  let size := if size <? 4096 then 4096 else size in
  match current_of st with
  | None => Some (-1, st)
  | Some c =>
      let p := proc_of st c in
      let virt := heap_end p in
      let '(ok, st) := map_device (cr3 p) phys virt (Z.to_nat ((size + 4095) / 4096)) st in
      if negb ok then Some (-1, st) else Some (ret64 virt, on_proc c (set_heap_end (u64 (virt + size))) st)
  end.

Fixpoint unmap_pages (pml4 virt : Z) (n : nat) st : sys H :=
  match n with
  | O => st
  | S n => unmap_pages pml4 (u64 (virt + 4096)) n (on_pages (paging_unmap_for_process pml4 virt) st).2
  end.

Definition sys_pci_unmap (addr size : Z) st : option (Z * sys H) :=
  match current_of st with
  | None => Some (-1, st)
  | Some c =>
      let start_page := page_down addr in
      let end_page := page_down (u64 (addr + size + 4095)) in
      Some (0, unmap_pages (cr3 (proc_of st c)) start_page (Z.to_nat ((end_page - start_page) / 4096)) st)
  end.

Definition sys_irq_register (irq : Z) st : option (Z * sys H) :=
  match current_of st with
  | None => Some (-1, st)
  | Some c =>
      if (irq <? 0) || (15 <? irq) then Some (-1, st) else
      Some (0, on_proc c (fun p => set_irq_mask (Z.lor (irq_mask p) (irq_bit irq)) p) st)
  end.

Fixpoint irq_loop (n : nat) (c : nat) (irq : Z) st : option (sys H) :=
  if nz (Z.land (irq_pending (proc_of st c)) (irq_bit irq)) then Some st else
  match n with O => None | S n => st ← do_yield st; irq_loop n c irq st end.

Definition sys_irq_wait (irq : Z) st : option (Z * sys H) :=
  match current_of st with
  | None => Some (-1, st)
  | Some c =>
      if (irq <? 0) || (15 <? irq) then Some (-1, st) else
      st ← irq_loop fuel c irq st;
      Some (0, on_proc c (fun p => set_irq_pending (Z.land (irq_pending p) (Z.lnot (irq_bit irq))) p) st)
  end.

Definition sys_ioport_in (port size : Z) st : option (Z * sys H) :=
  let p := u16 port in
  if size =? 1 then Some (u8 (port_in 1 p), st)
  else if size =? 2 then Some (u16 (port_in 2 p), st)
  else if size =? 4 then Some (u32 (port_in 4 p), st)
  else Some (-1, st).

Definition sys_ioport_out (port val size : Z) st : option (Z * sys H) :=
  let p := u16 port in
  Some (0, if size =? 1 then out_port 1 p (u8 val) st
           else if size =? 2 then out_port 2 p (u16 val) st
           else if size =? 4 then out_port 4 p (u32 val) st else st).

(** The model-specific registers that [syscall_init] writes, in order; the address of
    [syscall_entry] and the old value of EFER are arguments. *)
Definition MSR_STAR : Z := 0xC0000081.
Definition MSR_LSTAR : Z := 0xC0000082.
Definition MSR_SFMASK : Z := 0xC0000084.
Definition syscall_msrs (syscall_entry efer : Z) : list (Z * Z) :=
  [(MSR_LSTAR, syscall_entry); (MSR_STAR, Z.lor (Z.shiftl 0x18 48) (Z.shiftl 0x08 32)); (MSR_SFMASK, 0x200);
   (0xC0000102, 0); (0xC0000080, Z.lor efer 1)].

(** ** The table *)

(** [sys_exec] of Exec.v; it changes the frame. *)
Variable sys_exec : trap_frame -> Z -> Z -> Z -> sys H -> option (Z * trap_frame * sys H).

(** A handler has the frame and the six arguments. *)
Definition handler : Type := trap_frame -> Z -> Z -> Z -> Z -> Z -> Z -> sys H -> option (Z * trap_frame * sys H).

Definition keep (t : trap_frame) (r : option (Z * sys H)) : option (Z * trap_frame * sys H) := '(v, st) ← r; Some (v, t, st).

Definition h0 (f : sys H -> option (Z * sys H)) : handler := fun t _ _ _ _ _ _ st => keep t (f st).
Definition h1 (f : Z -> sys H -> option (Z * sys H)) : handler := fun t a _ _ _ _ _ st => keep t (f a st).
Definition h2 (f : Z -> Z -> sys H -> option (Z * sys H)) : handler := fun t a b _ _ _ _ st => keep t (f a b st).
Definition h3 (f : Z -> Z -> Z -> sys H -> option (Z * sys H)) : handler := fun t a b c _ _ _ st => keep t (f a b c st).
Definition h4 (f : Z -> Z -> Z -> Z -> sys H -> option (Z * sys H)) : handler := fun t a b c d _ _ st => keep t (f a b c d st).
Definition h6 (f : Z -> Z -> Z -> Z -> Z -> Z -> sys H -> option (Z * sys H)) : handler := fun t a b c d e g st => keep t (f a b c d e g st).

(** [syscall_init]: the assignments, in order. *)
Definition syscall_table : list (Z * handler) :=
  [(0, h3 sys_read); (1, h3 sys_write); (2, h3 sys_open); (3, h1 sys_close); (4, h2 sys_stat); (5, h2 sys_fstat);
   (7, h3 sys_poll); (8, h3 sys_lseek); (9, h6 sys_mmap); (11, h2 sys_munmap); (12, h1 sys_brk); (16, h3 sys_ioctl);
   (21, h2 sys_stat); (32, h1 sys_dup); (33, h2 sys_dup2); (39, h0 sys_getpid); (110, h0 sys_getppid);
   (41, h3 sys_socket); (42, h3 sys_connect); (43, h1 sys_accept); (44, h3 sys_send); (45, h3 sys_recv);
   (49, h2 sys_bind); (50, h2 sys_listen); (56, h2 sys_clone); (57, fun t _ _ _ _ _ _ st => keep t (sys_fork t st));
   (59, fun t a b c _ _ _ st => sys_exec t a b c st); (60, h1 sys_exit); (231, h1 sys_exit); (61, h2 sys_waitpid);
   (62, h1 sys_kill); (66, h1 sys_chroot); (72, h3 sys_fcntl); (79, h2 sys_getcwd); (80, h1 sys_chdir);
   (82, h2 sys_rename); (83, h2 sys_mkdir); (84, h1 sys_rmdir); (87, h1 sys_unlink); (88, h2 sys_symlink);
   (89, h3 sys_readlink); (102, h0 sys_getpid); (104, h0 sys_getpid); (107, h0 sys_getpid); (108, h0 sys_getpid);
   (186, h0 sys_getpid); (217, h3 sys_getdents64); (228, h0 sys_gettime); (24, h0 sys_yield);
   (300, h2 sys_disk_list); (301, h3 sys_partition_mount); (302, h0 sys_partition_umount);
   (303, h2 sys_partition_format); (304, h2 sys_disk_table); (305, h3 sys_partition_create);
   (306, h1 sys_partition_delete); (307, h2 sys_gethostbyname); (308, h2 sys_ps); (309, h0 sys_gettime);
   (310, h0 sys_clear); (311, h2 sys_setcolor); (312, h3 sys_meminfo); (313, h0 sys_fs_register);
   (314, h4 sys_pci_map); (315, h2 sys_pci_unmap); (316, h1 sys_irq_register); (317, h1 sys_irq_wait);
   (318, h2 sys_ioport_in); (319, h3 sys_ioport_out); (320, h1 sys_sleep)].

Definition find_handler (num : Z) : option handler :=
  snd <$> find (fun e => e.1 =? num) syscall_table.

Definition set_rax (v : Z) (t : trap_frame) : trap_frame :=
  TrapFrame v (t_rdi t) (t_rsi t) (t_rdx t) (t_r10 t) (t_r8 t) (t_r9 t) (t_r15 t) (t_r14 t) (t_r13 t) (t_r12 t)
    (t_rbx t) (t_rbp t) (t_rcx t) (t_r11 t) (t_user_rsp t).

(** The arguments are the registers as [long]. *)
Definition syscall_handler_c (t : trap_frame) (num : Z) st : option (Z * trap_frame * sys H) :=
  match (if (num <? 0) || (512 <=? num) then None else find_handler num) with
  | None => Some (-1, set_rax (u64 (-1)) t, st)
  | Some f =>
      '(ret, t, st) ← f t (i64 (t_rdi t)) (i64 (t_rsi t)) (i64 (t_rdx t)) (i64 (t_r10 t)) (i64 (t_r8 t)) (i64 (t_r9 t)) st;
      Some (ret, set_rax (u64 ret) t, st)
  end.

End Calls.
