(* ===== verification/Exec.v ===== *)
(** * Programs: [sys_exec] and [resolve_applet] of kernel/core/syscall.c

    Replacing the program of the current process.  The file is read through vfs.c, or
    taken from the boot modules; its bytes are then in the kernel's memory, where
    [elf_load] reads them.  The old address space is freed at the end. *)

From S2P Require Import Prelude Bytes KMalloc Mem Pmm Paging Elf ElfSpec Sched Vfs Disk Partition Boot Syscall.

(** ** Applets *)

(** A word of a line of [/bin/applets]: up to a blank (of the binary also up to a
    carriage return). *)
Fixpoint word (stop : Z -> bool) (s : str) : str * str :=
  match s with
  | c :: s' => if stop c then ([], s) else let '(w, r) := word stop s' in (c :: w, r)
  | [] => ([], [])
  end.

(** A line and what follows its newline. *)
Definition line (s : str) : str * str := let '(l, r) := word (Z.eqb 10) s in (l, drop 1 r).

(** The command and the binary of a line; [None] when it lacks one. *)
Definition applet_of (l : str) : option (str * str) :=
  match skip_blanks l with
  | [] => None
  | l =>
      let '(cmd, r) := word is_blank l in
      match skip_blanks r with
      | [] => None
      | r => Some (cmd, (word (fun c => is_blank c || (c =? 13) || (c =? 10)) r).1)
      end
  end.

(** ["/bin/"] *)
Definition s_bin : str := [47; 98; 105; 110; 47].

Definition applet_path (bin : str) : str := if existsb (Z.eqb slash) bin then bin else s_bin ++ bin.

(** The loop over the lines. *)
Fixpoint find_applet (n : nat) (cmd s : str) : option str :=
  match n with
  | O => None
  | S n =>
      match s with
      | [] => None
      | _ =>
          let '(l, rest) := line s in
          match applet_of l with
          | Some (c, bin) =>
              if str_eqb c cmd && (0 <? Z.of_nat (length bin)) && (Z.of_nat (length bin) <? 200)
              then Some (applet_path bin) else find_applet n cmd rest
          | None => find_applet n cmd rest
          end
      end
  end.

(** ["/bin/applets"] *)
Definition s_applets : str := [47; 98; 105; 110; 47; 97; 112; 112; 108; 101; 116; 115].

(** ** The stack of the new program *)

Definition align16 (x : Z) : Z := Z.land (u64 x) (mask64 4).

(** The strings, from the top of the stack down: their addresses, the stack pointer. *)
Fixpoint push_strings (pml4 rsp : Z) (argv : list str) (m : mem) : option (list Z * Z * mem) :=
  match argv with
  | [] => Some ([], rsp, m)
  | s :: argv =>
      let rsp := align16 (rsp - (Z.of_nat (length s) + 1)) in
      m ← vwrite pml4 rsp (s ++ [0]) m;
      '(ptrs, rsp', m) ← push_strings pml4 rsp argv m;
      Some (rsp :: ptrs, rsp', m)
  end.

Definition random_bytes : list Z :=
  [0x12; 0x34; 0x56; 0x78; 0x9A; 0xBC; 0xDE; 0xF0; 0x11; 0x22; 0x33; 0x44; 0x55; 0x66; 0x77; 0x88].

Definition auxv (at_random_ptr entry : Z) : list Z := [6; 4096; 25; at_random_ptr; 9; entry; 0; 0].

(** The stack pointer and the memory: [argc], the pointers, two null words and the
    auxiliary vector at the stack pointer. *)
Definition push_stack (pml4 entry : Z) (argv : list str) (m : mem) : option (Z * mem) :=
  let argc := Z.of_nat (length argv) in
  '(ptrs, rsp, m) ← push_strings pml4 (align16 user_stack_top) argv m;
  let rsp := align16 (rsp - 16) in
  m ← vwrite pml4 rsp random_bytes m;
  let at_random_ptr := rsp in
  let args_area := (argc + 3) * 8 + 64 in
  let rsp := align16 (rsp - args_area) in
  m ← vwrite_words pml4 rsp ([argc] ++ ptrs ++ [0; 0] ++ auxv at_random_ptr entry) m;
  Some (rsp, m).

(** The registers with which the process returns to user mode. *)
Definition exec_frame (entry rsp argc : Z) (t : trap_frame) : trap_frame :=
  TrapFrame 0 argc (u64 (rsp + 8)) (u64 (rsp + 8 + (argc + 1) * 8)) 0 0 0 0 0 0 0 (t_rbx t) 0 entry 0x202 rsp.

(** ** The path *)

(** The directory of a path, for a link that is relative. *)
Definition link_dir (p : str) : str :=
  match strrchr_slash p with
  | Some ([], _) => root_path
  | Some (d, _) => d
  | None => root_path
  end.

Definition follow_link (resolved target : str) : str :=
  match target with
  | c :: _ =>
      if c =? slash then take 255 target else
      let dir := link_dir resolved in
      take 255 (if str_eqb dir root_path then slash :: target else dir ++ slash :: target)
  | [] =>
      let dir := link_dir resolved in
      take 255 (if str_eqb dir root_path then [slash] else dir ++ [slash])
  end.

Section Exec.
Context {H : Type} `{Ata H}.
Implicit Types st : sys H.

Variable other : str -> fs_ops.
Variables fb_phys fb_size : Z.
(** Where the boot information is, and the bound of its loops. *)
Variable multiboot_info_ptr : Z.
Variable fuel : nat.

(** The path of the binary of a command, or -1. *)
Definition resolve_applet (cmd : str) st : option (Z * str * sys H) :=
  '(r, st) ← with_vfs (fun v => '(r, d, v) ← vfs_read_entire other s_applets v; Some ((r, d), v)) st;
  let '(r, (data, bytes, size)) := r in
  if negb (r =? 0) then Some (-1, [], st) else
  let text := take (Z.to_nat size) bytes in
  st ← sys_kfree data st;
  match find_applet (length text) cmd text with Some p => Some (0, p, st) | None => Some (-1, [], st) end.

(** The arguments: at most [n], up to the first that cannot be read. *)
Fixpoint read_argv (n : nat) (argv_ptr i : Z) st : option (list str) :=
  match n with
  | O => Some []
  | S n =>
      w ← copy_from_user (u64 (argv_ptr + i * 8)) 8 st;
      match (w : option (list Z)) with
      | None => Some []
      | Some w =>
          lo ← get32 w 0; hi ← get32 w 4;
          let str_ptr := lo + hi * 2 ^ 32 in
          if (str_ptr =? 0) || negb (is_user_pointer str_ptr) then Some [] else
          s ← copy_string_from_user str_ptr 255 st;
          match s with
          | None => Some []
          | Some s => l ← read_argv n argv_ptr (i + 1) st; Some (s :: l)
          end
      end
  end.

Definition exec_argv (argv_ptr : Z) (path : str) st : option (list str) :=
  argv ← (if negb (argv_ptr =? 0) && is_user_pointer argv_ptr then read_argv 63 argv_ptr 0 st else Some []);
  Some (match argv with [] => [take 255 (base_name path)] | _ => argv end).

(** The loop over symbolic links: at most eight are followed. *)
Fixpoint follow_links (n : nat) (resolved : str) st : option (str * sys H) :=
  match n with
  | O => Some (resolved, st)
  | S n =>
      '(r, st) ← with_vfs (fun v => '(r, t, v) ← vfs_readlink other resolved 255 v; Some ((r, t), v)) st;
      let '(res, target) := r in
      if res <=? 0 then Some (resolved, st) else follow_links n (follow_link resolved target) st
  end.

(** The bytes of the program in memory: their address and number, 0 when there is none. *)
Definition load_file (path : str) st : option (Z * Z * sys H) :=
  '(r, st) ← with_vfs (fun v => '(r, d, v) ← vfs_read_entire other path v; Some ((r, d), v)) st;
  let '(r, (data, bytes, size)) := r in
  if r =? 0 then Some (data, size, set_kn (on_ram (fun m => put_bytes m data bytes) (kn st)) st)
  else
    '(d, k) ← get_module_data multiboot_info_ptr fuel (base_name path) (kn st);
    let st := set_kn k st in
    match (d : option (Z * Z)) with Some (data, size) => Some (data, size, st) | None => Some (0, 0, st) end.

(** The new address space with the program and its stack: the page table, the entry
    point and the end of the program; 0 for the table when the call fails. *)
Definition exec_space (data size : Z) st : Z * Z * Z * sys H :=
  let '(pml4, pgs) := create_address_space fb_phys fb_size (pg (kn st)) in
  let st := set_kn (set_pg pgs (kn st)) st in
  if pml4 =? 0 then (0, 0, 0, st) else
  let '(entry, max_vaddr, p) := elf_load data size pml4 0 (ph (pg (kn st))) in
  let put p := set_kn (on_phys (fun _ => p) (kn st)) st in
  if entry =? 0 then (0, 0, 0, put (free_address_space pml4 p)) else
  match map_stack pml4 0 64 p with
  | (false, p) => (0, 0, 0, put p)
  | (true, p) => (pml4, entry, max_vaddr, put (map_guard pml4 p))
  end.

Definition set_cr3_reg (v : Z) st : sys H := set_kn (on_sched (set_cpu_cr3 v) (kn st)) st.

(** Freeing the two buffers. *)
Definition free_two (a b : Z) st : option (sys H) := st ← sys_kfree a st; sys_kfree b st.

Definition sys_exec (t : trap_frame) (path argv_ptr envp_ptr : Z) st : option (Z * trap_frame * sys H) :=
  let fail st := Some (-1, t, st) in
  match current_of st with
  | None => fail st
  | Some c =>
      if negb (is_user_pointer path) then fail st else
      path_buf ← copy_string_from_user path 255 st;
      match path_buf with
      | None => fail st
      | Some path_buf =>
          '(argv_buf, st) ← sys_kmalloc (64 * 256) st;
          if argv_buf =? 0 then fail st else
          argv ← exec_argv argv_ptr path_buf st;
          '(resolved, st) ← follow_links 8 (take 255 path_buf) st;
          '(elf_data, elf_size, st) ← load_file resolved st;
          if elf_data =? 0 then st ← sys_kfree argv_buf st; fail st else
          let '(new_pml4, entry, max_vaddr, st) := exec_space elf_data elf_size st in
          if new_pml4 =? 0 then st ← free_two elf_data argv_buf st; fail st else
          let old_cr3 := cpu_cr3 (sc (kn st)) in
          let st := set_cr3_reg new_pml4 st in
          '(rsp, m) ← push_stack new_pml4 entry argv (mem_of st);
          let st := set_kn (on_ram (fun _ => m) (kn st)) st in
          let heap := page_up max_vaddr in
          let st := on_proc c (fun p => set_heap_end heap (set_heap_start heap
                      (set_user_rsp rsp (set_user_rip entry (set_cr3 new_pml4 p))))) st in
          let st := if negb (old_cr3 =? new_pml4) && negb (old_cr3 =? 0) && negb (old_cr3 =? 0x1000)
                    then set_kn (on_phys (free_address_space old_cr3) (kn st)) st else st in
          st ← free_two elf_data argv_buf st;
          Some (0, exec_frame entry rsp (Z.of_nat (length argv)) t, st)
      end
  end.

End Exec.
