(* ===== verification/ExecSpec.v ===== *)
(** * The stack of a new program

    What a program started by [sys_exec] finds: user memory as a function of virtual
    addresses ([vbyte]), the stores of the kernel to it, the pages of the stack, and the
    words and strings of [push_stack] in them. *)

From S2P Require Import Prelude Bytes Mem Pmm Paging Elf ElfSpec Sched Vfs Boot Syscall Exec.

(** ** User memory as a function *)

Definition vbyte (root : Z) (m : mem) (w : Z) : Z := match translate m root w with Some pa => rd8 m pa | None => 0 end.

(** The addresses from [lo] to [hi] are mapped, each to a data byte of its own. *)
Record region (st : phys) (root lo hi : Z) : Prop := {
  rg_bytes : forall w, lo <= w < hi -> exists pa, translate (ram st) root w = Some pa /\ data_byte st root pa;
  rg_inj : forall w w' pa, lo <= w < hi -> lo <= w' < hi ->
    translate (ram st) root w = Some pa -> translate (ram st) root w' = Some pa -> w = w' }.

Lemma vread_region st root lo hi n : forall va,
  region st root lo hi -> lo <= va -> va + Z.of_nat n <= hi -> 0 <= va -> hi <= 2 ^ 48 ->
  vread root va n (ram st) = Some ((fun i => vbyte root (ram st) (va + Z.of_nat i)) <$> seq 0 n).
Proof.
  induction n as [|n IH]; intros va Hr Hlo Hhi H0 H48; [done|]. cbn [vread].
  destruct (rg_bytes _ _ _ _ Hr va) as (pa & E & _); [lia|]. rewrite E. cbn [mbind option_bind].
  rewrite u64_small by lia. rewrite IH by (done || lia). cbn [mbind option_bind]. f_equal. cbn [seq fmap list_fmap]. f_equal.
  - unfold vbyte. replace (va + Z.of_nat 0) with va by lia. by rewrite E.
  - rewrite <- fmap_S_seq, <- list_fmap_compose. apply list_fmap_ext. intros i x _. cbn. f_equal. lia.
Qed.

(** The bytes [l] are at [va]. *)
Definition at_bytes (root : Z) (m : mem) (va : Z) (l : list Z) : Prop :=
  forall i b, l !! i = Some b -> vbyte root m (va + Z.of_nat i) = b.

Lemma vread_at st root lo hi va l :
  region st root lo hi -> lo <= va -> va + Z.of_nat (length l) <= hi -> 0 <= va -> hi <= 2 ^ 48 ->
  at_bytes root (ram st) va l -> vread root va (length l) (ram st) = Some l.
Proof.
  intros Hr Hlo Hhi H0 H48 Ha. rewrite (vread_region st root lo hi) by done. f_equal.
  apply list_eq. intros i. rewrite list_lookup_fmap. destruct (decide (i < length l)%nat) as [Hi|Hi].
  - rewrite lookup_seq_lt by done. cbn. destruct (lookup_lt_is_Some_2 l i Hi) as [b E]. rewrite E. f_equal. by apply Ha.
  - rewrite lookup_ge_None_2 by (rewrite length_seq; lia). by rewrite lookup_ge_None_2 by lia.
Qed.

(** A store that keeps the address space and changes what is in the region only. *)
Record stored (st : phys) (root lo hi : Z) (m : mem) : Prop := {
  sd_inv : as_inv (set_ram m st) root;
  sd_grows : grows st (set_ram m st);
  sd_region : region (set_ram m st) root lo hi;
  sd_translate : forall w, translate m root w = translate (ram st) root w;
  sd_data : forall x, data_byte st root x -> data_byte (set_ram m st) root x;
  sd_frame : forall x, (forall w, lo <= w < hi -> translate (ram st) root w <> Some x) -> rd8 m x = rd8 (ram st) x }.

Lemma stored_refl st root lo hi : as_inv st root -> region st root lo hi -> stored st root lo hi (ram st).
Proof. intros Ha Hr. pose proof (grows_refl st (as_pmm _ _ Ha)). by destruct st; split. Qed.

Lemma stored_compose st root lo hi m1 m2 :
  stored st root lo hi m1 -> stored (set_ram m1 st) root lo hi m2 -> stored st root lo hi m2.
Proof.
  intros [I1 G1 R1 T1 D1 F1] [I2 G2 R2 T2 D2 F2]. split; [done|exact (grows_trans _ _ _ G1 G2)|done| | |].
  - intros w. by rewrite T2, T1.
  - intros x Hx. by apply D2, D1.
  - intros x Hx. rewrite F2 by (intros w Hw; cbn [ram set_ram]; rewrite T1; by apply Hx). by apply F1.
Qed.

Lemma store_byte st root lo hi va b :
  as_inv st root -> region st root lo hi -> lo <= va < hi ->
  exists m, vwr8 root va b (ram st) = Some m /\ stored st root lo hi m /\
    forall w, lo <= w < hi -> vbyte root m w = if w =? va then u8 b else vbyte root (ram st) w.
Proof.
  intros Ha Hr Hva. destruct (rg_bytes _ _ _ _ Hr va Hva) as (pa & E & Hd). unfold vwr8. rewrite E. cbn [mbind option_bind].
  eexists. split; [done|]. destruct (fill_data st root (wr8 (ram st) pa b) Ha) as (Ha' & Hg & Ht & Hdt).
  { intros x Hx. rewrite rd8_wr8. destruct (Z.eqb_spec pa x) as [->|]; [contradiction|reflexivity]. }
  split; [split; [done|done| |done|done|]|].
  - split.
    + intros w Hw. destruct (rg_bytes _ _ _ _ Hr w Hw) as (pw & Ew & Hdw). exists pw. cbn [ram set_ram]. rewrite Ht. split; [done|by apply Hdt].
    + intros w w' p Hw Hw'. cbn [ram set_ram]. rewrite !Ht. by apply (rg_inj _ _ _ _ Hr).
  - intros x Hx. rewrite rd8_wr8. destruct (Z.eqb_spec pa x) as [->|]; [|done]. by destruct (Hx va Hva).
  - intros w Hw. unfold vbyte. rewrite Ht. destruct (rg_bytes _ _ _ _ Hr w Hw) as (pw & Ew & _). rewrite Ew, rd8_wr8.
    destruct (Z.eqb_spec w va) as [->|Hne].
    + assert (pw = pa) as -> by congruence. by rewrite Z.eqb_refl.
    + rewrite (proj2 (Z.eqb_neq _ _)); [done|]. intros ->. apply Hne. by apply (rg_inj _ _ _ _ Hr w va pw).
Qed.

(** A store of bytes into the region succeeds; it puts them at [va] and changes no other
    address of the region. *)
Lemma vwrite_spec root lo hi l : forall st va,
  as_inv st root -> region st root lo hi -> lo <= va -> va + Z.of_nat (length l) <= hi -> 0 <= va -> hi <= 2 ^ 48 ->
  exists m, vwrite root va l (ram st) = Some m /\ stored st root lo hi m /\
    (byte_list l -> at_bytes root m va l) /\
    forall w, lo <= w < hi -> ~ va <= w < va + Z.of_nat (length l) -> vbyte root m w = vbyte root (ram st) w.
Proof.
  induction l as [|b l IH]; intros st va Ha Hr Hlo Hhi H0 H48; cbn [vwrite].
  { eexists. split; [done|]. split; [by apply stored_refl|]. split; [done|done]. }
  cbn [length] in Hhi. destruct (store_byte st root lo hi va b Ha Hr) as (m1 & -> & S1 & V1); [lia|].
  cbn [mbind option_bind]. rewrite u64_small by lia.
  destruct (IH (set_ram m1 st) (va + 1)) as (m2 & E2 & S2 & A2 & V2); try lia; [apply S1|apply S1|]. cbn [ram set_ram] in E2, V2. rewrite E2.
  exists m2. split; [done|]. split; [by eapply stored_compose|]. split.
  - intros Hb. apply Forall_cons in Hb as [Hb Hbl]. intros [|i] c Hi; cbn in Hi.
    + injection Hi as <-. replace (va + Z.of_nat 0) with va by lia. rewrite V2, V1 by lia. by rewrite Z.eqb_refl, u8_small.
    + rewrite <- (A2 Hbl i c Hi). f_equal. lia.
  - intros w Hw Hout. cbn [length] in Hout. rewrite V2, V1 by lia. by rewrite (proj2 (Z.eqb_neq _ _)) by lia.
Qed.

(** Words are bytes. *)
Definition word_bytes (ws : list Z) : list Z := concat (le_bytes 8 <$> ws).

Lemma le_bytes_length n v : length (le_bytes n v) = n.
Proof. unfold le_bytes. by rewrite length_fmap, length_seq. Qed.

Lemma word_bytes_length ws : length (word_bytes ws) = (8 * length ws)%nat.
Proof.
  unfold word_bytes. induction ws as [|w ws IH]; [done|]. cbn [fmap list_fmap concat length].
  rewrite length_app, le_bytes_length, IH. lia.
Qed.

Lemma le_bytes_list n v : byte_list (le_bytes n v).
Proof.
  apply Forall_forall. intros b Hb. apply list_elem_of_fmap in Hb as (i & -> & _).
  change 255 with (Z.ones 8). rewrite Z.land_ones by lia. apply Z.mod_pos_bound. lia.
Qed.

Lemma word_bytes_list ws : byte_list (word_bytes ws).
Proof.
  unfold word_bytes. induction ws as [|w ws IH]; [constructor|]. cbn [fmap list_fmap concat].
  apply Forall_app. split; [apply le_bytes_list|done].
Qed.

Lemma vwrite_app root l1 : forall l2 va m,
  0 <= va -> va + Z.of_nat (length l1) < 2 ^ 64 ->
  vwrite root va (l1 ++ l2) m = m ← vwrite root va l1 m; vwrite root (va + Z.of_nat (length l1)) l2 m.
Proof.
  induction l1 as [|b l1 IH]; intros l2 va m H0 H64; cbn [app vwrite length]; [by rewrite Z.add_0_r|].
  destruct (vwr8 root va b m) as [m'|]; [|done]. cbn [length] in H64. cbn [mbind option_bind]. rewrite u64_small by lia.
  rewrite IH by lia. by replace (va + 1 + Z.of_nat (length l1)) with (va + Z.of_nat (S (length l1))) by lia.
Qed.

Lemma vwrite_words_bytes root ws : forall va m,
  0 <= va -> va + 8 * Z.of_nat (length ws) < 2 ^ 64 -> vwrite_words root va ws m = vwrite root va (word_bytes ws) m.
Proof.
  induction ws as [|w ws IH]; intros va m H0 H64; [done|]. cbn [length] in H64.
  change (word_bytes (w :: ws)) with (le_bytes 8 w ++ word_bytes ws).
  rewrite vwrite_app by (rewrite ?le_bytes_length; lia). cbn [vwrite_words]. rewrite le_bytes_length.
  destruct (vwrite root va (le_bytes 8 w) m) as [m'|]; [|done]. cbn [mbind option_bind].
  rewrite u64_small by lia. by apply IH; lia.
Qed.

(** ** The pages of the stack *)

Lemma table_of_aligned p : 0 <= p < 2 ^ 64 -> p mod 4096 = 0 -> table_of p = p.
Proof. intros Hp Ha. unfold table_of. rewrite land_mask64 by lia. change (2 ^ 12) with 4096. lia. Qed.

(** The bytes of the region are not data bytes of an earlier state. *)
Definition fresh_in (st0 st : phys) (root lo hi : Z) : Prop :=
  forall w pa, lo <= w < hi -> translate (ram st) root w = Some pa -> ~ data_byte st0 root pa.

(** Allocating a page and mapping it at the end of a region. *)
Lemma map_page_region st root lo virt flags p st1 st2 :
  as_inv st root -> region st root lo virt -> 0 <= lo <= virt -> virt mod 4096 = 0 -> virt + 4096 <= 2 ^ 48 ->
  0 <= flags < 4096 -> present flags = true -> huge flags = false ->
  pmm_alloc_page st = (p, st1) -> p <> 0 -> paging_map_for_process root p virt flags st1 = (0, st2) ->
  as_inv st2 root /\ region st2 root lo (virt + 4096) /\ grows st st2 /\ data_kept st st2 root /\
  (forall w, 0 <= w < 2 ^ 48 -> translate (ram st2) root w =
     if (virt <=? w) && (w <? virt + 4096) then Some (p + (w - virt)) else translate (ram st) root w) /\
  forall x, data_byte st root x -> ~ p <= x < p + 4096.
Proof.
  intros Ha Hr Hlo Hal H48 F1 F2 F3 Ea Hp Em.
  destruct (pmm_alloc_cases st p st1 (as_pmm _ _ Ha) Ea) as [(-> & _)|(idx & -> & _ & Hpa)]; [done|].
  set (p := page_addr st idx) in *.
  destruct (alloc_data st idx st1 root Ha Hpa) as (Ha1 & G1 & D1 & T1 & P1). fold p in P1.
  destruct (page_addr_aligned st idx (as_pmm _ _ Ha) (pa_page _ _ _ Hpa)) as (Hpal & Hpos & Hp64). fold p in Hpal, Hpos, Hp64.
  destruct (paging_map_small st1 root p virt flags 0 st2 Ha1 ltac:(lia) F1 F2 F3 Em) as (Ha2 & G2 & D2 & [[? _]|[_ T2]]); [done|].
  assert (Dk : data_kept st st2 root) by (by eapply data_kept_trans).
  assert (Htr : forall w, 0 <= w < 2 ^ 48 -> translate (ram st2) root w =
    if (virt <=? w) && (w <? virt + 4096) then Some (p + (w - virt)) else translate (ram st) root w).
  { intros w Hw. rewrite T2, T1, same_page_range, table_of_aligned by lia.
    destruct (Z.leb_spec virt w), (Z.ltb_spec w (virt + 4096)); cbn [andb]; try done. do 2 f_equal. change (2 ^ 12) with 4096. dlia. }
  assert (Hfree : forall x, data_byte st root x -> ~ p <= x < p + 4096).
  { intros x Hx Hin. pose proof (db_used _ _ _ Hx idx (pa_page _ _ _ Hpa) Hin) as Hu. by rewrite (pa_free _ _ _ Hpa) in Hu. }
  assert (Hold : forall w q, lo <= w < virt -> translate (ram st) root w = Some q -> ~ p <= q < p + 4096).
  { intros w q Hw E. destruct (rg_bytes _ _ _ _ Hr w Hw) as (pw & Ew & Hd). assert (pw = q) as -> by congruence. by apply Hfree. }
  split; [done|]. split; [|split; [exact (grows_trans _ _ _ G1 G2)|by split_and!]]. split.
  - intros w Hw. rewrite Htr by lia. rewrite (proj2 (Z.ltb_lt w _)), andb_true_r by lia. destruct (Z.leb_spec virt w).
    + eexists. split; [done|]. apply D2, P1. lia.
    + destruct (rg_bytes _ _ _ _ Hr w) as (pw & Ew & Hd); [lia|]. exists pw. split; [done|]. by apply Dk.
  - intros w w' q Hw Hw'. rewrite !Htr by lia. rewrite !(proj2 (Z.ltb_lt _ (virt + 4096))), !andb_true_r by lia.
    destruct (Z.leb_spec virt w), (Z.leb_spec virt w'); intros E E'.
    + injection E as E. injection E' as E'. lia.
    + exfalso. injection E as E. apply (Hold w' q); [lia|done|lia].
    + exfalso. injection E' as E'. apply (Hold w q); [lia|done|lia].
    + apply (rg_inj _ _ _ _ Hr w w' q); auto; lia.
Qed.

Lemma map_page st0 st root lo virt flags p st1 st2 :
  data_kept st0 st root -> fresh_in st0 st root lo virt -> as_inv st root -> region st root lo virt -> 0 <= lo <= virt -> virt mod 4096 = 0 -> virt + 4096 <= 2 ^ 48 ->
  0 <= flags < 4096 -> present flags = true -> huge flags = false ->
  pmm_alloc_page st = (p, st1) -> p <> 0 -> paging_map_for_process root p virt flags st1 = (0, st2) ->
  as_inv st2 root /\ region st2 root lo (virt + 4096) /\ data_kept st0 st2 root /\ fresh_in st0 st2 root lo (virt + 4096).
Proof.
  intros K0 Hfr Ha Hr Hlo Hal H48 F1 F2 F3 Ea Hp Em.
  destruct (map_page_region st root lo virt flags p st1 st2) as (Ha2 & Hr2 & _ & Dk & Htr & Hfree); try done.
  split_and!; [done|done|by eapply data_kept_trans|].
  intros w q Hw E Hd. rewrite Htr, (proj2 (Z.ltb_lt w _)), andb_true_r in E by lia. destruct (Z.leb_spec virt w).
  - injection E as E. apply (Hfree q); [by apply K0|lia].
  - revert Hd. apply (Hfr w); [lia|done].
Qed.

Lemma region_sub st root lo hi lo' hi' : region st root lo hi -> lo <= lo' -> hi' <= hi -> region st root lo' hi'.
Proof. intros [Hb Hi] Hl Hh. split; [intros w Hw; apply Hb; lia|intros w w' pa Hw Hw'; apply Hi; lia]. Qed.

Lemma region_empty st root lo : region st root lo lo.
Proof. split; intros; lia. Qed.

(** The lowest address of the stack. *)
Definition stack_low : Z := user_stack_top - 64 * 4096.

Lemma map_stack_spec root st0 n : forall i st st',
  data_kept st0 st root -> fresh_in st0 st root stack_low (stack_low + i * 4096) -> as_inv st root -> region st root stack_low (stack_low + i * 4096) -> 0 <= i -> i + Z.of_nat n = 64 ->
  map_stack root i n st = (true, st') ->
  as_inv st' root /\ region st' root stack_low user_stack_top /\ data_kept st0 st' root /\
  fresh_in st0 st' root stack_low user_stack_top.
Proof.
  induction n as [|n IH]; intros i st st' K0 Hfr Ha Hr Hi Hn Hm; cbn [map_stack] in Hm.
  { injection Hm as <-. split; [done|]. replace user_stack_top with (stack_low + i * 4096) by (unfold stack_low; lia). done. }
  destruct (pmm_alloc_page st) as [p st1] eqn:Ea. destruct (Z.eqb_spec p 0) as [|Hp]; [done|].
  change (user_stack_top - (64 - i) * 4096) with (user_stack_top - (64 - i) * 4096) in Hm.
  replace (user_stack_top - (64 - i) * 4096) with (stack_low + i * 4096) in Hm by (unfold stack_low; lia).
  destruct (paging_map_for_process root p (stack_low + i * 4096) user_rw st1) as [r st2] eqn:Em.
  destruct r as [|?|?]; [|done|done]. destruct user_rw_flags as (F1 & F2 & F3).
  destruct (map_page st0 st root stack_low (stack_low + i * 4096) user_rw p st1 st2) as (Ha2 & Hr2 & Dk & Hfr2);
    try done; unfold stack_low, user_stack_top in *; try lia; [dlia|].
  apply (IH (i + 1) st2 st'); try done; try lia;
    by replace (0x4000000000 - 64 * 4096 + (i + 1) * 4096) with (0x4000000000 - 64 * 4096 + i * 4096 + 4096) by lia.
Qed.

(** Mapping the page above a region, which [map_guard] does, keeps it. *)
Lemma map_guard_spec root st0 st lo :
  data_kept st0 st root -> fresh_in st0 st root lo user_stack_top -> as_inv st root -> region st root lo user_stack_top -> 0 <= lo <= user_stack_top ->
  as_inv (map_guard root st) root /\ region (map_guard root st) root lo user_stack_top /\
  data_kept st0 (map_guard root st) root /\ fresh_in st0 (map_guard root st) root lo user_stack_top.
Proof.
  intros K0 Hfr Ha Hr Hlo. unfold map_guard. destruct (pmm_alloc_page st) as [p st1] eqn:Ea.
  destruct (Z.eqb_spec p 0) as [Hp|Hp].
  { destruct (pmm_alloc_cases st p st1 (as_pmm _ _ Ha) Ea) as [(_ & -> & _)|(? & _ & ? & _)]; done. }
  destruct (pmm_alloc_cases st p st1 (as_pmm _ _ Ha) Ea) as [(-> & _)|(idx & -> & _ & Hpa)]; [done|].
  destruct (alloc_data st idx st1 root Ha Hpa) as (Ha1 & G1 & D1 & T1 & P1).
  destruct (page_addr_aligned st idx (as_pmm _ _ Ha) (pa_page _ _ _ Hpa)) as (Hpal & Hpos & Hp64).
  set (p := page_addr st idx) in *.
  destruct (fill_data st1 root (memset (ram st1) p 0 page_size) Ha1) as (Ha2 & G2 & T2 & D2).
  { intros x Hx. apply rd8_memset_out. change (Z.of_nat page_size) with 4096.
    destruct (decide (p <= x < p + 4096)) as [Hin|]; [by destruct Hx; apply P1|lia]. }
  set (st2 := set_ram _ st1) in *.
  change (Z.lor PAGE_PRESENT PAGE_USER) with 5.
  destruct (paging_map_for_process root p user_stack_top 5 st2) as [r st3] eqn:Em. cbn [snd].
  destruct (paging_map_small st2 root p user_stack_top 5 r st3 Ha2 ltac:(lia) ltac:(lia) eq_refl eq_refl Em)
    as (Ha3 & G3 & D3 & T3).
  assert (Hfree : forall x, data_byte st root x -> ~ p <= x < p + 4096).
  { intros x Hx Hin. pose proof (db_used _ _ _ Hx idx (pa_page _ _ _ Hpa) Hin) as Hu. by rewrite (pa_free _ _ _ Hpa) in Hu. }
  assert (Dk : data_kept st st3 root).
  { intros x Hx. destruct (D1 x Hx) as [Hx1 E1]. destruct (D3 x (D2 x Hx1)) as [Hx3 E3]. split; [done|].
    rewrite E3, <- E1. apply rd8_memset_out. change (Z.of_nat page_size) with 4096. specialize (Hfree x Hx). lia. }
  assert (Htr : forall w, lo <= w < user_stack_top -> translate (ram st3) root w = translate (ram st) root w).
  { intros w Hw. destruct T3 as [[_ T3]|[_ T3]]; rewrite T3.
    - unfold st2. cbn [ram set_ram]. by rewrite T2, T1.
    - rewrite same_page_range by (unfold user_stack_top in *; (lia || done)).
      rewrite (proj2 (Z.leb_gt _ _)) by lia. cbn [andb]. unfold st2. cbn [ram set_ram]. by rewrite T2, T1. }
  split; [done|]. split; [|split; [by eapply data_kept_trans|intros w q Hw; rewrite Htr by done; by apply Hfr]]. split.
  - intros w Hw. rewrite Htr by done. destruct (rg_bytes _ _ _ _ Hr w Hw) as (pw & E & Hd). exists pw. split; [done|by apply Dk].
  - intros w w' q Hw Hw'. rewrite !Htr by done. by apply (rg_inj _ _ _ _ Hr).
Qed.

(** ** The strings and the words *)

Lemma align16_spec x : 0 <= x < 2 ^ 64 -> align16 x mod 16 = 0 /\ x - 15 <= align16 x <= x.
Proof.
  intros Hx. unfold align16. rewrite u64_small by done. rewrite land_mask64 by lia. change (2 ^ 4) with 16. dlia.
Qed.

(** An upper bound of the room that the strings take. *)
Definition strings_room (argv : list str) : Z := zsum (fun s => Z.of_nat (length s) + 16) argv.

Lemma strings_room_nonneg argv : 0 <= strings_room argv.
Proof. apply zsum_nonneg, Forall_forall. intros s _. lia. Qed.

Lemma at_bytes_keep root m m' va l lo hi :
  at_bytes root m va l -> lo <= va -> va + Z.of_nat (length l) <= hi ->
  (forall w, lo <= w < hi -> vbyte root m' w = vbyte root m w) -> at_bytes root m' va l.
Proof.
  intros Ha Hlo Hhi Hk i b Hi. rewrite Hk; [by apply Ha|]. apply lookup_lt_Some in Hi. lia.
Qed.

Section stack.
Context (root lo hi : Z) (H48 : hi <= 2 ^ 48) (H0 : 0 <= lo).

(** What a push leaves: the memory [m] with the stack pointer at [rsp'], nothing changed
    from [rsp] on. *)
Record pushed (st : phys) (rsp rsp' : Z) (m : mem) : Prop := {
  ps_stored : stored st root lo hi m;
  ps_align : rsp' mod 16 = 0;
  ps_low : lo <= rsp' <= rsp;
  ps_above : forall w, rsp <= w < hi -> vbyte root m w = vbyte root (ram st) w }.

Lemma pushed_trans st r1 r2 r3 m1 m2 :
  pushed st r1 r2 m1 -> pushed (set_ram m1 st) r2 r3 m2 -> pushed st r1 r3 m2.
Proof.
  intros [S1 A1 L1 U1] [S2 A2 L2 U2]. split; [by eapply stored_compose|done|lia|].
  intros w Hw. rewrite U2 by lia. cbn [ram set_ram]. by apply U1.
Qed.

(** One push: the bytes at the new stack pointer. *)
Lemma push_bytes st rsp n l :
  as_inv st root -> region st root lo hi -> lo + n + 15 <= rsp -> rsp <= hi -> Z.of_nat (length l) <= n -> 0 <= n -> byte_list l ->
  exists m, vwrite root (align16 (rsp - n)) l (ram st) = Some m /\ pushed st rsp (align16 (rsp - n)) m /\
    at_bytes root m (align16 (rsp - n)) l /\ align16 (rsp - n) + n <= rsp.
Proof.
  intros Ha Hr Hlo Hhi Hl Hn Hb. destruct (align16_spec (rsp - n)) as [Hal Hran]; [lia|].
  destruct (vwrite_spec root lo hi l st (align16 (rsp - n)) Ha Hr) as (m & Hw & Hs & Hat & Hout); try lia.
  exists m. split; [done|]. split; [split; [done|done|lia|intros w Hw'; apply Hout; lia]|]. split; [by apply Hat|lia].
Qed.

(** The pointers of the strings, each with its string and the final zero. *)
Definition string_at (m : mem) (p : Z) (s : str) : Prop := at_bytes root m p (s ++ [0]).

Lemma push_strings_spec argv : forall st rsp,
  as_inv st root -> region st root lo hi -> lo + strings_room argv <= rsp -> rsp <= hi -> rsp mod 16 = 0 ->
  Forall byte_list argv ->
  exists ptrs rsp' m, push_strings root rsp argv (ram st) = Some (ptrs, rsp', m) /\ pushed st rsp rsp' m /\
    rsp - strings_room argv <= rsp' /\
    Forall2 (fun p s => string_at m p s /\ rsp' <= p /\ p + Z.of_nat (length s) < rsp) ptrs argv.
Proof.
  induction argv as [|s argv IH]; intros st rsp Ha Hr Hroom Hhi Hal Hb; cbn [push_strings].
  { exists [], rsp, (ram st). split; [done|]. change (strings_room []) with 0 in *.
    split; [split; [by apply stored_refl|done|lia|done]|]. split; [lia|constructor]. }
  apply Forall_cons in Hb as [Hbs Hb]. change (strings_room (s :: argv)) with (Z.of_nat (length s) + 16 + strings_room argv) in *.
  pose proof (strings_room_nonneg argv) as Hpos.
  destruct (push_bytes st rsp (Z.of_nat (length s) + 1) (s ++ [0]) Ha Hr) as (m1 & -> & P1 & A1 & L1); try lia.
  { rewrite length_app. cbn [length]. lia. }
  { apply Forall_app. split; [done|]. repeat constructor; lia. }
  destruct (align16_spec (rsp - (Z.of_nat (length s) + 1))) as [Hal1 Hran]; [lia|].
  set (rsp1 := align16 _) in *. cbn [mbind option_bind].
  destruct (IH (set_ram m1 st) rsp1) as (ptrs & rsp' & m2 & E2 & P2 & L2 & F2); try done; try lia;
    [apply (ps_stored _ _ _ _ P1)|apply (ps_stored _ _ _ _ P1)|].
  cbn [ram set_ram] in E2. rewrite E2. cbn [mbind option_bind]. exists (rsp1 :: ptrs), rsp', m2. split; [done|].
  split; [by eapply pushed_trans|]. split; [lia|]. pose proof (ps_low _ _ _ _ P2) as HL2. constructor.
  - split; [|lia]. apply (at_bytes_keep root m1 m2 rsp1 (s ++ [0]) rsp1 hi); [done|lia| |].
    + rewrite length_app. cbn [length]. lia.
    + intros w Hw. rewrite (ps_above _ _ _ _ P2) by lia. done.
  - eapply Forall2_impl; [exact F2|]. cbn. intros p t (? & ? & ?). split; [done|lia].
Qed.

End stack.

(** A part of the bytes. *)
Lemma at_bytes_part root m va l1 l2 l3 :
  at_bytes root m va (l1 ++ l2 ++ l3) -> at_bytes root m (va + Z.of_nat (length l1)) l2.
Proof.
  intros Ha i b Hi. rewrite <- (Ha (length l1 + i)%nat b); [f_equal; lia|].
  rewrite lookup_app_r by lia. replace (length l1 + i - length l1)%nat with i by lia. by apply lookup_app_l_Some.
Qed.

Lemma word_bytes_app l1 l2 : word_bytes (l1 ++ l2) = word_bytes l1 ++ word_bytes l2.
Proof. unfold word_bytes. by rewrite fmap_app, concat_app. Qed.

(** ** The stack that a program starts with *)

(** The number of arguments at the stack pointer; the pointers and a null word at
    [argv]; a null word at [envp]; the auxiliary vector; the strings. *)
Record start_stack (root entry : Z) (argv : list str) (m : mem) (rsp argv_base envp_base : Z) : Prop := {
  ss_align : rsp mod 16 = 0;
  ss_range : stack_low <= rsp < user_stack_top;
  ss_argc : vread root rsp 8 m = Some (le_bytes 8 (Z.of_nat (length argv)));
  ss_argv : exists ptrs, vread root argv_base (8 * (length argv + 1)) m = Some (word_bytes (ptrs ++ [0])) /\
    Forall2 (fun p s => rsp < p < user_stack_top /\ vread root p (length s + 1) m = Some (s ++ [0])) ptrs argv;
  ss_envp : vread root envp_base 8 m = Some (le_bytes 8 0);
  ss_auxv : exists rand, vread root (envp_base + 8) 64 m = Some (word_bytes (auxv rand entry)) /\
    vread root rand 16 m = Some random_bytes }.

(** The words from the stack pointer on. *)
Definition start_words (ptrs : list Z) (rand entry : Z) : list Z :=
  [Z.of_nat (length ptrs)] ++ (ptrs ++ [0]) ++ [0] ++ auxv rand entry.

(** The words, the random bytes and the strings make up the stack. *)
Lemma start_stack_of root entry argv ptrs rand rsp m :
  (forall va l, stack_low <= va -> va + Z.of_nat (length l) <= user_stack_top -> at_bytes root m va l -> vread root va (length l) m = Some l) ->
  rsp mod 16 = 0 -> stack_low <= rsp -> rsp + 8 * Z.of_nat (length argv + 11) <= user_stack_top ->
  stack_low <= rand -> rand + 16 <= user_stack_top ->
  at_bytes root m rsp (word_bytes (start_words ptrs rand entry)) -> at_bytes root m rand random_bytes ->
  Forall2 (fun p s => rsp < p /\ p + Z.of_nat (length s) < user_stack_top /\ at_bytes root m p (s ++ [0])) ptrs argv ->
  start_stack root entry argv m rsp (rsp + 8) (rsp + 8 + (Z.of_nat (length argv) + 1) * 8).
Proof.
  intros Hread Hal Hlo Hhi Hrl Hrh Hws Hrand Hptr. pose proof (Forall2_length _ _ _ Hptr) as Hlen. set (ws := start_words ptrs rand entry) in *.
  assert (Hwl : length ws = (length argv + 11)%nat) by (unfold ws, start_words, auxv; rewrite !length_app; cbn [length]; lia).
  assert (Hpart : forall l1 l2 l3, ws = l1 ++ l2 ++ l3 ->
    vread root (rsp + 8 * Z.of_nat (length l1)) (8 * length l2) m = Some (word_bytes l2)).
  { intros l1 l2 l3 E. rewrite <- word_bytes_length. pose proof (f_equal length E) as El. rewrite Hwl, !length_app in El.
    apply Hread; [lia|rewrite word_bytes_length; lia|].
    replace (rsp + _) with (rsp + Z.of_nat (length (word_bytes l1))) by (rewrite word_bytes_length; lia).
    apply (at_bytes_part _ _ _ _ _ (word_bytes l3)). rewrite <- !word_bytes_app, <- E. done. }
  assert (Hlen1 : length (ptrs ++ [0]) = (length argv + 1)%nat) by (rewrite length_app; cbn [length]; lia).
  split; [done|lia| | | |].
  - rewrite <- Hlen. specialize (Hpart [] [Z.of_nat (length ptrs)] _ eq_refl). by rewrite Z.mul_0_r, Z.add_0_r in Hpart.
  - exists ptrs. split.
    + specialize (Hpart [Z.of_nat (length ptrs)] (ptrs ++ [0]) _ eq_refl). by rewrite Hlen1 in Hpart.
    + eapply Forall2_impl; [exact Hptr|]. intros p s (Hp1 & Hp2 & Hs). split; [lia|].
      replace (length s + 1)%nat with (length (s ++ [0])) by (rewrite length_app; done).
      apply Hread; [lia|rewrite length_app; cbn [length]; lia|done].
  - specialize (Hpart ([Z.of_nat (length ptrs)] ++ ptrs ++ [0]) [0] (auxv rand entry)). rewrite length_app, Hlen1 in Hpart.
    cbn [length] in Hpart. replace (rsp + 8 * Z.of_nat (1 + (length argv + 1))) with (rsp + 8 + (Z.of_nat (length argv) + 1) * 8) in Hpart by lia.
    apply Hpart. unfold ws, start_words. by rewrite <- !app_assoc.
  - exists rand. split; [|change 16%nat with (length random_bytes); by apply Hread].
    specialize (Hpart ([Z.of_nat (length ptrs)] ++ (ptrs ++ [0]) ++ [0]) (auxv rand entry) []). rewrite !length_app in Hpart.
    cbn [length] in Hpart.
    replace (rsp + 8 * Z.of_nat (1 + (length ptrs + 1 + 1))) with (rsp + 8 + (Z.of_nat (length argv) + 1) * 8 + 8) in Hpart by lia.
    apply Hpart. unfold ws, start_words. by rewrite app_nil_r, <- !app_assoc.
Qed.

Lemma push_stack_spec root entry argv st :
  as_inv st root -> region st root stack_low user_stack_top -> Forall byte_list argv ->
  strings_room argv + 8 * Z.of_nat (length argv) <= 200000 ->
  exists rsp m, push_stack root entry argv (ram st) = Some (rsp, m) /\
    stored st root stack_low user_stack_top m /\
    start_stack root entry argv m rsp (rsp + 8) (rsp + 8 + (Z.of_nat (length argv) + 1) * 8).
Proof.
  intros Ha Hr Hb Hroom. pose proof (strings_room_nonneg argv) as Hpos. unfold push_stack.
  replace (align16 user_stack_top) with user_stack_top by by vm_compute.
  assert (H48 : user_stack_top <= 2 ^ 48) by by vm_compute. assert (H0 : 0 <= stack_low) by by vm_compute.
  assert (Hsize : user_stack_top = stack_low + 262144) by by vm_compute.
  destruct (push_strings_spec root stack_low user_stack_top H48 H0 argv st user_stack_top)
    as (ptrs & r1 & m1 & -> & P1 & L1 & F1); try done; try lia. cbn [mbind option_bind].
  pose proof (Forall2_length _ _ _ F1) as Hlen.
  destruct (push_bytes root stack_low user_stack_top H48 H0 (set_ram m1 st) r1 16 random_bytes)
    as (m2 & E2 & P2 & A2 & L2); try done; try lia.
  { apply (ps_stored _ _ _ _ _ _ _ P1). } { apply (ps_stored _ _ _ _ _ _ _ P1). }
  { pose proof (ps_low _ _ _ _ _ _ _ P1). lia. } { by repeat constructor. }
  set (r2 := align16 (r1 - 16)) in *. cbn [ram set_ram] in E2. rewrite E2. cbn [mbind option_bind].
  pose proof (ps_low _ _ _ _ _ _ _ P1) as LL1. pose proof (ps_low _ _ _ _ _ _ _ P2) as LL2.
  destruct (align16_spec (r1 - 16)) as [_ Hr2]; [lia|]. fold r2 in Hr2.
  set (n := (Z.of_nat (length argv) + 3) * 8 + 64).
  set (ws := start_words ptrs r2 entry).
  assert (Hws : length ws = (length argv + 11)%nat) by (unfold ws, start_words, auxv; rewrite !length_app; cbn [length]; lia).
  destruct (push_bytes root stack_low user_stack_top H48 H0 (set_ram m2 (set_ram m1 st)) r2 n (word_bytes ws))
    as (m3 & E3 & P3 & A3 & L3); try done; try lia.
  { apply (ps_stored _ _ _ _ _ _ _ P2). } { apply (ps_stored _ _ _ _ _ _ _ P2). }
  { rewrite word_bytes_length, Hws. unfold n. lia. } { apply word_bytes_list. }
  pose proof (ps_low _ _ _ _ _ _ _ P3) as LL3. destruct (align16_spec (r2 - n)) as [_ Hr3]; [lia|].
  set (r3 := align16 (r2 - n)) in *. cbn [ram set_ram] in E3.
  change (vwrite_words root r3 _ m2) with (vwrite_words root r3 ([Z.of_nat (length argv)] ++ ptrs ++ [0; 0] ++ auxv r2 entry) m2).
  replace ([Z.of_nat (length argv)] ++ ptrs ++ [0; 0] ++ auxv r2 entry) with ws
    by (unfold ws, start_words; rewrite <- app_assoc; cbn [app]; do 2 f_equal; lia).
  rewrite vwrite_words_bytes, E3 by lia. cbn [mbind option_bind]. exists r3, m3. split; [done|].
  assert (P : pushed root stack_low user_stack_top st user_stack_top r3 m3).
  { eapply pushed_trans; [|exact P3]. by eapply pushed_trans. }
  split; [apply P|]. pose proof (ps_stored _ _ _ _ _ _ _ P) as Hst.
  apply (start_stack_of root entry argv ptrs r2); [|apply P3|lia|unfold n in *; lia|lia|lia|done| |].
  - intros va l Hlo Hhi Hat. apply (vread_at (set_ram m3 st) root stack_low user_stack_top); try done; [apply Hst|lia].
  - apply (at_bytes_keep root m2 m3 r2 random_bytes r2 user_stack_top); [done|lia|cbn [length random_bytes]; lia|].
    intros w Hw. rewrite (ps_above _ _ _ _ _ _ _ P3) by lia. done.
  - eapply Forall2_impl; [exact F1|]. intros p s (Hs & Hp1 & Hp2). split_and!; [lia|lia|].
    apply (at_bytes_keep root m1 m3 p (s ++ [0]) r1 user_stack_top); [done|lia|rewrite length_app; cbn [length]; lia|].
    intros w Hw. rewrite (ps_above _ _ _ _ _ _ _ P3) by lia. cbn [ram set_ram]. rewrite (ps_above _ _ _ _ _ _ _ P2) by lia. done.
Qed.

(** The strings that [sys_exec] passes fit. *)
Lemma vread_str_spec root n : forall va m s,
  vread_str root va n m = Some s -> (length s <= n)%nat /\ byte_list s.
Proof.
  induction n as [|n IH]; intros va m s E; cbn [vread_str] in E.
  - injection E as <-. split; [done|constructor].
  - destruct (translate m root va) as [pa|]; [|done]. cbn [mbind option_bind] in E.
    destruct (rd8 m pa =? 0); [injection E as <-; split; [cbn; lia|constructor]|].
    destruct (vread_str root (u64 (va + 1)) n m) as [l|] eqn:El; [|done]. cbn [mbind option_bind] in E. injection E as <-.
    destruct (IH _ _ _ El) as [Hl Hb]. split; [cbn; lia|]. constructor; [unfold rd8; apply u8_range|done].
Qed.

Definition arg_ok (s : str) : Prop := (length s <= 255)%nat /\ byte_list s.

Lemma read_argv_ok {H} n : forall argv_ptr i (st : sys H) l,
  read_argv n argv_ptr i st = Some l -> (length l <= n)%nat /\ Forall arg_ok l.
Proof.
  induction n as [|n IH]; intros argv_ptr i st l E; cbn [read_argv] in E.
  { injection E as <-. by split. }
  assert (Hnil : Some [] = Some l -> (length l <= S n)%nat /\ Forall arg_ok l) by (intros [= <-]; split; [cbn; lia|constructor]).
  destruct (copy_from_user _ 8 st) as [[w|]|]; cbn [mbind option_bind] in E; [|by apply Hnil|done].
  destruct (get32 w 0) as [lo|], (get32 w 4) as [hi|]; cbn [mbind option_bind] in E; try done.
  destruct (_ || _); [by apply Hnil|]. unfold copy_string_from_user in E.
  destruct (current_of st) as [c|]; cbn [mbind option_bind] in E; [|by apply Hnil].
  destruct (negb _); cbn [mbind option_bind] in E; [by apply Hnil|].
  destruct (vread_str _ _ _ _) as [s|] eqn:Es; cbn [mbind option_bind] in E; [|done].
  destruct (read_argv n argv_ptr (i + 1) st) as [l'|] eqn:El; cbn [mbind option_bind] in E; [|done].
  injection E as <-. destruct (IH _ _ _ _ El) as [H1 H2]. apply vread_str_spec in Es as [H3 H4].
  split; [cbn; lia|]. constructor; [|done]. split; [|done]. change (Z.to_nat (255 - 1)) with 254%nat in H3. lia.
Qed.

Lemma exec_argv_ok {H} argv_ptr path (st : sys H) argv :
  byte_list path -> exec_argv argv_ptr path st = Some argv -> (0 < length argv <= 63)%nat /\ Forall arg_ok argv.
Proof.
  intros Hp E. unfold exec_argv in E.
  destruct (if negb (argv_ptr =? 0) && is_user_pointer argv_ptr then read_argv 63 argv_ptr 0 st else Some [])
    as [l|] eqn:El; cbn [mbind option_bind] in E; [|done].
  assert (Hl : (length l <= 63)%nat /\ Forall arg_ok l).
  { destruct (_ && _); [by eapply read_argv_ok|]. injection El as <-. split; [cbn; lia|constructor]. }
  destruct l as [|s l]; injection E as <-; [|destruct Hl as [H1 H2]; cbn [length] in *; split; [lia|done]]. split; [cbn; lia|].
  apply Forall_singleton. split.
  - rewrite length_take. lia.
  - apply Forall_take. unfold base_name. pose proof (strrchr_slash_spec path) as Hs.
    destruct (strrchr_slash path) as [[d b]|]; [|done]. destruct Hs as [-> _].
    apply Forall_app in Hp as [_ Hp]. by apply Forall_cons in Hp as [_ Hp].
Qed.

Lemma strings_room_bound argv : Forall arg_ok argv -> strings_room argv <= 271 * Z.of_nat (length argv).
Proof.
  induction 1 as [|s argv [Hs _] _ IH]; [done|].
  change (strings_room (s :: argv)) with (Z.of_nat (length s) + 16 + strings_room argv). cbn [length]. lia.
Qed.

(** C20. The stack of a new program.  In every well-formed address space in which the
    pages of the stack could be mapped, building the stack succeeds without a fault for
    all arguments that [sys_exec] passes.  The program starts at its entry point with an
    aligned stack pointer, the number of its arguments in rdi and at the stack pointer,
    in rsi a vector of pointers closed by a null, each to its argument as a terminated
    string, in rdx an empty environment, and after it the auxiliary vector; and nothing
    else of the address space has changed, the loaded program included. *)
Theorem exec_stack_spec root entry argv t st st1 :
  as_inv st root -> map_stack root 0 64 st = (true, st1) -> (length argv <= 63)%nat -> Forall arg_ok argv ->
  exists rsp m, push_stack root entry argv (ram (map_guard root st1)) = Some (rsp, m) /\
    (let f := exec_frame entry rsp (Z.of_nat (length argv)) t in
     t_rcx f = entry /\ t_user_rsp f = rsp /\ t_rdi f = Z.of_nat (length argv) /\
     start_stack root entry argv m rsp (t_rsi f) (t_rdx f)) /\
    as_inv (set_ram m (map_guard root st1)) root /\
    forall x, data_byte st root x -> rd8 m x = rd8 (ram st) x.
Proof.
  intros Ha Hm Hlen Hargs.
  destruct (map_stack_spec root st 64 0 st st1) as (Ha1 & Hr1 & K1 & F1); try done;
    [intros w pa Hw; lia|apply region_empty|].
  assert (0 <= stack_low <= user_stack_top) by (unfold stack_low, user_stack_top; lia).
  destruct (map_guard_spec root st st1 stack_low) as (Ha2 & Hr2 & K2 & F2); try done.
  pose proof (strings_room_bound argv Hargs) as Hroom.
  destruct (push_stack_spec root entry argv (map_guard root st1)) as (rsp & m & E & Hs & Hss); try done; [|lia|].
  { eapply Forall_impl; [exact Hargs|]. by intros s [_ ?]. }
  exists rsp, m. split; [done|]. split; [|split; [apply Hs|]].
  - cbn [exec_frame t_rcx t_user_rsp t_rdi t_rsi t_rdx]. split; [done|]. split; [done|]. split; [done|].
    pose proof (ss_range _ _ _ _ _ _ _ Hss). rewrite (u64_small (rsp + 8)), (u64_small (rsp + 8 + _)) by (unfold user_stack_top in *; lia). done.
  - intros x Hx. rewrite (sd_frame _ _ _ _ _ Hs).
    + by apply K2.
    + intros w Hw E'. by apply (F2 w x Hw E').
Qed.

(** A hundred pages at 8192, the first in use as an empty page table. *)
Definition demo_pages : phys := Phys {[4096 := 1]} 4096 8192 100 1.

Lemma demo_pages_inv : as_inv demo_pages 8192.
Proof.
  apply (empty_as_inv demo_pages 0); [split; vm_compute; auto; try split; congruence|
    split; vm_compute; congruence|reflexivity|].
  intros x Hx. unfold rd8, demo_pages, ram. rewrite lookup_singleton_ne; [reflexivity|].
  unfold page_addr, demo_pages, pmm_base, PMM_PAGE_SIZE in Hx. lia.
Qed.

Definition demo_stack : bool * phys := map_stack 8192 0 64 demo_pages.
Lemma demo_stack_ok : fst demo_stack = true.
Proof. vm_compute. reflexivity. Qed.

Lemma demo_stack_eq : map_stack 8192 0 64 demo_pages = (true, snd demo_stack).
Proof. change (map_stack 8192 0 64 demo_pages) with demo_stack. rewrite <- demo_stack_ok. by destruct demo_stack. Qed.

(** ["ls"] and ["-l"] *)
Definition demo_argv : list str := [[108; 115]; [45; 108]].

Lemma exec_stack_spec_witness :
  exists rsp m, push_stack 8192 0x400000 demo_argv (ram (map_guard 8192 (snd demo_stack))) = Some (rsp, m) /\
    start_stack 8192 0x400000 demo_argv m rsp (u64 (rsp + 8)) (u64 (rsp + 8 + 24)).
Proof.
  destruct (exec_stack_spec 8192 0x400000 demo_argv demo_trap demo_pages (snd demo_stack) demo_pages_inv demo_stack_eq)
    as (rsp & m & E & Hf & _); [cbn; lia|repeat constructor; cbn; lia|].
  exists rsp, m. split; [exact E|]. apply Hf.
Defined.
