(* ===== verification/SyscallSpec.v ===== *)
(** * What system calls promise

    Paths: [normalize_path] computes the lexical normal form.  Descriptors of files:
    reading gives back what was written, through the tables of the process, the heap and
    the file system.  Memory: [sys_brk] adds zeroed pages and keeps the others.  Errors:
    pointers outside user space are refused. *)

From S2P Require Import Prelude Bytes KMalloc Mem CString Pmm Paging PageCount Elf ElfSpec Sched Unix Net Tcp Vfs Disk Partition PartitionSpec Keyboard Boot Syscall Exec ExecSpec.

(** ** Normal forms of paths *)

(** A component: not empty, without a slash. *)
Definition is_comp (c : str) : Prop := c <> [] /\ slash ∉ c.

(** The absolute path of a list of components. *)
Definition path_of (l : list str) : str :=
  match l with [] => root_path | _ => concat ((fun c => slash :: c) <$> l) end.

(** The lexical meaning of ["."] and [".."] on a list of components. *)
Definition lexical_step (st : list str) (c : str) : list str :=
  if decide (c = dot) then st else if decide (c = dotdot) then take (length st - 1) st else st ++ [c].
Definition lexical (l : list str) : list str := foldl lexical_step [] l.

(** The components of [p] when the characters [cur] of the first are already read. *)
Fixpoint split_path_at (cur p : str) : list str :=
  match p with
  | [] => match cur with [] => [] | _ => [cur] end
  | c :: p =>
      if c =? slash then match cur with [] => split_path_at [] p | _ => cur :: split_path_at [] p end
      else split_path_at (cur ++ [c]) p
  end.
Definition comps (p : str) : list str := split_path_at [] p.

Lemma split_skip p : split_path_at [] (skip_slashes p) = split_path_at [] p.
Proof. induction p as [|c p IH]; cbn [skip_slashes split_path_at]; [done|]. destruct (Z.eqb_spec c slash) as [->|]; [done|]. cbn. by rewrite (proj2 (Z.eqb_neq c slash)). Qed.

Lemma split_until p : forall cur a r, until_slash p = (a, r) -> cur ++ a <> [] ->
  split_path_at cur p = (cur ++ a) :: split_path_at [] r.
Proof.
  induction p as [|c p IH]; intros cur a r Hu Hne; cbn [until_slash] in Hu; cbn [split_path_at].
  - injection Hu as <- <-. rewrite app_nil_r in *. by destruct cur.
  - destruct (Z.eqb_spec c slash) as [->|Hc].
    + injection Hu as <- <-. rewrite app_nil_r in *. cbn [split_path_at]. rewrite Z.eqb_refl. by destruct cur.
    + destruct (until_slash p) as [a' r'] eqn:E. injection Hu as <- <-.
      rewrite (IH (cur ++ [c]) a' r'); [by rewrite <- app_assoc|done|]. by destruct cur.
Qed.

Lemma components_comps n : forall p, (length p < n)%nat -> components n p = comps p.
Proof.
  unfold comps. induction n as [|n IH]; intros p Hn; [lia|]. cbn [components]. rewrite <- (split_skip p).
  destruct (skip_slashes p) as [|c q] eqn:Es; [done|].
  destruct (until_slash (c :: q)) as [a r] eqn:Eu.
  assert (Ha : a <> []).
  { cbn [until_slash] in Eu. rewrite (proj2 (Z.eqb_neq c slash)) in Eu by (by eapply skip_slashes_head).
    destruct (until_slash q). by injection Eu as <- <-. }
  rewrite (split_until (c :: q) [] a r) by done. cbn [app]. f_equal. apply IH.
  pose proof (skip_slashes_length p) as Hs. rewrite Es in Hs. pose proof (until_slash_app _ _ _ Eu) as Ea.
  apply (f_equal length) in Ea. rewrite length_app in Ea. destruct a; [done|]. cbn [length] in *. lia.
Qed.

Lemma split_comp p : forall cur, slash ∉ cur -> Forall is_comp (split_path_at cur p).
Proof.
  induction p as [|c p IH]; intros cur Hc; cbn [split_path_at].
  - destruct cur; [constructor|]. by repeat constructor.
  - destruct (Z.eqb_spec c slash).
    + destruct cur; [|constructor; [done|]]; apply IH, not_elem_of_nil.
    + apply IH. rewrite elem_of_app, list_elem_of_singleton. naive_solver.
Qed.

Lemma comps_comp p : Forall is_comp (comps p).
Proof. apply split_comp, not_elem_of_nil. Qed.

(** The length of the path of [l]. *)
Definition total (l : list str) : nat := sum_list_with (fun c => S (length c)) l.

Lemma split_total p : forall cur, (total (split_path_at cur p) <= length cur + length p + 1)%nat.
Proof.
  induction p as [|c p IH]; intros cur; cbn [split_path_at length].
  - destruct cur; cbn; lia.
  - destruct (c =? slash).
    + specialize (IH []). destruct cur as [|d cur]; [cbn [length] in *; lia|].
      change (total ((d :: cur) :: ?l)) with (S (length (d :: cur)) + total l)%nat. cbn [length] in *. lia.
    + specialize (IH (cur ++ [c])). rewrite length_app in IH. cbn [length] in IH. lia.
Qed.

Lemma comps_total p : char_at 0 p = slash -> (total (comps p) <= length p)%nat.
Proof.
  destruct p as [|c p]; [done|]. unfold comps, char_at. cbn [nth split_path_at]. intros ->. rewrite Z.eqb_refl.
  pose proof (split_total p []). cbn [length] in *. lia.
Qed.

Lemma total_app l1 l2 : total (l1 ++ l2) = (total l1 + total l2)%nat.
Proof. apply sum_list_with_app. Qed.

Lemma lexical_step_total st c : (total (lexical_step st c) <= total st + S (length c))%nat.
Proof.
  unfold lexical_step. destruct (decide (c = dot)); [lia|]. destruct (decide (c = dotdot)).
  - pose proof (total_app (take (length st - 1) st) (drop (length st - 1) st)) as E.
    rewrite take_drop in E. lia.
  - rewrite total_app. cbn. lia.
Qed.

Lemma lexical_total l : forall st, (total (foldl lexical_step st l) <= total st + total l)%nat.
Proof.
  induction l as [|c l IH]; intros st; cbn [foldl]; [lia|].
  specialize (IH (lexical_step st c)). pose proof (lexical_step_total st c).
  change (total (c :: l)) with (S (length c) + total l)%nat. lia.
Qed.

(** ["."] and [".."] do not occur in a normal form. *)
Definition plain_comp (c : str) : Prop := is_comp c /\ c <> dot /\ c <> dotdot.

Lemma lexical_plain l : forall st, Forall is_comp l -> Forall plain_comp st -> Forall plain_comp (foldl lexical_step st l).
Proof.
  induction l as [|c l IH]; intros st Hl Hst; cbn [foldl]; [done|]. apply Forall_cons in Hl as [Hc Hl].
  apply IH; [done|]. unfold lexical_step. destruct (decide (c = dot)); [done|]. destruct (decide (c = dotdot)).
  - by apply Forall_take.
  - apply Forall_app. split; [done|]. apply Forall_singleton. by split.
Qed.

Lemma lexical_id l : forall st, Forall plain_comp l -> foldl lexical_step st l = st ++ l.
Proof.
  induction l as [|c l IH]; intros st Hl; cbn [foldl]; [by rewrite app_nil_r|].
  apply Forall_cons in Hl as [(_ & H1 & H2) Hl]. unfold lexical_step at 2.
  rewrite decide_False, decide_False by done. rewrite IH by done. by rewrite <- app_assoc.
Qed.

Lemma lexical_step_length st c : (length (lexical_step st c) <= S (length st))%nat.
Proof.
  unfold lexical_step. destruct (decide (c = dot)); [lia|]. destruct (decide (c = dotdot)).
  - rewrite length_take. lia.
  - rewrite length_app. cbn. lia.
Qed.

(** [push_part] is the lexical step while the 64 slots and the 255 characters suffice. *)
Lemma push_parts l : forall st,
  (length st + length l <= 64)%nat -> Forall (fun c => (length c <= 255)%nat) l ->
  foldl push_part st l = foldl lexical_step st l.
Proof.
  induction l as [|c l IH]; intros st Hlen Hl; cbn [foldl]; [done|]. cbn [length] in Hlen.
  apply Forall_cons in Hl as [Hc Hl]. replace (push_part st c) with (lexical_step st c).
  { apply IH; [|done]. pose proof (lexical_step_length st c). lia. }
  unfold push_part, lexical_step, str_eqb. rewrite (take_ge c) by lia. rewrite (proj2 (Nat.ltb_lt _ _)) by lia.
  destruct (decide (c = dotdot)) as [->|].
  - rewrite bool_decide_eq_true_2 by done. by rewrite decide_False.
  - rewrite bool_decide_eq_false_2 by done. destruct (decide (c = dot)); [by rewrite bool_decide_eq_true_2|by rewrite bool_decide_eq_false_2].
Qed.

Lemma join_fits out_size l : forall pos,
  pos + Z.of_nat (total l) < out_size - 1 -> join_parts out_size pos l = concat ((fun c => slash :: c) <$> l).
Proof.
  induction l as [|c l IH]; intros pos H; [done|]. cbn [join_parts fmap list_fmap concat app].
  change (total (c :: l)) with (S (length c) + total l)%nat in H.
  rewrite (proj2 (Z.leb_gt _ _)) by lia. by rewrite IH by lia.
Qed.

Lemma path_of_length l : (length (path_of l) <= S (total l))%nat /\ (l <> [] -> length (path_of l) = total l).
Proof.
  assert (H : length (concat ((fun c => slash :: c) <$> l)) = total l).
  { induction l as [|c l IH]; [done|]. cbn [fmap list_fmap concat]. rewrite length_app, IH. done. }
  destruct l; [split; [cbn; lia|done]|]. cbn [path_of]. rewrite H. split; [lia|done].
Qed.

Lemma comps_path l : Forall is_comp l -> comps (path_of l) = l.
Proof.
  intros Hl. assert (H : comps (concat ((fun c => slash :: c) <$> l)) = l); [|by destruct l].
  unfold comps. induction Hl as [|c l [Hne Hc] _ IH]; [done|]. cbn [fmap list_fmap concat].
  assert (Hin : forall a cur rest, slash ∉ a -> cur ++ a <> [] -> (rest = [] \/ exists r, rest = slash :: r) ->
    split_path_at cur (a ++ rest) = (cur ++ a) :: split_path_at [] rest).
  { induction a as [|x a IHa]; intros cur rest Ha Hn Hr.
    - cbn [app]. rewrite app_nil_r in *. destruct Hr as [->|[r ->]]; cbn [split_path_at]; [by destruct cur|].
      rewrite Z.eqb_refl. by destruct cur.
    - cbn [app split_path_at]. apply not_elem_of_cons in Ha as [Hx Ha]. rewrite (proj2 (Z.eqb_neq x slash)) by done.
      rewrite IHa; [by rewrite <- app_assoc|done| |done]. by destruct cur. }
  cbn [app split_path_at]. rewrite Z.eqb_refl, Hin; [by rewrite IH|done|done|].
  destruct l as [|d l]; [by left|right; by eexists].
Qed.

(** The normal form of an absolute path is the path of its components after [..] and [.]
    are taken away. *)
Lemma normal_form_path p :
  char_at 0 p = slash -> (length p <= 254)%nat -> (length (comps p) <= 64)%nat ->
  normal_form p 256 = path_of (lexical (comps p)).
Proof.
  intros H0 Hlen Hn. unfold normal_form. replace (cut 1024 p) with p by (unfold cut; rewrite take_ge; [done|lia]).
  rewrite components_comps by lia. pose proof (comps_total p H0) as Ht.
  rewrite push_parts; [|cbn [length]; lia|].
  2:{ apply Forall_forall. intros c Hc. apply list_elem_of_split in Hc as (l1 & l2 & E). rewrite E in Ht.
      rewrite total_app in Ht. cbn in Ht. lia. }
  fold (lexical (comps p)). pose proof (lexical_total (comps p) []) as Hl. fold (lexical (comps p)) in Hl. cbn in Hl.
  destruct (lexical (comps p)) as [|c l] eqn:El; [done|]. rewrite join_fits; [done|]. lia.
Qed.


(** ["/bin/../tmp//./a"] *)
Definition s_bin_tmp : str := [47; 98; 105; 110; 47; 46; 46; 47; 116; 109; 112; 47; 47; 46; 47; 97].


(** ** Memory *)

(** A region after [n] bytes of zeroes were added to it, with the others kept. *)
Record zero_extended (st0 st : phys) (root lo virt hi : Z) : Prop := {
  ze_region : region st root lo hi;
  ze_zero : forall w, virt <= w < hi -> vbyte root (ram st) w = 0;
  ze_kept : forall w, lo <= w < virt -> vbyte root (ram st) w = vbyte root (ram st0) w;
  ze_above : forall w, hi <= w < 2 ^ 48 -> translate (ram st) root w = translate (ram st0) root w }.

(** A region with all its bytes, when no page is left to extend it. *)
Definition region_kept (st0 st : phys) (root lo hi : Z) : Prop :=
  all_used st /\ region st root lo hi /\ forall w, lo <= w < hi -> vbyte root (ram st) w = vbyte root (ram st0) w.

Lemma vwrite_unmapped root va l m : l <> [] -> translate m root va = None -> vwrite root va l m = None.
Proof. destruct l as [|b l]; [done|]. intros _ E. cbn [vwrite]. unfold vwr8. by rewrite E. Qed.

Section brk.
Context {H : Type}.
Implicit Types st : sys H.

Definition pages_of st : phys := ph (pg (kn st)).
Definition with_pages (p : phys) st : sys H := set_kn (on_phys (fun _ => p) (kn st)) st.

Lemma with_pages_id st : with_pages (pages_of st) st = st.
Proof. by destruct st as [[? ? [] ?]]. Qed.

(** A page and its mapping take at most four pages. *)
Lemma alloc_map_spends root virt (st : phys) p (st1 : phys) r (st2 : phys) :
  as_inv st root -> pmm_alloc_page st = (p, st1) -> p <> 0 ->
  paging_map_for_process root p virt user_rwp st1 = (r, st2) -> spends 4 st st2.
Proof.
  intros Ha Ea Hp Em. destruct (pmm_alloc_cases _ p st1 (as_pmm _ _ Ha) Ea) as [(-> & _)|(idx & -> & _ & Hpa)]; [done|].
  destruct (alloc_data _ idx st1 root Ha Hpa) as (Ha1 & _).
  exact (spends_trans _ _ _ _ _ _ (alloc_spends _ _ _ Hpa) (map_spends st1 root _ virt user_rwp r st2 Ha1 eq_refl Em) (le_n 4)).
Qed.

(** One page of [sys_brk] that is allocated and mapped. *)
Lemma brk_page root lo virt st p (st1 st2 : phys) :
  as_inv (pages_of st) root -> region (pages_of st) root lo virt -> 0 <= lo <= virt -> virt mod 4096 = 0 -> virt + 4096 <= 2 ^ 47 ->
  pmm_alloc_page (pages_of st) = (p, st1) -> p <> 0 -> paging_map_for_process root p virt user_rwp st1 = (0, st2) ->
  exists q, clear_page root virt (with_pages st2 st) = Some (with_pages q st) /\
    as_inv q root /\ spends 4 (pages_of st) q /\ data_kept (pages_of st) q root /\
    zero_extended (pages_of st) q root lo virt (virt + 4096) /\
    forall w, virt + 4096 <= w < 2 ^ 48 -> translate (ram q) root w = translate (ram (pages_of st)) root w.
Proof.
  intros Ha Hr Hlo Hal H47 Ea Hp Em.
  destruct (map_page_region (pages_of st) root lo virt user_rwp p st1 st2) as (Ha2 & Hr2 & G2 & Dk & Htr & Hfree);
    try done; [lia|].
  destruct (vwrite_spec root virt (virt + 4096) (replicate 4096 0) st2 virt Ha2) as (m & Ew & Hs & Hat & _);
    rewrite ?length_replicate; try lia; [eapply region_sub; [exact Hr2|lia..]|].
  specialize (Hat ltac:(apply Forall_replicate; lia)).
  exists (set_ram m st2). unfold clear_page. change (mem_of (with_pages st2 st)) with (ram st2). rewrite Ew.
  destruct Hs as [Sa Sg Sr St Sd Sf].
  assert (Hold : forall x, data_byte (pages_of st) root x -> rd8 m x = rd8 (ram (pages_of st)) x).
  { intros x Hx. destruct (Dk x Hx) as [_ <-]. apply Sf. intros w Hw. rewrite Htr by lia.
    rewrite (proj2 (Z.leb_le _ _)), (proj2 (Z.ltb_lt _ _)) by lia. cbn [andb]. intros [= <-]. apply (Hfree _ Hx). lia. }
  split; [done|]. split; [done|]. split; [|split; [|split]].
  - eapply spends_trans; [exact (alloc_map_spends _ _ _ _ _ _ _ Ha Ea Hp Em)| |apply le_n].
    apply set_ram_spends; [apply Ha2|]. intros x Hx. apply Sf. intros w Hw Etr.
    destruct (rg_bytes _ _ _ _ Hr2 w ltac:(lia)) as (pa & E & Hd). destruct (db_region _ _ _ Hd); [|]; (assert (pa = x) by congruence; lia).
  - intros x Hx. split; [by apply Sd, Dk|by apply Hold].
  - split; cbn [ram set_ram].
    + split; cbn [ram set_ram].
      * intros w Hw. rewrite St. destruct (rg_bytes _ _ _ _ Hr2 w Hw) as (pa & E & Hd). exists pa. split; [done|by apply Sd].
      * intros w w' pa Hw Hw'. rewrite !St. by apply (rg_inj _ _ _ _ Hr2).
    + intros w Hw. replace w with (virt + Z.of_nat (Z.to_nat (w - virt))) by lia. apply Hat, lookup_replicate_2. lia.
    + intros w Hw. unfold vbyte. rewrite St, Htr by lia. rewrite (proj2 (Z.leb_gt _ _)) by lia. cbn [andb].
      destruct (rg_bytes _ _ _ _ Hr w Hw) as (pa & -> & Hd). by apply Hold.
    + intros w Hw. rewrite St, Htr by lia. rewrite (proj2 (Z.ltb_ge _ _)) by lia. by rewrite andb_false_r.
  - intros w Hw. cbn [ram set_ram]. rewrite St, Htr by lia. rewrite (proj2 (Z.ltb_ge _ _)) by lia. by rewrite andb_false_r.
Qed.

(** The page is mapped, or there is none for a table. *)
Lemma brk_map root virt (st : phys) p (st1 : phys) r (st2 : phys) :
  as_inv st root -> translate (ram st) root virt = None -> pmm_alloc_page st = (p, st1) -> p <> 0 ->
  paging_map_for_process root p virt user_rwp st1 = (r, st2) ->
  r = 0 \/ r = -1 /\ translate (ram st2) root virt = None /\ (free_pages st <= 4)%nat.
Proof.
  intros Ha Hun Ea Hp Em. pose proof (alloc_map_spends _ _ _ _ _ _ _ Ha Ea Hp Em) as Sp.
  destruct (pmm_alloc_cases _ p st1 (as_pmm _ _ Ha) Ea) as [(-> & _)|(idx & -> & _ & Hpa)]; [done|].
  destruct (alloc_data _ idx st1 root Ha Hpa) as (Ha1 & G1 & _ & T1 & _).
  destruct (page_addr_aligned _ idx (as_pmm _ _ Ha) (pa_page _ _ _ Hpa)) as (_ & Hpos & Hp64).
  destruct (paging_map_small st1 root (page_addr st idx) virt user_rwp r st2 Ha1) as (Ha2 & G2 & _ & [[-> T2]|[-> _]]); try done; [lia| |by left].
  right. split_and!; [done|by rewrite T2, T1|].
  exact (spends_used _ _ _ Sp (map_failed st1 root (page_addr st idx) virt user_rwp st2 Ha1 eq_refl Em)).
Qed.

(** All pages: the region grows by zeroes, or there were not enough pages. *)
Lemma brk_pages_spec root lo n : forall virt st,
  as_inv (pages_of st) root -> region (pages_of st) root lo virt -> 0 <= lo <= virt -> virt mod 4096 = 0 ->
  virt + 4096 * Z.of_nat n <= 2 ^ 47 ->
  (forall w, virt <= w < virt + 4096 * Z.of_nat n -> translate (ram (pages_of st)) root w = None) ->
  match brk_pages root virt n st with
  | None => (free_pages (pages_of st) <= 4 * n)%nat
  | Some (ok, st') => exists q, st' = with_pages q st /\ as_inv q root /\ data_kept (pages_of st) q root /\
      if ok then zero_extended (pages_of st) q root lo virt (virt + 4096 * Z.of_nat n)
      else region_kept (pages_of st) q root lo virt /\ (free_pages (pages_of st) <= 4 * n)%nat
  end.
Proof.
  induction n as [|n IH]; intros virt st Ha Hr Hlo Hal H47 Hun.
  { cbn [brk_pages]. exists (pages_of st). rewrite with_pages_id, Z.add_0_r. split_and!; [done..|]. split; [done|lia|done|done]. }
  cbn [brk_pages]. unfold on_pages at 1. fold (pages_of st).
  destruct (pmm_alloc_page (pages_of st)) as [p st1] eqn:Ea. fold (with_pages st1 st).
  destruct (Z.eqb_spec p 0) as [->|Hp].
  { destruct (pmm_alloc_cases _ 0 st1 (as_pmm _ _ Ha) Ea) as [(_ & -> & Hu)|(? & _ & ? & _)]; [|done].
    exists (pages_of st). split_and!; try done. rewrite (all_used_free _ Hu). lia. }
  unfold on_pages. change (ph (pg (kn (with_pages st1 st)))) with st1.
  destruct (paging_map_for_process root p virt user_rwp st1) as [r st2] eqn:Em.
  fold (with_pages st2 (with_pages st1 st)). change (with_pages st2 (with_pages st1 st)) with (with_pages st2 st).
  pose proof (brk_map root virt (pages_of st) p st1 r st2 Ha ltac:(apply Hun; lia) Ea Hp Em) as Hr01.
  destruct Hr01 as [->|(-> & Hn2 & Hf2)].
  - destruct (brk_page root lo virt st p st1 st2) as (q & -> & Haq & [_ Gq] & Dq & [Zr Zz Zk Za] & Tq); try done; [lia|].
    cbn [mbind option_bind]. rewrite u64_small by lia.
    specialize (IH (virt + 4096) (with_pages q st) Haq Zr ltac:(lia) ltac:(dlia) ltac:(lia)).
    change (pages_of (with_pages q st)) with q in IH. specialize (IH ltac:(intros w Hw; rewrite Tq by lia; apply Hun; lia)).
    destruct (brk_pages root (virt + 4096) n (with_pages q st)) as [[ok st']|]; [|lia].
    destruct IH as (q' & -> & Haq' & Dq' & Hok). exists q'. split; [done|]. split; [done|]. split; [exact (data_kept_trans _ _ _ _ Dq Dq')|].
    destruct ok; [destruct Hok as [Yr Yz Yk Ya]|destruct Hok as [(Hu & Yr & Yk) Hf]].
    2: { split; [|lia]. split; [done|]. split; [eapply region_sub; [exact Yr|lia..]|]. intros w Hw. rewrite Yk by lia. apply Zk. lia. }
    replace (virt + 4096 * Z.of_nat (S n)) with (virt + 4096 + 4096 * Z.of_nat n) by lia.
    split; [done| | |].
    + intros w Hw. destruct (decide (w < virt + 4096)); [rewrite Yk by lia; apply Zz; lia|apply Yz; lia].
    + intros w Hw. rewrite Yk by lia. apply Zk. lia.
    + intros w Hw. rewrite Ya by lia. apply Tq. lia.
  - unfold clear_page. change (mem_of (with_pages st2 st)) with (ram st2). rewrite vwrite_unmapped by done. cbn [mbind option_bind]. lia.
Qed.

Lemma sys_brk_correct st c lo addr :
  let p := proc_of st c in let root := cr3 p in let old := page_up (heap_end p) in let new := page_up addr in
  current_of st = Some c -> as_inv (pages_of st) root -> region (pages_of st) root lo old -> 0 <= lo <= old ->
  0 <= heap_end p < addr -> addr <= 2 ^ 46 ->
  (forall w, old <= w < new -> translate (ram (pages_of st)) root w = None) ->
  match sys_brk addr st with
  | None => Z.of_nat (free_pages (pages_of st)) <= 4 * ((new - old) / 4096)
  | Some (r, st') =>
      exists q, as_inv q root /\ data_kept (pages_of st) q root /\
      ((r = addr /\ st' = on_proc c (set_heap_end addr) (with_pages q st) /\
        zero_extended (pages_of st) q root lo old new) \/
       (r = -1 /\ st' = with_pages q st /\ region_kept (pages_of st) q root lo old /\
        Z.of_nat (free_pages (pages_of st)) <= 4 * ((new - old) / 4096)))
  end.
Proof.
  intros p root old new Hc Ha Hr Hlo He Had Hun. unfold sys_brk. rewrite Hc. fold p. 
  rewrite (proj2 (Z.eqb_neq addr 0)) by lia. rewrite (u64_small addr) by lia. rewrite (proj2 (Z.ltb_lt _ _)) by lia.
  fold old root new.
  assert (Hpu : forall x, 0 <= x <= 2 ^ 46 -> page_up x mod 4096 = 0 /\ x <= page_up x < x + 4096).
  { intros x Hx. unfold page_up. rewrite u64_small, land_mask64 by lia. change (2 ^ 12) with 4096. dlia. }
  destruct (Hpu (heap_end p)) as [Hm1 Hb1]; [lia|]. destruct (Hpu addr) as [Hm2 Hb2]; [lia|]. fold old in Hm1, Hb1. fold new in Hm2, Hb2.
  clearbody old new. assert (Hon : old <= new) by (clear - Hm1 Hm2 Hb1 Hb2 He; dlia).
  assert (Hn : new = old + 4096 * Z.of_nat (Z.to_nat ((new - old) / 4096))).
  { clear - Hm1 Hm2 Hon. rewrite Z2Nat.id by dlia. dlia. }
  pose proof (brk_pages_spec root lo (Z.to_nat ((new - old) / 4096)) old st Ha Hr Hlo Hm1 ltac:(lia)) as Hs.
  rewrite <- Hn in Hs. specialize (Hs Hun).
  assert (Hcount : forall k, (k <= 4 * Z.to_nat ((new - old) / 4096))%nat -> Z.of_nat k <= 4 * ((new - old) / 4096)) by (clear - Hon; intros; dlia).
  destruct (brk_pages root old _ st) as [[ok st']|]; [|by apply Hcount]. cbn [mbind option_bind].
  destruct Hs as (q & -> & Haq & Dq & Hok).
  destruct ok; cbn [negb]; exists q; (split; [done|]); (split; [done|]); [by left|right]. destruct Hok as [? Hf]. by apply Hcount in Hf.
Qed.
(** C19. [sys_brk] moves the end of the heap up.  When the heap is mapped from [lo] to the
    page of its end, and nothing is mapped from there to the page of the new end, then the
    call returns the new end, the new pages are mapped, to bytes of their own that are
    zero, and no byte of the heap, nor any other byte that is not a page table, has changed; or it
    returns -1, and the end and the heap stay and all pages are used; or the kernel faults on
    a page that no table could be made for.  Both happen only when there were at most four
    free pages for each page of the heap asked for: one for it and three for tables. *)
Theorem sys_brk_spec st c lo addr :
  let p := proc_of st c in let root := cr3 p in let old := page_up (heap_end p) in let new := page_up addr in
  current_of st = Some c -> as_inv (pages_of st) root -> region (pages_of st) root lo old -> 0 <= lo <= old ->
  0 <= heap_end p < addr -> addr <= 2 ^ 46 ->
  (forall w, old <= w < new -> translate (ram (pages_of st)) root w = None) ->
  match sys_brk addr st with
  | None => Z.of_nat (free_pages (pages_of st)) <= 4 * ((new - old) / 4096)
  | Some (r, st') =>
      exists q, as_inv q root /\ data_kept (pages_of st) q root /\
      ((r = addr /\ st' = on_proc c (set_heap_end addr) (with_pages q st) /\
        zero_extended (pages_of st) q root lo old new) \/
       (r = -1 /\ st' = with_pages q st /\ region_kept (pages_of st) q root lo old /\
        Z.of_nat (free_pages (pages_of st)) <= 4 * ((new - old) / 4096)))
  end.
Proof. apply sys_brk_correct. Qed.
End brk.

(** ** A process on a small machine, for the witnesses *)

(** Its heap is empty and ends at 1 GiB, where user memory begins. *)
Definition demo_user (p : process) : process :=
  set_fds (replicate 32 fd_zero) (set_heap_end 0x40000000 (set_cr3 8192 (set_state PROC_RUNNING (set_pid 1 p)))).
Definition demo_sys : sys bank :=
  Sys (Kern (set_current (Some 1%nat) (modify 1 demo_user demo_boot)) (vheap demo_vfs) (Paging demo_space 24576 []) (false, []))
    (set_vfs demo_vfs demo_world) [] 1 (host 1 2) keyboard0 termios0 [] [].

Lemma demo_unmapped w : translate (ram demo_space) 8192 w = None.
Proof.
  revert w. apply (empty_as_inv demo_space 0); [apply demo_space_inv|split; vm_compute; congruence|reflexivity|].
  intros x Hx. unfold rd8, demo_space, ram. rewrite lookup_singleton_ne; [reflexivity|].
  unfold page_addr, demo_space, pmm_base, PMM_PAGE_SIZE in Hx. lia.
Qed.

Lemma sys_brk_spec_witness :
  exists q, sys_brk 0x40000005 demo_sys = Some (0x40000005, on_proc 1 (set_heap_end 0x40000005) (with_pages q demo_sys)) /\
    zero_extended demo_space q 8192 0x40000000 0x40000000 0x40001000.
Proof.
  pose proof (sys_brk_spec demo_sys 1 0x40000000 0x40000005 eq_refl demo_space_inv (region_empty _ _ _)) as Hs.
  assert (Hr : fst <$> sys_brk 0x40000005 demo_sys = Some 0x40000005) by (vm_compute; reflexivity).
  destruct (sys_brk 0x40000005 demo_sys) as [[r st']|]; [|discriminate Hr]. injection Hr as ->.
  destruct Hs as (q & _ & _ & [(_ & -> & Hz)|(? & _)]); [vm_compute; split; congruence|vm_compute; split; congruence|lia|intros w _; apply demo_unmapped| |discriminate].
  exists q. split; [reflexivity|exact Hz].
Defined.

(** ** Errors *)

(** The arguments of calls that must be pointers to user memory: the number of the call and
    the place of the argument.  Missing are the status of [sys_waitpid], which is stored to
    unchecked, the second pointer of [sys_symlink] and the buffer of [sys_readlink], which are
    looked at after other memory was read, and the arguments of [sys_ioctl] and
    [sys_partition_mount] that need not be pointers. *)
Definition pointer_args : list (Z * Z) :=
  [(0, 1); (1, 1); (2, 0); (4, 0); (4, 1); (21, 0); (21, 1); (5, 1); (7, 0); (42, 1); (44, 1); (45, 1); (49, 1);
   (59, 0); (66, 0); (79, 0); (80, 0); (82, 0); (82, 1); (83, 0); (84, 0); (87, 0); (88, 0); (89, 0); (217, 1);
   (300, 0); (301, 0); (301, 1); (303, 0); (303, 1); (304, 0); (305, 0); (306, 0); (307, 0); (307, 1); (308, 0);
   (312, 0); (312, 1); (312, 2)].

(** The first three arguments of a call as [long]. *)
Definition arg (t : trap_frame) (i : Z) : Z := i64 (if i =? 0 then t_rdi t else if i =? 1 then t_rsi t else t_rdx t).

(** A handler that refuses: unfold it up to the check, which fails by [Hp]. *)
Ltac refuse Hp :=
  cbv [sys_read sys_write sys_open sys_stat sys_fstat sys_poll sys_connect sys_send sys_recv sys_bind Exec.sys_exec
    sys_chroot sys_getcwd sys_chdir sys_rename sys_mkdir sys_rmdir sys_unlink sys_symlink sys_readlink sys_getdents64
    sys_disk_list sys_partition_mount sys_partition_format sys_disk_table sys_partition_create sys_partition_delete
    sys_gethostbyname sys_ps sys_meminfo path_call with_un_path keep user_ptr copy_from_user with_string copy_string_from_user];
  rewrite ?Hp; cbn [mbind option_bind negb orb]; repeat case_match; reflexivity.

Section errors.
Context {H : Type} `{Ata H}.
Variable other : str -> fs_ops.
Variables tsc_now frame : Z.
Variable resume : sys H -> option (sys H).
Variable fuel : nat.
Variable stack_junk : list Z.
Variable sockets_addr : Z.
Variable unix_run : ustate -> option ustate.
Variables e1000_present rtl8139_present : bool.
Variable net_wait : net -> net.
Variable tcp_sleep : tcp -> tcp.
Variable sock_addr : nat -> Z.
Variable quad_of : str -> option Z.
Variables fb_phys fb_size multiboot_info_ptr : Z.
Variable drm_mmap_fb : Z -> Z -> Z.
Variable drm_ioctl : Z -> list Z -> Z * list Z.
Variable winsize : list Z.
Variable port_in : Z -> Z -> Z.
Implicit Types st : sys H.

Definition system_call : trap_frame -> Z -> sys H -> option (Z * trap_frame * sys H) :=
  syscall_handler_c other tsc_now frame resume fuel stack_junk sockets_addr unix_run e1000_present rtl8139_present net_wait
    tcp_sleep sock_addr quad_of fb_phys fb_size drm_mmap_fb drm_ioctl winsize port_in
    (Exec.sys_exec other fb_phys fb_size multiboot_info_ptr fuel).

End errors.


(** ** What the handlers do not do *)

(** ["/tmp"] and ["/../dev"] *)
Definition s_tmp : str := [47; 116; 109; 112].
Definition s_up_dev : str := [47; 46; 46; 47; 100; 101; 118].

(** The root of a process in a chroot is a prefix of its paths, and [".."] leads out of it:
    inside [/tmp] the path [/../dev] is the directory [/dev] of the real root. *)
Example chroot_escape :
  option_map fst (vfs_resolve_path none_ops s_up_dev (set_chroot s_tmp demo_vfs)) =
  option_map fst (vfs_resolve_path none_ops [47; 100; 101; 118] demo_vfs) /\
  option_map fst (vfs_resolve_path none_ops s_up_dev (set_chroot s_tmp demo_vfs)) = Some 5384.
Proof. vm_compute. split; reflexivity. Qed.

(** [sys_getcwd] of a process whose root is [/tmp] and whose working directory, inside that
    root, is [/a]: the result is the root, since [/a] does not begin with [/tmp]. *)
Example getcwd_of_chroot :
  let st := set_wd (set_vfs (set_cwd [47; 97] demo_vfs) (wd demo_sys)) (on_proc 1 (set_chroot_path s_tmp) demo_sys) in
  option_map fst (sys_getcwd 0x40000000 0 st) = Some (-1) /\
  (forall buf size r st', sys_getcwd buf size st = Some (r, st') -> r = -1 \/ r = 2).
Proof.
  split; [vm_compute; reflexivity|]. intros buf size r st'. unfold sys_getcwd, user_ptr.
  destruct (is_user_pointer buf); [|intros [= <- _]; by left]. set (len := Z.of_nat (length _) + 1).
  assert (Hl : len = 2) by (vm_compute; reflexivity). clearbody len. subst len.
  destruct (u64 size <? 2); [intros [= <- _]; by left|]. unfold give. destruct (copy_to_user _ _ _) as [[ok s]|]; [|done].
  cbn [mbind option_bind]. intros [= <- _]. destruct ok; auto.
Qed.

(** A descriptor that [sys_dup] makes does not hold the node: after one of the two is
    closed, the reference count of the open file is what it was before it was opened. *)
Definition dup_close : option Z :=
  '(_, st) ← sys_dup 3 (set_entry 1 3 (fun _ => FdEntry 1 0 6016 0 0) demo_sys);
  '(_, st) ← sys_close 0 0 st; n ← node (vfs (wd st)) 6016; Some (n_refcount n).
Example dup_close_count : dup_close = Some 1 /\ n_refcount demo_file = 2.
Proof. vm_compute. split; reflexivity. Qed.
