(* ===== verification/SyscallFile.v ===== *)
(** * Files through descriptors

    [sys_write], [sys_lseek] and [sys_read] on a descriptor of a ramfs file: the user
    memory, the file seen as an array of bytes, the position of the descriptor and the
    buffers on the kernel heap, in one theorem each, and the round trip of data through a
    file. *)

From S2P Require Import Prelude Bytes KMalloc Mem Pmm Paging Elf ElfSpec Sched Vfs Disk Partition PartitionSpec Keyboard Syscall ExecSpec SyscallSpec.

(** ** A block that a caller holds

    While a block [p] is allocated, the rest of the heap is an allocator for others. *)
Definition holding (live : heap -> gset Z -> Prop) (p : Z) (h : heap) (L : gset Z) : Prop :=
  live h ({[p]} ∪ L) /\ p ∉ L.

Lemma holding_allocator live p : Allocator live -> Allocator (holding live p).
Proof.
  intros Ha. split.
  - intros h L n [Hl Hp] Hn Hn7. destruct (alloc_ok h _ n Hl Hn Hn7) as [H|(q & h' & H & Hq & Hni & Hl')]; [by left|].
    right. exists q, h'. split; [done|]. split; [done|]. split; [set_solver|]. split; [|set_solver].
    by replace ({[p]} ∪ ({[q]} ∪ L)) with ({[q]} ∪ ({[p]} ∪ L)) by set_solver.
  - intros h L q [Hl Hp] Hq. destruct (free_ok h _ q Hl) as (h' & H & Hl'); [set_solver|]. exists h'. split; [done|].
    split; [|set_solver]. by replace ({[p]} ∪ L ∖ {[q]}) with (({[p]} ∪ L) ∖ {[q]}) by set_solver.
  - intros h L [Hl _] H0. apply (live_nonnull h _ Hl). set_solver.
Qed.

Lemma holding_free live p h L : Allocator live -> holding live p h L -> exists h', kfree p h = Some h' /\ live h' L.
Proof.
  intros Ha [Hl Hp]. destruct (free_ok h _ p Hl) as (h' & H & Hl'); [set_solver|]. exists h'. split; [done|].
  by replace L with (({[p]} ∪ L) ∖ {[p]}) by set_solver.
Qed.

(** ** Descriptors *)

Section files.
Context {H : Type} {live : heap -> gset Z -> Prop} `{!Allocator live}.
Implicit Types st : sys H.

(** Descriptor [fd] of the running process [c] is open on the ramfs file [n] at [a]. *)
Record fd_file st (c : nat) (fd a : Z) (n : vnode) (L : gset Z) : Prop := {
  ff_current : current_of st = Some c;
  ff_slot : (c < length (processes (sc (kn st))))%nat;
  ff_fd : 0 <= fd < MAX_FDS;
  ff_fds : length (fds (proc_of st c)) = 32%nat;
  ff_used : fd_used (entry st c fd) <> 0;
  ff_type : fd_type (entry st c fd) = 0;
  ff_data : fd_data (entry st c fd) = a;
  ff_nonnull : a <> 0;
  ff_node : node (vfs (wd st)) a = Some n;
  ff_ramfs : n_fs n = Some ramfs_name;
  ff_ok : file_ok n;
  ff_live : live (hp (kn st)) L;
  ff_buffer : n_data n <> 0 -> n_data n ∈ L }.

(** The processes of [st'] are those of [st], but the descriptor is at [pos]. *)
Record fd_moved st st' (c : nat) (fd pos : Z) : Prop := {
  fm_current : current_of st' = current_of st;
  fm_slots : length (processes (sc (kn st'))) = length (processes (sc (kn st)));
  fm_procs : forall d, d <> c -> proc_of st' d = proc_of st d;
  fm_cr3 : cr3 (proc_of st' c) = cr3 (proc_of st c);
  fm_fds : length (fds (proc_of st' c)) = length (fds (proc_of st c));
  fm_entry : entry st' c fd = set_pos pos (entry st c fd);
  fm_others : forall j, 0 <= j -> j <> fd -> entry st' c j = entry st c j }.

(** What a call on the descriptor leaves: the file [n'], the descriptor at [pos], and the
    other descriptors, processes and nodes as they were. *)
Record fd_step st st' (c : nat) (fd a : Z) (n' : vnode) (pos : Z) : Prop := {
  fs_moved : fd_moved st st' c fd pos;
  fs_file : exists L, fd_file st' c fd a n' L;
  fs_nodes : forall b, b <> a -> node (vfs (wd st')) b = node (vfs (wd st)) b }.

Lemma fd_moved_same st st' c fd : sc (kn st') = sc (kn st) -> fd_moved st st' c fd (fd_pos (entry st c fd)).
Proof.
  intros E. unfold current_of, entry, proc_of, prc. split; unfold current_of, entry, proc_of, prc; rewrite ?E; try done.
  by destruct (nth _ _ _).
Qed.

Lemma fd_moved_trans st1 st2 st3 c fd p1 p2 : fd_moved st1 st2 c fd p1 -> fd_moved st2 st3 c fd p2 -> fd_moved st1 st3 c fd p2.
Proof.
  intros [A1 A2 A3 A4 A5 A6 A7] [B1 B2 B3 B4 B5 B6 B7]. split; try congruence.
  - intros d Hd. by rewrite B3, A3.
  - by rewrite B6, A6.
  - intros j Hj Hne. by rewrite B7, A7.
Qed.

Lemma fd_moved_sc st st1 st2 c fd pos : fd_moved st st1 c fd pos -> sc (kn st2) = sc (kn st1) -> fd_moved st st2 c fd pos.
Proof.
  intros M E. eapply fd_moved_trans; [exact M|]. pose proof (fd_moved_same st1 st2 c fd E) as Hs.
  by rewrite (fm_entry _ _ _ _ _ M) in Hs.
Qed.

Lemma used_fd_file st c fd a n L : fd_file st c fd a n L -> used_fd fd st = Some (c, entry st c fd).
Proof.
  intros [Hc _ Hf _ Hu _ _ _ _ _ _ _ _]. unfold used_fd. rewrite Hc. unfold valid_fd.
  rewrite (proj2 (Z.leb_le 0 fd)), (proj2 (Z.ltb_lt fd MAX_FDS)) by lia. cbn [andb negb].
  by rewrite (proj2 (Z.eqb_neq _ 0)).
Qed.

Lemma set_entry_eq st c fd f :
  (c < length (processes (sc (kn st))))%nat -> length (fds (proc_of st c)) = 32%nat -> 0 <= fd < MAX_FDS ->
  entry (set_entry c fd f st) c fd = f (entry st c fd).
Proof.
  intros Hc Hl Hf. unfold entry, set_entry, on_proc, proc_of, prc in *. cbn [kn set_kn mod_proc on_sched sc].
  rewrite proc_modify_eq by done. cbn [fds set_fds].
  destruct (lookup_lt_is_Some_2 (fds (proc (sc (kn st)) c)) (Z.to_nat fd)) as [e He]; [unfold MAX_FDS in *; lia|].
  by rewrite !nth_lookup, list_lookup_alter_eq, He.
Qed.

Lemma set_entry_ne st c fd f j : 0 <= fd -> 0 <= j -> j <> fd -> entry (set_entry c fd f st) c j = entry st c j.
Proof.
  intros Hf Hj Hne. unfold entry, set_entry, on_proc, proc_of, prc. cbn [kn set_kn mod_proc on_sched sc].
  destruct (decide (c < length (processes (sc (kn st))))%nat) as [Hc|Hc].
  - rewrite proc_modify_eq by done. cbn [fds set_fds]. rewrite !nth_lookup, list_lookup_alter_ne by lia. done.
  - do 2 f_equal. unfold proc, modify. cbn [processes set_processes]. by rewrite !nth_overflow by (rewrite ?length_alter; lia).
Qed.

Lemma set_entry_moved st c fd f pos :
  (c < length (processes (sc (kn st))))%nat -> length (fds (proc_of st c)) = 32%nat -> 0 <= fd < MAX_FDS ->
  f (entry st c fd) = set_pos pos (entry st c fd) -> fd_moved st (set_entry c fd f st) c fd pos.
Proof.
  intros Hc Hl Hf E. split.
  - done.
  - unfold set_entry, on_proc. cbn [kn set_kn mod_proc on_sched sc]. by rewrite length_modify.
  - intros d Hd. unfold set_entry, on_proc, proc_of, prc. cbn [kn set_kn mod_proc on_sched sc]. by apply proc_modify_ne.
  - unfold set_entry, on_proc, proc_of, prc. cbn [kn set_kn mod_proc on_sched sc]. by apply (proc_modify_proj cr3).
  - unfold set_entry, on_proc, proc_of, prc. cbn [kn set_kn mod_proc on_sched sc].
    rewrite proc_modify_eq by done. cbn [fds set_fds]. by rewrite length_alter.
  - by rewrite set_entry_eq.
  - intros j Hj Hne. apply set_entry_ne; lia.
Qed.

(** A step from the movement of the descriptor and what became of the file. *)
Lemma fd_step_intro st st' c fd a n n' L L' pos :
  fd_file st c fd a n L -> fd_moved st st' c fd pos ->
  node (vfs (wd st')) a = Some n' -> (forall b, b <> a -> node (vfs (wd st')) b = node (vfs (wd st)) b) ->
  n_fs n' = n_fs n -> file_ok n' -> live (hp (kn st')) L' -> (n_data n' <> 0 -> n_data n' ∈ L') ->
  fd_step st st' c fd a n' pos.
Proof.
  intros [F1 F2 F3 F4 F5 F6 F7 F8 F9 F10 F11 F12 F13] Hm Hn Hoth Hfs Hok Hl Hd.
  split; [done| |done]. destruct Hm as [M1 M2 M3 M4 M5 M6 M7]. exists L'.
  split; rewrite ?M1, ?M2, ?M5, ?M6; try done. congruence.
Qed.

(** ** The calls *)

Variable other : str -> fs_ops.

(** The [n] bytes at [va] of the user memory of [c] are [l]. *)
Definition user_bytes st (c : nat) (va : Z) (l : list Z) : Prop := at_bytes (cr3 (proc_of st c)) (mem_of st) va l.

(** The user memory of [c] from [lo] to [hi] is mapped. *)
Definition user_region st (c : nat) (lo hi : Z) : Prop :=
  as_inv (pages_of st) (cr3 (proc_of st c)) /\ region (pages_of st) (cr3 (proc_of st c)) lo hi /\
  0x40000000 <= lo /\ hi <= 0x4000000000.

Lemma user_pointer_in lo hi va : 0x40000000 <= lo -> hi <= 0x4000000000 -> lo <= va < hi -> is_user_pointer va = true.
Proof. intros H1 H2 H3. unfold is_user_pointer. rewrite u64_small by lia. rewrite (proj2 (Z.leb_le _ _)), (proj2 (Z.ltb_lt _ _)) by lia. done. Qed.

Lemma copy_from_region st c lo hi va l :
  current_of st = Some c -> user_region st c lo hi -> lo <= va < hi -> va + Z.of_nat (length l) <= hi ->
  user_bytes st c va l -> copy_from_user va (Z.of_nat (length l)) st = Some (Some l).
Proof.
  intros Hc (Ha & Hr & Hlo & Hhi) Hva Hl Hb. unfold copy_from_user. rewrite Hc, (user_pointer_in lo hi va) by done. cbn [negb].
  rewrite Nat2Z.id. change (mem_of st) with (ram (pages_of st)). by rewrite (vread_at (pages_of st) _ lo hi) by (done || lia).
Qed.

(** Where a write goes. *)
Definition write_pos (e : fd_entry) (n : vnode) : Z := if nz (Z.land (fd_flags e) O_APPEND) then n_size n else fd_pos e.

(** The heap has no block of some size of at least [m] bytes. *)
Definition full (m : Z) (h : heap) : Prop := exists cap, m <= cap /\ kmalloc cap h = Some (0, h).

(** Nor has it one for a buffer of [m] bytes, or after that for the larger file. *)
Definition no_memory (m : Z) (h : heap) : Prop := full m h \/ exists tmp h1, kmalloc m h = Some (tmp, h1) /\ full m h1.

Lemma ramfs_write_vfs a n l pos (v : vstate) :
  a <> 0 -> node v a = Some n -> n_fs n = Some ramfs_name -> vfs_write other a l pos v = ramfs_write a l pos v.
Proof. intros Ha Hn Hf. unfold vfs_write. rewrite (proj2 (Z.eqb_neq a 0)) by done. rewrite Hn. cbn [mbind option_bind]. by rewrite Hf, ops_ramfs. Qed.

Lemma ramfs_read_vfs a n size pos (v : vstate) :
  a <> 0 -> node v a = Some n -> n_fs n = Some ramfs_name -> vfs_read other a size pos v = ramfs_read a size pos v.
Proof. intros Ha Hn Hf. unfold vfs_read. rewrite (proj2 (Z.eqb_neq a 0)) by done. rewrite Hn. cbn [mbind option_bind]. by rewrite Hf, ops_ramfs. Qed.

(** The part of [sys_write] with the buffer [tmp]: the file, the position, the buffer freed. *)
Lemma write_held st st2 c fd a n L tmp l pos :
  fd_file st c fd a n L -> fd_moved st st2 c fd pos -> wd st2 = wd st -> holding live tmp (hp (kn st2)) L ->
  node (vfs_in st2) a = Some n -> l <> [] -> 0 <= pos -> pos + Z.of_nat (length l) <= 2 ^ 61 -> Z.of_nat (length l) < 2 ^ 31 ->
  exists r st' n' pos',
    ('(res, st0) ← with_vfs (vfs_write other a l pos) st2;
     st3 ← sys_kfree tmp (if 0 <? res then set_entry c fd (fun e => set_pos (u64 (fd_pos e + res)) e) st0 else st0);
     Some (res, st3)) = Some (r, st') /\
    pages_of st' = pages_of st2 /\ fd_step st st' c fd a n' pos' /\
    (r = -1 /\ n' = n /\ full (Z.of_nat (length l)) (hp (kn st2)) \/
     r = Z.of_nat (length l) /\ pos' = pos + Z.of_nat (length l) /\ contents n' = spec_write (contents n) (Z.to_nat pos) l).
Proof.
  intros Hff Hm2 W2 Hlive Hn2 Hne Hp0 Hp61 Hl31. pose proof Hff as [F1 F2 F3 F4 F5 F6 F7 F8 F9 F10 F11 F12 F13].
  pose proof (holding_allocator live tmp _) as HA.
  assert (Ep2 : fd_pos (entry st2 c fd) = pos) by (by rewrite (fm_entry _ _ _ _ _ Hm2)).
  unfold with_vfs. rewrite (ramfs_write_vfs a n) by done.
  assert (Hoth : forall b, node (vfs_in st2) b = node (vfs (wd st)) b) by (intros b; unfold node, vfs_in; cbn [nodes set_chroot set_vheap]; by rewrite W2).
  destruct (ramfs_write_refines (live := holding live tmp) a n l pos (vfs_in st2) L)
    as [[-> (cap & Hcap & Hk)]|(n' & h' & L' & -> & Hok' & Hc & Hsh & _ & Hd0 & Hl' & _ & Hd')]; try done; cbn [mbind option_bind].
  - cbn [Z.ltb Z.compare]. unfold sys_kfree. destruct (holding_free live tmp _ L _ Hlive) as (h' & Hf & Hl').
    change (hp (kn (vfs_out (vfs_in st2) st2))) with (hp (kn st2)). rewrite Hf. cbn [mbind option_bind].
    eexists (-1), _, n, pos. split; [reflexivity|]. split; [done|]. split; [|left; split; [done|]; split; [done|]; exists cap; split; [lia|done]].
    eapply fd_step_intro; try done.
    by eapply fd_moved_sc.
  - rewrite i32_small by lia. assert (0 < Z.of_nat (length l)) by (destruct l; [done|cbn; lia]).
    rewrite (proj2 (Z.ltb_lt _ _)) by done. set (st3 := vfs_out _ st2). unfold sys_kfree.
    destruct (holding_free live tmp h' L' _ Hl') as (h2 & Hf & Hl2).
    change (hp (kn (set_entry c fd _ st3))) with h'. rewrite Hf. cbn [mbind option_bind].
    eexists _, _, n', (pos + Z.of_nat (length l)). split; [reflexivity|]. split; [done|]. split; [|right; done].
    assert (M3 : fd_moved st st3 c fd pos) by (by eapply fd_moved_sc).
    eapply (fd_step_intro _ _ _ _ _ n n' L L'); try done.
    + apply (fd_moved_sc st (set_entry c fd (fun e => set_pos (u64 (fd_pos e + Z.of_nat (length l))) e) st3)); [|done].
      eapply fd_moved_trans; [exact M3|]. destruct M3 as [M1 M2 M3 M4 M5 M6 M7].
      apply set_entry_moved; rewrite ?M2, ?M5, ?M6; try done. cbn [fd_pos set_pos]. by rewrite u64_small by lia.
    + apply node_put.
    + intros b Hb. rewrite <- Hoth. exact (node_put_ne a b n' (set_vheap h' (vfs_in st2)) Hb).
    + by injection Hsh.
Qed.

Lemma sys_write_file st c fd a n L lo hi buf l :
  fd_file st c fd a n L -> user_region st c lo hi -> lo <= buf < hi -> buf + Z.of_nat (length l) <= hi ->
  user_bytes st c buf l -> l <> [] -> 0 <= write_pos (entry st c fd) n -> 
  write_pos (entry st c fd) n + Z.of_nat (length l) <= 2 ^ 61 -> Z.of_nat (length l) < 2 ^ 31 ->
  exists r st' n' pos, sys_write other fd buf (Z.of_nat (length l)) st = Some (r, st') /\
    pages_of st' = pages_of st /\ fd_step st st' c fd a n' pos /\
    (r = -1 /\ n' = n /\ no_memory (Z.of_nat (length l)) (hp (kn st)) \/
     r = Z.of_nat (length l) /\ pos = write_pos (entry st c fd) n + Z.of_nat (length l) /\
     contents n' = spec_write (contents n) (Z.to_nat (write_pos (entry st c fd) n)) l).
Proof.
  intros Hff Hreg Hbuf Hl Hb Hne Hp0 Hp61 Hl31. pose proof Hff as [F1 F2 F3 F4 F5 F6 F7 F8 F9 F10 F11 F12 F13].
  set (sz := Z.of_nat (length l)) in *. assert (Hsz : 0 < sz) by (unfold sz; destruct l; [done|cbn; lia]).
  pose proof Hreg as (_ & _ & Hlo & Hhi).
  unfold sys_write. rewrite (used_fd_file _ _ _ _ _ _ Hff). unfold user_ptr. rewrite (user_pointer_in lo hi buf) by done.
  rewrite F7, F6, (proj2 (Z.eqb_neq a 0)), andb_false_r by done. cbn [Z.eqb negb orb].
  unfold sys_kmalloc. rewrite u64_small by lia.
  destruct (alloc_ok (hp (kn st)) L sz F12) as [Hk|(tmp & h1 & Hk & Ht & HtL & Hl1)]; [lia|lia| |]; rewrite Hk; cbn [mbind option_bind].
  { cbn [Z.eqb]. exists (-1). eexists _, n, _. split; [reflexivity|]. split; [done|]. split.
    - eapply fd_step_intro; [done|by apply fd_moved_same|done..].
    - left. split; [done|]. split; [done|]. left. by exists sz. }
  rewrite (proj2 (Z.eqb_neq tmp 0)) by done. set (st1 := set_kn _ st).
  assert (Ec : copy_from_user buf sz st1 = Some (Some l)) by (by apply (copy_from_region st1 c lo hi)).
  rewrite Ec. cbn [mbind option_bind]. change (vfs (wd st1)) with (vfs (wd st)).
  rewrite F9. cbn [mbind option_bind]. set (st2 := if nz _ then _ else st1).
  set (pos := write_pos (entry st c fd) n) in *.
  assert (Hm2 : fd_moved st st2 c fd pos /\ wd st2 = wd st /\ hp (kn st2) = h1 /\ pages_of st2 = pages_of st).
  { unfold st2, pos, write_pos. destruct (nz _).
    - split; [|done]. apply (fd_moved_trans _ st1 _ _ _ (fd_pos (entry st c fd))); [by apply fd_moved_same|]. by apply set_entry_moved.
    - split; [by apply fd_moved_same|done]. }
  destruct Hm2 as (Hm2 & W2 & H2 & P2). clearbody st2.
  assert (Ep : fd_pos (entry st2 c fd) = pos) by (by rewrite (fm_entry _ _ _ _ _ Hm2)). rewrite Ep.
  assert (Hlive : holding live tmp (hp (kn st2)) L) by (rewrite H2; by split).
  assert (Hn2 : node (vfs_in st2) a = Some n) by (unfold node, vfs_in; cbn [nodes set_chroot set_vheap]; by rewrite W2).
  destruct (write_held st st2 c fd a n L tmp l pos Hff Hm2 W2 Hlive Hn2 Hne Hp0 Hp61 Hl31) as (r & st' & n' & pos' & -> & Hpg & Hrest).
  exists r, st', n', pos'. split; [done|]. split; [congruence|]. destruct Hrest as [Hs [(-> & -> & Hf)|Hr]]; (split; [done|]); [left|by right].
  split; [done|]. split; [done|]. right. exists tmp, h1. split; [done|]. by rewrite <- H2.
Qed.

Lemma sys_lseek_file st c fd a n L pos :
  fd_file st c fd a n L -> 0 <= pos < 2 ^ 63 ->
  exists st', sys_lseek fd pos 0 st = Some (pos, st') /\ pages_of st' = pages_of st /\ fd_step st st' c fd a n pos.
Proof.
  intros Hff Hp. pose proof Hff as [F1 F2 F3 F4 F5 F6 F7 F8 F9 F10 F11 F12 F13].
  unfold sys_lseek. rewrite (used_fd_file _ _ _ _ _ _ Hff). rewrite F6, F7, (proj2 (Z.eqb_neq a 0)) by done. cbn [Z.eqb negb orb].
  rewrite F9. cbn [mbind option_bind]. rewrite u64_small by lia. unfold ret64. rewrite i64_small by lia.
  eexists. split; [reflexivity|]. split; [done|]. eapply fd_step_intro; try done. by apply set_entry_moved.
Qed.

(** Storing to the user memory of [c]. *)
Lemma copy_to_region st c lo hi va l :
  current_of st = Some c -> user_region st c lo hi -> lo <= va < hi -> va + Z.of_nat (length l) <= hi -> byte_list l ->
  exists m, copy_to_user va l st = Some (true, set_kn (on_ram (fun _ => m) (kn st)) st) /\
    user_region (set_kn (on_ram (fun _ => m) (kn st)) st) c lo hi /\
    user_bytes (set_kn (on_ram (fun _ => m) (kn st)) st) c va l /\
    forall w, lo <= w < hi -> ~ va <= w < va + Z.of_nat (length l) -> vbyte (cr3 (proc_of st c)) m w = vbyte (cr3 (proc_of st c)) (mem_of st) w.
Proof.
  intros Hc (Ha & Hr & Hlo & Hhi) Hva Hl Hb. unfold copy_to_user. rewrite Hc, (user_pointer_in lo hi va) by done. cbn [negb].
  destruct (vwrite_spec (cr3 (proc_of st c)) lo hi l (pages_of st) va Ha Hr) as (m & Ew & Hs & Hat & Hout); try lia.
  change (mem_of st) with (ram (pages_of st)). rewrite Ew. exists m. split; [done|].
  split; [split_and!; [apply Hs|apply Hs|done|done]|]. split; [by apply Hat|done].
Qed.

Variable frame : Z.
Variable resume : sys H -> option (sys H).
Variable fuel : nat.

(** The part of [sys_read] after the file was read: the copy to the user and the position. *)
Lemma read_copied st st2 c fd lo hi buf l pos :
  current_of st = Some c -> (c < length (processes (sc (kn st))))%nat -> length (fds (proc_of st c)) = 32%nat -> 0 <= fd < MAX_FDS ->
  fd_moved st st2 c fd pos -> user_region st2 c lo hi -> lo <= buf < hi -> buf + Z.of_nat (length l) <= hi -> byte_list l ->
  0 <= pos -> pos + Z.of_nat (length l) < 2 ^ 64 ->
  exists st4,
    (if 0 <? Z.of_nat (length l)
     then '(ok, st0) ← copy_to_user buf l st2;
          Some (ok, if (ok : bool) then set_entry c fd (fun e => set_pos (u64 (fd_pos e + Z.of_nat (length l))) e) st0 else st0)
     else Some (true, st2)) = Some (true, st4) /\
    fd_moved st st4 c fd (pos + Z.of_nat (length l)) /\ wd st4 = wd st2 /\ hp (kn st4) = hp (kn st2) /\
    user_region st4 c lo hi /\ user_bytes st4 c buf l /\
    forall w, lo <= w < hi -> ~ buf <= w < buf + Z.of_nat (length l) ->
      vbyte (cr3 (proc_of st2 c)) (mem_of st4) w = vbyte (cr3 (proc_of st2 c)) (mem_of st2) w.
Proof.
  intros F1 F2 F4 F3 M2 Hreg Hbuf Hl Hbl Hp0 Hp64. destruct (Z.ltb_spec 0 (Z.of_nat (length l))) as [Hpos|Hz].
  2:{ destruct l; [|cbn [length] in Hz; lia]. exists st2. split; [done|]. rewrite Z.add_0_r. by split_and!. }
  pose proof M2 as [M1 M3 M4 M5 M6 M7 M8].
  destruct (copy_to_region st2 c lo hi buf l) as (m & Em & (Hr1 & Hr2 & Hr3 & Hr4) & Hub & Hout); try done; [congruence|].
  rewrite Em. cbn [mbind option_bind]. set (st3 := set_kn _ st2) in *. set (f := fun e : fd_entry => set_pos _ e).
  assert (Hs : fd_moved st3 (set_entry c fd f st3) c fd (pos + Z.of_nat (length l))).
  { apply set_entry_moved; [by rewrite <- M3 in F2|by rewrite <- M6 in F4|done|].
    change (entry st3 c fd) with (entry st2 c fd). unfold f. rewrite M7. cbn [fd_pos set_pos]. by rewrite u64_small by lia. }
  exists (set_entry c fd f st3). split; [done|].
  split; [eapply fd_moved_trans; [|exact Hs]; eapply fd_moved_sc; [exact M2|done]|]. split; [done|]. split; [done|].
  unfold user_region, user_bytes. rewrite (fm_cr3 _ _ _ _ _ Hs). split; [done|]. split; [exact Hub|exact Hout].
Qed.

Lemma sys_read_file st c fd a n L lo hi buf count :
  fd_file st c fd a n L -> user_region st c lo hi -> lo <= buf < hi -> buf + count <= hi -> 0 < count < 2 ^ 31 ->
  0 <= fd_pos (entry st c fd) < 2 ^ 62 ->
  let l := spec_read (contents n) (Z.to_nat (fd_pos (entry st c fd))) (Z.to_nat count) in
  byte_list l ->
  exists r st' pos, sys_read other frame resume fuel fd buf count st = Some (r, st') /\ fd_step st st' c fd a n pos /\
    user_region st' c lo hi /\
    (r = -1 /\ full count (hp (kn st)) /\ pages_of st' = pages_of st \/
     r = Z.of_nat (length l) /\ pos = fd_pos (entry st c fd) + r /\ user_bytes st' c buf l /\
     forall w, lo <= w < hi -> ~ buf <= w < buf + r -> vbyte (cr3 (proc_of st c)) (mem_of st') w = vbyte (cr3 (proc_of st c)) (mem_of st) w).
Proof.
  intros Hff Hreg Hbuf Hl Hcount Hp l Hbl. pose proof Hff as [F1 F2 F3 F4 F5 F6 F7 F8 F9 F10 F11 F12 F13].
  pose proof Hreg as (_ & _ & Hlo & Hhi). set (pos := fd_pos (entry st c fd)) in *.
  assert (Hll : Z.of_nat (length l) <= count) by (unfold l, spec_read; rewrite length_take; lia).
  unfold sys_read. rewrite (used_fd_file _ _ _ _ _ _ Hff). unfold user_ptr. rewrite (user_pointer_in lo hi buf) by done.
  rewrite F7, F6, (proj2 (Z.eqb_neq a 0)), andb_false_r by done. cbn [Z.eqb negb orb].
  unfold sys_kmalloc. rewrite u64_small by lia.
  destruct (alloc_ok (hp (kn st)) L count F12) as [Hk|(tmp & h1 & Hk & Ht & HtL & Hl1)]; [lia|lia| |]; rewrite Hk; cbn [mbind option_bind].
  { cbn [Z.eqb]. exists (-1). eexists _, _. split; [reflexivity|]. split.
    - eapply fd_step_intro; [done|by apply fd_moved_same|done..].
    - split; [done|]. left. split; [done|]. split; [|done]. by exists count. }
  rewrite (proj2 (Z.eqb_neq tmp 0)) by done. set (st1 := set_kn _ st). fold pos. unfold with_vfs.
  assert (Hn1 : node (vfs_in st1) a = Some n) by done.
  rewrite (ramfs_read_vfs a n), (ramfs_read_refines a n) by (done || lia). cbn [mbind option_bind].
  fold l. set (st2 := vfs_out _ st1).
  assert (M2 : fd_moved st st2 c fd pos) by (by apply fd_moved_same).
  destruct (read_copied st st2 c fd lo hi buf l pos) as (st4 & -> & M4 & W4 & H4 & Hr4 & Hb4 & Hout); try done; [lia..|].
  cbn [mbind option_bind]. destruct (holding_free live tmp (hp (kn st4)) L _) as (h2 & Hf & Hl2); [by rewrite H4|].
  unfold sys_kfree. rewrite Hf. cbn [mbind option_bind].
  eexists (Z.of_nat (length l)), _, _. split; [reflexivity|]. split; [|split; [exact Hr4|right; split; [done|]; split; [done|]; split; [exact Hb4|]]].
  - eapply fd_step_intro; try done; [by eapply fd_moved_sc|cbn [wd set_kn]; by rewrite W4..].
  - intros w Hw Hout'. exact (Hout w Hw Hout').
Qed.

Lemma fd_step_trans st1 st2 st3 c fd a n1 n2 p1 p2 :
  fd_step st1 st2 c fd a n1 p1 -> fd_step st2 st3 c fd a n2 p2 -> fd_step st1 st3 c fd a n2 p2.
Proof.
  intros [M1 _ N1] [M2 F2 N2]. split; [by eapply fd_moved_trans|done|]. intros b Hb. by rewrite N2, N1.
Qed.

Lemma spec_read_write c pos l : spec_read (spec_write c pos l) pos (length l) = l.
Proof.
  unfold spec_read, spec_write.
  assert (E : length (take pos (c ++ replicate (pos - length c) 0)) = pos) by (rewrite length_take, length_app, length_replicate; lia).
  rewrite drop_app_ge by lia. rewrite E, Nat.sub_diag, drop_0. by rewrite take_app_length.
Qed.

End files.

(** ** A process with the file /tmp/a open as descriptor 3, for the witness *)

Definition open_sys : sys bank := set_entry 1 3 (fun _ => FdEntry 1 0 6016 0 0) demo_sys.
Definition brk_sys : sys bank := default open_sys (snd <$> sys_brk 0x40000100 open_sys).
(** "hi" at the start of its heap *)
Definition hi_sys : sys bank := default brk_sys (snd <$> copy_to_user 0x40000000 [104; 105] brk_sys).

Lemma brk_sys_region : exists q, brk_sys = on_proc 1 (set_heap_end 0x40000100) (with_pages q open_sys) /\
  user_region brk_sys 1 0x40000000 0x40001000.
Proof.
  pose proof (sys_brk_correct open_sys 1 0x40000000 0x40000100 eq_refl demo_space_inv (region_empty _ _ _)) as Hs.
  assert (Hr : fst <$> sys_brk 0x40000100 open_sys = Some 0x40000100) by (vm_compute; reflexivity).
  unfold brk_sys. destruct (sys_brk 0x40000100 open_sys) as [[r st']|]; [|discriminate Hr]. injection Hr as ->.
  destruct Hs as (q & Ha & _ & [(_ & -> & [Hz _ _])|(? & _)]);
    [vm_compute; split; congruence|vm_compute; split; congruence|lia|intros w _; apply demo_unmapped| |discriminate].
  exists q. split; [done|]. split; [exact Ha|]. split; [exact Hz|lia].
Qed.

Lemma with_pages_ram {H} c f q m (st : sys H) :
  set_kn (on_ram (fun _ => m) (kn (on_proc c f (with_pages q st)))) (on_proc c f (with_pages q st)) =
  on_proc c f (with_pages (set_ram m q) st).
Proof. reflexivity. Qed.

Lemma hi_sys_region : exists q, hi_sys = on_proc 1 (set_heap_end 0x40000100) (with_pages q open_sys) /\
  user_region hi_sys 1 0x40000000 0x40001000 /\ user_bytes hi_sys 1 0x40000000 [104; 105].
Proof.
  destruct brk_sys_region as (q & E & Hr).
  destruct (copy_to_region brk_sys 1 0x40000000 0x40001000 0x40000000 [104; 105]) as (m & Em & Hr' & Hb & _);
    [rewrite E; reflexivity|exact Hr|lia|cbn; lia|repeat constructor; lia|].
  unfold hi_sys. rewrite Em. cbn [fmap option_fmap option_map snd default]. exists (set_ram m q). split; [|by split]. rewrite E. apply with_pages_ram.
Qed.

Lemma set_entry_hp {H} c fd f (st : sys H) : hp (kn (set_entry c fd f st)) = hp (kn st).
Proof. reflexivity. Qed.
Lemma with_pages_hp {H} c f q (st : sys H) : hp (kn (on_proc c f (with_pages q st))) = hp (kn st).
Proof. reflexivity. Qed.

Lemma hi_sys_file : fd_file (live := heap_live) hi_sys 1 3 6016 demo_file demo_L.
Proof.
  destruct hi_sys_region as (q & E & _). rewrite E. split.
  - vm_compute. reflexivity.
  - vm_compute. lia.
  - unfold MAX_FDS. lia.
  - vm_compute. reflexivity.
  - vm_compute. congruence.
  - vm_compute. reflexivity.
  - vm_compute. reflexivity.
  - lia.
  - vm_compute. reflexivity.
  - vm_compute. reflexivity.
  - exact demo_file_ok.
  - rewrite with_pages_hp. unfold open_sys. rewrite set_entry_hp. exact demo_live.
  - intros Hd. exfalso. apply Hd. vm_compute. reflexivity.
Qed.

