(* ===== verification/Printf.v ===== *)
(** * Formatted output: lib/stdio.c (printf family)

    Characters are bytes.  The output context is the buffer [str] (an array, or none), the
    position, the size the caller gave, and the count of characters.  A store outside of
    the array, a read behind the end of the format, an argument of another kind than the
    conversion takes, or a conversion of a number to an integer type it does not fit is
    [None].  The field width, the precision and the count are 32-bit integers that wrap,
    as the compiled additions do.

    A variable argument is what its slot holds: 64 bits, of which a conversion for [int]
    takes the lower 32; a pointer to a string, or null; or a double.  Doubles are those
    of SpecFloat, binary64. *)

From Stdlib Require Export SpecFloat.
From S2P Require Import Prelude CString Vfs.

Inductive va := Slot (z : Z) | Str (s : option str) | Dbl (d : spec_float).

Record printf_ctx := Ctx { c_str : option (list Z); c_pos : Z; c_max : Z; c_count : Z }.

Definition printf_out_char (ctx : printf_ctx) (c : Z) : option printf_ctx :=
  let count := i32 (c_count ctx + 1) in
  match c_str ctx with
  | Some b =>
      if c_pos ctx <? u64 (c_max ctx - 1) then
        if c_pos ctx <? Z.of_nat (length b) then
          Some (Ctx (Some (<[Z.to_nat (c_pos ctx) := c]> b)) (c_pos ctx + 1) (c_max ctx) count)
        else None
      else Some (Ctx (Some b) (c_pos ctx) (c_max ctx) count)
  | None => Some (Ctx None (c_pos ctx) (c_max ctx) count)
  end.

Fixpoint printf_out_str (ctx : printf_ctx) (s : list Z) : option printf_ctx :=
  match s with [] => Some ctx | c :: s => ctx ← printf_out_char ctx c; printf_out_str ctx s end.

(** [for (p = from; p < to; p++) printf_out_char(ctx, c);] *)
Definition pad (ctx : printf_ctx) (from to c : Z) : option printf_ctx :=
  printf_out_str ctx (replicate (Z.to_nat (to - from)) c).

(** ** Integers *)

Definition FLAG_LEFT : Z := 0x01.
Definition FLAG_ZERO : Z := 0x08.
Definition FLAG_UPPER : Z := 0x10.
Definition FLAG_ALT : Z := 0x20.

Definition digit_char (d flags : Z) : Z :=
  if d <? 10 then 48 + d else if nz (Z.land flags FLAG_UPPER) then 65 + d - 10 else 97 + d - 10.

(** The loop that fills [buf], the least significant digit first; 64 digits are enough
    for 64 bits in any base. *)
Fixpoint int_digits (fuel : nat) (val base flags : Z) : list Z :=
  match fuel with
  | O => []
  | S fuel => if 0 <? val then digit_char (val mod base) flags :: int_digits fuel (val / base) base flags else []
  end.

Definition print_int (ctx : printf_ctx) (val base : Z) (is_neg : bool) (width precision flags : Z) : option printf_ctx :=
  let buf := if val =? 0 then [48] else int_digits 64 val base flags in
  let len := Z.of_nat (length buf) in
  let pad_len := if len <? precision then precision else len in
  let pad_len := if is_neg then pad_len + 1 else pad_len in
  let left := nz (Z.land flags FLAG_LEFT) in
  let zero := nz (Z.land flags FLAG_ZERO) in
  ctx ← (if negb left && negb zero then pad ctx pad_len width 32 else Some ctx);
  ctx ← (if is_neg then printf_out_char ctx 45 else Some ctx);
  ctx ← pad ctx len precision 48;
  ctx ← printf_out_str ctx (rev buf);
  if left then pad ctx pad_len width 32 else Some ctx.

(** ** Doubles *)

Definition fmul : spec_float -> spec_float -> spec_float := SFmul 53 1024.
Definition fsub : spec_float -> spec_float -> spec_float := SFsub 53 1024.
(** An integer as a double. *)
Definition of_int (z : Z) : spec_float := binary_normalize 53 1024 z 0 (z <? 0).

(** The integer part, as a conversion to an integer type from [lo] to [hi] gives it. *)
Definition to_int (lo hi : Z) (x : spec_float) : option Z :=
  match x with
  | S754_zero _ => Some 0
  | S754_finite s m e =>
      let v := if 0 <=? e then Z.pos m * 2 ^ e else Z.pos m / 2 ^ (- e) in
      let v := if s then - v else v in
      if (lo <=? v) && (v <=? hi) then Some v else None
  | _ => None
  end.
Definition to_i32 : spec_float -> option Z := to_int (- 2 ^ 31) (2 ^ 31 - 1).
Definition to_u64 : spec_float -> option Z := to_int 0 (2 ^ 64 - 1).

(** [for (i = 0; i <= precision; i++) round_val *= 10.0;] *)
Fixpoint times10 (n : nat) (x : spec_float) : spec_float :=
  match n with O => x | S n => times10 n (fmul x (of_int 10)) end.

(** The loop over [frac_buf], from its last place to its first; [first] is
    [i == precision - 1]. *)
Fixpoint frac_digits (n : nat) (first : bool) (carry : Z) (frac_part : spec_float) (frac_buf : list Z) : option (Z * list Z) :=
  match n with
  | O => Some (carry, frac_buf)
  | S n =>
      let frac_part := fmul frac_part (of_int 10) in
      d ← to_i32 frac_part;
      let d' := if first then d + carry else d in
      let '(d', carry) := if 10 <=? d' then (d' - 10, 1) else (d', 0) in
      frac_digits n false carry (fsub frac_part (of_int d)) (u8 (48 + d') :: frac_buf)
  end.

Definition print_float (ctx : printf_ctx) (val : spec_float) (precision width flags : Z) : option printf_ctx :=
  '(ctx, val) ← (if SFltb val (S754_zero false) then ctx ← printf_out_char ctx 45; Some (ctx, SFopp val) else Some (ctx, val));
  int_part ← to_u64 val;
  let frac_part := fsub val (of_int int_part) in
  round_int ← to_i32 (times10 (Z.to_nat (precision + 1)) frac_part);
  let round_digit := Z.rem round_int 10 in
  let carry := if 5 <=? round_digit then 1 else 0 in
  if 64 <? precision then None else
  '(carry, frac_buf) ← frac_digits (Z.to_nat precision) true carry frac_part [];
  let int_part := if nz carry then u64 (int_part + 1) else int_part in
  let int_buf := if int_part =? 0 then [48] else int_digits 64 int_part 10 0 in
  let total_len := Z.of_nat (length int_buf) + 1 + precision in
  let left := nz (Z.land flags FLAG_LEFT) in
  ctx ← (if negb left then pad ctx total_len width 32 else Some ctx);
  ctx ← printf_out_str ctx (rev int_buf);
  ctx ← printf_out_char ctx 46;
  ctx ← printf_out_str ctx frac_buf;
  if left then pad ctx total_len width 32 else Some ctx.

(** ** The format *)

(** [*fmt]; the zero behind the format is its end. *)
Definition cur (fmt : str) : Z := match fmt with [] => 0 | c :: _ => c end.

Definition is_flag (c : Z) : bool := (c =? 45) || (c =? 43) || (c =? 32) || (c =? 35) || (c =? 48).
Fixpoint read_flags (fmt : str) (flags : Z) : Z * str :=
  match fmt with
  | [] => (flags, [])
  | c :: r =>
      if is_flag c then
        read_flags r (if c =? 45 then Z.lor flags FLAG_LEFT else if c =? 48 then Z.lor flags FLAG_ZERO
                      else if c =? 35 then Z.lor flags FLAG_ALT else flags)
      else (flags, fmt)
  end.

(** Decimal digits. *)
Fixpoint read_number (fmt : str) (acc : Z) : Z * str :=
  match fmt with
  | [] => (acc, [])
  | c :: r => if in_range 48 57 c then read_number r (i32 (acc * 10 + (c - 48))) else (acc, fmt)
  end.

Definition va_int (args : list va) : option (Z * list va) := match args with Slot z :: args => Some (i32 z, args) | _ => None end.
Definition va_uint (args : list va) : option (Z * list va) := match args with Slot z :: args => Some (u32 z, args) | _ => None end.
Definition va_llong (args : list va) : option (Z * list va) := match args with Slot z :: args => Some (i64 z, args) | _ => None end.
Definition va_ullong (args : list va) : option (Z * list va) := match args with Slot z :: args => Some (u64 z, args) | _ => None end.
Definition va_str (args : list va) : option (option str * list va) := match args with Str s :: args => Some (s, args) | _ => None end.
Definition va_double (args : list va) : option (spec_float * list va) := match args with Dbl d :: args => Some (d, args) | _ => None end.

(** A number or [*]. *)
Definition read_width (fmt : str) (args : list va) : option (Z * str * list va) :=
  match fmt with
  | 42 :: r => '(w, args) ← va_int args; Some (w, r, args)
  | _ => let '(w, r) := read_number fmt 0 in Some (w, r, args)
  end.

Definition read_precision (fmt : str) (args : list va) : option (Z * str * list va) :=
  match fmt with 46 :: r => read_width r args | _ => Some (-1, fmt, args) end.

(** [hh], [h], [l], [ll], [z], [j] and [t]. *)
Definition read_length (fmt : str) : Z * str :=
  match fmt with
  | 104 :: 104 :: r => (2, r)
  | 104 :: r => (1, r)
  | 108 :: 108 :: r => (4, r)
  | 108 :: r => (3, r)
  | 122 :: r | 106 :: r | 116 :: r => (4, r)
  | _ => (0, fmt)
  end.

(** ["(null)"] and ["0x"] *)
Definition s_null : str := [40; 110; 117; 108; 108; 41].
Definition s_0x : str := [48; 120].

(** The [switch] on the conversion character. *)
Definition convert (ctx : printf_ctx) (c flags width precision length_ : Z) (args : list va) : option (printf_ctx * list va) :=
  if (c =? 100) || (c =? 105) then
    '(val, args) ← (if length_ =? 4 then va_llong args else va_int args);
    let is_neg := val <? 0 in
    ctx ← print_int ctx (u64 (if is_neg then - val else val)) 10 is_neg width precision flags; Some (ctx, args)
  else if (c =? 117) || (c =? 111) || (c =? 120) || (c =? 88) then
    '(val, args) ← (if length_ =? 4 then va_ullong args else va_uint args);
    let base := if c =? 111 then 8 else if c =? 117 then 10 else 16 in
    let flags := if c =? 88 then Z.lor flags FLAG_UPPER else flags in
    ctx ← print_int ctx val base false width precision flags; Some (ctx, args)
  else if c =? 99 then '(v, args) ← va_int args; ctx ← printf_out_char ctx (u8 v); Some (ctx, args)
  else if c =? 115 then
    '(s, args) ← va_str args;
    let s := default s_null s in
    let len := Z.of_nat (length s) in
    let len := if (0 <=? precision) && (precision <? len) then precision else len in
    let left := nz (Z.land flags FLAG_LEFT) in
    ctx ← (if negb left then pad ctx len (u64 width) 32 else Some ctx);
    ctx ← printf_out_str ctx (take (Z.to_nat len) s);
    ctx ← (if left then pad ctx len (u64 width) 32 else Some ctx);
    Some (ctx, args)
  else if c =? 112 then
    '(val, args) ← va_ullong args;
    ctx ← printf_out_str ctx s_0x;
    ctx ← print_int ctx val 16 false width precision flags; Some (ctx, args)
  else if c =? 102 then
    '(val, args) ← va_double args;
    ctx ← print_float ctx val (if precision <? 0 then 6 else precision) width flags; Some (ctx, args)
  else ctx ← printf_out_char ctx c; Some (ctx, args).

(** One round for each character of the format at most. *)
Fixpoint format_loop (fuel : nat) (ctx : printf_ctx) (fmt : str) (args : list va) : option printf_ctx :=
  match fmt with
  | [] => Some ctx
  | c :: r =>
      match fuel with
      | O => None
      | S fuel =>
          if negb (c =? 37) then ctx ← printf_out_char ctx c; format_loop fuel ctx r args
          else
            let '(flags, fmt) := read_flags r 0 in
            '(width, fmt, args) ← read_width fmt args;
            '(precision, fmt, args) ← read_precision fmt args;
            let '(length_, fmt) := read_length fmt in
            '(ctx, args) ← convert ctx (cur fmt) flags width precision length_ args;
            match fmt with
            | [] => None
            | _ :: fmt => format_loop fuel ctx fmt args
            end
      end
  end.

Definition format_parser (ctx : printf_ctx) (fmt : str) (args : list va) : option printf_ctx :=
  format_loop (length fmt) ctx fmt args.

(** ** The functions *)

(** The result, and the buffer after the call. *)
Definition vsnprintf (str_ : option (list Z)) (size : Z) (fmt : str) (args : list va) : option (Z * option (list Z)) :=
  ctx ← format_parser (Ctx str_ 0 size 0) fmt args;
  match c_str ctx with
  | Some b =>
      if 0 <? size then
        let i := if c_pos ctx <? size then c_pos ctx else size - 1 in
        if i <? Z.of_nat (length b) then Some (c_count ctx, Some (<[Z.to_nat i := 0]> b)) else None
      else Some (c_count ctx, Some b)
  | None => Some (c_count ctx, None)
  end.

Definition vsprintf (str_ : option (list Z)) (fmt : str) (args : list va) : option (Z * option (list Z)) :=
  vsnprintf str_ 0xFFFFFFFF fmt args.

(** [vprintf] and [fprintf] write [len] bytes of an array of 4096 whose first contents are
    [junk]; the result is the count and the bytes written. *)
Definition vprintf (junk : list Z) (fmt : str) (args : list va) : option (Z * list Z) :=
  '(len, b) ← vsnprintf (Some (take 4096 (junk ++ replicate 4096 0))) 4096 fmt args;
  if 4096 <? len then None else
  Some (len, if 0 <? len then take (Z.to_nat len) (default [] b) else []).
