(* ===== verification/Scanf.v ===== *)
(** * Formatted input: lib/stdio.c (scanf family)

    The context is the rest of the string, the end mark and the character pushed back (-1
    for none).  What the parser stores through its pointer arguments is the list of
    stores, in order: an integer of a number of bits, or the characters of a string.
    Reading behind the end of the format is [None]. *)

From S2P Require Import Prelude CString Vfs Printf.

Definition EOF : Z := -1.

(** A byte as a [char]. *)
Definition i8 (x : Z) : Z := (x + 128) mod 256 - 128.

(** [str] of the context is never null here: [vsscanf] of a null pointer is not modelled. *)
Record scanf_ctx := Scan { s_rest : str; s_eof : bool; s_unget : Z }.

Definition scanf_get_char (ctx : scanf_ctx) : Z * scanf_ctx :=
  if negb (s_unget ctx =? -1) then (s_unget ctx, Scan (s_rest ctx) (s_eof ctx) (-1))
  else
    match s_rest ctx with
    | [] => (EOF, Scan [] true (-1))
    | c :: r => (c, Scan r (s_eof ctx) (-1))
    end.

Definition scanf_unget_char (ctx : scanf_ctx) (c : Z) : scanf_ctx := Scan (s_rest ctx) (s_eof ctx) c.

(** [do { c = scanf_get_char(ctx); } while (isspace(c));] in at most [n] rounds. *)
Fixpoint skip_white (n : nat) (ctx : scanf_ctx) : option (Z * scanf_ctx) :=
  match n with
  | O => None
  | S n => let '(c, ctx) := scanf_get_char ctx in if isspace c then skip_white n ctx else Some (c, ctx)
  end.

(** More rounds than characters that are left. *)
Definition rounds (ctx : scanf_ctx) : nat := S (S (length (s_rest ctx))).

Definition unget_char (c : Z) (ctx : scanf_ctx) : scanf_ctx := if c =? EOF then ctx else scanf_unget_char ctx c.

Inductive store_ := Int (bits val : Z) | Chars (l : list Z).

Definition xdigit (c : Z) : Z :=
  if in_range 48 57 c then c - 48 else if in_range 97 102 c then c - 97 + 10 else if in_range 65 70 c then c - 65 + 10 else -1.

(** [width == 0 || width-- > 0], and the width afterwards. *)
Definition width_left (width : Z) : bool * Z := if width =? 0 then (true, 0) else (0 <? width, width - 1).

(** The loop over the digits: the value, [any], and the character after them. *)
Fixpoint scan_digits (n : nat) (base width c val : Z) (any : bool) (ctx : scanf_ctx) : option (Z * bool * Z * scanf_ctx) :=
  match n with
  | O => None
  | S n =>
      if c =? EOF then Some (val, any, c, ctx) else
      let '(more, width) := width_left width in
      if negb more then Some (val, any, c, ctx) else
      let digit := xdigit c in
      if (digit <? 0) || (base <=? digit) then Some (val, any, c, ctx) else
      let '(c, ctx) := scanf_get_char ctx in
      scan_digits n base width c (u64 (val * base + digit)) true ctx
  end.

(** The sign, and the prefix of [%i]; the base, the first character and the sign. *)
Definition scan_sign (c : Z) (ctx : scanf_ctx) : bool * Z * scanf_ctx :=
  if c =? 45 then let '(c, ctx) := scanf_get_char ctx in (true, c, ctx)
  else if c =? 43 then let '(c, ctx) := scanf_get_char ctx in (false, c, ctx)
  else (false, c, ctx).

Definition scan_base (conv c : Z) (ctx : scanf_ctx) : Z * Z * scanf_ctx :=
  if conv =? 105 then
    if c =? 48 then
      let '(c, ctx) := scanf_get_char ctx in
      if (c =? 120) || (c =? 88) then let '(c, ctx) := scanf_get_char ctx in (16, c, ctx) else (8, c, ctx)
    else (10, c, ctx)
  else if conv =? 111 then (8, c, ctx)
  else if (conv =? 120) || (conv =? 88) then (16, c, ctx)
  else (10, c, ctx).

Definition int_bits (length_ : Z) : Z :=
  if (length_ =? 4) || (length_ =? 3) then 64 else if length_ =? 1 then 16 else if length_ =? 2 then 8 else 32.

(** An integer conversion; [None] in the result is the [break] out of the parser. *)
Definition scan_int (conv width length_ : Z) (suppress : bool) (ctx : scanf_ctx) : option (option (list store_) * scanf_ctx) :=
  '(c, ctx) ← skip_white (rounds ctx) ctx;
  if c =? EOF then Some (None, ctx) else
  let '(neg, c, ctx) := scan_sign c ctx in
  let '(base, c, ctx) := scan_base conv c ctx in
  '(val, any, c, ctx) ← scan_digits (rounds ctx) base width c 0 false ctx;
  let ctx := unget_char c ctx in
  if negb any then Some (None, ctx) else
  let val := if (neg : bool) then u64 (- val) else val in
  Some (Some (if suppress then [] else [Int (int_bits length_) (val mod 2 ^ int_bits length_)]), ctx).

(** The loop of [%s]. *)
Fixpoint scan_chars (n : nat) (width c : Z) (l : list Z) (ctx : scanf_ctx) : option (list Z * Z * scanf_ctx) :=
  match n with
  | O => None
  | S n =>
      if (c =? EOF) || isspace c then Some (l, c, ctx) else
      let '(more, width) := width_left width in
      if negb more then Some (l, c, ctx) else
      let '(c', ctx) := scanf_get_char ctx in
      scan_chars n width c' (l ++ [c]) ctx
  end.

Definition scan_str (width : Z) (suppress : bool) (ctx : scanf_ctx) : option (option (list store_) * scanf_ctx) :=
  '(c, ctx) ← skip_white (rounds ctx) ctx;
  if c =? EOF then Some (None, ctx) else
  '(l, c, ctx) ← scan_chars (rounds ctx) width c [] ctx;
  Some (Some (if suppress then [] else [Chars (l ++ [0])]), unget_char c ctx).

(** The loop of [%c]. *)
Fixpoint take_chars (n : nat) (l : list Z) (ctx : scanf_ctx) : list Z * scanf_ctx :=
  match n with
  | O => (l, ctx)
  | S n => let '(c, ctx) := scanf_get_char ctx in if c =? EOF then (l, ctx) else take_chars n (l ++ [c]) ctx
  end.

(** A conversion: [None] is a [break]. *)
Definition scan_conv (conv width length_ : Z) (suppress : bool) (ctx : scanf_ctx) : option (option (list store_) * scanf_ctx) :=
  if (conv =? 100) || (conv =? 105) || (conv =? 117) || (conv =? 111) || (conv =? 120) || (conv =? 88) then
    scan_int conv width length_ suppress ctx
  else if conv =? 115 then scan_str width suppress ctx
  else if conv =? 99 then
    let '(l, ctx) := take_chars (Z.to_nat (if width =? 0 then 1 else width)) [] ctx in
    Some (Some (if suppress then [] else [Chars l]), ctx)
  else if conv =? 37 then
    let '(c, ctx) := scanf_get_char ctx in
    if negb (c =? 37) then Some (None, unget_char c ctx) else Some (Some [], ctx)
  else Some (Some [], ctx).

Fixpoint skip_format (fmt : str) : str :=
  match fmt with [] => [] | c :: r => if isspace c then skip_format r else fmt end.

(** [hh], [h], [l] and [ll]. *)
Definition scan_length (fmt : str) : Z * str :=
  match fmt with
  | 104 :: 104 :: r => (2, r)
  | 104 :: r => (1, r)
  | 108 :: 108 :: r => (4, r)
  | 108 :: r => (3, r)
  | _ => (0, fmt)
  end.

(** The result is the number of conversions stored, and the stores. *)
Fixpoint scan_loop (n : nat) (ctx : scanf_ctx) (fmt : str) (matched : Z) (out : list store_) : option (Z * list store_) :=
  match fmt with
  | [] => Some (matched, out)
  | f :: r =>
      match n with
      | O => None
      | S n =>
          if isspace f then
            '(c, ctx) ← skip_white (rounds ctx) ctx;
            scan_loop n (unget_char c ctx) (skip_format fmt) matched out
          else if negb (f =? 37) then
            let '(c, ctx) := scanf_get_char ctx in
            (* [*fmt] is a signed char *)
            if negb (c =? i8 f) then Some (matched, out) else scan_loop n ctx r matched out
          else
            let '(suppress, fmt) := match r with 42 :: r => (true, r) | _ => (false, r) end in
            let '(width, fmt) := read_number fmt 0 in
            let '(length_, fmt) := scan_length fmt in
            '(res, ctx) ← scan_conv (cur fmt) width length_ suppress ctx;
            match res with
            | None => Some (matched, out)
            | Some l =>
                match fmt with
                | [] => None
                | _ :: fmt => scan_loop n ctx fmt (matched + Z.of_nat (length l)) (out ++ l)
                end
            end
      end
  end.

Definition scan_parser (ctx : scanf_ctx) (fmt : str) : option (Z * list store_) := scan_loop (length fmt) ctx fmt 0 [].

Definition vsscanf (s fmt : str) : option (Z * list store_) := scan_parser (Scan s false (-1)) fmt.

(** Input from streams is not implemented. *)
Definition vfscanf (fmt : str) : Z := 0.
Definition vscanf (fmt : str) : Z := 0.
