(* ===== verification/PrintfSpec.v ===== *)
(** * What printf promises

    [render] is the text of a format and its arguments, without a buffer.  [vsnprintf]
    stores as much of it as fits, ends it with a zero, and returns its length. *)

From S2P Require Import Prelude CString Vfs Printf Scanf.

Notation spaces n := (replicate (Z.to_nat n) 32).

(** ** The text *)

Definition int_chars (val base : Z) (is_neg : bool) (width precision flags : Z) : list Z :=
  let digits := rev (if val =? 0 then [48] else int_digits 64 val base flags) in
  let len := Z.of_nat (length digits) in
  let room := Z.max precision len + b2z is_neg in
  let left := nz (Z.land flags FLAG_LEFT) in
  (if negb left && negb (nz (Z.land flags FLAG_ZERO)) then spaces (width - room) else []) ++
  (if is_neg then [45] else []) ++ replicate (Z.to_nat (precision - len)) 48 ++ digits ++
  (if left then spaces (width - room) else []).

Definition float_chars (val : spec_float) (precision width flags : Z) : option (list Z) :=
  let neg := SFltb val (S754_zero false) in
  let val := if neg then SFopp val else val in
  int_part ← to_u64 val;
  let frac_part := fsub val (of_int int_part) in
  round_int ← to_i32 (times10 (Z.to_nat (precision + 1)) frac_part);
  if 64 <? precision then None else
  '(carry, frac) ← frac_digits (Z.to_nat precision) true (if 5 <=? Z.rem round_int 10 then 1 else 0) frac_part [];
  let int_part := if nz carry then u64 (int_part + 1) else int_part in
  let digits := rev (if int_part =? 0 then [48] else int_digits 64 int_part 10 0) in
  let room := Z.of_nat (length digits) + 1 + precision in
  let left := nz (Z.land flags FLAG_LEFT) in
  Some ((if neg then [45] else []) ++ (if negb left then spaces (width - room) else []) ++ digits ++ [46] ++ frac ++
        (if left then spaces (width - room) else [])).

Definition str_chars (s : str) (width precision flags : Z) : list Z :=
  let s := if 0 <=? precision then take (Z.to_nat precision) s else s in
  let fill := spaces (u64 width - Z.of_nat (length s)) in
  if nz (Z.land flags FLAG_LEFT) then s ++ fill else fill ++ s.

Definition conv_chars (c flags width precision length_ : Z) (args : list va) : option (list Z * list va) :=
  if (c =? 100) || (c =? 105) then
    '(val, args) ← (if length_ =? 4 then va_llong args else va_int args);
    Some (int_chars (u64 (Z.abs val)) 10 (val <? 0) width precision flags, args)
  else if (c =? 117) || (c =? 111) || (c =? 120) || (c =? 88) then
    '(val, args) ← (if length_ =? 4 then va_ullong args else va_uint args);
    Some (int_chars val (if c =? 111 then 8 else if c =? 117 then 10 else 16) false width precision
            (if c =? 88 then Z.lor flags FLAG_UPPER else flags), args)
  else if c =? 99 then '(v, args) ← va_int args; Some ([u8 v], args)
  else if c =? 115 then '(s, args) ← va_str args; Some (str_chars (default s_null s) width precision flags, args)
  else if c =? 112 then '(val, args) ← va_ullong args; Some (s_0x ++ int_chars val 16 false width precision flags, args)
  else if c =? 102 then
    '(val, args) ← va_double args; l ← float_chars val (if precision <? 0 then 6 else precision) width flags; Some (l, args)
  else Some ([c], args).

(** A conversion: flags, width, precision, length and character; what is left of the format. *)
Definition spec_of (fmt : str) (args : list va) : option (Z * Z * Z * Z * str * list va) :=
  let '(flags, fmt) := read_flags fmt 0 in
  '(width, fmt, args) ← read_width fmt args;
  '(precision, fmt, args) ← read_precision fmt args;
  let '(length_, fmt) := read_length fmt in
  Some (flags, width, precision, length_, fmt, args).

Fixpoint render_loop (n : nat) (fmt : str) (args : list va) : option (list Z) :=
  match n, fmt with
  | _, [] => Some []
  | O, _ => None
  | S n, c :: r =>
      if negb (c =? 37) then l ← render_loop n r args; Some (c :: l)
      else
        '(flags, width, precision, length_, fmt, args) ← spec_of r args;
        match fmt with
        | [] => None
        | c :: fmt => '(l, args) ← conv_chars c flags width precision length_ args; l' ← render_loop n fmt args; Some (l ++ l')
        end
  end.
Definition render (fmt : str) (args : list va) : option (list Z) := render_loop (length fmt) fmt args.

(** ** The context after some text *)

Definition after (b0 : option (list Z)) (size : Z) (out : list Z) : printf_ctx :=
  match b0 with
  | None => Ctx None 0 size (i32 (Z.of_nat (length out)))
  | Some b =>
      let n := (Z.to_nat (size - 1) `min` length out)%nat in
      Ctx (Some (take n out ++ drop n b)) (Z.of_nat n) size (i32 (Z.of_nat (length out)))
  end.

(** An array of at least [size] bytes, or none. *)
Definition buffer_ok (b0 : option (list Z)) (size : Z) : Prop :=
  0 < size < 2 ^ 64 /\ forall b, b0 = Some b -> size <= Z.of_nat (length b).

Lemma i32_step x : i32 (i32 x + 1) = i32 (x + 1).
Proof. unfold i32. dlia. Qed.

Lemma out_char_after b0 size out c :
  buffer_ok b0 size -> printf_out_char (after b0 size out) c = Some (after b0 size (out ++ [c])).
Proof.
  intros [Hs Hb]. unfold printf_out_char, after. rewrite length_app. cbn [length].
  destruct b0 as [b|]; cbn [c_str c_pos c_max c_count].
  2:{ rewrite i32_step. do 3 f_equal. lia. }
  specialize (Hb b eq_refl). rewrite (u64_small (size - 1)) by lia. rewrite i32_step.
  replace (Z.of_nat (length out) + 1) with (Z.of_nat (length out + 1)) by lia.
  destruct (Z.ltb_spec (Z.of_nat (Z.to_nat (size - 1) `min` length out)) (size - 1)) as [Hlt|Hge].
  - assert (E1 : (Z.to_nat (size - 1) `min` length out = length out)%nat) by lia.
    assert (E2 : (Z.to_nat (size - 1) `min` (length out + 1) = S (length out))%nat) by lia.
    rewrite E1, E2. rewrite length_app, length_take, length_drop, (proj2 (Z.ltb_lt _ _)) by lia.
    rewrite Nat2Z.id. do 2 f_equal; [|lia]. f_equal. rewrite take_ge by lia. rewrite take_ge by (rewrite length_app; cbn; lia).
    rewrite insert_app_r_alt, Nat.sub_diag by lia. rewrite <- app_assoc. f_equal.
    destruct (drop (length out) b) as [|x r] eqn:E; [apply (f_equal length) in E; rewrite length_drop in E; cbn in E; lia|].
    replace (drop (S (length out)) b) with (drop 1 (drop (length out) b)) by (rewrite drop_drop; f_equal; lia). by rewrite E.
  - assert (E1 : (Z.to_nat (size - 1) `min` length out = Z.to_nat (size - 1))%nat) by lia.
    assert (E2 : (Z.to_nat (size - 1) `min` (length out + 1) = Z.to_nat (size - 1))%nat) by lia.
    rewrite E1, E2. by rewrite take_app_le by lia.
Qed.

Section text.
Context (b0 : option (list Z)) (size : Z) (Hok : buffer_ok b0 size).
Implicit Types out : list Z.

Lemma out_str_after s : forall out, printf_out_str (after b0 size out) s = Some (after b0 size (out ++ s)).
Proof.
  induction s as [|c s IH]; intros out; cbn [printf_out_str]; [by rewrite app_nil_r|].
  rewrite out_char_after by done. cbn [mbind option_bind]. by rewrite IH, <- app_assoc.
Qed.

Lemma pad_after out from to c : pad (after b0 size out) from to c = Some (after b0 size (out ++ replicate (Z.to_nat (to - from)) c)).
Proof. apply out_str_after. Qed.

Lemma print_int_after out val base is_neg width precision flags :
  print_int (after b0 size out) val base is_neg width precision flags =
  Some (after b0 size (out ++ int_chars val base is_neg width precision flags)).
Proof.
  unfold print_int, int_chars. set (buf := if val =? 0 then _ else _). rewrite length_rev.
  set (len := Z.of_nat (length buf)).
  replace (if is_neg then (if len <? precision then precision else len) + 1 else if len <? precision then precision else len)
    with (Z.max precision len + b2z is_neg) by (destruct is_neg; cbn [b2z]; destruct (Z.ltb_spec len precision); lia).
  set (room := Z.max precision len + b2z is_neg). set (left := nz (Z.land flags FLAG_LEFT)).
  set (zero := nz (Z.land flags FLAG_ZERO)).
  assert (Hsp : forall o (b : bool), (if b then pad (after b0 size o) room width 32 else Some (after b0 size o)) =
    Some (after b0 size (o ++ if b then spaces (width - room) else []))).
  { intros o [|]; [apply pad_after|by rewrite app_nil_r]. }
  rewrite Hsp. cbn [mbind option_bind].
  assert (Hneg : forall o, (if is_neg then printf_out_char (after b0 size o) 45 else Some (after b0 size o)) =
    Some (after b0 size (o ++ if is_neg then [45] else []))).
  { intros o. destruct is_neg; [by apply out_char_after|by rewrite app_nil_r]. }
  rewrite Hneg. cbn [mbind option_bind]. rewrite pad_after. cbn [mbind option_bind]. rewrite out_str_after. cbn [mbind option_bind].
  rewrite Hsp. by rewrite <- !app_assoc.
Qed.

Lemma print_float_after out val precision width flags :
  print_float (after b0 size out) val precision width flags =
  l ← float_chars val precision width flags; Some (after b0 size (out ++ l)).
Proof.
  unfold print_float, float_chars. set (neg := SFltb val (S754_zero false)).
  assert (Hneg : (if neg then ctx ← printf_out_char (after b0 size out) 45; Some (ctx, SFopp val) else Some (after b0 size out, val)) =
    Some (after b0 size (out ++ if neg then [45] else []), if neg then SFopp val else val)).
  { destruct neg; [rewrite out_char_after by done; done|by rewrite app_nil_r]. }
  rewrite Hneg. cbn [mbind option_bind]. set (v := if neg then SFopp val else val).
  destruct (to_u64 v) as [int_part|]; [|done]. cbn [mbind option_bind].
  destruct (to_i32 _) as [round_int|]; [|done]. cbn [mbind option_bind]. destruct (64 <? precision); [done|].
  destruct (frac_digits _ _ _ _ _) as [[carry frac]|]; [|done]. cbn [mbind option_bind].
  set (ip := if nz carry then _ else int_part). set (buf := if ip =? 0 then _ else _). rewrite length_rev.
  set (room := Z.of_nat (length buf) + 1 + precision). set (left := nz (Z.land flags FLAG_LEFT)).
  assert (Hsp : forall o (b : bool), (if b then pad (after b0 size o) room width 32 else Some (after b0 size o)) =
    Some (after b0 size (o ++ if b then spaces (width - room) else []))).
  { intros o [|]; [apply pad_after|by rewrite app_nil_r]. }
  rewrite Hsp. cbn [mbind option_bind]. rewrite out_str_after. cbn [mbind option_bind].
  rewrite out_char_after by done. cbn [mbind option_bind]. rewrite out_str_after. cbn [mbind option_bind].
  rewrite Hsp. by rewrite <- !app_assoc.
Qed.

Lemma str_after out s width precision flags :
  (let len := Z.of_nat (length s) in
   let len := if (0 <=? precision) && (precision <? len) then precision else len in
   let left := nz (Z.land flags FLAG_LEFT) in
   ctx ← (if negb left then pad (after b0 size out) len (u64 width) 32 else Some (after b0 size out));
   ctx ← printf_out_str ctx (take (Z.to_nat len) s);
   if left then pad ctx len (u64 width) 32 else Some ctx) =
  Some (after b0 size (out ++ str_chars s width precision flags)).
Proof.
  cbv zeta. unfold str_chars. set (len := if _ && _ then _ else _). set (s' := if 0 <=? precision then _ else s).
  assert (Hs : take (Z.to_nat len) s = s' /\ Z.of_nat (length s') = len).
  { unfold len, s'. destruct (Z.leb_spec 0 precision), (Z.ltb_spec precision (Z.of_nat (length s))); cbn [andb];
      rewrite ?length_take, ?Nat2Z.id; (split; [|lia]); try done; rewrite !take_ge by lia; done. }
  destruct Hs as [-> ->]. destruct (nz _); cbn [negb mbind option_bind].
  - rewrite out_str_after. cbn [mbind option_bind]. by rewrite pad_after, <- app_assoc.
  - rewrite pad_after. cbn [mbind option_bind]. by rewrite out_str_after, <- app_assoc.
Qed.

Lemma neg_abs x : (if x <? 0 then - x else x) = Z.abs x.
Proof. destruct (Z.ltb_spec x 0); lia. Qed.

Lemma convert_after out c flags width precision length_ args :
  convert (after b0 size out) c flags width precision length_ args =
  '(l, args) ← conv_chars c flags width precision length_ args; Some (after b0 size (out ++ l), args).
Proof.
  unfold convert, conv_chars. destruct ((c =? 100) || (c =? 105)).
  { destruct (if length_ =? 4 then _ else _) as [[val args']|]; [|done]. cbn [mbind option_bind].
    rewrite neg_abs, print_int_after. done. }
  destruct ((c =? 117) || (c =? 111) || (c =? 120) || (c =? 88)).
  { destruct (if length_ =? 4 then _ else _) as [[val args']|]; [|done]. cbn [mbind option_bind]. rewrite print_int_after. done. }
  destruct (c =? 99).
  { destruct (va_int args) as [[v args']|]; [|done]. cbn [mbind option_bind]. rewrite out_char_after by done. done. }
  destruct (c =? 115).
  { destruct (va_str args) as [[s args']|]; [|done]. cbn [mbind option_bind].
    pose proof (str_after out (default s_null s) width precision flags) as Hs. cbv zeta in Hs.
    destruct (if negb _ then _ else _) as [ctx|]; [|discriminate Hs]. cbn [mbind option_bind] in Hs |- *.
    destruct (printf_out_str ctx _) as [ctx'|]; [|discriminate Hs]. cbn [mbind option_bind] in Hs |- *. by rewrite Hs. }
  destruct (c =? 112).
  { destruct (va_ullong args) as [[v args']|]; [|done]. cbn [mbind option_bind]. rewrite out_str_after. cbn [mbind option_bind].
    rewrite print_int_after. by rewrite <- app_assoc. }
  destruct (c =? 102).
  { destruct (va_double args) as [[v args']|]; [|done]. cbn [mbind option_bind]. rewrite print_float_after.
    by destruct (float_chars _ _ _ _). }
  by rewrite out_char_after by done.
Qed.

Lemma format_after n : forall fmt args out,
  format_loop n (after b0 size out) fmt args = l ← render_loop n fmt args; Some (after b0 size (out ++ l)).
Proof.
  induction n as [|n IH]; intros fmt args out; destruct fmt as [|c r]; cbn [format_loop render_loop]; try done;
    try (cbn; by rewrite app_nil_r).
  destruct (c =? 37); cbn [negb].
  - unfold spec_of. destruct (read_flags r 0) as [flags fmt]. destruct (read_width fmt args) as [[[width fmt1] args1]|]; [|done].
    cbn [mbind option_bind]. destruct (read_precision fmt1 args1) as [[[precision fmt2] args2]|]; [|done].
    cbn [mbind option_bind]. destruct (read_length fmt2) as [length_ fmt3]. cbn [mbind option_bind].
    rewrite convert_after. destruct fmt3 as [|k fmt3]; cbn [cur].
    { by destruct (conv_chars _ _ _ _ _ _) as [[? ?]|]. }
    destruct (conv_chars k flags width precision length_ args2) as [[l args3]|]; [|done]. cbn [mbind option_bind].
    rewrite IH. destruct (render_loop n fmt3 args3); [|done]. cbn [mbind option_bind]. by rewrite <- app_assoc.
  - rewrite out_char_after by done. cbn [mbind option_bind]. rewrite IH.
    destruct (render_loop n r args); [|done]. cbn [mbind option_bind]. by rewrite <- app_assoc.
Qed.
End text.

(** The array after the call: the text as far as it fits, a zero, and the rest as it was. *)
Definition filled (b : list Z) (size : Z) (out : list Z) : list Z :=
  let n := (Z.to_nat (size - 1) `min` length out)%nat in take n out ++ 0 :: drop (S n) b.

Lemma vsnprintf_equations b size fmt args :
  0 < size < 2 ^ 64 -> size <= Z.of_nat (length b) ->
  vsnprintf (Some b) size fmt args =
    (out ← render fmt args; Some (i32 (Z.of_nat (length out)), Some (filled b size out))) /\
  vsnprintf None size fmt args = out ← render fmt args; Some (i32 (Z.of_nat (length out)), None).
Proof.
  intros Hs Hb. unfold vsnprintf, format_parser, render.
  assert (E1 : Ctx (Some b) 0 size 0 = after (Some b) size []) by (unfold after; cbn [length]; by rewrite Nat.min_0_r).
  assert (E2 : Ctx None 0 size 0 = after None size []) by done.
  rewrite E1, E2, !format_after by (split; [done|intros b' E; by simplify_eq]). split.
  - destruct (render_loop _ fmt args) as [out|]; [|done]. cbn [mbind option_bind app]. unfold after, filled. cbn [c_str c_pos c_count].
    set (n := (Z.to_nat (size - 1) `min` length out)%nat).
    rewrite (proj2 (Z.ltb_lt 0 size)) by lia. rewrite (proj2 (Z.ltb_lt (Z.of_nat n) size)) by lia.
    assert (Hn : (n < length b)%nat) by lia.
    rewrite length_app, length_take, length_drop, (proj2 (Z.ltb_lt _ _)) by lia. do 3 f_equal. rewrite Nat2Z.id.
    assert (El : length (take n out) = n) by (rewrite length_take; lia).
    rewrite insert_app_r_alt by lia. rewrite El, Nat.sub_diag.
    destruct (drop n b) as [|x r] eqn:E; [apply (f_equal length) in E; rewrite length_drop in E; cbn in E; lia|].
    replace (drop (S n) b) with (drop 1 (drop n b)) by (rewrite drop_drop; f_equal; lia). by rewrite E.
  - by destruct (render_loop _ fmt args).
Qed.

Lemma vsnprintf_text b size fmt args :
  0 < size < 2 ^ 64 -> size <= Z.of_nat (length b) ->
  vsnprintf (Some b) size fmt args =
    (out ← render fmt args; Some (i32 (Z.of_nat (length out)), Some (filled b size out))).
Proof. intros Hs Hb. by apply vsnprintf_equations. Qed.


(** ** Decimal numerals *)

(** The value of decimal digits, most significant first, after [acc]. *)
Definition decimal (acc : Z) (ds : list Z) : Z := foldl (fun a c => a * 10 + (c - 48)) acc ds.
Definition is_digit (c : Z) : Prop := 48 <= c <= 57.

Lemma int_digits_spec n : forall v, 0 <= v < 10 ^ Z.of_nat n ->
  Forall is_digit (int_digits n v 10 0) /\ decimal 0 (rev (int_digits n v 10 0)) = v /\ (0 < v -> int_digits n v 10 0 <> []).
Proof.
  induction n as [|n IH]; intros v Hv; cbn [int_digits].
  { change (10 ^ Z.of_nat 0) with 1 in Hv. assert (v = 0) as -> by lia. done. }
  destruct (Z.ltb_spec 0 v) as [Hp|Hz]; [|assert (v = 0) as -> by lia; done].
  destruct (IH (v / 10)) as (H1 & H2 & _).
  { rewrite Nat2Z.inj_succ, Z.pow_succ_r in Hv by lia. split; [apply Z.div_pos; lia|apply Z.div_lt_upper_bound; lia]. }
  pose proof (Z.mod_pos_bound v 10 ltac:(lia)). split_and!; [|cbn [rev]|done].
  - constructor; [|done]. unfold is_digit, digit_char. rewrite (proj2 (Z.ltb_lt _ _)) by lia. lia.
  - unfold decimal in *. rewrite foldl_app, H2. cbn [foldl]. unfold digit_char. rewrite (proj2 (Z.ltb_lt _ _)) by lia.
    pose proof (Z.div_mod v 10). lia.
Qed.

(** What [%d] and [%u] print of the absolute value [v]. *)
Definition digits_of (v : Z) : list Z := rev (if v =? 0 then [48] else int_digits 64 v 10 0).

Lemma digits_of_spec v : 0 <= v < 2 ^ 64 -> Forall is_digit (digits_of v) /\ decimal 0 (digits_of v) = v /\ digits_of v <> [].
Proof.
  intros Hv. unfold digits_of. destruct (Z.eqb_spec v 0) as [->|Hne].
  { split_and!; [|done|done]. constructor; [unfold is_digit; lia|constructor]. }
  destruct (int_digits_spec 64 v) as (H1 & H2 & H3); [change (10 ^ Z.of_nat 64) with (10 ^ 64); lia|].
  split_and!; [by apply Forall_rev|done|]. intros E. apply (f_equal (@rev Z)) in E. rewrite rev_involutive in E. apply H3; [lia|done].
Qed.

(** A number as [%d] prints it. *)
Definition numeral (z : Z) : list Z := (if z <? 0 then [45] else []) ++ digits_of (Z.abs z).

Lemma int_chars_plain v (neg : bool) : int_chars v 10 neg 0 (-1) 0 = (if neg then [45] else []) ++ digits_of v.
Proof.
  unfold int_chars, digits_of. cbn [nz Z.land Z.eqb negb andb]. set (ds := rev _).
  replace (Z.to_nat (0 - _)) with 0%nat by (destruct neg; cbn [b2z]; lia).
  replace (Z.to_nat (-1 - _)) with 0%nat by lia. cbn [replicate]. by rewrite app_nil_r.
Qed.

(** ** Reading numbers back *)

(** What is left to read: the character pushed back and the rest. *)
Definition view (ctx : scanf_ctx) : list Z := (if s_unget ctx =? -1 then [] else [s_unget ctx]) ++ s_rest ctx.

Lemma get_view ctx c r : view ctx = c :: r -> exists ctx', scanf_get_char ctx = (c, ctx') /\ view ctx' = r /\ s_rest ctx' = r.
Proof.
  unfold view, scanf_get_char. destruct (Z.eqb_spec (s_unget ctx) (-1)); cbn [negb app].
  - intros ->. eexists. split; [done|]. done.
  - intros [= <- <-]. eexists. split; [done|]. done.
Qed.

Lemma get_view_end ctx : view ctx = [] -> exists ctx', scanf_get_char ctx = (EOF, ctx') /\ view ctx' = [] /\ s_rest ctx' = [].
Proof.
  unfold view, scanf_get_char. destruct (Z.eqb_spec (s_unget ctx) (-1)); cbn [negb app]; [|done].
  intros ->. eexists. split; [done|]. done.
Qed.

Lemma rounds_view ctx : (length (view ctx) < rounds ctx)%nat.
Proof. unfold view, rounds. rewrite length_app. destruct (_ =? _); cbn; lia. Qed.

Lemma view_unget ctx c : c <> -1 -> view (scanf_unget_char ctx c) = c :: s_rest ctx.
Proof. intros Hc. unfold view, scanf_unget_char. cbn. by rewrite (proj2 (Z.eqb_neq _ _)). Qed.

Lemma skip_white_view n ctx c r : isspace c = false -> view ctx = c :: r -> (0 < n)%nat ->
  exists ctx', skip_white n ctx = Some (c, ctx') /\ view ctx' = r /\ s_rest ctx' = r.
Proof.
  intros Hc Hv Hn. destruct n as [|n]; [lia|]. destruct (get_view ctx c r Hv) as (ctx' & E & H1 & H2).
  exists ctx'. cbn [skip_white]. rewrite E, Hc. done.
Qed.

Lemma digit_not_space c : is_digit c -> isspace c = false /\ c <> -1 /\ xdigit c = c - 48 /\ (c =? EOF) = false.
Proof.
  intros Hc. unfold is_digit in Hc. unfold isspace, xdigit, in_range, EOF.
  rewrite (proj2 (Z.leb_le 48 c)), (proj2 (Z.leb_le c 57)) by lia. cbn [andb].
  split_and!; lia.
Qed.

Lemma scan_digits_view ds : forall n c val any ctx r,
  Forall is_digit (c :: ds) -> view ctx = ds ++ 32 :: r -> (S (length ds) < n)%nat -> 0 <= val ->
  decimal val (c :: ds) < 2 ^ 64 ->
  exists ctx', scan_digits n 10 0 c val any ctx = Some (decimal val (c :: ds), true, 32, ctx') /\ view ctx' = r /\ s_rest ctx' = r.
Proof.
  assert (Hmono : forall l v, 0 <= v -> Forall is_digit l -> v <= decimal v l).
  { induction l as [|x l IH]; intros v Hv Hl; [done|]. apply Forall_cons in Hl as [Hx Hl]. unfold is_digit in Hx.
    unfold decimal. cbn [foldl]. fold (decimal (v * 10 + (x - 48)) l). specialize (IH (v * 10 + (x - 48)) ltac:(lia) Hl). lia. }
  induction ds as [|d ds IH]; intros n c val any ctx r Hds Hv Hn Hval Hlt;
    apply Forall_cons in Hds as [Hc Hds]; destruct (digit_not_space c Hc) as (_ & _ & Hx & He);
    unfold is_digit in Hc; (destruct n as [|n]; [lia|]); cbn [scan_digits]; rewrite He, Hx; cbn [width_left Z.eqb negb];
    rewrite (proj2 (Z.ltb_ge _ _)), (proj2 (Z.leb_gt _ _)) by lia; cbn [orb].
  - cbn [app] in Hv. destruct (get_view ctx 32 r Hv) as (ctx' & -> & H1 & H2). exists ctx'.
    unfold decimal in *. cbn [foldl] in *. rewrite u64_small by lia.
    destruct n as [|n]; [cbn [length] in Hn; lia|]. done.
  - cbn [app] in Hv. destruct (get_view ctx d _ Hv) as (ctx' & -> & H1 & H2).
    pose proof (Hmono (d :: ds) (val * 10 + (c - 48)) ltac:(lia) Hds) as Hm.
    change (decimal val (c :: d :: ds)) with (decimal (val * 10 + (c - 48)) (d :: ds)) in *.
    rewrite u64_small by lia. destruct (IH n d (val * 10 + (c - 48)) true ctx' r) as (ctx2 & E & Hv2); try done; [cbn [length] in Hn; lia|lia|].
    exists ctx2. by rewrite E.
Qed.

Lemma scan_int_numeral ctx z r : - 2 ^ 31 <= z < 2 ^ 31 -> view ctx = numeral z ++ 32 :: r ->
  exists ctx', scan_int 100 0 0 false ctx = Some (Some [Int 32 (u32 z)], ctx') /\ view ctx' = 32 :: r.
Proof.
  intros Hz Hv. destruct (digits_of_spec (Z.abs z)) as (Hd & Hval & Hne); [lia|]. unfold numeral in Hv.
  destruct (digits_of (Z.abs z)) as [|d ds]; [done|]. pose proof Hd as [Hd0 _]%Forall_cons.
  destruct (digit_not_space d Hd0) as (Hsp & Hm1 & _ & He).
  (* the sign and the first digit *)
  assert (Hs : exists c ctx1, skip_white (rounds ctx) ctx = Some (c, ctx1) /\ (c =? EOF) = false /\
    exists ctx2, scan_sign c ctx1 = (z <? 0, d, ctx2) /\ view ctx2 = ds ++ 32 :: r /\ s_rest ctx2 = ds ++ 32 :: r).
  { pose proof (rounds_view ctx) as Hr. destruct (Z.ltb_spec z 0) as [Hneg|Hpos]; cbn [app] in Hv.
    - destruct (skip_white_view (rounds ctx) ctx 45 _ eq_refl Hv ltac:(lia)) as (ctx1 & E1 & V1 & _).
      destruct (get_view ctx1 d _ V1) as (ctx2 & E2 & V2 & R2). exists 45, ctx1. split; [done|]. split; [done|].
      exists ctx2. unfold scan_sign. cbn [Z.eqb Pos.eqb]. rewrite E2. done.
    - destruct (skip_white_view (rounds ctx) ctx d _ Hsp Hv ltac:(lia)) as (ctx1 & E1 & V1 & R1). exists d, ctx1.
      split; [done|]. split; [done|]. exists ctx1. unfold scan_sign. unfold is_digit in Hd0.
      rewrite (proj2 (Z.eqb_neq d 45)), (proj2 (Z.eqb_neq d 43)) by lia. done. }
  destruct Hs as (c & ctx1 & E1 & Ec & ctx2 & E2 & V2 & R2).
  unfold scan_int. rewrite E1. cbn [mbind option_bind]. rewrite Ec, E2. unfold scan_base. cbn [Z.eqb Pos.eqb orb].
  destruct (scan_digits_view ds (rounds ctx2) d 0 false ctx2 r Hd V2) as (ctx3 & E3 & V3 & R3).
  { unfold rounds. rewrite R2, length_app. cbn [length]. lia. } { lia. } { rewrite Hval. lia. }
  rewrite E3, Hval. cbn [mbind option_bind negb]. exists (scanf_unget_char ctx3 32). split; [|by rewrite view_unget, R3].
  do 5 f_equal. change (int_bits 0) with 32. unfold u32, u64. destruct (Z.ltb_spec z 0); dlia.
Qed.

(** ** Lists of numbers *)

(** ["%d "] *)
Definition s_d : str := [37; 100; 32].
Definition numbers_format (zs : list Z) : str := concat ((fun _ => s_d) <$> zs).
Definition numbers_text (zs : list Z) : list Z := concat ((fun z => numeral z ++ [32]) <$> zs).
Definition is_int (z : Z) : Prop := - 2 ^ 31 <= z < 2 ^ 31.

Lemma render_numbers zs : forall n, Forall is_int zs -> (length (numbers_format zs) <= n)%nat ->
  render_loop n (numbers_format zs) (Slot <$> zs) = Some (numbers_text zs).
Proof.
  induction zs as [|z zs IH]; intros n Hz Hn; [by destruct n|]. apply Forall_cons in Hz as [Hz Hzs].
  change (numbers_format (z :: zs)) with (37 :: 100 :: 32 :: numbers_format zs) in *. cbn [length] in Hn.
  destruct n as [|[|n]]; [lia|lia|]. cbn [render_loop Z.eqb Pos.eqb negb fmap list_fmap].
  change (spec_of _ (Slot z :: (Slot <$> zs))) with (Some (0, 0, -1, 0, 100 :: 32 :: numbers_format zs, Slot z :: (Slot <$> zs))).
  cbn [mbind option_bind]. unfold conv_chars. cbn [Z.eqb Pos.eqb orb va_int mbind option_bind].
  rewrite i32_small by (unfold is_int in Hz; lia). rewrite IH by (done || lia). cbn [mbind option_bind].
  rewrite int_chars_plain, u64_small by (unfold is_int in Hz; lia). fold (numeral z).
  change (numbers_text (z :: zs)) with ((numeral z ++ [32]) ++ numbers_text zs). by rewrite <- app_assoc.
Qed.

Lemma numeral_head z : is_int z -> exists c r, numeral z = c :: r /\ isspace c = false /\ c <> -1.
Proof.
  intros Hz. unfold is_int in Hz. destruct (digits_of_spec (Z.abs z)) as (Hd & _ & Hne); [lia|]. unfold numeral.
  destruct (z <? 0); [by eexists 45, _|]. destruct (digits_of (Z.abs z)) as [|d ds]; [done|].
  apply Forall_cons in Hd as [Hd _]. destruct (digit_not_space d Hd) as (? & ? & _). by exists d, ds.
Qed.

(** The space between two numbers, and what follows it. *)
Lemma space_step ctx zs : Forall is_int zs -> view ctx = 32 :: numbers_text zs ->
  exists c ctx', skip_white (rounds ctx) ctx = Some (c, ctx') /\ view (unget_char c ctx') = numbers_text zs.
Proof.
  intros Hz Hv. pose proof (rounds_view ctx) as Hr. rewrite Hv in Hr. cbn [length] in Hr.
  destruct (get_view ctx 32 _ Hv) as (ctx1 & E1 & V1 & R1). destruct (rounds ctx) as [|n]; [lia|]. cbn [skip_white]. rewrite E1.
  change (isspace 32) with true. cbn iota. destruct zs as [|z zs].
  - destruct (get_view_end ctx1 V1) as (ctx2 & E2 & V2 & _). destruct n as [|n]; [cbn in Hr; lia|]. cbn [skip_white]. rewrite E2.
    by exists EOF, ctx2.
  - apply Forall_cons in Hz as [Hz _]. destruct (numeral_head z Hz) as (c & r & E & Hsp & Hm1).
    change (numbers_text (z :: zs)) with ((numeral z ++ [32]) ++ numbers_text zs) in *. rewrite E in *. cbn [app] in *.
    destruct (skip_white_view n ctx1 c _ Hsp V1) as (ctx2 & E2 & V2 & R2); [cbn [length] in Hr; lia|].
    exists c, ctx2. split; [done|]. unfold unget_char. rewrite (proj2 (Z.eqb_neq c EOF)) by done. by rewrite view_unget, R2.
Qed.

Lemma scan_numbers zs : forall n ctx matched out,
  Forall is_int zs -> view ctx = numbers_text zs -> (length (numbers_format zs) <= n)%nat ->
  scan_loop n ctx (numbers_format zs) matched out =
  Some (matched + Z.of_nat (length zs), out ++ ((fun z => Int 32 (u32 z)) <$> zs)).
Proof.
  induction zs as [|z zs IH]; intros n ctx matched out Hz Hv Hn.
  { destruct n; cbn; by rewrite Z.add_0_r, app_nil_r. }
  apply Forall_cons in Hz as [Hz Hzs]. change (numbers_format (z :: zs)) with (37 :: 100 :: 32 :: numbers_format zs) in *.
  cbn [length] in Hn. destruct n as [|[|n]]; [lia|lia|].
  change (numbers_text (z :: zs)) with ((numeral z ++ [32]) ++ numbers_text zs) in Hv. rewrite <- app_assoc in Hv. cbn [app] in Hv.
  destruct (scan_int_numeral ctx z _ Hz Hv) as (ctx1 & E1 & V1).
  change (scan_loop (S (S n)) ctx (37 :: 100 :: 32 :: numbers_format zs) matched out) with
    ('(res, ctx) ← scan_int 100 0 0 false ctx;
     match res with
     | None => Some (matched, out)
     | Some l => scan_loop (S n) ctx (32 :: numbers_format zs) (matched + Z.of_nat (length l)) (out ++ l)
     end).
  rewrite E1. cbn [mbind option_bind]. destruct (space_step ctx1 zs Hzs V1) as (c & ctx2 & E2 & V2).
  cbn [scan_loop]. change (isspace 32) with true. cbn iota. rewrite E2. cbn [mbind option_bind].
  replace (skip_format (32 :: numbers_format zs)) with (numbers_format zs) by (by destruct zs).
  rewrite IH by (done || lia). rewrite <- app_assoc. cbn [length app fmap list_fmap]. do 2 f_equal. lia.
Qed.

(** C39. What printf writes, scanf reads.  Any list of [int]s printed with ["%d "] each into an
    array with room for the text, and read from it with the same format: [vsscanf] converts
    all of them and stores the numbers. *)
Theorem printf_scanf_roundtrip zs b size :
  Forall is_int zs -> 0 < size < 2 ^ 64 -> size <= Z.of_nat (length b) ->
  Z.of_nat (length (numbers_text zs)) < size -> Z.of_nat (length (numbers_text zs)) < 2 ^ 31 ->
  exists text rest, vsnprintf (Some b) size (numbers_format zs) (Slot <$> zs) = Some (Z.of_nat (length text), Some (text ++ 0 :: rest)) /\
    vsscanf text (numbers_format zs) = Some (Z.of_nat (length zs), (fun z => Int 32 (u32 z)) <$> zs).
Proof.
  intros Hz Hs Hb Hfit H31. exists (numbers_text zs), (drop (S (length (numbers_text zs))) b). split.
  - rewrite (vsnprintf_text b size) by done. unfold render. rewrite render_numbers by done. cbn [mbind option_bind].
    rewrite i32_small by lia. do 3 f_equal. unfold filled. rewrite Nat.min_r by lia. by rewrite take_ge.
  - unfold vsscanf, scan_parser. rewrite scan_numbers; [done|done|done|lia].
Qed.

(** [-2147483648 0 42 ] *)
Lemma printf_scanf_roundtrip_witness :
  exists text rest, vsnprintf (Some (replicate 32 7)) 32 (numbers_format [- 2 ^ 31; 0; 42]) (Slot <$> [- 2 ^ 31; 0; 42]) =
    Some (17, Some (text ++ 0 :: rest)) /\
    vsscanf text (numbers_format [- 2 ^ 31; 0; 42]) = Some (3, [Int 32 (2 ^ 31); Int 32 0; Int 32 42]).
Proof.
  destruct (printf_scanf_roundtrip [- 2 ^ 31; 0; 42] (replicate 32 7) 32) as (text & rest & E1 & E2);
    [repeat constructor; cbn; lia|lia|cbn; lia|vm_compute; reflexivity|vm_compute; reflexivity|].
  exists text, rest. split; [|exact E2]. rewrite E1. assert (Hl : option_map fst (vsnprintf (Some (replicate 32 7)) 32 (numbers_format [- 2 ^ 31; 0; 42]) (Slot <$> [- 2 ^ 31; 0; 42])) = Some 17) by (vm_compute; reflexivity).
  rewrite E1 in Hl. cbn [option_map fst] in Hl. by injection Hl as ->.
Defined.

(** ["%d%%"] *)
Definition s_percent : str := [37; 100; 37; 37].


(** ** What the functions do not do *)

(** With the flag 0 a number is not filled at all. *)
Example zero_flag : render [37; 48; 53; 100] [Slot 42] = Some [52; 50].
Proof. vm_compute. reflexivity. Qed.

(** [%ld] of a long takes its lower 32 bits. *)
Example long_truncated : render [37; 108; 100] [Slot (2 ^ 32 + 5)] = Some [53].
Proof. vm_compute. reflexivity. Qed.

(** [%.2f] of 3.25 is [3.52]: the digits behind the point come out in reverse. *)
Definition f_3_25 : spec_float := S754_finite false (13 * 2 ^ 49) (-51).
Example fraction_reversed : render [37; 46; 50; 102] [Dbl f_3_25] = Some [51; 46; 53; 50].
Proof. vm_compute. reflexivity. Qed.

(** [%.2f] of 0.125: the carry of the rounding goes to the first digit, not the last. *)
Example rounding_carry : render [37; 46; 50; 102] [Dbl (S754_finite false (2 ^ 52) (-55))] = Some [48; 46; 50; 50].
Proof. vm_compute. reflexivity. Qed.

(** With size 0 the whole text is stored, without a zero. *)
Example size_zero : vsnprintf (Some [1; 2; 3]) 0 [97; 98] [] = Some (2, Some [97; 98; 3]).
Proof. vm_compute. reflexivity. Qed.

(** A format that ends in the middle of a conversion is read behind its end. *)
Example percent_at_end : render [97; 37] [] = None /\ vsnprintf (Some (replicate 8 0)) 8 [97; 37] [] = None.
Proof. vm_compute. split; reflexivity. Qed.

(** [%i] does not read a zero, and the width of a conversion does not end it: [%2d%d] reads
    [1234] as one number. *)
Example scan_zero : vsscanf [48] [37; 105] = Some (0, []).
Proof. vm_compute. reflexivity. Qed.
Example scan_width : vsscanf [49; 50; 51; 52] [37; 50; 100; 37; 100] = Some (1, [Int 32 1234]).
Proof. vm_compute. reflexivity. Qed.

(** A byte of the format above 127 matches no character. *)
Example scan_byte : vsscanf [200; 53] [200; 37; 100] = Some (0, []).
Proof. vm_compute. reflexivity. Qed.
