(* ===== verification/Calendar.v ===== *)
(** * Times and dates: [gmtime_r], [mktime] and [strftime] of lib/libc.c

    [gmtime_r] and [mktime] count years and months one by one; the theorems give the
    closed formula of the Gregorian calendar for what they count, that they are inverse to
    each other, and that [strftime] writes the beginning of the formatted text that fits. *)

From S2P Require Import Prelude Printf.

(** ** Definitions *)

Record tm := Tm {
  tm_sec : Z; tm_min : Z; tm_hour : Z; tm_mday : Z; tm_mon : Z; tm_year : Z; tm_wday : Z; tm_yday : Z; tm_isdst : Z }.

Definition days_in_month : list Z := [31; 28; 31; 30; 31; 30; 31; 31; 30; 31; 30; 31].

Definition is_leap_year (year : Z) : bool :=
  ((Z.rem year 4 =? 0) && negb (Z.rem year 100 =? 0)) || (Z.rem year 400 =? 0).

(** The first loop of [gmtime_r]: the year and the day of the year. *)
Fixpoint year_loop (fuel : nat) (year t : Z) : option (Z * Z) :=
  match fuel with
  | O => None
  | S fuel =>
      let days_in_year := if is_leap_year year then 366 else 365 in
      if t <? days_in_year then Some (year, t) else year_loop fuel (year + 1) (t - days_in_year)
  end.

(** The days of a month; [None] outside of the array. *)
Definition month_days (year mon : Z) : option Z :=
  if mon <? 0 then None else
  dim ← days_in_month !! Z.to_nat mon; Some (if (mon =? 1) && is_leap_year year then dim + 1 else dim).

Fixpoint month_loop (fuel : nat) (year mon t : Z) : option (Z * Z) :=
  match fuel with
  | O => None
  | S fuel =>
      dim ← month_days year mon;
      if t <? dim then Some (mon, t) else month_loop fuel year (mon + 1) (t - dim)
  end.

Definition gmtime_r (timep : Z) : option tm :=
  let t := timep in
  let sec := Z.rem t 60 in let t := Z.quot t 60 in
  let min := Z.rem t 60 in let t := Z.quot t 60 in
  let hour := Z.rem t 24 in let t := Z.quot t 24 in
  let wday := Z.rem (t + 4) 7 in
  '(year, t) ← year_loop (S (Z.to_nat (t / 365))) 1970 t;
  '(mon, d) ← month_loop 13 year 0 t;
  Some (Tm (i32 sec) (i32 min) (i32 hour) (i32 (d + 1)) mon (year - 1900) (i32 wday) (i32 t) 0).

Definition gmtime : Z -> option tm := gmtime_r.
Definition localtime_r : Z -> option tm := gmtime_r.
Definition localtime : Z -> option tm := gmtime.

(** The two sums of [mktime]. *)
Fixpoint years_sum (n : nat) (y : Z) : Z :=
  match n with O => 0 | S n => (if is_leap_year y then 366 else 365) + years_sum n (y + 1) end.
Fixpoint months_sum (n : nat) (year m : Z) : option Z :=
  match n with O => Some 0 | S n => d ← month_days year m; r ← months_sum n year (m + 1); Some (d + r) end.

Definition mktime (t : tm) : option Z :=
  let year := tm_year t + 1900 in
  let days := years_sum (Z.to_nat (year - 1970)) 1970 in
  m ← months_sum (Z.to_nat (tm_mon t)) year 0;
  let days := days + m + (tm_mday t - 1) in
  Some (days * 86400 + tm_hour t * 3600 + tm_min t * 60 + tm_sec t).

(** The text being written: the characters so far and [remaining]. *)
Definition out : Type := (list Z * Z)%type.

Fixpoint append_str (dst : out) (src : list Z) : out :=
  match src with
  | [] => dst
  | c :: src => if 1 <? dst.2 then append_str (dst.1 ++ [c], dst.2 - 1) src else dst
  end.

(** The digits of [val], the last one first; an [int] has at most 10. *)
Fixpoint num_digits (fuel : nat) (val : Z) : list Z :=
  match fuel with
  | O => []
  | S fuel => (48 + Z.rem val 10) :: (let v := Z.quot val 10 in if 0 <? v then num_digits fuel v else [])
  end.

Definition num_chars (val width : Z) : list Z :=
  let val := if val <? 0 then 0 else val in
  let buf := num_digits 11 val in
  rev (buf ++ replicate (Z.to_nat (width - Z.of_nat (length buf))) 48).

Definition append_num (dst : out) (val width : Z) : out := append_str dst (num_chars val width).

Definition percent : Z := 37.

(** One conversion, of the character behind the percent sign. *)
Definition convert_tm (dst : out) (c : Z) (t : tm) : out :=
  if c =? 89 (* Y *) then append_num dst (tm_year t + 1900) 4 else
  if c =? 109 (* m *) then append_num dst (tm_mon t + 1) 2 else
  if c =? 100 (* d *) then append_num dst (tm_mday t) 2 else
  if c =? 72 (* H *) then append_num dst (tm_hour t) 2 else
  if c =? 77 (* M *) then append_num dst (tm_min t) 2 else
  if c =? 83 (* S *) then append_num dst (tm_sec t) 2 else
  if c =? 110 (* n *) then append_str dst [10] else
  if c =? 116 (* t *) then append_str dst [9] else
  if c =? percent then append_str dst [percent] else
  let dst := append_str dst [percent] in
  if 1 <? dst.2 then append_str dst [c] else dst.

Fixpoint strftime_loop (fmt : list Z) (dst : out) (t : tm) : out :=
  if negb (1 <? dst.2) then dst else
  match fmt with
  | [] => dst
  | c :: fmt =>
      if c =? percent then
        match fmt with
        | [] => dst                        (* the end of the format: it steps back *)
        | d :: fmt => strftime_loop fmt (convert_tm dst d t) t
        end
      else strftime_loop fmt (append_str dst [c]) t
  end.

(** The characters before the terminating zero, and the result. *)
Definition strftime (max : Z) (fmt : list Z) (t : tm) : list Z * Z :=
  if max =? 0 then ([], 0) else
  let dst := strftime_loop fmt ([], max) t in (dst.1, max - dst.2).

(** ** The calendar *)

Definition leap_days (y : Z) : Z := (y - 1) / 4 - (y - 1) / 100 + (y - 1) / 400.

(** The days from 1970 to the beginning of the year [y]. *)
Definition year_start (y : Z) : Z := 365 * (y - 1970) + leap_days y - leap_days 1970.

Definition year_length (y : Z) : Z := if is_leap_year y then 366 else 365.

Lemma year_start_succ y : 0 < y -> year_start (y + 1) = year_start y + year_length y.
Proof.
  intros Hy. unfold year_start, leap_days, year_length, is_leap_year. rewrite !Z.rem_mod_nonneg by lia.
  replace (y + 1 - 1) with y by lia.
  destruct (Z.eqb_spec (y mod 4) 0), (Z.eqb_spec (y mod 100) 0), (Z.eqb_spec (y mod 400) 0); cbn [andb orb negb]; dlia.
Qed.

Lemma year_length_bounds y : 365 <= year_length y <= 366.
Proof. unfold year_length. destruct (is_leap_year y); lia. Qed.

Lemma year_start_mono y n : 0 < y -> 0 <= n -> year_start y + 365 * n <= year_start (y + n).
Proof.
  intros Hy. revert n. refine (natlike_ind _ _ _); [rewrite !Z.add_0_r; lia|]. intros n Hn IH.
  replace (y + Z.succ n) with (y + n + 1) by lia. rewrite year_start_succ by lia. pose proof (year_length_bounds (y + n)). lia.
Qed.

Lemma years_sum_start n : forall y, 0 < y -> years_sum n y = year_start (y + Z.of_nat n) - year_start y.
Proof.
  induction n as [|n IH]; intros y Hy; cbn [years_sum]; [rewrite Z.add_0_r; lia|]. rewrite IH by lia.
  rewrite year_start_succ by lia. unfold year_length. replace (y + Z.of_nat (S n)) with (y + 1 + Z.of_nat n) by lia. lia.
Qed.

(** The year and the day of the year are found, by counting. *)
Lemma year_loop_at fuel : forall y n d, 0 < y -> 0 <= n -> (Z.to_nat n < fuel)%nat -> 0 <= d < year_length (y + n) ->
  year_loop fuel y (year_start (y + n) + d - year_start y) = Some (y + n, d).
Proof.
  induction fuel as [|fuel IH]; intros y n d Hy Hn Hf Hd; [lia|]. cbn [year_loop]. fold (year_length y).
  destruct (decide (n = 0)) as [->|].
  - rewrite Z.add_0_r in *. replace (year_start y + d - year_start y) with d by lia. by rewrite (proj2 (Z.ltb_lt _ _)) by lia.
  - pose proof (year_start_succ y Hy). pose proof (year_start_mono (y + 1) (n - 1) ltac:(lia) ltac:(lia)).
    replace (y + 1 + (n - 1)) with (y + n) in * by lia. rewrite (proj2 (Z.ltb_ge _ _)) by lia.
    replace (year_start (y + n) + d - year_start y - year_length y) with (year_start (y + 1 + (n - 1)) + d - year_start (y + 1))
      by (replace (y + 1 + (n - 1)) with (y + n) by lia; lia).
    rewrite IH; [do 2 f_equal; lia|lia|lia|lia|]. by replace (y + 1 + (n - 1)) with (y + n) by lia.
Qed.

Lemma year_exists t : 0 <= t -> exists n d, 0 <= n <= t / 365 /\ 0 <= d < year_length (1970 + n) /\ t = year_start (1970 + n) + d - year_start 1970.
Proof.
  intros Ht. assert (Hind : forall k, 0 <= k -> year_start 1970 + t < year_start (1970 + k) ->
    exists n d, 0 <= n < k /\ 0 <= d < year_length (1970 + n) /\ t = year_start (1970 + n) + d - year_start 1970).
  { refine (natlike_ind _ _ _); [rewrite Z.add_0_r; lia|]. intros k Hk IH Hlt.
    destruct (Z.ltb_spec (year_start 1970 + t) (year_start (1970 + k))) as [Hl|Hl].
    - destruct (IH Hl) as (n & d & ? & ? & ?). exists n, d. split_and!; lia || done.
    - replace (1970 + Z.succ k) with (1970 + k + 1) in Hlt by lia. rewrite year_start_succ in Hlt by lia.
      exists k, (year_start 1970 + t - year_start (1970 + k)). split_and!; lia. }
  destruct (Hind (t / 365 + 1)) as (n & d & ? & ? & ?); [dlia| |exists n, d; split_and!; lia].
  pose proof (year_start_mono 1970 (t / 365 + 1) ltac:(lia) ltac:(dlia)). dlia.
Qed.

Lemma month_days_some year mon : 0 <= mon < 12 -> exists d, month_days year mon = Some d /\ 28 <= d <= 31.
Proof.
  intros Hm. destruct (decide (mon = 1)) as [->|Hne].
  { unfold month_days. cbn. eexists. split; [done|]. destruct (is_leap_year year); lia. }
  unfold month_days. rewrite (proj2 (Z.ltb_ge _ _)), (proj2 (Z.eqb_neq mon 1)) by lia. cbn [andb].
  assert (Hk : (Z.to_nat mon < length days_in_month)%nat) by (cbn; lia). apply lookup_lt_is_Some_2 in Hk as [d Hd]. rewrite Hd.
  exists d. split; [done|]. refine (Forall_lookup_1 (fun d => 28 <= d <= 31) _ _ _ _ Hd). repeat constructor; lia.
Qed.

Lemma months_sum_some year n : forall m, 0 <= m -> m + Z.of_nat n <= 12 -> exists s, months_sum n year m = Some s /\ 0 <= s.
Proof.
  induction n as [|n IH]; intros m Hm Hn; cbn [months_sum]; [by exists 0|].
  destruct (month_days_some year m ltac:(lia)) as (d & -> & Hd). cbn [mbind option_bind].
  destruct (IH (m + 1)) as (s & -> & Hs); [lia..|]. cbn [mbind option_bind]. exists (d + s). split; [done|lia].
Qed.

Lemma month_loop_at year n md dim : forall m s fuel, 0 <= m -> m + Z.of_nat n < 12 -> (n < fuel)%nat -> months_sum n year m = Some s ->
  month_days year (m + Z.of_nat n) = Some dim -> 0 <= md < dim -> month_loop fuel year m (s + md) = Some (m + Z.of_nat n, md).
Proof.
  induction n as [|n IH]; intros m s [|fuel] Hm Hn Hf Hs Hdim Hmd; try lia; cbn [months_sum] in Hs; cbn [month_loop].
  - injection Hs as <-. rewrite Z.add_0_r in *. rewrite Hdim. cbn [mbind option_bind]. by rewrite (proj2 (Z.ltb_lt _ _)) by lia.
  - destruct (month_days_some year m ltac:(lia)) as (d & Ed & Hd). rewrite Ed in Hs |- *. cbn [mbind option_bind] in Hs |- *.
    destruct (months_sum_some year n (m + 1)) as (r & Er & Hr); [lia..|]. rewrite Er in Hs. injection Hs as <-.
    rewrite (proj2 (Z.ltb_ge _ _)) by lia. replace (d + r + md - d) with (r + md) by lia.
    replace (m + Z.of_nat (S n)) with (m + 1 + Z.of_nat n) in * by lia. apply IH; done || lia.
Qed.

Lemma months_sum_snoc year n : forall m r d, months_sum n year m = Some r -> month_days year (m + Z.of_nat n) = Some d ->
  months_sum (S n) year m = Some (r + d).
Proof.
  induction n as [|n IH]; intros m r d Er Ed.
  - rewrite Z.add_0_r in Ed. injection Er as <-. cbn [months_sum]. rewrite Ed. cbn. f_equal. lia.
  - change (months_sum (S (S n)) year m) with (d ← month_days year m; r ← months_sum (S n) year (m + 1); Some (d + r)).
    cbn [months_sum] in Er. destruct (month_days year m) as [e|]; [|done]. cbn [mbind option_bind] in *.
    destruct (months_sum n year (m + 1)) as [r1|] eqn:E2; [|done]. injection Er as <-.
    rewrite (IH (m + 1) r1 d E2); [|by replace (m + 1 + Z.of_nat n) with (m + Z.of_nat (S n)) by lia]. cbn. f_equal. lia.
Qed.

Lemma months_sum_year year : months_sum 12 year 0 = Some (year_length year).
Proof. unfold year_length, month_days. cbn -[is_leap_year]. unfold month_days. cbn -[is_leap_year]. by destruct (is_leap_year year). Qed.

Lemma months_sum_le year k n s : (n + k = 12)%nat -> months_sum n year 0 = Some s -> s <= year_length year.
Proof.
  revert n s. induction k as [|k IH]; intros n s Hn Es.
  - replace n with 12%nat in Es by lia. rewrite months_sum_year in Es. by injection Es as ->.
  - destruct (month_days_some year (Z.of_nat n)) as (d & Ed & Hd); [lia|].
    pose proof (IH (S n) (s + d) ltac:(lia) (months_sum_snoc _ _ _ _ _ Es Ed)). lia.
Qed.

(** The months cover the year. *)
Lemma month_exists year d : 0 <= d < year_length year -> exists n s dim md, (n < 12)%nat /\ months_sum n year 0 = Some s /\
  month_days year (Z.of_nat n) = Some dim /\ 0 <= md < dim /\ d = s + md.
Proof.
  intros Hd. assert (Hind : forall k, (k <= 12)%nat -> (exists s, months_sum k year 0 = Some s /\ d < s) ->
    exists n s dim md, (n < 12)%nat /\ months_sum n year 0 = Some s /\ month_days year (Z.of_nat n) = Some dim /\ 0 <= md < dim /\ d = s + md).
  { induction k as [|k IH]; intros Hk (s & Es & Hs); [cbn in Es; injection Es as <-; lia|].
    destruct (months_sum_some year k 0) as (r & Er & Hr); [lia..|].
    destruct (month_days_some year (Z.of_nat k)) as (dim & Ed & Hdim); [lia|].
    rewrite (months_sum_snoc year k 0 r dim Er Ed) in Es. injection Es as <-.
    destruct (Z.ltb_spec d r); [apply IH; [lia|by exists r]|].
    exists k, r, dim, (d - r). split_and!; try done; lia. }
  apply (Hind 12%nat); [lia|]. exists (year_length year). split; [apply months_sum_year|lia].
Qed.

(** ** [gmtime_r] and [mktime] *)

(** A date and a time of day. *)
Record valid_tm (t : tm) : Prop := {
  vt_year : 70 <= tm_year t < 2 ^ 31 - 1900;
  vt_mon : 0 <= tm_mon t < 12;
  vt_mday : exists dim, month_days (tm_year t + 1900) (tm_mon t) = Some dim /\ 1 <= tm_mday t <= dim;
  vt_hour : 0 <= tm_hour t < 24;
  vt_min : 0 <= tm_min t < 60;
  vt_sec : 0 <= tm_sec t < 60 }.

(** The days since 1970 and the day of the year of a date. *)
Definition day_of_year (t : tm) : Z := default 0 (months_sum (Z.to_nat (tm_mon t)) (tm_year t + 1900) 0) + tm_mday t - 1.
Definition day_number (t : tm) : Z := year_start (tm_year t + 1900) - year_start 1970 + day_of_year t.
Definition seconds (t : tm) : Z := day_number t * 86400 + tm_hour t * 3600 + tm_min t * 60 + tm_sec t.

(** What [gmtime_r] adds to the date. *)
Definition complete (t : tm) : tm :=
  Tm (tm_sec t) (tm_min t) (tm_hour t) (tm_mday t) (tm_mon t) (tm_year t) ((day_number t + 4) mod 7) (day_of_year t) 0.

Lemma day_of_year_bounds t : valid_tm t -> 0 <= day_of_year t < year_length (tm_year t + 1900) /\
  exists s, months_sum (Z.to_nat (tm_mon t)) (tm_year t + 1900) 0 = Some s /\ day_of_year t = s + (tm_mday t - 1).
Proof.
  intros [_ Hm (dim & Ed & Hd) _ _ _]. set (y := tm_year t + 1900) in *. unfold day_of_year. fold y.
  destruct (months_sum_some y (Z.to_nat (tm_mon t)) 0) as (s & Es & Hs); [lia..|]. rewrite Es. cbn [default].
  split; [|exists s; split; [done|unfold default, id; lia]]. split; [unfold default, id; lia|].
  pose proof (months_sum_le y (11 - Z.to_nat (tm_mon t)) (S (Z.to_nat (tm_mon t))) _ ltac:(lia) (months_sum_snoc y (Z.to_nat (tm_mon t)) 0 s dim Es
    ltac:(by replace (0 + Z.of_nat (Z.to_nat (tm_mon t))) with (tm_mon t) by lia))).
  unfold default, id. lia.
Qed.

Lemma mktime_seconds t : valid_tm t -> mktime t = Some (seconds t).
Proof.
  intros Hv. destruct (day_of_year_bounds t Hv) as [_ (s & Es & Ed)]. destruct Hv as [Hy _ _ _ _ _]. unfold mktime.
  rewrite Es. cbn [mbind option_bind]. unfold seconds, day_number. rewrite Ed.
  rewrite years_sum_start by lia. replace (1970 + Z.of_nat (Z.to_nat (tm_year t + 1900 - 1970))) with (tm_year t + 1900) by lia.
  f_equal. lia.
Qed.

Lemma year_start_bound y : 1970 <= y -> 365 * (y - 1970) <= year_start y - year_start 1970.
Proof. intros Hy. pose proof (year_start_mono 1970 (y - 1970) ltac:(lia) ltac:(lia)) as H. replace (1970 + (y - 1970)) with y in H by lia. lia. Qed.

Lemma gmtime_seconds t : valid_tm t -> gmtime_r (seconds t) = Some (complete t).
Proof.
  intros Hv. destruct (day_of_year_bounds t Hv) as [Hd (s & Es & Ed)]. destruct Hv as [Hy Hm (dim & Edim & Hmd) Hh Hmi Hs].
  pose proof (year_start_bound (tm_year t + 1900) ltac:(lia)) as Hyb. pose proof (year_length_bounds (tm_year t + 1900)) as Hyl.
  set (D := day_number t). assert (HD : D = day_of_year t + year_start (tm_year t + 1900) - year_start 1970) by (unfold D, day_number; lia).
  assert (HD0 : 0 <= D) by lia. pose proof (eq_refl : seconds t = D * 86400 + tm_hour t * 3600 + tm_min t * 60 + tm_sec t) as E.
  assert (E1 : Z.rem (seconds t) 60 = tm_sec t /\ Z.quot (seconds t) 60 = D * 1440 + tm_hour t * 60 + tm_min t) by (rewrite E; clear -Hh Hmi Hs HD0; dlia).
  assert (E2 : Z.rem (D * 1440 + tm_hour t * 60 + tm_min t) 60 = tm_min t /\ Z.quot (D * 1440 + tm_hour t * 60 + tm_min t) 60 = D * 24 + tm_hour t) by (clear -Hh Hmi HD0; dlia).
  assert (E3 : Z.rem (D * 24 + tm_hour t) 24 = tm_hour t /\ Z.quot (D * 24 + tm_hour t) 24 = D) by (clear -Hh HD0; dlia).
  unfold gmtime_r. cbv zeta. rewrite (proj1 E1), (proj2 E1), (proj1 E2), (proj2 E2), (proj1 E3), (proj2 E3).
  replace (year_loop (S (Z.to_nat (D / 365))) 1970 D) with (Some (tm_year t + 1900, day_of_year t)); cycle 1.
  { pose proof (year_loop_at (S (Z.to_nat (D / 365))) 1970 (tm_year t - 70) (day_of_year t)) as Hl.
    replace (1970 + (tm_year t - 70)) with (tm_year t + 1900) in Hl by lia. rewrite <- Hl; [f_equal; lia|lia|lia|dlia|lia]. }
  cbn [mbind option_bind].
  pose proof (month_loop_at (tm_year t + 1900) (Z.to_nat (tm_mon t)) (tm_mday t - 1) dim 0 s 13) as Hml.
  replace (0 + Z.of_nat (Z.to_nat (tm_mon t))) with (tm_mon t) in Hml by lia.
  rewrite Ed, Hml by (done || lia). cbn [mbind option_bind]. unfold complete. fold D.
  rewrite Z.rem_mod_nonneg by lia. pose proof (Z.mod_pos_bound (D + 4) 7 ltac:(lia)).
  assert (Hdim : dim <= 31) by (destruct (month_days_some (tm_year t + 1900) (tm_mon t) Hm) as (d' & E' & ?); congruence || (rewrite Edim in E'; injection E' as ->; lia)).
  rewrite <- Ed, !i32_small by lia. f_equal. f_equal; lia.
Qed.

(** Every time is that of one valid date. *)
Lemma time_exists x : 0 <= x < 2 ^ 55 -> exists t, valid_tm t /\ complete t = t /\ seconds t = x.
Proof.
  intros Hx. destruct (year_exists (x / 86400)) as (n & d & Hn & Hd & E); [dlia|].
  destruct (month_exists (1970 + n) d Hd) as (m & s & dim & md & Hm & Es & Edim & Hmd & ->).
  set (t0 := Tm (x mod 60) (x / 60 mod 60) (x / 3600 mod 24) (md + 1) (Z.of_nat m) (70 + n) 0 0 0).
  assert (Hdoy : day_of_year t0 = s + md).
  { unfold day_of_year. cbn [tm_mon tm_year tm_mday t0]. rewrite Nat2Z.id. replace (70 + n + 1900) with (1970 + n) by lia. rewrite Es. cbn. lia. }
  assert (Hnum : day_number t0 = x / 86400).
  { unfold day_number. rewrite Hdoy. cbn [tm_year t0]. replace (70 + n + 1900) with (1970 + n) by lia. lia. }
  assert (Hv : valid_tm t0).
  { split; cbn [tm_sec tm_min tm_hour tm_mday tm_mon tm_year t0]; try (clear; dlia); [clear -Hn Hx; dlia|lia|].
    exists dim. replace (70 + n + 1900) with (1970 + n) by lia. split; [done|lia]. }
  exists (complete t0). split_and!.
  - destruct Hv. by split.
  - reflexivity.
  - change (seconds (complete t0)) with (seconds t0). unfold seconds. rewrite Hnum. cbn [tm_sec tm_min tm_hour t0]. clear. dlia.
Qed.

(** C40. [gmtime_r] and [mktime] are inverse to each other.  For a date with valid fields,
    [mktime] is its number of seconds, by the closed formula of the Gregorian calendar,
    and [gmtime_r] of that gives the date back, with the day of the week and of the year;
    and every time below [2^55] is given back by [mktime] after [gmtime_r], whose fields are
    valid and fit in an int. *)
Theorem gmtime_mktime :
  (forall t, valid_tm t -> mktime t = Some (seconds t) /\ gmtime_r (seconds t) = Some (complete t)) /\
  (forall x, 0 <= x < 2 ^ 55 -> exists t, gmtime_r x = Some t /\ valid_tm t /\ mktime t = Some x).
Proof.
  split.
  - intros t Hv. split; [by apply mktime_seconds|by apply gmtime_seconds].
  - intros x Hx. destruct (time_exists x Hx) as (t & Hv & Hc & <-). exists t. rewrite gmtime_seconds, Hc, mktime_seconds by done. done.
Qed.

(** 9 September 2001, 01:46:40, a Sunday. *)
Definition demo_tm : tm := Tm 40 46 1 9 8 101 0 251 0.

Lemma gmtime_mktime_witness : gmtime_r 1000000000 = Some demo_tm /\ mktime demo_tm = Some 1000000000.
Proof.
  assert (Hv : valid_tm demo_tm) by (split; try (cbn; lia); exists 30; split; [reflexivity|cbn; lia]).
  destruct (proj1 gmtime_mktime demo_tm Hv) as [H1 H2].
  assert (E : seconds demo_tm = 1000000000) by (vm_compute; reflexivity). rewrite E in H1, H2. split; [|exact H1].
  rewrite H2. vm_compute. reflexivity.
Defined.

(** ** [strftime] *)

(** The text of a conversion and of a format, without a buffer. *)
Definition tm_chars (c : Z) (t : tm) : list Z :=
  if c =? 89 then num_chars (tm_year t + 1900) 4 else
  if c =? 109 then num_chars (tm_mon t + 1) 2 else
  if c =? 100 then num_chars (tm_mday t) 2 else
  if c =? 72 then num_chars (tm_hour t) 2 else
  if c =? 77 then num_chars (tm_min t) 2 else
  if c =? 83 then num_chars (tm_sec t) 2 else
  if c =? 110 then [10] else if c =? 116 then [9] else if c =? percent then [percent] else [percent; c].

Fixpoint tm_text (fmt : list Z) (t : tm) : list Z :=
  match fmt with
  | [] => []
  | c :: fmt =>
      if c =? percent then match fmt with [] => [] | d :: fmt => tm_chars d t ++ tm_text fmt t end
      else c :: tm_text fmt t
  end.

(** The buffer of [max] bytes after the text [l]. *)
Definition written (max : Z) (l : list Z) : out :=
  (take (Z.to_nat (max - 1)) l, max - Z.of_nat (length (take (Z.to_nat (max - 1)) l))).

Lemma append_written max src : forall l, 0 < max -> append_str (written max l) src = written max (l ++ src).
Proof.
  induction src as [|c src IH]; intros l Hmax; cbn [append_str]; [by rewrite app_nil_r|].
  unfold written at 1. cbn [snd]. rewrite length_take. destruct (Z.ltb_spec 1 (max - Z.of_nat (Z.to_nat (max - 1) `min` length l))).
  - change (c :: src) with ([c] ++ src). rewrite app_assoc, <- IH by done. f_equal. unfold written. cbn [fst snd].
    rewrite !take_ge by (rewrite ?length_app; cbn [length]; lia). f_equal. rewrite length_app. cbn [length]. lia.
  - unfold written. by rewrite take_app_le by lia.
Qed.

Lemma written_full max l l' : 0 < max -> negb (1 <? (written max l).2) = true -> written max (l ++ l') = written max l.
Proof. intros Hm Hf. zbool. cbn [written snd] in Hf. rewrite length_take in Hf. unfold written. by rewrite take_app_le by lia. Qed.

Lemma convert_written max l c t : 0 < max -> convert_tm (written max l) c t = written max (l ++ tm_chars c t).
Proof.
  intros Hm. unfold convert_tm, tm_chars, append_num. repeat (case_match; [by apply append_written|]).
  rewrite append_written by done. change [percent; c] with ([percent] ++ [c]). rewrite app_assoc.
  destruct (1 <? (written max (l ++ [percent])).2) eqn:E; [by apply append_written|].
  symmetry. apply written_full; [done|]. by rewrite E.
Qed.

Lemma strftime_loop_written max t : 0 < max -> forall n fmt l, (length fmt <= n)%nat ->
  strftime_loop fmt (written max l) t = written max (l ++ tm_text fmt t).
Proof.
  intros Hm. induction n as [|n IH]; intros fmt l Hl.
  { destruct fmt; [|cbn in Hl; lia]. cbn [strftime_loop tm_text]. rewrite app_nil_r. by destruct (negb _). }
  assert (Hfull : negb (1 <? (written max l).2) = true -> written max l = written max (l ++ tm_text fmt t)) by (intros; by rewrite written_full).
  destruct fmt as [|c fmt]; cbn [strftime_loop]; (destruct (negb _); [by apply Hfull|]); [by rewrite app_nil_r|].
  cbn [tm_text length] in *. destruct (c =? percent).
  - destruct fmt as [|d fmt]; [by rewrite app_nil_r|]. rewrite convert_written, IH by (cbn [length] in Hl; done || lia). by rewrite app_assoc.
  - rewrite append_written, IH by (done || lia). by rewrite <- app_assoc.
Qed.

(** [strftime] writes the beginning of the text that fits, and returns its length. *)
Lemma strftime_spec max fmt t : 0 < max -> let text := take (Z.to_nat (max - 1)) (tm_text fmt t) in
  strftime max fmt t = (text, Z.of_nat (length text)).
Proof.
  intros Hm text. unfold strftime. rewrite (proj2 (Z.eqb_neq max 0)) by lia.
  assert (E : ([], max) = written max []) by (unfold written; rewrite take_nil; cbn; f_equal; lia).
  rewrite E, (strftime_loop_written max t Hm (length fmt)) by done. cbn [app]. unfold written. cbn [fst snd]. fold text. f_equal. lia.
Qed.
