(* ===== verification/LibC.v ===== *)
(** * Environment and options: parts of lib/libc.c without system calls

    [getenv], [putenv], [setenv] and [unsetenv] on the array of the environment, [getopt]
    with its static state, and [isatty].  Strings are lists of characters without the
    terminating zero; the environment holds pointers to them. *)

From S2P Require Import Prelude Bytes.

Definition str : Type := list Z.

(** ** The environment *)

Definition ENV_SIZE : Z := 64.
Definition eq_char : Z := 61.

(** [environment[0 .. env_count)]. *)
Definition env : Type := list str.

(** The loop of [getenv]: the name, then an equals sign; what follows it. *)
Fixpoint match_name (name p : str) : option str :=
  match name, p with
  | [], c :: v => if c =? eq_char then Some v else None
  | n :: name, c :: p => if n =? c then match_name name p else None
  | _, [] => None
  end.

Fixpoint getenv (name : str) (e : env) : option str :=
  match e with
  | [] => None
  | p :: e => match match_name name p with Some v => Some v | None => getenv name e end
  end.

(** The loop of [putenv], which compares up to the end of the string. *)
Fixpoint put_match (string p : str) : bool :=
  match p with
  | [] => false
  | c :: p =>
      match string with
      | [] => c =? eq_char
      | s :: string => if c =? eq_char then false else if s =? c then put_match string p else false
      end
  end.

Fixpoint put_replace (string : str) (e : env) : option env :=
  match e with
  | [] => None
  | p :: e => if put_match string p then Some (string :: e) else e' ← put_replace string e; Some (p :: e')
  end.

Definition putenv (string : str) (e : env) : Z * env :=
  if negb (existsb (Z.eqb eq_char) string) then (-1, e) else
  match put_replace string e with
  | Some e' => (0, e')
  | None => if Z.of_nat (length e) <? ENV_SIZE - 1 then (0, e ++ [string]) else (-1, e)
  end.

(** [room]: whether [malloc] gives the new string; [sprintf] writes [name=value] into it. *)
Definition setenv (room : bool) (name value : str) (overwrite : Z) (e : env) : Z * env :=
  match getenv name e with
  | Some _ => if overwrite =? 0 then (0, e) else if room then putenv (name ++ eq_char :: value) e else (-1, e)
  | None => if room then putenv (name ++ eq_char :: value) e else (-1, e)
  end.

(** The entry is freed and the others move up. *)
Fixpoint unsetenv (name : str) (e : env) : env :=
  match e with
  | [] => []
  | p :: e => match match_name name p with Some _ => e | None => p :: unsetenv name e end
  end.

Lemma match_name_app name value : match_name name (name ++ eq_char :: value) = Some value.
Proof. induction name as [|c name IH]; cbn [match_name app]; [done|]. by rewrite Z.eqb_refl. Qed.

Lemma getenv_app name e e' : getenv name (e ++ e') = match getenv name e with Some v => Some v | None => getenv name e' end.
Proof. induction e as [|p e IH]; cbn [getenv app]; [done|]. by destruct (match_name name p). Qed.

(** A string with an equals sign is never found equal to a name that has been set. *)
Lemma put_match_false string p : existsb (Z.eqb eq_char) string = true -> put_match string p = false.
Proof.
  revert string. induction p as [|c p IH]; intros [|s string] He; cbn [put_match existsb] in *; try done.
  destruct (Z.eqb_spec c eq_char); [done|]. destruct (Z.eqb_spec s c) as [->|]; [|done]. apply IH.
  apply orb_true_iff in He as [He|He]; [|done]. apply Z.eqb_eq in He. congruence.
Qed.

(** So [putenv] always appends. *)
Lemma putenv_appends string e : existsb (Z.eqb eq_char) string = true ->
  putenv string e = if Z.of_nat (length e) <? ENV_SIZE - 1 then (0, e ++ [string]) else (-1, e).
Proof.
  intros He. unfold putenv. rewrite He. cbn [negb]. replace (put_replace string e) with (@None env); [done|].
  induction e as [|p e IH]; cbn [put_replace]; [done|]. rewrite put_match_false by done. by rewrite <- IH.
Qed.

Lemma equals_in name value : existsb (Z.eqb eq_char) (name ++ eq_char :: value) = true.
Proof. rewrite existsb_app. cbn. apply orb_true_r. Qed.

(** A name that is not set yet gets its value, and keeps it until it is removed. *)
Lemma setenv_getenv name value o e : getenv name e = None -> Z.of_nat (length e) < ENV_SIZE - 1 ->
  exists e', setenv true name value o e = (0, e') /\ getenv name e' = Some value /\ unsetenv name e' = e.
Proof.
  intros Hn Hl. exists (e ++ [name ++ eq_char :: value]). unfold setenv. rewrite Hn, putenv_appends by apply equals_in.
  rewrite (proj2 (Z.ltb_lt _ _)) by done. split; [done|]. rewrite getenv_app, Hn. cbn [getenv]. rewrite match_name_app. split; [done|].
  revert Hn. clear Hl. induction e as [|p e IH]; cbn [app unsetenv getenv]; [by rewrite match_name_app|].
  destruct (match_name name p); [done|]. intros Hn. by rewrite IH.
Qed.

(** Setting a name again has no effect on what [getenv] returns. *)
Lemma setenv_again_ignored name value old e : getenv name e = Some old -> Z.of_nat (length e) < ENV_SIZE - 1 ->
  exists e', setenv true name value 1 e = (0, e') /\ getenv name e' = Some old.
Proof.
  intros Ho Hl. exists (e ++ [name ++ eq_char :: value]). unfold setenv. rewrite Ho. cbn [Z.eqb]. rewrite putenv_appends by apply equals_in.
  rewrite (proj2 (Z.ltb_lt _ _)) by done. split; [done|]. by rewrite getenv_app, Ho.
Qed.

(** ** Options *)

(** The static variables: [next] is a pointer into an argument. *)
Record optstate := OptState { optind : Z; next : option str; optarg : option str; optopt : Z; messages : list str }.
Definition opt0 : optstate := OptState 1 None None 0 [].

Definition colon : Z := 58.
Definition dash : Z := 45.
Definition question : Z := 63.

(** [strchr]: what follows the character. *)
Fixpoint after_char (s : str) (c : Z) : option str :=
  match s with [] => None | d :: s => if d =? c then Some s else after_char s c end.

Definition msg_invalid : str :=   (* getopt: invalid option -- ' *)
  [103;101;116;111;112;116;58;32;105;110;118;97;108;105;100;32;111;112;116;105;111;110;32;45;45;32;39].
Definition msg_argument : str :=  (* getopt: option requires an argument -- ' *)
  [103;101;116;111;112;116;58;32;111;112;116;105;111;110;32;114;101;113;117;105;114;101;115;32;97;110;32;97;114;103;117;109;101;110;116;32;45;45;32;39].

Definition say (m : str) (c : Z) (s : optstate) : optstate :=
  OptState (optind s) (next s) (optarg s) (optopt s) (messages s ++ [m ++ [c; 39; 10]]).

Definition starts_with (c : Z) (s : str) : bool := match s with d :: _ => d =? c | [] => false end.

(** The characters to read: the rest of a group of options, or a new argument; [inl]
    is a return of -1. *)
Definition next_chars (arg : str) (s : optstate) : optstate + str :=
  match next s with
  | Some (c :: l) => inr (c :: l)
  | _ =>
      match arg with
      | d :: c :: l =>
          if negb (d =? dash) then inl s else
          if (c =? dash) && bool_decide (l = []) then inl (OptState (optind s + 1) (next s) (optarg s) (optopt s) (messages s)) else
          inr (c :: l)
      | _ => inl s
      end
  end.

(** [opterr] is 1; the result is the character, a question mark, a colon or -1. *)
Definition getopt (argv : list str) (optstring : str) (s : optstate) : option (Z * optstate) :=
  if Z.of_nat (length argv) <=? optind s then Some (-1, s) else
  arg ← (if optind s <? 0 then None else argv !! Z.to_nat (optind s));
  match next_chars arg s with
  | inl s => Some (-1, s)
  | inr [] => None
  | inr (c :: nxt) =>
      let bump (b : bool) := if b then optind s + 1 else optind s in
      let last := bool_decide (nxt = []) in
      match (if c =? colon then None else after_char optstring c) with
      | None =>
          let s := OptState (bump last) (Some nxt) (optarg s) c (messages s) in
          Some (question, if starts_with colon optstring then s else say msg_invalid c s)
      | Some (d :: _) =>
          if d =? colon then
            if negb last then Some (c, OptState (optind s + 1) None (Some nxt) (optopt s) (messages s)) else
            match argv !! Z.to_nat (optind s + 1) with
            | Some a => Some (c, OptState (optind s + 2) (Some nxt) (Some a) (optopt s) (messages s))
            | None =>
                let s := OptState (optind s) (Some nxt) (optarg s) c (messages s) in
                if starts_with colon optstring then Some (colon, s) else Some (question, say msg_argument c s)
            end
          else Some (c, OptState (bump last) (Some nxt) None (optopt s) (messages s))
      | Some [] => Some (c, OptState (bump last) (Some nxt) None (optopt s) (messages s))
      end
  end.

(** An option that lacks its argument at the end of the arguments. *)
Definition lacks_argument (argv : list str) (optstring : str) (s : optstate) : Prop :=
  exists arg c d l, argv !! Z.to_nat (optind s) = Some arg /\ next_chars arg s = inr [c] /\ c <> colon /\
    after_char optstring c = Some (d :: l) /\ d = colon /\ argv !! Z.to_nat (optind s + 1) = None.

Definition args_left (argv : list str) (k : nat) : nat := foldr (fun a n => (length a + n)%nat) O (drop k argv).

Lemma args_left_step (argv : list str) k arg : argv !! k = Some arg -> args_left argv k = (length arg + args_left argv (S k))%nat.
Proof. intros Ha. unfold args_left. pose proof (drop_S argv arg k Ha) as E. by rewrite E. Qed.

Lemma args_left_next (argv : list str) k : (args_left argv (S k) <= args_left argv k)%nat.
Proof.
  destruct (argv !! k) as [arg|] eqn:E; [rewrite (args_left_step _ _ _ E); lia|].
  unfold args_left. by rewrite !drop_ge by (apply lookup_ge_None in E; lia).
Qed.

(** What is left to read. *)
Definition opt_left (argv : list str) (s : optstate) : nat :=
  match next s with
  | Some (c :: l) => (length (c :: l) + args_left argv (S (Z.to_nat (optind s))))%nat
  | _ => args_left argv (Z.to_nat (optind s))
  end.

(** What a call reads is left before it. *)
Lemma next_chars_left argv s arg c l : argv !! Z.to_nat (optind s) = Some arg -> next_chars arg s = inr (c :: l) ->
  (S (length l) + args_left argv (S (Z.to_nat (optind s))) <= opt_left argv s)%nat.
Proof.
  intros Ha Hn. unfold next_chars in Hn. unfold opt_left. pose proof (args_left_step _ _ _ Ha) as Hl.
  destruct (next s) as [[|d m]|]; [|by injection Hn as -> ->|];
    (destruct arg as [|a [|b arg]]; [done|done|]; repeat case_match; try done; injection Hn as -> ->; cbn [length] in Hl; lia).
Qed.

(** Every call reads something, or ends, so a loop over the options ends, except that a
    missing argument of the last option is reported again and again. *)
Lemma getopt_progress argv optstring s : 0 <= optind s ->
  match getopt argv optstring s with
  | None => False
  | Some (r, s') => r = -1 \/ (0 <= optind s' /\ (opt_left argv s' < opt_left argv s)%nat) \/ lacks_argument argv optstring s
  end.
Proof.
  intros H0. unfold getopt. destruct (Z.leb_spec (Z.of_nat (length argv)) (optind s)); [by left|].
  rewrite (proj2 (Z.ltb_ge _ _)) by lia. destruct (lookup_lt_is_Some_2 argv (Z.to_nat (optind s))) as [arg Ha]; [lia|].
  rewrite Ha. cbn [mbind option_bind]. destruct (next_chars arg s) as [s1|[|c nxt]] eqn:En; [by left| |].
  { unfold next_chars in En. repeat case_match; done. }
  pose proof (next_chars_left argv s arg c nxt Ha En) as Hleft.
  assert (Hbump : forall s', optind s' = (if bool_decide (nxt = []) then optind s + 1 else optind s) -> next s' = Some nxt ->
    0 <= optind s' /\ (opt_left argv s' < opt_left argv s)%nat).
  { intros s' Ho Hx. unfold opt_left at 1. rewrite Hx, Ho. case_bool_decide as Hb.
    - subst nxt. split; [lia|]. replace (Z.to_nat (optind s + 1)) with (S (Z.to_nat (optind s))) by lia. cbn [length] in Hleft. lia.
    - destruct nxt as [|d nxt]; [done|]. cbn [length] in *. split; [done|lia]. }
  destruct (decide (c = colon)) as [->|Hc]; [|rewrite (proj2 (Z.eqb_neq c colon)) by done; destruct (after_char optstring c) as [[|d l]|] eqn:Ec].
  - cbn [Z.eqb colon Pos.eqb]. right. left. apply Hbump; by destruct (starts_with _ _).
  - right. left. by apply Hbump.
  - destruct (Z.eqb_spec d colon) as [->|]; [|right; left; by apply Hbump].
    case_bool_decide as Hb; cbn [negb].
    + subst nxt. destruct (argv !! Z.to_nat (optind s + 1)) as [a|] eqn:E2.
      * right. left. unfold opt_left at 1. cbn [next optind]. split; [lia|]. cbn [length] in Hleft.
        pose proof (args_left_next argv (S (Z.to_nat (optind s)))). replace (Z.to_nat (optind s + 2)) with (S (S (Z.to_nat (optind s)))) by lia. lia.
      * assert (Hlack : lacks_argument argv optstring s) by (exists arg, c, colon, l; by split_and!).
        destruct (starts_with colon optstring); right; by right.
    + right. left. unfold opt_left at 1. cbn [next optind]. split; [lia|].
      replace (Z.to_nat (optind s + 1)) with (S (Z.to_nat (optind s))) by lia. lia.
  - right. left. apply Hbump; by destruct (starts_with _ _).
Qed.

(** ["prog"], ["-o"] with the options "o:" *)
Definition s_prog : str := [112; 114; 111; 103].
Definition s_o : str := [45; 111].
Definition s_opts : str := [111; 58].

(** The call that reports the missing argument leaves the state in which the next one
    reports it again: a loop until -1 does not end. *)
Example missing_argument_repeats :
  let argv := [s_prog; s_o] in
  exists s1 s2, getopt argv s_opts opt0 = Some (question, s1) /\ getopt argv s_opts s1 = Some (question, s2) /\
    (optind s2, next s2, optarg s2, optopt s2) = (optind s1, next s1, optarg s1, optopt s1).
Proof. by do 2 eexists. Qed.

(** ** Terminals *)

Definition isatty (fd : Z) : Z := b2z ((fd =? 0) || (fd =? 1) || (fd =? 2)).
