(* ===== verification/UMalloc.v ===== *)
(** * The heap of user programs: [malloc], [calloc], [realloc] and [free] of lib/libc.c

    The blocks tile the memory from the first one to the break of the program, each with a
    header of its size, the next block and a flag.  The headers are bytes of the program's
    memory, which the class [UserSpace] gives: bytes that are loaded and stored, and the
    system call that moves the break.  Its laws are what the kernel promises (UserMem has
    the kernel's system call and page tables behind it). *)

From S2P Require Import Prelude.

(** ** The memory of a program *)

Class UserSpace (W : Type) := {
  ld8 : Z -> W -> option Z;              (* [None]: a page fault *)
  st8 : Z -> Z -> W -> option W;
  brk_call : Z -> W -> option (Z * W) }. (* [syscall(SYS_brk, ...)] *)

(** [user_ok w lo hi]: the memory from [lo] to the break [hi] can be used.  [heap_limit]:
    where other mappings of the program begin.  [short w k]: the kernel may lack the memory
    to move the break up by [k] bytes. *)
Class UserSpaceLaws (W : Type) `{UserSpace W} := {
  user_ok : W -> Z -> Z -> Prop;
  heap_limit : Z;
  heap_limit_small : heap_limit <= 2 ^ 46;
  short : W -> Z -> Prop;
  short_mono w k k' : k <= k' -> short w k -> short w k';
  user_range w lo hi : user_ok w lo hi -> 0 < lo <= hi;
  ld8_ok w lo hi a : user_ok w lo hi -> lo <= a < hi -> exists b, ld8 a w = Some b /\ 0 <= b < 256;
  st8_ok w lo hi a v : user_ok w lo hi -> lo <= a < hi ->
    exists w', st8 a v w = Some w' /\ user_ok w' lo hi /\
      forall x, lo <= x < hi -> ld8 x w' = if x =? a then Some (u8 v) else ld8 x w;
  brk_now w lo hi : user_ok w lo hi -> brk_call 0 w = Some (hi, w);
  brk_up w lo hi n : user_ok w lo hi -> hi < n -> n <= heap_limit ->
    match brk_call n w with
    | None => short w (n - hi)
    | Some (r, w') => (forall x, lo <= x < hi -> ld8 x w' = ld8 x w) /\
        ((r = n /\ user_ok w' lo n) \/ (r = -1 /\ user_ok w' lo hi /\ short w (n - hi)))
    end }.

Section code.
Context {W : Type} `{UserSpace W}.

(** Little endian integers of [n] bytes. *)
Fixpoint ldle (n : nat) (a : Z) (w : W) : option Z :=
  match n with O => Some 0 | S n => b ← ld8 a w; r ← ldle n (a + 1) w; Some (b + 256 * r) end.
Fixpoint stle (n : nat) (a v : Z) (w : W) : option W :=
  match n with O => Some w | S n => w ← st8 a (v mod 256) w; stle n (a + 1) (v / 256) w end.

(** ** The headers: [size_t size], [block_header_t *next] and [int free] *)

Definition sizeof_block_header : Z := 24.
Definition get_size (b : Z) (w : W) : option Z := ldle 8 b w.
Definition get_next (b : Z) (w : W) : option Z := ldle 8 (b + 8) w.
Definition get_free (b : Z) (w : W) : option Z := ldle 4 (b + 16) w.
Definition put_size (b v : Z) (w : W) : option W := stle 8 b v w.
Definition put_next (b v : Z) (w : W) : option W := stle 8 (b + 8) v w.
Definition put_free (b v : Z) (w : W) : option W := stle 4 (b + 16) v w.

(** The static variables, next to the memory. *)
Record libc := Libc { world : W; free_list : Z; heap_brk : Z }.
Definition set_world (w : W) (s : libc) : libc := Libc w (free_list s) (heap_brk s).
Definition set_brk (b : Z) (s : libc) : libc := Libc (world s) (free_list s) b.
Definition set_list (b : Z) (s : libc) : libc := Libc (world s) b (heap_brk s).

Definition BLOCK_ALIGN : Z := 16.
Definition align_size (size : Z) : Z := Z.land (u64 (size + BLOCK_ALIGN - 1)) (u64 (Z.lnot (BLOCK_ALIGN - 1))).

Definition MAP_FAILED : Z := u64 (-1).

Definition sbrk (size : Z) (s : libc) : option (Z * libc) :=
  '(ok, s) ← (if heap_brk s =? 0 then
                '(current_brk, w) ← brk_call 0 (world s);
                Some (if current_brk =? -1 then (false, set_world w s) else (true, set_brk (u64 current_brk) (set_world w s)))
              else Some (true, s));
  if negb ok then Some (MAP_FAILED, s) else
  let old := heap_brk s in
  '(res, w) ← brk_call (i64 (old + size)) (world s);
  if res =? -1 then Some (MAP_FAILED, set_world w s) else Some (old, set_brk (u64 (old + size)) (set_world w s)).

(** The blocks, each of at least a header, lie between the first block and the break. *)
Definition list_fuel (s : libc) : nat :=
  if free_list s =? 0 then 1%nat else S (Z.to_nat ((heap_brk s - free_list s) / sizeof_block_header)).

(** Taking a free block: with the rest split off, or whole. *)
Definition take_block (total a n : Z) (w : W) : option W :=
  w ← (if u64 (total + sizeof_block_header + BLOCK_ALIGN) <=? n then
         let new := u64 (a + total) in
         w ← put_size new (n - total) w;
         next ← get_next a w;
         w ← put_next new next w;
         w ← put_free new 1 w;
         w ← put_next a new w;
         put_size a total w
       else Some w);
  put_free a 0 w.

(** The search for the first block that fits: its payload, or 0 and the last block. *)
Fixpoint malloc_loop (fuel : nat) (total prev curr : Z) (w : W) : option (Z * Z * W) :=
  match fuel with
  | O => None
  | S fuel =>
      if curr =? 0 then Some (0, prev, w) else
      free_ ← get_free curr w;
      size ← get_size curr w;
      if nz free_ && (total <=? size) then
        w ← take_block total curr size w;
        Some (u64 (curr + sizeof_block_header), prev, w)
      else next ← get_next curr w; malloc_loop fuel total curr next w
  end.

(** The header of a new block behind the last one, [prev]. *)
Definition append_block (block total prev : Z) (w : W) : option W :=
  w ← put_size block total w;
  w ← put_next block 0 w;
  w ← put_free block 0 w;
  if negb (prev =? 0) then put_next prev block w else Some w.

Definition malloc (size : Z) (s : libc) : option (Z * libc) :=
  if size =? 0 then Some (0, s) else
  let size := align_size size in
  let total := u64 (size + sizeof_block_header) in
  '(p, prev, w) ← malloc_loop (list_fuel s) total 0 (free_list s) (world s);
  let s := set_world w s in
  if negb (p =? 0) then Some (p, s) else
  '(mem, s) ← sbrk total s;
  if mem =? MAP_FAILED then Some (0, s) else
  w ← append_block mem total prev (world s);
  let s := set_world w s in
  Some (u64 (mem + sizeof_block_header), if prev =? 0 then set_list mem s else s).

(** [memset] and [memcpy] of lib/string.c, byte by byte upwards. *)
Fixpoint memset_ (a c : Z) (n : nat) (w : W) : option W :=
  match n with O => Some w | S n => w ← st8 a c w; memset_ (a + 1) c n w end.
Fixpoint memcpy_ (d a : Z) (n : nat) (w : W) : option W :=
  match n with O => Some w | S n => b ← ld8 a w; w ← st8 d b w; memcpy_ (d + 1) (a + 1) n w end.

Definition calloc (nmemb size : Z) (s : libc) : option (Z * libc) :=
  let total := u64 (nmemb * size) in
  '(ptr, s) ← malloc total s;
  if ptr =? 0 then Some (ptr, s) else
  w ← memset_ ptr 0 (Z.to_nat total) (world s); Some (ptr, set_world w s).

(** The pass of [free] that merges a free block with the free block behind it. *)
Fixpoint merge_loop (fuel : nat) (curr : Z) (w : W) : option W :=
  match fuel with
  | O => None
  | S fuel =>
      if curr =? 0 then Some w else
      free_ ← get_free curr w;
      next ← get_next curr w;
      w ← (if nz free_ && nz next then
             next_free ← get_free next w;
             if nz next_free then
               size ← get_size curr w;
               next_size ← get_size next w;
               w ← put_size curr (u64 (size + next_size)) w;
               next_next ← get_next next w;
               put_next curr next_next w
             else Some w
           else Some w);
      next ← get_next curr w;
      merge_loop fuel next w
  end.

Definition free (ptr : Z) (s : libc) : option libc :=
  if ptr =? 0 then Some s else
  let block := u64 (ptr - sizeof_block_header) in
  w ← put_free block 1 (world s);
  w ← merge_loop (list_fuel s) (free_list s) w;
  Some (set_world w s).

Definition realloc (ptr size : Z) (s : libc) : option (Z * libc) :=
  if ptr =? 0 then malloc size s else
  if size =? 0 then s ← free ptr s; Some (0, s) else
  let aligned_size := align_size size in
  let total := u64 (aligned_size + sizeof_block_header) in
  let block := u64 (ptr - sizeof_block_header) in
  block_size ← get_size block (world s);
  if total <=? block_size then Some (ptr, s) else
  '(new_ptr, s) ← malloc size s;
  if new_ptr =? 0 then Some (0, s) else
  block_size ← get_size block (world s);
  w ← memcpy_ new_ptr ptr (Z.to_nat (u64 (block_size - sizeof_block_header))) (world s);
  s ← free ptr (set_world w s);
  Some (new_ptr, s).
End code.
Arguments libc : clear implicits.
