(* ===== verification/UMallocSpec.v ===== *)
(** * What the heap of user programs promises

    A program sees a store of objects: pointers, each with the bytes it may use.  Every
    operation of UMalloc refines one step on that store, for any memory that satisfies
    the laws of [UserSpace]. *)

From S2P Require Import Prelude UMalloc.

(** ** Bytes and integers as functions of the address *)

Section view.
Context {W : Type} `{UserSpaceLaws W}.
Implicit Types w : W.
Implicit Types s : libc W.

Definition byte w (x : Z) : Z := default 0 (ld8 x w).

Fixpoint le (n : nat) (f : Z -> Z) (a : Z) : Z :=
  match n with O => 0 | S n => f a + 256 * le n f (a + 1) end.

Lemma le_ext n f g : forall a, (forall x, a <= x < a + Z.of_nat n -> g x = f x) -> le n g a = le n f a.
Proof. induction n as [|n IH]; intros a Hx; cbn [le]; [done|]. rewrite Hx, IH by (intros; apply Hx || idtac; lia). done. Qed.

Lemma byte_ok w lo hi a : user_ok w lo hi -> lo <= a < hi -> ld8 a w = Some (byte w a) /\ 0 <= byte w a < 256.
Proof. intros Hw Ha. destruct (ld8_ok w lo hi a Hw Ha) as (b & E & Hb). unfold byte. by rewrite E. Qed.

Lemma ldle_ok w lo hi n : forall a, user_ok w lo hi -> lo <= a -> a + Z.of_nat n <= hi ->
  ldle n a w = Some (le n (byte w) a) /\ 0 <= le n (byte w) a < 256 ^ Z.of_nat n.
Proof.
  induction n as [|n IH]; intros a Hw Hlo Hhi; cbn [ldle le]; [done|].
  destruct (byte_ok w lo hi a Hw) as [E Hb]; [lia|]. rewrite E. cbn [mbind option_bind].
  destruct (IH (a + 1) Hw) as [-> Hr]; [lia..|]. cbn [mbind option_bind].
  rewrite Nat2Z.inj_succ, Z.pow_succ_r by lia. split; [done|lia].
Qed.

(** A store of an integer: its value, and the bytes outside of it. *)
Record wrote (lo hi : Z) w (a : Z) (n : nat) (v : Z) w' : Prop := {
  wr_ok : user_ok w' lo hi;
  wr_val : le n (byte w') a = v;
  wr_out : forall x, lo <= x < hi -> ~ a <= x < a + Z.of_nat n -> byte w' x = byte w x }.

Lemma stle_wrote lo hi n : forall w a v, user_ok w lo hi -> lo <= a -> a + Z.of_nat n <= hi -> 0 <= v < 256 ^ Z.of_nat n ->
  exists w', stle n a v w = Some w' /\ wrote lo hi w a n v w'.
Proof.
  induction n as [|n IH]; intros w a v Hw Hlo Hhi Hv; cbn [stle]; [exists w; split; [done|]; split; [done|cbn; lia|done]|].
  rewrite Nat2Z.inj_succ, Z.pow_succ_r in Hv by lia.
  destruct (st8_ok w lo hi a (v mod 256) Hw) as (w1 & -> & Hw1 & Hb1); [lia|]. cbn [mbind option_bind].
  destruct (IH w1 (a + 1) (v / 256) Hw1) as (w2 & -> & [Hw2 Hv2 Ho2]); [lia|lia|dlia|].
  exists w2. split; [done|].
  assert (Hb : forall x, lo <= x < hi -> byte w1 x = if x =? a then v mod 256 else byte w x).
  { intros x Hx. unfold byte. rewrite Hb1 by done. destruct (x =? a); [|done]. cbn. apply Z.mod_small. dlia. }
  split; [done| |].
  - cbn [le]. rewrite Hv2, Ho2, Hb, Z.eqb_refl by lia. dlia.
  - intros x Hx Hn. rewrite Ho2, Hb by lia. by rewrite (proj2 (Z.eqb_neq _ _)) by lia.
Qed.

Lemma wrote_keep lo hi w a n v w' k b :
  wrote lo hi w a n v w' -> lo <= b -> b + Z.of_nat k <= hi -> b + Z.of_nat k <= a \/ a + Z.of_nat n <= b ->
  le k (byte w') b = le k (byte w) b.
Proof. intros [_ _ Ho] Hl Hh Hd. apply le_ext. intros x Hx. apply Ho; lia. Qed.

(** ** Headers and the list of blocks *)

Definition hdr (f : Z -> Z) (a n next : Z) (fr : bool) : Prop :=
  le 8 f a = n /\ le 8 f (a + 8) = next /\ le 4 f (a + 16) = b2z fr.

(** A block: its size with the header, and whether it is free. *)
Definition ublk : Type := (Z * bool)%type.
Definition wf_size (n : Z) : Prop := 24 <= n.

Definition next_of (a : Z) (bs : list ublk) (z : Z) : Z := match bs with [] => z | _ => a end.

(** The blocks tile the memory from [a] to [e]; the last one is linked to [z]. *)
Fixpoint tiles (f : Z -> Z) (a : Z) (bs : list ublk) (e z : Z) : Prop :=
  match bs with
  | [] => a = e
  | (n, fr) :: bs => wf_size n /\ hdr f a n (next_of (a + n) bs z) fr /\ tiles f (a + n) bs e z
  end.

Definition total_size (bs : list ublk) : Z := zsum fst bs.

Lemma hdr_ext f g a n z fr : (forall x, a <= x < a + 24 -> g x = f x) -> hdr f a n z fr -> hdr g a n z fr.
Proof. intros Hx (H1 & H2 & H3). unfold hdr. rewrite !(le_ext _ f g) by (intros; apply Hx; lia). by split_and!. Qed.

Lemma tiles_end f bs : forall a e z, tiles f a bs e z -> e = a + total_size bs /\ 0 <= total_size bs.
Proof.
  induction bs as [|[n fr] bs IH]; intros a e z; cbn [tiles]; unfold total_size in *; cbn [zsum foldr fst]; [lia|].
  intros (Hn & _ & Ht). destruct (IH _ _ _ Ht) as [-> ?]. unfold wf_size, zsum in *. lia.
Qed.

Lemma tiles_ext f g bs : forall a e z, (forall x, a <= x < e -> g x = f x) -> tiles f a bs e z -> tiles g a bs e z.
Proof.
  induction bs as [|[n fr] bs IH]; intros a e z Hx; cbn [tiles]; [done|].
  intros (Hn & Hh & Ht). pose proof (tiles_end _ _ _ _ _ Ht) as [Ee Hs]. unfold wf_size in Hn.
  split; [done|]. split; [eapply hdr_ext; [|exact Hh]|apply IH; [|done]]; intros; apply Hx; lia.
Qed.

Lemma tiles_app f bs1 bs2 : forall a e z,
  tiles f a (bs1 ++ bs2) e z <-> exists m, tiles f a bs1 m (next_of m bs2 z) /\ tiles f m bs2 e z.
Proof.
  induction bs1 as [|[n fr] bs1 IH]; intros a e z; cbn [app tiles].
  - split; [intros Ht; by exists a|]. by intros (m & -> & Ht).
  - rewrite IH. assert (Hn : forall m, tiles f (a + n) bs1 m (next_of m bs2 z) ->
      next_of (a + n) (bs1 ++ bs2) z = next_of (a + n) bs1 (next_of m bs2 z)).
    { intros m Hm. destruct bs1; [|done]. cbn in Hm. by subst m. }
    split.
    + intros (Hs & Hh & m & H1 & H2). exists m. rewrite <- (Hn m H1). done.
    + intros (m & (Hs & Hh & H1) & H2). rewrite (Hn m H1). split_and!; [done..|]. by exists m.
Qed.

(** ** Objects: the payloads of the blocks in use *)

Definition payload (f : Z -> Z) (a n : Z) : list Z := f <$> seqZ (a + 24) (n - 24).

Fixpoint objects (f : Z -> Z) (a : Z) (bs : list ublk) : gmap Z (list Z) :=
  match bs with
  | [] => ∅
  | (n, fr) :: bs => if fr then objects f (a + n) bs else <[a + 24 := payload f a n]> (objects f (a + n) bs)
  end.

Lemma payload_ext f g a n : (forall x, a + 24 <= x < a + n -> g x = f x) -> payload g a n = payload f a n.
Proof. intros Hx. apply list_fmap_ext. intros i x Hi. apply lookup_seqZ in Hi as [-> Hi]. apply Hx. lia. Qed.

Lemma objects_ext f g bs : forall a e z, tiles f a bs e z ->
  (forall x, a <= x < e -> g x = f x) -> objects g a bs = objects f a bs.
Proof.
  induction bs as [|[n fr] bs IH]; intros a e z; cbn [tiles objects]; [done|].
  intros (Hn & _ & Ht) Hx. pose proof (tiles_end _ _ _ _ _ Ht) as [-> Hs]. unfold wf_size in Hn.
  rewrite (IH _ _ _ Ht) by (intros; apply Hx; lia). destruct fr; [done|].
  f_equal. apply payload_ext. intros; apply Hx; lia.
Qed.

Lemma objects_below f bs : forall a e z p, tiles f a bs e z -> p < a + 24 -> objects f a bs !! p = None.
Proof.
  induction bs as [|[n fr] bs IH]; intros a e z p; cbn [tiles objects]; [done|].
  intros (Hn & _ & Ht) Hp. unfold wf_size in Hn. destruct fr; [|rewrite lookup_insert_ne by lia]; eapply IH; eauto; lia.
Qed.

Lemma objects_above f bs : forall a e z p, tiles f a bs e z -> e < p -> objects f a bs !! p = None.
Proof.
  induction bs as [|[n fr] bs IH]; intros a e z p; cbn [tiles objects]; [done|].
  intros (Hn & _ & Ht) Hp. pose proof (tiles_end _ _ _ _ _ Ht) as [-> Hs]. unfold wf_size in Hn.
  destruct fr; [|rewrite lookup_insert_ne by lia]; eapply IH; eauto; lia.
Qed.

Lemma objects_app f bs1 bs2 : forall a z m, tiles f a bs1 m z ->
  objects f a (bs1 ++ bs2) = objects f a bs1 ∪ objects f m bs2.
Proof.
  induction bs1 as [|[n fr] bs1 IH]; intros a z m; cbn [tiles objects app].
  - intros ->. by rewrite (left_id_L ∅ (∪)).
  - intros (Hn & _ & Ht). rewrite (IH _ _ _ Ht). destruct fr; [done|]. by rewrite insert_union_l.
Qed.

(** An object is the payload of a block in use. *)
Lemma objects_inv f bs : forall a p c, objects f a bs !! p = Some c ->
  exists bs1 n bs2, bs = bs1 ++ (n, false) :: bs2 /\ p = a + total_size bs1 + 24 /\ c = payload f (a + total_size bs1) n.
Proof.
  induction bs as [|[n fr] bs IH]; intros a p c; cbn [objects]; [done|]. intros Hp.
  destruct fr; [|apply lookup_insert_Some in Hp as [[<- <-]|[_ Hp]]].
  - destruct (IH _ _ _ Hp) as (bs1 & m & bs2 & -> & -> & ->). exists ((n, true) :: bs1), m, bs2.
    unfold total_size, zsum. cbn [foldr fst]. split_and!; [done|lia|f_equal; lia].
  - exists [], n, bs. cbn. split_and!; [done|lia|f_equal; lia].
  - destruct (IH _ _ _ Hp) as (bs1 & m & bs2 & -> & -> & ->). exists ((n, false) :: bs1), m, bs2.
    unfold total_size, zsum. cbn [foldr fst]. split_and!; [done|lia|f_equal; lia].
Qed.

(** ** Single writes *)

(** Values after a sequence of writes, the last one first. *)
Ltac back :=
  repeat match goal with
  | Hk : wrote _ _ _ _ _ _ ?w' |- context [le ?k (byte ?w') ?b] =>
      first [rewrite (wr_val _ _ _ _ _ _ _ Hk) | rewrite (wrote_keep _ _ _ _ _ _ _ k b Hk) by lia]
  end.

(** The next write of the goal. *)
Ltac write_step lo hi :=
  match goal with
  | |- context [stle ?n ?a ?v ?w] =>
      let w' := fresh "w" in let Hk := fresh "Hk" in
      destruct (stle_wrote lo hi n w a v) as (w' & -> & Hk);
        [first [assumption|eapply wr_ok; eassumption]|lia|lia|lia|]; cbn [mbind option_bind]
  end.

Ltac read_step lo hi :=
  match goal with
  | |- context [ldle ?n ?a ?w] =>
      rewrite (proj1 (ldle_ok w lo hi n a ltac:(first [assumption|eapply wr_ok; eassumption]) ltac:(lia) ltac:(lia))); cbn [mbind option_bind]
  end.

Lemma hdr_reads lo hi w a n z fr : user_ok w lo hi -> lo <= a -> a + 24 <= hi -> hdr (byte w) a n z fr ->
  get_free a w = Some (b2z fr) /\ get_size a w = Some n /\ get_next a w = Some z.
Proof.
  intros Hw Ha Hh (<- & <- & E). unfold get_free, get_size, get_next.
  rewrite !(fun k b Hb Hb' => proj1 (ldle_ok w lo hi k b Hw Hb Hb')), E by lia. done.
Qed.

(** The bytes of [w'] outside of the addresses that [P] holds of. *)
Definition kept (lo hi : Z) (P : Z -> Prop) w w' : Prop :=
  forall x, lo <= x < hi -> ~ P x -> byte w' x = byte w x.

Ltac kept_tac :=
  let x := fresh "x" in intros x ? ?;
  repeat match goal with Hk : wrote _ _ _ _ _ _ ?w' |- context [byte ?w' x] => rewrite (wr_out _ _ _ _ _ _ _ Hk x) by lia end;
  reflexivity.

(** ** The search of [malloc] *)

Fixpoint fit (total a : Z) (bs : list ublk) : option (Z * list ublk) :=
  match bs with
  | [] => None
  | (n, fr) :: bs =>
      if fr && (total <=? n) then
        Some (a, if total + 40 <=? n then (total, false) :: (n - total, true) :: bs else (n, false) :: bs)
      else '(b, bs') ← fit total (a + n) bs; Some (b, (n, fr) :: bs')
  end.

Fixpoint last_of (prev a : Z) (bs : list ublk) : Z :=
  match bs with [] => prev | (n, _) :: bs => last_of a (a + n) bs end.

Lemma take_free_ok lo hi total a n bs e w :
  user_ok w lo hi -> hi <= 2 ^ 46 -> lo <= a -> e <= hi -> 24 <= total <= n ->
  tiles (byte w) a ((n, true) :: bs) e 0 ->
  let bs' := if total + 40 <=? n then (total, false) :: (n - total, true) :: bs else (n, false) :: bs in
  exists w', take_block total a n w = Some w' /\ user_ok w' lo hi /\ tiles (byte w') a bs' e 0 /\
    kept lo hi (fun x => a <= x < e) w w' /\
    exists m, total <= m /\ objects (byte w') a bs' = <[a + 24 := payload (byte w') a m]> (objects (byte w) a ((n, true) :: bs)).
Proof.
  intros Hw H46 Hlo Hhi Hn (Hs & (H1 & H2 & H3) & Ht) bs'. pose proof (user_range _ _ _ Hw).
  pose proof (tiles_end _ _ _ _ _ Ht) as [Ee Hts]. unfold take_block, sizeof_block_header, BLOCK_ALIGN, put_size, put_next, put_free, get_next.
  rewrite u64_small by lia. replace (total + 24 + 16) with (total + 40) by lia.
  subst bs'. destruct (Z.leb_spec (total + 40) n).
  - rewrite u64_small by lia. write_step lo hi. read_step lo hi.
    assert (E : le 8 (byte w0) (a + 8) = next_of (a + n) bs 0) by (back; done). rewrite E.
    assert (Hnx : 0 <= next_of (a + n) bs 0 <= hi) by (destruct bs as [|[]]; cbn; [lia|]; destruct Ht as (? & _ & Ht); pose proof (tiles_end _ _ _ _ _ Ht); unfold wf_size in *; lia).
    do 5 write_step lo hi. exists w5.
    assert (K : kept lo hi (fun x => a <= x < a + 24 \/ a + total <= x < a + total + 24) w w5) by kept_tac.
    split; [done|]. split; [eapply wr_ok; eassumption|]. split; [|split].
    + cbn [tiles next_of]. replace (a + total + (n - total)) with (a + n) by lia. unfold wf_size, hdr.
      split; [lia|]. split; [back; done|]. split; [lia|]. split; [back; done|].
      eapply tiles_ext; [|exact Ht]. intros x Hx. apply K; lia.
    + intros x Hx Hn'. apply K; lia.
    + exists total. split; [lia|]. cbn [objects]. f_equal. replace (a + total + (n - total)) with (a + n) by lia.
      eapply objects_ext; [exact Ht|]. intros x Hx. apply K; lia.
  - cbn [mbind option_bind]. write_step lo hi. exists w0.
    assert (K : kept lo hi (fun x => a <= x < a + 24) w w0) by kept_tac.
    split; [done|]. split; [eapply wr_ok; eassumption|]. split; [|split].
    + cbn [tiles next_of]. split; [done|]. split; [unfold hdr; back; done|]. eapply tiles_ext; [|exact Ht]. intros x Hx. apply K; lia.
    + intros x Hx Hn'. apply K; lia.
    + exists n. split; [lia|]. cbn [objects]. f_equal. eapply objects_ext; [exact Ht|]. intros x Hx. apply K; lia.
Qed.

Lemma fit_some total bs : forall a b bs', fit total a bs = Some (b, bs') -> bs <> [] /\ bs' <> [].
Proof.
  destruct bs as [|[n fr] bs]; intros a b bs'; cbn [fit]; [done|].
  repeat case_step; intros E; simplify_eq/=; try done. destruct (fit total (a + n) bs) as [[]|]; by simplify_eq/=.
Qed.

Lemma next_of_ne a bs bs' z : bs <> [] -> bs' <> [] -> next_of a bs z = next_of a bs' z.
Proof. by destruct bs, bs'. Qed.

Lemma malloc_loop_ok lo hi total w e : user_ok w lo hi -> hi <= 2 ^ 46 -> e <= hi -> 24 <= total -> forall bs fuel prev a,
  lo <= a -> tiles (byte w) a bs e 0 -> (length bs < fuel)%nat ->
  match fit total a bs with
  | Some (b, bs') => exists w' prev' m, malloc_loop fuel total prev (next_of a bs 0) w = Some (b + 24, prev', w') /\
      user_ok w' lo hi /\ tiles (byte w') a bs' e 0 /\ kept lo hi (fun x => a <= x < e) w w' /\
      total <= m /\ a <= b /\ objects (byte w) a bs !! (b + 24) = None /\
      objects (byte w') a bs' = <[b + 24 := payload (byte w') b m]> (objects (byte w) a bs)
  | None => malloc_loop fuel total prev (next_of a bs 0) w = Some (0, last_of prev a bs, w)
  end.
Proof.
  intros Hw H46 He Htot. pose proof (user_range _ _ _ Hw) as Hr.
  induction bs as [|[n fr] bs IH]; intros [|fuel] prev a Ha Ht Hf; cbn [length] in Hf; try lia; [done|].
  cbn [fit malloc_loop next_of]. rewrite (proj2 (Z.eqb_neq a 0)) by lia.
  pose proof Ht as (Hn & Hh & Ht'). pose proof (tiles_end _ _ _ _ _ Ht') as [Ee Hts]. unfold wf_size in Hn.
  destruct (hdr_reads lo hi w a _ _ _ Hw Ha ltac:(lia) Hh) as (-> & -> & ->). cbn [mbind option_bind].
  replace (nz (b2z fr)) with fr by (by destruct fr). destruct (fr && (total <=? n)) eqn:Eb.
  - apply andb_true_iff in Eb as [-> Hle%Z.leb_le].
    destruct (take_free_ok lo hi total a n bs e w) as (w' & -> & Hw' & Ht2 & K & m & Hm & Ho); try done; try lia.
    cbn [mbind option_bind]. rewrite u64_small by (unfold sizeof_block_header; lia). unfold sizeof_block_header.
    exists w', prev, m. split_and!; try done. cbn [objects]. eapply objects_below; [exact Ht'|lia].
  - specialize (IH fuel a (a + n) ltac:(lia) Ht' ltac:(lia)).
    destruct (fit total (a + n) bs) as [[b bs']|] eqn:Ef; cbn [mbind option_bind].
    + destruct IH as (w' & prev' & m & -> & Hw' & Ht2 & K & Hm & Hab & Hno & Ho).
      destruct (fit_some _ _ _ _ _ Ef) as [N1 N2].
      assert (Hk : forall x, a <= x < a + n -> byte w' x = byte w x) by (intros x Hx; apply K; lia).
      exists w', prev', m. split_and!; try done; try lia.
      * cbn [tiles]. split; [done|]. split; [|done]. rewrite (next_of_ne _ bs' bs) by done. eapply hdr_ext; [|exact Hh]. intros x Hx. apply Hk. lia.
      * intros x Hx Hout. apply K; lia.
      * cbn [objects]. destruct fr; [done|]. by rewrite lookup_insert_ne by lia.
      * cbn [objects]. rewrite Ho. destruct fr; [done|]. rewrite (payload_ext (byte w) (byte w')) by (intros; apply Hk; lia).
        apply insert_insert_ne. lia.
    + exact IH.
Qed.

(** ** The state of the heap and the objects in it *)

Definition heap_ok (lo hi : Z) (s : libc W) (objs : gmap Z (list Z)) : Prop :=
  exists bs a, user_ok (world s) lo hi /\ lo <= a /\ tiles (byte (world s)) a bs hi 0 /\
    free_list s = next_of a bs 0 /\ (heap_brk s = hi \/ bs = [] /\ heap_brk s = 0) /\
    objs = objects (byte (world s)) a bs.

Lemma tiles_length f bs : forall a e z, tiles f a bs e z -> 24 * Z.of_nat (length bs) <= e - a.
Proof.
  induction bs as [|[n fr] bs IH]; intros a e z; cbn [tiles length]; [lia|].
  intros (Hn & _ & Ht). specialize (IH _ _ _ Ht). unfold wf_size in Hn. lia.
Qed.

Lemma fuel_enough s f a bs e : 0 < a -> tiles f a bs e 0 -> free_list s = next_of a bs 0 -> heap_brk s = e \/ bs = [] ->
  (length bs < list_fuel s)%nat.
Proof.
  intros Ha Ht Hl Hb. pose proof (tiles_length _ _ _ _ _ Ht) as Hlen. unfold list_fuel. rewrite Hl.
  destruct bs as [|b bs]; [cbn; lia|]. destruct Hb as [->|]; [|done]. cbn [next_of]. rewrite (proj2 (Z.eqb_neq a 0)) by lia.
  apply Nat.lt_succ_r, Nat2Z.inj_le. unfold sizeof_block_header. rewrite Z2Nat.id by dlia. dlia.
Qed.

Lemma align_size_bounds n : 0 <= n -> n + 15 < 2 ^ 64 -> n <= align_size n <= n + 15.
Proof.
  intros Hn Hh. unfold align_size, BLOCK_ALIGN. change (u64 (Z.lnot (16 - 1))) with (mask64 4).
  rewrite u64_small, land_mask64 by lia. dlia.
Qed.

(** The break moves up, or the memory is as before. *)
Lemma sbrk_ok lo hi n s : user_ok (world s) lo hi -> heap_brk s = hi \/ heap_brk s = 0 -> 0 < n -> hi + n <= heap_limit ->
  match sbrk n s with
  | None => short (world s) n
  | Some (r, s') => (forall x, lo <= x < hi -> byte (world s') x = byte (world s) x) /\ free_list s' = free_list s /\
      ((r = hi /\ heap_brk s' = hi + n /\ user_ok (world s') lo (hi + n)) \/
       (r = MAP_FAILED /\ heap_brk s' = hi /\ user_ok (world s') lo hi /\ short (world s) n))
  end.
Proof.
  intros Hw Hb Hn Hh. pose proof (user_range _ _ _ Hw). pose proof heap_limit_small. unfold sbrk.
  assert (E : (if heap_brk s =? 0 then
      '(current_brk, w) ← brk_call 0 (world s);
      Some (if current_brk =? -1 then (false, set_world w s) else (true, set_brk (u64 current_brk) (set_world w s)))
    else Some (true, s)) = Some (true, set_brk hi s)).
  { destruct (Z.eqb_spec (heap_brk s) 0) as [E|]; [|destruct Hb as [E|]; [|done]; destruct s; cbn in *; by subst].
    rewrite (brk_now _ _ _ Hw). cbn [mbind option_bind]. rewrite (proj2 (Z.eqb_neq hi (-1))), u64_small by lia. by destruct s. }
  rewrite E. cbn [mbind option_bind negb]. cbn [heap_brk set_brk world].
  rewrite i64_small by lia. pose proof (brk_up _ _ _ (hi + n) Hw ltac:(lia) Hh) as Hup. replace (hi + n - hi) with n in Hup by lia.
  destruct (brk_call (hi + n) (world s)) as [[r w']|]; [|done]. cbn [mbind option_bind].
  destruct Hup as [Hk [[-> Hw']|(-> & Hw' & Hsh)]].
  - rewrite (proj2 (Z.eqb_neq _ (-1))) by lia. cbn. split; [intros x Hx; unfold byte; by rewrite Hk|]. split; [done|].
    left. rewrite u64_small by lia. done.
  - cbn. split; [intros x Hx; unfold byte; by rewrite Hk|]. split; [done|]. by right.
Qed.

Lemma tiles_relink f bs : bs <> [] -> forall a e z, tiles f a bs e z ->
  forall prev, let l := last_of prev a bs in a <= l /\ l + 24 <= e /\ le 8 f (l + 8) = z /\
  forall g z', (forall x, a <= x < e -> ~ l + 8 <= x < l + 16 -> g x = f x) -> le 8 g (l + 8) = z' ->
    tiles g a bs e z' /\ objects g a bs = objects f a bs.
Proof.
  induction bs as [|[n fr] bs IH]; intros Hne a e z Ht prev; [done|]. pose proof Ht as (Hn & Hh & Ht').
  pose proof (tiles_end _ _ _ _ _ Ht') as [Ee Hs]. unfold wf_size in Hn. cbn [last_of].
  destruct bs as [|b bs].
  - cbn in Ht'. subst e. cbn [last_of]. split; [lia|]. split; [lia|]. split; [apply Hh|]. intros g z' Hk Hz.
    destruct Hh as (H1 & H2 & H3). cbn [tiles objects next_of]. split; [split; [done|]; split; [|done]|].
    + split; [|split; [done|]]; [rewrite <- H1|rewrite <- H3]; apply le_ext; intros x Hx; apply Hk; lia.
    + destruct fr; [done|]. f_equal. apply payload_ext. intros; apply Hk; lia.
  - destruct (IH ltac:(done) _ _ _ Ht' a) as (Hl1 & Hl2 & Hl3 & Hl4). split; [lia|]. split; [lia|]. split; [done|].
    intros g z' Hk Hz. destruct (Hl4 g z') as [Ht2 Ho]; [intros x Hx; apply Hk; lia|done|]. split.
    + split; [done|]. split; [|done]. eapply hdr_ext; [|exact Hh]. intros x Hx. apply Hk; lia.
    + cbn [objects] in *. destruct fr; [done|]. rewrite Ho. f_equal. apply payload_ext. intros; apply Hk; lia.
Qed.

(** A block behind the others, linked to the last one. *)
Lemma append_ok lo hi total bs a w : user_ok w lo (hi + total) -> hi + total <= 2 ^ 46 -> 24 <= total -> lo <= a ->
  tiles (byte w) a bs hi 0 ->
  exists w', append_block hi total (last_of 0 a bs) w = Some w' /\
    user_ok w' lo (hi + total) /\ tiles (byte w') a (bs ++ [(total, false)]) (hi + total) 0 /\
    objects (byte w') a (bs ++ [(total, false)]) = <[hi + 24 := payload (byte w') hi total]> (objects (byte w) a bs) /\
    objects (byte w) a bs !! (hi + 24) = None.
Proof.
  intros Hw H46 Htot Ha Ht. pose proof (user_range _ _ _ Hw). pose proof (tiles_end _ _ _ _ _ Ht) as [Ee Hs].
  assert (Hno : objects (byte w) a bs !! (hi + 24) = None) by (eapply objects_above; [exact Ht|lia]).
  unfold append_block, put_size, put_next, put_free. do 3 write_step lo (hi + total).
  assert (K : kept lo (hi + total) (fun x => hi <= x < hi + 24) w w2) by kept_tac.
  assert (Hhdr : hdr (byte w2) hi total 0 false) by (unfold hdr; back; done).
  destruct (decide (bs = [])) as [->|Hne].
  - cbn in Ht. subst a. cbn [last_of]. exists w2. split; [done|]. split; [eapply wr_ok; eassumption|]. cbn [app tiles objects next_of].
    split; [|by split]. split; [unfold wf_size; lia|]. by split.
  - destruct (tiles_relink _ bs Hne _ _ _ Ht 0) as (Hl1 & Hl2 & _ & Hrel). set (l := last_of 0 a bs) in *.
    rewrite (proj2 (Z.eqb_neq l 0)) by lia. cbn [negb]. write_step lo (hi + total).
    exists w3. split; [done|]. split; [eapply wr_ok; eassumption|].
    destruct (Hrel (byte w3) hi) as [Ht2 Ho2]; [|by back|].
    { intros x Hx Hout. rewrite (wr_out _ _ _ _ _ _ _ Hk2) by lia. apply K; lia. }
    split; [|split].
    + apply tiles_app. exists hi. split; [done|]. cbn [tiles next_of]. split; [unfold wf_size; lia|]. split; [|done].
      eapply hdr_ext; [|exact Hhdr]. intros x Hx. apply (wr_out _ _ _ _ _ _ _ Hk2); lia.
    + rewrite (objects_app _ _ _ _ _ _ Ht2), Ho2. cbn [objects].
      rewrite <- insert_union_r by done. by rewrite (right_id_L ∅ (∪)).
    + done.
Qed.

Lemma malloc_ok lo hi s objs size : heap_ok lo hi s objs -> 0 <= size -> hi + size + 40 <= heap_limit ->
  match malloc size s with
  | None => short (world s) (size + 40)
  | Some (p, s') => exists hi', hi <= hi' <= hi + size + 40 /\
      ((p = 0 /\ (size = 0 \/ short (world s) (size + 40)) /\ heap_ok lo hi' s' objs) \/
       (0 < p /\ size <> 0 /\ objs !! p = None /\ exists c, align_size size <= Z.of_nat (length c) /\ heap_ok lo hi' s' (<[p := c]> objs)))
  end.
Proof.
  pose proof heap_limit_small as Hlim.
  intros (bs & a & Hw & Ha & Ht & Hl & Hb & ->) Hsz H46. pose proof (user_range _ _ _ Hw). unfold malloc.
  destruct (Z.eqb_spec size 0) as [->|Hs0].
  { exists hi. split; [lia|]. left. split; [done|]. split; [by left|]. by exists bs, a. }
  pose proof (align_size_bounds size Hsz ltac:(lia)) as Hal. set (n := align_size size) in *. unfold sizeof_block_header.
  rewrite u64_small by lia. set (total := n + 24).
  pose proof (malloc_loop_ok lo hi total (world s) hi Hw ltac:(lia) ltac:(lia) ltac:(lia) bs (list_fuel s) 0 a Ha Ht) as Hloop.
  rewrite <- Hl in Hloop. assert (Hf : (length bs < list_fuel s)%nat) by (eapply fuel_enough; [|exact Ht|done|]; [lia|tauto]).
  specialize (Hloop Hf). destruct (fit total a bs) as [[b bs']|] eqn:Ef.
  - destruct Hloop as (w' & prev' & m & -> & Hw' & Ht2 & K & Hm & Hab & Hno & Ho). cbn [mbind option_bind].
    rewrite (proj2 (Z.eqb_neq (b + 24) 0)) by lia. cbn [negb]. exists hi. split; [lia|]. right.
    split; [lia|]. split; [done|]. split; [done|]. exists (payload (byte w') b m).
    split; [unfold payload; rewrite length_fmap, length_seqZ; lia|].
    destruct (fit_some _ _ _ _ _ Ef) as [N1 N2]. exists bs', a. cbn [world set_world free_list heap_brk].
    split_and!; try done; [by rewrite (next_of_ne _ bs' bs)|]. destruct Hb as [->|[-> _]]; [by left|done].
  - rewrite Hloop. cbn [mbind option_bind]. cbn [negb]. rewrite Z.eqb_refl. cbn [negb].
    assert (Hb' : heap_brk s = hi \/ heap_brk s = 0) by tauto.
    pose proof (sbrk_ok lo hi total (set_world (world s) s) Hw Hb' ltac:(lia) ltac:(lia)) as Hsb.
    assert (Hsh : short (world s) total -> short (world s) (size + 40)) by (apply short_mono; lia).
    destruct (sbrk total (set_world (world s) s)) as [[r s1]|]; [|by apply Hsh]. cbn [mbind option_bind].
    destruct Hsb as (Hk & Hl1 & Hcases). cbn [set_world world free_list] in Hk, Hl1.
    assert (Ht1 : tiles (byte (world s1)) a bs hi 0) by (eapply tiles_ext; [|exact Ht]; intros x Hx; apply Hk; lia).
    assert (Ho1 : objects (byte (world s1)) a bs = objects (byte (world s)) a bs) by (eapply objects_ext; [exact Ht|]; intros x Hx; apply Hk; lia).
    destruct Hcases as [(-> & Hb1 & Hw1)|(-> & Hb1 & Hw1 & Hno)].
    + rewrite (proj2 (Z.eqb_neq hi MAP_FAILED)) by (change MAP_FAILED with (2 ^ 64 - 1); lia).
      destruct (append_ok lo hi total bs a (world s1) Hw1) as (w' & -> & Hw' & Ht2 & Ho2 & Hno); [lia|lia|done|done|].
      cbn [mbind option_bind]. rewrite Ho1 in Ho2, Hno. exists (hi + total). split; [lia|]. right.
      rewrite u64_small by lia. split; [lia|]. split; [done|]. split; [done|]. exists (payload (byte w') hi total).
      split; [unfold payload; rewrite length_fmap, length_seqZ; lia|]. exists (bs ++ [(total, false)]), a.
      assert (El : (last_of 0 a bs =? 0) = bool_decide (bs = [])).
      { destruct (decide (bs = [])) as [->|Hne]; [done|]. destruct (tiles_relink _ bs Hne _ _ _ Ht 0) as (? & _).
        rewrite bool_decide_eq_false_2 by done. apply Z.eqb_neq. lia. }
      rewrite El. case_bool_decide as Hnil; cbn [world set_world set_list free_list heap_brk]; rewrite Hb1.
      * subst bs. cbn in Ht. subst a. split_and!; try done. by left.
      * split_and!; try done; [|by left]. rewrite Hl1, Hl. by destruct bs.
    + rewrite Z.eqb_refl. exists hi. split; [lia|]. left. split; [done|]. split; [right; by apply Hsh|]. exists bs, a. rewrite Hl1, Hl, Ho1. split_and!; try done. by left.
Qed.

(** ** [free] *)

(** One pass: a free block takes up the free block behind it. *)
Fixpoint merge (bs : list ublk) : list ublk :=
  match bs with
  | (n1, true) :: (n2, true) :: bs => (n1 + n2, true) :: merge bs
  | b :: bs => b :: merge bs
  | [] => []
  end.

Lemma merge_nil bs : merge bs = [] <-> bs = [].
Proof. destruct bs as [|[? []] [|[? []]]]; done. Qed.

Lemma next_of_merge a bs z : next_of a (merge bs) z = next_of a bs z.
Proof. pose proof (merge_nil bs). destruct bs as [|b bs]; [done|]. destruct (merge (b :: bs)) eqn:E; [|done]. by destruct (proj1 H1). Qed.

(** The head of the list is kept when what follows it is changed. *)
Lemma tiles_cons f g a n fr bs bs' e : wf_size n -> hdr f a n (next_of (a + n) bs 0) fr -> (bs = [] <-> bs' = []) ->
  (forall x, a <= x < a + n -> g x = f x) -> tiles g (a + n) bs' e 0 -> objects g (a + n) bs' = objects f (a + n) bs ->
  tiles g a ((n, fr) :: bs') e 0 /\ objects g a ((n, fr) :: bs') = objects f a ((n, fr) :: bs).
Proof.
  unfold wf_size. intros Hn Hh Hnil Hk Ht Ho. split; [split; [done|split; [|done]]|].
  - replace (next_of (a + n) bs' 0) with (next_of (a + n) bs 0) by (destruct bs, bs'; done || naive_solver).
    eapply hdr_ext; [|exact Hh]. intros; apply Hk; lia.
  - cbn [objects]. rewrite Ho. destruct fr; [done|]. f_equal. apply payload_ext. intros; apply Hk; lia.
Qed.

Lemma merge_loop_ok lo hi e : e <= hi -> hi <= 2 ^ 46 -> forall k bs w a fuel, (length bs <= k)%nat ->
  user_ok w lo hi -> lo <= a -> tiles (byte w) a bs e 0 -> (length bs < fuel)%nat ->
  exists w', merge_loop fuel (next_of a bs 0) w = Some w' /\ user_ok w' lo hi /\ tiles (byte w') a (merge bs) e 0 /\
    kept lo hi (fun x => a <= x < e) w w' /\ objects (byte w') a (merge bs) = objects (byte w) a bs.
Proof.
  intros He H46. induction k as [|k IH]; intros bs w a [|fuel] Hlen Hw Ha Ht Hf; try lia.
  { destruct bs; [|cbn in Hlen; lia]. exists w. by split_and!. }
  pose proof (user_range _ _ _ Hw). destruct bs as [|[n1 fr1] bs]; [exists w; by split_and!|]. cbn [length] in Hlen, Hf.
  pose proof Ht as (Hn & Hh & Ht'). pose proof (tiles_end _ _ _ _ _ Ht') as [Ee Hts]. unfold wf_size in Hn.
  cbn [merge_loop next_of]. rewrite (proj2 (Z.eqb_neq a 0)) by lia.
  destruct (hdr_reads lo hi w a _ _ _ Hw Ha ltac:(lia) Hh) as (-> & Esz & Enx). rewrite Enx. cbn [mbind option_bind].
  replace (nz (b2z fr1)) with fr1 by (by destruct fr1).
  assert (Hsimple : merge ((n1, fr1) :: bs) = (n1, fr1) :: merge bs ->
    exists w', (next ← get_next a w; merge_loop fuel next w) = Some w' /\ user_ok w' lo hi /\ tiles (byte w') a (merge ((n1, fr1) :: bs)) e 0 /\
      kept lo hi (fun x => a <= x < e) w w' /\ objects (byte w') a (merge ((n1, fr1) :: bs)) = objects (byte w) a ((n1, fr1) :: bs)).
  { intros ->. rewrite Enx. cbn [mbind option_bind].
    destruct (IH bs w (a + n1) fuel) as (w' & -> & Hw' & Ht2 & K & Ho); try done; try lia.
    assert (Hk : forall x, a <= x < a + n1 -> byte w' x = byte w x) by (intros; apply K; lia).
    destruct (tiles_cons (byte w) (byte w') a n1 fr1 bs (merge bs) e) as [? ?]; try done; [by rewrite merge_nil|].
    exists w'. split_and!; try done. intros x Hx Hout. apply K; lia. }
  destruct bs as [|[n2 fr2] bs].
  { cbn [next_of nz Z.eqb negb andb]. rewrite andb_false_r. cbn [mbind option_bind]. apply Hsimple. by destruct fr1. }
  pose proof Ht' as (Hn2 & Hh2 & Ht2). pose proof (tiles_end _ _ _ _ _ Ht2) as [Ee2 Hts2]. unfold wf_size in Hn2.
  cbn [next_of] in *. assert (Hnz : nz (a + n1) = true) by (apply nz_true; lia). rewrite Hnz, andb_true_r.
  destruct fr1; [|apply Hsimple; by destruct fr2].
  destruct (hdr_reads lo hi w (a + n1) _ _ _ Hw ltac:(lia) ltac:(lia) Hh2) as (-> & Esz2 & Enx2). cbn [mbind option_bind].
  destruct fr2; cbn [b2z nz Z.eqb negb]; [|apply Hsimple; done].
  rewrite Esz, Esz2. cbn [mbind option_bind]. rewrite u64_small by lia. unfold put_size, put_next.
  destruct (stle_wrote lo hi 8 w a (n1 + n2) Hw Ha ltac:(lia) ltac:(lia)) as (w1 & -> & Hk1). cbn [mbind option_bind].
  assert (Hh2' : hdr (byte w1) (a + n1) n2 (next_of (a + n1 + n2) bs 0) true).
  { eapply hdr_ext; [|exact Hh2]. intros x Hx. apply (wr_out _ _ _ _ _ _ _ Hk1); lia. }
  destruct (hdr_reads lo hi w1 (a + n1) _ _ _ (wr_ok _ _ _ _ _ _ _ Hk1) ltac:(lia) ltac:(lia) Hh2') as (_ & _ & ->). cbn [mbind option_bind].
  assert (Hnb : 0 <= next_of (a + n1 + n2) bs 0 <= 2 ^ 46).
  { destruct bs as [|[]]; cbn; [lia|]. destruct Ht2 as (? & _ & Ht3). pose proof (tiles_end _ _ _ _ _ Ht3). unfold wf_size in *. lia. }
  destruct (stle_wrote lo hi 8 w1 (a + 8) (next_of (a + n1 + n2) bs 0) (wr_ok _ _ _ _ _ _ _ Hk1) ltac:(lia) ltac:(lia) ltac:(lia)) as (w2 & -> & Hk2).
  cbn [mbind option_bind].
  pose proof (wr_ok _ _ _ _ _ _ _ Hk2) as Hw2.
  assert (K12 : kept lo hi (fun x => a <= x < a + 16) w w2) by kept_tac.
  assert (Hh12 : hdr (byte w2) a (n1 + n2) (next_of (a + n1 + n2) bs 0) true).
  { destruct Hh as (_ & _ & H3). split; [by back|]. split; [by back|]. by back. }
  destruct (hdr_reads lo hi w2 a _ _ _ Hw2 Ha ltac:(lia) Hh12) as (_ & _ & ->). cbn [mbind option_bind].
  assert (Ht3 : tiles (byte w2) (a + n1 + n2) bs e 0) by (eapply tiles_ext; [|exact Ht2]; intros x Hx; apply K12; lia).
  cbn [length] in Hlen, Hf.
  destruct (IH bs w2 (a + n1 + n2) fuel) as (w' & -> & Hw' & Ht4 & K & Ho); try done; try lia.
  assert (Ho2 : objects (byte w2) (a + n1 + n2) bs = objects (byte w) (a + n1 + n2) bs) by (eapply objects_ext; [exact Ht2|]; intros x Hx; apply K12; lia).
  replace (a + n1 + n2) with (a + (n1 + n2)) in * by lia.
  destruct (tiles_cons (byte w2) (byte w') a (n1 + n2) true bs (merge bs) e) as [Ht5 Ho5]; try done; [unfold wf_size; lia|by rewrite merge_nil|intros; apply K; lia|].
  exists w'. cbn [merge]. split_and!; try done.
  - intros x Hx Hout. rewrite K, K12 by lia. done.
  - rewrite Ho5. cbn [objects]. by rewrite Ho2, Z.add_assoc.
Qed.

Lemma mark_free f g a bs1 n bs2 e : let b := a + total_size bs1 in
  tiles f a (bs1 ++ (n, false) :: bs2) e 0 -> (forall x, a <= x < e -> ~ b + 16 <= x < b + 20 -> g x = f x) -> le 4 g (b + 16) = 1 ->
  tiles g a (bs1 ++ (n, true) :: bs2) e 0 /\
  objects g a (bs1 ++ (n, true) :: bs2) = delete (b + 24) (objects f a (bs1 ++ (n, false) :: bs2)).
Proof.
  intros b Ht Hk Hv. apply tiles_app in Ht as (m & H1 & H2). pose proof (tiles_end _ _ _ _ _ H1) as [Em Hs1].
  fold b in Em. subst m. pose proof H2 as (Hn & Hh & H3). pose proof (tiles_end _ _ _ _ _ H3) as [Ee Hs3]. unfold wf_size in Hn. cbn [next_of] in H1.
  assert (H1' : tiles g a bs1 b b) by (eapply tiles_ext; [|exact H1]; intros; apply Hk; lia).
  assert (H3' : tiles g (b + n) bs2 e 0) by (eapply tiles_ext; [|exact H3]; intros; apply Hk; lia).
  split.
  - apply tiles_app. exists b. split; [done|]. split; [done|]. split; [|done]. destruct Hh as (E1 & E2 & E3).
    split; [|split; [|done]]; [rewrite <- E1|rewrite <- E2]; apply le_ext; intros; apply Hk; lia.
  - rewrite (objects_app _ _ _ _ _ _ H1), (objects_app _ _ _ _ _ _ H1'). cbn [objects].
    rewrite (objects_ext f g bs1 _ _ _ H1), (objects_ext f g bs2 _ _ _ H3) by (intros; apply Hk; lia).
    rewrite delete_union, delete_insert_id, (delete_id (objects f a bs1)); [done| |].
    + eapply objects_above; [exact H1|lia].
    + eapply objects_below; [exact H3|lia].
Qed.

Lemma free_ok lo hi s objs p c : heap_ok lo hi s objs -> hi <= 2 ^ 46 -> objs !! p = Some c ->
  exists s', free p s = Some s' /\ heap_ok lo hi s' (delete p objs).
Proof.
  intros (bs & a & Hw & Ha & Ht & Hl & Hb & ->) H46 Hp. pose proof (user_range _ _ _ Hw) as Hr.
  assert (Hf : (length bs < list_fuel s)%nat) by (eapply fuel_enough; [|exact Ht|done|]; [lia|tauto]).
  destruct (objects_inv _ _ _ _ _ Hp) as (bs1 & n & bs2 & -> & -> & ->).
  pose proof Ht as Ht0. apply tiles_app in Ht0 as (m & H1 & H2 & _ & H3).
  pose proof (tiles_end _ _ _ _ _ H1) as [Em Hs1]. pose proof (tiles_end _ _ _ _ _ H3) as [Ee Hs3]. unfold wf_size in H2.
  unfold free. rewrite (proj2 (Z.eqb_neq _ 0)) by lia. unfold sizeof_block_header. rewrite u64_small by lia.
  replace (a + total_size bs1 + 24 - 24) with (a + total_size bs1) by lia. unfold put_free.
  destruct (stle_wrote lo hi 4 (world s) (a + total_size bs1 + 16) 1 Hw ltac:(lia) ltac:(lia) ltac:(lia)) as (w1 & -> & Hk1).
  cbn [mbind option_bind]. destruct (mark_free (byte (world s)) (byte w1) a bs1 n bs2 hi) as [Ht1 Ho1]; [done| |by apply Hk1|].
  { intros x Hx Hout. apply (wr_out _ _ _ _ _ _ _ Hk1); lia. }
  assert (Hnx : next_of a (bs1 ++ (n, true) :: bs2) 0 = free_list s) by (rewrite Hl; by destruct bs1).
  rewrite <- Hnx. destruct (merge_loop_ok lo hi hi ltac:(lia) H46 _ (bs1 ++ (n, true) :: bs2) w1 a (list_fuel s) (Nat.le_refl _))
    as (w' & -> & Hw' & Ht' & K & Ho'); [apply Hk1|done|done|rewrite length_app in *; cbn [length] in *; lia|].
  cbn [mbind option_bind]. eexists. split; [done|]. exists (merge (bs1 ++ (n, true) :: bs2)), a. cbn [world set_world free_list heap_brk].
  split_and!; try done; [by rewrite next_of_merge| |exact (eq_trans (eq_sym Ho1) (eq_sym Ho'))].
  left. destruct Hb as [|[Hb _]]; [done|]. by destruct bs1.
Qed.

(** ** The bytes of objects *)

Lemma objects_range f bs : forall a e z p c, tiles f a bs e z -> objects f a bs !! p = Some c ->
  a + 24 <= p /\ p + Z.of_nat (length c) <= e /\ c = f <$> seqZ p (Z.of_nat (length c)) /\
  forall g, (forall x, a <= x < e -> ~ p <= x < p + Z.of_nat (length c) -> g x = f x) ->
    tiles g a bs e z /\ objects g a bs = <[p := g <$> seqZ p (Z.of_nat (length c))]> (objects f a bs).
Proof.
  induction bs as [|[n fr] bs IH]; intros a e z p c Ht Hp; [done|]. pose proof Ht as (Hn & Hh & Ht').
  pose proof (tiles_end _ _ _ _ _ Ht') as [Ee Hs]. unfold wf_size in Hn. cbn [objects] in Hp.
  assert (Hhead : p = a + 24 -> fr = false -> c = payload f a n -> a + 24 <= p /\ p + Z.of_nat (length c) <= e /\ c = f <$> seqZ p (Z.of_nat (length c)) /\
    forall g, (forall x, a <= x < e -> ~ p <= x < p + Z.of_nat (length c) -> g x = f x) ->
    tiles g a ((n, fr) :: bs) e z /\ objects g a ((n, fr) :: bs) = <[p := g <$> seqZ p (Z.of_nat (length c))]> (objects f a ((n, fr) :: bs))).
  { intros -> -> ->. unfold payload. rewrite length_fmap, length_seqZ, Z2Nat.id by lia. split_and!; [lia|lia|done|]. intros g Hk. split.
    - split; [done|]. split; [eapply hdr_ext; [|exact Hh]; intros; apply Hk; lia|]. eapply tiles_ext; [|exact Ht']. intros; apply Hk; lia.
    - cbn [objects]. rewrite insert_insert_eq. f_equal. eapply objects_ext; [exact Ht'|]. intros; apply Hk; lia. }
  destruct fr; [|apply lookup_insert_Some in Hp as [[<- <-]|[Hne Hp]]; [by apply Hhead|]].
  all: destruct (IH _ _ _ _ _ Ht' Hp) as (Hr1 & Hr2 & Hc & Hrel); split; [lia|]; split; [done|]; split; [done|]; intros g Hk.
  all: destruct (Hrel g) as [Ht2 Ho2]; [intros; apply Hk; lia|]; split; [split; [done|]; split; [|done]; eapply hdr_ext; [|exact Hh]; intros; apply Hk; lia|].
  - exact Ho2.
  - cbn [objects]. rewrite Ho2, (payload_ext f g) by (intros; apply Hk; lia). by apply insert_insert_ne.
Qed.

(** What a program does to the bytes of an object changes that object only. *)
Lemma touch_ok lo hi s objs p c : heap_ok lo hi s objs -> objs !! p = Some c ->
  let k := Z.of_nat (length c) in lo < p /\ p + k <= hi /\ c = byte (world s) <$> seqZ p k /\
  forall w', user_ok w' lo hi -> kept lo hi (fun x => p <= x < p + k) (world s) w' ->
    heap_ok lo hi (set_world w' s) (<[p := byte w' <$> seqZ p k]> objs).
Proof.
  intros (bs & a & Hw & Ha & Ht & Hl & Hb & ->) Hp k.
  destruct (objects_range _ _ _ _ _ _ _ Ht Hp) as (H1 & H2 & Hc & Hrel). fold k in H2, Hc, Hrel. split_and!; [lia|done|done|].
  intros w' Hw' K. destruct (Hrel (byte w')) as [Ht2 Ho2]; [intros; apply K; lia|].
  exists bs, a. by split_and!.
Qed.

Lemma objects_apart lo hi s objs p q c d : heap_ok lo hi s objs -> objs !! p = Some c -> objs !! q = Some d -> p <> q ->
  p + Z.of_nat (length c) <= q \/ q + Z.of_nat (length d) <= p.
Proof.
  intros (bs & a & _ & _ & Ht & _ & _ & ->). revert a Ht. induction bs as [|[n fr] bs IH]; intros a Ht Hp Hq Hne; [done|].
  pose proof Ht as (Hn & _ & Ht'). unfold wf_size in Hn. cbn [objects] in Hp, Hq. destruct fr; [by apply (IH (a + n))|].
  apply lookup_insert_Some in Hp as [[<- <-]|[_ Hp]]; apply lookup_insert_Some in Hq as [[<- <-]|[_ Hq]]; [done| | |by apply (IH (a + n))].
  - destruct (objects_range _ _ _ _ _ _ _ Ht' Hq) as (? & _). left. unfold payload. rewrite length_fmap, length_seqZ. lia.
  - destruct (objects_range _ _ _ _ _ _ _ Ht' Hp) as (? & _). right. unfold payload. rewrite length_fmap, length_seqZ. lia.
Qed.

Lemma byte_st8 lo hi w a v : user_ok w lo hi -> lo <= a < hi ->
  exists w', st8 a v w = Some w' /\ user_ok w' lo hi /\ forall x, lo <= x < hi -> byte w' x = if x =? a then u8 v else byte w x.
Proof.
  intros Hw Ha. destruct (st8_ok w lo hi a v Hw Ha) as (w' & E & Hw' & Hb). exists w'. split_and!; [done..|].
  intros x Hx. unfold byte. rewrite Hb by done. by destruct (x =? a).
Qed.

Lemma memset_ok lo hi c n : forall a w, user_ok w lo hi -> lo <= a -> a + Z.of_nat n <= hi ->
  exists w', memset_ a c n w = Some w' /\ user_ok w' lo hi /\ kept lo hi (fun x => a <= x < a + Z.of_nat n) w w' /\
    forall x, a <= x < a + Z.of_nat n -> byte w' x = u8 c.
Proof.
  induction n as [|n IH]; intros a w Hw Hlo Hhi; cbn [memset_]; [exists w; by split_and!; [..|lia]|].
  destruct (byte_st8 lo hi w a c Hw) as (w1 & -> & Hw1 & Hb1); [lia|]. cbn [mbind option_bind].
  destruct (IH (a + 1) w1 Hw1) as (w2 & -> & Hw2 & K & Hb2); [lia..|]. exists w2. split_and!; [done..| |].
  - intros x Hx Hout. rewrite K, Hb1 by lia. by rewrite (proj2 (Z.eqb_neq x a)) by lia.
  - intros x Hx. destruct (decide (x = a)) as [->|]; [|apply Hb2; lia]. rewrite K, Hb1 by lia. by rewrite Z.eqb_refl.
Qed.

Lemma memcpy_ok lo hi n : forall d a w, user_ok w lo hi -> lo <= a -> a + Z.of_nat n <= hi -> lo <= d -> d + Z.of_nat n <= hi ->
  d + Z.of_nat n <= a \/ a + Z.of_nat n <= d ->
  exists w', memcpy_ d a n w = Some w' /\ user_ok w' lo hi /\ kept lo hi (fun x => d <= x < d + Z.of_nat n) w w' /\
    forall i, 0 <= i < Z.of_nat n -> byte w' (d + i) = byte w (a + i).
Proof.
  induction n as [|n IH]; intros d a w Hw Ha1 Ha2 Hd1 Hd2 Hdis; cbn [memcpy_]; [exists w; by split_and!; [..|lia]|].
  destruct (byte_ok w lo hi a Hw) as [-> Hb]; [lia|]. cbn [mbind option_bind].
  destruct (byte_st8 lo hi w d (byte w a) Hw) as (w1 & -> & Hw1 & Hb1); [lia|]. cbn [mbind option_bind]. rewrite u8_small in Hb1 by lia.
  destruct (IH (d + 1) (a + 1) w1 Hw1) as (w2 & -> & Hw2 & K & Hb2); [lia..|]. exists w2. split_and!; [done..| |].
  - intros x Hx Hout. rewrite K, Hb1 by lia. by rewrite (proj2 (Z.eqb_neq x d)) by lia.
  - intros i Hi. destruct (decide (i = 0)) as [->|].
    + rewrite !Z.add_0_r, K, Hb1 by lia. by rewrite Z.eqb_refl.
    + specialize (Hb2 (i - 1) ltac:(lia)). replace (d + 1 + (i - 1)) with (d + i) in Hb2 by lia. rewrite Hb2, Hb1 by lia.
      rewrite (proj2 (Z.eqb_neq _ _)) by lia. f_equal. lia.
Qed.

(** ** Operations on objects *)

(** An allocation: a new object of at least [n] bytes, or the null pointer, for no bytes or
    when memory is short ([lack]). *)
Definition new_object (lack : Prop) (objs : gmap Z (list Z)) (n : Z) (P : list Z -> Prop) (r : Z) (objs' : gmap Z (list Z)) : Prop :=
  (r = 0 /\ objs' = objs /\ (n = 0 \/ lack)) \/
  (0 < r /\ objs !! r = None /\ exists c, n <= Z.of_nat (length c) /\ P c /\ objs' = <[r := c]> objs).

Inductive op :=
  | Malloc (size : Z) | Calloc (nmemb size : Z) | Realloc (ptr size : Z) | Free (ptr : Z)
  | Put (ptr i v : Z)    (* ptr[i] = v, of a char pointer *)
  | Get (ptr i : Z).

Definition run_op (o : op) s : option (Z * libc W) :=
  match o with
  | Malloc size => malloc size s
  | Calloc nmemb size => calloc nmemb size s
  | Realloc ptr size => realloc ptr size s
  | Free ptr => s ← free ptr s; Some (0, s)
  | Put ptr i v => w ← st8 (ptr + i) v (world s); Some (0, set_world w s)
  | Get ptr i => b ← ld8 (ptr + i) (world s); Some (b, s)
  end.

Definition live (objs : gmap Z (list Z)) (p i : Z) : Prop := exists c, objs !! p = Some c /\ 0 <= i < Z.of_nat (length c).

(** What a program may ask for. *)
Definition op_valid (o : op) (objs : gmap Z (list Z)) : Prop :=
  match o with
  | Malloc size => 0 <= size
  | Calloc nmemb size => 0 <= nmemb * size
  | Realloc ptr size => 0 <= size /\ (ptr = 0 \/ is_Some (objs !! ptr))
  | Free ptr => ptr = 0 \/ is_Some (objs !! ptr)
  | Put ptr i _ | Get ptr i => live objs ptr i
  end.

(** The memory an operation may take. *)
Definition op_size (o : op) : Z :=
  match o with Malloc n => n + 40 | Calloc k n => k * n + 40 | Realloc _ n => n + 40 | _ => 0 end.

Definition op_spec (lack : Prop) (o : op) (objs : gmap Z (list Z)) (r : Z) (objs' : gmap Z (list Z)) : Prop :=
  match o with
  | Malloc n => new_object lack objs n (fun _ => True) r objs'
  | Calloc k n => new_object lack objs (k * n) (fun c => take (Z.to_nat (k * n)) c = replicate (Z.to_nat (k * n)) 0) r objs'
  | Realloc p n =>
      if p =? 0 then new_object lack objs n (fun _ => True) r objs' else
      if n =? 0 then r = 0 /\ objs' = delete p objs else
      exists c, objs !! p = Some c /\
        ((r = p /\ n <= Z.of_nat (length c) /\ objs' = objs) \/
         (r = 0 /\ objs' = objs /\ lack) \/
         (0 < r /\ objs !! r = None /\ exists d, n <= Z.of_nat (length (c ++ d)) /\ objs' = <[r := c ++ d]> (delete p objs)))
  | Free p => r = 0 /\ objs' = (if p =? 0 then objs else delete p objs)
  | Put p i v => r = 0 /\ exists c, objs !! p = Some c /\ objs' = <[p := <[Z.to_nat i := u8 v]> c]> objs
  | Get p i => exists c, objs !! p = Some c /\ c !! Z.to_nat i = Some r /\ objs' = objs
  end.

Lemma object_size lo hi s objs p c : heap_ok lo hi s objs -> objs !! p = Some c ->
  get_size (p - 24) (world s) = Some (Z.of_nat (length c) + 24).
Proof.
  intros (bs & a & Hw & Ha & Ht & _ & _ & ->) Hp. destruct (objects_inv _ _ _ _ _ Hp) as (bs1 & n & bs2 & -> & -> & ->).
  apply tiles_app in Ht as (m & H1 & H2 & Hh & H3).
  pose proof (tiles_end _ _ _ _ _ H1) as [-> ?]. pose proof (tiles_end _ _ _ _ _ H3) as [-> ?]. unfold wf_size in H2.
  replace (a + total_size bs1 + 24 - 24) with (a + total_size bs1) by lia.
  destruct (hdr_reads lo _ (world s) (a + total_size bs1) n (next_of (a + total_size bs1 + n) bs2 0) false Hw) as (_ & -> & _); [lia|lia|exact Hh|]. f_equal.
  unfold payload. rewrite length_fmap, length_seqZ. lia.
Qed.

Lemma view_split (f : Z -> Z) p m k : 0 <= k <= m -> f <$> seqZ p m = (f <$> seqZ p k) ++ (f <$> seqZ (p + k) (m - k)).
Proof. intros Hk. replace m with (k + (m - k)) at 1 by lia. by rewrite seqZ_app, fmap_app by lia. Qed.

Lemma view_shift (f g : Z -> Z) p q k : (forall i, 0 <= i < k -> g (q + i) = f (p + i)) -> g <$> seqZ q k = f <$> seqZ p k.
Proof.
  intros Hi. apply list_eq. intros j. rewrite !list_lookup_fmap. destruct (decide (Z.of_nat j < k)).
  - rewrite !lookup_seqZ_lt by lia. cbn. f_equal. apply Hi. lia.
  - by rewrite !lookup_seqZ_ge by lia.
Qed.

Lemma view_insert (f g : Z -> Z) p c i v : c = f <$> seqZ p (Z.of_nat (length c)) -> 0 <= i < Z.of_nat (length c) ->
  (forall x, p <= x < p + Z.of_nat (length c) -> g x = if x =? p + i then v else f x) ->
  g <$> seqZ p (Z.of_nat (length c)) = <[Z.to_nat i := v]> c.
Proof.
  intros Hc Hi Hg. apply list_eq. intros j. rewrite list_lookup_fmap. destruct (decide (j < length c)%nat) as [Hj|Hj].
  - rewrite lookup_seqZ_lt by lia. cbn. rewrite Hg by lia. destruct (Z.eqb_spec (p + Z.of_nat j) (p + i)).
    + replace j with (Z.to_nat i) by lia. by rewrite list_lookup_insert_eq by lia.
    + rewrite list_lookup_insert_ne by lia. rewrite Hc, list_lookup_fmap, lookup_seqZ_lt by lia. done.
  - rewrite lookup_seqZ_ge by lia. symmetry. apply lookup_ge_None_2. rewrite length_insert. lia.
Qed.

Lemma calloc_ok lo hi s objs k n : heap_ok lo hi s objs -> 0 <= k * n -> hi + k * n + 40 <= heap_limit ->
  match calloc k n s with
  | None => short (world s) (k * n + 40)
  | Some (r, s') => exists hi' objs', hi <= hi' <= hi + (k * n + 40) /\ op_spec (short (world s) (k * n + 40)) (Calloc k n) objs r objs' /\ heap_ok lo hi' s' objs'
  end.
Proof.
  pose proof heap_limit_small as Hlim.
  intros Hs Hkn H46. pose proof Hs as (_ & _ & Hw & _). pose proof (user_range _ _ _ Hw) as Hr. unfold calloc. set (m := k * n) in *. rewrite u64_small by lia.
  pose proof (malloc_ok lo hi s objs m Hs Hkn ltac:(lia)) as Hm. destruct (malloc m s) as [[r s1]|]; [|done]. cbn [mbind option_bind].
  destruct Hm as (hi' & Hhi & [(-> & Hlack & Hs1)|(Hr0 & Hm0 & Hno & c & Hc & Hs1)]).
  - exists hi', objs. split; [lia|]. split; [by left|]. done.
  - rewrite (proj2 (Z.eqb_neq r 0)) by lia. pose proof (align_size_bounds m Hkn ltac:(lia)).
    destruct (touch_ok lo hi' s1 (<[r := c]> objs) r c Hs1) as (Hl & Hh & _ & Htouch); [apply lookup_insert_eq|]. pose proof Hs1 as (_ & _ & Hw1 & _).
    destruct (memset_ok lo hi' 0 (Z.to_nat m) r (world s1) Hw1) as (w' & -> & Hw' & K & Hz); [lia..|]. cbn [mbind option_bind].
    eexists hi', _. split; [lia|]. split; [|apply Htouch; [done|]; intros x Hx Hout; apply K; lia].
    right. split; [lia|]. split; [done|]. eexists. split; [|split; [|apply insert_insert_eq]].
    + rewrite length_fmap, length_seqZ. lia.
    + fold m. rewrite (view_split _ r (Z.of_nat (length c)) m) by lia. rewrite take_app_length' by (rewrite length_fmap, length_seqZ; lia).
      rewrite (view_shift (fun _ => 0) _ 0 r) by (intros; apply Hz; lia). apply list_eq. intros j.
      rewrite list_lookup_fmap. destruct (decide (Z.of_nat j < m)).
      * rewrite lookup_seqZ_lt, lookup_replicate_2 by lia. done.
      * rewrite lookup_seqZ_ge by lia. symmetry. apply lookup_ge_None_2. rewrite length_replicate. lia.
Qed.

Lemma realloc_ok lo hi s objs p n : heap_ok lo hi s objs -> 0 <= n -> p = 0 \/ is_Some (objs !! p) -> hi + n + 40 <= heap_limit ->
  match realloc p n s with
  | None => short (world s) (n + 40)
  | Some (r, s') => exists hi' objs', hi <= hi' <= hi + (n + 40) /\ op_spec (short (world s) (n + 40)) (Realloc p n) objs r objs' /\ heap_ok lo hi' s' objs'
  end.
Proof.
  pose proof heap_limit_small as Hlim.
  intros Hs Hn Hp H46. pose proof Hs as (_ & _ & Hw & _). pose proof (user_range _ _ _ Hw) as Hr. unfold realloc, op_spec.
  pose proof (malloc_ok lo hi s objs n Hs Hn ltac:(lia)) as Hm. pose proof (align_size_bounds n Hn ltac:(lia)) as Hal.
  destruct (Z.eqb_spec p 0) as [->|Hp0].
  { destruct (malloc n s) as [[r s1]|]; [|done]. destruct Hm as (hi' & Hhi & [(-> & Hlack & Hs1)|(Hr0 & Hm0 & Hno & c & Hc & Hs1)]).
    - exists hi', objs. split; [lia|]. split; [by left|done].
    - exists hi', (<[r := c]> objs). split; [lia|]. split; [right|done]. split_and!; [done|done|]. exists c. split_and!; [lia|done|done]. }
  destruct Hp as [|[c Hp]]; [done|]. pose proof (touch_ok lo hi s objs p c Hs Hp) as (Hl & Hh & _ & _).
  destruct (Z.eqb_spec n 0) as [->|Hn0].
  { destruct (free_ok lo hi s objs p c Hs ltac:(lia) Hp) as (s' & -> & Hs'). cbn [mbind option_bind]. exists hi, (delete p objs). by split_and!; [lia|lia|..]. }
  unfold sizeof_block_header. rewrite !u64_small by lia.
  assert (Hp24 : 24 <= p) by (destruct Hs as (bs & a & _ & Ha & Ht & _ & _ & ->); destruct (objects_range _ _ _ _ _ _ _ Ht Hp); lia).
  rewrite u64_small by lia. rewrite (object_size lo hi s objs p c Hs Hp). cbn [mbind option_bind].
  destruct (Z.leb_spec (align_size n + 24) (Z.of_nat (length c) + 24)).
  { exists hi, objs. split; [lia|]. split; [|done]. exists c. split; [done|]. left. split_and!; [done|lia|done]. }
  destruct (malloc n s) as [[q s1]|]; [|done]. cbn [mbind option_bind].
  destruct Hm as (hi' & Hhi & [(-> & Hlack & Hs1)|(Hr0 & _ & Hno & c0 & Hc & Hs1)]).
  { exists hi', objs. split; [lia|]. split; [|done]. exists c. split; [done|]. right. left. split_and!; [done|done|tauto]. }
  rewrite (proj2 (Z.eqb_neq q 0)) by lia.
  assert (Hqp : q <> p) by (intros ->; congruence).
  assert (Hp1 : <[q := c0]> objs !! p = Some c) by by rewrite lookup_insert_ne.
  assert (Hq1 : <[q := c0]> objs !! q = Some c0) by apply lookup_insert_eq.
  rewrite (object_size lo hi' s1 _ p c Hs1 Hp1). cbn [mbind option_bind].
  replace (Z.of_nat (length c) + 24 - 24) with (Z.of_nat (length c)) by lia. rewrite u64_small by lia. rewrite Nat2Z.id.
  destruct (touch_ok lo hi' s1 _ q c0 Hs1 Hq1) as (Hql & Hqh & _ & Htouch).
  destruct (touch_ok lo hi' s1 _ p c Hs1 Hp1) as (Hpl & Hph & Hcv & _).
  pose proof (objects_apart lo hi' s1 _ q p c0 c Hs1 Hq1 Hp1 Hqp) as Hap. pose proof Hs1 as (_ & _ & Hw1 & _).
  destruct (memcpy_ok lo hi' (length c) q p (world s1) Hw1) as (w' & -> & Hw' & K & Hcp); [lia..|]. cbn [mbind option_bind].
  assert (Hs2 := Htouch w' Hw' ltac:(intros x Hx Hout; apply K; lia)). rewrite insert_insert_eq in Hs2.
  rewrite (view_split _ q (Z.of_nat (length c0)) (Z.of_nat (length c))) in Hs2 by lia.
  rewrite (view_shift (byte (world s1)) _ p q) in Hs2 by done. rewrite <- Hcv in Hs2.
  match type of Hs2 with heap_ok _ _ _ (<[q := c ++ ?d]> _) => set (tl := d) in Hs2 end.
  destruct (free_ok lo hi' _ _ p c Hs2) as (s' & -> & Hs'); [lia|by rewrite lookup_insert_ne|]. cbn [mbind option_bind].
  rewrite delete_insert_ne in Hs' by done. exists hi', (<[q := c ++ tl]> (delete p objs)). split; [lia|]. split; [|done].
  exists c. split; [done|]. right. right. split; [done|]. split; [done|]. exists tl. split; [|done].
  unfold tl. rewrite length_app, length_fmap, length_seqZ. lia.
Qed.

(** Every operation refines its step on the store of objects. *)
Lemma run_op_refines lo hi s objs o :
  heap_ok lo hi s objs -> op_valid o objs -> hi + op_size o <= heap_limit ->
  match run_op o s with
  | None => 0 < op_size o /\ short (world s) (op_size o)
  | Some (r, s') => exists hi' objs', hi <= hi' <= hi + op_size o /\ op_spec (short (world s) (op_size o)) o objs r objs' /\ heap_ok lo hi' s' objs'
  end.
Proof.
  pose proof heap_limit_small as Hlim.
  intros Hs Hv H46. destruct o as [n|k n|p n|p|p i v|p i]; cbn [run_op op_valid op_size] in *.
  - pose proof (malloc_ok lo hi s objs n Hs Hv ltac:(lia)) as Hm. destruct (malloc n s) as [[r s1]|]; [|split; [lia|done]].
    destruct Hm as (hi' & Hhi & [(-> & Hlack & Hs1)|(Hr0 & Hm0 & Hno & c & Hc & Hs1)]); [exists hi', objs|exists hi', (<[r := c]> objs)];
      (split; [lia|]); (split; [|done]); [by left|right]. destruct Hs as (_ & _ & Hw & _). pose proof (user_range _ _ _ Hw).
    pose proof (align_size_bounds n Hv ltac:(lia)). split_and!; [done|done|]. exists c. split_and!; [lia|done|done].
  - pose proof (calloc_ok lo hi s objs k n Hs Hv ltac:(lia)) as Hm. destruct (calloc k n s) as [[r s1]|]; [done|split; [lia|done]].
  - destruct Hv as [Hn Hp]. pose proof (realloc_ok lo hi s objs p n Hs Hn Hp ltac:(lia)) as Hm. destruct (realloc p n s) as [[r s1]|]; [done|split; [lia|done]].
  - destruct (decide (p = 0)) as [->|Hp0]; [exists hi, objs; by split_and!; [lia|lia|..]|]. destruct Hv as [|[c Hp]]; [done|].
    destruct (free_ok lo hi s objs p c Hs ltac:(lia) Hp) as (s' & -> & Hs'). cbn [mbind option_bind].
    exists hi, (delete p objs). split; [lia|]. split; [|done]. cbn [op_spec]. by rewrite (proj2 (Z.eqb_neq p 0)) by done.
  - destruct Hv as (c & Hp & Hi). destruct (touch_ok lo hi s objs p c Hs Hp) as (Hl & Hh & Hcv & Htouch). pose proof Hs as (_ & _ & Hw & _).
    destruct (byte_st8 lo hi (world s) (p + i) v Hw) as (w' & -> & Hw' & Hb); [lia|]. cbn [mbind option_bind].
    eexists hi, _. split; [lia|]. split; [|apply Htouch; [done|]].
    + split; [done|]. exists c. split; [done|]. f_equal. apply (view_insert (byte (world s))); [done|done|intros; apply Hb; lia].
    + intros x Hx Hout. rewrite Hb by done. by rewrite (proj2 (Z.eqb_neq _ _)) by lia.
  - destruct Hv as (c & Hp & Hi). destruct (touch_ok lo hi s objs p c Hs Hp) as (Hl & Hh & Hcv & _). pose proof Hs as (_ & _ & Hw & _).
    destruct (byte_ok (world s) lo hi (p + i) Hw) as [-> _]; [lia|]. cbn [mbind option_bind]. exists hi, objs. split; [lia|]. split; [|done].
    exists c. split; [done|]. split; [|done]. rewrite Hcv, list_lookup_fmap, lookup_seqZ_lt by lia. cbn. do 2 f_equal. lia.
Qed.
End view.
