(* ===== verification/UserMem.v ===== *)
(** * The memory of a process as [UserSpace]

    Loads and stores go through the page tables of the running process, the break is moved
    by the kernel's [sys_brk]; the laws of [UserSpace] follow from what Paging and
    SyscallSpec prove.  So the heap of lib/libc.c runs on the kernel of this library. *)

From S2P Require Import Prelude Mem KMalloc Pmm Paging PageCount Elf ElfSpec Sched Vfs Disk Partition Boot Syscall Exec ExecSpec SyscallSpec UMalloc UMallocSpec.

Section kernel.
Context {H : Type}.
Implicit Types st : sys H.

Definition root_of st (c : nat) : Z := cr3 (proc_of st c).

(** An access of the running program: through its page tables. *)
Definition user_ld8 (a : Z) st : option Z :=
  c ← current_of st; pa ← translate (mem_of st) (root_of st c) a; Some (rd8 (mem_of st) pa).
Definition user_st8 (a v : Z) st : option (sys H) :=
  c ← current_of st; m ← vwr8 (root_of st c) a v (mem_of st); Some (set_kn (on_ram (fun _ => m) (kn st)) st).

#[export] Instance sys_user_space : UserSpace (sys H) := {
  ld8 := user_ld8; st8 := user_st8; brk_call := sys_brk }.

(** The process [c] runs; its heap is mapped up to the page of the break; above it nothing
    is mapped up to [lim], or no page is left. *)
Record heap_mapped (lim : Z) st (lo hi : Z) (c : nat) : Prop := {
  hm_current : current_of st = Some c;
  hm_slot : (c < length (processes (sc (kn st))))%nat;
  hm_space : as_inv (pages_of st) (root_of st c);
  hm_break : heap_end (proc_of st c) = hi;
  hm_region : region (pages_of st) (root_of st c) lo (page_up hi);
  hm_range : 0 < lo <= hi /\ hi <= 2 ^ 46;
  hm_above : (forall w, page_up hi <= w < page_up lim -> translate (ram (pages_of st)) (root_of st c) w = None) \/
             all_used (pages_of st) }.

Definition kernel_user_ok (lim : Z) st (lo hi : Z) : Prop := exists c, heap_mapped lim st lo hi c.

(** The new pages of [k] bytes, each with a page and at most three tables, may be more than
    the free pages. *)
Definition kernel_short st (k : Z) : Prop := Z.of_nat (free_pages (pages_of st)) <= 4 * (k / 4096 + 1).

Lemma kernel_short_mono st k k' : k <= k' -> kernel_short st k -> kernel_short st k'.
Proof. unfold kernel_short. intros Hk Hs. dlia. Qed.

Lemma page_up_bounds x : 0 <= x <= 2 ^ 46 -> page_up x mod 4096 = 0 /\ x <= page_up x < x + 4096.
Proof. intros Hx. unfold page_up. rewrite u64_small, land_mask64 by lia. change (2 ^ 12) with 4096. dlia. Qed.

Lemma all_used_grows p q : grows p q -> all_used p -> all_used q.
Proof.
  intros G Hu idx Hi. apply (gr_used _ _ G); [|apply Hu]; unfold is_page in *; by rewrite <- (gr_total _ _ G).
Qed.

Lemma mem_of_pages st : mem_of st = ram (pages_of st).
Proof. done. Qed.

Lemma user_ld8_ok lim st lo hi a : kernel_user_ok lim st lo hi -> lo <= a < hi ->
  exists b, user_ld8 a st = Some b /\ 0 <= b < 256.
Proof.
  intros (c & Hm) Ha. pose proof (page_up_bounds hi) as Hp. destruct (hm_range _ _ _ _ _ Hm) as [? ?].
  destruct (rg_bytes _ _ _ _ (hm_region _ _ _ _ _ Hm) a) as (pa & E & _); [lia|].
  exists (rd8 (mem_of st) pa). unfold user_ld8. rewrite (hm_current _ _ _ _ _ Hm). cbn [mbind option_bind].
  rewrite mem_of_pages, E. split; [done|apply rd8_range].
Qed.

Lemma user_ld8_vbyte lim st lo hi c x : heap_mapped lim st lo hi c -> lo <= x < page_up hi ->
  user_ld8 x st = Some (vbyte (root_of st c) (ram (pages_of st)) x).
Proof.
  intros Hm Hx. destruct (rg_bytes _ _ _ _ (hm_region _ _ _ _ _ Hm) x Hx) as (pa & E & _).
  unfold user_ld8, vbyte. rewrite (hm_current _ _ _ _ _ Hm). cbn [mbind option_bind]. by rewrite mem_of_pages, E.
Qed.

Lemma user_st8_ok lim st lo hi a v : kernel_user_ok lim st lo hi -> lo <= a < hi ->
  exists st', user_st8 a v st = Some st' /\ kernel_user_ok lim st' lo hi /\
    forall x, lo <= x < hi -> user_ld8 x st' = if x =? a then Some (u8 v) else user_ld8 x st.
Proof.
  intros (c & Hm) Ha. pose proof (page_up_bounds hi) as Hp. pose proof Hm as [Hc Hl Hs Hb Hr [Hlo Hhi] Hab].
  destruct (store_byte (pages_of st) (root_of st c) lo (page_up hi) a v Hs Hr) as (m & E & S & V); [lia|].
  exists (with_pages (set_ram m (pages_of st)) st). unfold user_st8. rewrite Hc. cbn [mbind option_bind]. rewrite mem_of_pages, E.
  cbn [mbind option_bind]. split; [done|].
  assert (Hm' : heap_mapped lim (with_pages (set_ram m (pages_of st)) st) lo hi c).
  { split; [done|done|apply S|done|apply S|done|]. destruct Hab as [Hun|Hu]; [left|right].
    - intros w Hw. change (translate m (root_of st c) w = None). rewrite (sd_translate _ _ _ _ _ S). by apply Hun.
    - exact (all_used_grows _ _ (sd_grows _ _ _ _ _ S) Hu). }
  split; [by exists c|]. intros x Hx.
  rewrite (user_ld8_vbyte _ _ _ _ _ x Hm'), (user_ld8_vbyte _ _ _ _ _ x Hm) by lia.
  change (root_of (with_pages _ st) c) with (root_of st c). change (ram (pages_of (with_pages (set_ram m (pages_of st)) st))) with m.
  rewrite V by lia. by destruct (x =? a).
Qed.

Lemma user_brk_now lim st lo hi : kernel_user_ok lim st lo hi -> sys_brk 0 st = Some (hi, st).
Proof.
  intros (c & [Hc Hl Hs Hb Hr [Hlo Hhi] Hab]). unfold sys_brk. rewrite Hc, Hb. cbn [Z.eqb]. unfold ret64. by rewrite i64_small by lia.
Qed.

(** Without a free page the break moves inside of its page only. *)
Lemma brk_pages_used root virt n st : pmm_inv (pages_of st) -> all_used (pages_of st) ->
  brk_pages root virt n st = Some (bool_decide (n = O), st).
Proof.
  intros Hp Hu. destruct n as [|n]; [done|]. cbn [brk_pages]. unfold on_pages at 1. fold (pages_of st).
  destruct (pmm_alloc_page (pages_of st)) as [p st1] eqn:Ea.
  destruct (pmm_alloc_cases _ p st1 Hp Ea) as [(-> & -> & _)|(idx & _ & _ & Hpa)].
  - cbn [Z.eqb]. f_equal. f_equal. apply with_pages_id.
  - pose proof (Hu idx (pa_page _ _ _ Hpa)). pose proof (pa_free _ _ _ Hpa). congruence.
Qed.

(** What of a process the break keeps. *)
Lemma on_proc_heap_end c v st : (c < length (processes (sc (kn st))))%nat ->
  heap_end (proc_of (on_proc c (set_heap_end v) st) c) = v /\ root_of (on_proc c (set_heap_end v) st) c = root_of st c.
Proof.
  intros Hl. unfold root_of, on_proc, proc_of, prc. cbn [kn set_kn mod_proc on_sched sc]. split.
  - rewrite proc_modify_eq by done. done.
  - by apply (proc_modify_proj cr3).
Qed.

Lemma on_proc_slots c f st : length (processes (sc (kn (on_proc c f st)))) = length (processes (sc (kn st))).
Proof. unfold on_proc. cbn [kn set_kn mod_proc on_sched sc]. by rewrite length_modify. Qed.

Lemma user_brk_up lim st lo hi n : lim <= 2 ^ 46 -> kernel_user_ok lim st lo hi -> hi < n -> n <= lim ->
  match sys_brk n st with
  | None => kernel_short st (n - hi)
  | Some (r, st') => (forall x, lo <= x < hi -> user_ld8 x st' = user_ld8 x st) /\
      ((r = n /\ kernel_user_ok lim st' lo n) \/ (r = -1 /\ kernel_user_ok lim st' lo hi /\ kernel_short st (n - hi)))
  end.
Proof.
  intros Hlim (c & Hm) Hn Hnl. pose proof Hm as [Hc Hl Hs Hb Hr [Hlo Hhi] Hab].
  pose proof (page_up_bounds hi ltac:(lia)) as [Hm1 Hb1]. pose proof (page_up_bounds n ltac:(lia)) as [Hm2 Hb2]. pose proof (page_up_bounds lim ltac:(lia)) as [Hm3 Hb3].
  assert (Hup : page_up hi <= page_up n <= page_up lim) by dlia.
  destruct Hab as [Hun|Hu].
  - pose proof (sys_brk_correct st c lo n Hc Hs) as Hbrk. cbv zeta in Hbrk. rewrite Hb in Hbrk.
    specialize (Hbrk Hr ltac:(lia) ltac:(lia) ltac:(lia) ltac:(intros w Hw; apply Hun; lia)).
    assert (Hshort : Z.of_nat (free_pages (pages_of st)) <= 4 * ((page_up n - page_up hi) / 4096) -> kernel_short st (n - hi)).
    { unfold kernel_short. clear -Hm1 Hb1 Hm2 Hb2 Hn. intros Hf. dlia. }
    destruct (sys_brk n st) as [[r st']|]; [|by apply Hshort].
    destruct Hbrk as (q & Hq & _ & [(-> & -> & Hz)|(-> & -> & (Hu & Hrg & Hk) & Hfree)]).
    + destruct (on_proc_heap_end c n (with_pages q st)) as [He Hroot]; [done|].
      assert (Hm' : heap_mapped lim (on_proc c (set_heap_end n) (with_pages q st)) lo n c).
      { split; [done|by rewrite on_proc_slots|by rewrite Hroot|done|rewrite Hroot; apply Hz|lia|]. rewrite Hroot.
        left. intros w Hw. change (translate (ram q) (root_of st c) w = None).
        rewrite (ze_above _ _ _ _ _ _ Hz) by lia. apply Hun. lia. }
      split; [|left; split; [done|by exists c]]. intros x Hx.
      rewrite (user_ld8_vbyte _ _ _ _ _ x Hm'), (user_ld8_vbyte _ _ _ _ _ x Hm), Hroot by lia. f_equal.
      apply (ze_kept _ _ _ _ _ _ Hz). lia.
    + assert (Hm' : heap_mapped lim (with_pages q st) lo hi c) by (split; try done; by right).
      split; [|right; split; [done|]; split; [by exists c|by apply Hshort]]. intros x Hx.
      rewrite (user_ld8_vbyte _ _ _ _ _ x Hm'), (user_ld8_vbyte _ _ _ _ _ x Hm) by lia. f_equal. apply Hk. lia.
  - unfold sys_brk. rewrite Hc, Hb. rewrite (proj2 (Z.eqb_neq n 0)), (u64_small n) by lia. rewrite (proj2 (Z.ltb_lt hi n)) by lia.
    rewrite brk_pages_used by (done || apply Hs). cbn [mbind option_bind]. case_bool_decide as Hz; cbn [negb].
    + assert (Ep : page_up n = page_up hi) by dlia. destruct (on_proc_heap_end c n st Hl) as [He Hroot].
      assert (Hm' : heap_mapped lim (on_proc c (set_heap_end n) st) lo n c).
      { split; [done|by rewrite on_proc_slots|by rewrite Hroot|done|by rewrite Hroot, Ep|lia|by right]. }
      split; [|left; split; [done|by exists c]]. intros x Hx.
      by rewrite (user_ld8_vbyte _ _ _ _ _ x Hm'), (user_ld8_vbyte _ _ _ _ _ x Hm), Hroot by lia.
    + split; [done|]. right. split; [done|]. split; [by exists c|]. unfold kernel_short. rewrite (all_used_free _ Hu). clear -Hn. dlia.
Qed.

Context (lim : Z) (lim_small : lim <= 2 ^ 46).

#[export] Instance sys_user_laws : UserSpaceLaws (sys H) := {|
  user_ok := kernel_user_ok lim; heap_limit := lim; heap_limit_small := lim_small; short := kernel_short; short_mono := kernel_short_mono;
  user_range w lo hi '(ex_intro _ c Hm) := proj1 (hm_range _ _ _ _ _ Hm);
  ld8_ok := user_ld8_ok lim;
  st8_ok := user_st8_ok lim;
  brk_now := user_brk_now lim;
  brk_up w lo hi n := user_brk_up lim w lo hi n lim_small |}.
(** C3. For a process of the kernel, with its page tables and its break: every call of the
    heap of the C library, and every access of the program to its objects, refines one
    step on the store of objects: a new object is none of the others and at least as large
    as asked, [calloc] zeroes it, [realloc] keeps the contents and drops the old object,
    [free] drops its object, and all other objects keep their bytes.  The null pointer means
    that no byte was asked for or that the kernel is short of pages: at most four free ones for
    each page of the size and a header.  Only then may the kernel itself fault on an
    allocation; nothing else faults, the lists of blocks always end, and the heap grows by
    no more than the size asked for and a header. *)
Theorem umalloc_refines lo hi (s : libc (sys H)) objs o :
  heap_ok lo hi s objs -> op_valid o objs -> hi + op_size o <= lim ->
  match run_op o s with
  | None => 0 < op_size o /\ kernel_short (world s) (op_size o)
  | Some (r, s') => exists hi' objs', hi <= hi' <= hi + op_size o /\ op_spec (kernel_short (world s) (op_size o)) o objs r objs' /\ heap_ok lo hi' s' objs'
  end.
Proof. exact (run_op_refines lo hi s objs o). Qed.
End kernel.

(** ** The demo process of SyscallSpec, whose heap is empty *)

Definition demo_libc : libc (sys bank) := Libc demo_sys 0 0.

Lemma demo_heap_ok : @heap_ok _ _ (sys_user_laws 0x50000000 ltac:(lia)) 0x40000000 0x40000000 demo_libc ∅.
Proof.
  exists [], 0x40000000. split; [|split; [lia|]; split_and!; [reflexivity|reflexivity|by right|reflexivity]]. exists 1%nat. split.
  - reflexivity.
  - vm_compute. lia.
  - apply demo_space_inv.
  - reflexivity.
  - apply region_empty.
  - lia.
  - left. intros w _. apply demo_unmapped.
Qed.

Lemma umalloc_refines_witness :
  exists s' c, run_op (Malloc 100) demo_libc = Some (0x40000018, s') /\ 100 <= Z.of_nat (length c) /\
    @heap_ok _ _ (sys_user_laws 0x50000000 ltac:(lia)) 0x40000000 0x40000088 s' {[0x40000018 := c]}.
Proof.
  pose proof (umalloc_refines 0x50000000 ltac:(lia) 0x40000000 0x40000000 demo_libc ∅ (Malloc 100) demo_heap_ok) as Hm.
  specialize (Hm ltac:(cbn; lia) ltac:(cbn; lia)).
  assert (Hr : (fun r => (r.1, heap_brk r.2)) <$> run_op (Malloc 100) demo_libc = Some (0x40000018, 0x40000088)) by (vm_compute; reflexivity).
  destruct (run_op (Malloc 100) demo_libc) as [[r s']|]; [|discriminate Hr]. injection Hr as -> Hb.
  destruct Hm as (hi' & objs' & _ & [[? _]|(_ & _ & c & Hc & _ & ->)] & Hs); [discriminate|].
  exists s', c. split; [reflexivity|]. split; [exact Hc|].
  assert (E : hi' = 0x40000088).
  { destruct Hs as (bs & a & Hw & _ & _ & _ & [?|[-> Hz]] & _); [congruence|]. rewrite Hb in Hz. discriminate. }
  subst hi'. exact Hs.
Defined.

(** ** What the hypotheses exclude *)

(** A size near [2^64] wraps to 0: the call succeeds with a block of no bytes. *)
Example malloc_wraps : (fun r => (r.1, heap_brk r.2)) <$> malloc (2 ^ 64 - 1) demo_libc = Some (0x40000018, 0x40000018).
Proof. vm_compute. reflexivity. Qed.

(** So does the product of [calloc]: 16 bytes for [2^64 + 16]. *)
Example calloc_wraps : (fun r => (r.1, heap_brk r.2)) <$> calloc (2 ^ 60 + 1) 16 demo_libc = Some (0x40000018, 0x40000028).
Proof. vm_compute. reflexivity. Qed.

(** Sizes are rounded to 16 but the header has 24 bytes: the results are not aligned to [BLOCK_ALIGN]. *)
Example malloc_misaligned : (fun r => r.1 mod BLOCK_ALIGN) <$> malloc 100 demo_libc = Some 8.
Proof. vm_compute. reflexivity. Qed.
